(* ===== verification/_CoqProject ===== *)
-Q . S2P
Prelude.v
Frame.v
Audio.v
AnnexB.v
Payload.v
PsDemux.v
PsMux.v
Rtp.v
RtpSend.v
Stream.v
Flv.v
Utf8.v
Amf.v
Rtmp.v
Gop.v
Keys.v
Source.v
Control.v
TsMux.v
TsDemux.v
TsStream.v
Bmff.v
Fmp4Mux.v
Fmp4Demux.v
Fmp4Stream.v
Text.v
RtspMsg.v
Auth.v
F64.v
Ws.v
Playback.v
Mp4Mux.v
Mp4Demux.v
Mp4Trip.v
Vod.v
RtmpSession.v
RtmpClient.v
RtspRtp.v
RtspMedia.v
RtspSdp.v
RtspSession.v
GbReorder.v
GbRtp.v
GbRelay.v
HttpBody.v
HttpPull.v
Hls.v
HlsRelay.v
Xml.v
SipMsg.v
SipServer.v
SipPorts.v
SipTrip.v
SipCatalog.v
