(* ===== verification/Prelude.v ===== *)
(** * ZLMediaKit-RS: a verification library for the media-server core

    ** The program

    ZLMediaKit-RS is a streaming server: publishers send audio and video over
    RTMP, RTSP, SRT or RTP, players and downstream servers receive it over the
    same protocols, over HTTP (FLV, TS, fragmented MP4, HLS), WebSockets or
    WebRTC.  A protocol session ([crates/rtmp], [crates/rtsp], [crates/srt],
    [crates/http], [crates/webrtc]) turns bytes into [MediaFrame]s and hands
    them to a [MediaSource] of [crates/core], which caches the last group of
    pictures and broadcasts the frames; the playing sessions turn frames into
    bytes of their protocol, through the muxers of [crates/core],
    [crates/flv], [crates/hls] and [crates/mp4].  Pull clients fetch streams of
    other servers, recorders write files that are played on demand.

    ** Files

    - [Prelude] (this file): integers, outcomes with errors and panics, loops
      with fuel, the weakest-precondition rules and tactics, lists.
    - [Utf8], [Text]: Rust strings as UTF-8 bytes and the string functions the
      parsers use.  [F64]: the floating-point operations of the sources, on
      bit patterns.  [Stream]: incremental parsers as a class (the core of the
      FLV, transport stream, RTMP and WebSocket readers).
    - [Frame]: [core/src/media_frame.rs], [core/src/error.rs].
      [Audio], [AnnexB]: [codec/src/*.rs].  [Payload]: [core/src/payload.rs].
    - [PsDemux], [PsMux]: program streams ([codec/src/ps.rs],
      [core/src/ps.rs]).  [Rtp], [RtpSend]: [core/src/rtp.rs] and
      [webrtc/src/h264_rtp.rs].  [Flv]: [flv/src/{muxer,demuxer}.rs].
    - [GbReorder], [GbRtp], [GbRelay]: RTP ports, [srt/src/gb28181/
      rtp_server.rs]: the reordering buffer, the payload formats with the
      manager of the ports, and what a port makes of the packets of a sender.
    - [Amf], [Rtmp], [RtmpSession], [RtmpClient]: [rtmp/src/*.rs].
    - [Gop], [Keys], [Source], [Control]: the GOP cache, stream keys, sources
      with their readers and registry, stream proxies and pushers
      ([core/src/{gop_cache,media_source,event_bus,stream_proxy,
      stream_pusher}.rs] and the supervisors of [server/src/main.rs]).
    - [TsMux], [TsDemux], [TsStream]: transport streams ([hls/src/muxer.rs],
      [hls/src/live_ts.rs], [srt/src/server.rs]).
    - [Bmff], [Fmp4Mux], [Fmp4Demux], [Fmp4Stream]: fragmented MP4
      ([mp4/src/fmp4.rs], [mp4/src/fragmented_demuxer.rs]).
    - [Mp4Mux], [Mp4Demux], [Mp4Trip], [Vod]: recordings ([mp4/src/{muxer,
      recorder,demuxer,vod}.rs]): writing, reading, both together, playback on
      demand.
    - [Auth]: [core/src/auth.rs] and [rtsp/src/client_transport.rs].
    - [RtspMsg], [RtspRtp], [RtspMedia], [RtspSdp], [RtspSession]:
      [rtsp/src/{parser,session,push_client,pull_client}.rs].
    - [Ws], [Playback]: [http/src/ws.rs] and the play routes of
      [http/src/session.rs].
    - [HttpBody], [HttpPull]: [http/src/pull_client.rs]: addresses, responses
      and bodies; then playlists and the loops that republish a stream.
    - [Hls], [HlsRelay]: [hls/src/{muxer,recorder,cmaf}.rs], and the HLS
      handlers of [http/src/session.rs] together with the pull client.
    - [Xml], [SipMsg], [SipServer], [SipPorts], [SipTrip], [SipCatalog]: the
      SIP server of GB28181, [srt/src/gb28181/{xml,sip}.rs]: the XML reader,
      the messages, the server with its handlers, the ports its dialogs own,
      what is lost of a message, a query with its answer.

    ** Conventions

    A function of the source is a function of the same name; a method that
    changes [self] returns the new state.  A machine integer is a [Z] (in
    [nat] for positions and lengths) whose casts and wrap-arounds are written
    out.  Code that can fail returns an [outcome]: [Ok], [Err] with the
    source's error, or [Panic] for an index, slice or arithmetic operation that
    panics (arithmetic as in debug builds, where a file does not say
    otherwise).  Where the source indexes behind a length test the model
    indexes too, so that the absence of panics is proved and not assumed.  A
    loop carries fuel and answers [NoFuel] when it runs out; the fuel is the
    length of the input plus one, and the totality theorems (or the
    equations that give [Ok]) show that it is enough.  Statements about
    outcomes use the predicates [wp], [safe] and [always] of this file, and
    [gives] where only a returned value is of interest.

    A session is a record with one definition per handler.  What it does to
    the rest of the server is a list of actions, what it asks of it is a record
    of answers that can differ at every step; so the theorems hold for every
    behaviour of the rest.  A loop that waits for several things at once is a
    recursion over the list of what happens ([Event] in [Playback], [Turn] in
    [HttpPull], [Received] in [Hls]).  Operations that run concurrently are
    step relations with one step per atomic update, or functions of the moment
    at which the other side looks ([HlsRelay]).  Code from other crates (MD5,
    SHA-256, Base64 in [Auth]; SHA-1 in [Playback]; AES and hexadecimal
    decoding in [HttpPull]; the injected muxer in [RtpSend]; the order in which
    a table is walked and the parser of addresses in [SipServer]) is a parameter
    with its documented laws where a theorem needs them, each with an instance
    that shows they can hold.

    ** What the theorems show

    - Round trips: program streams, RTMP chunk streams, transport streams,
      fragmented MP4, recordings, FLV, RTP, AMF0, WebSocket frames, RTSP
      requests, session descriptions and HLS playlists are read back by the
      counterpart that exists in the repository.
    - End to end: an RTMP publisher's messages reach an RTMP player and a
      pulling client; the RTMP and RTSP push clients complete their dialogue
      with the server's session and their frames reach the source; the packets
      of an RTP sender, displaced by the network, reach the source behind an
      RTP port; a stream served over WebSocket-FLV is received, one served
      over HTTP-FLV or HLS is republished by the pull client, for HLS under
      every interleaving of segmenting, serving and pulling, with the
      connections it opens and the one case in which it fails; a GB28181 device
      is asked for its channels and its answer reaches the caller.
    - Safety of sessions: sources are touched only after hook and signature
      passed; one task writes to a connection; requests are answered once;
      file names and resolved references stay below their root.
    - Refinement: the GOP cache answers as the whole history would; the
      depacketizers refine a specification on access units; the reordering
      buffer does on 16-bit numbers what its discipline does on positions; the
      Annex-B scanners agree with one reference.
    - Registries and ownership: sources, RTP senders and ports, proxies and
      pushers, the ports of SIP dialogs.
    - Totality: demuxers and decoders end without panicking on every input, or
      exactly with the exceptions the theorem names.
    - Defects the modelling showed are theorems on concrete or general inputs.

    ** Bounds

    Where a format cannot carry everything the bounds are hypotheses of the
    theorem.  Recordings ([recordable] in [Mp4Trip]): fewer than 2^21 samples
    and 2^29 bytes per track, sample rates of 1000 to 96000, times below 2^25
    ms.  Reordering ([GbReorder]): packets displaced by at most 31 places, 64
    in a row within 50 ms, and positions that differ by less than half the
    16-bit space.  HLS ([HlsRelay]): ten segments are kept, as in the source;
    at most 4096 segments of at most 64 MB each, since the client forgets
    what it has seen after 4096; samples without configuration frames.

    ** Not modelled

    Sockets, TLS, timers and task scheduling; the JSON interface and the files
    of the HTTP session; WebRTC transport; SRT; transcoding; DASH and the FLV and fragmented MP4 recorders; configuration,
    hooks over HTTP and the server's start-up.  They are input and output
    around the parts above or calls into other libraries. *)

From Stdlib Require Export ZArith Lia Sorted.
From stdpp Require Export base tactics list gmap strings fin_maps.

#[export] Set Default Goal Selector "!".

(** ** Machine integers and byte strings

    A [w]-bit unsigned integer of the source is a [Z] in [0, 2^w); the
    conversions below are Rust's [as u8], [as u16], ... casts.  A [usize]
    position or length is a [nat]: the buffers are in memory, so these
    quantities never reach the 64-bit bound. *)

Abbreviation bytes := (list Z).

Definition u8 (z : Z) : Z := (z mod 2 ^ 8)%Z.
Definition u16 (z : Z) : Z := (z mod 2 ^ 16)%Z.
Definition u32 (z : Z) : Z := (z mod 2 ^ 32)%Z.
Definition u64 (z : Z) : Z := (z mod 2 ^ 64)%Z.

(** [as i16], [as i32], ...: two's complement reading of the low bits. *)
Definition i16 (z : Z) : Z := ((z + 2 ^ 15) mod 2 ^ 16 - 2 ^ 15)%Z.
Definition i24 (z : Z) : Z := ((z + 2 ^ 23) mod 2 ^ 24 - 2 ^ 23)%Z.
Definition i32 (z : Z) : Z := ((z + 2 ^ 31) mod 2 ^ 32 - 2 ^ 31)%Z.

Definition i64 (z : Z) : Z := ((z + 2 ^ 63) mod 2 ^ 64 - 2 ^ 63)%Z.

Definition is_u8 (z : Z) : Prop := (0 <= z < 2 ^ 8)%Z.
Definition is_u16 (z : Z) : Prop := (0 <= z < 2 ^ 16)%Z.
Definition is_u32 (z : Z) : Prop := (0 <= z < 2 ^ 32)%Z.
Definition is_u64 (z : Z) : Prop := (0 <= z < 2 ^ 64)%Z.

(** A well-formed byte string: every element is a [u8]. *)
Definition bytes_ok (l : bytes) : Prop := Forall is_u8 l.

#[global] Instance is_u8_dec z : Decision (is_u8 z).
Proof. unfold is_u8. apply _. Defined.
#[global] Instance bytes_ok_dec l : Decision (bytes_ok l).
Proof. unfold bytes_ok. apply _. Defined.

(** [len() as u64]. *)
Definition zlen {A} (l : list A) : Z := Z.of_nat (length l).

(** Bit operations, written the way the source writes them. *)
Declare Scope bits_scope.
Delimit Scope bits_scope with bits.
Notation "a '.&' b" := (Z.land a b) (at level 40, left associativity) : bits_scope.
Notation "a '.|' b" := (Z.lor a b) (at level 50, left associativity) : bits_scope.
Notation "a '.^' b" := (Z.lxor a b) (at level 45, left associativity) : bits_scope.
Notation "a '.<<' n" := (Z.shiftl a n) (at level 38, left associativity) : bits_scope.
Notation "a '.>>' n" := (Z.shiftr a n) (at level 38, left associativity) : bits_scope.
#[export] Set Warnings "-notation-overridden".
Open Scope bits_scope.

(** Big-endian and little-endian conversions ([from_be_bytes],
    [to_be_bytes], [put_u16], [put_u32], ...). *)
Definition from_be (l : bytes) : Z := foldl (fun acc b => acc * 256 + b)%Z 0%Z l.
Definition from_le (l : bytes) : Z := from_be (reverse l).

Fixpoint to_be (n : nat) (x : Z) : bytes :=
  match n with
  | O => []
  | S n => ((x / 256 ^ Z.of_nat n) mod 256)%Z :: to_be n x
  end.

(** ** Results

    [Err] is Rust's [Result::Err], [Panic] an aborted computation (an index
    or slice out of range, an overflowing subtraction, [unreachable!]), and
    [NoFuel] the artefact of a bounded loop that did not finish: theorems
    show that neither of the last two is ever reached. *)

Inductive outcome (E A : Type) : Type :=
| Ok (a : A)
| Err (e : E)
| Panic
| NoFuel.
Arguments Ok {E A} a.
Arguments Err {E A} e.
Arguments Panic {E A}.
Arguments NoFuel {E A}.

#[global] Instance outcome_eq_dec {E A} `{EqDecision E, EqDecision A} :
  EqDecision (outcome E A).
Proof. solve_decision. Defined.

#[global] Instance outcome_ret {E} : MRet (outcome E) := fun A a => Ok a.
#[global] Instance outcome_bind {E} : MBind (outcome E) := fun A B f m =>
  match m with
  | Ok a => f a
  | Err e => Err e
  | Panic => Panic
  | NoFuel => NoFuel
  end.
#[global] Instance outcome_fmap {E} : FMap (outcome E) := fun A B f m =>
  match m with
  | Ok a => Ok (f a)
  | Err e => Err e
  | Panic => Panic
  | NoFuel => NoFuel
  end.

(** [data[i]]: panics out of range. *)
Definition idx {E} (data : bytes) (i : nat) : outcome E Z :=
  match data !! i with Some b => Ok b | None => Panic end.

(** [&data[i..j]]: panics when [i > j] or [j > data.len()]. *)
Definition slice {E A} (data : list A) (i j : nat) : outcome E (list A) :=
  if (i <=? j) && (j <=? length data) then Ok (take (j - i) (drop i data)) else Panic.

(** [usize] subtraction: panics on underflow (debug builds; in release builds
    the wrapped value would be used as a length and panic at the slice). *)
Definition usub {E} (a b : nat) : outcome E nat :=
  if b <=? a then Ok (a - b) else Panic.

(** [i64] arithmetic: panics on overflow in debug builds. *)
Definition i64_checked {E} (z : Z) : outcome E Z :=
  if ((- 2 ^ 63 <=? z) && (z <? 2 ^ 63))%Z then Ok z else Panic.

(** [b && m], [m] being evaluated only when [b] holds. *)
Definition andm {E} (b : bool) (m : outcome E bool) : outcome E bool :=
  if b then m else Ok false.

(** A [while]/[loop] statement: [body] either continues with a new loop state
    ([inl]) or leaves the loop with a result ([inr]). *)
Fixpoint loop {E S R} (fuel : nat) (body : S -> outcome E (S + R)) (s : S) : outcome E R :=
  match fuel with
  | O => NoFuel
  | S n =>
      match body s with
      | Ok (inl s') => loop n body s'
      | Ok (inr r) => Ok r
      | Err e => Err e
      | Panic => Panic
      | NoFuel => NoFuel
      end
  end.

(** ** Total-correctness specifications of outcomes *)

Definition wp {E A} (m : outcome E A) (Q : A -> Prop) (R : E -> Prop) : Prop :=
  match m with
  | Ok a => Q a
  | Err e => R e
  | Panic => False
  | NoFuel => False
  end.

(** The computation ends, with a value or an error, and never panics. *)
Definition safe {E A} (m : outcome E A) : Prop := wp m (fun _ => True) (fun _ => True).

(** It ends with a value. *)
Abbreviation always m := (wp m (fun _ => True) (fun _ => False)).

Section wp.
Context {E A B : Type}.
Implicit Types (m : outcome E A) (Q : A -> Prop) (R : E -> Prop).

Lemma wp_ok (a : A) Q R : Q a -> wp (Ok a) Q R.
Proof. done. Qed.

Lemma wp_err (e : E) Q R : R e -> wp (Err e) Q R.
Proof. done. Qed.

Lemma wp_bind (f : A -> outcome E B) m (Q : B -> Prop) R :
  wp m (fun a => wp (f a) Q R) R -> wp (m ≫= f) Q R.
Proof. by destruct m. Qed.

Lemma wp_mono m Q Q' R R' :
  wp m Q R -> (forall a, Q a -> Q' a) -> (forall e, R e -> R' e) -> wp m Q' R'.
Proof. destruct m; simpl; naive_solver. Qed.

Lemma wp_safe m Q R : wp m Q R -> safe m.
Proof. intros. by eapply wp_mono. Qed.

Lemma safe_inv m : safe m -> (exists a, m = Ok a) \/ (exists e, m = Err e).
Proof. destruct m; naive_solver. Qed.

Lemma always_inv m : always m -> exists a, m = Ok a.
Proof. destruct m; naive_solver. Qed.

Lemma wp_idx data i (Q : Z -> Prop) R :
  i < length data -> (forall b, data !! i = Some b -> Q b) -> wp (idx data i) Q R.
Proof.
  intros [b Hb]%lookup_lt_is_Some_2 HQ. unfold idx. rewrite Hb. by apply HQ.
Qed.

Lemma wp_slice {C} (data : list C) i j (Q : list C -> Prop) R :
  i <= j -> j <= length data -> Q (take (j - i) (drop i data)) -> wp (slice data i j) Q R.
Proof.
  intros ???. unfold slice.
  rewrite (proj2 (Nat.leb_le i j)), (proj2 (Nat.leb_le j _)) by done. done.
Qed.

Lemma wp_usub a b (Q : nat -> Prop) R : b <= a -> Q (a - b) -> wp (usub a b) Q R.
Proof. intros ??. unfold usub. by rewrite (proj2 (Nat.leb_le b a)). Qed.

Lemma wp_andm (b : bool) (m : outcome E bool) (Q : bool -> Prop) (R : E -> Prop) :
  (b = true -> wp m Q R) -> (b = false -> Q false) -> wp (andm b m) Q R.
Proof. destruct b; simpl; auto. Qed.

Lemma wp_i64 z (Q : Z -> Prop) (R : E -> Prop) :
  (- 2 ^ 63 <= z < 2 ^ 63)%Z -> Q z -> wp (i64_checked z) Q R.
Proof. intros ??. unfold i64_checked. destruct (Z.leb_spec (- 2 ^ 63) z), (Z.ltb_spec z (2 ^ 63)); (done || lia). Qed.

End wp.

(** Splits a computation at its binds, tests, indices and slices. *)
Ltac wp_auto :=
  repeat match goal with
  | |- wp (Ok _) _ _ => apply wp_ok
  | |- wp (Err _) _ _ => apply wp_err
  | |- wp (mbind _ _) _ _ => apply wp_bind
  | |- wp (andm _ _) _ _ => apply wp_andm; intros ?; cbv beta
  | |- wp (idx _ _) _ _ => apply wp_idx; [|intros ? ?; cbv beta]
  | |- wp (slice _ _ _) _ _ => apply wp_slice
  | |- wp (if ?b then _ else _) _ _ => destruct b eqn:?
  end.

(** Closes what [wp_auto] leaves: trivial postconditions and the index bounds
    that follow from the tests passed on the way. *)
Ltac wp_bounds :=
  repeat match goal with
  | H : (_ && _) = true |- _ => apply andb_true_iff in H as [? ?]
  | H : (_ || _) = false |- _ => apply orb_false_iff in H as [? ?]
  | H : (_ <=? _) = true |- _ => apply Nat.leb_le in H
  | H : (_ <=? _) = false |- _ => apply Nat.leb_gt in H
  | H : (_ <? _) = true |- _ => apply Nat.ltb_lt in H
  | H : (_ <? _) = false |- _ => apply Nat.ltb_ge in H
  end.
Ltac wp_side := try done; wp_bounds; try done; intros; try lia.

(** The loop rule: an invariant, and a measure that every continuing
    iteration decreases.  It yields termination within the fuel together
    with the absence of panics. *)
Lemma wp_loop {E S R} (body : S -> outcome E (S + R)) (Inv : S -> Prop) (mu : S -> nat)
    (Q : R -> Prop) (Re : E -> Prop) fuel s :
  (forall s, Inv s ->
     wp (body s) (fun o => match o with
                           | inl s' => Inv s' /\ mu s' < mu s
                           | inr r => Q r
                           end) Re) ->
  Inv s -> mu s < fuel -> wp (loop fuel body s) Q Re.
Proof.
  intros Hbody. revert s. induction fuel as [|fuel IH]; intros s HI Hmu; [lia|].
  simpl. specialize (Hbody s HI).
  destruct (body s) as [[s'|r]| | |]; simpl in *; try done.
  destruct Hbody as [??]. apply IH; [done|lia].
Qed.

(** What holds of the value of a computation that gives one; it may also fail,
    panic or not end. *)
Definition gives {E A} (m : outcome E A) (Q : A -> Prop) : Prop := forall a, m = Ok a -> Q a.

Section gives.
Context {E A B : Type}.
Implicit Types (m : outcome E A).

Lemma gives_ok (a : A) (Q : A -> Prop) : Q a -> gives (E := E) (Ok a) Q.
Proof. by intros ? ? [= <-]. Qed.

Lemma gives_err (e : E) (Q : A -> Prop) : gives (Err e) Q.
Proof. by intros ? ?. Qed.

Lemma gives_panic (Q : A -> Prop) : gives (E := E) Panic Q.
Proof. by intros ? ?. Qed.

Lemma gives_nofuel (Q : A -> Prop) : gives (E := E) NoFuel Q.
Proof. by intros ? ?. Qed.

Lemma gives_bind m (f : A -> outcome E B) (Q : B -> Prop) :
  gives m (fun a => gives (f a) Q) -> gives (m ≫= f) Q.
Proof. destruct m; try done. intros H. by apply (H a). Qed.

Lemma gives_mono m (P Q : A -> Prop) : gives m P -> (forall a, P a -> Q a) -> gives m Q.
Proof. intros H HPQ a Ha. by apply HPQ, H. Qed.

End gives.

Lemma gives_loop {E S R} (body : S -> outcome E (S + R)) (Inv : S -> Prop) (Q : R -> Prop) fuel s :
  (forall s, Inv s -> gives (body s) (fun o => match o with inl s' => Inv s' | inr r => Q r end)) ->
  Inv s -> gives (loop fuel body s) Q.
Proof.
  intros Hbody. revert s. induction fuel as [|fuel IH]; intros s HI; [by apply gives_nofuel|]. cbn [loop].
  specialize (Hbody s HI). destruct (body s) as [[s'|r]| | |]; [|by apply gives_ok, (Hbody (inr r))|done..].
  by apply IH, (Hbody (inl s')).
Qed.


Lemma gives_slice {E C} (l : list C) i j (Q : list C -> Prop) :
  Q (take (j - i) (drop i l)) -> gives (E := E) (slice l i j) Q.
Proof. unfold slice. case_match; [apply gives_ok|intros ? ? [=]]. Qed.

Ltac gives_auto :=
  repeat match goal with
  | |- gives (Ok _) _ => apply gives_ok
  | |- gives (Err _) _ => apply gives_err
  | |- gives Panic _ => apply gives_panic
  | |- gives NoFuel _ => apply gives_nofuel
  | |- gives (mbind _ _) _ => apply gives_bind
  | |- gives (slice _ _ _) _ => apply gives_slice
  | |- gives (if ?b then _ else _) _ => destruct b eqn:?
  end.

(** More fuel never changes a finished loop. *)
(** Loops whose states correspond. *)
Lemma loop_map {E S S' R R'} (body : S -> outcome E (S + R)) (body' : S' -> outcome E (S' + R')) (h : S -> S') (g : R -> R') fuel s :
  (forall s, body' (h s) = (o ← body s; Ok (match o with inl s' => inl (h s') | inr r => inr (g r) end))) ->
  loop fuel body' (h s) = (r ← loop fuel body s; Ok (g r)).
Proof.
  intros Hb. revert s. induction fuel as [|fuel IH]; intros s; [done|]. cbn [loop]. rewrite Hb.
  destruct (body s) as [[s'|r]| | |]; try done. apply IH.
Qed.

Lemma loop_fuel_mono {E S R} (body : S -> outcome E (S + R)) fuel fuel' s o :
  loop fuel body s = o -> o <> NoFuel -> fuel <= fuel' -> loop fuel' body s = o.
Proof.
  revert fuel' s. induction fuel as [|fuel IH]; intros fuel' s Ho Hn Hle; simpl in Ho.
  { congruence. }
  destruct fuel' as [|fuel']; [lia|]. simpl.
  destruct (body s) as [[s'|r]| | |]; try done. apply IH; [done..|lia].
Qed.

Lemma loop_unfold {E S R} (body : S -> outcome E (S + R)) fuel s :
  loop (1 + fuel) body s =
  match body s with
  | Ok (inl s') => loop fuel body s'
  | Ok (inr r) => Ok r
  | Err e => Err e
  | Panic => Panic
  | NoFuel => NoFuel
  end.
Proof. done. Qed.

(** ** Bit operations as arithmetic *)

Lemma land_mask (x i j : Z) :
  (0 <= i)%Z -> (0 <= j)%Z ->
  Z.land x ((2 ^ j - 1) * 2 ^ i) = (((x / 2 ^ i) mod 2 ^ j) * 2 ^ i)%Z.
Proof.
  intros Hi Hj.
  rewrite <-(Z.shiftl_mul_pow2 (2 ^ j - 1)), <-(Z.shiftl_mul_pow2 (_ mod _)) by done.
  rewrite <-Z.land_ones, <-Z.shiftr_div_pow2 by done.
  replace (2 ^ j - 1)%Z with (Z.ones j) by (rewrite Z.ones_equiv; lia).
  rewrite Z.shiftl_land. apply Z.bits_inj'. intros n Hn.
  rewrite !Z.land_spec. destruct (decide (n < i)%Z).
  - rewrite !(Z.shiftl_spec_low _ i n) by done. by rewrite !andb_false_r.
  - rewrite !(Z.shiftl_spec _ i n), Z.shiftr_spec by lia.
    by replace (n - i + i)%Z with n by lia.
Qed.

Lemma land_ones_mod (x k : Z) : (0 <= k)%Z -> Z.land x (2 ^ k - 1) = (x mod 2 ^ k)%Z.
Proof.
  intros. rewrite <-Z.land_ones by done. f_equal. rewrite Z.ones_equiv. lia.
Qed.

(** Disjoint bit fields: [|] is [+]. *)
Lemma lor_add (a b k : Z) :
  (0 <= k)%Z -> (a mod 2 ^ k = 0)%Z -> (0 <= b < 2 ^ k)%Z -> Z.lor a b = (a + b)%Z.
Proof.
  intros Hk Ha Hb.
  assert (Z.land a b = 0)%Z as H0.
  { apply Z.bits_inj'. intros n Hn. rewrite Z.land_spec, Z.bits_0.
    destruct (decide (n < k)%Z).
    - replace (Z.testbit a n) with false; [done|].
      rewrite <-(Z.mod_pow2_bits_low a k n) by done. by rewrite Ha, Z.bits_0.
    - replace (Z.testbit b n) with false; [by rewrite andb_false_r|].
      destruct (decide (b = 0)%Z) as [->|]; [by rewrite Z.bits_0|].
      symmetry. apply Z.bits_above_log2; [lia|].
      apply Z.log2_lt_pow2; [lia|]. eapply Z.lt_le_trans; [apply Hb|].
      apply Z.pow_le_mono_r; lia. }
  rewrite <-Z.lxor_lor by done. symmetry. by apply Z.add_nocarry_lxor.
Qed.

(** Turns masks and shifts by literals into [mod], [/] and [*] by literals,
    which [lia] decides. *)
Ltac bits_mask x m :=
  let tz := eval vm_compute in (Z.log2 (Z.land m (- m))) in
  let w := eval vm_compute in (Z.log2 (Z.shiftr m tz + 1))%Z in
  let ok := eval vm_compute in ((2 ^ w - 1) * 2 ^ tz =? m)%Z in
  lazymatch ok with
  | true =>
      let p := eval vm_compute in (2 ^ w)%Z in
      let q := eval vm_compute in (2 ^ tz)%Z in
      lazymatch tz with
      | 0%Z =>
          replace (Z.land x m) with (x mod p)%Z
            by (symmetry; exact (land_ones_mod x w ltac:(done)))
      | _ =>
          replace (Z.land x m) with (((x / q) mod p) * q)%Z
            by (symmetry; exact (land_mask x tz w ltac:(done) ltac:(done)))
      end
  end.

Ltac bits_arith :=
  repeat match goal with
  | |- context [Z.land ?x (Zpos ?m)] => bits_mask x (Zpos m)
  | |- context [Z.shiftr ?x ?k] =>
      let p := eval vm_compute in (2 ^ k)%Z in
      replace (Z.shiftr x k) with (x / p)%Z
        by (symmetry; exact (Z.shiftr_div_pow2 x k ltac:(done)))
  | |- context [Z.shiftl ?x ?k] =>
      let p := eval vm_compute in (2 ^ k)%Z in
      replace (Z.shiftl x k) with (x * p)%Z
        by (symmetry; exact (Z.shiftl_mul_pow2 x k ltac:(done)))
  end.

(** [lia] with euclidean division by literals. *)
Ltac div_lia := Z.div_mod_to_equations; lia.

(** Replaces an innermost [a .| b] by [a + b], given a bit position that
    separates the two fields. *)
Tactic Notation "lor_add_at" constr(k) :=
  match goal with
  | |- context [Z.lor ?a ?b] =>
      lazymatch a with context [Z.lor _ _] => fail | _ => idtac end;
      lazymatch b with context [Z.lor _ _] => fail | _ => idtac end;
      rewrite (lor_add a b k) by div_lia
  end.

(** A decidable fact about one byte, checked on the 256 values. *)
Lemma u8_forall (P : Z -> bool) :
  forallb P (Z.of_nat <$> seq 0 256) = true -> forall b, is_u8 b -> P b = true.
Proof.
  intros H b Hb. unfold is_u8 in Hb. rewrite forallb_forall in H. apply H.
  apply list_elem_of_In, list_elem_of_fmap. exists (Z.to_nat b).
  split; [lia|]. apply elem_of_seq. lia.
Qed.

Ltac by_bytes :=
  match goal with
  | |- forall b, is_u8 b -> @?P b =>
      let H := fresh in
      assert (forall b, is_u8 b -> (bool_decide (P b)) = true) as H
        by (apply u8_forall; vm_compute; reflexivity);
      let b := fresh in let Hb := fresh in
      intros b Hb; exact (bool_decide_eq_true_1 _ (H b Hb))
  end.

(** ** Big-endian conversions *)

Lemma length_to_be n x : length (to_be n x) = n.
Proof. induction n; simpl; by f_equal. Qed.

Lemma to_be_ok n x : bytes_ok (to_be n x).
Proof.
  induction n; simpl; constructor; [|done].
  unfold is_u8. change (2 ^ 8)%Z with 256%Z. apply Z.mod_pos_bound. lia.
Qed.

Lemma from_be_acc a l :
  foldl (fun acc b => acc * 256 + b)%Z a l = (a * 256 ^ zlen l + from_be l)%Z.
Proof.
  unfold from_be, zlen. revert a. induction l as [|b l IH]; intros a; [simpl; lia|].
  cbn [foldl length]. rewrite (IH (a * 256 + b)%Z), (IH (0 * 256 + b)%Z).
  rewrite Nat2Z.inj_succ, Z.pow_succ_r by lia. lia.
Qed.

Lemma from_be_cons b l : from_be (b :: l) = (b * 256 ^ zlen l + from_be l)%Z.
Proof. unfold from_be at 1. cbn [foldl]. rewrite from_be_acc. f_equal; lia. Qed.

Lemma from_be_to_be n x : from_be (to_be n x) = (x mod 256 ^ Z.of_nat n)%Z.
Proof.
  induction n as [|n IH]; [by rewrite Z.mod_1_r|].
  cbn [to_be]. rewrite from_be_cons, IH. unfold zlen. rewrite length_to_be.
  rewrite Nat2Z.inj_succ, Z.pow_succ_r by lia.
  rewrite (Z.mul_comm 256), Z.rem_mul_r by (try apply Z.pow_nonzero; lia). lia.
Qed.

Lemma from_be_to_be_small n x :
  (0 <= x < 256 ^ Z.of_nat n)%Z -> from_be (to_be n x) = x.
Proof. intros. rewrite from_be_to_be. by apply Z.mod_small. Qed.

Lemma from_be_bound l : bytes_ok l -> (0 <= from_be l < 256 ^ zlen l)%Z.
Proof.
  induction 1 as [|b l Hb Hl IH]; [done|].
  rewrite from_be_cons. unfold zlen in *. cbn [length].
  rewrite Nat2Z.inj_succ, Z.pow_succ_r by lia.
  unfold is_u8 in Hb. change (2 ^ 8)%Z with 256%Z in Hb.
  assert (0 < 256 ^ Z.of_nat (length l))%Z by (apply Z.pow_pos_nonneg; lia). nia.
Qed.

Lemma to_be_from_be l : bytes_ok l -> to_be (length l) (from_be l) = l.
Proof.
  assert (forall n (a x : Z), (0 <= a)%Z -> to_be n (a * 256 ^ Z.of_nat n + x) = to_be n x) as Hshift.
  { induction n as [|n IH]; intros a x Ha; [done|]. cbn [to_be].
    rewrite Nat2Z.inj_succ, Z.pow_succ_r by lia. f_equal.
    - replace (a * (256 * 256 ^ Z.of_nat n))%Z with (a * 256 * 256 ^ Z.of_nat n)%Z by lia.
      rewrite Z.div_add_l by (apply Z.pow_nonzero; lia).
      rewrite <-Z.add_mod_idemp_l, Z.mod_mul by lia. done.
    - replace (a * (256 * 256 ^ Z.of_nat n))%Z with (a * 256 * 256 ^ Z.of_nat n)%Z by lia.
      apply IH. lia. }
  induction 1 as [|b l Hb Hl IH]; [done|].
  cbn [length to_be]. rewrite from_be_cons. unfold zlen.
  pose proof (from_be_bound l Hl) as Hbd. unfold zlen in Hbd.
  unfold is_u8 in Hb. f_equal.
  - rewrite Z.div_add_l by (apply Z.pow_nonzero; lia).
    rewrite Z.div_small, Z.add_0_r by done. by apply Z.mod_small.
  - rewrite Hshift by lia. done.
Qed.

Lemma from_be_2 a b : from_be [a; b] = (a * 256 + b)%Z.
Proof. unfold from_be. simpl. lia. Qed.

Lemma from_be_3 a b c : from_be [a; b; c] = (a * 65536 + b * 256 + c)%Z.
Proof. unfold from_be. simpl. lia. Qed.

Lemma from_be_4 a b c d :
  from_be [a; b; c; d] = (a * 16777216 + b * 65536 + c * 256 + d)%Z.
Proof. unfold from_be. simpl. lia. Qed.

Lemma to_be_2 x : to_be 2 x = [((x / 256) mod 256)%Z; (x mod 256)%Z].
Proof. cbn [to_be]. change (256 ^ Z.of_nat 0)%Z with 1%Z. by rewrite Z.div_1_r. Qed.

Lemma to_be_4 x :
  to_be 4 x = [((x / 16777216) mod 256)%Z; ((x / 65536) mod 256)%Z;
               ((x / 256) mod 256)%Z; (x mod 256)%Z].
Proof. cbn [to_be]. change (256 ^ Z.of_nat 0)%Z with 1%Z. by rewrite Z.div_1_r. Qed.

(** ** Lists *)

Lemma zlen_cons {A} (x : A) l : zlen (x :: l) = (1 + zlen l)%Z.
Proof. unfold zlen. cbn [length]. lia. Qed.

Lemma zlen_nil {A} : zlen ([] : list A) = 0%Z.
Proof. done. Qed.

Lemma zlen_app {A} (l k : list A) : zlen (l ++ k) = (zlen l + zlen k)%Z.
Proof. unfold zlen. rewrite length_app. lia. Qed.

Lemma bytes_ok_app l k : bytes_ok (l ++ k) <-> bytes_ok l /\ bytes_ok k.
Proof. apply Forall_app. Qed.

Lemma bytes_ok_lookup l i b : bytes_ok l -> l !! i = Some b -> is_u8 b.
Proof. apply Forall_lookup_1. Qed.

Lemma bytes_ok_take n l : bytes_ok l -> bytes_ok (take n l).
Proof. apply Forall_take. Qed.

Lemma bytes_ok_drop n l : bytes_ok l -> bytes_ok (drop n l).
Proof. apply Forall_drop. Qed.

(** [slice::chunks(n)]: the list cut into pieces of [n] (the last one may be
    shorter); Rust panics for [n = 0], the callers pass a positive size. *)
Fixpoint chunks_aux {A} (fuel n : nat) (l : list A) : list (list A) :=
  match fuel with
  | O => []
  | S fuel =>
      match l with
      | [] => []
      | _ :: _ => take n l :: chunks_aux fuel n (drop n l)
      end
  end.
Definition chunks {A} (n : nat) (l : list A) : list (list A) := chunks_aux (length l) n l.

Section chunks.
Context {A : Type}.
Implicit Types l : list A.

Lemma chunks_aux_fuel n fuel l :
  0 < n -> length l <= fuel -> chunks_aux fuel n l = chunks n l.
Proof.
  intros Hn. unfold chunks. remember (length l) as k eqn:Hk.
  revert fuel l Hk. induction k as [k IH] using lt_wf_ind. intros fuel l -> Hf.
  destruct l as [|x l]; [by destruct fuel|].
  destruct fuel as [|fuel]; [simpl in Hf; lia|].
  cbn [length chunks_aux] in *. f_equal.
  assert (length (drop n (x :: l)) <= length l) by (rewrite length_drop; simpl; lia).
  rewrite (IH (length (drop n (x :: l)))); [|simpl; lia|done|lia].
  symmetry. rewrite (IH (length (drop n (x :: l)))); [done|simpl; lia|done|lia].
Qed.

Lemma chunks_nil n : chunks n ([] : list A) = [].
Proof. done. Qed.

Lemma chunks_cons n l :
  0 < n -> l <> [] -> chunks n l = take n l :: chunks n (drop n l).
Proof.
  intros Hn Hl. destruct l as [|x l]; [done|]. unfold chunks at 1. cbn [length chunks_aux].
  f_equal. apply chunks_aux_fuel; [done|]. rewrite length_drop. simpl. lia.
Qed.

(** Induction along [chunks]. *)
Lemma chunks_ind (P : list A -> Prop) n :
  0 < n -> P [] -> (forall l, l <> [] -> P (drop n l) -> P l) -> forall l, P l.
Proof.
  intros Hn H0 Hs l. remember (length l) as k eqn:Hk. revert l Hk.
  induction k as [k IH] using lt_wf_ind. intros l ->.
  destruct l as [|x l]; [done|]. apply Hs; [done|].
  eapply IH; [|done]. rewrite length_drop. simpl. lia.
Qed.

Lemma concat_chunks n l : 0 < n -> concat (chunks n l) = l.
Proof.
  intros Hn. revert l. apply (chunks_ind _ n Hn); [done|]. intros l Hl IH.
  rewrite chunks_cons by done. simpl. by rewrite IH, take_drop.
Qed.

Lemma chunks_length n l c :
  0 < n -> c ∈ chunks n l -> 0 < length c <= n.
Proof.
  intros Hn. revert l. apply (chunks_ind (fun l => c ∈ chunks n l -> _) n Hn).
  { by intros ?%not_elem_of_nil. }
  intros l Hl IH.
  rewrite chunks_cons by done. intros [->|?]%elem_of_cons; [|auto].
  rewrite length_take. destruct l; [done|]. simpl. lia.
Qed.

Lemma length_chunks n l : 0 < n -> length (chunks n l) = (length l + n - 1) / n.
Proof.
  intros Hn. revert l. apply (chunks_ind _ n Hn).
  { simpl. symmetry. apply Nat.div_small. lia. }
  intros l Hl IH.
  rewrite chunks_cons by done. cbn [length]. rewrite IH, length_drop.
  destruct (decide (length l <= n)).
  - replace (length l - n + n - 1) with (n - 1) by lia.
    rewrite (Nat.div_small (n - 1)) by lia.
    assert (0 < length l) by (destruct l; simpl; [done|lia]).
    replace (length l + n - 1) with (length l - 1 + 1 * n) by lia.
    rewrite Nat.div_add, Nat.div_small by lia. done.
  - replace (length l + n - 1) with (length l - n + n - 1 + 1 * n) by lia.
    rewrite Nat.div_add by lia. lia.
Qed.
End chunks.

(** Reading a list that was built by concatenation. *)
Lemma idx_0 {E} x l : @idx E (x :: l) 0 = Ok x.
Proof. done. Qed.

Lemma idx_S {E} x l i : @idx E (x :: l) (S i) = idx l i.
Proof. done. Qed.

Lemma idx_lookup {E} l i b : l !! i = Some b -> @idx E l i = Ok b.
Proof. unfold idx. by intros ->. Qed.

Lemma idx_app_r {E} (l k : bytes) i :
  length l <= i -> @idx E (l ++ k) i = idx k (i - length l).
Proof. intros. unfold idx. by rewrite lookup_app_r. Qed.

Lemma idx_app_l {E} (l k : bytes) i : i < length l -> @idx E (l ++ k) i = idx l i.
Proof. intros. unfold idx. by rewrite lookup_app_l. Qed.

Lemma slice_ok {E A} (l : list A) i j :
  i <= j -> j <= length l -> @slice E A l i j = Ok (take (j - i) (drop i l)).
Proof.
  intros. unfold slice. by rewrite (proj2 (Nat.leb_le i j)), (proj2 (Nat.leb_le j _)) by lia.
Qed.

Lemma slice_mid {E A} (l k r : list A) i j :
  i = length l -> j = length l + length k -> @slice E A (l ++ k ++ r) i j = Ok k.
Proof.
  intros -> ->. rewrite slice_ok by (rewrite ?length_app; lia).
  rewrite drop_app_length. replace (_ + _ - _) with (length k) by lia.
  by rewrite take_app_length.
Qed.

(** Loops with pointwise equal bodies agree. *)
Lemma loop_ext {E S R} (f g : S -> outcome E (S + R)) fuel s :
  (forall s, f s = g s) -> loop fuel f s = loop fuel g s.
Proof.
  intros Hfg. revert s. induction fuel as [|fuel IH]; intros s; [done|].
  simpl. rewrite Hfg. destruct (g s) as [[s'|r]| | |]; auto.
Qed.

(** Four (two) consecutive bytes read by index are a big-endian prefix. *)
Lemma idx_be4 (data : bytes) pos :
  pos + 4 <= length data ->
  exists b0 b1 b2 b3,
    take 4 (drop pos data) = [b0; b1; b2; b3] /\
    forall E A (k : Z -> Z -> Z -> Z -> outcome E A),
    (b0 ← idx data pos; b1 ← idx data (pos + 1); b2 ← idx data (pos + 2);
     b3 ← idx data (pos + 3); k b0 b1 b2 b3) = k b0 b1 b2 b3.
Proof.
  intros Hp. pose proof (length_drop data pos) as Hl.
  assert (forall i, data !! (pos + i) = drop pos data !! i) as Hi by (intros; by rewrite lookup_drop).
  destruct (drop pos data) as [|b0 [|b1 [|b2 [|b3 r]]]]; cbn [length] in Hl; try lia.
  exists b0, b1, b2, b3. split; [done|].
  intros E A k. pose proof (Hi 0) as H0. rewrite Nat.add_0_r in H0.
  by rewrite (idx_lookup _ _ _ H0), (idx_lookup _ _ _ (Hi 1)), (idx_lookup _ _ _ (Hi 2)),
    (idx_lookup _ _ _ (Hi 3)).
Qed.

Lemma idx_be2 (data : bytes) pos :
  pos + 2 <= length data ->
  exists b0 b1,
    take 2 (drop pos data) = [b0; b1] /\
    forall E A (k : Z -> Z -> outcome E A),
    (b0 ← idx data pos; b1 ← idx data (pos + 1); k b0 b1) = k b0 b1.
Proof.
  intros Hp. pose proof (length_drop data pos) as Hl.
  assert (forall i, data !! (pos + i) = drop pos data !! i) as Hi by (intros; by rewrite lookup_drop).
  destruct (drop pos data) as [|b0 [|b1 r]]; cbn [length] in Hl; try lia.
  exists b0, b1. split; [done|].
  intros E A k. pose proof (Hi 0) as H0. rewrite Nat.add_0_r in H0.
  by rewrite (idx_lookup _ _ _ H0), (idx_lookup _ _ _ (Hi 1)).
Qed.

(** Decides the comparisons of lengths in the goal. *)
Ltac len_lia := rewrite ?length_app; cbn [length]; rewrite ?length_app; cbn [length]; lia.
Ltac nat_cmp :=
  repeat match goal with
  | |- context [?a <? ?b] =>
      first [rewrite (proj2 (Nat.ltb_lt a b)) by len_lia | rewrite (proj2 (Nat.ltb_ge a b)) by len_lia]
  | |- context [?a <=? ?b] =>
      first [rewrite (proj2 (Nat.leb_le a b)) by len_lia | rewrite (proj2 (Nat.leb_gt a b)) by len_lia]
  | |- context [?a =? ?b] =>
      first [rewrite (proj2 (Nat.eqb_eq a b)) by len_lia | rewrite (proj2 (Nat.eqb_neq a b)) by len_lia]
  end.

(** Runs a reader on a list with a known head. *)
Ltac run_reader :=
  repeat (progress (cbn -[from_be Nat.ltb Nat.leb Nat.eqb Z.land Z.shiftr length]; nat_cmp)).

(** A decidable fact about four small numbers, checked exhaustively. *)
Definition upto (n : nat) : list Z := Z.of_nat <$> seq 0 n.

Lemma elem_of_upto n z : (0 <= z < Z.of_nat n)%Z -> z ∈ upto n.
Proof.
  intros Hz. apply list_elem_of_fmap. exists (Z.to_nat z). rewrite elem_of_seq. lia.
Qed.

Lemma range_check_4 n1 n2 n3 n4 (P : Z -> Z -> Z -> Z -> Prop)
    `{forall a b c d, Decision (P a b c d)} :
  forallb (fun a => forallb (fun b => forallb (fun c => forallb (fun d => bool_decide (P a b c d))
    (upto n4)) (upto n3)) (upto n2)) (upto n1) = true ->
  forall a b c d, (0 <= a < Z.of_nat n1)%Z -> (0 <= b < Z.of_nat n2)%Z ->
    (0 <= c < Z.of_nat n3)%Z -> (0 <= d < Z.of_nat n4)%Z -> P a b c d.
Proof.
  intros Hall a b c d Ha Hb Hc Hd.
  apply elem_of_upto, list_elem_of_In in Ha, Hb, Hc, Hd.
  rewrite forallb_forall in Hall. specialize (Hall a Ha). cbv beta in Hall.
  rewrite forallb_forall in Hall. specialize (Hall b Hb). cbv beta in Hall.
  rewrite forallb_forall in Hall. specialize (Hall c Hc). cbv beta in Hall.
  rewrite forallb_forall in Hall. specialize (Hall d Hd). cbv beta in Hall.
  by apply bool_decide_eq_true in Hall.
Qed.

(** ** Stable sorting ([slice::sort_by_key]) *)

Section StableSort.
Context {A : Type} (le : A -> A -> bool).

  (** Inserts [x] in front of the elements it is not greater than. *)
Fixpoint sort_insert (x : A) (l : list A) : list A :=
    match l with
    | [] => [x]
    | y :: l' => if le x y then x :: l else y :: sort_insert x l'
    end.
End StableSort.

Definition stable_sort {A} (le : A -> A -> bool) (l : list A) : list A := foldr (sort_insert le) [] l.

Section StableSortFacts.
Context {A : Type} (le : A -> A -> bool).
Context (le_total : forall x y, le x y = false -> le y x = true).
Context (le_trans : forall x y z, le x y = true -> le y z = true -> le x z = true).

Abbreviation sorted := (Sorted (fun x y => le x y = true)).

Lemma sort_insert_permutation x l : sort_insert le x l ≡ₚ x :: l.
Proof.
    induction l as [|y l IH]; cbn [sort_insert]; [done|]. destruct (le x y); [done|].
    rewrite IH. apply Permutation_swap.
Qed.

Lemma stable_sort_permutation l : stable_sort le l ≡ₚ l.
Proof. induction l as [|x l IH]; cbn; [done|]. by rewrite sort_insert_permutation, IH. Qed.

Lemma sort_insert_sorted x l : sorted l -> sorted (sort_insert le x l).
Proof.
    induction 1 as [|y l Hs IH Hd]; cbn [sort_insert]; [by repeat constructor|].
    destruct (le x y) eqn:Hxy; [by repeat constructor|]. constructor; [done|].
    apply le_total in Hxy. destruct l as [|z l]; cbn [sort_insert] in *; [by constructor|].
    inversion Hd; subst. destruct (le x z); by constructor.
Qed.

Lemma stable_sort_sorted l : sorted (stable_sort le l).
Proof. induction l; cbn; [constructor|]. by apply sort_insert_sorted. Qed.

Lemma stable_sort_id l : sorted l -> stable_sort le l = l.
Proof.
    induction 1 as [|x l Hs IH Hd]; cbn; [done|]. fold (stable_sort le l). rewrite IH.
    destruct Hd as [|y l Hxy]; cbn [sort_insert]; [done|]. by rewrite Hxy.
Qed.

  (** Elements of a class that does not compare equal across classes stay in
      order: filtering commutes with sorting. *)
Lemma filter_sort_insert (p : A -> bool) x l :
    sorted l ->
    List.filter p (sort_insert le x l) =
    if p x then sort_insert le x (List.filter p l) else List.filter p l.
Proof.
    induction 1 as [|y l Hs IH Hd]; cbn [sort_insert List.filter]; [by destruct (p x)|].
    assert (Hall : forall z, z ∈ l -> le y z = true).
    { clear IH. revert y Hd. induction Hs as [|a l Hs IHs Ha]; intros y Hd z Hz; [by apply elem_of_nil in Hz|].
      inversion Hd; subst. apply elem_of_cons in Hz as [->|Hz]; [done|]. eapply IHs; [|done].
      destruct Ha; constructor. eauto. }
    destruct (le x y) eqn:Hxy; cbn [List.filter].
    - destruct (p x) eqn:Hpx; [|done]. destruct (p y) eqn:Hpy; cbn [sort_insert]; [by rewrite Hxy|].
      destruct (List.filter p l) as [|z r] eqn:Hf; [done|]. cbn [sort_insert].
      assert (z ∈ l) by (apply list_elem_of_In, (proj1 (filter_In p z l)); rewrite Hf; left; done).
      by rewrite (le_trans x y z) by auto.
    - rewrite IH. destruct (p x), (p y); cbn [sort_insert]; rewrite ?Hxy; done.
Qed.

Lemma filter_stable_sort (p : A -> bool) l :
    List.filter p (stable_sort le l) = stable_sort le (List.filter p l).
Proof.
    induction l as [|x l IH]; cbn; [done|]. fold (stable_sort le l).
    rewrite filter_sort_insert by apply stable_sort_sorted. rewrite IH. by destruct (p x).
Qed.
End StableSortFacts.
