(* ===== verification/Frame.v ===== *)
(** * Frame: the data every protocol exchanges

    [crates/core/src/media_frame.rs] and [crates/core/src/error.rs]: codec
    identifiers, frame kinds, payload formats, track descriptions, the
    [MediaFrame] record with its constructors, and the crate's error type.
    [MediaFrame::received_at] (a wall-clock [Instant] no operation reads) is
    left out; an [f64] is kept as its 64-bit pattern. *)

From S2P Require Import Prelude.

(** An IEEE double as its bit pattern ([f64::to_bits]). *)
Definition f64 : Type := Z.

Inductive CodecId : Type :=
| H264 | H265 | AAC | G711A | G711U | Opus | Mp3 | L16
| VP8 | VP9 | AV1 | JPEG | MP2V | MP2A
| UnknownCodec (n : Z).

#[global] Instance CodecId_eq_dec : EqDecision CodecId.
Proof. solve_decision. Defined.

Definition is_video (c : CodecId) : bool :=
  match c with
  | H264 | H265 | VP8 | VP9 | AV1 | JPEG | MP2V => true
  | _ => false
  end.

Definition is_audio (c : CodecId) : bool :=
  match c with
  | AAC | G711A | G711U | Opus | Mp3 | L16 | MP2A => true
  | _ => false
  end.

Inductive FrameType : Type := Video | Audio | Metadata.

#[global] Instance FrameType_eq_dec : EqDecision FrameType.
Proof. solve_decision. Defined.

(** [PayloadFormat]; the constructors carry a [Pf] prefix because several of
    them ([Opus], [Unknown]) are also codec names. *)
Inductive PayloadFormat : Type :=
| PfUnknown | PfFlv | PfAvcc | PfHvcc | PfAnnexB | PfAacAudioSpecificConfig
| PfAacRaw | PfAdts | PfOpus | PfRaw | PfAmf0.

#[global] Instance PayloadFormat_eq_dec : EqDecision PayloadFormat.
Proof. solve_decision. Defined.

Record VideoInfo : Type := {
  video_codec : CodecId;
  video_width : Z;
  video_height : Z;
  video_fps : f64;
  video_key_frame : bool
}.

Record AudioInfo : Type := {
  audio_codec : CodecId;
  audio_sample_rate : Z;
  audio_channels : Z;
  audio_bits_per_sample : Z
}.

Inductive TrackInfo : Type :=
| TrackVideo (v : VideoInfo)
| TrackAudio (a : AudioInfo).

Record MediaInfo : Type := {
  tracks : list TrackInfo;
  duration : option f64;
  metadata : option string
}.

Record MediaFrame : Type := {
  track_id : Z;
  frame_type : FrameType;
  codec : CodecId;
  timestamp : Z;
  pts : Z;
  dts : Z;
  data : bytes;
  payload_format : PayloadFormat;
  key_frame : bool;
  config_frame : bool
}.

(** The machine widths of a frame's fields. *)
Definition frame_ok (f : MediaFrame) : Prop :=
  is_u32 (track_id f) /\ is_u32 (timestamp f) /\ is_u64 (pts f) /\ is_u64 (dts f) /\
  bytes_ok (data f).

Definition new_video (track : Z) (c : CodecId) (ts pts dts : Z) (d : bytes) (key : bool) : MediaFrame :=
  {| track_id := track; frame_type := Video; codec := c; timestamp := ts; pts := pts;
     dts := dts; data := d; payload_format := PfUnknown; key_frame := key;
     config_frame := false |}.

Definition new_audio (track : Z) (c : CodecId) (ts pts dts : Z) (d : bytes) : MediaFrame :=
  {| track_id := track; frame_type := Audio; codec := c; timestamp := ts; pts := pts;
     dts := dts; data := d; payload_format := PfUnknown; key_frame := false;
     config_frame := false |}.

Definition new_metadata (track ts : Z) (d : bytes) : MediaFrame :=
  {| track_id := track; frame_type := Metadata; codec := UnknownCodec 0; timestamp := ts;
     pts := ts; dts := ts; data := d; payload_format := PfAmf0; key_frame := false;
     config_frame := true |}.

Definition with_payload_format (f : MediaFrame) (pf : PayloadFormat) : MediaFrame :=
  {| track_id := track_id f; frame_type := frame_type f; codec := codec f;
     timestamp := timestamp f; pts := pts f; dts := dts f; data := data f;
     payload_format := pf; key_frame := key_frame f; config_frame := config_frame f |}.

(** The assignment [frame.config_frame = b]. *)
Definition set_config_frame (f : MediaFrame) (b : bool) : MediaFrame :=
  {| track_id := track_id f; frame_type := frame_type f; codec := codec f;
     timestamp := timestamp f; pts := pts f; dts := dts f; data := data f;
     payload_format := payload_format f; key_frame := key_frame f; config_frame := b |}.

(** [crate::error::Error] (and the [anyhow] errors of the other crates, as
    [Anyhow]).  A message built by [format!] is kept as its constant part. *)
Inductive Error : Type :=
| Io
| Protocol (msg : string)
| Codec (msg : string)
| StreamNotFound (msg : string)
| Session (msg : string)
| AuthFailed (msg : string)
| ConnectionClosed
| Timeout
| InvalidState (msg : string)
| Unsupported (msg : string)
| Parse (msg : string)
| Anyhow (msg : string).

#[global] Instance Error_eq_dec : EqDecision Error.
Proof. solve_decision. Defined.

Abbreviation result := (outcome Error).
