(* ===== verification/Audio.v ===== *)
(** * Audio: the AAC and G.711 helpers

    [crates/codec/src/aac.rs] ([AacParser]) and [crates/codec/src/g711.rs]
    ([G711Parser]).  [u8] and [i16] arithmetic is checked: an overflow is a
    [Panic]; shifts drop the bits they push out, as in Rust. *)

From S2P Require Import Prelude Frame.

(** ** AacParser *)

Record AacConfig : Type := {
  object_type : Z;
  sample_rate_index : Z;
  channel_config : Z;
  sample_rate : Z;
  channels : Z
}.

Definition SAMPLE_RATES : list Z :=
  [96000; 88200; 64000; 48000; 44100; 32000; 24000; 22050; 16000; 12000; 11025; 8000; 7350]%Z.

Definition parse_audio_specific_config (data : bytes) : result (option AacConfig) :=
  if length data <? 2 then Ok None else
  d0 ← idx data 0;
  d1 ← idx data 1;
  let object_type := (d0 .>> 3 + 1)%Z in
  let sample_rate_index := u8 ((d0 .& 0x07) .<< 1) .| (d1 .>> 7) in
  let channel_config := (d1 .>> 3) .& 0x0F in
  let sample_rate :=
    match SAMPLE_RATES !! Z.to_nat sample_rate_index with
    | Some r => r
    | None => 44100%Z
    end in
  Ok (Some {| object_type := object_type; sample_rate_index := sample_rate_index;
              channel_config := channel_config; sample_rate := sample_rate;
              channels := channel_config |}).

Definition parse_adts_header (data : bytes) : result (option (Z * Z)) :=
  if length data <? 7 then Ok None else
  sync ← slice data 0 2;
  if bool_decide (sync ≠ [0xff; 0xf1]%Z) && bool_decide (sync ≠ [0xff; 0xf9]%Z) then Ok None else
  d2 ← idx data 2;
  d3 ← idx data 3;
  d4 ← idx data 4;
  d5 ← idx data 5;
  let channel_config := ((d2 .& 0x01) .<< 2) .| ((d3 .>> 6) .& 0x03) in
  let frame_length := ((d3 .& 0x03) .<< 11) .| (d4 .<< 3) .| (d5 .>> 5) in
  if (zlen data <? frame_length)%Z then Ok None
  else Ok (Some (frame_length, channel_config)).

Definition make_adts_header (config : AacConfig) (frame_length : Z) : result bytes :=
  if (object_type config <? 1)%Z then Panic else
  let h2 := u8 ((object_type config - 1) .<< 3) .| u8 (sample_rate_index config .<< 1) in
  let h2 := h2 .| ((channel_config config .>> 2) .& 0x01) in
  Ok [0xFF; 0xF1; h2;
      u8 ((channel_config config .& 0x03) .<< 6) .| u8 ((frame_length .>> 11) .& 0x03);
      u8 ((frame_length .>> 3) .& 0xFF);
      u8 ((frame_length .& 0x07) .<< 5);
      0xFC]%Z.

(** ** G711Parser *)

(** Checked [i16] results. *)
Definition i16_checked (z : Z) : result Z :=
  if (-32768 <=? z)%Z && (z <=? 32767)%Z then Ok z else Panic.

Definition alaw_decode (sample : Z) : result Z :=
  let sample := sample .^ 0x55 in
  let sign := if (sample .& 0x80 =? 0)%Z then 1%Z else (-1)%Z in
  let exponent := (sample .>> 4) .& 0x07 in
  let mantissa := sample .& 0x0F in
  magnitude ← i16_checked (i16 (((mantissa .<< 1) .| 1) .<< (exponent + 2)) - 0x84);
  i16_checked (sign * magnitude).

Definition ulaw_decode (sample : Z) : result Z :=
  let sample := u8 (Z.lnot sample) in
  let sign := if (sample .& 0x80 =? 0)%Z then 1%Z else (-1)%Z in
  let exponent := (sample .>> 4) .& 0x07 in
  let mantissa := sample .& 0x0F in
  magnitude ← i16_checked (i16 (((mantissa .<< 1) .| 1) .<< (exponent + 2)) - 0x21);
  i16_checked (sign * magnitude).

Fixpoint collect {A} (l : list (result A)) : result (list A) :=
  match l with
  | [] => Ok []
  | m :: l => x ← m; xs ← collect l; Ok (x :: xs)
  end.

Definition alaw_to_pcm (data : bytes) : result (list Z) := collect (alaw_decode <$> data).
Definition ulaw_to_pcm (data : bytes) : result (list Z) := collect (ulaw_decode <$> data).

(** [while exponent > 0 && (sample & mask) == 0 { exponent -= 1; mask >>= 1; }] *)
Definition segment_search (sample : Z) : result Z :=
  loop 9 (fun '(exponent, mask) =>
    if (0 <? exponent)%Z && (sample .& mask =? 0)%Z
    then Ok (inl (exponent - 1, mask .>> 1)%Z)
    else Ok (inr exponent)) (7, 0x4000)%Z.

Definition pcm_to_alaw (sample : Z) : result Z :=
  let sign := if (sample <? 0)%Z then 0x80%Z else 0%Z in
  sample ← (if (sample <? 0)%Z then i16_checked (- sample) else Ok sample);
  let sample := if (32635 <? sample)%Z then 32635%Z else sample in
  exponent ← segment_search sample;
  let mantissa := (sample .>> (exponent + 3)) .& 0x0F in
  let encoded := sign .| (exponent .<< 4) .| mantissa in
  Ok (u8 (encoded .^ 0x55)).

Definition pcm_to_ulaw (sample : Z) : result Z :=
  let sign := if (sample <? 0)%Z then 0%Z else 0x80%Z in
  sample ← (if (sample <? 0)%Z then i16_checked (- sample) else Ok sample);
  let sample := if (32635 <? sample)%Z then 32635%Z else sample in
  sample ← i16_checked (sample + 0x84);
  exponent ← segment_search sample;
  let mantissa := (sample .>> (exponent + 3)) .& 0x0F in
  Ok (u8 (Z.lnot (sign .| (exponent .<< 4) .| mantissa))).

(** ** The unit tests of the two files, evaluated *)

Example asc_44100 :
  parse_audio_specific_config [0x12; 0x10]%Z =
  Ok (Some {| object_type := 3; sample_rate_index := 4; channel_config := 2;
              sample_rate := 44100; channels := 2 |}).
Proof. reflexivity. Qed.

Example alaw_known :
  collect (alaw_decode <$> [0x55; 0xD5; 0x7A; 0xFA]%Z) = Ok [-128; 128; 364; -364]%Z /\
  collect (pcm_to_alaw <$> [0; 1000; -1000]%Z) = Ok [0x55; 0x7A; 0xFA]%Z.
Proof. by vm_compute. Qed.

Example ulaw_known :
  collect (ulaw_decode <$> [0x7F; 0xFF]%Z) = Ok [29; -29]%Z /\
  collect (pcm_to_ulaw <$> [0; 1000; -1000]%Z) = Ok [0x7F; 0x4E; 0xCE]%Z.
Proof. by vm_compute. Qed.

(** ** AAC: headers read back *)

(** A header written by [make_adts_header] is parsed back by
    [parse_adts_header] to the same frame length and channel configuration,
    whatever payload follows, as long as the 13-bit length and 3-bit channel
    fields can hold them and the frame is complete. *)
Theorem adts_header_round_trip cfg frame_length body h :
  (0 <= frame_length < 2 ^ 13)%Z -> (0 <= channel_config cfg < 8)%Z ->
  is_u8 (object_type cfg) -> is_u8 (sample_rate_index cfg) ->
  make_adts_header cfg frame_length = Ok h ->
  (frame_length <= 7 + zlen body)%Z ->
  length h = 7 /\
  parse_adts_header (h ++ body) = Ok (Some (frame_length, channel_config cfg)).
Proof.
  destruct cfg as [ot sri ch sr chans]. unfold make_adts_header, is_u8.
  cbn -[Z.land Z.lor Z.shiftl Z.shiftr].
  intros Hfl Hch Hot Hsri Hh Hb. destruct (Z.ltb_spec ot 1); simplify_eq.
  split; [done|].
  assert (Z.land
    (Z.lor (Z.lor (u8 (Z.shiftl (ot - 1) 3)) (u8 (Z.shiftl sri 1))) (Z.land (Z.shiftr ch 2) 1)) 1
    = ch / 4)%Z as H2.
  { unfold u8. rewrite !Z.land_lor_distr_l. bits_arith.
    lor_add_at 1%Z. lor_add_at 1%Z. div_lia. }
  assert (Z.lor (u8 (Z.shiftl (Z.land ch 3) 6)) (u8 (Z.land (Z.shiftr frame_length 11) 3)) =
    (ch mod 4) * 64 + frame_length / 2048)%Z as H3.
  { unfold u8. bits_arith. lor_add_at 6%Z. div_lia. }
  unfold parse_adts_header, slice. cbn -[Z.land Z.lor Z.shiftl Z.shiftr Z.add Z.mul].
  rewrite H2, H3. unfold u8. bits_arith.
  lor_add_at 2%Z. lor_add_at 11%Z. lor_add_at 3%Z.
  rewrite !zlen_cons.
  match goal with |- context [Z.ltb ?a ?b] => destruct (Z.ltb_spec a b); [div_lia|] end.
  simpl. repeat f_equal; div_lia.
Qed.

Lemma adts_header_round_trip_witness :
  parse_adts_header ([0xFF; 0xF1; 0x0E; 0x40; 0x01; 0x00; 0xFC] ++ [0x21])%Z =
  Ok (Some (8, 1))%Z.
Proof.
  refine (proj2 (adts_header_round_trip
    {| object_type := 1; sample_rate_index := 7; channel_config := 1;
       sample_rate := 22050; channels := 1 |} 8 [0x21]%Z _ _ _ _ _ _ _));
    first [by vm_compute | unfold is_u8; simpl; lia].
Defined.

(** ** G.711: the encoders and decoders are total on their ranges *)

Fixpoint forall_from (P : Z -> bool) (s : Z) (n : nat) : bool :=
  match n with
  | O => true
  | S n => P s && forall_from P (s + 1) n
  end.

Lemma forall_from_spec P s n :
  forall_from P s n = true -> forall x, (s <= x < s + Z.of_nat n)%Z -> P x = true.
Proof.
  revert s. induction n as [|n IH]; simpl; intros s H x Hx; [lia|].
  apply andb_true_iff in H as [H1 H2].
  destruct (decide (x = s)) as [->|]; [done|]. apply (IH (s + 1)%Z); [done|lia].
Qed.

(** What the checks below compute for one sample and one encoder/decoder pair. *)
Definition companding_ok (enc dec : Z -> result Z) (s : Z) : bool :=
  match enc s with
  | Ok b =>
      match dec b with
      | Ok v =>
          (0 <=? b)%Z && (b <? 256)%Z && (-16384 <? v)%Z && (v <? 16384)%Z &&
          (if (0 <? s)%Z
           then match enc (- s)%Z with Ok b' => (b' =? b .^ 0x80)%Z | _ => false end
           else true)
      | _ => false
      end
  | _ => (s =? -32768)%Z
  end.

(** The encoder yields a byte the decoder accepts, within 15 bits, and negating
    a sample only flips the sign bit of its code. *)
Definition companded (enc dec : Z -> result Z) (s : Z) : Prop :=
  exists b v, enc s = Ok b /\ is_u8 b /\ dec b = Ok v /\ (-16384 < v < 16384)%Z /\
    ((0 < s)%Z -> enc (- s)%Z = Ok (b .^ 0x80)).

Lemma companding_ok_spec enc dec s :
  companding_ok enc dec s = true -> s <> (-32768)%Z -> companded enc dec s.
Proof.
  unfold companding_ok, companded. intros H Hs.
  destruct (enc s) as [b| | |]; try (apply Z.eqb_eq in H; congruence).
  destruct (dec b) as [v| | |] eqn:Hv; try done.
  rewrite !andb_true_iff in H. destruct H as [[[[??]?]?] Hn].
  exists b, v. split; [done|]. split; [unfold is_u8; lia|]. split; [done|]. split; [lia|].
  intros Hpos. rewrite (proj2 (Z.ltb_lt 0 s) Hpos) in Hn.
  destruct (enc (- s)%Z); try done. f_equal. lia.
Qed.

Lemma alaw_companding_all :
  forall_from (companding_ok pcm_to_alaw alaw_decode) (-32768) (Z.to_nat 65536) = true.
Proof. by vm_compute. Qed.

Lemma ulaw_companding_all :
  forall_from (companding_ok pcm_to_ulaw ulaw_decode) (-32768) (Z.to_nat 65536) = true.
Proof. by vm_compute. Qed.

(** On every [i16] sample except [i16::MIN] the A-law and mu-law encoders
    terminate without overflow and produce a byte, the decoders accept it and
    stay within 15 bits, and negation only flips the sign bit; on [i16::MIN]
    both encoders overflow when they negate the sample. *)
Theorem g711_total s :
  (-32768 <= s <= 32767)%Z ->
  if decide (s = -32768)%Z
  then pcm_to_alaw s = Panic /\ pcm_to_ulaw s = Panic
  else companded pcm_to_alaw alaw_decode s /\ companded pcm_to_ulaw ulaw_decode s.
Proof.
  intros Hs. case_decide as Heq; [subst; by vm_compute|].
  split; (apply companding_ok_spec; [|done]).
  - apply (forall_from_spec _ _ _ alaw_companding_all). lia.
  - apply (forall_from_spec _ _ _ ulaw_companding_all). lia.
Qed.

Lemma g711_total_witness :
  companded pcm_to_alaw alaw_decode 1000 /\ companded pcm_to_ulaw ulaw_decode 1000.
Proof. apply (g711_total 1000). lia. Defined.
