(* ===== verification/AnnexB.v ===== *)
(** * AnnexB: the start-code scanners

    Five places of the server cut a byte string at Annex-B start codes:
    [H264Parser::parse_annexb] and [H265Parser::parse_annexb]
    ([crates/codec/src/h264.rs], [h265.rs]), [annex_b_nalu_ranges]
    ([crates/core/src/payload.rs]), [annex_b_nalus] ([crates/core/src/rtp.rs])
    and [extract_nalus_from_pes] ([crates/codec/src/ps.rs]).  Each is modelled
    as its own loop; the theorems relate them to one reference scanner. *)

From S2P Require Import Prelude Frame.

Definition SC3 : bytes := [0; 0; 1]%Z.
Definition SC4 : bytes := [0; 0; 0; 1]%Z.

(** ** H264Parser and H265Parser *)

Definition scan_state : Type := nat * option nat * list bytes.

(** [if let Some(s) = start { nals.push(&data[s..i]) }] *)
Definition push_nal (data : bytes) (start : option nat) (i : nat) (nals : list bytes) :
    result (list bytes) :=
  match start with
  | Some s => n ← slice data s i; Ok (nals ++ [n])
  | None => Ok nals
  end.

(** [i + n <= data.len() && &data[i..i + n] == code] *)
Definition code_at (data code : bytes) (i : nat) : bool :=
  (i + length code <=? length data) && bool_decide (take (length code) (drop i data) = code).

Definition h264_scan (data : bytes) (st : scan_state) : result (scan_state + (option nat * list bytes)) :=
  let '(i, start, nals) := st in
  if i <? length data then
    if code_at data SC3 i then
      nals ← push_nal data start i nals; Ok (inl (i + 3, Some (i + 3), nals))
    else if code_at data SC4 i then
      nals ← push_nal data start i nals; Ok (inl (i + 4, Some (i + 4), nals))
    else Ok (inl (i + 1, start, nals))
  else Ok (inr (start, nals)).

Definition h265_scan (data : bytes) (st : scan_state) : result (scan_state + (option nat * list bytes)) :=
  let '(i, start, nals) := st in
  if i <? length data then
    if code_at data SC4 i then
      nals ← push_nal data start i nals; Ok (inl (i + 4, Some (i + 4), nals))
    else if code_at data SC3 i then
      nals ← push_nal data start i nals; Ok (inl (i + 3, Some (i + 3), nals))
    else Ok (inl (i + 1, start, nals))
  else Ok (inr (start, nals)).

Definition finish_nals (data : bytes) (r : option nat * list bytes) : result (list bytes) :=
  match r.1 with
  | Some s =>
      if s <? length data
      then n ← slice data s (length data); Ok (r.2 ++ [n])
      else Ok r.2
  | None => Ok r.2
  end.

Definition h264_parse_annexb (data : bytes) : result (list bytes) :=
  loop (S (length data)) (h264_scan data) (0, None, []) ≫= finish_nals data.

Definition h265_parse_annexb (data : bytes) : result (list bytes) :=
  loop (S (length data)) (h265_scan data) (0, None, []) ≫= finish_nals data.

Definition h264_is_keyframe (nal_type : Z) : bool :=
  let nalu_type := nal_type .& 0x1F in
  (nalu_type =? 5)%Z || (nalu_type =? 7)%Z || (nalu_type =? 8)%Z.

Definition h265_is_keyframe (nal_type : Z) : bool :=
  let nalu_type := nal_type .& 0x3F in
  (16 <=? nalu_type)%Z && (nalu_type <=? 21)%Z.

Record H264Info : Type := {
  info_sps : option bytes;
  info_pps : option bytes;
  info_width : Z;
  info_height : Z;
  info_fps : f64
}.

(** The double 30.0. *)
Definition FPS_30 : f64 := 0x403E000000000000%Z.

Definition parse_sps (data : bytes) : result (option H264Info) :=
  if length data =? 0 then Ok None else
  d0 ← idx data 0;
  if negb (d0 .& 0x1F =? 7)%Z then Ok None else
  if 7 <=? length data then
    d3 ← idx data 3; d4 ← idx data 4; d5 ← idx data 5; d6 ← idx data 6;
    Ok (Some {| info_sps := Some data; info_pps := None;
                info_width := (d3 .<< 8) .| d4; info_height := (d5 .<< 8) .| d6;
                info_fps := FPS_30 |})
  else Ok (Some {| info_sps := Some data; info_pps := None; info_width := 0;
                   info_height := 0; info_fps := FPS_30 |}).

(** [extract_config]: the last SPS and PPS (VPS, SPS and PPS for H.265). *)
Definition h264_config_step (acc : option bytes * option bytes) (nal : bytes) :
    option bytes * option bytes :=
  match nal with
  | [] => acc
  | b :: _ =>
      let nalu_type := b .& 0x1F in
      if (nalu_type =? 7)%Z then (Some nal, acc.2)
      else if (nalu_type =? 8)%Z then (acc.1, Some nal)
      else acc
  end.

Definition h264_extract_config (data : bytes) : result (option (bytes * bytes)) :=
  nals ← h264_parse_annexb data;
  Ok (match foldl h264_config_step (None, None) nals with
      | (Some s, Some p) => Some (s, p)
      | _ => None
      end).

Definition h265_config_step (acc : option bytes * option bytes * option bytes) (nal : bytes) :
    option bytes * option bytes * option bytes :=
  let '(vps, sps, pps) := acc in
  match nal with
  | [] => acc
  | b :: _ =>
      let nalu_type := (b .>> 1) .& 0x3F in
      if (nalu_type =? 32)%Z then (Some nal, sps, pps)
      else if (nalu_type =? 33)%Z then (vps, Some nal, pps)
      else if (nalu_type =? 34)%Z then (vps, sps, Some nal)
      else acc
  end.

Definition h265_extract_config (data : bytes) : result (option (bytes * bytes * bytes)) :=
  nals ← h265_parse_annexb data;
  Ok (match foldl h265_config_step (None, None, None) nals with
      | (Some v, Some s, Some p) => Some (v, s, p)
      | _ => None
      end).

(** ** The two-pass scanners of [payload.rs] and [rtp.rs] *)

(** First pass: the start codes as (marker start, payload start). *)
Definition marks_scan (data : bytes) (st : nat * list (nat * nat)) :
    result (nat * list (nat * nat) + list (nat * nat)) :=
  let '(i, starts) := st in
  if i + 3 <=? length data then
    if code_at data SC4 i then Ok (inl (i + 4, starts ++ [(i, i + 4)]))
    else if code_at data SC3 i then Ok (inl (i + 3, starts ++ [(i, i + 3)]))
    else Ok (inl (i + 1, starts))
  else Ok (inr starts).

(** Second pass: each payload runs to the next marker; empty ones are left out. *)
Definition mark_ranges (len : nat) (starts : list (nat * nat)) : list (nat * nat) :=
  omap (fun '(i, (_, start)) =>
          let stop := from_option fst len (starts !! (i + 1)) in
          if start <? stop then Some (start, stop) else None)
       (imap pair starts).

Definition annex_b_nalu_ranges (data : bytes) : result (list (nat * nat)) :=
  starts ← loop (S (length data)) (marks_scan data) (0, []);
  Ok (mark_ranges (length data) starts).

Definition annex_b_nalus (data : bytes) : result (list bytes) :=
  starts ← loop (S (length data)) (marks_scan data) (0, []);
  Ok ((fun '(i, j) => take (j - i) (drop i data)) <$> mark_ranges (length data) starts).

(** ** extract_nalus_from_pes *)

(** The condition tested by both loops at [pos] (with [pos + 4 <= len]). *)
Definition pes_code_at (payload : bytes) (pos : nat) : result bool :=
  b0 ← idx payload pos;
  b1 ← idx payload (pos + 1);
  b2 ← idx payload (pos + 2);
  b3 ← idx payload (pos + 3);
  Ok ((b0 =? 0)%Z && (b1 =? 0)%Z &&
      ((b2 =? 1)%Z || ((b2 =? 0)%Z && (pos + 3 <? length payload) && (b3 =? 1)%Z))).

(** The inner [while]: advance to the next start code. *)
Definition pes_next_code (payload : bytes) (pos : nat) : result nat :=
  loop (S (length payload)) (fun pos =>
    if pos + 4 <=? length payload then
      c ← pes_code_at payload pos;
      if c : bool then Ok (inr pos) else Ok (inl (pos + 1))
    else Ok (inr pos)) pos.

Definition pes_annexb_scan (payload : bytes) (st : nat * bool * list bytes) :
    result (nat * bool * list bytes + (bool * list bytes)) :=
  let '(pos, found, nalus) := st in
  if pos + 4 <=? length payload then
    c ← pes_code_at payload pos;
    if c : bool then
      b2 ← idx payload (pos + 2);
      let nalu_start := pos + (if (b2 =? 1)%Z then 3 else 4) in
      pos ← pes_next_code payload nalu_start;
      body ← slice payload nalu_start pos;
      Ok (inl (pos, true, nalus ++ [SC4 ++ body]))
    else Ok (inl (pos + 1, found, nalus))
  else Ok (inr (found, nalus)).

(** The length-prefixed fallback, on [&payload[4..]]. *)
Definition pes_length_prefixed_scan (d : bytes) (st : nat * list bytes) :
    result (nat * list bytes + list bytes) :=
  let '(pos, nalus) := st in
  if pos + 2 <=? length d then
    '(nalu_len, prefix_len) ←
      (if pos + 4 <=? length d then
         b0 ← idx d pos; b1 ← idx d (pos + 1); b2 ← idx d (pos + 2); b3 ← idx d (pos + 3);
         Ok (Z.to_nat (from_be [b0; b1; b2; b3]), 4)
       else
         b0 ← idx d pos; b1 ← idx d (pos + 1);
         Ok (Z.to_nat (from_be [b0; b1]), 2));
    let pos := pos + prefix_len in
    if length d <? pos + nalu_len then Ok (inr nalus) else
    body ← slice d pos (pos + nalu_len);
    Ok (inl (pos + nalu_len, nalus ++ [SC4 ++ body]))
  else Ok (inr nalus).

Definition extract_nalus_from_pes (payload : bytes) : result (list bytes) :=
  '(found, nalus) ← loop (S (length payload)) (pes_annexb_scan payload) (0, false, []);
  if found : bool then Ok nalus else
  if (5 <=? length payload) && bool_decide (take 4 payload = SC4)
  then loop (S (length payload)) (pes_length_prefixed_scan (drop 4 payload)) (0, nalus)
  else Ok nalus.

Example h264_mixed_startcodes :
  h264_parse_annexb [0;0;1;0x67;0;0;0;1;0x68;0;0;1;0x65]%Z = Ok [[0x67]; [0x68]; [0x65]]%Z.
Proof. reflexivity. Qed.

Example pes_two_nalus :
  extract_nalus_from_pes [0;0;0;1;9;0x10;0x11;0;0;0;1;0x21;0x30;0x31]%Z =
  Ok [[0;0;0;1;9;0x10;0x11]; [0;0;0;1]]%Z.
Proof. reflexivity. Qed.

(** ** The reference scanner *)

(** Length of the start code at the head of [l] (0 if there is none). *)
Definition code_len (l : bytes) : nat :=
  if bool_decide (take 3 l = SC3) then 3
  else if bool_decide (take 4 l = SC4) then 4 else 0.

(** [cur] holds the bytes of the open NAL unit, [skip] counts the start-code
    bytes still to be passed over. *)
Fixpoint nals_ref (l : bytes) (skip : nat) (cur : option bytes) : list bytes :=
  match l with
  | [] => match cur with Some (b :: c) => [b :: c] | _ => [] end
  | b :: r =>
      match skip with
      | S k => nals_ref r k cur
      | O =>
          match code_len l with
          | O => nals_ref r 0 ((fun c => c ++ [b]) <$> cur)
          | S k => option_list cur ++ nals_ref r k (Some [])
          end
      end
  end.

Definition nal_units (data : bytes) : list bytes := nals_ref data 0 None.

Lemma nals_ref_skip l n cur :
  n <= length l -> nals_ref l n cur = nals_ref (drop n l) 0 cur.
Proof.
  revert l. induction n as [|n IH]; intros l Hn; [by rewrite drop_0|].
  destruct l as [|b l]; simpl in *; [lia|]. apply IH. lia.
Qed.

Lemma code_len_le l : code_len l <= length l.
Proof.
  unfold code_len. case_bool_decide as H3; [|case_bool_decide as H4; [|lia]].
  - apply (f_equal length) in H3. rewrite length_take in H3. change (length SC3) with 3 in H3. lia.
  - apply (f_equal length) in H4. rewrite length_take in H4. change (length SC4) with 4 in H4. lia.
Qed.

Lemma nals_ref_code l cur :
  0 < code_len l ->
  nals_ref l 0 cur = option_list cur ++ nals_ref (drop (code_len l) l) 0 (Some []).
Proof.
  intros Hc. pose proof (code_len_le l). destruct l as [|b r]; [simpl in *; lia|].
  cbn [nals_ref]. destruct (code_len (b :: r)) as [|k] eqn:Hk; [lia|].
  rewrite nals_ref_skip by (simpl in *; lia). done.
Qed.

Lemma nals_ref_byte b r cur :
  code_len (b :: r) = 0 -> nals_ref (b :: r) 0 cur = nals_ref r 0 ((fun c => c ++ [b]) <$> cur).
Proof. intros Hc. cbn [nals_ref]. by rewrite Hc. Qed.

Lemma code_at_drop data code i :
  0 < length code ->
  code_at data code i = bool_decide (take (length code) (drop i data) = code).
Proof.
  intros Hc. unfold code_at. destruct (Nat.leb_spec (i + length code) (length data)); [done|].
  symmetry. apply bool_decide_eq_false_2. intros Heq.
  apply (f_equal length) in Heq. rewrite length_take, length_drop in Heq. lia.
Qed.

Lemma code_3_not_4 l : take 3 l = SC3 -> take 4 l <> SC4.
Proof. destruct l as [|a [|b [|c [|d l]]]]; unfold SC3, SC4; simpl; congruence. Qed.

(** Both parsers test the same thing at each position. *)
Definition ref_scan (data : bytes) (st : scan_state) : result (scan_state + (option nat * list bytes)) :=
  let '(i, start, nals) := st in
  if i <? length data then
    match code_len (drop i data) with
    | O => Ok (inl (i + 1, start, nals))
    | n => nals ← push_nal data start i nals; Ok (inl (i + n, Some (i + n), nals))
    end
  else Ok (inr (start, nals)).

Lemma h264_scan_ref data st : h264_scan data st = ref_scan data st.
Proof.
  destruct st as [[i start] nals]. unfold h264_scan, ref_scan, code_len.
  rewrite !code_at_drop by (simpl; lia). destruct (i <? length data); [|done].
  change (length SC3) with 3. change (length SC4) with 4. by repeat case_bool_decide.
Qed.

Lemma h265_scan_ref data st : h265_scan data st = ref_scan data st.
Proof.
  destruct st as [[i start] nals]. unfold h265_scan, ref_scan, code_len.
  rewrite !code_at_drop by (simpl; lia). destruct (i <? length data); [|done].
  change (length SC3) with 3. change (length SC4) with 4.
  case_bool_decide as H4; case_bool_decide as H3; try done.
  by destruct (code_3_not_4 _ H3).
Qed.

Lemma drop_cons_lookup {A} (l : list A) i :
  i < length l -> exists x, l !! i = Some x /\ drop i l = x :: drop (S i) l.
Proof.
  intros [x Hx]%lookup_lt_is_Some_2. exists x. split; [done|]. by apply drop_S.
Qed.

(** The open NAL unit of a loop state. *)
Definition open_nal (data : bytes) (start : option nat) (i : nat) : option bytes :=
  (fun s => take (i - s) (drop s data)) <$> start.

Lemma open_nal_snoc data start i b :
  (forall s, start = Some s -> s <= i) -> data !! i = Some b ->
  open_nal data start (S i) = (fun c => c ++ [b]) <$> open_nal data start i.
Proof.
  intros Hs Hb. destruct start as [s|]; [|done]. specialize (Hs s eq_refl). simpl. f_equal.
  replace (S i - s) with (S (i - s)) by lia. apply take_S_r.
  rewrite lookup_drop. by replace (s + (i - s)) with i by lia.
Qed.

Lemma ref_scan_correct data fuel i start nals :
  i <= length data -> (forall s, start = Some s -> s <= i) -> length data - i < fuel ->
  (loop fuel (ref_scan data) (i, start, nals) ≫= finish_nals data) =
  Ok (nals ++ nals_ref (drop i data) 0 (open_nal data start i)).
Proof.
  revert i start nals. induction fuel as [|fuel IH]; intros i start nals Hi Hs Hf; [lia|].
  rewrite loop_unfold. unfold ref_scan at 1. destruct (Nat.ltb_spec i (length data)) as [Hlt|Hge].
  - destruct (drop_cons_lookup data i Hlt) as (b & Hb & Hd).
    pose proof (code_len_le (drop i data)) as Hle. rewrite length_drop in Hle.
    destruct (code_len (drop i data)) as [|k] eqn:Hc.
    + rewrite IH by (try (intros ??%Hs); lia). rewrite Nat.add_1_r.
      rewrite Hd in Hc |- *. rewrite nals_ref_byte by done.
      by erewrite open_nal_snoc by eauto.
    + assert (push_nal data start i nals = Ok (nals ++ option_list (open_nal data start i))) as ->.
      { destruct start as [s|]; [|by rewrite app_nil_r]. simpl.
        rewrite slice_ok by (try (specialize (Hs s eq_refl)); lia). done. }
      cbn [mbind outcome_bind]. rewrite IH; [|lia|intros ? [= <-]; done|lia].
      rewrite (nals_ref_code (drop i data)) by lia. rewrite Hc, drop_drop, <-app_assoc.
      simpl. by rewrite Nat.sub_diag.
  - assert (i = length data) as -> by lia. rewrite drop_all. cbn [mbind outcome_bind].
    unfold finish_nals. destruct start as [s|]; simpl; [|by rewrite app_nil_r].
    specialize (Hs s eq_refl). destruct (Nat.ltb_spec s (length data)).
    + rewrite slice_ok by lia. cbn [mbind outcome_bind].
      destruct (take (length data - s) (drop s data)) eqn:Ht; [|done].
      apply (f_equal length) in Ht. rewrite length_take, length_drop in Ht. simpl in Ht. lia.
    + rewrite (drop_ge data s) by lia. by rewrite take_nil, app_nil_r.
Qed.

Lemma h264_parse_annexb_units data : h264_parse_annexb data = Ok (nal_units data).
Proof.
  unfold h264_parse_annexb. rewrite (loop_ext _ _ _ _ (h264_scan_ref data)).
  rewrite ref_scan_correct by (done || lia). by rewrite drop_0.
Qed.

Lemma h265_parse_annexb_units data : h265_parse_annexb data = Ok (nal_units data).
Proof.
  unfold h265_parse_annexb. rewrite (loop_ext _ _ _ _ (h265_scan_ref data)).
  rewrite ref_scan_correct by (done || lia). by rewrite drop_0.
Qed.

(** ** The two-pass scanners compute the same units, without the empty ones *)

Fixpoint marks_ref (l : bytes) (skip i : nat) : list (nat * nat) :=
  match l with
  | [] => []
  | b :: r =>
      match skip with
      | S k => marks_ref r k (S i)
      | O =>
          match code_len l with
          | O => marks_ref r 0 (S i)
          | S k => (i, i + S k) :: marks_ref r k (S i)
          end
      end
  end.

Lemma marks_ref_skip l n i :
  n <= length l -> marks_ref l n i = marks_ref (drop n l) 0 (i + n).
Proof.
  revert l i. induction n as [|n IH]; intros l i Hn; [by rewrite drop_0, Nat.add_0_r|].
  destruct l as [|b l]; simpl in *; [lia|]. rewrite IH by lia. f_equal. lia.
Qed.

Lemma marks_ref_code l i n :
  code_len l = n -> 0 < n -> marks_ref l 0 i = (i, i + n) :: marks_ref (drop n l) 0 (i + n).
Proof.
  intros Hn Hc. pose proof (code_len_le l) as Hle. rewrite Hn in Hle.
  destruct l as [|b r]; cbn [length] in Hle; [lia|].
  cbn [marks_ref]. rewrite Hn. destruct n as [|k]; [lia|].
  rewrite marks_ref_skip by lia. simpl. repeat f_equal. lia.
Qed.

Lemma code_len_short l : length l < 3 -> code_len l = 0.
Proof.
  intros Hl. unfold code_len.
  rewrite !bool_decide_eq_false_2; [done|..]; intros H; apply (f_equal length) in H;
    rewrite length_take in H; unfold SC3, SC4 in H; cbn [length] in H; lia.
Qed.

Lemma marks_ref_short l i : length l < 3 -> marks_ref l 0 i = [].
Proof.
  revert i. induction l as [|b l IH]; intros i Hl; [done|]. cbn [marks_ref].
  rewrite code_len_short by done. apply IH. simpl in Hl. lia.
Qed.

Lemma marks_scan_step data i starts :
  marks_scan data (i, starts) =
  if i + 3 <=? length data then
    match code_len (drop i data) with
    | O => Ok (inl (i + 1, starts))
    | n => Ok (inl (i + n, starts ++ [(i, i + n)]))
    end
  else Ok (inr starts).
Proof.
  unfold marks_scan, code_len. rewrite !code_at_drop by (simpl; lia).
  destruct (i + 3 <=? length data); [|done].
  change (length SC3) with 3. change (length SC4) with 4.
  case_bool_decide as H4; case_bool_decide as H3; try done.
  by destruct (code_3_not_4 _ H3).
Qed.

Lemma marks_loop data fuel i starts :
  i <= length data -> length data - i < fuel ->
  loop fuel (marks_scan data) (i, starts) = Ok (starts ++ marks_ref (drop i data) 0 i).
Proof.
  revert i starts. induction fuel as [|fuel IH]; intros i starts Hi Hf; [lia|].
  rewrite loop_unfold, marks_scan_step. destruct (Nat.leb_spec (i + 3) (length data)) as [Hlt|Hge].
  - destruct (drop_cons_lookup data i ltac:(lia)) as (b & Hb & Hd).
    pose proof (code_len_le (drop i data)) as Hle. rewrite length_drop in Hle.
    destruct (code_len (drop i data)) as [|k] eqn:Hc; cbv beta iota zeta.
    + rewrite IH by lia. rewrite Hd, Nat.add_1_r. cbn [marks_ref]. by rewrite <-Hd, Hc.
    + rewrite IH by lia. rewrite (marks_ref_code (drop i data) _ _ Hc) by lia.
      by rewrite drop_drop, <-app_assoc.
  - by rewrite marks_ref_short, app_nil_r by (rewrite length_drop; lia).
Qed.

Fixpoint ranges_ref (len : nat) (starts : list (nat * nat)) : list (nat * nat) :=
  match starts with
  | [] => []
  | (_, p) :: rest =>
      let stop := match rest with (m, _) :: _ => m | [] => len end in
      (if p <? stop then [(p, stop)] else []) ++ ranges_ref len rest
  end.

Lemma mark_ranges_ref len starts : mark_ranges len starts = ranges_ref len starts.
Proof.
  unfold mark_ranges.
  assert (forall rest pre,
    omap (fun '(i, (_, start)) =>
            let stop := from_option fst len ((pre ++ rest) !! (i + 1)) in
            if start <? stop then Some (start, stop) else None)
         (imap (fun j x => (length pre + j, x)) rest) = ranges_ref len rest) as H.
  2: { exact (H starts []). }
  induction rest as [|[m p] rest IH]; intros pre; [done|].
  rewrite imap_cons. cbn [omap list_omap]. rewrite Nat.add_0_r.
  rewrite lookup_app_r by lia. replace (length pre + 1 - length pre) with 1 by lia.
  specialize (IH (pre ++ [(m, p)])). rewrite <-app_assoc in IH. cbn [app] in IH.
  rewrite (imap_ext ((fun j x => (length pre + j, x)) ∘ S)
             (fun j x => (length (pre ++ [(m, p)]) + j, x)) rest).
  2: { intros j x _. rewrite length_app. simpl. f_equal. lia. }
  rewrite IH. cbn [ranges_ref]. destruct rest as [|[m' p'] rest]; simpl;
    by match goal with |- context [?a <? ?b] => destruct (a <? b) end.
Qed.

(** Slicing the ranges gives the non-empty units of the reference scanner. *)
Definition cut (data : bytes) (r : nat * nat) : bytes := take (r.2 - r.1) (drop r.1 data).

Definition nonempty (l : bytes) : bool := match l with [] => false | _ => true end.

Lemma cut_ranges_cons data m p rest stop :
  stop = match rest with (m', _) :: _ => m' | [] => length data end -> stop <= length data ->
  cut data <$> ranges_ref (length data) ((m, p) :: rest) =
  List.filter nonempty [cut data (p, stop)] ++ (cut data <$> ranges_ref (length data) rest).
Proof.
  intros Hstop Hle. cbn [ranges_ref]. rewrite <-Hstop, fmap_app. f_equal.
  unfold cut. destruct (Nat.ltb_spec p stop); simpl.
  - destruct (take (stop - p) (drop p data)) eqn:Ht; [|done].
    apply (f_equal length) in Ht. rewrite length_take, length_drop in Ht. simpl in Ht. lia.
  - by replace (stop - p) with 0 by lia.
Qed.

Lemma cut_marks data k i pend :
  length data - i = k -> i <= length data ->
  (forall m p, pend = Some (m, p) -> p <= i) ->
  cut data <$> ranges_ref (length data) (option_list pend ++ marks_ref (drop i data) 0 i) =
  List.filter nonempty (nals_ref (drop i data) 0 (open_nal data (snd <$> pend) i)).
Proof.
  revert i pend. induction k as [k IH] using lt_wf_ind. intros i pend Hk Hi Hp.
  destruct (decide (i = length data)) as [->|Hne].
  { rewrite drop_all. destruct pend as [[m p]|]; [|done]. simpl option_list. cbn [marks_ref app].
    rewrite (cut_ranges_cons _ _ _ [] (length data)) by done.
    cbn [nals_ref fmap option_fmap option_map snd open_nal ranges_ref list_fmap].
    rewrite app_nil_r. unfold cut. simpl. by destruct (take _ _). }
  destruct (drop_cons_lookup data i ltac:(lia)) as (b & Hb & Hd).
  pose proof (code_len_le (drop i data)) as Hle. rewrite length_drop in Hle.
  destruct (code_len (drop i data)) as [|n] eqn:Hc.
  - rewrite Hd in Hc |- *. rewrite nals_ref_byte by done. cbn [marks_ref]. rewrite Hc.
    rewrite (IH (length data - S i)); [|lia|done|lia|intros ???%Hp; lia].
    erewrite open_nal_snoc; [done| |done].
    intros s Hs. destruct pend as [[m p]|]; simplify_eq/=. by eapply Hp.
  - rewrite (marks_ref_code (drop i data) _ _ Hc) by lia.
    rewrite (nals_ref_code (drop i data)) by lia. rewrite Hc, drop_drop.
    set (rest := (i, i + S n) :: marks_ref (drop (i + S n) data) 0 (i + S n)).
    assert (cut data <$> ranges_ref (length data) rest =
      List.filter nonempty (nals_ref (drop (i + S n) data) 0 (Some []))) as Hrest.
    { etrans; [apply (IH (length data - (i + S n)) ltac:(lia) (i + S n) (Some (i, i + S n)));
        [done|lia|by intros ?? [= <- <-]]|]. simpl. by rewrite Nat.sub_diag. }
    destruct pend as [[m p]|]; [|exact Hrest].
    change (option_list (Some (m, p)) ++ rest) with ((m, p) :: rest).
    rewrite (cut_ranges_cons _ _ _ _ i) by (done || lia). rewrite Hrest.
    by rewrite <-List.filter_app.
Qed.

Lemma annex_b_nalus_units data :
  annex_b_nalus data = Ok (List.filter nonempty (nal_units data)).
Proof.
  unfold annex_b_nalus. rewrite marks_loop by lia. cbn [mbind outcome_bind app].
  rewrite mark_ranges_ref, drop_0. f_equal.
  etrans; [|apply (cut_marks data (length data) 0 None); by (lia || naive_solver)].
  rewrite drop_0. apply list_fmap_ext. by intros ? [??] ?.
Qed.

Lemma marks_ref_bound l skip i : Forall (fun m => m.1 <= i + length l) (marks_ref l skip i).
Proof.
  revert skip i. induction l as [|b l IH]; intros skip i; [constructor|]. cbn [marks_ref].
  assert (forall k, Forall (fun m => m.1 <= i + length (b :: l)) (marks_ref l k (S i))) as Hl.
  { intros k. eapply Forall_impl; [apply IH|]. simpl. lia. }
  destruct skip; [|apply Hl]. destruct (code_len _); [apply Hl|].
  constructor; [simpl; lia|apply Hl].
Qed.

Lemma ranges_ref_within len starts :
  Forall (fun m => m.1 <= len) starts ->
  Forall (fun r => r.1 <= r.2 <= len) (ranges_ref len starts).
Proof.
  induction 1 as [|[m p] starts Hm Hs IH]; [constructor|]. cbn [ranges_ref].
  apply Forall_app. split; [|done].
  destruct (Nat.ltb_spec p (match starts with (m', _) :: _ => m' | [] => len end)); constructor;
    [|done]. cbn [fst snd]. destruct Hs as [|[m' p'] ? Hm']; simpl in *; lia.
Qed.

Lemma annex_b_nalu_ranges_units data :
  exists ranges, annex_b_nalu_ranges data = Ok ranges /\
    cut data <$> ranges = List.filter nonempty (nal_units data) /\
    Forall (fun r => r.1 <= r.2 <= length data) ranges.
Proof.
  unfold annex_b_nalu_ranges. rewrite marks_loop by lia. cbn [mbind outcome_bind app].
  rewrite mark_ranges_ref, drop_0. eexists. split; [done|].
  split; [|apply ranges_ref_within, (marks_ref_bound data 0 0)].
  etrans; [|apply (cut_marks data (length data) 0 None); by (lia || naive_solver)].
  by rewrite drop_0.
Qed.

(** C27: the four scanners are total, and the H.264 parser, the H.265 parser
    (which tests the two start codes in the other order), the payload
    converter's ranges and the RTP packetizer's slices all see the same NAL
    units; the last two only leave out the empty ones. *)
Theorem scanners_agree data :
  h264_parse_annexb data = Ok (nal_units data) /\
  h265_parse_annexb data = Ok (nal_units data) /\
  annex_b_nalus data = Ok (List.filter nonempty (nal_units data)) /\
  exists ranges, annex_b_nalu_ranges data = Ok ranges /\
    cut data <$> ranges = List.filter nonempty (nal_units data) /\
    Forall (fun r => r.1 <= r.2 <= length data) ranges.
Proof.
  split_and!; [apply h264_parse_annexb_units|apply h265_parse_annexb_units
    |apply annex_b_nalus_units|apply annex_b_nalu_ranges_units].
Qed.

(** ** Annex-B encoding

    A NAL unit that emulation prevention has made free of start codes. *)

Fixpoint has_code (l : bytes) : bool :=
  match l with
  | [] => false
  | _ :: r => bool_decide (take 3 l = SC3) || has_code r
  end.

Definition clean (n : bytes) : Prop := n <> [] /\ has_code n = false.

#[global] Instance clean_dec n : Decision (clean n).
Proof. unfold clean. apply _. Defined.

(** [out.extend_from_slice(&[0, 0, 0, 1]); out.extend_from_slice(nal)] for
    each NAL unit. *)
Definition annexb_enc (nals : list bytes) : bytes := concat (app SC4 <$> nals).

Lemma annexb_enc_cons n nals : annexb_enc (n :: nals) = SC4 ++ n ++ annexb_enc nals.
Proof. unfold annexb_enc. simpl. by rewrite <-?app_assoc. Qed.

Lemma annexb_enc_snoc nals n : annexb_enc (nals ++ [n]) = annexb_enc nals ++ SC4 ++ n.
Proof. unfold annexb_enc. rewrite fmap_app, concat_app. simpl. by rewrite app_nil_r. Qed.

Lemma annexb_enc_length nals : length nals <= length (annexb_enc nals).
Proof.
  induction nals as [|n nals IH]; [done|]. rewrite annexb_enc_cons, !length_app. simpl. lia.
Qed.

Lemma annexb_enc_head nals : annexb_enc nals = [] \/ exists r, annexb_enc nals = SC4 ++ r.
Proof. destruct nals; [by left|right; rewrite annexb_enc_cons; eauto]. Qed.

Lemma nals_ref_SC4 r cur :
  nals_ref (SC4 ++ r) 0 cur = option_list cur ++ nals_ref r 0 (Some []).
Proof. apply (nals_ref_code (SC4 ++ r)). change (code_len (SC4 ++ r)) with 4. lia. Qed.

Lemma clean_code_len b n rest :
  has_code (b :: n) = false -> rest = [] \/ (exists r, rest = SC4 ++ r) ->
  code_len ((b :: n) ++ rest) = 0.
Proof.
  cbn [has_code]. intros [H3%bool_decide_eq_false Hn]%orb_false_iff Hr.
  unfold code_len. rewrite !bool_decide_eq_false_2; [done|..].
  - destruct n as [|c [|d [|e n]]], Hr as [->|[r ->]]; simpl in *; intros Heq;
      unfold SC3, SC4 in *; simplify_eq.
  - destruct n as [|c [|d [|e n]]], Hr as [->|[r ->]]; simpl in *; intros Heq;
      unfold SC3, SC4 in *; simplify_eq;
      apply orb_false_iff in Hn as [H4%bool_decide_eq_false _]; simpl in H4; by destruct H4.
Qed.

Lemma nals_ref_clean n rest cur :
  has_code n = false -> rest = [] \/ (exists r, rest = SC4 ++ r) ->
  nals_ref (n ++ rest) 0 (Some cur) = nals_ref rest 0 (Some (cur ++ n)).
Proof.
  revert cur. induction n as [|b n IH]; intros cur Hn Hr; [by rewrite app_nil_r|].
  pose proof (clean_code_len b n rest Hn Hr) as Hc. change ((b :: n) ++ rest) with (b :: n ++ rest) in *.
  rewrite nals_ref_byte by done. simpl in Hn. apply orb_false_iff in Hn as [_ Hn].
  simpl. rewrite IH by done. by rewrite <-app_assoc.
Qed.

Lemma nals_ref_enc nals cur :
  Forall clean nals ->
  nals_ref (annexb_enc nals) 0 (Some cur) =
  match nals with [] => List.filter nonempty [cur] | _ => cur :: nals end.
Proof.
  intros H. revert cur. induction H as [|n nals [Hne Hn] _ IH]; intros cur; [by destruct cur|].
  rewrite annexb_enc_cons, nals_ref_SC4.
  rewrite nals_ref_clean by (done || apply annexb_enc_head). rewrite app_nil_l, IH.
  by destruct nals, n.
Qed.

(** Scanning an encoded list of start-code-free NAL units gives it back. *)
Lemma nal_units_enc nals : Forall clean nals -> nal_units (annexb_enc nals) = nals.
Proof.
  intros H. destruct H as [|n nals [Hne Hn] H]; [done|]. unfold nal_units.
  rewrite annexb_enc_cons, nals_ref_SC4.
  rewrite nals_ref_clean by (done || apply annexb_enc_head).
  rewrite app_nil_l, nals_ref_enc by done. by destruct nals, n.
Qed.

Lemma filter_nonempty_clean nals : Forall clean nals -> List.filter nonempty nals = nals.
Proof. induction 1 as [|n nals [Hne _] _ IH]; [done|]. simpl. by destruct n; simpl; f_equal. Qed.

(** ** extract_nalus_from_pes loses the end of the last NAL unit *)

Lemma pes_code_at_ref payload pos :
  pos + 4 <= length payload ->
  pes_code_at payload pos = Ok (0 <? code_len (drop pos payload)).
Proof.
  intros Hp.
  destruct (drop_cons_lookup payload pos ltac:(lia)) as (b0 & H0 & D0).
  destruct (drop_cons_lookup payload (S pos) ltac:(lia)) as (b1 & H1 & D1).
  destruct (drop_cons_lookup payload (S (S pos)) ltac:(lia)) as (b2 & H2 & D2).
  destruct (drop_cons_lookup payload (S (S (S pos))) ltac:(lia)) as (b3 & H3 & D3).
  unfold pes_code_at, idx.
  rewrite (Nat.add_1_r pos), !(Nat.add_succ_r pos), Nat.add_0_r, H0, H1, H2, H3.
  cbn [mbind outcome_bind]. rewrite D0, D1, D2, D3.
  rewrite (proj2 (Nat.ltb_lt (S (S (S pos))) _)) by lia. unfold code_len, SC3, SC4. f_equal.
  change (take 3 _) with [b0; b1; b2]. change (take 4 _) with [b0; b1; b2; b3].
  destruct (Z.eqb_spec b0 0); [subst|by rewrite !bool_decide_eq_false_2 by congruence].
  destruct (Z.eqb_spec b1 0); [subst|by rewrite !bool_decide_eq_false_2 by congruence].
  destruct (Z.eqb_spec b2 1); [by subst|]. rewrite (bool_decide_eq_false_2 _) by congruence.
  destruct (Z.eqb_spec b2 0); [subst|by rewrite !bool_decide_eq_false_2 by congruence].
  destruct (Z.eqb_spec b3 1); [by subst|by rewrite bool_decide_eq_false_2 by congruence].
Qed.

(** The part of a NAL unit the scan keeps: all of it before another start
    code, all but three bytes at the end of the payload. *)
Definition pes_kept (n rest : bytes) : nat :=
  match rest with [] => length n - 3 | _ => length n end.

Lemma pes_next_code_clean payload fuel pos n rest :
  drop pos payload = n ++ rest -> pos <= length payload -> has_code n = false ->
  rest = [] \/ (exists r, rest = SC4 ++ r) -> length n < fuel ->
  loop fuel (fun pos =>
    if pos + 4 <=? length payload then
      c ← pes_code_at payload pos;
      if c : bool then Ok (inr pos) else Ok (inl (pos + 1))
    else Ok (inr pos)) pos = (Ok (pos + pes_kept n rest) : result nat).
Proof.
  revert pos n. induction fuel as [|fuel IH]; intros pos n Hd Hpos Hn Hr Hf; [lia|].
  pose proof (f_equal length Hd) as Hlen. rewrite length_drop, length_app in Hlen.
  rewrite loop_unfold. destruct (Nat.leb_spec (pos + 4) (length payload)) as [Hle|Hgt].
  - rewrite pes_code_at_ref, Hd by done. cbn [mbind outcome_bind].
    destruct n as [|b n].
    + destruct Hr as [->|[r ->]]; [simpl in Hlen; lia|]. simpl. by rewrite Nat.add_0_r.
    + rewrite clean_code_len by done. change (0 <? 0) with false. cbv iota.
      rewrite (IH (pos + 1) n).
      * f_equal. unfold pes_kept. cbn [length] in *. destruct rest; simpl in *; lia.
      * rewrite Nat.add_1_r. destruct (drop_cons_lookup payload pos ltac:(lia)) as (x & _ & Hx).
        rewrite Hx in Hd. simplify_eq/=. done.
      * lia.
      * simpl in Hn. by apply orb_false_iff in Hn as [_ ?].
      * done.
      * simpl in Hf. lia.
  - do 2 f_equal. unfold pes_kept. destruct Hr as [->|[r ->]]; simpl in *; lia.
Qed.

Lemma pes_annexb_scan_enc payload fuel pos found nals n acc :
  drop pos payload = annexb_enc (nals ++ [n]) -> Forall (fun m => has_code m = false) (nals ++ [n]) ->
  S (length nals) < fuel ->
  loop fuel (pes_annexb_scan payload) (pos, found, acc) =
  Ok (true, acc ++ (app SC4 <$> (nals ++ [take (length n - 3) n]))).
Proof.
  revert pos found nals acc. induction fuel as [|fuel IH]; intros pos found nals acc Hd Hn Hf; [lia|].
  destruct (nals ++ [n]) as [|m ms] eqn:Hms; [by destruct nals|].
  remember (annexb_enc ms) as rest eqn:Hrest.
  assert (drop pos payload = SC4 ++ m ++ rest) as Hd' by (by rewrite Hd, annexb_enc_cons, Hrest).
  assert (has_code m = false) as Hm by by inv Hn.
  pose proof (f_equal length Hd') as Hlen. rewrite length_drop, !length_app in Hlen.
  change (length SC4) with 4 in Hlen.
  assert (drop (pos + 4) payload = m ++ rest) as Hd4 by (rewrite <-drop_drop, Hd'; done).
  rewrite loop_unfold. unfold pes_annexb_scan at 1.
  rewrite (proj2 (Nat.leb_le _ _)), pes_code_at_ref, Hd' by lia. cbn [mbind outcome_bind].
  change (0 <? code_len (SC4 ++ m ++ rest)) with true. cbv iota.
  assert (payload !! (pos + 2) = Some 0%Z) as Hb2 by (rewrite <-lookup_drop, Hd'; done).
  rewrite (idx_lookup _ _ _ Hb2). cbn [mbind outcome_bind].
  change (if (0 =? 1)%Z then 3 else 4) with 4. unfold pes_next_code.
  assert (rest = [] \/ exists r, rest = SC4 ++ r) as Hr by (subst; apply annexb_enc_head).
  rewrite (pes_next_code_clean _ _ _ m rest) by (done || lia). cbn [mbind outcome_bind].
  assert (pes_kept m rest <= length m) by (unfold pes_kept; destruct rest; lia).
  rewrite slice_ok by lia. cbn [mbind outcome_bind].
  replace (pos + 4 + pes_kept m rest - (pos + 4)) with (pes_kept m rest) by lia.
  rewrite Hd4, take_app_le by done.
  destruct nals as [|m' nals]; simplify_eq/=.
  - rewrite app_nil_r in *. destruct fuel as [|fuel]; [lia|]. rewrite loop_unfold.
    unfold pes_annexb_scan at 1. rewrite (proj2 (Nat.leb_gt _ _)) by lia. done.
  - assert (annexb_enc (nals ++ [n]) <> []) as Hne.
    { rewrite annexb_enc_snoc. by destruct (annexb_enc nals). }
    assert (pes_kept m (annexb_enc (nals ++ [n])) = length m) as Hk.
    { unfold pes_kept. by destruct (annexb_enc (nals ++ [n])). }
    rewrite Hk, firstn_all. inv Hn. rewrite (IH _ _ nals); [|..|done|lia].
    + by rewrite <-app_assoc.
    + rewrite <-drop_drop, Hd4. apply drop_app_length.
Qed.

Lemma pes_next_code_safe payload pos :
  pos <= length payload ->
  wp (pes_next_code payload pos) (fun p => pos <= p <= length payload) (fun _ => False).
Proof.
  intros Hp. unfold pes_next_code.
  eapply (wp_loop _ (fun p => pos <= p <= length payload) (fun p => length payload - p)); [|lia..].
  intros p Hi. destruct (Nat.leb_spec (p + 4) (length payload)); [|by apply wp_ok].
  rewrite pes_code_at_ref by done. cbn [mbind outcome_bind].
  destruct (0 <? _); apply wp_ok; lia.
Qed.

Lemma pes_length_prefixed_always d fuel ns :
  length d < fuel -> always (loop fuel (pes_length_prefixed_scan d) (0, ns)).
Proof.
  intros Hf. apply (wp_loop _ (fun st => st.1 <= length d) (fun st => length d - st.1));
    [|cbn [fst]; lia..].
  intros [q ms] Hq. cbn [fst] in *. unfold pes_length_prefixed_scan.
  destruct (Nat.leb_spec (q + 2) (length d)); [|by apply wp_ok].
  apply wp_bind. eapply (wp_mono _ (fun '(_, k) => 2 <= k /\ q + k <= length d) _ (fun _ => False));
    [|intros [nl k] Hk|done].
  - destruct (Nat.leb_spec (q + 4) (length d));
      repeat (apply wp_bind, wp_idx; [lia|]; intros ? _); apply wp_ok; lia.
  - destruct (Nat.ltb_spec (length d) (q + k + nl)); [by apply wp_ok|].
    apply wp_bind, wp_slice; [lia..|]. apply wp_ok. cbn [fst]. lia.
Qed.

Lemma extract_nalus_always payload : always (extract_nalus_from_pes payload).
Proof.
  unfold extract_nalus_from_pes. apply wp_bind.
  eapply (wp_loop _ (fun st => st.1.1 <= length payload) (fun st => length payload - st.1.1));
    [|cbn [fst]; lia..].
  intros [[pos found] nalus] Hi. cbn [fst] in *. unfold pes_annexb_scan.
  destruct (Nat.leb_spec (pos + 4) (length payload)).
  - rewrite pes_code_at_ref by done. cbn [mbind outcome_bind].
    destruct (0 <? _); [|apply wp_ok; cbn [fst]; lia].
    apply wp_bind, wp_idx; [lia|]. intros b2 _.
    remember (if (b2 =? 1)%Z then 3 else 4) as k eqn:Hk.
    assert (3 <= k <= 4) by (subst k; destruct (b2 =? 1)%Z; lia).
    apply wp_bind. eapply wp_mono; [apply pes_next_code_safe; lia| |done].
    intros p Hp. cbv beta in Hp. apply wp_bind, wp_slice; [lia..|apply wp_ok; cbn [fst]; lia].
  - apply wp_ok. destruct found; [by apply wp_ok|].
    destruct ((5 <=? _) && _); [|by apply wp_ok].
    apply pes_length_prefixed_always. rewrite length_drop. lia.
Qed.

(** [extract_nalus_from_pes] always returns, without a panic, but on an
    access unit of start-code-free NAL units the last three bytes of the last
    NAL unit are lost (the scan stops four bytes before the end of the
    payload); the earlier NAL units are complete. *)
Theorem extract_nalus_truncates_last :
  (forall payload, safe (extract_nalus_from_pes payload)) /\
  (forall nals n, Forall (fun m => has_code m = false) (nals ++ [n]) ->
    extract_nalus_from_pes (annexb_enc (nals ++ [n])) =
    Ok (app SC4 <$> (nals ++ [take (length n - 3) n]))).
Proof.
  split; [intros payload; by eapply wp_safe, extract_nalus_always|]. intros nals n Hn. unfold extract_nalus_from_pes.
  pose proof (annexb_enc_length nals).
  rewrite (pes_annexb_scan_enc _ _ _ _ nals n); [done|done|done|].
  rewrite annexb_enc_snoc, !length_app. change (length SC4) with 4. lia.
Qed.

Lemma extract_nalus_truncates_last_witness :
  extract_nalus_from_pes (annexb_enc [[9; 16]; [0x65; 1; 2; 3; 4]]%Z) =
  Ok [SC4 ++ [9; 16]; SC4 ++ [0x65; 1]]%Z.
Proof.
  exact (proj2 extract_nalus_truncates_last [[9; 16]]%Z [0x65; 1; 2; 3; 4]%Z
    ltac:(by repeat constructor)).
Defined.
