(* ===== verification/Payload.v ===== *)
(** * Payload: conversions between the byte layouts of a frame

    [crates/core/src/payload.rs], every function of it.  [annex_b_nalu_ranges]
    is in [AnnexB].  An index the source takes behind a length test is
    modelled as an index ([idx], which would panic): the absence of panics is
    a theorem, not a convention. *)

From S2P Require Import Prelude Frame AnnexB.

Definition FLV_VIDEO_HEADER_LEN : nat := 5.
Definition FLV_AUDIO_HEADER_LEN : nat := 2.

(** ** Detection *)

Definition starts_with_annex_b (data : bytes) : bool :=
  bool_decide (take 3 data = SC3) || bool_decide (take 4 data = SC4).

Definition is_adts (data : bytes) : result bool :=
  andm (7 <=? length data)
    (d0 ← idx data 0;
     andm (d0 =? 0xff)%Z (d1 ← idx data 1; Ok (d1 .& 0xf6 =? 0xf0)%Z)).

Definition adts_header_len (data : bytes) : result nat :=
  a ← is_adts data;
  if negb a then Err (Codec "invalid ADTS payload") else
  d1 ← idx data 1;
  Ok (if negb (d1 .& 0x01 =? 0)%Z then 7 else 9).

Definition strip_adts_header (data : bytes) : result bytes :=
  header_len ← adts_header_len data;
  if length data <=? header_len then Err (Codec "ADTS frame contains no AAC payload")
  else slice data header_len (length data).

Definition audio_specific_config_from_adts (data : bytes) : result bytes :=
  _ ← adts_header_len data;
  d2 ← idx data 2;
  d3 ← idx data 3;
  let profile := (((d2 .>> 6) .& 0x03) + 1)%Z in
  let frequency_index := (d2 .>> 2) .& 0x0f in
  let channels := ((d2 .& 0x01) .<< 2) .| ((d3 .>> 6) .& 0x03) in
  let asc0 := u8 (profile .<< 3) .| (frequency_index .>> 1) in
  let asc1 := u8 (frequency_index .<< 7) .| u8 (channels .<< 3) in
  Ok [asc0; asc1].

Definition declared_or_detected_video_format (frame : MediaFrame) : result PayloadFormat :=
  if negb (bool_decide (payload_format frame = PfUnknown)) then Ok (payload_format frame) else
  let data := data frame in
  if starts_with_annex_b data then Ok PfAnnexB else
  flv ← andm (FLV_VIDEO_HEADER_LEN <=? length data)
    (d0 ← idx data 0;
     andm ((d0 .& 0x0f =? 7)%Z || (d0 .& 0x0f =? 12)%Z)
       (d1 ← idx data 1; Ok (d1 .& 0x0f <=? 1)%Z));
  Ok (if flv : bool then PfFlv
      else if bool_decide (codec frame = H265) then PfHvcc else PfAvcc).

Definition declared_or_detected_aac_format (frame : MediaFrame) : result PayloadFormat :=
  if negb (bool_decide (payload_format frame = PfUnknown)) then Ok (payload_format frame) else
  let data := data frame in
  flv ← andm (2 <=? length data)
    (d0 ← idx data 0;
     andm (d0 .>> 4 =? 10)%Z (d1 ← idx data 1; Ok (d1 <=? 1)%Z));
  if flv : bool then Ok PfFlv else
  adts ← is_adts data;
  Ok (if adts : bool then PfAdts
      else if config_frame frame then PfAacAudioSpecificConfig else PfAacRaw).

(** ** Annex-B and length-prefixed access units *)

Definition append_length_prefixed (data : bytes) (acc : result bytes) (r : nat * nat) :
    result bytes :=
  out ← acc;
  len ← usub r.2 r.1;
  body ← slice data r.1 r.2;
  Ok (out ++ to_be 4 (u32 (Z.of_nat len)) ++ body).

Definition annex_b_to_length_prefixed (data : bytes) : result bytes :=
  ranges ← annex_b_nalu_ranges data;
  match ranges with
  | [] => Err (Codec "Annex-B payload contains no NAL units")
  | _ => foldl (append_length_prefixed data) (Ok []) ranges
  end.

Definition length_prefixed_step (data : bytes) (st : nat * bytes) :
    result (nat * bytes + (nat * bytes)) :=
  let '(pos, out) := st in
  if pos + 4 <=? length data then
    b0 ← idx data pos; b1 ← idx data (pos + 1);
    b2 ← idx data (pos + 2); b3 ← idx data (pos + 3);
    let len := Z.to_nat (from_be [b0; b1; b2; b3]) in
    let pos := pos + 4 in
    if (len =? 0) || (length data <? pos + len)
    then Err (Codec "invalid length-prefixed NAL unit") else
    body ← slice data pos (pos + len);
    Ok (inl (pos + len, out ++ SC4 ++ body))
  else Ok (inr (pos, out)).

Definition length_prefixed_to_annex_b (data : bytes) : result bytes :=
  '(pos, out) ← loop (S (length data)) (length_prefixed_step data) (0, []);
  if negb (pos =? length data) || (length out =? 0)
  then Err (Codec "invalid length-prefixed video payload")
  else Ok out.

(** ** Video *)

Definition video_decoder_config (frame : MediaFrame) : result bytes :=
  if negb (bool_decide (codec frame = H264 \/ codec frame = H265))
  then Err (Unsupported "video decoder config for ") else
  format ← declared_or_detected_video_format frame;
  flv_config ← andm (bool_decide (format = PfFlv) && (1 <? length (data frame)))
    (d1 ← idx (data frame) 1; Ok (d1 .& 0x0f =? 0)%Z);
  if negb (config_frame frame) && negb flv_config
  then Err (Codec "expected a video configuration frame") else
  match format with
  | PfFlv =>
      if length (data frame) <=? FLV_VIDEO_HEADER_LEN
      then Err (Codec "invalid FLV video configuration payload") else
      d1 ← idx (data frame) 1;
      if negb (d1 .& 0x0f =? 0)%Z then Err (Codec "invalid FLV video configuration payload") else
      slice (data frame) FLV_VIDEO_HEADER_LEN (length (data frame))
  | PfUnknown => Ok (data frame)
  | other =>
      if bool_decide (other = PfAvcc /\ codec frame = H264) then Ok (data frame)
      else if bool_decide (other = PfHvcc /\ codec frame = H265) then Ok (data frame)
      else Err (Unsupported "cannot derive decoder config from ")
  end.

Definition video_sample_length_prefixed (frame : MediaFrame) : result bytes :=
  if config_frame frame then Err (Codec "expected a video media sample") else
  if negb (bool_decide (codec frame = H264 \/ codec frame = H265))
  then Err (Unsupported "length-prefixed sample for ") else
  format ← declared_or_detected_video_format frame;
  match format with
  | PfFlv =>
      if length (data frame) <=? FLV_VIDEO_HEADER_LEN
      then Err (Codec "invalid FLV video media payload") else
      d1 ← idx (data frame) 1;
      if negb (d1 .& 0x0f =? 1)%Z then Err (Codec "invalid FLV video media payload") else
      slice (data frame) FLV_VIDEO_HEADER_LEN (length (data frame))
  | PfAvcc | PfHvcc => Ok (data frame)
  | PfAnnexB => annex_b_to_length_prefixed (data frame)
  | PfUnknown => Ok (data frame)
  | _ => Err (Unsupported "cannot convert video payload to a length-prefixed sample")
  end.

Definition video_sample_annex_b (frame : MediaFrame) : result bytes :=
  if config_frame frame then Err (Codec "expected a video media sample") else
  format ← declared_or_detected_video_format frame;
  match format with
  | PfAnnexB => Ok (data frame)
  | PfFlv =>
      sample ← video_sample_length_prefixed frame;
      length_prefixed_to_annex_b sample
  | PfAvcc | PfHvcc | PfUnknown => length_prefixed_to_annex_b (data frame)
  | _ => Err (Unsupported "cannot convert video payload to Annex-B")
  end.

(** [for _ in 0..count]: the cursor and the output, threaded. *)
Fixpoint append_u16_nalus (data : bytes) (count pos : nat) (out : bytes) : result (nat * bytes) :=
  match count with
  | O => Ok (pos, out)
  | S count =>
      if length data <? pos + 2 then Err (Codec "truncated AVC NAL length") else
      b0 ← idx data pos; b1 ← idx data (pos + 1);
      let len := Z.to_nat (from_be [b0; b1]) in
      let pos := pos + 2 in
      if length data <? pos + len then Err (Codec "truncated AVC NAL unit") else
      body ← slice data pos (pos + len);
      append_u16_nalus data count (pos + len) (out ++ SC4 ++ body)
  end.

(** The inner loop of the H.265 branch: parameter sets are kept, other NAL
    units (SEI, ...) are skipped. *)
Fixpoint hevc_array_nalus (config : bytes) (nal_type : Z) (num_nalus pos : nat) (out : bytes) :
    result (nat * bytes) :=
  match num_nalus with
  | O => Ok (pos, out)
  | S num_nalus =>
      if length config <? pos + 2 then Err (Codec "truncated HEVC NAL length") else
      b0 ← idx config pos; b1 ← idx config (pos + 1);
      let len := Z.to_nat (from_be [b0; b1]) in
      let pos := pos + 2 in
      if length config <? pos + len then Err (Codec "truncated HEVC NAL unit") else
      out ← (if ((32 <=? nal_type) && (nal_type <=? 34))%Z
             then body ← slice config pos (pos + len); Ok (out ++ SC4 ++ body)
             else Ok out);
      hevc_array_nalus config nal_type num_nalus (pos + len) out
  end.

Fixpoint hevc_arrays (config : bytes) (num_arrays pos : nat) (out : bytes) :
    result (nat * bytes) :=
  match num_arrays with
  | O => Ok (pos, out)
  | S num_arrays =>
      if length config <? pos + 3 then Err (Codec "truncated HEVC NAL array") else
      t ← idx config pos;
      let nal_type := t .& 0x3f in
      n0 ← idx config (pos + 1); n1 ← idx config (pos + 2);
      let num_nalus := Z.to_nat (from_be [n0; n1]) in
      '(pos, out) ← hevc_array_nalus config nal_type num_nalus (pos + 3) out;
      hevc_arrays config num_arrays pos out
  end.

Definition video_config_annex_b (frame : MediaFrame) : result bytes :=
  config ← video_decoder_config frame;
  out ←
    match codec frame with
    | H264 =>
        if length config <? 6 then Err (Codec "invalid AVCDecoderConfigurationRecord") else
        c5 ← idx config 5;
        let num_sps := Z.to_nat (c5 .& 0x1f) in
        '(pos, out) ← append_u16_nalus config num_sps 6 [];
        match config !! pos with
        | None => Err (Codec "missing AVC PPS count")
        | Some num_pps =>
            '(_, out) ← append_u16_nalus config (Z.to_nat num_pps) (pos + 1) out;
            Ok out
        end
    | H265 =>
        if length config <? 23 then Err (Codec "invalid HEVCDecoderConfigurationRecord") else
        c22 ← idx config 22;
        '(_, out) ← hevc_arrays config (Z.to_nat c22) 23 [];
        Ok out
    | _ => Err (Unsupported "Annex-B decoder configuration for ")
    end;
  match out with
  | [] => Err (Codec "decoder configuration has no parameter sets")
  | _ => Ok out
  end.

(** ** Audio *)

Definition aac_audio_specific_config (frame : MediaFrame) : result bytes :=
  format ← declared_or_detected_aac_format frame;
  flv_config ← andm (bool_decide (format = PfFlv) && (1 <? length (data frame)))
    (d1 ← idx (data frame) 1; Ok (d1 =? 0)%Z);
  if negb (bool_decide (codec frame = AAC)) || (negb (config_frame frame) && negb flv_config)
  then Err (Codec "expected an AAC configuration frame") else
  match format with
  | PfFlv =>
      if length (data frame) <=? FLV_AUDIO_HEADER_LEN
      then Err (Codec "invalid FLV AAC configuration payload") else
      d1 ← idx (data frame) 1;
      if negb (d1 =? 0)%Z then Err (Codec "invalid FLV AAC configuration payload") else
      slice (data frame) FLV_AUDIO_HEADER_LEN (length (data frame))
  | PfAacAudioSpecificConfig | PfUnknown => Ok (data frame)
  | PfAdts => audio_specific_config_from_adts (data frame)
  | _ => Err (Unsupported "cannot derive AAC AudioSpecificConfig from ")
  end.

Definition aac_raw_payload (frame : MediaFrame) : result bytes :=
  if negb (bool_decide (codec frame = AAC)) || config_frame frame
  then Err (Codec "expected an AAC media frame") else
  format ← declared_or_detected_aac_format frame;
  match format with
  | PfFlv =>
      if length (data frame) <=? FLV_AUDIO_HEADER_LEN
      then Err (Codec "invalid FLV AAC media payload") else
      d1 ← idx (data frame) 1;
      if negb (d1 =? 1)%Z then Err (Codec "invalid FLV AAC media payload") else
      slice (data frame) FLV_AUDIO_HEADER_LEN (length (data frame))
  | PfAacRaw | PfUnknown => Ok (data frame)
  | PfAdts => strip_adts_header (data frame)
  | _ => Err (Unsupported "cannot derive raw AAC payload from ")
  end.

(** ** flv_payload *)

(** [i64::clamp(lo, hi)]. *)
Definition clamp (z lo hi : Z) : Z :=
  if (z <? lo)%Z then lo else if (hi <? z)%Z then hi else z.

Definition flv_composition_time (frame : MediaFrame) : result Z :=
  if config_frame frame then Ok 0%Z else
  d ← i64_checked (i64 (pts frame) - i64 (dts frame))%Z;
  Ok (i32 (clamp d (-8388608) 8388607)).

Definition flv_video_payload (frame : MediaFrame) (codec_id : Z) : result bytes :=
  body ← (if config_frame frame then video_decoder_config frame
          else video_sample_length_prefixed frame);
  let frame_type := (if key_frame frame || config_frame frame then 1 else 2)%Z in
  composition_time ← flv_composition_time frame;
  Ok ([(frame_type .<< 4) .| codec_id;
       if config_frame frame then 0 else 1;
       (composition_time .>> 16) .& 0xff;
       (composition_time .>> 8) .& 0xff;
       composition_time .& 0xff]%Z ++ body).

Definition flv_audio_payload (frame : MediaFrame) : result bytes :=
  match codec frame with
  | AAC =>
      body ← (if config_frame frame then aac_audio_specific_config frame
              else aac_raw_payload frame);
      Ok ([0xaf; if config_frame frame then 0 else 1]%Z ++ body)
  | G711A => Ok (((7 .<< 4) .| 0x02)%Z :: data frame)
  | G711U => Ok (((8 .<< 4) .| 0x02)%Z :: data frame)
  | Mp3 => Ok (0x2f%Z :: data frame)
  | _ => Err (Unsupported "FLV audio payload for ")
  end.

Definition flv_payload (frame : MediaFrame) : result bytes :=
  if bool_decide (frame_type frame = Metadata) || bool_decide (payload_format frame = PfFlv)
  then Ok (data frame) else
  match frame_type frame with
  | Video =>
      match codec frame with
      | H264 => flv_video_payload frame 7
      | H265 => flv_video_payload frame 12
      | _ => Err (Unsupported "FLV video payload for ")
      end
  | Audio => flv_audio_payload frame
  | Metadata => Ok (data frame)
  end.

(** ** Access units *)

(** [out.put_u32(len); out.extend_from_slice(nal)] for each NAL unit. *)
Definition lp_enc (nals : list bytes) : bytes :=
  concat ((fun n => to_be 4 (zlen n) ++ n) <$> nals).

(** NAL units whose length fits the four-byte prefix. *)
Definition lp_sized (nals : list bytes) : Prop :=
  Forall (fun n => 0 < length n /\ is_u32 (zlen n)) nals.

Lemma lp_enc_cons n nals : lp_enc (n :: nals) = to_be 4 (zlen n) ++ n ++ lp_enc nals.
Proof. unfold lp_enc. simpl. by rewrite <-?app_assoc. Qed.

Lemma fold_length_prefixed data ranges out :
  Forall (fun r => r.1 <= r.2 <= length data) ranges ->
  lp_sized (cut data <$> ranges) ->
  foldl (append_length_prefixed data) (Ok out) ranges = Ok (out ++ lp_enc (cut data <$> ranges)).
Proof.
  intros Hr. revert out. induction Hr as [|[i j] ranges Hij _ IH]; intros out Hs;
    [by rewrite app_nil_r|]. cbn [fst snd] in Hij. inv Hs as [|? ? [_ Hu] Hs'].
  cbn [foldl]. unfold append_length_prefixed at 2. cbn [mbind outcome_bind fst snd].
  unfold usub. rewrite (proj2 (Nat.leb_le i j)), slice_ok by lia. cbn [mbind outcome_bind].
  assert (zlen (cut data (i, j)) = Z.of_nat (j - i)) as Hl.
  { unfold zlen, cut. rewrite length_take, length_drop. cbn [fst snd]. lia. }
  rewrite Hl in Hu. unfold u32. rewrite Z.mod_small by apply Hu.
  rewrite IH by done. rewrite fmap_cons, lp_enc_cons, Hl, <-!app_assoc. done.
Qed.

(** The Annex-B to length-prefixed conversion is the encoding of the scanned
    NAL units. *)
Lemma annex_b_to_length_prefixed_units data :
  lp_sized (List.filter nonempty (nal_units data)) ->
  annex_b_to_length_prefixed data =
  match List.filter nonempty (nal_units data) with
  | [] => Err (Codec "Annex-B payload contains no NAL units")
  | nals => Ok (lp_enc nals)
  end.
Proof.
  intros Hs. unfold annex_b_to_length_prefixed.
  destruct (annex_b_nalu_ranges_units data) as (ranges & -> & Hcut & Hin).
  cbn [mbind outcome_bind]. rewrite <-Hcut in *. destruct ranges as [|r ranges]; [done|].
  rewrite fold_length_prefixed by done. done.
Qed.

Lemma length_prefixed_loop data fuel pos out nals :
  drop pos data = lp_enc nals -> pos <= length data -> lp_sized nals -> length nals < fuel ->
  loop fuel (length_prefixed_step data) (pos, out) = Ok (length data, out ++ annexb_enc nals).
Proof.
  revert pos out nals. induction fuel as [|fuel IH]; intros pos out nals Hd Hp Hs Hf; [lia|].
  pose proof (f_equal length Hd) as Hlen. rewrite length_drop in Hlen.
  rewrite loop_unfold. unfold length_prefixed_step at 1.
  destruct Hs as [|n nals [Hn Hu] Hs].
  { simpl in Hlen. rewrite (proj2 (Nat.leb_gt _ _)) by lia. rewrite app_nil_r.
    do 2 f_equal. lia. }
  rewrite lp_enc_cons, !length_app, length_to_be in Hlen. rewrite (proj2 (Nat.leb_le _ _)) by lia.
  destruct (idx_be4 data pos) as (b0 & b1 & b2 & b3 & Htake & Hk); [lia|]. rewrite Hk. clear Hk.
  rewrite Hd, lp_enc_cons, (take_app_length' (to_be 4 _)) in Htake by by rewrite length_to_be.
  rewrite <-Htake, from_be_to_be_small by apply Hu.
  unfold zlen. rewrite Nat2Z.id.
  rewrite (proj2 (Nat.eqb_neq _ _)), (proj2 (Nat.ltb_ge _ _)), slice_ok by lia.
  cbn [orb mbind outcome_bind].
  assert (drop (pos + 4) data = n ++ lp_enc nals) as Hd4.
  { rewrite <-drop_drop, Hd, lp_enc_cons. done. }
  rewrite Hd4. replace (_ - _) with (length n) by lia. rewrite take_app_length.
  rewrite (IH _ _ nals).
  - by rewrite annexb_enc_cons, <-!app_assoc.
  - rewrite <-drop_drop, Hd4. apply drop_app_length.
  - lia.
  - done.
  - simpl in Hf. lia.
Qed.

Lemma lp_enc_length nals : length nals <= length (lp_enc nals).
Proof. induction nals; [done|]. rewrite lp_enc_cons, !length_app, length_to_be. simpl. lia. Qed.

Lemma length_prefixed_to_annex_b_enc nals :
  nals <> [] -> lp_sized nals -> length_prefixed_to_annex_b (lp_enc nals) = Ok (annexb_enc nals).
Proof.
  intros Hne Hs. unfold length_prefixed_to_annex_b. pose proof (lp_enc_length nals).
  rewrite (length_prefixed_loop _ _ _ _ nals) by (done || lia). cbn [mbind outcome_bind app].
  rewrite Nat.eqb_refl. destruct nals as [|n nals]; [done|].
  rewrite annexb_enc_cons. done.
Qed.

Definition lp_inv (data : bytes) (st : nat * bytes) : Prop :=
  st.1 <= length data /\
  exists nals, lp_sized nals /\ take st.1 data = lp_enc nals /\ st.2 = annexb_enc nals.

Lemma lp_enc_snoc nals n : lp_enc (nals ++ [n]) = lp_enc nals ++ to_be 4 (zlen n) ++ n.
Proof. unfold lp_enc. rewrite fmap_app, concat_app. simpl. by rewrite app_nil_r. Qed.

Lemma length_prefixed_loop_inv data :
  bytes_ok data ->
  wp (loop (S (length data)) (length_prefixed_step data) (0, []))
     (fun st => lp_inv data st /\ length data < st.1 + 4) (fun _ => True).
Proof.
  intros Hok. apply (wp_loop _ (lp_inv data) (fun st => length data - st.1)).
  - intros [pos out] (Hpos & nals & Hs & Htk & Hout). cbn [fst snd] in *.
    unfold length_prefixed_step. destruct (Nat.leb_spec (pos + 4) (length data)) as [Hle|Hgt].
    2: { apply wp_ok. split; [|done]. split; [done|by exists nals]. }
    destruct (idx_be4 data pos) as (b0 & b1 & b2 & b3 & H4 & Hk); [done|]. rewrite Hk. clear Hk.
    set (len := Z.to_nat (from_be [b0; b1; b2; b3])).
    destruct (Nat.eqb_spec len 0); [by apply wp_err|].
    destruct (Nat.ltb_spec (length data) (pos + 4 + len)); [by apply wp_err|].
    cbn [orb]. apply wp_bind, wp_slice; [lia..|]. apply wp_ok. split; [|cbn [fst]; lia].
    split; [cbn [fst]; lia|]. set (body := take _ (drop (pos + 4) data)).
    assert (length body = len) as Hb by (unfold body; rewrite length_take, length_drop; lia).
    assert (bytes_ok [b0; b1; b2; b3]) as Hb4.
    { rewrite <-H4. by apply bytes_ok_take, bytes_ok_drop. }
    pose proof (from_be_bound _ Hb4) as Hbd. change (256 ^ zlen [b0; b1; b2; b3])%Z with (2 ^ 32)%Z in Hbd.
    assert (zlen body = from_be [b0; b1; b2; b3]) as Hz by (unfold zlen; lia).
    exists (nals ++ [body]). cbn [fst snd]. split_and!.
    + apply Forall_app. split; [done|]. constructor; [|constructor]. unfold is_u32. lia.
    + rewrite lp_enc_snoc, Hz, <-Htk. change 4%nat with (length [b0; b1; b2; b3]) at 2.
      rewrite to_be_from_be, <-H4 by done. unfold body.
      replace (pos + 4 + len) with (pos + (4 + len)) by lia.
      rewrite <-take_take_drop. f_equal. replace (pos + (4 + len) - (pos + 4)) with len by lia.
      by rewrite <-drop_drop, take_take_drop.
    + by rewrite annexb_enc_snoc, Hout.
  - split; [simpl; lia|]. exists []. split_and!; [constructor|done..].
  - simpl. lia.
Qed.

(** C32: [length_prefixed_to_annex_b] accepts exactly the encodings of a
    non-empty list of non-empty NAL units with four-byte lengths, turns them
    into the Annex-B encoding of the same NAL units, and rejects everything
    else with an error: it never panics and never drops or invents bytes. *)
Theorem length_prefixed_exact s :
  bytes_ok s ->
  match length_prefixed_to_annex_b s with
  | Ok out => exists nals, nals <> [] /\ lp_sized nals /\ s = lp_enc nals /\ out = annexb_enc nals
  | Err _ => forall nals, nals <> [] -> lp_sized nals -> s <> lp_enc nals
  | _ => False
  end.
Proof.
  intros Hok.
  destruct (length_prefixed_to_annex_b s) as [out|e| |] eqn:Hr.
  2: { intros nals Hne Hs ->. by rewrite length_prefixed_to_annex_b_enc in Hr. }
  all: unfold length_prefixed_to_annex_b in Hr; pose proof (length_prefixed_loop_inv s Hok) as Hl;
    destruct (loop _ _ _) as [[pos out']|e| |]; try done; cbn [mbind outcome_bind] in Hr;
    destruct Hl as [(Hpos & nals & Hs & Htk & Hout) _]; cbn [fst snd] in *;
    destruct (Nat.eqb_spec pos (length s)); simpl in Hr; try done;
    destruct (Nat.eqb_spec (length out') 0); simplify_eq/=.
  exists nals. split_and!; [by intros ->|done| |done]. by rewrite <-Htk, firstn_all.
Qed.

Lemma length_prefixed_exact_witness :
  length_prefixed_to_annex_b [0; 0; 0; 2; 0x65; 1]%Z = Ok [0; 0; 0; 1; 0x65; 1]%Z /\
  exists nals, nals <> [] /\ lp_sized nals /\ [0; 0; 0; 2; 0x65; 1]%Z = lp_enc nals /\
    [0; 0; 0; 1; 0x65; 1]%Z = annexb_enc nals.
Proof.
  split; [reflexivity|].
  exact (length_prefixed_exact [0; 0; 0; 2; 0x65; 1]%Z
    ltac:(apply (bool_decide_unpack _); vm_compute; exact I)).
Defined.

(** A frame with another payload. *)
Definition with_data (f : MediaFrame) (pf : PayloadFormat) (d : bytes) : MediaFrame :=
  {| track_id := track_id f; frame_type := frame_type f; codec := codec f;
     timestamp := timestamp f; pts := pts f; dts := dts f; data := d;
     payload_format := pf; key_frame := key_frame f; config_frame := config_frame f |}.

Definition is_h26x (f : MediaFrame) : Prop := codec f = H264 \/ codec f = H265.

(** On an access unit of start-code-free NAL units the two conversions are
    inverse to each other: an Annex-B sample becomes the length-prefixed
    sample of the same NAL units, and that one becomes the Annex-B sample
    again, whether its format is declared (AVCC/HVCC) or detected. *)
Theorem access_unit_round_trip f nals :
  is_h26x f -> config_frame f = false ->
  nals <> [] -> Forall clean nals -> lp_sized nals ->
  video_sample_length_prefixed (with_data f PfAnnexB (annexb_enc nals)) = Ok (lp_enc nals) /\
  video_sample_length_prefixed (with_data f PfUnknown (annexb_enc nals)) = Ok (lp_enc nals) /\
  video_sample_annex_b (with_data f PfAvcc (lp_enc nals)) = Ok (annexb_enc nals) /\
  video_sample_annex_b (with_data f PfHvcc (lp_enc nals)) = Ok (annexb_enc nals).
Proof.
  intros Hc Hcfg Hne Hcl Hs.
  assert (annex_b_to_length_prefixed (annexb_enc nals) = Ok (lp_enc nals)) as Hab.
  { rewrite annex_b_to_length_prefixed_units; rewrite nal_units_enc, filter_nonempty_clean by done;
      [by destruct nals|done]. }
  pose proof (length_prefixed_to_annex_b_enc nals Hne Hs) as Hlp.
  unfold video_sample_length_prefixed, video_sample_annex_b, declared_or_detected_video_format.
  simpl. rewrite Hcfg, bool_decide_eq_true_2 by done. simpl. rewrite !Hab, !Hlp.
  destruct nals as [|n nals]; [done|]. by rewrite annexb_enc_cons in *.
Qed.

Lemma access_unit_round_trip_witness :
  let f := new_video 0 H264 0 0 0 [] true in
  video_sample_length_prefixed (with_data f PfAnnexB [0;0;0;1;0x67;0x42;0;0;0;1;0x65;7]%Z) =
    Ok [0;0;0;2;0x67;0x42;0;0;0;2;0x65;7]%Z /\
  video_sample_annex_b (with_data f PfAvcc [0;0;0;2;0x67;0x42;0;0;0;2;0x65;7]%Z) =
    Ok [0;0;0;1;0x67;0x42;0;0;0;1;0x65;7]%Z.
Proof.
  pose proof (access_unit_round_trip (new_video 0 H264 0 0 0 [] true) [[0x67; 0x42]; [0x65; 7]]%Z
    ltac:(by left) eq_refl ltac:(done)
    ltac:(apply (bool_decide_unpack _); vm_compute; exact I)
    ltac:(repeat constructor; done)) as (H1 & _ & H2 & _).
  exact (conj H1 H2).
Defined.

(** ** FLV message payloads *)

Lemma flv_ct_bytes ct :
  i24 (from_be [(ct .>> 16) .& 0xff; (ct .>> 8) .& 0xff; ct .& 0xff]) = i24 ct.
Proof. rewrite from_be_3. bits_arith. unfold i24. div_lia. Qed.

Lemma i24_clamp z : i24 (i32 (clamp z (-8388608) 8388607)) = clamp z (-8388608) 8388607.
Proof.
  unfold i24, i32, clamp. destruct (Z.ltb_spec z (-8388608)), (Z.ltb_spec 8388607 z); div_lia.
Qed.

Lemma i64_small z : (0 <= z < 2 ^ 63)%Z -> i64 z = z.
Proof. intros. unfold i64. rewrite Z.mod_small; lia. Qed.

Definition flv_hdr (b0 b1 : Z) : Prop :=
  ((b0 .& 0x0f = 7 \/ b0 .& 0x0f = 12) /\ b0 <> 0 /\ (b1 = 0 \/ b1 = 1))%Z.

(** A payload with the header [flv_payload] writes is recognised as FLV. *)
Lemma flv_video_detected f pf b0 b1 c0 c1 c2 body :
  pf = PfFlv \/ pf = PfUnknown -> flv_hdr b0 b1 ->
  declared_or_detected_video_format (with_data f pf (b0 :: b1 :: c0 :: c1 :: c2 :: body)) = Ok PfFlv.
Proof.
  intros Hpf (Hb0 & Hne & Hb1). unfold declared_or_detected_video_format. cbn [payload_format with_data data].
  destruct Hpf as [->| ->]; [done|]. rewrite bool_decide_eq_true_2 by done. cbn [negb].
  unfold starts_with_annex_b, SC3, SC4.
  rewrite !bool_decide_eq_false_2 by (simpl; congruence). simpl.
  assert ((b0 .& 15 =? 7)%Z || (b0 .& 15 =? 12)%Z = true) as -> by (destruct Hb0 as [->| ->]; done).
  simpl. by destruct Hb1 as [->| ->].
Qed.

Lemma slice_flv (b0 b1 c0 c1 c2 : Z) body :
  @slice Error _ (b0 :: b1 :: c0 :: c1 :: c2 :: body) 5 (length (b0 :: b1 :: c0 :: c1 :: c2 :: body)) = Ok body.
Proof.
  rewrite slice_ok by (simpl; lia). f_equal. apply firstn_all2. simpl. lia.
Qed.

Lemma flv_video_payload_shape f body :
  is_h26x f -> frame_type f = Video -> payload_format f <> PfFlv -> config_frame f = false ->
  (0 <= pts f < 2 ^ 63)%Z -> (0 <= dts f < 2 ^ 63)%Z ->
  video_sample_length_prefixed f = Ok body -> body <> [] ->
  exists b0 c0 c1 c2,
    bytes_ok [c0; c1; c2] /\ flv_payload f = Ok (b0 :: 1%Z :: c0 :: c1 :: c2 :: body) /\
    (b0 .>> 4 = if key_frame f then 1 else 2)%Z /\ (b0 .& 0x0f = if decide (codec f = H265) then 12 else 7)%Z /\
    i24 (from_be [c0; c1; c2]) = clamp (pts f - dts f) (-8388608) 8388607 /\
    forall pf, pf = PfFlv \/ pf = PfUnknown ->
      video_sample_length_prefixed (with_data f pf (b0 :: 1%Z :: c0 :: c1 :: c2 :: body)) = Ok body.
Proof.
  intros Hc Hft Hpf Hcfg Hp Hd Hs Hne.
  assert (exists cid b0, (cid = 7 \/ cid = 12)%Z /\
    cid = (if decide (codec f = H265) then 12 else 7)%Z /\
    b0 = (((if key_frame f || config_frame f then 1 else 2) .<< 4) .| cid)%Z /\
    flv_payload f = flv_video_payload f cid) as (cid & b0 & Hcid & Hcid' & Hb0 & ->).
  { unfold flv_payload. rewrite bool_decide_eq_false_2, Hft by (rewrite Hft; done).
    rewrite (bool_decide_eq_false_2 _ Hpf).
    destruct Hc as [-> | ->]; eexists _, _; split_and!; try done; by auto. }
  unfold flv_video_payload, flv_composition_time. rewrite Hcfg, Hs. cbn [mbind outcome_bind].
  rewrite !i64_small by done. unfold i64_checked.
  rewrite (proj2 (Z.leb_le _ _)), (proj2 (Z.ltb_lt _ _)) by lia. cbn [andb mbind outcome_bind].
  rewrite Hcfg in Hb0. rewrite <-Hb0. eexists _, _, _, _. split; [|split; [done|]].
  { unfold bytes_ok, is_u8. bits_arith. repeat constructor; div_lia. }
  rewrite orb_false_r in Hb0. split; [|split; [|split]].
  - subst b0. by destruct (key_frame f), Hcid as [->| ->].
  - rewrite <-Hcid'. subst b0. by destruct (key_frame f), Hcid as [->| ->].
  - by rewrite flv_ct_bytes, i24_clamp.
  - intros pf Hpf'. unfold video_sample_length_prefixed. rewrite flv_video_detected; [|done|].
    + cbn [config_frame codec with_data data]. rewrite Hcfg, bool_decide_eq_true_2 by done.
      cbn [negb mbind outcome_bind]. rewrite (proj2 (Nat.leb_gt _ _)).
      2: { destruct body; [done|]. unfold FLV_VIDEO_HEADER_LEN. simpl. lia. }
      cbn [idx lookup]. simpl. apply slice_flv.
    + subst b0. split_and!; [|by destruct (key_frame f), Hcid as [->| ->]|by right].
      destruct (key_frame f), Hcid as [->| ->]; by vm_compute; auto.
Qed.

(** [flv_payload] wraps a video sample so that the receiver recovers it:
    when the frame's length-prefixed sample is [body] (not empty), the FLV
    payload is a five-byte header and [body]; reading it back, with the
    format declared or only detected, gives [body], and the header's signed
    24-bit composition time is [pts - dts] clamped to that range. *)
Theorem flv_video_round_trip f body :
  is_h26x f -> frame_type f = Video -> payload_format f <> PfFlv -> config_frame f = false ->
  (0 <= pts f < 2 ^ 63)%Z -> (0 <= dts f < 2 ^ 63)%Z ->
  video_sample_length_prefixed f = Ok body -> body <> [] ->
  exists b0 c0 c1 c2,
    flv_payload f = Ok (b0 :: 1%Z :: c0 :: c1 :: c2 :: body) /\
    (b0 .>> 4 = if key_frame f then 1 else 2)%Z /\
    i24 (from_be [c0; c1; c2]) = clamp (pts f - dts f) (-8388608) 8388607 /\
    forall pf, pf = PfFlv \/ pf = PfUnknown ->
      video_sample_length_prefixed (with_data f pf (b0 :: 1%Z :: c0 :: c1 :: c2 :: body)) = Ok body.
Proof.
  intros Hc Hft Hpf Hcfg Hp Hd Hs Hne.
  destruct (flv_video_payload_shape f body) as (b0 & c0 & c1 & c2 & _ & H1 & H2 & _ & H3 & H4); try done.
  exists b0, c0, c1, c2. by split_and!.
Qed.

Lemma flv_video_round_trip_witness :
  let f := with_data (new_video 0 H264 40 3600 0 [] true) PfAvcc [0; 0; 0; 1; 0x65]%Z in
  exists b0 c0 c1 c2,
    flv_payload f = Ok (b0 :: 1 :: c0 :: c1 :: c2 :: [0; 0; 0; 1; 0x65])%Z /\
    i24 (from_be [c0; c1; c2]) = 3600%Z.
Proof.
  destruct (flv_video_round_trip
    (with_data (new_video 0 H264 40 3600 0 [] true) PfAvcc [0; 0; 0; 1; 0x65]%Z)
    [0; 0; 0; 1; 0x65]%Z ltac:(by left) eq_refl ltac:(done) eq_refl
    ltac:(simpl; lia) ltac:(simpl; lia) eq_refl ltac:(done)) as (b0 & c0 & c1 & c2 & H1 & _ & H2 & _).
  exists b0, c0, c1, c2. exact (conj H1 H2).
Defined.

(** ** Decoder configuration records *)

(** A parameter set with its two-byte length. *)
Definition u16_enc (nals : list bytes) : bytes :=
  concat ((fun n => to_be 2 (zlen n) ++ n) <$> nals).

Definition u16_sized (nals : list bytes) : Prop := Forall (fun n => is_u16 (zlen n)) nals.

(** AVCDecoderConfigurationRecord: version, profile, compatibility, level and
    length size, then the parameter sets. *)
Definition avcc_record (h : bytes) (sps pps : list bytes) : bytes :=
  h ++ [(0xe0 .| zlen sps)%Z] ++ u16_enc sps ++ [zlen pps] ++ u16_enc pps.

(** HEVCDecoderConfigurationRecord: 22 fixed bytes and the NAL arrays. *)
Definition hvcc_array (a : Z * list bytes) : bytes := a.1 :: to_be 2 (zlen a.2) ++ u16_enc a.2.

Definition hvcc_record (h : bytes) (arrays : list (Z * list bytes)) : bytes :=
  h ++ [zlen arrays] ++ concat (hvcc_array <$> arrays).

Definition hvcc_array_ok (a : Z * list bytes) : Prop :=
  is_u16 (zlen a.2) /\ u16_sized a.2.

(** The parameter sets (VPS, SPS, PPS: types 32 to 34) of the arrays. *)
Definition hvcc_parameter_sets (arrays : list (Z * list bytes)) : list bytes :=
  concat ((fun a => if ((32 <=? a.1 .& 0x3f) && (a.1 .& 0x3f <=? 34))%Z then a.2 else []) <$> arrays).

Lemma u16_enc_cons n nals : u16_enc (n :: nals) = to_be 2 (zlen n) ++ n ++ u16_enc nals.
Proof. unfold u16_enc. simpl. by rewrite <-?app_assoc. Qed.

Lemma annexb_enc_app l k : annexb_enc (l ++ k) = annexb_enc l ++ annexb_enc k.
Proof. unfold annexb_enc. by rewrite fmap_app, concat_app. Qed.

(** One length-prefixed parameter set read at [length pre]. *)
Lemma u16_nal_read pre n rest :
  is_u16 (zlen n) ->
  let data := pre ++ to_be 2 (zlen n) ++ n ++ rest in
  let pos := length pre in
  (length data <? pos + 2) = false /\
  (forall E A (k : Z -> Z -> outcome E A), exists b0 b1,
    (b0 ← idx data pos; b1 ← idx data (pos + 1); k b0 b1) = k b0 b1 /\
    Z.to_nat (from_be [b0; b1]) = length n) /\
  (length data <? pos + 2 + length n) = false /\
  @slice Error _ data (pos + 2) (pos + 2 + length n) = Ok n.
Proof.
  intros Hn data pos.
  assert (length data = pos + 2 + length n + length rest) as Hl.
  { unfold data. rewrite !length_app, length_to_be. lia. }
  split_and!; [apply Nat.ltb_ge; lia| |apply Nat.ltb_ge; lia|].
  - intros E A k. destruct (idx_be2 data pos) as (b0 & b1 & Htk & Hk); [lia|].
    exists b0, b1. split; [apply Hk|]. unfold data, pos in Htk.
    rewrite drop_app_length, take_app_length' in Htk by by rewrite length_to_be.
    rewrite <-Htk, from_be_to_be_small by apply Hn. unfold zlen. lia.
  - unfold data. rewrite app_assoc. apply slice_mid; rewrite ?length_app, length_to_be; lia.
Qed.

Lemma append_u16_nalus_enc pre nals rest out :
  u16_sized nals ->
  append_u16_nalus (pre ++ u16_enc nals ++ rest) (length nals) (length pre) out =
  Ok (length pre + length (u16_enc nals), out ++ annexb_enc nals).
Proof.
  intros Hs. revert pre out. induction Hs as [|n nals Hn _ IH]; intros pre out.
  { simpl. by rewrite Nat.add_0_r, app_nil_r. }
  rewrite u16_enc_cons, <-!app_assoc.
  destruct (u16_nal_read pre n (u16_enc nals ++ rest) Hn) as (H1 & H2 & H3 & H4).
  cbn [length append_u16_nalus]. rewrite H1.
  edestruct H2 as (b0 & b1 & -> & ->). rewrite H3, H4. cbn [mbind outcome_bind].
  specialize (IH (pre ++ to_be 2 (zlen n) ++ n) (out ++ SC4 ++ n)).
  rewrite !length_app, length_to_be, <-!app_assoc in IH.
  replace (length pre + 2 + length n) with (length pre + (2 + length n)) by lia.
  rewrite IH. rewrite annexb_enc_cons, !length_app, length_to_be. do 2 f_equal. lia.
Qed.

Lemma hevc_array_nalus_enc pre ty nals rest out :
  u16_sized nals ->
  hevc_array_nalus (pre ++ u16_enc nals ++ rest) ty (length nals) (length pre) out =
  Ok (length pre + length (u16_enc nals),
      out ++ annexb_enc (if ((32 <=? ty) && (ty <=? 34))%Z then nals else [])).
Proof.
  intros Hs. revert pre out. induction Hs as [|n nals Hn _ IH]; intros pre out.
  { simpl. rewrite Nat.add_0_r. by destruct (_ && _)%Z; rewrite app_nil_r. }
  rewrite u16_enc_cons, <-!app_assoc.
  destruct (u16_nal_read pre n (u16_enc nals ++ rest) Hn) as (H1 & H2 & H3 & H4).
  cbn [length hevc_array_nalus]. rewrite H1.
  edestruct H2 as (b0 & b1 & -> & ->). rewrite H3, H4.
  specialize (IH (pre ++ to_be 2 (zlen n) ++ n)).
  rewrite !length_app, length_to_be, <-!app_assoc in IH.
  replace (length pre + 2 + length n) with (length pre + (2 + length n)) by lia.
  destruct (_ && _)%Z; cbn [mbind outcome_bind]; rewrite IH;
    rewrite ?annexb_enc_cons, !length_app, length_to_be, <-?app_assoc; do 2 f_equal; lia.
Qed.

Lemma hevc_arrays_enc pre arrays out :
  Forall hvcc_array_ok arrays ->
  hevc_arrays (pre ++ concat (hvcc_array <$> arrays)) (length arrays) (length pre) out =
  Ok (length pre + length (concat (hvcc_array <$> arrays)),
      out ++ annexb_enc (hvcc_parameter_sets arrays)).
Proof.
  intros Hs. revert pre out. induction Hs as [|[ty nals] arrays [Hn Hu] _ IH]; intros pre out.
  { simpl. by rewrite Nat.add_0_r, app_nil_r. }
  cbn [fst snd] in *. rewrite fmap_cons. cbn [concat length hevc_arrays].
  set (rest := concat (hvcc_array <$> arrays)) in *.
  set (n0 := ((zlen nals / 256) mod 256)%Z). set (n1 := (zlen nals mod 256)%Z).
  assert (hvcc_array (ty, nals) = ty :: n0 :: n1 :: u16_enc nals) as ->
    by (unfold hvcc_array; by rewrite to_be_2).
  cbn [app]. rewrite (proj2 (Nat.ltb_ge _ _)) by (rewrite length_app; simpl; lia).
  rewrite !idx_app_r by lia.
  replace (length pre - length pre) with 0 by lia.
  replace (length pre + 1 - length pre) with 1 by lia.
  replace (length pre + 2 - length pre) with 2 by lia.
  rewrite !idx_S, !idx_0. cbn [mbind outcome_bind].
  assert (Z.to_nat (from_be [n0; n1]) = length nals) as ->.
  { unfold n0, n1. rewrite <-to_be_2, from_be_to_be_small by apply Hn. unfold zlen. lia. }
  pose proof (hevc_array_nalus_enc (pre ++ [ty; n0; n1]) (ty .& 63) nals rest out Hu) as Ha.
  rewrite length_app, <-!app_assoc in Ha. cbn [length app] in Ha.
  rewrite Ha. cbn [mbind outcome_bind]. specialize (IH (pre ++ [ty; n0; n1] ++ u16_enc nals)).
  rewrite !length_app, <-!app_assoc in IH. cbn [length app] in IH.
  replace (length pre + 3 + length (u16_enc nals))
    with (length pre + S (S (S (length (u16_enc nals))))) by lia.
  rewrite IH. unfold hvcc_parameter_sets. rewrite fmap_cons. cbn [concat fst snd].
  rewrite annexb_enc_app, <-!app_assoc. do 2 f_equal. cbn [length app].
  rewrite length_app. cbn [length]. lia.
Qed.

Lemma video_decoder_config_declared f pf d :
  config_frame f = true -> (pf = PfAvcc /\ codec f = H264) \/ (pf = PfHvcc /\ codec f = H265) ->
  video_decoder_config (with_data f pf d) = Ok d.
Proof.
  intros Hcfg Hpf. unfold video_decoder_config, declared_or_detected_video_format.
  cbn [codec config_frame payload_format data with_data].
  destruct Hpf as [[-> Hc]|[-> Hc]]; rewrite Hc, Hcfg; done.
Qed.

Lemma avcc_config_annex_b f h sps pps :
  config_frame f = true -> codec f = H264 -> length h = 5 -> sps <> [] ->
  (zlen sps < 32)%Z -> is_u8 (zlen pps) -> u16_sized sps -> u16_sized pps ->
  video_config_annex_b (with_data f PfAvcc (avcc_record h sps pps)) = Ok (annexb_enc (sps ++ pps)).
Proof.
  intros Hcfg Hc Hh Hne Hn Hp Hs Hps. unfold video_config_annex_b.
  rewrite video_decoder_config_declared by auto. cbn [codec with_data mbind outcome_bind]. rewrite Hc.
  assert (length (avcc_record h sps pps) = 7 + length (u16_enc sps) + length (u16_enc pps)) as Hl.
  { unfold avcc_record. rewrite !length_app. simpl. lia. }
  rewrite (proj2 (Nat.ltb_ge _ _)) by lia.
  assert (avcc_record h sps pps !! 5 = Some (0xe0 .| zlen sps)) as H5.
  { unfold avcc_record. rewrite lookup_app_r by lia. by rewrite Hh. }
  rewrite (idx_lookup _ _ _ H5). cbn [mbind outcome_bind].
  assert (Z.to_nat ((0xe0 .| zlen sps) .& 31) = length sps) as ->.
  { unfold zlen in *. rewrite (lor_add 0xe0 _ 5) by (done || lia). bits_arith. div_lia. }
  pose proof (append_u16_nalus_enc (h ++ [0xe0 .| zlen sps]) sps ([zlen pps] ++ u16_enc pps) [] Hs) as H1.
  pose proof (append_u16_nalus_enc (h ++ [0xe0 .| zlen sps] ++ u16_enc sps ++ [zlen pps]) pps []
    (annexb_enc sps) Hps) as H2.
  rewrite app_nil_r in H2. rewrite !length_app, <-!app_assoc, Hh in H1.
  rewrite !length_app, <-!app_assoc, Hh in H2. cbn [length] in H1, H2.
  change (5 + 1) with 6 in H1.
  fold (avcc_record h sps pps) in H1, H2. rewrite H1. cbn [mbind outcome_bind].
  assert (avcc_record h sps pps !! (6 + length (u16_enc sps)) = Some (zlen pps)) as H7.
  { unfold avcc_record. rewrite lookup_app_r, Hh by lia. rewrite lookup_app_r by (simpl; lia).
    rewrite lookup_app_r by (simpl; lia). cbn [length]. by replace (_ - _) with 0 by lia. }
  rewrite H7. assert (Z.to_nat (zlen pps) = length pps) as -> by (unfold zlen; lia).
  match type of H2 with append_u16_nalus _ _ ?q _ = _ =>
    replace (6 + length (u16_enc sps) + 1) with q by lia end.
  cbn [app]. rewrite H2. cbn [mbind outcome_bind]. rewrite <-annexb_enc_app.
  destruct sps as [|s sps]; [done|]. rewrite <-app_comm_cons, annexb_enc_cons. done.
Qed.

Lemma hvcc_config_annex_b f h arrays :
  config_frame f = true -> codec f = H265 -> length h = 22 -> is_u8 (zlen arrays) ->
  Forall hvcc_array_ok arrays ->
  video_config_annex_b (with_data f PfHvcc (hvcc_record h arrays)) =
  match hvcc_parameter_sets arrays with
  | [] => Err (Codec "decoder configuration has no parameter sets")
  | sets => Ok (annexb_enc sets)
  end.
Proof.
  intros Hcfg Hc Hh Hn Ha. unfold video_config_annex_b.
  rewrite video_decoder_config_declared by auto. cbn [codec with_data mbind outcome_bind]. rewrite Hc.
  rewrite (proj2 (Nat.ltb_ge _ _)) by (unfold hvcc_record; rewrite !length_app; simpl; lia).
  assert (hvcc_record h arrays !! 22 = Some (zlen arrays)) as H22.
  { unfold hvcc_record. rewrite lookup_app_r by lia. by rewrite Hh. }
  rewrite (idx_lookup _ _ _ H22). cbn [mbind outcome_bind].
  assert (Z.to_nat (zlen arrays) = length arrays) as -> by (unfold zlen; lia).
  pose proof (hevc_arrays_enc (h ++ [zlen arrays]) arrays [] Ha) as H1.
  rewrite length_app, <-app_assoc, Hh in H1. fold (hvcc_record h arrays) in H1.
  cbn [length] in H1. change (22 + 1) with 23 in H1. rewrite H1. cbn [mbind outcome_bind app].
  destruct (hvcc_parameter_sets arrays) as [|s sets]; [done|]. by rewrite annexb_enc_cons.
Qed.

(** [video_config_annex_b] recovers the parameter sets of a decoder
    configuration record: all SPS then all PPS of an
    AVCDecoderConfigurationRecord, and of an HEVCDecoderConfigurationRecord
    the VPS, SPS and PPS arrays, other arrays (SEI) being left out. *)
Theorem config_record_annex_b f h :
  config_frame f = true ->
  (forall sps pps, codec f = H264 -> length h = 5 -> sps <> [] -> (zlen sps < 32)%Z -> is_u8 (zlen pps) ->
     u16_sized sps -> u16_sized pps ->
     video_config_annex_b (with_data f PfAvcc (avcc_record h sps pps)) =
     Ok (annexb_enc (sps ++ pps))) /\
  (forall arrays, codec f = H265 -> length h = 22 -> is_u8 (zlen arrays) ->
     Forall hvcc_array_ok arrays ->
     video_config_annex_b (with_data f PfHvcc (hvcc_record h arrays)) =
     match hvcc_parameter_sets arrays with
     | [] => Err (Codec "decoder configuration has no parameter sets")
     | sets => Ok (annexb_enc sets)
     end).
Proof.
  intros Hcfg. split.
  - intros. by apply avcc_config_annex_b.
  - intros. by apply hvcc_config_annex_b.
Qed.

Lemma config_record_annex_b_witness :
  let f := set_config_frame (new_video 0 H264 0 0 0 [] true) true in
  video_config_annex_b (with_data f PfAvcc (avcc_record [1; 66; 0; 30; 255]%Z [[0x67; 1]]%Z [[0x68; 2]]%Z)) =
  Ok [0; 0; 0; 1; 0x67; 1; 0; 0; 0; 1; 0x68; 2]%Z.
Proof.
  exact (proj1 (config_record_annex_b (set_config_frame (new_video 0 H264 0 0 0 [] true) true)
    [1; 66; 0; 30; 255]%Z eq_refl) [[0x67; 1]]%Z [[0x68; 2]]%Z eq_refl eq_refl ltac:(done)
    ltac:(done) ltac:(done) ltac:(by repeat constructor) ltac:(by repeat constructor)).
Defined.

(** ** No conversion panics *)

Lemma is_adts_safe d : wp (is_adts d) (fun b => b = true -> 7 <= length d) (fun _ => True).
Proof. unfold is_adts. wp_auto; wp_side. Qed.

Lemma adts_header_len_safe d :
  wp (adts_header_len d) (fun n => 7 <= length d /\ n <= 9) (fun _ => True).
Proof.
  unfold adts_header_len. apply wp_bind. eapply wp_mono; [apply is_adts_safe| |done].
  intros [] Hb; cbn [negb]; wp_auto; try done; specialize (Hb eq_refl); [lia|].
  destruct (negb _); lia.
Qed.

Lemma strip_adts_header_safe d : safe (strip_adts_header d).
Proof.
  unfold strip_adts_header, safe. apply wp_bind.
  eapply wp_mono; [apply adts_header_len_safe|intros n [Hn _]|done]. wp_auto; wp_side.
Qed.

Lemma audio_specific_config_from_adts_safe d : safe (audio_specific_config_from_adts d).
Proof.
  unfold audio_specific_config_from_adts, safe. apply wp_bind.
  eapply wp_mono; [apply adts_header_len_safe|intros n [Hn _]|done]. wp_auto; wp_side.
Qed.

Lemma video_format_safe f : wp (declared_or_detected_video_format f) (fun _ => True) (fun _ => False).
Proof.
  unfold declared_or_detected_video_format, FLV_VIDEO_HEADER_LEN. wp_auto; wp_side.
Qed.

Lemma aac_format_safe f : wp (declared_or_detected_aac_format f) (fun _ => True) (fun _ => True).
Proof.
  unfold declared_or_detected_aac_format. wp_auto; try wp_side;
    (eapply wp_mono; [apply is_adts_safe| |done]); intros; wp_auto; wp_side.
Qed.

Lemma annex_b_to_length_prefixed_safe d : safe (annex_b_to_length_prefixed d).
Proof.
  unfold annex_b_to_length_prefixed, safe.
  destruct (annex_b_nalu_ranges_units d) as (ranges & -> & _ & Hin). cbn [mbind outcome_bind].
  assert (forall out, wp (foldl (append_length_prefixed d) (Ok out) ranges) (fun _ => True) (fun _ => True)) as Hf.
  { induction Hin as [|[i j] rs Hij _ IH]; intros out; [done|]. cbn [foldl fst snd] in *.
    unfold append_length_prefixed at 2. cbn [mbind outcome_bind fst snd]. unfold usub.
    rewrite (proj2 (Nat.leb_le i j)), slice_ok by lia. apply IH. }
  destruct ranges; [done|apply Hf].
Qed.

Lemma length_prefixed_to_annex_b_safe d : bytes_ok d -> safe (length_prefixed_to_annex_b d).
Proof.
  intros Hd. unfold length_prefixed_to_annex_b, safe. apply wp_bind.
  eapply wp_mono; [by apply length_prefixed_loop_inv|intros [pos out] _|done]. wp_auto; wp_side.
Qed.

Lemma append_u16_nalus_safe d n pos out : safe (append_u16_nalus d n pos out).
Proof.
  unfold safe. revert pos out. induction n as [|n IH]; intros pos out; [done|].
  cbn [append_u16_nalus]. wp_auto; wp_side.
Qed.

Lemma hevc_array_nalus_safe d ty n pos out : safe (hevc_array_nalus d ty n pos out).
Proof.
  unfold safe. revert pos out. induction n as [|n IH]; intros pos out; [done|].
  cbn [hevc_array_nalus]. wp_auto; try wp_side; apply IH.
Qed.

Lemma hevc_arrays_safe d n pos out : safe (hevc_arrays d n pos out).
Proof.
  unfold safe. revert pos out. induction n as [|n IH]; intros pos out; [done|].
  cbn [hevc_arrays]. wp_auto; try wp_side.
  eapply wp_mono; [apply hevc_array_nalus_safe|intros [p o] _; apply IH|done].
Qed.

Lemma video_decoder_config_safe f : safe (video_decoder_config f).
Proof.
  unfold video_decoder_config, safe, FLV_VIDEO_HEADER_LEN. wp_auto; try wp_side.
  eapply wp_mono; [apply video_format_safe|intros fmt _|done].
  wp_auto; try wp_side; destruct fmt; wp_auto; wp_side.
Qed.

Lemma video_sample_length_prefixed_safe f : safe (video_sample_length_prefixed f).
Proof.
  unfold video_sample_length_prefixed, safe, FLV_VIDEO_HEADER_LEN. wp_auto; try wp_side.
  eapply wp_mono; [apply video_format_safe|intros fmt _|done].
  destruct fmt; wp_auto; try wp_side. apply annex_b_to_length_prefixed_safe.
Qed.

Lemma aac_audio_specific_config_safe f : safe (aac_audio_specific_config f).
Proof.
  unfold aac_audio_specific_config, safe, FLV_AUDIO_HEADER_LEN. apply wp_bind.
  eapply wp_mono; [apply aac_format_safe|intros fmt _|done].
  wp_auto; try wp_side; destruct fmt; wp_auto; try wp_side; apply audio_specific_config_from_adts_safe.
Qed.

Lemma aac_raw_payload_safe f : safe (aac_raw_payload f).
Proof.
  unfold aac_raw_payload, safe, FLV_AUDIO_HEADER_LEN. wp_auto; [done|].
  eapply wp_mono; [apply aac_format_safe|intros fmt _|done].
  destruct fmt; wp_auto; try wp_side. apply strip_adts_header_safe.
Qed.

Lemma flv_payload_safe f :
  (0 <= pts f < 2 ^ 63)%Z -> (0 <= dts f < 2 ^ 63)%Z -> safe (flv_payload f).
Proof.
  intros Hp Hd.
  assert (forall c, safe (flv_video_payload f c)) as Hv.
  { intros c. unfold safe, flv_video_payload, flv_composition_time. apply wp_bind.
    eapply (wp_mono _ (fun _ => True) _ (fun _ => True));
      [destruct (config_frame f); [apply video_decoder_config_safe|apply video_sample_length_prefixed_safe]
      |intros body _|done].
    rewrite !i64_small by done. wp_auto; try done. apply wp_i64; [lia|]. by wp_auto. }
  unfold safe, flv_payload. wp_auto; [done|].
  destruct (frame_type f); [destruct (codec f); (apply Hv || done)| |done].
  unfold flv_audio_payload. destruct (codec f); try done. apply wp_bind.
  eapply (wp_mono _ (fun _ => True) _ (fun _ => True));
    [destruct (config_frame f); [apply aac_audio_specific_config_safe|apply aac_raw_payload_safe]
    |by intros|done].
Qed.

Lemma video_sample_annex_b_safe f : bytes_ok (data f) -> safe (video_sample_annex_b f).
Proof.
  intros Hok. pose proof (length_prefixed_to_annex_b_safe _ Hok) as Hlp.
  unfold video_sample_annex_b, video_sample_length_prefixed, safe. wp_auto; [done|].
  pose proof (video_format_safe f) as Hf.
  destruct (declared_or_detected_video_format f) as [fmt| | |]; try done. apply wp_ok.
  destruct fmt; try done. unfold FLV_VIDEO_HEADER_LEN. cbn [mbind outcome_bind].
  wp_auto; try wp_side. by apply length_prefixed_to_annex_b_safe, bytes_ok_take, bytes_ok_drop.
Qed.

Lemma video_config_annex_b_safe f : safe (video_config_annex_b f).
Proof.
  unfold video_config_annex_b, safe. apply wp_bind.
  eapply wp_mono; [apply video_decoder_config_safe|intros config _|done]. apply wp_bind.
  eapply (wp_mono _ (fun _ => True) _ (fun _ => True)); [|intros [|? ?] _; by wp_auto|done].
  destruct (codec f); wp_auto; try wp_side.
  - eapply wp_mono; [apply append_u16_nalus_safe|intros [pos out] _|done].
    destruct (config !! pos); wp_auto; [|done].
    eapply wp_mono; [apply append_u16_nalus_safe|by intros [? ?]|done].
  - eapply wp_mono; [apply hevc_arrays_safe|by intros [? ?]|done].
Qed.

(** No conversion panics, whatever bytes the frame carries: for every
    well-formed frame (timestamps below [2^63]) each of them returns a
    payload or an error. *)
Theorem payload_conversions_total f :
  frame_ok f -> (pts f < 2 ^ 63)%Z -> (dts f < 2 ^ 63)%Z ->
  safe (video_decoder_config f) /\ safe (video_config_annex_b f) /\
  safe (video_sample_length_prefixed f) /\ safe (video_sample_annex_b f) /\
  safe (aac_audio_specific_config f) /\ safe (aac_raw_payload f) /\ safe (flv_payload f).
Proof.
  intros (_ & _ & [? _] & [? _] & Hok) ??.
  split_and!; [apply video_decoder_config_safe|apply video_config_annex_b_safe
    |apply video_sample_length_prefixed_safe|by apply video_sample_annex_b_safe
    |apply aac_audio_specific_config_safe|apply aac_raw_payload_safe|by apply flv_payload_safe].
Qed.

Lemma payload_conversions_total_witness :
  let f := new_audio 1 AAC 20 20 20 [0xff; 0xf1]%Z in
  safe (aac_raw_payload f) /\ safe (flv_payload f).
Proof.
  destruct (payload_conversions_total (new_audio 1 AAC 20 20 20 [0xff; 0xf1]%Z)) as (_ & _ & _ & _ & _ & H1 & H2).
  - unfold frame_ok, is_u32, is_u64. simpl. split_and!; try lia. by repeat constructor.
  - simpl. lia.
  - simpl. lia.
  - exact (conj H1 H2).
Defined.
