(* ===== verification/PsDemux.v ===== *)
(** * PsDemux: the incremental MPEG program stream demuxer

    [crates/codec/src/ps.rs] up to [parse_pes_packet] ([extract_nalus_from_pes]
    is in [AnnexB]).  The demuxer's buffer is a [bytes]; [advance] panics
    beyond its end like [BytesMut::advance].  The loops carry fuel; the
    theorems show that the length of the buffer is enough. *)

From S2P Require Import Prelude Frame.

Inductive PsError : Type := Incomplete | InvalidStartCode | InvalidPesHeader.

#[global] Instance PsError_eq_dec : EqDecision PsError.
Proof. solve_decision. Defined.

Record PesPacket : Type := {
  pes_stream_id : Z;
  pes_data : bytes;
  pes_pts : option Z
}.

Record PsDemuxer : Type := {
  buf : bytes;
  stream_types : gmap Z Z;
  max_buf : nat
}.

(** [new()] with a given bound; [new] uses 4 MiB. *)
Definition demuxer_with (m : nat) : PsDemuxer :=
  {| buf := []; stream_types := ∅; max_buf := m |}.

Definition MAX_BUF : nat := Z.to_nat (4 * 1024 * 1024).

Definition new : PsDemuxer := demuxer_with MAX_BUF.

Definition set_buf (d : PsDemuxer) (b : bytes) : PsDemuxer :=
  {| buf := b; stream_types := stream_types d; max_buf := max_buf d |}.

Definition stream_type (d : PsDemuxer) (stream_id : Z) : option Z := stream_types d !! stream_id.

Definition pending (d : PsDemuxer) : nat := length (buf d).

(** [BytesMut::advance]. *)
Definition advance {E} (b : bytes) (n : nat) : outcome E bytes := slice b n (length b).

Definition push (d : PsDemuxer) (data : bytes) : outcome PsError PsDemuxer :=
  b ← (if max_buf d <? length (buf d) + length data then
         drop ← usub (length (buf d) + length data) (max_buf d);
         let drop := Nat.min drop (length (buf d)) in
         advance (buf d) drop
       else Ok (buf d));
  Ok (set_buf d (b ++ data)).

Definition is_ps_entity (id : Z) : bool := (0xB9 <=? id)%Z.

(** [data[i] == 0 && data[i+1] == 0 && data[i+2] == 1] *)
Definition prefix_at {E} (data : bytes) (i : nat) : outcome E bool :=
  b0 ← idx data i;
  andm (b0 =? 0)%Z (b1 ← idx data (i + 1);
  andm (b1 =? 0)%Z (b2 ← idx data (i + 2); Ok (b2 =? 1)%Z)).

Definition find_step {E} (data : bytes) (i : nat) : outcome E (nat + option nat) :=
  if i + 4 <=? length data then
    p ← prefix_at data i;
    if p : bool then
      b3 ← idx data (i + 3);
      Ok (if is_ps_entity b3 then inr (Some i) else inl (i + 4))
    else
      q ← andm (i + 5 <=? length data)
            (b0 ← idx data i;
             andm (b0 =? 0)%Z (b1 ← idx data (i + 1);
             andm (b1 =? 0)%Z (b2 ← idx data (i + 2);
             andm (b2 =? 0)%Z (b3 ← idx data (i + 3);
             andm (b3 =? 1)%Z (b4 ← idx data (i + 4); Ok (is_ps_entity b4))))));
      Ok (if q : bool then inr (Some i) else inl (i + 1))
  else Ok (inr None).

Definition find_start_code {E} (data : bytes) (from : nat) : outcome E (option nat) :=
  loop (S (length data)) (find_step data) from.

Definition leading_header_len {E} (data : bytes) : outcome E (option nat) :=
  if length data <? 4 then Ok None else
  p ← prefix_at data 0;
  if negb p then Ok None else
  d3 ← idx data 3;
  if (d3 =? 0xBA)%Z then
    if length data <? 14 then Ok None else
    d13 ← idx data 13;
    let stuff := Z.to_nat (d13 .& 0x07) in
    if length data <? 14 + stuff then Ok None else Ok (Some (14 + stuff))
  else if (d3 =? 0xBB)%Z || (d3 =? 0xBC)%Z then
    if length data <? 6 then Ok None else
    d4 ← idx data 4; d5 ← idx data 5;
    let len := Z.to_nat (from_be [d4; d5]) in
    if length data <? 6 + len then Ok None else Ok (Some (6 + len))
  else Ok None.

(** The loop over the elementary stream entries. *)
Definition psm_step {E} (data : bytes) (elementary_end : nat) (st : nat * list (Z * Z)) :
    outcome E (nat * list (Z * Z) + list (Z * Z)) :=
  let '(offset, streams) := st in
  if offset + 4 <=? elementary_end then
    stream_type ← idx data offset;
    stream_id ← idx data (offset + 1);
    l0 ← idx data (offset + 2); l1 ← idx data (offset + 3);
    let info_length := Z.to_nat (from_be [l0; l1] .& 0x0FFF) in
    Ok (inl (offset + (4 + info_length), streams ++ [(stream_id, stream_type)]))
  else Ok (inr streams).

Definition parse_program_stream_map {E} (data : bytes) : outcome E (list (Z * Z)) :=
  if (length data <? 16) || negb (bool_decide (take 4 data = [0; 0; 1; 0xBC]%Z)) then Ok [] else
  d4 ← idx data 4; d5 ← idx data 5;
  let map_length := Z.to_nat (from_be [d4; d5]) in
  let map_end := Nat.min (6 + map_length) (length data) in
  d8 ← idx data 8; d9 ← idx data 9;
  let program_info_length := Z.to_nat (from_be [d8; d9]) in
  let elementary_length_offset := 10 + program_info_length in
  if map_end <? elementary_length_offset + 2 then Ok [] else
  e0 ← idx data elementary_length_offset; e1 ← idx data (elementary_length_offset + 1);
  let elementary_length := Z.to_nat (from_be [e0; e1]) in
  let offset := elementary_length_offset + 2 in
  let elementary_end := Nat.min (offset + elementary_length) (map_end - 4) in
  loop (S (length data)) (psm_step data elementary_end) (offset, []).

(** The 33-bit timestamp of a PES header. *)
Definition pes_timestamp (b0 b1 b2 b3 b4 : Z) : Z :=
  ((b0 .& 0x0E) .<< 29) .| ((b1 .& 0xFF) .<< 22) .| ((b2 .& 0xFE) .<< 14) .|
  ((b3 .& 0xFF) .<< 7) .| ((b4 .& 0xFE) .>> 1).

Definition parse_pes_packet (data : bytes) : outcome PsError (option (PesPacket * nat)) :=
  if length data <? 9 then Ok None else
  stream_id ← idx data 3;
  d4 ← idx data 4; d5 ← idx data 5;
  let pes_packet_len := Z.to_nat (from_be [d4; d5]) in
  if negb (pes_packet_len =? 0) && (length data <? 6 + pes_packet_len) then Ok None else
  d6 ← idx data 6;
  if negb (d6 .& 0xc0 =? 0x80)%Z then Err InvalidPesHeader else
  d7 ← idx data 7;
  let pts_dts_flags := (d7 .>> 6) .& 0x03 in
  d8 ← idx data 8;
  let pes_hdr_data_len := Z.to_nat d8 in
  let pos := 9 in
  let hdr_end := pos + pes_hdr_data_len in
  if length data <? hdr_end then Ok None else
  pts ← (if (2 <=? pts_dts_flags)%Z && (pos + 5 <=? length data) then
           b0 ← idx data pos; b1 ← idx data (pos + 1); b2 ← idx data (pos + 2);
           b3 ← idx data (pos + 3); b4 ← idx data (pos + 4);
           Ok (Some (pes_timestamp b0 b1 b2 b3 b4))
         else Ok None);
  let pos := hdr_end in
  payload_end ←
    (if pes_packet_len =? 0 then
       sc ← find_start_code data pos;
       Ok (match sc with
           | Some sc => if pos <? sc then Some sc else None
           | None => None
           end)
     else
       let stop := 6 + pes_packet_len in
       Ok (if length data <? stop then None else Some stop));
  match payload_end with
  | None => Ok None
  | Some payload_end =>
      if payload_end <=? pos then
        Ok (Some ({| pes_stream_id := stream_id; pes_data := []; pes_pts := pts |}, payload_end))
      else
        payload ← slice data pos payload_end;
        Ok (Some ({| pes_stream_id := stream_id; pes_data := payload; pes_pts := pts |}, payload_end))
  end.

Definition parse_one_step (data : bytes) (pos : nat) :
    outcome PsError (nat + option (PesPacket * nat)) :=
  if length data <? pos + 4 then Ok (inr None) else
  p ← prefix_at data pos;
  if negb p then Err InvalidStartCode else
  sc ← idx data (pos + 3);
  if (sc =? 0xBA)%Z then
    if length data <? pos + 14 then Ok (inr None) else
    b ← idx data (pos + 13);
    let stuff_len := Z.to_nat (b .& 0x07) in
    Ok (inl (pos + (14 + stuff_len)))
  else if (sc =? 0xBB)%Z || (sc =? 0xBC)%Z then
    if length data <? pos + 6 then Ok (inr None) else
    d4 ← idx data (pos + 4); d5 ← idx data (pos + 5);
    let hdr_len := Z.to_nat (from_be [d4; d5]) in
    Ok (inl (pos + (6 + hdr_len)))
  else if (0xC0 <=? sc)%Z then
    tail ← slice data pos (length data);
    r ← parse_pes_packet tail;
    Ok (inr (match r with Some (pkt, consumed) => Some (pkt, pos + consumed) | None => None end))
  else
    let pos := pos + 4 in
    f ← find_start_code data pos;
    Ok (match f with Some sc => inl sc | None => inr None end).

Definition parse_one_pes (data : bytes) : outcome PsError (option (PesPacket * nat)) :=
  if length data <? 6 then Ok None else
  loop (S (length data)) (parse_one_step data) 0.

(** [while let Some(length) = leading_header_len(&self.buf)]. *)
Definition header_step (d : PsDemuxer) : outcome PsError (PsDemuxer + PsDemuxer) :=
  l ← leading_header_len (buf d);
  match l with
  | None => Ok (inr d)
  | Some n =>
      types ←
        (if bool_decide (buf d !! 3 = Some 0xBC%Z) then
           h ← slice (buf d) 0 n;
           m ← parse_program_stream_map h;
           Ok (foldl (fun t '(stream_id, stream_type) => <[stream_id := stream_type]> t)
                 (stream_types d) m)
         else Ok (stream_types d));
      b ← advance (buf d) n;
      Ok (inl {| buf := b; stream_types := types; max_buf := max_buf d |})
  end.

Definition skip_headers (d : PsDemuxer) : outcome PsError PsDemuxer :=
  loop (S (length (buf d))) header_step d.

(** The second header loop, which only counts. *)
Definition count_headers {E} (b : bytes) : outcome E nat :=
  loop (S (length b)) (fun pos =>
    tail ← slice b pos (length b);
    l ← leading_header_len tail;
    Ok (match l with Some n => inl (pos + n) | None => inr pos end)) 0.

(** One turn of the outer [loop]. *)
Definition next_step (d : PsDemuxer) :
    outcome PsError (PsDemuxer + (PsDemuxer * option PesPacket)) :=
  d ← skip_headers d;
  match parse_one_pes (buf d) with
  | Ok (Some (pes, consumed)) =>
      b ← advance (buf d) consumed;
      Ok (inr (set_buf d b, Some pes))
  | Ok None =>
      pos ← count_headers (buf d);
      if 0 <? pos then
        b ← advance (buf d) pos; Ok (inl (set_buf d b))
      else Ok (inr (d, None))
  | Err _ =>
      f ← find_start_code (buf d) 0;
      match f with
      | Some sc => b ← advance (buf d) (Nat.max sc 1); Ok (inl (set_buf d b))
      | None => Ok (inr (set_buf d [], None))
      end
  | Panic => Panic
  | NoFuel => NoFuel
  end.

Definition next_pes (d : PsDemuxer) : outcome PsError (PsDemuxer * option PesPacket) :=
  loop (S (length (buf d))) next_step d.

Example demux_pes_with_pts :
  next_pes (set_buf (demuxer_with 64) [0;0;1;0xE0;0;12;0x80;0x80;5;0x21;0;1;0;1;0x65;1;2;3]%Z) =
  Ok (demuxer_with 64, Some {| pes_stream_id := 0xE0; pes_data := [0x65; 1; 2; 3]; pes_pts := Some 0 |}%Z).
Proof. vm_compute. reflexivity. Qed.

(** ** Totality *)

Section total.
Context {E : Type}.

Lemma prefix_at_wp data i (Q : bool -> Prop) R :
  i + 3 <= length data -> (forall b, Q b) -> wp (@prefix_at E data i) Q R.
Proof. intros Hi HQ. unfold prefix_at. wp_auto; auto; lia. Qed.

Lemma find_start_code_wp data from :
  wp (@find_start_code E data from)
     (fun r => forall i, r = Some i -> from <= i /\ i + 4 <= length data) (fun _ => False).
Proof.
  unfold find_start_code.
  apply (wp_loop _ (fun i => from <= i) (fun i => length data - i)); [|lia..].
  intros i Hi. unfold find_step. destruct (Nat.leb_spec (i + 4) (length data)); [|by apply wp_ok].
  apply wp_bind, prefix_at_wp; [lia|]. intros [].
  - wp_auto; [lia|]. destruct (is_ps_entity _); [|lia]. intros ? [= <-]. lia.
  - wp_auto; wp_bounds; try lia; repeat case_match; simplify_eq; try lia; intros; simplify_eq; lia.
Qed.

Lemma leading_header_len_wp data :
  wp (@leading_header_len E data)
     (fun r => forall n, r = Some n -> 6 <= n <= length data /\ 4 <= length data) (fun _ => False).
Proof.
  unfold leading_header_len. wp_auto; try wp_side.
  apply prefix_at_wp; [wp_side|]. intros []; cbn [negb]; wp_auto; wp_side; simplify_eq; lia.
Qed.

Lemma parse_program_stream_map_wp data :
  wp (@parse_program_stream_map E data) (fun _ => True) (fun _ => False).
Proof.
  unfold parse_program_stream_map. wp_auto; try wp_side.
  apply (wp_loop _ (fun _ => True) (fun st => length data - st.1)); [|done|cbn [fst]; lia].
  intros [offset streams] _. unfold psm_step. wp_auto; wp_side; cbn [fst]; lia.
Qed.
End total.

Lemma parse_pes_packet_wp data :
  wp (parse_pes_packet data) (fun r => forall p n, r = Some (p, n) -> 6 <= n <= length data)
     (fun e => e = InvalidPesHeader).
Proof.
  unfold parse_pes_packet. wp_auto; try wp_side; try done.
  all: try (eapply wp_mono; [apply find_start_code_wp|intros [sc|] Hsc|done]).
  all: wp_auto; cbv beta iota; repeat case_match; wp_auto; try done; wp_bounds.
  all: try (destruct (Hsc _ eq_refl)).
  all: try (intros; simplify_eq).
  all: try lia.
Qed.

Lemma parse_one_pes_wp data :
  wp (parse_one_pes data) (fun r => forall p n, r = Some (p, n) -> 6 <= n <= length data)
     (fun _ => 6 <= length data).
Proof.
  unfold parse_one_pes. wp_auto; [done|]. wp_bounds.
  apply (wp_loop _ (fun _ => True) (fun pos => length data - pos)); [|done|lia].
  intros pos _. unfold parse_one_step. wp_auto; [done|]. wp_bounds.
  apply prefix_at_wp; [lia|]. intros []; cbn [negb]; wp_auto; try wp_side; try done.
  - eapply wp_mono; [apply parse_pes_packet_wp|intros [[p n]|] Hr|done].
    + apply wp_ok. intros ? ? [= <- <-]. specialize (Hr _ _ eq_refl).
      rewrite length_take, length_drop in Hr. lia.
    + by apply wp_ok.
  - eapply wp_mono; [apply find_start_code_wp|intros [sc|] Hr|done]; apply wp_ok; [|done].
    destruct (Hr _ eq_refl). lia.
Qed.

Lemma advance_ok {E} b n : n <= length b -> @advance E b n = Ok (drop n b).
Proof.
  intros. unfold advance. rewrite slice_ok by lia. f_equal. apply firstn_all2.
  rewrite length_drop. lia.
Qed.

(** [d'] is [d] with a prefix of the buffer consumed. *)
Definition consumed_from (d d' : PsDemuxer) : Prop :=
  max_buf d' = max_buf d /\ exists k, k <= length (buf d) /\ buf d' = drop k (buf d).

#[global] Instance consumed_from_preorder : PreOrder consumed_from.
Proof.
  split.
  - intros d. split; [done|]. exists 0. split; [lia|by rewrite drop_0].
  - intros d1 d2 d3 [Hm1 (k & Hk & Hb)] [Hm2 (l & Hl & Hb')]. split; [congruence|].
    exists (k + l). rewrite Hb, length_drop in Hl. split; [lia|]. by rewrite Hb', Hb, drop_drop.
Qed.

Lemma header_step_wp d :
  wp (header_step d)
     (fun o => match o with
               | inl d' => consumed_from d d' /\ length (buf d') < length (buf d)
               | inr d' => d' = d /\ @leading_header_len PsError (buf d) = Ok None
               end) (fun _ => False).
Proof.
  unfold header_step. pose proof (leading_header_len_wp (E := PsError) (buf d)) as Hl.
  destruct (leading_header_len (buf d)) as [[n|]| | |] eqn:He; try done.
  cbn [mbind outcome_bind]. destruct (Hl _ eq_refl) as [Hn H4].
  apply wp_bind. eapply (wp_mono _ (fun _ => True) _ (fun _ => False)); [|intros t _|done].
  - wp_auto; try done; try lia.
    eapply wp_mono; [apply parse_program_stream_map_wp|done|done].
  - rewrite advance_ok by lia. apply wp_ok. cbn [buf max_buf]. split.
    + split; [done|]. exists n. split; [lia|done].
    + rewrite length_drop. lia.
Qed.

Lemma skip_headers_wp d :
  wp (skip_headers d)
     (fun d' => consumed_from d d' /\ @leading_header_len PsError (buf d') = Ok None)
     (fun _ => False).
Proof.
  unfold skip_headers.
  apply (wp_loop _ (consumed_from d) (fun d' => length (buf d'))); [|done|lia].
  intros d' Hd. eapply wp_mono; [apply header_step_wp| |done]. intros [d''|d''].
  - intros [Hc Hlt]. split; [by etrans|done].
  - intros [-> Hn]. done.
Qed.

(** After the first header loop the second one never finds a header. *)
Lemma count_headers_none b :
  @leading_header_len PsError b = Ok None -> @count_headers PsError b = Ok 0.
Proof.
  intros Hn. unfold count_headers. cbn [loop]. rewrite slice_ok by lia.
  rewrite drop_0, Nat.sub_0_r, firstn_all. cbn [mbind outcome_bind]. by rewrite Hn.
Qed.

Lemma next_pes_wp d :
  wp (next_pes d)
     (fun r => consumed_from d r.1 /\
               match r.2 with
               | Some _ => length (buf r.1) < length (buf d)
               | None => buf r.1 = [] \/ parse_one_pes (buf r.1) = Ok None
               end) (fun _ => False).
Proof.
  unfold next_pes.
  apply (wp_loop _ (consumed_from d) (fun d' => length (buf d'))); [|done|lia].
  intros d0 Hd0. unfold next_step. apply wp_bind.
  eapply wp_mono; [apply skip_headers_wp|intros d1 [Hd1 Hnone]|done].
  assert (consumed_from d d1) as Hd by by etrans.
  assert (length (buf d1) <= length (buf d0)) as Hle.
  { destruct Hd1 as [_ (k & _ & ->)]. rewrite length_drop. lia. }
  assert (length (buf d0) <= length (buf d)) as Hle0.
  { destruct Hd0 as [_ (k & _ & ->)]. rewrite length_drop. lia. }
  assert (forall n, n <= length (buf d1) -> consumed_from d (set_buf d1 (drop n (buf d1)))) as Hadv.
  { intros n Hn. etrans; [exact Hd|]. split; [done|]. by exists n. }
  pose proof (parse_one_pes_wp (buf d1)) as Hp.
  destruct (parse_one_pes (buf d1)) as [[[p n]|]|e| |] eqn:Hparse; try done.
  - specialize (Hp _ _ eq_refl). rewrite advance_ok by lia. apply wp_ok. simpl.
    split; [apply Hadv; lia|]. rewrite length_drop. lia.
  - rewrite count_headers_none by done. apply wp_ok. cbn [fst snd]. split; [done|]. by right.
  - apply wp_bind. eapply wp_mono; [apply find_start_code_wp|intros [sc|] Hsc|done].
    + destruct (Hsc _ eq_refl). rewrite advance_ok by lia. apply wp_ok.
      split; [apply Hadv; lia|]. cbn [set_buf buf]. rewrite length_drop. simpl in Hp. lia.
    + apply wp_ok. cbn [fst snd]. split; [|by left].
      etrans; [exact Hd|]. split; [done|]. exists (length (buf d1)). split; [lia|]. by rewrite drop_all.
Qed.

Lemma push_wp d data :
  length (buf d) <= max_buf d ->
  wp (push d data)
     (fun d' => max_buf d' = max_buf d /\ length (buf d') <= Nat.max (max_buf d) (length data))
     (fun _ => False).
Proof.
  intros Hb. unfold push, usub. destruct (Nat.ltb_spec (max_buf d) (length (buf d) + length data)).
  - rewrite (proj2 (Nat.leb_le _ _)) by lia. cbn [mbind outcome_bind].
    rewrite advance_ok by lia. cbn [mbind outcome_bind]. apply wp_ok. split; [done|].
    cbn [set_buf buf]. rewrite length_app, length_drop. lia.
  - cbn [mbind outcome_bind]. apply wp_ok. split; [done|]. cbn [set_buf buf]. rewrite length_app. lia.
Qed.

(** The demuxer is total on arbitrary bytes: [push] and [next_pes] never
    panic and never loop forever; [push] keeps the buffer within [max_buf]
    (unless a single call brings more than that), [next_pes] only consumes a
    prefix of the buffer and strictly shrinks it whenever it returns a
    packet, so draining it ends. *)
Theorem ps_demuxer_total d data :
  (length (buf d) <= max_buf d ->
   exists d', push d data = Ok d' /\ max_buf d' = max_buf d /\
     length (buf d') <= Nat.max (max_buf d) (length data)) /\
  exists d' r, next_pes d = Ok (d', r) /\ consumed_from d d' /\
    (r <> None -> length (buf d') < length (buf d)).
Proof.
  split.
  - intros Hb. pose proof (push_wp d data Hb) as H. destruct (push d data); try done. eauto.
  - pose proof (next_pes_wp d) as H. destruct (next_pes d) as [[d' r]| | |]; try done.
    destruct H as [Hc H]. exists d', r. split_and!; [done..|]. by destruct r.
Qed.

Lemma ps_demuxer_total_witness :
  exists d', push (demuxer_with 4) [1; 2; 3]%Z = Ok d' /\ length (buf d') <= 4.
Proof.
  destruct (proj1 (ps_demuxer_total (demuxer_with 4) [1; 2; 3]%Z)) as (d' & H1 & _ & H2).
  - simpl. lia.
  - exists d'. split; [exact H1|exact H2].
Defined.

(** ** Incremental demuxing

    What the GB28181 receiver does with each RTP payload
    ([rtp_server.rs]: [ps_demuxer.push(payload); while let Some(pes) =
    ps_demuxer.next_pes()]). *)

Definition drain_step (st : PsDemuxer * list PesPacket) :
    outcome PsError (PsDemuxer * list PesPacket + PsDemuxer * list PesPacket) :=
  let '(d, acc) := st in
  '(d, r) ← next_pes d;
  Ok (match r with
      | Some pes => inl (d, acc ++ [pes])
      | None => inr (d, acc)
      end).

Definition drain (d : PsDemuxer) : outcome PsError (PsDemuxer * list PesPacket) :=
  loop (S (length (buf d))) drain_step (d, []).

Definition receive (d : PsDemuxer) (payload : bytes) : outcome PsError (PsDemuxer * list PesPacket) :=
  d ← push d payload; drain d.

Fixpoint receive_all (d : PsDemuxer) (payloads : list bytes) :
    outcome PsError (PsDemuxer * list PesPacket) :=
  match payloads with
  | [] => Ok (d, [])
  | p :: ps =>
      '(d, pkts) ← receive d p;
      '(d, pkts') ← receive_all d ps;
      Ok (d, pkts ++ pkts')
  end.

(** A buffer from which nothing can be extracted yet. *)
Definition stuck (b : bytes) : Prop :=
  @leading_header_len PsError b = Ok None /\ parse_one_pes b = Ok None.

(** The entities of a program stream: headers, with the stream types a
    program stream map declares, and PES packets. *)
Inductive entity : Type :=
| EHeader (h : bytes) (types : list (Z * Z))
| EPes (p : bytes) (pkt : PesPacket).

Definition ent_bytes (e : entity) : bytes := match e with EHeader h _ => h | EPes p _ => p end.
Definition ent_pkts (e : entity) : list PesPacket := match e with EHeader _ _ => [] | EPes _ pkt => [pkt] end.

Definition set_types (t : gmap Z Z) (types : list (Z * Z)) : gmap Z Z :=
  foldl (fun t '(stream_id, stream_type) => <[stream_id := stream_type]> t) t types.

Definition ent_types (t : gmap Z Z) (e : entity) : gmap Z Z :=
  match e with EHeader _ types => set_types t types | EPes _ _ => t end.

(** A well-formed entity is recognised as soon as it is complete, whatever
    follows it, and not earlier. *)
Definition ent_ok (e : entity) : Prop :=
  (forall q r, ent_bytes e = q ++ r -> r <> [] -> stuck q) /\
  match e with
  | EHeader h types =>
      (forall rest, @leading_header_len PsError (h ++ rest) = Ok (Some (length h))) /\
      (if bool_decide (h !! 3 = Some 0xBC%Z) then @parse_program_stream_map PsError h = Ok types
       else types = []) /\ 6 <= length h
  | EPes p pkt =>
      forall rest, @leading_header_len PsError (p ++ rest) = Ok None /\
        parse_one_pes (p ++ rest) = Ok (Some (pkt, length p))
  end.

Definition stream_bytes (es : list entity) : bytes := concat (ent_bytes <$> es).

Lemma next_pes_fuel fuel d :
  length (buf d) < fuel -> loop fuel next_step d = next_pes d.
Proof.
  intros Hf. pose proof (next_pes_wp d) as Hw. unfold next_pes in *.
  eapply loop_fuel_mono; [done| |lia]. by destruct (loop _ _ _).
Qed.

Lemma skip_headers_fuel fuel d :
  length (buf d) < fuel -> loop fuel header_step d = skip_headers d.
Proof.
  intros Hf. pose proof (skip_headers_wp d) as Hw. unfold skip_headers in *.
  eapply loop_fuel_mono; [done| |lia]. by destruct (loop _ _ _).
Qed.

Lemma next_pes_header d h types rest :
  ent_ok (EHeader h types) -> buf d = h ++ rest ->
  next_pes d = next_pes {| buf := rest; stream_types := set_types (stream_types d) types;
                           max_buf := max_buf d |}.
Proof.
  intros (_ & Hl & Ht & H6) Hb. set (d' := {| buf := rest |}).
  assert (length (buf d') < length (buf d)) as Hlt by (rewrite Hb, length_app; simpl; lia).
  assert (header_step d = Ok (inl d')) as Hs.
  { unfold header_step. rewrite Hb, Hl. cbn [mbind outcome_bind].
    assert ((h ++ rest) !! 3 = h !! 3) as -> by (apply lookup_app_l; lia).
    rewrite slice_ok, drop_0, Nat.sub_0_r by (rewrite ?length_app; lia).
    cbn [mbind outcome_bind]. rewrite take_app_length.
    rewrite advance_ok, drop_app_length by (rewrite length_app; lia).
    case_bool_decide; [by rewrite Ht|by subst types]. }
  assert (skip_headers d = skip_headers d') as Hsk.
  { unfold skip_headers at 1. rewrite (loop_unfold _ (length (buf d))), Hs.
    by apply skip_headers_fuel. }
  assert (next_step d = next_step d') as Hn by (unfold next_step; by rewrite Hsk).
  unfold next_pes at 1. rewrite (loop_unfold _ (length (buf d))), Hn.
  rewrite <-(next_pes_fuel (1 + length (buf d)) d') by lia. rewrite (loop_unfold _ (length (buf d)) d').
  done.
Qed.

Lemma skip_headers_none d :
  @leading_header_len PsError (buf d) = Ok None -> skip_headers d = Ok d.
Proof. intros Hn. unfold skip_headers. cbn [loop]. unfold header_step at 1. by rewrite Hn. Qed.

Lemma next_pes_packet d p pkt rest :
  ent_ok (EPes p pkt) -> buf d = p ++ rest -> next_pes d = Ok (set_buf d rest, Some pkt).
Proof.
  intros [_ Hp] Hb. destruct (Hp rest) as [Hl Hparse]. rewrite <-Hb in Hl, Hparse.
  unfold next_pes. cbn [loop]. unfold next_step at 1. rewrite skip_headers_none by done.
  cbn [mbind outcome_bind]. rewrite Hparse, Hb, advance_ok, drop_app_length by (rewrite length_app; lia).
  done.
Qed.

Lemma next_pes_stuck d : stuck (buf d) -> next_pes d = Ok (d, None).
Proof.
  intros [Hl Hparse]. unfold next_pes. cbn [loop]. unfold next_step at 1.
  rewrite skip_headers_none by done. cbn [mbind outcome_bind].
  by rewrite Hparse, count_headers_none by done.
Qed.

Lemma stuck_nil : stuck [].
Proof. done. Qed.

(** The bytes left in the buffer are an incomplete first entity. *)
Definition partial (b : bytes) (es : list entity) : Prop :=
  match es with
  | [] => b = []
  | e :: _ => exists r, r <> [] /\ ent_bytes e = b ++ r
  end.

Lemma partial_stuck b es : Forall ent_ok es -> partial b es -> stuck b.
Proof.
  intros Hok Hp. destruct es as [|e es]; [rewrite Hp; apply stuck_nil|].
  destruct Hp as (r & Hr & He). inv Hok as [|? ? [Hq _] _]. eauto.
Qed.

Lemma stream_bytes_app es es' : stream_bytes (es ++ es') = stream_bytes es ++ stream_bytes es'.
Proof. unfold stream_bytes. by rewrite fmap_app, concat_app. Qed.

Lemma push_fits d payload :
  length (buf d) + length payload <= max_buf d -> push d payload = Ok (set_buf d (buf d ++ payload)).
Proof. intros Hm. unfold push. by rewrite (proj2 (Nat.ltb_ge _ _)) by lia. Qed.

Lemma partial_exact b es : partial b es -> b = stream_bytes es -> es = [].
Proof.
  destruct es as [|e es]; [done|]. intros (r & Hr & He) Hb.
  apply (f_equal length) in Hb, He. unfold stream_bytes in Hb. simpl in Hb.
  rewrite length_app in Hb, He. destruct r; [done|]. simpl in He. lia.
Qed.

(** What a receiver does with the packets of a stream: [on] is told the stream
    types known when the packet comes, as the loops that drain the demuxer
    are. *)
Section walk.
Context {E A : Type} (on : gmap Z Z -> PesPacket -> A -> outcome E A).

Fixpoint walk (types : gmap Z Z) (es : list entity) (a : A) : outcome E A :=
  match es with
  | [] => Ok a
  | EHeader _ ts :: es => walk (set_types types ts) es a
  | EPes _ pkt :: es => a ← on types pkt a; walk types es a
  end.

Lemma walk_app types es es' a :
  walk types (es ++ es') a = (a ← walk types es a; walk (foldl ent_types types es) es' a).
Proof.
  revert types a. induction es as [|[h ts|p pkt] es IH]; intros types a; [done|apply IH|].
  cbn [app walk foldl ent_types]. destruct (on types pkt a) as [a1| | |]; [apply IH|done..].
Qed.

(** A loop that asks the demuxer for packets until there is none. *)
Definition drains (step : PsDemuxer * A -> outcome E (PsDemuxer * A + PsDemuxer * A)) : Prop :=
  (forall d a d', next_pes d = Ok (d', None) -> step (d, a) = Ok (inr (d', a))) /\
  (forall d a d' pes, next_pes d = Ok (d', Some pes) ->
     step (d, a) = (a' ← on (stream_types d') pes a; Ok (inl (d', a')))).

Lemma drains_same step d d' a : drains step -> next_pes d = next_pes d' -> step (d, a) = step (d', a).
Proof.
  intros [Hn Hs] He. pose proof (next_pes_wp d) as Hw. destruct (next_pes d) as [[d1 [pes|]]| | |] eqn:Hd; try done.
  - rewrite (Hs d a d1 pes), (Hs d' a d1 pes) by done. done.
  - rewrite (Hn d a d1), (Hn d' a d1) by done. done.
Qed.

Lemma walk_entities step fuel d a es future :
  drains step -> Forall ent_ok es -> buf d ++ future = stream_bytes es -> length (buf d) < fuel ->
  exists es1 es2 d',
    es = es1 ++ es2 /\ loop fuel step (d, a) = (a' ← walk (stream_types d) es1 a; Ok (d', a')) /\
    buf d = stream_bytes es1 ++ buf d' /\ partial (buf d') es2 /\
    stream_types d' = foldl ent_types (stream_types d) es1 /\ max_buf d' = max_buf d.
Proof.
  intros Hstep Hok. pose proof Hstep as [Hnone Hsome]. revert fuel d a. induction Hok as [|e es He Hok IH]; intros fuel d a Hb Hf.
  { apply app_eq_nil in Hb as [Hb0 _]. destruct fuel as [|fuel]; [lia|].
    exists [], [], d. split_and!; try done. cbn [loop].
    rewrite (Hnone d a d) by (apply next_pes_stuck; rewrite Hb0; apply stuck_nil). done. }
  change (stream_bytes (e :: es)) with (ent_bytes e ++ stream_bytes es) in Hb.
  destruct (decide (length (ent_bytes e) <= length (buf d))) as [Hle|Hgt].
  - assert (exists rest, buf d = ent_bytes e ++ rest) as [rest Hbe].
    { exists (drop (length (ent_bytes e)) (buf d)). clear IH.
      apply (f_equal (take (length (ent_bytes e)))) in Hb.
      rewrite take_app_le, take_app_length in Hb by done. rewrite <-Hb at 1. by rewrite take_drop. }
    rewrite Hbe, <-app_assoc in Hb. apply app_inv_head in Hb.
    assert (0 < length (ent_bytes e)) as Hpos.
    { destruct (ent_bytes e) as [|b l] eqn:Hnil; [|simpl; lia]. destruct He as [_ He].
      destruct e; simpl in *; subst; [destruct He as (_ & _ & He); simpl in He; lia|].
      by destruct (He []) as [_ [=]]. }
    rewrite Hbe, length_app in Hf. destruct fuel as [|fuel]; [lia|].
    destruct e as [h types|p pkt]; cbn [ent_bytes] in *.
    + set (d1 := {| buf := rest; stream_types := set_types (stream_types d) types; max_buf := max_buf d |}).
      destruct (IH (S fuel) d1 a) as (es1 & es2 & d' & -> & Hd & Hb' & Hp & Ht & Hm); [done|cbn [buf d1]; lia|].
      exists (EHeader h types :: es1), es2, d'. split_and!; [done| |..|done|done|done].
      * etrans; [|exact Hd]. cbn [loop]. by rewrite (drains_same step d d1 a Hstep (next_pes_header d h types rest He Hbe)).
      * change (stream_bytes (EHeader h types :: es1)) with (h ++ stream_bytes es1). by rewrite Hbe, <-app_assoc, <-Hb'.
    + set (d1 := set_buf d rest). cbn [loop]. rewrite (Hsome d a d1 pkt) by (by apply (next_pes_packet d p)).
      change (stream_types d1) with (stream_types d).
      set (a1 := match on (stream_types d) pkt a with Ok a1 => a1 | _ => a end).
      destruct (IH fuel d1 a1) as (es1 & es2 & d' & -> & Hd & Hb' & Hp & Ht & Hm); [done|cbn [buf d1 set_buf]; lia|].
      exists (EPes p pkt :: es1), es2, d'. split_and!; [done| |..|done|done|done].
      * cbn [walk]. subst a1. destruct (on (stream_types d) pkt a); [exact Hd|done..].
      * change (stream_bytes (EPes p pkt :: es1)) with (p ++ stream_bytes es1). by rewrite Hbe, <-app_assoc, <-Hb'.
  - exists [], (e :: es), d. cbn [partial].
    assert (exists r, r <> [] /\ ent_bytes e = buf d ++ r) as Hpart.
    { exists (drop (length (buf d)) (ent_bytes e)). split.
      - intros Hd%(f_equal length). rewrite length_drop in Hd. simpl in Hd. lia.
      - apply (f_equal (take (length (buf d)))) in Hb.
        rewrite take_app_length, take_app_le in Hb by lia. rewrite Hb at 1. by rewrite take_drop. }
    split_and!; try done. destruct fuel as [|fuel]; [lia|]. cbn [loop].
    rewrite (Hnone d a d); [done|]. apply next_pes_stuck. eapply (partial_stuck _ (e :: es)); [by constructor|done].
Qed.

End walk.

Lemma walk_agree {E A} (on on' : gmap Z Z -> PesPacket -> A -> outcome E A) (Q : PesPacket -> Prop) types es a :
  (forall types pkt a, Q pkt -> on' types pkt a = on types pkt a) -> Forall Q (concat (ent_pkts <$> es)) ->
  walk on' types es a = walk on types es a.
Proof.
  intros Hon. revert types a. induction es as [|[h ts|p pkt] es IH]; intros types a HQ; [done|by apply IH|].
  cbn [fmap list_fmap ent_pkts concat app] in HQ. apply Forall_cons in HQ as [Hp HQ]. cbn [walk]. rewrite Hon by done.
  destruct (on types pkt a); [by apply IH|done..].
Qed.

Section feed.
Context {E A : Type} (on : gmap Z Z -> PesPacket -> A -> outcome E A).

(** A receiver of the payloads that carry a stream, with what else comes with
    each ([I]); what it does with packets other than those in [Q] may depend on
    that. *)
Context {I : Type} (payload_of : I -> bytes) (Q : PesPacket -> Prop).
Context (take_in : PsDemuxer -> I -> A -> outcome E (PsDemuxer * A)).

Definition takes_in : Prop :=
  forall i, exists on' step,
    (forall types pkt a, Q pkt -> on' types pkt a = on types pkt a) /\ drains on' step /\
    forall d d1 a, push d (payload_of i) = Ok d1 -> take_in d i a = loop (S (length (buf d1))) step (d1, a).

Fixpoint feed (d : PsDemuxer) (a : A) (items : list I) : outcome E (PsDemuxer * A) :=
  match items with
  | [] => Ok (d, a)
  | i :: items => '(d, a) ← take_in d i a; feed d a items
  end.

Lemma feed_entities m L d a es items future :
  takes_in -> Forall ent_ok es -> Forall (fun e => length (ent_bytes e) <= L) es ->
  Forall Q (concat (ent_pkts <$> es)) ->
  Forall (fun i => length (payload_of i) + L <= m) items -> max_buf d = m -> partial (buf d) es ->
  buf d ++ concat (payload_of <$> items) ++ future = stream_bytes es ->
  exists es1 es2 d',
    es = es1 ++ es2 /\ feed d a items = (a' ← walk on (stream_types d) es1 a; Ok (d', a')) /\
    buf d ++ concat (payload_of <$> items) = stream_bytes es1 ++ buf d' /\ partial (buf d') es2 /\
    stream_types d' = foldl ent_types (stream_types d) es1 /\ max_buf d' = m.
Proof.
  intros Htake Hok HL HQ Hm. revert d a es Hok HL HQ. induction Hm as [|i items Hp Hm IH]; intros d a es Hok HL HQ Hd Hpart Hb.
  { exists [], es, d. rewrite app_nil_r. split_and!; done. }
  cbn [feed fmap list_fmap concat]. destruct (Htake i) as (on' & step & Hon & Hstep & Hin). set (p := payload_of i) in *.
  change (list_fmap _ _ payload_of items) with (payload_of <$> items).
  assert (length (buf d) <= L) as Hbl.
  { destruct es as [|e es]; [rewrite Hpart; simpl; lia|].
    destruct Hpart as (r & _ & He%(f_equal length)). rewrite length_app in He.
    inv HL. lia. }
  rewrite (Hin d _ a (push_fits d p ltac:(lia))). cbn [fmap list_fmap concat] in Hb. change (list_fmap _ _ payload_of items) with (payload_of <$> items) in Hb. fold p in Hb.
  set (d0 := set_buf d (buf d ++ p)).
  destruct (walk_entities on' step (S (length (buf d0))) d0 a es (concat (payload_of <$> items) ++ future)) as
    (es1 & es2 & d1 & -> & Hdr & Hb1 & Hp1 & Ht1 & Hm1); [done|done| |lia|].
  { simpl. rewrite <-Hb, <-!app_assoc. done. }
  rewrite fmap_app, concat_app in HQ. apply Forall_app in HQ as [HQ1 HQ2]. rewrite (walk_agree on on' Q) in Hdr by done.
  rewrite Hdr. change (stream_types d0) with (stream_types d) in *.
  apply Forall_app in Hok as [Hok1 Hok2]. apply Forall_app in HL as [HL1 HL2].
  change (buf d0) with (buf d ++ p) in Hb1.
  set (a1 := match walk on (stream_types d) es1 a with Ok a1 => a1 | _ => a end).
  destruct (IH d1 a1 es2) as (es3 & es4 & d' & -> & Hr & Hb' & Hp' & Ht' & Hm');
    [done|done|done|by rewrite Hm1|done| |].
  { rewrite stream_bytes_app, <-!app_assoc, (app_assoc (buf d)), Hb1, <-app_assoc in Hb.
    by apply app_inv_head in Hb. }
  exists (es1 ++ es3), es4, d'. rewrite walk_app, stream_bytes_app, foldl_app, <-Ht1.
  split_and!; [by rewrite app_assoc| | |done|done|done].
  - subst a1. destruct (walk on (stream_types d) es1 a); [exact Hr|done..].
  - rewrite (app_assoc (buf d)), Hb1, <-!app_assoc. by rewrite Hb'.
Qed.

Lemma feed_stream m L es a items :
  takes_in -> Forall ent_ok es -> Forall (fun e => length (ent_bytes e) <= L) es ->
  Forall Q (concat (ent_pkts <$> es)) ->
  Forall (fun i => length (payload_of i) + L <= m) items -> concat (payload_of <$> items) = stream_bytes es ->
  feed (demuxer_with m) a items =
  (a' ← walk on ∅ es a; Ok ({| buf := []; stream_types := foldl ent_types ∅ es; max_buf := m |}, a')).
Proof.
  intros Htake Hok HL HQ Hm Hb.
  assert (partial (buf (demuxer_with m)) es) as Hpart.
  { destruct es as [|e es]; [done|]. exists (ent_bytes e). split; [|done]. intros Hnil.
    inv Hok as [|? ? [_ He] _]. destruct e; simpl in *; subst.
    - destruct He as (_ & _ & He). simpl in He. lia.
    - by destruct (He []) as [_ [=]]. }
  destruct (feed_entities m L (demuxer_with m) a es items []) as
    (es1 & es2 & d' & -> & -> & Hb' & Hp & Ht & Hmax); try done.
  { by rewrite app_nil_r. }
  cbn [demuxer_with buf app] in Hb'. rewrite Hb, stream_bytes_app in Hb'. apply app_inv_head in Hb'. symmetry in Hb'.
  pose proof (partial_exact _ _ Hp Hb') as ->. rewrite app_nil_r.
  destruct d'; simpl in *; subst. done.
Qed.
End feed.

(** Collecting the packets. *)
Definition collect (types : gmap Z Z) (pkt : PesPacket) (acc : list PesPacket) : outcome PsError (list PesPacket) := Ok (acc ++ [pkt]).

Lemma walk_collect types es acc : walk collect types es acc = Ok (acc ++ concat (ent_pkts <$> es)).
Proof.
  revert types acc. induction es as [|[h ts|p pkt] es IH]; intros types acc; cbn; [by rewrite app_nil_r|apply IH|].
  change (list_fmap _ _ ent_pkts es) with (ent_pkts <$> es). by rewrite IH, <-app_assoc.
Qed.

Lemma drains_collect : drains collect drain_step.
Proof. split; intros; unfold drain_step; by rewrite H. Qed.

Lemma receive_collects acc d payload :
  (d1 ← push d payload; loop (S (length (buf d1))) drain_step (d1, acc)) = ('(d, pkts) ← receive d payload; Ok (d, acc ++ pkts)).
Proof.
  unfold receive. destruct (push d payload) as [d1| | |]; try done. cbn [mbind outcome_bind]. unfold drain.
  rewrite <-(app_nil_r acc) at 1.
  rewrite (loop_map drain_step drain_step (fun st => (st.1, acc ++ st.2)) (fun st => (st.1, acc ++ st.2)) _ (d1, [])).
  - by destruct (loop _ drain_step (d1, [])) as [[]| | |].
  - intros [d0 acc0]. unfold drain_step. cbn [fst snd]. destruct (next_pes d0) as [[d2 [pes|]]| | |]; cbn; by rewrite ?app_assoc.
Qed.

Definition take_collect (d : PsDemuxer) (p : bytes) (acc : list PesPacket) : outcome PsError (PsDemuxer * list PesPacket) :=
  '(d, pkts) ← receive d p; Ok (d, acc ++ pkts).

Lemma feed_collect d acc payloads :
  feed take_collect d acc payloads = ('(d, pkts) ← receive_all d payloads; Ok (d, acc ++ pkts)).
Proof.
  revert d acc. induction payloads as [|p ps IH]; intros d acc; cbn [feed receive_all]; [cbn; by rewrite app_nil_r|].
  change (take_collect d p acc) with ('(d, pkts) ← receive d p; Ok (d, acc ++ pkts)). destruct (receive d p) as [[d1 pkts]| | |]; try done. cbn [mbind outcome_bind]. rewrite IH.
  destruct (receive_all d1 ps) as [[d2 pkts']| | |]; try done. cbn [mbind outcome_bind]. by rewrite app_assoc.
Qed.

Lemma takes_collect : takes_in collect id (fun _ => True) take_collect.
Proof.
  intros p. exists collect, drain_step. split; [done|]. split; [apply drains_collect|]. intros d0 d1 a Hp.
  unfold take_collect, id in *. by rewrite <-receive_collects, Hp.
Qed.

(** A program stream cut into arbitrary payloads is demuxed as if it had come
    in one piece. *)
Lemma receive_all_stream L es payloads m :
  Forall ent_ok es -> Forall (fun e => length (ent_bytes e) <= L) es ->
  Forall (fun p => length p + L <= m) payloads ->
  concat payloads = stream_bytes es ->
  receive_all (demuxer_with m) payloads =
  Ok ({| buf := []; stream_types := foldl ent_types ∅ es; max_buf := m |}, concat (ent_pkts <$> es)).
Proof.
  intros Hok HL Hm Hb.
  pose proof (feed_stream collect id (fun _ => True) take_collect m L es [] payloads takes_collect Hok HL
    (Forall_true _ _ (fun _ => I)) Hm) as Hf.
  rewrite feed_collect, walk_collect, list_fmap_id in Hf. specialize (Hf Hb).
  destruct (receive_all (demuxer_with m) payloads) as [[d2 pkts]| | |]; by simplify_eq/=.
Qed.
