(* ===== verification/PsMux.v ===== *)
(** * PsMux: the MPEG program stream muxer

    [crates/core/src/ps.rs]: [BitWriter], the pack, system and map headers,
    PES packets with 33-bit timestamps, the ADTS framing of AAC, and
    [PsMuxer::mux_frame].  The theorems compose it with the demuxer. *)

From S2P Require Import Prelude Frame AnnexB Payload PsDemux.

Definition VIDEO_STREAM_ID : Z := 0xe0.
Definition AUDIO_STREAM_ID : Z := 0xc0.
Definition MAX_PES_PAYLOAD : nat := Z.to_nat 65512.
Definition PTS_MASK : Z := (1 .<< 33) - 1.

Record PsTrack : Type := { ps_stream_type : Z; ps_stream_id : Z }.

#[global] Instance PsTrack_eq_dec : EqDecision PsTrack.
Proof. solve_decision. Defined.

(** [ps.rs]'s own [AacConfig]. *)
Record PsAacConfig : Type := { profile : Z; sample_rate_index : Z; channel_config : Z }.

#[global] Instance PsAacConfig_eq_dec : EqDecision PsAacConfig.
Proof. solve_decision. Defined.

Record PsMuxer : Type := {
  ps_tracks : list PsTrack;
  aac_config : option PsAacConfig;
  map_pending : bool
}.

(** ** BitWriter *)

Record BitWriter : Type := { bw_bytes : bytes; bw_current : Z; bw_used : nat }.

Definition bw_new : BitWriter := {| bw_bytes := []; bw_current := 0; bw_used := 0 |}.

(** One turn of the loop of [BitWriter::push]. *)
Definition bw_push_bit (value : Z) (w : BitWriter) (shift : nat) : BitWriter :=
  let current := u8 (bw_current w .<< 1) .| (u8 (value .>> Z.of_nat shift) .& 1) in
  let used := bw_used w + 1 in
  if used =? 8 then {| bw_bytes := bw_bytes w ++ [current]; bw_current := 0; bw_used := 0 |}
  else {| bw_bytes := bw_bytes w; bw_current := current; bw_used := used |}.

(** [for shift in (0..bit_count).rev()] *)
Definition bw_push (w : BitWriter) (value : Z) (bit_count : nat) : BitWriter :=
  foldl (bw_push_bit value) w (reverse (seq 0 bit_count)).

Definition bw_finish (w : BitWriter) : bytes :=
  if negb (bw_used w =? 0)
  then bw_bytes w ++ [u8 (bw_current w .<< Z.of_nat (8 - bw_used w))]
  else bw_bytes w.

(** ** Headers *)

Definition timestamp_90k (milliseconds : Z) : Z := u64 (milliseconds * 90) .& PTS_MASK.

Definition pack_header (scr : Z) : bytes :=
  let bits := bw_new in
  let bits := bw_push bits 1 2 in
  let bits := bw_push bits (scr .>> 30) 3 in
  let bits := bw_push bits 1 1 in
  let bits := bw_push bits (scr .>> 15) 15 in
  let bits := bw_push bits 1 1 in
  let bits := bw_push bits scr 15 in
  let bits := bw_push bits 1 1 in
  let bits := bw_push bits 0 9 in
  let bits := bw_push bits 1 1 in
  let bits := bw_push bits 50000 22 in
  let bits := bw_push bits 1 1 in
  let bits := bw_push bits 1 1 in
  let bits := bw_push bits 0x1f 5 in
  let bits := bw_push bits 0 3 in
  [0; 0; 1; 0xba]%Z ++ bw_finish bits.

Definition count_tracks (p : PsTrack -> bool) (tracks : list PsTrack) (bound : nat) : Z :=
  Z.of_nat (Nat.min (length (List.filter p tracks)) bound).

Definition system_header_track (bits : BitWriter) (track : PsTrack) : BitWriter :=
  let bits := bw_push bits (ps_stream_id track) 8 in
  let bits := bw_push bits 3 2 in
  let video := (ps_stream_id track .& 0xf0 =? 0xe0)%Z in
  let bits := bw_push bits (Z.b2z video) 1 in
  bw_push bits (if video then 512 else 32) 13.

Definition system_header (tracks : list PsTrack) : bytes :=
  let bits := bw_new in
  let bits := bw_push bits 1 1 in
  let bits := bw_push bits 50000 22 in
  let bits := bw_push bits 1 1 in
  let bits := bw_push bits (count_tracks (fun t => (ps_stream_id t .& 0xe0 =? 0xc0)%Z) tracks 0x3f) 6 in
  let bits := bw_push bits 0 1 in
  let bits := bw_push bits 0 1 in
  let bits := bw_push bits 0 1 in
  let bits := bw_push bits 0 1 in
  let bits := bw_push bits 1 1 in
  let bits := bw_push bits (count_tracks (fun t => (ps_stream_id t .& 0xf0 =? 0xe0)%Z) tracks 0x1f) 5 in
  let bits := bw_push bits 0 1 in
  let bits := bw_push bits 0x7f 7 in
  let bits := foldl system_header_track bits tracks in
  let body := bw_finish bits in
  [0; 0; 1; 0xbb]%Z ++ to_be 2 (u16 (zlen body)) ++ body.

Definition crc_bit (crc : Z) : Z :=
  if negb (crc .& 0x80000000 =? 0)%Z then u32 (crc .<< 1) .^ 0x04c11db7 else u32 (crc .<< 1).

Definition crc_byte (crc byte : Z) : Z := Nat.iter 8 crc_bit (crc .^ u32 (byte .<< 24)).

Definition mpeg2_crc32 (data : bytes) : Z := foldl crc_byte 0xffffffff%Z data.

Definition elementary_map (tracks : list PsTrack) : bytes :=
  concat ((fun t => [ps_stream_type t; ps_stream_id t] ++ to_be 2 0) <$> tracks).

Definition program_stream_map (tracks : list PsTrack) : bytes :=
  let elementary_map := elementary_map tracks in
  let map_length := (10 + zlen elementary_map)%Z in
  let output := [0; 0; 1; 0xbc]%Z ++ to_be 2 (u16 map_length) ++ [0xe0; 0xff]%Z ++ to_be 2 0 ++
                to_be 2 (u16 (zlen elementary_map)) ++ elementary_map in
  let crc := mpeg2_crc32 output in
  output ++ to_be 4 crc.

Definition encode_timestamp (prefix value : Z) : bytes :=
  let value := value .& PTS_MASK in
  [u8 (prefix .<< 4) .| u8 ((u8 (value .>> 30) .& 0x07) .<< 1) .| 1;
   u8 (value .>> 22);
   u8 ((u8 (value .>> 15) .& 0x7f) .<< 1) .| 1;
   u8 (value .>> 7);
   u8 ((u8 value .& 0x7f) .<< 1) .| 1].

Definition pes_packet (stream_id pts dts : Z) (payload : bytes) : bytes :=
  let include_dts := negb (pts =? dts)%Z in
  let header_data_length := if include_dts then 10%Z else 5%Z in
  let packet_length := (3 + header_data_length + zlen payload)%Z in
  [0; 0; 1; stream_id]%Z ++ to_be 2 (u16 packet_length) ++
  [0x80; if include_dts then 0xc0 else 0x80; u8 header_data_length]%Z ++
  encode_timestamp (if include_dts then 0x3 else 0x2) pts ++
  (if include_dts then encode_timestamp 0x1 dts else []) ++ payload.

(** ** AAC *)

Definition parse_aac_config (data : bytes) : result (option PsAacConfig) :=
  if length data <? 2 then Ok None else
  d0 ← idx data 0; d1 ← idx data 1;
  let object_type := d0 .>> 3 in
  let sample_rate_index := u8 ((d0 .& 0x07) .<< 1) .| (d1 .>> 7) in
  let channel_config := (d1 .>> 3) .& 0x0f in
  Ok (if (0 <? object_type)%Z && (sample_rate_index <? 13)%Z
      then Some {| profile := Z.min (Z.max 0 (object_type - 1)) 3;
                   sample_rate_index := sample_rate_index;
                   channel_config := channel_config |}
      else None).

Definition PS_SAMPLE_RATES : list Z :=
  [96000; 88200; 64000; 48000; 44100; 32000; 24000; 22050; 16000; 12000; 11025; 8000; 7350]%Z.

Definition aac_config_from_track (sample_rate channels : Z) : option PsAacConfig :=
  '(i, _) ← list_find (fun rate => rate = sample_rate) PS_SAMPLE_RATES;
  Some {| profile := 1; sample_rate_index := Z.of_nat i; channel_config := Z.min channels 7 |}.

Definition adts_header (config : PsAacConfig) (payload_length : nat) : result bytes :=
  let frame_length := (Z.of_nat payload_length + 7)%Z in
  if (0x1fff <? frame_length)%Z
  then Err (Anyhow "AAC access unit is too large for an ADTS frame") else
  let channels := channel_config config in
  Ok [0xff; 0xf1;
      u8 (profile config .<< 6) .| u8 (sample_rate_index config .<< 2) .| (channels .>> 2);
      u8 ((channels .& 0x03) .<< 6) .| (u8 (frame_length .>> 11) .& 0x03);
      u8 (frame_length .>> 3);
      u8 ((frame_length .& 0x07) .<< 5) .| 0x1f;
      0xfc]%Z.

Definition raw_audio_payload (frame : MediaFrame) : result bytes :=
  let flv := bool_decide (payload_format frame = PfFlv) ||
    (bool_decide (payload_format frame = PfUnknown) &&
     match data frame with
     | header :: _ => let h := header .>> 4 in (h =? 2)%Z || (h =? 7)%Z || (h =? 8)%Z
     | [] => false
     end) in
  if flv && negb (length (data frame) =? 0)
  then slice (data frame) 1 (length (data frame))
  else Ok (data frame).

(** ** PsMuxer *)

Definition ps_track (c : CodecId) : result PsTrack :=
  match c with
  | H264 => Ok {| ps_stream_type := 0x1b; ps_stream_id := VIDEO_STREAM_ID |}
  | H265 => Ok {| ps_stream_type := 0x24; ps_stream_id := VIDEO_STREAM_ID |}
  | AAC => Ok {| ps_stream_type := 0x0f; ps_stream_id := AUDIO_STREAM_ID |}
  | G711A => Ok {| ps_stream_type := 0x90; ps_stream_id := AUDIO_STREAM_ID |}
  | G711U => Ok {| ps_stream_type := 0x91; ps_stream_id := AUDIO_STREAM_ID |}
  | MP2A => Ok {| ps_stream_type := 0x04; ps_stream_id := AUDIO_STREAM_ID |}
  | Mp3 => Ok {| ps_stream_type := 0x03; ps_stream_id := AUDIO_STREAM_ID |}
  | _ => Err (Anyhow "PS muxing codec is not supported")
  end.

Definition add_codec (m : PsMuxer) (c : CodecId) : PsMuxer :=
  match ps_track c with
  | Ok track =>
      if bool_decide (track ∈ ps_tracks m) then m
      else {| ps_tracks := ps_tracks m ++ [track]; aac_config := aac_config m;
              map_pending := map_pending m |}
  | _ => m
  end.

Definition muxer_new_track (m : PsMuxer) (track : TrackInfo) : PsMuxer :=
  match track with
  | TrackVideo video => add_codec m (video_codec video)
  | TrackAudio audio =>
      let m := add_codec m (audio_codec audio) in
      if bool_decide (audio_codec audio = AAC)
      then {| ps_tracks := ps_tracks m;
              aac_config := aac_config_from_track (audio_sample_rate audio) (audio_channels audio);
              map_pending := map_pending m |}
      else m
  end.

Definition muxer_new (tracks : list TrackInfo) : PsMuxer :=
  foldl muxer_new_track {| ps_tracks := []; aac_config := None; map_pending := true |} tracks.

Definition elementary_payload (m : PsMuxer) (frame : MediaFrame) : result bytes :=
  match codec frame with
  | H264 | H265 =>
      if config_frame frame then video_config_annex_b frame else video_sample_annex_b frame
  | AAC =>
      raw ← aac_raw_payload frame;
      match aac_config m with
      | None => Err (Anyhow "AAC configuration is required for PS output")
      | Some config =>
          output ← adts_header config (length raw);
          Ok (output ++ raw)
      end
  | G711A | G711U | Mp3 | MP2A => raw_audio_payload frame
  | _ => Err (Anyhow "PS muxing codec is not supported")
  end.

(** [mux_frame]: the muxer after the call, and the call's result.  An error
    leaves through [?], after the fields assigned so far. *)
Definition mux_frame (m : PsMuxer) (frame : MediaFrame) : PsMuxer * result bytes :=
  if bool_decide (frame_type frame = Metadata) then (m, Ok []) else
  match ps_track (codec frame) with
  | Ok track =>
      let m :=
        if bool_decide (track ∈ ps_tracks m) then m
        else {| ps_tracks := ps_tracks m ++ [track]; aac_config := aac_config m;
                map_pending := true |} in
      if bool_decide (codec frame = AAC) && config_frame frame then
        match (asc ← aac_audio_specific_config frame; parse_aac_config asc) with
        | Ok config =>
            ({| ps_tracks := ps_tracks m; aac_config := config; map_pending := map_pending m |}, Ok [])
        | Err e => (m, Err e)
        | Panic => (m, Panic)
        | NoFuel => (m, NoFuel)
        end
      else
        match elementary_payload m frame with
        | Ok [] => (m, Ok [])
        | Ok payload =>
            let scr := timestamp_90k (dts frame) in
            let with_map := map_pending m || (bool_decide (frame_type frame = Video) && key_frame frame) in
            let output := pack_header scr ++
              (if with_map then system_header (ps_tracks m) ++ program_stream_map (ps_tracks m) else []) in
            let m := if with_map
                     then {| ps_tracks := ps_tracks m; aac_config := aac_config m; map_pending := false |}
                     else m in
            let pts := timestamp_90k (pts frame) in
            let dts := timestamp_90k (dts frame) in
            (m, Ok (output ++ concat (pes_packet (ps_stream_id track) pts dts <$> chunks MAX_PES_PAYLOAD payload)))
        | Err e => (m, Err e)
        | Panic => (m, Panic)
        | NoFuel => (m, NoFuel)
        end
  | Err e => (m, Err e)
  | Panic => (m, Panic)
  | NoFuel => (m, NoFuel)
  end.

(** ** Timestamps *)

Lemma encode_timestamp_bytes prefix value :
  (0 <= prefix < 16)%Z ->
  exists b0 b1 b2 b3 b4, encode_timestamp prefix value = [b0; b1; b2; b3; b4] /\
    bytes_ok [b0; b1; b2; b3; b4] /\ pes_timestamp b0 b1 b2 b3 b4 = (value mod 2 ^ 33)%Z.
Proof.
  intros Hp. unfold encode_timestamp. change PTS_MASK with (2 ^ 33 - 1)%Z. rewrite land_ones_mod by done.
  set (v := (value mod 2 ^ 33)%Z). assert (0 <= v < 2 ^ 33)%Z as Hv by (apply Z.mod_pos_bound; lia).
  clearbody v. unfold u8. change (2 ^ 8)%Z with 256%Z. change (2 ^ 33)%Z with 8589934592%Z in Hv.
  bits_arith. lor_add_at 4%Z. do 3 lor_add_at 1%Z. eexists _, _, _, _, _. split; [reflexivity|]. split.
  - unfold bytes_ok, is_u8. repeat constructor; div_lia.
  - unfold pes_timestamp. bits_arith. lor_add_at 30%Z. lor_add_at 22%Z. lor_add_at 15%Z. lor_add_at 7%Z.
    div_lia.
Qed.

(** ** BitWriter *)

(** The number of bits written so far. *)
Definition bw_bits (w : BitWriter) : nat := 8 * length (bw_bytes w) + bw_used w.

Definition bw_inv (w : BitWriter) : Prop := bw_used w < 8 /\ (bw_used w = 0 -> bw_current w = 0%Z).

Lemma bw_push_bit_inv v w s :
  bw_inv w -> bw_inv (bw_push_bit v w s) /\ bw_bits (bw_push_bit v w s) = bw_bits w + 1.
Proof.
  intros [Hu _]. unfold bw_push_bit, bw_inv, bw_bits.
  destruct (Nat.eqb_spec (bw_used w + 1) 8); cbn [bw_used bw_current bw_bytes].
  - rewrite length_app. simpl. split; [split; [lia|done]|lia].
  - split; [split; lia|lia].
Qed.

Lemma bw_push_inv w v n :
  bw_inv w -> bw_inv (bw_push w v n) /\ bw_bits (bw_push w v n) = bw_bits w + n.
Proof.
  unfold bw_push. assert (length (reverse (seq 0 n)) = n) as Hl by (rewrite length_reverse, length_seq; done).
  remember (reverse (seq 0 n)) as l eqn:E. clear E. subst n. revert w.
  induction l as [|s l IH]; intros w Hw; [split; [done|simpl; lia]|].
  cbn [foldl length]. destruct (bw_push_bit_inv v w s Hw) as [Hi Hb].
  destruct (IH _ Hi) as [Hi' Hb']. split; [done|]. rewrite Hb', Hb. lia.
Qed.

(** Chains of pushes. *)
Ltac bw_chain :=
  repeat match goal with
  | |- context [bw_push ?w ?v ?n] =>
      lazymatch w with context [bw_push] => fail | _ => idtac end;
      let w' := fresh "w" in let Hi := fresh "Hi" in let Hb := fresh "Hb" in
      let Hw := fresh in
      assert (bw_inv w) as Hw by (assumption || (split; cbn; [lia|done]));
      destruct (bw_push_inv w v n Hw) as [Hi Hb]; clear Hw;
      generalize dependent (bw_push w v n); intros w' Hi Hb
  end.

Lemma bw_aligned w k : bw_inv w -> bw_bits w = 8 * k -> bw_used w = 0 /\ bw_current w = 0%Z /\ length (bw_bytes w) = k.
Proof. intros [Hu Hc] Hb. unfold bw_bits in Hb. assert (bw_used w = 0) by lia. split_and!; auto; lia. Qed.

Lemma pack_header_shape scr :
  exists l, pack_header scr = [0; 0; 1; 0xba]%Z ++ l ++ [0xf8]%Z /\ length l = 9.
Proof.
  unfold pack_header. cbv zeta.
  set (w9 := bw_push (bw_push (bw_push _ 50000 22) 1 1) 1 1).
  assert (bw_inv w9 /\ bw_bits w9 = 72) as [Hi Hb].
  { unfold w9. bw_chain. split; [done|]. change (bw_bits bw_new) with 0 in *. lia. }
  clearbody w9. destruct (bw_aligned w9 9 Hi Hb) as (Hu & Hc & Hl). exists (bw_bytes w9).
  split; [|done]. destruct w9 as [l c u]. cbn [bw_used bw_current bw_bytes] in *. subst. done.
Qed.

Lemma system_header_track_inv w t :
  bw_inv w -> bw_inv (system_header_track w t) /\ bw_bits (system_header_track w t) = bw_bits w + 24.
Proof. intros Hw. unfold system_header_track. cbv zeta. bw_chain. split; [done|lia]. Qed.

Lemma system_header_shape tracks :
  exists body, length body = 6 + 3 * length tracks /\
    system_header tracks = [0; 0; 1; 0xbb]%Z ++ to_be 2 (u16 (zlen body)) ++ body.
Proof.
  unfold system_header. cbv zeta. set (w := foldl _ _ tracks). exists (bw_finish w). split; [|done].
  assert (bw_inv w /\ bw_bits w = 8 * (6 + 3 * length tracks)) as [Hi Hb].
  { unfold w. clear w.
    assert (forall w, bw_inv w -> bw_inv (foldl system_header_track w tracks) /\
      bw_bits (foldl system_header_track w tracks) = bw_bits w + 24 * length tracks) as Hf.
    { induction tracks as [|t ts IH]; intros w Hw; [split; [done|simpl; lia]|].
      cbn [foldl length]. destruct (system_header_track_inv w t Hw) as [Hi Hb].
      destruct (IH _ Hi) as [Hi' Hb']. split; [done|]. lia. }
    match goal with |- context [foldl _ ?w0 tracks] =>
      assert (bw_inv w0 /\ bw_bits w0 = 48) as [H1 H2] end.
    { clear. bw_chain. split; [done|]. change (bw_bits bw_new) with 0 in *. lia. }
    destruct (Hf _ H1) as [Hi Hb]. split; [done|]. lia. }
  destruct (bw_aligned _ _ Hi Hb) as (Hu & _ & Hl). unfold bw_finish. by rewrite Hu.
Qed.

(** ** Recognition by the demuxer *)

(** The elements of a prefix of a known list. *)
Ltac cut_prefix q :=
  repeat match goal with
  | H : _ :: _ = q ++ _ |- _ => destruct q as [|? q]; simplify_list_eq; try done
  | H : [] = q ++ ?r, Hr : ?r <> [] |- _ => by destruct q, r
  end.

Lemma stuck_short q : length q < 4 -> stuck q.
Proof.
  intros Hq. split.
  - unfold leading_header_len. by rewrite (proj2 (Nat.ltb_lt _ _)).
  - unfold parse_one_pes. by rewrite (proj2 (Nat.ltb_lt _ _)) by lia.
Qed.

Lemma pack_header_ent scr : ent_ok (EHeader (pack_header scr) []).
Proof.
  destruct (pack_header_shape scr) as (l & -> & Hl).
  do 10 (destruct l as [|? l]; try discriminate). clear Hl.
  split.
  - cbn [ent_bytes app]. intros q r Hq Hr.
    cut_prefix q; try (apply stuck_short; simpl; lia); split; reflexivity.
  - cbn [app]. split_and!; [done|done|simpl; lia].
Qed.

(** System headers and program stream maps: a two-byte length and a body. *)
Lemma sized_header_ent id body types :
  (id = 0xBB \/ id = 0xBC)%Z -> is_u16 (zlen body) ->
  (if bool_decide (id = 0xBC%Z)
   then @parse_program_stream_map PsError ([0; 0; 1; id]%Z ++ to_be 2 (zlen body) ++ body) = Ok types
   else types = []) ->
  ent_ok (EHeader ([0; 0; 1; id]%Z ++ to_be 2 (zlen body) ++ body) types).
Proof.
  intros Hid Hlen Ht.
  assert (length ([0; 0; 1; id]%Z ++ to_be 2 (zlen body) ++ body) = 6 + length body) as HL.
  { rewrite !length_app, length_to_be. done. }
  assert (forall n0 n1, to_be 2 (zlen body) = [n0; n1] -> Z.to_nat (from_be [n0; n1]) = length body) as Hn.
  { intros n0 n1 <-. rewrite from_be_to_be_small by apply Hlen. unfold zlen. lia. }
  assert (((id =? 0xBA) = false)%Z /\ ((id =? 0xBB) || (id =? 0xBC) = true)%Z) as [Hid1 Hid2]
    by (destruct Hid as [->| ->]; done).
  rewrite to_be_2 in *. specialize (Hn _ _ eq_refl).
  set (n0 := ((zlen body / 256) mod 256)%Z) in *. set (n1 := (zlen body mod 256)%Z) in *.
  clearbody n0 n1. cbn [app] in *. split.
  - cbn [ent_bytes]. intros q r Hq Hr.
    destruct (decide (length q < 4)); [by apply stuck_short|].
    assert (length q < 6 + length body) as Hql.
    { apply (f_equal length) in Hq. rewrite length_app, HL in Hq. destruct r; [done|]. simpl in Hq. lia. }
    do 4 (destruct q as [|? q]; [simpl in *; lia|]). simplify_list_eq. cbn [length] in Hql.
    destruct q as [|? [|? q]]; simplify_list_eq.
    + split; [|done]. unfold leading_header_len. run_reader. rewrite Hid1, Hid2. by run_reader.
    + split; [|done]. unfold leading_header_len. run_reader. rewrite Hid1, Hid2. by run_reader.
    + split.
      * unfold leading_header_len. run_reader. rewrite Hid1, Hid2. run_reader. rewrite ?Hn. by run_reader.
      * unfold parse_one_pes. run_reader. unfold parse_one_step at 1. run_reader. rewrite Hid1, Hid2.
        run_reader. rewrite ?Hn. cbn [length loop]. unfold parse_one_step at 1. by run_reader.
  - split_and!.
    + intros rest. unfold leading_header_len. run_reader. rewrite Hid1, Hid2. run_reader. rewrite ?Hn. run_reader.
      by cbn [length].
    + change ((0%Z :: 0%Z :: 1%Z :: id :: n0 :: n1 :: body) !! 3) with (Some id).
      destruct Hid as [->| ->]; exact Ht.
    + simpl. lia.
Qed.

(** A PES packet, byte by byte. *)
Lemma pes_packet_shape sid pts dts payload :
  length payload <= MAX_PES_PAYLOAD ->
  exists l0 l1 fl b0 b1 b2 b3 b4 x,
    pes_packet sid pts dts payload =
      0%Z :: 0%Z :: 1%Z :: sid :: l0 :: l1 :: 0x80%Z :: fl :: Z.of_nat (5 + length x) ::
      b0 :: b1 :: b2 :: b3 :: b4 :: x ++ payload /\
    Z.to_nat (from_be [l0; l1]) = 8 + length x + length payload /\
    (2 <=? (fl .>> 6) .& 0x03)%Z = true /\ pes_timestamp b0 b1 b2 b3 b4 = (pts mod 2 ^ 33)%Z.
Proof.
  intros Hl. unfold MAX_PES_PAYLOAD in Hl. unfold pes_packet. cbv zeta.
  destruct (encode_timestamp_bytes (if negb (pts =? dts)%Z then 3 else 2) pts) as
    (b0 & b1 & b2 & b3 & b4 & -> & _ & Hts); [destruct (negb _); lia|].
  set (len := (3 + _ + zlen payload)%Z).
  assert (is_u16 len) as Hlen by (unfold is_u16, len, zlen; destruct (negb _); lia).
  assert (u16 len = len) as -> by (unfold u16; by apply Z.mod_small).
  destruct (to_be 2 len) as [|l0 [|l1 [|? ?]]] eqn:Hbe; try done.
  assert (from_be [l0; l1] = len) as Hfb by (rewrite <-Hbe; by apply from_be_to_be_small).
  exists l0, l1, (if negb (pts =? dts) then 0xc0 else 0x80)%Z, b0, b1, b2, b3, b4,
    (if negb (pts =? dts)%Z then encode_timestamp 0x1 dts else []).
  split_and!; [|rewrite Hfb; unfold len, zlen; destruct (negb _); simpl length; lia
    |by destruct (negb _)|done].
  cbn [app]. by destruct (negb _).
Qed.

Lemma slice_full {E A} (l : list A) : @slice E A l 0 (length l) = Ok l.
Proof. rewrite slice_ok by lia. by rewrite drop_0, Nat.sub_0_r, firstn_all. Qed.

(** A buffer that starts with a PES packet goes straight to the PES parser. *)
Lemma parse_one_pes_direct sid t :
  (0xC0 <= sid)%Z -> 2 <= length t ->
  parse_one_pes (0%Z :: 0%Z :: 1%Z :: sid :: t) = parse_pes_packet (0%Z :: 0%Z :: 1%Z :: sid :: t).
Proof.
  intros Hsid Ht. unfold parse_one_pes. run_reader. unfold parse_one_step at 1.
  set (data := 0%Z :: _). assert (length data = 4 + length t) as Hl by done.
  rewrite (proj2 (Nat.ltb_ge _ _)) by lia. cbn [prefix_at idx lookup]. cbn -[parse_pes_packet slice length Z.leb].
  rewrite !(proj2 (Z.eqb_neq _ _)), (proj2 (Z.leb_le _ _)) by lia. cbn [orb]. rewrite slice_full.
  cbn [mbind outcome_bind]. by destruct (parse_pes_packet data) as [[[? ?]|]| | |].
Qed.

Lemma pes_packet_ent sid pts dts payload :
  (0xC0 <= sid < 256)%Z -> length payload <= MAX_PES_PAYLOAD ->
  ent_ok (EPes (pes_packet sid pts dts payload)
    {| pes_stream_id := sid; pes_data := payload; pes_pts := Some (pts mod 2 ^ 33)%Z |}).
Proof.
  intros Hsid Hl.
  destruct (pes_packet_shape sid pts dts payload Hl) as
    (l0 & l1 & fl & b0 & b1 & b2 & b3 & b4 & x & -> & Hn & Hfl & Hts).
  assert (forall t, @leading_header_len PsError (0%Z :: 0%Z :: 1%Z :: sid :: t) = Ok None) as Hlead.
  { intros t. unfold leading_header_len. run_reader. by rewrite !(proj2 (Z.eqb_neq _ _)) by lia. }
  split.
  - cbn [ent_bytes]. intros q r Hq Hr.
    destruct (decide (length q < 4)); [by apply stuck_short|].
    assert (length q < 14 + length x + length payload) as Hql.
    { apply (f_equal length) in Hq. cbn [length] in Hq. rewrite !length_app in Hq.
      destruct r; [done|]. simpl in Hq. lia. }
    do 4 (destruct q as [|? q]; [simpl in *; lia|]). injection Hq as <- <- <- <- Hq.
    split; [apply Hlead|].
    destruct (decide (length q < 2)); [unfold parse_one_pes; by run_reader|].
    rewrite parse_one_pes_direct by lia. unfold parse_pes_packet.
    destruct (decide (length q < 5)); [by run_reader|].
    do 5 (destruct q as [|? q]; [simpl in *; lia|]). injection Hq as <- <- <- <- <- Hq. cbn [length] in *.
    run_reader. rewrite ?Hn. by run_reader.
  - intros rest. cbn [app]. split; [apply Hlead|]. rewrite parse_one_pes_direct by (simpl; lia).
    unfold parse_pes_packet. run_reader. rewrite ?Hn. rewrite <-app_assoc. run_reader.
    rewrite Hfl. change (128 .& 192 =? 128)%Z with true. cbn [negb andb mbind outcome_bind].
    rewrite Nat2Z.id, Hts. destruct payload as [|y payload].
    + nat_cmp. do 3 f_equal. rewrite app_nil_r. cbn [length]. lia.
    + nat_cmp. set (h := 0%Z :: 0%Z :: 1%Z :: sid :: l0 :: l1 :: 0x80%Z :: fl ::
        Z.of_nat (S (S (S (S (S (length x)))))) :: b0 :: b1 :: b2 :: b3 :: b4 :: x).
      change (0%Z :: _ :: _ :: _ :: _ :: _ :: _ :: _ :: _ :: _ :: _ :: _ :: _ :: _ :: x ++ _ ++ rest)
        with (h ++ (y :: payload) ++ rest).
      rewrite slice_mid by (unfold h; cbn [length]; lia). cbn [mbind outcome_bind].
      do 3 f_equal. unfold h. cbn [app length]. len_lia.
Qed.

Definition track_types (tracks : list PsTrack) : list (Z * Z) :=
  (fun t => (ps_stream_id t, ps_stream_type t)) <$> tracks.

Lemma elementary_map_cons t ts :
  elementary_map (t :: ts) = ps_stream_type t :: ps_stream_id t :: 0%Z :: 0%Z :: elementary_map ts.
Proof. done. Qed.

Lemma length_elementary_map tracks : length (elementary_map tracks) = 4 * length tracks.
Proof. induction tracks; [done|]. rewrite elementary_map_cons. cbn [length]. lia. Qed.

Lemma psm_loop pre tracks post fuel acc :
  length tracks < fuel ->
  loop fuel (psm_step (E := PsError) (pre ++ elementary_map tracks ++ post)
               (length pre + 4 * length tracks)) (length pre, acc) =
  Ok (acc ++ track_types tracks).
Proof.
  revert pre fuel acc. induction tracks as [|t ts IH]; intros pre fuel acc Hf.
  { destruct fuel as [|fuel]; [simpl in Hf; lia|]. cbn [loop]. unfold psm_step at 1. nat_cmp.
    by rewrite app_nil_r. }
  destruct fuel as [|fuel]; [lia|]. cbn [loop]. unfold psm_step at 1. nat_cmp.
  rewrite elementary_map_cons. cbn [app]. rewrite !idx_app_r by lia.
  replace (length pre - length pre) with 0 by lia.
  replace (length pre + 1 - length pre) with 1 by lia.
  replace (length pre + 2 - length pre) with 2 by lia.
  replace (length pre + 3 - length pre) with 3 by lia.
  rewrite !idx_S, !idx_0. cbn [mbind outcome_bind].
  change (Z.to_nat (from_be [0; 0] .& 4095)%Z) with 0.
  specialize (IH (pre ++ [ps_stream_type t; ps_stream_id t; 0%Z; 0%Z]) fuel
    (acc ++ [(ps_stream_id t, ps_stream_type t)])).
  rewrite length_app, <-!app_assoc in IH. cbn [length app] in IH.
  replace (length pre + 4 * length (t :: ts)) with (length pre + 4 + 4 * length ts) by (simpl; lia).
  change (4 + 0) with 4. rewrite IH by (simpl in Hf; lia). done.
Qed.

Lemma program_stream_map_shape tracks :
  length tracks <= 255 ->
  exists crc, length crc = 4 /\
    let body := [0xe0; 0xff; 0; 0]%Z ++ to_be 2 (4 * zlen tracks) ++ elementary_map tracks ++ crc in
    program_stream_map tracks = [0; 0; 1; 0xbc]%Z ++ to_be 2 (zlen body) ++ body.
Proof.
  intros Hl. unfold program_stream_map. cbv zeta.
  assert (zlen (elementary_map tracks) = 4 * zlen tracks)%Z as ->.
  { unfold zlen. rewrite length_elementary_map. lia. }
  set (crc := mpeg2_crc32 _). exists (to_be 4 crc). split; [apply length_to_be|].
  set (body := [0xe0; 0xff; 0; 0]%Z ++ _).
  assert (zlen body = 10 + 4 * zlen tracks)%Z as ->.
  { unfold body, zlen. rewrite !length_app, !length_to_be, length_elementary_map. cbn [length]. lia. }
  unfold u16. rewrite !Z.mod_small by (unfold zlen; lia). unfold body.
  change (to_be 2 0) with [0%Z; 0%Z]. rewrite <-!app_assoc. done.
Qed.

Lemma program_stream_map_ent tracks :
  length tracks <= 255 -> ent_ok (EHeader (program_stream_map tracks) (track_types tracks)).
Proof.
  intros Hl. destruct (program_stream_map_shape tracks Hl) as (crc & Hcrc & Heq). cbv zeta in Heq.
  set (body := [0xe0; 0xff; 0; 0]%Z ++ to_be 2 (4 * zlen tracks) ++ elementary_map tracks ++ crc) in *.
  assert (length body = 10 + 4 * length tracks) as Hb.
  { unfold body. rewrite !length_app, !length_to_be, length_elementary_map. cbn [length]. lia. }
  assert (is_u16 (zlen body)) as Hu by (unfold is_u16, zlen; lia).
  rewrite Heq. apply sized_header_ent; [by right|done|].
  rewrite bool_decide_eq_true_2 by done.
  destruct (to_be 2 (zlen body)) as [|l0 [|l1 [|? ?]]] eqn:Hl01; try done.
  assert (Z.to_nat (from_be [l0; l1]) = length body) as Hn.
  { rewrite <-Hl01, from_be_to_be_small by apply Hu. unfold zlen. lia. }
  destruct (to_be 2 (4 * zlen tracks)) as [|e0 [|e1 [|? ?]]] eqn:He01; try done.
  assert (Z.to_nat (from_be [e0; e1]) = 4 * length tracks) as He.
  { rewrite <-He01, from_be_to_be_small by (unfold zlen; lia). unfold zlen. lia. }
  set (data := _ ++ _).
  assert (length data = 16 + 4 * length tracks) as Hd by (unfold data; simpl length; simpl in Hb; lia).
  unfold parse_program_stream_map. rewrite (proj2 (Nat.ltb_ge _ _)) by lia.
  rewrite bool_decide_eq_true_2 by done. cbn [orb negb].
  change (@idx PsError data 4) with (@Ok PsError _ l0). change (@idx PsError data 5) with (@Ok PsError _ l1).
  change (@idx PsError data 8) with (@Ok PsError _ 0%Z). change (@idx PsError data 9) with (@Ok PsError _ 0%Z).
  cbn [mbind outcome_bind]. change (Z.to_nat (from_be [0; 0]%Z)) with 0. rewrite Hn, Hb, Hd.
  change (10 + 0) with 10. change (10 + 2) with 12. change (10 + 1) with 11.
  change (@idx PsError data 10) with (@Ok PsError _ e0). change (@idx PsError data 11) with (@Ok PsError _ e1).
  cbn [mbind outcome_bind]. rewrite (proj2 (Nat.ltb_ge _ _)) by lia. rewrite He.
  pose proof (psm_loop ([0; 0; 1; 188; l0; l1; 0xe0; 0xff; 0; 0; e0; e1]%Z) tracks crc
    (S (16 + 4 * length tracks)) []) as Hloop. cbn [length] in Hloop.
  replace (Nat.min (12 + 4 * length tracks) _) with (12 + 4 * length tracks) by lia.
  apply Hloop. lia.
Qed.

(** ** The checksum *)

Lemma crc_bit_shift x : (0 <= x < 2 ^ 31)%Z -> crc_bit x = (x * 2)%Z.
Proof.
  intros Hx. unfold crc_bit, u32. change 0x80000000%Z with ((2 ^ 1 - 1) * 2 ^ 31)%Z.
  rewrite land_mask by done. rewrite (Z.div_small x) by done. simpl negb. cbv iota.
  rewrite Z.shiftl_mul_pow2 by done. apply Z.mod_small. lia.
Qed.

Lemma crc_bits_shift k x :
  (0 <= x)%Z -> (x * 2 ^ Z.of_nat k < 2 ^ 32)%Z -> Nat.iter k crc_bit x = (x * 2 ^ Z.of_nat k)%Z.
Proof.
  intros Hx. induction k as [|k IH]; intros Hk; [simpl; lia|].
  rewrite Nat2Z.inj_succ, Z.pow_succ_r in * by lia. cbn [Nat.iter nat_rect] in *.
  change (nat_rect _ x _ k) with (Nat.iter k crc_bit x).
  assert (0 <= 2 ^ Z.of_nat k)%Z by (apply Z.pow_nonneg; lia).
  rewrite IH, crc_bit_shift by nia. lia.
Qed.

(** The register's own top byte clears it. *)
Lemma lxor_top c : (0 <= c < 2 ^ 32)%Z -> c .^ u32 ((c / 2 ^ 24) .<< 24) = (c mod 2 ^ 24)%Z.
Proof.
  intros Hc. unfold u32. rewrite Z.mod_small.
  2: { rewrite Z.shiftl_mul_pow2 by done. div_lia. }
  apply Z.bits_inj'. intros n Hn. rewrite Z.lxor_spec. destruct (decide (n < 24)%Z).
  - rewrite Z.shiftl_spec_low, Z.mod_pow2_bits_low by lia. apply xorb_false_r.
  - rewrite Z.shiftl_spec, <-Z.shiftr_div_pow2, Z.shiftr_spec, Z.mod_pow2_bits_high by lia.
    replace (n - 24 + 24)%Z with n by lia. apply xorb_nilpotent.
Qed.

Lemma crc_byte_own c : is_u32 c -> crc_byte c (c / 2 ^ 24) = ((c mod 2 ^ 24) * 256)%Z.
Proof.
  intros Hc. unfold crc_byte. rewrite lxor_top by done.
  apply (crc_bits_shift 8); simpl Z.of_nat; div_lia.
Qed.

Lemma crc_own c : is_u32 c -> foldl crc_byte c (to_be 4 c) = 0%Z.
Proof.
  intros Hc. unfold is_u32 in Hc. rewrite to_be_4. cbn [foldl].
  assert (forall x y, is_u32 x -> y = (x / 2 ^ 24)%Z -> crc_byte x y = ((x mod 2 ^ 24) * 256)%Z) as H
    by (intros x y Hx ->; by apply crc_byte_own).
  unfold is_u32 in H. rewrite (H c) by div_lia.
  set (c1 := ((c mod 2 ^ 24) * 256)%Z). rewrite (H c1) by (unfold c1; div_lia).
  set (c2 := ((c1 mod 2 ^ 24) * 256)%Z). rewrite (H c2) by (unfold c2, c1; div_lia).
  set (c3 := ((c2 mod 2 ^ 24) * 256)%Z). rewrite (H c3) by (unfold c3, c2, c1; div_lia).
  unfold c3, c2, c1. div_lia.
Qed.

Lemma u32_land x : is_u32 x <-> Z.land x (2 ^ 32 - 1) = x.
Proof.
  rewrite land_ones_mod by done. unfold is_u32. split; intros H.
  - by apply Z.mod_small.
  - rewrite <-H. apply Z.mod_pos_bound. lia.
Qed.

Lemma u32_lxor x y : is_u32 x -> is_u32 y -> is_u32 (x .^ y).
Proof.
  rewrite !u32_land. intros Hx Hy. rewrite <-Hx, <-Hy at 2. apply Z.bits_inj'. intros n Hn.
  rewrite Z.land_spec, !Z.lxor_spec, !Z.land_spec. rewrite <-Hx, <-Hy at 1. rewrite !Z.land_spec.
  destruct (Z.testbit x n), (Z.testbit y n), (Z.testbit (2 ^ 32 - 1) n); done.
Qed.

Lemma crc_u32 data : bytes_ok data -> is_u32 (mpeg2_crc32 data).
Proof.
  assert (forall z, is_u32 (u32 z)) as Hu by (intros; apply Z.mod_pos_bound; lia).
  assert (forall x, is_u32 (crc_bit x)) as Hbit.
  { intros x. unfold crc_bit. destruct (negb _); [apply u32_lxor; [apply Hu|unfold is_u32; lia]|apply Hu]. }
  intros _. unfold mpeg2_crc32. assert (is_u32 0xffffffff) as H0 by (unfold is_u32; lia).
  revert H0. generalize 0xffffffff%Z. induction data as [|b data IH]; intros c Hc; [done|].
  cbn [foldl]. apply IH. unfold crc_byte. cbn [Nat.iter nat_rect]. apply Hbit.
Qed.

(** A receiver recovers the program stream map: parsing the emitted map
    gives the muxer's (stream id, stream type) pairs in order, and the
    trailing checksum is the MPEG-2 CRC of the map, so that the CRC of the
    whole map is 0. *)
Theorem program_stream_map_round_trip tracks :
  length tracks <= 255 -> Forall (fun t => is_u8 (ps_stream_type t) /\ is_u8 (ps_stream_id t)) tracks ->
  @parse_program_stream_map PsError (program_stream_map tracks) = Ok (track_types tracks) /\
  mpeg2_crc32 (program_stream_map tracks) = 0%Z.
Proof.
  intros Hl Hok. split.
  - destruct (program_stream_map_ent tracks Hl) as [_ (_ & H & _)].
    destruct (program_stream_map_shape tracks Hl) as (crc & _ & Heq). cbv zeta in Heq.
    rewrite Heq in *. rewrite bool_decide_eq_true_2 in H by done. exact H.
  - unfold program_stream_map. cbv zeta. set (out := [0; 0; 1; 0xbc]%Z ++ _).
    unfold mpeg2_crc32 at 1. rewrite foldl_app. apply crc_own, crc_u32.
    unfold out. rewrite !bytes_ok_app. split_and!; try apply to_be_ok; try by repeat constructor.
    clear -Hok. induction Hok as [|t ts [? ?] _ IH]; [constructor|]. rewrite elementary_map_cons.
    repeat (constructor; try done).
Qed.

Lemma program_stream_map_round_trip_witness :
  @parse_program_stream_map PsError
    (program_stream_map [{| ps_stream_type := 0x1b; ps_stream_id := 0xe0 |};
                         {| ps_stream_type := 0x0f; ps_stream_id := 0xc0 |}]%Z) =
  Ok [(0xe0, 0x1b); (0xc0, 0x0f)]%Z.
Proof.
  exact (proj1 (program_stream_map_round_trip
    [{| ps_stream_type := 0x1b; ps_stream_id := 0xe0 |};
     {| ps_stream_type := 0x0f; ps_stream_id := 0xc0 |}]%Z
    ltac:(simpl; lia) ltac:(repeat constructor; done))).
Defined.

(** ** The muxer *)

Definition all_tracks : list PsTrack :=
  omap (fun c => match ps_track c with Ok t => Some t | _ => None end)
    [H264; H265; AAC; G711A; G711U; MP2A; Mp3].

(** The tracks are distinct and come from codecs. *)
Definition muxer_inv (m : PsMuxer) : Prop := NoDup (ps_tracks m) /\ ps_tracks m ⊆ all_tracks.

Lemma ps_track_in c t : ps_track c = Ok t -> t ∈ all_tracks.
Proof. destruct c; intros; simplify_eq/=; set_solver. Qed.

Lemma muxer_inv_length m : muxer_inv m -> length (ps_tracks m) <= 7.
Proof.
  intros [Hn Hs]. change 7 with (length all_tracks). apply submseteq_length.
  by apply NoDup_submseteq.
Qed.

Lemma muxer_inv_snoc m t a b :
  muxer_inv m -> t ∈ all_tracks -> t ∉ ps_tracks m ->
  muxer_inv {| ps_tracks := ps_tracks m ++ [t]; aac_config := a; map_pending := b |}.
Proof.
  intros [Hn Hs] Ht Hm. split; cbn [ps_tracks].
  - apply NoDup_app. split_and!; [done| |apply NoDup_singleton].
    intros x Hx ->%list_elem_of_singleton. done.
  - intros x [Hx|Hx]%elem_of_app; [by apply Hs|]. apply list_elem_of_singleton in Hx. by subst.
Qed.

Lemma add_codec_inv m c : muxer_inv m -> muxer_inv (add_codec m c).
Proof.
  intros Hm. unfold add_codec. destruct (ps_track c) eqn:Ht; try done.
  case_bool_decide; [done|]. apply muxer_inv_snoc; eauto using ps_track_in.
Qed.

Lemma muxer_new_inv tracks : muxer_inv (muxer_new tracks).
Proof.
  unfold muxer_new. assert (muxer_inv {| ps_tracks := []; aac_config := None; map_pending := true |}) as H0
    by (split; [constructor|set_solver]).
  revert H0. generalize {| ps_tracks := []; aac_config := None; map_pending := true |}.
  induction tracks as [|t ts IH]; intros m Hm; [done|]. cbn [foldl]. apply IH.
  destruct t as [v|a]; cbn [muxer_new_track]; [by apply add_codec_inv|].
  case_bool_decide; [|by apply add_codec_inv]. apply (add_codec_inv m (audio_codec a) Hm).
Qed.

(** The muxer's state once the frame's track is known. *)
Definition with_track (m : PsMuxer) (t : PsTrack) : PsMuxer :=
  if bool_decide (t ∈ ps_tracks m) then m
  else {| ps_tracks := ps_tracks m ++ [t]; aac_config := aac_config m; map_pending := true |}.

Lemma with_track_inv m t : muxer_inv m -> t ∈ all_tracks -> muxer_inv (with_track m t).
Proof. intros. unfold with_track. case_bool_decide; [done|by apply muxer_inv_snoc]. Qed.

Lemma elementary_payload_track m t f : elementary_payload (with_track m t) f = elementary_payload m f.
Proof. unfold with_track. by case_bool_decide. Qed.

(** The packets a receiver should see for a frame. *)
Definition frame_packets (m : PsMuxer) (f : MediaFrame) : list PesPacket :=
  match (mux_frame m f).2, ps_track (codec f), elementary_payload m f with
  | Ok (_ :: _), Ok t, Ok payload =>
      (fun c => {| pes_stream_id := ps_stream_id t; pes_data := c;
                   pes_pts := Some ((pts f * 90) mod 2 ^ 33)%Z |}) <$> chunks MAX_PES_PAYLOAD payload
  | _, _, _ => []
  end.

Lemma timestamp_90k_mod ms : timestamp_90k ms = ((ms * 90) mod 2 ^ 33)%Z.
Proof.
  unfold timestamp_90k, u64. change PTS_MASK with (2 ^ 33 - 1)%Z. rewrite land_ones_mod by done.
  change (2 ^ 64)%Z with (2 ^ 33 * 2 ^ 31)%Z.
  rewrite Z.rem_mul_r by lia. rewrite (Z.mul_comm (2 ^ 33)), Z.mod_add by lia. by apply Z.mod_mod.
Qed.

(** The longest entity the muxer emits. *)
Definition MAX_ENTITY : nat := MAX_PES_PAYLOAD + 19.

(** The PES packets of a payload. *)
Definition pes_entities (sid p d : Z) (payload : bytes) : list entity :=
  (fun c => EPes (pes_packet sid p d c) {| pes_stream_id := sid; pes_data := c; pes_pts := Some (p mod 2 ^ 33)%Z |})
    <$> chunks MAX_PES_PAYLOAD payload.

Lemma pes_chunk_ents sid p d payload :
  (0xC0 <= sid < 256)%Z ->
  let ents := pes_entities sid p d payload in
  Forall ent_ok ents /\ Forall (fun e => length (ent_bytes e) <= MAX_ENTITY) ents /\
    concat (pes_packet sid p d <$> chunks MAX_PES_PAYLOAD payload) = stream_bytes ents /\
    concat (ent_pkts <$> ents) =
      (fun c => {| pes_stream_id := sid; pes_data := c; pes_pts := Some (p mod 2 ^ 33)%Z |})
        <$> chunks MAX_PES_PAYLOAD payload.
Proof.
  intros Hsid. unfold pes_entities.
  assert (Forall (fun c => length c <= MAX_PES_PAYLOAD) (chunks MAX_PES_PAYLOAD payload)) as Hc.
  { apply Forall_forall. intros c [_ ?]%chunks_length; [done|]. unfold MAX_PES_PAYLOAD. lia. }
  cbv zeta. induction Hc as [|c cs Hc _ (IH1 & IH2 & IH3 & IH4)]; [by split_and!|].
  rewrite !fmap_cons. cbn [concat]. split_and!.
  - constructor; [by apply pes_packet_ent|done].
  - constructor; [|done]. cbn [ent_bytes]. unfold pes_packet, MAX_ENTITY. cbv zeta.
    rewrite !length_app, length_to_be. destruct (negb _); cbn [length encode_timestamp]; lia.
  - rewrite IH3. done.
  - rewrite IH4. done.
Qed.

#[local] Opaque pack_header system_header program_stream_map pes_packet chunks pes_entities.

(** What comes in front of them. *)
Definition header_entities (scr : Z) (b : bool) (tracks : list PsTrack) : list entity :=
  EHeader (pack_header scr) [] ::
    (if b then [EHeader (system_header tracks) []; EHeader (program_stream_map tracks) (track_types tracks)]
     else []).

Lemma header_ents scr (b : bool) tracks :
  length tracks <= 7 ->
  let ents := header_entities scr b tracks in
  Forall ent_ok ents /\ Forall (fun e => length (ent_bytes e) <= MAX_ENTITY) ents /\
    pack_header scr ++ (if b then system_header tracks ++ program_stream_map tracks else []) =
      stream_bytes ents /\
    concat (ent_pkts <$> ents) = [].
Proof.
  intros Ht.
  assert (ent_ok (EHeader (system_header tracks) [])) as Hsys.
  { destruct (system_header_shape tracks) as (body & Hb & ->).
    assert (is_u16 (zlen body)) as Hu by (unfold is_u16, zlen; lia).
    unfold u16. rewrite Z.mod_small by apply Hu. apply sized_header_ent; [by left|done|done]. }
  assert (length (pack_header scr) <= MAX_ENTITY) as H1.
  { destruct (pack_header_shape scr) as (l & -> & Hl). rewrite !length_app, Hl. unfold MAX_ENTITY, MAX_PES_PAYLOAD. cbn [length]. lia. }
  assert (length (system_header tracks) <= MAX_ENTITY) as H2.
  { destruct (system_header_shape tracks) as (body & Hb & ->). rewrite !length_app, length_to_be, Hb.
    unfold MAX_ENTITY, MAX_PES_PAYLOAD. cbn [length]. lia. }
  assert (length (program_stream_map tracks) <= MAX_ENTITY) as H3.
  { destruct (program_stream_map_shape tracks) as (crc & Hc & ->); [lia|].
    rewrite !length_app, !length_to_be, length_elementary_map, Hc.
    unfold MAX_ENTITY, MAX_PES_PAYLOAD. cbn [length]. lia. }
  cbv zeta. unfold header_entities. split_and!.
  - constructor; [apply pack_header_ent|]. destruct b; [|constructor].
    apply Forall_cons. split; [done|]. apply Forall_singleton, program_stream_map_ent. lia.
  - constructor; [done|]. destruct b; [|constructor]. apply Forall_cons. split; [done|].
    by apply Forall_singleton.
  - unfold stream_bytes. destruct b; cbn [fmap list_fmap ent_bytes concat]; by rewrite ?app_nil_r.
  - by destruct b.
Qed.

(** Whether a program stream map goes in front of the frame's packets. *)
Definition sends_map (m : PsMuxer) (f : MediaFrame) : bool :=
  map_pending m || (bool_decide (frame_type f = Video) && key_frame f).

(** What the muxer writes for a frame. *)
Definition frame_entities (m : PsMuxer) (f : MediaFrame) : list entity :=
  match (mux_frame m f).2, ps_track (codec f), elementary_payload m f with
  | Ok (_ :: _), Ok t, Ok payload =>
      header_entities (timestamp_90k (dts f)) (sends_map (with_track m t) f) (ps_tracks (with_track m t)) ++
      pes_entities (ps_stream_id t) (timestamp_90k (pts f)) (timestamp_90k (dts f)) payload
  | _, _, _ => []
  end.

Lemma frame_entities_ok m f m' out :
  muxer_inv m -> mux_frame m f = (m', Ok out) ->
  muxer_inv m' /\ let ents := frame_entities m f in
    Forall ent_ok ents /\ Forall (fun e => length (ent_bytes e) <= MAX_ENTITY) ents /\
    out = stream_bytes ents /\ concat (ent_pkts <$> ents) = frame_packets m f.
Proof.
  intros Hm Hmux. pose proof Hmux as Hmux'. unfold mux_frame in Hmux'. unfold frame_entities, frame_packets. rewrite Hmux. cbn [snd].
  case_bool_decide; [simplify_eq; by split_and!|].
  destruct (ps_track (codec f)) as [t| | |] eqn:Ht; try done. cbv zeta in Hmux'.
  fold (with_track m t) in Hmux'.
  assert (muxer_inv (with_track m t)) as Hwt by (apply with_track_inv; eauto using ps_track_in).
  destruct (_ && config_frame f).
  { destruct (_ ≫= _); simplify_eq; by split_and!. }
  rewrite elementary_payload_track in Hmux'.
  destruct (elementary_payload m f) as [[|b payload]| | |] eqn:Hp; simplify_eq; [by split_and!|].
  fold (sends_map (with_track m t) f). set (wm := sends_map (with_track m t) f).
  split; [by destruct wm|].
  pose proof (header_ents (timestamp_90k (dts f)) wm (ps_tracks (with_track m t)) (muxer_inv_length _ Hwt)) as H1.
  assert (0xC0 <= ps_stream_id t < 256)%Z as Hid by (destruct (codec f); simplify_eq/=; unfold VIDEO_STREAM_ID, AUDIO_STREAM_ID; lia).
  pose proof (pes_chunk_ents (ps_stream_id t) (timestamp_90k (pts f)) (timestamp_90k (dts f)) (b :: payload) Hid) as H2.
  cbv zeta in H1, H2. destruct H1 as (H1a & H1b & H1c & H1d). destruct H2 as (H2a & H2b & H2c & H2d).
  rewrite H1c, H2c. destruct (pack_header_shape (timestamp_90k (dts f))) as (l & Hl & _).
  assert (exists x xs, stream_bytes (header_entities (timestamp_90k (dts f)) wm (ps_tracks (with_track m t))) = x :: xs) as (x & xs & Hx).
  { rewrite <-H1c, Hl. by eexists _, _. }
  rewrite Hx. cbn [app]. rewrite stream_bytes_app, Hx, fmap_app, concat_app, H1d, H2d.
  split; [exact (proj2 (Forall_app _ _ _) (conj H1a H2a))|]. split; [exact (proj2 (Forall_app _ _ _) (conj H1b H2b))|].
  cbn [app]. split; [reflexivity|].
  rewrite timestamp_90k_mod, Z.mod_mod by lia. reflexivity.
Qed.

Lemma mux_frame_ents m f m' out :
  muxer_inv m -> mux_frame m f = (m', Ok out) ->
  muxer_inv m' /\
  exists ents, Forall ent_ok ents /\ Forall (fun e => length (ent_bytes e) <= MAX_ENTITY) ents /\
    out = stream_bytes ents /\ concat (ent_pkts <$> ents) = frame_packets m f.
Proof. intros Hm Hmux. destruct (frame_entities_ok _ _ _ _ Hm Hmux). eauto. Qed.

(** The frames of a stream muxed one after the other, as the sender does;
    the outputs of the calls that succeed. *)
Fixpoint mux_frames (m : PsMuxer) (frames : list MediaFrame) : list bytes * list PesPacket :=
  match frames with
  | [] => ([], [])
  | f :: fs =>
      let '(m', r) := mux_frame m f in
      let '(outs, pkts) := mux_frames m' fs in
      match r with
      | Ok out => (out :: outs, frame_packets m f ++ pkts)
      | _ => (outs, pkts)
      end
  end.

Lemma mux_frame_inv m f : muxer_inv m -> muxer_inv (mux_frame m f).1.
Proof.
  intros Hm. destruct (mux_frame m f) as [m' r] eqn:Hmux. cbn [fst].
  destruct r as [out|e| |]; [by apply (mux_frame_ents m f m' out)|..]; unfold mux_frame in Hmux;
    (case_bool_decide; [by simplify_eq|]);
    (destruct (ps_track (codec f)) as [t| | |] eqn:Ht; try (by simplify_eq)); cbv zeta in Hmux;
    fold (with_track m t) in Hmux;
    assert (muxer_inv (with_track m t)) as Hwt by (apply with_track_inv; eauto using ps_track_in);
    (destruct (_ && config_frame f); [destruct (_ ≫= _); by simplify_eq|]);
    destruct (elementary_payload _ f) as [[|? ?]| | |]; by simplify_eq.
Qed.

(** What the muxer writes for a stream. *)
Fixpoint stream_entities (m : PsMuxer) (frames : list MediaFrame) : list entity :=
  match frames with
  | [] => []
  | f :: fs => frame_entities m f ++ stream_entities (mux_frame m f).1 fs
  end.

Lemma stream_entities_ok m frames outs pkts :
  muxer_inv m -> mux_frames m frames = (outs, pkts) ->
  Forall ent_ok (stream_entities m frames) /\ Forall (fun e => length (ent_bytes e) <= MAX_ENTITY) (stream_entities m frames) /\
    concat outs = stream_bytes (stream_entities m frames) /\ concat (ent_pkts <$> stream_entities m frames) = pkts.
Proof.
  revert m outs pkts. induction frames as [|f fs IH]; intros m outs pkts Hm Hmux; simplify_eq/=.
  { by split_and!. }
  pose proof (mux_frame_inv m f Hm) as Hm'. destruct (mux_frame m f) as [m' r] eqn:Hf.
  destruct (mux_frames m' fs) as [outs' pkts'] eqn:Hfs. cbn [fst] in Hm' |- *.
  destruct (IH _ _ _ Hm' Hfs) as (H2a & H2b & H2c & H2d).
  destruct r as [out| | |]; [|unfold frame_entities; rewrite Hf; by simplify_eq..].
  destruct (frame_entities_ok _ _ _ _ Hm Hf) as (_ & H1a & H1b & H1c & H1d). simplify_eq.
  rewrite stream_bytes_app, fmap_app, concat_app, H1d. cbn [concat].
  split; [exact (proj2 (Forall_app _ _ _) (conj H1a H2a))|]. split; [exact (proj2 (Forall_app _ _ _) (conj H1b H2b))|].
  rewrite H2c. split; reflexivity.
Qed.

Lemma mux_frames_ents m frames outs pkts :
  muxer_inv m -> mux_frames m frames = (outs, pkts) ->
  exists ents, Forall ent_ok ents /\ Forall (fun e => length (ent_bytes e) <= MAX_ENTITY) ents /\
    concat outs = stream_bytes ents /\ concat (ent_pkts <$> ents) = pkts.
Proof. intros Hm Hmux. exists (stream_entities m frames). by apply stream_entities_ok. Qed.

(** *** The stream types a receiver knows *)

(** Each stream id has one track. *)
Definition single (ts : list PsTrack) : Prop :=
  forall t t', t ∈ ts -> t' ∈ ts -> ps_stream_id t = ps_stream_id t' -> t = t'.

Definition mapped (types : gmap Z Z) (ts : list PsTrack) : Prop :=
  forall t, t ∈ ts -> types !! ps_stream_id t = Some (ps_stream_type t).

(** After a program stream map the receiver knows the muxer's tracks. *)
Definition known (m : PsMuxer) (types : gmap Z Z) : Prop := map_pending m = false -> mapped types (ps_tracks m).

Lemma set_types_mapped types ts : single ts -> mapped (set_types types (track_types ts)) ts.
Proof.
  intros Hs t Ht. revert Hs Ht. induction ts as [|x ts IH] using rev_ind; intros Hs Ht; [by apply not_elem_of_nil in Ht|].
  unfold track_types, set_types. rewrite fmap_app, foldl_app. cbn [fmap list_fmap foldl].
  destruct (decide (ps_stream_id x = ps_stream_id t)) as [He|Hne].
  - rewrite He, lookup_insert_eq. f_equal. assert (x = t) as ->; [|done]. apply Hs; [apply elem_of_app; right; by left|done|done].
  - rewrite lookup_insert_ne by done. apply IH.
    + intros u v Hu Hv. apply Hs; apply elem_of_app; by left.
    + apply elem_of_app in Ht as [Ht|Ht%list_elem_of_singleton]; [done|]. by subst.
Qed.

Lemma with_track_in m t : t ∈ ps_tracks (with_track m t).
Proof. unfold with_track. case_bool_decide; [done|]. apply elem_of_app. right. by left. Qed.

Lemma mux_frame_muxer m f t :
  frame_type f <> Metadata -> ps_track (codec f) = Ok t ->
  ps_tracks (mux_frame m f).1 = ps_tracks (with_track m t) /\
  match frame_entities m f with
  | [] => map_pending (mux_frame m f).1 = map_pending (with_track m t)
  | _ => map_pending (mux_frame m f).1 = false
  end.
Proof.
  intros Hf Ht. unfold frame_entities, mux_frame. rewrite bool_decide_false, Ht by done. fold (with_track m t). cbv zeta.
  destruct (_ && config_frame f); [by destruct (_ ≫= _)|]. rewrite elementary_payload_track.
  destruct (elementary_payload m f) as [[|b payload]| | |] eqn:Hp; try done. fold (sends_map (with_track m t) f).
  destruct (pack_header_shape (timestamp_90k (dts f))) as (l & -> & _). cbn [app snd].
  unfold header_entities. cbn [app]. destruct (sends_map (with_track m t) f) eqn:Hs; [split; reflexivity|].
  split; [reflexivity|]. apply orb_false_iff in Hs as [Hs _]. exact Hs.
Qed.

Section walk.
Context {E A : Type} (proc : option Z -> PesPacket -> A -> outcome E A).

(** The receiver looks the stream's type up. *)
Definition looked_up (types : gmap Z Z) (pkt : PesPacket) (a : A) : outcome E A := proc (types !! pes_stream_id pkt) pkt a.

Fixpoint each (t : option Z) (pkts : list PesPacket) (a : A) : outcome E A :=
  match pkts with
  | [] => Ok a
  | p :: pkts => a ← proc t p a; each t pkts a
  end.

(** What is seen of a stream of frames, each with its own type. *)
Fixpoint each_frame (m : PsMuxer) (frames : list MediaFrame) (a : A) : outcome E A :=
  match frames with
  | [] => Ok a
  | f :: fs =>
      a ← (match ps_track (codec f) with
           | Ok t => each (Some (ps_stream_type t)) (frame_packets m f) a
           | _ => Ok a
           end);
      each_frame (mux_frame m f).1 fs a
  end.

#[local] Transparent pes_entities.
Lemma walk_pes types sid p d payload a :
  walk looked_up types (pes_entities sid p d payload) a =
  each (types !! sid) ((fun c => {| pes_stream_id := sid; pes_data := c; pes_pts := Some (p mod 2 ^ 33)%Z |})
    <$> chunks MAX_PES_PAYLOAD payload) a /\
  foldl ent_types types (pes_entities sid p d payload) = types.
Proof.
  unfold pes_entities. generalize (chunks MAX_PES_PAYLOAD payload). intros l. split.
  - revert a. induction l as [|c l IH]; intros a; [done|]. rewrite !fmap_cons. cbn [walk each].
    match goal with |- context [looked_up types ?x a] => change (looked_up types x a) with (proc (types !! sid) x a) end.
    destruct (proc _ _ a) as [a1| | |]; [apply IH|done..].
  - induction l as [|c l IH]; [done|]. exact IH.
Qed.

#[local] Opaque pes_entities.

Lemma frame_walk types m f t a :
  frame_type f <> Metadata -> ps_track (codec f) = Ok t -> single (ps_tracks (with_track m t)) -> known m types ->
  walk looked_up types (frame_entities m f) a = each (Some (ps_stream_type t)) (frame_packets m f) a /\
  known (mux_frame m f).1 (foldl ent_types types (frame_entities m f)).
Proof.
  intros Hf Ht Hs Hk. pose proof (mux_frame_muxer m f t Hf Ht) as [Htr Hpend]. unfold known. rewrite Htr.
  assert (map_pending (with_track m t) = false -> with_track m t = m) as Hold by (unfold with_track; by case_bool_decide).
  unfold frame_entities, frame_packets in *. rewrite Ht in *.
  destruct (mux_frame m f).2 as [[|b out]| | |]; cbn [walk each foldl];
    [split; [done|]; rewrite Hpend; intros Hp; pose proof (Hold Hp) as He; rewrite He in Hp |- *; by apply Hk
    | |split; [done|]; rewrite Hpend; intros Hp; pose proof (Hold Hp) as He; rewrite He in Hp |- *; by apply Hk..].
  destruct (elementary_payload m f) as [payload| | |]; cbn [walk each foldl];
    [|split; [done|]; rewrite Hpend; intros Hp; pose proof (Hold Hp) as He; rewrite He in Hp |- *; by apply Hk..].
  rewrite walk_app, foldl_app.
  set (types' := foldl ent_types types (header_entities (timestamp_90k (dts f)) (sends_map (with_track m t) f) (ps_tracks (with_track m t)))).
  assert (mapped types' (ps_tracks (with_track m t))) as Hm.
  { subst types'. destruct (sends_map (with_track m t) f) eqn:Hmap; [by apply set_types_mapped|].
    apply orb_false_iff in Hmap as [Hmap _]. pose proof (Hold Hmap) as He. rewrite He in Hmap |- *. by apply Hk. }
  assert (walk looked_up types (header_entities (timestamp_90k (dts f)) (sends_map (with_track m t) f) (ps_tracks (with_track m t))) a = Ok a)
    as -> by (by destruct (sends_map (with_track m t) f)).
  cbn [mbind outcome_bind]. destruct (walk_pes types' (ps_stream_id t) (timestamp_90k (pts f)) (timestamp_90k (dts f)) payload a) as [-> ->].
  rewrite (Hm t (with_track_in m t)), timestamp_90k_mod, Z.mod_mod by lia. split; [reflexivity|]. intros _. exact Hm.
Qed.

Definition track_of (f : MediaFrame) : option PsTrack := match ps_track (codec f) with Ok t => Some t | _ => None end.

Lemma stream_walk types ts m frames a :
  single ts -> ps_tracks m ⊆ ts -> omap track_of frames ⊆ ts ->
  Forall (fun f => frame_type f <> Metadata /\ is_Some (track_of f)) frames -> known m types ->
  walk looked_up types (stream_entities m frames) a = each_frame m frames a.
Proof.
  intros Hs. revert types m a. induction frames as [|f fs IH]; intros types m a Hm Hts Hf Hk; [done|].
  apply Forall_cons in Hf as [[Hmeta [t Ht]] Hf]. cbn [stream_entities each_frame omap list_omap] in *. rewrite Ht in Hts.
  unfold track_of in Ht. destruct (ps_track (codec f)) as [t'| | |] eqn:Htr; simplify_eq.
  assert (ps_tracks (with_track m t) ⊆ ts) as Hw.
  { unfold with_track. case_bool_decide; [done|]. cbn [ps_tracks].
    intros x [Hx|Hx%list_elem_of_singleton]%elem_of_app; [by apply Hm|]. subst. apply Hts. by left. }
  destruct (frame_walk types m f t a Hmeta Htr) as [Hwalk Hk']; [intros u v Hu Hv; apply Hs; by apply Hw|done|].
  rewrite walk_app, Hwalk. destruct (each _ _ a) as [a1| | |]; try done. apply IH; [|set_solver|done|done].
  destruct (mux_frame_muxer m f t Hmeta Htr) as [-> _]. done.
Qed.
End walk.

Lemma frame_packets_payload m f m' out :
  mux_frame m f = (m', Ok out) -> out <> [] ->
  elementary_payload m f = Ok (concat (pes_data <$> frame_packets m f)).
Proof.
  intros Hmux Hne. unfold frame_packets. rewrite Hmux. cbn [snd].
  unfold mux_frame in Hmux. case_bool_decide; [by simplify_eq|].
  destruct (ps_track (codec f)) as [t| | |] eqn:Ht; try done. cbv zeta in Hmux.
  fold (with_track m t) in Hmux.
  destruct (_ && config_frame f); [by destruct (_ ≫= _); simplify_eq|].
  rewrite elementary_payload_track in Hmux.
  destruct (elementary_payload m f) as [payload| | |]; try (by simplify_eq).
  - destruct out as [|b out]; [done|]. rewrite <-list_fmap_compose.
    change (pes_data ∘ _) with (fun c : bytes => c). rewrite list_fmap_id, concat_chunks by
      (unfold MAX_PES_PAYLOAD; lia). done.
Qed.

(** C1: muxing then demuxing is the identity on elementary streams.  The
    frames of a stream are muxed one after the other and the bytes are cut
    anywhere (RTP packet boundaries): the demuxer, fed piece by piece, yields
    the packets of each muxed frame in order ([frame_packets]: at most 65512
    bytes each, the frame's stream id, the 90 kHz PTS modulo 2^33), its
    buffer ends empty, and the packets of a frame concatenate to its
    elementary payload. *)
Theorem ps_mux_demux tracks frames outs pkts payloads max :
  mux_frames (muxer_new tracks) frames = (outs, pkts) ->
  concat payloads = concat outs ->
  Forall (fun p => length p + MAX_ENTITY <= max) payloads ->
  (exists d, receive_all (demuxer_with max) payloads = Ok (d, pkts) /\ buf d = []) /\
  (forall m f m' out, mux_frame m f = (m', Ok out) -> out <> [] ->
     elementary_payload m f = Ok (concat (pes_data <$> frame_packets m f))).
Proof.
  intros Hmux Hcat Hmax. split; [|exact frame_packets_payload].
  destruct (mux_frames_ents _ _ _ _ (muxer_new_inv tracks) Hmux) as (ents & H1 & H2 & H3 & <-).
  eexists. rewrite (receive_all_stream MAX_ENTITY ents); [done|done|done|done|congruence].
Qed.

Definition demo_frame : MediaFrame :=
  with_payload_format (new_audio 1 G711A 40 40 40 [1; 2; 3]%Z) PfRaw.

Lemma ps_mux_demux_witness :
  exists outs pkts d,
    mux_frames (muxer_new []) [demo_frame] = (outs, pkts) /\ outs <> [] /\
    receive_all (demuxer_with (Z.to_nat 70000)) outs = Ok (d, pkts) /\
    pes_data <$> pkts = [[1; 2; 3]]%Z.
Proof.
  destruct (mux_frames (muxer_new []) [demo_frame]) as [outs pkts] eqn:Hm.
  exists outs, pkts.
  assert (pes_data <$> pkts = [[1; 2; 3]]%Z /\ length <$> outs = [66]) as [Hp Hl].
  { pose proof (f_equal (fun x => (pes_data <$> x.2, length <$> x.1)) Hm) as Hx. cbn [fst snd] in Hx.
    assert ((fun x => (pes_data <$> x.2, length <$> x.1)) (mux_frames (muxer_new []) [demo_frame]) =
      ([[1; 2; 3]]%Z, [66])) as Hy by (vm_compute; reflexivity).
    rewrite Hy in Hx. exact (conj (eq_sym (f_equal fst Hx)) (eq_sym (f_equal snd Hx))). }
  destruct (proj1 (ps_mux_demux [] [demo_frame] outs pkts outs (Z.to_nat 70000) Hm eq_refl
    ltac:(clear Hm; destruct outs as [|o [|? ?]]; try discriminate Hl; apply Forall_singleton;
          injection Hl as ->; unfold MAX_ENTITY, MAX_PES_PAYLOAD; lia))) as (d & Hd & _).
  exists d. split; [reflexivity|]. split; [intros ->; discriminate Hl|]. split; [exact Hd|exact Hp].
Defined.

(** ** ADTS *)

Definition aac_config_ok (c : PsAacConfig) : Prop :=
  (0 <= profile c < 4)%Z /\ (0 <= sample_rate_index c < 13)%Z /\ (0 <= channel_config c < 8)%Z.

(** An AAC access unit framed by the muxer's [adts_header] is unframed by
    the payload helpers: [strip_adts_header] gives the access unit back, and
    the AudioSpecificConfig derived from the header parses to the very
    configuration the header was built from; a payload too long for the
    13-bit length is refused. *)
Theorem adts_frame_round_trip c raw :
  aac_config_ok c -> raw <> [] ->
  if decide (zlen raw + 7 < 8192)%Z
  then exists h asc, adts_header c (length raw) = Ok h /\ length h = 7 /\
    strip_adts_header (h ++ raw) = Ok raw /\
    audio_specific_config_from_adts (h ++ raw) = Ok asc /\ parse_aac_config asc = Ok (Some c)
  else adts_header c (length raw) = Err (Anyhow "AAC access unit is too large for an ADTS frame").
Proof.
  intros (Hp & Hs & Hc) Hraw. unfold adts_header, zlen. cbv zeta.
  case_decide as Hlen.
  2: { by rewrite (proj2 (Z.ltb_lt _ _)) by lia. }
  rewrite (proj2 (Z.ltb_ge _ _)) by lia. eexists _, _. split; [done|]. split; [done|].
  unfold strip_adts_header, audio_specific_config_from_adts, adts_header_len, is_adts. cbn [app].
  rewrite (proj2 (Nat.leb_le 7 _)) by (cbn [length]; lia).
  rewrite !idx_S, !idx_0. cbn [andm mbind outcome_bind].
  change (255 =? 255)%Z with true. change (241 .& 246 =? 240)%Z with true. cbn [andm mbind outcome_bind negb].
  change (241 .& 1 =? 0)%Z with false. cbn [negb mbind outcome_bind].
  split_and!.
  - rewrite (proj2 (Nat.leb_gt _ _)) by (cbn [length]; destruct raw; [done|simpl; lia]).
    rewrite slice_ok by (cbn [length]; lia). f_equal. cbn [drop]. apply firstn_all2. cbn [length]. lia.
  - reflexivity.
  - unfold parse_aac_config. rewrite (proj2 (Nat.ltb_ge _ _)) by (cbn [length]; lia). rewrite !idx_S, !idx_0.
    cbn [mbind outcome_bind]. clear Hraw.
    assert (0 <= u8 ((Z.of_nat (length raw) + 7) .>> 11) .& 3 < 4)%Z as Hl by (bits_arith; div_lia).
    revert Hl. generalize (u8 ((Z.of_nat (length raw) + 7) .>> 11) .& 3)%Z. intros l Hl. clear raw Hlen.
    destruct c as [p s ch]. cbn [profile sample_rate_index channel_config] in *.
    revert p s ch l Hp Hs Hc Hl. eapply (range_check_4 4 13 8 4).
    vm_compute. reflexivity.
Qed.

Lemma adts_frame_round_trip_witness :
  exists h asc, adts_header {| profile := 1; sample_rate_index := 4; channel_config := 2 |} 3 = Ok h /\
    length h = 7 /\ strip_adts_header (h ++ [0x21; 0x10; 5]%Z) = Ok [0x21; 0x10; 5]%Z /\
    audio_specific_config_from_adts (h ++ [0x21; 0x10; 5]%Z) = Ok asc /\
    parse_aac_config asc = Ok (Some {| profile := 1; sample_rate_index := 4; channel_config := 2 |}).
Proof.
  exact (adts_frame_round_trip {| profile := 1; sample_rate_index := 4; channel_config := 2 |}
    [0x21; 0x10; 5]%Z ltac:(unfold aac_config_ok; simpl; lia) ltac:(discriminate)).
Defined.
