(* ===== verification/Rtp.v ===== *)
(** * Rtp: packetization of elementary streams and its inverse

    [crates/core/src/rtp.rs] ([RtpPacketizer]) and
    [crates/webrtc/src/h264_rtp.rs] ([H264RtpDepacketizer]).  A method with
    [&mut self] returns the new packetizer; the fragment loops carry fuel. *)

From S2P Require Import Prelude Frame AnnexB Payload.

Record RtpPacketizer : Type := {
  ssrc : Z;
  payload_type : Z;
  sequence : Z;
  clock_rate : Z;
  mtu : nat
}.

Definition DEFAULT_MTU : nat := 1400.

Definition packetizer_new (ssrc payload_type clock_rate : Z) : RtpPacketizer :=
  {| ssrc := ssrc; payload_type := payload_type .& 0x7f; sequence := 0;
     clock_rate := Z.max clock_rate 1; mtu := DEFAULT_MTU |}.

Definition with_sequence (p : RtpPacketizer) (s : Z) : RtpPacketizer :=
  {| ssrc := ssrc p; payload_type := payload_type p; sequence := s;
     clock_rate := clock_rate p; mtu := mtu p |}.

(** [mtu.clamp(1, u16::MAX as usize - 12)] *)
Definition with_payload_mtu (p : RtpPacketizer) (n : nat) : RtpPacketizer :=
  {| ssrc := ssrc p; payload_type := payload_type p; sequence := sequence p;
     clock_rate := clock_rate p; mtu := Nat.min (Nat.max n 1) (Z.to_nat 65523) |}.

Definition rtp_timestamp (p : RtpPacketizer) (timestamp_ms : Z) : Z :=
  u32 ((timestamp_ms * clock_rate p) / 1000).

Definition header (p : RtpPacketizer) (timestamp : Z) (marker : bool) : RtpPacketizer * bytes :=
  (with_sequence p (u16 (sequence p + 1)),
   [0x80; payload_type p .| (if marker then 0x80 else 0)]%Z ++
   to_be 2 (sequence p) ++ to_be 4 timestamp ++ to_be 4 (ssrc p)).

(** [packetize_payload]: the closure over the enumerated chunks. *)
Fixpoint payload_packets (p : RtpPacketizer) (timestamp : Z) (chunk_count index : nat)
    (chunks : list bytes) : RtpPacketizer * list bytes :=
  match chunks with
  | [] => (p, [])
  | chunk :: rest =>
      let '(p, h) := header p timestamp (index + 1 =? chunk_count) in
      let '(p, packets) := payload_packets p timestamp chunk_count (index + 1) rest in
      (p, (h ++ chunk) :: packets)
  end.

(** [usize::div_ceil]. *)
Definition div_ceil (a b : nat) : nat := (a + b - 1) / b.

Definition packetize_payload (p : RtpPacketizer) (payload : bytes) (timestamp_ms : Z) :
    RtpPacketizer * list bytes :=
  match payload with
  | [] => (p, [])
  | _ =>
      let timestamp := rtp_timestamp p timestamp_ms in
      let chunk_count := div_ceil (length payload) (mtu p) in
      payload_packets p timestamp chunk_count 0 (chunks (mtu p) payload)
  end.

(** One turn of the FU-A loop. *)
Definition h264_fu_step (nalu : bytes) (fu_indicator nal_type timestamp : Z) (last_nalu : bool)
    (st : RtpPacketizer * nat * bool * list bytes) :
    result (RtpPacketizer * nat * bool * list bytes + (RtpPacketizer * list bytes)) :=
  let '(p, offset, first, packets) := st in
  if offset <? length nalu then
    room ← usub (mtu p) 2;
    let chunk := Nat.min room (length nalu - offset) in
    let stop := offset + chunk =? length nalu in
    let fu_header := nal_type .| (if first then 0x80 else 0) .| (if stop then 0x40 else 0) in
    let '(p, h) := header p timestamp (last_nalu && stop) in
    body ← slice nalu offset (offset + chunk);
    Ok (inl (p, offset + chunk, false, packets ++ [h ++ [fu_indicator; fu_header] ++ body]))
  else Ok (inr (p, packets)).

Definition packetize_h264_nalu (p : RtpPacketizer) (nalu : bytes) (timestamp : Z)
    (last_nalu : bool) (packets : list bytes) : result (RtpPacketizer * list bytes) :=
  if length nalu =? 0 then Ok (p, packets) else
  if length nalu <=? mtu p then
    let '(p, h) := header p timestamp last_nalu in
    Ok (p, packets ++ [h ++ nalu])
  else
    nal_header ← idx nalu 0;
    let fu_indicator := (nal_header .& 0xe0) .| 28 in
    let nal_type := nal_header .& 0x1f in
    loop (S (length nalu)) (h264_fu_step nalu fu_indicator nal_type timestamp last_nalu)
      (p, 1, true, packets).

Definition h265_fu_step (nalu : bytes) (payload_header0 nal_header1 nal_type timestamp : Z)
    (last_nalu : bool) (st : RtpPacketizer * nat * bool * list bytes) :
    result (RtpPacketizer * nat * bool * list bytes + (RtpPacketizer * list bytes)) :=
  let '(p, offset, first, packets) := st in
  if offset <? length nalu then
    room ← usub (mtu p) 3;
    let chunk := Nat.min room (length nalu - offset) in
    let stop := offset + chunk =? length nalu in
    let fu_header := nal_type .| (if first then 0x80 else 0) .| (if stop then 0x40 else 0) in
    let '(p, h) := header p timestamp (last_nalu && stop) in
    body ← slice nalu offset (offset + chunk);
    Ok (inl (p, offset + chunk, false,
             packets ++ [h ++ [payload_header0; nal_header1; fu_header] ++ body]))
  else Ok (inr (p, packets)).

Definition packetize_h265_nalu (p : RtpPacketizer) (nalu : bytes) (timestamp : Z)
    (last_nalu : bool) (packets : list bytes) : result (RtpPacketizer * list bytes) :=
  if length nalu <? 2 then Ok (p, packets) else
  if length nalu <=? mtu p then
    let '(p, h) := header p timestamp last_nalu in
    Ok (p, packets ++ [h ++ nalu])
  else
    nal_header0 ← idx nalu 0;
    nal_header1 ← idx nalu 1;
    let nal_type := (nal_header0 .>> 1) .& 0x3f in
    let payload_header0 := (nal_header0 .& 0x81) .| (49 .<< 1) in
    loop (S (length nalu)) (h265_fu_step nalu payload_header0 nal_header1 nal_type timestamp last_nalu)
      (p, 2, true, packets).

(** The loop over the enumerated NAL units. *)
Fixpoint packetize_nalus (c : CodecId) (timestamp : Z) (nalu_count index : nat)
    (nalus : list bytes) (p : RtpPacketizer) (packets : list bytes) :
    result (RtpPacketizer * list bytes) :=
  match nalus with
  | [] => Ok (p, packets)
  | nalu :: rest =>
      let last_nalu := index + 1 =? nalu_count in
      '(p, packets) ←
        match c with
        | H264 => packetize_h264_nalu p nalu timestamp last_nalu packets
        | H265 => packetize_h265_nalu p nalu timestamp last_nalu packets
        | _ => Panic
        end;
      packetize_nalus c timestamp nalu_count (index + 1) rest p packets
  end.

Definition packetize_video (p : RtpPacketizer) (frame : MediaFrame) :
    result (RtpPacketizer * list bytes) :=
  if negb (bool_decide (codec frame = H264 \/ codec frame = H265))
  then Err (Anyhow "RTP ES video codec is not supported") else
  annex_b ← (if config_frame frame then video_config_annex_b frame else video_sample_annex_b frame);
  nalus ← annex_b_nalus annex_b;
  let timestamp := rtp_timestamp p (timestamp frame) in
  packetize_nalus (codec frame) timestamp (length nalus) 0 nalus p [].

(** [rtp.rs] has its own copy of the function of [ps.rs]. *)
Definition rtp_raw_audio_payload (frame : MediaFrame) : result bytes :=
  let flv := bool_decide (payload_format frame = PfFlv) ||
    (bool_decide (payload_format frame = PfUnknown) &&
     match data frame with
     | header :: _ => let h := header .>> 4 in (h =? 2)%Z || (h =? 7)%Z || (h =? 8)%Z
     | [] => false
     end) in
  if flv && negb (length (data frame) =? 0)
  then slice (data frame) 1 (length (data frame))
  else Ok (data frame).

Definition packetize_audio (p : RtpPacketizer) (frame : MediaFrame) :
    result (RtpPacketizer * list bytes) :=
  if config_frame frame then Ok (p, []) else
  '(payload, aac, mpeg_audio) ←
    match codec frame with
    | AAC => b ← aac_raw_payload frame; Ok (b, true, false)
    | Opus | G711A | G711U | L16 => b ← rtp_raw_audio_payload frame; Ok (b, false, false)
    | Mp3 | MP2A => b ← rtp_raw_audio_payload frame; Ok (b, false, true)
    | _ => Err (Anyhow "RTP ES audio codec is not supported")
    end;
  if length payload =? 0 then Ok (p, []) else
  let timestamp := rtp_timestamp p (timestamp frame) in
  let '(p, h) := header p timestamp true in
  let au_header := u16 (u16 (zlen payload) .<< 3) .& 0xfff8 in
  let extra := if aac : bool then to_be 2 16 ++ to_be 2 au_header
               else if mpeg_audio : bool then [0; 0; 0; 0]%Z else [] in
  Ok (p, [h ++ extra ++ payload]).

Definition packetize (p : RtpPacketizer) (frame : MediaFrame) :
    result (RtpPacketizer * list bytes) :=
  match frame_type frame with
  | Video => packetize_video p frame
  | Audio => packetize_audio p frame
  | Metadata => Ok (p, [])
  end.

(** ** H264RtpDepacketizer *)

Record Depacketizer : Type := { fu_nalu : bytes; fu_active : bool }.

Definition depacketizer_new : Depacketizer := {| fu_nalu := []; fu_active := false |}.

Definition START_CODE : bytes := [0; 0; 0; 1]%Z.

(** One turn of the STAP-A loop. *)
Definition stap_step (payload : bytes) (st : nat * bytes) : result (nat * bytes + bytes) :=
  let '(pos, out) := st in
  if pos + 2 <=? length payload then
    b0 ← idx payload pos; b1 ← idx payload (pos + 1);
    let nalu_len := Z.to_nat (from_be [b0; b1]) in
    let pos := pos + 2 in
    if length payload <? pos + nalu_len then Ok (inr out) else
    body ← slice payload pos (pos + nalu_len);
    Ok (inl (pos + nalu_len, out ++ START_CODE ++ body))
  else Ok (inr out).

Definition depacketize (d : Depacketizer) (payload : bytes) : result (Depacketizer * option bytes) :=
  if length payload =? 0 then Ok (d, None) else
  nalu_header ← idx payload 0;
  let nalu_type := nalu_header .& 0x1F in
  if (nalu_type =? 28)%Z then
    if length payload <? 2 then Ok (d, None) else
    fu_header ← idx payload 1;
    let start := negb (fu_header .& 0x80 =? 0)%Z in
    let stop := negb (fu_header .& 0x40 =? 0)%Z in
    body ← slice payload 2 (length payload);
    if negb start && negb (fu_active d) then Ok (d, None) else
    let acc :=
      if start then
        let reconstructed := (nalu_header .& 0xE0) .| (fu_header .& 0x1F) in
        START_CODE ++ [reconstructed] ++ body
      else fu_nalu d ++ body in
    if stop then Ok ({| fu_nalu := []; fu_active := false |}, Some acc)
    else Ok ({| fu_nalu := acc; fu_active := true |}, None)
  else if (nalu_type =? 24)%Z then
    out ← loop (S (length payload)) (stap_step payload) (1, []);
    match out with
    | [] => Ok (d, None)
    | _ => Ok (d, Some out)
    end
  else Ok (d, Some (START_CODE ++ payload)).

(** A sequence of RTP payloads, in order. *)
Fixpoint depacketize_all (d : Depacketizer) (payloads : list bytes) : result (Depacketizer * list bytes) :=
  match payloads with
  | [] => Ok (d, [])
  | p :: ps =>
      '(d, r) ← depacketize d p;
      '(d, rs) ← depacketize_all d ps;
      Ok (d, option_list r ++ rs)
  end.

(** ** Packets as payloads with consecutive headers *)

Fixpoint emit (p : RtpPacketizer) (timestamp : Z) (l : list (bool * bytes)) : list bytes :=
  match l with
  | [] => []
  | (marker, payload) :: l =>
      let '(p, h) := header p timestamp marker in (h ++ payload) :: emit p timestamp l
  end.

Definition advance_seq (p : RtpPacketizer) (n : nat) : RtpPacketizer :=
  with_sequence p (u16 (sequence p + Z.of_nat n)).

Definition seq_ok (p : RtpPacketizer) : Prop := is_u16 (sequence p).

Lemma header_seq p ts m : (header p ts m).1 = advance_seq p 1.
Proof. done. Qed.

Lemma header_seq_ok p ts m : seq_ok (header p ts m).1.
Proof. unfold seq_ok, header. cbn [fst sequence with_sequence]. apply Z.mod_pos_bound. lia. Qed.

Lemma advance_seq_0 p : seq_ok p -> advance_seq p 0 = p.
Proof.
  intros Hp. destruct p as [a b c d e]. unfold advance_seq, with_sequence, u16. cbn in *. f_equal.
  rewrite Z.add_0_r. by apply Z.mod_small.
Qed.

Lemma advance_seq_add p n m : advance_seq (advance_seq p n) m = advance_seq p (n + m).
Proof.
  unfold advance_seq, with_sequence, u16. cbn. f_equal.
  rewrite Zplus_mod_idemp_l. f_equal. lia.
Qed.

Lemma emit_app p ts l k :
  seq_ok p -> emit p ts (l ++ k) = emit p ts l ++ emit (advance_seq p (length l)) ts k.
Proof.
  intros Hp. revert p Hp. induction l as [|[m pl] l IH]; intros p Hp.
  { simpl. by rewrite advance_seq_0. }
  cbn [app emit]. pose proof (header_seq p ts m) as Hs. pose proof (header_seq_ok p ts m) as Hok.
  destruct (header p ts m) as [p' h]. cbn [fst] in *. rewrite IH by done. subst p'.
  rewrite advance_seq_add. done.
Qed.

Lemma emit_length p ts l : length (emit p ts l) = length l.
Proof.
  revert p. induction l as [|[m pl] l IH]; intros p; [done|]. cbn [emit].
  destruct (header p ts m). cbn [length]. by rewrite IH.
Qed.

Lemma length_header p ts m : length (header p ts m).2 = 12.
Proof. unfold header. cbn [snd]. by rewrite !length_app, !length_to_be. Qed.

Lemma emit_payloads p ts l : drop 12 <$> emit p ts l = snd <$> l.
Proof.
  revert p. induction l as [|[m pl] l IH]; intros p; [done|]. cbn [emit].
  pose proof (length_header p ts m) as Hl. destruct (header p ts m) as [p' h]. cbn [snd] in Hl.
  rewrite !fmap_cons, IH. cbn [snd]. f_equal. by apply drop_app_length'.
Qed.

(** What the header of a packet says. *)
Definition packet_fields (packet : bytes) : option (Z * Z * bool * Z * Z * Z) :=
  match packet with
  | b0 :: b1 :: s0 :: s1 :: t0 :: t1 :: t2 :: t3 :: r0 :: r1 :: r2 :: r3 :: _ =>
      Some (b0 .>> 6, b1 .& 0x7f, negb (b1 .& 0x80 =? 0)%Z, from_be [s0; s1],
            from_be [t0; t1; t2; t3], from_be [r0; r1; r2; r3])
  | _ => None
  end.

Definition packetizer_ok (p : RtpPacketizer) : Prop :=
  seq_ok p /\ (0 <= payload_type p < 128)%Z /\ is_u32 (ssrc p).

Lemma packet_fields_header p ts m pl :
  packetizer_ok p -> is_u32 ts ->
  packet_fields ((header p ts m).2 ++ pl) =
  Some (2%Z, payload_type p, m, sequence p, ts, ssrc p).
Proof.
  intros (Hs & Hpt & Hssrc) Hts. unfold header. cbn [snd].
  pose proof (from_be_to_be_small 2 (sequence p) Hs) as H1.
  pose proof (from_be_to_be_small 4 ts Hts) as H2.
  pose proof (from_be_to_be_small 4 (ssrc p) Hssrc) as H3.
  rewrite to_be_2 in *. rewrite (to_be_4 ts), (to_be_4 (ssrc p)) in *. cbn [app packet_fields]. rewrite H1, H2, H3.
  destruct m.
  - rewrite (Z.lor_comm (payload_type p)). rewrite (lor_add 0x80 _ 7) by (done || lia).
    replace ((128 + payload_type p) .& 127)%Z with (payload_type p) by (bits_arith; div_lia).
    replace ((128 + payload_type p) .& 128)%Z with 128%Z by (bits_arith; div_lia). done.
  - rewrite Z.lor_0_r.
    replace (payload_type p .& 127)%Z with (payload_type p) by (bits_arith; div_lia).
    replace (payload_type p .& 128)%Z with 0%Z by (bits_arith; div_lia). done.
Qed.

Lemma emit_lookup p ts l i m pl :
  l !! i = Some (m, pl) -> seq_ok p -> emit p ts l !! i = Some ((header (advance_seq p i) ts m).2 ++ pl).
Proof.
  intros Hi Hp. revert p l Hi Hp. induction i as [|i IH]; intros p [|[m' pl'] l] Hi Hp; try done.
  - injection Hi as -> ->. rewrite advance_seq_0 by done. cbn [emit]. by destruct (header p ts m).
  - cbn [emit]. pose proof (header_seq p ts m') as Hs. pose proof (header_seq_ok p ts m') as Hok.
    destruct (header p ts m') as [p' h]. cbn [fst] in *. cbn [lookup list_lookup].
    change (emit p' ts l !! i = Some ((header (advance_seq p (S i)) ts m).2 ++ pl)).
    rewrite (IH p') by done. rewrite Hs, advance_seq_add. done.
Qed.

(** ** Fragmentation *)

(** The fragments of a NAL unit: [pre first stop] is the fragment header. *)
Fixpoint fu_units (pre : bool -> bool -> bytes) (last_nalu first : bool) (l : list bytes) :
    list (bool * bytes) :=
  match l with
  | [] => []
  | [c] => [(last_nalu, pre first true ++ c)]
  | c :: l => (false, pre first false ++ c) :: fu_units pre last_nalu false l
  end.

Definition h264_pre (hdr : Z) (first stop : bool) : bytes :=
  [(hdr .& 0xe0) .| 28;
   (hdr .& 0x1f) .| (if first then 0x80 else 0) .| (if stop then 0x40 else 0)]%Z.

Definition h264_units (m : nat) (nalu : bytes) (last_nalu : bool) : list (bool * bytes) :=
  match nalu with
  | [] => []
  | hdr :: body =>
      if length nalu <=? m then [(last_nalu, nalu)]
      else fu_units (h264_pre hdr) last_nalu true (chunks (m - 2) body)
  end.

(** The two fragment loops are one, up to the fragment header. *)
Definition fu_step (k : nat) (pre : bool -> bool -> bytes) (nalu : bytes) (timestamp : Z) (last_nalu : bool)
    (st : RtpPacketizer * nat * bool * list bytes) :
    result (RtpPacketizer * nat * bool * list bytes + (RtpPacketizer * list bytes)) :=
  let '(p, offset, first, packets) := st in
  if offset <? length nalu then
    room ← usub (mtu p) k;
    let chunk := Nat.min room (length nalu - offset) in
    let stop := offset + chunk =? length nalu in
    let '(p, h) := header p timestamp (last_nalu && stop) in
    body ← slice nalu offset (offset + chunk);
    Ok (inl (p, offset + chunk, false, packets ++ [h ++ pre first stop ++ body]))
  else Ok (inr (p, packets)).

Definition h265_pre (h0 h1 : Z) (first stop : bool) : bytes :=
  [(h0 .& 0x81) .| (49 .<< 1); h1;
   ((h0 .>> 1) .& 0x3f) .| (if first then 0x80 else 0) .| (if stop then 0x40 else 0)]%Z.

Definition h265_units (m : nat) (nalu : bytes) (last_nalu : bool) : list (bool * bytes) :=
  match nalu with
  | h0 :: h1 :: body =>
      if length nalu <=? m then [(last_nalu, nalu)]
      else fu_units (h265_pre h0 h1) last_nalu true (chunks (m - 3) body)
  | _ => []
  end.

Lemma fu_loop k pre p nalu ts last fuel offset first packets :
  k < mtu p -> seq_ok p -> offset <= length nalu -> length nalu - offset < fuel ->
  loop fuel (fu_step k pre nalu ts last) (p, offset, first, packets) =
  let l := fu_units pre last first (chunks (mtu p - k) (drop offset nalu)) in
  Ok (advance_seq p (length l), packets ++ emit p ts l).
Proof.
  revert p offset first packets. induction fuel as [|fuel IH]; intros p offset first packets Hm Hp Ho Hf; [lia|].
  cbv zeta. rewrite loop_unfold. unfold fu_step at 1.
  destruct (Nat.ltb_spec offset (length nalu)) as [Hlt|Hge].
  2: { rewrite drop_ge by lia. cbn [fu_units chunks chunks_aux length emit]. change (chunks _ []) with (@nil bytes).
       cbn [fu_units length emit]. by rewrite app_nil_r, advance_seq_0. }
  unfold usub. rewrite (proj2 (Nat.leb_le _ _)) by lia. cbn [mbind outcome_bind].
  set (c := Nat.min _ _). pose proof (header_seq p ts (last && (offset + c =? length nalu))) as Hs.
  pose proof (header_seq_ok p ts (last && (offset + c =? length nalu))) as Hok.
  assert (drop offset nalu <> []) as Hne by (intros Hd%(f_equal length); rewrite length_drop in Hd; simpl in Hd; lia).
  rewrite (chunks_cons (mtu p - k)) by (done || lia). rewrite drop_drop.
  assert (take (mtu p - k) (drop offset nalu) = take c (drop offset nalu)) as ->.
  { unfold c. rewrite <-(length_drop nalu offset). rewrite <-take_take. f_equal.
    by rewrite firstn_all. }
  destruct (header p ts _) as [p' h] eqn:Hh. cbn [fst] in *.
  rewrite slice_ok by lia. cbn [mbind outcome_bind].
  replace (offset + c - offset) with c by lia.
  assert (mtu p' = mtu p) as Hmtu by (rewrite Hs; done).
  rewrite IH by lia || done. cbv zeta. rewrite Hmtu.
  destruct (Nat.eqb_spec (offset + c) (length nalu)) as [Hend|Hend].
  - rewrite (drop_ge nalu (offset + (mtu p - k))), (drop_ge nalu (offset + c)) by lia.
    change (chunks _ []) with (@nil bytes). cbn [fu_units length emit].
    rewrite andb_true_r in Hh. rewrite Hh, app_nil_r, <-Hs. rewrite advance_seq_0 by done. done.
  - assert (c = mtu p - k) as Hc by lia. rewrite Hc in *.
    assert (drop (offset + (mtu p - k)) nalu <> []) as Hne2
      by (intros Hd%(f_equal length); rewrite length_drop in Hd; simpl in Hd; lia).
    destruct (chunks (mtu p - k) (drop (offset + (mtu p - k)) nalu)) as [|c2 cs] eqn:Hcs.
    { rewrite chunks_cons in Hcs by (done || lia). done. }
    set (l := fu_units _ _ false (c2 :: cs)).
    change (fu_units pre last first (take (mtu p - k) (drop offset nalu) :: c2 :: cs))
      with ((false, pre first false ++ take (mtu p - k) (drop offset nalu)) :: l).
    cbn [emit length]. rewrite andb_false_r in Hh. rewrite Hh, Hs, advance_seq_add.
    rewrite <-app_assoc. done.
Qed.

Lemma packetize_h264_nalu_units p nalu ts last packets :
  3 <= mtu p -> seq_ok p ->
  packetize_h264_nalu p nalu ts last packets =
  let l := h264_units (mtu p) nalu last in Ok (advance_seq p (length l), packets ++ emit p ts l).
Proof.
  intros Hm Hp. unfold packetize_h264_nalu, h264_units. destruct nalu as [|hdr body].
  { cbn [length Nat.eqb emit]. by rewrite app_nil_r, advance_seq_0. }
  cbn [length Nat.eqb]. destruct (Nat.leb_spec (S (length body)) (mtu p)).
  { cbv zeta. cbn [emit]. pose proof (header_seq p ts last) as Hs. destruct (header p ts last). cbn [fst] in *.
    by subst. }
  rewrite idx_0. cbn [mbind outcome_bind].
  rewrite (loop_ext _ (fu_step 2 (h264_pre hdr) (hdr :: body) ts last)) by (by intros [[[? ?] ?] ?]).
  rewrite fu_loop by (cbn [length]; lia || done). done.
Qed.

Lemma packetize_h265_nalu_units p nalu ts last packets :
  4 <= mtu p -> seq_ok p ->
  packetize_h265_nalu p nalu ts last packets =
  let l := h265_units (mtu p) nalu last in Ok (advance_seq p (length l), packets ++ emit p ts l).
Proof.
  intros Hm Hp. unfold packetize_h265_nalu, h265_units. destruct nalu as [|h0 [|h1 body]].
  1-2: cbn [length Nat.ltb Nat.leb emit]; by rewrite app_nil_r, advance_seq_0.
  rewrite (proj2 (Nat.ltb_ge _ _)) by (cbn [length]; lia).
  destruct (Nat.leb_spec (length (h0 :: h1 :: body)) (mtu p)).
  { cbv zeta. cbn [emit]. pose proof (header_seq p ts last) as Hs. destruct (header p ts last). cbn [fst] in *.
    by subst. }
  rewrite idx_S, !idx_0. cbn [mbind outcome_bind].
  rewrite (loop_ext _ (fu_step 3 (h265_pre h0 h1) (h0 :: h1 :: body) ts last)) by (by intros [[[? ?] ?] ?]).
  rewrite fu_loop by (cbn [length]; lia || done). done.
Qed.

(** The units of a whole access unit; only its last NAL unit may carry the
    marker. *)
Fixpoint frame_units (units : bytes -> bool -> list (bool * bytes)) (nalus : list bytes) :
    list (bool * bytes) :=
  match nalus with
  | [] => []
  | [n] => units n true
  | n :: rest => units n false ++ frame_units units rest
  end.

Definition codec_units (c : CodecId) (m : nat) : bytes -> bool -> list (bool * bytes) :=
  match c with H265 => h265_units m | _ => h264_units m end.

Definition mtu_ok (c : CodecId) (m : nat) : Prop :=
  match c with H264 => 3 <= m | H265 => 4 <= m | _ => False end.

Lemma packetize_nalus_units c ts nalus index p packets :
  mtu_ok c (mtu p) -> seq_ok p ->
  packetize_nalus c ts (index + length nalus) index nalus p packets =
  let l := frame_units (codec_units c (mtu p)) nalus in
  Ok (advance_seq p (length l), packets ++ emit p ts l).
Proof.
  intros Hm. revert index p Hm packets. induction nalus as [|n rest IH]; intros index p Hm packets Hp.
  { cbn. by rewrite app_nil_r, advance_seq_0. }
  cbn [packetize_nalus]. set (last := index + 1 =? index + length (n :: rest)).
  set (l := codec_units c (mtu p) n last).
  assert (match c with
          | H264 => packetize_h264_nalu p n ts last packets
          | H265 => packetize_h265_nalu p n ts last packets
          | _ => Panic
          end = Ok (advance_seq p (length l), packets ++ emit p ts l)) as ->.
  { destruct c; try done; [by apply packetize_h264_nalu_units|by apply packetize_h265_nalu_units]. }
  cbn [mbind outcome_bind]. replace (index + length (n :: rest)) with (index + 1 + length rest) by (simpl; lia).
  rewrite IH; [|done|apply Z.mod_pos_bound; lia]. cbv zeta. cbn [mtu advance_seq with_sequence].
  rewrite advance_seq_add, <-app_assoc, <-emit_app, <-length_app by done.
  enough (l ++ frame_units (codec_units c (mtu p)) rest = frame_units (codec_units c (mtu p)) (n :: rest)) as ->
    by done.
  unfold l, last. destruct rest as [|n' rest].
  - cbn [length]. rewrite Nat.eqb_refl. cbn [frame_units]. by rewrite app_nil_r.
  - rewrite (proj2 (Nat.eqb_neq _ _)) by (cbn [length]; lia). done.
Qed.

(** ** Reassembly *)

Lemma fu_indicator_type : forall hdr, is_u8 hdr -> (((hdr .& 0xe0) .| 28) .& 0x1F = 28)%Z.
Proof. by_bytes. Qed.

Lemma fu_header_bits : forall hdr, is_u8 hdr ->
  forallb (fun '(first, stop) =>
    let fu := ((hdr .& 0x1f) .| (if first : bool then 0x80 else 0) .| (if stop : bool then 0x40 else 0))%Z in
    Bool.eqb (negb (fu .& 0x80 =? 0)%Z) first && Bool.eqb (negb (fu .& 0x40 =? 0)%Z) stop &&
    ((((hdr .& 0xe0) .| 28) .& 0xE0) .| (fu .& 0x1F) =? hdr)%Z)
    [(true, true); (true, false); (false, true); (false, false)] = true.
Proof. by_bytes. Qed.

Lemma fu_header_read hdr first stop :
  is_u8 hdr ->
  let fu := ((hdr .& 0x1f) .| (if first : bool then 0x80 else 0) .| (if stop : bool then 0x40 else 0))%Z in
  negb (fu .& 0x80 =? 0)%Z = first /\ negb (fu .& 0x40 =? 0)%Z = stop /\
  ((((hdr .& 0xe0) .| 28) .& 0xE0) .| (fu .& 0x1F) = hdr)%Z.
Proof.
  intros Hh fu. pose proof (fu_header_bits hdr Hh) as H. rewrite forallb_forall in H.
  assert (In (first, stop) [(true, true); (true, false); (false, true); (false, false)]) as Hin
    by (destruct first, stop; simpl; auto 10).
  specialize (H _ Hin). cbv beta iota zeta in H. fold fu in H.
  rewrite !andb_true_iff, !Bool.eqb_true_iff, Z.eqb_eq in H. destruct H as [[? ?] ?]. by split_and!.
Qed.

(** One fragment. *)
Lemma depacketize_fragment d hdr first stop c :
  is_u8 hdr -> (first = true \/ fu_active d = true) ->
  depacketize d (h264_pre hdr first stop ++ c) =
  let acc := (if first then START_CODE ++ [hdr] else fu_nalu d) ++ c in
  Ok (if stop then (depacketizer_new, Some acc) else ({| fu_nalu := acc; fu_active := true |}, None)).
Proof.
  intros Hh Hd. unfold depacketize, h264_pre.
  destruct (fu_header_read hdr first stop Hh) as (H1 & H2 & H3).
  cbn [app]. set (fu := _ .| (if stop then _ else _)) in *. set (fi := (hdr .& 0xe0) .| 28) in *.
  rewrite (proj2 (Nat.eqb_neq _ _)) by done. rewrite idx_0. cbn [mbind outcome_bind].
  unfold fi at 1. rewrite fu_indicator_type by done. rewrite Z.eqb_refl.
  rewrite (proj2 (Nat.ltb_ge _ _)) by (cbn [length]; lia). rewrite idx_S, idx_0. cbn [mbind outcome_bind].
  rewrite H1, H2, H3. rewrite slice_ok by (cbn [length]; lia). cbn [mbind outcome_bind length].
  rewrite firstn_all2 by (cbn [drop]; rewrite length_drop; cbn [length]; lia).
  change (drop 2 (fi :: fu :: c)) with c.
  assert (negb first && negb (fu_active d) = false) as -> by (destruct Hd as [->| ->]; [done|apply andb_false_r]).
  destruct first, stop; cbn [app]; by rewrite <-?app_assoc.
Qed.

Lemma depacketize_fragments hdr last cs acc :
  is_u8 hdr -> cs <> [] ->
  depacketize_all {| fu_nalu := acc; fu_active := true |} (snd <$> fu_units (h264_pre hdr) last false cs) =
  Ok (depacketizer_new, [acc ++ concat cs]).
Proof.
  intros Hh. revert acc. induction cs as [|c [|c2 cs] IH]; intros acc Hne; [done| |].
  - cbn [fu_units fmap list_fmap depacketize_all snd]. rewrite depacketize_fragment by auto.
    cbn [mbind outcome_bind fu_nalu concat]. by rewrite !app_nil_r.
  - change (fu_units (h264_pre hdr) last false (c :: c2 :: cs)) with
      ((false, h264_pre hdr false false ++ c) :: fu_units (h264_pre hdr) last false (c2 :: cs)).
    rewrite fmap_cons. cbn [depacketize_all snd]. rewrite depacketize_fragment by auto.
    cbn [mbind outcome_bind fu_nalu]. rewrite IH by done. cbn [mbind outcome_bind option_list app concat].
    by rewrite <-!app_assoc.
Qed.

Definition single_type (hdr : Z) : Prop := (hdr .& 0x1F <> 28 /\ hdr .& 0x1F <> 24)%Z.

(** A NAL unit that travels as it is, or in fragments, comes back whole. *)
Definition rtp_nal_ok (n : bytes) : Prop :=
  match n with [] => False | hdr :: _ => is_u8 hdr /\ single_type hdr end.

Lemma depacketize_units m n last :
  3 <= m -> rtp_nal_ok n ->
  depacketize_all depacketizer_new (snd <$> h264_units m n last) = Ok (depacketizer_new, [START_CODE ++ n]).
Proof.
  intros Hm Hn. destruct n as [|hdr body]; [done|]. destruct Hn as (Hh & H28 & H24). unfold h264_units.
  destruct (Nat.leb_spec (length (hdr :: body)) m) as [Hle|Hgt].
  - cbn [fmap list_fmap depacketize_all snd]. unfold depacketize at 1.
    rewrite (proj2 (Nat.eqb_neq _ _)) by done. rewrite idx_0. cbn [mbind outcome_bind].
    rewrite !(proj2 (Z.eqb_neq _ _)) by done. done.
  - cbn [length] in Hgt. assert (body <> []) as Hb by (intros ->; simpl in Hgt; lia).
    rewrite chunks_cons by (done || lia).
    assert (drop (m - 2) body <> []) as Hd by (intros Hd%(f_equal length); rewrite length_drop in Hd; simpl in Hd; lia).
    destruct (chunks (m - 2) (drop (m - 2) body)) as [|c2 cs] eqn:Hcs.
    { rewrite chunks_cons in Hcs by (done || lia). done. }
    set (c := take (m - 2) body).
    change (fu_units (h264_pre hdr) last true (c :: c2 :: cs)) with
      ((false, h264_pre hdr true false ++ c) :: fu_units (h264_pre hdr) last false (c2 :: cs)).
    rewrite fmap_cons. cbn [depacketize_all snd]. rewrite depacketize_fragment by auto.
    cbn [mbind outcome_bind]. rewrite depacketize_fragments by done. rewrite <-Hcs, concat_chunks by lia.
    cbn [mbind outcome_bind option_list app]. unfold c. by rewrite <-!app_assoc, take_drop.
Qed.

Lemma depacketize_all_app d l k :
  depacketize_all d (l ++ k) =
  ('(d, r) ← depacketize_all d l; '(d, s) ← depacketize_all d k; Ok (d, r ++ s)).
Proof.
  revert d. induction l as [|x l IH]; intros d; cbn [app depacketize_all].
  { cbn [mbind outcome_bind]. by destruct (depacketize_all d k) as [[? ?]| | |]. }
  destruct (depacketize d x) as [[d1 r]| | |]; cbn [mbind outcome_bind]; [|done..].
  rewrite IH. destruct (depacketize_all d1 l) as [[d2 rs]| | |]; cbn [mbind outcome_bind]; [|done..].
  destruct (depacketize_all d2 k) as [[d3 ss]| | |]; cbn [mbind outcome_bind]; [|done..].
  by rewrite app_assoc.
Qed.

Lemma depacketize_frame m nals :
  3 <= m -> Forall rtp_nal_ok nals ->
  depacketize_all depacketizer_new (snd <$> frame_units (h264_units m) nals) =
  Ok (depacketizer_new, app START_CODE <$> nals).
Proof.
  intros Hm Hn. induction Hn as [|n [|n' nals] Hn Hns IH]; [done|by apply depacketize_units|].
  change (frame_units (h264_units m) (n :: n' :: nals)) with
    (h264_units m n false ++ frame_units (h264_units m) (n' :: nals)).
  rewrite fmap_app, depacketize_all_app, depacketize_units by done. cbn [mbind outcome_bind].
  rewrite IH. done.
Qed.

(** ** Markers and sizes *)

(** Markers on the last packet only. *)
Definition last_marked (n : nat) (b : bool) : list bool := replicate (n - 1) false ++ [b].

Lemma last_marked_cons n b : 0 < n -> last_marked (S n) b = false :: last_marked n b.
Proof. intros. unfold last_marked. replace (S n - 1) with (S (n - 1)) by lia. done. Qed.

Lemma last_marked_app n m b :
  0 < n -> 0 < m -> last_marked n false ++ last_marked m b = last_marked (n + m) b.
Proof.
  intros Hn Hm. induction n as [|[|n] IH]; [lia| |].
  - cbn [Nat.add]. by rewrite (last_marked_cons m).
  - rewrite (last_marked_cons (S n)) by lia. cbn [app Nat.add]. rewrite IH by lia.
    by rewrite (last_marked_cons (S n + m)) by lia.
Qed.

Lemma fu_units_length pre last first cs : length (fu_units pre last first cs) = length cs.
Proof.
  revert first. induction cs as [|c [|c2 cs] IH]; intros first; [done|done|].
  change (fu_units pre last first (c :: c2 :: cs)) with
    ((false, pre first false ++ c) :: fu_units pre last false (c2 :: cs)).
  cbn [length]. by rewrite IH.
Qed.

Lemma fu_units_markers pre last first cs :
  cs <> [] -> fst <$> fu_units pre last first cs = last_marked (length cs) last.
Proof.
  revert first. induction cs as [|c [|c2 cs] IH]; intros first Hne; [done|done|].
  change (fu_units pre last first (c :: c2 :: cs)) with
    ((false, pre first false ++ c) :: fu_units pre last false (c2 :: cs)).
  rewrite fmap_cons, IH by done. cbn [fst length]. by rewrite <-last_marked_cons by lia.
Qed.

Lemma fu_units_size pre last first cs k n :
  (forall a b, length (pre a b) = k) -> Forall (fun c => length c <= n) cs ->
  Forall (fun u => length u.2 <= k + n) (fu_units pre last first cs).
Proof.
  intros Hk Hcs. revert first. induction Hcs as [|c [|c2 cs] Hc Hcs IH]; intros first; [constructor| |].
  - apply Forall_singleton. cbn [snd]. rewrite length_app, Hk. lia.
  - change (fu_units pre last first (c :: c2 :: cs)) with
      ((false, pre first false ++ c) :: fu_units pre last false (c2 :: cs)).
    constructor; [|apply IH]. cbn [snd]. rewrite length_app, Hk. lia.
Qed.

(** NAL units long enough to be sent. *)
Definition unit_ok (c : CodecId) (n : bytes) : Prop :=
  match c with H265 => 2 <= length n | _ => 1 <= length n end.

Lemma chunks_size {A} n (l : list A) : 0 < n -> Forall (fun c => length c <= n) (chunks n l).
Proof. intros Hn. apply Forall_forall. intros c [_ ?]%chunks_length; done. Qed.

Lemma chunks_nonempty {A} n (l : list A) : 0 < n -> l <> [] -> chunks n l <> [].
Proof. intros. by rewrite chunks_cons. Qed.

Lemma codec_units_shape c m n last :
  mtu_ok c m -> unit_ok c n ->
  let l := codec_units c m n last in
  0 < length l /\ fst <$> l = last_marked (length l) last /\ Forall (fun u => length u.2 <= m) l.
Proof.
  intros Hm Hn. destruct c; try done; cbn [mtu_ok unit_ok codec_units] in *.
  - destruct n as [|hdr body]; [simpl in Hn; lia|]. unfold h264_units.
    destruct (Nat.leb_spec (length (hdr :: body)) m) as [Hle|Hgt].
    { cbv zeta. split_and!; [simpl; lia|done|by apply Forall_singleton]. }
    cbn [length] in Hgt. cbv zeta. assert (body <> []) by (intros ->; simpl in Hgt; lia).
    assert (chunks (m - 2) body <> []) as Hc by (apply chunks_nonempty; (lia || done)).
    rewrite fu_units_length, fu_units_markers by done. split_and!; [|done|].
    + destruct (chunks _ _); [done|simpl; lia].
    + eapply Forall_impl; [apply (fu_units_size _ _ _ _ 2 (m - 2)); [done|apply chunks_size; lia]|].
      intros u. cbv beta. lia.
  - destruct n as [|h0 [|h1 body]]; [simpl in Hn; lia..|]. unfold h265_units.
    destruct (Nat.leb_spec (length (h0 :: h1 :: body)) m) as [Hle|Hgt].
    { cbv zeta. split_and!; [simpl; lia|done|by apply Forall_singleton]. }
    cbn [length] in Hgt. cbv zeta. assert (body <> []) by (intros ->; simpl in Hgt; lia).
    assert (chunks (m - 3) body <> []) as Hc by (apply chunks_nonempty; (lia || done)).
    rewrite fu_units_length, fu_units_markers by done. split_and!; [|done|].
    + destruct (chunks _ _); [done|simpl; lia].
    + eapply Forall_impl; [apply (fu_units_size _ _ _ _ 3 (m - 3)); [done|apply chunks_size; lia]|].
      intros u. cbv beta. lia.
Qed.

Lemma frame_units_shape c m nals :
  mtu_ok c m -> Forall (unit_ok c) nals -> nals <> [] ->
  let l := frame_units (codec_units c m) nals in
  0 < length l /\ fst <$> l = last_marked (length l) true /\ Forall (fun u => length u.2 <= m) l.
Proof.
  intros Hm Hn. induction Hn as [|n [|n' nals] Hn Hns IH]; intros Hne; [done|by apply codec_units_shape|].
  cbv zeta. change (frame_units (codec_units c m) (n :: n' :: nals)) with
    (codec_units c m n false ++ frame_units (codec_units c m) (n' :: nals)).
  destruct (codec_units_shape c m n false Hm Hn) as (H1 & H2 & H3).
  destruct (IH ltac:(done)) as (H4 & H5 & H6).
  rewrite length_app, fmap_app, H2, H5, last_marked_app by done.
  split_and!; [lia|done|by apply Forall_app].
Qed.

Lemma last_marked_lookup n i b :
  last_marked n true !! i = Some b -> 0 < n -> b = bool_decide (S i = n).
Proof.
  intros Hi Hn. unfold last_marked in Hi. destruct (decide (i < n - 1)) as [Hlt|Hge].
  - rewrite lookup_app_l in Hi by (rewrite length_replicate; lia).
    apply lookup_replicate in Hi as [-> _]. by rewrite bool_decide_eq_false_2 by lia.
  - rewrite lookup_app_r, length_replicate in Hi by (rewrite length_replicate; lia).
    apply list_lookup_singleton_Some in Hi as [Hi <-]. by rewrite bool_decide_eq_true_2 by lia.
Qed.

(** A frame's packets: [l] with consecutive sequence numbers, the marker on
    the last. *)
Definition packets_ok (p : RtpPacketizer) (ts : Z) (packets : list bytes) : Prop :=
  forall i pkt, packets !! i = Some pkt ->
    length pkt <= 12 + mtu p /\
    packet_fields pkt = Some (2%Z, payload_type p, bool_decide (S i = length packets),
      u16 (sequence p + Z.of_nat i), ts, ssrc p).

Lemma emit_packets_ok p ts l :
  packetizer_ok p -> is_u32 ts -> 0 < length l ->
  fst <$> l = last_marked (length l) true -> Forall (fun u => length u.2 <= mtu p) l ->
  packets_ok p ts (emit p ts l).
Proof.
  intros Hp Hts Hl Hm Hsz i pkt Hi. rewrite emit_length.
  destruct (l !! i) as [[m pl]|] eqn:Hli.
  2: { apply lookup_ge_None in Hli. apply lookup_lt_Some in Hi. rewrite emit_length in Hi. lia. }
  rewrite (emit_lookup p ts l i m pl Hli) in Hi by apply Hp. simplify_eq.
  assert (m = bool_decide (S i = length l)) as ->.
  { apply last_marked_lookup; [|done]. rewrite <-Hm, list_lookup_fmap, Hli. done. }
  split.
  - rewrite length_app, length_header. rewrite Forall_lookup in Hsz. specialize (Hsz _ _ Hli).
    cbn [snd] in Hsz. lia.
  - rewrite packet_fields_header; [done| |done]. destruct Hp as (Hs & Hpt & Hss).
    split; [apply Z.mod_pos_bound; lia|by split].
Qed.

Lemma rtp_timestamp_u32 p ms : is_u32 (rtp_timestamp p ms).
Proof. unfold rtp_timestamp, u32. apply Z.mod_pos_bound. lia. Qed.

Lemma packetize_video_units p f annex :
  is_h26x f -> mtu_ok (codec f) (mtu p) -> seq_ok p ->
  (if config_frame f then video_config_annex_b f else video_sample_annex_b f) = Ok annex ->
  let l := frame_units (codec_units (codec f) (mtu p)) (List.filter nonempty (nal_units annex)) in
  packetize_video p f =
  Ok (advance_seq p (length l), emit p (rtp_timestamp p (timestamp f)) l).
Proof.
  intros Hc Hm Hs Ha. cbv zeta. unfold packetize_video. rewrite bool_decide_eq_true_2 by done.
  cbn [negb]. rewrite Ha. cbn [mbind outcome_bind]. rewrite annex_b_nalus_units. cbn [mbind outcome_bind].
  by rewrite (packetize_nalus_units _ _ (List.filter nonempty (nal_units annex)) 0).
Qed.

(** Every access unit becomes a well-formed packet train: when the frame
    yields Annex-B NAL units of at least the header size, [packetize_video]
    succeeds, no packet is longer than the MTU plus the 12-byte header, the
    sequence numbers are consecutive modulo 2^16 and the packetizer is left
    at the next one, the timestamp, SSRC and payload type are constant, and
    the marker bit is on the last packet only. *)
Theorem rtp_video_packets p f annex :
  packetizer_ok p -> is_h26x f -> mtu_ok (codec f) (mtu p) ->
  (if config_frame f then video_config_annex_b f else video_sample_annex_b f) = Ok annex ->
  Forall (unit_ok (codec f)) (List.filter nonempty (nal_units annex)) ->
  List.filter nonempty (nal_units annex) <> [] ->
  exists packets, packetize_video p f = Ok (advance_seq p (length packets), packets) /\
    packets <> [] /\ packets_ok p (rtp_timestamp p (timestamp f)) packets.
Proof.
  intros Hp Hc Hm Ha Hu Hne. pose proof (packetize_video_units p f annex Hc Hm (proj1 Hp) Ha) as Heq.
  cbv zeta in Heq. destruct (frame_units_shape (codec f) (mtu p) _ Hm Hu Hne) as (H1 & H2 & H3).
  set (l := frame_units _ _) in *. exists (emit p (rtp_timestamp p (timestamp f)) l).
  rewrite emit_length. split; [done|]. split.
  - intros He. apply (f_equal length) in He. rewrite emit_length in He. simpl in He. lia.
  - apply emit_packets_ok; try done. apply rtp_timestamp_u32.
Qed.

(** C19: H.264 over RTP is lossless: an Annex-B access unit of
    start-code-free NAL units is packetized (single packets, or FU-A fragments
    above the MTU) and the payloads, given to [H264RtpDepacketizer] in order,
    come back as exactly these NAL units, each with a start code; the
    depacketizer ends in its initial state. *)
Theorem h264_rtp_round_trip p f nals :
  3 <= mtu p -> seq_ok p -> codec f = H264 -> config_frame f = false ->
  payload_format f = PfAnnexB -> data f = annexb_enc nals ->
  Forall clean nals -> Forall rtp_nal_ok nals ->
  exists p' packets, packetize_video p f = Ok (p', packets) /\
    depacketize_all depacketizer_new (drop 12 <$> packets) =
    Ok (depacketizer_new, app START_CODE <$> nals).
Proof.
  intros Hm Hs Hc Hcfg Hpf Hd Hcl Hn.
  assert (video_sample_annex_b f = Ok (annexb_enc nals)) as Ha.
  { unfold video_sample_annex_b, declared_or_detected_video_format. rewrite Hcfg, Hpf, Hd. done. }
  pose proof (packetize_video_units p f (annexb_enc nals)) as Heq. cbv zeta in Heq.
  rewrite Hcfg, Hc, nal_units_enc, filter_nonempty_clean in Heq by done.
  eexists _, _. split; [apply Heq; [by left|done|done|done]|].
  rewrite emit_payloads. by apply depacketize_frame.
Qed.

Definition rtp_demo : RtpPacketizer := with_payload_mtu (packetizer_new 7 96 90000) 5.
Definition rtp_demo_frame : MediaFrame :=
  with_data (new_video 0 H264 40 40 40 [] true) PfAnnexB
    (annexb_enc [[0x67; 1]; [0x65; 1; 2; 3; 4; 5; 6]]%Z).

Lemma rtp_video_packets_witness :
  exists packets, packetize_video rtp_demo rtp_demo_frame = Ok (advance_seq rtp_demo (length packets), packets) /\
    packets <> [] /\ packets_ok rtp_demo (rtp_timestamp rtp_demo 40) packets.
Proof.
  refine (rtp_video_packets rtp_demo rtp_demo_frame
    (annexb_enc [[0x67; 1]; [0x65; 1; 2; 3; 4; 5; 6]]%Z) _ _ _ _ _ _).
  - repeat split; vm_compute; (reflexivity || discriminate).
  - by left.
  - vm_compute. lia.
  - reflexivity.
  - vm_compute. repeat constructor.
  - vm_compute. discriminate.
Defined.

Lemma h264_rtp_round_trip_witness :
  exists p' packets, packetize_video rtp_demo rtp_demo_frame = Ok (p', packets) /\
    depacketize_all depacketizer_new (drop 12 <$> packets) =
    Ok (depacketizer_new, [[0; 0; 0; 1; 0x67; 1]; [0; 0; 0; 1; 0x65; 1; 2; 3; 4; 5; 6]]%Z).
Proof.
  refine (h264_rtp_round_trip rtp_demo rtp_demo_frame [[0x67; 1]; [0x65; 1; 2; 3; 4; 5; 6]]%Z
    _ _ eq_refl eq_refl eq_refl eq_refl _ _).
  - vm_compute. lia.
  - repeat split; vm_compute; (reflexivity || discriminate).
  - apply (bool_decide_unpack _). vm_compute. exact I.
  - repeat constructor; done.
Defined.

(** ** Muxed payloads *)

Lemma payload_packets_emit p ts index cs :
  seq_ok p -> cs <> [] ->
  payload_packets p ts (index + length cs) index cs =
  (advance_seq p (length cs), emit p ts (zip (last_marked (length cs) true) cs)).
Proof.
  intros Hp. revert p index Hp. induction cs as [|c [|c2 cs] IH]; intros p index Hp Hne; [done| |].
  - cbn [payload_packets length]. rewrite Nat.eqb_refl. done.
  - change (last_marked (length (c :: c2 :: cs)) true) with (last_marked (S (length (c2 :: cs))) true).
    rewrite last_marked_cons by (simpl; lia).
    change (payload_packets p ts (index + length (c :: c2 :: cs)) index (c :: c2 :: cs)) with
      (let '(p, h) := header p ts (index + 1 =? index + length (c :: c2 :: cs)) in
       let '(p, packets) := payload_packets p ts (index + length (c :: c2 :: cs)) (index + 1) (c2 :: cs) in
       (p, (h ++ c) :: packets)).
    rewrite (proj2 (Nat.eqb_neq _ _)) by (cbn [length]; lia).
    cbn [zip_with emit].
    pose proof (header_seq p ts false) as Hs. pose proof (header_seq_ok p ts false) as Hok.
    destruct (header p ts false) as [p' h]. cbn [fst] in *.
    replace (index + length (c :: c2 :: cs)) with (index + 1 + length (c2 :: cs)) by (simpl; lia).
    rewrite IH by done. rewrite Hs, advance_seq_add. done.
Qed.

(** The units of a muxed payload. *)
Definition payload_units (m : nat) (payload : bytes) : list (bool * bytes) :=
  match payload with
  | [] => []
  | _ => zip (last_marked (length (chunks m payload)) true) (chunks m payload)
  end.

Lemma packetize_payload_emit p payload ms :
  seq_ok p -> 0 < mtu p ->
  packetize_payload p payload ms =
  let l := payload_units (mtu p) payload in
  (advance_seq p (length l), emit p (rtp_timestamp p ms) l).
Proof.
  intros Hp Hm. unfold packetize_payload, payload_units. destruct payload as [|b payload].
  { cbn. by rewrite advance_seq_0. }
  set (l := b :: payload) in *. unfold div_ceil. rewrite <-length_chunks by done.
  assert (chunks (mtu p) l <> []) as Hc by by apply chunks_nonempty.
  pose proof (payload_packets_emit p (rtp_timestamp p ms) 0 (chunks (mtu p) l) Hp Hc) as He.
  rewrite Nat.add_0_l in He. cbv zeta. rewrite He. do 2 f_equal.
  rewrite length_zip. unfold last_marked. rewrite length_app, length_replicate.
  destruct (chunks (mtu p) l); [done|]. simpl. lia.
Qed.

Lemma payload_units_shape m payload :
  0 < m ->
  let l := payload_units m payload in
  concat (snd <$> l) = payload /\ Forall (fun u => length u.2 <= m) l /\
  length l = div_ceil (length payload) m /\
  (payload <> [] -> 0 < length l /\ fst <$> l = last_marked (length l) true).
Proof.
  intros Hm. unfold payload_units, div_ceil. rewrite <-length_chunks by done.
  destruct payload as [|b payload]; [cbn; split_and!; (done || constructor)|]. cbv zeta.
  set (cs := chunks m (b :: payload)).
  assert (0 < length cs) as Hl.
  { destruct cs eqn:Hcs; [|simpl; lia]. by apply chunks_nonempty in Hcs. }
  assert (length (last_marked (length cs) true) = length cs) as Hlm.
  { unfold last_marked. rewrite length_app, length_replicate. simpl. lia. }
  rewrite fst_zip, snd_zip, length_zip, Hlm, Nat.min_id by lia.
  split_and!; [by apply concat_chunks| |done|done].
  apply Forall_forall. intros x Hx. apply (chunks_length m (b :: payload)); [done|].
  fold cs. rewrite <-(snd_zip (last_marked (length cs) true) cs) by lia. apply list_elem_of_fmap. eauto.
Qed.

(** [packetize_payload] cuts a muxed payload losslessly: for every
    non-empty payload the packets' bodies concatenate to it, there are
    [ceil (len / mtu)] of them, each is within the MTU, the sequence numbers
    are consecutive and only the last packet is marked. *)
Theorem packetize_payload_lossless p payload ms :
  packetizer_ok p -> 0 < mtu p -> payload <> [] ->
  exists packets, packetize_payload p payload ms = (advance_seq p (length packets), packets) /\
    length packets = div_ceil (length payload) (mtu p) /\
    concat (drop 12 <$> packets) = payload /\ packets_ok p (rtp_timestamp p ms) packets.
Proof.
  intros Hp Hm Hne. rewrite packetize_payload_emit by (apply Hp || done). cbv zeta.
  destruct (payload_units_shape (mtu p) payload Hm) as (H1 & H2 & H3 & H4).
  destruct (H4 Hne) as [H5 H6]. eexists. rewrite emit_length, emit_payloads.
  split_and!; [done|done|done|]. apply emit_packets_ok; try done. apply rtp_timestamp_u32.
Qed.

Lemma packetize_payload_lossless_witness :
  exists packets, packetize_payload rtp_demo [1; 2; 3; 4; 5; 6; 7]%Z 40 =
    (advance_seq rtp_demo (length packets), packets) /\ length packets = 2 /\
    concat (drop 12 <$> packets) = [1; 2; 3; 4; 5; 6; 7]%Z.
Proof.
  destruct (packetize_payload_lossless rtp_demo [1; 2; 3; 4; 5; 6; 7]%Z 40) as (pk & H1 & H2 & H3 & _).
  - repeat split; vm_compute; (reflexivity || discriminate).
  - vm_compute. lia.
  - discriminate.
  - exists pk. split; [exact H1|]. split; [exact H2|exact H3].
Defined.

(** The smallest MTUs [with_payload_mtu] accepts break the FU-A loop: with
    a payload MTU of 1 a longer H.264 NAL unit underflows [mtu - 2] (a
    panic), and with 2 the fragment size is 0 and the loop never ends,
    whatever the fuel. *)
Theorem h264_small_mtu p nalu ts last :
  (2 <= length nalu -> packetize_h264_nalu (with_payload_mtu p 1) nalu ts last [] = Panic) /\
  (forall fuel ind ty first packets offset, offset < length nalu ->
    loop fuel (h264_fu_step nalu ind ty ts last) (with_payload_mtu p 2, offset, first, packets) = NoFuel).
Proof.
  split.
  - intros Hl. unfold packetize_h264_nalu. change (mtu (with_payload_mtu p 1)) with 1.
    destruct nalu as [|a [|b r]]; [simpl in Hl; lia..|]. reflexivity.
  - intros fuel ind ty first packets offset Ho.
    assert (mtu (with_payload_mtu p 2) = 2) as Hm by reflexivity.
    revert Hm first packets. generalize (with_payload_mtu p 2).
    induction fuel as [|fuel IH]; intros q Hm first packets; [done|].
    rewrite loop_unfold. unfold h264_fu_step at 1. rewrite (proj2 (Nat.ltb_lt _ _)) by done.
    rewrite Hm. cbn [usub Nat.leb mbind outcome_bind Nat.sub Nat.min].
    pose proof (header_seq q ts (last && (offset + 0 =? length nalu))) as Hs.
    destruct (header _ _ _) as [q' h]. cbn [fst] in Hs. rewrite Nat.add_0_r, slice_ok by lia.
    cbn [mbind outcome_bind]. apply IH. by rewrite Hs.
Qed.

Lemma h264_small_mtu_witness :
  packetize_h264_nalu (with_payload_mtu rtp_demo 1) [0x65; 1]%Z 0 true [] = Panic.
Proof. exact (proj1 (h264_small_mtu rtp_demo [0x65; 1]%Z 0 true) ltac:(simpl; lia)). Defined.
