(* ===== verification/RtpSend.v ===== *)
(** * RtpSend: the RTP sender service

    The second half of [crates/core/src/rtp.rs]: [RtpSenderManager], the
    per-sender state and [send_frame].  Sockets are not modelled: a send is a
    packet appended to a list (RFC 4571 framing for TCP), its failure an
    oracle.  The MPEG-TS muxer is injected by another crate
    ([RtpMuxerFactory]); it is a parameter here. *)

From S2P Require Import Prelude Frame AnnexB Payload PsDemux PsMux Rtp.
From stdpp Require Import pretty.

Inductive RtpDataType : Type := Es | Ps | Ts.

#[global] Instance RtpDataType_eq_dec : EqDecision RtpDataType.
Proof. solve_decision. Defined.

Definition data_type_try_from (value : Z) : result RtpDataType :=
  if (value =? 0)%Z then Ok Es else
  if (value =? 1)%Z then Ok Ps else
  if (value =? 2)%Z then Ok Ts else
  Err (Anyhow "RTP data type must be 0 (ES), 1 (PS), or 2 (TS)").

Record RtpSendRequest : Type := {
  vhost : string;
  app : string;
  stream : string;
  req_ssrc : Z;
  dst_host : string;
  dst_port : Z;
  src_port : Z;
  req_payload_type : Z;
  is_udp : bool;
  data_type : RtpDataType;
  only_audio : bool;
  passive : bool;
  ssrc_multi_send : bool
}.

Definition bool_str (b : bool) : string := if b then "true" else "false".

Definition sender_key (r : RtpSendRequest) : string :=
  let base := vhost r +:+ "/" +:+ app r +:+ "/" +:+ stream r +:+ "/" +:+ pretty (req_ssrc r) in
  if ssrc_multi_send r
  then base +:+ "/" +:+ dst_host r +:+ ":" +:+ pretty (dst_port r) +:+ ":" +:+
       pretty (src_port r) +:+ ":" +:+ bool_str (passive r)
  else base.

(** ** What a sender selects *)

Definition is_h26x_track (t : TrackInfo) : bool :=
  match t with TrackVideo v => bool_decide (video_codec v = H264 \/ video_codec v = H265) | _ => false end.

Definition is_audio_track (t : TrackInfo) : bool :=
  match t with TrackAudio _ => true | _ => false end.

Definition preferred_type (r : RtpSendRequest) (tracks : list TrackInfo) : option FrameType :=
  if only_audio r then Some Audio
  else if existsb is_h26x_track tracks then Some Video
  else if existsb is_audio_track tracks then Some Audio
  else None.

Fixpoint audio_clock_of (tracks : list TrackInfo) : Z :=
  match tracks with
  | [] => 8000
  | TrackAudio a :: _ => Z.max (audio_sample_rate a) 1
  | _ :: ts => audio_clock_of ts
  end.

Section sender.
Context {X : Type} (ext_mux : X -> MediaFrame -> X * result bytes).

Record RtpSendState : Type := {
  preferred_frame_type : option FrameType;
  audio_clock : Z;
  selected_track : option Z;
  packetizer : option RtpPacketizer;
  ps_muxer : option PsMuxer;
  external_muxer : option X
}.

Definition initial_state (r : RtpSendRequest) (tracks : list TrackInfo) (ext : option X) : RtpSendState :=
  {| preferred_frame_type := preferred_type r tracks;
     audio_clock := audio_clock_of tracks;
     selected_track := None;
     packetizer :=
       match data_type r with
       | Es => None
       | Ps => Some (packetizer_new (req_ssrc r) (req_payload_type r) 90000)
       | Ts => Some (with_payload_mtu (packetizer_new (req_ssrc r) (req_payload_type r) 90000) (188 * 7))
       end;
     ps_muxer := if bool_decide (data_type r = Ps) then Some (muxer_new tracks) else None;
     external_muxer := ext |}.

Definition set_packetizer (s : RtpSendState) (p : RtpPacketizer) : RtpSendState :=
  {| preferred_frame_type := preferred_frame_type s; audio_clock := audio_clock s;
     selected_track := selected_track s; packetizer := Some p; ps_muxer := ps_muxer s;
     external_muxer := external_muxer s |}.
Definition set_muxers (s : RtpSendState) (m : option PsMuxer) (e : option X) : RtpSendState :=
  {| preferred_frame_type := preferred_frame_type s; audio_clock := audio_clock s;
     selected_track := selected_track s; packetizer := packetizer s; ps_muxer := m;
     external_muxer := e |}.
Definition select_track (s : RtpSendState) (track : Z) (p : RtpPacketizer) : RtpSendState :=
  {| preferred_frame_type := preferred_frame_type s; audio_clock := audio_clock s;
     selected_track := Some track; packetizer := Some p; ps_muxer := ps_muxer s;
     external_muxer := external_muxer s |}.

(** [.expect(..).packetize_payload(&payload, frame.timestamp)] *)
Definition send_muxed (s : RtpSendState) (r : result bytes) (frame : MediaFrame) :
    RtpSendState * result (list bytes) :=
  match r with
  | Ok payload =>
      match packetizer s with
      | Some p =>
          let '(p, packets) := packetize_payload p payload (timestamp frame) in
          (set_packetizer s p, Ok packets)
      | None => (s, Panic)
      end
  | Err e => (s, Err e)
  | Panic => (s, Panic)
  | NoFuel => (s, NoFuel)
  end.

Definition ps_supported (c : CodecId) : bool :=
  match c with H264 | H265 | AAC | G711A | G711U | Mp3 | MP2A => true | _ => false end.

Definition es_supported (f : MediaFrame) : bool :=
  match frame_type f with
  | Video => bool_decide (codec f = H264 \/ codec f = H265)
  | Audio => match codec f with AAC | Opus | G711A | G711U | Mp3 | MP2A | L16 => true | _ => false end
  | Metadata => false
  end.

(** [send_frame] up to [send_packets]: the packets it hands to the
    transport. *)
Definition frame_to_packets (r : RtpSendRequest) (frame : MediaFrame) (s : RtpSendState) :
    RtpSendState * result (list bytes) :=
  match external_muxer s with
  | Some x =>
      let '(x, payload) := ext_mux x frame in
      send_muxed (set_muxers s (ps_muxer s) (Some x)) payload frame
  | None =>
      match ps_muxer s with
      | Some m =>
          if negb (ps_supported (codec frame)) || bool_decide (frame_type frame = Metadata)
          then (s, Ok [])
          else
            let '(m, payload) := mux_frame m frame in
            send_muxed (set_muxers s (Some m) None) payload frame
      | None =>
          let eligible := es_supported frame &&
            match preferred_frame_type s with
            | Some ft => bool_decide (frame_type frame = ft)
            | None => true
            end in
          let other := match selected_track s with
                       | Some track => negb (track =? track_id frame)%Z
                       | None => false
                       end in
          if negb eligible || other then (s, Ok []) else
          let s :=
            match selected_track s with
            | None =>
                let clock_rate :=
                  if bool_decide (frame_type frame = Video) then 90000%Z
                  else if bool_decide (codec frame = Opus) then 48000%Z
                  else audio_clock s in
                select_track s (track_id frame)
                  (packetizer_new (req_ssrc r) (req_payload_type r) clock_rate)
            | Some _ => s
            end in
          match packetizer s with
          | None => (s, Panic)
          | Some p =>
              match packetize p frame with
              | Ok (p, packets) => (set_packetizer s p, Ok packets)
              | Err e => (s, Err e)
              | Panic => (s, Panic)
              | NoFuel => (s, NoFuel)
              end
          end
      end
  end.
End sender.

(** [write_tcp_packet]: RFC 4571 framing. *)
Definition tcp_frame (packet : bytes) : result bytes :=
  if (zlen packet <? 65536)%Z then Ok (to_be 2 (zlen packet) ++ packet)
  else Err (Anyhow "RTP packet exceeds RFC 4571 frame size").

(** [send_packets]: [ok packet] says whether the transport takes the packet
    before the sender is stopped; the two counters. *)
Fixpoint send_packets (ok : bytes -> bool) (counters : Z * Z) (packets : list bytes) :
    (Z * Z) * result unit :=
  match packets with
  | [] => (counters, Ok tt)
  | packet :: rest =>
      if ok packet
      then send_packets ok (u64 (counters.1 + 1), u64 (counters.2 + zlen packet)) rest
      else (counters, Err (Anyhow "RTP sender stopped"))
  end.

(** ** MPEG-PS over RTP, end to end *)

Section ps.
Context {X : Type} (ext_mux : X -> MediaFrame -> X * result bytes).

(** The frames of a stream, until the first error. *)
Fixpoint send_stream (r : RtpSendRequest) (s : RtpSendState) (frames : list MediaFrame) :
    result (list bytes) :=
  match frames with
  | [] => Ok []
  | f :: fs =>
      let '(s, res) := frame_to_packets ext_mux r f s in
      packets ← res;
      rest ← send_stream r s fs;
      Ok (packets ++ rest)
  end.

(** The frames the PS branch does not skip. *)
Definition ps_frame (f : MediaFrame) : bool :=
  ps_supported (codec f) && negb (bool_decide (frame_type f = Metadata)).

Lemma ps_stream_bytes r frames s m p packets :
  external_muxer s = None -> ps_muxer s = Some m -> packetizer s = Some p ->
  seq_ok p -> 0 < mtu p ->
  send_stream r s frames = Ok packets ->
  concat (drop 12 <$> packets) = concat (mux_frames m (List.filter ps_frame frames)).1 /\
  Forall (fun b => length b <= mtu p) (drop 12 <$> packets).
Proof.
  revert s m p packets. induction frames as [|f fs IH]; intros s m p packets He Hm Hp Hs Hmtu Hsend.
  { simplify_eq/=. split; [done|constructor]. }
  cbn [send_stream] in Hsend. unfold frame_to_packets in Hsend. rewrite He, Hm in Hsend.
  cbn [List.filter]. unfold ps_frame at 1.
  destruct (ps_supported (codec f)); cbn [negb orb andb] in *.
  2: { destruct (send_stream r s fs) as [rest| | |] eqn:Hrest; simplify_eq/=. by eapply IH. }
  case_bool_decide; cbn [negb] in *.
  { destruct (send_stream r s fs) as [rest| | |] eqn:Hrest; simplify_eq/=. by eapply IH. }
  cbn [mux_frames]. destruct (mux_frame m f) as [m' res] eqn:Hmux. unfold send_muxed in Hsend.
  destruct res as [payload| | |]; cbn [mbind outcome_bind] in Hsend; try done.
  cbn [set_muxers packetizer] in Hsend. rewrite Hp in Hsend.
  rewrite packetize_payload_emit in Hsend by done. cbv zeta in Hsend.
  destruct (payload_units_shape (mtu p) payload Hmtu) as (H1 & H2 & _ & _).
  set (l := payload_units (mtu p) payload) in *. cbn [mbind outcome_bind] in Hsend.
  destruct (send_stream _ _ fs) as [rest| | |] eqn:Hrest; simplify_eq/=.
  apply (IH _ m' (advance_seq p (length l))) in Hrest as [HI1 HI2];
    [|done|done|done|apply Z.mod_pos_bound; lia|done].
  rewrite fmap_app, concat_app, emit_payloads, H1, HI1.
  destruct (mux_frames m' _) as [outs pkts]. split; [done|]. apply Forall_app. split; [|done].
  by apply Forall_fmap.
Qed.

Lemma initial_ps r tracks :
  data_type r = Ps ->
  exists p, packetizer (initial_state (X := X) r tracks None) = Some p /\
    ps_muxer (initial_state (X := X) r tracks None) = Some (muxer_new tracks) /\
    seq_ok p /\ mtu p = DEFAULT_MTU.
Proof.
  intros Hd. unfold initial_state. rewrite Hd. eexists. split; [done|]. split; [done|].
  split; [|done]. unfold seq_ok, is_u16, packetizer_new. simpl. lia.
Qed.

(** MPEG-PS over RTP (the GB28181 path) is lossless end to end: when a PS
    sender sends a stream of frames without error, the RTP payloads, given
    packet by packet to the receiver's demuxer, yield exactly the PES packets
    of the frames the sender does not skip, in order, with nothing left in
    the buffer. *)
Theorem ps_over_rtp_lossless r tracks frames packets max :
  data_type r = Ps ->
  send_stream r (initial_state r tracks None) frames = Ok packets ->
  DEFAULT_MTU + MAX_ENTITY <= max ->
  exists d, receive_all (demuxer_with max) (drop 12 <$> packets) =
    Ok (d, (mux_frames (muxer_new tracks) (List.filter ps_frame frames)).2) /\ buf d = [].
Proof.
  intros Hd Hsend Hmax. destruct (initial_ps r tracks Hd) as (p & Hp & Hm & Hs & Hmtu).
  destruct (ps_stream_bytes r frames (initial_state r tracks None) (muxer_new tracks) p packets) as [H1 H2];
    try done; [rewrite Hmtu; unfold DEFAULT_MTU; lia|].
  destruct (mux_frames (muxer_new tracks) (List.filter ps_frame frames)) as [outs pkts] eqn:Hmux.
  destruct (mux_frames_ents _ _ _ _ (muxer_new_inv tracks) Hmux) as (ents & E1 & E2 & E3 & E4).
  eexists. rewrite (receive_all_stream MAX_ENTITY ents); [by subst|done|done| |by rewrite H1].
  eapply Forall_impl; [exact H2|]. intros b Hb. cbv beta in *. rewrite Hmtu in Hb. lia.
Qed.
End ps.

Definition no_mux (x : unit) (f : MediaFrame) : unit * result bytes := (x, Ok []).

Definition demo_request : RtpSendRequest :=
  {| vhost := "v"; app := "a"; stream := "s"; req_ssrc := 1; dst_host := "h"; dst_port := 9;
     src_port := 0; req_payload_type := 96; is_udp := true; data_type := Ps; only_audio := false;
     passive := false; ssrc_multi_send := false |}.

Lemma ps_over_rtp_lossless_witness :
  exists packets d, send_stream no_mux demo_request (initial_state demo_request [] None) [demo_frame] = Ok packets /\
    length packets = 1 /\
    receive_all (demuxer_with (Z.to_nat 70000)) (drop 12 <$> packets) =
    Ok (d, (mux_frames (muxer_new []) [demo_frame]).2).
Proof.
  assert (exists packets, send_stream no_mux demo_request (initial_state demo_request [] None) [demo_frame] =
    Ok packets /\ length packets = 1) as (packets & Hs & Hl)
    by (eexists; split; vm_compute; reflexivity).
  destruct (ps_over_rtp_lossless no_mux demo_request [] [demo_frame] packets (Z.to_nat 70000) eq_refl Hs
    ltac:(unfold MAX_ENTITY, MAX_PES_PAYLOAD, DEFAULT_MTU; lia)) as (d & Hd & _).
  exists packets, d. split; [exact Hs|]. split; [exact Hl|exact Hd].
Defined.

(** ** RtpSenderManager: the registry of senders

    [start] tests the key, then awaits (name resolution, sockets, the track
    list), then inserts: the test and the insertion are separate steps.  A
    sender's task ends at any time and removes its entry only if the entry
    still carries its token. *)

Record RtpSenderEntry : Type := {
  entry_token : nat;
  entry_request : RtpSendRequest;
  entry_stopped : bool
}.

Record Manager : Type := {
  (** [active]: the entry stored under each key is that of a task. *)
  active : gmap string nat;
  (** every task started and not yet finished, by token. *)
  senders : gmap nat RtpSenderEntry;
  (** calls to [start] that have passed the key test. *)
  pending : list RtpSendRequest;
  (** [Uuid::new_v4]: tokens never repeat. *)
  next_token : nat
}.

Definition manager_new : Manager :=
  {| active := ∅; senders := ∅; pending := []; next_token := 0 |}.

(** The guards of [start] that do not await; [configured] says whether a TS
    muxer factory is set, [found] whether the source exists. *)
Definition start_guards (configured found : bool) (m : Manager) (r : RtpSendRequest) : result unit :=
  if bool_decide (data_type r = Ts) && negb configured
  then Err (Anyhow "TS-over-RTP muxer is not configured") else
  if negb (passive r) && (dst_port r =? 0)%Z
  then Err (Anyhow "dst_port must be greater than zero") else
  if passive r && is_udp r
  then Err (Anyhow "passive UDP RTP sending is not implemented; use TCP passive mode") else
  if negb found then Err (Anyhow "media source not found") else
  if bool_decide (is_Some (active m !! sender_key r))
  then Err (Anyhow "RTP sender already exists for this stream and SSRC")
  else Ok tt.

Definition start_begin (m : Manager) (r : RtpSendRequest) : Manager :=
  {| active := active m; senders := senders m; pending := pending m ++ [r]; next_token := next_token m |}.

(** The rest of [start], once the transport exists: insert and spawn. *)
Definition start_commit (m : Manager) (i : nat) (r : RtpSendRequest) : Manager :=
  {| active := <[sender_key r := next_token m]> (active m);
     senders := <[next_token m := {| entry_token := next_token m; entry_request := r; entry_stopped := false |}]>
                  (senders m);
     pending := delete i (pending m);
     next_token := S (next_token m) |}.

(** [stop(vhost, app, stream, ssrc)]. *)
Definition stop_matches (vh ap st : string) (ss : option Z) (r : RtpSendRequest) : bool :=
  bool_decide (vhost r = vh) && bool_decide (app r = ap) && bool_decide (stream r = st) &&
  match ss with Some v => (req_ssrc r =? v)%Z | None => true end.

Definition active_matches (m : Manager) (vh ap st : string) (ss : option Z) (tok : nat) : bool :=
  match senders m !! tok with
  | Some e => stop_matches vh ap st ss (entry_request e)
  | None => false
  end.

Definition mark_stopped (e : RtpSenderEntry) : RtpSenderEntry :=
  {| entry_token := entry_token e; entry_request := entry_request e; entry_stopped := true |}.

Definition stop (m : Manager) (vh ap st : string) (ss : option Z) : Manager * nat :=
  let hit := filter (fun kt => active_matches m vh ap st ss kt.2) (map_to_list (active m)) in
  (foldr (fun kt m => {| active := delete kt.1 (active m);
                         senders := alter mark_stopped kt.2 (senders m);
                         pending := pending m; next_token := next_token m |}) m hit,
   length hit).

(** The end of a sender's task. *)
Definition task_exit (m : Manager) (tok : nat) : Manager :=
  match senders m !! tok with
  | None => m
  | Some e =>
      let key := sender_key (entry_request e) in
      {| active := if bool_decide (active m !! key = Some tok) then delete key (active m) else active m;
         senders := delete tok (senders m); pending := pending m; next_token := next_token m |}
  end.

Inductive manager_step : Manager -> Manager -> Prop :=
| StepBegin m r configured found :
    start_guards configured found m r = Ok tt -> manager_step m (start_begin m r)
| StepCommit m i r : pending m !! i = Some r -> manager_step m (start_commit m i r)
| StepAbort m i r : pending m !! i = Some r ->
    manager_step m {| active := active m; senders := senders m; pending := delete i (pending m);
                      next_token := next_token m |}
| StepStop m vh ap st ss : manager_step m (stop m vh ap st ss).1
| StepExit m tok : manager_step m (task_exit m tok).

Inductive manager_reachable : Manager -> Prop :=
| reach_new : manager_reachable manager_new
| reach_step m m' : manager_reachable m -> manager_step m m' -> manager_reachable m'.

(** Every registered sender is a live task of that key, not stopped. *)
Definition registry_inv (m : Manager) : Prop :=
  (forall k tok, active m !! k = Some tok ->
     exists e, senders m !! tok = Some e /\ entry_token e = tok /\ entry_stopped e = false /\
               sender_key (entry_request e) = k) /\
  (forall tok, is_Some (senders m !! tok) -> tok < next_token m).

(** One removal of [stop]. *)
Definition stop_one (kt : string * nat) (m : Manager) : Manager :=
  {| active := delete kt.1 (active m); senders := alter mark_stopped kt.2 (senders m);
     pending := pending m; next_token := next_token m |}.

Definition owns (m : Manager) (kt : string * nat) : Prop :=
  forall e, senders m !! kt.2 = Some e -> sender_key (entry_request e) = kt.1.

Lemma stop_one_senders kt m tok e :
  senders (stop_one kt m) !! tok = Some e ->
  exists e0, senders m !! tok = Some e0 /\ entry_request e = entry_request e0 /\
    entry_token e = entry_token e0 /\ (tok <> kt.2 -> e = e0).
Proof.
  cbn [stop_one senders]. destruct (decide (tok = kt.2)) as [->|Hne].
  - rewrite lookup_alter_eq. intros (e0 & -> & ->)%fmap_Some_1. by exists e0.
  - rewrite lookup_alter_ne by done. intros ->. by exists e.
Qed.

Lemma stop_one_owns kt kt' m : owns m kt' -> owns (stop_one kt m) kt'.
Proof. intros Ho e (e0 & He0 & -> & _)%stop_one_senders. by apply Ho. Qed.

Lemma stop_one_inv kt m : owns m kt -> registry_inv m -> registry_inv (stop_one kt m).
Proof.
  intros Ho [Ha Ht]. split.
  - intros k tok. cbn [stop_one active]. intros [Hk Hl]%lookup_delete_Some.
    destruct (Ha k tok Hl) as (e & He & Htok & Hstop & Hkey). exists e.
    cbn [stop_one senders]. rewrite lookup_alter_ne; [done|].
    intros Heq. apply Hk. rewrite <-Hkey. symmetry. apply Ho. by rewrite Heq.
  - intros tok [e (e0 & He0 & _)%stop_one_senders]. apply Ht. by rewrite He0.
Qed.

Lemma active_owns m kt : registry_inv m -> kt ∈ map_to_list (active m) -> owns m kt.
Proof.
  intros [Ha _] Hin e He. destruct kt as [k tok]. apply elem_of_map_to_list in Hin.
  destruct (Ha k tok Hin) as (e' & He' & _ & _ & Hk). cbn [snd fst] in *. congruence.
Qed.

Lemma stop_fold_inv hit m :
  Forall (owns m) hit -> registry_inv m -> registry_inv (foldr stop_one m hit).
Proof.
  intros Hh Hm. enough (registry_inv (foldr stop_one m hit) /\ forall kt, owns m kt -> owns (foldr stop_one m hit) kt)
    as [? _] by done.
  induction Hh as [|kt hit Hkt Hh IH]; [done|]. destruct (IH) as [IH1 IH2].
  cbn [foldr]. split.
  - apply stop_one_inv; auto.
  - intros kt' Hkt'. by apply stop_one_owns, IH2.
Qed.

Lemma stop_inv m vh ap st ss : registry_inv m -> registry_inv (stop m vh ap st ss).1.
Proof.
  intros Hm. unfold stop. cbn [fst]. apply stop_fold_inv; [|done].
  apply Forall_forall. intros kt [_ Hin]%list_elem_of_filter. by apply active_owns.
Qed.

Lemma manager_step_inv m m' : registry_inv m -> manager_step m m' -> registry_inv m'.
Proof.
  intros Hm Hs. pose proof Hm as [Ha Ht].
  destruct Hs as [m r cfg found _|m i r Hp|m i r Hp|m vh ap st ss|m tok]; [done| |done|by apply stop_inv|].
  - split; cbn [start_commit active senders next_token].
    + intros k tok [[<- <-]|[Hk Hl]]%lookup_insert_Some.
      * eexists. rewrite lookup_insert_eq. by split_and!.
      * destruct (Ha k tok Hl) as (e & He & Hrest). exists e. split; [|done].
        rewrite lookup_insert_ne; [done|]. intros <-. specialize (Ht (next_token m)).
        rewrite He in Ht. pose proof (Ht ltac:(by eexists)). lia.
    + intros tok [e [[<- _]|[_ He]]%lookup_insert_Some]; [lia|].
      specialize (Ht tok). rewrite He in Ht. pose proof (Ht ltac:(by eexists)). lia.
  - unfold task_exit. destruct (senders m !! tok) as [e|] eqn:He; [|done].
    split; cbn [active senders next_token].
    + intros k tok' Hk.
      assert (active m !! k = Some tok' /\ (tok' = tok -> False)) as [Hl Hne].
      { case_bool_decide as Hcur.
        - apply lookup_delete_Some in Hk as [Hk Hl]. split; [done|]. intros ->. apply Hk.
          destruct (Ha k tok Hl) as (e' & He' & _ & _ & Hkey). congruence.
        - split; [done|]. intros ->. destruct (Ha k tok Hk) as (e' & He' & _ & _ & Hkey).
          apply Hcur. by simplify_eq. }
      destruct (Ha k tok' Hl) as (e' & He' & Hrest). exists e'. split; [|done].
      by rewrite lookup_delete_ne by congruence.
    + intros tok' [e' [_ He']%lookup_delete_Some]. apply Ht. by rewrite He'.
Qed.

Lemma reachable_inv m : manager_reachable m -> registry_inv m.
Proof.
  induction 1 as [|m m' _ IH Hs]; [|by eapply manager_step_inv].
  split; cbn [manager_new active senders]; intros *; rewrite lookup_empty; [done|by intros [? ?]].
Qed.

(** [stop] touches only the registered senders. *)
Lemma stop_unregistered m vh ap st ss tok :
  (forall k, active m !! k <> Some tok) ->
  senders (stop m vh ap st ss).1 !! tok = senders m !! tok.
Proof.
  intros Hun. unfold stop. cbn [fst].
  set (hit := filter _ _).
  assert (Forall (fun kt => kt.2 <> tok) hit) as Hh.
  { apply Forall_forall. intros [k t] [_ Hin]%list_elem_of_filter.
    apply elem_of_map_to_list in Hin. cbn [snd]. intros ->. by eapply Hun. }
  clearbody hit. induction Hh as [|kt hit Hkt _ IH]; [done|]. cbn [foldr senders].
  rewrite lookup_alter_ne by done. exact IH.
Qed.

Lemma stop_active_sub m vh ap st ss k tok :
  active (stop m vh ap st ss).1 !! k = Some tok ->
  active m !! k = Some tok /\ active_matches m vh ap st ss tok = false.
Proof.
  unfold stop. cbn [fst]. intros Hk.
  set (hit := filter (fun kt => active_matches m vh ap st ss kt.2) (map_to_list (active m))) in *.
  assert (active m !! k = Some tok /\ k ∉ hit.*1) as [Hl Hnot].
  { clearbody hit. induction hit as [|kt hit IH]; [split; [done|set_solver]|].
    cbn [foldr active] in Hk. apply lookup_delete_Some in Hk as [Hne Hk].
    destruct (IH Hk). split; [done|]. rewrite fmap_cons. apply not_elem_of_cons. by split. }
  split; [done|]. destruct (active_matches m vh ap st ss tok) eqn:Hm; [|done]. destruct Hnot.
  apply list_elem_of_fmap. exists (k, tok). split; [done|]. apply list_elem_of_filter.
  cbn [snd]. rewrite Hm. split; [done|]. by apply elem_of_map_to_list.
Qed.

(** The sender registry is consistent in every reachable state: each key
    leads to a live task of that key which has not been told to stop; the end
    of one task never unregisters another; and after [stop] no registered
    sender matches the request. *)
Theorem sender_registry m :
  manager_reachable m ->
  registry_inv m /\
  (forall tok k tok', tok <> tok' -> active m !! k = Some tok' -> active (task_exit m tok) !! k = Some tok') /\
  (forall vh ap st ss k tok, active (stop m vh ap st ss).1 !! k = Some tok ->
     active m !! k = Some tok /\ active_matches m vh ap st ss tok = false).
Proof.
  intros Hr. pose proof (reachable_inv m Hr) as Hm. split; [done|]. split.
  - intros tok k tok' Hne Hk. unfold task_exit. destruct (senders m !! tok) as [e|]; [|done].
    cbn [active]. case_bool_decide as Hcur; [|done].
    rewrite lookup_delete_ne; [done|]. intros <-. congruence.
  - intros. by apply stop_active_sub.
Qed.

Lemma sender_registry_witness :
  registry_inv (start_commit (start_begin manager_new demo_request) 0 demo_request).
Proof.
  apply (sender_registry (start_commit (start_begin manager_new demo_request) 0 demo_request)).
  eapply reach_step; [eapply reach_step; [apply reach_new|]|].
  - apply (StepBegin manager_new demo_request false true). reflexivity.
  - apply StepCommit. reflexivity.
Defined.

(** Two concurrent [start] calls for the same key can both pass the
    "already exists" test; the second insertion then hides the first sender,
    which stays alive but can no longer be stopped: no call to [stop] reaches
    it. *)
Theorem sender_start_race :
  exists m tok e, manager_reachable m /\ senders m !! tok = Some e /\ entry_stopped e = false /\
    forall vh ap st ss, senders (stop m vh ap st ss).1 !! tok = Some e.
Proof.
  set (m0 := start_begin (start_begin manager_new demo_request) demo_request).
  set (m1 := start_commit m0 0 demo_request). set (m2 := start_commit m1 0 demo_request).
  exists m2, 0, {| entry_token := 0; entry_request := demo_request; entry_stopped := false |}.
  split; [|split; [reflexivity|split; [done|]]].
  - eapply reach_step; [eapply reach_step; [eapply reach_step; [eapply reach_step; [apply reach_new|]|]|]|].
    + apply (StepBegin manager_new demo_request false true). reflexivity.
    + apply (StepBegin _ demo_request false true). reflexivity.
    + apply (StepCommit m0 0). reflexivity.
    + apply (StepCommit m1 0). reflexivity.
  - intros. rewrite stop_unregistered; [reflexivity|]. intros k.
    change (active m2) with (<[sender_key demo_request := 1]> (<[sender_key demo_request := 0]> (∅ : gmap string nat))).
    rewrite insert_insert_eq. intros [[_ ?]|[_ ?]]%lookup_insert_Some; [done|].
    by rewrite lookup_empty in *.
Qed.
