(* ===== verification/Stream.v ===== *)
(** * Stream: incremental parsers

    Several demuxers keep a byte buffer, append what the network delivers and
    extract complete messages.  This file states once what makes such a parser
    independent of how the bytes were cut: a class with two laws, and the
    theorem the clients use.  A parser may drop bytes before it knows whether
    a message is complete, so buffers are compared by an equivalence: two
    buffers are equivalent when the parser cannot tell them apart, whatever
    follows. *)

From S2P Require Import Prelude Frame.

(** [parse b]: the buffer after the call, and the message if one was complete. *)
Definition parser (A : Type) : Type := bytes -> result (bytes * option A).

Section equiv.
Context {A : Type} (parse : parser A).

Definition buf_equiv (b p : bytes) : Prop := forall r, parse (b ++ r) = parse (p ++ r).

#[global] Instance buf_equiv_equivalence : Equivalence buf_equiv.
Proof.
  split.
  - by intros b r.
  - by intros b p H r.
  - by intros b p q H1 H2 r; rewrite H1.
Qed.

(** Appending the same bytes keeps buffers equivalent. *)
#[global] Instance app_proper : Proper (buf_equiv ==> eq ==> buf_equiv) (@app Z).
Proof. intros b p H r ? <- s. rewrite <-!app_assoc. apply H. Qed.

Lemma buf_equiv_parse b p : buf_equiv b p -> parse b = parse p.
Proof. intros H. specialize (H []). by rewrite !app_nil_r in H. Qed.
End equiv.

(** What a buffering parser promises. *)
Class Incremental {A} (parse : parser A) : Prop := {
  (** a call that finds no message leaves an equivalent buffer; *)
  parse_resume : forall b b', parse b = Ok (b', None) -> buf_equiv parse b' b;
  (** a call that finds one consumes bytes. *)
  parse_shrink : forall b b' a, parse b = Ok (b', Some a) -> length b' < length b
}.

Section client.
Context {A : Type} (parse : parser A).

(** [while let Some(a) = parser.parse()] *)
Definition drain_parser (b : bytes) : result (bytes * list A) :=
  loop (S (length b)) (fun '(b, acc) =>
    '(b, r) ← parse b;
    Ok (match r with Some a => inl (b, acc ++ [a]) | None => inr (b, acc) end)) (b, []).

(** [parser.feed(chunk); while let ...] for each chunk. *)
Fixpoint feed_all (b : bytes) (chunks : list bytes) : result (bytes * list A) :=
  match chunks with
  | [] => Ok (b, [])
  | c :: cs =>
      '(b, l) ← drain_parser (b ++ c);
      '(b, l') ← feed_all b cs;
      Ok (b, l ++ l')
  end.

(** [u] is the encoding of message [a]: recognised when complete, whatever
    follows, and not earlier. *)
Definition message_ok (u : bytes) (a : A) : Prop :=
  (forall rest, parse (u ++ rest) = Ok (rest, Some a)) /\
  (forall q r, u = q ++ r -> r <> [] -> exists q', parse q = Ok (q', None)).

Context `{!Incremental parse}.

Definition messages (us : list (bytes * A)) : bytes := concat (fst <$> us).

Lemma messages_app us vs : messages (us ++ vs) = messages us ++ messages vs.
Proof. unfold messages. by rewrite fmap_app, concat_app. Qed.

Lemma message_nonempty u a : message_ok u a -> u <> [].
Proof.
  intros [Hu _] ->. specialize (Hu []). simpl in Hu. apply parse_shrink in Hu. simpl in Hu. lia.
Qed.

(** The pending bytes are a strict prefix of the next message. *)
Definition pending_prefix (p : bytes) (us : list (bytes * A)) : Prop :=
  match us with
  | [] => p = []
  | (u, _) :: _ => exists r, r <> [] /\ u = p ++ r
  end.

Lemma pending_stop p us :
  parse [] = Ok ([], None) -> Forall (fun ua => message_ok ua.1 ua.2) us -> pending_prefix p us ->
  exists q, parse p = Ok (q, None).
Proof.
  intros Hnil Hok Hp. destruct us as [|[u a] us]; simpl in Hp; [subst; eauto|].
  destruct Hp as (r & Hr & ->). inv Hok as [|? ? [_ Hq] _]. cbn [fst snd] in Hq. eauto.
Qed.

Lemma drain_messages us fuel b p future acc :
  parse [] = Ok ([], None) ->
  Forall (fun ua => message_ok ua.1 ua.2) us -> buf_equiv parse b p -> p ++ future = messages us ->
  length b < fuel ->
  exists us1 us2 b' p',
    us = us1 ++ us2 /\
    loop fuel (fun '(b, acc) =>
      '(b, r) ← parse b;
      Ok (match r with Some a => inl (b, acc ++ [a]) | None => inr (b, acc) end)) (b, acc) =
    (Ok (b', acc ++ (snd <$> us1)) : result (bytes * list A)) /\
    p = messages us1 ++ p' /\ buf_equiv parse b' p' /\ pending_prefix p' us2.
Proof.
  intros Hnil Hok. revert fuel b p acc. induction us as [|[u a] us IH]; intros fuel b p acc Hb Hp Hf.
  - apply app_eq_nil in Hp as [-> _]. destruct fuel as [|fuel]; [lia|].
    exists [], [], [], []. cbn [loop]. rewrite (buf_equiv_parse _ _ _ Hb), Hnil. cbn.
    split_and!; try done. by rewrite app_nil_r.
  - inv Hok as [|? ? Hu Hok']. cbn [fst snd] in Hu.
    change (messages ((u, a) :: us)) with (u ++ messages us) in Hp.
    destruct (decide (length u <= length p)) as [Hle|Hgt].
    + assert (exists rest, p = u ++ rest) as [rest ->].
      { exists (drop (length u) p). apply (f_equal (take (length u))) in Hp.
        rewrite take_app_le, take_app_length in Hp by done. rewrite <-Hp at 1. by rewrite take_drop. }
      rewrite <-app_assoc in Hp. apply app_inv_head in Hp.
      pose proof (buf_equiv_parse _ _ _ Hb) as Hpb. rewrite (proj1 Hu rest) in Hpb.
      pose proof (parse_shrink _ _ _ Hpb) as Hsh. destruct fuel as [|fuel]; [lia|].
      destruct (IH Hok' fuel rest rest (acc ++ [a]) ltac:(done) Hp ltac:(lia)) as
        (us1 & us2 & b' & p' & -> & Hl & -> & Hb' & Hp').
      exists ((u, a) :: us1), us2, b', p'. split_and!; [done| | |done|done].
      * cbn [loop]. rewrite Hpb. cbn [mbind outcome_bind]. rewrite Hl. by rewrite <-app_assoc.
      * unfold messages. cbn. by rewrite app_assoc.
    + assert (exists r, r <> [] /\ u = p ++ r) as Hpart.
      { exists (drop (length p) u). split.
        - intros Hd%(f_equal length). rewrite length_drop in Hd. simpl in Hd. lia.
        - apply (f_equal (take (length p))) in Hp. rewrite take_app_length, take_app_le in Hp by lia.
          rewrite Hp at 1. by rewrite take_drop. }
      destruct (pending_stop p ((u, a) :: us)) as [q Hq]; [done|by constructor|done|].
      destruct fuel as [|fuel]; [lia|]. exists [], ((u, a) :: us), q, p.
      cbn [loop]. rewrite (buf_equiv_parse _ _ _ Hb), Hq. cbn.
      split_and!; try done; [by rewrite app_nil_r|by apply parse_resume].
Qed.

Lemma feed_all_messages us b p chunks future :
  parse [] = Ok ([], None) ->
  Forall (fun ua => message_ok ua.1 ua.2) us -> buf_equiv parse b p -> pending_prefix p us ->
  p ++ concat chunks ++ future = messages us ->
  exists us1 us2 b' p', us = us1 ++ us2 /\ feed_all b chunks = Ok (b', snd <$> us1) /\
    p ++ concat chunks = messages us1 ++ p' /\ buf_equiv parse b' p' /\ pending_prefix p' us2.
Proof.
  intros Hnil. revert us b p. induction chunks as [|c cs IH]; intros us b p Hok Hb Hpend Hp.
  { exists [], us, b, p. rewrite app_nil_r. split_and!; done. }
  cbn [feed_all concat] in *. unfold drain_parser.
  destruct (drain_messages us (S (length (b ++ c))) (b ++ c) (p ++ c) (concat cs ++ future) [] Hnil Hok)
    as (us1 & us2 & b' & p' & -> & Hl & Hp1 & Hb' & Hpend').
  { by rewrite Hb. }
  { by rewrite <-!app_assoc in *. }
  { lia. }
  rewrite Hl. cbn [mbind outcome_bind app]. apply Forall_app in Hok as [_ Hok2].
  destruct (IH us2 b' p' Hok2 Hb' Hpend') as (us3 & us4 & b2 & p2 & -> & Hf & Hp2 & Hb2 & Hpend2).
  { rewrite messages_app, <-!app_assoc, (app_assoc p), Hp1, <-app_assoc in Hp.
    by apply app_inv_head in Hp. }
  exists (us1 ++ us3), us4, b2, p2. rewrite Hf. cbn [mbind outcome_bind].
  rewrite messages_app, fmap_app. split_and!; [by rewrite app_assoc|done| |done|done].
  rewrite (app_assoc p), Hp1, <-!app_assoc. by rewrite Hp2.
Qed.

(** A stream of messages is parsed the same however it is cut. *)
Lemma feed_all_complete us chunks :
  parse [] = Ok ([], None) ->
  Forall (fun ua => message_ok ua.1 ua.2) us -> concat chunks = messages us ->
  exists b, feed_all [] chunks = Ok (b, snd <$> us) /\ buf_equiv parse b [].
Proof.
  intros Hnil Hok Hcat.
  assert (pending_prefix [] us) as Hpend.
  { destruct us as [|[u a] us]; [done|]. exists u. split; [|done].
    inv Hok as [|? ? Hu _]. by eapply message_nonempty. }
  destruct (feed_all_messages us [] [] chunks [] Hnil Hok ltac:(done) Hpend) as
    (us1 & us2 & b & p & -> & Hf & Hp & Hb & Hpend').
  { by rewrite app_nil_r. }
  exists b. rewrite Hf. simpl in Hp. rewrite Hcat, messages_app in Hp. apply app_inv_head in Hp.
  destruct us2 as [|[u a] us2].
  - simpl in Hpend'. subst p. rewrite app_nil_r. done.
  - destruct Hpend' as (r & Hr & Hu). unfold messages in Hp. simpl in Hp.
    apply (f_equal length) in Hp, Hu. rewrite length_app in Hp, Hu. destruct r; [done|].
    simpl in Hu. lia.
Qed.
End client.
