(* ===== verification/Flv.v ===== *)
(** * Flv: the FLV container

    [crates/flv/src/muxer.rs] and [demuxer.rs]: headers, tags and metadata
    written by [FlvMuxer], read incrementally by [FlvDemuxer].  The demuxer is
    an instance of the incremental parsers of [Stream]. *)

From S2P Require Import Prelude Frame AnnexB Payload Stream.

(** ** FlvMuxer *)

Record FlvMuxer : Type := { header_written : bool }.

Definition flv_muxer_new : FlvMuxer := {| header_written := false |}.

(** [b"FLV"], version 1, flags 5 (audio and video), header size 9 and the
    first PreviousTagSize. *)
Definition write_header (m : FlvMuxer) : FlvMuxer * bytes :=
  ({| header_written := true |},
   [0x46; 0x4C; 0x56; 0x01; 0x05]%Z ++ to_be 4 9 ++ to_be 4 0).

(** The layout shared by the tags: type, 24-bit size, 24-bit timestamp, the
    extended timestamp byte and the stream id left at 0, payload, tag size. *)
Definition tag_bytes (tag_type timestamp : Z) (payload : bytes) : bytes :=
  let data_size := u32 (zlen payload) in
  [tag_type; (data_size .>> 16) .& 0xFF; (data_size .>> 8) .& 0xFF; data_size .& 0xFF;
   (timestamp .>> 16) .& 0xFF; (timestamp .>> 8) .& 0xFF; timestamp .& 0xFF;
   0; 0; 0; 0]%Z ++ payload ++ to_be 4 (u32 (11 + data_size)).

Definition write_metadata_tag (frame : MediaFrame) : bytes :=
  tag_bytes 0x12 (timestamp frame .& 0x7FFFFFFF) (data frame).

Definition write_tag (frame : MediaFrame) : result bytes :=
  let tag_type := match frame_type frame with Video => 0x09 | Audio => 0x08 | Metadata => 0x12 end%Z in
  if bool_decide (frame_type frame = Metadata) then Ok (write_metadata_tag frame) else
  payload ← flv_payload frame;
  Ok (tag_bytes tag_type (timestamp frame .& 0x7FFFFFFF) payload).

(** [n as f64] for a [u32], as its bit pattern: exponent and mantissa of the
    exact value. *)
Definition u32_to_f64 (n : Z) : f64 :=
  if (n =? 0)%Z then 0%Z else
  let e := Z.log2 n in
  (((1023 + e) .<< 52) + ((n - 2 ^ e) .<< (52 - e)))%Z.

(** The properties of [write_metadata]: a value that parses as [f64] becomes a
    number, any other a string.  (["0"], ["7"] ... and decimal renderings of
    [u32] and of a finite [f64] parse back to the same number; ["true"] and
    the encoder name do not parse.) *)
Inductive MetaValue : Type := MetaNumber (bits : f64) | MetaString (s : bytes).

Definition str_bytes (s : string) : bytes :=
  (fun c => Z.of_nat (Ascii.nat_of_ascii c)) <$> String.list_ascii_of_string s.

Definition meta_properties (width height : Z) (fps : f64) (sample_rate : Z) (video_codec : CodecId) :
    list (bytes * MetaValue) :=
  let videocodecid := match video_codec with H265 => 12%Z | _ => 7%Z end in
  [(str_bytes "duration", MetaNumber (u32_to_f64 0));
   (str_bytes "width", MetaNumber (u32_to_f64 width));
   (str_bytes "height", MetaNumber (u32_to_f64 height));
   (str_bytes "framerate", MetaNumber fps);
   (str_bytes "videocodecid", MetaNumber (u32_to_f64 videocodecid));
   (str_bytes "audiocodecid", MetaNumber (u32_to_f64 10));
   (str_bytes "audiosamplerate", MetaNumber (u32_to_f64 sample_rate));
   (str_bytes "audiosamplesize", MetaNumber (u32_to_f64 16));
   (str_bytes "stereo", MetaString (str_bytes "true"));
   (str_bytes "encoder", MetaString (str_bytes "zlmediakit-rs"))].

Definition meta_property (kv : bytes * MetaValue) : bytes :=
  to_be 2 (u16 (zlen kv.1)) ++ kv.1 ++
  match kv.2 with
  | MetaNumber n => 0x00%Z :: to_be 8 n
  | MetaString s => 0x02%Z :: to_be 2 (u16 (zlen s)) ++ s
  end.

Definition metadata_amf (properties : list (bytes * MetaValue)) : bytes :=
  [0x02]%Z ++ to_be 2 10 ++ str_bytes "onMetaData" ++
  [0x08]%Z ++ to_be 4 (u32 (zlen properties)) ++
  concat (meta_property <$> properties) ++ [0x00; 0x00; 0x09]%Z.

Definition write_metadata (width height : Z) (fps : f64) (sample_rate : Z) (video_codec : CodecId) : bytes :=
  tag_bytes 0x12 0 (metadata_amf (meta_properties width height fps sample_rate video_codec)).

(** ** FlvDemuxer *)

Definition flv_feed (buffer data : bytes) : bytes := buffer ++ data.

Definition parse_header (buffer : bytes) : result (bytes * option bool) :=
  if length buffer <? 13 then Ok (buffer, None) else
  if negb (bool_decide (take 3 buffer = [0x46; 0x4C; 0x56]%Z)) then Ok (buffer, None) else
  flags ← idx buffer 4;
  b5 ← idx buffer 5; b6 ← idx buffer 6; b7 ← idx buffer 7; b8 ← idx buffer 8;
  let header_size := Z.to_nat (from_be [b5; b6; b7; b8]) in
  if (header_size <? 9) || (length buffer <? header_size) then Ok (buffer, None) else
  rest ← slice buffer header_size (length buffer);
  Ok (rest, Some (negb (flags .& 0x01 =? 0)%Z)).

Definition signed_i24 (high middle low : Z) : Z :=
  let value := (high .<< 16) .| (middle .<< 8) .| low in
  if negb (value .& 0x00800000 =? 0)%Z then value .| Z.lnot 0x00ffffff else value.

(** [u64::saturating_sub] and [saturating_add]. *)
Definition sat_sub (a b : Z) : Z := Z.max 0 (a - b).
Definition sat_add (a b : Z) : Z := Z.min (2 ^ 64 - 1) (a + b).

Definition video_tag_frame (timestamp : Z) (payload : bytes) : result MediaFrame :=
  byte ← idx payload 0;
  let frame_type := (byte .>> 4) .& 0x0F in
  let codec_id := byte .& 0x0F in
  let codec := if (codec_id =? 7)%Z then H264 else if (codec_id =? 12)%Z then H265
               else UnknownCodec codec_id in
  let is_key := (frame_type =? 1)%Z in
  let packet_type := (fun value => value .& 0x0f) <$> payload !! 1 in
  composition_time ←
    (if (5 <=? length payload) && bool_decide (packet_type = Some 1%Z) then
       b2 ← idx payload 2; b3 ← idx payload 3; b4 ← idx payload 4;
       Ok (signed_i24 b2 b3 b4)
     else Ok 0%Z);
  let dts := timestamp in
  let pts := if (composition_time <? 0)%Z then sat_sub dts (- composition_time)
             else sat_add dts composition_time in
  Ok (set_config_frame
        (with_payload_format (new_video 0 codec timestamp pts dts payload is_key) PfFlv)
        (bool_decide (packet_type = Some 0%Z))).

Definition audio_tag_frame (timestamp : Z) (payload : bytes) : result MediaFrame :=
  byte ← idx payload 0;
  let sound_format := (byte .>> 4) .& 0x0F in
  let codec := if (sound_format =? 10)%Z then AAC else if (sound_format =? 2)%Z then Mp3
               else if (sound_format =? 7)%Z then G711A else if (sound_format =? 8)%Z then G711U
               else UnknownCodec sound_format in
  let is_aac_config := bool_decide (codec = AAC) && bool_decide (payload !! 1 = Some 0%Z) in
  Ok (set_config_frame
        (with_payload_format (new_audio 1 codec timestamp timestamp timestamp payload) PfFlv)
        is_aac_config).

(** One turn of the loop of [parse_tag]. *)
Definition parse_tag_step (buffer : bytes) : result (bytes + bytes * option MediaFrame) :=
  if length buffer <? 15 then Ok (inr (buffer, None)) else
  b0 ← idx buffer 0; b1 ← idx buffer 1; b2 ← idx buffer 2; b3 ← idx buffer 3;
  if (b0 =? 0)%Z && (b1 .| b2 .| b3 =? 0)%Z then
    rest ← slice buffer 4 (length buffer); Ok (inl rest)
  else
    let data_size := (b1 .<< 16) .| (b2 .<< 8) .| b3 in
    b4 ← idx buffer 4; b5 ← idx buffer 5; b6 ← idx buffer 6; b7 ← idx buffer 7;
    let timestamp := (b4 .<< 16) .| (b5 .<< 8) .| b6 .| (b7 .<< 24) in
    let total_len := 11 + Z.to_nat data_size + 4 in
    if length buffer <? total_len then Ok (inr (buffer, None)) else
    payload ← slice buffer 11 (11 + Z.to_nat data_size);
    rest ← slice buffer total_len (length buffer);
    if (b0 =? 0x09)%Z then
      if length payload =? 0 then Ok (inl rest) else
      frame ← video_tag_frame timestamp payload; Ok (inr (rest, Some frame))
    else if (b0 =? 0x08)%Z then
      if length payload =? 0 then Ok (inl rest) else
      frame ← audio_tag_frame timestamp payload; Ok (inr (rest, Some frame))
    else Ok (inl rest).

Definition parse_tag (buffer : bytes) : result (bytes * option MediaFrame) :=
  loop (S (length buffer)) parse_tag_step buffer.

(** ** The parser by cases *)

(** What [parse_tag] does with a complete tag. *)
Definition tag_result (b0 ts : Z) (payload rest : bytes) : result (bytes + bytes * option MediaFrame) :=
  if (b0 =? 0x09)%Z then
    if length payload =? 0 then Ok (inl rest) else
    frame ← video_tag_frame ts payload; Ok (inr (rest, Some frame))
  else if (b0 =? 0x08)%Z then
    if length payload =? 0 then Ok (inl rest) else
    frame ← audio_tag_frame ts payload; Ok (inr (rest, Some frame))
  else Ok (inl rest).

Lemma parse_tag_step_cons b0 b1 b2 b3 b4 b5 b6 b7 b8 b9 b10 t :
  4 <= length t ->
  parse_tag_step (b0 :: b1 :: b2 :: b3 :: b4 :: b5 :: b6 :: b7 :: b8 :: b9 :: b10 :: t) =
  if (b0 =? 0)%Z && (b1 .| b2 .| b3 =? 0)%Z
  then Ok (inl (b4 :: b5 :: b6 :: b7 :: b8 :: b9 :: b10 :: t))
  else
    let n := Z.to_nat ((b1 .<< 16) .| (b2 .<< 8) .| b3) in
    if length t <? n + 4
    then Ok (inr (b0 :: b1 :: b2 :: b3 :: b4 :: b5 :: b6 :: b7 :: b8 :: b9 :: b10 :: t, None))
    else tag_result b0 ((b4 .<< 16) .| (b5 .<< 8) .| b6 .| (b7 .<< 24)) (take n t) (drop (n + 4) t).
Proof.
  intros Ht. unfold parse_tag_step. rewrite (proj2 (Nat.ltb_ge _ _)) by (cbn [length]; lia).
  rewrite !idx_S, !idx_0. cbn [mbind outcome_bind].
  destruct ((b0 =? 0)%Z && _).
  { rewrite slice_ok by (cbn [length]; lia). cbn [mbind outcome_bind drop]. do 2 f_equal.
    apply firstn_all2. cbn [length]. lia. }
  cbv zeta. set (n := Z.to_nat _).
  destruct (Nat.ltb_spec (length t) (n + 4)).
  { rewrite (proj2 (Nat.ltb_lt _ _)) by (cbn [length]; lia). done. }
  rewrite (proj2 (Nat.ltb_ge _ _)) by (cbn [length]; lia).
  rewrite !slice_ok by (cbn [length]; lia). cbn [mbind outcome_bind].
  replace (11 + n - 11) with n by lia. change (drop 11 (_ :: _ :: _ :: _ :: _ :: _ :: _ :: _ :: _ :: _ :: _ :: t)) with t.
  replace (drop (11 + n + 4) (b0 :: b1 :: b2 :: b3 :: b4 :: b5 :: b6 :: b7 :: b8 :: b9 :: b10 :: t)) with (drop (n + 4) t)
    by (replace (11 + n + 4) with (11 + (n + 4)) by lia; done).
  rewrite (take_ge (drop (n + 4) t)) by (rewrite length_drop; cbn [length]; lia). done.
Qed.

Lemma parse_tag_step_short b : length b < 15 -> parse_tag_step b = Ok (inr (b, None)).
Proof. intros. unfold parse_tag_step. by rewrite (proj2 (Nat.ltb_lt _ _)). Qed.

(** A buffer is short, or has eleven header bytes. *)
Lemma buffer_cases (b : bytes) :
  length b < 15 \/
  exists b0 b1 b2 b3 b4 b5 b6 b7 b8 b9 b10 t,
    b = b0 :: b1 :: b2 :: b3 :: b4 :: b5 :: b6 :: b7 :: b8 :: b9 :: b10 :: t /\ 4 <= length t.
Proof.
  destruct (decide (length b < 15)) as [|Hge]; [by left|right].
  do 11 (destruct b as [|? b]; [simpl in Hge; lia|]). repeat eexists. simpl in Hge. lia.
Qed.

Lemma tag_frame_ok (ts : Z) payload :
  payload <> [] ->
  (exists f, video_tag_frame ts payload = Ok f) /\ (exists f, audio_tag_frame ts payload = Ok f).
Proof.
  intros Hp. destruct payload as [|x payload]; [done|].
  unfold video_tag_frame, audio_tag_frame. rewrite !idx_0. cbn [mbind outcome_bind]. split; [|eauto].
  destruct (Nat.leb_spec 5 (length (x :: payload))); cbn [andb].
  2: { cbn [mbind outcome_bind]. eexists. reflexivity. }
  do 4 (destruct payload as [|? payload]; [simpl in *; lia|]). rewrite !idx_S, !idx_0.
  cbn [mbind outcome_bind]. destruct (bool_decide (_ = Some 1%Z)); cbn [mbind outcome_bind]; eexists; reflexivity.
Qed.

(** Extending the buffer does not change a step that made progress. *)
Lemma tag_result_app b0 ts payload rest r :
  tag_result b0 ts payload (rest ++ r) =
  match tag_result b0 ts payload rest with
  | Ok (inl x) => Ok (inl (x ++ r))
  | Ok (inr (x, y)) => Ok (inr (x ++ r, y))
  | Err e => Err e
  | Panic => Panic
  | NoFuel => NoFuel
  end.
Proof.
  unfold tag_result.
  destruct (b0 =? 9)%Z; [|destruct (b0 =? 8)%Z; [|done]]; (destruct (length payload =? 0); [done|]).
  - by destruct (video_tag_frame ts payload).
  - by destruct (audio_tag_frame ts payload).
Qed.

Lemma tag_result_cases b0 ts payload rest :
  tag_result b0 ts payload rest = Ok (inl rest) \/
  exists f, tag_result b0 ts payload rest = Ok (inr (rest, Some f)).
Proof.
  unfold tag_result.
  destruct (b0 =? 9)%Z; [|destruct (b0 =? 8)%Z; [|by left]];
    (destruct (Nat.eqb_spec (length payload) 0) as [|Hn]; [by left|]);
    destruct (tag_frame_ok ts payload ltac:(by intros ->)) as [[f Hf] [g Hg]];
    rewrite ?Hf, ?Hg; cbn; eauto.
Qed.

Inductive step_shape (b : bytes) : result (bytes + bytes * option MediaFrame) -> Prop :=
| ShapeWait : step_shape b (Ok (inr (b, None)))
| ShapeSkip rest :
    length rest < length b -> (forall r, parse_tag_step (b ++ r) = Ok (inl (rest ++ r))) ->
    step_shape b (Ok (inl rest))
| ShapeFrame rest f :
    length rest < length b -> (forall r, parse_tag_step (b ++ r) = Ok (inr (rest ++ r, Some f))) ->
    step_shape b (Ok (inr (rest, Some f))).

Lemma parse_tag_step_shape b : step_shape b (parse_tag_step b).
Proof.
  destruct (buffer_cases b) as [Hs|(b0 & b1 & b2 & b3 & b4 & b5 & b6 & b7 & b8 & b9 & b10 & t & -> & Ht)].
  { rewrite parse_tag_step_short by done. constructor. }
  rewrite parse_tag_step_cons by done.
  destruct ((b0 =? 0)%Z && (b1 .| b2 .| b3 =? 0)%Z) eqn:Hz.
  { constructor; [simpl; lia|]. intros r. cbn [app]. rewrite parse_tag_step_cons by (rewrite length_app; lia).
    by rewrite Hz. }
  cbv zeta. set (n := Z.to_nat _). destruct (Nat.ltb_spec (length t) (n + 4)) as [Hlt|Hge]; [constructor|].
  set (ts := _ .| (b7 .<< 24)).
  assert (forall r, parse_tag_step ((b0 :: b1 :: b2 :: b3 :: b4 :: b5 :: b6 :: b7 :: b8 :: b9 :: b10 :: t) ++ r) =
    tag_result b0 ts (take n t) (drop (n + 4) t ++ r)) as Happ.
  { intros r. cbn [app]. rewrite parse_tag_step_cons by (rewrite length_app; lia). rewrite Hz. cbv zeta.
    fold n ts. rewrite (proj2 (Nat.ltb_ge _ _)) by (rewrite length_app; lia).
    by rewrite take_app_le, drop_app_le by lia. }
  destruct (tag_result_cases b0 ts (take n t) (drop (n + 4) t)) as [He|[f He]]; rewrite He; constructor;
    try (cbn [length]; rewrite length_drop; lia); intros r; by rewrite Happ, tag_result_app, He.
Qed.

Lemma parse_tag_total b : exists r, parse_tag b = Ok r.
Proof.
  assert (wp (parse_tag b) (fun _ => True) (fun _ => False)) as H.
  { unfold parse_tag. apply (wp_loop _ (fun _ => True) (fun b => length b)); [|done|lia].
    intros c _. by destruct (parse_tag_step_shape c) as [|rest Hl _|rest f Hl _]. }
  destruct (parse_tag b); try done. eauto.
Qed.

(** The loop without its fuel. *)
Lemma parse_tag_unfold b :
  parse_tag b =
  match parse_tag_step b with
  | Ok (inl rest) => parse_tag rest
  | Ok (inr r) => Ok r
  | Err e => Err e
  | Panic => Panic
  | NoFuel => NoFuel
  end.
Proof.
  unfold parse_tag at 1. rewrite (loop_unfold _ (length b)).
  destruct (parse_tag_step_shape b) as [|rest Hl _|rest f Hl _]; [done| |done].
  destruct (parse_tag_total rest) as [r Hr]. rewrite Hr. eapply loop_fuel_mono; [exact Hr|done|lia].
Qed.

Lemma parse_tag_ind (P : bytes -> Prop) :
  (forall b, (forall rest, length rest < length b -> P rest) -> P b) -> forall b, P b.
Proof.
  intros H b. remember (length b) as n eqn:Hn. revert b Hn. induction n as [n IH] using lt_wf_ind.
  intros b ->. apply H. intros rest Hr. by eapply IH.
Qed.

(** FLV tags are parsed incrementally. *)
#[global] Instance flv_incremental : Incremental parse_tag.
Proof.
  split.
  - intros b. induction b as [b IH] using parse_tag_ind. intros b' Hp.
    rewrite parse_tag_unfold in Hp.
    destruct (parse_tag_step_shape b) as [|rest Hl Happ|rest f Hl Happ]; simplify_eq; [done|].
    intros r. rewrite (IH rest Hl b' Hp r), (parse_tag_unfold (b ++ r)), Happ. done.
  - intros b. induction b as [b IH] using parse_tag_ind. intros b' a Hp.
    rewrite parse_tag_unfold in Hp.
    destruct (parse_tag_step_shape b) as [|rest Hl Happ|rest f Hl Happ]; simplify_eq; [|done].
    pose proof (IH rest Hl b' a Hp). lia.
Qed.

(** ** Tags written by the muxer *)

Lemma tag_size_bytes n :
  (0 <= n < 2 ^ 24)%Z ->
  (((n .>> 16) .& 0xFF) .<< 16) .| (((n .>> 8) .& 0xFF) .<< 8) .| (n .& 0xFF) = n.
Proof. intros Hn. bits_arith. lor_add_at 16%Z. lor_add_at 8%Z. div_lia. Qed.

Lemma tag_time_bytes t :
  is_u32 t ->
  ((((t .& 0x7FFFFFFF) .>> 16) .& 0xFF) .<< 16) .| ((((t .& 0x7FFFFFFF) .>> 8) .& 0xFF) .<< 8) .|
    ((t .& 0x7FFFFFFF) .& 0xFF) .| (0 .<< 24) = (t mod 2 ^ 24)%Z.
Proof.
  unfold is_u32. intros Ht. change (0 .<< 24) with 0%Z. rewrite Z.lor_0_r. bits_arith.
  lor_add_at 16%Z. lor_add_at 8%Z. div_lia.
Qed.

(** The frame a tag is read back as. *)
Definition tag_frame (tag_type ts : Z) (payload : bytes) : result MediaFrame :=
  if (tag_type =? 0x09)%Z then video_tag_frame ts payload else audio_tag_frame ts payload.

Lemma tag_message ty t payload f :
  (ty = 0x09 \/ ty = 0x08)%Z -> is_u32 t -> payload <> [] -> (zlen payload < 2 ^ 24)%Z ->
  tag_frame ty (t mod 2 ^ 24) payload = Ok f ->
  message_ok parse_tag (tag_bytes ty (t .& 0x7FFFFFFF) payload) f.
Proof.
  intros Hty Ht Hne Hlen Hf. unfold tag_bytes. cbv zeta. unfold u32 at 1 2 3 4.
  rewrite !(Z.mod_small (zlen payload)) by (unfold zlen in *; lia).
  pose proof (tag_size_bytes (zlen payload) ltac:(unfold zlen in *; lia)) as Hn.
  pose proof (tag_time_bytes t Ht) as Hts.
  set (s1 := (zlen payload .>> 16) .& 0xFF) in *. set (s2 := (zlen payload .>> 8) .& 0xFF) in *.
  set (s3 := zlen payload .& 0xFF) in *. set (t1 := ((t .& 0x7FFFFFFF) .>> 16) .& 0xFF) in *.
  set (t2 := ((t .& 0x7FFFFFFF) .>> 8) .& 0xFF) in *. set (t3 := (t .& 0x7FFFFFFF) .& 0xFF) in *.
  clearbody s1 s2 s3 t1 t2 t3. set (tail := to_be 4 _).
  assert (length tail = 4) as Htl by apply length_to_be. clearbody tail.
  assert ((ty =? 0)%Z = false) as Hz by (destruct Hty as [->| ->]; done).
  assert (0 < length payload) as Hpl by (destruct payload; [done|simpl; lia]).
  cbn [app]. split.
  - intros rest. cbn [app]. rewrite parse_tag_unfold, parse_tag_step_cons by (rewrite !length_app; lia).
    rewrite Hz. cbn [andb]. cbv zeta. rewrite Hn, Hts. unfold zlen. rewrite Nat2Z.id.
    rewrite (proj2 (Nat.ltb_ge _ _)) by (rewrite !length_app; lia).
    rewrite <-app_assoc, take_app_length. rewrite app_assoc, drop_app_length' by (rewrite length_app; lia).
    unfold tag_frame in Hf. unfold tag_result. rewrite (proj2 (Nat.eqb_neq _ _)) by lia.
    destruct Hty as [->| ->]; cbn [Z.eqb Pos.eqb] in *; by rewrite Hf.
  - intros q r Hq Hr. exists q. rewrite parse_tag_unfold.
    destruct (buffer_cases q) as [Hs|(b0 & b1 & b2 & b3 & b4 & b5 & b6 & b7 & b8 & b9 & b10 & u & -> & Hu)].
    { by rewrite parse_tag_step_short. }
    rewrite parse_tag_step_cons by done. cbn [app] in Hq. injection Hq as <- <- <- <- <- <- <- <- <- <- <- Hq.
    rewrite Hz. cbn [andb]. cbv zeta. rewrite Hn. unfold zlen. rewrite Nat2Z.id.
    rewrite (proj2 (Nat.ltb_lt _ _)); [done|].
    apply (f_equal length) in Hq. rewrite !length_app in Hq. destruct r; [done|]. simpl in Hq. lia.
Qed.

(** Frames whose FLV payload fits a tag. *)
Definition flv_writable (f : MediaFrame) (payload : bytes) : Prop :=
  frame_type f <> Metadata /\ is_u32 (timestamp f) /\ flv_payload f = Ok payload /\
  payload <> [] /\ (zlen payload < 2 ^ 24)%Z.

Definition tag_type_of (f : MediaFrame) : Z :=
  match frame_type f with Video => 0x09 | Audio => 0x08 | Metadata => 0x12 end%Z.

(** [g] is what a reader makes of the tag of [f]. *)
Definition reread (f g : MediaFrame) : Prop :=
  exists payload, flv_writable f payload /\
    tag_frame (tag_type_of f) (timestamp f mod 2 ^ 24) payload = Ok g.

Lemma write_tag_message f payload :
  flv_writable f payload ->
  exists tag g, write_tag f = Ok tag /\ reread f g /\ message_ok parse_tag tag g.
Proof.
  intros Hw. pose proof Hw as (Hm & Ht & Hp & Hne & Hl). unfold write_tag.
  rewrite bool_decide_eq_false_2, Hp by done. cbn [mbind outcome_bind]. fold (tag_type_of f).
  assert (tag_type_of f = 0x09 \/ tag_type_of f = 0x08)%Z as Hty
    by (unfold tag_type_of; destruct (frame_type f); auto; done).
  assert (exists g, tag_frame (tag_type_of f) (timestamp f mod 2 ^ 24) payload = Ok g) as [g Hg].
  { unfold tag_frame. destruct (tag_frame_ok (timestamp f mod 2 ^ 24) payload Hne) as [? ?].
    by destruct (_ =? _)%Z. }
  eexists _, g. split; [done|]. split; [by exists payload|]. by apply tag_message.
Qed.

(** Bytes in front of a tag that the parser passes over. *)
Definition skippable (skip : bytes) : Prop :=
  forall tag g, message_ok parse_tag tag g -> 11 <= length tag -> message_ok parse_tag (skip ++ tag) g.

Lemma skippable_app u v : skippable u -> skippable v -> skippable (u ++ v).
Proof.
  intros Hu Hv tag g Hm Hl. rewrite <-app_assoc. apply Hu; [by apply Hv|]. rewrite length_app. lia.
Qed.

(** The first PreviousTagSize. *)
Lemma skippable_zeros : skippable [0; 0; 0; 0]%Z.
Proof.
  intros tag g [Hc Hpre] Hl. cbn [app].
  assert (forall q, 11 <= length q -> parse_tag (0%Z :: 0%Z :: 0%Z :: 0%Z :: q) = parse_tag q) as Hskip.
  { intros q Hq. rewrite parse_tag_unfold.
    do 11 (destruct q as [|? q]; [simpl in Hq; lia|]).
    rewrite parse_tag_step_cons by (simpl; lia). done. }
  split.
  - intros rest. cbn [app]. rewrite Hskip by (rewrite length_app; lia). apply Hc.
  - intros q r Hq Hr. destruct (decide (length q < 15)).
    { exists q. rewrite parse_tag_unfold. by rewrite parse_tag_step_short. }
    do 4 (destruct q as [|? q]; [simpl in *; lia|]). injection Hq as <- <- <- <- Hq.
    rewrite Hskip by (simpl in *; lia). eauto.
Qed.

(** A script tag. *)
Lemma skippable_script ts payload : (zlen payload < 2 ^ 24)%Z -> skippable (tag_bytes 0x12 ts payload).
Proof.
  intros Hlen tag g [Hc Hpre] Hl. unfold tag_bytes. cbv zeta. unfold u32 at 1 2 3 4.
  rewrite !(Z.mod_small (zlen payload)) by (unfold zlen in *; lia).
  pose proof (tag_size_bytes (zlen payload) ltac:(unfold zlen in *; lia)) as Hn.
  set (s1 := (zlen payload .>> 16) .& 0xFF) in *. set (s2 := (zlen payload .>> 8) .& 0xFF) in *.
  set (s3 := zlen payload .& 0xFF) in *. set (t1 := (ts .>> 16) .& 0xFF) in *.
  set (t2 := (ts .>> 8) .& 0xFF) in *. set (t3 := ts .& 0xFF) in *.
  clearbody s1 s2 s3 t1 t2 t3. set (tail := to_be 4 _).
  assert (length tail = 4) as Htl by apply length_to_be. clearbody tail. cbn [app].
  assert (forall q, parse_tag (18%Z :: s1 :: s2 :: s3 :: t1 :: t2 :: t3 :: 0%Z :: 0%Z :: 0%Z :: 0%Z :: (payload ++ tail) ++ q) = parse_tag q) as Hskip.
  { intros q. rewrite parse_tag_unfold, parse_tag_step_cons by (rewrite !length_app; lia).
    change (18 =? 0)%Z with false. cbn [andb]. cbv zeta. rewrite Hn. unfold zlen. rewrite Nat2Z.id.
    rewrite (proj2 (Nat.ltb_ge _ _)) by (rewrite !length_app; lia).
    rewrite <-app_assoc, take_app_length. rewrite app_assoc, drop_app_length' by (rewrite length_app; lia). done. }
  split.
  - intros rest. cbn [app]. rewrite <-app_assoc, Hskip. apply Hc.
  - intros q r Hq Hr. destruct (buffer_cases q) as [Hs|(b0 & b1 & b2 & b3 & b4 & b5 & b6 & b7 & b8 & b9 & b10 & u & -> & Hu)].
    { exists q. rewrite parse_tag_unfold. by rewrite parse_tag_step_short. }
    cbn [app] in Hq. injection Hq as <- <- <- <- <- <- <- <- <- <- <- Hq.
    destruct (decide (length u < length (payload ++ tail))) as [Hlt|Hge].
    + eexists. rewrite parse_tag_unfold, parse_tag_step_cons by done.
      change (18 =? 0)%Z with false. cbn [andb]. cbv zeta. rewrite Hn. unfold zlen. rewrite Nat2Z.id.
      rewrite (proj2 (Nat.ltb_lt _ _)) by (rewrite length_app in Hlt; lia). done.
    + assert (exists v, u = (payload ++ tail) ++ v) as [v ->].
      { exists (drop (length (payload ++ tail)) u). rewrite <-(take_drop (length (payload ++ tail)) u) at 1. f_equal.
        apply (f_equal (take (length (payload ++ tail)))) in Hq. rewrite take_app_length, take_app_le in Hq by lia. done. }
      rewrite <-!app_assoc in Hq. apply app_inv_head, app_inv_head in Hq.
      destruct (Hpre v r Hq Hr) as [q' Hq']. exists q'. by rewrite Hskip.
Qed.

Lemma tag_length f payload tag : flv_payload f = Ok payload -> write_tag f = Ok tag -> 11 <= length tag.
Proof.
  intros Hp. unfold write_tag. case_bool_decide.
  - intros [= <-]. unfold write_metadata_tag, tag_bytes. cbv zeta. rewrite length_app. simpl. lia.
  - rewrite Hp. intros [= <-]. unfold tag_bytes. cbv zeta. rewrite length_app. simpl. lia.
Qed.

(** The header is consumed, the first PreviousTagSize is not. *)
Lemma parse_written_header m rest : parse_header ((write_header m).2 ++ rest) = Ok (to_be 4 0 ++ rest, Some true).
Proof.
  unfold parse_header, write_header. cbn [snd].
  change (to_be 4 9) with [0; 0; 0; 9]%Z. change (to_be 4 0) with [0; 0; 0; 0]%Z. cbn [app].
  rewrite (proj2 (Nat.ltb_ge _ _)) by (cbn [length]; lia). rewrite !idx_S, !idx_0. cbn [mbind outcome_bind].
  rewrite bool_decide_eq_true_2 by done. cbn [negb]. change (Z.to_nat (from_be [0; 0; 0; 9]%Z)) with 9.
  rewrite !(proj2 (Nat.ltb_ge _ _)) by (cbn [length]; lia). cbn [orb].
  rewrite slice_ok by (cbn [length]; lia). cbn [mbind outcome_bind drop]. do 2 f_equal.
  rewrite take_ge; [done|cbn [length]; lia].
Qed.

(** Tags of frames, after bytes that are passed over. *)
Lemma flv_tags_read skip fs payloads tags chunks :
  skippable skip -> Forall2 flv_writable fs payloads -> fs <> [] ->
  Forall2 (fun f t => write_tag f = Ok t) fs tags ->
  concat chunks = skip ++ concat tags ->
  exists gs b, Forall2 reread fs gs /\ feed_all parse_tag [] chunks = Ok (b, gs) /\
    buf_equiv parse_tag b [].
Proof.
  intros Hskip Hw Hne Ht Hcat.
  assert (exists us, Forall (fun ua => message_ok parse_tag ua.1 ua.2) us /\ tags = fst <$> us /\
    Forall2 reread fs (snd <$> us) /\ Forall (fun ua => 11 <= length ua.1) us) as (us & Hok & -> & Hre & Hlen).
  { clear Hne Hcat. revert tags Ht. induction Hw as [|f payload fs payloads Hf _ IH]; intros tags Ht.
    { inv Ht. exists []. split_and!; constructor. }
    apply Forall2_cons_inv_l in Ht as (tag' & tags' & Htag' & Htags & ->).
    destruct (IH _ Htags) as (us & Hu1 & -> & Hu2 & Hu3).
    destruct (write_tag_message f payload Hf) as (tag & g & Htag & Hg & Hmsg).
    assert (tag' = tag) as -> by congruence.
    exists ((tag, g) :: us). split; [by constructor|]. split; [done|]. split; [by constructor|].
    constructor; [|done]. cbn [fst]. eapply tag_length; [apply Hf|done]. }
  destruct us as [|[u g] us]; [by inv Hre|]. inv Hok as [|? ? Hu Hok']. inv Hlen as [|? ? Hl _].
  cbn [fst snd] in *.
  destruct (feed_all_complete parse_tag ((skip ++ u, g) :: us) chunks) as (b & Hb & He).
  - done.
  - constructor; [|done]. cbn [fst snd]. by apply Hskip.
  - rewrite Hcat. unfold messages. cbn [fmap list_fmap concat fst]. by rewrite <-app_assoc.
  - eexists _, b. split; [exact Hre|]. split; [|done]. exact Hb.
Qed.

(** C20: an FLV stream is read back however it is delivered: after the header,
    which [parse_header] consumes (audio and video flags set), the tags
    written for a list of frames, cut into arbitrary chunks, are parsed to
    one frame per written frame, in order ([reread]: the FLV payload is the
    frame's data, the timestamp is the written one modulo 2^24), and nothing
    is left pending. *)
Theorem flv_stream_round_trip fs payloads tags chunks :
  Forall2 flv_writable fs payloads -> fs <> [] ->
  Forall2 (fun f t => write_tag f = Ok t) fs tags ->
  concat chunks = to_be 4 0 ++ concat tags ->
  (forall m rest, parse_header ((write_header m).2 ++ rest) = Ok (to_be 4 0 ++ rest, Some true)) /\
  exists gs b, Forall2 reread fs gs /\ feed_all parse_tag [] chunks = Ok (b, gs) /\
    buf_equiv parse_tag b [].
Proof.
  intros Hw Hne Ht Hcat. split.
  { apply parse_written_header. }
  apply (flv_tags_read (to_be 4 0) fs payloads tags); try done. apply skippable_zeros.
Qed.

Definition flv_demo_video : MediaFrame :=
  with_data (new_video 0 H264 40 80 40 [] true) PfAvcc [0; 0; 0; 1; 0x65]%Z.
Definition flv_demo_audio : MediaFrame :=
  with_data (new_audio 1 G711A 41 41 41 []) PfRaw [1; 2]%Z.

Lemma flv_stream_round_trip_witness :
  exists t1 t2 gs b, write_tag flv_demo_video = Ok t1 /\ write_tag flv_demo_audio = Ok t2 /\
    Forall2 reread [flv_demo_video; flv_demo_audio] gs /\
    feed_all parse_tag [] [[0; 0; 0]; [0] ++ t1 ++ take 3 t2; drop 3 t2]%Z = Ok (b, gs).
Proof.
  eexists _, _.
  destruct (proj2 (flv_stream_round_trip [flv_demo_video; flv_demo_audio]
    [[0x17; 1; 0; 0; 40; 0; 0; 0; 1; 0x65]; [0x72; 1; 2]]%Z
    [tag_bytes 9 40 [0x17; 1; 0; 0; 40; 0; 0; 0; 1; 0x65]%Z; tag_bytes 8 41 [0x72; 1; 2]%Z]
    [[0; 0; 0]; [0] ++ tag_bytes 9 40 [0x17; 1; 0; 0; 40; 0; 0; 0; 1; 0x65] ++ take 3 (tag_bytes 8 41 [0x72; 1; 2]);
     drop 3 (tag_bytes 8 41 [0x72; 1; 2])]%Z
    ltac:(repeat constructor; vm_compute; (reflexivity || discriminate || (intros; discriminate)))
    ltac:(discriminate) ltac:(repeat constructor) ltac:(vm_compute; reflexivity))) as (gs & b & H1 & H2 & _).
  exists gs, b. split; [reflexivity|]. split; [reflexivity|]. split; [exact H1|exact H2].
Defined.

(** ** What survives the trip *)

Lemma signed_i24_spec a b c :
  is_u8 a -> is_u8 b -> is_u8 c -> signed_i24 a b c = i24 (from_be [a; b; c]).
Proof.
  intros Ha Hb Hc. unfold is_u8 in *. unfold signed_i24, i24. rewrite from_be_3.
  replace ((a .<< 16) .| (b .<< 8) .| c) with (a * 65536 + b * 256 + c)%Z
    by (bits_arith; lor_add_at 16%Z; lor_add_at 8%Z; lia).
  set (v := (a * 65536 + b * 256 + c)%Z). assert (0 <= v < 2 ^ 24)%Z as Hv by (unfold v; lia). clearbody v.
  replace (v .& 8388608)%Z with (((v / 8388608) mod 2) * 8388608)%Z
    by (symmetry; exact (land_mask v 23 1 ltac:(done) ltac:(done))).
  destruct (Z.eqb_spec (((v / 8388608) mod 2) * 8388608) 0)%Z as [Heq|Hne]; cbn [negb]; [div_lia|].
  change (Z.lnot 16777215) with (- 2 ^ 24)%Z. rewrite Z.lor_comm, (lor_add (- 2 ^ 24) v 24) by (done || lia).
  div_lia.
Qed.

(** What a reader learns from a muxed H.264/H.265 sample: codec, key-frame
    flag and the length-prefixed sample are those of the frame, it is not a
    configuration frame, the decoding time is the timestamp modulo 2^24 (the
    muxer always writes 0 in the extended timestamp byte, so the clock wraps
    after 4 h 40 min), and the composition offset is [pts - dts] clamped to 24 bits
    whenever that does not go below zero. *)
Theorem flv_sample_preserved f body g :
  is_h26x f -> frame_type f = Video -> payload_format f <> PfFlv -> config_frame f = false ->
  (0 <= pts f < 2 ^ 63)%Z -> (0 <= dts f < 2 ^ 63)%Z ->
  video_sample_length_prefixed f = Ok body -> body <> [] -> reread f g ->
  codec g = codec f /\ key_frame g = key_frame f /\ config_frame g = false /\
  video_sample_length_prefixed g = Ok body /\
  timestamp g = (timestamp f mod 2 ^ 24)%Z /\ dts g = (timestamp f mod 2 ^ 24)%Z /\
  (let ct := clamp (pts f - dts f) (-8388608) 8388607 in
   (0 <= dts g + ct)%Z -> (pts g - dts g = ct)%Z).
Proof.
  intros Hc Hft Hpf Hcfg Hp Hd Hs Hne (payload & (_ & Hts & Hpl & _) & Hg).
  destruct (flv_video_payload_shape f body) as (b0 & c0 & c1 & c2 & Hbc & H1 & H2 & H2' & H3 & H4); try done.
  rewrite H1 in Hpl. injection Hpl as <-.
  unfold tag_type_of in Hg. rewrite Hft in Hg. cbn [tag_frame Z.eqb Pos.eqb] in Hg.
  unfold tag_frame in Hg. cbn [Z.eqb Pos.eqb] in Hg. unfold video_tag_frame in Hg.
  rewrite !idx_S, !idx_0 in Hg. cbn [mbind outcome_bind] in Hg.
  rewrite (proj2 (Nat.leb_le _ _)) in Hg by (cbn [length]; lia).
  change ((fun value => value .& 0x0f) <$> (b0 :: 1%Z :: c0 :: c1 :: c2 :: body) !! 1) with (Some 1%Z) in Hg.
  change (bool_decide (Some 1%Z = Some 1%Z)) with true in Hg.
  change (bool_decide (Some 1%Z = Some 0%Z)) with false in Hg. cbn [andb mbind outcome_bind] in Hg.
  assert (is_u8 c0 /\ is_u8 c1 /\ is_u8 c2) as (? & ? & ?)
    by (unfold bytes_ok in Hbc; rewrite !Forall_cons in Hbc; by destruct Hbc as (? & ? & ? & _)).
  rewrite signed_i24_spec, H3 in Hg by done. injection Hg as <-. cbn [with_payload_format set_config_frame new_video
    codec key_frame config_frame timestamp dts pts].
  assert (0 <= timestamp f mod 2 ^ 24 < 2 ^ 24)%Z as Ht by (apply Z.mod_pos_bound; lia).
  set (ts := (timestamp f mod 2 ^ 24)%Z) in *. clearbody ts.
  split_and!.
  - rewrite H2'. destruct Hc as [-> | ->]; done.
  - replace ((b0 .>> 4) .& 15)%Z with (b0 .>> 4) by (rewrite H2; by destruct (key_frame f)).
    rewrite H2. by destruct (key_frame f).
  - done.
  - rewrite <-(H4 PfFlv ltac:(by left)). unfold video_sample_length_prefixed, declared_or_detected_video_format.
    cbn [config_frame codec payload_format data with_data set_config_frame with_payload_format new_video].
    rewrite H2', Hcfg. destruct Hc as [-> | ->]; reflexivity.
  - done.
  - done.
  - intros Hnn. set (ct := clamp _ _ _) in *.
    assert (-8388608 <= ct <= 8388607)%Z by (unfold ct, clamp; repeat case_match; lia). clearbody ct.
    unfold sat_sub, sat_add. destruct (Z.ltb_spec ct 0); lia.
Qed.

Lemma flv_sample_preserved_witness :
  exists g, reread flv_demo_video g /\ codec g = H264 /\ timestamp g = 40%Z /\ (pts g - dts g = 40)%Z.
Proof.
  assert (exists g, reread flv_demo_video g) as [g Hg].
  { eexists. exists [0x17; 1; 0; 0; 40; 0; 0; 0; 1; 0x65]%Z.
    split; [|vm_compute; reflexivity].
    repeat split; vm_compute; (reflexivity || discriminate || (intros; discriminate)). }
  destruct (flv_sample_preserved flv_demo_video [0; 0; 0; 1; 0x65]%Z g) as (H1 & _ & _ & _ & H2 & H3 & H4).
  - by left.
  - reflexivity.
  - discriminate.
  - reflexivity.
  - vm_compute. split; [discriminate|reflexivity].
  - vm_compute. split; [discriminate|reflexivity].
  - reflexivity.
  - discriminate.
  - exact Hg.
  - exists g. split; [exact Hg|]. split; [exact H1|]. split; [exact H2|]. apply H4. rewrite H3. vm_compute. discriminate.
Defined.
