(* ===== verification/Utf8.v ===== *)
(** * Utf8: Rust strings as byte lists

    A [String] is the list of its UTF-8 bytes.  [from_utf8_lossy] is
    [String::from_utf8_lossy]: valid sequences are kept, each maximal invalid
    prefix of a sequence is replaced by U+FFFD. *)

From S2P Require Import Prelude.
Open Scope Z_scope.

Definition in_range (lo hi b : Z) : bool := (lo <=? b) && (b <=? hi).
Definition is_cont (b : Z) : bool := in_range 0x80 0xBF b.

(** The second byte of a three- and of a four-byte sequence. *)
Definition second3 (b0 b1 : Z) : bool :=
  if b0 =? 0xE0 then in_range 0xA0 0xBF b1
  else if b0 =? 0xED then in_range 0x80 0x9F b1 else is_cont b1.
Definition second4 (b0 b1 : Z) : bool :=
  if b0 =? 0xF0 then in_range 0x90 0xBF b1
  else if b0 =? 0xF4 then in_range 0x80 0x8F b1 else is_cont b1.

(** Is the sequence at the head valid, and how many bytes does it (or its
    invalid prefix) take?  A missing byte reads as 0, which continues nothing. *)
Definition utf8_head (b0 : Z) (tail : bytes) : bool * nat :=
  let at_ i := nth i tail 0 in
  if b0 <? 0x80 then (true, 1%nat)
  else if in_range 0xC2 0xDF b0 then if is_cont (at_ 0%nat) then (true, 2%nat) else (false, 1%nat)
  else if in_range 0xE0 0xEF b0 then
    if second3 b0 (at_ 0%nat) then if is_cont (at_ 1%nat) then (true, 3%nat) else (false, 2%nat)
    else (false, 1%nat)
  else if in_range 0xF0 0xF4 b0 then
    if second4 b0 (at_ 0%nat) then
      if is_cont (at_ 1%nat) then if is_cont (at_ 2%nat) then (true, 4%nat) else (false, 3%nat)
      else (false, 2%nat)
    else (false, 1%nat)
  else (false, 1%nat).

Definition REPLACEMENT : bytes := [0xEF; 0xBF; 0xBD].

Fixpoint lossy (fuel : nat) (l : bytes) : bytes :=
  match fuel, l with
  | S fuel, b0 :: tail =>
      let '(ok, n) := utf8_head b0 tail in
      (if ok then take n l else REPLACEMENT) ++ lossy fuel (drop n l)
  | _, _ => []
  end.
Definition from_utf8_lossy (l : bytes) : bytes := lossy (length l) l.

(** [str::from_utf8(l).is_ok()] *)
Fixpoint valid_aux (fuel : nat) (l : bytes) : bool :=
  match fuel, l with
  | S fuel, b0 :: tail =>
      let '(ok, n) := utf8_head b0 tail in ok && valid_aux fuel (drop n l)
  | _, _ => true
  end.
Definition utf8_valid (l : bytes) : bool := valid_aux (length l) l.

Lemma utf8_head_pos b0 tail : (0 < (utf8_head b0 tail).2)%nat.
Proof. unfold utf8_head. repeat case_match; simpl; lia. Qed.

(** [from_utf8_lossy] copies valid strings. *)
Lemma from_utf8_lossy_valid l : utf8_valid l = true -> from_utf8_lossy l = l.
Proof.
  unfold utf8_valid, from_utf8_lossy.
  assert (forall fuel l, (length l <= fuel)%nat -> valid_aux fuel l = true -> lossy fuel l = l) as H; [|auto].
  clear l. induction fuel as [|fuel IH]; intros l Hl Hv; [destruct l; simpl in *; (done || lia)|].
  destruct l as [|b0 tail]; [done|]. cbn [valid_aux lossy] in *.
  pose proof (utf8_head_pos b0 tail) as Hp. destruct (utf8_head b0 tail) as [ok n].
  apply andb_true_iff in Hv as [-> Hv]. cbn [snd] in Hp.
  rewrite IH; [apply take_drop| |done]. rewrite length_drop. simpl in *. lia.
Qed.

(** ASCII text is valid. *)
Lemma ascii_valid l : Forall (fun b => b < 0x80) l -> utf8_valid l = true.
Proof.
  unfold utf8_valid. induction 1 as [|b l Hb Hl IH]; [done|]. cbn [length valid_aux].
  unfold utf8_head. rewrite (proj2 (Z.ltb_lt b 0x80)) by done. by cbn [drop andb].
Qed.

Lemma lossy_ascii l r : Forall (fun b => b < 0x80) l -> from_utf8_lossy (l ++ r) = l ++ from_utf8_lossy r.
Proof.
  induction 1 as [|b l Hb _ IH]; [done|]. unfold from_utf8_lossy in *. cbn [app length lossy]. unfold utf8_head.
  rewrite (proj2 (Z.ltb_lt b 0x80)) by done. cbn [drop take app]. f_equal. exact IH.
Qed.

(** A continuation byte by itself is one bad sequence. *)
Lemma lossy_stray b r : is_cont b = true -> from_utf8_lossy (b :: r) = REPLACEMENT ++ from_utf8_lossy r.
Proof.
  unfold is_cont, in_range. intros [H1%Z.leb_le H2%Z.leb_le]%andb_prop. unfold from_utf8_lossy. cbn [length lossy]. unfold utf8_head, in_range.
  rewrite (proj2 (Z.ltb_ge b 0x80)) by lia. rewrite (proj2 (Z.leb_gt 0xC2 b)), (proj2 (Z.leb_gt 0xE0 b)), (proj2 (Z.leb_gt 0xF0 b)) by lia.
  done.
Qed.
