(* ===== verification/Amf.v ===== *)
(** * Amf: the AMF0 encoder and decoder of the RTMP commands

    [rtmp/src/amf.rs].  A string is its UTF-8 bytes, a number its 64-bit
    pattern. *)

From S2P Require Import Prelude Frame Utf8.
Open Scope Z_scope.

#[local] Set Warnings "-register-all,-clear-no-such-hyp".
Inductive AmfValue : Type :=
| AmfNumber (n : f64)
| AmfBoolean (b : bool)
| AmfString (s : bytes)
| AmfObject (pairs : list (bytes * AmfValue))
| AmfNull
| AmfUndefined
| AmfEcmaArray (pairs : list (bytes * AmfValue))
| AmfStrictArray (values : list AmfValue)
| AmfDate (time : f64) (timezone : Z).

(** ** Encoding *)

Definition encode_key (key : bytes) : bytes :=
  (if (0xFFFF <? zlen key) then to_be 4 (zlen key) else to_be 2 (zlen key)) ++ key.

Fixpoint encode_value (value : AmfValue) : bytes :=
  let encode_properties := fix go (pairs : list (bytes * AmfValue)) : bytes :=
    match pairs with
    | [] => []
    | (key, val) :: pairs => (encode_key key ++ encode_value val) ++ go pairs
    end in
  match value with
  | AmfNumber n => 0x00 :: to_be 8 n
  | AmfBoolean b => [0x01; if b then 1 else 0]
  | AmfString s =>
      (if 0xFFFF <? zlen s then 0x0C :: to_be 4 (zlen s) else 0x02 :: to_be 2 (zlen s)) ++ s
  | AmfObject pairs => 0x03 :: encode_properties pairs ++ [0x00; 0x00; 0x09]
  | AmfNull => [0x05]
  | AmfUndefined => [0x06]
  | AmfEcmaArray pairs =>
      0x08 :: to_be 4 (zlen pairs) ++ encode_properties pairs ++ [0x00; 0x00; 0x09]
  | AmfStrictArray _ | AmfDate _ _ => []
  end.

Definition encode_property (kv : bytes * AmfValue) : bytes := encode_key kv.1 ++ encode_value kv.2.

Definition amf_encode (values : list AmfValue) : bytes := concat (encode_value <$> values).

(** ** Decoding *)

Definition get_u16 (buf : bytes) : result (Z * bytes) :=
  l ← slice buf 0 2; Ok (from_be l, drop 2 buf).

(** The loop body of [decode_object], which calls [decode_value] for the
    property values. *)
Definition decode_object_step (decode_value : bytes -> result (AmfValue * bytes))
    (st : bytes * list (bytes * AmfValue)) :
    result (bytes * list (bytes * AmfValue) + list (bytes * AmfValue) * bytes) :=
  let '(buf, pairs) := st in
  if (length buf <? 2)%nat then Ok (inr (pairs, buf)) else
  '(n, buf) ← get_u16 buf;
  let key_len := Z.to_nat n in
  if (key_len =? 0)%nat then Ok (inr (pairs, drop 1 buf))
  else if (length buf <? key_len)%nat then Ok (inr (pairs, buf)) else
  let key := from_utf8_lossy (take key_len buf) in
  let buf := drop key_len buf in
  match buf with
  | [] => Ok (inr (pairs, buf))
  | _ :: _ =>
      '(value, buf) ← decode_value buf;
      Ok (inl (buf, pairs ++ [(key, value)]))
  end.

Definition decode_object (decode_value : bytes -> result (AmfValue * bytes)) (buf : bytes) :
    result (list (bytes * AmfValue) * bytes) :=
  loop (S (length buf)) (decode_object_step decode_value) (buf, []).

(** The two functions call each other; the fuel bounds the nesting depth, and
    the number of bytes left is enough of it (every level reads one). *)
Fixpoint decode_value (fuel : nat) (buf : bytes) : result (AmfValue * bytes) :=
  match fuel with
  | O => NoFuel
  | S fuel =>
      match buf with
      | [] => Err (Anyhow "Unexpected end of AMF data")
      | type_id :: buf =>
          if type_id =? 0x00 then
            if (length buf <? 8)%nat then Err (Anyhow "Not enough data for AMF number")
            else Ok (AmfNumber (from_be (take 8 buf)), drop 8 buf)
          else if type_id =? 0x01 then
            match buf with
            | [] => Err (Anyhow "Not enough data for AMF boolean")
            | b :: buf => Ok (AmfBoolean (negb (b =? 0)), buf)
            end
          else if type_id =? 0x02 then
            if (length buf <? 2)%nat then Err (Anyhow "Not enough data for AMF string length") else
            '(n, buf) ← get_u16 buf;
            let len := Z.to_nat n in
            if (length buf <? len)%nat then Err (Anyhow "Not enough data for AMF string")
            else Ok (AmfString (from_utf8_lossy (take len buf)), drop len buf)
          else if type_id =? 0x03 then
            '(pairs, buf) ← decode_object (decode_value fuel) buf; Ok (AmfObject pairs, buf)
          else if type_id =? 0x05 then Ok (AmfNull, buf)
          else if type_id =? 0x06 then Ok (AmfUndefined, buf)
          else if type_id =? 0x08 then
            if (length buf <? 4)%nat then Err (Anyhow "Not enough data for AMF ecma array count") else
            '(pairs, buf) ← decode_object (decode_value fuel) (drop 4 buf); Ok (AmfEcmaArray pairs, buf)
          else Err (Anyhow "Unsupported AMF type")
      end
  end.

(** The [while buf.has_remaining()] loop of [decode]. *)
Definition decode_step (st : bytes * list AmfValue) : result (bytes * list AmfValue + list AmfValue) :=
  let '(buf, values) := st in
  match buf with
  | [] => Ok (inr values)
  | _ :: _ =>
      '(value, buf) ← decode_value (S (length buf)) buf;
      Ok (inl (buf, values ++ [value]))
  end.

Definition amf_decode (data : bytes) : result (list AmfValue) :=
  loop (S (length data)) decode_step (data, []).

(** ** Round trip *)

Section induction.
Context (P : AmfValue -> Prop).
Context (Hnum : forall n, P (AmfNumber n)) (Hbool : forall b, P (AmfBoolean b))
  (Hstr : forall s, P (AmfString s))
  (Hobj : forall l, Forall (fun kv => P kv.2) l -> P (AmfObject l))
  (Hnull : P AmfNull) (Hundef : P AmfUndefined)
  (Hecma : forall l, Forall (fun kv => P kv.2) l -> P (AmfEcmaArray l))
  (Hstrict : forall l, Forall P l -> P (AmfStrictArray l))
  (Hdate : forall t z, P (AmfDate t z)).

(** Induction through the nested lists. *)
Fixpoint amf_ind (v : AmfValue) : P v :=
  match v with
  | AmfNumber n => Hnum n
  | AmfBoolean b => Hbool b
  | AmfString s => Hstr s
  | AmfObject l => Hobj l ((fix go (l : list (bytes * AmfValue)) : Forall (fun kv => P kv.2) l :=
      match l with
      | [] => Forall_nil_2 _
      | kv :: l => Forall_cons_2 _ kv l (amf_ind kv.2) (go l)
      end) l)
  | AmfNull => Hnull
  | AmfUndefined => Hundef
  | AmfEcmaArray l => Hecma l ((fix go (l : list (bytes * AmfValue)) : Forall (fun kv => P kv.2) l :=
      match l with
      | [] => Forall_nil_2 _
      | kv :: l => Forall_cons_2 _ kv l (amf_ind kv.2) (go l)
      end) l)
  | AmfStrictArray l => Hstrict l ((fix go (l : list AmfValue) : Forall P l :=
      match l with [] => Forall_nil_2 _ | v :: l => Forall_cons_2 _ v l (amf_ind v) (go l) end) l)
  | AmfDate t z => Hdate t z
  end.
End induction.

(** Values both sides can represent: 16-bit lengths, non-empty keys, no strict
    arrays and no dates. *)
Definition short_string (s : bytes) : Prop := zlen s <= 0xFFFF /\ utf8_valid s = true.
Definition good_key (s : bytes) : Prop := s <> [] /\ short_string s.

Inductive amf_wf : AmfValue -> Prop :=
| wf_number n : is_u64 n -> amf_wf (AmfNumber n)
| wf_boolean b : amf_wf (AmfBoolean b)
| wf_string s : short_string s -> amf_wf (AmfString s)
| wf_object l : Forall (fun kv => good_key kv.1 /\ amf_wf kv.2) l -> amf_wf (AmfObject l)
| wf_null : amf_wf AmfNull
| wf_undefined : amf_wf AmfUndefined
| wf_ecma l : Forall (fun kv => good_key kv.1 /\ amf_wf kv.2) l -> amf_wf (AmfEcmaArray l).

Definition properties (pairs : list (bytes * AmfValue)) : bytes := concat (encode_property <$> pairs).

Lemma encode_object l : encode_value (AmfObject l) = 0x03 :: properties l ++ [0; 0; 9].
Proof.
  cbn [encode_value]. f_equal. f_equal. unfold properties.
  induction l as [|[k v] l IH]; [done|]. cbn [fmap list_fmap concat]. by rewrite <-IH.
Qed.

Lemma encode_ecma l :
  encode_value (AmfEcmaArray l) = 0x08 :: to_be 4 (zlen l) ++ properties l ++ [0; 0; 9].
Proof.
  cbn [encode_value]. do 3 f_equal. unfold properties.
  induction l as [|[k v] l IH]; [done|]. cbn [fmap list_fmap concat]. by rewrite <-IH.
Qed.

Lemma get_u16_to_be x rest : 0 <= x < 2 ^ 16 -> get_u16 (to_be 2 x ++ rest) = Ok (x, rest).
Proof.
  intros Hx. unfold get_u16. rewrite slice_ok by (rewrite ?length_app, ?length_to_be; lia).
  cbn [mbind outcome_bind]. rewrite drop_0, Nat.sub_0_r.
  rewrite (take_app_length' (to_be 2 x)), (drop_app_length' (to_be 2 x)) by (by rewrite length_to_be).
  rewrite from_be_to_be, Z.mod_small by done. done.
Qed.

Lemma encode_key_short key : zlen key <= 0xFFFF -> encode_key key = to_be 2 (zlen key) ++ key.
Proof. intros. unfold encode_key. by rewrite (proj2 (Z.ltb_ge _ _)). Qed.

Lemma to_nat_zlen {A} (l : list A) : Z.to_nat (zlen l) = length l.
Proof. unfold zlen. lia. Qed.

Lemma encode_value_nonempty v : amf_wf v -> encode_value v <> [].
Proof. intros []; cbn; try done. case_match; done. Qed.

(** The decoder reads one encoded value and leaves the rest. *)
Definition decodes (v : AmfValue) : Prop :=
  forall fuel rest, (length (encode_value v) <= fuel)%nat ->
    decode_value fuel (encode_value v ++ rest) = Ok (v, rest).

Lemma decode_properties_loop l fuel n acc rest :
  Forall (fun kv => good_key kv.1 /\ amf_wf kv.2) l -> Forall (fun kv => decodes kv.2) l ->
  (length (properties l) <= fuel)%nat -> (length (properties l) + 3 <= n)%nat ->
  loop n (decode_object_step (decode_value fuel)) (properties l ++ [0; 0; 9] ++ rest, acc) =
  Ok (acc ++ l, rest).
Proof.
  intros Hwf. revert n acc. induction Hwf as [|[key v] l [[Hne [Hk Hu]] Hv] Hwf IH]; intros n acc Hd Hf Hn.
  { destruct n as [|n]; [lia|]. cbn. by rewrite app_nil_r. }
  inv Hd as [|? ? Hdv Hd']. cbn [fst snd] in *.
  assert (Hp : properties ((key, v) :: l) = to_be 2 (zlen key) ++ key ++ encode_value v ++ properties l).
  { unfold properties, encode_property. cbn [fmap list_fmap concat fst snd].
    rewrite encode_key_short by done. by rewrite <-!app_assoc. }
  rewrite Hp in Hf, Hn |- *. rewrite <-!app_assoc.
  assert (0 < length key)%nat by (destruct key; simpl; [done|lia]).
  rewrite !length_app, length_to_be in Hf, Hn.
  destruct n as [|n]; [lia|]. cbn [loop]. unfold decode_object_step at 1.
  rewrite (proj2 (Nat.ltb_ge _ _)) by (rewrite length_app, length_to_be; lia).
  rewrite get_u16_to_be by (unfold zlen in *; lia). cbn [mbind outcome_bind]. rewrite to_nat_zlen.
  rewrite (proj2 (Nat.eqb_neq _ _)), (proj2 (Nat.ltb_ge _ _)) by (rewrite ?length_app; lia).
  rewrite take_app_length, drop_app_length, from_utf8_lossy_valid by done.
  rewrite (Hdv fuel) by lia. cbn [mbind outcome_bind].
  destruct (encode_value v ++ properties l ++ [0; 0; 9] ++ rest) eqn:He.
  { apply app_eq_nil in He as [He _]. by apply encode_value_nonempty in He. }
  rewrite IH by (done || lia). by rewrite <-app_assoc.
Qed.

Lemma decode_properties l fuel rest :
  Forall (fun kv => good_key kv.1 /\ amf_wf kv.2) l -> Forall (fun kv => decodes kv.2) l ->
  (length (properties l) <= fuel)%nat ->
  decode_object (decode_value fuel) (properties l ++ [0; 0; 9] ++ rest) = Ok (l, rest).
Proof.
  intros. unfold decode_object. rewrite decode_properties_loop by (done || len_lia). done.
Qed.

Lemma decode_encode v : amf_wf v -> decodes v.
Proof.
  induction v as [n|b|s|l IH| | |l IH|l IH|t z] using amf_ind; intros Hwf fuel rest Hf;
    (destruct fuel as [|fuel]; [exfalso; apply (encode_value_nonempty _ Hwf); destruct (encode_value _);
      [done|simpl in Hf; lia]|]); inversion Hwf as [? Hn| |? [Hs Hu]|? Hl| | |? Hl]; subst.
  - cbn [encode_value app decode_value Z.eqb]. rewrite (proj2 (Nat.ltb_ge _ _)) by (rewrite length_app, length_to_be; lia).
    rewrite (take_app_length' (to_be 8 n)), (drop_app_length' (to_be 8 n)) by (by rewrite length_to_be).
    rewrite from_be_to_be, Z.mod_small by done. done.
  - by destruct b.
  - cbn [encode_value]. rewrite (proj2 (Z.ltb_ge _ _)) by done.
    cbn [app decode_value Z.eqb Pos.eqb]. rewrite <-!app_assoc.
    rewrite (proj2 (Nat.ltb_ge _ _)) by (rewrite length_app, length_to_be; lia).
    rewrite get_u16_to_be by (unfold zlen in *; lia). cbn [mbind outcome_bind]. rewrite to_nat_zlen.
    rewrite (proj2 (Nat.ltb_ge _ _)) by (rewrite ?length_app; lia).
    by rewrite take_app_length, drop_app_length, from_utf8_lossy_valid.
  - rewrite encode_object in Hf |- *. cbn [app decode_value Z.eqb Pos.eqb]. rewrite <-app_assoc.
    cbn [length] in Hf. rewrite length_app in Hf. cbn [length] in Hf.
    rewrite decode_properties; [done|done| |lia]. rewrite Forall_forall in *. naive_solver.
  - done.
  - done.
  - rewrite encode_ecma in Hf |- *. cbn [app decode_value Z.eqb Pos.eqb]. rewrite <-!app_assoc.
    cbn [length] in Hf. rewrite !length_app, length_to_be in Hf. cbn [length] in Hf.
    rewrite (proj2 (Nat.ltb_ge _ _)) by (rewrite length_app, length_to_be; lia).
    rewrite (drop_app_length' (to_be 4 _)) by (by rewrite length_to_be).
    rewrite decode_properties; [done|done| |lia]. rewrite Forall_forall in *. naive_solver.
Qed.

Lemma amf_decode_encode vs : Forall amf_wf vs -> amf_decode (amf_encode vs) = Ok vs.
Proof.
  intros Hwf. unfold amf_decode.
  assert (forall fuel acc, (length (amf_encode vs) < fuel)%nat ->
    loop fuel decode_step (amf_encode vs, acc) = Ok (acc ++ vs)) as H; [|by rewrite H by lia].
  induction Hwf as [|v vs Hv Hwf IH]; intros fuel acc Hf; (destruct fuel as [|fuel]; [lia|]).
  { cbn. by rewrite app_nil_r. }
  change (amf_encode (v :: vs)) with (encode_value v ++ amf_encode vs) in *.
  pose proof (encode_value_nonempty v Hv) as Hne.
  assert (0 < length (encode_value v))%nat by (destruct (encode_value v); simpl; [done|lia]).
  rewrite length_app in Hf. cbn [loop]. unfold decode_step at 1.
  destruct (encode_value v ++ amf_encode vs) eqn:He; [by apply app_eq_nil in He as [??]|].
  rewrite <-He. rewrite (decode_encode v Hv) by (rewrite length_app; lia).
  cbn [mbind outcome_bind]. rewrite IH by lia. by rewrite <-app_assoc.
Qed.

(** AMF0 round trip: [AmfDecoder::decode] reads back what
    [AmfEncoder::encode] wrote, nested objects and arrays included. *)
Theorem amf_round_trip vs : Forall amf_wf vs -> amf_decode (amf_encode vs) = Ok vs.
Proof. apply amf_decode_encode. Qed.

Lemma amf_round_trip_witness :
  let vs := [AmfString [0x63; 0xC3; 0xA9]; AmfNumber 0x3FF0000000000000;
             AmfObject [([0x61], AmfEcmaArray [([0x62], AmfBoolean true)]); ([0x63], AmfNull)]] in
  Forall amf_wf vs /\ amf_decode (amf_encode vs) = Ok vs.
Proof.
  assert (Forall amf_wf [AmfString [0x63; 0xC3; 0xA9]; AmfNumber 0x3FF0000000000000;
             AmfObject [([0x61], AmfEcmaArray [([0x62], AmfBoolean true)]); ([0x63], AmfNull)]]) as H
    by (repeat constructor; vm_compute; (reflexivity || discriminate)).
  split; [exact H|apply (amf_round_trip _ H)].
Defined.

(** ** Totality *)

Lemma get_u16_ok buf (Q : Z * bytes -> Prop) R :
  (2 <= length buf)%nat -> (forall z b, length b = (length buf - 2)%nat -> Q (z, b)) -> wp (get_u16 buf) Q R.
Proof. intros H HQ. unfold get_u16. wp_auto; [lia|lia|]. apply HQ. by rewrite length_drop. Qed.

Lemma decode_object_ok dv n buf :
  (forall b, (length b < n)%nat -> wp (dv b) (fun '(_, b') => (length b' < length b)%nat) (fun _ => True)) ->
  (length buf < n)%nat ->
  wp (decode_object dv buf) (fun '(_, b) => (length b <= length buf)%nat) (fun _ => True).
Proof.
  intros Hdv Hn. unfold decode_object.
  apply (wp_loop _ (fun st => (length st.1 <= length buf)%nat) (fun st => length st.1)); [|done|cbn; lia].
  intros [b pairs] Hb. cbn [fst] in Hb. unfold decode_object_step.
  destruct (Nat.ltb_spec (length b) 2); [by cbn|].
  apply wp_bind, get_u16_ok; [lia|]. intros k c Hc.
  destruct (Nat.eqb_spec (Z.to_nat k) 0); [cbn; rewrite length_drop; lia|].
  destruct (Nat.ltb_spec (length c) (Z.to_nat k)); [cbn; lia|].
  pose proof (length_drop c (Z.to_nat k)) as Hd.
  destruct (drop (Z.to_nat k) c) as [|x t] eqn:Hdr; [cbn; lia|].
  apply wp_bind. eapply wp_mono; [apply Hdv; lia| |done]. intros [v b'] Hv. cbn. lia.
Qed.

(** With more fuel than bytes a value is decoded or refused, and bytes are
    consumed. *)
Lemma decode_ok fuel buf :
  (length buf < fuel)%nat ->
  wp (decode_value fuel buf) (fun '(_, b) => (length b < length buf)%nat) (fun _ => True).
Proof.
  revert buf. induction fuel as [|fuel IH]; [lia|].
  intros [|ty buf] Hl; [done|]. cbn [decode_value]. cbn [length] in *.
  repeat match goal with |- wp (if ty =? ?k then _ else _) _ _ => destruct (ty =? k) end; try done.
  - wp_auto; wp_side. rewrite length_drop. lia.
  - destruct buf; wp_side. simpl. lia.
  - destruct (Nat.ltb_spec (length buf) 2); [done|].
    apply wp_bind, get_u16_ok; [lia|]. intros n b Hb. destruct (Nat.ltb_spec (length b) (Z.to_nat n)); [done|].
    cbn. rewrite length_drop. lia.
  - apply wp_bind. eapply wp_mono; [by apply (decode_object_ok _ fuel); [|lia]| |done].
    intros [pairs b] Hb. cbn. lia.
  - cbn. lia.
  - cbn. lia.
  - destruct (Nat.ltb_spec (length buf) 4); [done|]. apply wp_bind.
    eapply wp_mono; [by apply (decode_object_ok _ fuel); [|rewrite length_drop; lia]| |done].
    intros [pairs b] Hb. rewrite length_drop in Hb. cbn. lia.
Qed.

(** [AmfDecoder::decode] ends without panicking on every input, with the
    values or with an error. *)
Theorem amf_decode_total data : safe (amf_decode data).
Proof.
  unfold safe, amf_decode.
  apply (wp_loop _ (fun _ => True) (fun st => length st.1)); [|done|cbn; lia].
  intros [buf values] _. unfold decode_step. destruct buf as [|b buf]; [done|].
  apply wp_bind. eapply wp_mono; [apply decode_ok; lia| |done].
  intros [v rest] Hr. cbn. split; [done|]. cbn in Hr. lia.
Qed.

(** What the encoder writes and the decoder does not read back: a string
    of more than 65535 bytes is written as a long string, which the decoder
    rejects; strict arrays and dates are written as nothing. *)
Theorem amf_asymmetry s :
  0xFFFF < zlen s ->
  amf_decode (amf_encode [AmfString s]) = Err (Anyhow "Unsupported AMF type") /\
  (forall l t z, amf_encode [AmfStrictArray l; AmfDate t z] = []).
Proof.
  intros Hs. split; [|done]. unfold amf_encode. cbn [fmap list_fmap concat encode_value].
  rewrite (proj2 (Z.ltb_lt _ _) Hs), app_nil_r. done.
Qed.

Lemma amf_asymmetry_witness :
  let s := replicate (Z.to_nat 65536) 0x61 in
  amf_decode (amf_encode [AmfString s]) = Err (Anyhow "Unsupported AMF type").
Proof. apply amf_asymmetry. unfold zlen. rewrite length_replicate. lia. Defined.
