(* ===== verification/Rtmp.v ===== *)
(** * Rtmp: RTMP messages and the chunk stream

    [rtmp/src/message.rs]: the messages, the encoder that cuts a message into
    chunks and the parser that reassembles them.  The parser keeps, per chunk
    stream id, the header fields later chunks inherit and the payload read so
    far. *)

From S2P Require Import Prelude Frame.
Open Scope Z_scope.

(** ** Messages *)

Definition MSG_SET_CHUNK_SIZE : Z := 1.
Definition MSG_ABORT : Z := 2.
Definition MSG_ACK : Z := 3.
Definition MSG_USER_CONTROL : Z := 4.
Definition MSG_WINDOW_ACK_SIZE : Z := 5.
Definition MSG_SET_PEER_BW : Z := 6.
Definition MSG_AUDIO : Z := 8.
Definition MSG_VIDEO : Z := 9.
Definition MSG_AMF0_DATA : Z := 18.
Definition MSG_AMF0_COMMAND : Z := 20.

Inductive RtmpMessage : Type :=
| SetChunkSize (size : Z)
| AbortMessage (stream_id : Z)
| Ack (seq : Z)
| UserControl (event_type : Z) (data : bytes)
| WindowAckSize (size : Z)
| SetPeerBandwidth (size limit_type : Z)
| AudioMessage (stream_id timestamp : Z) (data : bytes)
| VideoMessage (stream_id timestamp : Z) (data : bytes)
| Amf0Data (stream_id timestamp : Z) (data : bytes)
| Amf0Command (stream_id timestamp : Z) (data : bytes).

Definition type_id (m : RtmpMessage) : Z :=
  match m with
  | SetChunkSize _ => MSG_SET_CHUNK_SIZE
  | AbortMessage _ => MSG_ABORT
  | Ack _ => MSG_ACK
  | UserControl _ _ => MSG_USER_CONTROL
  | WindowAckSize _ => MSG_WINDOW_ACK_SIZE
  | SetPeerBandwidth _ _ => MSG_SET_PEER_BW
  | AudioMessage _ _ _ => MSG_AUDIO
  | VideoMessage _ _ _ => MSG_VIDEO
  | Amf0Data _ _ _ => MSG_AMF0_DATA
  | Amf0Command _ _ _ => MSG_AMF0_COMMAND
  end.

Definition message_stream_id (m : RtmpMessage) : Z :=
  match m with
  | AudioMessage s _ _ | VideoMessage s _ _ | Amf0Data s _ _ | Amf0Command s _ _ => s
  | _ => 0
  end.

Definition message_timestamp (m : RtmpMessage) : Z :=
  match m with
  | AudioMessage _ t _ | VideoMessage _ t _ | Amf0Data _ t _ | Amf0Command _ t _ => t
  | _ => 0
  end.

Definition payload (m : RtmpMessage) : bytes :=
  match m with
  | SetChunkSize n | AbortMessage n | Ack n | WindowAckSize n => to_be 4 n
  | UserControl event data => to_be 2 event ++ data
  | SetPeerBandwidth n limit => to_be 4 n ++ [limit]
  | AudioMessage _ _ d | VideoMessage _ _ d | Amf0Data _ _ d | Amf0Command _ _ d => d
  end.

(** ** The encoder *)

Record RtmpMessageEncoder : Type := { enc_chunk_size : nat }.

Definition encoder_new : RtmpMessageEncoder := {| enc_chunk_size := 128 |}.
Definition encoder_set_chunk_size (e : RtmpMessageEncoder) (size : nat) : RtmpMessageEncoder :=
  {| enc_chunk_size := size |}.

Definition encode_basic_header (fmt csid : Z) : bytes :=
  if 64 + 256 <=? csid then
    let adjusted := csid - 64 in
    [u8 (fmt .<< 6) .| 1; adjusted .& 0xFF; (adjusted .>> 8) .& 0xFF]
  else if 64 <=? csid then [u8 (fmt .<< 6); u8 (csid - 64)]
  else [u8 (fmt .<< 6) .| u8 csid].

Definition message_csid (type_id : Z) : Z :=
  if type_id =? MSG_AUDIO then 4
  else if type_id =? MSG_VIDEO then 6
  else if type_id =? MSG_AMF0_COMMAND then 3
  else if type_id =? MSG_AMF0_DATA then 8
  else 2.

Definition message_header (m : RtmpMessage) : bytes :=
  let n := zlen (payload m) in
  let s := message_stream_id m in
  let timestamp := message_timestamp m in
  let ts_field := if 0xFFFFFF <=? timestamp then 0xFFFFFF else timestamp in
  [(ts_field .>> 16) .& 0xFF; (ts_field .>> 8) .& 0xFF; ts_field .& 0xFF;
   (n .>> 16) .& 0xFF; (n .>> 8) .& 0xFF; n .& 0xFF;
   type_id m;
   s .& 0xFF; (s .>> 8) .& 0xFF; (s .>> 16) .& 0xFF; 0] ++
  (if 0xFFFFFF <=? timestamp then to_be 4 timestamp else []).

(** The [while offset < payload.len()] loop. *)
Definition encode_step (chunk_size : nat) (csid : Z) (payload : bytes) (st : nat * bytes) :
    result (nat * bytes + bytes) :=
  let '(offset, buf) := st in
  if (offset <? length payload)%nat then
    let chunk_end := ((offset + chunk_size) `min` length payload)%nat in
    part ← slice payload offset chunk_end;
    let buf := buf ++ part in
    Ok (inl (chunk_end,
      if (chunk_end <? length payload)%nat then buf ++ encode_basic_header 3 csid else buf))
  else Ok (inr buf).

Definition encode (e : RtmpMessageEncoder) (m : RtmpMessage) : result bytes :=
  let csid := message_csid (type_id m) in
  loop (S (length (payload m))) (encode_step (enc_chunk_size e) csid (payload m))
    (0%nat, encode_basic_header 0 csid ++ message_header m).

(** ** The parser *)

Record ChunkState : Type := {
  is_abs_timestamp : bool;
  has_extended_ts : bool;
  ts_field : Z;
  cs_timestamp : Z;
  msg_length : Z;
  msg_type_id : Z;
  msg_stream_id : Z;
  cs_buffer : bytes
}.

Record RtmpMessageParser : Type := {
  chunk_size : nat;
  chunk_states : gmap Z ChunkState;
  rp_buffer : bytes
}.

Definition parser_new : RtmpMessageParser :=
  {| chunk_size := 128; chunk_states := ∅; rp_buffer := [] |}.

Definition set_chunk_size (p : RtmpMessageParser) (size : Z) : RtmpMessageParser :=
  {| chunk_size := Z.to_nat size; chunk_states := chunk_states p; rp_buffer := rp_buffer p |}.

Definition set_buffer (p : RtmpMessageParser) (b : bytes) : RtmpMessageParser :=
  {| chunk_size := chunk_size p; chunk_states := chunk_states p; rp_buffer := b |}.

Definition save_state (p : RtmpMessageParser) (csid : Z) (s : ChunkState) : RtmpMessageParser :=
  {| chunk_size := chunk_size p; chunk_states := <[csid := s]> (chunk_states p);
     rp_buffer := rp_buffer p |}.

(** Step 1: the basic header; [None] when its bytes are not there yet. *)
Definition parse_basic_header (buf : bytes) : result (option (Z * nat)) :=
  basic_header ← idx buf 0;
  let csid_raw := basic_header .& 0x3F in
  if csid_raw =? 0 then
    if (length buf <? 2)%nat then Ok None
    else b1 ← idx buf 1; Ok (Some (b1 + 64, 2%nat))
  else if csid_raw =? 1 then
    if (length buf <? 3)%nat then Ok None
    else low ← idx buf 1; high ← idx buf 2; Ok (Some (64 + low + high * 256, 3%nat))
  else Ok (Some (csid_raw, 1%nat)).

Definition be24_at (buf : bytes) (pos : nat) : result Z :=
  a ← idx buf pos; b ← idx buf (pos + 1); c ← idx buf (pos + 2); Ok (from_be [0; a; b; c]).

Definition be32_at (buf : bytes) (pos : nat) : result Z :=
  a ← idx buf pos; b ← idx buf (pos + 1); c ← idx buf (pos + 2); d ← idx buf (pos + 3);
  Ok (from_be [a; b; c; d]).

(** The context restored from the chunk stream, or a fresh one. *)
Definition restore (fmt : Z) (prev : option ChunkState) : ChunkState :=
  match prev with
  | Some p =>
      {| is_abs_timestamp := false; has_extended_ts := has_extended_ts p; ts_field := ts_field p;
         cs_timestamp := cs_timestamp p; msg_length := msg_length p; msg_type_id := msg_type_id p;
         msg_stream_id := msg_stream_id p;
         cs_buffer := if fmt =? 0 then [] else cs_buffer p |}
  | None =>
      {| is_abs_timestamp := false; has_extended_ts := false; ts_field := 0; cs_timestamp := 0;
         msg_length := 0; msg_type_id := 0; msg_stream_id := 0; cs_buffer := [] |}
  end.

(** Step 2: the message header of format [fmt] at [pos]. *)
Definition apply_header (fmt : Z) (buf : bytes) (pos : nat) (s : ChunkState) : result ChunkState :=
  if fmt =? 0 then
    s0 ← idx buf (pos + 7); s1 ← idx buf (pos + 8); s2 ← idx buf (pos + 9); s3 ← idx buf (pos + 10);
    ty ← idx buf (pos + 6);
    len ← be24_at buf (pos + 3);
    ts ← be24_at buf pos;
    Ok {| is_abs_timestamp := true; has_extended_ts := false; ts_field := ts;
          cs_timestamp := cs_timestamp s; msg_length := len; msg_type_id := ty;
          msg_stream_id := from_le [s0; s1; s2; s3]; cs_buffer := cs_buffer s |}
  else if fmt =? 1 then
    ty ← idx buf (pos + 6);
    len ← be24_at buf (pos + 3);
    ts ← be24_at buf pos;
    Ok {| is_abs_timestamp := is_abs_timestamp s; has_extended_ts := has_extended_ts s; ts_field := ts;
          cs_timestamp := cs_timestamp s; msg_length := len; msg_type_id := ty;
          msg_stream_id := msg_stream_id s; cs_buffer := cs_buffer s |}
  else if fmt =? 2 then
    ts ← be24_at buf pos;
    Ok {| is_abs_timestamp := is_abs_timestamp s; has_extended_ts := has_extended_ts s; ts_field := ts;
          cs_timestamp := cs_timestamp s; msg_length := msg_length s; msg_type_id := msg_type_id s;
          msg_stream_id := msg_stream_id s; cs_buffer := cs_buffer s |}
  else Ok s.

Definition header_len (fmt : Z) : nat :=
  if fmt =? 0 then 11%nat else if fmt =? 1 then 7%nat else if fmt =? 2 then 3%nat else 0%nat.

(** Step 3: the extended timestamp; [None] when its bytes are not there yet. *)
Definition extended_timestamp (fmt : Z) (buf : bytes) (pos : nat) (s : ChunkState) :
    result (option (ChunkState * nat)) :=
  if ts_field s =? 0xFFFFFF then
    if (length buf <? pos + 4)%nat then Ok None else
    ts ← be32_at buf pos;
    Ok (Some ({| is_abs_timestamp := is_abs_timestamp s; has_extended_ts := true; ts_field := ts;
                 cs_timestamp := cs_timestamp s; msg_length := msg_length s;
                 msg_type_id := msg_type_id s; msg_stream_id := msg_stream_id s;
                 cs_buffer := cs_buffer s |}, (pos + 4)%nat))
  else if (fmt =? 3) && has_extended_ts s then
    if (length buf <? pos + 4)%nat then Ok None else Ok (Some (s, (pos + 4)%nat))
  else Ok (Some (s, pos)).

(** The first four bytes of a control message, with the default of a short one. *)
Definition control_u32 (payload : bytes) (default : Z) : result Z :=
  if (4 <=? length payload)%nat then be32_at payload 0 else Ok default.

Definition make_message (timestamp msg_type_id msg_stream_id : Z) (payload : bytes) :
    result RtmpMessage :=
  if msg_type_id =? MSG_SET_CHUNK_SIZE then size ← control_u32 payload 128; Ok (SetChunkSize size)
  else if msg_type_id =? MSG_ABORT then sid ← control_u32 payload 0; Ok (AbortMessage sid)
  else if msg_type_id =? MSG_ACK then seq ← control_u32 payload 0; Ok (Ack seq)
  else if msg_type_id =? MSG_USER_CONTROL then
    event ← (if (2 <=? length payload)%nat
             then a ← idx payload 0; b ← idx payload 1; Ok (from_be [a; b]) else Ok 0);
    rest ← slice payload 2 (length payload);
    Ok (UserControl event rest)
  else if msg_type_id =? MSG_WINDOW_ACK_SIZE then
    size ← control_u32 payload 2500000; Ok (WindowAckSize size)
  else if msg_type_id =? MSG_SET_PEER_BW then
    size ← control_u32 payload 2500000;
    limit ← (if (5 <=? length payload)%nat then idx payload 4 else Ok 2);
    Ok (SetPeerBandwidth size limit)
  else if msg_type_id =? MSG_AUDIO then Ok (AudioMessage msg_stream_id timestamp payload)
  else if msg_type_id =? MSG_VIDEO then Ok (VideoMessage msg_stream_id timestamp payload)
  else if msg_type_id =? MSG_AMF0_DATA then Ok (Amf0Data msg_stream_id timestamp payload)
  else if msg_type_id =? MSG_AMF0_COMMAND then Ok (Amf0Command msg_stream_id timestamp payload)
  else Ok (Amf0Data msg_stream_id timestamp payload).

Definition saved_state (s : ChunkState) (timestamp : Z) (buffer : bytes) : ChunkState :=
  {| is_abs_timestamp := is_abs_timestamp s; has_extended_ts := has_extended_ts s;
     ts_field := ts_field s; cs_timestamp := timestamp; msg_length := msg_length s;
     msg_type_id := msg_type_id s; msg_stream_id := msg_stream_id s; cs_buffer := buffer |}.

(** Step 5: the payload [data] read so far is complete, or is kept. *)
Definition finish_chunk (p : RtmpMessageParser) (csid : Z) (prev : option ChunkState)
    (s : ChunkState) (data : bytes) : result (RtmpMessageParser * option RtmpMessage) :=
  if msg_length s <=? zlen data then
    let ts := if is_abs_timestamp s then ts_field s
              else u32 (from_option cs_timestamp 0 prev + ts_field s) in
    let p := save_state p csid (saved_state s ts []) in
    p ← (if (msg_type_id s =? MSG_SET_CHUNK_SIZE) && (4 <=? length data)%nat then
           new_size ← be32_at data 0; Ok (set_chunk_size p (Z.max new_size 1))
         else Ok p);
    m ← make_message ts (msg_type_id s) (msg_stream_id s) data;
    Ok (p, Some m)
  else Ok (save_state p csid (saved_state s (cs_timestamp s) data), None).

(** Step 4: up to [chunk_size] bytes of payload. *)
Definition read_chunk (p : RtmpMessageParser) (csid : Z) (prev : option ChunkState)
    (s : ChunkState) (pos : nat) : result (RtmpMessageParser * option RtmpMessage) :=
  let buf := rp_buffer p in
  let remaining := Z.max 0 (msg_length s - zlen (cs_buffer s)) in
  let chunk_to_read := Z.to_nat (Z.min remaining (Z.of_nat (chunk_size p))) in
  left ← usub (length buf) pos;
  let available := (chunk_to_read `min` left)%nat in
  if (available =? 0)%nat then
    Ok (if remaining =? 0 then set_buffer p (drop pos buf) else p, None)
  else
    part ← slice buf pos (pos + available);
    finish_chunk (set_buffer p (drop (pos + available) buf)) csid prev s (cs_buffer s ++ part).

Definition try_parse_one (p : RtmpMessageParser) : result (RtmpMessageParser * option RtmpMessage) :=
  let buf := rp_buffer p in
  match buf with
  | [] => Ok (p, None)
  | basic_header :: _ =>
      let fmt := (basic_header .>> 6) .& 0x03 in
      bh ← parse_basic_header buf;
      match bh with
      | None => Ok (p, None)
      | Some (csid, pos) =>
          if (length buf <? pos + header_len fmt)%nat then Ok (p, None) else
          let prev := chunk_states p !! csid in
          s ← apply_header fmt buf pos (restore fmt prev);
          ext ← extended_timestamp fmt buf (pos + header_len fmt) s;
          match ext with
          | None => Ok (p, None)
          | Some (s, pos) => read_chunk p csid prev s pos
          end
      end
  end.

(** The loop of [feed]: it stops at an error and when a call makes no progress. *)
Definition feed_step (st : RtmpMessageParser * list RtmpMessage) :
    result (RtmpMessageParser * list RtmpMessage + RtmpMessageParser * list RtmpMessage) :=
  let '(p, messages) := st in
  match try_parse_one p with
  | Ok (p', Some m) => Ok (inl (p', messages ++ [m]))
  | Ok (p', None) =>
      Ok (if (length (rp_buffer p') =? length (rp_buffer p))%nat then inr (p', messages)
          else inl (p', messages))
  | Err _ => Ok (inr (p, messages))
  | Panic => Panic
  | NoFuel => NoFuel
  end.

Definition feed (p : RtmpMessageParser) (data : bytes) :
    result (RtmpMessageParser * list RtmpMessage) :=
  let p := set_buffer p (rp_buffer p ++ data) in
  loop (S (length (rp_buffer p))) feed_step (p, []).

Definition buffer_len (p : RtmpMessageParser) : nat := length (rp_buffer p).
Definition peek_front (p : RtmpMessageParser) (max : nat) : bytes :=
  take (length (rp_buffer p) `min` max)%nat (rp_buffer p).

Definition has_stuck_data (p : RtmpMessageParser) : bool :=
  match rp_buffer p with
  | [] => false
  | b0 :: tail =>
      if bool_decide (chunk_states p = ∅) then false else
      let fmt := (b0 .>> 6) .& 0x03 in
      let csid_raw := b0 .& 0x3F in
      let csid_actual :=
        match tail with
        | b1 :: b2 :: _ =>
            if csid_raw =? 0 then b1 + 64
            else if csid_raw =? 1 then 64 + b1 + b2 * 256 else csid_raw
        | [b1] => if csid_raw =? 0 then b1 + 64 else csid_raw
        | [] => csid_raw
        end in
      (fmt =? 3) && bool_decide (chunk_states p !! csid_actual = None)
  end.

(** ** The chunks of an encoded message *)

Definition first_header (m : RtmpMessage) : bytes :=
  encode_basic_header 0 (message_csid (type_id m)) ++ message_header m.

Definition next_chunk (csid : Z) (d : bytes) : bytes := encode_basic_header 3 csid ++ d.

Definition message_chunks (n : nat) (m : RtmpMessage) : list bytes :=
  match chunks n (payload m) with
  | [] => [first_header m]
  | d :: ds => (first_header m ++ d) :: (next_chunk (message_csid (type_id m)) <$> ds)
  end.

Lemma encode_loop n csid pl fuel offset buf :
  (0 < n)%nat -> (offset < length pl)%nat -> (length pl - offset < fuel)%nat ->
  exists d ds, chunks n (drop offset pl) = d :: ds /\
    loop fuel (encode_step n csid pl) (offset, buf) =
    Ok (buf ++ d ++ concat (next_chunk csid <$> ds)).
Proof.
  intros Hn. revert offset buf. induction fuel as [|fuel IH]; intros offset buf Ho Hf; [lia|].
  rewrite chunks_cons by (done || (intros H%(f_equal length); rewrite length_drop in H; simpl in H; lia)).
  eexists _, _. split; [done|]. cbn [loop]. unfold encode_step at 1.
  rewrite (proj2 (Nat.ltb_lt _ _) Ho). set (e := ((offset + n) `min` length pl)%nat).
  rewrite slice_ok by lia. cbn [mbind outcome_bind].
  assert (take (e - offset) (drop offset pl) = take n (drop offset pl)) as ->.
  { destruct (decide (offset + n <= length pl)%nat); [f_equal; lia|].
    rewrite !take_ge by (rewrite length_drop; lia). done. }
  rewrite drop_drop. destruct (Nat.ltb_spec e (length pl)).
  - replace (offset + n)%nat with e by lia.
    destruct (IH e ((buf ++ take n (drop offset pl)) ++ encode_basic_header 3 csid)) as (d & ds & -> & ->);
      [lia..|].
    unfold next_chunk. cbn [fmap list_fmap concat]. by rewrite <-!app_assoc.
  - destruct fuel as [|fuel]; [lia|]. cbn [loop]. unfold encode_step at 1.
    rewrite (proj2 (Nat.ltb_ge e (length pl))) by lia.
    rewrite (drop_ge pl (offset + n)) by lia. cbn. by rewrite app_nil_r.
Qed.

Lemma encode_chunks e m :
  (0 < enc_chunk_size e)%nat -> encode e m = Ok (concat (message_chunks (enc_chunk_size e) m)).
Proof.
  intros Hn. unfold encode, message_chunks, first_header.
  destruct (decide (payload m = [])) as [Hp|Hp].
  - rewrite Hp. cbn. by rewrite app_nil_r.
  - destruct (encode_loop (enc_chunk_size e) (message_csid (type_id m)) (payload m)
      (S (length (payload m))) 0 (encode_basic_header 0 (message_csid (type_id m)) ++ message_header m))
      as (d & ds & Hc & ->); [done|destruct (payload m); simpl; [done|lia]|lia|].
    rewrite drop_0 in Hc. rewrite Hc. cbn [concat]. by rewrite <-!app_assoc.
Qed.

(** ** What the parser makes of one chunk *)

(** Messages the encoder can represent and the parser delivers: a non-empty
    payload and header fields within their 24 bits. *)
Record message_wf (m : RtmpMessage) : Prop := {
  wf_payload : payload m <> [];
  wf_length : zlen (payload m) < 2 ^ 24;
  wf_timestamp : 0 <= message_timestamp m < 0xFFFFFF;
  wf_stream_id : 0 <= message_stream_id m < 2 ^ 24;
  wf_fields :
    match m with
    | SetChunkSize n => 1 <= n < 2 ^ 32
    | AbortMessage n | Ack n | WindowAckSize n | SetPeerBandwidth n _ => is_u32 n
    | UserControl event _ => is_u16 event
    | _ => True
    end
}.

Definition set_timestamp (m : RtmpMessage) (ts : Z) : RtmpMessage :=
  match m with
  | AudioMessage s _ d => AudioMessage s ts d
  | VideoMessage s _ d => VideoMessage s ts d
  | Amf0Data s _ d => Amf0Data s ts d
  | Amf0Command s _ d => Amf0Command s ts d
  | m => m
  end.

Lemma set_timestamp_id m : set_timestamp m (message_timestamp m) = m.
Proof. by destruct m. Qed.

Lemma be32_at_to_be x l : is_u32 x -> be32_at (to_be 4 x ++ l) 0 = Ok x.
Proof.
  intros Hx. unfold be32_at. rewrite to_be_4. cbn -[from_be Z.div Z.modulo]. f_equal.
  rewrite <-to_be_4, from_be_to_be. apply Z.mod_small. exact Hx.
Qed.

Lemma control_u32_to_be x l default : is_u32 x -> control_u32 (to_be 4 x ++ l) default = Ok x.
Proof.
  intros. unfold control_u32. rewrite length_app, length_to_be.
  rewrite (proj2 (Nat.leb_le _ _)) by lia. by apply be32_at_to_be.
Qed.

Lemma make_message_payload m ts :
  message_wf m -> make_message ts (type_id m) (message_stream_id m) (payload m) = Ok (set_timestamp m ts).
Proof.
  intros [_ _ _ _ Hf]. destruct m as [n|n|n|ev d|n|n l|s t d|s t d|s t d|s t d]; try done;
    cbn [payload]; unfold make_message;
    try (rewrite <-(app_nil_r (to_be 4 n)));
    cbn -[control_u32 idx slice to_be Nat.leb];
    rewrite ?control_u32_to_be by (done || (unfold is_u32; lia)); try done.
  - rewrite to_be_2. cbn [app]. rewrite slice_ok by (cbn [length]; lia).
    cbn -[from_be Z.div Z.modulo].
    rewrite Nat.sub_0_r, take_ge by done. rewrite drop_0.
    unfold is_u16 in Hf. replace (_ * 256 + _) with ev by div_lia. done.
  - rewrite app_nil_r, control_u32_to_be by done. done.
Qed.

(** The chunk state while [m] is being read: [base] is the timestamp of the
    previous message of the chunk stream. *)
Definition mid_state (m : RtmpMessage) (base : Z) (abs : bool) (b : bytes) : ChunkState :=
  {| is_abs_timestamp := abs; has_extended_ts := false; ts_field := message_timestamp m;
     cs_timestamp := base; msg_length := zlen (payload m); msg_type_id := type_id m;
     msg_stream_id := message_stream_id m; cs_buffer := b |}.

Definition last_timestamp (p : RtmpMessageParser) (csid : Z) : Z :=
  from_option cs_timestamp 0 (chunk_states p !! csid).

Lemma read_chunk_part p csid prev m base abs pre b d rest :
  rp_buffer p = pre ++ d ++ rest -> d <> [] ->
  d = take (chunk_size p) (drop (length b) (payload m)) ->
  read_chunk p csid prev (mid_state m base abs b) (length pre) =
  finish_chunk (set_buffer p rest) csid prev (mid_state m base abs b) (b ++ d).
Proof.
  intros Hbuf Hne Hd. unfold read_chunk. cbn [msg_length cs_buffer mid_state].
  assert (Hl : length d = (chunk_size p `min` (length (payload m) - length b))%nat)
    by (by rewrite Hd, length_take, length_drop).
  assert (0 < length d)%nat by (destruct d; simpl; [done|lia]).
  rewrite Hbuf. rewrite !length_app.
  unfold usub. rewrite (proj2 (Nat.leb_le _ _)) by lia. cbn [mbind outcome_bind].
  replace (_ `min` _)%nat with (length d) by (unfold zlen; lia).
  rewrite (proj2 (Nat.eqb_neq _ _)) by lia.
  rewrite slice_mid by lia. cbn [mbind outcome_bind]. f_equal. f_equal.
  rewrite (app_assoc pre d rest), <-length_app. apply drop_app_length.
Qed.

(** Chunk stream ids of the encoder fit the one-byte basic header. *)
Lemma message_csid_small ty : 2 <= message_csid ty < 9.
Proof. unfold message_csid. repeat case_match; lia. Qed.

Lemma basic_header_small fmt csid :
  0 <= fmt < 4 -> 2 <= csid < 9 ->
  encode_basic_header fmt csid = [fmt * 64 + csid] /\
  (fmt * 64 + csid) .& 0x3F = csid /\ ((fmt * 64 + csid) .>> 6) .& 0x03 = fmt.
Proof.
  intros Hf Hc. unfold encode_basic_header.
  rewrite (proj2 (Z.leb_gt _ _)), (proj2 (Z.leb_gt _ _)) by lia.
  unfold u8. bits_arith.
  assert (fmt = 0 \/ fmt = 1 \/ fmt = 2 \/ fmt = 3) as Hfs by lia.
  assert (csid = 2 \/ csid = 3 \/ csid = 4 \/ csid = 5 \/ csid = 6 \/ csid = 7 \/ csid = 8) as Hcs by lia.
  repeat destruct Hfs as [->|Hfs]; subst; repeat destruct Hcs as [->|Hcs]; subst; done.
Qed.

(** The twelve bytes in front of the first chunk and what they decode to. *)
Lemma first_header_bytes m :
  message_wf m ->
  exists t2 t1 t0 l2 l1 l0 s0 s1 s2,
    first_header m = [message_csid (type_id m); t2; t1; t0; l2; l1; l0; type_id m; s0; s1; s2; 0] /\
    from_be [0; t2; t1; t0] = message_timestamp m /\ from_be [0; l2; l1; l0] = zlen (payload m) /\
    from_le [s0; s1; s2; 0] = message_stream_id m.
Proof.
  intros [_ Hl Ht Hs _]. pose proof (message_csid_small (type_id m)) as Hc.
  unfold first_header, message_header.
  rewrite (proj1 (basic_header_small 0 _ ltac:(lia) Hc)).
  rewrite (proj2 (Z.leb_gt 0xFFFFFF (message_timestamp m))) by lia.
  do 9 eexists. split; [reflexivity|].
  assert (0 <= zlen (payload m)) by (unfold zlen; lia).
  change (from_le [?a; ?b; ?c; 0]) with (from_be [0; c; b; a]).
  rewrite !from_be_4. bits_arith. split_and!; div_lia.
Qed.

Lemma parse_first_chunk p m d rest :
  message_wf m -> (0 < chunk_size p)%nat -> d = take (chunk_size p) (payload m) ->
  let csid := message_csid (type_id m) in
  try_parse_one (set_buffer p (first_header m ++ d ++ rest)) =
  finish_chunk (set_buffer p rest) csid (chunk_states p !! csid)
    (mid_state m (last_timestamp p csid) true []) d.
Proof.
  intros Hwf Hn Hd csid. pose proof (message_csid_small (type_id m)) as Hc.
  destruct (first_header_bytes m Hwf) as (t2 & t1 & t0 & l2 & l1 & l0 & s0 & s1 & s2 & Hh & Ht & Hl & Hs).
  destruct (basic_header_small 0 csid ltac:(lia) Hc) as (_ & Hraw & Hfmt).
  rewrite Z.mul_0_l, Z.add_0_l in Hraw, Hfmt.
  assert (d <> []) as Hne.
  { rewrite Hd. pose proof (wf_payload m Hwf). destruct (payload m), (chunk_size p); (done || lia). }
  pose proof (read_chunk_part (set_buffer p (first_header m ++ d ++ rest)) csid (chunk_states p !! csid)
    m (last_timestamp p csid) true (first_header m) [] d rest eq_refl Hne Hd) as Hr.
  rewrite Hh in Hr |- *. cbn [length app] in Hr.
  unfold try_parse_one. cbn [app set_buffer rp_buffer]. fold csid. rewrite Hfmt.
  unfold parse_basic_header. rewrite idx_0. cbn [mbind outcome_bind]. rewrite Hraw.
  rewrite (proj2 (Z.eqb_neq csid 0)), (proj2 (Z.eqb_neq csid 1)) by lia.
  cbn [mbind outcome_bind header_len Z.eqb length Nat.add Nat.ltb Nat.leb].
  unfold apply_header, be24_at. cbn [Z.eqb Nat.add idx lookup list_lookup mbind outcome_bind].
  rewrite Ht, Hl, Hs. unfold extended_timestamp. cbn [ts_field].
  rewrite (proj2 (Z.eqb_neq (message_timestamp m) 0xFFFFFF)) by (pose proof (wf_timestamp m Hwf); lia).
  cbn [Z.eqb andb mbind outcome_bind]. etrans; [|exact Hr]. f_equal. unfold mid_state. f_equal.
  - cbn. unfold last_timestamp. cbn. by destruct (chunk_states p !! csid).
  - cbn. by destruct (chunk_states p !! csid).
Qed.

Lemma parse_next_chunk p m base abs b d rest :
  let csid := message_csid (type_id m) in
  message_wf m -> chunk_states p !! csid = Some (mid_state m base abs b) ->
  d <> [] -> d = take (chunk_size p) (drop (length b) (payload m)) ->
  try_parse_one (set_buffer p (next_chunk csid d ++ rest)) =
  finish_chunk (set_buffer p rest) csid (Some (mid_state m base abs b)) (mid_state m base false b) (b ++ d).
Proof.
  intros csid Hwf Hst Hne Hd. pose proof (message_csid_small (type_id m)) as Hc. fold csid in Hc.
  destruct (basic_header_small 3 csid ltac:(lia) Hc) as (Hh & Hraw & Hfmt).
  pose proof (read_chunk_part (set_buffer p (next_chunk csid d ++ rest)) csid
    (Some (mid_state m base abs b)) m base false [3 * 64 + csid] b d rest) as Hr.
  unfold next_chunk in Hr |- *. rewrite Hh in Hr |- *. specialize (Hr eq_refl Hne Hd).
  unfold try_parse_one. cbn [app set_buffer rp_buffer]. rewrite Hfmt.
  unfold parse_basic_header. rewrite idx_0. cbn [mbind outcome_bind]. rewrite Hraw.
  rewrite (proj2 (Z.eqb_neq csid 0)), (proj2 (Z.eqb_neq csid 1)) by lia.
  cbn [mbind outcome_bind header_len Z.eqb length Nat.add Nat.ltb Nat.leb Pos.eqb chunk_states set_buffer].
  rewrite Hst. unfold apply_header. cbn [Z.eqb Pos.eqb mbind outcome_bind]. unfold extended_timestamp.
  cbn [ts_field restore mid_state has_extended_ts].
  rewrite (proj2 (Z.eqb_neq (message_timestamp m) 0xFFFFFF)) by (pose proof (wf_timestamp m Hwf); lia).
  cbn [Z.eqb Pos.eqb andb mbind outcome_bind]. exact Hr.
Qed.

(** ** Delivery *)

(** The timestamp the parser reports.  A message of several chunks is reported
    relative to the previous message of its chunk stream. *)
Definition reported_timestamp (n : nat) (last : Z) (m : RtmpMessage) : Z :=
  if (length (payload m) <=? n)%nat then message_timestamp m else u32 (last + message_timestamp m).

(** The parser after it has delivered [m]. *)
Definition after_message (p : RtmpMessageParser) (m : RtmpMessage) : RtmpMessageParser :=
  let csid := message_csid (type_id m) in
  let ts := reported_timestamp (chunk_size p) (last_timestamp p csid) m in
  let p1 := save_state p csid
    (saved_state (mid_state m (last_timestamp p csid) (length (payload m) <=? chunk_size p)%nat []) ts []) in
  match m with SetChunkSize n => set_chunk_size p1 (Z.max n 1) | _ => p1 end.

Lemma finish_complete p m prev base abs b rest :
  message_wf m ->
  finish_chunk (set_buffer p rest) (message_csid (type_id m)) prev (mid_state m base abs b) (payload m) =
  let ts := if abs then message_timestamp m else u32 (from_option cs_timestamp 0 prev + message_timestamp m) in
  let p1 := save_state p (message_csid (type_id m)) (saved_state (mid_state m base abs b) ts []) in
  Ok (set_buffer match m with SetChunkSize n => set_chunk_size p1 (Z.max n 1) | _ => p1 end rest,
      Some (set_timestamp m ts)).
Proof.
  intros Hwf. unfold finish_chunk. cbn [msg_length mid_state is_abs_timestamp ts_field msg_type_id msg_stream_id].
  rewrite Z.leb_refl. cbv zeta.
  set (ts := if abs then _ else _). set (st := saved_state _ _ _).
  rewrite (make_message_payload m ts Hwf).
  destruct m as [n| | | | | | | | |]; try done.
  change (type_id (SetChunkSize n)) with 1. cbn [MSG_SET_CHUNK_SIZE Z.eqb Pos.eqb andb payload].
  rewrite length_to_be. cbn [Nat.leb]. rewrite <-(app_nil_r (to_be 4 n)), be32_at_to_be; [done|].
  pose proof (wf_fields _ Hwf) as Hf. cbn in Hf. unfold is_u32. lia.
Qed.

Lemma finish_partial p m csid prev base abs b data rest :
  zlen data < zlen (payload m) ->
  finish_chunk (set_buffer p rest) csid prev (mid_state m base abs b) data =
  Ok (set_buffer (save_state p csid (mid_state m base abs data)) rest, None).
Proof.
  intros. unfold finish_chunk. cbn [msg_length mid_state]. by rewrite (proj2 (Z.leb_gt _ _)).
Qed.

(** [p] turns the chunks [cs] into the messages [ms] and becomes [p'], whatever
    bytes follow. *)
Inductive runs : RtmpMessageParser -> list bytes -> RtmpMessageParser -> list RtmpMessage -> Prop :=
| runs_nil p : runs p [] p []
| runs_cons p c q r cs p' ms :
    c <> [] ->
    (forall rest, try_parse_one (set_buffer p (c ++ rest)) = Ok (set_buffer q rest, r)) ->
    runs q cs p' ms -> runs p (c :: cs) p' (option_list r ++ ms).

Lemma runs_app p cs q ms cs' p' ms' :
  runs p cs q ms -> runs q cs' p' ms' -> runs p (cs ++ cs') p' (ms ++ ms').
Proof. induction 1; intros Hr; [done|]. rewrite <-app_assoc. cbn [app]. econstructor; eauto. Qed.

(** One [feed] of whole chunks. *)
Lemma runs_loop p cs p' ms acc fuel :
  runs p cs p' ms -> (length (concat cs) < fuel)%nat ->
  loop fuel feed_step (set_buffer p (concat cs), acc) = Ok (set_buffer p' [], acc ++ ms).
Proof.
  intros Hr. revert acc fuel. induction Hr as [p|p c q r cs p' ms Hc Hstep Hr IH]; intros acc fuel Hf.
  { destruct fuel; [simpl in Hf; lia|]. cbn. by rewrite app_nil_r. }
  destruct fuel as [|fuel]; [lia|]. cbn [concat] in Hf |- *. rewrite length_app in Hf.
  assert (0 < length c)%nat by (destruct c; simpl; [done|lia]).
  cbn [loop]. unfold feed_step at 1. rewrite Hstep. destruct r as [m|]; cbn [option_list].
  - rewrite IH by lia. by rewrite <-app_assoc.
  - cbn [rp_buffer set_buffer]. rewrite (proj2 (Nat.eqb_neq _ _)) by (rewrite length_app; lia).
    rewrite IH by lia. done.
Qed.

Lemma set_buffer_id p : set_buffer p (rp_buffer p) = p.
Proof. by destruct p. Qed.

Lemma runs_feed p cs p' ms :
  runs p cs p' ms -> rp_buffer p = [] -> feed p (concat cs) = Ok (set_buffer p' [], ms).
Proof.
  intros Hr Hb. unfold feed. rewrite Hb. cbn [app rp_buffer set_buffer].
  rewrite (runs_loop _ _ _ _ [] _ Hr) by lia. done.
Qed.

Lemma save_save p csid s s' : save_state (save_state p csid s) csid s' = save_state p csid s'.
Proof. unfold save_state. cbn. by rewrite insert_insert_eq. Qed.

(** The continuation chunks of a message. *)
Lemma next_chunks_run p m base abs b :
  let csid := message_csid (type_id m) in
  message_wf m -> (0 < chunk_size p)%nat -> chunk_states p !! csid = Some (mid_state m base abs b) ->
  b = take (length b) (payload m) -> (length b < length (payload m))%nat ->
  runs p (next_chunk csid <$> chunks (chunk_size p) (drop (length b) (payload m)))
    (let p1 := save_state p csid
       (saved_state (mid_state m base false []) (u32 (base + message_timestamp m)) []) in
     match m with SetChunkSize n => set_chunk_size p1 (Z.max n 1) | _ => p1 end)
    [set_timestamp m (u32 (base + message_timestamp m))].
Proof.
  intros csid Hwf Hn. remember (length (payload m) - length b)%nat as k eqn:Hk.
  revert p abs b Hn Hk. induction k as [k IH] using lt_wf_ind. intros p abs b Hn Hk Hst Hb Hlt.
  set (n := chunk_size p) in *. set (d := take n (drop (length b) (payload m))).
  assert (Hd : length d = (n `min` (length (payload m) - length b))%nat)
    by (unfold d; by rewrite length_take, length_drop).
  assert (Hne : d <> []) by (intros H; rewrite H in Hd; cbn [length] in Hd; lia).
  assert (Hbd : b ++ d = take (length b + n) (payload m)).
  { rewrite Hb at 1. unfold d. by rewrite take_take_drop. }
  rewrite chunks_cons by (done || (intros H%(f_equal length); rewrite length_drop in H; simpl in H; lia)).
  fold d. rewrite drop_drop. cbn [fmap list_fmap].
  destruct (decide (length b + n < length (payload m))%nat) as [Hmore|Hlast].
  - set (q := save_state p csid (mid_state m base false (b ++ d))).
    change ([set_timestamp m ?ts]) with (option_list (None : option RtmpMessage) ++ [set_timestamp m ts]).
    eapply (runs_cons _ _ q None).
    + unfold next_chunk. by intros [_ ?]%app_eq_nil.
    + intros rest. etrans; [exact (parse_next_chunk p m base abs b d rest Hwf Hst Hne eq_refl)|].
      rewrite finish_partial; [done|]. unfold zlen. rewrite length_app. lia.
    + assert (Hlen : length (b ++ d) = (length b + n)%nat) by (rewrite length_app; lia).
      specialize (IH (length (payload m) - length (b ++ d))%nat ltac:(lia) q false (b ++ d) Hn eq_refl).
      rewrite Hlen in IH.
      assert (Hq : chunk_states q !! csid = Some (mid_state m base false (b ++ d))) by apply lookup_insert_eq.
      specialize (IH Hq Hbd Hmore). unfold q in IH. rewrite save_save in IH. exact IH.
  - rewrite (drop_ge _ (length b + n)) by lia. cbn [chunks length chunks_aux list_fmap].
    change ([set_timestamp m ?ts]) with (option_list (Some (set_timestamp m ts)) ++ []).
    eapply runs_cons; [unfold next_chunk; by intros [_ ?]%app_eq_nil| |apply runs_nil].
    intros rest. etrans; [exact (parse_next_chunk p m base abs b d rest Hwf Hst Hne eq_refl)|].
    rewrite Hbd, take_ge by lia. rewrite finish_complete by done. done.
Qed.

Lemma message_runs p m :
  message_wf m -> (0 < chunk_size p)%nat ->
  runs p (message_chunks (chunk_size p) m) (after_message p m)
    [set_timestamp m
       (reported_timestamp (chunk_size p) (last_timestamp p (message_csid (type_id m))) m)].
Proof.
  intros Hwf Hn. pose proof (wf_payload m Hwf) as Hp. unfold message_chunks, after_message, reported_timestamp.
  rewrite chunks_cons by done. set (csid := message_csid (type_id m)). set (n := chunk_size p).
  set (base := last_timestamp p csid).
  assert (Hfirst : first_header m ++ take n (payload m) <> []).
  { intros [H _]%app_eq_nil. unfold first_header in H. apply app_eq_nil in H as [_ H]. done. }
  destruct (Nat.leb_spec (length (payload m)) n) as [Hle|Hgt].
  - rewrite drop_ge by done. cbn [chunks length chunks_aux fmap list_fmap].
    change ([set_timestamp m ?ts]) with (option_list (Some (set_timestamp m ts)) ++ []).
    eapply runs_cons; [done| |apply runs_nil].
    intros rest. rewrite <-app_assoc. etrans; [exact (parse_first_chunk p m _ rest Hwf Hn eq_refl)|].
    fold n. rewrite take_ge by done. rewrite finish_complete by done. done.
  - set (q := save_state p csid (mid_state m base true (take n (payload m)))).
    change ([set_timestamp m ?ts]) with (option_list (None : option RtmpMessage) ++ [set_timestamp m ts]).
    eapply (runs_cons _ _ q None); [done| |].
    + intros rest. rewrite <-app_assoc. etrans; [exact (parse_first_chunk p m _ rest Hwf Hn eq_refl)|].
      rewrite finish_partial; [done|]. unfold zlen. rewrite length_take. fold n. lia.
    + assert (Hl : length (take n (payload m)) = n) by (rewrite length_take; lia).
      pose proof (next_chunks_run q m base true (take n (payload m)) Hwf Hn) as H.
      rewrite Hl in H. specialize (H (lookup_insert_eq _ _ _) eq_refl Hgt).
      unfold q in H. fold csid in H. cbv zeta in H. rewrite !save_save in H. exact H.
Qed.

(** The sender announces a new chunk size and then uses it. *)
Definition next_chunk_size (n : nat) (m : RtmpMessage) : nat :=
  match m with SetChunkSize k => Z.to_nat k | _ => n end.

Fixpoint send_all (e : RtmpMessageEncoder) (ms : list RtmpMessage) : result bytes :=
  match ms with
  | [] => Ok []
  | m :: ms =>
      b ← encode e m;
      bs ← send_all (encoder_set_chunk_size e (next_chunk_size (enc_chunk_size e) m)) ms;
      Ok (b ++ bs)
  end.

Fixpoint stream_chunks (n : nat) (ms : list RtmpMessage) : list bytes :=
  match ms with
  | [] => []
  | m :: ms => message_chunks n m ++ stream_chunks (next_chunk_size n m) ms
  end.

(** What arrives: the messages, a multi-chunk one with its timestamp shifted by
    that of the previous message of its chunk stream. *)
Fixpoint received (n : nat) (last : Z -> Z) (ms : list RtmpMessage) : list RtmpMessage :=
  match ms with
  | [] => []
  | m :: ms =>
      let csid := message_csid (type_id m) in
      let ts := reported_timestamp n (last csid) m in
      set_timestamp m ts :: received (next_chunk_size n m) (fun c => if c =? csid then ts else last c) ms
  end.

(** Every message fits one chunk or is the first of its chunk stream to carry
    a non-zero timestamp. *)
Fixpoint on_time (n : nat) (last : Z -> Z) (ms : list RtmpMessage) : Prop :=
  match ms with
  | [] => True
  | m :: ms =>
      let csid := message_csid (type_id m) in
      ((length (payload m) <= n)%nat \/ last csid = 0) /\
      on_time (next_chunk_size n m) (fun c => if c =? csid then message_timestamp m else last c) ms
  end.

Lemma reported_on_time n last m :
  message_wf m -> (length (payload m) <= n)%nat \/ last = 0 ->
  reported_timestamp n last m = message_timestamp m.
Proof.
  intros Hwf H. unfold reported_timestamp. destruct (Nat.leb_spec (length (payload m)) n); [done|].
  destruct H as [?|Hl]; [lia|]. rewrite Hl. apply Z.mod_small. pose proof (wf_timestamp m Hwf). lia.
Qed.

Lemma received_on_time n last ms : Forall message_wf ms -> on_time n last ms -> received n last ms = ms.
Proof.
  intros Hwf. revert n last. induction Hwf as [|m ms Hm Hwf IH]; intros n last; [done|].
  cbn [on_time received]. intros [H1 H2]. rewrite reported_on_time by done.
  rewrite set_timestamp_id. f_equal. by apply IH.
Qed.

Lemma received_ext n f g ms : (forall c, f c = g c) -> received n f ms = received n g ms.
Proof.
  revert n f g. induction ms as [|m ms IH]; intros n f g H; [done|]. cbn [received]. rewrite H. f_equal.
  apply IH. intros c. by rewrite H.
Qed.

Lemma send_all_chunks e ms :
  Forall message_wf ms -> (0 < enc_chunk_size e)%nat ->
  send_all e ms = Ok (concat (stream_chunks (enc_chunk_size e) ms)).
Proof.
  intros Hwf. revert e. induction Hwf as [|m ms Hm Hwf IH]; intros e He; [done|].
  cbn [send_all stream_chunks]. rewrite encode_chunks by done. cbn [mbind outcome_bind].
  rewrite IH; [by rewrite concat_app|].
  pose proof (wf_fields m Hm). destruct m; cbn in *; (done || lia).
Qed.

Lemma after_message_size p m : message_wf m -> chunk_size (after_message p m) = next_chunk_size (chunk_size p) m.
Proof. intros Hm. pose proof (wf_fields m Hm). destruct m; cbn in *; (done || lia). Qed.

Lemma after_message_last p m c :
  last_timestamp (after_message p m) c =
  if c =? message_csid (type_id m)
  then reported_timestamp (chunk_size p) (last_timestamp p (message_csid (type_id m))) m
  else last_timestamp p c.
Proof.
  assert (chunk_states (after_message p m) = <[message_csid (type_id m) :=
    saved_state (mid_state m (last_timestamp p (message_csid (type_id m))) (length (payload m) <=? chunk_size p)%nat [])
      (reported_timestamp (chunk_size p) (last_timestamp p (message_csid (type_id m))) m) []]> (chunk_states p)) as Hs
    by (by destruct m).
  unfold last_timestamp at 1. rewrite Hs. destruct (Z.eqb_spec c (message_csid (type_id m))) as [->|Hne].
  - by rewrite lookup_insert_eq.
  - by rewrite lookup_insert_ne.
Qed.

Lemma stream_runs ms p :
  Forall message_wf ms -> (0 < chunk_size p)%nat ->
  runs p (stream_chunks (chunk_size p) ms) (foldl after_message p ms)
    (received (chunk_size p) (last_timestamp p) ms).
Proof.
  intros Hwf. revert p. induction Hwf as [|m ms Hm Hwf IH]; intros p Hn; [constructor|].
  cbn [stream_chunks received foldl].
  change (?x :: received ?a ?b ?c) with ([x] ++ received a b c).
  eapply runs_app; [by apply message_runs|].
  specialize (IH (after_message p m)). rewrite after_message_size in IH by done.
  erewrite received_ext in IH; [|intros c; apply after_message_last].
  apply IH. pose proof (wf_fields m Hm). destruct m; cbn in *; (done || lia).
Qed.

(** [session.msg_parser.feed] for each read. *)
Fixpoint feed_reads (p : RtmpMessageParser) (reads : list bytes) :
    result (RtmpMessageParser * list RtmpMessage) :=
  match reads with
  | [] => Ok (p, [])
  | r :: reads =>
      '(p, ms) ← feed p r;
      '(p, ms') ← feed_reads p reads;
      Ok (p, ms ++ ms')
  end.

Lemma runs_split p cs cs' p' ms :
  runs p (cs ++ cs') p' ms -> exists q ms1 ms2, runs p cs q ms1 /\ runs q cs' p' ms2 /\ ms = ms1 ++ ms2.
Proof.
  revert p ms. induction cs as [|c cs IH]; intros p ms H.
  { exists p, [], ms. split_and!; [constructor|done|done]. }
  cbn [app] in H. inv H as [|? ? q r ? ? ms0 Hc Hs Hr].
  destruct (IH _ _ Hr) as (q' & ms1 & ms2 & H1 & H2 & ->).
  exists q', (option_list r ++ ms1), ms2. split_and!; [by econstructor|done|by rewrite app_assoc].
Qed.

Lemma runs_set_buffer p cs p' ms b : runs p cs p' ms -> exists q, runs (set_buffer p b) cs q ms /\ set_buffer q [] = set_buffer p' [].
Proof.
  intros H. destruct H as [p|p c q r cs p' ms Hc Hs Hr].
  - eexists. split; [constructor|done].
  - exists p'. split; [|done]. econstructor; [done| |done]. intros rest. apply Hs.
Qed.

Lemma feed_groups gs p p' ms :
  runs p (concat gs) p' ms -> rp_buffer p = [] ->
  exists q, feed_reads p (@concat Z <$> gs) = Ok (q, ms) /\ set_buffer q [] = set_buffer p' [] /\ rp_buffer q = [].
Proof.
  revert p p' ms. induction gs as [|g gs IH]; intros p p' ms H Hb.
  { inv H. exists p'. by rewrite Hb. }
  cbn [concat] in H. apply runs_split in H as (q & ms1 & ms2 & H1 & H2 & ->).
  rewrite fmap_cons. cbn [feed_reads]. rewrite (runs_feed _ _ _ _ H1 Hb). cbn [mbind outcome_bind].
  destruct (runs_set_buffer _ _ _ _ [] H2) as (q' & H2' & Hq').
  destruct (IH _ _ _ H2' eq_refl) as (q2 & Hr & Hq2 & Hb2). exists q2.
  rewrite Hr. cbn. split_and!; [done|by rewrite Hq2|done].
Qed.

(** C2: the RTMP chunk stream.  A sender that encodes well-formed messages with
    [RtmpMessageEncoder], switching to the chunk size it announces, and a
    receiver that feeds the bytes to [RtmpMessageParser] in reads that end at
    chunk boundaries: every message arrives, in order, with its type, stream id
    and payload; the receiver's buffer ends empty.  The timestamp of a message
    of several chunks is reported relative to the previous message of its chunk
    stream ([received]), so the messages are exactly the ones sent when each
    fits one chunk or comes first on its stream ([on_time]). *)
Theorem rtmp_chunk_stream e p ms gs :
  Forall message_wf ms -> (0 < enc_chunk_size e)%nat -> chunk_size p = enc_chunk_size e ->
  rp_buffer p = [] -> concat gs = stream_chunks (enc_chunk_size e) ms ->
  send_all e ms = Ok (concat (@concat Z <$> gs)) /\
  exists q,
    feed_reads p (@concat Z <$> gs) = Ok (q, received (chunk_size p) (last_timestamp p) ms) /\
    rp_buffer q = [] /\
    (on_time (chunk_size p) (last_timestamp p) ms -> received (chunk_size p) (last_timestamp p) ms = ms).
Proof.
  intros Hwf He Hsz Hb Hgs. split.
  { rewrite send_all_chunks, <-Hgs by done. f_equal. clear. induction gs as [|g gs IH]; [done|].
    cbn. by rewrite concat_app, IH. }
  pose proof (stream_runs ms p Hwf ltac:(lia)) as Hr. rewrite Hsz, <-Hgs in Hr.
  destruct (feed_groups _ _ _ _ Hr Hb) as (q & Hq & _ & Hbq). exists q. rewrite Hsz.
  split_and!; [done|done|by apply received_on_time].
Qed.

Definition rtmp_demo : list RtmpMessage :=
  [SetChunkSize 200; VideoMessage 1 40 (replicate 300 7); AudioMessage 1 41 [0xAF; 1; 2];
   VideoMessage 1 80 (replicate 150 8)].

Lemma rtmp_chunk_stream_witness :
  exists q, feed_reads parser_new (@concat Z <$> [stream_chunks 128 rtmp_demo]) = Ok (q, rtmp_demo).
Proof.
  destruct (rtmp_chunk_stream encoder_new parser_new rtmp_demo [stream_chunks 128 rtmp_demo])
    as (_ & q & Hq & _ & Ht).
  - repeat constructor; vm_compute; (reflexivity || discriminate).
  - vm_compute. lia.
  - reflexivity.
  - reflexivity.
  - vm_compute. reflexivity.
  - exists q. rewrite Hq, Ht; [done|]. vm_compute.
    repeat split; first [left; lia | right; reflexivity].
Defined.

(** ** Totality *)

(** The computation ends with a value satisfying [Q]; it may panic only if [P]. *)
Definition wpx (P : Prop) {A} (m : result A) (Q : A -> Prop) : Prop :=
  match m with Ok a => Q a | Panic => P | Err _ | NoFuel => False end.

Lemma wpx_bind {P A B} (f : A -> result B) (m : result A) (Q : B -> Prop) :
  wpx P m (fun a => wpx P (f a) Q) -> wpx P (m ≫= f) Q.
Proof. by destruct m. Qed.

Lemma wpx_wp {P A} (m : result A) (Q Q' : A -> Prop) :
  wp m Q (fun _ => False) -> (forall a, Q a -> Q' a) -> wpx P m Q'.
Proof. destruct m; naive_solver. Qed.

Lemma wpx_loop {P S R} (body : S -> result (S + R)) (Inv : S -> Prop) (mu : S -> nat) fuel s (Q : R -> Prop) :
  (forall s, Inv s ->
     wpx P (body s) (fun o => match o with inl s' => Inv s' /\ (mu s' < mu s)%nat | inr r => Q r end)) ->
  Inv s -> (mu s < fuel)%nat -> wpx P (loop fuel body s) Q.
Proof.
  intros Hb. revert s. induction fuel as [|fuel IH]; intros s HI Hm; [lia|]. cbn [loop].
  specialize (Hb s HI). destruct (body s) as [[s'|r]| | |]; cbn in Hb |- *; try done.
  destruct Hb as [??]. apply IH; [done|lia].
Qed.

Lemma be32_at_ok buf pos (Q : Z -> Prop) :
  (pos + 4 <= length buf)%nat -> (forall z, Q z) -> wp (be32_at buf pos) Q (fun _ => False).
Proof. intros. unfold be32_at. wp_auto; auto; lia. Qed.

Lemma be24_at_ok buf pos (Q : Z -> Prop) :
  (pos + 3 <= length buf)%nat -> (forall z, Q z) -> wp (be24_at buf pos) Q (fun _ => False).
Proof. intros. unfold be24_at. wp_auto; auto; lia. Qed.

Lemma control_u32_ok buf d (Q : Z -> Prop) : (forall z, Q z) -> wp (control_u32 buf d) Q (fun _ => False).
Proof. intros. unfold control_u32. wp_auto; auto. apply be32_at_ok; [wp_side|done]. Qed.

Lemma make_message_ok P ts ty sid data :
  (ty = MSG_USER_CONTROL -> P) -> wpx P (make_message ts ty sid data) (fun _ => True).
Proof.
  intros HP. unfold make_message.
  repeat match goal with
  | |- wpx _ (if _ =? MSG_USER_CONTROL then _ else _) _ =>
      destruct (Z.eqb_spec ty MSG_USER_CONTROL) as [Hty|]
  | |- wpx _ (if _ =? _ then _ else _) _ => destruct (_ =? _)
  end; try done;
  try (apply (wpx_wp _ (fun _ => True)); [apply wp_bind, control_u32_ok; intros; wp_auto; wp_side|done]; fail).
  - apply wpx_bind. eapply (wpx_wp _ (fun _ => True)); [wp_auto; wp_side|]. intros ev _.
    apply wpx_bind. unfold slice. destruct (_ && _); cbn; auto.
Qed.

Lemma parse_basic_header_ok buf :
  buf <> [] ->
  wp (parse_basic_header buf)
    (fun o => match o with Some (_, n) => (0 < n <= length buf)%nat | None => True end) (fun _ => False).
Proof.
  intros Hb. assert (0 < length buf)%nat by (destruct buf; simpl; [done|lia]).
  unfold parse_basic_header. wp_auto; wp_side.
Qed.

Lemma apply_header_ok fmt buf pos s :
  (pos + header_len fmt <= length buf)%nat ->
  wp (apply_header fmt buf pos s) (fun s' => msg_type_id s' = msg_type_id s \/ msg_type_id s' ∈ buf)
    (fun _ => False).
Proof.
  unfold apply_header, header_len. intros Hl.
  destruct (fmt =? 0); [|destruct (fmt =? 1); [|destruct (fmt =? 2); [|by left]]];
    repeat match goal with
    | |- wp (mbind _ _) _ _ => apply wp_bind
    | |- wp (idx _ _) _ _ => apply wp_idx; [lia|intros ? ?]
    | |- wp (be24_at _ _) _ _ => apply be24_at_ok; [lia|intros ?]
    | |- wp (Ok _) _ _ => apply wp_ok; cbn
    end; eauto using list_elem_of_lookup_2.
Qed.

Lemma extended_timestamp_ok fmt buf pos s :
  (pos <= length buf)%nat ->
  wp (extended_timestamp fmt buf pos s)
    (fun o => match o with
              | Some (s', n) => (pos <= n <= length buf)%nat /\ msg_type_id s' = msg_type_id s
              | None => True
              end) (fun _ => False).
Proof.
  intros Hp. unfold extended_timestamp.
  destruct (_ =? _).
  - destruct (Nat.ltb_spec (length buf) (pos + 4)); [done|].
    apply wp_bind, be32_at_ok; [lia|]. intros z. cbn. split; [lia|done].
  - destruct (_ && _); [destruct (Nat.ltb_spec (length buf) (pos + 4)); [done|]|]; cbn; (split; [lia|done]).
Qed.

(** The parser invariant: a UserControl type in the buffer or in a chunk state
    entails [P]. *)
Definition control_traced (P : Prop) (p : RtmpMessageParser) : Prop :=
  (MSG_USER_CONTROL ∈ rp_buffer p -> P) /\
  (forall csid s, chunk_states p !! csid = Some s -> msg_type_id s = MSG_USER_CONTROL -> P).

Lemma traced_drop P p n : control_traced P p -> control_traced P (set_buffer p (drop n (rp_buffer p))).
Proof.
  intros [H1 H2]. split; [|done]. cbn. intros H. apply H1.
  apply list_elem_of_lookup in H as [i Hi]. rewrite lookup_drop in Hi. eauto using list_elem_of_lookup_2.
Qed.

Lemma traced_save P p csid s :
  control_traced P p -> (msg_type_id s = MSG_USER_CONTROL -> P) -> control_traced P (save_state p csid s).
Proof.
  intros [H1 H2] Hs. split; [done|]. intros c t. cbn. destruct (decide (c = csid)) as [->|Hne].
  - rewrite lookup_insert_eq. by intros [= <-].
  - rewrite lookup_insert_ne by done. apply H2.
Qed.

Definition shrinks (P : Prop) (p : RtmpMessageParser) (o : RtmpMessageParser * option RtmpMessage) : Prop :=
  control_traced P o.1 /\ (length (rp_buffer o.1) <= length (rp_buffer p))%nat /\
  (o.2 <> None -> (length (rp_buffer o.1) < length (rp_buffer p))%nat).

Lemma finish_chunk_ok P p csid prev s data :
  control_traced P p -> (msg_type_id s = MSG_USER_CONTROL -> P) ->
  wpx P (finish_chunk p csid prev s data)
    (fun o => control_traced P o.1 /\ rp_buffer o.1 = rp_buffer p).
Proof.
  intros Hp Hs. unfold finish_chunk. destruct (_ <=? _).
  - cbv zeta. set (ts := if is_abs_timestamp s then _ else _).
    assert (control_traced P (save_state p csid (saved_state s ts []))) as Hp' by by apply traced_save.
    apply wpx_bind. eapply (wpx_wp _ (fun q => control_traced P q /\ rp_buffer q = rp_buffer p)).
    { destruct (_ && _) eqn:Hc; [|done]. apply andb_true_iff in Hc as [_ Hc%Nat.leb_le].
      apply wp_bind, be32_at_ok; [lia|done]. }
    intros q [Hq Hb]. apply wpx_bind. pose proof (make_message_ok P ts _ (msg_stream_id s) data Hs) as Hm.
    destruct (make_message _ _ _ _); done.
  - cbn. split; [by apply traced_save|done].
Qed.

Lemma read_chunk_ok P p csid prev s pos :
  control_traced P p -> (msg_type_id s = MSG_USER_CONTROL -> P) -> (pos <= length (rp_buffer p))%nat ->
  wpx P (read_chunk p csid prev s pos) (shrinks P p).
Proof.
  intros Hp Hs Hpos. unfold read_chunk. unfold usub. rewrite (proj2 (Nat.leb_le _ _) Hpos).
  cbn [mbind outcome_bind]. set (a := (_ `min` (length _ - _))%nat).
  destruct (Nat.eqb_spec a 0).
  - cbn. unfold shrinks. destruct (_ =? 0); cbn; [|by split_and!].
    split_and!; [by apply traced_drop|rewrite length_drop; lia|done].
  - rewrite slice_ok by lia. cbn [mbind outcome_bind].
    pose proof (finish_chunk_ok P _ csid prev s
      (cs_buffer s ++ take (pos + a - pos) (drop pos (rp_buffer p))) (traced_drop P p (pos + a) Hp) Hs) as Hf.
    destruct (finish_chunk _ _ _ _ _) as [[q r]| | |]; try done. cbn in Hf |- *. destruct Hf as [Hq Hb].
    unfold shrinks. cbn. rewrite Hb, length_drop. split_and!; [done|lia|lia].
Qed.

Lemma try_parse_one_ok P p : control_traced P p -> wpx P (try_parse_one p) (shrinks P p).
Proof.
  intros Hp. unfold try_parse_one. assert (shrinks P p (p, None)) as Hnone by (by split_and!).
  destruct (rp_buffer p) as [|b0 tail] eqn:Hb; [done|]. rewrite <-Hb.
  apply wpx_bind. eapply wpx_wp; [apply parse_basic_header_ok; by rewrite Hb|].
  intros [[csid pos]|] Hpos; [|done].
  set (fmt := b0 .>> 6 .& 3). destruct (Nat.ltb_spec (length (rp_buffer p)) (pos + header_len fmt)) as [|Hl]; [done|].
  apply wpx_bind. eapply wpx_wp; [by apply apply_header_ok|]. intros s Hty. cbv beta in Hty.
  apply wpx_bind. eapply wpx_wp; [by apply extended_timestamp_ok|]. intros [[s' pos']|] H; [|done].
  destruct H as [Hpos' Hty']. apply read_chunk_ok; [done| |lia].
  rewrite Hty'. destruct Hp as [H1 H2]. intros Hs. rewrite Hs in Hty. destruct Hty as [Hty|Hty]; [|by apply H1].
  destruct (chunk_states p !! csid) as [st|] eqn:Hst; [|done]. eapply H2; [done|]. by rewrite Hty.
Qed.

(** C34: [RtmpMessageParser::feed] ends on every parser state and every input: it
    returns the messages, or it panics, and then a UserControl message type (4)
    is among the bytes or in a chunk stream's saved header. *)
Theorem rtmp_parser_total p data :
  (exists q ms, feed p data = Ok (q, ms)) \/
  (feed p data = Panic /\
   (MSG_USER_CONTROL ∈ rp_buffer p ++ data \/
    exists csid s, chunk_states p !! csid = Some s /\ msg_type_id s = MSG_USER_CONTROL)).
Proof.
  set (P := MSG_USER_CONTROL ∈ rp_buffer p ++ data \/ _).
  assert (wpx P (feed p data) (fun _ => True)) as H.
  { unfold feed. apply (wpx_loop _ (fun st => control_traced P st.1) (fun st => length (rp_buffer st.1)));
      [|split; unfold P; cbn; eauto 6|cbn; lia].
    intros [q ms] Hq. unfold feed_step. pose proof (try_parse_one_ok P q Hq) as Ht.
    destruct (try_parse_one q) as [[q' r]| | |]; try done. destruct Ht as (Hq' & Hle & Hlt).
    destruct r as [m|]; cbn in *; [split; [done|by apply Hlt]|].
    destruct (Nat.eqb_spec (length (rp_buffer q')) (length (rp_buffer q))); [done|]. cbn. split; [done|lia]. }
  destruct (feed p data) as [[q ms]| | |]; cbn in H; [left; eauto|done|by right|done].
Qed.

(** Two defects of the reassembly, on concrete streams.  A one-byte
    UserControl message makes the parser panic; and a chunk whose bytes arrive
    in two reads is delivered only if the cut is not inside its payload: the
    parser drops the header with the first part and takes the next payload byte
    for a chunk header. *)
Theorem rtmp_reassembly_defects :
  feed parser_new [2; 0; 0; 0; 0; 0; 1; MSG_USER_CONTROL; 0; 0; 0; 0; 0] = Panic /\
  let m := VideoMessage 1 40 [0x27; 1; 0; 0; 0; 9; 9; 9] in
  exists stream, encode encoder_new m = Ok stream /\
  forall k, (k <= length stream)%nat ->
    ((exists q, feed_reads parser_new [take k stream; drop k stream] = Ok (q, [m])) <->
     (k <= 12 \/ k = length stream)%nat).
Proof.
  split; [by vm_compute|].
  exists [6; 0; 0; 40; 0; 0; 8; 9; 1; 0; 0; 0; 0x27; 1; 0; 0; 0; 9; 9; 9].
  split; [reflexivity|]. cbn [length]. intros k Hk.
  do 21 (destruct k as [|k];
    [first [split; [intros _; lia|intros _; eexists; vm_compute; reflexivity]
           |split; [intros [q Hq]; vm_compute in Hq; discriminate Hq|intros; lia]]|]).
  lia.
Qed.

(** Timestamps across chunks.  After a message of timestamp [t1] that fits
    one chunk, a message of timestamp [t2] of the same kind that needs several
    chunks is delivered with timestamp [t1 + t2]. *)
Theorem rtmp_timestamp_shift p sid t1 d1 t2 d2 :
  let m1 := VideoMessage sid t1 d1 in
  let m2 := VideoMessage sid t2 d2 in
  message_wf m1 -> message_wf m2 -> (length d1 <= chunk_size p)%nat -> (0 < chunk_size p < length d2)%nat ->
  rp_buffer p = [] ->
  exists stream q,
    send_all {| enc_chunk_size := chunk_size p |} [m1; m2] = Ok stream /\
    feed p stream = Ok (q, [m1; VideoMessage sid (t1 + t2) d2]).
Proof.
  intros m1 m2 H1 H2 Hd1 Hd2 Hb. assert (Forall message_wf [m1; m2]) as Hwf by (by apply Forall_cons_2, Forall_singleton).
  eexists. pose proof (stream_runs [m1; m2] p Hwf ltac:(lia)) as Hr.
  pose proof (runs_feed _ _ _ _ Hr Hb) as Hf. eexists. split; [apply (send_all_chunks _ _ Hwf); cbn; lia|].
  cbn [enc_chunk_size]. rewrite Hf. do 2 f_equal. cbn [received m1 m2 type_id message_csid next_chunk_size].
  unfold reported_timestamp. subst m1 m2. cbn [payload message_timestamp].
    rewrite (proj2 (Nat.leb_le _ _) Hd1), (proj2 (Nat.leb_gt _ _)) by lia. cbn [set_timestamp].
  rewrite Z.eqb_refl. unfold u32. rewrite Z.mod_small; [done|].
  pose proof (wf_timestamp _ H1). pose proof (wf_timestamp _ H2). cbn in *. lia.
Qed.

Lemma rtmp_timestamp_shift_witness :
  exists stream q,
    send_all encoder_new [VideoMessage 1 1000 [7]; VideoMessage 1 1040 (replicate 200 8)] = Ok stream /\
    feed parser_new stream = Ok (q, [VideoMessage 1 1000 [7]; VideoMessage 1 2040 (replicate 200 8)]).
Proof.
  apply (rtmp_timestamp_shift parser_new 1 1000 [7] 1040 (replicate 200 8)); try (vm_compute; lia);
    repeat split; vm_compute; (reflexivity || discriminate).
Defined.
