(* ===== verification/Gop.v ===== *)
(** * Gop: the GOP cache of a media source

    [core/src/gop_cache.rs]: the cache a late player is served from.  The
    abstract specification is the whole history of the stream; the cache keeps
    a bounded part of it and answers as the history would. *)

From S2P Require Import Prelude Frame.

(** [CachedFrame] wraps a frame and nothing else: it is the frame. *)
Record GopCache : Type := {
  metadata : option (list MediaFrame);
  video_config : option MediaFrame;
  audio_config : option MediaFrame;
  frames : list MediaFrame;
  max_gop_count : nat
}.

Definition gop_new : GopCache :=
  {| metadata := None; video_config := None; audio_config := None; frames := []; max_gop_count := 1 |}.

Definition gop_clear (c : GopCache) : GopCache :=
  {| metadata := None; video_config := None; audio_config := None; frames := [];
     max_gop_count := max_gop_count c |}.

Definition low_nibble_zero (b : Z) : bool := (b .& 0x0F =? 0)%Z.

(** The two blocks of [is_config_frame]: the video one falls through to the
    audio one, which a video frame does not enter. *)
Definition is_config_frame (f : MediaFrame) : bool :=
  match frame_type f, data f with
  | Video, b0 :: b1 :: _ =>
      let codec_id := (b0 .& 0x0F)%Z in
      if (codec_id =? 7)%Z then low_nibble_zero b1
      else if ((codec_id =? 12)%Z && (5 <=? length (data f))) then low_nibble_zero b1
      else false
  | Audio, b0 :: b1 :: _ =>
      let sound_format := ((b0 .>> 4) .& 0x0F)%Z in
      if (sound_format =? 10)%Z then low_nibble_zero b1 else false
  | _, _ => false
  end.

Definition is_type (t : FrameType) (f : MediaFrame) : bool := bool_decide (frame_type f = t).
Definition is_key (f : MediaFrame) : bool := is_type Video f && key_frame f.

(** [while frames.len() >= max_gop_count * 30 { pop_front }] *)
Definition evict_step (limit : nat) (l : list MediaFrame) : result (list MediaFrame + list MediaFrame) :=
  if limit <=? length l then Ok (inl (tail l)) else Ok (inr l).

Definition evict (limit : nat) (l : list MediaFrame) : result (list MediaFrame) :=
  loop (S (length l)) (evict_step limit) l.

Definition set_frames (c : GopCache) (l : list MediaFrame) : GopCache :=
  {| metadata := metadata c; video_config := video_config c; audio_config := audio_config c;
     frames := l; max_gop_count := max_gop_count c |}.

Definition cache_frame (c : GopCache) (f : MediaFrame) : result GopCache :=
  if is_type Metadata f then
    Ok {| metadata := Some [f]; video_config := video_config c; audio_config := audio_config c;
          frames := frames c; max_gop_count := max_gop_count c |}
  else if is_type Video f && is_config_frame f then
    Ok {| metadata := metadata c; video_config := Some f; audio_config := audio_config c;
          frames := frames c; max_gop_count := max_gop_count c |}
  else if is_type Audio f && is_config_frame f then
    Ok {| metadata := metadata c; video_config := video_config c; audio_config := Some f;
          frames := frames c; max_gop_count := max_gop_count c |}
  else
    kept ← (if is_key f then evict (max_gop_count c * 30) (frames c) else Ok (frames c));
    Ok (set_frames c (kept ++ [f])).

Definition header_frames (c : GopCache) : list MediaFrame :=
  default [] (metadata c) ++ option_list (video_config c) ++ option_list (audio_config c).

Definition get_all_frames (c : GopCache) : list MediaFrame := header_frames c ++ frames c.

Definition get_config_frames (c : GopCache) : list MediaFrame :=
  option_list (video_config c) ++ option_list (audio_config c).

(** The scan for the last key frame: [start_idx] begins at [frames.len()]. *)
Fixpoint last_key_index (i start_idx : nat) (l : list MediaFrame) : nat :=
  match l with
  | [] => start_idx
  | f :: l => last_key_index (S i) (if is_key f then i else start_idx) l
  end.

Definition get_latest_gop_frames (c : GopCache) : list MediaFrame :=
  header_frames c ++ drop (last_key_index 0 (length (frames c)) (frames c)) (frames c).

(** A stream: the frames cached one after the other. *)
Fixpoint cache_all (c : GopCache) (h : list MediaFrame) : result GopCache :=
  match h with
  | [] => Ok c
  | f :: h => c ← cache_frame c f; cache_all c h
  end.

(** ** The specification: the history of the stream *)

Definition is_sample (f : MediaFrame) : bool := negb (is_type Metadata f) && negb (is_config_frame f).

(** The frames from the last key frame on; nothing when there is none. *)
Fixpoint from_last_key (l : list MediaFrame) : list MediaFrame :=
  match l with
  | [] => []
  | f :: l' => if existsb is_key l' then from_last_key l' else if is_key f then l else []
  end.

Definition last_such (p : MediaFrame -> bool) (h : list MediaFrame) : option MediaFrame :=
  last (List.filter p h).

Definition spec_headers (h : list MediaFrame) : list MediaFrame :=
  option_list (last_such (is_type Metadata) h) ++
  option_list (last_such (fun f => is_type Video f && is_config_frame f) h) ++
  option_list (last_such (fun f => is_type Audio f && is_config_frame f) h).

(** ** Lemmas *)

Lemma evict_ok limit l :
  0 < limit -> evict limit l = Ok (drop (length l - (limit - 1)) l).
Proof.
  intros Hl. unfold evict.
  assert (forall fuel l, length l < fuel ->
    loop fuel (evict_step limit) l = Ok (drop (length l - (limit - 1)) l)) as H; [|apply H; lia].
  clear l. induction fuel as [|fuel IH]; intros l Hf; [lia|]. cbn [loop]. unfold evict_step at 1.
  destruct (Nat.leb_spec limit (length l)).
  - destruct l as [|f l]; [simpl in *; lia|]. cbn [tail length] in *. rewrite IH by lia.
    replace (S (length l) - (limit - 1)) with (S (length l - (limit - 1))) by lia. done.
  - replace (length l - (limit - 1)) with 0 by lia. done.
Qed.

Lemma from_last_key_drop n l :
  existsb is_key (drop n l) = true -> from_last_key (drop n l) = from_last_key l.
Proof.
  revert l. induction n as [|n IH]; intros l H; [by rewrite drop_0|].
  destruct l as [|f l]; [done|]. cbn [drop] in *. rewrite IH by done. cbn [from_last_key].
  assert (existsb is_key l = true) as ->; [|done].
  apply existsb_exists in H as (x & Hx & Hk). apply existsb_exists. exists x. split; [|done].
  apply list_elem_of_In. apply list_elem_of_In in Hx.
  apply list_elem_of_lookup in Hx as [i Hi]. rewrite lookup_drop in Hi. by eapply list_elem_of_lookup_2.
Qed.

Lemma existsb_snoc l f : existsb is_key (l ++ [f]) = existsb is_key l || is_key f.
Proof. rewrite existsb_app. simpl. by rewrite orb_false_r. Qed.

Lemma from_last_key_snoc l f :
  from_last_key (l ++ [f]) =
  if is_key f then [f] else if existsb is_key l then from_last_key l ++ [f] else [].
Proof.
  induction l as [|g l IH]; cbn [app from_last_key]; [simpl; by destruct (is_key f)|].
  rewrite existsb_snoc, IH. cbn [existsb].
  destruct (is_key f), (existsb is_key l), (is_key g); cbn; done.
Qed.

Lemma last_key_index_none l i s : existsb is_key l = false -> last_key_index i s l = s.
Proof.
  revert i s. induction l as [|g l IH]; intros i s H; [done|]. cbn [existsb last_key_index] in *.
  apply orb_false_iff in H as [-> H]. by apply IH.
Qed.

Lemma last_key_index_some l i s :
  existsb is_key l = true -> exists k, last_key_index i s l = i + k /\ drop k l = from_last_key l.
Proof.
  revert i s. induction l as [|f l IH]; intros i s H; [done|]. cbn [existsb last_key_index from_last_key] in *.
  destruct (existsb is_key l) eqn:He.
  - destruct (IH (S i) (if is_key f then i else s) eq_refl) as (k & Hk & Hd).
    exists (S k). rewrite Hk. split; [lia|done].
  - rewrite orb_false_r in H. rewrite H, last_key_index_none by done. exists 0. by rewrite Nat.add_0_r.
Qed.

Lemma from_last_key_none l : existsb is_key l = false -> from_last_key l = [].
Proof.
  induction l as [|f l IH]; [done|]. cbn. intros [-> H]%orb_false_iff. by rewrite H.
Qed.

Lemma latest_gop_eq l : drop (last_key_index 0 (length l) l) l = from_last_key l.
Proof.
  destruct (existsb is_key l) eqn:He.
  - destruct (last_key_index_some l 0 (length l) He) as (k & -> & Hd). done.
  - rewrite last_key_index_none, drop_all, from_last_key_none by done. done.
Qed.

Lemma last_such_snoc p h f : last_such p (h ++ [f]) = if p f then Some f else last_such p h.
Proof.
  unfold last_such. rewrite List.filter_app. cbn. destruct (p f); [apply last_snoc|by rewrite app_nil_r].
Qed.

(** What the cache keeps of a history. *)
Record cache_of (h : list MediaFrame) (c : GopCache) : Prop := {
  co_max : max_gop_count c = 1;
  co_metadata : metadata c = (fun f => [f]) <$> last_such (is_type Metadata) h;
  co_video : video_config c = last_such (fun f => is_type Video f && is_config_frame f) h;
  co_audio : audio_config c = last_such (fun f => is_type Audio f && is_config_frame f) h;
  (** the cached samples are the most recent ones, *)
  co_suffix : exists n, frames c = drop n (List.filter is_sample h);
  (** the latest GOP is among them, *)
  co_key : existsb is_key (frames c) = existsb is_key (List.filter is_sample h);
  co_gop : from_last_key (frames c) = from_last_key (List.filter is_sample h);
  (** and, once there was a key frame, few others are. *)
  co_bound :
    if existsb is_key (frames c) then length (frames c) <= 29 + length (from_last_key (frames c))
    else frames c = List.filter is_sample h
}.

Lemma cache_of_new : cache_of [] gop_new.
Proof. split; try done. by exists 0. Qed.

Lemma sample_cases f :
  (frame_type f = Metadata /\ is_sample f = false) \/
  (frame_type f = Video /\ is_config_frame f = true /\ is_sample f = false) \/
  (frame_type f = Audio /\ is_config_frame f = true /\ is_sample f = false) \/
  (is_sample f = true /\ is_type Metadata f = false /\ is_config_frame f = false).
Proof.
  unfold is_sample, is_type.
  destruct (frame_type f) eqn:Ht, (is_config_frame f) eqn:Hc; cbn; auto 8.
Qed.

(** A cached sample: some suffix of the old samples is kept, all of them unless
    the new one is a key frame. *)
Lemma cache_sample h c f kept n :
  cache_of h c -> is_sample f = true -> is_type Metadata f = false -> is_config_frame f = false ->
  kept = drop n (frames c) -> (is_key f = true -> length kept <= 29) -> (is_key f = false -> n = 0) ->
  cache_of (h ++ [f]) (set_frames c (kept ++ [f])).
Proof.
  intros [Hm Hme Hv Ha [k Hk] Hkey Hgop Hb] Hs Hmeta Hcfg -> Hlen Hn.
  split; cbn [set_frames metadata video_config audio_config frames max_gop_count]; [done|..].
  1-3: by rewrite last_such_snoc, ?Hmeta, ?Hcfg, ?andb_false_r.
  all: rewrite ?List.filter_app; cbn [List.filter]; rewrite ?Hs, ?existsb_snoc, ?from_last_key_snoc.
  - rewrite Hk, drop_drop. destruct (decide (k + n <= length (List.filter is_sample h))) as [Hle|Hgt].
    + exists (k + n). by rewrite drop_app_le.
    + exists (length (List.filter is_sample h)). rewrite drop_app_length, drop_ge by lia. done.
  - destruct (is_key f); [by rewrite !orb_true_r|]. rewrite Hn, drop_0 by done. by rewrite Hkey.
  - destruct (is_key f); [done|]. rewrite Hn, drop_0 by done. by rewrite Hkey, Hgop.
  - rewrite length_app. destruct (is_key f).
    + rewrite orb_true_r. cbn [length]. specialize (Hlen eq_refl). lia.
    + rewrite orb_false_r, Hn, drop_0 by done. destruct (existsb is_key (frames c)); [|by rewrite Hb].
      rewrite length_app. cbn [length]. lia.
Qed.

Lemma cache_frame_of h c f :
  cache_of h c -> exists c', cache_frame c f = Ok c' /\ cache_of (h ++ [f]) c'.
Proof.
  intros Hc. unfold cache_frame.
  destruct (sample_cases f) as [[Ht Hs]|[(Ht & Hcf & Hs)|[(Ht & Hcf & Hs)|(Hs & Hm & Hcf)]]].
  1-3: unfold is_type; rewrite ?Ht, ?Hcf; cbn; eexists; split; [reflexivity|];
    destruct Hc as [Hm Hme Hv Ha [k Hk] Hkey Hgop Hb];
    split; cbn [metadata video_config audio_config frames max_gop_count];
    rewrite ?last_such_snoc, ?List.filter_app; unfold is_type in *; cbn [List.filter]; rewrite ?Hs, ?app_nil_r, ?Ht, ?Hcf;
    cbn; eauto.
  rewrite Hm, Hcf, !andb_false_r. destruct (is_key f) eqn:Hk.
  - rewrite (co_max h c Hc). rewrite evict_ok by lia. cbn [mbind outcome_bind].
    eexists. split; [reflexivity|]. eapply (cache_sample h c f); [done..| |congruence].
    intros _. rewrite length_drop. lia.
  - cbn [mbind outcome_bind]. eexists. split; [reflexivity|].
    eapply (cache_sample h c f _ 0); [done..|by rewrite drop_0| |done]. congruence.
Qed.

Lemma cache_all_of h : forall h0 c, cache_of h0 c ->
  exists c', cache_all c h = Ok c' /\ cache_of (h0 ++ h) c'.
Proof.
  induction h as [|f h IH]; intros h0 c Hc; cbn [cache_all].
  - exists c. by rewrite app_nil_r.
  - destruct (cache_frame_of h0 c f Hc) as (c1 & -> & Hc1). cbn [mbind outcome_bind].
    destruct (IH _ _ Hc1) as (c2 & H2 & Hc2). exists c2. by rewrite <-app_assoc in Hc2.
Qed.

Lemma option_list_singleton (o : option MediaFrame) : default [] ((fun f => [f]) <$> o) = option_list o.
Proof. by destruct o. Qed.

Lemma cache_of_headers h c : cache_of h c -> header_frames c = spec_headers h.
Proof.
  intros [_ Hm Hv Ha _ _ _ _]. unfold header_frames, spec_headers.
  by rewrite Hm, Hv, Ha, option_list_singleton.
Qed.

(** C17: the GOP cache refines the stream history.  After any sequence of frames
    the cache serves a late player the last metadata, the last video and audio
    configuration and every sample from the last key frame on, exactly as if
    the whole stream had been kept; the samples it holds are the most recent
    ones, and after a key frame at most 29 older ones are held. *)
Theorem gop_cache_refines h :
  exists c, cache_all gop_new h = Ok c /\
    get_latest_gop_frames c = spec_headers h ++ from_last_key (List.filter is_sample h) /\
    (exists n, get_all_frames c = spec_headers h ++ drop n (List.filter is_sample h)) /\
    (existsb is_key (List.filter is_sample h) = true ->
     length (frames c) <= 29 + length (from_last_key (List.filter is_sample h))).
Proof.
  destruct (cache_all_of h [] gop_new cache_of_new) as (c & Hc & Hof). exists c. split; [done|].
  pose proof (cache_of_headers _ _ Hof) as Hh. cbn [app] in *.
  destruct Hof as [_ _ _ _ [n Hn] Hkey Hgop Hb].
  split_and!.
  - unfold get_latest_gop_frames. by rewrite latest_gop_eq, Hh, Hgop.
  - exists n. unfold get_all_frames. by rewrite Hh, Hn.
  - intros Hk. rewrite Hkey, Hk, Hgop in Hb. done.
Qed.

(** The latest GOP begins with a key frame and has no other. *)
Lemma from_last_key_shape l :
  from_last_key l = [] \/
  exists k tail, from_last_key l = k :: tail /\ is_key k = true /\ existsb is_key tail = false.
Proof.
  induction l as [|f l IH]; [by left|]. cbn. destruct (existsb is_key l) eqn:He; [done|].
  destruct (is_key f) eqn:Hf; [right; eauto 6|by left].
Qed.

(** What a late player decodes.  The samples it is served are empty or
    begin with a video key frame, the only one among them; a stream without
    video key frames serves no sample at all while every sample stays in
    memory. *)
Theorem gop_late_player h :
  exists c samples, cache_all gop_new h = Ok c /\
    get_latest_gop_frames c = spec_headers h ++ samples /\
    (samples = [] \/ exists k tail, samples = k :: tail /\ is_key k = true /\ existsb is_key tail = false) /\
    (existsb is_key (List.filter is_sample h) = false ->
     samples = [] /\ frames c = List.filter is_sample h).
Proof.
  destruct (cache_all_of h [] gop_new cache_of_new) as (c & Hc & Hof). exists c, (from_last_key (frames c)).
  pose proof (cache_of_headers _ _ Hof) as Hh. cbn [app] in *.
  split_and!; [done| |apply from_last_key_shape|].
  - unfold get_latest_gop_frames. by rewrite latest_gop_eq, Hh.
  - intros Hk. destruct Hof as [_ _ _ _ _ Hkey _ Hb]. rewrite <-Hkey in Hk. rewrite Hk in Hb.
    split; [by apply from_last_key_none|done].
Qed.
