(* ===== verification/Keys.v ===== *)
(** * Keys: stream keys

    Every registry of the server (media sources, proxies, pushers, recorders)
    is keyed by the string ["vhost/app/stream"]; two functions split it again. *)

From S2P Require Import Prelude.
From Stdlib Require Import Ascii String.
Open Scope string_scope.

Definition stream_key (vhost app stream : string) : string := vhost ++ "/" ++ app ++ "/" ++ stream.

(** [s.split_once(c)]: the parts before and after the first [c]. *)
Fixpoint split_once (c : ascii) (s : string) : option (string * string) :=
  match s with
  | EmptyString => None
  | String d s =>
      if Ascii.eqb d c then Some ("", s)
      else match split_once c s with
           | Some (l, r) => Some (String d l, r)
           | None => None
           end
  end.

Definition slash : ascii := "/".

(** [k.splitn(3, '/')]: three parts, or fewer separators. *)
Definition splitn3 (k : string) : option (string * string * string) :=
  match split_once slash k with
  | Some (v, rest) =>
      match split_once slash rest with
      | Some (a, s) => Some (v, a, s)
      | None => None
      end
  | None => None
  end.

Definition split_key (k : string) : string * string * string :=
  match splitn3 k with
  | Some p => p
  | None => ("", "", k)
  end.

Definition is_empty (s : string) : bool := match s with EmptyString => true | _ => false end.

Definition split_source_id (id : string) : option (string * string * string) :=
  match splitn3 id with
  | Some (v, a, s) => if is_empty v || is_empty a || is_empty s then None else Some (v, a, s)
  | None => None
  end.

(** [!s.contains(c)] *)
Fixpoint lacks (c : ascii) (s : string) : bool :=
  match s with
  | EmptyString => true
  | String d s => negb (Ascii.eqb d c) && lacks c s
  end.

Lemma key_split_once_app c s r : lacks c s = true -> split_once c (s ++ String c r) = Some (s, r).
Proof.
  induction s as [|d s IH]; simpl; intros H; [by rewrite Ascii.eqb_refl|].
  apply andb_true_iff in H as [Hd H]. apply negb_true_iff in Hd. by rewrite Hd, IH.
Qed.

Lemma splitn3_key v a s :
  lacks slash v = true -> lacks slash a = true -> splitn3 (stream_key v a s) = Some (v, a, s).
Proof.
  intros Hv Ha. unfold splitn3, stream_key.
  change ("/" ++ a ++ "/" ++ s) with (String slash (a ++ String slash s)).
  by rewrite key_split_once_app, key_split_once_app.
Qed.

(** Stream keys.  When neither virtual host nor application contains a
    slash the key determines the triple, and both splitting functions give it
    back ([split_source_id] unless a part is empty). *)
Theorem stream_key_round_trip v a s :
  lacks slash v = true -> lacks slash a = true ->
  split_key (stream_key v a s) = (v, a, s) /\
  (is_empty v || is_empty a || is_empty s = false -> split_source_id (stream_key v a s) = Some (v, a, s)) /\
  forall v' a' s', lacks slash v' = true -> lacks slash a' = true ->
    stream_key v a s = stream_key v' a' s' -> (v, a, s) = (v', a', s').
Proof.
  intros Hv Ha. unfold split_key, split_source_id. rewrite splitn3_key by done.
  split_and!; [done|by intros ->|]. intros v' a' s' Hv' Ha' He.
  apply (f_equal splitn3) in He. rewrite !splitn3_key in He by done. congruence.
Qed.

Lemma stream_key_round_trip_witness :
  split_source_id (stream_key "__defaultVhost__" "live" "cam/1") = Some ("__defaultVhost__", "live", "cam/1").
Proof. apply stream_key_round_trip; vm_compute; reflexivity. Defined.

Lemma stream_key_inj v a s v' a' s' :
  lacks slash v = true -> lacks slash a = true -> lacks slash v' = true -> lacks slash a' = true ->
  stream_key v a s = stream_key v' a' s' -> v = v' /\ a = a' /\ s = s'.
Proof.
  intros Hv Ha Hv' Ha' He. apply (f_equal splitn3) in He. rewrite !splitn3_key in He by done. by simplify_eq.
Qed.

(** A slash in the application is one in the stream. *)
Lemma stream_key_shift v a1 a2 s : stream_key v (a1 ++ "/" ++ a2) s = stream_key v a1 (a2 ++ "/" ++ s).
Proof.
  assert (forall x y z : string, (x ++ y) ++ z = x ++ y ++ z) as Ha.
  { intros x y z. induction x as [|c x IH]; [done|]. exact (f_equal (String c) IH). }
  unfold stream_key. by rewrite !Ha.
Qed.
