(* ===== verification/Source.v ===== *)
(** * Source: media sources, their readers and the source manager

    [core/src/media_source.rs] and [core/src/event_bus.rs].  The operations of
    a source run concurrently; each takes a lock for its update and publishes
    its events after releasing it, so the model splits them there. *)

From S2P Require Import Prelude Frame Gop Keys.
From stdpp Require Import gmap strings.
#[local] Set Warnings "-clear-no-such-hyp".

(** ** Events *)

Inductive Event : Type :=
| StreamPublish (source_id vhost app stream : string)
| StreamUnPublish (source_id vhost app stream : string)
| StreamPlay (source_id session_id : string)
| StreamStop (source_id session_id : string)
| StreamNotFoundEvent (vhost app stream : string)
| NoReader (source_id : string)
| FrameReceived (source_id : string) (frame : MediaFrame)
| RecordMp4Done (vhost app stream file_path : string) (file_size : Z) (time_len : f64).

Definition is_play (e : Event) : bool := match e with StreamPlay _ _ => true | _ => false end.
Definition is_no_reader (e : Event) : bool := match e with NoReader _ => true | _ => false end.

(** ** A media source *)

Record TrackDescriptor : Type := {
  rid : option string;
  remote_track_id : option string;
  td_stream_id : option string;
  td_ssrc : option Z
}.

Record MediaSource : Type := {
  source_id : string;
  source_vhost : string;
  source_app : string;
  source_stream : string;
  source_info : MediaInfo;
  channel_open : bool;                      (* frame_tx is Some *)
  gop_cache : GopCache;
  subscribers : gset string;
  track_descriptors : gmap Z TrackDescriptor;
  has_event_bus : bool;
  bytes_in : Z;
  bytes_out : Z
}.

Definition empty_info : MediaInfo := {| tracks := []; duration := None; Frame.metadata := None |}.

Definition source_new (id vhost app stream : string) (bus : bool) : MediaSource :=
  {| source_id := id; source_vhost := vhost; source_app := app; source_stream := stream;
     source_info := empty_info; channel_open := true; gop_cache := gop_new; subscribers := ∅;
     track_descriptors := ∅; has_event_bus := bus; bytes_in := 0; bytes_out := 0 |}.

(** Field assignments. *)
Definition set_info_tracks (s : MediaSource) (i : MediaInfo) (d : gmap Z TrackDescriptor) : MediaSource :=
  {| source_id := source_id s; source_vhost := source_vhost s; source_app := source_app s;
     source_stream := source_stream s; source_info := i; channel_open := channel_open s;
     gop_cache := gop_cache s; subscribers := subscribers s; track_descriptors := d;
     has_event_bus := has_event_bus s; bytes_in := bytes_in s; bytes_out := bytes_out s |}.
Definition set_subscribers (s : MediaSource) (x : gset string) : MediaSource :=
  {| source_id := source_id s; source_vhost := source_vhost s; source_app := source_app s;
     source_stream := source_stream s; source_info := source_info s;
     channel_open := channel_open s; gop_cache := gop_cache s; subscribers := x;
     track_descriptors := track_descriptors s; has_event_bus := has_event_bus s;
     bytes_in := bytes_in s; bytes_out := bytes_out s |}.
Definition set_channel (s : MediaSource) (b : bool) : MediaSource :=
  {| source_id := source_id s; source_vhost := source_vhost s; source_app := source_app s;
     source_stream := source_stream s; source_info := source_info s; channel_open := b;
     gop_cache := gop_cache s; subscribers := subscribers s;
     track_descriptors := track_descriptors s; has_event_bus := has_event_bus s;
     bytes_in := bytes_in s; bytes_out := bytes_out s |}.
Definition set_published (s : MediaSource) (c : GopCache) (i o : Z) : MediaSource :=
  {| source_id := source_id s; source_vhost := source_vhost s; source_app := source_app s;
     source_stream := source_stream s; source_info := source_info s;
     channel_open := channel_open s; gop_cache := c; subscribers := subscribers s;
     track_descriptors := track_descriptors s; has_event_bus := has_event_bus s; bytes_in := i;
     bytes_out := o |}.

Definition source_url (s : MediaSource) : string := (source_app s ++ "/" ++ source_stream s)%string.

Definition update_info (s : MediaSource) (i : MediaInfo) : MediaSource := set_info_tracks s i ∅.

Definition update_tracks (s : MediaSource) (ts : list TrackInfo) : MediaSource :=
  set_info_tracks s
    {| tracks := ts; duration := duration (source_info s); Frame.metadata := Frame.metadata (source_info s) |} ∅.

Definition set_track_descriptor (s : MediaSource) (track : Z) (d : TrackDescriptor) : MediaSource :=
  set_info_tracks s (source_info s) (<[track := d]> (track_descriptors s)).

Definition track_descriptor (s : MediaSource) (track : Z) : option TrackDescriptor :=
  track_descriptors s !! track.

(** The locked part of [add_subscriber] and the events it then publishes. *)
Definition add_subscriber (s : MediaSource) (session : string) : MediaSource * list Event :=
  let was_empty := bool_decide (subscribers s = ∅) in
  let inserted := bool_decide (session ∉ subscribers s) in
  (set_subscribers s ({[session]} ∪ subscribers s),
   if was_empty && inserted && has_event_bus s then [StreamPlay (source_id s) session] else []).

Definition remove_subscriber (s : MediaSource) (session : string) : MediaSource * list Event :=
  let removed := bool_decide (session ∈ subscribers s) in
  let rest := subscribers s ∖ {[session]} in
  (set_subscribers s rest,
   if removed && has_event_bus s then
     StreamStop (source_id s) session :: (if size rest =? 0 then [NoReader (source_id s)] else [])
   else []).

Definition subscriber_count (s : MediaSource) : nat := size (subscribers s).

Definition close (s : MediaSource) : MediaSource := set_channel s false.

(** [receivers] is the number of live receivers of the broadcast channel;
    [fetch_add] wraps. *)
Definition publish_and_cache (receivers : nat) (s : MediaSource) (frame : MediaFrame) : result MediaSource :=
  let payload_len := zlen (data frame) in
  cache ← cache_frame (gop_cache s) frame;
  let receivers := if channel_open s then receivers else 0 in
  Ok (set_published s cache (u64 (bytes_in s + payload_len))
        (if 0 <? receivers then u64 (bytes_out s + payload_len * Z.of_nat receivers)%Z else bytes_out s)).

Definition get_cached_config_frames (s : MediaSource) : list MediaFrame := get_config_frames (gop_cache s).
Definition source_latest_gop (s : MediaSource) : list MediaFrame := get_latest_gop_frames (gop_cache s).

(** A [SubscriberGuard] holds the session until it is closed or dropped. *)
Definition guard_close (s : MediaSource) (session : option string) :
    MediaSource * list Event * option string :=
  match session with
  | Some id => (remove_subscriber s id, None)
  | None => ((s, []), None)
  end.

(** ** Interleavings

    A session runs its operations in order: an event of its last operation is
    published before its next operation.  Sessions interleave freely, so the
    locked update of one may come between the update and the events of
    another. *)

Record World : Type := {
  source : MediaSource;
  pending : gmap string (list Event);
  log : list Event
}.

Definition pend (w : World) (session : string) : list Event := default [] (pending w !! session).

Definition world_new (id vhost app stream : string) : World :=
  {| source := source_new id vhost app stream true; pending := ∅; log := [] |}.

Definition run_locked (w : World) (session : string) (r : MediaSource * list Event) : World :=
  {| source := r.1; pending := <[session := r.2]> (pending w); log := log w |}.

Inductive world_step : World -> World -> Prop :=
| step_add w session :
    pend w session = [] -> world_step w (run_locked w session (add_subscriber (source w) session))
| step_remove w session :
    pend w session = [] -> world_step w (run_locked w session (remove_subscriber (source w) session))
| step_event w session e es :
    pend w session = e :: es ->
    world_step w {| source := source w; pending := <[session := es]> (pending w); log := log w ++ [e] |}
| step_frame w receivers frame s' :
    publish_and_cache receivers (source w) frame = Ok s' ->
    world_step w {| source := s'; pending := pending w; log := log w |}
| step_close w : world_step w {| source := close (source w); pending := pending w; log := log w |}.

Inductive world_reachable (w0 : World) : World -> Prop :=
| reach_here : world_reachable w0 w0
| reach_step w w' : world_reachable w0 w -> world_step w w' -> world_reachable w0 w'.

(** The last event that says whether the source has readers. *)
Definition last_reader_event (l : list Event) : option Event :=
  last (List.filter (fun e => is_play e || is_no_reader e) l).

Definition reports_no_reader (l : list Event) : Prop :=
  match last_reader_event l with Some e => is_no_reader e = true | None => True end.

Lemma last_reader_event_snoc l e :
  last_reader_event (l ++ [e]) = if is_play e || is_no_reader e then Some e else last_reader_event l.
Proof.
  unfold last_reader_event. rewrite List.filter_app. cbn.
  destruct (is_play e || is_no_reader e); [apply last_snoc|by rewrite app_nil_r].
Qed.

Record world_inv (w : World) : Prop := {
  inv_play : forall session e, e ∈ pend w session -> is_play e = true -> session ∈ subscribers (source w);
  inv_bus : has_event_bus (source w) = true;
  inv_idle : subscribers (source w) = ∅ ->
    (exists session e, e ∈ pend w session /\ is_no_reader e = true) \/ reports_no_reader (log w)
}.

Lemma pend_locked w session r s :
  pend (run_locked w session r) s = if decide (s = session) then r.2 else pend w s.
Proof.
  unfold pend, run_locked. cbn. destruct (decide (s = session)) as [->|Hne].
  - by rewrite lookup_insert_eq.
  - by rewrite lookup_insert_ne.
Qed.

Lemma add_subscriber_inv w session :
  world_inv w -> pend w session = [] -> world_inv (run_locked w session (add_subscriber (source w) session)).
Proof.
  intros [Hp Hb Hi] Hq. split.
  - intros s e. rewrite pend_locked. cbn. destruct (decide (s = session)) as [->|Hne]; [set_solver|].
    intros He Hpl. pose proof (Hp s e He Hpl). set_solver.
  - done.
  - cbn. set_solver.
Qed.

Lemma remove_subscriber_inv w session :
  world_inv w -> pend w session = [] -> world_inv (run_locked w session (remove_subscriber (source w) session)).
Proof.
  intros [Hp Hb Hi] Hq. split.
  - intros s e. rewrite pend_locked. cbn. rewrite Hb. destruct (decide (s = session)) as [->|Hne].
    + rewrite andb_true_r. case_bool_decide; [|by intros ?%elem_of_nil].
      rewrite elem_of_cons. intros [->|He]; [done|]. destruct (_ =? 0); [|by apply elem_of_nil in He].
      apply list_elem_of_singleton in He as ->. done.
    + intros He Hpl. pose proof (Hp s e He Hpl). set_solver.
  - done.
  - cbn. intros Hempty.
    destruct (decide (session ∈ subscribers (source w))) as [Hin|Hout].
    + left. exists session, (NoReader (source_id (source w))). split; [|done].
      rewrite pend_locked. rewrite decide_True by done. cbn. rewrite Hb, andb_true_r.
      rewrite bool_decide_true by done. rewrite Hempty, size_empty. cbn. set_solver.
    + assert (subscribers (source w) = ∅) as He by set_solver.
      destruct (Hi He) as [(s & e & He' & Hn)|Hr]; [|by right]. left. exists s, e. split; [|done].
      rewrite pend_locked. destruct (decide (s = session)) as [->|]; [|done].
      rewrite Hq in He'. by apply elem_of_nil in He'.
Qed.

Lemma event_inv w session e es :
  world_inv w -> pend w session = e :: es ->
  world_inv {| source := source w; pending := <[session := es]> (pending w); log := log w ++ [e] |}.
Proof.
  intros [Hp Hb Hi] Hq.
  assert (forall s, pend {| source := source w; pending := <[session := es]> (pending w); log := log w ++ [e] |} s
    = if decide (s = session) then es else pend w s) as Hpd.
  { intros s. exact (pend_locked w session (source w, es) s). }
  assert (is_play e = true -> session ∈ subscribers (source w)) as He.
  { apply Hp. rewrite Hq. set_solver. }
  split.
  - intros s x. rewrite Hpd. destruct (decide (s = session)) as [->|]; [|apply Hp].
    intros Hx. apply Hp. rewrite Hq. set_solver.
  - done.
  - cbn [source log]. intros Hempty. destruct (is_no_reader e) eqn:Hn.
    { right. unfold reports_no_reader. rewrite last_reader_event_snoc, Hn, orb_true_r. done. }
    destruct (is_play e) eqn:Hpl; [set_solver|].
    destruct (Hi Hempty) as [(s & x & Hx & Hxn)|Hr].
    + left. exists s, x. split; [|done]. rewrite Hpd. destruct (decide (s = session)) as [->|]; [|done].
      rewrite Hq in Hx. apply elem_of_cons in Hx as [->|Hx]; [congruence|done].
    + right. unfold reports_no_reader. by rewrite last_reader_event_snoc, Hn, Hpl.
Qed.

Lemma world_inv_reachable id v a st w : world_reachable (world_new id v a st) w -> world_inv w.
Proof.
  induction 1 as [|w w' Hr IH Hs].
  { split; [|done|by right]. intros s e. unfold pend. cbn. rewrite lookup_empty. by intros ?%elem_of_nil. }
  destruct Hs as [w s Hq|w s Hq|w s e es Hq|w r f s' Hf|w].
  - by apply add_subscriber_inv.
  - by apply remove_subscriber_inv.
  - by eapply event_inv.
  - unfold publish_and_cache in Hf. destruct (cache_frame _ _); try done. cbn in Hf. simplify_eq.
    destruct IH as [H1 H2 H3]. by split.
  - destruct IH as [H1 H2 H3]. by split.
Qed.

(** C33: readers are reported faithfully.  However the sessions interleave, when
    a source has no subscriber left and every event has been published, the
    last event about its readers is [NoReader] (or there never was a reader),
    so a stop scheduled by that event is not cancelled by a stale
    [StreamPlay]. *)
Theorem no_reader_reported id v a st w :
  world_reachable (world_new id v a st) w -> subscriber_count (source w) = 0 ->
  (forall session, pend w session = []) -> reports_no_reader (log w).
Proof.
  intros Hr Hc Hq. apply world_inv_reachable in Hr as [_ _ Hi].
  unfold subscriber_count in Hc. apply size_empty_inv, leibniz_equiv in Hc. destruct (Hi Hc) as [(s & e & He & _)|]; [|done].
  rewrite Hq in He. by apply elem_of_nil in He.
Qed.

(** Executable runs: the sessions' operations and publications in the order
    they happen. *)
Inductive action : Type := Add (session : string) | Remove (session : string) | Deliver (session : string).

Definition run_action (w : World) (a : action) : option World :=
  match a with
  | Add s => if bool_decide (pend w s = []) then Some (run_locked w s (add_subscriber (source w) s)) else None
  | Remove s => if bool_decide (pend w s = []) then Some (run_locked w s (remove_subscriber (source w) s)) else None
  | Deliver s =>
      match pend w s with
      | e :: es => Some {| source := source w; pending := <[s := es]> (pending w); log := log w ++ [e] |}
      | [] => None
      end
  end.

Fixpoint run_actions (w : World) (l : list action) : option World :=
  match l with
  | [] => Some w
  | a :: l => match run_action w a with Some w' => run_actions w' l | None => None end
  end.

Lemma run_actions_reachable w0 w l w' :
  world_reachable w0 w -> run_actions w l = Some w' -> world_reachable w0 w'.
Proof.
  revert w. induction l as [|a l IH]; intros w Hr H; cbn in H; [by simplify_eq|].
  destruct (run_action w a) as [w1|] eqn:Ha; [|done]. eapply IH; [|done]. eapply reach_step; [done|].
  destruct a; cbn in Ha.
  - case_bool_decide; simplify_eq. by constructor.
  - case_bool_decide; simplify_eq. by constructor.
  - destruct (pend w session) eqn:Hq; simplify_eq. by eapply step_event.
Qed.

Lemma all_quiet w :
  forallb (fun kv => match kv.2 with [] => true | _ => false end) (map_to_list (pending w)) = true ->
  forall session, pend w session = [].
Proof.
  intros H s. unfold pend. destruct (pending w !! s) as [l|] eqn:Hl; [|done]. cbn.
  rewrite forallb_forall in H. specialize (H (s, l)). cbn in H. destruct l; [done|].
  discriminate H. by apply list_elem_of_In, elem_of_map_to_list.
Qed.

Lemma no_reader_reported_witness :
  exists w, run_actions (world_new "v/live/cam" "v" "live" "cam")
      [Add "a"; Deliver "a"; Add "b"; Remove "a"; Deliver "a"; Remove "b"; Deliver "b"; Deliver "b"] = Some w /\
    log w <> [] /\ reports_no_reader (log w).
Proof.
  eexists. split; [vm_compute; reflexivity|]. split; [discriminate|].
  eapply (no_reader_reported "v/live/cam" "v" "live" "cam").
  - eapply (run_actions_reachable _ _
      [Add "a"; Deliver "a"; Add "b"; Remove "a"; Deliver "a"; Remove "b"; Deliver "b"; Deliver "b"]);
      [apply reach_here|vm_compute; reflexivity].
  - vm_compute. reflexivity.
  - apply all_quiet. vm_compute. reflexivity.
Defined.

(** The converse does not hold: [NoReader] may be the last event while a
    player is connected, because events are published after the lock is
    released.  A consumer has to look at the subscriber count again, as
    [run_no_reader_supervisor] does. *)
Theorem no_reader_may_be_stale :
  exists w, world_reachable (world_new "v/live/cam" "v" "live" "cam") w /\
    (forall session, pend w session = []) /\ subscriber_count (source w) = 1 /\
    last_reader_event (log w) = Some (NoReader "v/live/cam").
Proof.
  eexists. split_and!.
  - eapply (run_actions_reachable _ _
      [Add "a"; Deliver "a"; Remove "a"; Add "b"; Deliver "b"; Deliver "a"; Deliver "a"]);
      [apply reach_here|vm_compute; reflexivity].
  - apply all_quiet. vm_compute. reflexivity.
  - vm_compute. reflexivity.
  - vm_compute. reflexivity.
Qed.

(** ** The source manager

    An [Arc<MediaSource>] is a reference into a store: a removed source stays
    alive for the sessions that hold it. *)

Record SourceManager : Type := {
  sources : gmap string nat;
  store : list MediaSource;
  manager_bus : bool
}.

Definition source_manager_new (bus : bool) : SourceManager :=
  {| sources := ∅; store := []; manager_bus := bus |}.

(** The entry's source, or a new one inserted under the id. *)
Definition get_or_create (m : SourceManager) (v a s : string) : SourceManager * nat :=
  let id := stream_key v a s in
  match sources m !! id with
  | Some r => (m, r)
  | None =>
      let r := length (store m) in
      ({| sources := <[id := r]> (sources m);
          store := store m ++ [source_new id v a s (manager_bus m)];
          manager_bus := manager_bus m |}, r)
  end.

Definition get (m : SourceManager) (v a s : string) : option nat := sources m !! stream_key v a s.

Definition remove_source (m : SourceManager) (v a s : string) : SourceManager * option nat :=
  let id := stream_key v a s in
  ({| sources := delete id (sources m); store := store m; manager_bus := manager_bus m |}, sources m !! id).

(** A method call on the shared source [r]. *)
Definition update_source (m : SourceManager) (r : nat) (f : MediaSource -> MediaSource) : SourceManager :=
  {| sources := sources m; store := alter f r (store m); manager_bus := manager_bus m |}.

Definition close_stream (m : SourceManager) (v a s : string) : SourceManager * bool :=
  let id := stream_key v a s in
  match sources m !! id with
  | Some r =>
      (update_source {| sources := delete id (sources m); store := store m; manager_bus := manager_bus m |}
         r close, true)
  | None => (m, false)
  end.

Definition source_count (m : SourceManager) : nat := size (sources m).

Definition list_sources (m : SourceManager) : list nat := (map_to_list (sources m)).*2.

Definition opt_matches (filter : option string) (p : string -> bool) : bool :=
  match filter with None => true | Some x => p x end.

Definition source_matches (v a st : option string) (s : MediaSource) : bool :=
  opt_matches v (fun x => bool_decide (source_vhost s = x) || bool_decide (x = "__defaultVhost__")) &&
  opt_matches a (fun x => bool_decide (source_app s = x)) &&
  opt_matches st (fun x => bool_decide (source_stream s = x)).

Definition list_filtered (m : SourceManager) (v a st : option string) : list nat :=
  List.filter (fun r => match store m !! r with Some s => source_matches v a st s | None => false end)
    (list_sources m).

Fixpoint traffic (l : list MediaSource) (acc : Z * Z) : result (Z * Z) :=
  match l with
  | [] => Ok acc
  | s :: l =>
      let i := (acc.1 + bytes_in s)%Z in
      let o := (acc.2 + bytes_out s)%Z in
      if ((i <? 2 ^ 64) && (o <? 2 ^ 64))%Z then traffic l (i, o) else Panic
  end.

Definition total_traffic (m : SourceManager) : result (Z * Z) :=
  traffic (omap (fun r => store m !! r) (list_sources m)) (0, 0)%Z.

(** *** The registry invariant *)

Definition same_identity (s s' : MediaSource) : Prop :=
  source_id s' = source_id s /\ source_vhost s' = source_vhost s /\ source_app s' = source_app s /\
  source_stream s' = source_stream s.

Inductive manager_step : SourceManager -> SourceManager -> Prop :=
| mstep_create m v a s : manager_step m (get_or_create m v a s).1
| mstep_remove m v a s : manager_step m (remove_source m v a s).1
| mstep_close m v a s : manager_step m (close_stream m v a s).1
| mstep_source m r f : (forall s, same_identity s (f s)) -> manager_step m (update_source m r f).

Inductive manager_run : SourceManager -> SourceManager -> Prop :=
| mrun_refl m : manager_run m m
| mrun_step m m1 m2 : manager_run m m1 -> manager_step m1 m2 -> manager_run m m2.

(** Every entry refers to a source created under its own key, and no two
    entries share one. *)
Record manager_inv (m : SourceManager) : Prop := {
  mi_entry : forall id r, sources m !! id = Some r -> exists s, store m !! r = Some s /\
    source_id s = id /\ id = stream_key (source_vhost s) (source_app s) (source_stream s);
  mi_inj : forall id id' r, sources m !! id = Some r -> sources m !! id' = Some r -> id = id'
}.

Lemma manager_inv_delete m id :
  manager_inv m -> manager_inv {| sources := delete id (sources m); store := store m; manager_bus := manager_bus m |}.
Proof.
  intros [He Hi]. split; cbn.
  - intros id' r [_ H]%lookup_delete_Some. by apply He.
  - intros id1 id2 r [_ H1]%lookup_delete_Some [_ H2]%lookup_delete_Some. by eapply Hi.
Qed.

Lemma manager_inv_update m r f :
  (forall s, same_identity s (f s)) -> manager_inv m -> manager_inv (update_source m r f).
Proof.
  intros Hf [He Hi]. split; [|done]. cbn. intros id r' Hr. destruct (He id r' Hr) as (s & Hs & Hid & Hk).
  destruct (decide (r = r')) as [->|Hne].
  - exists (f s). rewrite list_lookup_alter_eq, Hs. destruct (Hf s) as (H1 & H2 & H3 & H4).
    by rewrite H1, H2, H3, H4.
  - exists s. by rewrite list_lookup_alter_ne.
Qed.

Lemma source_step_inv m m' : manager_step m m' -> manager_inv m -> manager_inv m'.
Proof.
  intros Hs Hm. destruct Hs as [m v a s|m v a s|m v a s|m r f Hf].
  - unfold get_or_create. destruct (sources m !! stream_key v a s) eqn:Hk; [done|].
    destruct Hm as [He Hi].
    assert (forall id r, sources m !! id = Some r -> r < length (store m)) as Hlt.
    { intros id r (x & Hx & _)%He. by eapply lookup_lt_Some. }
    split; cbn.
    + intros id r. destruct (decide (id = stream_key v a s)) as [->|Hne].
      * rewrite lookup_insert_eq. intros [= <-]. eexists. split; [by apply list_lookup_middle|done].
      * rewrite lookup_insert_ne by done. intros Hr. destruct (He _ _ Hr) as (x & Hx & Hid).
        exists x. split; [|done]. rewrite lookup_app_l; [done|]. by eapply lookup_lt_Some.
    + intros id id' r. destruct (decide (id = stream_key v a s)) as [->|Hne], (decide (id' = stream_key v a s)) as [->|Hne'];
        rewrite ?lookup_insert_eq, ?lookup_insert_ne by done; [done| | |apply Hi].
      * intros [= <-] H%Hlt. lia.
      * intros H%Hlt [= <-]. lia.
  - by apply manager_inv_delete.
  - unfold close_stream. destruct (sources m !! _); [|done].
    by apply manager_inv_update, manager_inv_delete.
  - by apply manager_inv_update.
Qed.

Lemma manager_run_inv b m : manager_run (source_manager_new b) m -> manager_inv m.
Proof.
  intros H. remember (source_manager_new b) as m0 eqn:E. induction H as [m|m m1 m2 H IH Hs]; subst.
  - split; cbn; intros *; by rewrite lookup_empty.
  - eapply source_step_inv; eauto.
Qed.

(** C26: the source manager is a registry keyed by the text
    "vhost/app/stream".  In every reachable state and for every request: a
    lookup returns a source created under the request's key, two requests find
    the same source only if their keys are equal, and then always; the key is
    the stream itself when neither the request's nor the found source's vhost
    and app contain a slash, whereas applications and streams with slashes can
    share a source, as "a/b" with "c" and "a" with "b/c" do.
    [get_or_create] then finds the same source again and touches no other
    key's entry; [close_stream] succeeds iff the key is registered,
    unregisters it, closes the channel of that source and of no other, and the
    next [get_or_create] starts a fresh, open source. *)
Theorem source_registry b m v a s :
  manager_run (source_manager_new b) m ->
  (forall r, get m v a s = Some r -> exists x, store m !! r = Some x /\
     stream_key (source_vhost x) (source_app x) (source_stream x) = stream_key v a s /\
     (lacks slash v = true -> lacks slash a = true -> lacks slash (source_vhost x) = true -> lacks slash (source_app x) = true ->
        source_vhost x = v /\ source_app x = a /\ source_stream x = s)) /\
  (forall v' a' s' r, get m v a s = Some r -> get m v' a' s' = Some r <-> stream_key v' a' s' = stream_key v a s) /\
  (forall a1 a2, get m v (a1 ++ "/" ++ a2) s = get m v a1 (a2 ++ "/" ++ s)) /\
  (let '(m', r) := get_or_create m v a s in
   get m' v a s = Some r /\ get_or_create m' v a s = (m', r) /\
   forall k, k <> stream_key v a s -> sources m' !! k = sources m !! k) /\
  (let '(m', found) := close_stream m v a s in
   found = bool_decide (is_Some (get m v a s)) /\ get m' v a s = None /\
   (forall r, get m v a s = Some r -> forall r', store m' !! r' =
      if decide (r' = r) then close <$> store m !! r' else store m !! r') /\
   exists x, store (get_or_create m' v a s).1 !! (get_or_create m' v a s).2 = Some x /\
     channel_open x = true /\ subscribers x = ∅).
Proof.
  intros Hr. apply manager_run_inv in Hr as [He Hi]. split_and!.
  - intros r Hg. destruct (He _ _ Hg) as (x & Hx & _ & Hk). exists x. split; [done|]. split; [done|].
    intros Hv Ha Hv' Ha'. destruct (stream_key_inj v a s _ _ _ Hv Ha Hv' Ha' Hk) as (? & ? & ?). done.
  - intros v' a' s' r Hg. unfold get in *. split; [intros Hg'; by eapply Hi|by intros ->].
  - intros a1 a2. unfold get. f_equal. apply stream_key_shift.
  - unfold get_or_create, get. destruct (sources m !! stream_key v a s) eqn:Hk.
    + by rewrite Hk.
    + cbn [sources]. rewrite lookup_insert_eq. split_and!; [done|done|].
      intros k Hne. by rewrite lookup_insert_ne.
  - unfold close_stream, get. destruct (sources m !! stream_key v a s) as [r|] eqn:Hk.
    + split_and!; [done|cbn; apply lookup_delete_eq| |].
      * intros r0 [= <-] r'. cbn. destruct (decide (r' = r)) as [->|Hne];
          [by rewrite list_lookup_alter_eq|by rewrite list_lookup_alter_ne].
      * unfold get_or_create. cbn. rewrite lookup_delete_eq. cbn.
        eexists. split; [by apply list_lookup_middle|done].
    + rewrite Hk. split_and!; [done|done|by intros|].
      unfold get_or_create. rewrite Hk. cbn. eexists. split; [by apply list_lookup_middle|done].
Qed.

Lemma source_registry_witness :
  let m := (get_or_create (get_or_create (source_manager_new true) "v" "live" "cam").1 "v" "a/b" "c").1 in
  get m "v" "live" "cam" = Some 0 /\ get m "v" "a" "b/c" = Some 1 /\
  (get_or_create m "v" "live" "cam").2 = 0 /\ (close_stream m "v" "live" "cam").2 = true.
Proof.
  intros m. assert (manager_run (source_manager_new true) m) as Hm by (repeat (eapply mrun_step; [|apply mstep_create]); apply mrun_refl).
  split; [reflexivity|]. split.
  - transitivity (get m "v" "a/b" "c"); [|reflexivity]. symmetry.
    exact (proj1 (proj2 (proj2 (source_registry true m "v" "a" "c" Hm))) "a" "b").
  - split; reflexivity.
Defined.
