(* ===== verification/Control.v ===== *)
(** * Control: stream proxies and pushers

    [core/src/stream_proxy.rs], [core/src/stream_pusher.rs] and the supervisors
    of [server/src/main.rs] that run the tasks.  API calls, the supervisor and
    the tasks run concurrently; the model has one step per atomic table
    operation and per store to a flag.  The [Arc<AtomicBool>] that identifies a
    task is a number, fresh for each [add]; the flags that were set are a set of
    such numbers. *)

From S2P Require Import Prelude Keys.
From stdpp Require Import gmap strings.
#[local] Set Warnings "-clear-no-such-hyp".

(** [ProxyEntry] and [PusherEntry] (which has no [on_demand] flag). *)
Record Entry : Type := { entry_url : string; marker : nat; on_demand : bool }.

(** [ProxyCmd] and [PusherCmd]. *)
Record Cmd : Type := {
  cmd_url : string;
  cmd_vhost : string;
  cmd_app : string;
  cmd_stream : string;
  cmd_marker : nat
}.

Definition cmd_key (c : Cmd) : string := stream_key (cmd_vhost c) (cmd_app c) (cmd_stream c).

Record Control : Type := {
  active : gmap string Entry;
  stopped : gset nat;
  removing : gset nat;  (* taken from the table by [remove], flag not yet set *)
  next_marker : nat;
  sending : list Cmd;   (* inserted by [add], not yet sent *)
  queue : list Cmd;     (* in the command channel *)
  running : list Cmd;   (* spawned tasks *)
  rx_open : bool
}.

Definition control_new : Control :=
  {| active := ∅; stopped := ∅; removing := ∅; next_marker := 0; sending := []; queue := []; running := []; rx_open := true |}.

(** [belongs_to]: the entry is the one the task was started with. *)
Definition belongs_to (mk : nat) (e : Entry) : bool := marker e =? mk.

(** [DashMap::remove_if(key, |_, e| belongs_to(e))]. *)
Definition remove_if (mk : nat) (k : string) (m : gmap string Entry) : gmap string Entry :=
  match m !! k with
  | Some e => if belongs_to mk e then delete k m else m
  | None => m
  end.

(** First half of [add_inner]: the vacant entry is filled. *)
Definition add_insert (c : Control) (url v a s : string) (od : bool) : Control * bool :=
  let k := stream_key v a s in
  match active c !! k with
  | Some _ => (c, false)
  | None =>
      let mk := next_marker c in
      ({| active := <[k := {| entry_url := url; marker := mk; on_demand := od |}]> (active c);
          stopped := stopped c; removing := removing c; next_marker := S mk;
          sending := sending c ++ [{| cmd_url := url; cmd_vhost := v; cmd_app := a; cmd_stream := s; cmd_marker := mk |}];
          queue := queue c; running := running c; rx_open := rx_open c |}, true)
  end.

(** Second half: the command is sent, or the entry is taken back. *)
Definition add_send (c : Control) (i : nat) (cmd : Cmd) : Control * bool :=
  if rx_open c then
    ({| active := active c; stopped := stopped c; removing := removing c; next_marker := next_marker c;
        sending := delete i (sending c); queue := queue c ++ [cmd]; running := running c;
        rx_open := true |}, true)
  else
    ({| active := remove_if (cmd_marker cmd) (cmd_key cmd) (active c); stopped := stopped c; removing := removing c;
        next_marker := next_marker c; sending := delete i (sending c); queue := queue c;
        running := running c; rx_open := false |}, false).

(** [remove]: the entry is taken from the table, ... *)
Definition remove_entry (c : Control) (v a s : string) : Control * option nat :=
  let k := stream_key v a s in
  match active c !! k with
  | Some e =>
      ({| active := delete k (active c); stopped := stopped c; removing := {[marker e]} ∪ removing c; next_marker := next_marker c;
          sending := sending c; queue := queue c; running := running c; rx_open := rx_open c |}, Some (marker e))
  | None => (c, None)
  end.

(** ... then its flag is set. *)
Definition remove_signal (c : Control) (mk : nat) : Control :=
  {| active := active c; stopped := {[mk]} ∪ stopped c; removing := removing c ∖ {[mk]}; next_marker := next_marker c;
     sending := sending c; queue := queue c; running := running c; rx_open := rx_open c |}.

(** A call that nothing interrupts. *)
Definition remove (c : Control) (v a s : string) : Control * bool :=
  match remove_entry c v a s with
  | (c, Some mk) => (remove_signal c mk, true)
  | (c, None) => (c, false)
  end.

(** Tasks that are told to stop, or are about to be. *)
Definition signalled (c : Control) : gset nat := stopped c ∪ removing c.

Definition is_active (c : Control) (v a s : string) : bool :=
  bool_decide (is_Some (active c !! stream_key v a s)).

Definition is_on_demand (c : Control) (v a s : string) : bool :=
  match active c !! stream_key v a s with Some e => on_demand e | None => false end.

Definition list_active (c : Control) : list (string * (string * string * string)) :=
  (fun kv => (entry_url kv.2, split_key kv.1)) <$> map_to_list (active c).

(** The supervisor takes a command and spawns its task. *)
Definition supervisor_recv (c : Control) : Control :=
  match queue c with
  | [] => c
  | cmd :: q =>
      {| active := active c; stopped := stopped c; removing := removing c; next_marker := next_marker c; sending := sending c;
         queue := q; running := running c ++ [cmd]; rx_open := rx_open c |}
  end.

Definition end_task (c : Control) (i : nat) (m : gmap string Entry) : Control :=
  {| active := m; stopped := stopped c; removing := removing c; next_marker := next_marker c; sending := sending c;
     queue := queue c; running := delete i (running c); rx_open := rx_open c |}.

(** The end of a proxy task; the flag tells whether the stream is closed too. *)
Definition proxy_task_exit (c : Control) (i : nat) (cmd : Cmd) : Control * bool :=
  (end_task c i (remove_if (cmd_marker cmd) (cmd_key cmd) (active c)),
   match active c !! cmd_key cmd with Some e => belongs_to (cmd_marker cmd) e | None => false end).

(** The end of a pusher task: [active.remove(&key)], whoever owns the entry. *)
Definition pusher_task_exit (c : Control) (i : nat) (cmd : Cmd) : Control :=
  end_task c i (delete (cmd_key cmd) (active c)).

(** [StreamPusherControl] has the same table operations, without the on-demand
    flag. *)
Definition pusher_add_insert (c : Control) (dst_url v a s : string) : Control * bool :=
  add_insert c dst_url v a s false.
Definition pusher_add_send (c : Control) (i : nat) (cmd : Cmd) : Control * bool := add_send c i cmd.
Definition pusher_remove (c : Control) (v a s : string) : Control * bool := remove c v a s.
Definition pusher_list (c : Control) : list (string * (string * string * string)) := list_active c.

(** The supervisor ends and drops the receiver with what it holds. *)
Definition drop_rx (c : Control) : Control :=
  {| active := active c; stopped := stopped c; removing := removing c; next_marker := next_marker c; sending := sending c;
     queue := []; running := running c; rx_open := false |}.

(** ** Interleavings, for either way of ending a task *)

Section steps.
Context (task_exit : Control -> nat -> Cmd -> Control).

Inductive control_step : Control -> Control -> Prop :=
| cstep_insert c url v a s od : control_step c (add_insert c url v a s od).1
| cstep_send c i cmd : sending c !! i = Some cmd -> control_step c (add_send c i cmd).1
| cstep_remove_entry c v a s : control_step c (remove_entry c v a s).1
| cstep_remove_signal c mk : mk ∈ removing c -> control_step c (remove_signal c mk)
| cstep_recv c : control_step c (supervisor_recv c)
| cstep_exit c i cmd : running c !! i = Some cmd -> control_step c (task_exit c i cmd)
| cstep_drop c : control_step c (drop_rx c).

Inductive control_reachable : Control -> Prop :=
| creach_new : control_reachable control_new
| creach_step c c' : control_reachable c -> control_step c c' -> control_reachable c'.
End steps.

Definition proxy_exit (c : Control) (i : nat) (cmd : Cmd) : Control := (proxy_task_exit c i cmd).1.

(** Tasks that were started, in whatever stage. *)
Definition tasks (c : Control) : list Cmd := sending c ++ queue c ++ running c.

Record control_inv (c : Control) : Prop := {
  (** markers are fresh and identify the task, *)
  ci_fresh : forall cmd, cmd ∈ tasks c -> cmd_marker cmd < next_marker c;
  ci_unique : NoDup (cmd_marker <$> tasks c);
  ci_entry : forall k e, active c !! k = Some e -> marker e < next_marker c /\ marker e ∉ signalled c;
  ci_inj : forall k k' e e', active c !! k = Some e -> active c !! k' = Some e' ->
    marker e = marker e' -> k = k';
  ci_stop : forall mk, mk ∈ signalled c -> mk < next_marker c;
  (** a task that was not told to stop owns the entry of its key. *)
  ci_owner : forall cmd, cmd ∈ tasks c -> cmd_marker cmd ∉ signalled c ->
    exists e, active c !! cmd_key cmd = Some e /\ marker e = cmd_marker cmd
}.

Lemma control_inv_new : control_inv control_new.
Proof.
  split; cbn; try by intros ? ?%elem_of_nil.
  - constructor.
  - intros k e. by rewrite lookup_empty.
  - intros k k' e e'. by rewrite lookup_empty.
  - set_solver.
Qed.

(** Steps that start no task: the remaining tasks keep their entries. *)
Lemma control_inv_shrink c c' :
  control_inv c -> tasks c' ⊆+ tasks c -> next_marker c' = next_marker c -> signalled c' = signalled c ->
  (forall k e, active c' !! k = Some e -> active c !! k = Some e) ->
  (forall cmd e, cmd ∈ tasks c' -> active c !! cmd_key cmd = Some e -> marker e = cmd_marker cmd ->
     active c' !! cmd_key cmd = Some e) ->
  control_inv c'.
Proof.
  intros [Hf Hu He Hj Hs Ho] Hsub Hn Hst Ha Hk.
  assert (forall cmd, cmd ∈ tasks c' -> cmd ∈ tasks c) as Hin by (intros; by eapply elem_of_submseteq).
  split; rewrite ?Hn, ?Hst; eauto.
  - apply submseteq_Permutation in Hsub as [k Hp]. rewrite Hp, fmap_app in Hu.
    by apply NoDup_app in Hu as [? _].
  - intros cmd Hc Hns. destruct (Ho cmd (Hin _ Hc) Hns) as (e & Hac & Hm). eauto.
Qed.

(** Taking out one task together with the entry it owns. *)
Lemma control_inv_exit c c' cmd rest :
  control_inv c -> tasks c ≡ₚ cmd :: rest -> tasks c' ≡ₚ rest ->
  next_marker c' = next_marker c -> signalled c' = signalled c ->
  active c' = remove_if (cmd_marker cmd) (cmd_key cmd) (active c) -> control_inv c'.
Proof.
  intros Hc Ht Ht' Hn Hst Ha. apply (control_inv_shrink c); [done| |done|done| |].
  - rewrite Ht', Ht. by apply submseteq_cons.
  - intros k e. rewrite Ha. unfold remove_if. repeat case_match; try done. by intros [_ ?]%lookup_delete_Some.
  - intros x e Hx Hac Hm. rewrite Ht' in Hx. rewrite Ha. unfold remove_if.
    assert (cmd_marker x <> cmd_marker cmd) as Hne.
    { pose proof (ci_unique c Hc) as Hu. rewrite Ht in Hu. cbn in Hu. apply NoDup_cons in Hu as [Hu _].
      intros Heq. apply Hu. rewrite <-Heq. by apply list_elem_of_fmap_2. }
    destruct (active c !! cmd_key cmd) as [e'|] eqn:Hk; [|done]. unfold belongs_to.
    destruct (Nat.eqb_spec (marker e') (cmd_marker cmd)); [|done].
    rewrite lookup_delete_ne; [done|]. intros Heq. rewrite Heq in Hk. congruence.
Qed.

Lemma add_insert_inv c url v a s od : control_inv c -> control_inv (add_insert c url v a s od).1.
Proof.
  intros Hc. unfold add_insert. destruct (active c !! stream_key v a s) eqn:Hk; [done|]. cbn.
  destruct Hc as [Hf Hu He Hj Hs Ho].
  set (new := {| cmd_url := url; cmd_vhost := v; cmd_app := a; cmd_stream := s; cmd_marker := next_marker c |}).
  set (c' := {| active := _ |}).
  assert (tasks c' ≡ₚ new :: tasks c) as Ht.
  { unfold tasks. cbn. rewrite <-app_assoc. cbn. by rewrite <-Permutation_middle. }
  split.
  - intros cmd. rewrite Ht, elem_of_cons. intros [->|Hc%Hf]; cbn; lia.
  - rewrite Ht. cbn. apply NoDup_cons. split; [|done].
    intros (x & Hx & Hin%Hf)%list_elem_of_fmap. lia.
  - intros k e. cbn. destruct (decide (k = stream_key v a s)) as [->|Hne].
    + rewrite lookup_insert_eq. intros [= <-]. cbn. split; [lia|]. intros Hin%Hs. lia.
    + rewrite lookup_insert_ne by done. intros [H1 H2]%He. split; [lia|done].
  - intros k k' e e'. cbn.
    destruct (decide (k = stream_key v a s)) as [->|Hne], (decide (k' = stream_key v a s)) as [->|Hne'];
      rewrite ?lookup_insert_eq, ?lookup_insert_ne by done; [done| | |apply Hj].
    + intros [= <-] [H _]%He. cbn. lia.
    + intros [H _]%He [= <-]. cbn. lia.
  - intros mk Hmk%Hs. cbn. lia.
  - intros cmd. rewrite Ht, elem_of_cons. intros [->|Hin] Hns; cbn in *.
    + change (cmd_key new) with (stream_key v a s). rewrite lookup_insert_eq. eauto.
    + destruct (Ho cmd Hin Hns) as (e & Hae & Hm). exists e. split; [|done].
      rewrite lookup_insert_ne; [done|]. intros Heq. by rewrite <-Heq, Hk in Hae.
Qed.

Lemma remove_entry_inv c v a s : control_inv c -> control_inv (remove_entry c v a s).1.
Proof.
  intros Hc. unfold remove_entry. destruct (active c !! stream_key v a s) as [e|] eqn:Hk; [|done]. cbn.
  destruct Hc as [Hf Hu He Hj Hs Ho]. destruct (He _ _ Hk) as [Hlt Hns]. unfold signalled in *.
  split; unfold signalled; cbn; [done|done| | | |].
  - intros k e' [Hne H]%lookup_delete_Some. destruct (He _ _ H) as [H1 H2]. split; [done|].
    assert (marker e' <> marker e) by (intros Heq; apply Hne; eapply Hj; [exact Hk|exact H|done]). set_solver.
  - intros k k' e1 e2 [_ H1]%lookup_delete_Some [_ H2]%lookup_delete_Some. by eapply Hj.
  - intros mk Hmk. destruct (decide (mk = marker e)) as [->|Hne]; [done|]. apply Hs. set_solver.
  - intros cmd Hin Hn. assert ((cmd_marker cmd ∉ stopped c ∪ removing c) /\ cmd_marker cmd <> marker e) as [Hn2 Hn1] by set_solver.
    destruct (Ho cmd Hin Hn2) as (e' & Ha & Hm). exists e'. split; [|done].
    rewrite lookup_delete_ne; [done|]. intros Heq. rewrite <-Heq, Hk in Ha. congruence.
Qed.

Lemma remove_signal_inv c mk : mk ∈ removing c -> control_inv c -> control_inv (remove_signal c mk).
Proof.
  intros Hmk Hc. apply (control_inv_shrink c); [done|reflexivity|done| |done|done].
  unfold signalled. cbn. apply set_eq. intros x. destruct (decide (x = mk)); set_solver.
Qed.

Lemma proxy_step_inv c c' : control_step proxy_exit c c' -> control_inv c -> control_inv c'.
Proof.
  intros Hs Hc. destruct Hs as [c url v a s od|c i cmd Hi|c v a s|c mk Hmk|c|c i cmd Hi|c].
  - by apply add_insert_inv.
  - unfold add_send. pose proof (delete_Permutation _ _ _ Hi) as Hp. destruct (rx_open c).
    + apply (control_inv_shrink c); [done| |done..]. apply Permutation_submseteq. unfold tasks. cbn.
      generalize dependent (delete i (sending c)). intros d Hp. rewrite Hp, <-!app_assoc. cbn.
      by rewrite <-!Permutation_middle.
    + apply (control_inv_exit c _ cmd (delete i (sending c) ++ queue c ++ running c)); try done.
      unfold tasks. generalize dependent (delete i (sending c)). intros d Hp. by rewrite Hp.
  - by apply remove_entry_inv.
  - by apply remove_signal_inv.
  - unfold supervisor_recv. destruct (queue c) as [|cmd q] eqn:Hq; [done|].
    apply (control_inv_shrink c); [done| |done..]. unfold tasks. cbn. rewrite Hq.
    apply Permutation_submseteq. f_equiv. cbn. rewrite app_assoc, (Permutation_app_comm _ [cmd]). done.
  - pose proof (delete_Permutation _ _ _ Hi) as Hp.
    apply (control_inv_exit c _ cmd (sending c ++ queue c ++ delete i (running c))); try done.
    unfold tasks. generalize dependent (delete i (running c)). intros d Hp.
    rewrite Hp. by rewrite !(app_assoc _ _ (cmd :: _)), <-Permutation_middle, <-!app_assoc.
  - apply (control_inv_shrink c); [done| |done..]. unfold tasks. cbn.
    apply submseteq_app; [done|]. apply submseteq_inserts_l. done.
Qed.

Lemma proxy_reachable_inv c : control_reachable proxy_exit c -> control_inv c.
Proof. induction 1 as [|c c' _ IH Hs]; [apply control_inv_new|by eapply proxy_step_inv]. Qed.

Lemma NoDup_fmap_eq {A B} (f : A -> B) l x y : NoDup (f <$> l) -> x ∈ l -> y ∈ l -> f x = f y -> x = y.
Proof.
  intros Hn [i Hi]%list_elem_of_lookup [j Hj]%list_elem_of_lookup Hf.
  assert (i = j) as ->; [|congruence]. eapply NoDup_lookup; [done| |].
  - rewrite list_lookup_fmap, Hi. done.
  - rewrite list_lookup_fmap, Hj. cbn. by rewrite Hf.
Qed.

(** Executable runs. *)
Inductive control_action : Type :=
| AInsert (url v a s : string) (od : bool) | ASend (i : nat) | ARemove (v a s : string) | ASignal (mk : nat) | ARecv | AExit (i : nat).

Definition run_control (task_exit : Control -> nat -> Cmd -> Control) (c : Control) (x : control_action) : option Control :=
  match x with
  | AInsert url v a s od => Some (add_insert c url v a s od).1
  | ASend i => (fun cmd => (add_send c i cmd).1) <$> sending c !! i
  | ARemove v a s => Some (remove_entry c v a s).1
  | ASignal mk => if bool_decide (mk ∈ removing c) then Some (remove_signal c mk) else None
  | ARecv => Some (supervisor_recv c)
  | AExit i => (fun cmd => task_exit c i cmd) <$> running c !! i
  end.

Fixpoint run_controls (task_exit : Control -> nat -> Cmd -> Control) (c : Control) (l : list control_action) : option Control :=
  match l with
  | [] => Some c
  | x :: l => match run_control task_exit c x with Some c' => run_controls task_exit c' l | None => None end
  end.

Lemma run_controls_reachable ex c l c' :
  control_reachable ex c -> run_controls ex c l = Some c' -> control_reachable ex c'.
Proof.
  revert c. induction l as [|x l IH]; intros c Hr H; cbn in H; [by simplify_eq|].
  destruct (run_control ex c x) as [c1|] eqn:Hx; [|done]. eapply IH; [|done]. eapply creach_step; [done|].
  destruct x; cbn in Hx; try case_bool_decide; simplify_eq; try by constructor.
  - apply fmap_Some in Hx as (cmd & Hi & ->). by constructor.
  - apply fmap_Some in Hx as (cmd & Hi & ->). by constructor.
Qed.

(** C18: proxies stay under control.  Whatever the interleaving of [add],
    [remove], the supervisor and the ending tasks: of the tasks of a stream at
    most one is neither stopped nor about to be, by a call of [remove] that has
    taken its entry and has still to set its flag; so at most one is unstopped
    while no call is at that point.  Taking the entry reports exactly whether a
    proxy is registered, unregisters it and leaves every task of that stream
    stopped or about to be; setting the flag ends that state and leaves the
    table alone. *)
Theorem proxy_ownership c :
  control_reachable proxy_exit c ->
  (forall c1 c2, c1 ∈ tasks c -> c2 ∈ tasks c -> cmd_key c1 = cmd_key c2 ->
     cmd_marker c1 ∉ signalled c -> cmd_marker c2 ∉ signalled c -> c1 = c2) /\
  (removing c = ∅ -> forall c1 c2, c1 ∈ tasks c -> c2 ∈ tasks c -> cmd_key c1 = cmd_key c2 ->
     cmd_marker c1 ∉ stopped c -> cmd_marker c2 ∉ stopped c -> c1 = c2) /\
  (forall v a s, let '(c', found) := remove_entry c v a s in
     bool_decide (is_Some found) = is_active c v a s /\ is_active c' v a s = false /\ tasks c' = tasks c /\
     (forall cmd, cmd ∈ tasks c' -> cmd_key cmd = stream_key v a s -> cmd_marker cmd ∈ signalled c') /\
     forall mk, found = Some mk -> removing c' = ({[mk]} ∪ removing c)) /\
  (forall mk, mk ∈ removing c -> let c' := remove_signal c mk in
     mk ∈ stopped c' /\ removing c' = (removing c ∖ {[mk]}) /\ active c' = active c /\ tasks c' = tasks c).
Proof.
  intros Hr. apply proxy_reachable_inv in Hr.
  assert (forall c1 c2, c1 ∈ tasks c -> c2 ∈ tasks c -> cmd_key c1 = cmd_key c2 ->
     cmd_marker c1 ∉ signalled c -> cmd_marker c2 ∉ signalled c -> c1 = c2) as Hone.
  { intros c1 c2 H1 H2 Hk Hn1 Hn2. destruct Hr as [_ Hu _ _ _ Ho].
    destruct (Ho c1 H1 Hn1) as (e1 & Ha1 & Hm1), (Ho c2 H2 Hn2) as (e2 & Ha2 & Hm2).
    eapply NoDup_fmap_eq; [exact Hu|done|done|]. congruence. }
  split; [exact Hone|]. split; [|split].
  - intros Hnone. unfold signalled in Hone. rewrite Hnone, union_empty_r_L in Hone. exact Hone.
  - intros v a s. pose proof (remove_entry_inv c v a s Hr) as Hi. destruct (remove_entry c v a s) as [c' found] eqn:He.
    unfold remove_entry in He. unfold is_active.
    destruct (active c !! stream_key v a s) as [e|] eqn:Hk; simplify_eq; cbn [fst] in Hi.
    + cbn [active removing]. rewrite lookup_delete_eq. split_and!; [by rewrite !bool_decide_true|done|done| |by intros mk [= <-]].
      intros cmd Hin Hkey. match goal with |- _ ∈ signalled ?x => destruct (decide (cmd_marker cmd ∈ signalled x)) as [|Hns]; [done|] end.
      destruct (ci_owner _ Hi cmd Hin Hns) as (e' & Ha & _). cbn in Ha. by rewrite Hkey, lookup_delete_eq in Ha.
    + rewrite Hk. split_and!; [by rewrite !bool_decide_false by (by intros [])|done|done| |done]. intros cmd Hin Hkey.
      destruct (decide (cmd_marker cmd ∈ signalled c')) as [|Hns]; [done|].
      destruct (ci_owner _ Hi cmd Hin Hns) as (e' & Ha & _). by rewrite Hkey, Hk in Ha.
  - intros mk Hmk. cbn. split_and!; [set_solver|done..].
Qed.

(** A quick stop and start: the first task ends after the second has begun. *)
Definition restart : list control_action :=
  [AInsert "rtmp://a" "v" "live" "cam" false; ASend 0; ARecv; ARemove "v" "live" "cam"; ASignal 0;
   AInsert "rtmp://b" "v" "live" "cam" false; ASend 0; ARecv; AExit 0].

Lemma proxy_ownership_witness :
  exists c, run_controls proxy_exit control_new restart = Some c /\ removing c = ∅ /\
    (remove_entry c "v" "live" "cam").2 = Some 1 /\ is_active (remove_entry c "v" "live" "cam").1 "v" "live" "cam" = false.
Proof.
  eexists. split; [vm_compute; reflexivity|]. split; [apply (bool_decide_unpack _); vm_compute; exact I|].
  match goal with |- ((remove_entry ?c _ _ _).2 = _) /\ _ => assert (control_reachable proxy_exit c) as Hr
    by (eapply (run_controls_reachable _ _ restart); [apply creach_new|vm_compute; reflexivity]);
    pose proof (proj1 (proj2 (proj2 (proxy_ownership c Hr))) "v" "live" "cam") as (_ & H2 & _) end.
  split; [reflexivity|exact H2].
Defined.

(** The state between the two steps is real: another [add] comes first, and two
    tasks of one stream run that no flag stops. *)
Lemma remove_window :
  exists c c1 c2, control_reachable proxy_exit c /\ c1 ∈ tasks c /\ c2 ∈ tasks c /\ c1 <> c2 /\ cmd_key c1 = cmd_key c2 /\
    (cmd_marker c1 ∉ stopped c) /\ (cmd_marker c2 ∉ stopped c).
Proof.
  eexists _, {| cmd_url := "rtmp://a"; cmd_vhost := "v"; cmd_app := "live"; cmd_stream := "cam"; cmd_marker := 0 |},
    {| cmd_url := "rtmp://b"; cmd_vhost := "v"; cmd_app := "live"; cmd_stream := "cam"; cmd_marker := 1 |}.
  split.
  { eapply (run_controls_reachable _ _ [AInsert "rtmp://a" "v" "live" "cam" false; ASend 0; ARecv; ARemove "v" "live" "cam";
      AInsert "rtmp://b" "v" "live" "cam" false; ASend 0; ARecv]); [apply creach_new|vm_compute; reflexivity]. }
  split_and!; try done; try (apply (bool_decide_unpack _); vm_compute; exact I); cbn; set_solver.
Qed.

(** Pushers do not.  A pusher task that ends removes the entry of its key
    without checking that it is its own: after a quick stop and start the new
    task runs, was not told to stop, and is no longer registered, so [remove]
    cannot stop it. *)
Theorem pusher_restart_race :
  exists c cmd, control_reachable pusher_task_exit c /\ cmd ∈ running c /\
    cmd_key cmd = stream_key "v" "live" "cam" /\ (cmd_marker cmd ∉ stopped c) /\
    is_active c "v" "live" "cam" = false /\ pusher_remove c "v" "live" "cam" = (c, false).
Proof.
  eexists _, {| cmd_url := "rtmp://b"; cmd_vhost := "v"; cmd_app := "live"; cmd_stream := "cam"; cmd_marker := 1 |}.
  split; [eapply (run_controls_reachable _ _ restart); [apply creach_new|vm_compute; reflexivity]|].
  split_and!; try (vm_compute; reflexivity).
  - cbn. set_solver.
  - apply (bool_decide_unpack _). vm_compute. exact I.
Qed.
