(* ===== verification/TsMux.v ===== *)
(** * TsMux: the MPEG transport stream muxer

    [hls/src/muxer.rs] (packets, tables, PES) and [hls/src/live_ts.rs] (the
    continuous muxer of HTTP-TS, WebSocket-TS and SRT outputs). *)

From S2P Require Import Prelude Frame Payload PsMux.
Open Scope Z_scope.

Definition TS_PACKET_SIZE : nat := 188.
Definition PAT_PID : Z := 0.
Definition PMT_PID : Z := 4096.
Definition VIDEO_PID : Z := 256.
Definition AUDIO_PID : Z := 257.

(** ** Packets *)

(** The rest of a packet after its header: bytes beyond the packet are
    dropped, missing ones are 0xFF. *)
Definition fill_packet (l : bytes) : bytes := take 184 (l ++ replicate 184 0xFF).

Definition next_continuity (c : Z) : Z := (c + 1) .& 0x0F.

Definition ts_header (pid : Z) (start : bool) (control continuity : Z) : bytes :=
  [0x47; ((pid .>> 8) .& 0x1F) .| (if start then 0x40 else 0x00); pid .& 0xFF;
   control .| (continuity .& 0x0F)].

(** A section packet: [pkt[4..end].copy_from_slice(..)]. *)
Definition write_ts_packet (pid : Z) (payload : bytes) (start : bool) (continuity : Z) : bytes * Z :=
  (ts_header pid start 0x10 continuity ++ fill_packet payload, next_continuity continuity).

Definition write_ts_packet_with (pid : Z) (adaptation : option bytes) (payload : bytes) (start : bool)
    (continuity : Z) : bytes * Z :=
  let adapt := default [] adaptation in
  let control :=
    if ((0 <? length adapt) && (0 <? length payload))%nat then 0x30
    else if (0 <? length adapt)%nat then 0x20 else 0x10 in
  (ts_header pid start control continuity ++ fill_packet (adapt ++ payload), next_continuity continuity).

Definition write_pcr (pcr : Z) : bytes :=
  let base := pcr / 300 in
  let ext := pcr mod 300 in
  [u8 (base .>> 25); u8 (base .>> 17); u8 (base .>> 9); u8 (base .>> 1);
   u8 ((base .& 1) .<< 7) .| 0x7E; ((ext .>> 8) .& 0x01) .| (ext .& 0xFF)].

(** Stuffing of [n > 0] bytes: the length byte, no flags, 0xFF. *)
Definition stuffing (n : nat) : bytes :=
  Z.of_nat (n - 1) :: (if (0 <? n - 1)%nat then 0x00 :: replicate (n - 1 - 1) 0xFF else []).

(** The adaptation field of the first packet of a PES. *)
Definition first_adaptation (rand_access : bool) (first_pad : nat) (pcr : Z) : bytes :=
  if (0 <? first_pad)%nat || rand_access then
    if rand_access && (8 <=? first_pad)%nat then
      Z.of_nat (first_pad - 1) :: 0x50 :: write_pcr pcr ++ replicate (first_pad - 1 - 7) 0xFF
    else if (0 <? first_pad)%nat then stuffing first_pad
    else [0x01; 0x40]
  else [].

(** The loop over the continuation packets. *)
Definition ts_continuation_step (pid : Z) (pes : bytes) (st : nat * Z * bytes) :
    result (nat * Z * bytes + Z * bytes) :=
  let '(offset, continuity, out) := st in
  if (offset <? length pes)%nat then
    let chunk := Nat.min (length pes - offset) 184 in
    let pad := (184 - chunk)%nat in
    let adapt := if (0 <? pad)%nat then Some (stuffing pad) else None in
    let actual_payload := (184 - length (default [] adapt))%nat in
    part ← slice pes offset (offset + actual_payload);
    let '(pkt, continuity) := write_ts_packet_with pid adapt part false continuity in
    Ok (inl ((offset + actual_payload)%nat, continuity, out ++ pkt))
  else Ok (inr (continuity, out)).

Definition write_pes_to_ts (pid : Z) (pes : bytes) (rand_access : bool) (continuity pcr : Z) :
    result (Z * bytes) :=
  let first_chunk := Nat.min (length pes) 184 in
  let first_pad := (184 - first_chunk)%nat in
  let adapt := first_adaptation rand_access first_pad pcr in
  let payload_len := (184 - length adapt)%nat in
  part ← slice pes 0 payload_len;
  let '(pkt, continuity) :=
    write_ts_packet_with pid (if (0 <? length adapt)%nat then Some adapt else None) part true continuity in
  loop (S (length pes)) (ts_continuation_step pid pes) (payload_len, continuity, pkt).

(** ** The writer *)

Record TsWriter : Type := {
  continuity_video : Z;
  continuity_audio : Z;
  continuity_pat : Z;
  continuity_pmt : Z;
  pcr : Z
}.

Definition writer_new : TsWriter :=
  {| continuity_video := 0; continuity_audio := 0; continuity_pat := 0; continuity_pmt := 0; pcr := 0 |}.

(** The same polynomial and bit order as [mpeg2_crc32] of the program stream. *)
Definition crc32 (data : bytes) : Z := mpeg2_crc32 data.

Definition pat_section : bytes :=
  [0x00; 0xB0; 0x0D] ++ to_be 2 0x0001 ++ [0xC1; 0x00; 0x00] ++ to_be 2 0x0001 ++ to_be 2 (0xE000 .| PMT_PID).

Definition pmt_section (video_stream_type : Z) : bytes :=
  [0x02; 0xB0; 0x17] ++ to_be 2 0x0001 ++ [0xC1; 0x00; 0x00] ++ to_be 2 (0xE000 .| VIDEO_PID) ++
  to_be 2 0xF000 ++ [video_stream_type] ++ to_be 2 (0xE000 .| VIDEO_PID) ++ to_be 2 0xF000 ++
  [0x0F] ++ to_be 2 (0xE000 .| AUDIO_PID) ++ to_be 2 0xF000.

Definition with_crc (section : bytes) : bytes := section ++ to_be 4 (crc32 section).

Definition write_pat_pmt (w : TsWriter) (video_stream_type : Z) : TsWriter * bytes :=
  let '(pat, cpat) := write_ts_packet PAT_PID (0x00 :: with_crc pat_section) true (continuity_pat w) in
  let '(pmt, cpmt) :=
    write_ts_packet PMT_PID (0x00 :: with_crc (pmt_section video_stream_type)) true (continuity_pmt w) in
  ({| continuity_video := continuity_video w; continuity_audio := continuity_audio w;
      continuity_pat := cpat; continuity_pmt := cpmt; pcr := pcr w |}, pat ++ pmt).

(** [dts_ms * 27000] in [u64]; a PID other than the two is [unreachable!()]. *)
Definition write_pes (w : TsWriter) (pid : Z) (pes : bytes) (rand_access : bool) (dts_ms : Z) :
    result (TsWriter * bytes) :=
  let pcr := dts_ms * 27000 in
  if negb (pcr <? 2 ^ 64) then Panic else
  if pid =? VIDEO_PID then
    '(c, out) ← write_pes_to_ts pid pes rand_access (continuity_video w) pcr;
    Ok ({| continuity_video := c; continuity_audio := continuity_audio w; continuity_pat := continuity_pat w;
           continuity_pmt := continuity_pmt w; pcr := pcr |}, out)
  else if pid =? AUDIO_PID then
    '(c, out) ← write_pes_to_ts pid pes rand_access (continuity_audio w) pcr;
    Ok ({| continuity_video := continuity_video w; continuity_audio := c; continuity_pat := continuity_pat w;
           continuity_pmt := continuity_pmt w; pcr := pcr |}, out)
  else Panic.

(** ** PES packets *)

Definition write_pts (marker pts : Z) : bytes :=
  [marker .| ((pts .>> 29) .& 0x0E) .| 0x01; (pts .>> 22) .& 0xFF; ((pts .>> 14) .& 0xFE) .| 0x01;
   (pts .>> 7) .& 0xFF; ((pts .<< 1) .& 0xFE) .| 0x01].

Definition build_config_pes (stream_id : Z) (config : bytes) : bytes :=
  let total_pes_len := zlen config + 3 in
  [0x00; 0x00; 0x01; stream_id; (total_pes_len .>> 8) .& 0xFF; total_pes_len .& 0xFF; 0x84; 0x00; 0x00] ++ config.

Definition build_data_pes_raw (stream_id : Z) (data : bytes) (timestamp : Z) : bytes :=
  let total_pes_len := zlen data + 5 + 3 in
  [0x00; 0x00; 0x01; stream_id; (total_pes_len .>> 8) .& 0xFF; total_pes_len .& 0xFF; 0x84; 0x80; 5] ++
  write_pts 0x21 (timestamp * 90) ++ data.

(** ** Frames *)

Definition ts_adts_header (frame_len : nat) (audio_config : bytes) : result bytes :=
  if (length audio_config <? 2)%nat then Ok (replicate 7 0) else
  c0 ← idx audio_config 0; c1 ← idx audio_config 1;
  let combined := (c0 .<< 8) .| c1 in
  let audio_object_type := (combined .>> 11) .& 0x1F in
  let freq_index := (combined .>> 7) .& 0x0F in
  let channels := (combined .>> 3) .& 0x0F in
  let profile := Z.max 0 (audio_object_type - 1) in
  let total_len := Z.of_nat frame_len + 7 in
  Ok [0xFF; 0xF1;
      u8 (profile .<< 6) .| u8 (freq_index .<< 2) .| ((channels .>> 2) .& 0x01);
      u8 ((channels .& 0x03) .<< 6) .| ((total_len .>> 11) .& 0x03);
      (total_len .>> 3) .& 0xFF; ((total_len .& 0x07) .<< 5) .| 0x1F; 0x00].

(** The [Err] of a conversion becomes an empty payload. *)
Definition unwrap_or_default (r : result bytes) : result bytes :=
  match r with Ok b => Ok b | Err _ => Ok [] | Panic => Panic | NoFuel => NoFuel end.

Definition aac_frame_to_adts (frame : MediaFrame) (audio_config : option bytes) : result bytes :=
  if negb (bool_decide (codec frame = AAC)) || config_frame frame then Ok [] else
  if bool_decide (payload_format frame = PfAdts) then Ok (data frame) else
  match aac_raw_payload frame with
  | Ok raw =>
      match audio_config with
      | Some config =>
          if (2 <=? length config)%nat then adts ← ts_adts_header (length raw) config; Ok (adts ++ raw) else Ok []
      | None => Ok []
      end
  | Err _ => Ok []
  | Panic => Panic
  | NoFuel => NoFuel
  end.

Definition is_flv_or_unknown (f : MediaFrame) : bool :=
  match payload_format f with PfFlv | PfUnknown => true | _ => false end.

Definition is_video_config (f : MediaFrame) : bool :=
  config_frame f ||
  (is_flv_or_unknown f &&
   match data f with
   | d0 :: d1 :: _ => ((d0 .& 0x0F =? 7) || (d0 .& 0x0F =? 12)) && (d1 .& 0x0F =? 0)
   | _ => false
   end).

Definition is_aac_config (f : MediaFrame) : bool :=
  config_frame f ||
  (is_flv_or_unknown f &&
   match data f with
   | d0 :: d1 :: _ => (d0 .>> 4 =? 10) && (d1 .& 0x0F =? 0)
   | _ => false
   end).

(** Up to [n] NAL units with 16-bit lengths at [pos]; stops at a truncated one. *)
Fixpoint config_nalus (n : nat) (keep : bool) (data : bytes) (pos : nat) (config : bytes) :
    result (nat * bytes) :=
  match n with
  | O => Ok (pos, config)
  | S n =>
      if (length data <? pos + 2)%nat then Ok (pos, config) else
      l0 ← idx data pos; l1 ← idx data (pos + 1);
      let nalu_len := Z.to_nat (from_be [l0; l1]) in
      let pos := (pos + 2)%nat in
      if (length data <? pos + nalu_len)%nat then Ok (pos, config) else
      nalu ← slice data pos (pos + nalu_len);
      config_nalus n keep data (pos + nalu_len) (if keep then config ++ [0x00; 0x00; 0x00; 0x01] ++ nalu else config)
  end.

Definition extract_h264_config_record (data : bytes) : result bytes :=
  if (length data <? 6)%nat then Ok [] else
  d5 ← idx data 5;
  '(pos, config) ← config_nalus (Z.to_nat (d5 .& 0x1F)) true data 6 [];
  if (pos <? length data)%nat then
    num_pps ← idx data pos;
    '(_, config) ← config_nalus (Z.to_nat num_pps) true data (pos + 1) config;
    Ok config
  else Ok config.

(** The parameter-set arrays of an hvcC record; only VPS, SPS and PPS are kept. *)
Fixpoint config_arrays (n : nat) (data : bytes) (pos : nat) (config : bytes) : result bytes :=
  match n with
  | O => Ok config
  | S n =>
      if (length data <? pos + 3)%nat then Ok config else
      ty ← idx data pos; n0 ← idx data (pos + 1); n1 ← idx data (pos + 2);
      let nal_type := ty .& 0x3F in
      let keep := (nal_type =? 32) || (nal_type =? 33) || (nal_type =? 34) in
      '(pos, config) ← config_nalus (Z.to_nat (from_be [n0; n1])) keep data (pos + 3) config;
      config_arrays n data pos config
  end.

Definition extract_hevc_config_record (data : bytes) : result bytes :=
  if (length data <? 23)%nat then Ok [] else
  num_arrays ← idx data 22;
  config_arrays (Z.to_nat num_arrays) data 23 [].

Definition extract_video_config (frame : MediaFrame) : result bytes :=
  match video_decoder_config frame with
  | Ok config =>
      if bool_decide (codec frame = H265) then extract_hevc_config_record config
      else extract_h264_config_record config
  | Err _ => Ok []
  | Panic => Panic
  | NoFuel => NoFuel
  end.

Definition extract_aac_config (frame : MediaFrame) : result bytes :=
  unwrap_or_default (aac_audio_specific_config frame).

(** ** The live muxer *)

Record TsLiveMuxer : Type := {
  writer : TsWriter;
  started : bool;
  live_video_codec : option CodecId;
  video_config_data : option bytes;
  video_config_sent : bool;
  audio_config_data : option bytes;
  audio_config_sent : bool
}.

Definition live_new : TsLiveMuxer :=
  {| writer := writer_new; started := false; live_video_codec := None; video_config_data := None;
     video_config_sent := false; audio_config_data := None; audio_config_sent := false |}.

Definition set_writer (m : TsLiveMuxer) (w : TsWriter) : TsLiveMuxer :=
  {| writer := w; started := started m; live_video_codec := live_video_codec m;
     video_config_data := video_config_data m; video_config_sent := video_config_sent m;
     audio_config_data := audio_config_data m; audio_config_sent := audio_config_sent m |}.

(** The first [match]: configuration frames are remembered. *)
Definition capture_config (m : TsLiveMuxer) (frame : MediaFrame) : result TsLiveMuxer :=
  match frame_type frame with
  | Video =>
      if is_video_config frame then
        config ← extract_video_config frame;
        Ok {| writer := writer m; started := started m; live_video_codec := Some (codec frame);
              video_config_data := Some config; video_config_sent := false;
              audio_config_data := audio_config_data m; audio_config_sent := audio_config_sent m |}
      else
        Ok {| writer := writer m; started := started m; live_video_codec := Some (codec frame);
              video_config_data := video_config_data m; video_config_sent := video_config_sent m;
              audio_config_data := audio_config_data m; audio_config_sent := audio_config_sent m |}
  | Audio =>
      if is_aac_config frame then
        config ← extract_aac_config frame;
        Ok {| writer := writer m; started := started m; live_video_codec := live_video_codec m;
              video_config_data := video_config_data m; video_config_sent := video_config_sent m;
              audio_config_data := Some config; audio_config_sent := false |}
      else Ok m
  | Metadata => Ok m
  end.

Definition video_stream_type (c : option CodecId) : Z :=
  match c with Some H265 => 0x24 | _ => 0x1B end.

(** [if !self.started]: the tables. *)
Definition start_tables (m : TsLiveMuxer) : TsLiveMuxer * bytes :=
  if started m then (m, []) else
  let '(w, out) := write_pat_pmt (writer m) (video_stream_type (live_video_codec m)) in
  ({| writer := w; started := true; live_video_codec := live_video_codec m;
      video_config_data := video_config_data m; video_config_sent := video_config_sent m;
      audio_config_data := audio_config_data m; audio_config_sent := audio_config_sent m |}, out).

(** One elementary packet: PID, PES bytes, random access flag, DTS. *)
Record PesUnit : Type := { unit_pid : Z; unit_pes : bytes; unit_random : bool; unit_dts : Z }.

(** The second [match], up to the calls of [write_pes]: the packets to write
    and the muxer with its flags updated. *)
Definition video_units (m : TsLiveMuxer) (frame : MediaFrame) : result (TsLiveMuxer * list PesUnit) :=
  let '(m, config) :=
    if video_config_sent m then (m, []) else
    match video_config_data m with
    | Some cfg =>
        ({| writer := writer m; started := started m; live_video_codec := live_video_codec m;
            video_config_data := video_config_data m; video_config_sent := true;
            audio_config_data := audio_config_data m; audio_config_sent := audio_config_sent m |},
         [{| unit_pid := VIDEO_PID; unit_pes := build_config_pes 0xE0 cfg; unit_random := true;
             unit_dts := dts frame |}])
    | None => (m, [])
    end in
  if is_video_config frame then Ok (m, config) else
  annex_b ← unwrap_or_default (video_sample_annex_b frame);
  Ok (m, config ++
    match annex_b with
    | [] => []
    | _ :: _ => [{| unit_pid := VIDEO_PID; unit_pes := build_data_pes_raw 0xE0 annex_b (timestamp frame);
                    unit_random := key_frame frame; unit_dts := dts frame |}]
    end).

Definition audio_units (m : TsLiveMuxer) (frame : MediaFrame) : result (TsLiveMuxer * list PesUnit) :=
  let '(m, config) :=
    if audio_config_sent m then (m, []) else
    match audio_config_data m with
    | Some cfg =>
        ({| writer := writer m; started := started m; live_video_codec := live_video_codec m;
            video_config_data := video_config_data m; video_config_sent := video_config_sent m;
            audio_config_data := audio_config_data m; audio_config_sent := true |},
         [{| unit_pid := AUDIO_PID; unit_pes := build_config_pes 0xC0 cfg; unit_random := true;
             unit_dts := dts frame |}])
    | None => (m, [])
    end in
  if is_aac_config frame then Ok (m, config) else
  audio ← aac_frame_to_adts frame (audio_config_data m);
  Ok (m, config ++
    match audio with
    | [] => []
    | _ :: _ => [{| unit_pid := AUDIO_PID; unit_pes := build_data_pes_raw 0xC0 audio (timestamp frame);
                    unit_random := false; unit_dts := dts frame |}]
    end).

Definition frame_pes_units (m : TsLiveMuxer) (frame : MediaFrame) : result (TsLiveMuxer * list PesUnit) :=
  match frame_type frame with
  | Video => video_units m frame
  | Audio => audio_units m frame
  | Metadata => Ok (m, [])
  end.

Fixpoint write_units (w : TsWriter) (us : list PesUnit) : result (TsWriter * bytes) :=
  match us with
  | [] => Ok (w, [])
  | u :: us =>
      '(w, out) ← write_pes w (unit_pid u) (unit_pes u) (unit_random u) (unit_dts u);
      '(w, rest) ← write_units w us;
      Ok (w, out ++ rest)
  end.

Definition push_frame (m : TsLiveMuxer) (frame : MediaFrame) : result (TsLiveMuxer * bytes) :=
  m ← capture_config m frame;
  let '(m, tables) := start_tables m in
  '(m, us) ← frame_pes_units m frame;
  '(w, out) ← write_units (writer m) us;
  Ok (set_writer m w, tables ++ out).

(** ** The packets of a PES *)

(** How many bytes of an [n]-byte PES go into its first packet. *)
Definition first_len (rand_access : bool) (n : nat) : nat :=
  if (n <? 184)%nat then n else if rand_access then 182%nat else 184%nat.

(** A packet that carries [part], padded by an adaptation field. *)
Definition adapted (adapt part : bytes) : Prop :=
  (length adapt + length part = 184)%nat /\
  match adapt with [] => True | a0 :: tail => a0 = Z.of_nat (length tail) end.

Definition ts_packet (pid : Z) (start : bool) (continuity : Z) (adapt part : bytes) : bytes :=
  ts_header pid start (if (0 <? length adapt)%nat then 0x30 else 0x10) continuity ++ adapt ++ part.

Lemma fill_packet_full l : length l = 184%nat -> fill_packet l = l.
Proof. intros H. unfold fill_packet. by rewrite (take_app_length' l). Qed.

Lemma write_packet_adapted pid (o : option bytes) part start c :
  adapted (default [] o) part -> part <> [] ->
  write_ts_packet_with pid o part start c = (ts_packet pid start c (default [] o) part, next_continuity c).
Proof.
  intros [Hl _] Hp. unfold write_ts_packet_with, ts_packet.
  rewrite fill_packet_full by (by rewrite length_app).
  assert (0 < length part)%nat as H by (destruct part; simpl; [done|lia]).
  rewrite (proj2 (Nat.ltb_lt 0 (length part)) H), andb_true_r.
  by destruct (0 <? length (default [] o))%nat.
Qed.

Lemma length_stuffing n : (0 < n)%nat -> length (stuffing n) = n.
Proof.
  intros. unfold stuffing. destruct (Nat.ltb_spec 0 (n - 1)); cbn [length]; rewrite ?length_replicate; lia.
Qed.

Lemma stuffing_adapted n part : (0 < n)%nat -> (n + length part = 184)%nat -> adapted (stuffing n) part.
Proof.
  intros Hn Hl. split; [by rewrite length_stuffing|].
  unfold stuffing. destruct (Nat.ltb_spec 0 (n - 1)); cbn [length]; rewrite ?length_replicate; lia.
Qed.

Lemma first_adaptation_adapted rand n pcr part :
  length part = first_len rand n -> adapted (first_adaptation rand (184 - Nat.min n 184) pcr) part.
Proof.
  intros Hl. unfold first_adaptation, first_len in *. destruct (Nat.ltb_spec n 184) as [Hn|Hn].
  - rewrite (proj2 (Nat.ltb_lt _ _)) by lia. cbn [orb].
    destruct (rand && (8 <=? 184 - n `min` 184)%nat) eqn:Hr; [|apply stuffing_adapted; lia].
    apply andb_true_iff in Hr as [_ Hr%Nat.leb_le].
    split; cbn [length]; rewrite length_app, length_replicate; cbn [length write_pcr]; lia.
  - replace (184 - n `min` 184)%nat with 0%nat by lia. destruct rand; cbn; (split; [cbn; lia|done]).
Qed.

(** The parts a PES is cut into. *)
Definition ts_parts (rand_access : bool) (pes : bytes) : list bytes :=
  let f := first_len rand_access (length pes) in take f pes :: chunks 184 (drop f pes).

(** The packets carrying [parts], with running continuity counters. *)
Inductive carries (pid : Z) : bool -> Z -> list bytes -> list bytes -> Prop :=
| carries_nil start c : carries pid start c [] []
| carries_cons start c adapt part parts pkts :
    adapted adapt part -> part <> [] -> carries pid false (next_continuity c) parts pkts ->
    carries pid start c (part :: parts) (ts_packet pid start c adapt part :: pkts).

Lemma carries_cons_inv pid start c part parts pkts :
  carries pid start c (part :: parts) pkts ->
  exists adapt pkts', pkts = ts_packet pid start c adapt part :: pkts' /\ adapted adapt part /\
    carries pid false (next_continuity c) parts pkts'.
Proof. inversion 1; subst; eauto. Qed.

Fixpoint continuity_after (n : nat) (c : Z) : Z :=
  match n with O => c | S n => continuity_after n (next_continuity c) end.

Lemma continuation_loop pid pes fuel offset c out :
  (offset <= length pes)%nat -> (length pes - offset < fuel)%nat ->
  exists pkts, carries pid false c (chunks 184 (drop offset pes)) pkts /\
    loop fuel (ts_continuation_step pid pes) (offset, c, out) =
    Ok (continuity_after (length pkts) c, out ++ concat pkts).
Proof.
  revert offset c out. induction fuel as [|fuel IH]; intros offset c out Ho Hf; [lia|].
  cbn [loop]. unfold ts_continuation_step at 1.
  destruct (Nat.ltb_spec offset (length pes)) as [Hlt|Hge].
  - rewrite chunks_cons by (lia || (intros H%(f_equal length); rewrite length_drop in H; simpl in H; lia)).
    set (k := Nat.min (length pes - offset) 184).
    set (o := if (0 <? 184 - k)%nat then Some (stuffing (184 - k)) else None).
    assert (Ho' : (184 - length (default [] o))%nat = k).
    { unfold o. destruct (Nat.ltb_spec 0 (184 - k)); cbn [from_option id length]; [rewrite length_stuffing|]; lia. }
    rewrite Ho'. rewrite slice_ok by lia. cbn [mbind outcome_bind].
    assert (take (offset + k - offset) (drop offset pes) = take 184 (drop offset pes)) as ->.
    { destruct (decide (length pes - offset <= 184)%nat).
      - rewrite !take_ge by (rewrite length_drop; lia). done.
      - f_equal. lia. }
    assert (Hpart : length (take 184 (drop offset pes)) = k) by (rewrite length_take, length_drop; lia).
    assert (Hne : take 184 (drop offset pes) <> []) by (intros H; rewrite H in Hpart; cbn in Hpart; lia).
    assert (Had : adapted (default [] o) (take 184 (drop offset pes))).
    { unfold o. destruct (Nat.ltb_spec 0 (184 - k)); cbn [from_option id]; [apply stuffing_adapted; lia|].
      split; [rewrite Hpart; cbn [length]; lia|done]. }
    rewrite (write_packet_adapted pid o _ false c Had Hne).
    destruct (IH (offset + k)%nat (next_continuity c) (out ++ ts_packet pid false c (default [] o) (take 184 (drop offset pes))))
      as (pkts & Hc & ->); [lia|lia|].
    eexists. split; [apply carries_cons; [exact Had|exact Hne|]|].
    + replace (drop 184 (drop offset pes)) with (drop (offset + k) pes); [exact Hc|].
      rewrite drop_drop. destruct (decide (length pes - offset <= 184)%nat); [rewrite !drop_ge by lia; done|f_equal; lia].
    + cbn [length continuity_after concat]. by rewrite <-app_assoc.
  - rewrite drop_ge, chunks_nil by lia. exists []. split; [constructor|]. cbn. by rewrite app_nil_r.
Qed.

(** [write_pes_to_ts] never panics; its packets carry the PES. *)
Lemma write_pes_packets pid pes rand c pcr :
  pes <> [] ->
  exists pkts, carries pid true c (ts_parts rand pes) pkts /\
    write_pes_to_ts pid pes rand c pcr = Ok (continuity_after (length pkts) c, concat pkts).
Proof.
  intros Hp. assert (0 < length pes)%nat by (destruct pes; simpl; [done|lia]).
  unfold write_pes_to_ts, ts_parts. set (f := first_len rand (length pes)).
  set (adapt := first_adaptation rand (184 - length pes `min` 184) pcr).
  assert (Hf : (0 < f <= length pes)%nat).
  { unfold f, first_len. destruct (Nat.ltb_spec (length pes) 184); [lia|]. destruct rand; lia. }
  assert (Hpart : length (take f pes) = f) by (rewrite length_take; lia).
  assert (Had : adapted adapt (take f pes)) by (by apply first_adaptation_adapted).
  assert (184 - length adapt = f)%nat as Hlen by (destruct Had as [Hl _]; lia).
  rewrite Hlen.
  rewrite slice_ok by lia. cbn [mbind outcome_bind]. rewrite drop_0, Nat.sub_0_r.
  assert (Hne : take f pes <> []) by (intros H'; rewrite H' in Hpart; cbn in Hpart; lia).
  assert (default [] (if (0 <? length adapt)%nat then Some adapt else None) = adapt) as Ho.
  { destruct (Nat.ltb_spec 0 (length adapt)); [done|]. by destruct adapt; [|simpl in *; lia]. }
  rewrite write_packet_adapted by (by rewrite ?Ho). rewrite Ho.
  destruct (continuation_loop pid pes (S (length pes)) f (next_continuity c) (ts_packet pid true c adapt (take f pes)))
    as (pkts & Hc & ->); [lia|lia|].
  exists (ts_packet pid true c adapt (take f pes) :: pkts). split; [by constructor|done].
Qed.
