(* ===== verification/TsDemux.v ===== *)
(** * TsDemux: the MPEG transport stream demuxer

    The demuxer of [srt/src/server.rs], shared by SRT, HTTP-TS and HLS pull
    inputs.  [source.publish_and_cache(frame)] appends to the list of published
    frames. *)

From S2P Require Import Prelude Frame TsMux.
Open Scope Z_scope.

Definition TS_SYNC : Z := 0x47.
Definition PID_PAT : Z := 0x0000.
Definition PID_DEFAULT_AUDIO : Z := 0x1100.

Record TsContext : Type := {
  video_pid : option Z;
  ctx_video_codec : option CodecId;
  audio_pid : option Z;
  pmt_pid : option Z;
  video_accum : bytes;
  audio_accum : bytes;
  video_pts : option Z;
  video_dts : option Z;
  audio_pts : option Z;
  audio_dts : option Z
}.

Definition context_new : TsContext :=
  {| video_pid := None; ctx_video_codec := None; audio_pid := None; pmt_pid := None; video_accum := [];
     audio_accum := []; video_pts := None; video_dts := None; audio_pts := None; audio_dts := None |}.

(** Field assignments. *)
Definition set_pids (c : TsContext) (vp : option Z) (vc : option CodecId) (ap pp : option Z) : TsContext :=
  {| video_pid := vp; ctx_video_codec := vc; audio_pid := ap; pmt_pid := pp; video_accum := video_accum c;
     audio_accum := audio_accum c; video_pts := video_pts c; video_dts := video_dts c;
     audio_pts := audio_pts c; audio_dts := audio_dts c |}.
Definition set_video (c : TsContext) (b : bytes) (p d : option Z) : TsContext :=
  {| video_pid := video_pid c; ctx_video_codec := ctx_video_codec c; audio_pid := audio_pid c; pmt_pid := pmt_pid c;
     video_accum := b; audio_accum := audio_accum c; video_pts := p; video_dts := d;
     audio_pts := audio_pts c; audio_dts := audio_dts c |}.
Definition set_audio (c : TsContext) (b : bytes) (p d : option Z) : TsContext :=
  {| video_pid := video_pid c; ctx_video_codec := ctx_video_codec c; audio_pid := audio_pid c; pmt_pid := pmt_pid c;
     video_accum := video_accum c; audio_accum := b; video_pts := video_pts c; video_dts := video_dts c;
     audio_pts := p; audio_dts := d |}.

Definition or_else {A} (a b : option A) : option A := match a with Some _ => a | None => b end.

(** ** Tables *)

Definition pid_at (payload : bytes) (i : nat) : result Z :=
  hi ← idx payload i; lo ← idx payload (i + 1); Ok (((hi .& 0x1F) .<< 8) .| lo).

Definition len12_at (payload : bytes) (i : nat) : result nat :=
  hi ← idx payload i; lo ← idx payload (i + 1); Ok (Z.to_nat (((hi .& 0x0F) .<< 8) .| lo)).

Definition parse_pat (payload : bytes) (c : TsContext) : result TsContext :=
  if (length payload <? 12)%nat then Ok c else
  pointer ← idx payload 0;
  let pat_start := (1 + Z.to_nat pointer)%nat in
  if (length payload <? pat_start + 4)%nat then Ok c else
  let program_offset := (pat_start + 8)%nat in
  if (length payload <? program_offset + 4)%nat then Ok c else
  n0 ← idx payload program_offset; n1 ← idx payload (program_offset + 1);
  if from_be [n0; n1] =? 0 then Ok c else
  pmt ← pid_at payload (program_offset + 2);
  Ok (set_pids c (or_else (video_pid c) (Some 0x0100)) (ctx_video_codec c)
        (or_else (audio_pid c) (Some PID_DEFAULT_AUDIO)) (Some pmt)).

Definition pmt_step (payload : bytes) (st : nat * TsContext) : result (nat * TsContext + TsContext) :=
  let '(pos, c) := st in
  if (pos + 5 <=? length payload)%nat then
    stream_type ← idx payload pos;
    pid ← pid_at payload (pos + 1);
    es_info ← len12_at payload (pos + 3);
    let c :=
      if stream_type =? 0x1B then set_pids c (Some pid) (Some H264) (audio_pid c) (pmt_pid c)
      else if stream_type =? 0x24 then set_pids c (Some pid) (Some H265) (audio_pid c) (pmt_pid c)
      else if (stream_type =? 0x0F) || (stream_type =? 0x11)
      then set_pids c (video_pid c) (ctx_video_codec c) (Some pid) (pmt_pid c)
      else c in
    Ok (inl ((pos + (5 + es_info))%nat, c))
  else Ok (inr c).

Definition parse_pmt (payload : bytes) (c : TsContext) : result TsContext :=
  if (length payload <? 12)%nat then Ok c else
  pointer ← idx payload 0;
  let pmt_start := (1 + Z.to_nat pointer)%nat in
  if (length payload <? pmt_start + 7)%nat then Ok c else
  let pcr_pid_offset := (pmt_start + 8)%nat in
  if (length payload <? pcr_pid_offset + 5)%nat then Ok c else
  info_len ← len12_at payload (pcr_pid_offset + 2);
  loop (S (length payload)) (pmt_step payload) ((pcr_pid_offset + 4 + info_len)%nat, c).

(** ** PES *)

Record PesPayload : Type := { pes_data : bytes; pes_pts : option Z; pes_dts : option Z }.

Definition parse_pes_timestamp (data : bytes) : option Z :=
  match data with
  | d0 :: d1 :: d2 :: d3 :: d4 :: _ =>
      Some ((((d0 .>> 1) .& 0x07) .<< 30) .| (d1 .<< 22) .| (((d2 .>> 1) .& 0x7f) .<< 15) .|
            (d3 .<< 7) .| ((d4 .>> 1) .& 0x7f))
  | _ => None
  end.

(** [payload.get(i..i + 5)?]: the whole extraction fails when the range does
    not exist. *)
Definition timestamp_at (payload : bytes) (i : nat) : option (option Z) :=
  if (i + 5 <=? length payload)%nat then Some (parse_pes_timestamp (take 5 (drop i payload))) else None.

Definition extract_pes_payload (payload : bytes) (unit_start : bool) : result (option PesPayload) :=
  let raw := {| pes_data := payload; pes_pts := None; pes_dts := None |} in
  if negb unit_start then Ok (Some raw) else
  if (length payload <? 9)%nat then Ok None else
  p0 ← idx payload 0; p1 ← idx payload 1; p2 ← idx payload 2;
  if negb (p0 =? 0x00) || negb (p1 =? 0x00) || negb (p2 =? 0x01) then Ok (Some raw) else
  p7 ← idx payload 7; p8 ← idx payload 8;
  let flags := (p7 .>> 6) .& 0x03 in
  let data_start := (9 + Z.to_nat p8)%nat in
  if (length payload <? data_start)%nat then Ok None else
  match (if (flags =? 0x02) || (flags =? 0x03) then timestamp_at payload 9 else Some None) with
  | None => Ok None
  | Some pts =>
      match (if flags =? 0x03 then timestamp_at payload 14 else Some None) with
      | None => Ok None
      | Some dts =>
          body ← slice payload data_start (length payload);
          Ok (Some {| pes_data := body; pes_pts := pts; pes_dts := dts |})
      end
  end.

(** ** Publication *)

Definition clock_ms (v : Z) : Z := Z.min (v * 1000) (2 ^ 64 - 1) / 90000.

(** The millisecond timestamps, and the fallback clock afterwards. *)
Definition media_timestamps (pts dts : option Z) (fallback : Z) : (Z * Z * Z) * Z :=
  match clock_ms <$> pts, clock_ms <$> or_else dts pts with
  | Some pts_ms, Some dts_ms => ((u32 dts_ms, pts_ms, dts_ms), u32 dts_ms)
  | _, _ => ((fallback, fallback, fallback), u32 (fallback + 40))
  end.

(** The NAL unit types the detection distinguishes. *)
Definition codec_of_nal (b : Z) : CodecId :=
  let nal5 := b .& 0x1F in
  let nal6 := (b .>> 1) .& 0x3F in
  if (32 <=? nal6) && (nal6 <=? 34) then H265
  else if (nal5 =? 5) || (nal5 =? 7) || (nal5 =? 8) then H264
  else if (16 <=? nal6) && (nal6 <=? 21) then H265
  else H264.

(** The bytes from the first occurrence of [code] on. *)
Fixpoint find_code (code : bytes) (data : bytes) : option bytes :=
  if bool_decide (take (length code) data = code) then Some data else
  match data with
  | [] => None
  | _ :: tail => find_code code tail
  end.

Definition detect_codec (data : bytes) : CodecId :=
  match find_code [0; 0; 0; 1] data with
  | Some rest => match rest !! 4%nat with Some b => codec_of_nal b | None => H264 end
  | None =>
      match find_code [0; 0; 1] data with
      | Some rest => match rest !! 3%nat with Some b => codec_of_nal b | None => H264 end
      | None => UnknownCodec 0
      end
  end.

Definition is_start (w : bytes) : bool :=
  match w with
  | w0 :: w1 :: w2 :: w3 :: _ =>
      ((w0 =? 0) && (w1 =? 0) && (w2 =? 1)) || ((w0 =? 0) && (w1 =? 0) && (w2 =? 0) && (w3 =? 1))
  | _ => false
  end.

(** The first window of [n] bytes that begins with a start code. *)
Fixpoint first_window (n : nat) (data : bytes) : option bytes :=
  if (length data <? n)%nat then None
  else if is_start (take n data) then Some (take n data)
  else match data with [] => None | _ :: tail => first_window n tail end.

Definition ts_is_keyframe (data : bytes) (c : CodecId) : bool :=
  match c with
  | H264 =>
      match first_window 5 data with
      | Some [w0; w1; w2; w3; w4] =>
          let nal_type := if w2 =? 1 then w3 .& 0x1F else w4 .& 0x1F in
          (nal_type =? 5) || (nal_type =? 7)
      | _ => false
      end
  | H265 =>
      match first_window 4 data with
      | Some [w0; w1; w2; w3] =>
          let nal_type := (w3 .>> 1) .& 0x3F in
          (16 <=? nal_type) && (nal_type <=? 21)
      | _ => false
      end
  | _ => true
  end.

Definition publish_video (data : bytes) (declared : option CodecId) (pts dts : option Z) (fallback : Z) :
    list MediaFrame * Z :=
  if (length data <? 4)%nat then ([], fallback) else
  let c := match declared with Some c => c | None => detect_codec data end in
  let key := ts_is_keyframe data c in
  let '((ts, pts_ms, dts_ms), fallback) := media_timestamps pts dts fallback in
  ([with_payload_format (new_video 0 c ts pts_ms dts_ms data key) PfAnnexB], fallback).

Definition is_adts_sync (data : bytes) : bool :=
  match data with d0 :: d1 :: _ => (d0 =? 0xFF) && (d1 .& 0xF0 =? 0xF0) | _ => false end.

Definition publish_audio (data : bytes) (pts dts : option Z) (fallback : Z) : list MediaFrame * Z :=
  if (length data <? 7)%nat then ([], fallback) else
  if is_adts_sync data then
    let '((ts, pts_ms, dts_ms), fallback) := media_timestamps pts dts fallback in
    ([with_payload_format (new_audio 0 AAC ts pts_ms dts_ms data) PfAdts], fallback)
  else ([], fallback).

(** ** Packets *)

(** The video and the audio branch of the packet loop: context, published
    frames, fallback clock. *)
Definition video_payload (c : TsContext) (payload : bytes) (start : bool) (fallback : Z) :
    result (TsContext * list MediaFrame * Z) :=
  pes ← extract_pes_payload payload start;
  match pes with
  | None => Ok (c, [], fallback)
  | Some pes =>
      if start then
        let '(frames, fallback) :=
          match video_accum c with
          | [] => ([], fallback)
          | _ :: _ => publish_video (video_accum c) (ctx_video_codec c) (video_pts c) (video_dts c) fallback
          end in
        Ok (set_video c (pes_data pes) (pes_pts pes) (or_else (pes_dts pes) (pes_pts pes)), frames, fallback)
      else Ok (set_video c (video_accum c ++ pes_data pes) (video_pts c) (video_dts c), [], fallback)
  end.

Definition audio_payload (c : TsContext) (payload : bytes) (start : bool) (fallback : Z) :
    result (TsContext * list MediaFrame * Z) :=
  pes ← extract_pes_payload payload start;
  match pes with
  | None => Ok (c, [], fallback)
  | Some pes =>
      if start then
        let '(frames, fallback) :=
          match audio_accum c with
          | [] => ([], fallback)
          | _ :: _ => publish_audio (audio_accum c) (audio_pts c) (audio_dts c) fallback
          end in
        Ok (set_audio c (pes_data pes) (pes_pts pes) (or_else (pes_dts pes) (pes_pts pes)), frames, fallback)
      else Ok (set_audio c (audio_accum c ++ pes_data pes) (audio_pts c) (audio_dts c), [], fallback)
  end.

(** What the loop body does with the payload of a packet. *)
Definition route_payload (c : TsContext) (pid : Z) (start : bool) (payload : bytes) (fallback : Z) :
    result (TsContext * list MediaFrame * Z) :=
  c ← (if (pid =? PID_PAT) && start then parse_pat payload c else Ok c);
  is_pmt ← (match pmt_pid c with
            | Some ppid => Ok (pid =? ppid)
            | None => if start && (3 <? length payload)%nat
                      then p1 ← idx payload 1; Ok (p1 =? 0x02) else Ok false
            end);
  c ← (if is_pmt : bool then parse_pmt payload c else Ok c);
  let vpid := default 0x0100 (video_pid c) in
  let apid := default PID_DEFAULT_AUDIO (audio_pid c) in
  if (pid =? vpid) && (0 <? length payload)%nat then video_payload c payload start fallback
  else if (pid =? apid) && (0 <? length payload)%nat then audio_payload c payload start fallback
  else Ok (c, [], fallback).

(** One turn of the packet loop. *)
Definition demux_step (data : bytes) (st : nat * (TsContext * list MediaFrame * Z)) :
    result (nat * (TsContext * list MediaFrame * Z) + TsContext * list MediaFrame * Z) :=
  let '(offset, (c, frames, fallback)) := st in
  if (offset + TS_PACKET_SIZE <=? length data)%nat then
    sync ← idx data offset;
    if negb (sync =? TS_SYNC) then Ok (inr (c, frames, fallback)) else
    d1 ← idx data (offset + 1); d2 ← idx data (offset + 2); d3 ← idx data (offset + 3);
    let pid := ((d1 .& 0x1F) .<< 8) .| d2 in
    let start := negb (d1 .& 0x40 =? 0) in
    let adaptation := (d3 .>> 4) .& 0x03 in
    payload_offset ← (if (adaptation =? 0x02) || (adaptation =? 0x03)
                      then d4 ← idx data (offset + 4); Ok (offset + 4 + (Z.to_nat d4 + 1))%nat
                      else Ok (offset + 4)%nat);
    if (offset + TS_PACKET_SIZE <? payload_offset + 4)%nat
    then Ok (inl ((offset + TS_PACKET_SIZE)%nat, (c, frames, fallback)))
    else
      payload ← slice data payload_offset (offset + TS_PACKET_SIZE);
      '(c, new, fallback) ← route_payload c pid start payload fallback;
      Ok (inl ((offset + TS_PACKET_SIZE)%nat, (c, frames ++ new, fallback)))
  else Ok (inr (c, frames, fallback)).

Definition demux_ts_packets (data : bytes) (c : TsContext) (fallback : Z) :
    result (TsContext * list MediaFrame * Z) :=
  loop (S (length data)) (demux_step data) (0%nat, (c, [], fallback)).

Definition flush_ts_context (c : TsContext) (fallback : Z) : TsContext * list MediaFrame * Z :=
  let '(c, vframes, fallback) :=
    match video_accum c with
    | [] => (c, [], fallback)
    | _ :: _ =>
        let '(fs, fb) := publish_video (video_accum c) (ctx_video_codec c) (video_pts c) (video_dts c) fallback in
        (set_video c [] (video_pts c) (video_dts c), fs, fb)
    end in
  match audio_accum c with
  | [] => (c, vframes, fallback)
  | _ :: _ =>
      let '(fs, fb) := publish_audio (audio_accum c) (audio_pts c) (audio_dts c) fallback in
      (set_audio c [] (audio_pts c) (audio_dts c), vframes ++ fs, fb)
  end.

(** ** The stream demuxer *)

Record TsStreamDemuxer : Type := {
  pending : bytes;
  context : TsContext;
  clock : Z
}.

Definition demuxer_new : TsStreamDemuxer := {| pending := []; context := context_new; clock := 0 |}.

(** The bytes from the first sync byte on. *)
Fixpoint from_sync (l : bytes) : option bytes :=
  match l with
  | [] => None
  | b :: tail => if b =? TS_SYNC then Some l else from_sync tail
  end.

Definition ts_feed_step (st : TsStreamDemuxer * list MediaFrame) :
    result (TsStreamDemuxer * list MediaFrame + TsStreamDemuxer * list MediaFrame) :=
  let '(d, frames) := st in
  if (TS_PACKET_SIZE <=? length (pending d))%nat then
    let aligned := from_sync (pending d) in
    match aligned with
    | None => Ok (inr ({| pending := []; context := context d; clock := clock d |}, frames))
    | Some l =>
        if (length l <? TS_PACKET_SIZE)%nat
        then Ok (inr ({| pending := l; context := context d; clock := clock d |}, frames))
        else
          '(c, new, fb) ← demux_ts_packets (take TS_PACKET_SIZE l) (context d) (clock d);
          Ok (inl ({| pending := drop TS_PACKET_SIZE l; context := c; clock := fb |}, frames ++ new))
    end
  else Ok (inr (d, frames)).

Definition ts_feed (d : TsStreamDemuxer) (data : bytes) : result (TsStreamDemuxer * list MediaFrame) :=
  let d := {| pending := pending d ++ data; context := context d; clock := clock d |} in
  loop (S (length (pending d))) ts_feed_step (d, []).

Definition ts_flush (d : TsStreamDemuxer) : TsStreamDemuxer * list MediaFrame :=
  let '(c, frames, fb) := flush_ts_context (context d) (clock d) in
  ({| pending := []; context := c; clock := fb |}, frames).

(** ** The demuxer answers every input *)

Lemma pid_at_safe payload i (Q : Z -> Prop) R : (i + 1 < length payload)%nat -> (forall v, Q v) -> wp (pid_at payload i) Q R.
Proof. intros H HQ. unfold pid_at. wp_auto; [lia..|]. apply HQ. Qed.

Lemma len12_at_safe payload i (Q : nat -> Prop) R : (i + 1 < length payload)%nat -> (forall v, Q v) -> wp (len12_at payload i) Q R.
Proof. intros H HQ. unfold len12_at. wp_auto; [lia..|]. apply HQ. Qed.

Lemma parse_pat_always payload c : always (parse_pat payload c).
Proof.
  unfold parse_pat. wp_auto; wp_side. apply pid_at_safe; [wp_side|done].
Qed.

Lemma parse_pmt_always payload c : always (parse_pmt payload c).
Proof.
  unfold parse_pmt. wp_auto; wp_side. apply len12_at_safe; [wp_side|]. intros info. wp_bounds.
  apply (wp_loop _ (fun _ => True) (fun st => length payload + 1 - st.1)%nat); [|done|cbn [fst]; lia].
  intros [pos c0] _. unfold pmt_step. wp_auto; wp_side. apply pid_at_safe; [wp_side|]. intros pid.
  apply wp_bind, len12_at_safe; [wp_side|]. intros es. apply wp_ok. cbn [fst]. wp_side.
Qed.

Lemma extract_pes_always payload start : always (extract_pes_payload payload start).
Proof.
  unfold extract_pes_payload. wp_auto; wp_side.
  all: repeat (case_match; wp_auto; wp_side).
Qed.

Lemma av_payload_always c payload start fb : always (video_payload c payload start fb) /\ always (audio_payload c payload start fb).
Proof.
  unfold video_payload, audio_payload.
  split; (apply wp_bind; eapply wp_mono; [apply extract_pes_always|intros [pes|] _|done]); try done; destruct start; try done;
    (destruct (_ : bytes); [done|]); by destruct (publish_video _ _ _ _ _) + destruct (publish_audio _ _ _ _).
Qed.

Lemma route_payload_always c pid start payload fb : always (route_payload c pid start payload fb).
Proof.
  unfold route_payload. apply wp_bind. eapply (wp_mono _ (fun _ => True) _ (fun _ => False)); [|intros c1 _|done].
  { destruct (_ && start); [apply parse_pat_always|exact I]. }
  apply wp_bind. eapply (wp_mono _ (fun _ => True) _ (fun _ => False)); [|intros is_pmt _|done].
  { destruct (pmt_pid c1); [exact I|]. destruct (start && _) eqn:E; [|exact I]. wp_auto; wp_side. }
  apply wp_bind. eapply (wp_mono _ (fun _ => True) _ (fun _ => False)); [|intros c2 _|done].
  { destruct is_pmt; [apply parse_pmt_always|exact I]. }
  cbv zeta. destruct (_ && _); [apply av_payload_always|]. destruct (_ && _); [apply av_payload_always|exact I].
Qed.

Lemma demux_ts_always data c fb : always (demux_ts_packets data c fb).
Proof.
  unfold demux_ts_packets. apply (wp_loop _ (fun _ => True) (fun st => length data - st.1)%nat); [|done|cbn [fst]; lia].
  intros [offset [[c0 frames] fb0]] _. unfold demux_step, TS_PACKET_SIZE.
  wp_auto; wp_side.
  all: first [cbn [fst]; split; [done|lia]
             | eapply wp_mono; [apply route_payload_always|intros [[c2 new] fb2] _; apply wp_ok; cbn [fst]; split; [done|lia]|done]].
Qed.

(** ** Reading the muxer's packets *)

Definition pid_ok (pid : Z) : Prop := 0 <= pid < 8192.

Lemma ts_header_fields pid start control c :
  pid_ok pid -> control = 0x10 \/ control = 0x30 ->
  exists d1 d2 d3, ts_header pid start control c = [0x47; d1; d2; d3] /\
    ((d1 .& 0x1F) .<< 8) .| d2 = pid /\ negb (d1 .& 0x40 =? 0) = start /\
    (d3 .>> 4) .& 0x03 = (if control =? 0x10 then 1 else 3).
Proof.
  intros Hp Hc. unfold ts_header. do 3 eexists. split; [reflexivity|].
  unfold pid_ok in Hp.
  assert (Hhi : 0 <= (pid .>> 8) .& 0x1F < 32 /\ 0 <= pid .& 0xFF < 256 /\
    pid = ((pid .>> 8) .& 0x1F) * 256 + pid .& 0xFF) by (bits_arith; div_lia).
  destruct Hhi as (Hh & Hl & He). revert He Hh Hl.
  generalize ((pid .>> 8) .& 0x1F) as h, (pid .& 0xFF) as l. intros h l He Hh Hl.
  assert (Hhs : (h .| (if start then 0x40 else 0)) = h + (if start then 64 else 0)).
  { destruct start; [rewrite Z.lor_comm, (lor_add 64 h 6) by (lia || done); lia|by rewrite Z.lor_0_r, Z.add_0_r]. }
  rewrite Hhs. split_and!.
  - bits_arith. rewrite (lor_add _ l 8) by (destruct start; div_lia). destruct start; div_lia.
  - replace ((h + (if start then 64 else 0)) .& 64) with (if start then 64 else 0); [by destruct start|].
    bits_arith. destruct start; div_lia.
  - assert (Hc16 : 0 <= c .& 0x0F < 16) by (bits_arith; div_lia). revert Hc16.
    generalize (c .& 0x0F) as k. intros k Hk.
    destruct Hc as [->| ->]; rewrite (lor_add _ k 4) by (lia || done); bits_arith; cbn [Z.eqb Pos.eqb]; div_lia.
Qed.

(** One packet of the muxer.  A payload of fewer than four bytes is dropped. *)
Lemma demux_packet pid start cont adapt part c fb :
  pid_ok pid -> adapted adapt part ->
  demux_ts_packets (ts_packet pid start cont adapt part) c fb =
  if (length part <? 4)%nat then Ok (c, [], fb) else route_payload c pid start part fb.
Proof.
  intros Hp [Hl Ha]. unfold ts_packet, demux_ts_packets.
  destruct (ts_header_fields pid start (if (0 <? length adapt)%nat then 0x30 else 0x10) cont Hp) as
    (d1 & d2 & d3 & -> & Hpid & Hst & Had); [destruct (0 <? length adapt)%nat; auto|].
  set (pkt := [0x47; d1; d2; d3] ++ adapt ++ part).
  assert (Hlen : length pkt = 188%nat) by (unfold pkt; rewrite !length_app; cbn [length]; lia).
  assert (Hpo : (if ((if (if (0 <? length adapt)%nat then 0x30 else 0x10) =? 0x10 then 1 else 3) =? 2)
                   || ((if (if (0 <? length adapt)%nat then 0x30 else 0x10) =? 0x10 then 1 else 3) =? 3)
                 then d4 ← idx pkt 4; Ok (4 + (Z.to_nat d4 + 1))%nat
                 else Ok 4%nat) = (Ok (4 + length adapt)%nat : result nat)).
  { destruct adapt as [|a0 tail]; [done|]. cbn [length Nat.ltb Nat.leb Z.eqb Pos.eqb orb].
    unfold pkt. cbn [app]. rewrite !idx_S, idx_0. cbn [mbind outcome_bind]. subst a0. f_equal. lia. }
  rewrite Hlen. change 189%nat with (S (1 + 187)). cbn [loop]. unfold demux_step at 1. rewrite Hlen.
  cbn [Nat.add Nat.leb TS_PACKET_SIZE].
  change (idx pkt 0) with (Ok 0x47 : result Z). change (idx pkt 1) with (Ok d1 : result Z).
  change (idx pkt 2) with (Ok d2 : result Z). change (idx pkt 3) with (Ok d3 : result Z).
  cbn [mbind outcome_bind]. change (negb (0x47 =? TS_SYNC)) with false. cbv iota.
  rewrite Hpid, Hst, Had.
  match goal with |- context [if _ || _ then ?x else Ok 4%nat] => change x with
    (d4 ← idx pkt 4; Ok (4 + (Z.to_nat d4 + 1))%nat : result nat) end.
  rewrite Hpo. cbn [mbind outcome_bind].
  assert (Hend : forall x, loop (1 + 187) (demux_step pkt) (188%nat, x) = Ok x).
  { intros [[c' fs] fb']. cbn [loop Nat.add]. unfold demux_step at 1. rewrite Hlen. done. }
  destruct (Nat.ltb_spec (length part) 4).
  - rewrite (proj2 (Nat.ltb_lt 188 _)) by lia. apply Hend.
  - rewrite (proj2 (Nat.ltb_ge 188 _)) by lia.
    assert (Hsl : slice pkt (4 + length adapt) 188 = (Ok part : result bytes)).
    { unfold pkt. rewrite app_assoc. rewrite <-(app_nil_r part) at 1.
      rewrite slice_mid; [done|by rewrite length_app|rewrite length_app; cbn [length]; lia]. }
    change TS_PACKET_SIZE with 188%nat. rewrite Hsl. cbn [mbind outcome_bind].
    destruct (route_payload c pid start part fb) as [[[c' fs] fb']| | |]; try done. apply Hend.
Qed.

(** ** Feeding packets in arbitrary reads *)

Fixpoint demux_all (pkts : list bytes) (c : TsContext) (fb : Z) : result (TsContext * list MediaFrame * Z) :=
  match pkts with
  | [] => Ok (c, [], fb)
  | p :: pkts =>
      '(c, l, fb) ← demux_ts_packets p c fb;
      '(c, l', fb) ← demux_all pkts c fb;
      Ok (c, l ++ l', fb)
  end.

Lemma demux_all_app p1 p2 c fb c1 l1 fb1 c2 l2 fb2 :
  demux_all p1 c fb = Ok (c1, l1, fb1) -> demux_all p2 c1 fb1 = Ok (c2, l2, fb2) ->
  demux_all (p1 ++ p2) c fb = Ok (c2, l1 ++ l2, fb2).
Proof.
  revert c fb l1. induction p1 as [|p p1 IH]; intros c fb l1 H1 H2; cbn [demux_all app] in *.
  { by injection H1 as <- <- <-. }
  destruct (demux_ts_packets p c fb) as [[[c' l] fb']| | |]; try done. cbn [mbind outcome_bind] in *.
  destruct (demux_all p1 c' fb') as [[[c'' l'] fb'']| | |] eqn:Hp; try done. cbn in H1.
  injection H1 as <- <- <-. rewrite (IH c' fb' l' Hp H2). cbn. by rewrite app_assoc.
Qed.

Lemma demux_all_split p1 p2 c fb c2 l fb2 :
  demux_all (p1 ++ p2) c fb = Ok (c2, l, fb2) ->
  exists c1 l1 fb1 l2, demux_all p1 c fb = Ok (c1, l1, fb1) /\ demux_all p2 c1 fb1 = Ok (c2, l2, fb2) /\ l = l1 ++ l2.
Proof.
  revert c fb l. induction p1 as [|p p1 IH]; intros c fb l H; cbn [demux_all app] in *.
  { exists c, [], fb, l. done. }
  destruct (demux_ts_packets p c fb) as [[[c' l0] fb']| | |]; try done. cbn [mbind outcome_bind] in *.
  destruct (demux_all (p1 ++ p2) c' fb') as [[[c'' l'] fb'']| | |] eqn:Hp; try done. cbn in H.
  injection H as <- <- <-. destruct (IH _ _ _ Hp) as (c1 & l1 & fb1 & l2 & -> & H2 & ->).
  cbn. exists c1, (l0 ++ l1), fb1, l2. by rewrite app_assoc.
Qed.

Definition aligned (p : bytes) : Prop := length p = TS_PACKET_SIZE /\ head p = Some TS_SYNC.

Lemma aligned_from_sync p l : aligned p -> from_sync (p ++ l) = Some (p ++ l).
Proof. intros [_ Hh]. destruct p as [|b p]; [done|]. cbn in *. by injection Hh as ->. Qed.

Lemma feed_loop pkts tail fuel d acc c' fs fb' :
  Forall aligned pkts -> pending d = concat pkts ++ tail -> (length tail < TS_PACKET_SIZE)%nat ->
  demux_all pkts (context d) (clock d) = Ok (c', fs, fb') -> (length (pending d) < fuel)%nat ->
  loop fuel ts_feed_step (d, acc) = Ok ({| pending := tail; context := c'; clock := fb' |}, acc ++ fs).
Proof.
  intros Hal. revert fuel d acc fs. induction Hal as [|p pkts Hp Hal IH]; intros fuel d acc fs Hpd Ht Hd Hf;
    (destruct fuel as [|fuel]; [lia|]); cbn [loop]; unfold ts_feed_step at 1.
  - cbn [concat app] in Hpd. cbn in Hd. injection Hd as <- <- <-.
    rewrite (proj2 (Nat.leb_gt _ _)) by (by rewrite Hpd). rewrite app_nil_r, <-Hpd. by destruct d.
  - cbn [concat demux_all] in *. rewrite <-app_assoc in Hpd.
    pose proof (proj1 Hp) as Hlen. assert (Hl : length (pending d) = (188 + length (concat pkts ++ tail))%nat)
      by (rewrite Hpd, length_app, Hlen; done).
    rewrite (proj2 (Nat.leb_le _ _)) by (rewrite Hl; unfold TS_PACKET_SIZE; lia).
    rewrite Hpd, (aligned_from_sync p) by done. cbv zeta.
    rewrite (proj2 (Nat.ltb_ge _ _)) by (rewrite length_app, Hlen; lia).
    rewrite (take_app_length' p), (drop_app_length' p) by done.
    destruct (demux_ts_packets p (context d) (clock d)) as [[[c1 l1] fb1]| | |]; try done.
    cbn [mbind outcome_bind] in *.
    destruct (demux_all pkts c1 fb1) as [[[c2 l2] fb2]| | |] eqn:He; try done. cbn in Hd.
    injection Hd as <- <- <-. rewrite (IH fuel _ (acc ++ l1) l2); [by rewrite app_assoc|done|done|exact He|cbn [pending]; lia].
Qed.

(** The reads of a connection, one [feed] each. *)
Fixpoint ts_feed_all (d : TsStreamDemuxer) (reads : list bytes) : result (TsStreamDemuxer * list MediaFrame) :=
  match reads with
  | [] => Ok (d, [])
  | r :: reads =>
      '(d, l) ← ts_feed d r;
      '(d, l') ← ts_feed_all d reads;
      Ok (d, l ++ l')
  end.

Lemma packets_split pkts p q :
  Forall aligned pkts -> p ++ q = concat pkts ->
  exists pk1 pk2 tail, pkts = pk1 ++ pk2 /\ p = concat pk1 ++ tail /\ (length tail < TS_PACKET_SIZE)%nat /\
    tail ++ q = concat pk2.
Proof.
  intros Hal. revert p. induction Hal as [|x pkts Hx Hal IH]; intros p Hpq.
  { apply app_eq_nil in Hpq as [-> ->]. exists [], [], []. by split_and!; [..|unfold TS_PACKET_SIZE; cbn; lia|]. }
  destruct (decide (length p < TS_PACKET_SIZE)%nat) as [Hlt|Hge].
  { exists [], (x :: pkts), p. done. }
  cbn [concat] in Hpq. destruct Hx as [Hlen Hh].
  assert (p = x ++ drop TS_PACKET_SIZE p) as Hp.
  { pose proof (f_equal (take TS_PACKET_SIZE) Hpq) as Ht.
    rewrite take_app_le, (take_app_length' x) in Ht by (done || lia). rewrite <-Ht. symmetry. apply take_drop. }
  rewrite Hp in Hpq. rewrite <-app_assoc in Hpq. apply app_inv_head in Hpq.
  destruct (IH _ Hpq) as (pk1 & pk2 & tail & -> & H1 & H2 & H3).
  exists (x :: pk1), pk2, tail. split_and!; [done| |done|done]. rewrite Hp, H1. cbn. by rewrite app_assoc.
Qed.

Lemma feed_packets reads d pkts c' fs fb' :
  Forall aligned pkts -> pending d ++ concat reads = concat pkts -> (length (pending d) < TS_PACKET_SIZE)%nat ->
  demux_all pkts (context d) (clock d) = Ok (c', fs, fb') ->
  ts_feed_all d reads = Ok ({| pending := []; context := c'; clock := fb' |}, fs).
Proof.
  revert d pkts fs. induction reads as [|r reads IH]; intros d pkts fs Hal Hpd Hlt Hd; cbn [ts_feed_all].
  - cbn [concat] in Hpd. rewrite app_nil_r in Hpd. destruct Hal as [|x pkts Hx Hal].
    + cbn in *. injection Hd as <- <- <-. destruct d. cbn in *. by subst.
    + apply (f_equal length) in Hpd. cbn [concat] in Hpd. rewrite length_app, (proj1 Hx) in Hpd. lia.
  - cbn [concat] in Hpd. rewrite app_assoc in Hpd.
    destruct (packets_split _ _ _ Hal Hpd) as (pk1 & pk2 & tail & -> & H1 & H2 & H3).
    apply demux_all_split in Hd as (c1 & l1 & fb1 & l2 & Hd1 & Hd2 & ->).
    apply Forall_app in Hal as [Hal1 Hal2]. unfold ts_feed.
    rewrite (feed_loop pk1 tail _ _ [] c1 l1 fb1); [|done|done|done|done|cbn; lia].
    cbn [mbind outcome_bind app]. rewrite (IH _ pk2 l2); [done|done|done|done|done].
Qed.

Lemma carries_aligned pid start cont parts pkts :
  carries pid start cont parts pkts -> Forall aligned pkts.
Proof.
  induction 1 as [|start c adapt part parts pkts [Hl _] Hne Hc IH]; constructor; [|done].
  split; [|done]. unfold ts_packet. rewrite !length_app. cbn [length ts_header]. unfold TS_PACKET_SIZE. lia.
Qed.
