(* ===== verification/TsStream.v ===== *)
(** * TsStream: a transport stream from muxer to demuxer

    The live muxer's output, read by the stream demuxer in arbitrary pieces:
    which bytes and timestamps arrive. *)

From S2P Require Import Prelude Frame Payload TsMux TsDemux.
Open Scope Z_scope.

(** The context after the muxer's tables. *)
Record ready (c : TsContext) (vc : CodecId) : Prop := {
  ready_video : video_pid c = Some VIDEO_PID;
  ready_audio : audio_pid c = Some AUDIO_PID;
  ready_pmt : pmt_pid c = Some PMT_PID;
  ready_codec : ctx_video_codec c = Some vc
}.

Lemma route_video c vc start part fb :
  ready c vc -> part <> [] -> route_payload c VIDEO_PID start part fb = video_payload c part start fb.
Proof.
  intros [Hv Ha Hp Hc] Hne. unfold route_payload. cbn [andb Z.eqb VIDEO_PID PID_PAT mbind outcome_bind].
  rewrite Hp. cbn. rewrite Hv. cbn. by destruct part.
Qed.

Lemma route_audio c vc start part fb :
  ready c vc -> part <> [] -> route_payload c AUDIO_PID start part fb = audio_payload c part start fb.
Proof.
  intros [Hv Ha Hp Hc] Hne. unfold route_payload. cbn [andb Z.eqb AUDIO_PID PID_PAT mbind outcome_bind].
  rewrite Hp. cbn. rewrite Hv, Ha. cbn. by destruct part.
Qed.

(** The bytes of the continuation packets that are not dropped. *)
Definition kept (parts : list bytes) : bytes := concat (List.filter (fun p => negb (length p <? 4)%nat) parts).

Lemma set_video_same c : set_video c (video_accum c) (video_pts c) (video_dts c) = c.
Proof. by destruct c. Qed.
Lemma set_audio_same c : set_audio c (audio_accum c) (audio_pts c) (audio_dts c) = c.
Proof. by destruct c. Qed.

Lemma ready_set_video c vc b p d : ready c vc -> ready (set_video c b p d) vc.
Proof. intros [? ? ? ?]. by split. Qed.
Lemma ready_set_audio c vc b p d : ready c vc -> ready (set_audio c b p d) vc.
Proof. intros [? ? ? ?]. by split. Qed.

Lemma video_continuation cont parts pkts c vc fb :
  carries VIDEO_PID false cont parts pkts -> ready c vc ->
  demux_all pkts c fb = Ok (set_video c (video_accum c ++ kept parts) (video_pts c) (video_dts c), [], fb).
Proof.
  intros Hc. remember false as start eqn:Hs. revert c fb Hs.
  induction Hc as [start cont|start cont adapt part parts pkts Had Hne Hc IH]; intros c fb -> Hr.
  { cbn. by rewrite app_nil_r, set_video_same. }
  cbn [demux_all]. rewrite demux_packet by (done || unfold pid_ok, VIDEO_PID; lia).
  unfold kept in *. cbn [List.filter]. destruct (Nat.ltb_spec (length part) 4); cbn [negb].
  - cbn [mbind outcome_bind]. rewrite IH by done. done.
  - rewrite (route_video c vc) by done. unfold video_payload. cbn [extract_pes_payload negb mbind outcome_bind pes_data].
    rewrite IH by (done || by apply ready_set_video). cbn [mbind outcome_bind concat]. by rewrite app_assoc.
Qed.

Lemma audio_continuation cont parts pkts c vc fb :
  carries AUDIO_PID false cont parts pkts -> ready c vc ->
  demux_all pkts c fb = Ok (set_audio c (audio_accum c ++ kept parts) (audio_pts c) (audio_dts c), [], fb).
Proof.
  intros Hc. remember false as start eqn:Hs. revert c fb Hs.
  induction Hc as [start cont|start cont adapt part parts pkts Had Hne Hc IH]; intros c fb -> Hr.
  { cbn. by rewrite app_nil_r, set_audio_same. }
  cbn [demux_all]. rewrite demux_packet by (done || unfold pid_ok, AUDIO_PID; lia).
  unfold kept in *. cbn [List.filter]. destruct (Nat.ltb_spec (length part) 4); cbn [negb].
  - cbn [mbind outcome_bind]. rewrite IH by done. done.
  - rewrite (route_audio c vc) by done. unfold audio_payload. cbn [extract_pes_payload negb mbind outcome_bind pes_data].
    rewrite IH by (done || by apply ready_set_audio). cbn [mbind outcome_bind concat]. by rewrite app_assoc.
Qed.

(** How many of the [n] bytes cut into packets of 184 are dropped at the end. *)
Definition dropped (n : nat) : nat := let r := (n mod 184)%nat in if (r <? 4)%nat then r else 0%nat.

Lemma kept_chunks l : kept (chunks 184 l) = take (length l - dropped (length l)) l.
Proof.
  revert l. apply (chunks_ind _ 184); [lia|done|]. intros l Hl IH. unfold kept in *.
  rewrite chunks_cons by (done || lia). cbn [List.filter].
  assert (0 < length l)%nat by (destruct l; simpl; [done|lia]).
  destruct (decide (length l < 184)%nat) as [Hs|Hs].
  - rewrite (take_ge l 184), (drop_ge l 184), chunks_nil by lia. cbn [List.filter].
    unfold dropped. rewrite Nat.mod_small by lia. destruct (Nat.ltb_spec (length l) 4); cbn [negb concat].
    + by rewrite Nat.sub_diag.
    + by rewrite Nat.sub_0_r, take_ge, app_nil_r.
  - rewrite length_take, Nat.min_l by lia. change (negb (184 <? 4)%nat) with true. cbn [concat]. rewrite IH, length_drop.
    assert (dropped (length l - 184) = dropped (length l)) as ->.
    { unfold dropped. assert ((length l - 184) mod 184 = length l mod 184)%nat as ->; [|done].
      rewrite <-(Nat.Div0.mod_add (length l - 184) 1 184). f_equal. lia. }
    assert (dropped (length l) <= length l - 184)%nat as Hd.
    { unfold dropped. destruct (Nat.ltb_spec (length l mod 184) 4); [|lia].
      pose proof (Nat.div_mod (length l) 184 ltac:(lia)).
      assert (1 <= length l / 184)%nat by (apply Nat.div_le_lower_bound; lia).
      destruct (decide (length l / 184 = 1)%nat); nia. }
    rewrite take_take_drop. f_equal. lia.
Qed.

(** ** One access unit *)

(** The PES header of a data unit. *)
Definition data_header (stream_id : Z) (b : bytes) (ts : Z) : bytes :=
  take 14 (build_data_pes_raw stream_id b ts).

Lemma data_pes_split stream_id b ts :
  build_data_pes_raw stream_id b ts = data_header stream_id b ts ++ b /\ length (data_header stream_id b ts) = 14%nat.
Proof. done. Qed.

(** The clock value of the PES header. *)
Definition pes_clock (ts : Z) : Z := (ts * 90) mod 2 ^ 33.

Lemma write_pts_read ts :
  0 <= ts -> parse_pes_timestamp (write_pts 0x21 (ts * 90)) = Some (pes_clock ts).
Proof.
  intros Ht. unfold pes_clock. generalize (ts * 90) as p. clear. intros p. unfold write_pts, parse_pes_timestamp. f_equal.
  assert (H0 : ((0x21 .| (p .>> 29 .& 0x0E) .| 0x01) .>> 1) .& 0x07 = (p / 2 ^ 30) mod 8).
  { assert (Hx : exists x, 0 <= x < 8 /\ p .>> 29 .& 0x0E = x * 2 /\ (p / 2 ^ 30) mod 8 = x).
    { exists ((p / 2 ^ 30) mod 8). bits_arith. change (2 ^ 30) with 1073741824. split_and!; div_lia. }
    destruct Hx as (x & Hx & -> & ->).
    assert (x = 0 \/ x = 1 \/ x = 2 \/ x = 3 \/ x = 4 \/ x = 5 \/ x = 6 \/ x = 7) as Hc by lia.
    by repeat destruct Hc as [->|Hc]; subst. }
  assert (H2 : (((p .>> 14 .& 0xFE) .| 0x01) .>> 1) .& 0x7f = (p / 2 ^ 15) mod 128).
  { replace (p .>> 14 .& 0xFE) with (((p / 2 ^ 15) mod 128) * 2) by (bits_arith; change (2 ^ 15) with 32768; div_lia).
    assert (0 <= (p / 2 ^ 15) mod 128 < 128) by (apply Z.mod_pos_bound; lia).
    rewrite (lor_add _ 1 1) by div_lia. bits_arith. div_lia. }
  assert (H4 : (((p .<< 1 .& 0xFE) .| 0x01) .>> 1) .& 0x7f = p mod 128).
  { replace (p .<< 1 .& 0xFE) with ((p mod 128) * 2) by (bits_arith; div_lia).
    rewrite (lor_add _ 1 1) by div_lia. bits_arith. div_lia. }
  rewrite H0, H2, H4. clear H0 H2 H4.
  assert (Hsum : p mod 2 ^ 33 = ((p / 2 ^ 30) mod 8) * 2 ^ 30 + (p .>> 22 .& 0xFF) * 2 ^ 22 +
    ((p / 2 ^ 15) mod 128) * 2 ^ 15 + (p .>> 7 .& 0xFF) * 2 ^ 7 + p mod 128).
  { bits_arith. change (2 ^ 30) with 1073741824. change (2 ^ 15) with 32768. change (2 ^ 33) with 8589934592.
    change (2 ^ 22) with 4194304. change (2 ^ 7) with 128. div_lia. }
  rewrite Hsum. clear Hsum.
  assert (0 <= (p / 2 ^ 30) mod 8 < 8) as Ha by (apply Z.mod_pos_bound; lia).
  assert (0 <= p .>> 22 .& 0xFF < 256) as Hb by (bits_arith; div_lia).
  assert (0 <= (p / 2 ^ 15) mod 128 < 128) as Hc by (apply Z.mod_pos_bound; lia).
  assert (0 <= p .>> 7 .& 0xFF < 256) as Hd by (bits_arith; div_lia).
  assert (0 <= p mod 128 < 128) as He by (apply Z.mod_pos_bound; lia).
  revert Ha Hb Hc Hd He. generalize ((p / 2 ^ 30) mod 8), (p .>> 22 .& 0xFF), ((p / 2 ^ 15) mod 128), (p .>> 7 .& 0xFF), (p mod 128).
  clear p. intros a b c d e Ha Hb Hc Hd He. rewrite !Z.shiftl_mul_pow2 by done.
  change (2 ^ 30) with 1073741824. change (2 ^ 15) with 32768. change (2 ^ 22) with 4194304. change (2 ^ 7) with 128.
  rewrite (lor_add (a * 1073741824) (b * 4194304) 30) by div_lia.
  rewrite (lor_add _ (c * 32768) 22) by div_lia.
  rewrite (lor_add _ (d * 128) 15) by div_lia.
  rewrite (lor_add _ e 7) by div_lia. done.
Qed.

Lemma extract_data_pes stream_id b ts x :
  0 <= ts ->
  extract_pes_payload (data_header stream_id b ts ++ x) true =
  Ok (Some {| pes_data := x; pes_pts := Some (pes_clock ts); pes_dts := None |}).
Proof.
  intros Ht.
  assert (exists t0 t1 t2 t3 t4, write_pts 0x21 (ts * 90) = [t0; t1; t2; t3; t4] /\
    parse_pes_timestamp [t0; t1; t2; t3; t4] = Some (pes_clock ts)) as (t0 & t1 & t2 & t3 & t4 & Hw & Hp).
  { do 5 eexists. split; [reflexivity|]. by apply write_pts_read. }
  unfold data_header, build_data_pes_raw. rewrite Hw. cbn [take app].
  unfold extract_pes_payload, timestamp_at. cbn [negb length Nat.ltb Nat.leb Nat.add].
  cbn [idx lookup list_lookup mbind outcome_bind]. cbn [Z.eqb Pos.eqb negb orb].
  change ((0x80 .>> 6) .& 0x03) with 2. cbn [Z.eqb Pos.eqb orb]. change (9 + Z.to_nat 5)%nat with 14%nat.
  change (Z.to_nat 5) with 5%nat. cbn [Nat.add Nat.ltb Nat.leb drop take app length]. rewrite !take_0, Hp.
  rewrite slice_ok by (cbn [length]; lia). cbn [mbind outcome_bind drop].
  rewrite drop_0. cbn [app]. rewrite take_ge by lia. done.
Qed.

(** What arrives of a unit's payload: the demuxer drops a last packet that
    carries fewer than four bytes. *)
Definition ts_lost (rand : bool) (n : nat) : nat := dropped (14 + n - first_len rand (14 + n)).
Definition ts_received (rand : bool) (b : bytes) : bytes := take (length b - ts_lost rand (length b)) b.

Lemma data_unit_parts rand stream_id b ts :
  b <> [] ->
  exists k, ts_parts rand (build_data_pes_raw stream_id b ts) =
      (data_header stream_id b ts ++ take k b) :: chunks 184 (drop k b) /\
    take k b ++ kept (chunks 184 (drop k b)) = ts_received rand b.
Proof.
  intros Hb. assert (0 < length b)%nat by (destruct b; simpl; [done|lia]).
  destruct (data_pes_split stream_id b ts) as [Hs Hl].
  assert (Hlen : length (build_data_pes_raw stream_id b ts) = (14 + length b)%nat) by (rewrite Hs, length_app, Hl; done).
  set (f := first_len rand (14 + length b)).
  assert (Hf : (14 <= f <= 14 + length b)%nat).
  { unfold f, first_len. destruct (Nat.ltb_spec (14 + length b) 184); [lia|]. destruct rand; lia. }
  exists (f - 14)%nat. unfold ts_parts. rewrite Hlen. fold f. rewrite Hs.
  rewrite take_app, drop_app, Hl. rewrite (take_ge (data_header _ _ _)), (drop_ge (data_header _ _ _)) by lia.
  split; [done|]. rewrite kept_chunks, take_take_drop, length_drop. unfold ts_received, ts_lost. fold f. f_equal.
  replace (14 + length b - f)%nat with (length b - (f - 14))%nat by lia.
  assert (dropped (length b - (f - 14)) <= length b - (f - 14))%nat; [|lia].
  unfold dropped. destruct (_ <? 4)%nat; [apply Nat.Div0.mod_le|lia].
Qed.

Lemma header_len_4 stream_id b ts x : (length (data_header stream_id b ts ++ x) <? 4)%nat = false.
Proof. done. Qed.

Lemma header_nonempty stream_id b ts x : data_header stream_id b ts ++ x <> [].
Proof. done. Qed.

(** A video access unit: the previous one is published. *)
Lemma video_unit rand cont b ts pkts c vc fb :
  carries VIDEO_PID true cont (ts_parts rand (build_data_pes_raw 0xE0 b ts)) pkts ->
  b <> [] -> 0 <= ts -> ready c vc ->
  let '(frames, fb') :=
    match video_accum c with
    | [] => ([], fb)
    | _ :: _ => publish_video (video_accum c) (ctx_video_codec c) (video_pts c) (video_dts c) fb
    end in
  demux_all pkts c fb =
  Ok (set_video c (ts_received rand b) (Some (pes_clock ts)) (Some (pes_clock ts)), frames, fb').
Proof.
  intros Hc Hb Ht Hr. destruct (data_unit_parts rand 0xE0 b ts Hb) as (k & Hp & Hk). rewrite Hp in Hc.
  apply carries_cons_inv in Hc as (adapt & pkts' & -> & Had & Hc').
  set (m := match video_accum c with [] => _ | _ :: _ => _ end). destruct m as [frames fb'] eqn:Hm.
  cbn [demux_all]. rewrite demux_packet by (done || unfold pid_ok, VIDEO_PID; lia). rewrite header_len_4.
  rewrite (route_video c vc) by (done || apply header_nonempty). unfold video_payload.
  rewrite extract_data_pes by done. cbn [mbind outcome_bind pes_data pes_pts pes_dts or_else].
  fold m. rewrite Hm. cbn [mbind outcome_bind].
  rewrite (video_continuation _ _ _ _ vc _ Hc') by (by apply ready_set_video).
  cbn [mbind outcome_bind]. rewrite app_nil_r. cbn [video_accum set_video]. by rewrite Hk.
Qed.

Lemma audio_unit rand cont b ts pkts c vc fb :
  carries AUDIO_PID true cont (ts_parts rand (build_data_pes_raw 0xC0 b ts)) pkts ->
  b <> [] -> 0 <= ts -> ready c vc ->
  let '(frames, fb') :=
    match audio_accum c with
    | [] => ([], fb)
    | _ :: _ => publish_audio (audio_accum c) (audio_pts c) (audio_dts c) fb
    end in
  demux_all pkts c fb =
  Ok (set_audio c (ts_received rand b) (Some (pes_clock ts)) (Some (pes_clock ts)), frames, fb').
Proof.
  intros Hc Hb Ht Hr. destruct (data_unit_parts rand 0xC0 b ts Hb) as (k & Hp & Hk). rewrite Hp in Hc.
  apply carries_cons_inv in Hc as (adapt & pkts' & -> & Had & Hc').
  set (m := match audio_accum c with [] => _ | _ :: _ => _ end). destruct m as [frames fb'] eqn:Hm.
  cbn [demux_all]. rewrite demux_packet by (done || unfold pid_ok, AUDIO_PID; lia). rewrite header_len_4.
  rewrite (route_audio c vc) by (done || apply header_nonempty). unfold audio_payload.
  rewrite extract_data_pes by done. cbn [mbind outcome_bind pes_data pes_pts pes_dts or_else].
  fold m. rewrite Hm. cbn [mbind outcome_bind].
  rewrite (audio_continuation _ _ _ _ vc _ Hc') by (by apply ready_set_audio).
  cbn [mbind outcome_bind]. rewrite app_nil_r. cbn [audio_accum set_audio]. by rewrite Hk.
Qed.

(** ** The tables *)

Definition table_codec (c : option CodecId) : CodecId := match c with Some H265 => H265 | _ => H264 end.

(** The two packets, and the context after them. *)
Definition table_packets (t : Z) : list bytes :=
  [(write_ts_packet PAT_PID (0x00 :: with_crc pat_section) true 0).1;
   (write_ts_packet PMT_PID (0x00 :: with_crc (pmt_section t)) true 0).1].

Definition table_context (vc : CodecId) : TsContext :=
  set_pids context_new (Some VIDEO_PID) (Some vc) (Some AUDIO_PID) (Some PMT_PID).

Lemma tables_h264 fb :
  demux_all (table_packets 0x1B) context_new fb = Ok (table_context H264, [], fb).
Proof. vm_compute. reflexivity. Qed.

Lemma tables_h265 fb :
  demux_all (table_packets 0x24) context_new fb = Ok (table_context H265, [], fb).
Proof. vm_compute. reflexivity. Qed.

Lemma tables_aligned t : Forall aligned (table_packets t).
Proof.
  assert (H : forall pid l, aligned (write_ts_packet pid l true 0).1).
  { intros pid l. split; [|done]. unfold write_ts_packet. cbn [fst]. rewrite length_app.
    change (length (ts_header pid true 0x10 0)) with 4%nat. unfold fill_packet, TS_PACKET_SIZE.
    rewrite length_take, length_app, length_replicate. lia. }
  repeat apply Forall_cons_2; try apply H. apply Forall_nil_2.
Qed.

Lemma tables_read (c : option CodecId) fb :
  demux_all (table_packets (video_stream_type c)) context_new fb = Ok (table_context (table_codec c), [], fb).
Proof.
  assert (Hc : (video_stream_type c = 0x24 /\ table_codec c = H265) \/ (video_stream_type c = 0x1B /\ table_codec c = H264))
    by (destruct c as [[]|]; auto).
  destruct Hc as [[-> ->]|[-> ->]]; [exact (tables_h265 fb)|exact (tables_h264 fb)].
Qed.

Lemma write_tables t :
  exists w, write_pat_pmt writer_new t = (w, concat (table_packets t)).
Proof. unfold write_pat_pmt, table_packets, write_ts_packet. cbn [fst concat]. rewrite app_nil_r. by eexists. Qed.

(** ** A stream of samples *)

(** The bytes of a frame that go into its PES. *)
Definition ts_payload (f : MediaFrame) : bytes :=
  match frame_type f with
  | Video => match video_sample_annex_b f with Ok b => b | _ => [] end
  | _ => data f
  end.

(** A frame that carries media: a video sample the muxer can convert, or an
    ADTS frame; its timestamps fit the clocks of the format. *)
Record ts_sample (f : MediaFrame) : Prop := {
  sample_timestamp : 0 <= timestamp f /\ timestamp f * 90 < 2 ^ 33;
  sample_dts : 0 <= dts f /\ dts f * 27000 < 2 ^ 64;
  sample_media :
    match frame_type f with
    | Video => is_video_config f = false /\ video_sample_annex_b f = Ok (ts_payload f) /\
               (4 <= length (ts_payload f))%nat
    | Audio => codec f = AAC /\ payload_format f = PfAdts /\ config_frame f = false /\
               (7 <= length (data f))%nat /\ is_adts_sync (data f) = true
    | Metadata => False
    end
}.

(** What the demuxer publishes of it. *)
Definition ts_published (vc : CodecId) (f : MediaFrame) : MediaFrame :=
  let ts := timestamp f in
  match frame_type f with
  | Video =>
      let b := ts_received (key_frame f) (ts_payload f) in
      with_payload_format (new_video 0 vc ts ts ts b (ts_is_keyframe b vc)) PfAnnexB
  | _ => with_payload_format (new_audio 0 AAC ts ts ts (ts_received false (ts_payload f))) PfAdts
  end.

Lemma ts_lost_le rand n : (ts_lost rand n <= 3)%nat.
Proof. unfold ts_lost, dropped. destruct (Nat.ltb_spec ((14 + n - first_len rand (14 + n)) mod 184) 4); lia. Qed.

Lemma ts_lost_short rand n : (n < 170)%nat -> ts_lost rand n = 0%nat.
Proof.
  intros Hn. unfold ts_lost, first_len. rewrite (proj2 (Nat.ltb_lt _ _)) by lia. by rewrite Nat.sub_diag.
Qed.

Lemma length_ts_received rand b : (length b `min` 160 <= length (ts_received rand b))%nat.
Proof.
  unfold ts_received. rewrite length_take. pose proof (ts_lost_le rand (length b)).
  destruct (decide (length b < 170)%nat); [rewrite ts_lost_short by done|]; lia.
Qed.

Lemma ts_received_sync rand b :
  (7 <= length b)%nat -> is_adts_sync (ts_received rand b) = is_adts_sync b.
Proof.
  intros Hb. pose proof (length_ts_received rand b) as Hl. unfold ts_received in *. revert Hl.
  generalize (length b - ts_lost rand (length b))%nat as k. intros k Hl. rewrite length_take in Hl.
  destruct b as [|b0 [|b1 b]]; cbn [length] in *; try lia. by destruct k as [|[|k]]; [lia|lia|].
Qed.

Lemma sample_clock ts fb :
  0 <= ts -> ts * 90 < 2 ^ 33 ->
  media_timestamps (Some (pes_clock ts)) (Some (pes_clock ts)) fb = ((ts, ts, ts), ts).
Proof.
  intros H0 H1. unfold media_timestamps, pes_clock. cbn [fmap option_fmap option_map or_else].
  rewrite Z.mod_small by lia. unfold clock_ms.
  assert (Z.min (ts * 90 * 1000) (2 ^ 64 - 1) / 90000 = ts) as ->.
  { rewrite Z.min_l by lia. replace (ts * 90 * 1000) with (ts * 90000) by lia. by apply Z.div_mul. }
  unfold u32. rewrite Z.mod_small by lia. done.
Qed.

(** The frames a flush of the video or audio accumulator publishes. *)
Definition held_video (c : TsContext) (fb : Z) : list MediaFrame * Z :=
  match video_accum c with
  | [] => ([], fb)
  | _ :: _ => publish_video (video_accum c) (ctx_video_codec c) (video_pts c) (video_dts c) fb
  end.
Definition held_audio (c : TsContext) (fb : Z) : list MediaFrame * Z :=
  match audio_accum c with
  | [] => ([], fb)
  | _ :: _ => publish_audio (audio_accum c) (audio_pts c) (audio_dts c) fb
  end.

(** The demuxer is past the tables and holds the frames [pv] and [pa]. *)
Record holding (vc : CodecId) (c : TsContext) (pv pa : list MediaFrame) : Prop := {
  holding_ready : ready c vc;
  holding_video fb : (held_video c fb).1 = pv;
  holding_audio fb : (held_audio c fb).1 = pa
}.

Lemma held_video_sample vc c f fb :
  ts_sample f -> frame_type f = Video -> ready c vc ->
  (held_video (set_video c (ts_received (key_frame f) (ts_payload f)) (Some (pes_clock (timestamp f)))
     (Some (pes_clock (timestamp f)))) fb).1 = [ts_published vc f].
Proof.
  intros [[H0 H1] _ Hm] Hv [_ _ _ Hc]. rewrite Hv in Hm. destruct Hm as (_ & _ & Hl).
  unfold held_video, ts_published. rewrite Hv. cbn [video_accum set_video video_pts video_dts ctx_video_codec].
  pose proof (length_ts_received (key_frame f) (ts_payload f)) as Hr.
  destruct (ts_received (key_frame f) (ts_payload f)) as [|x l] eqn:Hx; [cbn [length] in Hr; lia|].
  unfold publish_video. rewrite (proj2 (Nat.ltb_ge _ _)) by lia. rewrite Hc, sample_clock by done. done.
Qed.

Lemma held_audio_sample c f fb :
  ts_sample f -> frame_type f = Audio ->
  (held_audio (set_audio c (ts_received false (ts_payload f)) (Some (pes_clock (timestamp f)))
     (Some (pes_clock (timestamp f)))) fb).1 = [ts_published H264 f].
Proof.
  intros [[H0 H1] _ Hm] Hv. rewrite Hv in Hm. destruct Hm as (_ & _ & _ & Hl & Hs).
  unfold held_audio, ts_published, ts_payload. rewrite Hv. cbn [audio_accum set_audio audio_pts audio_dts].
  pose proof (length_ts_received false (data f)) as Hr.
  pose proof (ts_received_sync false (data f) Hl) as Hy. rewrite Hs in Hy.
  destruct (ts_received false (data f)) as [|x l] eqn:Hx; [cbn [length] in Hr; lia|].
  unfold publish_audio. rewrite (proj2 (Nat.ltb_ge _ _)) by lia. rewrite Hy, sample_clock by done. done.
Qed.

(** The muxer after its tables, when no configuration frame was pushed. *)
Definition bare (m : TsLiveMuxer) : Prop := video_config_data m = None /\ audio_config_data m = None.

(** The PES of a sample. *)
Definition sample_unit (f : MediaFrame) : PesUnit :=
  match frame_type f with
  | Video => {| unit_pid := VIDEO_PID; unit_pes := build_data_pes_raw 0xE0 (ts_payload f) (timestamp f);
                unit_random := key_frame f; unit_dts := dts f |}
  | _ => {| unit_pid := AUDIO_PID; unit_pes := build_data_pes_raw 0xC0 (ts_payload f) (timestamp f);
            unit_random := false; unit_dts := dts f |}
  end.

(** The packets of one frame, written by a started muxer. *)
Lemma sample_units m f :
  ts_sample f -> bare m ->
  exists m1, capture_config m f = Ok m1 /\ bare m1 /\ started m1 = started m /\ writer m1 = writer m /\
    live_video_codec m1 = (if bool_decide (frame_type f = Video) then Some (codec f) else live_video_codec m) /\
    forall m2, bare m2 -> frame_pes_units m2 f = Ok (m2, [sample_unit f]).
Proof.
  intros [_ _ Hm] [Hv Ha]. unfold capture_config, frame_pes_units, sample_unit. destruct (frame_type f) eqn:Hf; [| |done].
  - destruct Hm as (Hc & Hb & Hl). rewrite Hc. eexists. split; [reflexivity|]. split_and!; try done.
    intros m2 [Hv2 _]. unfold video_units. rewrite Hv2.
    destruct (video_config_sent m2); rewrite Hc, Hb; cbn [unwrap_or_default mbind outcome_bind app];
      destruct (ts_payload f); simpl in Hl; (lia || done).
  - destruct Hm as (Hc & Hp & Hn & Hl & Hs).
    assert (is_aac_config f = false) as Hcfg by (unfold is_aac_config, is_flv_or_unknown; by rewrite Hn, Hp).
    rewrite Hcfg. exists m. split; [reflexivity|]. split_and!; try done.
    intros m2 [_ Ha2]. unfold audio_units, aac_frame_to_adts, ts_payload. rewrite Ha2, Hf.
    destruct (audio_config_sent m2); rewrite Hcfg, Hn, (bool_decide_eq_true_2 _ Hc), (bool_decide_eq_true_2 _ Hp);
      cbn [negb orb mbind outcome_bind app]; destruct (data f); simpl in Hl; (lia || done).
Qed.

(** Which frames of a list are held as video and which as audio. *)
Definition videos (l : list MediaFrame) : list MediaFrame := List.filter (fun f => bool_decide (frame_type f = Video)) l.
Definition audios (l : list MediaFrame) : list MediaFrame := List.filter (fun f => bool_decide (frame_type f = Audio)) l.

Lemma videos_app l l' : videos (l ++ l') = videos l ++ videos l'.
Proof. apply List.filter_app. Qed.
Lemma audios_app l l' : audios (l ++ l') = audios l ++ audios l'.
Proof. apply List.filter_app. Qed.

(** The frames held are of their kind. *)
Definition kinds_ok (pv pa : list MediaFrame) : Prop :=
  videos pv = pv /\ audios pv = [] /\ videos pa = [] /\ audios pa = pa.

Lemma write_pes_unit w u :
  0 <= unit_dts u -> unit_dts u * 27000 < 2 ^ 64 -> unit_pid u = VIDEO_PID \/ unit_pid u = AUDIO_PID ->
  unit_pes u <> [] ->
  exists w' cont pkts, carries (unit_pid u) true cont (ts_parts (unit_random u) (unit_pes u)) pkts /\
    write_units w [u] = Ok (w', concat pkts).
Proof.
  intros H0 H1 Hp Hne. cbn [write_units]. unfold write_pes. rewrite (proj2 (Z.ltb_lt _ _) H1). cbn [negb].
  destruct Hp as [Hp|Hp]; rewrite Hp; unfold VIDEO_PID, AUDIO_PID; cbn [Z.eqb Pos.eqb].
  - destruct (write_pes_packets 0x0100 _ (unit_random u) (continuity_video w) (unit_dts u * 27000) Hne) as (pkts & Hc & ->).
    cbn [mbind outcome_bind]. rewrite app_nil_r. by do 3 eexists.
  - destruct (write_pes_packets 0x0101 _ (unit_random u) (continuity_audio w) (unit_dts u * 27000) Hne) as (pkts & Hc & ->).
    cbn [mbind outcome_bind]. rewrite app_nil_r. by do 3 eexists.
Qed.

(** The demuxer's side of one frame. *)
Lemma sample_demuxed vc f w c pv pa fb :
  ts_sample f -> holding vc c pv pa -> kinds_ok pv pa ->
  exists w' pkts c' l fb' pv' pa',
    write_units w [sample_unit f] = Ok (w', concat pkts) /\
    Forall aligned pkts /\ demux_all pkts c fb = Ok (c', l, fb') /\ holding vc c' pv' pa' /\ kinds_ok pv' pa' /\
    videos l ++ pv' = pv ++ videos [ts_published vc f] /\ audios l ++ pa' = pa ++ audios [ts_published vc f].
Proof.
  intros Hs [Hr Hv Ha] (K1 & K2 & K3 & K4). pose proof (sample_timestamp _ Hs) as [H0 _]. pose proof (sample_dts _ Hs) as [H1 H2].
  pose proof (sample_media _ Hs) as Hm. unfold sample_unit. destruct (frame_type f) eqn:Hf; [| |done].
  - destruct Hm as (_ & _ & Hl). assert (Hne : ts_payload f <> []) by (intros E; rewrite E in Hl; simpl in Hl; lia).
    match goal with |- context [write_units w [?u]] => destruct (write_pes_unit w u) as (w' & cont & pkts & Hc & ->);
      [done|done|by left|done|] end.
    cbn [unit_pid unit_pes unit_random] in Hc. pose proof (carries_aligned _ _ _ _ _ Hc) as Hal.
    pose proof (video_unit _ _ _ _ _ _ _ fb Hc Hne H0 Hr) as Hd. fold (held_video c fb) in Hd.
    destruct (held_video c fb) as [frames fb'] eqn:Hh. pose proof (Hv fb) as Hvf. rewrite Hh in Hvf. cbn in Hvf. subst frames.
    exists w', pkts. eexists _, pv, fb', [ts_published vc f], pa.
    split_and!; [done|done|exact Hd| | |..].
    + split; [by apply ready_set_video| |done]. intros fb0. by apply held_video_sample.
    + unfold kinds_ok, ts_published. rewrite Hf. done.
    + rewrite K1. f_equal. unfold ts_published. by rewrite Hf.
    + rewrite K2. unfold ts_published. rewrite Hf. cbn. by rewrite app_nil_r.
  - destruct Hm as (_ & _ & _ & Hl & _). assert (Hpd : ts_payload f = data f) by (unfold ts_payload; by rewrite Hf).
    assert (Hne : ts_payload f <> []) by (rewrite Hpd; intros E; rewrite E in Hl; simpl in Hl; lia).
    match goal with |- context [write_units w [?u]] => destruct (write_pes_unit w u) as (w' & cont & pkts & Hc & ->);
      [done|done|by right|done|] end.
    cbn [unit_pid unit_pes unit_random] in Hc. pose proof (carries_aligned _ _ _ _ _ Hc) as Hal.
    pose proof (audio_unit _ _ _ _ _ _ _ fb Hc Hne H0 Hr) as Hd. fold (held_audio c fb) in Hd.
    destruct (held_audio c fb) as [frames fb'] eqn:Hh. pose proof (Ha fb) as Haf. rewrite Hh in Haf. cbn in Haf. subst frames.
    exists w', pkts. eexists _, pa, fb', pv, [ts_published vc f].
    assert (Hp : ts_published vc f = ts_published H264 f) by (unfold ts_published; by rewrite Hf).
    split_and!; [done|done|exact Hd| | |..].
    + split; [by apply ready_set_audio|done|]. intros fb0. rewrite Hp. by apply held_audio_sample.
    + unfold kinds_ok, ts_published. rewrite Hf. done.
    + rewrite K3. unfold ts_published. rewrite Hf. cbn. by rewrite app_nil_r.
    + rewrite K4. f_equal. unfold ts_published. by rewrite Hf.
Qed.

Fixpoint push_frames (m : TsLiveMuxer) (fs : list MediaFrame) : result (TsLiveMuxer * bytes) :=
  match fs with
  | [] => Ok (m, [])
  | f :: fs =>
      '(m, out) ← push_frame m f;
      '(m, rest) ← push_frames m fs;
      Ok (m, out ++ rest)
  end.

Lemma bare_set_writer m w : bare m -> bare (set_writer m w).
Proof. done. Qed.

Lemma stream_demuxed vc fs m c pv pa fb :
  Forall ts_sample fs -> bare m -> started m = true -> holding vc c pv pa -> kinds_ok pv pa ->
  exists m' pkts c' l fb' pv' pa',
    push_frames m fs = Ok (m', concat pkts) /\ Forall aligned pkts /\ demux_all pkts c fb = Ok (c', l, fb') /\
    holding vc c' pv' pa' /\ kinds_ok pv' pa' /\
    videos l ++ pv' = pv ++ videos (ts_published vc <$> fs) /\
    audios l ++ pa' = pa ++ audios (ts_published vc <$> fs).
Proof.
  intros Hfs. revert m c pv pa fb. induction Hfs as [|f fs Hf Hfs IH]; intros m c pv pa fb Hb Hst Hh Hk.
  { exists m, [], c, [], fb, pv, pa. cbn. rewrite !app_nil_r. done. }
  destruct (sample_units m f Hf Hb) as (m1 & Hcap & Hb1 & Hs1 & Hw1 & _ & Hu).
  destruct (sample_demuxed vc f (writer m1) c pv pa fb Hf Hh Hk) as
    (w' & pk1 & c1 & l1 & fb1 & pv1 & pa1 & Hw & Ha1 & Hd1 & Hh1 & Hk1 & Hv1 & Hau1).
  destruct (IH (set_writer m1 w') c1 pv1 pa1 fb1) as
    (m' & pk2 & c2 & l2 & fb2 & pv2 & pa2 & Hp2 & Ha2 & Hd2 & Hh2 & Hk2 & Hv2 & Hau2); [done|cbn; congruence|done|done|].
  exists m', (pk1 ++ pk2), c2, (l1 ++ l2), fb2, pv2, pa2.
  cbn [push_frames]. unfold push_frame. rewrite Hcap. cbn [mbind outcome_bind].
  unfold start_tables. rewrite Hs1, Hst. rewrite (Hu m1 Hb1). cbn [mbind outcome_bind].
  rewrite Hw. cbn [mbind outcome_bind app]. rewrite Hp2. cbn [mbind outcome_bind]. rewrite concat_app.
  split_and!; [done|by apply Forall_app|by eapply demux_all_app|done|done| |].
  - rewrite videos_app, <-app_assoc, Hv2, fmap_cons. change (ts_published vc f :: ?x) with ([ts_published vc f] ++ x).
    by rewrite videos_app, !app_assoc, Hv1.
  - rewrite audios_app, <-app_assoc, Hau2, fmap_cons. change (ts_published vc f :: ?x) with ([ts_published vc f] ++ x).
    by rewrite audios_app, !app_assoc, Hau1.
Qed.

(** The first frame also writes the tables; a video frame selects the type in them. *)
Definition first_codec (f : MediaFrame) : CodecId :=
  table_codec (if bool_decide (frame_type f = Video) then Some (codec f) else None).

Lemma first_push f :
  ts_sample f ->
  exists m1, bare m1 /\ started m1 = true /\ table_codec (live_video_codec m1) = first_codec f /\
    forall w wout, write_units (writer m1) [sample_unit f] = Ok (w, wout) ->
     push_frame live_new f = Ok (set_writer m1 w, concat (table_packets (video_stream_type (live_video_codec m1))) ++ wout).
Proof.
  intros Hf. destruct (sample_units live_new f Hf) as (m1 & Hcap & [Hv Ha] & Hs1 & Hw1 & Hc1 & Hu); [done|].
  unfold push_frame. rewrite Hcap. cbn [mbind outcome_bind]. unfold start_tables. rewrite Hs1. cbn [started live_new].
  rewrite Hw1. destruct (write_tables (video_stream_type (live_video_codec m1))) as (w0 & Hw0).
  change (writer live_new) with writer_new. rewrite Hw0. cbv iota beta.
  exists {| writer := w0; started := true; live_video_codec := live_video_codec m1;
            video_config_data := video_config_data m1; video_config_sent := video_config_sent m1;
            audio_config_data := audio_config_data m1; audio_config_sent := audio_config_sent m1 |}.
  split_and!; [split; [exact Hv|exact Ha]|reflexivity| |].
  - cbn [live_video_codec]. by rewrite Hc1.
  - intros w wout HW. match goal with |- context [frame_pes_units ?m f] => pose proof (Hu m (conj Hv Ha)) as HU end.
    rewrite HU. cbn [mbind outcome_bind]. rewrite HW. reflexivity.
Qed.

(** The frames the demuxer publishes while it reads and when it is flushed. *)
Definition ts_receive (reads : list bytes) : result (list MediaFrame) :=
  '(d, l) ← ts_feed_all demuxer_new reads;
  Ok (l ++ (ts_flush d).2).

Lemma flush_holding vc c pv pa d :
  holding vc c pv pa -> context d = c -> (ts_flush d).2 = pv ++ pa.
Proof.
  intros [_ Hv Ha] <-. unfold ts_flush, flush_ts_context.
  specialize (Hv (clock d)). unfold held_video, held_audio in *.
  destruct (video_accum (context d)) as [|x l].
  - cbn in Hv. subst pv. specialize (Ha (clock d)). destruct (audio_accum (context d)) as [|y l']; [cbn in *; by subst|].
    destruct (publish_audio _ _ _ _) as [fs fb]. cbn in *. by subst.
  - destruct (publish_video _ _ _ _ _) as [fs fb]. cbn in Hv. subst fs. specialize (Ha fb).
    cbn [audio_accum set_video audio_pts audio_dts].
    destruct (audio_accum (context d)) as [|y l']; [cbn in *; subst; by rewrite app_nil_r|].
    destruct (publish_audio _ _ _ _) as [fs fb']. cbn in *. by subst.
Qed.

(** C8: A transport stream written by the live muxer is read back by the SRT
    demuxer.  For any non-empty sequence of samples (video the muxer can
    convert to Annex-B, ADTS audio; timestamps below 2^33/90 ms) pushing the
    frames succeeds, and whatever way the output is cut into reads, the
    demuxer publishes every video sample and every audio sample exactly once
    and in order, with its timestamp, the codec announced in the tables and
    its bytes up to [ts_lost], which is at most three bytes and none for units
    below 170 bytes. *)
Theorem ts_live_round_trip (f : MediaFrame) (fs : list MediaFrame) (reads : list bytes) :
  Forall ts_sample (f :: fs) ->
  exists m out, push_frames live_new (f :: fs) = Ok (m, out) /\
    (concat reads = out ->
     exists got, ts_receive reads = Ok got /\
       videos got = videos (ts_published (first_codec f) <$> f :: fs) /\
       audios got = audios (ts_published (first_codec f) <$> f :: fs)) /\
    (forall rand n, (ts_lost rand n <= 3)%nat /\ ((n < 170)%nat -> ts_lost rand n = 0%nat)).
Proof.
  intros [Hf Hfs]%Forall_cons. destruct (first_push f Hf) as (m1 & Hb & Hst & Hcod & Hpush).
  set (vc := first_codec f) in *.
  assert (Hh0 : holding vc (table_context vc) [] []) by (by split; [split|..]).
  destruct (sample_demuxed vc f (writer m1) (table_context vc) [] [] 0 Hf Hh0) as
    (w' & pk1 & c1 & l1 & fb1 & pv1 & pa1 & Hw & Ha1 & Hd1 & Hh1 & Hk1 & Hv1 & Hau1); [done|].
  specialize (Hpush _ _ Hw).
  destruct (stream_demuxed vc fs (set_writer m1 w') c1 pv1 pa1 fb1 Hfs) as
    (m' & pk2 & c2 & l2 & fb2 & pv2 & pa2 & Hp2 & Ha2 & Hd2 & Hh2 & Hk2 & Hv2 & Hau2); [done|done|done|done|].
  eexists m', _. split; [|split; [|intros; split; [apply ts_lost_le|apply ts_lost_short]]].
  { cbn [push_frames]. rewrite Hpush. cbn [mbind outcome_bind]. rewrite Hp2. reflexivity. }
  intros Hr. rewrite <-!concat_app in Hr.
  pose proof (tables_read (live_video_codec m1) 0) as Ht. rewrite Hcod in Ht.
  pose proof (demux_all_app _ _ _ _ _ _ _ _ _ _ (demux_all_app _ _ _ _ _ _ _ _ _ _ Ht Hd1) Hd2) as Hall.
  assert (Hal : Forall aligned ((table_packets (video_stream_type (live_video_codec m1)) ++ pk1) ++ pk2)).
  { apply Forall_app; split; [apply Forall_app; split; [apply tables_aligned|exact Ha1]|exact Ha2]. }
  assert (Hshort : (length (pending demuxer_new) < TS_PACKET_SIZE)%nat) by (apply Nat.ltb_lt; reflexivity).
  pose proof (feed_packets reads demuxer_new _ _ _ _ Hal Hr Hshort Hall) as Hfeed.
  unfold ts_receive. rewrite Hfeed. cbn [mbind outcome_bind]. eexists. split; [reflexivity|].
  rewrite (flush_holding vc c2 pv2 pa2 {| pending := []; context := c2; clock := fb2 |} Hh2 eq_refl). destruct Hk2 as (K1 & K2 & K3 & K4).
  rewrite fmap_cons, (videos_app [ts_published vc f] _ : videos (_ :: _) = _),
    (audios_app [ts_published vc f] _ : audios (_ :: _) = _).
  rewrite !videos_app, !audios_app, K1, K2, K3, K4, app_nil_r. cbn [videos audios List.filter app] in Hv1, Hau1 |- *.
  rewrite <-!app_assoc, Hv2, Hau2, !app_assoc, Hv1, Hau1. split; reflexivity.
Qed.

(** A key frame, an ADTS frame and a 172-byte access unit that loses two bytes. *)
Definition sample_key : MediaFrame :=
  with_payload_format (new_video 0 H265 40 40 40 ([0; 0; 0; 1; 0x26; 1] ++ replicate 300 7) true) PfAnnexB.
Definition sample_adts : MediaFrame :=
  with_payload_format (new_audio 1 AAC 41 41 41 [0xFF; 0xF1; 0x50; 0x80; 1; 0x1F; 0xFC; 9]) PfAdts.
Definition sample_delta : MediaFrame :=
  with_payload_format (new_video 0 H265 80 80 80 ([0; 0; 0; 1; 2; 1] ++ replicate 166 7) false) PfAnnexB.

Lemma ts_live_round_trip_witness :
  Forall ts_sample [sample_key; sample_adts; sample_delta] /\
  exists m out, push_frames live_new [sample_key; sample_adts; sample_delta] = Ok (m, out).
Proof.
  assert (H : Forall ts_sample [sample_key; sample_adts; sample_delta]).
  { repeat (apply Forall_cons_2; [split; vm_compute; repeat split; first [reflexivity | discriminate | lia]|]).
    apply Forall_nil_2. }
  split; [exact H|].
  destruct (ts_live_round_trip sample_key [sample_adts; sample_delta] [] H) as (m & out & Hp & _).
  exists m, out. exact Hp.
Defined.

(** What the SRT demuxer loses of a unit.  A unit whose last transport
    packet carries one to three payload bytes arrives without them (a unit of
    171 to 173 bytes, and every 184 bytes further), and an H.265 access unit
    that opens with a four-byte start code, which is what the muxer writes, is
    never recognised as a key frame. *)
Theorem ts_demux_defects (k r : nat) (nal : bytes) :
  (1 <= r <= 3)%nat ->
  ts_lost false (170 + 184 * k + r) = r /\
  ts_is_keyframe ([0; 0; 0; 1] ++ nal) H265 = false.
Proof.
  intros Hr. split; [|by cbn].
  unfold ts_lost, first_len. rewrite (proj2 (Nat.ltb_ge _ _)) by lia.
  replace (14 + (170 + 184 * k + r) - 184)%nat with (r + k * 184)%nat by lia.
  unfold dropped. rewrite Nat.Div0.mod_add, Nat.mod_small by lia. by rewrite (proj2 (Nat.ltb_lt _ _)) by lia.
Qed.

Lemma ts_demux_defects_witness : ts_lost false 172 = 2%nat.
Proof. apply (ts_demux_defects 0 2 []). lia. Defined.
