(* ===== verification/Bmff.v ===== *)
(** * Bmff: ISO base media file format boxes

    The box writer of [mp4/src/fmp4.rs] ([make_box]) and the box reader of
    [mp4/src/fragmented_demuxer.rs] ([boxes], [child], [descendant]), with the
    lemma that connects them: a buffer written as a sequence of boxes is read
    back as views that locate the boxes' contents. *)

From S2P Require Import Prelude Frame.
Open Scope Z_scope.

(** [b"..."]. *)
Definition ascii_bytes (s : string) : bytes :=
  (fun a => Z.of_N (Ascii.N_of_ascii a)) <$> String.list_ascii_of_string s.

(** [8 + data.len() as u32]: the addition wraps in release builds. *)
Definition make_box (box_type data : bytes) : bytes :=
  to_be 4 (u32 (8 + u32 (zlen data))) ++ box_type ++ data.

(** [data.get(i..j)]. *)
Definition get_range {A} (data : list A) (i j : nat) : option (list A) :=
  if (i <=? j)%nat && (j <=? length data)%nat then Some (take (j - i) (drop i data)) else None.

Definition read_u32 (data : bytes) (offset : nat) : result Z :=
  match get_range data offset (offset + 4) with
  | Some b => Ok (from_be b)
  | None => Err (Anyhow "truncated ISO BMFF u32")
  end.

Definition read_u64 (data : bytes) (offset : nat) : result Z :=
  match get_range data offset (offset + 8) with
  | Some b => Ok (from_be b)
  | None => Err (Anyhow "truncated ISO BMFF u64")
  end.

Record BoxView : Type := {
  kind : bytes;
  view_start : nat;
  data_start : nat;
  view_end : nat
}.

(** One turn of the [while].  A 64-bit box size is kept as a [Z] until it is
    compared: [offset + size] overflows [usize] for sizes near 2^64. *)
Definition boxes_step (data : bytes) (end_ : nat) (st : nat * list BoxView) :
    result (nat * list BoxView + list BoxView) :=
  let '(offset, res) := st in
  if (offset + 8 <=? end_)%nat then
    size32 ← read_u32 data offset;
    k ← slice data (offset + 4) (offset + 8);
    '(header, size) ←
      (if size32 =? 0 then Ok (8%nat, Z.of_nat (end_ - offset))
       else if size32 =? 1 then size64 ← read_u64 data (offset + 8); Ok (16%nat, size64)
       else Ok (8%nat, size32));
    if size <? Z.of_nat header then Err (Anyhow "invalid ISO BMFF box size") else
    if 2 ^ 64 <=? Z.of_nat offset + size then Panic else
    if Z.of_nat end_ <? Z.of_nat offset + size then Err (Anyhow "invalid ISO BMFF box size") else
    let next := (offset + Z.to_nat size)%nat in
    Ok (inl (next, res ++ [{| kind := k; view_start := offset; data_start := (offset + header)%nat; view_end := next |}]))
  else Ok (inr res).

Definition boxes (data : bytes) (start end_ : nat) : result (list BoxView) :=
  loop (S (length data)) (boxes_step data end_) (start, []).

Definition find_kind (k : bytes) (l : list BoxView) : option BoxView :=
  List.find (fun v => bool_decide (kind v = k)) l.

Definition child (data : bytes) (parent : BoxView) (k : bytes) : result (option BoxView) :=
  l ← boxes data (data_start parent) (view_end parent);
  Ok (find_kind k l).

Fixpoint descendant (data : bytes) (parent : BoxView) (path : list bytes) : result (option BoxView) :=
  match path with
  | [] => Ok (Some parent)
  | k :: path =>
      next ← child data parent k;
      match next with
      | None => Ok None
      | Some next => descendant data next path
      end
  end.

(** The contents of a view, [&data[v.data_start..v.end]]. *)
Definition view_data (data : bytes) (v : BoxView) : result bytes := slice data (data_start v) (view_end v).

(** ** Arbitrary input *)

(** Adjacent boxes from [start] on, each inside [end_]. *)
Fixpoint chained (start end_ : nat) (vs : list BoxView) : Prop :=
  match vs with
  | [] => True
  | v :: vs =>
      view_start v = start /\ (start + 8 <= data_start v <= view_end v)%nat /\ (view_end v <= end_)%nat /\
      chained (view_end v) end_ vs
  end.

Lemma chained_snoc start end_ vs v :
  chained start end_ vs -> view_start v = from_option view_end start (last vs) ->
  (view_start v + 8 <= data_start v <= view_end v)%nat -> (view_end v <= end_)%nat -> chained start end_ (vs ++ [v]).
Proof.
  revert start. induction vs as [|x vs IH]; intros start Hc Hs Hd He; cbn [chained app last from_option] in *.
  { subst. done. }
  destruct Hc as (H1 & H2 & H3 & Hc). split_and!; [done|lia|lia|done|]. apply IH; [done| |done|done].
  rewrite Hs. destruct vs as [|y vs]; [done|]. change (last (x :: y :: vs)) with (last (y :: vs)).
  destruct (last (y :: vs)) eqn:E; [done|]. by apply last_None in E.
Qed.

(** The overflow of [offset + size]: only a 64-bit size can cause it. *)
Definition size_overflow (data : bytes) : Prop :=
  exists offset size, read_u64 data (offset + 8) = Ok size /\ 2 ^ 64 <= Z.of_nat offset + size.

(** What reading the range may return. *)
Definition boxes_post (data : bytes) (start end_ : nat) (r : result (list BoxView)) : Prop :=
  match r with
  | Ok vs => chained start end_ vs /\ (end_ < from_option view_end start (last vs) + 8)%nat
  | Err e => e = Anyhow "invalid ISO BMFF box size" \/ e = Anyhow "truncated ISO BMFF u64"
  | Panic => size_overflow data
  | NoFuel => False
  end.

(** C35: Box reading on arbitrary bytes.  It terminates; the boxes it returns
    are adjacent, lie inside the range and have their contents inside
    themselves; an error is returned for impossible sizes; and the only panic
    is the overflow of [offset + size] for a 64-bit size. *)
Theorem bmff_reader_bounds (data : bytes) (start end_ : nat) :
  (start <= end_)%nat -> (end_ <= length data)%nat -> Z.of_nat (length data) < 2 ^ 63 -> bytes_ok data ->
  boxes_post data start end_ (boxes data start end_).
Proof.
  intros Hse He H63 Hok. unfold boxes.
  assert (forall fuel offset res, (end_ - offset < fuel)%nat -> chained start end_ res ->
    offset = from_option view_end start (last res) ->
    boxes_post data start end_ (loop fuel (boxes_step data end_) (offset, res))) as H; [|apply H; [lia|done|done]].
  induction fuel as [|fuel IH]; intros offset res Hf Hc Ho; [lia|]. cbn [loop]. unfold boxes_step at 1.
  destruct (Nat.leb_spec (offset + 8) end_); [|split; [done|rewrite <-Ho; lia]].
  unfold read_u32. unfold get_range at 1. rewrite (proj2 (Nat.leb_le _ _)), (proj2 (Nat.leb_le _ _)) by lia.
  cbn [mbind outcome_bind andb]. set (size32 := from_be _).
  assert (H32 : is_u32 size32).
  { unfold size32, is_u32. pose proof (from_be_bound (take (offset + 4 - offset) (drop offset data))) as Hb.
    unfold zlen in Hb. rewrite length_take, length_drop in Hb.
    replace ((offset + 4 - offset) `min` (length data - offset))%nat with 4%nat in Hb by lia.
    apply Hb. by apply bytes_ok_take, bytes_ok_drop. }
  clearbody size32. rewrite slice_ok by lia. cbn [mbind outcome_bind].
  assert (Hgo : forall h s, (8 <= h)%nat -> (s < 2 ^ 63 \/ size_overflow data \/ Z.of_nat offset + s < 2 ^ 64) ->
    boxes_post data start end_
      match
        (if s <? Z.of_nat h then Err (Anyhow "invalid ISO BMFF box size") else
         if 2 ^ 64 <=? Z.of_nat offset + s then Panic else
         if Z.of_nat end_ <? Z.of_nat offset + s then Err (Anyhow "invalid ISO BMFF box size") else
         Ok (inl ((offset + Z.to_nat s)%nat, res ++ [{| kind := take (offset + 8 - (offset + 4)) (drop (offset + 4) data);
           view_start := offset; data_start := (offset + h)%nat; view_end := (offset + Z.to_nat s)%nat |}])) : result (_ + list BoxView))
      with
      | Ok (inl s') => loop fuel (boxes_step data end_) s'
      | Ok (inr r) => Ok r
      | Err e => Err e
      | Panic => Panic
      | NoFuel => NoFuel
      end).
  { intros h s Hh Hov. destruct (Z.ltb_spec s (Z.of_nat h)); [by left|].
    destruct (Z.leb_spec (2 ^ 64) (Z.of_nat offset + s)); [destruct Hov as [?|[?|?]]; (done || lia)|].
    destruct (Z.ltb_spec (Z.of_nat end_) (Z.of_nat offset + s)); [by left|]. apply IH; [lia| |by rewrite last_snoc].
    apply chained_snoc; cbn [view_start data_start view_end]; (done || lia). }
  destruct (Z.eqb_spec size32 0); [apply Hgo; [lia|left; lia]|].
  destruct (Z.eqb_spec size32 1); [|apply Hgo; [lia|left; unfold is_u32 in *; lia]].
  destruct (read_u64 data (offset + 8)) as [s64| | |] eqn:Hr; cbn [mbind outcome_bind].
  - apply Hgo; [lia|]. destruct (Z.ltb_spec (Z.of_nat offset + s64) (2 ^ 64)); [by right; right|]. right; left.
    exists offset, s64. done.
  - unfold read_u64 in Hr. destruct (get_range _ _ _); [done|]. injection Hr as <-. by right.
  - unfold read_u64 in Hr. by destruct (get_range _ _ _).
  - unfold read_u64 in Hr. by destruct (get_range _ _ _).
Qed.

Lemma bmff_reader_bounds_witness :
  exists vs, boxes (make_box (ascii_bytes "free") [1; 2]) 0 10 = Ok vs /\ chained 0 10 vs.
Proof.
  pose proof (bmff_reader_bounds (make_box (ascii_bytes "free") [1; 2]) 0 10) as H.
  destruct (boxes (make_box (ascii_bytes "free") [1; 2]) 0 10) as [vs| | |] eqn:Hb; [|vm_compute in Hb; discriminate..].
  exists vs. split; [reflexivity|]. apply H.
  - lia.
  - vm_compute. lia.
  - vm_compute. reflexivity.
  - repeat (apply Forall_cons_2; [split; vm_compute; (discriminate || reflexivity)|]). apply Forall_nil_2.
Defined.

(** The panic is reachable: a 64-bit size of 2^64 - 1 behind another box. *)
Theorem bmff_size_overflow :
  boxes (make_box (ascii_bytes "styp") [] ++ to_be 4 1 ++ ascii_bytes "moof" ++ to_be 8 (2 ^ 64 - 1)) 0 24 = Panic.
Proof. vm_compute. reflexivity. Qed.

(** ** Reading what was written *)

(** A box: its four-character type and its contents. *)
Definition abox : Type := bytes * bytes.
Definition encode_box (b : abox) : bytes := make_box b.1 b.2.
Definition encode (bs : list abox) : bytes := concat (encode_box <$> bs).

Definition box_ok (b : abox) : Prop := length b.1 = 4%nat /\ 8 + zlen b.2 < 2 ^ 32.

Lemma length_make_box k d : length k = 4%nat -> length (make_box k d) = (8 + length d)%nat.
Proof. intros Hk. unfold make_box. rewrite !length_app, length_to_be, Hk. lia. Qed.

(** [v] locates contents [d] in [data]. *)
Record located (data : bytes) (v : BoxView) (d : bytes) : Prop := {
  loc_kind : length (kind v) = 4%nat;
  loc_data : data_start v = (view_start v + 8)%nat;
  loc_end : view_end v = (data_start v + length d)%nat;
  loc_split : exists pre post, data = pre ++ make_box (kind v) d ++ post /\ length pre = view_start v
}.

Lemma get_range_mid {A} (pre x post : list A) i j :
  i = length pre -> j = (i + length x)%nat -> get_range (pre ++ x ++ post) i j = Some x.
Proof.
  intros -> ->. unfold get_range. rewrite (proj2 (Nat.leb_le _ _)), (proj2 (Nat.leb_le _ _)) by (rewrite ?length_app; lia).
  cbn [andb]. rewrite drop_app_length, Nat.add_comm, Nat.add_sub, take_app_length. done.
Qed.

Lemma read_u32_at pre x post i :
  i = length pre -> is_u32 x -> read_u32 (pre ++ to_be 4 x ++ post) i = Ok x.
Proof.
  intros -> Hx. unfold read_u32. rewrite get_range_mid by (rewrite ?length_to_be; lia).
  by rewrite from_be_to_be_small.
Qed.

Lemma read_u64_at pre x post i :
  i = length pre -> is_u64 x -> read_u64 (pre ++ to_be 8 x ++ post) i = Ok x.
Proof.
  intros -> Hx. unfold read_u64. rewrite get_range_mid by (rewrite ?length_to_be; lia).
  by rewrite from_be_to_be_small.
Qed.

Lemma located_data data v d : located data v d -> view_data data v = Ok d.
Proof.
  intros [Hk Hd He (pre & post & -> & Hp)]. unfold view_data, make_box.
  rewrite <-!(app_assoc _ _ post). rewrite !(app_assoc pre), (app_assoc (pre ++ _)).
  rewrite slice_mid; [done|rewrite !length_app, length_to_be; lia|rewrite !length_app, length_to_be; lia].
Qed.

Lemma located_bound data v d : located data v d -> (view_end v <= length data)%nat.
Proof.
  intros [Hk Hd He (pre & post & -> & Hp)]. rewrite !length_app, length_make_box by done. lia.
Qed.

(** Where the boxes of a sequence begin. *)
Fixpoint box_starts (o : nat) (bs : list abox) : list nat :=
  match bs with
  | [] => []
  | b :: bs => o :: box_starts (o + 8 + length b.2) bs
  end.

(** The reader's loop over written boxes. *)
Lemma boxes_loop bs pre post fuel res :
  Forall box_ok bs -> (length (encode bs) < fuel)%nat ->
  Z.of_nat (length (pre ++ encode bs ++ post)) < 2 ^ 64 ->
  exists vs,
    loop fuel (boxes_step (pre ++ encode bs ++ post) (length pre + length (encode bs))) (length pre, res) = Ok (res ++ vs) /\
    Forall2 (fun v b => kind v = b.1 /\ located (pre ++ encode bs ++ post) v b.2) vs bs /\
    view_start <$> vs = box_starts (length pre) bs.
Proof.
  intros Hok. revert pre fuel res. induction Hok as [|[k d] bs [Hk Hd] Hok IH]; intros pre fuel res Hf H64;
    (destruct fuel as [|fuel]; [lia|]); cbn [loop]; unfold boxes_step at 1.
  { exists []. cbn [encode fmap list_fmap concat length]. rewrite (proj2 (Nat.leb_gt _ _)) by lia. by rewrite app_nil_r. }
  cbn [fst snd] in *. change (encode ((k, d) :: bs)) with (make_box k d ++ encode bs) in *.
  pose proof (length_make_box k d Hk) as Hl.
  rewrite (length_app (make_box k d)) in Hf |- *. rewrite Hl in Hf |- *. set (E := length (encode bs)) in *.
  rewrite (proj2 (Nat.leb_le _ _)) by lia.
  assert (Hsz : u32 (8 + u32 (zlen d)) = 8 + zlen d).
  { unfold u32, zlen in *. rewrite (Z.mod_small (Z.of_nat (length d))), Z.mod_small by lia. done. }
  set (data := pre ++ (make_box k d ++ encode bs) ++ post) in *.
  assert (Hr : read_u32 data (length pre) = Ok (8 + zlen d)).
  { unfold data, make_box. rewrite Hsz, <-!app_assoc. apply read_u32_at; [done|]. unfold is_u32, zlen in *. lia. }
  assert (Hs : slice data (length pre + 4) (length pre + 8) = (Ok k : result bytes)).
  { unfold data, make_box. rewrite <-!app_assoc, (app_assoc pre).
    apply slice_mid; rewrite length_app, length_to_be; lia. }
  rewrite Hr, Hs. cbn [mbind outcome_bind].
  rewrite (proj2 (Z.eqb_neq _ _)), (proj2 (Z.eqb_neq _ _)) by (unfold zlen; lia). cbn [mbind outcome_bind].
  rewrite (proj2 (Z.ltb_ge _ _)) by (unfold zlen; lia).
  assert (Hlen : length data = (length pre + (8 + length d + E) + length post)%nat).
  { unfold data. rewrite !length_app, Hl. unfold E. lia. }
  rewrite (proj2 (Z.leb_gt _ _)), (proj2 (Z.ltb_ge _ _)) by (unfold zlen; lia).
  replace (length pre + Z.to_nat (8 + zlen d))%nat with (length (pre ++ make_box k d))
    by (rewrite length_app, Hl; unfold zlen; lia).
  assert (Hdata : data = (pre ++ make_box k d) ++ encode bs ++ post) by (unfold data; by rewrite !app_assoc).
  destruct (IH (pre ++ make_box k d) fuel
    (res ++ [{| kind := k; view_start := length pre; data_start := (length pre + 8)%nat;
                view_end := length (pre ++ make_box k d) |}])) as (vs & HL & HF & HS).
  { unfold E in *. lia. }
  { by rewrite <-Hdata. }
  rewrite <-Hdata in HL, HF. rewrite length_app, Hl in HL. fold E in HL.
  replace (length pre + (8 + length d) + E)%nat with (length pre + (8 + length d + E))%nat in HL by lia.
  eexists. rewrite length_app, Hl. split; [rewrite HL, <-app_assoc; reflexivity|].
  split; [|rewrite fmap_app, HS; cbn [fmap list_fmap app box_starts view_start snd]; by rewrite length_app, Hl, Nat.add_assoc].
  constructor; [|done]. split; [done|]. split; cbn [kind view_start data_start view_end snd]; [done|done|rewrite ?length_app; lia|].
  exists pre, (encode bs ++ post). split; [|done]. unfold data. by rewrite <-app_assoc.
Qed.

Lemma boxes_encode bs :
  Forall box_ok bs -> Z.of_nat (length (encode bs)) < 2 ^ 64 ->
  exists vs, boxes (encode bs) 0 (length (encode bs)) = Ok vs /\
    Forall2 (fun v b => kind v = b.1 /\ located (encode bs) v b.2) vs bs.
Proof.
  intros Hok H64. destruct (boxes_loop bs [] [] (S (length (encode bs))) [] Hok) as (vs & HL & HF & _); [lia|by rewrite app_nil_r|].
  cbn [app length] in *. rewrite app_nil_r in *. by exists vs.
Qed.

Lemma located_boxes data v bs :
  located data v (encode bs) -> Forall box_ok bs -> Z.of_nat (length data) < 2 ^ 64 ->
  exists vs, boxes data (data_start v) (view_end v) = Ok vs /\
    Forall2 (fun v b => kind v = b.1 /\ located data v b.2) vs bs.
Proof.
  intros [Hk Hd He (pre & post & -> & Hp)] Hok H64. set (hd := to_be 4 (u32 (8 + u32 (zlen (encode bs)))) ++ kind v).
  assert (Heq : pre ++ make_box (kind v) (encode bs) ++ post = (pre ++ hd) ++ encode bs ++ post).
  { unfold make_box, hd. by rewrite !app_assoc. }
  assert (Hh : length (pre ++ hd) = data_start v) by (unfold hd; rewrite !length_app, length_to_be; lia).
  rewrite Heq in *. unfold boxes.
  destruct (boxes_loop bs (pre ++ hd) post (S (length ((pre ++ hd) ++ encode bs ++ post))) [] Hok) as (vs & HL & HF & _).
  { rewrite !length_app. lia. } { done. }
  rewrite Hh in HL. rewrite He. by exists vs.
Qed.

Lemma find_views data vs bs k :
  Forall2 (fun v b => kind v = b.1 /\ located data v b.2) vs bs ->
  match List.find (fun b : abox => bool_decide (b.1 = k)) bs with
  | Some b => exists v, find_kind k vs = Some v /\ kind v = k /\ located data v b.2
  | None => find_kind k vs = None
  end.
Proof.
  induction 1 as [|v [kb d] vs bs [Hk Hl] HF IH]; [done|]. cbn [List.find find_kind fst] in *.
  unfold find_kind in *. cbn [List.find]. rewrite Hk. cbn [fst].
  destruct (bool_decide_reflect (kb = k)) as [->|Hne]; [by exists v|]. done.
Qed.

Lemma located_child data v bs k d :
  located data v (encode bs) -> Forall box_ok bs -> Z.of_nat (length data) < 2 ^ 64 ->
  List.find (fun b : abox => bool_decide (b.1 = k)) bs = Some (k, d) ->
  exists v', child data v k = Ok (Some v') /\ kind v' = k /\ located data v' d.
Proof.
  intros Hl Hok H64 Hf. destruct (located_boxes data v bs Hl Hok H64) as (vs & Hb & HF).
  pose proof (find_views data vs bs k HF) as Hv. rewrite Hf in Hv. destruct Hv as (v' & Hv & Hk & Hl').
  exists v'. unfold child. rewrite Hb. cbn. by rewrite Hv.
Qed.

(** The views of a given kind are the written boxes of that kind, in order. *)
Lemma filter_views data vs bs k :
  Forall2 (fun v b => kind v = b.1 /\ located data v b.2) vs bs ->
  Forall2 (fun v b => located data v b.2) (List.filter (fun v => bool_decide (kind v = k)) vs)
    (List.filter (fun b : abox => bool_decide (b.1 = k)) bs).
Proof.
  induction 1 as [|v [kb d] vs bs [Hk Hl] HF IH]; [constructor|]. cbn [List.filter fst snd] in *. rewrite Hk.
  destruct (bool_decide_reflect (kb = k)); [by constructor|done].
Qed.

(** ** Buffers below 4 GiB *)

Definition kinds4 (bs : list abox) : Prop := Forall (fun b => length b.1 = 4%nat) bs.

Lemma length_encode_cons b bs :
  length b.1 = 4%nat -> length (encode (b :: bs)) = (8 + length b.2 + length (encode bs))%nat.
Proof. intros Hb. change (encode (b :: bs)) with (encode_box b ++ encode bs). unfold encode_box. by rewrite length_app, length_make_box. Qed.

(** Inside a small buffer every box size fits its field. *)
Lemma kinds4_ok bs : kinds4 bs -> zlen (encode bs) < 2 ^ 32 -> Forall box_ok bs.
Proof.
  unfold zlen. induction 1 as [|b bs Hb Hbs IH]; intros Hl; [constructor|].
  rewrite length_encode_cons in Hl by done. constructor; [split; [done|unfold zlen; lia]|]. apply IH. lia.
Qed.

Section SmallBuffer.
Context (data : bytes) (Hsmall : zlen data < 2 ^ 32).

Lemma small64 : Z.of_nat (length data) < 2 ^ 64.
Proof using Hsmall. unfold zlen in Hsmall. lia. Qed.

Lemma small_boxes_at pre bs post i j :
    data = pre ++ encode bs ++ post -> i = length pre -> j = (i + length (encode bs))%nat -> kinds4 bs ->
    exists vs, boxes data i j = Ok vs /\ Forall2 (fun v b => kind v = b.1 /\ located data v b.2) vs bs /\
      view_start <$> vs = box_starts i bs.
Proof using Hsmall.
    intros Hd -> -> Hk. assert (Hok : Forall box_ok bs).
    { apply kinds4_ok; [done|]. unfold zlen in *. rewrite Hd, !length_app in Hsmall. lia. }
    destruct (boxes_loop bs pre post (S (length data)) [] Hok) as (vs & HL & HF & HS).
    { rewrite Hd, !length_app. lia. } { rewrite <-Hd. apply small64. }
    rewrite <-Hd in HL, HF. by exists vs.
Qed.

Lemma small_kinds_ok v bs : located data v (encode bs) -> kinds4 bs -> Forall box_ok bs.
Proof using Hsmall.
    intros Hl Hk. apply kinds4_ok; [done|]. pose proof (located_bound _ _ _ Hl). pose proof (loc_end _ _ _ Hl).
    unfold zlen in *. lia.
Qed.

Lemma small_boxes v bs :
    located data v (encode bs) -> kinds4 bs ->
    exists vs, boxes data (data_start v) (view_end v) = Ok vs /\
      Forall2 (fun v b => kind v = b.1 /\ located data v b.2) vs bs.
Proof using Hsmall. intros Hl Hk. apply located_boxes; [done|by eapply small_kinds_ok|apply small64]. Qed.

Lemma small_child v bs k d :
    located data v (encode bs) -> kinds4 bs ->
    List.find (fun b : abox => bool_decide (b.1 = k)) bs = Some (k, d) ->
    exists v', child data v k = Ok (Some v') /\ kind v' = k /\ located data v' d.
Proof using Hsmall. intros Hl Hk Hf. eapply located_child; [done|by eapply small_kinds_ok|apply small64|done]. Qed.
End SmallBuffer.

(** The contents of a located view split the buffer. *)
Lemma located_split data v d :
  located data v d -> exists pre post, data = pre ++ d ++ post /\ length pre = data_start v.
Proof.
  intros [Hk Hd He (pre & post & -> & Hp)]. unfold make_box.
  exists (pre ++ to_be 4 (u32 (8 + u32 (zlen d))) ++ kind v), post.
  rewrite !length_app, length_to_be, Hk. split; [by rewrite <-!app_assoc|lia].
Qed.

Lemma read_u32_make_box pre k d post i :
  i = length pre -> 8 + zlen d < 2 ^ 32 -> read_u32 (pre ++ make_box k d ++ post) i = Ok (8 + zlen d).
Proof.
  intros -> Hd. unfold make_box. rewrite <-app_assoc.
  assert (u32 (8 + u32 (zlen d)) = 8 + zlen d) as ->.
  { unfold u32, zlen in *. rewrite (Z.mod_small (Z.of_nat (length d))), Z.mod_small by lia. done. }
  apply read_u32_at; [done|]. unfold is_u32, zlen in *. lia.
Qed.
