(* ===== verification/Fmp4Mux.v ===== *)
(** * Fmp4Mux: the fragmented MP4 muxer

    [mp4/src/fmp4.rs]: [Fmp4Muxer] with its initialization segment
    (ftyp, moov) and media segments (styp, moof, mdat).  [u32] additions on
    sizes wrap, as in release builds; the theorems bound the sizes so that
    they do not. *)

From S2P Require Import Prelude Frame Payload Gop Bmff.
Open Scope Z_scope.

Record Fmp4Segment : Type := {
  is_init : bool;
  sequence : Z;
  seg_data : bytes;
  seg_start_time : Z;
  seg_duration : Z
}.

Record Fmp4Sample : Type := {
  sample_data : bytes;
  sample_timestamp : Z;
  sample_duration : Z;
  is_sync : bool
}.

(** [width], [height], [audio_sample_rate] and [audio_channels] have no
    setter: they keep the values of [new]. *)
Record Fmp4Muxer : Type := {
  video_timescale : Z;
  mx_video_codec : option CodecId;
  mx_audio_codec : option CodecId;
  mx_video_config : option bytes;
  mx_audio_config : option bytes;
  mx_width : Z;
  mx_height : Z;
  mx_sample_rate : Z;
  mx_channels : Z;
  video_samples : list Fmp4Sample;
  audio_samples : list Fmp4Sample;
  base_timestamp : option Z;
  segment_seq : Z;
  segment_start_time : Z;
  total_duration : Z;
  largest_video_sample : nat;
  largest_audio_sample : nat
}.

Definition fmp4_new (timescale : Z) : Fmp4Muxer :=
  {| video_timescale := timescale; mx_video_codec := None; mx_audio_codec := None; mx_video_config := None;
     mx_audio_config := None; mx_width := 640; mx_height := 480; mx_sample_rate := 44100; mx_channels := 2;
     video_samples := []; audio_samples := []; base_timestamp := None; segment_seq := 0;
     segment_start_time := 0; total_duration := 0; largest_video_sample := 0; largest_audio_sample := 0 |}.

Definition set_base (m : Fmp4Muxer) (t : Z) : Fmp4Muxer :=
  {| video_timescale := video_timescale m; mx_video_codec := mx_video_codec m; mx_audio_codec := mx_audio_codec m;
     mx_video_config := mx_video_config m; mx_audio_config := mx_audio_config m; mx_width := mx_width m;
     mx_height := mx_height m; mx_sample_rate := mx_sample_rate m; mx_channels := mx_channels m;
     video_samples := video_samples m; audio_samples := audio_samples m; base_timestamp := Some t;
     segment_seq := segment_seq m; segment_start_time := segment_start_time m; total_duration := total_duration m;
     largest_video_sample := largest_video_sample m; largest_audio_sample := largest_audio_sample m |}.

Definition set_configs (m : Fmp4Muxer) (vc ac : option CodecId) (vcfg acfg : option bytes) : Fmp4Muxer :=
  {| video_timescale := video_timescale m; mx_video_codec := vc; mx_audio_codec := ac;
     mx_video_config := vcfg; mx_audio_config := acfg; mx_width := mx_width m;
     mx_height := mx_height m; mx_sample_rate := mx_sample_rate m; mx_channels := mx_channels m;
     video_samples := video_samples m; audio_samples := audio_samples m; base_timestamp := base_timestamp m;
     segment_seq := segment_seq m; segment_start_time := segment_start_time m; total_duration := total_duration m;
     largest_video_sample := largest_video_sample m; largest_audio_sample := largest_audio_sample m |}.

Definition set_samples (m : Fmp4Muxer) (vs au : list Fmp4Sample) (lv la : nat) (total : Z) : Fmp4Muxer :=
  {| video_timescale := video_timescale m; mx_video_codec := mx_video_codec m; mx_audio_codec := mx_audio_codec m;
     mx_video_config := mx_video_config m; mx_audio_config := mx_audio_config m; mx_width := mx_width m;
     mx_height := mx_height m; mx_sample_rate := mx_sample_rate m; mx_channels := mx_channels m;
     video_samples := vs; audio_samples := au; base_timestamp := base_timestamp m;
     segment_seq := segment_seq m; segment_start_time := segment_start_time m; total_duration := total;
     largest_video_sample := lv; largest_audio_sample := la |}.

Definition next_segment (m : Fmp4Muxer) : Fmp4Muxer :=
  {| video_timescale := video_timescale m; mx_video_codec := mx_video_codec m; mx_audio_codec := mx_audio_codec m;
     mx_video_config := mx_video_config m; mx_audio_config := mx_audio_config m; mx_width := mx_width m;
     mx_height := mx_height m; mx_sample_rate := mx_sample_rate m; mx_channels := mx_channels m;
     video_samples := []; audio_samples := []; base_timestamp := base_timestamp m;
     segment_seq := segment_seq m + 1; segment_start_time := total_duration m; total_duration := total_duration m;
     largest_video_sample := largest_video_sample m; largest_audio_sample := largest_audio_sample m |}.

(** A conversion whose [Err] makes [push_frame] return. *)
Definition or_return (r : result bytes) : result (option bytes) :=
  match r with Ok b => Ok (Some b) | Err _ => Ok None | Panic => Panic | NoFuel => NoFuel end.

(** ** push_frame *)

Definition push_config (m : Fmp4Muxer) (frame : MediaFrame) : result Fmp4Muxer :=
  match frame_type frame with
  | Video =>
      config ← or_return (video_decoder_config frame);
      match config with
      | None => Ok m
      | Some config => Ok (set_configs m (Some (codec frame)) (mx_audio_codec m) (Some config) (mx_audio_config m))
      end
  | Audio =>
      config ← (if bool_decide (codec frame = AAC) then or_return (aac_audio_specific_config frame)
                else Ok (Some (data frame)));
      match config with
      | None => Ok m
      | Some config => Ok (set_configs m (mx_video_codec m) (Some (codec frame)) (mx_video_config m) (Some config))
      end
  | Metadata => Ok m
  end.

Definition push_data (frame : MediaFrame) : result (option bytes) :=
  match frame_type frame with
  | Video => or_return (video_sample_length_prefixed frame)
  | Audio => if bool_decide (codec frame = AAC) then or_return (aac_raw_payload frame) else Ok (Some (data frame))
  | Metadata => Ok (Some (data frame))
  end.

Definition fmp4_push_frame (m : Fmp4Muxer) (frame : MediaFrame) : result Fmp4Muxer :=
  let m := match base_timestamp m with None => set_base m (timestamp frame) | Some _ => m end in
  if config_frame frame || is_config_frame frame then push_config m frame else
  let rel_ts := Z.max 0 (timestamp frame - default 0 (base_timestamp m)) in
  let duration := video_timescale m / 25 in
  payload ← push_data frame;
  match payload with
  | None => Ok m
  | Some payload =>
      let sample := {| sample_data := payload; sample_timestamp := rel_ts; sample_duration := duration;
                       is_sync := key_frame frame |} in
      let size := length payload in
      let total := Z.max (total_duration m) (rel_ts * video_timescale m / 1000 + duration) in
      Ok (match frame_type frame with
          | Video => set_samples m (video_samples m ++ [sample]) (audio_samples m)
                       (Nat.max (largest_video_sample m) size) (largest_audio_sample m) total
          | Audio => set_samples m (video_samples m) (audio_samples m ++ [sample])
                       (largest_video_sample m) (Nat.max (largest_audio_sample m) size) total
          | Metadata => set_samples m (video_samples m) (audio_samples m)
                       (largest_video_sample m) (largest_audio_sample m) total
          end)
  end.

(** ** Sample entries *)

Definition build_trex (track : Z) : abox :=
  (ascii_bytes "trex", to_be 4 0 ++ to_be 4 track ++ to_be 4 1 ++ to_be 4 0 ++ to_be 4 0 ++ to_be 4 0).

(** An FLV-style record loses its five-byte header. *)
Definition decoder_record (config : bytes) : bytes :=
  if bool_decide (head config = Some 1) then config
  else if (5 <=? length config)%nat then drop 5 config else config.

Definition visual_fields (width height : Z) : bytes :=
  replicate 6 0 ++ to_be 2 1 ++ to_be 2 0 ++ to_be 2 0 ++ replicate 12 0 ++
  to_be 2 (u16 width) ++ to_be 2 (u16 height) ++ to_be 4 0x00480000 ++ to_be 4 0x00480000 ++ to_be 4 0 ++
  to_be 2 1 ++ replicate 32 0 ++ to_be 2 24 ++ to_be 2 0xFFFF.

Definition build_avc1_entry (config : bytes) (width height : Z) : abox :=
  (ascii_bytes "avc1", visual_fields width height ++ make_box (ascii_bytes "avcC") (decoder_record config)).

Definition build_hvc1_entry (config : bytes) (width height : Z) : abox :=
  (ascii_bytes "hvc1", visual_fields width height ++ make_box (ascii_bytes "hvcC") (decoder_record config)).

Definition aac_config_of (config : bytes) : bytes :=
  if (2 <=? length config)%nat && bool_decide (head config = Some 0xAF) then
    (if (2 <? length config)%nat then drop 2 config else config)
  else config.

Definition esds_data (aac_cfg : bytes) : bytes :=
  to_be 4 0 ++ [0x03; 0x19] ++ to_be 2 1 ++ [0x00; 0x04; 0x11; 0x40; 0x15] ++ replicate 3 0 ++
  to_be 4 0x0001F400 ++ to_be 4 0x0001F400 ++ [0x05; u8 (zlen aac_cfg)] ++ aac_cfg ++ [0x06; 0x01; 0x02].

Definition audio_fields (sample_rate channels : Z) : bytes :=
  replicate 6 0 ++ to_be 2 1 ++ replicate 8 0 ++ to_be 2 (u16 channels) ++ to_be 2 16 ++ to_be 2 0 ++ to_be 2 0 ++
  to_be 4 (u32 (sample_rate .<< 16)).

Definition build_mp4a_entry (config : bytes) (sample_rate channels : Z) : abox :=
  (ascii_bytes "mp4a", audio_fields sample_rate channels ++ make_box (ascii_bytes "esds") (esds_data (aac_config_of config))).

Definition build_vp_entry (fourcc config : bytes) (width height : Z) : abox :=
  (fourcc,
   replicate 6 0 ++ to_be 2 1 ++ to_be 2 0 ++ to_be 2 0 ++ ascii_bytes "google" ++ [0; 0] ++
   to_be 2 (u16 width) ++ to_be 2 (u16 height) ++ to_be 4 0x00480000 ++ to_be 4 0x00480000 ++ to_be 4 0 ++
   to_be 2 1 ++ ascii_bytes "VP Coding" ++ replicate 23 0 ++ to_be 2 24 ++ to_be 2 0xFFFF ++
   make_box (ascii_bytes "vpcC") config).

(** ** The initialization segment *)

Definition identity_matrix : bytes :=
  to_be 4 0x00010000 ++ to_be 4 0 ++ to_be 4 0 ++ to_be 4 0 ++ to_be 4 0x00010000 ++ to_be 4 0 ++ to_be 4 0 ++
  to_be 4 0 ++ to_be 4 0x40000000.

Definition write_ftyp (m : Fmp4Muxer) : abox :=
  (ascii_bytes "ftyp",
   ascii_bytes (match mx_video_codec m with Some H265 => "iso6" | _ => "isom" end) ++ to_be 4 0x200 ++
   ascii_bytes "iso6mp41cmfc").

Definition write_mvhd : abox :=
  (ascii_bytes "mvhd",
   to_be 4 0 ++ to_be 4 0 ++ to_be 4 0 ++ to_be 4 1000 ++ to_be 4 0 ++ to_be 4 0x00010000 ++ to_be 2 0x0100 ++
   to_be 2 0 ++ replicate 8 0 ++ identity_matrix ++ replicate 24 0 ++ to_be 4 2).

Definition write_tkhd (track : Z) (video : bool) (width height : Z) : abox :=
  (ascii_bytes "tkhd",
   to_be 4 7 ++ to_be 4 0 ++ to_be 4 0 ++ to_be 4 track ++ to_be 4 0 ++ to_be 4 0 ++ replicate 8 0 ++ to_be 2 0 ++
   to_be 2 0 ++ to_be 2 (if video then 0 else 0x0100) ++ to_be 2 0 ++ identity_matrix ++
   to_be 4 (u32 (width .<< 16)) ++ to_be 4 (u32 (height .<< 16))).

Definition write_mdhd (timescale : Z) : abox :=
  (ascii_bytes "mdhd",
   to_be 4 0 ++ to_be 4 0 ++ to_be 4 0 ++ to_be 4 timescale ++ to_be 4 0 ++ to_be 2 0x55C4 ++ to_be 2 0).

Definition write_hdlr (video : bool) : abox :=
  (ascii_bytes "hdlr",
   to_be 4 0 ++ to_be 4 0 ++ ascii_bytes (if video then "vide" else "soun") ++ replicate 12 0 ++
   ascii_bytes "zlmediakit-rs" ++ [0]).

Definition write_media_header (video : bool) : abox :=
  if video then (ascii_bytes "vmhd", to_be 4 1 ++ to_be 2 0 ++ replicate 6 0)
  else (ascii_bytes "smhd", to_be 4 0 ++ to_be 2 0 ++ to_be 2 0).

Definition write_dinf : abox :=
  (ascii_bytes "dinf",
   make_box (ascii_bytes "dref") (to_be 4 0 ++ to_be 4 1 ++ make_box (ascii_bytes "url ") (to_be 4 1))).

Definition sample_entry (c : CodecId) (config : bytes) (width height timescale channels : Z) : list abox :=
  match c with
  | H264 => [build_avc1_entry config width height]
  | H265 => [build_hvc1_entry config width height]
  | AAC => [build_mp4a_entry config timescale channels]
  | VP8 => [build_vp_entry (ascii_bytes "vp08") config width height]
  | VP9 => [build_vp_entry (ascii_bytes "vp09") config width height]
  | AV1 => [build_vp_entry (ascii_bytes "av01") config width height]
  | _ => []
  end.

Definition write_stbl (c : CodecId) (config : bytes) (width height timescale channels : Z) : abox :=
  (ascii_bytes "stbl", encode
    [(ascii_bytes "stsd", to_be 4 0 ++ to_be 4 1 ++ encode (sample_entry c config width height timescale channels));
     (ascii_bytes "stts", replicate 8 0); (ascii_bytes "stsc", replicate 8 0);
     (ascii_bytes "stsz", replicate 12 0); (ascii_bytes "stco", replicate 8 0)]).

Definition write_trak (channels track : Z) (c : CodecId) (config : bytes) (width height timescale : Z) : abox :=
  let video := bool_decide (c = H264 \/ c = H265) in
  (ascii_bytes "trak", encode
    [write_tkhd track video width height;
     (ascii_bytes "mdia", encode
       [write_mdhd timescale; write_hdlr video;
        (ascii_bytes "minf", encode
          [write_media_header video; write_dinf; write_stbl c config width height timescale channels])])]).

Definition video_trak (m : Fmp4Muxer) : list abox :=
  match mx_video_codec m, mx_video_config m with
  | Some c, Some cfg => [write_trak (mx_channels m) 1 c cfg (mx_width m) (mx_height m) (video_timescale m)]
  | _, _ => []
  end.

Definition audio_trak (m : Fmp4Muxer) : list abox :=
  match mx_audio_codec m, mx_audio_config m with
  | Some c, Some cfg => [write_trak (mx_channels m) 2 c cfg 0 0 (mx_sample_rate m)]
  | _, _ => []
  end.

Definition write_mvex (m : Fmp4Muxer) : list abox :=
  let trexs :=
    (match mx_video_codec m with Some _ => [build_trex 1] | None => [] end) ++
    (match mx_audio_codec m with Some _ => [build_trex 2] | None => [] end) in
  match trexs with [] => [] | _ :: _ => [(ascii_bytes "mvex", encode trexs)] end.

Definition write_moov (m : Fmp4Muxer) : abox :=
  (ascii_bytes "moov", encode ([write_mvhd] ++ video_trak m ++ audio_trak m ++ write_mvex m)).

Definition build_init_segment (m : Fmp4Muxer) : bytes := encode [write_ftyp m; write_moov m].

Definition init_segment (m : Fmp4Muxer) : Fmp4Segment :=
  {| is_init := true; sequence := 0; seg_data := build_init_segment m; seg_start_time := 0; seg_duration := 0 |}.

(** ** Media segments *)

Definition trun_entry (s : Fmp4Sample) : bytes :=
  to_be 4 (sample_duration s) ++ to_be 4 (u32 (zlen (sample_data s))) ++
  to_be 4 (if is_sync s then 0x02000000 else 0x01010000).

Definition build_traf (track start_time : Z) (samples : list Fmp4Sample) (data_offset : Z) : abox :=
  (ascii_bytes "traf", encode
    [(ascii_bytes "tfhd", to_be 4 0x020000 ++ to_be 4 track);
     (ascii_bytes "tfdt", to_be 4 (1 .<< 24) ++ to_be 8 start_time);
     (ascii_bytes "trun", to_be 4 0x000701 ++ to_be 4 (u32 (zlen samples)) ++ to_be 4 data_offset ++
                          concat (trun_entry <$> samples))]).

Definition samples_size (l : list Fmp4Sample) : Z := foldl (fun acc s => u32 (acc + u32 (zlen (sample_data s)))) 0 l.

Definition build_moof (seq start_time : Z) (video audio : list Fmp4Sample) (offset : Z) : abox :=
  (ascii_bytes "moof", encode
    ([(ascii_bytes "mfhd", to_be 4 0 ++ to_be 4 (u32 seq))] ++
     (match video with [] => [] | _ :: _ => [build_traf 1 start_time video offset] end) ++
     (match audio with
      | [] => []
      | _ :: _ => [build_traf 2 start_time audio (u32 (offset + samples_size video))]
      end))).

Definition build_mdat (video audio : list Fmp4Sample) : bytes :=
  concat (sample_data <$> video) ++ concat (sample_data <$> audio).

Definition build_media_segment (seq start_time : Z) (video audio : list Fmp4Sample) : bytes :=
  let provisional := encode_box (build_moof seq start_time video audio 0) in
  let moof := build_moof seq start_time video audio (u32 (u32 (zlen provisional) + 8)) in
  encode [(ascii_bytes "styp", ascii_bytes "msdhmsixiso6cmfc"); moof; (ascii_bytes "mdat", build_mdat video audio)].

Definition flush_segment (m : Fmp4Muxer) : option Fmp4Segment * Fmp4Muxer :=
  match video_samples m, audio_samples m with
  | [], [] => (None, m)
  | video, audio =>
      let start_time := segment_start_time m in
      (Some {| is_init := false; sequence := segment_seq m;
               seg_data := build_media_segment (segment_seq m) start_time video audio;
               seg_start_time := start_time; seg_duration := Z.max 0 (total_duration m - start_time) |},
       next_segment m)
  end.

Definition has_samples (m : Fmp4Muxer) : bool :=
  negb (bool_decide (video_samples m = [])) || negb (bool_decide (audio_samples m = [])).
