(* ===== verification/Fmp4Demux.v ===== *)
(** * Fmp4Demux: the fragmented MP4 demuxer

    [mp4/src/fragmented_demuxer.rs]: [Fmp4Demuxer::from_init_segment],
    [track_info], [config_frames] and [demux_fragment].  Error messages of
    [anyhow!] and [bail!] are kept; a [HashMap] is a [gmap], whose iteration
    order stands for the unspecified one of the source. *)

From S2P Require Import Prelude Frame Bmff.
Open Scope Z_scope.

Record FragmentTrack : Type := {
  ft_id : Z;
  ft_codec : CodecId;
  timescale : Z;
  ft_width : Z;
  ft_height : Z;
  ft_channels : Z;
  ft_config : bytes
}.

Definition Fmp4Demuxer : Type := gmap Z FragmentTrack.

(** ** Descriptors *)

(** [for _ in 0..4]: the length and the offset behind it. *)
Fixpoint descriptor_length_loop (n : nat) (data : bytes) (offset length : nat) : option (nat * nat) :=
  match n with
  | O => None
  | S n =>
      match data !! offset with
      | None => None
      | Some byte =>
          let length := (length * 128 + Z.to_nat (byte .& 0x7f))%nat in
          if byte .& 0x80 =? 0 then Some (length, S offset)
          else descriptor_length_loop n data (S offset) length
      end
  end.

Definition descriptor_length (data : bytes) (offset : nat) : option (nat * nat) :=
  descriptor_length_loop 4 data offset 0.

(** [iter().position(|byte| *byte == b)]. *)
Fixpoint byte_position (b : Z) (l : bytes) : option nat :=
  match l with
  | [] => None
  | x :: l => if x =? b then Some 0%nat else S <$> byte_position b l
  end.

(** The child descriptor 5 found by the byte scan. *)
Definition scan_child (esds : bytes) (offset length : nat) : result (option bytes) :=
  inner ← slice esds offset (offset + length);
  match byte_position 0x05 inner with
  | None => Ok None
  | Some relative =>
      match descriptor_length esds (offset + relative + 1) with
      | None => Ok None
      | Some (child_length, child_offset) =>
          if (child_offset + child_length <=? offset + length)%nat
          then c ← slice esds child_offset (child_offset + child_length); Ok (Some c)
          else Ok None
      end
  end.

Definition extract_asc_step (esds : bytes) (offset : nat) : result (nat + bytes) :=
  if (offset <? length esds)%nat then
    tag ← idx esds offset;
    match descriptor_length esds (offset + 1) with
    | None => Ok (inr [])
    | Some (len, offset) =>
        if (length esds <? offset + len)%nat then Ok (inr []) else
        if tag =? 0x05 then asc ← slice esds offset (offset + len); Ok (inr asc) else
        found ← scan_child esds offset len;
        match found with
        | Some asc => Ok (inr asc)
        | None => Ok (inl (offset + len)%nat)
        end
    end
  else Ok (inr []).

Definition extract_asc (esds : bytes) : result bytes :=
  loop (S (length esds)) (extract_asc_step esds) (Nat.min 4 (length esds)).

(** ** The initialization segment *)

Definition required (o : option BoxView) (msg : string) : result BoxView :=
  match o with Some v => Ok v | None => Err (Anyhow msg) end.

(** [checked_sub(n).map(|offset| read_u32(..).unwrap_or(0) >> 16).unwrap_or(0)] *)
Definition fixed_from_end (d : bytes) (n : nat) : Z :=
  if (n <=? length d)%nat then
    match read_u32 d (length d - n) with Ok v => v .>> 16 | _ => 0 end
  else 0.

Definition version_of (d : bytes) : Z := default 0 (head d).

(** The codec of a sample entry, where its child boxes begin, the channels. *)
Definition entry_codec (stsd_data kind : bytes) : result (CodecId * nat * Z) :=
  if bool_decide (kind = ascii_bytes "avc1" \/ kind = ascii_bytes "avc3") then Ok (H264, (8 + 86)%nat, 0)
  else if bool_decide (kind = ascii_bytes "hvc1" \/ kind = ascii_bytes "hev1") then Ok (H265, (8 + 86)%nat, 0)
  else if bool_decide (kind = ascii_bytes "mp4a") then
    Ok (AAC, (8 + 36)%nat,
        match get_range stsd_data (8 + 24) (8 + 26) with Some b => from_be b | None => 2 end)
  else Err (Anyhow "unsupported fragmented MP4 sample entry ").

Definition config_kind (c : CodecId) : bytes :=
  match c with H264 => ascii_bytes "avcC" | H265 => ascii_bytes "hvcC" | _ => ascii_bytes "esds" end.

(** The sample description: codec, channels and configuration. *)
Definition parse_stsd (data : bytes) (stsd : BoxView) : result (CodecId * Z * bytes) :=
  stsd_data ← view_data data stsd;
  if (length stsd_data <? 16)%nat then Err (Anyhow "fragmented MP4 stsd is truncated") else
  entry_size ← read_u32 stsd_data 8;
  if (entry_size <? 8) || (zlen stsd_data <? 8 + entry_size)
  then Err (Anyhow "invalid fragmented MP4 sample entry") else
  entry_kind ← slice stsd_data 12 16;
  '(c, child_offset, channels) ← entry_codec stsd_data entry_kind;
  let entry_end := (data_start stsd + 8 + Z.to_nat entry_size)%nat in
  l ← boxes data (data_start stsd + child_offset) entry_end;
  config_box ← required (find_kind (config_kind c) l) "fragmented MP4 sample entry is missing codec config";
  raw_config ← view_data data config_box;
  config ← (if bool_decide (c = AAC) then extract_asc raw_config else Ok raw_config);
  Ok (c, channels, config).

Definition parse_trak (data : bytes) (trak : BoxView) : result FragmentTrack :=
  tkhd ← child data trak (ascii_bytes "tkhd");
  tkhd ← required tkhd "fragmented MP4 track is missing tkhd";
  tkhd_data ← view_data data tkhd;
  id ← read_u32 tkhd_data (if version_of tkhd_data =? 1 then 20 else 12);
  let width := fixed_from_end tkhd_data 8 in
  let height := fixed_from_end tkhd_data 4 in
  mdia ← child data trak (ascii_bytes "mdia");
  mdia ← required mdia "fragmented MP4 track is missing mdia";
  mdhd ← child data mdia (ascii_bytes "mdhd");
  mdhd ← required mdhd "fragmented MP4 track is missing mdhd";
  mdhd_data ← view_data data mdhd;
  ts ← read_u32 mdhd_data (if version_of mdhd_data =? 1 then 20 else 12);
  stsd ← descendant data mdia [ascii_bytes "minf"; ascii_bytes "stbl"; ascii_bytes "stsd"];
  stsd ← required stsd "fragmented MP4 track is missing stsd";
  '(c, channels, config) ← parse_stsd data stsd;
  Ok {| ft_id := id; ft_codec := c; timescale := Z.max ts 1; ft_width := width; ft_height := height;
        ft_channels := channels; ft_config := config |}.

Fixpoint parse_traks (data : bytes) (traks : list BoxView) (d : Fmp4Demuxer) : result Fmp4Demuxer :=
  match traks with
  | [] => Ok d
  | v :: traks => t ← parse_trak data v; parse_traks data traks (<[ft_id t := t]> d)
  end.

Definition of_kind (k : bytes) (l : list BoxView) : list BoxView := List.filter (fun v => bool_decide (kind v = k)) l.

Definition from_init_segment (data : bytes) : result Fmp4Demuxer :=
  top ← boxes data 0 (length data);
  moov ← required (find_kind (ascii_bytes "moov") top) "CMAF init segment is missing moov";
  l ← boxes data (data_start moov) (view_end moov);
  d ← parse_traks data (of_kind (ascii_bytes "trak") l) ∅;
  if bool_decide (d = ∅) then Err (Anyhow "CMAF init segment contains no supported tracks") else Ok d.

(** [fps: 0.0] has the all-zero bit pattern. *)
Definition info_of (t : FragmentTrack) : TrackInfo :=
  if is_video (ft_codec t)
  then TrackVideo {| video_codec := ft_codec t; video_width := ft_width t; video_height := ft_height t;
                     video_fps := 0; video_key_frame := true |}
  else TrackAudio {| audio_codec := ft_codec t; audio_sample_rate := timescale t;
                     audio_channels := Z.max (ft_channels t) 1; audio_bits_per_sample := 16 |}.

Definition track_info (d : Fmp4Demuxer) : list TrackInfo := info_of <$> (map_to_list d).*2.

Definition config_frame_of (t : FragmentTrack) : MediaFrame :=
  set_config_frame
    (if is_video (ft_codec t)
     then with_payload_format (new_video (ft_id t) (ft_codec t) 0 0 0 (ft_config t) false)
            (if bool_decide (ft_codec t = H264) then PfAvcc else PfHvcc)
     else with_payload_format (new_audio (ft_id t) (ft_codec t) 0 0 0 (ft_config t)) PfAacAudioSpecificConfig)
    true.

Definition config_frames (d : Fmp4Demuxer) : list MediaFrame :=
  config_frame_of <$> List.filter (fun t => negb (bool_decide (ft_config t = []))) (map_to_list d).*2.

(** ** Fragments *)

Definition has_flag (flags mask : Z) : bool := negb (flags .& mask =? 0).

(** A 32-bit field that is present when its flag is set. *)
Definition opt_field (d : bytes) (flags mask : Z) (offset : nat) : result (option Z * nat) :=
  if has_flag flags mask then v ← read_u32 d offset; Ok (Some v, (offset + 4)%nat) else Ok (None, offset).

Record TrafHeader : Type := {
  tf_track : FragmentTrack;
  base_data_offset : Z;
  default_duration : Z;
  default_size : Z;
  default_flags : Z
}.

Definition parse_tfhd (d : Fmp4Demuxer) (moof : BoxView) (tfhd_data : bytes) : result TrafHeader :=
  v ← read_u32 tfhd_data 0;
  let flags := v .& 0x00ffffff in
  track ← read_u32 tfhd_data 4;
  match d !! track with
  | None => Err (Anyhow "CMAF fragment references unknown track ")
  | Some track =>
      '(base, off) ← (if has_flag flags 0x000001
                      then v ← read_u64 tfhd_data 8; Ok (v, 16%nat)
                      else Ok (Z.of_nat (view_start moof), 8%nat));
      let off := if has_flag flags 0x000002 then (off + 4)%nat else off in
      '(dur, off) ← opt_field tfhd_data flags 0x000008 off;
      '(size, off) ← opt_field tfhd_data flags 0x000010 off;
      '(fl, _) ← opt_field tfhd_data flags 0x000020 off;
      Ok {| tf_track := track; base_data_offset := base; default_duration := default 0 dur;
            default_size := default 0 size; default_flags := default 0 fl |}
  end.

Definition parse_tfdt (data : bytes) (traf : BoxView) : result Z :=
  tfdt ← child data traf (ascii_bytes "tfdt");
  match tfdt with
  | None => Ok 0
  | Some tfdt =>
      tfdt_data ← view_data data tfdt;
      if version_of tfdt_data =? 1 then read_u64 tfdt_data 4 else read_u32 tfdt_data 4
  end.

Definition sat64 (z : Z) : Z := Z.min z (2 ^ 64 - 1).

(** [data.get(i..j)] on [usize] positions kept as [Z]. *)
Definition get_z (data : bytes) (i j : Z) : option bytes :=
  if (i <=? j) && (j <=? zlen data) then get_range data (Z.to_nat i) (Z.to_nat j) else None.

Definition fragment_frame (t : FragmentTrack) (dts_ms pts_ms : Z) (sample : bytes) (key : bool) : MediaFrame :=
  if is_video (ft_codec t)
  then with_payload_format (new_video (ft_id t) (ft_codec t) (u32 dts_ms) pts_ms dts_ms sample key)
         (if bool_decide (ft_codec t = H264) then PfAvcc else PfHvcc)
  else with_payload_format (new_audio (ft_id t) (ft_codec t) (u32 dts_ms) pts_ms dts_ms sample) PfAacRaw.

(** The fields of a sample in the table, and the offset behind them. *)
Record TrunSample : Type := { ts_duration : Z; ts_size : Z; ts_flags : Z; ts_composition : Z }.

Definition read_trun_sample (h : TrafHeader) (trun_data : bytes) (trun_flags : Z) (first_flags : option Z)
    (index : nat) (offset : nat) : result (TrunSample * nat) :=
  '(dur, offset) ← opt_field trun_data trun_flags 0x000100 offset;
  '(size, offset) ← opt_field trun_data trun_flags 0x000200 offset;
  '(fl, offset) ← opt_field trun_data trun_flags 0x000400 offset;
  '(comp, offset) ← opt_field trun_data trun_flags 0x000800 offset;
  Ok ({| ts_duration := default (default_duration h) dur; ts_size := default (default_size h) size;
         ts_flags := match fl with
                     | Some v => v
                     | None => if (index =? 0)%nat then default (default_flags h) first_flags else default_flags h
                     end;
         ts_composition := match comp with
                           | None => 0
                           | Some raw => if version_of trun_data =? 1 then i32 raw else raw
                           end |}, offset).

(** [for index in 0..sample_count]: the frames, the decode time and the data
    offset behind the run. *)
Fixpoint demux_samples (n : nat) (data : bytes) (h : TrafHeader) (trun_data : bytes) (trun_flags : Z)
    (first_flags : option Z) (index offset : nat) (sample_offset decode_time : Z) (out : list MediaFrame) :
    result (list MediaFrame * Z * Z) :=
  match n with
  | O => Ok (out, sample_offset, decode_time)
  | S n =>
      '(s, offset) ← read_trun_sample h trun_data trun_flags first_flags index offset;
      let sample_end := sample_offset + ts_size s in
      if 2 ^ 64 <=? sample_end then Err (Anyhow "CMAF sample offset overflow") else
      match get_z data sample_offset sample_end with
      | None => Err (Anyhow "CMAF sample data is truncated")
      | Some sample =>
          let t := tf_track h in
          let dts_ms := sat64 (decode_time * 1000) / timescale t in
          let pts_ticks :=
            if ts_composition s <? 0 then Z.max 0 (decode_time + ts_composition s)
            else sat64 (decode_time + ts_composition s) in
          let pts_ms := sat64 (pts_ticks * 1000) / timescale t in
          let key := ts_flags s .& 0x00010000 =? 0 in
          demux_samples n data h trun_data trun_flags first_flags (S index) offset sample_end
            (sat64 (decode_time + ts_duration s)) (out ++ [fragment_frame t dts_ms pts_ms sample key])
      end
  end.

Definition per_sample_bytes (trun_flags : Z) : Z :=
  4 * zlen (List.filter (has_flag trun_flags) [0x000100; 0x000200; 0x000400; 0x000800]).

(** The guards on [sample_count]. *)
Definition check_count (data : bytes) (h : TrafHeader) (trun_data : bytes) (trun_flags count : Z) (offset : nat)
    (sample_offset : Z) : result unit :=
  let per := per_sample_bytes trun_flags in
  if 0 <? per then
    if (length trun_data <? offset)%nat then Err (Anyhow "CMAF trun sample table is truncated") else
    if (zlen trun_data - Z.of_nat offset) / per <? count
    then Err (Anyhow "CMAF trun sample count exceeds its table") else Ok tt
  else if 0 <? count then
    if default_size h =? 0 then Err (Anyhow "CMAF trun samples have no size information") else
    if Z.max 0 (zlen data - sample_offset) / default_size h <? count
    then Err (Anyhow "CMAF trun sample count exceeds available media data") else Ok tt
  else Ok tt.

(** One [trun] box; the state is the frames, the implicit data offset and the
    decode time. *)
Definition demux_trun (data : bytes) (h : TrafHeader) (trun : BoxView) (st : list MediaFrame * Z * Z) :
    result (list MediaFrame * Z * Z) :=
  let '(out, implicit_data_offset, decode_time) := st in
  trun_data ← view_data data trun;
  v ← read_u32 trun_data 0;
  let trun_flags := v .& 0x00ffffff in
  count ← read_u32 trun_data 4;
  '(relative, offset) ← opt_field trun_data trun_flags 0x000001 8;
  sample_offset ← (match relative with
                   | Some raw =>
                       pos ← i64_checked (i64 (base_data_offset h) + i32 raw);
                       if pos <? 0 then Err (Anyhow "negative CMAF trun data offset") else Ok pos
                   | None => Ok implicit_data_offset
                   end);
  '(first_flags, offset) ← opt_field trun_data trun_flags 0x000004 offset;
  _ ← check_count data h trun_data trun_flags count offset sample_offset;
  demux_samples (Z.to_nat count) data h trun_data trun_flags first_flags 0 offset sample_offset decode_time out.

Fixpoint demux_truns (data : bytes) (h : TrafHeader) (truns : list BoxView) (st : list MediaFrame * Z * Z) :
    result (list MediaFrame * Z * Z) :=
  match truns with
  | [] => Ok st
  | v :: truns => st ← demux_trun data h v st; demux_truns data h truns st
  end.

Definition demux_traf (d : Fmp4Demuxer) (data : bytes) (moof mdat traf : BoxView) (out : list MediaFrame) :
    result (list MediaFrame) :=
  tfhd ← child data traf (ascii_bytes "tfhd");
  tfhd ← required tfhd "CMAF traf is missing tfhd";
  tfhd_data ← view_data data tfhd;
  h ← parse_tfhd d moof tfhd_data;
  decode_time ← parse_tfdt data traf;
  l ← boxes data (data_start traf) (view_end traf);
  '(out, _, _) ← demux_truns data h (of_kind (ascii_bytes "trun") l)
                   (out, Z.of_nat (data_start mdat), decode_time);
  Ok out.

Fixpoint demux_trafs (d : Fmp4Demuxer) (data : bytes) (moof mdat : BoxView) (trafs : list BoxView)
    (out : list MediaFrame) : result (list MediaFrame) :=
  match trafs with
  | [] => Ok out
  | v :: trafs => out ← demux_traf d data moof mdat v out; demux_trafs d data moof mdat trafs out
  end.

(** [sort_by_key(|frame| (frame.dts, frame.track_id))], a stable sort. *)
Definition key_le (a b : MediaFrame) : bool :=
  (dts a <? dts b) || ((dts a =? dts b) && (track_id a <=? track_id b)).

Definition demux_fragment (d : Fmp4Demuxer) (data : bytes) : result (list MediaFrame) :=
  top ← boxes data 0 (length data);
  moof ← required (find_kind (ascii_bytes "moof") top) "CMAF media segment is missing moof";
  mdat ← required (find_kind (ascii_bytes "mdat") top) "CMAF media segment is missing mdat";
  l ← boxes data (data_start moof) (view_end moof);
  frames ← demux_trafs d data moof mdat (of_kind (ascii_bytes "traf") l) [];
  Ok (stable_sort key_le frames).
