(* ===== verification/Fmp4Stream.v ===== *)
(** * Fmp4Stream: fragmented MP4 from muxer to demuxer

    What the demuxer reads from the segments of the muxer: the tracks of the
    initialization segment and the frames of a media segment. *)

From S2P Require Import Prelude Frame Payload Gop Bmff Fmp4Mux Fmp4Demux.
Open Scope Z_scope.

(** ** The initialization segment *)

(** The elementary configuration survives for two to five bytes. *)
Lemma extract_asc_esds cfg :
  (2 <= length cfg <= 5)%nat -> extract_asc (esds_data cfg) = Ok cfg.
Proof.
  intros Hl. destruct cfg as [|a [|b [|c [|d [|e [|f cfg]]]]]]; cbn [length] in Hl; try lia; reflexivity.
Qed.

Section Trak.
Context (data : bytes) (Hsmall : zlen data < 2 ^ 32).

  (** A sample description with one entry. *)
Lemma parse_stsd_written stsd k fields ck cfg c co ch :
    located data stsd (to_be 4 0 ++ to_be 4 1 ++ encode [(k, fields ++ make_box ck cfg)]) ->
    length k = 4%nat -> length ck = 4%nat -> co = (8 + 8 + length fields)%nat ->
    (forall rest, entry_codec (to_be 4 0 ++ to_be 4 1 ++ encode [(k, fields ++ rest)]) k = Ok (c, co, ch)) ->
    config_kind c = ck ->
    parse_stsd data stsd =
      (config ← (if bool_decide (c = AAC) then extract_asc cfg else Ok cfg); Ok (c, ch, config)).
Proof using Hsmall.
    intros Hl Hk Hck Hco Hec Hkind. pose proof (located_data _ _ _ Hl) as Hv.
    pose proof (located_bound _ _ _ Hl) as Hb. pose proof (loc_end _ _ _ Hl) as He.
    pose proof (loc_data _ _ _ Hl) as Hds.
    destruct (located_split _ _ _ Hl) as (pre & post & Hd & Hpre).
    set (entry := fields ++ make_box ck cfg) in *. set (sd := to_be 4 0 ++ to_be 4 1 ++ encode [(k, entry)]) in *.
    assert (Hle : length entry = (length fields + (8 + length cfg))%nat) by (unfold entry; by rewrite length_app, length_make_box).
    assert (Hsd : length sd = (16 + length entry)%nat).
    { unfold sd. rewrite !length_app, !length_to_be, length_encode_cons by done. cbn [length encode concat fmap list_fmap snd]. lia. }
    assert (Hz : 8 + zlen entry < 2 ^ 32) by (unfold zlen in *; lia).
    assert (Hsize : read_u32 sd 8 = Ok (8 + zlen entry)).
    { unfold sd, encode. cbn [fmap list_fmap concat]. unfold encode_box. cbn [fst snd].
      rewrite (app_assoc (to_be 4 0)). by apply read_u32_make_box. }
    assert (Hkd : slice sd 12 16 = (Ok k : result bytes)).
    { unfold sd, encode. cbn [fmap list_fmap concat]. unfold encode_box, make_box. cbn [fst snd].
      rewrite <-!app_assoc. rewrite !(app_assoc (to_be 4 0)), (app_assoc (to_be 4 0 ++ to_be 4 1)).
      apply slice_mid; rewrite !length_app, !length_to_be; lia. }
    unfold parse_stsd. rewrite Hv. cbn [mbind outcome_bind]. rewrite (proj2 (Nat.ltb_ge _ _)) by lia.
    rewrite Hsize. cbn [mbind outcome_bind].
    rewrite (proj2 (Z.ltb_ge _ _)), (proj2 (Z.ltb_ge _ _)) by (unfold zlen; lia). cbn [orb].
    rewrite Hkd. cbn [mbind outcome_bind]. unfold sd, entry. rewrite Hec. cbn [mbind outcome_bind]. fold entry.
    destruct (small_boxes_at data Hsmall (pre ++ to_be 4 0 ++ to_be 4 1 ++ to_be 4 (u32 (8 + u32 (zlen entry))) ++ k ++ fields)
      [(ck, cfg)] post (data_start stsd + co) (data_start stsd + 8 + Z.to_nat (8 + zlen entry))) as (vs & Hvs & HF & _).
    { rewrite Hd. unfold sd, encode. cbn [fmap list_fmap concat]. unfold encode_box at 1, make_box at 1. cbn [fst snd].
      rewrite <-!app_assoc. cbn [app]. unfold entry at 2. unfold encode_box. by rewrite <-!app_assoc. }
    { rewrite !length_app, !length_to_be. lia. }
    { rewrite length_encode_cons by done. cbn [encode fmap list_fmap concat length snd]. unfold zlen. lia. }
    { by repeat constructor. }
    rewrite Hvs. cbn [mbind outcome_bind].
    pose proof (find_views data vs _ (config_kind c) HF) as Hf. cbn [List.find fst] in Hf.
    rewrite (bool_decide_eq_true_2 (ck = config_kind c)) in Hf by done.
    destruct Hf as (v & Hfv & _ & Hlv). rewrite Hfv. cbn [required mbind outcome_bind].
    rewrite (located_data _ _ _ Hlv). done.
Qed.
(** The sample description of each codec. *)
Lemma parse_stsd_video stsd c cfg w h ts ch :
  c = H264 \/ c = H265 ->
  located data stsd (to_be 4 0 ++ to_be 4 1 ++ encode (sample_entry c cfg w h ts ch)) ->
  parse_stsd data stsd = Ok (c, 0, decoder_record cfg).
Proof using Hsmall.
  intros [-> | ->] Hl; cbn [sample_entry] in Hl.
  - rewrite (parse_stsd_written stsd _ _ _ _ H264 94 0 Hl); [reflexivity..].
  - rewrite (parse_stsd_written stsd _ _ _ _ H265 94 0 Hl); [reflexivity..].
Qed.

Lemma parse_stsd_audio stsd cfg w h ts ch :
  is_u16 ch -> (2 <= length (aac_config_of cfg) <= 5)%nat ->
  located data stsd (to_be 4 0 ++ to_be 4 1 ++ encode (sample_entry AAC cfg w h ts ch)) ->
  parse_stsd data stsd = Ok (AAC, ch, aac_config_of cfg).
Proof using Hsmall.
  intros Hch Hlen Hl. cbn [sample_entry] in Hl.
  rewrite (parse_stsd_written stsd _ _ _ _ AAC 44 ch Hl); [|reflexivity..| |reflexivity].
  - cbn [bool_decide decide]. change (bool_decide (AAC = AAC)) with true. cbv iota.
    by rewrite extract_asc_esds by done.
  - intros rest. unfold entry_codec.
    change (bool_decide (ascii_bytes "mp4a" = ascii_bytes "avc1" \/ ascii_bytes "mp4a" = ascii_bytes "avc3")) with false.
    change (bool_decide (ascii_bytes "mp4a" = ascii_bytes "hvc1" \/ ascii_bytes "mp4a" = ascii_bytes "hev1")) with false.
    change (bool_decide (ascii_bytes "mp4a" = ascii_bytes "mp4a")) with true. cbv iota. do 3 f_equal.
    unfold encode. cbn [fmap list_fmap concat]. unfold encode_box, make_box, audio_fields. cbn [fst snd].
    set (sz := to_be 4 (u32 _)).
    assert (Heq : forall x, to_be 4 0 ++ to_be 4 1 ++ (sz ++ ascii_bytes "mp4a" ++
        ((replicate 6 0 ++ to_be 2 1 ++ replicate 8 0 ++ to_be 2 (u16 ch) ++ x) ++ rest)) ++ [] =
      (to_be 4 0 ++ to_be 4 1 ++ sz ++ ascii_bytes "mp4a" ++ replicate 6 0 ++ to_be 2 1 ++ replicate 8 0) ++
        to_be 2 (u16 ch) ++ x ++ rest) by (intros; rewrite app_nil_r, <-!app_assoc; done).
    rewrite Heq, get_range_mid; [|reflexivity|by rewrite length_to_be].
    rewrite from_be_to_be. unfold u16. change (256 ^ Z.of_nat 2) with (2 ^ 16). rewrite Z.mod_mod by done.
    by rewrite Z.mod_small.
Qed.

(** The track the demuxer builds. *)
Definition track_of (channels track : Z) (c : CodecId) (cfg : bytes) (width height ts : Z) : FragmentTrack :=
  {| ft_id := track; ft_codec := c; timescale := Z.max ts 1; ft_width := width; ft_height := height;
     ft_channels := if bool_decide (c = AAC) then channels else 0;
     ft_config := if bool_decide (c = AAC) then aac_config_of cfg else decoder_record cfg |}.

Definition readable (c : CodecId) (cfg : bytes) : Prop :=
  c = H264 \/ c = H265 \/ (c = AAC /\ (2 <= length (aac_config_of cfg) <= 5)%nat).

Lemma fixed_point x : 0 <= x < 65536 -> u32 (x .<< 16) = x * 65536 /\ is_u32 (x * 65536) /\ (x * 65536) .>> 16 = x.
Proof using.
  intros Hx. unfold u32, is_u32. rewrite Z.shiftl_mul_pow2, Z.shiftr_div_pow2 by lia. change (2 ^ 16) with 65536.
  rewrite Z.mod_small, Z.div_mul by lia. lia.
Qed.

Lemma tkhd_fields track video w h :
  is_u32 track -> 0 <= w < 65536 -> 0 <= h < 65536 ->
  let d := (write_tkhd track video w h).2 in
  version_of d = 0 /\ read_u32 d 12 = Ok track /\ fixed_from_end d 8 = w /\ fixed_from_end d 4 = h.
Proof using.
  intros Ht Hw Hh d. destruct (fixed_point w Hw) as (Ew & Uw & Sw). destruct (fixed_point h Hh) as (Eh & Uh & Sh).
  unfold d, write_tkhd. cbn [snd]. rewrite Ew, Eh. split; [reflexivity|]. split_and!.
  - rewrite !(app_assoc (to_be 4 7)), (app_assoc (to_be 4 7 ++ _)). by apply read_u32_at.
  - unfold fixed_from_end. set (pre := to_be 4 7 ++ _).
    assert (Hp : exists q, pre = q ++ to_be 4 (w * 65536) ++ to_be 4 (h * 65536) /\ length q = 76%nat).
    { unfold pre. rewrite !app_assoc. rewrite <-(app_assoc _ (to_be 4 (w * 65536))). eexists. split; [reflexivity|].
      by rewrite !length_app, !length_to_be, !length_replicate. }
    destruct Hp as (q & -> & Hq).
    replace (length (q ++ to_be 4 (w * 65536) ++ to_be 4 (h * 65536))) with 84%nat by (rewrite !length_app, !length_to_be; lia).
    cbn [Nat.leb]. by rewrite read_u32_at by (done || lia).
  - unfold fixed_from_end. set (pre := to_be 4 7 ++ _).
    assert (Hp : exists q, pre = q ++ to_be 4 (h * 65536) /\ length q = 80%nat).
    { unfold pre. rewrite !app_assoc. eexists. split; [reflexivity|].
      by rewrite !length_app, !length_to_be, !length_replicate. }
    destruct Hp as (q & -> & Hq).
    replace (length (q ++ to_be 4 (h * 65536))) with 84%nat by (rewrite !length_app, !length_to_be; lia).
    cbn [Nat.leb]. rewrite <-(app_nil_r (to_be 4 (h * 65536))). by rewrite read_u32_at by (done || lia).
Qed.

Lemma mdhd_fields ts :
  is_u32 ts -> let d := (write_mdhd ts).2 in version_of d = 0 /\ read_u32 d 12 = Ok ts.
Proof using.
  intros Ht d. split; [reflexivity|]. unfold d, write_mdhd. cbn [snd].
  change (read_u32 ((to_be 4 0 ++ to_be 4 0 ++ to_be 4 0) ++ to_be 4 ts ++ (to_be 4 0 ++ to_be 2 0x55C4 ++ to_be 2 0)) 12 = Ok ts).
  by apply read_u32_at.
Qed.

Lemma parse_trak_written v ch track c cfg w h ts :
  located data v (write_trak ch track c cfg w h ts).2 -> readable c cfg ->
  is_u32 track -> is_u32 ts -> 0 <= w < 65536 -> 0 <= h < 65536 -> is_u16 ch ->
  parse_trak data v = Ok (track_of ch track c cfg w h ts).
Proof using Hsmall.
  intros Hl Hc Ht Hts Hw Hh Hch. unfold write_trak in Hl. cbn [snd] in Hl.
  set (video := bool_decide (c = H264 \/ c = H265)) in *.
  destruct (small_child data Hsmall v _ (ascii_bytes "tkhd") _ Hl ltac:(by repeat constructor) eq_refl) as (tkhd & Htk & _ & Ltk).
  destruct (small_child data Hsmall v _ (ascii_bytes "mdia") _ Hl ltac:(by repeat constructor) eq_refl) as (mdia & Hmd & _ & Lmd).
  destruct (small_child data Hsmall mdia _ (ascii_bytes "mdhd") _ Lmd ltac:(by repeat constructor) eq_refl) as (mdhd & Hmh & _ & Lmh).
  destruct (small_child data Hsmall mdia _ (ascii_bytes "minf") _ Lmd ltac:(by repeat constructor) eq_refl) as (minf & Hmi & _ & Lmi).
  assert (Hmf : kinds4 [write_media_header video; write_dinf; write_stbl c cfg w h ts ch])
    by (by destruct video; repeat constructor).
  destruct (small_child data Hsmall minf _ (ascii_bytes "stbl") (write_stbl c cfg w h ts ch).2 Lmi Hmf) as (stbl & Hsb & _ & Lsb);
    [by destruct video|].
  destruct (small_child data Hsmall stbl _ (ascii_bytes "stsd") _ Lsb ltac:(by repeat constructor) eq_refl) as (stsd & Hsd & _ & Lsd).
  unfold parse_trak. rewrite Htk. cbn [mbind outcome_bind required]. rewrite (located_data _ _ _ Ltk). cbn [mbind outcome_bind].
  destruct (tkhd_fields track video w h Ht Hw Hh) as (Hv & Hid & Hfw & Hfh).
  unfold write_tkhd in Hv, Hid, Hfw, Hfh. cbn [snd] in Hv, Hid, Hfw, Hfh.
  rewrite Hv. cbn [Z.eqb]. rewrite Hid. cbn [mbind outcome_bind]. rewrite Hfw, Hfh, Hmd. cbn [mbind outcome_bind required].
  rewrite Hmh. cbn [mbind outcome_bind required]. rewrite (located_data _ _ _ Lmh). cbn [mbind outcome_bind].
  destruct (mdhd_fields ts Hts) as (Hv2 & Hts2). unfold write_mdhd in Hv2, Hts2. cbn [snd] in Hv2, Hts2.
  rewrite Hv2. cbn [Z.eqb]. rewrite Hts2. cbn [mbind outcome_bind descendant].
  rewrite Hmi. cbn [mbind outcome_bind]. rewrite Hsb. cbn [mbind outcome_bind]. rewrite Hsd. cbn [mbind outcome_bind required].
  unfold track_of. destruct Hc as [->|[->|[-> Hlen]]].
  - rewrite (parse_stsd_video stsd H264 cfg w h ts ch) by auto. reflexivity.
  - rewrite (parse_stsd_video stsd H265 cfg w h ts ch) by auto. reflexivity.
  - rewrite (parse_stsd_audio stsd cfg w h ts ch Hch Hlen Lsd). reflexivity.
Qed.

End Trak.

(** ** Reachable muxers *)

Inductive fmp4_reachable (ts : Z) : Fmp4Muxer -> Prop :=
| reach_new : fmp4_reachable ts (fmp4_new ts)
| reach_push m f m' :
    fmp4_reachable ts m -> frame_ok f -> fmp4_push_frame m f = Ok m' -> fmp4_reachable ts m'
| reach_flush m : fmp4_reachable ts m -> fmp4_reachable ts (flush_segment m).2.

Definition samples_ok (ts : Z) (l : list Fmp4Sample) : Prop := Forall (fun s => sample_duration s = ts / 25) l.

(** The invariant: the fixed parameters, sample durations and the clock. *)
Record fmp4_inv (ts : Z) (m : Fmp4Muxer) : Prop := {
  inv_timescale : video_timescale m = ts;
  inv_fixed : mx_width m = 640 /\ mx_height m = 480 /\ mx_sample_rate m = 44100 /\ mx_channels m = 2;
  inv_video : samples_ok ts (video_samples m);
  inv_audio : samples_ok ts (audio_samples m);
  inv_time : 0 <= segment_start_time m <= total_duration m /\ total_duration m <= 2 ^ 32 * ts / 1000 + ts / 25;
  inv_base : match base_timestamp m with Some b => 0 <= b | None => True end;
  inv_seq : 0 <= segment_seq m
}.

Lemma inv_set_base ts m t : fmp4_inv ts m -> 0 <= t -> fmp4_inv ts (set_base m t).
Proof. by intros [? ? ? ? ? ? ?] ?; split. Qed.

Lemma inv_set_configs ts m vc ac vcfg acfg : fmp4_inv ts m -> fmp4_inv ts (set_configs m vc ac vcfg acfg).
Proof. by intros [? ? ? ? ? ? ?]; split. Qed.

Lemma push_config_inv ts m f m' : fmp4_inv ts m -> push_config m f = Ok m' -> fmp4_inv ts m'.
Proof.
  intros Hi. unfold push_config. destruct (frame_type f).
  - destruct (or_return (video_decoder_config f)) as [[b|]| | |]; try done; intros [= <-]; [by apply inv_set_configs|done].
  - set (r := if bool_decide (codec f = AAC) then _ else _). destruct r as [[b|]| | |]; try done; intros [= <-];
      [by apply inv_set_configs|done].
  - by intros [= <-].
Qed.

Lemma set_samples_inv ts m vs au lv la total :
  fmp4_inv ts m -> samples_ok ts vs -> samples_ok ts au ->
  total_duration m <= total <= 2 ^ 32 * ts / 1000 + ts / 25 -> fmp4_inv ts (set_samples m vs au lv la total).
Proof. intros [? ? ? ? [? ?] ? ?] ? ? ?. split; try done. cbn. lia. Qed.

Lemma push_inv ts m f m' :
  0 <= ts -> fmp4_inv ts m -> frame_ok f -> fmp4_push_frame m f = Ok m' -> fmp4_inv ts m'.
Proof.
  intros Hts Hi (_ & Htime & _). unfold fmp4_push_frame.
  set (m1 := match base_timestamp m with None => set_base m (timestamp f) | Some _ => m end).
  assert (Hi1 : fmp4_inv ts m1).
  { unfold m1. destruct (base_timestamp m) eqn:Hb; [done|]. apply inv_set_base; [done|]. by destruct Htime. }
  clearbody m1. clear Hi. destruct (config_frame f || is_config_frame f); [by apply push_config_inv|].
  destruct (push_data f) as [[b|]| | |]; try done; [|by intros [= <-]]. cbn [mbind outcome_bind].
  pose proof (inv_base _ _ Hi1) as Hb. set (rel := Z.max 0 (timestamp f - default 0 (base_timestamp m1))).
  assert (Hrel : 0 <= rel < 2 ^ 32).
  { unfold rel, is_u32 in *. destruct (base_timestamp m1); cbn [default from_option id]; lia. }
  clearbody rel. rewrite (inv_timescale _ _ Hi1).
  set (total := Z.max (total_duration m1) (rel * ts / 1000 + ts / 25)).
  assert (Htot : total_duration m1 <= total <= 2 ^ 32 * ts / 1000 + ts / 25).
  { pose proof (inv_time _ _ Hi1). assert (rel * ts / 1000 <= 2 ^ 32 * ts / 1000) by (apply Z.div_le_mono; [done|nia]).
    unfold total. lia. }
  clearbody total. destruct (frame_type f); intros [= <-]; apply set_samples_inv; try done;
    try apply (inv_video _ _ Hi1); try apply (inv_audio _ _ Hi1);
    (apply Forall_app; split; [apply (inv_video _ _ Hi1) || apply (inv_audio _ _ Hi1)|by apply Forall_singleton]).
Qed.

Lemma flush_inv ts m : fmp4_inv ts m -> fmp4_inv ts (flush_segment m).2.
Proof.
  intros [? ? ? ? [? ?] ? ?]. unfold flush_segment. destruct (video_samples m) eqn:Hv, (audio_samples m) eqn:Ha; cbn [snd];
    split; rewrite ?Hv, ?Ha; try done; cbn; try lia; try constructor.
Qed.

Lemma fmp4_reachable_inv ts m : 0 <= ts -> fmp4_reachable ts m -> fmp4_inv ts m.
Proof.
  intros Hts. induction 1 as [|m f m' _ IH Hf Hp|m _ IH]; [|by eapply push_inv|by apply flush_inv].
  split; cbn; try done; try constructor; try lia. pose proof (Z.div_pos (2 ^ 32 * ts) 1000). pose proof (Z.div_pos ts 25). lia.
Qed.

(** ** The tracks of the initialization segment *)

Definition opt_readable (c : option CodecId) (cfg : option bytes) (P : CodecId -> Prop) : Prop :=
  match c, cfg with
  | Some c, Some cfg => readable c cfg /\ P c
  | None, None => True
  | _, _ => False
  end.

Definition is_avc (c : CodecId) : Prop := c = H264 \/ c = H265.

Definition video_track (m : Fmp4Muxer) : option FragmentTrack :=
  match mx_video_codec m, mx_video_config m with
  | Some c, Some cfg => Some (track_of 2 1 c cfg 640 480 (video_timescale m))
  | _, _ => None
  end.

Definition audio_track (m : Fmp4Muxer) : option FragmentTrack :=
  match mx_audio_codec m, mx_audio_config m with
  | Some c, Some cfg => Some (track_of 2 2 c cfg 0 0 44100)
  | _, _ => None
  end.

Definition insert_track (t : option FragmentTrack) (d : Fmp4Demuxer) : Fmp4Demuxer :=
  match t with Some t => <[ft_id t := t]> d | None => d end.

Definition expected_tracks (m : Fmp4Muxer) : Fmp4Demuxer := insert_track (audio_track m) (insert_track (video_track m) ∅).

Lemma parse_traks_app data l1 l2 d d' :
  parse_traks data l1 d = Ok d' -> parse_traks data (l1 ++ l2) d = parse_traks data l2 d'.
Proof.
  revert d. induction l1 as [|v l1 IH]; intros d H; cbn [parse_traks app] in *; [by injection H as ->|].
  destruct (parse_trak data v); try done. cbn [mbind outcome_bind] in *. by apply IH.
Qed.

Lemma moov_kinds m : kinds4 ([write_mvhd] ++ video_trak m ++ audio_trak m ++ write_mvex m).
Proof.
  unfold video_trak, audio_trak, write_mvex. repeat apply Forall_app_2.
  - by repeat constructor.
  - destruct (mx_video_codec m), (mx_video_config m); by repeat constructor.
  - destruct (mx_audio_codec m), (mx_audio_config m); by repeat constructor.
  - destruct (mx_video_codec m), (mx_audio_codec m); by repeat constructor.
Qed.

Lemma moov_traks m :
  List.filter (fun b : abox => bool_decide (b.1 = ascii_bytes "trak"))
    ([write_mvhd] ++ video_trak m ++ audio_trak m ++ write_mvex m) = video_trak m ++ audio_trak m.
Proof.
  unfold video_trak, audio_trak, write_mvex.
  destruct (mx_video_codec m), (mx_video_config m), (mx_audio_codec m), (mx_audio_config m); reflexivity.
Qed.

Lemma parse_video_trak data m vs :
  zlen data < 2 ^ 32 -> fmp4_inv (video_timescale m) m -> is_u32 (video_timescale m) ->
  opt_readable (mx_video_codec m) (mx_video_config m) is_avc ->
  Forall2 (fun v b => located data v b.2) vs (video_trak m) ->
  forall d, parse_traks data vs d = Ok (insert_track (video_track m) d).
Proof.
  intros Hs [_ (Hw & Hh & _ & Hch) _ _ _ _] Hts Hr HF d. unfold video_trak, video_track, opt_readable in *.
  destruct (mx_video_codec m) as [c|], (mx_video_config m) as [cfg|]; try done;
    [|by apply Forall2_nil_inv_r in HF as ->].
  apply Forall2_cons_inv_r in HF as (v & vs' & Hv & ->%Forall2_nil_inv_r & ->). cbn [parse_traks].
  rewrite Hw, Hh, Hch in Hv.
  by rewrite (parse_trak_written data Hs v 2 1 c cfg 640 480 _ Hv) by (done || apply Hr).
Qed.

Lemma parse_audio_trak data m vs :
  zlen data < 2 ^ 32 -> fmp4_inv (video_timescale m) m ->
  opt_readable (mx_audio_codec m) (mx_audio_config m) (fun c => c = AAC) ->
  Forall2 (fun v b => located data v b.2) vs (audio_trak m) ->
  forall d, parse_traks data vs d = Ok (insert_track (audio_track m) d).
Proof.
  intros Hs [_ (_ & _ & Hsr & Hch) _ _ _ _] Hr HF d. unfold audio_trak, audio_track, opt_readable in *.
  destruct (mx_audio_codec m) as [c|], (mx_audio_config m) as [cfg|]; try done;
    [|by apply Forall2_nil_inv_r in HF as ->].
  apply Forall2_cons_inv_r in HF as (v & vs' & Hv & ->%Forall2_nil_inv_r & ->). cbn [parse_traks].
  rewrite Hsr, Hch in Hv.
  by rewrite (parse_trak_written data Hs v 2 2 c cfg 0 0 44100 Hv) by (done || apply Hr).
Qed.

Lemma expected_tracks_nonempty m : video_track m <> None \/ audio_track m <> None -> expected_tracks m <> ∅.
Proof.
  intros H. unfold expected_tracks. destruct (audio_track m); cbn [insert_track]; [apply insert_non_empty|].
  destruct (video_track m); cbn [insert_track]; [apply insert_non_empty|]. by destruct H.
Qed.

Lemma init_read m :
  fmp4_inv (video_timescale m) m -> is_u32 (video_timescale m) -> zlen (build_init_segment m) < 2 ^ 32 ->
  opt_readable (mx_video_codec m) (mx_video_config m) is_avc ->
  opt_readable (mx_audio_codec m) (mx_audio_config m) (fun c => c = AAC) ->
  video_track m <> None \/ audio_track m <> None ->
  from_init_segment (build_init_segment m) = Ok (expected_tracks m).
Proof.
  intros Hi Hts Hs Hv Ha Hne. set (data := build_init_segment m) in *. unfold from_init_segment.
  destruct (small_boxes_at data Hs [] [write_ftyp m; write_moov m] [] 0 (length data)) as (top & Ht & HFt & _).
  { by rewrite app_nil_r. } { done. } { done. } { by repeat constructor. }
  rewrite Ht. cbn [mbind outcome_bind].
  pose proof (find_views data top _ (ascii_bytes "moov") HFt) as Hf.
  change (List.find _ [write_ftyp m; write_moov m]) with (Some (write_moov m)) in Hf. cbv iota in Hf.
  destruct Hf as (moov & -> & _ & Lm). cbn [required mbind outcome_bind].
  destruct (small_boxes data Hs moov _ Lm (moov_kinds m)) as (vs & Hvs & HF). rewrite Hvs. cbn [mbind outcome_bind].
  pose proof (filter_views data vs _ (ascii_bytes "trak") HF) as Hfl. rewrite moov_traks in Hfl.
  fold (of_kind (ascii_bytes "trak") vs) in Hfl. apply Forall2_app_inv_r in Hfl as (l1 & l2 & H1 & H2 & ->).
  rewrite (parse_traks_app _ _ _ _ _ (parse_video_trak data m l1 Hs Hi Hts Hv H1 ∅)).
  rewrite (parse_audio_trak data m l2 Hs Hi Ha H2). cbn [mbind outcome_bind]. fold (expected_tracks m).
  rewrite bool_decide_eq_false_2 by (by apply expected_tracks_nonempty). done.
Qed.

(** ** Media segments *)

(** The frames a run of samples stands for. *)
Fixpoint sent_frames (t : FragmentTrack) (decode : Z) (l : list Fmp4Sample) : list MediaFrame :=
  match l with
  | [] => []
  | s :: l =>
      let ms := decode * 1000 / timescale t in
      fragment_frame t ms ms (sample_data s) (is_sync s) :: sent_frames t (decode + sample_duration s) l
  end.

Lemma length_trun_entry s : length (trun_entry s) = 12%nat.
Proof. unfold trun_entry. by rewrite !length_app, !length_to_be. Qed.

Lemma read_trun_written h hd s tl index offset :
  offset = length hd -> is_u32 (sample_duration s) -> zlen (sample_data s) < 2 ^ 32 ->
  read_trun_sample h (hd ++ trun_entry s ++ tl) 0x701 None index offset =
  Ok ({| ts_duration := sample_duration s; ts_size := zlen (sample_data s);
         ts_flags := if is_sync s then 0x02000000 else 0x01010000; ts_composition := 0 |}, (offset + 12)%nat).
Proof.
  intros -> Hd Hz. set (td := hd ++ trun_entry s ++ tl).
  assert (Hu : u32 (zlen (sample_data s)) = zlen (sample_data s)) by (unfold u32; apply Z.mod_small; unfold zlen in *; lia).
  set (a := to_be 4 (sample_duration s)). set (b := to_be 4 (zlen (sample_data s))).
  set (c := to_be 4 (if is_sync s then 0x02000000 else 0x01010000)).
  assert (Htd : td = hd ++ a ++ b ++ c ++ tl) by (unfold td, trun_entry; rewrite Hu, <-!app_assoc; done).
  assert (H1 : read_u32 td (length hd) = Ok (sample_duration s)) by (rewrite Htd; by apply read_u32_at).
  assert (H2 : read_u32 td (length hd + 4) = Ok (zlen (sample_data s))).
  { rewrite Htd, app_assoc. apply read_u32_at; [by rewrite length_app; unfold a; rewrite length_to_be|].
    unfold is_u32, zlen in *. lia. }
  assert (H3 : read_u32 td (length hd + 4 + 4) = Ok (if is_sync s then 0x02000000 else 0x01010000)).
  { rewrite Htd, app_assoc, (app_assoc (hd ++ a)). apply read_u32_at;
      [rewrite !length_app; unfold a, b; rewrite !length_to_be; lia|]. by destruct (is_sync s). }
  unfold read_trun_sample, opt_field.
  change (has_flag 0x701 0x100) with true. change (has_flag 0x701 0x200) with true.
  change (has_flag 0x701 0x400) with true. change (has_flag 0x701 0x800) with false. cbv iota.
  rewrite H1. cbn [mbind outcome_bind]. rewrite H2. cbn [mbind outcome_bind]. rewrite H3. cbn [mbind outcome_bind default from_option id].
  do 2 f_equal. lia.
Qed.

Lemma demux_samples_written data h dur samples hd tl pre post index so dec out td :
  td = hd ++ concat (trun_entry <$> samples) ++ tl ->
  data = pre ++ concat (sample_data <$> samples) ++ post -> so = zlen pre ->
  zlen data < 2 ^ 32 -> Forall (fun s => sample_duration s = dur) samples -> is_u32 dur ->
  0 <= dec -> (dec + Z.of_nat (length samples) * dur) * 1000 < 2 ^ 64 -> 0 < timescale (tf_track h) ->
  exists so' dec', demux_samples (length samples) data h td 0x701 None index (length hd) so dec out =
    Ok (out ++ sent_frames (tf_track h) dec samples, so', dec').
Proof.
  intros Htd Hdata Hso Hz Hdur Hd32. revert hd pre index so dec out Htd Hdata Hso.
  induction Hdur as [|s samples Hs Hdur IH]; intros hd pre index so dec out Htd Hdata Hso Hdec Hb Ht.
  { exists so, dec. cbn. by rewrite app_nil_r. }
  cbn [length demux_samples]. rewrite fmap_cons in Htd, Hdata. cbn [concat] in Htd, Hdata. rewrite <-app_assoc in Htd, Hdata.
  assert (Hsz : zlen (sample_data s) + zlen pre <= zlen data).
  { rewrite Hdata. unfold zlen. rewrite !length_app. lia. }
  assert (Hrt := read_trun_written h hd s (concat (trun_entry <$> samples) ++ tl) index (length hd) eq_refl).
  rewrite <-Htd in Hrt. rewrite Hrt by (rewrite ?Hs; done || unfold zlen in *; lia).
  cbn [mbind outcome_bind ts_size ts_composition ts_flags ts_duration].
  rewrite (proj2 (Z.leb_gt _ _)) by (unfold zlen in *; lia).
  assert (Hg : get_z data so (so + zlen (sample_data s)) = Some (sample_data s)).
  { unfold get_z. rewrite (proj2 (Z.leb_le _ _)), (proj2 (Z.leb_le _ _)) by (unfold zlen in *; lia). cbn [andb].
    rewrite Hdata. apply get_range_mid; subst so; unfold zlen; lia. }
  rewrite Hg. change (0 <? 0) with false. cbv iota. rewrite Z.add_0_r.
  cbn [length] in Hb. unfold is_u32 in Hd32. assert (0 <= Z.of_nat (length samples) * dur) by nia.
  assert (Hsat : sat64 dec = dec) by (unfold sat64; lia).
  assert (Hsat2 : sat64 (dec * 1000) = dec * 1000) by (unfold sat64; lia).
  assert (Hsat3 : sat64 (dec + sample_duration s) = dec + sample_duration s) by (unfold sat64; rewrite Hs; lia).
  rewrite Hsat, Hsat2, Hsat3.
  assert (Hkey : ((if is_sync s then 0x02000000 else 0x01010000) .& 0x00010000 =? 0) = is_sync s) by (by destruct (is_sync s)).
  rewrite Hkey.
  replace (length hd + 12)%nat with (length (hd ++ trun_entry s)) by (rewrite length_app, length_trun_entry; done).
  destruct (IH (hd ++ trun_entry s) (pre ++ sample_data s) (S index) (so + zlen (sample_data s)) (dec + sample_duration s)
    (out ++ [fragment_frame (tf_track h) (dec * 1000 / timescale (tf_track h)) (dec * 1000 / timescale (tf_track h)) (sample_data s) (is_sync s)]))
    as (so' & dec' & HI).
  { by rewrite <-app_assoc. } { by rewrite <-app_assoc. } { subst so. by rewrite zlen_app. } { rewrite Hs. lia. } { rewrite Hs. lia. } { done. }
  exists so', dec'. rewrite HI, <-app_assoc. done.
Qed.

Lemma length_trun_entries l : length (concat (trun_entry <$> l)) = (12 * length l)%nat.
Proof.
  induction l as [|s l IH]; [done|]. rewrite fmap_cons. cbn [concat length]. rewrite length_app, length_trun_entry, IH. lia.
Qed.

Section Traf.
Context (data : bytes) (Hsmall : zlen data < 2 ^ 31) (d : Fmp4Demuxer) (moof mdat : BoxView).
Context (t : FragmentTrack) (start off dur : Z) (samples : list Fmp4Sample) (pre post : bytes).
Context (Hdata : data = pre ++ concat (sample_data <$> samples) ++ post).
Context (Hoff : Z.of_nat (view_start moof) + off = zlen pre) (Hoff0 : 0 <= off).
Context (Hdur : Forall (fun s => sample_duration s = dur) samples) (Hdur32 : is_u32 dur).
Context (Hstart : 0 <= start) (Hclock : (start + Z.of_nat (length samples) * dur) * 1000 < 2 ^ 64).
Context (Htsc : 0 < timescale t).

Lemma small32 : zlen data < 2 ^ 32.
Proof using Hsmall. clear -Hsmall. lia. Qed.

Lemma demux_trun_written h trun implicit out :
  tf_track h = t -> base_data_offset h = Z.of_nat (view_start moof) ->
  located data trun (to_be 4 0x000701 ++ to_be 4 (u32 (zlen samples)) ++ to_be 4 off ++ concat (trun_entry <$> samples)) ->
  exists x y, demux_trun data h trun (out, implicit, start) = Ok (out ++ sent_frames t start samples, x, y).
Proof using Hsmall Hdata Hoff Hoff0 Hdur Hdur32 Hstart Hclock Htsc.
  intros Ht Hbase Hl. pose proof (located_bound _ _ _ Hl) as Hb. pose proof (loc_end _ _ _ Hl) as He.
  rewrite !length_app, !length_to_be, length_trun_entries in He.
  assert (Hpre : zlen pre <= zlen data) by (rewrite Hdata; unfold zlen; rewrite !length_app; lia).
  assert (Hcnt : u32 (zlen samples) = zlen samples) by (unfold u32, zlen in *; apply Z.mod_small; lia).
  rewrite Hcnt in Hl. set (td := to_be 4 0x000701 ++ _) in Hl.
  assert (Htd : length td = (12 + 12 * length samples)%nat) by (unfold td; rewrite !length_app, !length_to_be, length_trun_entries; lia).
  assert (H0 : read_u32 td 0 = Ok 0x701).
  { unfold td. apply (read_u32_at [] 0x701); done. }
  assert (H4 : read_u32 td 4 = Ok (zlen samples)).
  { unfold td. apply read_u32_at; [done|]. unfold is_u32, zlen in *. lia. }
  assert (H8 : read_u32 td 8 = Ok off).
  { unfold td. rewrite app_assoc. apply read_u32_at; [done|]. unfold is_u32, zlen in *. lia. }
  unfold demux_trun. rewrite (located_data _ _ _ Hl). cbn [mbind outcome_bind]. rewrite H0. cbn [mbind outcome_bind].
  change (0x701 .& 0x00ffffff) with 0x701. rewrite H4. cbn [mbind outcome_bind]. unfold opt_field.
  change (has_flag 0x701 0x000001) with true. change (has_flag 0x701 0x000004) with false. cbv iota. rewrite H8. cbn [mbind outcome_bind].
  assert (Hi : i64_checked (i64 (base_data_offset h) + i32 off) = (Ok (zlen pre) : result Z)).
  { rewrite Hbase. unfold i64_checked, i64, i32, zlen in *. rewrite !Z.mod_small by lia.
    replace (Z.of_nat (view_start moof) + 2 ^ 63 - 2 ^ 63 + (off + 2 ^ 31 - 2 ^ 31)) with (Z.of_nat (length pre)) by lia.
    by rewrite (proj2 (Z.leb_le _ _)), (proj2 (Z.ltb_lt _ _)) by lia. }
  rewrite Hi. cbn [mbind outcome_bind]. rewrite (proj2 (Z.ltb_ge _ _)) by (unfold zlen; lia). cbn [mbind outcome_bind].
  assert (Hc : check_count data h td 0x701 (zlen samples) (8 + 4) (zlen pre) = Ok tt).
  { unfold check_count. change (per_sample_bytes 0x701) with 12. change (0 <? 12) with true. cbv iota.
    rewrite (proj2 (Nat.ltb_ge _ _)) by lia.
    replace ((zlen td - Z.of_nat (8 + 4)) / 12) with (zlen samples)
      by (unfold zlen; rewrite Htd; apply (Z.div_unique _ 12 _ 0); lia).
    by rewrite Z.ltb_irrefl. }
  rewrite Hc. cbn [mbind outcome_bind].
  replace (Z.to_nat (zlen samples)) with (length samples) by (unfold zlen; lia).
  destruct (demux_samples_written data h dur samples (to_be 4 0x701 ++ to_be 4 (zlen samples) ++ to_be 4 off) [] pre post
    0 (zlen pre) start out td) as (x & y & HD);
    [unfold td; by rewrite app_nil_r, <-!app_assoc|done|done|apply small32|done|done|done|done|by rewrite Ht|].
  rewrite Ht in HD. exists x, y. exact HD.
Qed.

Lemma demux_traf_written traf track out :
  located data traf (build_traf track start samples off).2 -> is_u32 track -> start < 2 ^ 64 -> d !! track = Some t ->
  demux_traf d data moof mdat traf out = Ok (out ++ sent_frames t start samples).
Proof using Hsmall Hdata Hoff Hoff0 Hdur Hdur32 Hstart Hclock Htsc.
  intros Hl Htr Hs64 Hd. unfold build_traf in Hl. cbn [snd] in Hl. pose proof small32 as Hs.
  destruct (small_child data Hs traf _ (ascii_bytes "tfhd") _ Hl ltac:(by repeat constructor) eq_refl) as (tfhd & Htf & _ & Ltf).
  destruct (small_child data Hs traf _ (ascii_bytes "tfdt") _ Hl ltac:(by repeat constructor) eq_refl) as (tfdt & Htd & _ & Ltd).
  destruct (small_boxes data Hs traf _ Hl ltac:(by repeat constructor)) as (vs & Hvs & HF).
  pose proof (filter_views data vs _ (ascii_bytes "trun") HF) as Hfl. fold (of_kind (ascii_bytes "trun") vs) in Hfl.
  match type of Hfl with Forall2 _ _ (List.filter _ [_; _; ?tr]) =>
    change (List.filter (fun b : abox => bool_decide (b.1 = ascii_bytes "trun")) _) with [tr] in Hfl end.
  apply Forall2_cons_inv_r in Hfl as (trun & vs' & Ltrun & ->%Forall2_nil_inv_r & Hkind). cbn [snd] in Ltrun.
  unfold demux_traf. rewrite Htf. cbn [mbind outcome_bind required]. rewrite (located_data _ _ _ Ltf). cbn [mbind outcome_bind].
  assert (H0 : read_u32 (to_be 4 0x020000 ++ to_be 4 track) 0 = Ok 0x020000) by (apply (read_u32_at [] 0x020000); done).
  assert (H4 : read_u32 (to_be 4 0x020000 ++ to_be 4 track) 4 = Ok track).
  { rewrite <-(app_nil_r (to_be 4 track)). by apply read_u32_at. }
  unfold parse_tfhd. rewrite H0. cbn [mbind outcome_bind]. rewrite H4. cbn [mbind outcome_bind]. rewrite Hd.
  change (0x020000 .& 0x00ffffff) with 0x020000. unfold opt_field.
  change (has_flag 0x020000 0x000001) with false. change (has_flag 0x020000 0x000002) with false.
  change (has_flag 0x020000 0x000008) with false. change (has_flag 0x020000 0x000010) with false.
  change (has_flag 0x020000 0x000020) with false. cbv iota. cbn [mbind outcome_bind default from_option id].
  unfold parse_tfdt. rewrite Htd. cbn [mbind outcome_bind]. rewrite (located_data _ _ _ Ltd). cbn [mbind outcome_bind].
  change (version_of (to_be 4 (1 .<< 24) ++ to_be 8 start)) with 1. change (1 =? 1) with true. cbv iota.
  assert (H8 : read_u64 (to_be 4 (1 .<< 24) ++ to_be 8 start) 4 = Ok start).
  { rewrite <-(app_nil_r (to_be 8 start)). by apply read_u64_at. }
  rewrite H8. cbn [mbind outcome_bind]. rewrite Hvs. cbn [mbind outcome_bind]. rewrite Hkind. cbn [demux_truns].
  match goal with |- context [demux_trun data ?h trun (out, ?i, start)] =>
    destruct (demux_trun_written h trun i out eq_refl eq_refl Ltrun) as (x & y & ->) end.
  done.
Qed.
End Traf.

Lemma length_encode_box_snd (k d d' : bytes) : length d = length d' -> length (encode_box (k, d)) = length (encode_box (k, d')).
Proof. intros H. unfold encode_box, make_box. cbn [fst snd]. by rewrite !length_app, !length_to_be, H. Qed.

Lemma length_traf track start samples off off' :
  length (encode_box (build_traf track start samples off)) = length (encode_box (build_traf track start samples off')).
Proof.
  unfold build_traf. apply length_encode_box_snd. unfold encode. cbn [fmap list_fmap concat]. unfold encode_box, make_box. cbn [fst snd].
  by rewrite !length_app, !length_to_be.
Qed.

Lemma length_moof seq start video audio off off' :
  length (encode_box (build_moof seq start video audio off)) = length (encode_box (build_moof seq start video audio off')).
Proof.
  unfold build_moof. apply length_encode_box_snd. unfold encode. rewrite !fmap_app, !concat_app, !length_app. f_equal.
  destruct video, audio; cbn [fmap list_fmap concat]; rewrite ?length_app;
    rewrite ?(length_traf 1 _ _ off off'), ?(length_traf 2 _ _ (u32 (off + _)) (u32 (off' + _))); done.
Qed.

Lemma samples_size_small l : zlen (concat (sample_data <$> l)) < 2 ^ 32 -> samples_size l = zlen (concat (sample_data <$> l)).
Proof.
  unfold samples_size. intros H. assert (Hg : forall acc, 0 <= acc -> acc + zlen (concat (sample_data <$> l)) < 2 ^ 32 ->
    foldl (fun acc s => u32 (acc + u32 (zlen (sample_data s)))) acc l = acc + zlen (concat (sample_data <$> l))).
  { clear H. induction l as [|s l IH]; intros acc H0 H; [cbn; unfold zlen; cbn; lia|].
    rewrite fmap_cons in *. cbn [concat foldl] in *. rewrite zlen_app in *.
    assert (0 <= zlen (sample_data s) /\ 0 <= zlen (concat (sample_data <$> l))) by (unfold zlen; lia).
    assert (u32 (acc + u32 (zlen (sample_data s))) = acc + zlen (sample_data s)) as ->
      by (unfold u32; rewrite (Z.mod_small (zlen _)), Z.mod_small by lia; done).
    rewrite IH by lia. lia. }
  rewrite Hg by lia. lia.
Qed.

Section Segment.
Context (d : Fmp4Demuxer) (seq start dur : Z) (video audio : list Fmp4Sample) (tv ta : FragmentTrack).
Let data := build_media_segment seq start video audio.
Context (Hsmall : zlen data < 2 ^ 31).
Context (Hv : video <> [] -> d !! 1 = Some tv) (Ha : audio <> [] -> d !! 2 = Some ta).
Context (Htv : 0 < timescale tv) (Hta : 0 < timescale ta).
Context (Hdv : Forall (fun s => sample_duration s = dur) video) (Hda : Forall (fun s => sample_duration s = dur) audio).
Context (Hdur : is_u32 dur) (Hstart : 0 <= start).
Context (Hcv : (start + Z.of_nat (length video) * dur) * 1000 < 2 ^ 64).
Context (Hca : (start + Z.of_nat (length audio) * dur) * 1000 < 2 ^ 64).

(** The data offset of the fragment: the length of the moof box and a header. *)
Let L : nat := length (encode_box (build_moof seq start video audio 0)).
Let moof_box : abox := build_moof seq start video audio (Z.of_nat L + 8).
Let styp_box : abox := (ascii_bytes "styp", ascii_bytes "msdhmsixiso6cmfc").
Let mdat_box : abox := (ascii_bytes "mdat", build_mdat video audio).

Lemma segment_layout :
  data = encode [styp_box; moof_box; mdat_box] /\ length (encode_box moof_box) = L /\
  zlen data = 24 + Z.of_nat L + 8 + zlen (build_mdat video audio).
Proof using Hsmall.
  assert (Hd : forall off, length (encode [styp_box; build_moof seq start video audio off; mdat_box]) =
    (24 + L + (8 + length (build_mdat video audio)))%nat).
  { intros off. unfold encode. cbn [fmap list_fmap concat]. rewrite !length_app.
    rewrite (length_moof seq start video audio off 0). fold L.
    change (length (encode_box styp_box)) with 24%nat. unfold mdat_box, encode_box. cbn [fst snd].
    rewrite length_make_box by done. cbn [length]. lia. }
  pose proof (Hd (u32 (u32 (zlen (encode_box (build_moof seq start video audio 0))) + 8))) as Hdata.
  change (length data = (24 + L + (8 + length (build_mdat video audio)))%nat) in Hdata.
  assert (u32 (u32 (zlen (encode_box (build_moof seq start video audio 0))) + 8) = Z.of_nat L + 8) as Hoff.
  { unfold u32, zlen in *. fold L. rewrite (Z.mod_small (Z.of_nat L)), Z.mod_small by lia. done. }
  split; [|split].
  - unfold data, build_media_segment. cbv zeta. rewrite Hoff. done.
  - apply length_moof.
  - unfold zlen. rewrite Hdata. lia.
Qed.

Lemma segment_read : demux_fragment d data = Ok (stable_sort key_le (sent_frames tv start video ++ sent_frames ta start audio)).
Proof using Hsmall Hv Ha Htv Hta Hdv Hda Hdur Hstart Hcv Hca.
  destruct segment_layout as (Hd & HL & Hz). assert (Hs32 : zlen data < 2 ^ 32) by (clear -Hsmall; lia).
  destruct (small_boxes_at data Hs32 [] [styp_box; moof_box; mdat_box] [] 0 (length data)) as (top & Ht & HFt & HS).
  { by rewrite Hd, app_nil_r. } { done. } { by rewrite Hd. } { by repeat constructor. }
  apply Forall2_cons_inv_r in HFt as (v0 & top1 & [K0 L0] & HFt & ->).
  apply Forall2_cons_inv_r in HFt as (moof & top2 & [K1 L1] & HFt & ->).
  apply Forall2_cons_inv_r in HFt as (mdat & top3 & [K2 L2] & ->%Forall2_nil_inv_r & ->).
  cbn [fst] in K0, K1, K2.
  assert (Hinj : forall a b c x y z : nat, [a; b; c] = [x; y; z] -> b = y /\ c = z) by (intros; by simplify_eq).
  destruct (Hinj _ _ _ 0%nat 24%nat (24 + 8 + length moof_box.2)%nat HS) as [HS1 HS2].
  assert (HL8 : (8 + length moof_box.2)%nat = L) by (rewrite <-HL; unfold encode_box; by rewrite length_make_box).
  unfold demux_fragment. rewrite Ht. cbn [mbind outcome_bind].
  assert (find_kind (ascii_bytes "moof") [v0; moof; mdat] = Some moof) as ->.
  { unfold find_kind. cbn [List.find]. rewrite K0, K1. reflexivity. }
  assert (find_kind (ascii_bytes "mdat") [v0; moof; mdat] = Some mdat) as ->.
  { unfold find_kind. cbn [List.find]. rewrite K0, K1, K2. reflexivity. }
  cbn [required mbind outcome_bind].
  destruct (located_split _ _ _ L2) as (pre & post & Hsplit & Hpre). change (mdat_box.2) with (build_mdat video audio) in Hsplit.
  assert (Hpz : Z.of_nat (view_start moof) + (Z.of_nat L + 8) = zlen pre).
  { pose proof (loc_data _ _ _ L2). unfold zlen. lia. }
  assert (Hpz2 : zlen pre + zlen (concat (sample_data <$> video)) <= zlen data).
  { rewrite Hsplit. unfold build_mdat, zlen. rewrite !length_app. lia. }
  assert (Hoff2 : u32 (Z.of_nat L + 8 + samples_size video) = Z.of_nat L + 8 + zlen (concat (sample_data <$> video))).
  { unfold zlen in *. rewrite samples_size_small by (unfold zlen; lia). unfold u32, zlen. apply Z.mod_small. lia. }
  unfold moof_box, build_moof in L1. cbn [snd] in L1.
  destruct (small_boxes data Hs32 moof _ L1) as (vs & Hvs & HF).
  { repeat apply Forall_app_2; [by repeat constructor|by destruct video; repeat constructor|by destruct audio; repeat constructor]. }
  rewrite Hvs. cbn [mbind outcome_bind].
  pose proof (filter_views data vs _ (ascii_bytes "traf") HF) as Hfl. fold (of_kind (ascii_bytes "traf") vs) in Hfl.
  rewrite !List.filter_app in Hfl. change (List.filter _ [(ascii_bytes "mfhd", _)]) with (@nil abox) in Hfl. cbn [app] in Hfl.
  assert (Hdv' : data = pre ++ concat (sample_data <$> video) ++ (concat (sample_data <$> audio) ++ post)).
  { rewrite Hsplit. unfold build_mdat. by rewrite <-!app_assoc. }
  assert (Hda' : data = (pre ++ concat (sample_data <$> video)) ++ concat (sample_data <$> audio) ++ post).
  { rewrite Hdv'. by rewrite <-!app_assoc. }
  assert (Hs64 : start < 2 ^ 64) by (unfold is_u32 in Hdur; nia).
  apply Forall2_app_inv_r in Hfl as (l1 & l2 & H1 & H2 & Hvs2). rewrite Hvs2.
  assert (HV : forall out, demux_trafs d data moof mdat l1 out = Ok (out ++ sent_frames tv start video)).
  { intros out. destruct video as [|s video'] eqn:Hvid.
    { apply Forall2_nil_inv_r in H1 as ->. cbn. by rewrite app_nil_r. }
    change (List.filter _ [build_traf 1 start (s :: video') ?o]) with [build_traf 1 start (s :: video') o] in H1.
    apply Forall2_cons_inv_r in H1 as (traf & ? & Lt & ->%Forall2_nil_inv_r & ->). cbn [demux_trafs].
    rewrite (demux_traf_written data Hsmall d moof mdat tv start (Z.of_nat L + 8) dur (s :: video') pre
      (concat (sample_data <$> audio) ++ post)) with (track := 1) by (done || lia || by apply Hv). done. }
  assert (HA : forall out, demux_trafs d data moof mdat l2 out = Ok (out ++ sent_frames ta start audio)).
  { intros out. destruct audio as [|s audio'] eqn:Haud.
    { apply Forall2_nil_inv_r in H2 as ->. cbn. by rewrite app_nil_r. }
    rewrite Hoff2 in H2.
    change (List.filter _ [build_traf 2 start (s :: audio') ?o]) with [build_traf 2 start (s :: audio') o] in H2.
    apply Forall2_cons_inv_r in H2 as (traf & ? & Lt & ->%Forall2_nil_inv_r & ->). cbn [demux_trafs].
    rewrite (demux_traf_written data Hsmall d moof mdat ta start (Z.of_nat L + 8 + zlen (concat (sample_data <$> video))) dur
      (s :: audio') (pre ++ concat (sample_data <$> video)) post) with (track := 2); [done|done|rewrite zlen_app; lia|unfold zlen; lia|done..|by apply Ha]. }
  assert (HT : forall l1 l2 o o', demux_trafs d data moof mdat l1 o = Ok o' ->
    demux_trafs d data moof mdat (l1 ++ l2) o = demux_trafs d data moof mdat l2 o').
  { clear. induction l1 as [|v l1 IH]; intros l2 o o' H; cbn [demux_trafs app] in *; [by injection H as ->|].
    destruct (demux_traf d data moof mdat v o); try done. cbn [mbind outcome_bind] in *. by apply IH. }
  rewrite (HT l1 l2 [] _ (HV [])), HA. cbn [mbind outcome_bind app]. done.
Qed.
End Segment.

(** ** The order of the frames *)

Lemma key_le_total a b : key_le a b = false -> key_le b a = true.
Proof.
  unfold key_le. destruct (Z.ltb_spec (dts a) (dts b)), (Z.eqb_spec (dts a) (dts b)), (Z.leb_spec (track_id a) (track_id b)),
    (Z.ltb_spec (dts b) (dts a)), (Z.eqb_spec (dts b) (dts a)), (Z.leb_spec (track_id b) (track_id a)); cbn; try done; lia.
Qed.

Lemma key_le_spec a b : key_le a b = true <-> dts a < dts b \/ (dts a = dts b /\ track_id a <= track_id b).
Proof. unfold key_le. rewrite orb_true_iff, andb_true_iff, Z.ltb_lt, Z.eqb_eq, Z.leb_le. done. Qed.

Lemma key_le_trans a b c : key_le a b = true -> key_le b c = true -> key_le a c = true.
Proof. rewrite !key_le_spec. lia. Qed.

Definition of_track (id : Z) (l : list MediaFrame) : list MediaFrame := List.filter (fun f => track_id f =? id) l.

Lemma fragment_frame_track t x y s k : track_id (fragment_frame t x y s k) = ft_id t.
Proof. unfold fragment_frame. by destruct (is_video (ft_codec t)). Qed.

Lemma fragment_frame_dts t x y s k : dts (fragment_frame t x y s k) = x.
Proof. unfold fragment_frame. by destruct (is_video (ft_codec t)). Qed.

Lemma of_track_sent t id dec l : of_track id (sent_frames t dec l) = if ft_id t =? id then sent_frames t dec l else [].
Proof.
  revert dec. induction l as [|s l IH]; intros dec; cbn [sent_frames of_track List.filter]; [by destruct (ft_id t =? id)|].
  rewrite fragment_frame_track. fold (of_track id (sent_frames t (dec + sample_duration s) l)). rewrite IH.
  by destruct (ft_id t =? id).
Qed.

Lemma sent_frames_sorted t dec l dur :
  0 < timescale t -> 0 <= dur -> Forall (fun s => sample_duration s = dur) l ->
  Sorted (fun x y => key_le x y = true) (sent_frames t dec l).
Proof.
  intros Ht Hd Hl. revert dec. induction Hl as [|s l Hs Hl IH]; intros dec; cbn [sent_frames]; [constructor|].
  constructor; [apply IH|]. destruct l as [|s' l]; cbn [sent_frames]; constructor. apply key_le_spec.
  rewrite !fragment_frame_dts, !fragment_frame_track.
  assert (dec * 1000 / timescale t <= (dec + sample_duration s) * 1000 / timescale t) by (apply Z.div_le_mono; lia). lia.
Qed.

Lemma length_sent t dec l : length (sent_frames t dec l) = length l.
Proof. revert dec. induction l as [|s l IH]; intros dec; cbn; [done|]. by rewrite IH. Qed.

(** The sample tables bound the number of samples. *)
Lemma length_traf_samples track start samples off :
  (12 * length samples <= length (encode_box (build_traf track start samples off)))%nat.
Proof.
  unfold build_traf, encode_box. rewrite length_make_box by done. unfold encode. cbn [fmap list_fmap concat snd].
  unfold encode_box, make_box. cbn [fst snd]. rewrite !length_app, length_trun_entries. lia.
Qed.

Lemma segment_counts seq start video audio :
  zlen video + zlen audio <= zlen (build_media_segment seq start video audio).
Proof.
  unfold build_media_segment. cbv zeta. set (off := u32 (u32 _ + 8)). unfold encode. cbn [fmap list_fmap concat].
  rewrite !zlen_app. assert (zlen video + zlen audio <= zlen (encode_box (build_moof seq start video audio off))); [|unfold zlen in *; lia].
  unfold build_moof, encode_box. unfold zlen. rewrite length_make_box by done. cbn [snd]. unfold encode.
  rewrite !fmap_app, !concat_app, !length_app.
  pose proof (length_traf_samples 1 start video off). pose proof (length_traf_samples 2 start audio (u32 (off + samples_size video))).
  destruct video, audio; cbn [fmap list_fmap concat length] in *; rewrite ?length_app; cbn [length] in *; lia.
Qed.

(** ** The round trip *)

Definition sent_by (t : option FragmentTrack) (start : Z) (l : list Fmp4Sample) : list MediaFrame :=
  match t with Some t => sent_frames t start l | None => [] end.

Lemma expected_video m t : video_track m = Some t -> expected_tracks m !! 1 = Some t.
Proof.
  intros H. unfold expected_tracks. rewrite H. cbn [insert_track].
  assert (Hid : ft_id t = 1) by (unfold video_track in H; destruct (mx_video_codec m), (mx_video_config m); by simplify_eq).
  destruct (audio_track m) as [a|] eqn:Ha; cbn [insert_track]; [|rewrite Hid; apply lookup_insert_eq].
  assert (Hia : ft_id a = 2) by (unfold audio_track in Ha; destruct (mx_audio_codec m), (mx_audio_config m); by simplify_eq).
  rewrite Hid, Hia. etrans; [apply lookup_insert_ne; lia|apply lookup_insert_eq].
Qed.

Lemma expected_audio m t : audio_track m = Some t -> expected_tracks m !! 2 = Some t.
Proof.
  intros H. unfold expected_tracks. rewrite H. cbn [insert_track].
  assert (Hid : ft_id t = 2) by (unfold audio_track in H; destruct (mx_audio_codec m), (mx_audio_config m); by simplify_eq).
  rewrite Hid. apply lookup_insert_eq.
Qed.

(** A track that stands in for a missing one. *)
Definition no_track (id : Z) : FragmentTrack := track_of 0 id H264 [] 0 0 1.

Lemma track_facts m :
  fmp4_inv (video_timescale m) m ->
  let tv := default (no_track 1) (video_track m) in
  let ta := default (no_track 2) (audio_track m) in
  ft_id tv = 1 /\ ft_id ta = 2 /\ 0 < timescale tv /\ 0 < timescale ta.
Proof.
  intros _. unfold video_track, audio_track.
  destruct (mx_video_codec m), (mx_video_config m), (mx_audio_codec m), (mx_audio_config m); cbn; lia.
Qed.

(** C9: Fragmented MP4 round trip.  From any muxer state reached by pushing
    frames and flushing segments, with H.264 or H.265 video and AAC audio
    whose configuration has two to five bytes (either track may be absent),
    the demuxer reads from the initialization segment exactly the muxer's
    tracks, and from a media segment exactly the queued samples: per track in
    order with their bytes, key flags and decode times (start of the segment
    plus the fixed sample duration), merged in the order of decode time.  The
    muxer's queues are empty afterwards. *)
Theorem fmp4_round_trip (ts : Z) (m m' : Fmp4Muxer) (seg : Fmp4Segment) :
  fmp4_reachable ts m -> 0 < ts <= 2 ^ 20 ->
  opt_readable (mx_video_codec m) (mx_video_config m) is_avc ->
  opt_readable (mx_audio_codec m) (mx_audio_config m) (fun c => c = AAC) ->
  (video_track m = None -> video_samples m = []) -> (audio_track m = None -> audio_samples m = []) ->
  flush_segment m = (Some seg, m') ->
  zlen (seg_data (init_segment m)) < 2 ^ 32 -> zlen (seg_data seg) < 2 ^ 31 ->
  from_init_segment (seg_data (init_segment m)) = Ok (expected_tracks m) /\
  (exists fs, demux_fragment (expected_tracks m) (seg_data seg) = Ok fs /\
    of_track 1 fs = sent_by (video_track m) (seg_start_time seg) (video_samples m) /\
    of_track 2 fs = sent_by (audio_track m) (seg_start_time seg) (audio_samples m) /\
    Sorted (fun x y => key_le x y = true) fs /\ length fs = (length (video_samples m) + length (audio_samples m))%nat) /\
  fmp4_reachable ts m' /\ video_samples m' = [] /\ audio_samples m' = [].
Proof.
  intros Hr Hts Hv Ha Hnv Hna Hfl Hinit Hseg. pose proof (fmp4_reachable_inv ts m ltac:(lia) Hr) as Hi.
  pose proof (inv_timescale _ _ Hi) as Hets. pose proof (inv_time _ _ Hi) as [Ht0 Ht1].
  assert (Hi' : fmp4_inv (video_timescale m) m) by (by rewrite Hets).
  pose proof (reach_flush ts m Hr) as Hr'. rewrite Hfl in Hr'.
  assert (Hsome : (video_samples m <> [] \/ audio_samples m <> []) /\ m' = next_segment m /\
    seg_data seg = build_media_segment (segment_seq m) (segment_start_time m) (video_samples m) (audio_samples m) /\
    seg_start_time seg = segment_start_time m).
  { unfold flush_segment in Hfl. destruct (video_samples m) eqn:?, (audio_samples m) eqn:?; simplify_eq; auto. }
  destruct Hsome as (Hne & -> & Hsd & Hst). rewrite Hsd in *. rewrite Hst. clear Hsd Hst Hfl.
  split; [|split; [|done]].
  { apply init_read; [done|rewrite Hets; unfold is_u32; lia|done|done|done|]. destruct Hne as [Hne|Hne]; [left|right]; auto. }
  destruct (track_facts m Hi') as (Ev & Ea & Tv & Ta).
  pose proof (segment_counts (segment_seq m) (segment_start_time m) (video_samples m) (audio_samples m)) as Hcnt.
  assert (Hdur : 0 <= ts / 25 <= 2 ^ 20) by (split; [apply Z.div_pos; lia|apply Z.div_le_upper_bound; lia]).
  assert (Hstart : segment_start_time m <= 2 ^ 52).
  { assert (2 ^ 32 * ts / 1000 <= 2 ^ 52 / 1000) by (apply Z.div_le_mono; lia).
    assert (2 ^ 52 / 1000 <= 2 ^ 51) by (vm_compute; discriminate). lia. }
  assert (Hclk : forall n : nat, Z.of_nat n < 2 ^ 31 -> (segment_start_time m + Z.of_nat n * (ts / 25)) * 1000 < 2 ^ 64) by (intros; nia).
  eexists. split; [apply (segment_read _ _ _ (ts / 25) _ _ (default (no_track 1) (video_track m)) (default (no_track 2) (audio_track m)));
    try done|].
  - intros Hvn. destruct (video_track m) as [t|] eqn:Hvt; [by apply expected_video|by rewrite Hnv in Hvn].
  - intros Han. destruct (audio_track m) as [t|] eqn:Hat; [by apply expected_audio|by rewrite Hna in Han].
  - apply (inv_video _ _ Hi).
  - apply (inv_audio _ _ Hi).
  - unfold is_u32. lia.
  - lia.
  - apply Hclk. unfold zlen in *. lia.
  - apply Hclk. unfold zlen in *. lia.
  - assert (Hsv := sent_frames_sorted (default (no_track 1) (video_track m)) (segment_start_time m) (video_samples m) _ Tv
      (proj1 Hdur) (inv_video _ _ Hi)).
    assert (Hsa := sent_frames_sorted (default (no_track 2) (audio_track m)) (segment_start_time m) (audio_samples m) _ Ta
      (proj1 Hdur) (inv_audio _ _ Hi)).
    split_and!.
    + unfold of_track. rewrite (filter_stable_sort _ key_le_total key_le_trans), List.filter_app.
      fold (of_track 1 (sent_frames (default (no_track 1) (video_track m)) (segment_start_time m) (video_samples m))).
      fold (of_track 1 (sent_frames (default (no_track 2) (audio_track m)) (segment_start_time m) (audio_samples m))).
      rewrite !of_track_sent, Ev, Ea. cbn [Z.eqb Pos.eqb]. rewrite app_nil_r, stable_sort_id by done.
      unfold sent_by. destruct (video_track m); [done|]. by rewrite Hnv.
    + unfold of_track. rewrite (filter_stable_sort _ key_le_total key_le_trans), List.filter_app.
      fold (of_track 2 (sent_frames (default (no_track 1) (video_track m)) (segment_start_time m) (video_samples m))).
      fold (of_track 2 (sent_frames (default (no_track 2) (audio_track m)) (segment_start_time m) (audio_samples m))).
      rewrite !of_track_sent, Ev, Ea. cbn [Z.eqb Pos.eqb app]. rewrite stable_sort_id by done.
      unfold sent_by. destruct (audio_track m); [done|]. by rewrite Hna.
    + by apply stable_sort_sorted, key_le_total.
    + rewrite (Permutation_length (stable_sort_permutation _ _)), length_app, !length_sent. done.
Qed.

(** A concrete session: configurations, a key frame and an AAC frame. *)
Fixpoint fmp4_push_all (m : Fmp4Muxer) (fs : list MediaFrame) : result Fmp4Muxer :=
  match fs with
  | [] => Ok m
  | f :: fs => m ← fmp4_push_frame m f; fmp4_push_all m fs
  end.

Lemma push_all_reachable ts m fs m' :
  fmp4_reachable ts m -> Forall frame_ok fs -> fmp4_push_all m fs = Ok m' -> fmp4_reachable ts m'.
Proof.
  intros Hr Hf. revert m Hr. induction Hf as [|f fs Hf Hfs IH]; intros m Hr H; cbn [fmp4_push_all] in H; [by injection H as <-|].
  destruct (fmp4_push_frame m f) as [m1| | |] eqn:Hp; try done. cbn in H. apply (IH m1); [by eapply reach_push|done].
Qed.

Definition session_frames : list MediaFrame :=
  [set_config_frame (with_payload_format (new_video 0 H264 0 0 0
     [0x17; 0; 0; 0; 0; 1; 0x64; 0; 0x0a; 0xff; 0xe1; 0; 4; 0x67; 0x64; 0; 0x0a; 1; 0; 4; 0x68; 0xee; 0x3c; 0x80] false) PfFlv) true;
   set_config_frame (with_payload_format (new_audio 1 AAC 0 0 0 [0xaf; 0; 0x12; 0x10]) PfFlv) true;
   with_payload_format (new_video 0 H264 0 0 0 [0; 0; 0; 1; 0x65; 1; 2; 3] true) PfAnnexB;
   with_payload_format (new_audio 1 AAC 10 10 10 [0xaf; 1; 0x11; 0x22]) PfFlv].

Definition session_muxer : Fmp4Muxer :=
  match fmp4_push_all (fmp4_new 90000) session_frames with Ok m => m | _ => fmp4_new 90000 end.

Lemma session_reachable : fmp4_reachable 90000 session_muxer.
Proof.
  apply (push_all_reachable 90000 (fmp4_new 90000) session_frames); [constructor| |vm_compute; reflexivity].
  repeat (apply Forall_cons_2; [repeat split; try (vm_compute; (discriminate || reflexivity));
    repeat (apply Forall_cons_2; [split; vm_compute; (discriminate || reflexivity)|]); apply Forall_nil_2|]). apply Forall_nil_2.
Qed.

Lemma fmp4_round_trip_witness :
  exists seg m' fs, flush_segment session_muxer = (Some seg, m') /\
    demux_fragment (expected_tracks session_muxer) (seg_data seg) = Ok fs /\ length fs = 2%nat.
Proof.
  destruct (flush_segment session_muxer) as [[seg|] m'] eqn:Hf; [|vm_compute in Hf; discriminate].
  assert (Hsz : zlen (seg_data seg) < 2 ^ 31) by (vm_compute in Hf; injection Hf as <- _; vm_compute; reflexivity).
  destruct (fmp4_round_trip 90000 session_muxer m' seg session_reachable) as (_ & (fs & Hd & _ & _ & _ & Hl) & _).
  - split; [vm_compute; reflexivity|vm_compute; discriminate].
  - vm_compute. split; left; reflexivity.
  - vm_compute. split; [right; right; split; [reflexivity|lia]|reflexivity].
  - intros H. vm_compute in H. discriminate.
  - intros H. vm_compute in H. discriminate.
  - exact Hf.
  - vm_compute. reflexivity.
  - exact Hsz.
  - exists seg, m', fs. split_and!; [reflexivity|exact Hd|exact Hl].
Defined.

(** The audio clock of a fragmented stream drifts.  The audio track
    announces 44100 ticks per second while its decode times and durations are
    in ticks of the video timescale: in the second segment of a session,
    50 ms after the first, the video frame is read at 50 ms and the audio
    frame at 102 ms. *)
Theorem fmp4_audio_clock_drift :
  exists m2 seg fs,
    fmp4_push_all (flush_segment session_muxer).2 (drop 2 session_frames) = Ok m2 /\
    (flush_segment m2).1 = Some seg /\
    (d ← from_init_segment (seg_data (init_segment session_muxer)); demux_fragment d (seg_data seg)) = Ok fs /\
    (dts <$> of_track 1 fs) = [50] /\ (dts <$> of_track 2 fs) = [102].
Proof.
  destruct (fmp4_push_all (flush_segment session_muxer).2 (drop 2 session_frames)) as [m2| | |] eqn:Hp;
    [|exfalso; vm_compute in Hp; discriminate..].
  vm_compute in Hp. injection Hp as <-. do 3 eexists. split; [reflexivity|]. split; [vm_compute; reflexivity|].
  split; [vm_compute; reflexivity|]. split; vm_compute; reflexivity.
Qed.
