(* ===== verification/Text.v ===== *)
(** * Text: Rust's string functions on UTF-8 bytes

    A [&str] is the list of its UTF-8 bytes.  The functions of the standard
    library the parsers use: searching, splitting, lines, trimming, ASCII case,
    decimal printing and parsing. *)

From S2P Require Import Prelude Utf8.
Open Scope Z_scope.

(** String literals. *)
Definition str (s : string) : bytes :=
  (fun a => Z.of_N (Ascii.N_of_ascii a)) <$> String.list_ascii_of_string s.

Definition CRLF : bytes := [13; 10].

(** ** Searching *)

(** [s.starts_with(p)] and [s.strip_prefix(p)]. *)
Fixpoint strip_prefix (p s : bytes) : option bytes :=
  match p, s with
  | [], s => Some s
  | x :: p, y :: s => if x =? y then strip_prefix p s else None
  | _ :: _, [] => None
  end.

Definition starts_with (p s : bytes) : bool := match strip_prefix p s with Some _ => true | None => false end.

(** [s.find(p)]. *)
Fixpoint find_sub (p s : bytes) : option nat :=
  if starts_with p s then Some 0%nat else
  match s with
  | [] => None
  | _ :: s => S <$> find_sub p s
  end.

(** [s.split_once(c)] for an ASCII character. *)
Fixpoint split_once (c : Z) (s : bytes) : option (bytes * bytes) :=
  match s with
  | [] => None
  | x :: s =>
      if x =? c then Some ([], s)
      else match split_once c s with
           | Some (l, r) => Some (x :: l, r)
           | None => None
           end
  end.

(** [s.rsplit_once(c)]. *)
Definition rsplit_once (c : Z) (s : bytes) : option (bytes * bytes) :=
  match split_once c (reverse s) with
  | Some (r, l) => Some (reverse l, reverse r)
  | None => None
  end.

(** [s.splitn(n, c)], [n] at least 1. *)
Fixpoint splitn (n : nat) (c : Z) (s : bytes) : list bytes :=
  match n with
  | O => []
  | S O => [s]
  | S n => match split_once c s with
           | Some (l, r) => l :: splitn n c r
           | None => [s]
           end
  end.

(** [s.split(c)]. *)
Fixpoint split (c : Z) (s : bytes) : list bytes :=
  match s with
  | [] => [[]]
  | x :: s =>
      if x =? c then [] :: split c s
      else match split c s with
           | [] => [[x]]
           | w :: ws => (x :: w) :: ws
           end
  end.

(** [s.lines()]: the pieces ended by a line feed, without it and without a
    carriage return before it; a last piece without line feed is kept as it
    is, an empty one is dropped. *)
Definition strip_cr (l : bytes) : bytes :=
  match last l with Some 13 => removelast l | _ => l end.

Fixpoint lines_of (pieces : list bytes) : list bytes :=
  match pieces with
  | [] => []
  | [w] => match w with [] => [] | _ :: _ => [w] end
  | w :: ws => strip_cr w :: lines_of ws
  end.

Definition lines (s : bytes) : list bytes := lines_of (split 10 s).

(** ** Trimming: Unicode white space, as UTF-8 sequences *)

(** [text.split(CRLF)] *)
Fixpoint split_crlf (s : bytes) : list bytes :=
  match s with
  | [] => [[]]
  | x :: s' =>
      match strip_prefix CRLF s with
      | Some _ =>
          match s' with
          | [] => [[]]
          | _ :: s'' => [] :: split_crlf s''
          end
      | None =>
          match split_crlf s' with
          | [] => [[x]]
          | w :: ws => (x :: w) :: ws
          end
      end
  end.

Definition WHITE_SPACE : list bytes :=
  ((fun b => [b]) <$> [0x09; 0x0A; 0x0B; 0x0C; 0x0D; 0x20]) ++
  [[0xC2; 0x85]; [0xC2; 0xA0]; [0xE1; 0x9A; 0x80]] ++
  ((fun b => [0xE2; 0x80; b]) <$> [0x80; 0x81; 0x82; 0x83; 0x84; 0x85; 0x86; 0x87; 0x88; 0x89; 0x8A; 0xA8; 0xA9; 0xAF]) ++
  [[0xE2; 0x81; 0x9F]; [0xE3; 0x80; 0x80]].

Fixpoint strip_any (ps : list bytes) (s : bytes) : option bytes :=
  match ps with
  | [] => None
  | p :: ps => match strip_prefix p s with Some r => Some r | None => strip_any ps s end
  end.

Fixpoint trim_fuel (ps : list bytes) (fuel : nat) (s : bytes) : bytes :=
  match fuel with
  | O => s
  | S fuel => match strip_any ps s with Some r => trim_fuel ps fuel r | None => s end
  end.

Definition trim_start (s : bytes) : bytes := trim_fuel WHITE_SPACE (length s) s.
Definition trim_end (s : bytes) : bytes := reverse (trim_fuel (reverse <$> WHITE_SPACE) (length s) (reverse s)).
Definition trim (s : bytes) : bytes := trim_end (trim_start s).

(** [s.split_whitespace()]; [cur] is the word read so far. *)
Definition flush (cur : bytes) : list bytes := match cur with [] => [] | _ => [reverse cur] end.
Fixpoint words_fuel (fuel : nat) (cur s : bytes) : list bytes :=
  match fuel, s with
  | S fuel, x :: s' =>
      match strip_any WHITE_SPACE s with
      | Some r => flush cur ++ words_fuel fuel [] r
      | None => words_fuel fuel (x :: cur) s'
      end
  | _, _ => flush cur
  end.
Definition split_whitespace (s : bytes) : list bytes := words_fuel (S (length s)) [] s.

(** [s.contains(p)]. *)
Definition contains (p s : bytes) : bool := match find_sub p s with Some _ => true | None => false end.

(** [s.trim_matches(c)] for an ASCII character. *)
Fixpoint trim_start_char (c : Z) (s : bytes) : bytes :=
  match s with
  | x :: s' => if x =? c then trim_start_char c s' else s
  | [] => []
  end.
Definition trim_matches (c : Z) (s : bytes) : bytes :=
  reverse (trim_start_char c (reverse (trim_start_char c s))).

(** ** ASCII case *)

Definition lower (b : Z) : Z := if (65 <=? b) && (b <=? 90) then b + 32 else b.
Definition to_ascii_lowercase (s : bytes) : bytes := lower <$> s.
Definition eq_ignore_ascii_case (s t : bytes) : bool := bool_decide (to_ascii_lowercase s = to_ascii_lowercase t).

(** ** Decimal numbers *)

Definition is_digit (b : Z) : bool := (48 <=? b) && (b <=? 57).

Fixpoint parse_digits (max acc : Z) (s : bytes) : option Z :=
  match s with
  | [] => Some acc
  | b :: s =>
      if is_digit b then
        let acc := acc * 10 + (b - 48) in
        if max <? acc then None else parse_digits max acc s
      else None
  end.

(** [s.parse::<uN>()]: an optional plus sign, at least one digit, at most [max]. *)
Definition parse_uint (max : Z) (s : bytes) : option Z :=
  let s := match s with 43 :: ((_ :: _) as r) => r | _ => s end in
  match s with [] => None | _ :: _ => parse_digits max 0 s end.

Definition parse_u8 : bytes -> option Z := parse_uint (2 ^ 8 - 1).
Definition parse_u16 : bytes -> option Z := parse_uint (2 ^ 16 - 1).
Definition parse_u32 : bytes -> option Z := parse_uint (2 ^ 32 - 1).
Definition parse_usize : bytes -> option Z := parse_uint (2 ^ 64 - 1).

(** [c.to_digit(16)] *)
Definition hex_value (b : Z) : option Z :=
  if (48 <=? b) && (b <=? 57) then Some (b - 48)
  else if (97 <=? b) && (b <=? 102) then Some (b - 87)
  else if (65 <=? b) && (b <=? 70) then Some (b - 55)
  else None.

(** [format!("{}", n)] for an unsigned number below 2^64. *)
Fixpoint dec_digits (fuel : nat) (n : Z) : bytes :=
  match fuel with
  | O => []
  | S fuel => if n <? 10 then [48 + n] else dec_digits fuel (n / 10) ++ [48 + n mod 10]
  end.
Definition dec (n : Z) : bytes := dec_digits 20 n.

(** ** Facts *)

(** A byte does not occur in a literal. *)
Ltac not_in := let Hin := fresh in intros Hin; apply list_elem_of_In in Hin; cbn in Hin; lia.

Definition lacks (c : Z) (s : bytes) : Prop := c ∉ s.

Lemma strip_prefix_app p s : strip_prefix p (p ++ s) = Some s.
Proof. induction p as [|x p IH]; [done|]. cbn. by rewrite Z.eqb_refl. Qed.

Lemma strip_prefix_spec p s r : strip_prefix p s = Some r <-> s = p ++ r.
Proof.
  split; [|intros ->; apply strip_prefix_app]. revert s. induction p as [|x p IH]; intros s H; cbn in *; [by simplify_eq|].
  destruct s as [|y s]; [done|]. destruct (Z.eqb_spec x y); [subst|done]. f_equal. by apply IH.
Qed.

Lemma split_once_app c s r : lacks c s -> split_once c (s ++ c :: r) = Some (s, r).
Proof.
  unfold lacks. induction s as [|x s IH]; cbn [split_once app]; intros H; [by rewrite Z.eqb_refl|].
  apply not_elem_of_cons in H as [Hx Hs]. rewrite (proj2 (Z.eqb_neq x c)) by congruence. by rewrite IH.
Qed.

Lemma split_once_none c s : lacks c s -> split_once c s = None.
Proof.
  unfold lacks. induction s as [|x s IH]; cbn [split_once]; intros H; [done|].
  apply not_elem_of_cons in H as [Hx Hs]. rewrite (proj2 (Z.eqb_neq x c)) by congruence. by rewrite IH.
Qed.

Lemma split_once_prefix c s l r : split_once c s = Some (l, r) -> s = l ++ c :: r.
Proof.
  revert l. induction s as [|b s IH]; intros l; [done|]. cbn [split_once]. destruct (Z.eqb_spec b c) as [->|].
  - by intros [= <- ->].
  - destruct (split_once c s) as [[l' r']|]; [|done]. intros [= <- <-]. cbn. f_equal. by apply IH.
Qed.

Lemma split_once_lacks c s l r : split_once c s = Some (l, r) -> lacks c l.
Proof.
  revert l. induction s as [|x s IH]; intros l; [done|]. cbn [split_once]. destruct (Z.eqb_spec x c) as [|Hx].
  - intros [= <- _]. apply not_elem_of_nil.
  - destruct (split_once c s) as [[l' r']|]; [|done]. intros [= <- <-]. unfold lacks. rewrite elem_of_cons. intros [?|?]; [done|by apply (IH l')].
Qed.

Lemma split_once_none_lacks c s : split_once c s = None -> lacks c s.
Proof.
  induction s as [|x s IH]; cbn [split_once]; [intros _; apply not_elem_of_nil|]. destruct (Z.eqb_spec x c) as [|Hx]; [done|].
  destruct (split_once c s) as [[l r]|]; [done|]. intros _. unfold lacks. rewrite elem_of_cons. intros [?|?]; [done|by apply IH].
Qed.

Lemma contains_in c s : contains [c] s = false -> lacks c s.
Proof.
  unfold contains, lacks. induction s as [|x s IH]; [intros _ H; by apply not_elem_of_nil in H|].
  cbn [find_sub]. unfold starts_with. cbn [strip_prefix]. destruct (Z.eqb_spec c x) as [|Hc]; [by destruct s|].
  destruct (find_sub [c] s); [done|]. intros _ [->|Hin]%elem_of_cons; [done|]. by apply IH.
Qed.

Lemma split_lacks c s : lacks c s -> split c s = [s].
Proof.
  unfold lacks. induction s as [|x s IH]; cbn [split]; intros H; [done|].
  apply not_elem_of_cons in H as [Hx Hs]. rewrite (proj2 (Z.eqb_neq x c)) by congruence. by rewrite IH.
Qed.

Lemma split_app c s r : lacks c s -> split c (s ++ c :: r) = s :: split c r.
Proof.
  unfold lacks. induction s as [|x s IH]; cbn [split app]; intros H; [by rewrite Z.eqb_refl|].
  apply not_elem_of_cons in H as [Hx Hs]. rewrite (proj2 (Z.eqb_neq x c)) by congruence. by rewrite IH.
Qed.

Lemma split_ne c s : split c s <> [].
Proof. destruct s as [|x s]; cbn; [done|]. destruct (x =? c); [done|]. by destruct (split c s). Qed.

Lemma split_pieces_lack c s : Forall (lacks c) (split c s).
Proof.
  induction s as [|x s IH]; cbn [split]; [repeat constructor; unfold lacks; apply not_elem_of_nil|].
  destruct (Z.eqb_spec x c) as [|Hx]; [constructor; [apply not_elem_of_nil|done]|].
  destruct (split c s) as [|w ws]; [repeat constructor; unfold lacks; rewrite list_elem_of_singleton; congruence|].
  apply Forall_cons in IH as [Hw IH]. constructor; [|done]. unfold lacks in *. rewrite elem_of_cons. naive_solver.
Qed.

Lemma splitn3_app c a b r : lacks c a -> lacks c b -> splitn 3 c (a ++ c :: b ++ c :: r) = [a; b; r].
Proof. intros Ha Hb. cbn [splitn]. rewrite split_once_app by done. by rewrite split_once_app. Qed.

Lemma strip_cr_crlf l : strip_cr (l ++ [13]) = l.
Proof. unfold strip_cr. rewrite last_snoc. by rewrite removelast_last. Qed.

(** Text of lines each ended by CRLF. *)
Lemma lines_crlf ls : Forall (lacks 10) ls -> lines (concat ((fun l => l ++ CRLF) <$> ls)) = ls.
Proof.
  unfold lines. intros H. assert (Hs : split 10 (concat ((fun l => l ++ CRLF) <$> ls)) = ((fun l => l ++ [13]) <$> ls) ++ [[]]).
  { induction H as [|l ls Hl Hls IH]; [done|]. rewrite fmap_cons. cbn [concat]. unfold CRLF.
    replace ((l ++ [13; 10]) ++ concat ((fun l => l ++ CRLF) <$> ls)) with ((l ++ [13]) ++ 10 :: concat ((fun l => l ++ CRLF) <$> ls))
      by (by rewrite <-!app_assoc).
    rewrite split_app; [|unfold lacks in *; rewrite elem_of_app, list_elem_of_singleton; intros [?|?]; [done|lia]].
    by rewrite IH. }
  rewrite Hs. clear Hs H. induction ls as [|l ls IH]; [done|]. cbn [fmap list_fmap app lines_of].
  destruct (((fun l => l ++ [13]) <$> ls) ++ [[]]) as [|x y] eqn:E; [by destruct ls|]. rewrite strip_cr_crlf. f_equal. exact IH.
Qed.

(** The last line may lack its line ending. *)
Lemma lines_crlf_last ls l : Forall (lacks 10) ls -> lacks 10 l -> l <> [] ->
  lines (concat ((fun l => l ++ CRLF) <$> ls) ++ l) = ls ++ [l].
Proof.
  unfold lines. intros H Hl Hne.
  assert (Hs : split 10 (concat ((fun l => l ++ CRLF) <$> ls) ++ l) = ((fun l => l ++ [13]) <$> ls) ++ [l]).
  { induction H as [|w ls Hw Hls IH]; [by apply split_lacks|]. rewrite fmap_cons. cbn [concat]. unfold CRLF.
    replace (((w ++ [13; 10]) ++ concat ((fun l => l ++ CRLF) <$> ls)) ++ l) with
      ((w ++ [13]) ++ 10 :: (concat ((fun l => l ++ CRLF) <$> ls) ++ l)) by (by rewrite <-!app_assoc).
    rewrite split_app; [|unfold lacks in *; rewrite elem_of_app, list_elem_of_singleton; intros [?|?]; [done|lia]].
    by rewrite IH. }
  rewrite Hs. clear Hs H. induction ls as [|w ls IH]; [by destruct l|]. cbn [fmap list_fmap app lines_of].
  destruct (((fun l => l ++ [13]) <$> ls) ++ [l]) as [|x y] eqn:E; [by destruct ls|]. rewrite strip_cr_crlf. f_equal. exact IH.
Qed.

(** A text without leading and trailing white space is its own trim. *)
Definition trimmed (s : bytes) : Prop :=
  strip_any WHITE_SPACE s = None /\ strip_any (reverse <$> WHITE_SPACE) (reverse s) = None.

Lemma trim_fuel_none ps n s : strip_any ps s = None -> trim_fuel ps n s = s.
Proof. intros H. destruct n; [done|]. cbn. by rewrite H. Qed.

Lemma trim_trimmed s : trimmed s -> trim s = s.
Proof.
  intros [H1 H2]. unfold trim, trim_end, trim_start. rewrite (trim_fuel_none WHITE_SPACE) by done.
  rewrite trim_fuel_none by done. apply reverse_involutive.
Qed.

Lemma trim_space s : trimmed s -> s <> [] -> trim (32 :: s) = s.
Proof.
  intros Ht Hne. unfold trim. assert (trim_start (32 :: s) = s) as ->; [|].
  { unfold trim_start. cbn [length trim_fuel]. replace (strip_any WHITE_SPACE (32 :: s)) with (Some s) by done.
    apply trim_fuel_none, Ht. }
  unfold trim_end. rewrite trim_fuel_none by apply Ht. apply reverse_involutive.
Qed.

Lemma trim_all_space : trim [32] = [].
Proof. done. Qed.

(** Splitting and trimming only drop bytes. *)
Lemma strip_prefix_incl p s r b : strip_prefix p s = Some r -> b ∈ r -> b ∈ s.
Proof. intros ->%strip_prefix_spec Hb. apply elem_of_app. by right. Qed.

Lemma trim_fuel_incl ps fuel s b : b ∈ trim_fuel ps fuel s -> b ∈ s.
Proof.
  assert (Hany : forall s r, strip_any ps s = Some r -> b ∈ r -> b ∈ s).
  { induction ps as [|p ps IH]; intros t r; cbn [strip_any]; [done|]. destruct (strip_prefix p t) as [r'|] eqn:E; [|apply IH].
    intros [= <-]. by apply (strip_prefix_incl p). }
  revert s. induction fuel as [|fuel IH]; intros s; cbn [trim_fuel]; [done|].
  destruct (strip_any ps s) as [r|] eqn:E; [|done]. intros Hb%IH. by apply (Hany _ r).
Qed.

Lemma trim_incl s b : b ∈ trim s -> b ∈ s.
Proof. unfold trim, trim_end. rewrite elem_of_reverse. intros H%trim_fuel_incl. rewrite elem_of_reverse in H. by apply trim_fuel_incl in H. Qed.

Lemma trim_start_char_incl c s b : b ∈ trim_start_char c s -> b ∈ s.
Proof.
  induction s as [|x s IH]; cbn [trim_start_char]; [done|]. destruct (x =? c); [|done]. intros H%IH. by apply list_elem_of_further.
Qed.

Lemma trim_matches_incl c s b : b ∈ trim_matches c s -> b ∈ s.
Proof.
  unfold trim_matches. rewrite elem_of_reverse. intros H%trim_start_char_incl. rewrite elem_of_reverse in H.
  by apply trim_start_char_incl in H.
Qed.

Lemma split_once_incl c s l r b : split_once c s = Some (l, r) -> b ∈ l \/ b ∈ r -> b ∈ s.
Proof.
  revert l r. induction s as [|x s IH]; intros l r; cbn [split_once]; [done|]. destruct (x =? c).
  { intros [= <- <-] [H|H]; [by apply elem_of_nil in H|by apply list_elem_of_further]. }
  destruct (split_once c s) as [[l' r']|] eqn:E; [|done]. intros [= <- <-] H. apply elem_of_cons.
  destruct H as [[->|H]%elem_of_cons|H]; [by left| |]; right; apply (IH l' r'); auto.
Qed.

Lemma split_incl c s p b : p ∈ split c s -> b ∈ p -> b ∈ s.
Proof.
  revert p. induction s as [|x s IH]; intros p; cbn [split].
  { rewrite list_elem_of_singleton. by intros ->. }
  destruct (x =? c).
  { intros [->|H]%elem_of_cons Hb; [by apply elem_of_nil in Hb|]. apply list_elem_of_further. by apply (IH p). }
  destruct (split c s) as [|w ws]; intros [->|H]%elem_of_cons Hb.
  - apply list_elem_of_singleton in Hb as ->. apply list_elem_of_here.
  - by apply elem_of_nil in H.
  - apply elem_of_cons in Hb as [->|Hb]; [apply list_elem_of_here|]. apply list_elem_of_further, (IH w); [apply list_elem_of_here|done].
  - apply list_elem_of_further, (IH p); [by apply list_elem_of_further|done].
Qed.

(** Quotes around a text without quotes are what [trim_matches] removes. *)
Lemma trim_matches_quoted c v : lacks c v -> trim_matches c (c :: v ++ [c]) = v.
Proof.
  assert (Hs : forall w, lacks c w -> trim_start_char c w = w).
  { intros [|x w] Hw; [done|]. cbn [trim_start_char]. rewrite (proj2 (Z.eqb_neq x c)); [done|]. intros ->. apply Hw, list_elem_of_here. }
  intros Hv. unfold trim_matches. cbn [trim_start_char]. rewrite Z.eqb_refl.
  destruct v as [|x v]; [cbn; by rewrite Z.eqb_refl|]. cbn [trim_start_char app].
  rewrite (proj2 (Z.eqb_neq x c)); [|intros ->; apply Hv, list_elem_of_here].
  rewrite (app_comm_cons v [c] x), reverse_app. change (reverse [c]) with [c]. cbn [app trim_start_char]. rewrite Z.eqb_refl, Hs; [apply reverse_involutive|].
  unfold lacks. by rewrite elem_of_reverse.
Qed.

(** *** Decimal round trip *)

Lemma parse_digits_app max acc s t :
  parse_digits max acc (s ++ t) = match parse_digits max acc s with Some a => parse_digits max a t | None => None end.
Proof.
  revert acc. induction s as [|b s IH]; intros acc; cbn [parse_digits app]; [done|].
  destruct (is_digit b); [|done]. destruct (max <? acc * 10 + (b - 48)); [done|apply IH].
Qed.

Lemma parse_dec_digits max fuel n :
  0 <= n <= max -> n < 10 ^ Z.of_nat fuel -> (0 < fuel)%nat -> parse_digits max 0 (dec_digits fuel n) = Some n.
Proof.
  revert n. induction fuel as [|fuel IH]; intros n Hn Hf H0; [lia|]. cbn [dec_digits].
  destruct (Z.ltb_spec n 10).
  - cbn [parse_digits]. unfold is_digit. rewrite (proj2 (Z.leb_le 48 (48 + n))), (proj2 (Z.leb_le (48 + n) 57)) by lia. cbn [andb].
    replace (0 * 10 + (48 + n - 48)) with n by lia. by rewrite (proj2 (Z.ltb_ge max n)) by lia.
  - assert (Hd : 0 <= n / 10 /\ 0 <= n mod 10 < 10 /\ n = 10 * (n / 10) + n mod 10) by div_lia.
    rewrite parse_digits_app, IH; [|lia| |].
    + cbn [parse_digits]. unfold is_digit. rewrite (proj2 (Z.leb_le 48 _)), (proj2 (Z.leb_le _ 57)) by lia. cbn [andb].
      replace (n / 10 * 10 + (48 + n mod 10 - 48)) with n by lia. by rewrite (proj2 (Z.ltb_ge max n)) by lia.
    + rewrite Nat2Z.inj_succ, Z.pow_succ_r in Hf by lia. lia.
    + destruct fuel; [cbn in Hf; lia|lia].
Qed.

Lemma dec_digits_range fuel n : 0 <= n -> Forall (fun b => 48 <= b <= 57) (dec_digits fuel n).
Proof.
  revert n. induction fuel as [|fuel IH]; intros n Hn; [constructor|]. cbn [dec_digits]. destruct (Z.ltb_spec n 10).
  - apply Forall_singleton. lia.
  - apply Forall_app; split; [apply IH; div_lia|apply Forall_singleton; div_lia].
Qed.

Lemma dec_range n : 0 <= n -> Forall (fun b => 48 <= b <= 57) (dec n).
Proof. apply dec_digits_range. Qed.

Lemma dec_digits_length fuel n : (length (dec_digits fuel n) <= fuel)%nat.
Proof.
  revert n. induction fuel as [|fuel IH]; intros n; cbn [dec_digits]; [done|]. destruct (n <? 10); cbn [length]; [lia|].
  rewrite length_app. specialize (IH (n / 10)). cbn. lia.
Qed.

Lemma dec_length n : (length (dec n) <= 20)%nat.
Proof. apply dec_digits_length. Qed.

Lemma dec_nonempty n : dec n <> [].
Proof. unfold dec. cbn [dec_digits]. destruct (n <? 10); [done|]. intros [_ H]%app_eq_nil. done. Qed.

Lemma dec_lacks c n : 0 <= n -> ~ 48 <= c <= 57 -> lacks c (dec n).
Proof. intros Hn Hc Hin. pose proof (dec_range n Hn) as H. rewrite Forall_forall in H. by apply Hc, H. Qed.

(** Printing a number and parsing it again. *)
Lemma parse_uint_dec max n : 0 <= n <= max -> max < 2 ^ 64 -> parse_uint max (dec n) = Some n.
Proof.
  intros Hn Hm. unfold parse_uint.
  assert (Hh : exists b r, dec n = b :: r /\ b <> 43).
  { pose proof (dec_nonempty n) as Hne. pose proof (dec_range n ltac:(lia)) as Hr.
    destruct (dec n) as [|b r]; [done|]. apply Forall_cons in Hr as [Hb _]. exists b, r. split; [done|lia]. }
  destruct Hh as (b & r & Hd & Hb). rewrite Hd.
  assert (match b :: r with 43 :: ((_ :: _) as r0) => r0 | _ => b :: r end = b :: r) as ->.
  { destruct b as [|p|p]; [done| |done]. repeat (destruct p as [p|p|]; try done). }
  rewrite <-Hd. apply parse_dec_digits; [done| |lia]. change (10 ^ Z.of_nat 20) with 100000000000000000000. lia.
Qed.

(** Proofs use the lemmas above; conversion should not unfold the scans. *)
#[global] Opaque trim dec.

(** ** Text that needs no trimming *)

Lemma strip_any_first ps x s :
  Forall (fun p => hd 0 p <> x /\ p <> []) ps -> strip_any ps (x :: s) = None.
Proof.
  induction 1 as [|p ps [Hx Hp] Hps IH]; [done|]. cbn [strip_any]. destruct p as [|y p]; [done|]. cbn in Hx. cbn [strip_prefix].
  by rewrite (proj2 (Z.eqb_neq y x)) by done.
Qed.

Definition printable (b : Z) : Prop := 33 <= b <= 126.

Lemma white_space_first b : printable b -> Forall (fun p => hd 0 p <> b /\ p <> []) (WHITE_SPACE ++ (reverse <$> WHITE_SPACE)).
Proof. unfold printable. intros Hb. vm_compute. repeat (constructor; [split; [intros <-; lia|discriminate]|]). constructor. Qed.

Lemma printable_trimmed x s y : printable x -> printable y -> trimmed (x :: s ++ [y]).
Proof.
  intros Hx%white_space_first Hy%white_space_first. apply Forall_app in Hx as [Hx _]. apply Forall_app in Hy as [_ Hy]. split.
  - by apply strip_any_first.
  - rewrite reverse_cons, reverse_app. by apply strip_any_first.
Qed.

Lemma printable_ends s x y : head s = Some x -> last s = Some y -> printable x -> printable y -> trimmed s.
Proof.
  destruct s as [|x' s]; [done|]. cbn [head]. intros [= ->] Hl Hx Hy. destruct s as [|z s] using rev_ind.
  - split; apply strip_any_first; [apply white_space_first in Hx; by apply Forall_app in Hx as [? _]|].
    apply white_space_first in Hx; by apply Forall_app in Hx as [_ ?].
  - rewrite app_comm_cons, last_snoc in Hl. injection Hl as ->. by apply printable_trimmed.
Qed.

Lemma trim_printable x y s : printable x -> printable y -> trim (x :: s ++ [y]) = x :: s ++ [y].
Proof. intros Hx Hy. by apply trim_trimmed, printable_trimmed. Qed.

Lemma trimmed_word s : Forall printable s -> s <> [] -> trimmed s.
Proof.
  intros Hs Hne. destruct (last s) as [y|] eqn:Hl; [|by apply last_None in Hl]. destruct s as [|x s]; [done|].
  apply (printable_ends _ x y); [done|done|by apply Forall_cons in Hs as [? _]|].
  apply last_Some_elem_of in Hl. rewrite Forall_forall in Hs. by apply Hs.
Qed.

Lemma digit_printable b : 48 <= b <= 57 -> printable b.
Proof. unfold printable. lia. Qed.

Lemma dec_trimmed n : 0 <= n -> trimmed (dec n).
Proof.
  intros Hn. apply trimmed_word; [|apply dec_nonempty]. eapply Forall_impl; [by apply dec_range|]. intros b. apply digit_printable.
Qed.

Lemma trim_dec n : 0 <= n -> trim (dec n) = dec n.
Proof. intros Hn. by apply trim_trimmed, dec_trimmed. Qed.

(** ** Lines that end in CR LF *)

Lemma split_crlf_line l s : lacks 13 l -> split_crlf (l ++ CRLF ++ s) = l :: split_crlf s.
Proof.
  unfold lacks. induction l as [|x l IH]; [done|]. rewrite not_elem_of_cons. intros [Hx Hl]. cbn [app split_crlf]. unfold CRLF at 1. cbn [strip_prefix].
  rewrite (proj2 (Z.eqb_neq 13 x)) by done. change ([13; 10] ++ s) with (CRLF ++ s). by rewrite IH.
Qed.

Lemma split_crlf_last l : lacks 13 l -> split_crlf l = [l].
Proof.
  unfold lacks. induction l as [|x l IH]; [done|]. rewrite not_elem_of_cons. intros [Hx Hl]. cbn [split_crlf]. unfold CRLF at 1. cbn [strip_prefix].
  rewrite (proj2 (Z.eqb_neq 13 x)) by done. by rewrite IH.
Qed.

(** ** Searching *)

Lemma find_sub_bound p s n : find_sub p s = Some n -> (n + length p <= length s)%nat.
Proof.
  revert n. induction s as [|x s IH]; intros n; cbn [find_sub]; unfold starts_with.
  - destruct (strip_prefix p []) eqn:E; [|done]. apply strip_prefix_spec in E. intros [= <-].
    symmetry in E. apply app_eq_nil in E as [-> _]. cbn. lia.
  - destruct (strip_prefix p (x :: s)) as [r|] eqn:E.
    + intros [= <-]. apply strip_prefix_spec in E. rewrite E, length_app. lia.
    + destruct (find_sub p s) as [k|]; [|done]. intros [= <-]. specialize (IH _ eq_refl). cbn. lia.
Qed.

Lemma find_sub_stable p s y n : find_sub p s = Some n -> find_sub p (s ++ y) = Some n.
Proof.
  revert n. induction s as [|x s IH]; intros n Hn.
  - pose proof (find_sub_bound _ _ _ Hn) as Hb. cbn in Hb. assert (p = []) as -> by (destruct p; [done|cbn in Hb; lia]).
    cbn in Hn. injection Hn as <-. by destruct y.
  - cbn [find_sub app] in *. unfold starts_with in *. destruct (strip_prefix p (x :: s)) as [r|] eqn:E.
    + apply strip_prefix_spec in E. assert (x :: s ++ y = p ++ r ++ y) as -> by (rewrite app_assoc, <-E; done).
      by rewrite strip_prefix_app.
    + destruct (find_sub p s) as [k|] eqn:Hk; [|done]. injection Hn as <-. rewrite (IH _ eq_refl).
      destruct (strip_prefix p (x :: s ++ y)) as [r|] eqn:E2; [|done]. exfalso.
      apply strip_prefix_spec in E2. apply find_sub_bound in Hk.
      assert (x :: s = p ++ drop (length p) (x :: s)) as Heq.
      { rewrite <-(take_drop (length p) (x :: s)) at 1. f_equal.
        apply (f_equal (take (length p))) in E2. rewrite take_app_length in E2.
        change (x :: s ++ y) with ((x :: s) ++ y) in E2. by rewrite take_app_le in E2 by (cbn; lia). }
      rewrite Heq, strip_prefix_app in E. done.
Qed.

Lemma find_sub_lacks c p s : lacks c s -> find_sub (c :: p) s = None.
Proof.
  induction s as [|x s IH]; intros Hs; [done|]. apply not_elem_of_cons in Hs as [Hx Hs]. cbn [find_sub]. unfold starts_with. cbn [strip_prefix].
  rewrite (proj2 (Z.eqb_neq c x)) by done. by rewrite IH.
Qed.

(** ** Words *)

Lemma dec_printable n : 0 <= n -> Forall printable (dec n).
Proof. intros Hn. eapply Forall_impl; [by apply dec_range|]. unfold printable. cbn. lia. Qed.

Lemma strip_white_printable b s : printable b -> strip_any WHITE_SPACE (b :: s) = None.
Proof. intros Hb%white_space_first. apply strip_any_first. by apply Forall_app in Hb as [? _]. Qed.

Lemma words_printable w s : forall fuel cur,
  Forall printable w -> (length w <= fuel)%nat -> words_fuel fuel cur (w ++ s) = words_fuel (fuel - length w) (reverse w ++ cur) s.
Proof.
  induction w as [|b w IH]; intros fuel cur Hw Hf; [cbn; by rewrite Nat.sub_0_r|].
  apply Forall_cons in Hw as [Hb Hw]. destruct fuel as [|fuel]; [cbn in Hf; lia|]. cbn [app words_fuel].
  rewrite strip_white_printable by done. rewrite IH by (done || (cbn in Hf; lia)). rewrite reverse_cons, <-app_assoc. done.
Qed.

Lemma flush_word w : w <> [] -> flush (reverse w ++ []) = [w].
Proof.
  intros Hne. rewrite app_nil_r. unfold flush. destruct (reverse w) as [|x r] eqn:E; [|by rewrite <-E, reverse_involutive].
  apply (f_equal reverse) in E. rewrite reverse_involutive in E. done.
Qed.

Lemma split_whitespace_cons w s : Forall printable w -> w <> [] -> split_whitespace (w ++ 32 :: s) = w :: split_whitespace s.
Proof.
  intros Hw Hn. unfold split_whitespace. rewrite words_printable by (done || (rewrite length_app; lia)).
  rewrite length_app. cbn [length]. replace (S (length w + S (length s)) - length w)%nat with (S (S (length s))) by lia.
  change (words_fuel (S (S (length s))) ?c (32 :: s)) with (flush c ++ words_fuel (S (length s)) [] s). by rewrite flush_word.
Qed.

Lemma split_whitespace_word w : Forall printable w -> w <> [] -> split_whitespace w = [w].
Proof.
  intros Hw Hn. unfold split_whitespace. pose proof (words_printable w [] (S (length w)) [] Hw ltac:(lia)) as Hl. rewrite app_nil_r in Hl. rewrite Hl.
  replace (S (length w) - length w)%nat with 1%nat by lia. cbn [words_fuel]. by apply flush_word.
Qed.

Lemma split_whitespace_two w v :
  Forall printable w -> Forall printable v -> w <> [] -> v <> [] -> split_whitespace (w ++ 32 :: v) = [w; v].
Proof. intros Hw Hv Hwn Hvn. rewrite split_whitespace_cons by done. by rewrite split_whitespace_word. Qed.

(** ** Lines that end in LF *)

Lemma split_lf ls s : Forall (lacks 10) ls -> split 10 (concat ((fun l => l ++ [10]) <$> ls) ++ s) = ls ++ split 10 s.
Proof.
  induction 1 as [|l ls Hl _ IH]; [done|]. cbn [fmap list_fmap concat]. rewrite <-!app_assoc. cbn [app]. rewrite split_app by done. by rewrite IH.
Qed.
