(* ===== verification/RtspMsg.v ===== *)
(** * RtspMsg: RTSP messages

    [rtsp/src/parser.rs] (requests, responses, the SDP table), the request
    writers of [rtsp/src/push_client.rs] and [rtsp/src/pull_client.rs], and the
    interleaved framing both sides use.  A [String] is its UTF-8 bytes, the
    header table a [gmap]. *)

From S2P Require Import Prelude Frame Utf8 Text.
Open Scope Z_scope.

Record RtspRequest : Type := {
  req_method : bytes;
  req_uri : bytes;
  req_version : bytes;
  req_headers : gmap bytes bytes;
  req_body : bytes
}.

Record RtspResponse : Type := {
  resp_version : bytes;
  status_code : Z;
  reason : bytes;
  resp_headers : gmap bytes bytes;
  resp_body : bytes
}.

Definition response_new (code : Z) (why : bytes) : RtspResponse :=
  {| resp_version := str "RTSP/1.0"; status_code := code; reason := why;
     resp_headers := {[ str "CSeq" := str "0" ]}; resp_body := [] |}.

Definition with_header (r : RtspResponse) (k v : bytes) : RtspResponse :=
  {| resp_version := resp_version r; status_code := status_code r; reason := reason r;
     resp_headers := <[k := v]> (resp_headers r); resp_body := resp_body r |}.

Definition with_body (r : RtspResponse) (b : bytes) : RtspResponse :=
  {| resp_version := resp_version r; status_code := status_code r; reason := reason r;
     resp_headers := resp_headers r; resp_body := b |}.

(** [format!("{}: {}\r\n", key, value)] *)
Definition header_line (h : bytes * bytes) : bytes := h.1 ++ str ": " ++ h.2 ++ CRLF.

Definition content_length_line (body : bytes) : bytes :=
  match body with [] => [] | _ :: _ => header_line (str "Content-Length", dec (zlen body)) end.

(** The headers come in the iteration order of the table. *)
Definition serialize (r : RtspResponse) : bytes :=
  (resp_version r ++ [32] ++ dec (status_code r) ++ [32] ++ reason r ++ CRLF) ++
  concat (header_line <$> map_to_list (resp_headers r)) ++ content_length_line (resp_body r) ++ CRLF ++ resp_body r.

(** ** Parsing *)

Definition add_header (m : gmap bytes bytes) (line : bytes) : gmap bytes bytes :=
  match split_once 58 line with
  | Some (k, v) => <[trim k := trim v]> m
  | None => m
  end.

Definition content_length (headers : gmap bytes bytes) : Z :=
  match headers !! str "Content-Length" with
  | Some v => default 0 (parse_usize v)
  | None => 0
  end.

(** The body between [body_start] and the end of the message; [None] while it
    is incomplete.  [body_start + content_length] overflows for lengths near
    2^64: a panic in debug builds; the wrapped end makes the slice panic in
    release builds. *)
Definition message_body (data : bytes) (body_start : nat) (len : Z) : result (option (bytes * nat)) :=
  if 2 ^ 64 <=? Z.of_nat body_start + len then Panic else
  if zlen data <? Z.of_nat body_start + len then Ok None else
  let total := (body_start + Z.to_nat len)%nat in
  body ← slice data body_start total;
  Ok (Some (body, total)).

Definition parse_request (data : bytes) : result (option (RtspRequest * nat)) :=
  if negb (utf8_valid data) then Ok None else
  match find_sub (CRLF ++ CRLF) data with
  | None => Ok None
  | Some header_end =>
      match lines (take header_end data) with
      | [] => Ok None
      | request_line :: ls =>
          match splitn 3 32 request_line with
          | [method; uri; version] =>
              let headers := foldl add_header ∅ ls in
              b ← message_body data (header_end + 4) (content_length headers);
              match b with
              | None => Ok None
              | Some (body, total) =>
                  Ok (Some ({| req_method := method; req_uri := uri; req_version := version;
                               req_headers := headers; req_body := body |}, total))
              end
          | _ => Ok None
          end
      end
  end.

Definition parse_response (data : bytes) : result (option (RtspResponse * nat)) :=
  if negb (utf8_valid data) then Ok None else
  match find_sub (CRLF ++ CRLF) data with
  | None => Ok None
  | Some header_end =>
      match lines (take header_end data) with
      | [] => Ok None
      | status_line :: ls =>
          match splitn 3 32 status_line with
          | [version; code; why] =>
              match parse_u16 code with
              | None => Ok None
              | Some code =>
                  let headers := foldl add_header ∅ ls in
                  b ← message_body data (header_end + 4) (content_length headers);
                  match b with
                  | None => Ok None
                  | Some (body, total) =>
                      Ok (Some ({| resp_version := version; status_code := code; reason := why;
                                   resp_headers := headers; resp_body := body |}, total))
                  end
              end
          | _ => Ok None
          end
      end
  end.

Definition parse_sdp (data : bytes) : gmap bytes bytes :=
  if utf8_valid data then
    foldl (fun m l => match split_once 61 l with Some (k, v) => <[k := v]> m | None => m end) ∅ (lines data)
  else ∅.

(** ** The clients' requests *)

(** [push_client::send_request]: the request and the next CSeq, which wraps as in release builds. *)
Definition push_request (method uri : bytes) (cseq : Z) (headers : list (bytes * bytes)) (body : bytes) : bytes * Z :=
  ((method ++ [32] ++ uri ++ str " RTSP/1.0" ++ CRLF) ++ header_line (str "CSeq", dec cseq) ++
   concat (header_line <$> headers) ++ content_length_line body ++ CRLF ++ body, u32 (cseq + 1)).

(** [pull_client::send_request]: the same without a body. *)
Definition pull_request (method uri : bytes) (cseq : Z) (headers : list (bytes * bytes)) : bytes * Z :=
  ((method ++ [32] ++ uri ++ str " RTSP/1.0" ++ CRLF) ++ header_line (str "CSeq", dec cseq) ++
   concat (header_line <$> headers) ++ CRLF, u32 (cseq + 1)).

(** ** Written messages *)

(** Text that can stand on a line. *)
Definition line_ok (s : bytes) : Prop := lacks 13 s /\ lacks 10 s.

Lemma line_ok_app s t : line_ok s -> line_ok t -> line_ok (s ++ t).
Proof. unfold line_ok, lacks. rewrite !elem_of_app. tauto. Qed.

Definition header_ok (h : bytes * bytes) : Prop :=
  line_ok h.1 /\ line_ok h.2 /\ lacks 58 h.1 /\ trimmed h.1 /\ trimmed h.2.

(** A header line without its line ending. *)
Definition header_text (h : bytes * bytes) : bytes := h.1 ++ str ": " ++ h.2.

Lemma header_line_text h : header_line h = header_text h ++ CRLF.
Proof. unfold header_line, header_text. by rewrite <-!app_assoc. Qed.

Lemma header_text_ok h : header_ok h -> line_ok (header_text h).
Proof.
  intros (H1 & H2 & _). unfold header_text. apply line_ok_app; [done|]. apply line_ok_app; [|done].
  split; not_in.
Qed.

Lemma header_text_ne h : header_text h <> [].
Proof.
  intros H%(f_equal length). unfold header_text in H. rewrite !length_app in H.
  change (length (str ": ")) with 2%nat in H. cbn [length] in H. lia.
Qed.

Lemma add_header_written m h : header_ok h -> add_header m (header_text h) = <[h.1 := h.2]> m.
Proof.
  intros (_ & _ & Hc & Hk & Hv). unfold add_header, header_text.
  change (str ": " ++ h.2) with (58 :: 32 :: h.2). rewrite split_once_app by done.
  rewrite (trim_trimmed h.1 Hk). f_equal. destruct h as [k [|x v]]; cbn [snd] in *; [apply trim_all_space|]. by apply trim_space.
Qed.

(** The header table a list of headers stands for: the last one wins. *)
Definition header_map (hs : list (bytes * bytes)) : gmap bytes bytes := foldl (fun m h => <[h.1 := h.2]> m) ∅ hs.

Lemma headers_written hs : Forall header_ok hs -> foldl add_header ∅ (header_text <$> hs) = header_map hs.
Proof.
  unfold header_map. generalize (∅ : gmap bytes bytes). intros m H. revert m.
  induction H as [|h hs Hh Hhs IH]; intros m; [done|]. cbn [fmap list_fmap foldl]. by rewrite add_header_written.
Qed.

Lemma header_map_snoc hs k v : header_map (hs ++ [(k, v)]) = <[k := v]> (header_map hs).
Proof. unfold header_map. by rewrite foldl_app. Qed.

(** A table survives being written in any order. *)
Lemma header_map_to_list (m : gmap bytes bytes) : header_map (map_to_list m) = m.
Proof.
  assert (H : forall (l : list (bytes * bytes)), NoDup l.*1 -> header_map l = list_to_map l); [|rewrite H, list_to_map_to_list; [done|apply NoDup_fst_map_to_list]].
  intros l. induction l as [|[k v] l IH] using rev_ind; [done|]. intros Hnd. rewrite header_map_snoc, IH.
  - rewrite list_to_map_app. cbn. apply map_eq. intros j. rewrite fmap_app, NoDup_app in Hnd. destruct Hnd as (_ & Hd & _).
    destruct (decide (k = j)) as [<-|Hne].
    + rewrite lookup_insert_eq, lookup_union_r; [by rewrite lookup_insert_eq|].
      apply not_elem_of_list_to_map_1. intros Hin. apply (Hd k Hin). cbn. apply list_elem_of_here.
    + rewrite lookup_insert_ne by done. destruct (list_to_map l !! j) eqn:E; symmetry.
      * by apply lookup_union_Some_l.
      * rewrite lookup_union_r by done. rewrite lookup_insert_ne by done. by rewrite lookup_empty.
  - rewrite fmap_app in Hnd. by apply NoDup_app in Hnd as [? _].
Qed.

(** ** Finding the end of the head *)

Lemma find_sub_skip p0 p s t :
  lacks p0 s -> find_sub (p0 :: p) (s ++ t) = (fun n => (length s + n)%nat) <$> find_sub (p0 :: p) t.
Proof.
  unfold lacks. induction s as [|x s IH]; intros H; [cbn [app length Nat.add]; by destruct (find_sub (p0 :: p) t)|].
  apply not_elem_of_cons in H as [Hx Hs]. cbn [app find_sub]. unfold starts_with. cbn [strip_prefix].
  rewrite (proj2 (Z.eqb_neq p0 x)) by done. rewrite IH by done. destruct (find_sub (p0 :: p) t); reflexivity.
Qed.

Lemma find_sub_cons p y s : starts_with p (y :: s) = false -> find_sub p (y :: s) = S <$> find_sub p s.
Proof. intros H. cbn [find_sub]. by rewrite H. Qed.

Lemma find_blank ls l rest :
  Forall (fun s => line_ok s /\ s <> []) ls -> line_ok l -> l <> [] ->
  find_sub (CRLF ++ CRLF) (concat ((fun s => s ++ CRLF) <$> ls) ++ l ++ CRLF ++ CRLF ++ rest) =
  Some (length (concat ((fun s => s ++ CRLF) <$> ls) ++ l)).
Proof.
  intros Hls Hl Hne. change (CRLF ++ CRLF) with (13 :: [10; 13; 10]).
  assert (Hlast : find_sub (13 :: [10; 13; 10]) (l ++ CRLF ++ CRLF ++ rest) = Some (length l)).
  { rewrite find_sub_skip by apply Hl. cbn. by rewrite Nat.add_0_r. }
  induction Hls as [|s ls [Hs Hsn] Hls IH]; [exact Hlast|].
  rewrite fmap_cons. cbn [concat]. rewrite <-!app_assoc. rewrite find_sub_skip by apply Hs.
  set (tail := concat ((fun s => s ++ CRLF) <$> ls) ++ l ++ CRLF ++ CRLF ++ rest) in *.
  assert (Hh : exists x t, tail = x :: t /\ x <> 13).
  { unfold tail. destruct ls as [|s' ls].
    - cbn. destruct l as [|x l]; [done|]. exists x. eexists. split; [reflexivity|]. intros ->. apply (proj1 Hl). apply list_elem_of_here.
    - apply Forall_cons in Hls as [[[Hs' _] Hn'] _]. rewrite fmap_cons. cbn [concat]. destruct s' as [|x s']; [done|]. exists x. eexists.
      split; [reflexivity|]. intros ->. apply Hs'. apply list_elem_of_here. }
  destruct Hh as (x & t & Ht & Hx).
  assert (Hskip : find_sub (13 :: [10; 13; 10]) (CRLF ++ tail) = (fun n => (2 + n)%nat) <$> find_sub (13 :: [10; 13; 10]) tail).
  { change (CRLF ++ tail) with (13 :: 10 :: tail). rewrite !find_sub_cons.
    - destruct (find_sub _ tail); reflexivity.
    - done.
    - rewrite Ht. unfold starts_with. cbn [strip_prefix]. rewrite !Z.eqb_refl. by rewrite (proj2 (Z.eqb_neq 13 x)) by congruence. }
  rewrite Hskip, IH. cbn [fmap option_fmap option_map]. f_equal. rewrite !length_app. cbn [length CRLF]. lia.
Qed.

(** The head of a message written as non-empty lines and a blank one. *)
Lemma head_found ls rest :
  ls <> [] -> Forall (fun s => line_ok s /\ s <> []) ls ->
  let head := concat ((fun s => s ++ CRLF) <$> ls) in
  exists n, find_sub (CRLF ++ CRLF) (head ++ CRLF ++ rest) = Some n /\ lines (take n (head ++ CRLF ++ rest)) = ls /\
    (n + 4)%nat = length (head ++ CRLF).
Proof.
  intros Hne Hls head. destruct (exists_last Hne) as (init & l & ->). apply Forall_app in Hls as [Hi [[Hl Hln] _]%Forall_cons].
  assert (Hhead : head = concat ((fun s => s ++ CRLF) <$> init) ++ l ++ CRLF).
  { unfold head. rewrite fmap_app, concat_app. cbn [fmap list_fmap concat]. by rewrite app_nil_r. }
  assert (Heq : head ++ CRLF ++ rest = concat ((fun s => s ++ CRLF) <$> init) ++ l ++ CRLF ++ CRLF ++ rest)
    by (rewrite Hhead, <-!app_assoc; done).
  exists (length (concat ((fun s => s ++ CRLF) <$> init) ++ l)). rewrite Heq. split_and!.
  - by apply find_blank.
  - rewrite (app_assoc _ l), take_app_length. apply lines_crlf_last; [|apply Hl|done].
    eapply Forall_impl; [exact Hi|]. by intros s [[_ ?] _].
  - rewrite Hhead, !length_app. cbn [length CRLF]. lia.
Qed.

(** The header lines of a message with their Content-Length. *)
Definition all_headers (hs : list (bytes * bytes)) (body : bytes) : list (bytes * bytes) :=
  hs ++ match body with [] => [] | _ :: _ => [(str "Content-Length", dec (zlen body))] end.

Lemma all_headers_lines hs body :
  concat (header_line <$> hs) ++ content_length_line body =
  concat ((fun s => s ++ CRLF) <$> (header_text <$> all_headers hs body)).
Proof.
  unfold all_headers. rewrite !fmap_app, concat_app. f_equal.
  - induction hs as [|h hs IH]; [done|]. rewrite !fmap_cons. cbn [concat]. rewrite IH. by rewrite header_line_text.
  - unfold content_length_line. destruct body; [done|]. cbn [fmap list_fmap concat]. by rewrite header_line_text, app_nil_r.
Qed.

Lemma digits_trimmed s : Forall (fun b => 48 <= b <= 57) s -> trimmed s.
Proof.
  intros H. assert (Hn : forall s, Forall (fun b => 48 <= b <= 57) s ->
    strip_any WHITE_SPACE s = None /\ strip_any (reverse <$> WHITE_SPACE) s = None).
  { clear. intros s H. destruct H as [|b s Hb _]; [done|].
    assert (Hp : forall ps, Forall (fun p : bytes => match p with x :: _ => ~ 48 <= x <= 57 | [] => False end) ps ->
      strip_any ps (b :: s) = None).
    { intros ps. induction 1 as [|p ps Hp Hps IH]; [done|]. cbn [strip_any]. destruct p as [|x p]; [done|].
      cbn [strip_prefix]. by rewrite (proj2 (Z.eqb_neq x b)) by lia. }
    split; apply Hp; repeat (apply Forall_cons_2; [cbn; lia|]); apply Forall_nil_2. }
  split; [exact (proj1 (Hn s H))|]. exact (proj2 (Hn (reverse s) (proj2 (Forall_reverse _ s) H))).
Qed.

Lemma content_length_ok (body : bytes) : header_ok (str "Content-Length", dec (zlen body)).
Proof.
  assert (0 <= zlen body) by (unfold zlen; lia). pose proof (dec_range (zlen body) ltac:(lia)) as Hr.
  split; [|split; [|split; [|split]]]; cbn [fst snd].
  - split; not_in.
  - split; apply dec_lacks; lia.
  - not_in.
  - by vm_compute.
  - by apply digits_trimmed.
Qed.

(** Parsing a written message up to its first line. *)
Lemma message_written first hs body rest :
  line_ok first -> first <> [] -> Forall header_ok hs -> zlen body < 2 ^ 62 -> zlen (concat (header_line <$> hs)) + zlen first < 2 ^ 62 ->
  (body = [] -> header_map hs !! str "Content-Length" = None) ->
  let data := (first ++ CRLF) ++ (concat (header_line <$> hs) ++ content_length_line body) ++ CRLF ++ body ++ rest in
  exists n, find_sub (CRLF ++ CRLF) data = Some n /\
    lines (take n data) = first :: (header_text <$> all_headers hs body) /\
    foldl add_header ∅ (header_text <$> all_headers hs body) = header_map (all_headers hs body) /\
    message_body data (n + 4) (content_length (header_map (all_headers hs body))) =
      Ok (Some (body, length ((first ++ CRLF) ++ (concat (header_line <$> hs) ++ content_length_line body) ++ CRLF ++ body))).
Proof.
  intros Hf Hfn Hhs Hb Hsmall Hcl data.
  assert (Hall : Forall header_ok (all_headers hs body)).
  { unfold all_headers. apply Forall_app. split; [done|]. destruct body; [constructor|]. apply Forall_singleton, content_length_ok. }
  set (ls := first :: (header_text <$> all_headers hs body)).
  assert (Hls : Forall (fun s => line_ok s /\ s <> []) ls).
  { constructor; [done|]. apply Forall_fmap. eapply Forall_impl; [exact Hall|]. intros h Hh. cbn.
    split; [by apply header_text_ok|apply header_text_ne]. }
  set (head := concat ((fun s => s ++ CRLF) <$> ls)).
  assert (Hhead : head = (first ++ CRLF) ++ (concat (header_line <$> hs) ++ content_length_line body)).
  { unfold head, ls. rewrite fmap_cons. cbn [concat]. by rewrite all_headers_lines. }
  assert (Hdata : data = head ++ CRLF ++ body ++ rest) by (unfold data; rewrite Hhead, <-!app_assoc; done).
  destruct (head_found ls (body ++ rest)) as (n & Hn & Hlines & Hlen); [done|done|]. fold head in Hn, Hlines, Hlen.
  exists n. rewrite <-Hdata in Hn, Hlines. split_and!; [done|done|by apply headers_written|].
  assert (Hc : content_length (header_map (all_headers hs body)) = zlen body).
  { unfold content_length, all_headers. destruct body as [|b body'] eqn:Hbd.
    - rewrite app_nil_r, Hcl by done. done.
    - rewrite header_map_snoc, lookup_insert_eq. unfold parse_usize. rewrite parse_uint_dec; [done|unfold zlen in *; lia|lia]. }
  rewrite Hc. unfold message_body.
  assert (Hh62 : (n + 4 <= length data)%nat /\ (length data = length (head ++ CRLF) + length body + length rest)%nat).
  { rewrite Hdata, Hlen, !length_app. cbn [length CRLF]. lia. }
  assert (Hclen : zlen (content_length_line body) < 100).
  { unfold content_length_line. destruct body; [done|]. unfold header_line. cbn [fst snd]. rewrite !zlen_app.
    assert (zlen (dec (zlen (z :: body))) <= 20); [|change (zlen (str "Content-Length")) with 14; change (zlen (str ": ")) with 2; change (zlen CRLF) with 2; lia].
    generalize (zlen (z :: body)). intros m. Transparent dec. unfold dec. Opaque dec.
    assert (Hg : forall f m, zlen (dec_digits f m) <= Z.of_nat f).
    { clear. induction f as [|f IH]; intros m; [done|]. cbn [dec_digits]. destruct (m <? 10); [unfold zlen; cbn; lia|].
      rewrite zlen_app. specialize (IH (m / 10)). change (zlen [48 + m mod 10]) with 1. lia. }
    apply (Hg 20%nat). }
  assert (Hn62 : Z.of_nat (n + 4) < 2 ^ 63).
  { rewrite Hlen, Hhead. unfold zlen in *. rewrite !length_app in *. cbn [length CRLF]. lia. }
  rewrite (proj2 (Z.leb_gt _ _)) by lia. rewrite (proj2 (Z.ltb_ge _ _)) by (unfold zlen; lia).
  unfold zlen. rewrite Nat2Z.id. rewrite Hdata at 1. rewrite app_assoc.
  rewrite slice_mid by (rewrite ?Hlen; lia). cbn [mbind outcome_bind]. do 3 f_equal.
  rewrite Hlen, Hhead, <-!app_assoc, !length_app. lia.
Qed.

Lemma splitn3_line a b c : lacks 32 a -> lacks 32 b -> splitn 3 32 (a ++ [32] ++ b ++ [32] ++ c) = [a; b; c].
Proof. intros Ha Hb. apply (splitn3_app 32 a b c Ha Hb). Qed.

Lemma line_nonempty a b c : a ++ [32] ++ b ++ [32] ++ c <> [].
Proof. intros H%(f_equal length). rewrite !length_app in H. cbn [length] in H. lia. Qed.

Lemma line_ok_3 a b c : line_ok a -> line_ok b -> line_ok c -> line_ok (a ++ [32] ++ b ++ [32] ++ c).
Proof.
  intros Ha Hb Hc. assert (line_ok [32]) by (split; not_in).
  by repeat apply line_ok_app.
Qed.

Lemma cseq_ok n : 0 <= n -> header_ok (str "CSeq", dec n).
Proof.
  intros Hn. split; [|split; [|split; [|split]]]; cbn [fst snd].
  - split; not_in.
  - split; apply dec_lacks; lia.
  - not_in.
  - by vm_compute.
  - by apply digits_trimmed, dec_range.
Qed.

(** The server reads the requests the clients write.  For a method and URI
    without spaces or line breaks and headers whose names and values are
    trimmed single lines, the request parser returns the method, URI, version,
    header table (the last of equal names wins, the CSeq and Content-Length
    included) and body of a request written by the push or pull client, and
    consumes exactly its bytes, whatever UTF-8 text follows. *)
Theorem rtsp_request_round_trip (method uri : bytes) (cseq : Z) (headers : list (bytes * bytes)) (body rest : bytes) :
  line_ok method -> lacks 32 method -> line_ok uri -> lacks 32 uri -> 0 <= cseq -> Forall header_ok headers ->
  (body = [] -> header_map ((str "CSeq", dec cseq) :: headers) !! str "Content-Length" = None) ->
  let out := (push_request method uri cseq headers body).1 in
  zlen out < 2 ^ 60 -> utf8_valid (out ++ rest) = true ->
  parse_request (out ++ rest) =
    Ok (Some ({| req_method := method; req_uri := uri; req_version := str "RTSP/1.0";
                 req_headers := header_map (all_headers ((str "CSeq", dec cseq) :: headers) body); req_body := body |},
              length out)) /\
  (body = [] -> pull_request method uri cseq headers = push_request method uri cseq headers body).
Proof.
  intros Hm Hm32 Hu Hu32 Hc Hhs Hcl out Hsz Hutf. split; [|intros ->; done].
  set (first := method ++ [32] ++ uri ++ [32] ++ str "RTSP/1.0").
  set (hs := (str "CSeq", dec cseq) :: headers) in *.
  assert (Hout : out = (first ++ CRLF) ++ (concat (header_line <$> hs) ++ content_length_line body) ++ CRLF ++ body).
  { unfold out, push_request, first, hs. cbn [fst]. rewrite fmap_cons. cbn [concat].
    change (str " RTSP/1.0") with ([32] ++ str "RTSP/1.0"). by rewrite <-!app_assoc. }
  assert (Hdata : out ++ rest = (first ++ CRLF) ++ (concat (header_line <$> hs) ++ content_length_line body) ++ CRLF ++ body ++ rest)
    by (rewrite Hout, <-!app_assoc; done).
  assert (Hpos : 0 <= zlen first /\ 0 <= zlen (concat (header_line <$> hs)) /\ 0 <= zlen body) by (unfold zlen; lia).
  assert (Hzo : zlen first + zlen (concat (header_line <$> hs)) + zlen body <= zlen out).
  { rewrite Hout, !zlen_app. unfold zlen. lia. }
  destruct (message_written first hs body rest) as (n & Hn & Hl & Hh & Hb).
  { apply line_ok_3; [done|done|]. split; not_in. }
  { apply line_nonempty. }
  { constructor; [by apply cseq_ok|done]. }
  { lia. } { lia. } { done. }
  rewrite <-Hdata in Hn, Hl, Hb. rewrite <-Hout in Hb. unfold parse_request. rewrite Hutf. cbn [negb]. rewrite Hn, Hl.
  unfold first at 1. rewrite splitn3_line by done. rewrite Hh, Hb. done.
Qed.

Lemma rtsp_request_round_trip_witness :
  parse_request ((push_request (str "ANNOUNCE") (str "rtsp://h/live/s") 2 [(str "Content-Type", str "application/sdp")] (str "v=0")).1
                 ++ str "OPTIONS") =
  Ok (Some ({| req_method := str "ANNOUNCE"; req_uri := str "rtsp://h/live/s"; req_version := str "RTSP/1.0";
               req_headers := header_map (all_headers [(str "CSeq", dec 2); (str "Content-Type", str "application/sdp")] (str "v=0"));
               req_body := str "v=0" |}, 99%nat)).
Proof.
  destruct (rtsp_request_round_trip (str "ANNOUNCE") (str "rtsp://h/live/s") 2 [(str "Content-Type", str "application/sdp")]
    (str "v=0") (str "OPTIONS")) as [H _].
  - split; not_in.
  - not_in.
  - split; not_in.
  - not_in.
  - lia.
  - apply Forall_singleton. split; [|split; [|split; [|split]]]; cbn [fst snd].
    + split; not_in.
    + split; not_in.
    + not_in.
    + split; vm_compute; reflexivity.
    + split; vm_compute; reflexivity.
  - discriminate.
  - vm_compute. reflexivity.
  - vm_compute. reflexivity.
  - rewrite H. vm_compute. reflexivity.
Defined.

(** The clients read the responses the server writes, in whatever order
    the header table is written: status, reason, headers (with the computed
    Content-Length when there is a body) and body come back, and exactly the
    response's bytes are consumed. *)
Theorem rtsp_response_round_trip (r : RtspResponse) (rest : bytes) :
  line_ok (resp_version r) -> lacks 32 (resp_version r) -> 0 <= status_code r < 2 ^ 16 -> line_ok (reason r) ->
  Forall header_ok (map_to_list (resp_headers r)) ->
  (resp_body r = [] -> resp_headers r !! str "Content-Length" = None) ->
  zlen (serialize r) < 2 ^ 60 -> utf8_valid (serialize r ++ rest) = true ->
  parse_response (serialize r ++ rest) =
    Ok (Some ({| resp_version := resp_version r; status_code := status_code r; reason := reason r;
                 resp_headers := match resp_body r with
                                 | [] => resp_headers r
                                 | _ :: _ => <[str "Content-Length" := dec (zlen (resp_body r))]> (resp_headers r)
                                 end;
                 resp_body := resp_body r |}, length (serialize r))).
Proof.
  intros Hv Hv32 Hcode Hr Hhs Hcl Hsz Hutf.
  set (first := resp_version r ++ [32] ++ dec (status_code r) ++ [32] ++ reason r).
  set (hs := map_to_list (resp_headers r)) in *. set (body := resp_body r) in *.
  assert (Hout : serialize r = (first ++ CRLF) ++ (concat (header_line <$> hs) ++ content_length_line body) ++ CRLF ++ body).
  { unfold serialize, first. fold hs body. by rewrite <-!app_assoc. }
  assert (Hdata : serialize r ++ rest =
    (first ++ CRLF) ++ (concat (header_line <$> hs) ++ content_length_line body) ++ CRLF ++ body ++ rest)
    by (rewrite Hout, <-!app_assoc; done).
  assert (Hpos : 0 <= zlen first /\ 0 <= zlen (concat (header_line <$> hs)) /\ 0 <= zlen body) by (unfold zlen; lia).
  assert (Hzo : zlen first + zlen (concat (header_line <$> hs)) + zlen body <= zlen (serialize r)).
  { rewrite Hout, !zlen_app. unfold zlen. lia. }
  assert (Hd32 : lacks 32 (dec (status_code r))) by (apply dec_lacks; lia).
  assert (Hdl : line_ok (dec (status_code r))) by (split; apply dec_lacks; lia).
  destruct (message_written first hs body rest) as (n & Hn & Hl & Hh & Hb).
  { by apply line_ok_3. } { apply line_nonempty. } { done. } { lia. } { lia. }
  { unfold hs. by rewrite header_map_to_list. }
  rewrite <-Hdata in Hn, Hl, Hb. rewrite <-Hout in Hb. unfold parse_response. rewrite Hutf. cbn [negb]. rewrite Hn, Hl.
  unfold first at 1. rewrite splitn3_line by done. unfold parse_u16. rewrite parse_uint_dec by lia. rewrite Hh, Hb.
  cbn [mbind outcome_bind]. do 4 f_equal. unfold all_headers. destruct body as [|b body'] eqn:Hbd.
  - rewrite app_nil_r. apply header_map_to_list.
  - rewrite header_map_snoc. unfold hs. by rewrite header_map_to_list.
Qed.

Lemma rtsp_response_round_trip_witness :
  parse_response (serialize (with_header (response_new 200 (str "OK")) (str "CSeq") (str "7"))) =
  Ok (Some (with_header (response_new 200 (str "OK")) (str "CSeq") (str "7"), 28%nat)).
Proof.
  pose proof (rtsp_response_round_trip (with_header (response_new 200 (str "OK")) (str "CSeq") (str "7")) []) as H.
  rewrite app_nil_r in H. rewrite H; [vm_compute; reflexivity|..].
  - split; not_in.
  - not_in.
  - cbn. lia.
  - split; not_in.
  - change (map_to_list _) with [(str "CSeq", str "7")]. apply Forall_singleton. split; [|split; [|split; [|split]]]; cbn [fst snd].
    + split; not_in.
    + split; not_in.
    + not_in.
    + split; vm_compute; reflexivity.
    + split; vm_compute; reflexivity.
  - vm_compute. reflexivity.
  - vm_compute. reflexivity.
  - vm_compute. reflexivity.
Defined.

(** What stops the RTSP parsers.  A Content-Length of 2^64 - 1 overflows
    the end of the body; and since the whole buffer must be UTF-8, a complete
    request is not recognised while binary data follows it in the buffer. *)
Theorem rtsp_parser_defects :
  parse_request (str "OPTIONS * RTSP/1.0" ++ CRLF ++ str "Content-Length: 18446744073709551615" ++ CRLF ++ CRLF) = Panic /\
  (forall data, utf8_valid data = false -> parse_request data = Ok None /\ parse_response data = Ok None) /\
  parse_request ((pull_request (str "TEARDOWN") (str "*") 9 []).1 ++ [36; 0; 0; 1; 0x80]) = Ok None.
Proof.
  split; [vm_compute; reflexivity|]. split; [|vm_compute; reflexivity].
  intros data H. unfold parse_request, parse_response. by rewrite H.
Qed.
