(* ===== verification/Auth.v ===== *)
(** * Auth: stream authentication

    [core/src/auth.rs] ([StreamAuth]: signatures, Digest and Basic) and the
    client side of [rtsp/src/client_transport.rs].  MD5, SHA-256 and Base64 come
    from other crates: they are the fields of a class, and the theorems use
    their documented laws only where they need them. *)

From S2P Require Import Prelude Frame Utf8 Text.
Open Scope Z_scope.

Class AuthPrimitives : Type := {
  md5 : bytes -> bytes;
  sha256 : bytes -> bytes;
  base64_encode : bytes -> bytes;
  base64_decode : bytes -> option bytes
}.

(** Digests are byte strings; Base64 output is printable, empty only for empty
    input, and decoding inverts encoding. *)
Class AuthPrimitivesOk `{AuthPrimitives} : Prop := {
  md5_bytes s : bytes_ok (md5 s);
  sha256_bytes s : bytes_ok (sha256 s);
  base64_round_trip s : bytes_ok s -> base64_decode (base64_encode s) = Some s;
  base64_printable s : Forall (fun b => 33 <= b <= 126) (base64_encode s);
  base64_nonempty s : s <> [] -> base64_encode s <> []
}.

Record StreamAuth : Type := {
  enabled : bool;
  startup_secret : bytes;
  default_realm : option bytes;
  users : gmap bytes bytes;
  runtime_secret : bytes
}.

Definition auth_new (on : bool) (secret : bytes) : StreamAuth :=
  {| enabled := on; startup_secret := secret; default_realm := None; users := ∅; runtime_secret := secret |}.

Definition auth_new_with_realm (on : bool) (secret : bytes) (realm : option bytes) (table : gmap bytes bytes) : StreamAuth :=
  {| enabled := on; startup_secret := secret; default_realm := realm; users := table; runtime_secret := secret |}.

Definition secret (a : StreamAuth) : bytes := runtime_secret a.

Definition set_secret (a : StreamAuth) (s : bytes) : bool * StreamAuth :=
  if bool_decide (runtime_secret a = s) then (false, a)
  else (true, {| enabled := enabled a; startup_secret := startup_secret a; default_realm := default_realm a;
                 users := users a; runtime_secret := s |}).

Definition digest_password (a : StreamAuth) (username : bytes) : bytes :=
  default (secret a) (users a !! username).

(** ** Hexadecimal digests *)

Definition hex_digit (d : Z) : Z := if d <? 10 then 48 + d else 87 + d.

(** [format!("{:02x}", b)] *)
Definition hex_byte (b : Z) : bytes := [hex_digit (b / 16); hex_digit (b mod 16)].
Definition hex (s : bytes) : bytes := concat (hex_byte <$> s).

(** The comparison that reads both strings to their end. *)
Definition ct_eq (expected given : bytes) : bool :=
  if negb (length expected =? length given)%nat then false
  else foldl (fun diff ab => Z.lor diff (Z.lxor ab.1 ab.2)) 0 (zip expected given) =? 0.

Section Checks.
Context `{AuthPrimitives}.

Definition md5_hex (input : bytes) : bytes := hex (md5 input).

(** What is hashed: the secret and the parts, with bars between them. *)
Definition signed_text (secret : bytes) (parts : list bytes) : bytes :=
  foldl (fun acc p => acc ++ [124] ++ p) secret parts.

Definition generate_sign (secret : bytes) (parts : list bytes) : bytes := hex (sha256 (signed_text secret parts)).

Definition validate_sign (secret sign : bytes) (parts : list bytes) : bool :=
  ct_eq (generate_sign secret parts) sign.

Definition check (a : StreamAuth) (vhost app stream action sign : bytes) : bool :=
  if negb (enabled a) then true
  else match sign with
       | [] => false
       | _ :: _ => validate_sign (secret a) sign [vhost; app; stream; action]
       end.

(** One [name=value] of a header, the value without its quotes. *)
Definition add_field (m : gmap bytes bytes) (part : bytes) : gmap bytes bytes :=
  match split_once 61 part with
  | Some (k, v) => <[to_ascii_lowercase (trim k) := trim_matches 34 (trim v)]> m
  | None => m
  end.

Definition digest_fields (rest : bytes) : gmap bytes bytes := foldl add_field ∅ (split 44 rest).

(** [format!("{}:{}:...", ...)] *)
Fixpoint colons (ps : list bytes) : bytes :=
  match ps with
  | [] => []
  | [p] => p
  | p :: ps => p ++ [58] ++ colons ps
  end.

Definition check_fields (a : StreamAuth) (realm method uri : bytes) (fields : gmap bytes bytes) : bool :=
  match fields !! str "realm" with
  | None => false
  | Some hdr_realm =>
      if negb (bool_decide (hdr_realm = realm)) then false else
      match fields !! str "nonce", fields !! str "uri", fields !! str "response" with
      | Some nonce, Some hdr_uri, Some response =>
          let username := default [] (fields !! str "username") in
          let password := digest_password a username in
          let ha1 := md5_hex (colons [username; realm; password]) in
          let ha2 := md5_hex (colons [method; uri]) in
          let expected := md5_hex (colons [ha1; nonce; ha2]) in
          if bool_decide (fields !! str "qop" = Some (str "auth")) then
            match fields !! str "nc", fields !! str "cnonce" with
            | Some nc, Some cnonce =>
                let ha2_alt := md5_hex (colons [method; hdr_uri]) in
                let expected_alt := md5_hex (colons [ha1; nonce; nc; cnonce; str "auth"; ha2_alt]) in
                bool_decide (response = expected_alt)
            | _, _ => false
            end
          else bool_decide (response = expected)
      | _, _, _ => false
      end
  end.

Definition check_digest (a : StreamAuth) (realm method uri header : bytes) : bool :=
  match strip_prefix (str "digest ") (to_ascii_lowercase (trim header)) with
  | None => false
  | Some rest => check_fields a realm method uri (digest_fields rest)
  end.

Definition check_basic (a : StreamAuth) (header : bytes) : bool :=
  let header := trim header in
  if negb (starts_with (str "basic ") (to_ascii_lowercase header)) then false else
  match base64_decode (trim (drop 6 header)) with
  | None => false
  | Some decoded =>
      if negb (utf8_valid decoded) then false else
      match split_once 58 decoded with
      | None => false
      | Some (username, password) => ct_eq (digest_password a username) password
      end
  end.

(** ** The client *)

Definition basic_authorization (username password : bytes) : bytes :=
  str "Basic " ++ base64_encode (username ++ [58] ++ password).

(** A field as both sides write it. *)
Definition quoted (name : string) (v : bytes) : bytes := str name ++ [61; 34] ++ v ++ [34].

Definition challenge_field (acc : option bytes * option bytes) (field : bytes) : option bytes * option bytes :=
  match split_once 61 (trim field) with
  | Some (name, value) =>
      let value := trim_matches 34 (trim value) in
      let name := to_ascii_lowercase (trim name) in
      if bool_decide (name = str "realm") then (Some value, acc.2)
      else if bool_decide (name = str "nonce") then (acc.1, Some value)
      else acc
  | None => acc
  end.

Definition digest_authorization (challenge username password method uri : bytes) : result bytes :=
  let parameters := default challenge (strip_prefix (str "Digest ") (trim challenge)) in
  match foldl challenge_field (None, None) (split 44 parameters) with
  | (Some realm, Some nonce) =>
      let ha1 := md5_hex (colons [username; realm; password]) in
      let ha2 := md5_hex (colons [method; uri]) in
      let response := md5_hex (colons [ha1; nonce; ha2]) in
      Ok (str "Digest " ++ quoted "username" username ++ str ", " ++ quoted "realm" realm ++ str ", " ++
          quoted "nonce" nonce ++ str ", " ++ quoted "uri" uri ++ str ", " ++ quoted "response" response)
  | (None, _) => Err (Anyhow "RTSP Digest challenge is missing realm")
  | (Some _, None) => Err (Anyhow "RTSP Digest challenge is missing nonce")
  end.

Definition authorization_header (challenge username password method uri : bytes) : result bytes :=
  if starts_with (str "basic") (to_ascii_lowercase (trim challenge)) then Ok (basic_authorization username password)
  else digest_authorization challenge username password method uri.

End Checks.

(** The challenge the RTSP session sends. *)
Definition www_authenticate (realm nonce : bytes) : bytes :=
  str "Basic " ++ quoted "realm" realm ++ str ", Digest " ++ quoted "realm" realm ++ str ", " ++ quoted "nonce" nonce.

(** ** Comparison and signatures *)

Lemma ct_fold_zero l : forall diff,
  foldl (fun diff ab => Z.lor diff (Z.lxor ab.1 ab.2)) diff l = 0 <-> diff = 0 /\ Forall (fun ab : Z * Z => ab.1 = ab.2) l.
Proof.
  induction l as [|[x y] l IH]; intros diff; cbn [foldl fst snd]; [split; [intros ->; split; constructor|tauto]|].
  rewrite IH, Z.lor_eq_0_iff, Z.lxor_eq_0_iff, Forall_cons. tauto.
Qed.

(** The constant-time comparison is equality. *)
Lemma ct_eq_spec e g : ct_eq e g = true <-> e = g.
Proof.
  unfold ct_eq. destruct (Nat.eqb_spec (length e) (length g)) as [Hl|Hl]; cbn [negb]; [|split; [done|congruence]].
  rewrite Z.eqb_eq, ct_fold_zero. split; [|intros ->; split; [done|]].
  - intros [_ Hf]. revert g Hl Hf. induction e as [|x e IH]; intros [|y g] Hl Hf; [done|done|done|]. cbn [zip zip_with] in Hf.
    apply Forall_cons in Hf as [Hxy Hf]. cbn in Hxy. f_equal; [done|]. apply IH; [by injection Hl|done].
  - clear. induction g; constructor; done.
Qed.

Lemma signed_text_app s ps : signed_text s ps = s ++ concat (cons 124 <$> ps).
Proof.
  unfold signed_text. revert s. induction ps as [|p ps IH]; intros s; cbn [foldl fmap list_fmap concat]; [by rewrite app_nil_r|].
  rewrite IH, <-!app_assoc. done.
Qed.

Lemma bars_inj ps qs :
  Forall (lacks 124) ps -> Forall (lacks 124) qs -> concat (cons 124 <$> ps) = concat (cons 124 <$> qs) -> ps = qs.
Proof.
  intros Hp. revert qs. induction Hp as [|p ps Hp Hps IH]; intros qs Hq; cbn [fmap list_fmap concat app].
  { destruct Hq; [done|discriminate]. }
  destruct Hq as [|q qs Hq Hqs]; cbn [fmap list_fmap concat app]; [discriminate|]. intros [= He].
  assert (Hs : forall (l : bytes) ls, lacks 124 l -> exists r, split 124 (l ++ concat (cons 124 <$> ls)) = l :: r).
  { intros l [|x ls] Hl; cbn [fmap list_fmap concat app]; [rewrite app_nil_r, split_lacks by done; by eexists|].
    rewrite split_app by done. by eexists. }
  destruct (Hs p ps Hp) as [r1 H1], (Hs q qs Hq) as [r2 H2]. assert (p = q) as -> by congruence.
  apply app_inv_head in He. f_equal. by apply IH.
Qed.

Section Facts.
Context `{AuthPrimitives}.

(** Signatures.  With authentication off every request passes.  With it
    on, a request passes exactly when it carries the non-empty digest of the
    current secret and its virtual host, application, stream and action; a
    changed secret counts from then on.  The hashed text determines the four
    parts when none contains a bar, and does not otherwise: a signature for
    application "a|b" and stream "c" is one for application "a" and stream "b|c". *)
Theorem sign_check_exact (a : StreamAuth) vhost app stream action sign :
  (enabled a = false -> check a vhost app stream action sign = true) /\
  (enabled a = true ->
    check a vhost app stream action sign = true <->
    sign <> [] /\ sign = hex (sha256 (signed_text (secret a) [vhost; app; stream; action]))) /\
  (forall s, secret (set_secret a s).2 = s /\ ((set_secret a s).1 = true <-> secret a <> s)) /\
  (forall s ps qs, Forall (lacks 124) ps -> Forall (lacks 124) qs -> signed_text s ps = signed_text s qs -> ps = qs) /\
  check a vhost (str "a|b") (str "c") action sign = check a vhost (str "a") (str "b|c") action sign.
Proof.
  split_and!.
  - unfold check. by intros ->.
  - unfold check, validate_sign, generate_sign. intros ->. cbn [negb].
    destruct sign as [|b sign]; [split; [done|tauto]|]. rewrite ct_eq_spec. split; [intros He; split; [discriminate|by symmetry]|intros [_ He]; by symmetry].
  - intros s. unfold set_secret, secret. case_bool_decide; cbn; (split; [done|split; congruence]).
  - intros s ps qs Hp Hq. rewrite !signed_text_app. intros He%app_inv_head. by apply bars_inj.
  - unfold check, validate_sign, generate_sign. rewrite !signed_text_app. done.
Qed.

(** ** Headers *)

Lemma to_ascii_lowercase_app s t : to_ascii_lowercase (s ++ t) = to_ascii_lowercase s ++ to_ascii_lowercase t.
Proof. apply fmap_app. Qed.

Lemma starts_with_app p s : starts_with p (p ++ s) = true.
Proof. unfold starts_with. by rewrite strip_prefix_app. Qed.

End Facts.

(** ** Basic *)

Section Basic.
Context `{AuthPrimitivesOk}.

Lemma base64_trimmed s : s <> [] -> trimmed (base64_encode s).
Proof.
  intros Hne%base64_nonempty. pose proof (base64_printable s) as Hp. destruct (base64_encode s) as [|x l] eqn:E; [done|].
  rewrite Forall_forall in Hp. destruct (last (x :: l)) as [y|] eqn:El; [|by apply last_None in El].
  apply (printable_ends _ x y); [done|done|apply Hp, list_elem_of_here|]. apply last_Some_elem_of in El. by apply Hp.
Qed.

Lemma basic_header_trimmed s : s <> [] -> trimmed (str "Basic " ++ base64_encode s).
Proof.
  intros Hne. pose proof (base64_printable s) as Hp. rewrite Forall_forall in Hp. pose proof (base64_nonempty s Hne) as Hn.
  destruct (base64_encode s) as [|x l] eqn:E; [done|]. destruct (last (x :: l)) as [y|] eqn:El; [|by apply last_None in El].
  apply (printable_ends _ 66 y); [done| |unfold printable; lia|apply last_Some_elem_of in El; by apply Hp].
  by rewrite last_app, El.
Qed.

(** C31: the RTSP clients log in.  To the challenge the RTSP session sends, the
    client answers with Basic credentials, whatever realm and nonce it names;
    the server accepts them exactly when the password is the one it holds for
    the user: the table's entry, or the current secret for unknown users. *)
Theorem basic_login (a : StreamAuth) realm nonce user password method uri :
  lacks 58 user -> bytes_ok user -> bytes_ok password -> utf8_valid (user ++ [58] ++ password) = true ->
  exists header, authorization_header (www_authenticate realm nonce) user password method uri = Ok header /\
    (check_basic a header = true <-> password = digest_password a user).
Proof.
  intros Hu Hbu Hbp Hutf. exists (basic_authorization user password). split.
  - unfold authorization_header. rewrite trim_trimmed; [reflexivity|].
    apply (printable_ends _ 66 34); [done| |unfold printable; lia..]. unfold www_authenticate, quoted. rewrite !app_assoc. apply last_snoc.
  - assert (Hne : user ++ [58] ++ password <> []) by (by destruct user).
    assert (Hok : bytes_ok (user ++ [58] ++ password)).
    { apply bytes_ok_app. split; [done|]. apply bytes_ok_app. split; [|done]. apply Forall_singleton. unfold is_u8. lia. }
    unfold check_basic, basic_authorization. rewrite (trim_trimmed (str "Basic " ++ _)) by by apply basic_header_trimmed.
    rewrite to_ascii_lowercase_app. change (to_ascii_lowercase (str "Basic ")) with (str "basic "). rewrite starts_with_app. cbn [negb].
    change (drop 6 (str "Basic " ++ ?x)) with x.
    rewrite trim_trimmed by by apply base64_trimmed. rewrite base64_round_trip by done. rewrite Hutf. cbn [negb].
    change ([58] ++ password) with (58 :: password). rewrite split_once_app by done. rewrite ct_eq_spec. split; congruence.
Qed.

End Basic.

(** ** Digest *)

(** Text a quoted field carries unchanged through the lower-casing server. *)
Definition plain (s : bytes) : Prop := to_ascii_lowercase s = s /\ lacks 34 s /\ lacks 44 s.

(** A field name of the protocol. *)
Definition name_ok (n : string) : Prop :=
  lacks 61 (str n) /\ lacks 44 (str n) /\ Forall printable (str n) /\ str n <> [] /\ to_ascii_lowercase (str n) = str n.

Ltac name_ok :=
  unfold name_ok, lacks; split_and!; [not_in|not_in|repeat constructor; (let H := fresh in intro H; discriminate H)|discriminate|reflexivity].

Lemma printable_all_trimmed s : Forall printable s -> s <> [] -> trimmed s.
Proof.
  rewrite Forall_forall. intros Hp Hne. destruct s as [|x s]; [done|]. destruct (last (x :: s)) as [y|] eqn:El; [|by apply last_None in El].
  apply (printable_ends _ x y); [done|done|apply Hp, list_elem_of_here|]. apply last_Some_elem_of in El. by apply Hp.
Qed.

Lemma name_trimmed n : name_ok n -> trimmed (str n).
Proof. intros (_ & _ & Hp & Hne & _). by apply printable_all_trimmed. Qed.

Lemma quoted_trimmed n v : name_ok n -> trimmed (quoted n v).
Proof.
  intros (_ & _ & Hp & Hne & _). unfold quoted. destruct (str n) as [|x s]; [done|]. apply Forall_cons in Hp as [Hx _].
  apply (printable_ends _ x 34); [done| |done|unfold printable; lia]. rewrite !app_assoc. apply last_snoc.
Qed.

Lemma quoted_value_trimmed v : trimmed (34 :: v ++ [34]).
Proof. apply printable_trimmed; unfold printable; lia. Qed.

Lemma quoted_lower n v : name_ok n -> to_ascii_lowercase (quoted n v) = quoted n (to_ascii_lowercase v).
Proof. intros (_ & _ & _ & _ & Hn). unfold quoted. by rewrite !to_ascii_lowercase_app, Hn. Qed.

Lemma quoted_lacks n v : name_ok n -> lacks 44 v -> lacks 44 (quoted n v).
Proof.
  intros (_ & Hn & _) Hv. unfold quoted, lacks in *. rewrite !elem_of_app. intros [?|[Hin|[?|Hin]]]; [done| |done|]; revert Hin; not_in.
Qed.

Lemma add_field_quoted m n v : name_ok n -> lacks 34 v -> add_field m (quoted n v) = <[str n := v]> m.
Proof.
  intros Hok Hv. pose proof (name_trimmed n Hok) as Ht. destruct Hok as (Hn & _ & _ & _ & Hl). unfold add_field, quoted. change ([61; 34] ++ v ++ [34]) with (61 :: 34 :: v ++ [34]).
  rewrite split_once_app by done. rewrite (trim_trimmed (str n) Ht), Hl.
  rewrite (trim_trimmed _ (quoted_value_trimmed v)). by rewrite trim_matches_quoted.
Qed.

Lemma add_field_spaced m n v : name_ok n -> lacks 34 v -> add_field m (32 :: quoted n v) = <[str n := v]> m.
Proof.
  intros Hok Hv. pose proof (name_trimmed n Hok) as Ht. destruct Hok as (Hn & _ & _ & Hne & Hl). unfold add_field, quoted. change ([61; 34] ++ v ++ [34]) with (61 :: 34 :: v ++ [34]).
  rewrite app_comm_cons, split_once_app.
  2: { intros [Hin|Hin]%elem_of_cons; [discriminate|by apply Hn]. }
  rewrite (trim_space (str n) Ht Hne), Hl. rewrite (trim_trimmed _ (quoted_value_trimmed v)). by rewrite trim_matches_quoted.
Qed.

(** Quoted fields with commas between them. *)
Fixpoint more_fields (l : list (string * bytes)) : bytes :=
  match l with
  | [] => []
  | (n, v) :: l => str ", " ++ quoted n v ++ more_fields l
  end.

Definition field_ok (f : string * bytes) : Prop := name_ok f.1 /\ lacks 34 f.2 /\ lacks 44 f.2.

Lemma split_fields p l :
  lacks 44 p -> Forall field_ok l -> split 44 (p ++ more_fields l) = p :: ((fun f => 32 :: quoted f.1 f.2) <$> l).
Proof.
  intros Hp Hl. revert p Hp. induction Hl as [|[n v] l (Hn & _ & Hv) Hl IH]; intros p Hp; cbn [more_fields fmap list_fmap].
  { rewrite app_nil_r. by apply split_lacks. }
  change (str ", " ++ quoted n v ++ more_fields l) with (44 :: ((32 :: quoted n v) ++ more_fields l)).
  rewrite split_app by done. f_equal. apply IH. intros [Hin|Hin]%elem_of_cons; [discriminate|]. revert Hin. by apply quoted_lacks.
Qed.

Lemma fields_written n v l :
  Forall field_ok ((n, v) :: l) ->
  digest_fields (quoted n v ++ more_fields l) = foldl (fun m f => <[str f.1 := f.2]> m) ∅ ((n, v) :: l).
Proof.
  intros [(Hn & Hv & Hc) Hl]%Forall_cons. cbn [fst snd] in *. unfold digest_fields. rewrite split_fields; [|by apply quoted_lacks|done].
  cbn [foldl fst snd]. rewrite add_field_quoted by done. generalize (<[str n := v]> (∅ : gmap bytes bytes)). clear -Hl.
  induction Hl as [|[k w] l (Hk & Hw & _) Hl IH]; intros m; [done|]. cbn [fmap list_fmap foldl fst snd]. by rewrite add_field_spaced.
Qed.

Lemma more_fields_lower l :
  Forall (fun f => name_ok f.1) l -> to_ascii_lowercase (more_fields l) = more_fields ((fun f => (f.1, to_ascii_lowercase f.2)) <$> l).
Proof.
  induction 1 as [|[n v] l Hn Hl IH]; [done|]. cbn [more_fields fmap list_fmap fst snd].
  rewrite !to_ascii_lowercase_app, IH, quoted_lower by done. done.
Qed.

(** A Digest header as clients write it, and the table the server reads from it. *)
Definition digest_header (n : string) (v : bytes) (l : list (string * bytes)) : bytes := str "Digest " ++ quoted n v ++ more_fields l.

Lemma fields_trimmed p n v l : head p = Some 68 -> trimmed (p ++ quoted n v ++ more_fields l).
Proof.
  intros Hp. apply (printable_ends _ 68 34); [|  |unfold printable; lia..].
  { destruct p; [done|exact Hp]. }
  revert p n v Hp. induction l as [|[k w] l IH]; intros p n v Hp; cbn [more_fields].
  - rewrite app_nil_r. unfold quoted. rewrite !app_assoc. apply last_snoc.
  - specialize (IH (p ++ quoted n v ++ str ", ") k w). rewrite <-!app_assoc in IH. apply IH. destruct p; [done|exact Hp].
Qed.

Lemma check_digest_written `{AuthPrimitives} a realm method uri n v l :
  Forall (fun f => name_ok f.1) ((n, v) :: l) -> Forall (fun f => lacks 34 f.2 /\ lacks 44 f.2) ((n, to_ascii_lowercase v) :: ((fun f => (f.1, to_ascii_lowercase f.2)) <$> l)) ->
  check_digest a realm method uri (digest_header n v l) =
  check_fields a realm method uri (foldl (fun m f => <[str f.1 := to_ascii_lowercase f.2]> m) ∅ ((n, v) :: l)).
Proof.
  intros [Hn Hl]%Forall_cons Hv. unfold check_digest, digest_header. rewrite trim_trimmed by by apply fields_trimmed.
  rewrite !to_ascii_lowercase_app, more_fields_lower, quoted_lower by done.
  change (to_ascii_lowercase (str "Digest ")) with (str "digest "). rewrite strip_prefix_app.
  rewrite fields_written.
  - f_equal. cbn [foldl fst snd]. generalize (<[str n := to_ascii_lowercase v]> (∅ : gmap bytes bytes)). clear.
    induction l as [|f l IH]; intros m; [done|]. cbn [fmap list_fmap foldl fst snd]. apply IH.
  - apply Forall_cons in Hv as [Hv Hr]. constructor; [done|]. rewrite Forall_fmap in Hr |- *. eapply Forall_impl; [|intros f Hf; exact Hf].
    apply Forall_and. split; [|exact Hr]. exact Hl.
Qed.

Section Digest.
Context `{AuthPrimitivesOk}.

Lemma hex_digit_range d : 0 <= d < 16 -> 48 <= hex_digit d <= 57 \/ 97 <= hex_digit d <= 102.
Proof. intros Hd. unfold hex_digit. destruct (Z.ltb_spec d 10); lia. Qed.

Lemma hex_range s : bytes_ok s -> Forall (fun b => 48 <= b <= 57 \/ 97 <= b <= 102) (hex s).
Proof.
  unfold hex. induction 1 as [|b s Hb Hs IH]; [constructor|]. cbn [fmap list_fmap concat]. apply Forall_app. split; [|done].
  unfold is_u8 in Hb. unfold hex_byte. apply Forall_cons_2; [|apply Forall_singleton]; apply hex_digit_range; div_lia.
Qed.

Lemma lower_id s : Forall (fun b => 48 <= b <= 57 \/ 97 <= b <= 102) s -> to_ascii_lowercase s = s.
Proof.
  induction 1 as [|b s Hb Hs IH]; [done|]. unfold to_ascii_lowercase in *. cbn [fmap list_fmap]. rewrite IH. f_equal. unfold lower.
  destruct (Z.leb_spec 65 b), (Z.leb_spec b 90); cbn [andb]; lia.
Qed.

Lemma md5_hex_plain s : plain (md5_hex s).
Proof.
  pose proof (hex_range _ (md5_bytes s)) as Hr. split; [by apply lower_id|]. rewrite Forall_forall in Hr.
  split; intros Hin%Hr; lia.
Qed.

Lemma lower_lacks_comma s : lacks 44 s -> lacks 44 (to_ascii_lowercase s).
Proof.
  intros Hs Hin. apply list_elem_of_fmap in Hin as (b & Hb & Hin). unfold lower in Hb.
  destruct ((65 <=? b) && (b <=? 90)) eqn:E; [apply andb_true_iff in E as [?%Z.leb_le ?%Z.leb_le]; lia|]. by subst.
Qed.

Lemma lower_lacks_quote s : lacks 34 s -> lacks 34 (to_ascii_lowercase s).
Proof.
  intros Hs Hin. apply list_elem_of_fmap in Hin as (b & Hb & Hin). unfold lower in Hb.
  destruct ((65 <=? b) && (b <=? 90)) eqn:E; [apply andb_true_iff in E as [?%Z.leb_le ?%Z.leb_le]; lia|]. by subst.
Qed.

Lemma challenge_field_quoted acc n v :
  name_ok n -> lacks 34 v ->
  challenge_field acc (quoted n v) =
    (if bool_decide (str n = str "realm") then (Some v, acc.2) else if bool_decide (str n = str "nonce") then (acc.1, Some v) else acc).
Proof.
  intros Hok Hv. unfold challenge_field. rewrite (trim_trimmed _ (quoted_trimmed n v Hok)).
  pose proof (name_trimmed n Hok) as Ht. destruct Hok as (Hn & _ & _ & _ & Hl). unfold quoted.
  change ([61; 34] ++ v ++ [34]) with (61 :: 34 :: v ++ [34]). rewrite split_once_app by done.
  rewrite (trim_trimmed _ Ht), Hl, (trim_trimmed _ (quoted_value_trimmed v)), trim_matches_quoted by done. done.
Qed.

Lemma challenge_field_spaced acc n v :
  name_ok n -> lacks 34 v -> challenge_field acc (32 :: quoted n v) = challenge_field acc (quoted n v).
Proof.
  intros Hok Hv. unfold challenge_field. rewrite (trim_trimmed _ (quoted_trimmed n v Hok)).
  rewrite (trim_space _ (quoted_trimmed n v Hok)); [done|]. unfold quoted. destruct Hok as (_ & _ & _ & Hne & _). by destruct (str n).
Qed.

Lemma digest_response realm nonce user password method uri :
  lacks 34 realm -> lacks 44 realm -> lacks 34 nonce -> lacks 44 nonce ->
  digest_authorization (digest_header "realm" realm [("nonce"%string, nonce)]) user password method uri =
  Ok (digest_header "username" user
        [("realm"%string, realm); ("nonce"%string, nonce); ("uri"%string, uri);
         ("response"%string, md5_hex (colons [md5_hex (colons [user; realm; password]); nonce; md5_hex (colons [method; uri])]))]).
Proof.
  intros Hr Hr' Hn Hn'. unfold digest_authorization.
  assert (H1 : name_ok "realm") by name_ok. assert (H2 : name_ok "nonce") by name_ok.
  rewrite (trim_trimmed (digest_header _ _ _)) by by apply fields_trimmed. unfold digest_header at 2. rewrite strip_prefix_app.
  cbn [default from_option id].
  rewrite split_fields; [|by apply quoted_lacks|by apply Forall_singleton].
  cbn [fmap list_fmap foldl fst snd]. rewrite (challenge_field_spaced _ "nonce"), !challenge_field_quoted by done.
  cbn -[colons str digest_header]. unfold digest_header. cbn [more_fields]. by rewrite app_nil_r.
Qed.

Ltac read_fields :=
  cbn [foldl fst snd];
  repeat (rewrite lookup_insert_eq || (rewrite lookup_insert_ne by (vm_compute; discriminate))); rewrite ?lookup_empty.

(** Digest.  The answer the client computes from a Digest challenge is
    accepted exactly when its response equals the server's, so always when the
    password is the one the server holds for the user; realm, nonce and user
    name must be lower case, and no field may contain quotes or commas. *)
Theorem digest_login (a : StreamAuth) realm nonce user password method uri :
  plain realm -> plain nonce -> plain user -> lacks 34 uri -> lacks 44 uri ->
  exists header, digest_authorization (digest_header "realm" realm [("nonce"%string, nonce)]) user password method uri = Ok header /\
    (check_digest a realm method uri header = true <->
       md5_hex (colons [md5_hex (colons [user; realm; password]); nonce; md5_hex (colons [method; uri])]) =
       md5_hex (colons [md5_hex (colons [user; realm; digest_password a user]); nonce; md5_hex (colons [method; uri])])) /\
    (password = digest_password a user -> check_digest a realm method uri header = true).
Proof.
  intros (Hrl & Hr & Hr') (Hnl & Hn & Hn') (Hul & Hu & Hu') Hq Huri. eexists. split; [by apply digest_response|].
  match goal with |- (?c = true <-> ?e) /\ _ => cut (c = true <-> e) end.
  { intros Hiff. split; [exact Hiff|]. intros ->. by apply Hiff. }
  set (response := md5_hex (colons [md5_hex (colons [user; realm; password]); nonce; md5_hex (colons [method; uri])])).
  destruct (md5_hex_plain (colons [md5_hex (colons [user; realm; password]); nonce; md5_hex (colons [method; uri])])) as (Hpl & Hp & Hp').
  fold response in Hpl, Hp, Hp'. rewrite check_digest_written.
  - unfold check_fields. read_fields. rewrite Hrl, Hnl, Hul, Hpl. rewrite bool_decide_true by done. cbn [negb default from_option id].
    rewrite bool_decide_false by discriminate. rewrite bool_decide_eq_true. done.
  - repeat (apply Forall_cons_2; [name_ok|]). constructor.
  - cbn [fmap list_fmap fst snd]. rewrite Hrl, Hnl, Hul, Hpl.
    repeat (apply Forall_cons_2; [split; first [done|by apply lower_lacks_comma|by apply lower_lacks_quote]|]). constructor.
Qed.

Lemma digest_fields_incl rest k v b : digest_fields rest !! k = Some v -> b ∈ v -> b ∈ rest.
Proof.
  unfold digest_fields. intros Hk Hb.
  assert (Hg : forall ps m, (forall k v, m !! k = Some v -> b ∈ v -> b ∈ rest) -> (forall p, p ∈ ps -> b ∈ p -> b ∈ rest) ->
    forall k v, foldl add_field m ps !! k = Some v -> b ∈ v -> b ∈ rest).
  { clear Hk Hb. induction ps as [|p ps IH]; intros m Hm Hps; [exact Hm|]. cbn [foldl]. apply IH; [|intros q Hq; apply Hps; by apply list_elem_of_further].
    intros k' v'. unfold add_field. destruct (split_once 61 p) as [[l r]|] eqn:E; [|apply Hm].
    intros [[_ <-]|[_ Hl]]%lookup_insert_Some Hb; [|by apply (Hm k' v')].
    apply trim_matches_incl, trim_incl in Hb. apply (Hps p); [apply list_elem_of_here|]. apply (split_once_incl 61 p l r); auto. }
  apply (Hg (split 44 rest) ∅) in Hk; [done| | |done]; [by intros ? ? [] %lookup_empty_Some|].
  intros p Hp Hbp. by apply (split_incl 44 rest p).
Qed.

Lemma lower_no_upper s b : b ∈ to_ascii_lowercase s -> ~ 65 <= b <= 90.
Proof.
  intros (c & -> & _)%list_elem_of_fmap. unfold lower. destruct ((65 <=? c) && (c <=? 90)) eqn:E; [apply andb_true_iff in E as [?%Z.leb_le ?%Z.leb_le]; lia|].
  apply andb_false_iff in E as [?%Z.leb_gt|?%Z.leb_gt]; lia.
Qed.

(** The header a client sends that asks for [qop=auth]. *)
Definition qop_header (user realm nonce uri nc cnonce response : bytes) : bytes :=
  digest_header "username" user
    [("realm"%string, realm); ("nonce"%string, nonce); ("uri"%string, uri); ("qop"%string, str "auth");
     ("nc"%string, nc); ("cnonce"%string, cnonce); ("response"%string, response)].

(** Limits of Digest.  A realm with an upper-case letter accepts no header
    at all, because the whole header is lower-cased first.  A header with
    [qop=auth] that is right for one URI is accepted for every other URI,
    since the server hashes the URI the header names. *)
Theorem digest_defects (a : StreamAuth) realm method :
  (forall uri header, Exists (fun b => 65 <= b <= 90) realm -> check_digest a realm method uri header = false) /\
  (forall user nonce uri nc cnonce, Forall plain [realm; user; nonce; uri; nc; cnonce] ->
    exists response, forall other,
      check_digest a realm method other (qop_header user realm nonce uri nc cnonce response) = true).
Proof.
  split.
  - intros uri header (b & Hin & Hb)%Exists_exists. unfold check_digest.
    destruct (strip_prefix _ _) as [rest|] eqn:Er; [|done]. unfold check_fields. destruct (digest_fields rest !! str "realm") as [r|] eqn:Ef; [|done].
    rewrite bool_decide_false; [done|]. intros ->. pose proof (digest_fields_incl _ _ _ b Ef Hin) as Hrest.
    apply (strip_prefix_incl _ _ _ _ Er), lower_no_upper in Hrest. tauto.
  - intros user nonce uri nc cnonce Hp.
    set (text := colons [md5_hex (colons [user; realm; digest_password a user]); nonce; nc; cnonce; str "auth"; md5_hex (colons [method; uri])]).
    exists (md5_hex text). intros other.
    destruct (md5_hex_plain text) as (Hxl & Hx & Hx'). rewrite !Forall_cons in Hp.
    destruct Hp as ((Hrl & Hr & Hr') & (Hul & Hu & Hu') & (Hnl & Hn & Hn') & (Hil & Hi & Hi') & (Hcl & Hc & Hc') & (Hol & Ho & Ho') & _).
    unfold qop_header. rewrite check_digest_written.
    + unfold check_fields. read_fields. rewrite Hrl, Hnl, Hul, Hxl, Hil, Hcl, Hol. change (to_ascii_lowercase (str "auth")) with (str "auth").
      rewrite !bool_decide_true by done. done.
    + repeat (apply Forall_cons_2; [name_ok|]). constructor.
    + cbn [fmap list_fmap fst snd]. change (to_ascii_lowercase (str "auth")) with (str "auth"). rewrite Hrl, Hnl, Hul, Hxl, Hil, Hcl, Hol.
      repeat (apply Forall_cons_2; [split; first [done|not_in]|]). constructor.
Qed.

End Digest.

(** ** Witnesses: primitives that satisfy the laws *)

(** Each byte as two letters. *)
Definition letters (s : bytes) : bytes := concat ((fun b => [65 + b / 16; 65 + b mod 16]) <$> s).
Fixpoint unletters (s : bytes) : option bytes :=
  match s with
  | [] => Some []
  | x :: y :: s => cons ((x - 65) * 16 + (y - 65)) <$> unletters s
  | [_] => None
  end.

#[local] Instance sample_primitives : AuthPrimitives := {|
  md5 s := [foldl Z.add 0 s mod 256; zlen s mod 256];
  sha256 s := [foldl Z.add 0 s mod 256];
  base64_encode s := letters ((fun b => b mod 256) <$> s);
  base64_decode := unletters
|}.

#[local] Instance sample_primitives_ok : AuthPrimitivesOk.
Proof.
  split.
  - intros s. repeat constructor; unfold is_u8; div_lia.
  - intros s. repeat constructor; unfold is_u8; div_lia.
  - cbn. induction 1 as [|b s Hb Hs IH]; [done|]. cbn [fmap list_fmap]. unfold letters in *. cbn [fmap list_fmap concat app unletters].
    rewrite IH. cbn. unfold is_u8 in Hb. do 2 f_equal. div_lia.
  - intros s. cbn. induction s as [|b s IH]; [constructor|]. unfold letters in *. cbn [fmap list_fmap concat app].
    apply Forall_cons_2; [div_lia|]. apply Forall_cons_2; [div_lia|done].
  - intros [|b s]; cbn; done.
Qed.

Definition sample_auth : StreamAuth := auth_new_with_realm true (str "s3cret") (Some (str "zlmediakit")) {[ str "alice" := str "pw" ]}.

Lemma basic_login_witness :
  exists header, authorization_header (www_authenticate (str "zlmediakit") (str "00ff")) (str "alice") (str "pw") (str "DESCRIBE") (str "rtsp://h/live/s") = Ok header /\
    check_basic sample_auth header = true.
Proof.
  destruct (basic_login sample_auth (str "zlmediakit") (str "00ff") (str "alice") (str "pw") (str "DESCRIBE") (str "rtsp://h/live/s")) as (h & H1 & H2).
  - not_in.
  - repeat constructor; vm_compute; intuition discriminate.
  - repeat constructor; vm_compute; intuition discriminate.
  - reflexivity.
  - exists h. split; [exact H1|]. apply H2. reflexivity.
Defined.

Lemma digest_login_witness :
  exists header, digest_authorization (digest_header "realm" (str "zlmediakit") [("nonce"%string, str "00ff")]) (str "bob") (str "s3cret") (str "DESCRIBE") (str "rtsp://h/live/s") = Ok header /\
    check_digest sample_auth (str "zlmediakit") (str "DESCRIBE") (str "rtsp://h/live/s") header = true.
Proof.
  destruct (digest_login sample_auth (str "zlmediakit") (str "00ff") (str "bob") (str "s3cret") (str "DESCRIBE") (str "rtsp://h/live/s")) as (h & H1 & _ & H3).
  - split; [reflexivity|split; not_in].
  - split; [reflexivity|split; not_in].
  - split; [reflexivity|split; not_in].
  - not_in.
  - not_in.
  - exists h. split; [exact H1|]. apply H3. reflexivity.
Defined.
