(* ===== verification/F64.v ===== *)
(** * F64: double-precision numbers as bit patterns

    An [f64] is its 64-bit pattern.  Comparison with zero, the saturating
    casts to integers and, through the Standard Library's model of IEEE 754
    arithmetic, division and the conversion of integers. *)

From Stdlib Require Import SpecFloat.
From S2P Require Import Prelude Frame.
#[local] Open Scope Z_scope.

(** ** Fields, comparison, casts *)

Definition f64_mantissa (x : f64) : Z := x .& (2 ^ 52 - 1).
Definition f64_exponent (x : f64) : Z := (x .>> 52) .& 0x7FF.
Definition f64_nan (x : f64) : bool := (f64_exponent x =? 0x7FF) && negb (f64_mantissa x =? 0).
Definition f64_zero (x : f64) : bool := (f64_exponent x =? 0) && (f64_mantissa x =? 0).

(** [x > 0.0] and [x >= 0.0]. *)
Definition f64_positive (x : f64) : bool := negb (f64_nan x) && negb (f64_zero x) && (x <? 2 ^ 63).
Definition f64_nonnegative (x : f64) : bool := f64_zero x || f64_positive x.

(** [x as u64] and [x as u32]. *)
Definition f64_to_u64 (x : f64) : Z :=
  if negb (f64_positive x) then 0
  else if f64_exponent x =? 0x7FF then 2 ^ 64 - 1
  else
    let m := if f64_exponent x =? 0 then f64_mantissa x else f64_mantissa x + 2 ^ 52 in
    let e := Z.max 1 (f64_exponent x) - 1075 in
    Z.min (2 ^ 64 - 1) (m .<< e).
Definition f64_to_u32 (x : f64) : Z := Z.min (2 ^ 32 - 1) (f64_to_u64 x).

(** ** Arithmetic *)

Definition f64_decode (x : f64) : spec_float :=
  let s := 2 ^ 63 <=? x in
  let e := f64_exponent x in
  let m := f64_mantissa x in
  if e =? 0x7FF then (if m =? 0 then S754_infinity s else S754_nan)
  else match (if e =? 0 then m else m + 2 ^ 52) with
       | Zpos p => S754_finite s p (Z.max 1 e - 1075)
       | _ => S754_zero s
       end.

Definition f64_encode (x : spec_float) : f64 :=
  match x with
  | S754_zero s => if s then 2 ^ 63 else 0
  | S754_infinity s => (if s then 2 ^ 63 else 0) + (0x7FF .<< 52)
  | S754_nan => 0x7FF8 .<< 48
  | S754_finite s p e =>
      (if s then 2 ^ 63 else 0) + (if Zpos p <? 2 ^ 52 then Zpos p else ((e + 1075) .<< 52) + (Zpos p - 2 ^ 52))
  end.

Definition f64_div (x y : f64) : f64 := f64_encode (SFdiv 53 1024 (f64_decode x) (f64_decode y)).

(** [n as f64] for an unsigned integer. *)
Definition f64_of_uint (n : Z) : f64 := f64_encode (binary_normalize 53 1024 n 0 false).
