(* ===== verification/Ws.v ===== *)
(** * Ws: WebSocket framing

    [http/src/ws.rs]: the handshake answer, the frames the server writes and the
    decoder of the frames a peer sends.  SHA-1 and Base64 are code of other
    crates: they are arguments of the handshake.  The decoder is an incremental
    parser in the sense of [Stream]. *)

From S2P Require Import Prelude Frame Stream Text.
#[local] Open Scope Z_scope.

Definition MAGIC_GUID : bytes := str "258EAFA5-E914-47DA-95CA-C5AB0DC85B11".

Section Upgrade.
Variables (sha1 : bytes -> bytes) (base64_encode : bytes -> bytes).

Definition compute_accept_key (key : bytes) : bytes := base64_encode (sha1 (key ++ MAGIC_GUID)).

Definition upgrade_response (key : bytes) : bytes :=
  str "HTTP/1.1 101 Switching Protocols" ++ CRLF ++
  str "Upgrade: websocket" ++ CRLF ++
  str "Connection: Upgrade" ++ CRLF ++
  str "Sec-WebSocket-Accept: " ++ compute_accept_key key ++ CRLF ++ CRLF.

End Upgrade.

Record WsFrame : Type := { fin : bool; opcode : Z; payload : bytes }.

Definition ws_binary (data : bytes) : WsFrame := {| fin := true; opcode := 2; payload := data |}.
Definition ws_pong : WsFrame := {| fin := true; opcode := 10; payload := [] |}.
Definition ws_close (code : Z) (reason : string) : WsFrame :=
  {| fin := true; opcode := 8; payload := to_be 2 code ++ str reason |}.

Definition encode_server (f : WsFrame) : bytes :=
  let len := zlen (payload f) in
  [(Z.b2z (fin f) .<< 7) .| opcode f] ++
  (if len <? 126 then [u8 len]
   else if len <=? 0xFFFF then [126] ++ to_be 2 len
   else [127] ++ to_be 8 len) ++
  payload f.

(** [*byte ^= mask_key[i % 4]] for every byte. *)
Definition apply_mask (key l : bytes) : bytes := imap (fun i b => b .^ nth (i mod 4) key 0) l.

(** The length of the payload and where the mask or the payload begins. *)
Definition decode_length (buf : bytes) (b1 : Z) : result (option (Z * nat)) :=
  let len := b1 .& 0x7F in
  if len =? 126 then
    if (length buf <? 4)%nat then Ok None else
    l ← slice buf 2 4; Ok (Some (from_be l, 4%nat))
  else if len =? 127 then
    if (length buf <? 10)%nat then Ok None else
    l ← slice buf 2 10; Ok (Some (from_be l, 10%nat))
  else Ok (Some (len, 2%nat)).

(** The frame at the head of the buffer and its size.  [offset + len] is a
    64-bit sum: where it overflows the task panics, on the sum or on the range
    it is used for. *)
Definition decode (buf : bytes) : result (option (WsFrame * nat)) :=
  if (length buf <? 2)%nat then Ok None else
  b0 ← idx buf 0;
  b1 ← idx buf 1;
  let masked := negb (b1 .& 0x80 =? 0) in
  head ← decode_length buf b1;
  match head with
  | None => Ok None
  | Some (len, offset) =>
      if masked && (length buf <? offset + 4)%nat then Ok None else
      mask_key ← (if masked then slice buf offset (offset + 4) else Ok [0; 0; 0; 0]);
      let offset := if masked then (offset + 4)%nat else offset in
      if 2 ^ 64 <=? Z.of_nat offset + len then Panic else
      if zlen buf <? Z.of_nat offset + len then Ok None else
      data ← slice buf offset (offset + Z.to_nat len);
      let data := if masked then apply_mask mask_key data else data in
      Ok (Some ({| fin := negb (b0 .& 0x80 =? 0); opcode := b0 .& 0x0F; payload := data |},
                (offset + Z.to_nat len)%nat))
  end.

(** [read_frame] on the bytes received so far. *)
Definition next_frame (buf : bytes) : result (bytes * option WsFrame) :=
  r ← decode buf;
  Ok (match r with
      | Some (f, consumed) => (drop consumed buf, Some f)
      | None => (buf, None)
      end).

(** ** Frames on the wire *)

(** What RFC 6455 says a frame looks like, with a masking key (from a client)
    or without one (from a server): the seven-bit length with its extension. *)
Definition length_field (len : Z) : Z * bytes :=
  if len <? 126 then (len, []) else if len <=? 65535 then (126, to_be 2 len) else (127, to_be 8 len).

Definition mask_bit (mask : option bytes) : Z := match mask with Some _ => 128 | None => 0 end.

Definition wire (mask : option bytes) (f : WsFrame) : bytes :=
  let '(l7, ext) := length_field (zlen (payload f)) in
  ((if fin f then 128 else 0) + opcode f) :: (mask_bit mask + l7) :: ext ++ default [] mask ++
  match mask with Some key => apply_mask key (payload f) | None => payload f end.

(** A frame the format can carry: the opcode has four bits and the length
    leaves room for the header in 64 bits. *)
Definition ws_frame_ok (f : WsFrame) : Prop :=
  0 <= opcode f < 16 /\ zlen (payload f) < 2 ^ 64 - 14.

Definition mask_ok (mask : option bytes) : Prop :=
  match mask with Some key => length key = 4%nat | None => True end.

Lemma length_apply_mask key l : length (apply_mask key l) = length l.
Proof. apply length_imap. Qed.

Lemma apply_mask_involutive key l : apply_mask key (apply_mask key l) = l.
Proof.
  apply list_eq. intros i. unfold apply_mask. rewrite !list_lookup_imap. destruct (l !! i) as [b|]; [|done].
  cbn. f_equal. by rewrite Z.lxor_assoc, Z.lxor_nilpotent, Z.lxor_0_r.
Qed.

Lemma encode_server_wire f : 0 <= opcode f < 16 -> encode_server f = wire None f.
Proof.
  intros Ho. unfold encode_server, wire, length_field. cbv zeta. cbn [mask_bit default from_option List.app].
  replace ((Z.b2z (fin f) .<< 7) .| opcode f) with ((if fin f then 128 else 0) + opcode f).
  - destruct (Z.ltb_spec (zlen (payload f)) 126).
    + unfold u8, zlen in *. by rewrite Z.mod_small by lia.
    + by destruct (_ <=? _).
  - destruct (fin f); cbn [Z.b2z]; [|by rewrite Z.shiftl_0_l, Z.lor_0_l].
    change (1 .<< 7) with 128. symmetry. apply (lor_add 128 (opcode f) 7); [done|done|lia].
Qed.

(** Is a payload masked? *)
Definition masked_bit (b1 : Z) : bool := negb (b1 .& 0x80 =? 0).

(** The decoder after the fixed bytes, the extended length and the key. *)
Lemma decode_with_key b0 b1 ext key body len :
  decode_length (b0 :: b1 :: ext ++ key ++ body) b1 = Ok (Some (len, (2 + length ext)%nat)) ->
  length key = (if masked_bit b1 then 4 else 0)%nat -> 0 <= len ->
  decode (b0 :: b1 :: ext ++ key ++ body) =
  let offset := (2 + length ext + length key)%nat in
  if 2 ^ 64 <=? Z.of_nat offset + len then Panic else
  if zlen body <? len then Ok None else
  let data := take (Z.to_nat len) body in
  Ok (Some ({| fin := negb (b0 .& 0x80 =? 0); opcode := b0 .& 0x0F;
               payload := if masked_bit b1 then apply_mask key data else data |}, (offset + Z.to_nat len)%nat)).
Proof.
  intros Hd Hk Hl. unfold decode. rewrite idx_0, idx_S, idx_0. cbn [mbind outcome_bind]. rewrite Hd. cbn [mbind outcome_bind].
  assert (length (b0 :: b1 :: ext ++ key ++ body) = (2 + length ext + length key + length body)%nat) as Hlen by len_lia.
  fold (masked_bit b1). unfold zlen. rewrite Hlen.
  rewrite (proj2 (Nat.ltb_ge _ 2)) by lia.
  replace (masked_bit b1 && (_ <? _)%nat) with false
    by (symmetry; destruct (masked_bit b1); [apply Nat.ltb_ge; lia|done]).
  replace (if masked_bit b1 then slice _ _ _ else _)
    with (Ok (if masked_bit b1 then key else [0; 0; 0; 0]) : result bytes)
    by (destruct (masked_bit b1); [symmetry; apply (slice_mid (b0 :: b1 :: ext)); cbn [length]; lia|done]).
  cbn [mbind outcome_bind]. cbv zeta.
  replace (if masked_bit b1 then (2 + length ext + 4)%nat else (2 + length ext)%nat) with (2 + length ext + length key)%nat
    by (destruct (masked_bit b1); lia).
  destruct (_ <=? _); [done|].
  replace (Z.of_nat (2 + length ext + length key + length body) <? Z.of_nat (2 + length ext + length key) + len)
    with (Z.of_nat (length body) <? len)
    by (destruct (Z.ltb_spec (Z.of_nat (length body)) len); symmetry; [apply Z.ltb_lt|apply Z.ltb_ge]; lia).
  destruct (Z.ltb_spec (Z.of_nat (length body)) len); [done|].
  rewrite slice_ok by (rewrite ?Hlen; lia). cbn [mbind outcome_bind].
  replace (drop _ _) with body; [|].
  - replace (_ + _ - _)%nat with (Z.to_nat len) by lia. by destruct (masked_bit b1).
  - change (b0 :: b1 :: ext ++ key ++ body) with ((b0 :: b1 :: ext) ++ key ++ body). rewrite app_assoc.
    rewrite drop_app_length'; [done|len_lia].
Qed.

(** Fewer than four bytes of a key. *)
Lemma decode_no_key b0 b1 ext t len :
  decode_length (b0 :: b1 :: ext ++ t) b1 = Ok (Some (len, (2 + length ext)%nat)) ->
  masked_bit b1 = true -> (length t < 4)%nat -> decode (b0 :: b1 :: ext ++ t) = Ok None.
Proof.
  intros Hd Hm Ht. unfold decode. rewrite idx_0, idx_S, idx_0. cbn [mbind outcome_bind]. rewrite Hd. cbn [mbind outcome_bind].
  fold (masked_bit b1). rewrite Hm. cbn [length andb]. rewrite length_app.
  rewrite (proj2 (Nat.ltb_ge _ 2)), (proj2 (Nat.ltb_lt _ (_ + 4))) by lia. done.
Qed.

(** The two values of the mask bit. *)
Lemma second_byte mask l7 :
  0 <= l7 < 128 -> (mask_bit mask + l7) .& 0x7F = l7 /\ masked_bit (mask_bit mask + l7) = bool_decide (is_Some mask).
Proof.
  intros Hl. assert (forallb (fun l => (l .& 0x7F =? l) && ((128 + l) .& 0x7F =? l) &&
    negb (masked_bit l) && masked_bit (128 + l)) (upto 128) = true) as Hall by by vm_compute.
  rewrite forallb_forall in Hall. specialize (Hall l7). rewrite <-list_elem_of_In in Hall.
  specialize (Hall (elem_of_upto 128 l7 Hl)). rewrite !andb_true_iff, !Z.eqb_eq, negb_true_iff in Hall.
  destruct Hall as (((H1 & H2) & H3) & H4). destruct mask; cbn [mask_bit].
  - by rewrite bool_decide_eq_true_2.
  - rewrite bool_decide_eq_false_2 by by intros [].  by rewrite Z.add_0_l.
Qed.

Lemma length_field_range len : 0 <= len -> let '(l7, ext) := length_field len in
  0 <= l7 < 128 /\ (length ext = if (l7 =? 126)%Z then 2 else if (l7 =? 127)%Z then 8 else 0)%nat.
Proof.
  intros Hl. unfold length_field. destruct (Z.ltb_spec len 126).
  - rewrite (proj2 (Z.eqb_neq len 126)), (proj2 (Z.eqb_neq len 127)) by lia. split; [lia|done].
  - destruct (_ <=? _); rewrite length_to_be; (split; [lia|done]).
Qed.

Lemma decode_length_field b0 mask len t :
  0 <= len < 2 ^ 64 ->
  let '(l7, ext) := length_field len in
  decode_length (b0 :: mask_bit mask + l7 :: ext ++ t) (mask_bit mask + l7) = Ok (Some (len, (2 + length ext)%nat)).
Proof.
  intros Hl. pose proof (length_field_range len ltac:(lia)) as Hr. destruct (length_field len) as [l7 ext] eqn:Hlf.
  destruct Hr as [H7 He]. unfold decode_length. rewrite (proj1 (second_byte mask l7 H7)). cbv zeta.
  unfold length_field in Hlf. destruct (Z.ltb_spec len 126); [|destruct (Z.leb_spec len 65535)]; injection Hlf as <- <-.
  - by rewrite (proj2 (Z.eqb_neq len 126)), (proj2 (Z.eqb_neq len 127)) by lia.
  - cbn [Z.eqb Pos.eqb]. rewrite (proj2 (Nat.ltb_ge _ 4)) by (pose proof (length_to_be 2 len); len_lia).
    rewrite (slice_mid [b0; mask_bit mask + 126] (to_be 2 len) t) by (rewrite ?length_to_be; done).
    cbn [mbind outcome_bind]. rewrite from_be_to_be_small by lia. done.
  - cbn [Z.eqb Pos.eqb]. rewrite (proj2 (Nat.ltb_ge _ 10)) by (pose proof (length_to_be 8 len); len_lia).
    rewrite (slice_mid [b0; mask_bit mask + 127] (to_be 8 len) t) by (rewrite ?length_to_be; done).
    cbn [mbind outcome_bind]. rewrite from_be_to_be_small by lia. done.
Qed.

(** A length field that is cut short. *)
Lemma decode_short_field b0 b1 q :
  (length q < (if (b1 .& 0x7F =? 126)%Z then 2 else if (b1 .& 0x7F =? 127)%Z then 8 else 0))%nat ->
  decode (b0 :: b1 :: q) = Ok None.
Proof.
  intros Hq. unfold decode, decode_length. rewrite idx_0, idx_S, idx_0. cbn [mbind outcome_bind length].
  rewrite (proj2 (Nat.ltb_ge _ 2)) by lia. cbv zeta.
  destruct (b1 .& 0x7F =? 126); [rewrite (proj2 (Nat.ltb_lt _ 4)) by lia; done|].
  destruct (b1 .& 0x7F =? 127); [rewrite (proj2 (Nat.ltb_lt _ 10)) by lia; done|lia].
Qed.

Lemma first_byte (b : bool) o :
  0 <= o < 16 -> negb (((if b then 128 else 0) + o) .& 0x80 =? 0) = b /\ ((if b then 128 else 0) + o) .& 0x0F = o.
Proof.
  intros Ho. assert (forallb (fun o => (o .& 0x80 =? 0) && (o .& 0x0F =? o) &&
    negb ((128 + o) .& 0x80 =? 0) && ((128 + o) .& 0x0F =? o)) (upto 16) = true) as Hall by by vm_compute.
  rewrite forallb_forall in Hall. specialize (Hall o). rewrite <-list_elem_of_In in Hall.
  specialize (Hall (elem_of_upto 16 o Ho)). rewrite !andb_true_iff, !Z.eqb_eq in Hall.
  destruct Hall as (((H1 & H2) & H3) & H4). destruct b; [done|]. by rewrite Z.add_0_l, H1.
Qed.

(** A frame on the wire is decoded when it is complete, whatever follows, and
    not before. *)
Lemma wire_message mask f : ws_frame_ok f -> mask_ok mask -> message_ok next_frame (wire mask f) f.
Proof.
  intros [Ho Hl] Hm. unfold wire. set (len := zlen (payload f)) in *. assert (0 <= len) by (unfold len, zlen; lia).
  pose proof (length_field_range len ltac:(done)) as Hr. pose proof (decode_length_field (((if fin f then 128 else 0) + opcode f)) mask len) as Hdl.
  destruct (length_field len) as [l7 ext]. destruct Hr as [H7 He]. destruct (second_byte mask l7 H7) as [Hb1 Hb2].
  set (b0 := _ + opcode f) in *. set (b1 := _ + l7) in *. set (key := default [] mask). set (body := match mask with Some key => _ | None => _ end).
  assert (length key = if masked_bit b1 then 4 else 0)%nat as Hkey.
  { rewrite Hb2. unfold key. destruct mask; [by rewrite bool_decide_eq_true_2|]. by rewrite bool_decide_eq_false_2 by by intros []. }
  assert (zlen body = len) as Hbody.
  { unfold body, len, zlen. destruct mask; [by rewrite length_apply_mask|done]. }
  assert (length ext <= 8)%nat by (rewrite He; repeat case_match; lia).
  assert (length key <= 4)%nat by (rewrite Hkey; case_match; lia).
  split.
  - intros rest. unfold next_frame. cbn [List.app]. rewrite <-!app_assoc. rewrite (decode_with_key _ _ _ _ _ len) by (done || apply Hdl; lia).
    cbv zeta. rewrite (proj2 (Z.leb_gt _ _)) by lia. rewrite zlen_app, Hbody, (proj2 (Z.ltb_ge _ _)) by (unfold zlen; lia).
    replace (Z.to_nat len) with (length body) by (rewrite <-Hbody; unfold zlen; lia).
    rewrite take_app_length. cbn [mbind outcome_bind]. do 2 f_equal.
    + change (b0 :: b1 :: ext ++ key ++ body ++ rest) with ([b0; b1] ++ ext ++ key ++ body ++ rest).
      rewrite !app_assoc. rewrite drop_app_length'; [done|len_lia].
    + f_equal. destruct (first_byte (fin f) (opcode f) Ho) as [Hf1 Hf2]. fold b0 in Hf1, Hf2. rewrite Hf1, Hf2, Hb2.
      unfold body, key. destruct f as [ff fo fp]. cbn [fin opcode payload]. f_equal. destruct mask; [|done].
      rewrite bool_decide_eq_true_2 by done. apply apply_mask_involutive.
  - intros q r Hq Hr. exists q. unfold next_frame. replace (decode q) with (Ok None : result (option (WsFrame * nat))); [done|symmetry].
    destruct q as [|c0 q]; [done|]. destruct q as [|c1 q]; [done|]. injection Hq as <- <- Hq.
    destruct (decide (length q < length ext)%nat) as [Hlt|Hge].
    { apply decode_short_field. rewrite Hb1, <-He. done. }
    assert (exists t, q = ext ++ t) as [t ->].
    { exists (drop (length ext) q). rewrite <-(take_drop (length ext) q) at 1. f_equal.
      apply (f_equal (take (length ext))) in Hq. rewrite take_app_length, take_app_le in Hq by lia. done. }
    rewrite <-app_assoc in Hq. apply app_inv_head in Hq.
    assert (length (t ++ r) = length key + length body)%nat as Hlen by (rewrite <-Hq; len_lia). rewrite length_app in Hlen.
    assert (0 < length r)%nat by (destruct r; [done|cbn; lia]).
    destruct (decide (length t < length key)%nat) as [Hlt|Hge'].
    { rewrite Hkey in Hlt. destruct (masked_bit b1) eqn:Hmb; [|lia]. eapply decode_no_key; [apply Hdl; lia|done|done]. }
    assert (exists u, t = key ++ u) as [u ->].
    { exists (drop (length key) t). rewrite <-(take_drop (length key) t) at 1. f_equal.
      apply (f_equal (take (length key))) in Hq. rewrite take_app_length, take_app_le in Hq by lia. done. }
    rewrite (decode_with_key _ _ _ _ _ len) by (done || apply Hdl; lia). cbv zeta.
    rewrite (proj2 (Z.leb_gt _ _)) by lia. rewrite (proj2 (Z.ltb_lt _ _)); [done|].
    rewrite <-Hbody. unfold zlen. rewrite length_app in Hlen. lia.
Qed.

#[global] Instance ws_incremental : Incremental next_frame.
Proof.
  assert (forall b f n, decode b = Ok (Some (f, n)) -> (0 < n)%nat /\ (0 < length b)%nat) as Hn.
  { intros b f n. unfold decode. destruct (Nat.ltb_spec (length b) 2); [done|]. intros Hd.
    destruct (idx b 0) as [b0| | |]; try done. destruct (idx b 1) as [b1| | |]; try done. cbn [mbind outcome_bind] in Hd.
    destruct (decode_length b b1) as [[[len offset]|]| | |] eqn:Hdl; try done. cbn [mbind outcome_bind] in Hd.
    assert (2 <= offset)%nat.
    { unfold decode_length in Hdl. repeat case_match; try done; try (by simplify_eq/=; lia);
      destruct (slice b _ _); simplify_eq/=; lia. }
    destruct (_ && _); [done|]. destruct (if negb _ then slice _ _ _ else _) as [key| | |]; try done. cbn [mbind outcome_bind] in Hd.
    cbv zeta in Hd. destruct (_ <=? _); [done|]. destruct (_ <? _); [done|].
    destruct (slice b _ _); try done. cbn [mbind outcome_bind] in Hd. injection Hd as _ <-. case_match; lia. }
  split.
  - intros b b' Hp r. unfold next_frame in Hp. destruct (decode b) as [[[f n]|]| | |]; simplify_eq/=. done.
  - intros b b' f Hp. unfold next_frame in Hp. destruct (decode b) as [[[g n]|]| | |] eqn:Hd; simplify_eq/=.
    destruct (Hn _ _ _ Hd). rewrite length_drop. lia.
Qed.

(** A connection carries its frames however the bytes are cut: frames of
    either side (masked with any key or not, any of the three length forms)
    are decoded in order, nothing is left over; the frames the server writes
    are such frames. *)
Theorem ws_frames_round_trip (frames : list (option bytes * WsFrame)) (reads : list bytes) :
  Forall (fun mf => mask_ok mf.1 /\ ws_frame_ok mf.2) frames ->
  concat reads = concat ((fun mf => wire mf.1 mf.2) <$> frames) ->
  (exists rest, feed_all next_frame [] reads = Ok (rest, frames.*2) /\ buf_equiv next_frame rest []) /\
  Forall (fun mf => encode_server mf.2 = wire None mf.2) frames.
Proof.
  intros Hok Hcat. split.
  - destruct (feed_all_complete next_frame ((fun mf => (wire mf.1 mf.2, mf.2)) <$> frames) reads) as (b & Hb & He).
    + done.
    + rewrite Forall_fmap. eapply Forall_impl; [exact Hok|]. intros [mask f] [Hm Hf]. by apply wire_message.
    + rewrite Hcat. unfold messages. by rewrite <-list_fmap_compose.
    + exists b. split; [|done]. rewrite Hb. do 2 f_equal. rewrite <-list_fmap_compose. by apply list_fmap_ext.
  - eapply Forall_impl; [exact Hok|]. intros [mask f] [_ [Ho _]]. by apply encode_server_wire.
Qed.

(** A length for which the sum with the header's size exceeds 64 bits. *)
Definition oversized (buf : bytes) : Prop :=
  exists b0 b1 ext t, buf = b0 :: b1 :: ext ++ t /\ length ext = 8%nat /\ b1 .& 0x7F = 127 /\
    (masked_bit b1 = true -> (4 <= length t)%nat) /\
    2 ^ 64 <= from_be ext + (if masked_bit b1 then 14 else 10).

Lemma decode_length_cases b0 b1 t :
  bytes_ok t ->
  decode_length (b0 :: b1 :: t) b1 = Ok None \/
  exists ext t' len, t = ext ++ t' /\ decode_length (b0 :: b1 :: t) b1 = Ok (Some (len, (2 + length ext)%nat)) /\ 0 <= len /\
    ((len < 65536 /\ (length ext <= 2)%nat /\ b1 .& 0x7F <> 127) \/
     (len = from_be ext /\ length ext = 8%nat /\ b1 .& 0x7F = 127)).
Proof.
  intros Hb. unfold decode_length. cbv zeta. assert (0 <= b1 .& 0x7F < 128) as Hr.
  { change 0x7F with (2 ^ 7 - 1). rewrite land_ones_mod by done. by apply Z.mod_pos_bound. }
  destruct (Z.eqb_spec (b1 .& 0x7F) 126) as [H6|H6]; [|destruct (Z.eqb_spec (b1 .& 0x7F) 127) as [H7|H7]].
  - destruct (Nat.ltb_spec (length (b0 :: b1 :: t)) 4) as [|Hl]; [by left|right]. cbn [length] in Hl.
    rewrite slice_ok by (cbn [length]; lia). cbn [mbind outcome_bind drop]. exists (take 2 t), (drop 2 t), (from_be (take 2 t)).
    rewrite take_drop, length_take. pose proof (from_be_bound (take 2 t) ltac:(by apply bytes_ok_take)) as Hf.
    unfold zlen in Hf. rewrite length_take, Nat.min_l in Hf by lia. rewrite Nat.min_l by lia. split_and!; [done|done|lia|left; lia].
  - destruct (Nat.ltb_spec (length (b0 :: b1 :: t)) 10) as [|Hl]; [by left|right]. cbn [length] in Hl.
    rewrite slice_ok by (cbn [length]; lia). cbn [mbind outcome_bind drop]. exists (take 8 t), (drop 8 t), (from_be (take 8 t)).
    rewrite take_drop, length_take. pose proof (from_be_bound (take 8 t) ltac:(by apply bytes_ok_take)) as Hf.
    rewrite Nat.min_l by lia. split_and!; [done|done|lia|by right].
  - right. exists [], t, (b1 .& 0x7F). split_and!; [done|done|lia|left; cbn; lia].
Qed.

(** The decoder returns on every input except one: it panics exactly on a
    header whose 64-bit length exceeds what is left of 64 bits after the
    header.  Ten bytes of a client are enough. *)
Theorem ws_decoder_panics (buf : bytes) :
  bytes_ok buf ->
  (decode buf = Panic <-> oversized buf) /\
  (~ oversized buf -> exists r, decode buf = Ok r) /\
  decode (0x82 :: 0x7F :: replicate 8 0xFF) = Panic.
Proof.
  intros Hb. assert (decode buf = Panic /\ oversized buf \/ (exists r, decode buf = Ok r) /\ ~ oversized buf) as H.
  2: { destruct H as [[H1 H2]|[[r H1] H2]]; split_and!; try done; rewrite H1; eauto; split; done. }
  destruct buf as [|b0 [|b1 t]]; [right; split; [by exists None|by intros (?&?&?&?&?&_)]..|].
  assert (bytes_ok t) as Ht by (unfold bytes_ok in *; rewrite !Forall_cons in Hb; apply Hb).
  destruct (decode_length_cases b0 b1 t Ht) as [Hd|(ext & t' & len & -> & Hd & Hl & Hcase)].
  { right. split.
    - exists None. unfold decode. rewrite idx_0, idx_S, idx_0. cbn [mbind outcome_bind length]. by rewrite Hd.
    - intros (c0 & c1 & ext & t' & Heq & He & H7 & _ & _). injection Heq as <- <- ->. unfold decode_length in Hd.
      rewrite H7 in Hd. cbn [Z.eqb Pos.eqb] in Hd. rewrite (proj2 (Nat.ltb_ge _ 10)) in Hd by len_lia.
      rewrite slice_ok in Hd by len_lia. done. }
  assert (oversized (b0 :: b1 :: ext ++ t') ->
    (masked_bit b1 = true -> (4 <= length t')%nat) /\ 2 ^ 64 <= len + Z.of_nat (2 + length ext) + (if masked_bit b1 then 4 else 0)) as Hover.
  { intros (c0 & c1 & ext2 & t2 & Heq & He & H7 & Hm & Hv). injection Heq as <- <- Heq.
    destruct Hcase as [(_ & _ & ?)|(-> & He' & _)]; [done|].
    apply app_inj_1 in Heq as [<- <-]; [|congruence]. split; [done|]. rewrite He. destruct (masked_bit b1); lia. }
  destruct (decide (masked_bit b1 = true /\ (length t' < 4)%nat)) as [[Hm Hlt]|Hno].
  { right. split; [exists None; by eapply decode_no_key|]. intros [Hk _]%Hover. specialize (Hk Hm). lia. }
  assert (exists key body, t' = key ++ body /\ length key = if masked_bit b1 then 4%nat else 0%nat) as (key & body & -> & Hkey).
  { destruct (masked_bit b1); [|by exists [], t']. exists (take 4 t'), (drop 4 t'). rewrite take_drop, length_take. split; [done|].
    apply Nat.min_l. destruct (decide (length t' < 4)%nat); [tauto|lia]. }
  rewrite (decode_with_key _ _ _ _ _ len) by done. cbv zeta.
  destruct (Z.leb_spec (2 ^ 64) (Z.of_nat (2 + length ext + length key) + len)) as [Hbig|Hsmall].
  - left. split; [done|]. destruct Hcase as [(? & ? & _)|(-> & He & H7)].
    { exfalso. rewrite Hkey in Hbig. destruct (masked_bit b1); lia. }
    exists b0, b1, ext, (key ++ body). split_and!; [done|done|done| |].
    + intros Hm. rewrite Hm in Hkey. rewrite length_app. lia.
    + rewrite Hkey, He in Hbig. destruct (masked_bit b1); lia.
  - right. split.
    + destruct (_ <? _); eauto.
    + intros [_ Hv]%Hover. rewrite Hkey in Hsmall. destruct (masked_bit b1); lia.
Qed.

Lemma ws_frames_round_trip_witness :
  exists rest, feed_all next_frame []
    [[0x82]; [0x03; 1; 2; 3; 0x89; 0x82; 9; 8]; [7; 6; 14; 13]] = Ok (rest, [ws_binary [1; 2; 3]; {| fin := true; opcode := 9; payload := [7; 5] |}]) /\
    buf_equiv next_frame rest [].
Proof.
  apply (ws_frames_round_trip [(None, ws_binary [1; 2; 3]); (Some [9; 8; 7; 6], {| fin := true; opcode := 9; payload := [7; 5] |})]
    [[0x82]; [0x03; 1; 2; 3; 0x89; 0x82; 9; 8]; [7; 6; 14; 13]]).
  - repeat constructor; vm_compute; (reflexivity || discriminate).
  - vm_compute. reflexivity.
Defined.

Lemma ws_decoder_panics_witness : exists r, decode [0x82; 2; 1] = Ok r.
Proof.
  apply (ws_decoder_panics [0x82; 2; 1]).
  - apply (bool_decide_unpack _). vm_compute. exact I.
  - intros (b0 & b1 & ext & t & Heq & He & _). apply (f_equal length) in Heq. cbn [length] in Heq. rewrite length_app, He in Heq. lia.
Defined.
