(* ===== verification/Playback.v ===== *)
(** * Playback: live streams over HTTP and WebSocket

    [http/src/session.rs] (request dispatch and the FLV, TS and fragmented MP4
    responses) and [http/src/ws.rs] (the same formats over WebSocket).  A format
    is a muxer with what it writes before the first live frame and for each
    live frame; the two transports are the same session around it.  A handler
    is a program in a monad that writes to a connection of bounded life,
    registers readers and fails as Rust does. *)

From S2P Require Import Prelude Frame Stream Payload Gop Flv TsMux TsStream Bmff Fmp4Mux Utf8 Text Auth Ws.
#[local] Open Scope Z_scope.
#[local] Set Warnings "-clear-no-such-hyp".

(** ** Effects *)

(** A source is named by application and stream, under the default virtual host. *)
Definition StreamId : Type := bytes * bytes.

Inductive Effect : Type :=
| Wrote (b : bytes)
| Registered (id : StreamId) (reader : bytes)
| Unregistered (id : StreamId) (reader : bytes).

(** How a computation ends early: [None] is [return Ok(())], [Some e] an error. *)
Definition Exit : Type := option Error.

(** The state is the number of writes the connection will still accept. *)
Definition M (A : Type) : Type := nat -> list Effect * nat * outcome Exit A.

#[global] Instance m_ret : MRet M := fun A a n => ([], n, Ok a).
#[global] Instance m_bind : MBind M := fun A B k m n =>
  let '(es, n, r) := m n in
  match r with
  | Ok a => let '(es', n, r) := k a n in (es ++ es', n, r)
  | Err e => (es, n, Err e)
  | Panic => (es, n, Panic)
  | NoFuel => (es, n, NoFuel)
  end.

(** [stream.write_all(b).await?] *)
Definition write (b : bytes) : M unit := fun n =>
  match n with
  | O => ([], O, Err (Some Io))
  | S n => ([Wrote b], n, Ok tt)
  end.

(** A write whose failure is observed: [is_ok()]. *)
Definition try_write (b : bytes) : M bool := fun n =>
  match n with
  | O => ([], O, Ok false)
  | S n => ([Wrote b], n, Ok true)
  end.

(** A computation of the muxers, with [?]. *)
Definition run_result {A} (r : result A) : M A := fun n =>
  ([], n, match r with Ok a => Ok a | Err e => Err (Some e) | Panic => Panic | NoFuel => NoFuel end).

(** [return Ok(())] from inside the handler. *)
Definition return_ok {A} : M A := fun n => ([], n, Err None).

(** The handler's result; [false] when it is still running at the end of the
    observed events. *)
Definition finished (m : M bool) : M bool := fun n =>
  let '(es, n, r) := m n in (es, n, match r with Err None => Ok true | r => r end).

(** [let _subscriber = source.register_subscriber(..).await;]: the guard
    unregisters the reader whenever the handler is left. *)
Definition with_reader (id : StreamId) (reader : bytes) (m : M bool) : M bool := fun n =>
  let '(es, n, r) := m n in
  (Registered id reader :: es ++ match r with Ok false => [] | _ => [Unregistered id reader] end, n, r).

(** ** Addresses *)

Definition strip_suffix (p s : bytes) : option bytes := reverse <$> strip_prefix (reverse p) (reverse s).
Definition ends_with (p s : bytes) : bool := match strip_suffix p s with Some _ => true | None => false end.

(** [query.split('&').filter_map(|pair| pair.split_once('='))] *)
Definition query_pairs (q : bytes) : list (bytes * bytes) := omap (split_once 61) (split 38 q).
Definition find_key (k : bytes) (l : list (bytes * bytes)) : option bytes :=
  snd <$> List.find (fun kv : bytes * bytes => bool_decide (kv.1 = k)) l.

(** [(app, resource, sign)] *)
Definition parse_path_sign (path : bytes) : bytes * bytes * bytes :=
  let path := trim_start_char 47 path in
  let '(path_only, sign) :=
    match split_once 63 path with
    | Some (p, q) => (p, default [] (find_key (str "sign") (query_pairs q)))
    | None => (path, [])
    end in
  let parts := splitn 2 47 path_only in
  (default (str "live") (parts !! 0%nat), default [] (parts !! 1%nat), sign).

(** The path without its query. *)
Definition route_path (path : bytes) : bytes :=
  match split_once 63 path with Some (p, _) => p | None => path end.

(** [resource.strip_suffix(suffix).map_or("stream", |v| v)] *)
Definition stream_of (suffix : string) (resource : bytes) : bytes :=
  default (str "stream") (strip_suffix (str suffix) resource).

Definition DEFAULT_VHOST : bytes := str "__defaultVhost__".

(** ** What a session asks of the server *)

Record SourceView : Type := {
  view_tracks : list TrackInfo;
  view_configs : list MediaFrame;      (* gop_cache.get_config_frames() *)
  view_latest : list MediaFrame        (* gop_cache.get_latest_gop_frames() *)
}.

Record VodAsset : Type := {
  vod_tracks : list TrackInfo;
  vod_playback : Z -> list MediaFrame
}.

(** The hooks ([Some] is a denial), the sources (pulled if need be) and the
    recordings. *)
Record World : Type := {
  on_http_access : bytes -> bytes -> bytes -> bytes -> option bytes;   (* app, stream, params, url *)
  on_play : bytes -> bytes -> bytes -> option bytes;
  get_or_pull : bytes -> bytes -> option SourceView;
  open_vod : bytes -> bytes -> option VodAsset
}.

(** What happens after playback has begun: the receiver of the source's
    channel yields a frame, reports lost ones or the end, bytes arrive on the
    connection (no bytes: the peer closed it or reading failed), the reading
    branch of [select!] is polled. *)
Inductive Event : Type :=
| Recv (f : MediaFrame)
| Lagged
| Closed
| Arrive (chunk : bytes)
| Poll.

(** ** Formats *)

(** [start send cached] writes what comes before the live frames; the muxer is
    its result.  [cached] sends a piece of the cached GOP. *)
Record Format : Type := {
  muxer : Type;
  suffix : string;
  kind : string;                       (* in the reader's name *)
  content_type : string;
  start : SourceView -> (bytes -> M unit) -> (bytes -> M unit) -> M muxer;
  live : muxer -> MediaFrame -> result (muxer * option bytes);
  http_cached_error : bool;            (* a failed write of the cached GOP is an error over HTTP *)
  http_survives_lag : bool;            (* [Lagged] continues the HTTP loop *)
  http_write_error : bool              (* a failed live write is an error over HTTP *)
}.

(** FLV. *)
Definition flv_metadata (tracks : list TrackInfo) : option bytes :=
  match tracks with
  | TrackVideo v :: _ => Some (write_metadata (video_width v) (video_height v) (video_fps v) 44100 (video_codec v))
  | _ => None
  end.

Fixpoint send_tags (send : bytes -> M unit) (frames : list MediaFrame) : M unit :=
  match frames with
  | [] => mret tt
  | f :: frames => tag ← run_result (write_tag f); _ ← send tag; send_tags send frames
  end.

Definition flv_start (v : SourceView) (send send_cached : bytes -> M unit) : M FlvMuxer :=
  let '(m, header) := write_header flv_muxer_new in
  _ ← send header;
  _ ← (match flv_metadata (view_tracks v) with Some meta => send meta | None => mret tt end);
  _ ← send_tags send_cached (view_latest v);
  mret m.

Definition flv_live (m : FlvMuxer) (f : MediaFrame) : result (FlvMuxer * option bytes) :=
  if is_config_frame f then Ok (m, None) else
  tag ← write_tag f; Ok (m, Some tag).

(** MPEG-TS. *)
Definition some_bytes (b : bytes) : option bytes := match b with [] => None | _ => Some b end.

Fixpoint send_ts (send : bytes -> M unit) (m : TsLiveMuxer) (frames : list MediaFrame) : M TsLiveMuxer :=
  match frames with
  | [] => mret m
  | f :: frames =>
      r ← run_result (push_frame m f);
      _ ← (match some_bytes r.2 with Some ts => send ts | None => mret tt end);
      send_ts send r.1 frames
  end.

Definition ts_start (v : SourceView) (send send_cached : bytes -> M unit) : M TsLiveMuxer :=
  m ← send_ts send live_new (view_configs v);
  send_ts send_cached m (view_latest v).

Definition ts_live (m : TsLiveMuxer) (f : MediaFrame) : result (TsLiveMuxer * option bytes) :=
  r ← push_frame m f; Ok (r.1, some_bytes r.2).

(** Fragmented MP4: a media segment is cut after each key frame. *)
Fixpoint push_configs (m : Fmp4Muxer) (frames : list MediaFrame) : result Fmp4Muxer :=
  match frames with
  | [] => Ok m
  | f :: frames => m ← fmp4_push_frame m f; push_configs m frames
  end.

Definition fmp4_live (m : Fmp4Muxer) (f : MediaFrame) : result (Fmp4Muxer * option bytes) :=
  if is_config_frame f then Ok (m, None) else
  m ← fmp4_push_frame m f;
  if is_key f then
    let '(seg, m) := flush_segment m in Ok (m, seg_data <$> seg)
  else Ok (m, None).

Fixpoint send_segments (send : bytes -> M unit) (m : Fmp4Muxer) (frames : list MediaFrame) : M Fmp4Muxer :=
  match frames with
  | [] => mret m
  | f :: frames =>
      r ← run_result (fmp4_live m f);
      _ ← (match r.2 with Some seg => send seg | None => mret tt end);
      send_segments send r.1 frames
  end.

Definition fmp4_start (v : SourceView) (send send_cached : bytes -> M unit) : M Fmp4Muxer :=
  m ← run_result (push_configs (fmp4_new 90000) (view_configs v));
  _ ← send (seg_data (init_segment m));
  m ← send_segments send_cached m (view_latest v);
  let '(seg, m) := flush_segment m in
  _ ← (match seg with Some seg => send_cached (seg_data seg) | None => mret tt end);
  mret m.

Definition flv_format : Format :=
  {| muxer := FlvMuxer; suffix := ".flv"; kind := "flv"; content_type := "video/x-flv"; start := flv_start; live := flv_live;
     http_cached_error := true; http_survives_lag := false; http_write_error := true |}.
Definition ts_format : Format :=
  {| muxer := TsLiveMuxer; suffix := ".live.ts"; kind := "ts"; content_type := "video/MP2T"; start := ts_start; live := ts_live;
     http_cached_error := true; http_survives_lag := false; http_write_error := false |}.
Definition fmp4_format : Format :=
  {| muxer := Fmp4Muxer; suffix := ".live.mp4"; kind := "fmp4"; content_type := "video/mp4"; start := fmp4_start; live := fmp4_live;
     http_cached_error := false; http_survives_lag := true; http_write_error := false |}.

(** ** Responses *)

Definition http_response (status : string) (headers : list string) (body : bytes) : bytes :=
  concat ((fun l => str l ++ CRLF) <$> (("HTTP/1.1 " ++ status)%string :: headers)) ++ CRLF ++ body.

Definition response_400 : bytes := http_response "400 Bad Request" ["Content-Length: 0"; "Connection: close"] [].
Definition response_404 : bytes := http_response "404 Not Found" ["Content-Length: 9"; "Connection: close"] (str "Not Found").
Definition response_401 : bytes :=
  http_response "401 Unauthorized" ["Content-Type: text/plain"; "Content-Length: 12"; "Connection: close"] (str "Unauthorized").
Definition response_stream (content_type : string) : bytes :=
  http_response "200 OK" [("Content-Type: " ++ content_type)%string; "Connection: close"; "Cache-Control: no-cache"] [].

Definition send_close (code : Z) (reason : string) : M bool := _ ← write (encode_server (ws_close code reason)); mret true.
Definition send_binary (b : bytes) : M unit := write (encode_server (ws_binary b)).

(** ** The receiving side of a WebSocket *)

(** [read_frame]: [None] while bytes are missing, [Some None] when the
    connection is over. *)
Fixpoint read_frame (buf : bytes) (incoming : list bytes) : result (bytes * list bytes * option (option WsFrame)) :=
  r ← next_frame buf;
  match r.2, incoming with
  | Some f, _ => Ok (r.1, incoming, Some (Some f))
  | None, [] => Ok (buf, [], None)
  | None, [] :: incoming => Ok (buf, incoming, Some None)
  | None, chunk :: incoming => read_frame (buf ++ chunk) incoming
  end.

(** ** Sessions *)

Section Sessions.
Context `{AuthPrimitives}.
(** [value.parse::<f64>()], finite and not negative, times 1000 [as u64]. *)
Variable seconds_ms : bytes -> option Z.
Variables (w : World) (a : StreamAuth) (peer_addr : bytes).

Section Format.
Variable F : Format.

Fixpoint ws_loop (m : muxer F) (buf : bytes) (incoming : list bytes) (events : list Event) : M bool :=
  match events with
  | [] => mret false
  | Recv f :: events =>
      r ← run_result (live F m f);
      match r.2 with
      | None => ws_loop r.1 buf incoming events
      | Some b =>
          ok ← try_write (encode_server (ws_binary b));
          if ok : bool then ws_loop r.1 buf incoming events else mret true
      end
  | Lagged :: events => ws_loop m buf incoming events
  | Closed :: _ => _ ← try_write (encode_server (ws_close 1001 "source gone")); mret true
  | Arrive chunk :: events => ws_loop m buf (incoming ++ [chunk]) events
  | Poll :: events =>
      r ← run_result (read_frame buf incoming);
      match r.2 with
      | None => ws_loop m r.1.1 r.1.2 events
      | Some None => mret true
      | Some (Some frame) =>
          if opcode frame =? 8 then
            _ ← try_write (encode_server (ws_close 1000 "bye")); mret true
          else if opcode frame =? 9 then
            ok ← try_write (encode_server ws_pong);
            if ok : bool then ws_loop m r.1.1 r.1.2 events else mret true
          else ws_loop m r.1.1 r.1.2 events
      end
  end.

Fixpoint http_loop (m : muxer F) (events : list Event) : M bool :=
  match events with
  | [] => mret false
  | Recv f :: events =>
      r ← run_result (live F m f);
      match r.2 with
      | None => http_loop r.1 events
      | Some b =>
          ok ← (if http_write_error F then _ ← write b; mret true else try_write b);
          if ok : bool then http_loop r.1 events else mret true
      end
  | Lagged :: events => if http_survives_lag F then http_loop m events else mret true
  | Closed :: _ => mret true
  | Arrive _ :: events | Poll :: events => http_loop m events
  end.

Definition reader (transport : string) : bytes := str transport ++ str "-" ++ str (kind F) ++ [58] ++ peer_addr.

Definition ws_stream (id : StreamId) (v : SourceView) (events : list Event) : M bool :=
  with_reader id (reader "ws") (
    m ← start F v send_binary send_binary;
    ws_loop m [] [] events).

(** [run_ts], [run_fmp4], and [run_flv] with what it does when there is no source. *)
Definition ws_play (missing : bytes -> bytes -> M bool) (path : bytes) (events : list Event) : M bool :=
  let '(app, resource, sign) := parse_path_sign path in
  let stream_name := stream_of (suffix F) resource in
  match on_play w app stream_name sign with
  | Some _ => send_close 3000 "unauthorized"
  | None =>
      if negb (check a DEFAULT_VHOST app stream_name (str "play") sign) then send_close 3000 "unauthorized" else
      match get_or_pull w app stream_name with
      | Some v => ws_stream (app, stream_name) v events
      | None => missing app stream_name
      end
  end.

Definition send_cached_http (b : bytes) : M unit :=
  if http_cached_error F then write b else
  ok ← try_write b;
  if ok : bool then mret tt else return_ok.

Definition http_stream (id : StreamId) (v : SourceView) (events : list Event) : M bool :=
  with_reader id (reader "http") (
    _ ← write (response_stream (content_type F));
    m ← start F v write send_cached_http;
    http_loop m events).

(** [handle_flv_stream], [handle_ts_stream] and [handle_fmp4_stream]. *)
Definition http_play (path : bytes) (events : list Event) : M bool :=
  let '(app, resource, sign) := parse_path_sign path in
  let stream_name := stream_of (suffix F) resource in
  match on_play w app stream_name sign with
  | Some _ => _ ← write response_401; mret true
  | None =>
      if negb (check a DEFAULT_VHOST app stream_name (str "play") sign) then _ ← write response_401; mret true else
      match get_or_pull w app stream_name with
      | Some v => http_stream (app, stream_name) v events
      | None => _ ← write response_404; mret true
      end
  end.

End Format.

(** *** Recordings over WebSocket *)

Definition query_seconds (path : bytes) (key : string) : option Z :=
  match split_once 63 path with
  | Some (_, query) => find_key (str key) (query_pairs query) ≫= seconds_ms
  | None => None
  end.

Fixpoint send_vod (limit : option Z) (frames : list MediaFrame) : M unit :=
  match frames with
  | [] => mret tt
  | f :: frames =>
      if negb (config_frame f) && match limit with Some l => l <? timestamp f | None => false end then mret tt else
      tag ← run_result (write_tag f);
      _ ← send_binary tag;
      send_vod limit frames
  end.

Definition run_vod_flv (asset : VodAsset) (path : bytes) : M bool :=
  let start_ms := default 0 (query_seconds path "start") in
  let duration_ms := query_seconds path "duration" in
  let frames := vod_playback asset start_ms in
  let video := head (omap (fun t => match t with TrackVideo v => Some v | _ => None end) (vod_tracks asset)) in
  let audio_rate := default 0 (head (omap (fun t => match t with TrackAudio a => Some (audio_sample_rate a) | _ => None end)
                                          (vod_tracks asset))) in
  match video with
  | None => send_close 3004 "unsupported VOD tracks"
  | Some v =>
      _ ← send_binary (write_header flv_muxer_new).2;
      _ ← send_binary (write_metadata (video_width v) (video_height v) (video_fps v) audio_rate (video_codec v));
      _ ← send_vod duration_ms frames;
      send_close 1000 "VOD complete"
  end.

Definition run_flv (path : bytes) (events : list Event) : M bool :=
  ws_play flv_format (fun app stream_name =>
    match open_vod w app stream_name with
    | Some asset => run_vod_flv asset path
    | None => send_close 3004 "stream not found"
    end) path events.

Definition run_ts : bytes -> list Event -> M bool := ws_play ts_format (fun _ _ => send_close 3004 "stream not found").
Definition run_fmp4 : bytes -> list Event -> M bool := ws_play fmp4_format (fun _ _ => send_close 3004 "stream not found").

Definition handle_flv_stream : bytes -> list Event -> M bool := http_play flv_format.
Definition handle_ts_stream : bytes -> list Event -> M bool := http_play ts_format.
Definition handle_fmp4_stream : bytes -> list Event -> M bool := http_play fmp4_format.

End Sessions.

(** ** Requests *)

(** [parse_query]: a later occurrence of a key replaces an earlier one. *)
Definition parse_query (path : bytes) : gmap bytes bytes :=
  match split_once 63 path with
  | Some (_, q) => foldl (fun m kv => <[kv.1 := kv.2]> m) ∅ (query_pairs q)
  | None => ∅
  end.

Definition constant_time_eq (expected candidate : bytes) : bool :=
  if negb (length expected =? length candidate)%nat then false
  else foldl (fun diff ab => diff .| (ab.1 .^ ab.2)) 0 (zip expected candidate) =? 0.

(** The secret a header line carries. *)
Definition header_secret (line : bytes) : option bytes :=
  match split_once 58 line with
  | Some (name, value) =>
      if eq_ignore_ascii_case (trim name) (str "x-api-secret") then Some (trim value)
      else if eq_ignore_ascii_case (trim name) (str "authorization") then strip_prefix (str "Bearer ") (trim value)
      else None
  | None => None
  end.

Definition supplied_secret (path request : bytes) : option bytes :=
  match head (omap header_secret (lines request)) with
  | Some s => Some s
  | None => parse_query path !! str "secret"
  end.

Definition is_api_authorized (a : StreamAuth) (path request : bytes) : bool :=
  match secret a with
  | [] => true
  | expected => match supplied_secret path request with
                | Some candidate => constant_time_eq expected candidate
                | None => false
                end
  end.

Definition is_play_route (route : bytes) : bool :=
  existsb (fun s => ends_with (str s) route)
    [".flv"; ".live.ts"; ".live.mp4"; ".m3u8"; ".cmav.m3u8"; ".mpd"; ".m4s"; ".ts"]%string.

Inductive Route : Type :=
| ApiRoute | RecordRoute | FlvRoute | TsRoute | Fmp4Route | MpdRoute | SegmentRoute | InitRoute
| CmafPlaylistRoute | HlsPlaylistRoute | HlsSegmentRoute | StaticRoute | IndexRoute | NotFoundRoute.

#[global] Instance Route_eq_dec : EqDecision Route.
Proof. solve_decision. Defined.

(** [www] tells whether a root for static files is configured. *)
Definition route_of (www : bool) (route : bytes) : Route :=
  if starts_with (str "/index/api/") route then ApiRoute
  else if starts_with (str "/record/") route then RecordRoute
  else if ends_with (str ".flv") route then FlvRoute
  else if ends_with (str ".live.ts") route then TsRoute
  else if ends_with (str ".live.mp4") route then Fmp4Route
  else if ends_with (str ".mpd") route then MpdRoute
  else if ends_with (str ".m4s") route then SegmentRoute
  else if ends_with (str "init.mp4") route then InitRoute
  else if ends_with (str ".cmav.m3u8") route then CmafPlaylistRoute
  else if ends_with (str ".m3u8") route then HlsPlaylistRoute
  else if ends_with (str ".ts") route then HlsSegmentRoute
  else if bool_decide (route = str "/") || bool_decide (route = str "/index.html") then
    (if www then StaticRoute else IndexRoute)
  else if www then StaticRoute else NotFoundRoute.

(** [char::to_lowercase] as far as it yields ASCII letters: the Kelvin sign
    and the dotted capital I are the only other characters that do. *)
Fixpoint to_lowercase (s : bytes) : bytes :=
  match s with
  | 0xE2 :: 0x84 :: 0xAA :: s => 107 :: to_lowercase s
  | 0xC4 :: 0xB0 :: s => 105 :: 0xCC :: 0x87 :: to_lowercase s
  | b :: s => lower b :: to_lowercase s
  | [] => []
  end.

Definition websocket_key (request : bytes) : bytes :=
  match List.find (fun l => starts_with (str "sec-websocket-key:") (to_lowercase l)) (lines request) with
  | Some l => match split_once 58 l with Some (_, v) => trim v | None => [] end
  | None => []
  end.

(** What becomes of a connection's request: the first read is all of it. *)
Inductive Dispatch : Type :=
| Hangup
| BadRequest
| WebSocket (key : bytes) (format : Route) (path : bytes)
| AccessDenied
| ApiUnauthorized
| Routed (route : Route) (path : bytes).

Definition websocket_format (route : bytes) : Route :=
  if ends_with (str ".live.ts") route then TsRoute
  else if ends_with (str ".live.mp4") route then Fmp4Route
  else FlvRoute.

Definition access_denied (w : World) (path : bytes) : bool :=
  let '(app, resource, params) := parse_path_sign path in
  match on_http_access w app resource params path with Some _ => true | None => false end.

Definition dispatch (w : World) (a : StreamAuth) (www : bool) (first_read : bytes) : Dispatch :=
  match first_read with
  | [] => Hangup
  | _ =>
      let request := from_utf8_lossy first_read in
      match splitn 3 32 (default [] (head (lines request))) with
      | _ :: path :: _ =>
          let is_ws := contains (str "Upgrade: websocket") request || contains (str "upgrade: websocket") request in
          let key := if is_ws then websocket_key request else [] in
          let route := route_path path in
          match key with
          | _ :: _ => WebSocket key (websocket_format route) path
          | [] =>
              if is_play_route route && access_denied w path then AccessDenied else
              match route_of www route with
              | ApiRoute => if is_api_authorized a path request then Routed ApiRoute path else ApiUnauthorized
              | r => Routed r path
              end
          end
      | _ => BadRequest
      end
  end.

Section Serve.
Context `{AuthPrimitives}.
Variables (sha1 : bytes -> bytes) (seconds_ms : bytes -> option Z).

(** The connections this file models: playback and rejected requests. *)
Definition serve (w : World) (a : StreamAuth) (peer_addr : bytes) (www : bool) (first_read : bytes) (events : list Event) :
    option (M bool) :=
  match dispatch w a www first_read with
  | Hangup => Some (mret true)
  | BadRequest => Some (_ ← write response_400; mret true)
  | WebSocket key f path =>
      Some (_ ← write (upgrade_response sha1 base64_encode key);
            match f with
            | TsRoute => run_ts w a peer_addr path events
            | Fmp4Route => run_fmp4 w a peer_addr path events
            | _ => run_flv seconds_ms w a peer_addr path events
            end)
  | AccessDenied => Some (_ ← write response_401; mret true)
  | Routed FlvRoute path => Some (handle_flv_stream w a peer_addr path events)
  | Routed TsRoute path => Some (handle_ts_stream w a peer_addr path events)
  | Routed Fmp4Route path => Some (handle_fmp4_stream w a peer_addr path events)
  | Routed NotFoundRoute _ => Some (_ ← write response_404; mret true)
  | _ => None
  end.

End Serve.

(** ** Reasoning about programs *)

Definition is_write (e : Effect) : bool := match e with Wrote _ => true | _ => false end.

(** The registrations among the effects. *)
Definition registrations (es : list Effect) : list Effect := List.filter (fun e => negb (is_write e)) es.

(** The bytes on the connection. *)
Definition written (es : list Effect) : bytes := concat ((fun e => match e with Wrote b => b | _ => [] end) <$> es).

Lemma registrations_app l k : registrations (l ++ k) = registrations l ++ registrations k.
Proof. apply List.filter_app. Qed.

Lemma written_app l k : written (l ++ k) = written l ++ written k.
Proof. unfold written. by rewrite fmap_app, concat_app. Qed.

Definition only_writes {A} (m : M A) : Prop := forall n, registrations (m n).1.1 = [].

Lemma m_bind_ok {A B} (m : M A) (k : A -> M B) n es n' b :
  (x ← m; k x) n = (es, n', Ok b) ->
  exists x es1 n1 es2, m n = (es1, n1, Ok x) /\ k x n1 = (es2, n', Ok b) /\ es = es1 ++ es2.
Proof.
  unfold mbind, m_bind. destruct (m n) as [[es1 n1] [x| | |]] eqn:Hm; [|done..].
  destruct (k x n1) as [[es2 n2] r] eqn:Hk. intros [= <- <- ->]. by exists x, es1, n1, es2.
Qed.

Lemma writes_ret {A} (x : A) : only_writes (mret x).
Proof. done. Qed.

Lemma writes_result {A} (r : result A) : only_writes (run_result r).
Proof. done. Qed.

Lemma writes_write b : only_writes (write b).
Proof. by intros []. Qed.

Lemma writes_try b : only_writes (try_write b).
Proof. by intros []. Qed.

Lemma writes_return {A} : only_writes (@return_ok A).
Proof. done. Qed.

Lemma writes_bind {A B} (m : M A) (k : A -> M B) :
  only_writes m -> (forall x, only_writes (k x)) -> only_writes (x ← m; k x).
Proof.
  intros Hm Hk n. specialize (Hm n). unfold mbind, m_bind. destruct (m n) as [[es1 n1] [x| | |]]; try done.
  specialize (Hk x n1). destruct (k x n1) as [[es2 n2] r]. cbn [fst snd] in *. by rewrite registrations_app, Hm, Hk.
Qed.

Create HintDb playback.
#[export] Hint Resolve writes_ret writes_result writes_write writes_try writes_return : playback.
#[export] Hint Extern 1 (only_writes (mbind _ _)) => apply writes_bind; [|intros] : playback.
#[export] Hint Extern 2 (only_writes (match ?x with _ => _ end)) => destruct x : playback.

Lemma writes_send_tags send frames : (forall b, only_writes (send b)) -> only_writes (send_tags send frames).
Proof. intros Hs. induction frames; cbn [send_tags]; eauto with playback. Qed.

Lemma writes_send_ts send frames : forall m, (forall b, only_writes (send b)) -> only_writes (send_ts send m frames).
Proof. intros m Hs. revert m. induction frames; intros m; cbn [send_ts]; auto 6 with playback. Qed.

Lemma writes_send_segments send frames : forall m, (forall b, only_writes (send b)) -> only_writes (send_segments send m frames).
Proof. intros m Hs. revert m. induction frames; intros m; cbn [send_segments]; auto 6 with playback. Qed.

(** What a format promises: before the live frames it only writes. *)
Class FormatOk (F : Format) : Prop :=
  start_writes : forall v send cached, (forall b, only_writes (send b)) -> (forall b, only_writes (cached b)) ->
    only_writes (start F v send cached).

#[export] Hint Resolve writes_send_tags writes_send_ts writes_send_segments : playback.

#[global] Instance flv_format_ok : FormatOk flv_format.
Proof. intros v send cached Hs Hc. cbn [start flv_format]. unfold flv_start. cbv iota. auto 8 with playback. Qed.
#[global] Instance ts_format_ok : FormatOk ts_format.
Proof. intros v send cached Hs Hc. cbn [start ts_format]. unfold ts_start. auto 8 with playback. Qed.
#[global] Instance fmp4_format_ok : FormatOk fmp4_format.
Proof. intros v send cached Hs Hc. cbn [start fmp4_format]. unfold fmp4_start. auto 12 with playback. Qed.

(** ** Who is served *)

Section Authorization.
Context `{AuthPrimitives}.
Variables (sha1 : bytes -> bytes) (seconds_ms : bytes -> option Z).
Variables (w : World) (a : StreamAuth) (peer_addr : bytes).

Lemma ws_loop_writes F m buf incoming events : only_writes (ws_loop F m buf incoming events).
Proof.
  revert m buf incoming. induction events as [|e events IH]; intros m buf incoming; [apply writes_ret|].
  destruct e; cbn [ws_loop]; auto 10 with playback.
Qed.

Lemma http_loop_writes F m events : only_writes (http_loop F m events).
Proof.
  revert m. induction events as [|e events IH]; intros m; [apply writes_ret|].
  destruct e; cbn [http_loop]; auto 10 with playback.
Qed.

Lemma send_cached_writes F b : only_writes (send_cached_http F b).
Proof. unfold send_cached_http. auto with playback. Qed.

Lemma send_vod_writes limit frames : only_writes (send_vod limit frames).
Proof. induction frames; cbn [send_vod send_binary]; unfold send_binary; auto with playback. Qed.

(** A stream as a request names it: application, name and signature. *)
Definition Asked : Type := bytes * bytes * bytes.

Definition asked (suffix : string) (path : bytes) : Asked :=
  let '(app, resource, sign) := parse_path_sign path in (app, stream_of suffix resource, sign).

Definition route_suffix (r : Route) : string :=
  match r with TsRoute => suffix ts_format | Fmp4Route => suffix fmp4_format | _ => suffix flv_format end.

(** The stream a dispatched request asks for, on the routes of this file. *)
Definition request_of (d : Dispatch) : option Asked :=
  match d with
  | WebSocket _ f path => Some (asked (route_suffix f) path)
  | Routed ((FlvRoute | TsRoute | Fmp4Route) as r) path => Some (asked (route_suffix r) path)
  | _ => None
  end.

(** The hook let the request pass and the signature it carries is right. *)
Definition may_play (q : Asked) : Prop :=
  let '(app, name, sign) := q in
  on_play w app name sign = None /\ check a DEFAULT_VHOST app name (str "play") sign = true.

Definition refusals : list bytes :=
  [response_400; response_401; response_404; encode_server (ws_close 3000 "unauthorized"); encode_server (ws_close 3004 "stream not found")].

Definition refusal (e : Effect) : Prop :=
  exists b, e = Wrote b /\ (b ∈ refusals \/ exists key, b = upgrade_response sha1 base64_encode key).

(** What a connection may be given that asks for [q]. *)
Inductive served (q : option Asked) (es : list Effect) (running : bool) : Prop :=
| ServedRefusal : Forall refusal es -> served q es running
| ServedLive app name sign v rd :
    q = Some (app, name, sign) -> may_play (app, name, sign) -> get_or_pull w app name = Some v ->
    registrations es = Registered (app, name) rd :: (if running then [] else [Unregistered (app, name) rd]) -> served q es running
| ServedRecording app name sign asset :
    q = Some (app, name, sign) -> may_play (app, name, sign) -> get_or_pull w app name = None -> open_vod w app name = Some asset ->
    registrations es = [] -> served q es running.

Definition serves (q : option Asked) (m : M bool) : Prop := forall n, served q (m n).1.1 (bool_decide ((m n).2 = Ok false)).

Lemma serves_refusal q b : b ∈ refusals -> serves q (_ ← write b; mret true).
Proof. intros Hb [|n]; apply ServedRefusal; repeat constructor. exists b. eauto. Qed.

Lemma serves_return q b : serves q (mret b).
Proof. intros n. apply ServedRefusal. constructor. Qed.

Lemma reader_registrations id rd m n :
  only_writes m ->
  registrations (with_reader id rd m n).1.1 =
  Registered id rd :: (if bool_decide ((with_reader id rd m n).2 = Ok false) then [] else [Unregistered id rd]).
Proof.
  intros Hm. specialize (Hm n). unfold with_reader. destruct (m n) as [[es n'] r]. cbn [fst snd] in *.
  change (registrations (Registered id rd :: ?l)) with (Registered id rd :: registrations l).
  rewrite registrations_app, Hm. case_bool_decide as Hr; [by subst|]. by destruct r as [[]| | |].
Qed.

Lemma serves_ws F missing path events :
  FormatOk F ->
  (forall app name sign, asked (suffix F) path = (app, name, sign) -> may_play (app, name, sign) -> get_or_pull w app name = None ->
     serves (Some (app, name, sign)) (missing app name)) ->
  serves (Some (asked (suffix F) path)) (ws_play w a peer_addr F missing path events).
Proof.
  intros HF Hmiss. unfold asked in *. unfold ws_play. destruct (parse_path_sign path) as [[app resource] sign].
  destruct (on_play w app _ sign) eqn:Hhook; [apply (serves_refusal _ (encode_server (ws_close 3000 "unauthorized"))); set_solver|].
  destruct (check a DEFAULT_VHOST app _ (str "play") sign) eqn:Hcheck; cbn [negb];
    [|apply (serves_refusal _ (encode_server (ws_close 3000 "unauthorized"))); set_solver].
  assert (may_play (app, stream_of (suffix F) resource, sign)) as Hmay by done.
  destruct (get_or_pull w app _) as [v|] eqn:Hsrc; [|by apply (Hmiss _ _ _ eq_refl)].
  intros n. eapply ServedLive; [reflexivity|exact Hmay|exact Hsrc|]. apply reader_registrations.
  apply writes_bind; [|intros; apply ws_loop_writes]. apply HF; intros; apply writes_write.
Qed.

Lemma serves_http F path events : FormatOk F -> serves (Some (asked (suffix F) path)) (http_play w a peer_addr F path events).
Proof.
  intros HF. unfold asked, http_play. destruct (parse_path_sign path) as [[app resource] sign].
  destruct (on_play w app _ sign) eqn:Hhook; [apply (serves_refusal _ response_401); set_solver|].
  destruct (check a DEFAULT_VHOST app _ (str "play") sign) eqn:Hcheck; cbn [negb];
    [|apply (serves_refusal _ response_401); set_solver].
  assert (may_play (app, stream_of (suffix F) resource, sign)) as Hmay by done.
  destruct (get_or_pull w app _) as [v|] eqn:Hsrc; [|apply (serves_refusal _ response_404); set_solver].
  intros n. eapply ServedLive; [reflexivity|exact Hmay|exact Hsrc|]. apply reader_registrations.
  apply writes_bind; [apply writes_write|intros _]. apply writes_bind; [|intros; apply http_loop_writes].
  apply HF; intros; [apply writes_write|apply send_cached_writes].
Qed.

Lemma serves_vod app name sign asset path :
  may_play (app, name, sign) -> get_or_pull w app name = None -> open_vod w app name = Some asset ->
  serves (Some (app, name, sign)) (run_vod_flv seconds_ms asset path).
Proof.
  intros Hmay Hsrc Hvod. assert (only_writes (run_vod_flv seconds_ms asset path)) as Ho.
  { unfold run_vod_flv, send_close, send_binary.
    destruct (head _); repeat (apply writes_bind; intros; auto using send_vod_writes with playback); auto with playback. }
  intros n. by eapply ServedRecording.
Qed.

Lemma serves_upgrade q key m : serves q m -> serves q (_ ← write (upgrade_response sha1 base64_encode key); m).
Proof.
  intros Hm [|n]; [apply ServedRefusal; constructor|]. specialize (Hm n). unfold mbind, m_bind. cbn [write].
  destruct (m n) as [[es n'] r]. cbn [fst snd List.app] in *. inversion Hm as [Hr|app name sign v rd H0 H1 H2 H3|app name sign asset H0 H1 H2 H3 H4].
  - apply ServedRefusal. constructor; [|done]. eexists. split; [done|]. right. by exists key.
  - by eapply ServedLive.
  - by eapply ServedRecording.
Qed.

(** The routes whose handlers are in other files, or not modelled. *)
Definition other_route (r : Route) : Prop := r ∉ [FlvRoute; TsRoute; Fmp4Route; NotFoundRoute].

(** C15: playback over HTTP-FLV, HTTP-TS, HTTP-fMP4 and WebSocket.  Whatever a
    peer sends, its connection is routed to a handler for other things (the
    management interface, files, HLS, DASH), or it is given one of three
    things: a refusal (a constant response, after the handshake of a
    WebSocket); the live source of the very stream its request names, for which
    the hook let the request pass and the signature in the request is right,
    read by one registered reader that is unregistered whenever the session is
    left; or, under the same two conditions, the recording of that name, when
    there is no live source. *)
Theorem playback_authorized (www : bool) (first_read : bytes) (events : list Event) :
  let d := dispatch w a www first_read in
  match serve sha1 seconds_ms w a peer_addr www first_read events with
  | Some m => forall n, served (request_of d) (m n).1.1 (bool_decide ((m n).2 = Ok false))
  | None => (exists r path, d = Routed r path /\ other_route r) \/ d = ApiUnauthorized
  end.
Proof.
  intros d. destruct (serve _ _ _ _ _ _ _ _) as [m|] eqn:Hm; revert Hm; unfold serve; fold d.
  - intros Hm. enough (serves (request_of d) m) as Hs by apply Hs. revert Hm.
    assert (forall path, serves (Some (asked (suffix flv_format) path)) (run_flv seconds_ms w a peer_addr path events)) as Hflv.
    { intros path. apply serves_ws; [apply _|]. intros app name sign _ Hmay Hsrc. destruct (open_vod w app name) as [asset|] eqn:Hvod.
      - by eapply serves_vod.
      - apply (serves_refusal _ (encode_server (ws_close 3004 "stream not found"))). set_solver. }
    assert (forall q, serves q (_ ← write response_401; mret true)) by (intros q; apply (serves_refusal q response_401); set_solver).
    destruct d as [| |key [] path| | |[] path]; intros [= <-]; cbn [request_of route_suffix];
      try (apply serves_upgrade); try (apply serves_http; apply _); try done; try apply Hflv;
      try (apply serves_ws; [apply _|]; intros; apply (serves_refusal _ (encode_server (ws_close 3004 "stream not found"))); set_solver).
    + apply serves_return.
    + apply (serves_refusal _ response_400). set_solver.
    + apply (serves_refusal _ response_404). set_solver.
  - destruct d as [| |key [] path| | |[] path]; intros Hm; try discriminate Hm; try (by right);
      left; eexists _, path; (split; [reflexivity|]); unfold other_route; set_solver.
Qed.
End Authorization.

(** ** The dispatch *)

(** C38: how a request finds its handler.  A path that [is_play_route] accepts
    reaches a handler only when the access hook lets it pass; the media routes
    are such paths, except initialization segments; the interface for
    management is reached only with the configured secret, if there is one,
    taken from a header before the query; and a WebSocket never asks the access
    hook: its dispatch is the same whatever the hook says. *)
Theorem http_dispatch_guarded (w : World) (a : StreamAuth) (www : bool) (first_read : bytes) :
  (forall r path, dispatch w a www first_read = Routed r path ->
     r = route_of www (route_path path) /\
     (is_play_route (route_path path) = true -> access_denied w path = false) /\
     (r = ApiRoute -> secret a = [] \/ supplied_secret path (from_utf8_lossy first_read) = Some (secret a))) /\
  (forall route, route_of www route ∈ [FlvRoute; TsRoute; Fmp4Route; MpdRoute; SegmentRoute; CmafPlaylistRoute;
                                      HlsPlaylistRoute; HlsSegmentRoute] -> is_play_route route = true) /\
  (forall key f path, dispatch w a www first_read = WebSocket key f path ->
     forall hook, dispatch {| on_http_access := hook; on_play := on_play w; get_or_pull := get_or_pull w; open_vod := open_vod w |}
                    a www first_read = WebSocket key f path).
Proof.
  split_and!.
  - intros r path. unfold dispatch. destruct first_read as [|b0 first_read]; [done|]. cbv zeta.
    set (request := from_utf8_lossy _). destruct (splitn 3 32 _) as [|m [|p ps]]; try done.
    destruct (if _ || _ then _ else _); [|done].
    destruct (is_play_route (route_path p) && access_denied w p) eqn:Hplay; [done|].
    assert (is_play_route (route_path p) = true -> access_denied w p = false) as Hd
      by (destruct (is_play_route (route_path p)), (access_denied w p); done).
    destruct (decide (route_of www (route_path p) = ApiRoute)) as [Hr|Hr].
    + rewrite Hr. destruct (is_api_authorized a p request) eqn:Ha; [|done]. intros [= <- <-]. split_and!; [done|exact Hd|].
      intros _. unfold is_api_authorized in Ha. destruct (secret a) as [|s0 s] eqn:Hs; [by left|right].
      destruct (supplied_secret p request) as [c|]; [|done]. f_equal. symmetry. by apply ct_eq_spec.
    + destruct (route_of www (route_path p)) eqn:Hr'; try done; intros [= <- <-]; split_and!; done.
  - intros route. unfold route_of, is_play_route. cbn [existsb].
    repeat (match goal with |- context [if ?b then _ else _] => destruct b eqn:? end); intros Hin; try reflexivity;
      rewrite ?orb_true_r; try reflexivity; exfalso; revert Hin; by apply (bool_decide_unpack _).
  - intros key f path Hd hook. unfold dispatch in *. destruct first_read as [|b0 first_read]; [done|]. cbv zeta in *.
    destruct (splitn 3 32 _) as [|m [|p ps]]; try done. destruct (if _ || _ then _ else _); [|done].
    destruct (_ && _); [done|]. destruct (route_of www (route_path p)); try done. by destruct (is_api_authorized _ _ _).
Qed.

(** ** FLV over WebSocket, end to end *)

(** What a WebSocket session sends, as frames. *)
Definition sent (fs : list WsFrame) : list Effect := (fun f => Wrote (encode_server f)) <$> fs.

(** The data of the binary frames. *)
Definition binary_data (fs : list WsFrame) : bytes :=
  concat ((fun f => if opcode f =? 2 then payload f else []) <$> fs).

(** The live frames a muxer is given: configuration frames are passed over. *)
Definition live_frames (events : list Event) : list MediaFrame :=
  omap (fun e => match e with Recv f => if is_config_frame f then None else Some f | _ => None end) events.

Definition tag_of (f : MediaFrame) (tag : bytes) : Prop := write_tag f = Ok tag.

Lemma binary_data_app fs gs : binary_data (fs ++ gs) = binary_data fs ++ binary_data gs.
Proof. unfold binary_data. by rewrite fmap_app, concat_app. Qed.

(** A way of sending: what reaches the connection when it succeeds. *)
Definition sends (send : bytes -> M unit) (wrap : bytes -> bytes) : Prop :=
  forall b n es n', send b n = (es, n', Ok tt) -> es = [Wrote (wrap b)].

Lemma sends_binary : sends send_binary (fun b => encode_server (ws_binary b)).
Proof. intros b n es n'. destruct n; [done|]. by intros [= <- _]. Qed.

Lemma sent_binary l : (fun b => Wrote (encode_server (ws_binary b))) <$> l = sent (ws_binary <$> l).
Proof. unfold sent. by rewrite <-list_fmap_compose. Qed.

Lemma sends_http : sends write id.
Proof. intros b n es n'. destruct n; [done|]. by intros [= <- _]. Qed.

Lemma send_tags_ok send wrap frames : sends send wrap -> forall n es n',
  send_tags send frames n = (es, n', Ok tt) ->
  exists tags, es = (fun b => Wrote (wrap b)) <$> tags /\ Forall2 tag_of frames tags.
Proof.
  intros Hsend. induction frames as [|f frames IH]; intros n es n' Hs; cbn [send_tags] in Hs.
  { injection Hs as <- _. by exists []. }
  apply m_bind_ok in Hs as (tag & es1 & n1 & es2 & Ht & Hs & ->).
  apply m_bind_ok in Hs as ([] & es3 & n3 & es4 & Hb & Hs & ->).
  unfold run_result in Ht. destruct (write_tag f) eqn:Htag; [|done..]. injection Ht as <- <- <-.
  apply Hsend in Hb as ->. apply IH in Hs as (tags & -> & Htags). eexists (_ :: tags). split; [done|]. by constructor.
Qed.

Lemma flv_start_ok send wrap v n es n' m :
  sends send wrap -> flv_start v send send n = (es, n', Ok m) ->
  exists tags, Forall2 tag_of (view_latest v) tags /\
    es = (fun b => Wrote (wrap b)) <$> [(write_header flv_muxer_new).2] ++ option_list (flv_metadata (view_tracks v)) ++ tags.
Proof.
  intros Hsend Hs. unfold flv_start in Hs. destruct (write_header flv_muxer_new) as [m0 header] eqn:Hh.
  apply m_bind_ok in Hs as ([] & es1 & n1 & es2 & H1 & Hs & ->). apply Hsend in H1 as ->.
  apply m_bind_ok in Hs as ([] & es3 & n3 & es4 & H2 & Hs & ->).
  assert (es3 = (fun b => Wrote (wrap b)) <$> option_list (flv_metadata (view_tracks v))) as ->.
  { destruct (flv_metadata (view_tracks v)); [by apply Hsend in H2 as ->|by injection H2 as <- _]. }
  apply m_bind_ok in Hs as ([] & es5 & n5 & es6 & H3 & Hs & ->). apply (send_tags_ok send wrap) in H3 as (tags & -> & Htags); [|done].
  injection Hs as <- _ _. exists tags. split; [done|]. by rewrite !fmap_app, app_nil_r.
Qed.

(** The live frames an HTTP session writes before it ends. *)
Fixpoint served_frames (events : list Event) : list MediaFrame :=
  match events with
  | Recv f :: events => if is_config_frame f then served_frames events else f :: served_frames events
  | Lagged :: _ | Closed :: _ => []
  | _ :: events => served_frames events
  | [] => []
  end.

Lemma flv_http_loop_ok events : forall m n es n' b,
  http_loop flv_format m events n = (es, n', Ok b) -> exists tags, es = Wrote <$> tags /\ Forall2 tag_of (served_frames events) tags.
Proof.
  induction events as [|e events IH]; intros m n es n' b Hs; cbn [http_loop] in Hs; [injection Hs as <- _ _; by exists []|].
  destruct e as [f| | |chunk|]; cbn [served_frames]; [|injection Hs as <- _ _; by exists []..|by apply IH in Hs|by apply IH in Hs].
  apply m_bind_ok in Hs as ([m1 o] & es1 & n1 & es2 & H1 & Hs & ->).
  unfold run_result in H1. change (live flv_format m f) with (flv_live m f) in H1. unfold flv_live in H1.
  destruct (is_config_frame f).
  { injection H1 as <- <- <- <-. cbn [fst snd] in Hs. by apply IH in Hs. }
  destruct (write_tag f) as [tag| | |] eqn:Htag; [|done..]. cbn [mbind outcome_bind] in H1. injection H1 as <- <- <- <-.
  cbn [fst snd] in Hs. apply m_bind_ok in Hs as (ok & es3 & n3 & es4 & H2 & Hs & ->).
  change (http_write_error flv_format) with true in H2. apply m_bind_ok in H2 as ([] & es5 & n5 & es6 & H2 & H3 & ->).
  apply sends_http in H2 as ->. injection H3 as <- <- <-. apply IH in Hs as (tags & -> & Htags).
  exists (tag :: tags). split; [done|by constructor].
Qed.

(** What a finished or running HTTP-FLV session has written. *)
Lemma http_flv_written peer_addr sid v events n es n' b :
  http_stream peer_addr flv_format sid v events n = (es, n', Ok b) ->
  exists tags, Forall2 tag_of (view_latest v ++ served_frames events) tags /\
    written es = response_stream "video/x-flv" ++ (write_header flv_muxer_new).2 ++
      concat (option_list (flv_metadata (view_tracks v))) ++ concat tags.
Proof.
  intros Hs. unfold http_stream, with_reader in Hs.
  destruct ((_ ← write (response_stream (content_type flv_format)); m ← start flv_format v write (send_cached_http flv_format); http_loop flv_format m events) n) as [[es0 n0] r] eqn:Hm.
  injection Hs as <- <- ->. apply m_bind_ok in Hm as ([] & es1 & n1 & es2 & H1 & Hm & ->). apply sends_http in H1 as ->.
  apply m_bind_ok in Hm as (m & es3 & n3 & es4 & H2 & H3 & ->).
  change (send_cached_http flv_format) with write in H2. apply (flv_start_ok write id) in H2 as (cached & Hc & ->); [|exact sends_http].
  apply flv_http_loop_ok in H3 as (tags & -> & Htags). exists (cached ++ tags). split; [by apply Forall2_app|].
  assert (forall l : list bytes, written (Wrote <$> l) = concat l) as Hw.
  { intros l. unfold written. rewrite <-list_fmap_compose. f_equal. rewrite <-(list_fmap_id l) at 2. by apply list_fmap_ext. }
  match goal with |- written (_ :: ?l) = ?r => change (written l = r) end. rewrite !written_app.
  match goal with |- _ ++ written ?x = _ => replace (written x) with (@nil Z) by (by destruct b) end.
  match goal with |- (written [_] ++ written (_ <$> ?l) ++ _) ++ _ = _ =>
    change (((response_stream "video/x-flv" ++ []) ++ written (Wrote <$> l) ++ written (Wrote <$> tags)) ++ [] = response_stream "video/x-flv" ++
      (write_header flv_muxer_new).2 ++ concat (option_list (flv_metadata (view_tracks v))) ++ concat (cached ++ tags)) end.
  rewrite !Hw, !concat_app. cbn [concat]. by rewrite !app_nil_r, <-!app_assoc.
Qed.

Lemma flv_loop_ok events : forall m buf incoming n es n',
  ws_loop flv_format m buf incoming events n = (es, n', Ok false) ->
  exists fs tags, es = sent fs /\ Forall (fun f => f = ws_pong \/ exists b, b ∈ tags /\ f = ws_binary b) fs /\
    Forall2 tag_of (live_frames events) tags /\ binary_data fs = concat tags.
Proof.
  induction events as [|e events IH]; intros m buf incoming n es n' Hs; cbn [ws_loop] in Hs.
  { injection Hs as <- _. by exists [], []. }
  destruct e as [f| | |chunk|]; [| |by apply m_bind_ok in Hs as (? & ? & ? & ? & _ & [=] & _)| |].
  - apply m_bind_ok in Hs as ([m1 o] & es1 & n1 & es2 & H1 & Hs & ->).
    unfold run_result in H1. change (live flv_format m f) with (flv_live m f) in H1. unfold flv_live in H1.
    change (live_frames (Recv f :: events)) with (match (if is_config_frame f then None else Some f) with Some x => x :: live_frames events | None => live_frames events end).
    destruct (is_config_frame f).
    { injection H1 as <- <- <- <-. cbn [fst snd] in Hs. by apply IH in Hs. }
    destruct (write_tag f) as [tag| | |] eqn:Htag; [|done..]. cbn [mbind outcome_bind] in H1. injection H1 as <- <- <- <-.
    cbn [fst snd] in Hs. apply m_bind_ok in Hs as (ok & es3 & n3 & es4 & H2 & Hs & ->).
    destruct ok; [|by injection Hs]. destruct n as [|n]; [done|]. injection H2 as <- <-.
    apply IH in Hs as (fs & tags & -> & Hfs & Htags & Hb). exists (ws_binary tag :: fs), (tag :: tags). split_and!.
    + done.
    + constructor; [right; exists tag; set_solver|]. eapply Forall_impl; [exact Hfs|]. intros g [->|(b & Hin & ->)]; [by left|].
      right. exists b. set_solver.
    + by constructor.
    + change (binary_data (ws_binary tag :: fs)) with (tag ++ binary_data fs). by rewrite Hb.
  - by apply IH in Hs.
  - by apply IH in Hs.
  - apply m_bind_ok in Hs as ([[buf1 inc1] o] & es1 & n1 & es2 & H1 & Hs & ->).
    unfold run_result in H1. injection H1 as <- <- _. cbn [fst snd List.app] in Hs.
    destruct o as [[frame|]|]; [|by injection Hs|by apply IH in Hs].
    destruct (opcode frame =? 8); [by apply m_bind_ok in Hs as (? & ? & ? & ? & _ & [=] & _)|].
    destruct (opcode frame =? 9); [|by apply IH in Hs].
    apply m_bind_ok in Hs as (ok & es3 & n3 & es4 & H2 & Hs & ->).
    destruct ok; [|by injection Hs]. destruct n as [|n]; [done|]. injection H2 as <- <-.
    apply IH in Hs as (fs & tags & -> & Hfs & Htags & Hb). exists (ws_pong :: fs), tags. split_and!; [done| |done|done].
    constructor; [by left|done].
Qed.

Lemma flv_metadata_skippable tracks : skippable (concat (option_list (flv_metadata tracks))).
Proof.
  destruct tracks as [|[v|au] tracks]; cbn [flv_metadata]; [by intros tag g Hm _| |by intros tag g Hm _].
  assert (forall x : bytes, concat (option_list (Some x)) = x) as -> by (intros x; apply app_nil_r). unfold write_metadata. apply skippable_script.
  unfold metadata_amf, zlen. rewrite !length_app, !length_to_be.
  assert (length (concat (meta_property <$> meta_properties (video_width v) (video_height v) (video_fps v) 44100 (video_codec v))) <= 1000)%nat;
    [|cbn [length]; change (length (str_bytes "onMetaData")) with 10%nat; lia].
  unfold meta_properties. cbn [fmap list_fmap concat]. unfold meta_property. cbn [fst snd].
  repeat (rewrite ?length_app; cbn [length]; rewrite ?length_to_be). vm_compute. lia.
Qed.

Lemma tag_bytes_small t ts payload : zlen payload < 2 ^ 24 -> zlen (tag_bytes t ts payload) < 2 ^ 25.
Proof. intros Hl. unfold tag_bytes, zlen in *. cbv zeta. rewrite !length_app, length_to_be. cbn [length]. lia. Qed.

Lemma metadata_small tracks meta : flv_metadata tracks = Some meta -> zlen meta < 2 ^ 25.
Proof.
  destruct tracks as [|[v|au] tracks]; cbn [flv_metadata]; [done| |done]. intros [= <-]. apply tag_bytes_small.
  unfold metadata_amf, meta_properties, zlen. cbn [fmap list_fmap concat]. unfold meta_property. cbn [fst snd].
  repeat (rewrite ?length_app; cbn [length]; rewrite ?length_to_be). vm_compute. reflexivity.
Qed.

Lemma ws_binary_ok b : zlen b < 2 ^ 25 -> ws_frame_ok (ws_binary b).
Proof. intros Hb. split; [done|]. cbn [payload ws_binary]. lia. Qed.

Lemma tags_small frames payloads tags :
  Forall2 flv_writable frames payloads -> Forall2 tag_of frames tags -> Forall (fun tag => zlen tag < 2 ^ 25) tags.
Proof.
  intros Hw Hall. revert payloads Hw. induction Hall as [|f tag l k Ht _ IH]; intros payloads Hw; [constructor|].
  apply Forall2_cons_inv_l in Hw as (p & ps & (Hmeta & _ & Hp & _ & Hl) & Hw & ->). constructor; [|by eapply IH].
  unfold tag_of, write_tag in Ht. rewrite bool_decide_eq_false_2, Hp in Ht by done.
  injection Ht as <-. by apply tag_bytes_small.
Qed.

(** The frames of a running session can be carried. *)
Lemma sent_frames_ok tracks cached tags fs :
  Forall (fun tag => zlen tag < 2 ^ 25) (cached ++ tags) ->
  Forall (fun f => f = ws_pong \/ exists b, b ∈ tags /\ f = ws_binary b) fs ->
  Forall ws_frame_ok ((ws_binary <$> [(write_header flv_muxer_new).2] ++ option_list (flv_metadata tracks) ++ cached) ++ fs).
Proof.
  rewrite !Forall_app, Forall_fmap, !Forall_app. intros [Hsm1 Hsm2] Hfs. split_and!.
  - constructor; [|constructor]. by apply ws_binary_ok.
  - destruct (flv_metadata tracks) as [b|] eqn:Hb; constructor; [|constructor]. apply ws_binary_ok. by eapply metadata_small.
  - eapply Forall_impl; [exact Hsm1|]. intros b. apply ws_binary_ok.
  - eapply Forall_impl; [exact Hfs|]. intros g [->|(b & Hin & ->)]; [by split|]. apply ws_binary_ok.
    rewrite Forall_forall in Hsm2. by apply Hsm2.
Qed.

Lemma sent_received fs reads :
  Forall ws_frame_ok fs -> concat reads = written (sent fs) ->
  exists rest, feed_all next_frame [] reads = Ok (rest, fs) /\ buf_equiv next_frame rest [].
Proof.
  intros Hok Hreads.
  destruct (feed_all_complete next_frame ((fun f => (wire None f, f)) <$> fs) reads) as (rest & Hfeed & Heq).
  - done.
  - rewrite Forall_fmap. eapply Forall_impl; [exact Hok|]. intros f Hf. by apply (wire_message None).
  - rewrite Hreads. unfold written, sent, messages. rewrite <-!list_fmap_compose. f_equal.
    apply list_fmap_ext. intros i f Hi. cbn. apply encode_server_wire. rewrite Forall_lookup in Hok. by apply (Hok i f).
  - exists rest. split; [|done]. rewrite Hfeed. do 2 f_equal. rewrite <-list_fmap_compose. by rewrite <-(list_fmap_id fs) at 2.
Qed.

Lemma binary_data_binary l : binary_data (ws_binary <$> l) = concat l.
Proof. unfold binary_data. rewrite <-list_fmap_compose. f_equal. rewrite <-(list_fmap_id l) at 2. by apply list_fmap_ext. Qed.

(** C21: what a peer of a WebSocket FLV session gets, as long as the session
    runs, whatever else happens on the connection (lost frames, pings, other
    frames of the peer): the bytes written, cut in any way, are WebSocket
    frames; the data of the binary ones is an FLV stream; and that stream, cut
    in any way, is demuxed to the frames of the cached GOP followed by the live
    frames that are not configuration frames, one for one and in order. *)
Theorem ws_flv_received (peer_addr : bytes) (id : StreamId) (v : SourceView) (events : list Event)
    (n n' : nat) (es : list Effect) (payloads : list bytes) (reads : list bytes) :
  ws_stream peer_addr flv_format id v events n = (es, n', Ok false) ->
  Forall2 flv_writable (view_latest v ++ live_frames events) payloads ->
  view_latest v ++ live_frames events <> [] ->
  concat reads = written es ->
  exists rest fs tags,
    feed_all next_frame [] reads = Ok (rest, fs) /\ buf_equiv next_frame rest [] /\
    parse_header (binary_data fs) = Ok (tags, Some true) /\
    forall chunks, concat chunks = tags ->
      exists gs b, feed_all parse_tag [] chunks = Ok (b, gs) /\ Forall2 reread (view_latest v ++ live_frames events) gs.
Proof.
  intros Hs Hw Hne Hreads. unfold ws_stream, with_reader in Hs.
  destruct ((m ← start flv_format v send_binary send_binary; ws_loop flv_format m [] [] events) n) as [[es0 n0] r] eqn:Hm.
  injection Hs as <- <- ->. apply m_bind_ok in Hm as (m & es1 & n1 & es2 & H1 & H2 & ->).
  apply (flv_start_ok _ _ _ _ _ _ _ sends_binary) in H1 as (cached & Hcached & ->). rewrite sent_binary in Hreads. apply flv_loop_ok in H2 as (fs & tags & -> & Hfs & Htags & Hbin).
  assert (Forall2 tag_of (view_latest v ++ live_frames events) (cached ++ tags)) as Hall by by apply Forall2_app.
  set (frames := (ws_binary <$> [(write_header flv_muxer_new).2] ++ option_list (flv_metadata (view_tracks v)) ++ cached) ++ fs).
  destruct (sent_received frames reads) as (rest & Hfeed & Heq).
  { eapply sent_frames_ok; [|exact Hfs]. by eapply tags_small. }
  { rewrite Hreads, app_nil_r. unfold sent. rewrite <-fmap_app. fold frames. reflexivity. }
  exists rest, frames, (to_be 4 0 ++ concat (option_list (flv_metadata (view_tracks v))) ++ concat (cached ++ tags)).
  split_and!; [done|done| |].
  - unfold frames. rewrite binary_data_app, binary_data_binary, Hbin, !concat_app. cbn [concat]. rewrite app_nil_r, <-!app_assoc.
    apply parse_written_header.
  - intros chunks Hc. rewrite app_assoc in Hc.
    destruct (flv_tags_read (to_be 4 0 ++ concat (option_list (flv_metadata (view_tracks v)))) (view_latest v ++ live_frames events)
      payloads (cached ++ tags) chunks) as (gs & b & Hgs & Hb & _); try done; [|by eauto].
    apply skippable_app; [apply skippable_zeros|apply flv_metadata_skippable].
Qed.

(** ** Concrete sessions *)

Definition demo_view : SourceView :=
  {| view_tracks := [TrackVideo {| video_codec := H264; video_width := 640; video_height := 480; video_fps := 0; video_key_frame := true |}];
     view_configs := []; view_latest := [flv_demo_video] |}.

Definition demo_world : World :=
  {| on_http_access := fun _ _ _ _ => None; on_play := fun _ _ _ => None;
     get_or_pull := fun _ name => if bool_decide (name = str "s") then Some demo_view else None;
     open_vod := fun _ _ => None |}.

(** A frame, a ping of the peer (masked), a lost frame, another frame. *)
Definition demo_events : list Event :=
  [Recv flv_demo_video; Arrive [0x89; 0x80; 1]; Arrive [2; 3; 4]; Poll; Lagged; Recv flv_demo_audio].

Definition demo_run : list Effect * nat * outcome Exit bool :=
  ws_stream (str "10.0.0.1:5") flv_format (str "live", str "s") demo_view demo_events 100%nat.

Lemma ws_flv_received_witness :
  exists es n', demo_run = (es, n', Ok false) /\
  exists rest fs tags, feed_all next_frame [] [written es] = Ok (rest, fs) /\ parse_header (binary_data fs) = Ok (tags, Some true) /\
  exists gs b, feed_all parse_tag [] [take 20 tags; drop 20 tags] = Ok (b, gs) /\
    Forall2 reread [flv_demo_video; flv_demo_video; flv_demo_audio] gs.
Proof.
  exists demo_run.1.1, demo_run.1.2. split; [vm_compute; reflexivity|].
  destruct (ws_flv_received (str "10.0.0.1:5") (str "live", str "s") demo_view demo_events 100%nat demo_run.1.2 demo_run.1.1
    [[0x17; 1; 0; 0; 40; 0; 0; 0; 1; 0x65]; [0x17; 1; 0; 0; 40; 0; 0; 0; 1; 0x65]; [0x72; 1; 2]] [written demo_run.1.1])
    as (rest & fs & tags & H1 & _ & H2 & H3); [vm_compute; reflexivity| |done|apply app_nil_r|].
  - repeat constructor; vm_compute; (reflexivity || discriminate || (intros; discriminate)).
  - exists rest, fs, tags. split; [exact H1|]. split; [exact H2|].
    destruct (H3 [take 20 tags; drop 20 tags]) as (gs & b & Hb & Hgs).
    + cbn [concat]. by rewrite app_nil_r, take_drop.
    + exists gs, b. split; [exact Hb|exact Hgs].
Defined.

Lemma http_dispatch_guarded_witness :
  (ApiRoute = ApiRoute -> secret (auth_new true (str "k")) = [] \/
     supplied_secret (str "/index/api/x?secret=k") (from_utf8_lossy (str "GET /index/api/x?secret=k HTTP/1.1")) = Some (str "k")) /\
  is_play_route (str "/live/s.m3u8") = true.
Proof.
  split.
  - apply (proj1 (http_dispatch_guarded demo_world (auth_new true (str "k")) false (str "GET /index/api/x?secret=k HTTP/1.1"))
      ApiRoute (str "/index/api/x?secret=k")). vm_compute. reflexivity.
  - apply (proj1 (proj2 (http_dispatch_guarded demo_world (auth_new true (str "k")) false []))). vm_compute. set_solver.
Defined.
