(* ===== verification/Mp4Mux.v ===== *)
(** * Mp4Mux: the recorder's MP4 writer

    [mp4/src/muxer.rs]: samples are collected with their timestamps, and
    [finalize] writes ftyp, mdat and moov.  The sample tables lie directly in
    the minf box, every track is one chunk, and there is no table of sync
    samples. *)

From S2P Require Import Prelude Frame F64 AnnexB Payload Gop Bmff.
#[local] Open Scope Z_scope.

Record SampleEntry : Type := {
  entry_track : Z;
  entry_data : bytes;
  entry_timestamp : Z;
  entry_duration : Z;
  entry_sync : bool
}.

Record Mp4Muxer : Type := {
  m4_video_codec : option CodecId;
  m4_audio_codec : option CodecId;
  m4_width : Z;
  m4_height : Z;
  m4_fps : f64;
  m4_sample_rate : Z;
  m4_channels : Z;
  m4_video_config : option bytes;
  m4_audio_config : option bytes;
  m4_samples : list SampleEntry;
  m4_base : option Z
}.

Definition mp4_new : Mp4Muxer :=
  {| m4_video_codec := None; m4_audio_codec := None; m4_width := 0; m4_height := 0; m4_fps := FPS_30; m4_sample_rate := 0;
     m4_channels := 0; m4_video_config := None; m4_audio_config := None; m4_samples := []; m4_base := None |}.

(** Assignments to the fields. *)
Definition m4_set_base (m : Mp4Muxer) (t : Z) : Mp4Muxer :=
  {| m4_video_codec := m4_video_codec m; m4_audio_codec := m4_audio_codec m; m4_width := m4_width m; m4_height := m4_height m;
     m4_fps := m4_fps m; m4_sample_rate := m4_sample_rate m; m4_channels := m4_channels m; m4_video_config := m4_video_config m;
     m4_audio_config := m4_audio_config m; m4_samples := m4_samples m; m4_base := Some t |}.
Definition m4_set_video (m : Mp4Muxer) (c : option CodecId) (config : option bytes) (info : Z * Z * f64) : Mp4Muxer :=
  {| m4_video_codec := c; m4_audio_codec := m4_audio_codec m; m4_width := info.1.1; m4_height := info.1.2;
     m4_fps := info.2; m4_sample_rate := m4_sample_rate m; m4_channels := m4_channels m; m4_video_config := config;
     m4_audio_config := m4_audio_config m; m4_samples := m4_samples m; m4_base := m4_base m |}.
Definition m4_set_audio (m : Mp4Muxer) (c : option CodecId) (config : option bytes) (rate channels : Z) : Mp4Muxer :=
  {| m4_video_codec := m4_video_codec m; m4_audio_codec := c; m4_width := m4_width m; m4_height := m4_height m;
     m4_fps := m4_fps m; m4_sample_rate := rate; m4_channels := channels; m4_video_config := m4_video_config m;
     m4_audio_config := config; m4_samples := m4_samples m; m4_base := m4_base m |}.
Definition m4_set_samples (m : Mp4Muxer) (l : list SampleEntry) : Mp4Muxer :=
  {| m4_video_codec := m4_video_codec m; m4_audio_codec := m4_audio_codec m; m4_width := m4_width m; m4_height := m4_height m;
     m4_fps := m4_fps m; m4_sample_rate := m4_sample_rate m; m4_channels := m4_channels m; m4_video_config := m4_video_config m;
     m4_audio_config := m4_audio_config m; m4_samples := l; m4_base := m4_base m |}.

(** ** Configurations *)

(** Length-prefixed units; an incomplete one ends the list. *)
Fixpoint split_nalus_fuel (fuel : nat) (data : bytes) : list bytes :=
  match fuel, data with
  | S fuel, a :: b :: c :: d :: rest =>
      let len := from_be [a; b; c; d] in
      if len <=? zlen rest then take (Z.to_nat len) rest :: split_nalus_fuel fuel (drop (Z.to_nat len) rest) else []
  | _, _ => []
  end.

Definition split_nalus_avcc (data : bytes) : list bytes := split_nalus_fuel (length data) data.

Definition config_to_sample_rate (config : bytes) : Z :=
  match config with
  | c0 :: c1 :: _ =>
      let idx := ((c0 .& 0x07) .<< 1) .| ((c1 .>> 7) .& 1) in
      default 44100 ([96000; 88200; 64000; 48000; 44100; 32000; 24000; 22050; 16000; 12000; 11025; 8000; 7350] !! Z.to_nat idx)
  | _ => 44100
  end.

(** The dimensions at fixed offsets of the first sequence parameter set. *)
Definition sps_info (test : bytes -> bool) (at_ : nat) (nals : list bytes) : option (Z * Z * f64) :=
  match List.find test nals with
  | Some nal =>
      let byte i := nth i nal 0 in
      Some ((byte at_ .<< 8) .| byte (at_ + 1)%nat,
            if (at_ + 3 <? length nal)%nat then (byte (at_ + 2)%nat .<< 8) .| byte (at_ + 3)%nat else 0, FPS_30)
  | None => None
  end.

Definition extract_video_info (c : CodecId) (data : bytes) : option (Z * Z * f64) :=
  let inner := if (5 <? length data)%nat then drop 5 data else data in
  let first nal := nth 0 nal 0 in
  match c with
  | H264 => sps_info (fun nal => (5 <=? length nal)%nat && (first nal .& 0x1f =? 7)) 3 (split_nalus_avcc inner)
  | H265 => sps_info (fun nal => (6 <=? length nal)%nat && (first nal .>> 1 =? 17)) 4 (split_nalus_avcc inner)
  | _ => None
  end.

(** ** push_frame *)

(** A conversion whose [Err] makes [push_frame] return. *)
Definition or_skip (r : result bytes) : result (option bytes) :=
  match r with Ok b => Ok (Some b) | Err _ => Ok None | Panic => Panic | NoFuel => NoFuel end.

Definition mp4_push_config (m : Mp4Muxer) (frame : MediaFrame) : result Mp4Muxer :=
  match frame_type frame with
  | Video =>
      config ← or_skip (video_decoder_config frame);
      match config with
      | None => Ok m
      | Some config =>
          Ok (m4_set_video m (Some (codec frame)) (Some config)
                (default (m4_width m, m4_height m, m4_fps m) (extract_video_info (codec frame) config)))
      end
  | Audio =>
      config ← (if bool_decide (codec frame = AAC) then or_skip (aac_audio_specific_config frame) else Ok (Some (data frame)));
      match config with
      | None => Ok m
      | Some config => Ok (m4_set_audio m (Some (codec frame)) (Some config) (config_to_sample_rate config) 1)
      end
  | Metadata => Ok m
  end.

(** The first data frame of a kind sets its codec; audio without a
    configuration gets an empty one. *)
Definition mp4_note_codec (m : Mp4Muxer) (frame : MediaFrame) : Mp4Muxer :=
  match frame_type frame with
  | Video => match m4_video_codec m with
             | None => m4_set_video m (Some (codec frame)) (m4_video_config m) (m4_width m, m4_height m, m4_fps m)
             | Some _ => m
             end
  | _ => m4_set_audio m (match m4_audio_codec m with None => Some (codec frame) | c => c end)
           (match m4_audio_config m with None => Some [] | c => c end) (m4_sample_rate m) (m4_channels m)
  end.

Definition mp4_sample_data (frame : MediaFrame) : result (option bytes) :=
  match frame_type frame with
  | Video => or_skip (video_sample_length_prefixed frame)
  | _ => if bool_decide (codec frame = AAC) then or_skip (aac_raw_payload frame) else Ok (Some (data frame))
  end.

Definition mp4_push_frame (m : Mp4Muxer) (frame : MediaFrame) : result Mp4Muxer :=
  let m := match m4_base m with None => m4_set_base m (timestamp frame) | Some _ => m end in
  if config_frame frame || is_config_frame frame then mp4_push_config m frame else
  match frame_type frame with
  | Metadata => Ok m
  | ft =>
      let m := mp4_note_codec m frame in
      let ts := Z.max 0 (timestamp frame - default 0 (m4_base m)) in
      payload ← mp4_sample_data frame;
      match payload with
      | None => Ok m
      | Some payload =>
          let is_video := bool_decide (ft = Video) in
          Ok (m4_set_samples m (m4_samples m ++
                [{| entry_track := if is_video then 0 else 1; entry_data := payload; entry_timestamp := ts; entry_duration := 0;
                    entry_sync := is_video && key_frame frame |}]))
      end
  end.

(** ** Durations *)

(** [saturating_sub], at least one millisecond, in ticks. *)
Definition ticks (timescale delta_ms : Z) : Z := Z.min (2 ^ 32 - 1) (Z.max 1 delta_ms * timescale / 1000).

(** The durations of one track's samples: the distance to the next sample, for
    the last one to the previous, and the default for a single sample. *)
Fixpoint track_durations (timescale default_duration : Z) (prev : option Z) (timestamps : list Z) : list Z :=
  match timestamps with
  | [] => []
  | t :: rest =>
      let delta := match rest with
                   | next :: _ => Some (Z.max 0 (next - t))
                   | [] => (fun p => Z.max 0 (t - p)) <$> prev
                   end in
      Z.max 1 (match delta with Some d => ticks timescale d | None => default_duration end) ::
      track_durations timescale default_duration (Some t) rest
  end.

Definition on_track (k : Z) (s : SampleEntry) : bool := entry_track s =? k.
Definition track_samples (k : Z) (l : list SampleEntry) : list SampleEntry := List.filter (on_track k) l.

Definition set_duration (s : SampleEntry) (d : Z) : SampleEntry :=
  {| entry_track := entry_track s; entry_data := entry_data s; entry_timestamp := entry_timestamp s; entry_duration := d;
     entry_sync := entry_sync s |}.

(** [set_track_durations]: the samples of track [k] get the durations, in order. *)
Fixpoint assign_durations (k : Z) (ds : list Z) (l : list SampleEntry) : list SampleEntry :=
  match l with
  | [] => []
  | s :: l =>
      if on_track k s then
        match ds with
        | d :: ds => set_duration s d :: assign_durations k ds l
        | [] => s :: assign_durations k [] l
        end
      else s :: assign_durations k ds l
  end.

Definition set_track_durations (k timescale default_duration : Z) (l : list SampleEntry) : list SampleEntry :=
  assign_durations k (track_durations timescale default_duration None (entry_timestamp <$> track_samples k l)) l.

Definition audio_timescale (m : Mp4Muxer) : Z := if 0 <? m4_sample_rate m then m4_sample_rate m else 44100.

Definition compute_durations (m : Mp4Muxer) : Mp4Muxer :=
  let fps := if f64_positive (m4_fps m) then m4_fps m else FPS_30 in
  let video_default := f64_to_u32 (f64_div (f64_of_uint 90000) fps) in
  let audio_default := Z.max 1 (audio_timescale m / 44) in
  m4_set_samples m (set_track_durations 1 (audio_timescale m) audio_default
                      (set_track_durations 0 90000 (Z.max 1 video_default) (m4_samples m))).

(** ** Boxes *)

(** [write_full_box]: version and 24-bit flags before the data. *)
Definition full_box (k : string) (version flags : Z) (d : bytes) : abox :=
  (ascii_bytes k, [u8 version; (flags .>> 16) .& 0xFF; (flags .>> 8) .& 0xFF; flags .& 0xFF] ++ d).

Definition unity_matrix : bytes :=
  concat (to_be 4 <$> [0x00010000; 0; 0; 0; 0x00010000; 0; 0; 0; 0x40000000]).

Definition mp4_ftyp : abox :=
  (ascii_bytes "ftyp", ascii_bytes "isom" ++ to_be 4 0x200 ++ ascii_bytes "isomiso2avc1mp41").

Definition mp4_mvhd (duration_ms next_track_id : Z) : abox :=
  full_box "mvhd" 0 0 (to_be 4 0 ++ to_be 4 0 ++ to_be 4 1000 ++ to_be 4 duration_ms ++ to_be 4 0x00010000 ++ to_be 2 0x0100 ++
    to_be 2 0 ++ to_be 4 0 ++ to_be 4 0 ++ unity_matrix ++ replicate 24 0 ++ to_be 4 next_track_id).

Definition mp4_tkhd (track_id duration width height : Z) : abox :=
  full_box "tkhd" 0 7 (to_be 4 0 ++ to_be 4 0 ++ to_be 4 track_id ++ to_be 4 0 ++ to_be 4 duration ++ to_be 4 0 ++ to_be 4 0 ++
    to_be 2 0 ++ to_be 2 0 ++ to_be 2 (if width =? 0 then 0x0100 else 0) ++ to_be 2 0 ++ unity_matrix ++
    to_be 4 (u32 (width * 65536)) ++ to_be 4 (u32 (height * 65536))).

Definition mp4_mdhd (timescale duration : Z) : abox :=
  full_box "mdhd" 0 0 (to_be 4 0 ++ to_be 4 0 ++ to_be 4 timescale ++ to_be 4 duration ++ to_be 2 0x55C4 ++ to_be 2 0).

Definition handler_name (video : bool) : bytes := ascii_bytes (if video then "vide" else "soun").

Definition mp4_hdlr (video : bool) : abox :=
  full_box "hdlr" 0 0 (to_be 4 0 ++ handler_name video ++ to_be 4 0 ++ to_be 4 0 ++ to_be 4 0 ++
    ascii_bytes "zlmediakit-rs" ++ [0]).

Definition mp4_vmhd : abox := full_box "vmhd" 0 1 (to_be 2 0 ++ to_be 2 0 ++ to_be 2 0 ++ to_be 2 0).
Definition mp4_smhd : abox := full_box "smhd" 0 0 (to_be 2 0 ++ to_be 2 0).
Definition mp4_media_header (video : bool) : abox := if video then mp4_vmhd else mp4_smhd.
Definition mp4_dinf : abox :=
  (ascii_bytes "dinf", encode_box (full_box "dref" 0 0 (to_be 4 1 ++ encode_box (full_box "url " 0 1 [])))).

(** ** Sample descriptions *)

Definition default_avcc : bytes := [1; 0x42; 0; 0x1e; 0xff; 0xe1; 0; 25].

(** The units of a configuration whose first byte satisfies the test; an empty
    unit panics. *)
Fixpoint units_of (test : Z -> bool) (nals : list bytes) : result (list bytes) :=
  match nals with
  | [] => Ok []
  | n :: nals => b ← idx n 0; ns ← units_of test nals; Ok (if test b then n :: ns else ns)
  end.

Definition with_lengths (ns : list bytes) : bytes := concat ((fun n => to_be 2 (u16 (zlen n)) ++ n) <$> ns).

Definition parse_avcc_config (data : bytes) : result bytes :=
  if bool_decide (head data = Some 1) && (7 <=? length data)%nat then Ok data else
  if negb (5 <? length data)%nat then Ok default_avcc else
  let inner := drop 5 data in
  i0 ← idx inner 0; i1 ← idx inner 1; i2 ← idx inner 2;
  let nals := split_nalus_avcc inner in
  sps_list ← units_of (fun b => b .& 0x1f =? 7) nals;
  pps_list ← units_of (fun b => b .& 0x1f =? 8) nals;
  Ok ([1; i0; 0; Z.max i1 i2; 0xff] ++ [0xe0 .| u8 (zlen sps_list)] ++ with_lengths sps_list ++
      [u8 (zlen pps_list)] ++ with_lengths pps_list).

Definition parse_hvcc_config (data : bytes) : result bytes :=
  if bool_decide (head data = Some 1) && (23 <=? length data)%nat then Ok data else
  if negb (5 <? length data)%nat then Ok [1] else
  let nals := split_nalus_avcc (drop 5 data) in
  vps_list ← units_of (fun b => b .>> 1 =? 16) nals;
  sps_list ← units_of (fun b => b .>> 1 =? 17) nals;
  pps_list ← units_of (fun b => b .>> 1 =? 18) nals;
  profile ← (match vps_list with
             | vps :: _ => v2 ← idx vps 2; v3 ← idx vps 3; v4 ← idx vps 4; Ok [v2 .& 0xFC; 0; (v3 .& 0xE0) .| (v4 .>> 3)]
             | [] => Ok [0; 0; 0]
             end);
  Ok ([1] ++ profile ++ [0xFC; 0; 0; 0] ++
      [u8 (zlen vps_list) .& 0x0F; u8 (zlen sps_list) .& 0x0F; u8 (zlen pps_list) .& 0x3F] ++
      with_lengths vps_list ++ with_lengths sps_list ++ with_lengths pps_list).

Definition put_ber_length (len : nat) : bytes :=
  let n := Z.of_nat len in
  if n <? 128 then [n]
  else if n <? 16384 then [u8 (0x80 .| u8 (n .>> 7)); n .& 0x7F]
  else [u8 (0x80 .| u8 (n .>> 14)); 0x80 .| ((n .>> 7) .& 0x7F); n .& 0x7F].

Definition build_esds_descriptors (asc : bytes) : bytes :=
  let desc_data := [0; 1; 0x00; 0x00] in
  let dc_data := [0x40; 0x15; 0x00; 0x00; 0x03; 0x00; 0x00; 0x03; 0x00; 0x00] in
  let dec_specific := [0x05; u8 (zlen asc)] ++ asc in
  let decoder_config := [0x04] ++ put_ber_length (length dc_data + length dec_specific) ++ dc_data ++ dec_specific in
  let sl_config := [0x06; 1; 0x02] in
  [0x03] ++ put_ber_length (length desc_data + length decoder_config + length sl_config) ++
  desc_data ++ decoder_config ++ sl_config.

Definition mp4_visual_fields (width height : Z) : bytes :=
  to_be 4 0 ++ to_be 2 0 ++ to_be 2 1 ++ to_be 2 0 ++ to_be 2 0 ++ to_be 4 0 ++ to_be 4 0 ++ to_be 4 0 ++
  to_be 2 (u16 width) ++ to_be 2 (u16 height) ++ to_be 4 0x00480000 ++ to_be 4 0x00480000 ++ to_be 4 0 ++ to_be 2 1 ++
  replicate 32 0 ++ to_be 2 0x0018 ++ to_be 2 0xFFFF.

Definition mp4_audio_fields (rate : Z) : bytes :=
  to_be 4 0 ++ to_be 2 0 ++ to_be 2 1 ++ to_be 2 0 ++ to_be 2 0 ++ to_be 4 0 ++ to_be 2 2 ++ to_be 2 16 ++ to_be 2 0 ++
  to_be 2 0 ++ to_be 4 (u32 (rate .<< 16)).

Definition mp4_sample_entry (c : CodecId) (config : bytes) (width height : Z) : result (list abox) :=
  match c with
  | H264 =>
      avcc ← parse_avcc_config config;
      Ok [(ascii_bytes "avc1", mp4_visual_fields width height ++ encode_box (ascii_bytes "avcC", avcc))]
  | H265 =>
      hvcc ← parse_hvcc_config config;
      Ok [(ascii_bytes "hev1", mp4_visual_fields width height ++ encode_box (ascii_bytes "hvcC", hvcc))]
  | AAC =>
      let audio_config := match config with [] => [0x12; 0x10] | _ => config end in
      Ok [(ascii_bytes "mp4a", mp4_audio_fields (config_to_sample_rate config) ++
           encode_box (ascii_bytes "esds", to_be 4 0 ++ build_esds_descriptors audio_config))]
  | _ => Ok []
  end.

Definition write_stsd (c : CodecId) (config : bytes) (width height : Z) : result abox :=
  entry ← mp4_sample_entry c config width height;
  Ok (ascii_bytes "stsd", to_be 4 0 ++ to_be 4 1 ++ encode entry).

(** ** Sample tables *)

(** Runs of equal durations. *)
Fixpoint duration_runs (ds : list Z) : list (Z * Z) :=
  match ds with
  | [] => []
  | d :: ds =>
      match duration_runs ds with
      | (count, dur) :: runs => if d =? dur then (count + 1, dur) :: runs else (1, d) :: (count, dur) :: runs
      | [] => [(1, d)]
      end
  end.

Definition write_stts (samples : list SampleEntry) : abox :=
  match samples with
  | [] => full_box "stts" 0 0 (to_be 4 0 ++ to_be 4 0)
  | _ =>
      let entries := duration_runs ((fun s => Z.max 1 (entry_duration s)) <$> samples) in
      (ascii_bytes "stts", to_be 4 0 ++ to_be 4 (u32 (zlen entries)) ++
         concat ((fun e => to_be 4 e.1 ++ to_be 4 e.2) <$> entries))
  end.

Definition write_stsc (sample_count : nat) : abox :=
  (ascii_bytes "stsc", to_be 4 0 ++
     match sample_count with
     | O => to_be 4 0
     | _ => to_be 4 1 ++ to_be 4 1 ++ to_be 4 (u32 (Z.of_nat sample_count)) ++ to_be 4 1
     end).

Definition write_stsz (sizes : list Z) : abox :=
  let same := match sizes with
              | [] => 0
              | first :: _ => if forallb (fun s => s =? first) sizes then first else 0
              end in
  (ascii_bytes "stsz", to_be 4 0 ++ to_be 4 same ++ to_be 4 (u32 (zlen sizes)) ++
     (if same =? 0 then concat (to_be 4 <$> sizes) else [])).

Definition write_stco (chunk_offset : Z) : abox :=
  (ascii_bytes "stco", to_be 4 0 ++ to_be 4 1 ++ to_be 4 chunk_offset).

Definition sample_sizes (samples : list SampleEntry) : list Z := (fun s => u32 (zlen (entry_data s))) <$> samples.

(** [before_mdat + 8 + mdat_offset] wraps in release builds. *)
Definition write_stbl (c : CodecId) (config : bytes) (width height : Z) (samples : list SampleEntry)
    (mdat_offset before_mdat : Z) : result (list abox) :=
  stsd ← write_stsd c config width height;
  Ok [stsd; write_stts samples; write_stsc (length samples); write_stsz (sample_sizes samples);
      write_stco (u32 (before_mdat + 8 + mdat_offset))].

Definition write_trak (track_id : Z) (video : bool) (c : CodecId) (config : bytes) (width height timescale duration : Z)
    (samples : list SampleEntry) (mdat_offset before_mdat : Z) : result abox :=
  tables ← write_stbl c config width height samples mdat_offset before_mdat;
  let minf := encode (mp4_media_header video :: mp4_dinf :: tables) in
  let mdia := encode [mp4_mdhd timescale duration; mp4_hdlr video; (ascii_bytes "minf", minf)] in
  Ok (ascii_bytes "trak",
      encode [mp4_tkhd track_id (u32 (duration * 1000 / Z.max 1 timescale)) width height; (ascii_bytes "mdia", mdia)]).

(** ** finalize *)

Definition total_ticks (samples : list SampleEntry) : Z := foldl (fun acc s => acc + entry_duration s) 0 samples.
Definition samples_data (samples : list SampleEntry) : bytes := concat (entry_data <$> samples).

Definition video_trak (m : Mp4Muxer) (before_mdat : Z) : result (list abox) :=
  match track_samples 0 (m4_samples m) with
  | [] => Ok []
  | samples =>
      trak ← write_trak 1 true (default H264 (m4_video_codec m)) (default [] (m4_video_config m)) (m4_width m) (m4_height m)
               90000 (u32 (total_ticks samples)) samples 0 before_mdat;
      Ok [trak]
  end.

Definition audio_trak (m : Mp4Muxer) (before_mdat : Z) : result (list abox) :=
  match track_samples 1 (m4_samples m) with
  | [] => Ok []
  | samples =>
      let video := track_samples 0 (m4_samples m) in
      trak ← write_trak (match video with [] => 1 | _ => 2 end) false (default AAC (m4_audio_codec m))
               (default [] (m4_audio_config m)) 0 0 (audio_timescale m) (u32 (total_ticks samples)) samples
               (u32 (zlen (samples_data video))) before_mdat;
      Ok [trak]
  end.

Definition duration_ms (m : Mp4Muxer) : Z :=
  let video := track_samples 0 (m4_samples m) in
  let audio := track_samples 1 (m4_samples m) in
  Z.max (total_ticks video * 1000 / 90000) (total_ticks audio * 1000 / audio_timescale m).

Definition finalize (m : Mp4Muxer) : result (Mp4Muxer * bytes) :=
  match m4_samples m with
  | [] => Ok (m, [])
  | _ =>
      let m := compute_durations m in
      let video := track_samples 0 (m4_samples m) in
      let audio := track_samples 1 (m4_samples m) in
      let before_mdat := u32 (zlen (encode_box mp4_ftyp)) in
      let next := match video, audio with _ :: _, _ :: _ => 3 | _, _ => 2 end in
      vt ← video_trak m before_mdat;
      at_ ← audio_trak m before_mdat;
      Ok (m, encode [mp4_ftyp; (ascii_bytes "mdat", samples_data video ++ samples_data audio);
                     (ascii_bytes "moov", encode ([mp4_mvhd (u32 (duration_ms m)) next] ++ vt ++ at_))])
  end.

(** ** The recorder's task

    [mp4/src/recorder.rs]: cached frames first, then what the subscription
    delivers until it closes or the stop signal comes. *)

Inductive RecordEvent : Type :=
| RecordStop
| RecordFrame (f : MediaFrame)
| RecordLagged
| RecordClosed.

Fixpoint push_all (m : Mp4Muxer) (frames : list MediaFrame) : result Mp4Muxer :=
  match frames with
  | [] => Ok m
  | f :: frames => m ← mp4_push_frame m f; push_all m frames
  end.

(** Smallest and greatest decoding time received. *)
Definition widen (range : option (Z * Z)) (d : Z) : option (Z * Z) :=
  Some (match range with Some (lo, hi) => (Z.min lo d, Z.max hi d) | None => (d, d) end).

Fixpoint record_loop (m : Mp4Muxer) (range : option (Z * Z)) (events : list RecordEvent) : result (Mp4Muxer * option (Z * Z)) :=
  match events with
  | [] | RecordStop :: _ | RecordClosed :: _ => Ok (m, range)
  | RecordLagged :: events => record_loop m range events
  | RecordFrame f :: events => m ← mp4_push_frame m f; record_loop m (widen range (dts f)) events
  end.

Definition F_1000 : f64 := 0x408F400000000000.

Definition time_len (range : option (Z * Z)) : f64 :=
  match range with
  | Some (lo, hi) => if lo <? hi then f64_div (f64_of_uint (hi - lo)) F_1000 else 0
  | None => 0
  end.

(** The file and its length in seconds; nothing when nothing was recorded. *)
Definition record (config_frames cached_gop : list MediaFrame) (events : list RecordEvent) : result (option (bytes * f64)) :=
  m ← push_all mp4_new config_frames;
  m ← push_all m (List.filter (fun f => negb (is_config_frame f)) cached_gop);
  '(m, range) ← record_loop m None events;
  '(_, output) ← finalize m;
  Ok (match output with [] => None | _ => Some (output, time_len range) end).
