(* ===== verification/Mp4Demux.v ===== *)
(** * Mp4Demux: the reader of MP4 files

    [mp4/src/demuxer.rs]: the box cursor, the sample tables of a track, the
    samples' data and times, and the frames a recording is replayed as.  A
    map from box names to contents is the list of boxes in which the last box
    of a name counts; the smallest name is the first of the map. *)

From S2P Require Import Prelude Frame Audio AnnexB Utf8.
#[local] Open Scope Z_scope.

Inductive TrackKind : Type := KindVideo | KindAudio | KindOther.

#[global] Instance TrackKind_eq_dec : EqDecision TrackKind.
Proof. solve_decision. Defined.

Record DemuxedSample : Type := {
  dx_track_id : Z;
  dx_codec : CodecId;
  dx_data : bytes;
  pts_ms : Z;
  dts_ms : Z;
  dx_duration_ms : Z;
  dx_sync : bool;
  dx_config : bool
}.

Record DemuxedTrack : Type := {
  dt_track_id : Z;
  handler : TrackKind;
  dt_codec : CodecId;
  dt_timescale : Z;
  dt_duration : Z;
  dt_config : bytes;
  sample_count : Z;
  dt_width : Z;
  dt_height : Z;
  dt_fps : f64;
  dt_sample_rate : Z
}.

Record Mp4Demuxer : Type := {
  dm_tracks : list DemuxedTrack;                   (* BTreeMap: by track id *)
  dm_samples : list (Z * list DemuxedSample)
}.

Definition bail {A} : result A := Err (Anyhow "mp4").

(** ** Boxes *)

(** Total size and length of the header. *)
Definition read_box_header (data : bytes) : result (Z * nat) :=
  if (length data <? 8)%nat then bail else
  size32 ← slice data 0 4;
  if from_be size32 =? 1 then
    if (length data <? 16)%nat then bail else
    size64 ← slice data 8 16; Ok (from_be size64, 16%nat)
  else Ok (from_be size32, 8%nat).

(** One turn of the loop; [pos] is the offset of [rest] in the buffer.  Sums
    that leave 64 bits, and a 64-bit box shorter than its header, panic. *)
Definition walk_step (st : Z * bytes * list (bytes * bytes)) :
    result (Z * bytes * list (bytes * bytes) + list (bytes * bytes)) :=
  let '(pos, rest, out) := st in
  if (length rest <? 8)%nat then Ok (inr out) else
  '(size, hdr) ← read_box_header rest;
  if size <? 8 then Ok (inr out) else
  if size <? Z.of_nat hdr then Panic else
  if 2 ^ 64 <=? pos + size then Panic else
  if zlen rest <? size then Ok (inr out) else
  box_type ← slice rest 4 8;
  body ← slice rest hdr (Z.to_nat size);
  Ok (inl (pos + size, drop (Z.to_nat size) rest, out ++ [(from_utf8_lossy box_type, body)])).

Definition walk_top_boxes_vec (data : bytes) : result (list (bytes * bytes)) :=
  loop (S (length data)) walk_step (0, data, []).

Definition get_box (name : bytes) (boxes : list (bytes * bytes)) : option bytes :=
  snd <$> List.find (fun nb : bytes * bytes => bool_decide (nb.1 = name)) (reverse boxes).

Fixpoint bytes_le (a b : bytes) : bool :=
  match a, b with
  | [], _ => true
  | _ :: _, [] => false
  | x :: a, y :: b => (x <? y) || ((x =? y) && bytes_le a b)
  end.

(** [boxes.iter().next()] of a [BTreeMap]. *)
Definition first_box (boxes : list (bytes * bytes)) : option (bytes * bytes) :=
  match stable_sort bytes_le boxes.*1 with
  | name :: _ => (fun b => (name, b)) <$> get_box name boxes
  | [] => None
  end.

(** [.context("missing ..")?] *)
Definition need {A} (o : option A) : result A := match o with Some a => Ok a | None => bail end.

(** ** Header boxes *)

Definition be_at (data : bytes) (i : nat) : Z := from_be (take 4 (drop i data)).

Definition read_mvhd_timescale (mvhd : bytes) : Z := if (16 <=? length mvhd)%nat then be_at mvhd 12 else 1000.
Definition read_tkhd_track_id (tkhd : bytes) : Z := if (16 <=? length tkhd)%nat then be_at tkhd 12 else 0.
Definition read_mdhd_timescale (mdhd : bytes) : Z := if (16 <=? length mdhd)%nat then be_at mdhd 12 else 90000.
Definition read_mdhd_duration (mdhd : bytes) : Z := if (20 <=? length mdhd)%nat then be_at mdhd 16 else 0.

Definition ascii (s : string) : bytes := (fun a => Z.of_N (Ascii.N_of_ascii a)) <$> String.list_ascii_of_string s.

Definition read_hdlr_type (hdlr : bytes) : TrackKind :=
  if (12 <=? length hdlr)%nat then
    let ht := take 4 (drop 8 hdlr) in
    if bool_decide (ht = ascii "vide") then KindVideo
    else if bool_decide (ht = ascii "soun") then KindAudio
    else KindOther
  else KindOther.

(** ** Sample descriptions *)

(** The first place where the type stands, with a size that fits. *)
Fixpoint find_child_box (data target : bytes) : option bytes :=
  match data with
  | [] => None
  | _ :: rest =>
      if (length data <? 8)%nat then None else
      let size := from_be (take 4 data) in
      let payload_end := if 8 <=? size then size else zlen data in
      if bool_decide (take 4 (drop 4 data) = target) && (payload_end <=? zlen data)
      then Some (take (Z.to_nat payload_end - 8) (drop 8 data))
      else find_child_box rest target
  end.

Definition extract_avcc (entry : bytes) : bytes := default [] (find_child_box entry (ascii "avcC")).
Definition extract_hvcc (entry : bytes) : bytes := default [] (find_child_box entry (ascii "hvcC")).

(** Length and its size.  The sum wraps for more than eight length bytes. *)
Definition read_ber_len (data : bytes) : option (Z * nat) :=
  match data with
  | [] => None
  | b :: rest =>
      if b .& 0x80 =? 0 then Some (b, 1%nat)
      else
        let num := Z.to_nat (b .& 0x7F) in
        if (length data <? num + 1)%nat then None else
        Some (foldl (fun len byte => (u64 (len .<< 8)) .| byte) 0 (take num rest), (1 + num)%nat)
  end.

(** The scan for the decoder's part: descriptors are skipped as a whole.
    Sums that leave 64 bits panic. *)
Fixpoint esds_scan (fuel : nat) (esds : bytes) (i : Z) : result (option bytes) :=
  match fuel with
  | O => NoFuel
  | S fuel =>
      if i + 2 <? zlen esds then
        let tag := nth (Z.to_nat i) esds 0 in
        if tag =? 0x05 then
          match read_ber_len (drop (Z.to_nat i + 1) esds) with
          | None => Ok None
          | Some (len, n) =>
              let start := i + 1 + Z.of_nat n in
              if 2 ^ 64 <=? start + len then Panic else
              if start + len <=? zlen esds
              then b ← slice esds (Z.to_nat start) (Z.to_nat (start + len)); Ok (Some b)
              else Ok None
          end
        else if (tag =? 0x03) || (tag =? 0x04) then
          match read_ber_len (drop (Z.to_nat i + 1) esds) with
          | None => Ok None
          | Some (len, n) =>
              let next := i + 1 + Z.of_nat n + len in
              if 2 ^ 64 <=? next + 2 then Panic else esds_scan fuel esds next
          end
        else Ok None
      else Ok None
  end.

Definition parse_esds_asc (esds : bytes) : result (option bytes) :=
  if zlen esds <=? 4 then Ok None else esds_scan (S (length esds)) esds 4.

Definition extract_aac_config (entry : bytes) : result bytes :=
  asc ← (match find_child_box entry (ascii "esds") with Some esds => parse_esds_asc esds | None => Ok None end);
  Ok (default [0x12; 0x10] asc).

Definition parse_stsd (stsd : bytes) (k : TrackKind) : result (CodecId * bytes) :=
  if (length stsd <? 8)%nat then bail else
  if be_at stsd 4 =? 0 then bail else
  boxes ← walk_top_boxes_vec (drop 8 stsd);
  '(name, entry) ← need (first_box boxes);
  if negb (length name =? 4)%nat then bail else
  let named (s : string) := bool_decide (name = ascii s) in
  match k with
  | KindVideo =>
      if named "avc1" || named "avc3" then Ok (H264, extract_avcc entry)
      else if named "hvc1" || named "hev1" then Ok (H265, extract_hvcc entry)
      else bail
  | KindAudio => if named "mp4a" then config ← extract_aac_config entry; Ok (AAC, config) else bail
  | KindOther => bail
  end.

(** ** Tables *)

Definition ensure_table_entries (body_len header_len : nat) (entry_count entry_size : Z) : result unit :=
  if 2 ^ 64 <=? entry_count * entry_size then bail else
  if 2 ^ 64 <=? Z.of_nat header_len + entry_count * entry_size then bail else
  if Z.of_nat body_len <? Z.of_nat header_len + entry_count * entry_size then bail else Ok tt.

(** The [count] big-endian integers of [width] bytes from [pos] on. *)
Definition table (width count : nat) (data : bytes) : list Z :=
  (fun i => from_be (take width (drop (i * width) data))) <$> seq 0 count.

(** The entries of a table that begins with a count. *)
Definition counted_table (width per : nat) (data : bytes) : result (list Z) :=
  if (length data <? 8)%nat then bail else
  let count := be_at data 4 in
  _ ← ensure_table_entries (length data) 8 count (Z.of_nat (width * per));
  Ok (table width (Z.to_nat count * per) (drop 8 data)).

(** Runs of [count] samples of [delta] ticks. *)
Fixpoint stts_runs (expected : nat) (entries : list Z) (out : list Z) : result (list Z) :=
  match entries with
  | count :: delta :: entries =>
      if Z.of_nat expected <? zlen out + count then bail
      else stts_runs expected entries (out ++ replicate (Z.to_nat count) delta)
  | _ => Ok out
  end.

Definition parse_stts (stts : bytes) (expected_samples : nat) : result (list Z) :=
  entries ← counted_table 4 2 stts;
  out ← stts_runs expected_samples entries [];
  if (length out =? expected_samples)%nat then Ok out else bail.

Fixpoint stsc_entries (l : list Z) : list (Z * Z * Z) :=
  match l with
  | first_chunk :: samples_per_chunk :: sample_desc :: l => (first_chunk, samples_per_chunk, sample_desc) :: stsc_entries l
  | _ => []
  end.

Definition parse_stsc (stsc : bytes) : result (list (Z * Z * Z)) := stsc_entries <$> counted_table 4 3 stsc.

Definition parse_stsz (stsz : bytes) (file_len : nat) : result (list Z) :=
  if (length stsz <? 12)%nat then bail else
  let sample_size := be_at stsz 4 in
  let count := be_at stsz 8 in
  if negb (sample_size =? 0) then
    if Z.of_nat file_len / sample_size <? count then bail else Ok (replicate (Z.to_nat count) sample_size)
  else
    _ ← ensure_table_entries (length stsz) 12 count 4;
    Ok (table 4 (Z.to_nat count) (drop 12 stsz)).

Definition parse_stco (stco : bytes) : result (list Z) := counted_table 4 1 stco.
Definition parse_co64 (co64 : bytes) : result (list Z) := counted_table 8 1 co64.
Definition parse_stss (stss : bytes) : result (list Z) := counted_table 4 1 stss.

(** ** Dimensions and sample rate *)

Definition extract_video_dimensions (c : CodecId) (config : bytes) : result (option (Z * Z)) :=
  if negb (bool_decide (c = H264)) then Ok None else
  if (length config <? 6)%nat then Ok None else
  c5 ← idx config 5;
  let sps_count := c5 .& 0x1F in
  if (sps_count =? 0) || (length config <? 7)%nat then Ok None else
  c6 ← idx config 6;
  c7 ← idx config 7;
  let len := Z.to_nat (from_be [c6; c7]) in
  if (length config <? 8 + len)%nat then Ok None else
  sps_nalu ← slice config 8 (8 + len);
  info ← parse_sps sps_nalu;
  Ok (match info with Some i => Some (info_width i, info_height i) | None => None end).

(** Width, height, frame rate, sample rate. *)
Definition derive_track_params (k : TrackKind) (c : CodecId) (config : bytes) : result (Z * Z * f64 * Z) :=
  match k with
  | KindVideo =>
      if bool_decide (c = H264) || bool_decide (c = H265) then
        dims ← extract_video_dimensions c config;
        Ok (match dims with Some (w, h) => (w, h, FPS_30, 0) | None => (0, 0, 0, 0) end)
      else Ok (0, 0, 0, 0)
  | KindAudio =>
      if bool_decide (c = AAC) then
        asc ← parse_audio_specific_config config;
        Ok (match asc with Some cfg => (0, 0, 0, sample_rate cfg) | None => (0, 0, 0, 0) end)
      else Ok (0, 0, 0, 0)
  | KindOther => Ok (0, 0, 0, 0)
  end.

(** ** The samples of a track *)

(** The sum of the durations before each sample, saturating. *)
Fixpoint timestamps_from (t : Z) (durations : list Z) : list Z :=
  match durations with
  | [] => []
  | d :: ds => t :: timestamps_from (Z.min (2 ^ 64 - 1) (t + d)) ds
  end.

(** [rev().find(|(first_chunk, ..)| first_chunk <= chunk_number)] *)
Definition samples_in_chunk (entries : list (Z * Z * Z)) (chunk_number : Z) : option Z :=
  match List.find (fun e : Z * Z * Z => e.1.1 <=? chunk_number) (reverse entries) with
  | Some (_, samples, _) => Some samples
  | None => None
  end.

(** The numbers of the samples in the chunks, with the chunk's offset: at most
    [total] samples altogether. *)
Fixpoint place_chunks (entries : list (Z * Z * Z)) (chunk_number : Z) (offsets : list Z) (done_ total : nat) :
    list (Z * list nat) :=
  match offsets with
  | [] => []
  | offset :: offsets =>
      let count := match samples_in_chunk entries chunk_number with
                   | Some n => Z.to_nat (Z.min n (Z.of_nat (total - done_)))
                   | None => O
                   end in
      (offset, seq done_ count) :: place_chunks entries (chunk_number + 1) offsets (done_ + count) total
  end.

(** What is known of a track's samples. *)
Record SampleTables : Type := {
  tb_track : Z;
  tb_codec : CodecId;
  tb_timescale : Z;
  tb_sizes : list Z;
  tb_durations : list Z;
  tb_sync : list Z                                 (* empty: all *)
}.

(** [slice.binary_search(&x).is_ok()] of the standard library: [size] entries
    from [base] on are left. *)
Fixpoint search_from (fuel : nat) (l : list Z) (x : Z) (base size : nat) : bool :=
  match fuel with
  | O => nth base l 0 =? x
  | S fuel =>
      if (size <=? 1)%nat then nth base l 0 =? x
      else
        let half := (size / 2)%nat in
        search_from fuel l x (if x <? nth (base + half)%nat l 0 then base else (base + half)%nat) (size - half)%nat
  end.

Definition binary_search (l : list Z) (x : Z) : bool :=
  match l with [] => false | _ => search_from (length l) l x 0 (length l) end.

(** [tick * 1000] overflows for ticks above 2^64/1000: a panic. *)
Definition read_sample (t : SampleTables) (file : bytes) (offset : Z) (i : nat) : result DemuxedSample :=
  let size := nth i (tb_sizes t) 0 in
  let d := if offset + size <=? zlen file then take (Z.to_nat size) (drop (Z.to_nat offset) file) else [] in
  let tick := nth i (timestamps_from 0 (tb_durations t)) 0 in
  if 2 ^ 64 <=? tick * 1000 then Panic else
  let pts := u32 (tick * 1000 / tb_timescale t) in
  Ok {| dx_track_id := tb_track t; dx_codec := tb_codec t; dx_data := d; pts_ms := pts; dts_ms := pts;
        dx_duration_ms := u32 (nth i (tb_durations t) 0 * 1000 / tb_timescale t);
        dx_sync := match tb_sync t with [] => true | l => binary_search l (Z.of_nat i + 1) end;
        dx_config := false |}.

(** The samples of a chunk, one behind the other. *)
Fixpoint read_chunk (t : SampleTables) (file : bytes) (chunk_offset running : Z) (is_ : list nat) : result (list DemuxedSample) :=
  match is_ with
  | [] => Ok []
  | i :: is_ =>
      let size := nth i (tb_sizes t) 0 in
      if 2 ^ 64 <=? chunk_offset + running then bail else
      if 2 ^ 64 <=? chunk_offset + running + size then bail else
      if 2 ^ 64 <=? running + size then bail else
      s ← read_sample t file (chunk_offset + running) i;
      rest ← read_chunk t file chunk_offset (running + size) is_;
      Ok (s :: rest)
  end.

Fixpoint read_chunks (t : SampleTables) (file : bytes) (chunks : list (Z * list nat)) : result (list DemuxedSample) :=
  match chunks with
  | [] => Ok []
  | (offset, is_) :: chunks =>
      l ← read_chunk t file offset 0 is_;
      rest ← read_chunks t file chunks;
      Ok (l ++ rest)
  end.

(** ** Tracks *)

Definition find_tables (minf_boxes : list (bytes * bytes)) : result (list (bytes * bytes)) :=
  match get_box (ascii "stbl") minf_boxes with
  | Some stbl => walk_top_boxes_vec stbl
  | None => Ok minf_boxes
  end.

Definition chunk_offsets (tables : list (bytes * bytes)) : result (list Z) :=
  match get_box (ascii "co64") tables with
  | Some c => parse_co64 c
  | None => stco ← need (get_box (ascii "stco") tables); parse_stco stco
  end.

(** The tables of a track: [None] when it has no samples. *)
Definition read_track (file : bytes) (track_id timescale duration : Z) (k : TrackKind) (tables : list (bytes * bytes)) :
    result (option (DemuxedTrack * list DemuxedSample)) :=
  stsd ← need (get_box (ascii "stsd") tables);
  '(c, config) ← parse_stsd stsd k;
  stsz ← need (get_box (ascii "stsz") tables);
  sizes ← parse_stsz stsz (length file);
  if (length sizes =? 0)%nat then Ok None else
  stts ← need (get_box (ascii "stts") tables);
  durations ← parse_stts stts (length sizes);
  stsc ← need (get_box (ascii "stsc") tables);
  entries ← parse_stsc stsc;
  offsets ← chunk_offsets tables;
  sync ← (match get_box (ascii "stss") tables with Some stss => parse_stss stss | None => Ok [] end);
  let t := {| tb_track := track_id; tb_codec := c; tb_timescale := timescale; tb_sizes := sizes; tb_durations := durations;
              tb_sync := sync |} in
  samples ← read_chunks t file (place_chunks entries 1 offsets 0 (length sizes));
  '(width, height, fps, rate) ← derive_track_params k c config;
  Ok (Some ({| dt_track_id := track_id; handler := k; dt_codec := c; dt_timescale := timescale; dt_duration := duration;
               dt_config := config; sample_count := u32 (zlen sizes); dt_width := width; dt_height := height; dt_fps := fps;
               dt_sample_rate := rate |}, samples)).

Definition parse_trak (trak file : bytes) : result (option (DemuxedTrack * list DemuxedSample)) :=
  boxes ← walk_top_boxes_vec trak;
  tkhd ← need (get_box (ascii "tkhd") boxes);
  match get_box (ascii "mdia") boxes with
  | None => Ok None
  | Some mdia =>
      mdia_boxes ← walk_top_boxes_vec mdia;
      mdhd ← need (get_box (ascii "mdhd") mdia_boxes);
      let timescale := read_mdhd_timescale mdhd in
      if timescale =? 0 then bail else
      hdlr ← need (get_box (ascii "hdlr") mdia_boxes);
      let k := read_hdlr_type hdlr in
      if bool_decide (k = KindOther) then Ok None else
      match get_box (ascii "minf") mdia_boxes with
      | None => Ok None
      | Some minf =>
          minf_boxes ← walk_top_boxes_vec minf;
          tables ← find_tables minf_boxes;
          read_track file (read_tkhd_track_id tkhd) timescale (read_mdhd_duration mdhd) k tables
      end
  end.

(** ** The file *)

(** Insertion into a map ordered by track id. *)
Fixpoint put {A} (key : A -> Z) (x : A) (l : list A) : list A :=
  match l with
  | [] => [x]
  | y :: l' =>
      if key x =? key y then x :: l'
      else if key x <? key y then x :: y :: l'
      else y :: put key x l'
  end.

Definition add_track (d : Mp4Demuxer) (track : DemuxedTrack) (samples : list DemuxedSample) : Mp4Demuxer :=
  {| dm_tracks := put dt_track_id track (dm_tracks d); dm_samples := put fst (dt_track_id track, samples) (dm_samples d) |}.

(** A track that cannot be read is passed over. *)
Fixpoint read_traks (file : bytes) (boxes : list (bytes * bytes)) (d : Mp4Demuxer) : result Mp4Demuxer :=
  match boxes with
  | [] => Ok d
  | (name, body) :: boxes =>
      if negb (bool_decide (name = ascii "trak")) then read_traks file boxes d else
      match parse_trak body file with
      | Ok (Some (track, samples)) => read_traks file boxes (add_track d track samples)
      | Ok None | Err _ => read_traks file boxes d
      | Panic => Panic
      | NoFuel => NoFuel
      end
  end.

Definition from_bytes (file : bytes) : result Mp4Demuxer :=
  top ← walk_top_boxes_vec file;
  moov ← need (get_box (ascii "moov") top);
  _ ← need (get_box (ascii "mdat") top);
  moov_boxes ← walk_top_boxes_vec moov;
  _ ← need (List.find (fun nb : bytes * bytes => bool_decide (nb.1 = ascii "mvhd")) moov_boxes);
  d ← read_traks file moov_boxes {| dm_tracks := []; dm_samples := [] |};
  match dm_tracks d with
  | [] => bail
  | _ => Ok d
  end.

(** ** Frames *)

Definition build_flv_config (t : DemuxedTrack) (config : bytes) : bytes :=
  match handler t, dt_codec t with
  | KindVideo, H264 => [0x17; 0; 0; 0; 0] ++ config
  | KindVideo, H265 => [0x1c; 0; 0; 0; 0] ++ config
  | KindAudio, _ => [0xAF; 0] ++ config
  | _, _ => config
  end.

Definition build_flv_sample (t : DemuxedTrack) (sample : bytes) (is_sync : bool) : bytes :=
  match handler t, dt_codec t with
  | KindVideo, H264 => [0x17; 1; 0; 0; 0] ++ sample
  | KindVideo, H265 => [if is_sync then 0x1c else 0x2c; 1; 0; 0; 0] ++ sample
  | KindAudio, _ => [0xAF; 1] ++ sample
  | _, _ => sample
  end.

Definition make_config_frame (t : DemuxedTrack) : option MediaFrame :=
  match dt_config t with
  | [] => None
  | config =>
      let d := build_flv_config t config in
      match handler t with
      | KindVideo => Some (set_config_frame (with_payload_format (new_video (dt_track_id t) (dt_codec t) 0 0 0 d true) PfFlv) true)
      | KindAudio => Some (set_config_frame (with_payload_format (new_audio (dt_track_id t) (dt_codec t) 0 0 0 d) PfFlv) true)
      | KindOther => None
      end
  end.

Definition make_data_frame (t : DemuxedTrack) (s : DemuxedSample) : option MediaFrame :=
  let d := build_flv_sample t (dx_data s) (dx_sync s) in
  match handler t with
  | KindVideo =>
      Some (with_payload_format (new_video (dt_track_id t) (dt_codec t) (pts_ms s) (pts_ms s) (dts_ms s) d (dx_sync s)) PfFlv)
  | KindAudio => Some (with_payload_format (new_audio (dt_track_id t) (dt_codec t) (pts_ms s) (pts_ms s) (dts_ms s) d) PfFlv)
  | KindOther => None
  end.

Definition find_track (d : Mp4Demuxer) (id : Z) : option DemuxedTrack :=
  List.find (fun t => dt_track_id t =? id) (dm_tracks d).

Definition samples_for (d : Mp4Demuxer) (id : Z) : option (list DemuxedSample) :=
  snd <$> List.find (fun s : Z * list DemuxedSample => s.1 =? id) (dm_samples d).

(** Track by track. *)
Definition to_media_frames (d : Mp4Demuxer) : list MediaFrame :=
  concat ((fun t => match samples_for d (dt_track_id t) with
                    | Some samples => option_list (make_config_frame t) ++ omap (make_data_frame t) samples
                    | None => []
                    end) <$> dm_tracks d).

(** Configurations first, then the samples by presentation time; the sort is
    stable. *)
Definition interleaved_media_frames (d : Mp4Demuxer) : list MediaFrame :=
  let samples := concat ((fun ts : Z * list DemuxedSample => (fun s => (ts.1, s)) <$> ts.2) <$> dm_samples d) in
  omap make_config_frame (dm_tracks d) ++
  omap (fun ts : Z * DemuxedSample => t ← find_track d ts.1; make_data_frame t ts.2)
    (stable_sort (fun a b => pts_ms a.2 <=? pts_ms b.2) samples).

(** ** What is read is well formed *)

Ltac mp4_auto := unfold bail; gives_auto.

Definition sample_wf (s : DemuxedSample) : Prop :=
  bytes_ok (dx_data s) /\ is_u32 (pts_ms s) /\ dts_ms s = pts_ms s.
Definition track_wf (t : DemuxedTrack) : Prop := is_u32 (dt_track_id t) /\ bytes_ok (dt_config t).
Definition boxes_wf (boxes : list (bytes * bytes)) : Prop := Forall (fun nb => bytes_ok nb.2) boxes.
Definition demuxer_wf (d : Mp4Demuxer) : Prop :=
  Forall track_wf (dm_tracks d) /\ Forall (fun ts : Z * list DemuxedSample => Forall sample_wf ts.2) (dm_samples d).

Lemma walk_wf data : bytes_ok data -> gives (walk_top_boxes_vec data) boxes_wf.
Proof.
  intros Hd. apply (gives_loop _ (fun st : Z * bytes * list (bytes * bytes) => bytes_ok st.1.2 /\ boxes_wf st.2)); [|split; [done|constructor]].
  intros [[pos rest] out] [Hr Ho]. cbn [fst snd] in *. unfold walk_step. mp4_auto; try done.
  intros [size hdr] _. mp4_auto; try done. cbn [fst snd]. split; [by apply bytes_ok_drop|].
  apply Forall_app. split; [done|]. constructor; [|constructor]. cbn [snd]. by apply bytes_ok_take, bytes_ok_drop.
Qed.

Lemma find_wf (p : bytes * bytes -> bool) boxes nb : boxes_wf boxes -> List.find p boxes = Some nb -> bytes_ok nb.2.
Proof. intros Hb Hf. apply find_some in Hf as [Hin _]. unfold boxes_wf in Hb. rewrite Forall_forall in Hb. by apply Hb, list_elem_of_In. Qed.

Lemma get_box_wf name boxes : boxes_wf boxes -> gives (need (get_box name boxes)) bytes_ok.
Proof.
  intros Hb. unfold get_box. destruct (List.find _ _) as [nb|] eqn:Hf; [|apply gives_err]. cbn. apply gives_ok.
  eapply find_wf; [|exact Hf]. by apply Forall_reverse.
Qed.

Lemma get_box_some_wf name boxes b : boxes_wf boxes -> get_box name boxes = Some b -> bytes_ok b.
Proof. intros Hb Hg. apply (get_box_wf name boxes Hb). by rewrite Hg. Qed.

Lemma find_child_wf target data b : bytes_ok data -> find_child_box data target = Some b -> bytes_ok b.
Proof.
  induction data as [|x data IH]; intros Hd; [done|]. cbn [find_child_box]. cbv zeta. destruct (_ <? 8)%nat; [done|].
  destruct (bool_decide _ && _); [|by apply IH, (Forall_inv_tail Hd)]. intros [= <-]. by apply bytes_ok_take, (bytes_ok_drop 8 (x :: data)).
Qed.

Lemma esds_wf fuel esds i : bytes_ok esds -> gives (esds_scan fuel esds i) (fun o => bytes_ok (default [0x12; 0x10] o)).
Proof.
  intros He. assert (bytes_ok [0x12; 0x10]) as Hdef by by repeat constructor.
  revert i. induction fuel as [|fuel IH]; intros i; [apply gives_nofuel|]. cbn [esds_scan]. cbv zeta.
  destruct (_ <? _); [|by apply gives_ok]. destruct (_ =? 0x05); [|destruct (_ || _); [|by apply gives_ok]];
    (destruct (read_ber_len _) as [[len n]|]; [|by apply gives_ok]); mp4_auto; try done; try apply IH.
  cbn. by apply bytes_ok_take, bytes_ok_drop.
Qed.

Lemma stsd_wf stsd k : bytes_ok stsd -> gives (parse_stsd stsd k) (fun cc => bytes_ok cc.2).
Proof.
  intros Hs. unfold parse_stsd. mp4_auto. eapply gives_mono; [by apply walk_wf, bytes_ok_drop|]. intros boxes Hb. mp4_auto.
  assert (gives (need (first_box boxes)) (fun nb => bytes_ok nb.2)) as Hf.
  { unfold first_box. repeat case_match; try apply gives_err. destruct (get_box _ boxes) as [b|] eqn:Hg; [|apply gives_err].
    cbn. apply gives_ok. by eapply get_box_some_wf. }
  eapply gives_mono; [exact Hf|]. intros [name entry] He. cbn [snd] in He. mp4_auto.
  assert (forall t, bytes_ok (default [] (find_child_box entry t))) as Hchild.
  { intros t. destruct (find_child_box entry t) eqn:Hc; [by eapply find_child_wf|constructor]. }
  destruct k; mp4_auto; try apply Hchild. unfold extract_aac_config. mp4_auto.
  assert (gives match find_child_box entry (ascii "esds") with Some esds => parse_esds_asc esds | None => Ok None end
            (fun o => bytes_ok (default [0x12; 0x10] o))) as Hasc.
  { destruct (find_child_box entry (ascii "esds")) as [esds|] eqn:Hc; [|apply gives_ok; by repeat constructor].
    unfold parse_esds_asc. mp4_auto; [by repeat constructor|]. eapply esds_wf, find_child_wf; done. }
  eapply gives_mono; [exact Hasc|]. intros o Ho. by mp4_auto.
Qed.

Lemma chunk_wf t file offset : bytes_ok file -> forall is_ running, gives (read_chunk t file offset running is_) (Forall sample_wf).
Proof.
  intros Hf. induction is_ as [|i is_ IH]; intros running; cbn [read_chunk]; cbv zeta; [by apply gives_ok|].
  mp4_auto.
  unfold read_sample. cbv zeta. destruct (2 ^ 64 <=? _); mp4_auto.
  all: eapply gives_mono; [apply IH|]; intros rest Hrest; mp4_auto; constructor; [|done].
  all: split_and!; cbn; [case_match; [by apply bytes_ok_take, bytes_ok_drop|constructor]|apply Z.mod_pos_bound; lia|done].
Qed.

Lemma chunks_wf t file chunks : bytes_ok file -> gives (read_chunks t file chunks) (Forall sample_wf).
Proof.
  intros Hf. induction chunks as [|[offset is_] chunks IH]; cbn [read_chunks]; mp4_auto; [constructor|].
  eapply gives_mono; [by apply chunk_wf|]. intros l Hl. mp4_auto. eapply gives_mono; [exact IH|]. intros rest Hrest. mp4_auto.
  by apply Forall_app.
Qed.

Lemma track_read_wf file id ts dur k tables :
  bytes_ok file -> boxes_wf tables -> is_u32 id ->
  gives (read_track file id ts dur k tables)
    (fun o => match o with Some (t, l) => track_wf t /\ Forall sample_wf l | None => True end).
Proof.
  intros Hf Ht Hid. unfold read_track. mp4_auto. eapply gives_mono; [by apply get_box_wf|]. intros stsd Hstsd. mp4_auto.
  eapply gives_mono; [by apply stsd_wf|]. intros [c config] Hc. cbn [snd] in Hc.
  assert (forall t chunks (Q : list DemuxedSample -> Prop), (forall l, Forall sample_wf l -> Q l) -> gives (read_chunks t file chunks) Q) as Hchunks
    by (intros t chunks Q HQ; eapply gives_mono; [by apply chunks_wf|exact HQ]).
  repeat first [progress mp4_auto | done
    | match goal with |- gives (read_chunks _ _ _) _ => apply Hchunks; intros ? ? end
    | match goal with |- gives (derive_track_params _ _ _) _ => intros [[[w h] fps] rate] _ end
    | intros ? _].
Qed.

Lemma trak_wf trak file :
  bytes_ok trak -> bytes_ok file ->
  gives (parse_trak trak file) (fun o => match o with Some (t, l) => track_wf t /\ Forall sample_wf l | None => True end).
Proof.
  intros Ht Hf. unfold parse_trak. mp4_auto. eapply gives_mono; [by apply walk_wf|]. intros boxes Hb. mp4_auto.
  eapply gives_mono; [by apply get_box_wf|]. intros tkhd Htk. destruct (get_box (ascii "mdia") boxes) as [mdia|] eqn:Hmdia; [|by mp4_auto].
  mp4_auto. eapply gives_mono; [eapply walk_wf, get_box_some_wf; done|]. intros mb Hmb. mp4_auto. intros mdhd _. cbv zeta. mp4_auto.
  intros hdlr _. mp4_auto; [done|]. destruct (get_box (ascii "minf") mb) as [minf|] eqn:Hminf; [|by mp4_auto]. mp4_auto.
  eapply gives_mono; [eapply walk_wf, get_box_some_wf; done|]. intros nb Hnb. mp4_auto.
  assert (gives (find_tables nb) boxes_wf) as Htab.
  { unfold find_tables. destruct (get_box (ascii "stbl") nb) as [stbl|] eqn:Hs; [eapply walk_wf, get_box_some_wf; done|by mp4_auto]. }
  eapply gives_mono; [exact Htab|]. intros tables Htables. apply track_read_wf; [done..|].
  unfold read_tkhd_track_id. case_match; [|done]. unfold be_at, is_u32.
  pose proof (from_be_bound (take 4 (drop 12 tkhd)) ltac:(by apply bytes_ok_take, bytes_ok_drop)) as Hbe.
  assert (256 ^ zlen (take 4 (drop 12 tkhd)) <= 256 ^ 4) as Hp by (apply Z.pow_le_mono_r; unfold zlen; rewrite ?length_take; lia).
  change (2 ^ 32) with (256 ^ 4). lia.
Qed.

Lemma put_wf {A} (key : A -> Z) (P : A -> Prop) x l : P x -> Forall P l -> Forall P (put key x l).
Proof. intros Hx. induction 1 as [|y l Hy Hl IH]; cbn [put]; [by repeat constructor|]. repeat case_match; by repeat constructor. Qed.

Lemma traks_wf file boxes d : bytes_ok file -> boxes_wf boxes -> demuxer_wf d -> gives (read_traks file boxes d) demuxer_wf.
Proof.
  intros Hf Hb. revert d. induction Hb as [|[name body] boxes Hbody Hb IH]; intros d Hd; cbn [read_traks]; mp4_auto; [done|by apply IH|].
  pose proof (trak_wf body file Hbody Hf) as Htrak.
  destruct (parse_trak body file) as [[[t l]|]|e| |]; [|by apply IH|by apply IH|apply gives_panic|apply gives_nofuel].
  destruct (Htrak _ eq_refl) as [Ht Hl]. apply IH. destruct Hd as [Hd1 Hd2]. split; cbn; by apply put_wf.
Qed.

Lemma from_bytes_wf file : bytes_ok file -> gives (from_bytes file) demuxer_wf.
Proof.
  intros Hf. unfold from_bytes. mp4_auto. eapply gives_mono; [by apply walk_wf|]. intros top Htop. mp4_auto.
  eapply gives_mono; [by apply get_box_wf|]. intros moov Hmoov. mp4_auto. intros ? _. mp4_auto.
  eapply gives_mono; [by apply walk_wf|]. intros mb Hmb. mp4_auto. intros ? _. mp4_auto.
  eapply gives_mono; [apply traks_wf; [done|done|split; constructor]|]. intros d Hd. case_match; by mp4_auto.
Qed.

Lemma data_frame_wf t s f : track_wf t -> sample_wf s -> make_data_frame t s = Some f ->
  frame_ok f /\ config_frame f = false /\ timestamp f = pts_ms s /\ pts f = pts_ms s /\ dts f = pts_ms s.
Proof.
  intros [Hid _] (Hdata & Hpts & Hdts) Hf. unfold make_data_frame in Hf.
  assert (bytes_ok (build_flv_sample t (dx_data s) (dx_sync s))) as Hd.
  { unfold build_flv_sample. repeat case_match; try done; apply bytes_ok_app; (split; [by repeat constructor|done]). }
  assert (is_u64 (pts_ms s)) as H64 by (unfold is_u32, is_u64 in *; lia).
  destruct (handler t); [| |done]; injection Hf as <-; cbn; rewrite Hdts; by split_and!.
Qed.

Lemma find_track_wf d id t : demuxer_wf d -> find_track d id = Some t -> track_wf t.
Proof. intros [Hd _] Hf. apply find_some in Hf as [Hin _]. rewrite Forall_forall in Hd. by apply Hd, list_elem_of_In. Qed.

(** The samples in the order of their presentation times. *)
Definition sample_le (a b : Z * DemuxedSample) : bool := pts_ms a.2 <=? pts_ms b.2.
Definition all_samples (d : Mp4Demuxer) : list (Z * DemuxedSample) :=
  concat ((fun ts : Z * list DemuxedSample => (fun s => (ts.1, s)) <$> ts.2) <$> dm_samples d).

Lemma all_samples_wf d : demuxer_wf d -> Forall (fun ts => sample_wf ts.2) (all_samples d).
Proof.
  intros [_ Hd]. apply Forall_concat, Forall_fmap. eapply Forall_impl; [exact Hd|]. intros [id l] Hl. cbn in *. by apply Forall_fmap.
Qed.

Lemma sorted_samples_wf d : demuxer_wf d -> Forall (fun ts => sample_wf ts.2) (stable_sort sample_le (all_samples d)).
Proof. intros Hd. rewrite (stable_sort_permutation sample_le). by apply all_samples_wf. Qed.
