(* ===== verification/Mp4Trip.v ===== *)
(** * Mp4Trip: recordings are read back

    The composition of [Mp4Mux] and [Mp4Demux]: boxes written are walked,
    tables written are parsed, the samples of a finalized recording are found
    in the file, and what is lost on the way. *)

From S2P Require Import Prelude Frame F64 Audio AnnexB Payload Gop Bmff Utf8 Mp4Mux Mp4Demux.
#[local] Open Scope Z_scope.
#[local] Set Warnings "-clear-no-such-hyp".

(** ** Boxes *)

Definition named_box (b : abox) : bool := forallb (fun c => (0 <=? c) && (c <? 0x80)) b.1 && (length b.1 =? 4)%nat.

Lemma named_lossy b : named_box b = true -> from_utf8_lossy b.1 = b.1 /\ length b.1 = 4%nat.
Proof.
  unfold named_box. rewrite andb_true_iff, forallb_forall, Nat.eqb_eq. intros [Hc Hl]. split; [|done].
  apply from_utf8_lossy_valid, ascii_valid, Forall_forall. intros c Hin. apply list_elem_of_In, Hc in Hin. lia.
Qed.

Definition box_fits (b : abox) : Prop := named_box b = true /\ zlen b.2 < 2 ^ 31.

Lemma length_encode_box b : length b.1 = 4%nat -> length (encode_box b) = (8 + length b.2)%nat.
Proof. intros Hk. unfold encode_box. by rewrite length_make_box. Qed.

Lemma walk_one b rest pos out :
  box_fits b -> 0 <= pos < 2 ^ 62 ->
  walk_step (pos, encode_box b ++ rest, out) = Ok (inl (pos + (8 + zlen b.2), rest, out ++ [(b.1, b.2)])).
Proof.
  intros [Hn Hz] Hpos. destruct (named_lossy b Hn) as [Hlossy Hk].
  assert (0 <= zlen b.2) by (unfold zlen; lia).
  assert (encode_box b ++ rest = to_be 4 (8 + zlen b.2) ++ b.1 ++ b.2 ++ rest) as Heq.
  { unfold encode_box, make_box, u32. rewrite (Z.mod_small (zlen b.2)), Z.mod_small by lia. by rewrite <-!app_assoc. }
  unfold walk_step. rewrite Heq. set (data := to_be 4 (8 + zlen b.2) ++ b.1 ++ b.2 ++ rest).
  assert (length data = (8 + length b.2 + length rest)%nat) as Hlen
    by (unfold data; rewrite !length_app, length_to_be, Hk; lia).
  rewrite (proj2 (Nat.ltb_ge _ 8)) by lia. unfold read_box_header. rewrite (proj2 (Nat.ltb_ge _ 8)) by lia.
  assert (slice data 0 4 = Ok (to_be 4 (8 + zlen b.2)) :> result bytes) as ->
    by (apply (slice_mid []); rewrite ?length_to_be; done).
  cbn [mbind outcome_bind]. rewrite from_be_to_be_small by lia. rewrite (proj2 (Z.eqb_neq _ 1)) by lia.
  cbn [mbind outcome_bind]. rewrite (proj2 (Z.ltb_ge _ 8)), (proj2 (Z.ltb_ge _ (Z.of_nat 8))), (proj2 (Z.leb_gt _ _)) by lia.
  rewrite (proj2 (Z.ltb_ge (zlen data) _)) by (unfold zlen; rewrite Hlen; lia).
  assert (slice data 4 8 = Ok b.1 :> result bytes) as ->
    by (unfold data; apply slice_mid; rewrite ?length_to_be, ?Hk; done).
  cbn [mbind outcome_bind]. rewrite Hlossy. replace (Z.to_nat (8 + zlen b.2)) with (8 + length b.2)%nat by (unfold zlen; lia).
  assert (slice data 8 (8 + length b.2) = Ok b.2 :> result bytes) as ->.
  { unfold data. rewrite (app_assoc (to_be 4 _)). apply slice_mid; rewrite length_app, length_to_be, Hk; lia. }
  cbn [mbind outcome_bind]. do 4 f_equal. unfold data.
  rewrite !app_assoc, drop_app_length'; [done|]. rewrite !length_app, length_to_be, Hk. lia.
Qed.

(** The boxes of a sequence, in order. *)
Lemma walk_encode bs :
  Forall box_fits bs -> zlen (encode bs) < 2 ^ 62 -> walk_top_boxes_vec (encode bs) = Ok bs.
Proof.
  intros Hbs Hsmall. unfold walk_top_boxes_vec.
  enough (forall fuel pos out, (length (encode bs) < fuel)%nat -> 0 <= pos -> pos + zlen (encode bs) < 2 ^ 62 ->
    loop fuel walk_step (pos, encode bs, out) = Ok (out ++ bs)) as H by (apply (H _ 0 []); lia).
  clear Hsmall. induction Hbs as [|b bs Hb _ IH]; intros fuel pos out Hf Hp Hs.
  { destruct fuel; [lia|]. cbn. by rewrite app_nil_r. }
  change (encode (b :: bs)) with (encode_box b ++ encode bs) in *.
  pose proof (length_encode_box b (proj2 (named_lossy b (proj1 Hb)))) as Hl.
  rewrite length_app, Hl in Hf. unfold zlen in Hs. rewrite length_app, Hl in Hs.
  destruct fuel as [|fuel]; [lia|]. cbn [loop]. rewrite (walk_one b) by (done || lia).
  destruct b as [k d]. rewrite IH; [by rewrite <-app_assoc|lia|unfold zlen in *; cbn [snd] in *; lia|unfold zlen in *; cbn [snd] in *; lia].
Qed.

(** A type that stands nowhere before the box of that type. *)
Lemma find_child_skip x data target :
  take 4 (drop 3 data) <> target -> (7 <= length data)%nat ->
  find_child_box (x :: data) target = find_child_box data target.
Proof.
  intros Hne Hl. cbn [find_child_box]. rewrite (proj2 (Nat.ltb_ge _ 8)) by (cbn [length]; lia). cbv zeta.
  change (drop 4 (x :: data)) with (drop 3 data). by rewrite bool_decide_eq_false_2.
Qed.

Lemma find_child_here k d rest :
  length k = 4%nat -> zlen d < 2 ^ 31 -> find_child_box (encode_box (k, d) ++ rest) k = Some d.
Proof.
  intros Hk Hd. assert (0 <= zlen d) by (unfold zlen; lia).
  assert (encode_box (k, d) ++ rest = to_be 4 (8 + zlen d) ++ k ++ d ++ rest) as ->.
  { unfold encode_box, make_box, u32. cbn [fst snd]. rewrite (Z.mod_small (zlen d)), Z.mod_small by lia. by rewrite <-!app_assoc. }
  assert (exists x data, to_be 4 (8 + zlen d) ++ k ++ d ++ rest = x :: data) as (x & data & Heq) by (cbn [to_be app]; eauto).
  rewrite Heq. cbn [find_child_box]. rewrite <-Heq. clear Heq.
  set (whole := to_be 4 (8 + zlen d) ++ k ++ d ++ rest).
  assert (length whole = (8 + length d + length rest)%nat) as Hlen by (unfold whole; rewrite !length_app, length_to_be, Hk; lia).
  rewrite (proj2 (Nat.ltb_ge _ 8)) by lia. cbv zeta.
  assert (take 4 whole = to_be 4 (8 + zlen d)) as -> by (apply (take_app_length' _ _ 4); by rewrite length_to_be).
  rewrite from_be_to_be_small by lia. rewrite (proj2 (Z.leb_le 8 _)) by lia.
  assert (drop 4 whole = k ++ d ++ rest) as -> by (apply (drop_app_length' _ _ 4); by rewrite length_to_be).
  rewrite (take_app_length' k _ 4) by done. rewrite bool_decide_eq_true_2 by done.
  rewrite (proj2 (Z.leb_le _ _)) by (unfold zlen; lia). cbn [andb].
  assert (drop 8 whole = d ++ rest) as -> by (unfold whole; rewrite app_assoc; apply drop_app_length'; rewrite length_app, length_to_be, Hk; done).
  replace (Z.to_nat (8 + zlen d) - 8)%nat with (length d) by (unfold zlen; lia). by rewrite take_app_length.
Qed.

(** ** Sample descriptions *)

Lemma short_size n : 0 <= n < 2 ^ 16 -> exists x y, to_be 4 n = [0; 0; x; y].
Proof.
  intros Hn. eexists _, _. rewrite to_be_4. f_equal; [|f_equal].
  - rewrite Z.div_small by lia. done.
  - rewrite Z.div_small by lia. done.
Qed.

Ltac skip_byte := rewrite find_child_skip; [|cbn [drop take]; congruence|cbn [length]; lia].

(** The dimensions do not spell a box type. *)
Definition dims_ok (width height : Z) : Prop :=
  to_be 2 (u16 width) ++ to_be 2 (u16 height) <> ascii "avcC" /\
  to_be 2 (u16 width) ++ to_be 2 (u16 height) <> ascii "hvcC".

Lemma find_visual width height (k : bytes) config :
  k = ascii "avcC" \/ k = ascii "hvcC" -> dims_ok width height -> zlen config < 2 ^ 15 ->
  find_child_box (mp4_visual_fields width height ++ encode_box (k, config)) k = Some config.
Proof.
  intros Hk [Hd1 Hd2] Hc. unfold dims_ok in *. rewrite !to_be_2 in Hd1, Hd2. unfold mp4_visual_fields. rewrite !to_be_2.
  set (w1 := (u16 width / 256) mod 256) in *. set (w2 := u16 width mod 256) in *.
  set (h1 := (u16 height / 256) mod 256) in *. set (h2 := u16 height mod 256) in *. clearbody w1 w2 h1 h2.
  rewrite <-(app_nil_r (encode_box (k, config))).
  pose proof (find_child_here k config [] ltac:(by destruct Hk as [-> | ->]) ltac:(lia)) as Hhere.
  assert (0 <= 8 + zlen config < 2 ^ 16) as Hsz by (unfold zlen in *; lia).
  destruct (short_size _ Hsz) as (x & y & Hxy).
  assert (encode_box (k, config) ++ [] = [0; 0; x; y] ++ k ++ config) as Heq.
  { unfold encode_box, make_box, u32. cbn [fst snd]. rewrite (Z.mod_small (zlen config)), Z.mod_small by (unfold zlen in *; lia).
    by rewrite Hxy, app_nil_r. }
  rewrite Heq in *. set (tail := [0; 0; x; y] ++ k ++ config) in *.
  change (ascii "avcC") with [97; 118; 99; 67] in *. change (ascii "hvcC") with [104; 118; 99; 67] in *.
  change (to_be 4 0) with [0; 0; 0; 0]. change (to_be 4 0x00480000) with [0; 72; 0; 0]. cbv [replicate].
  repeat match goal with |- context [(?z / 256) mod 256 :: ?l] => let v := eval vm_compute in ((z / 256) mod 256) in
    change ((z / 256) mod 256) with v; let v := eval vm_compute in (z mod 256) in change (z mod 256) with v end.
  cbn [app] in *. unfold tail in *. clear tail.
  destruct Hk as [-> | ->]; cbn [app] in *; do 78 skip_byte; exact Hhere.
Qed.

Lemma rate_bytes x : exists a b, to_be 4 (u32 (x .<< 16)) = [a; b; 0; 0].
Proof.
  eexists _, _. unfold u32. rewrite Z.shiftl_mul_pow2 by lia.
  replace ((x * 2 ^ 16) mod 2 ^ 32) with ((x mod 2 ^ 16) * 2 ^ 16) by (change (2 ^ 32) with (2 ^ 16 * 2 ^ 16); by rewrite Z.mul_mod_distr_r).
  rewrite to_be_4. f_equal. f_equal. assert (forall y, (y * 2 ^ 16) mod 256 = 0) as Hm.
  { intros y. change (2 ^ 16) with (256 * 256). rewrite Z.mul_assoc. by apply Z.mod_mul. }
  rewrite Hm. f_equal. replace (x mod 2 ^ 16 * 2 ^ 16 / 256) with (x mod 2 ^ 16 * 256) by (change (2 ^ 16) with (256 * 256) at 3; rewrite Z.mul_assoc; by rewrite Z.div_mul).
  by apply Z.mod_mul.
Qed.

Lemma find_esds rate desc :
  zlen desc < 2 ^ 15 ->
  find_child_box (mp4_audio_fields rate ++ encode_box (ascii_bytes "esds", desc)) (ascii "esds") = Some desc.
Proof.
  intros Hc. unfold mp4_audio_fields. destruct (rate_bytes rate) as (a & b & ->).
  rewrite <-(app_nil_r (encode_box _)).
  pose proof (find_child_here (ascii "esds") desc [] eq_refl ltac:(lia)) as Hhere.
  destruct (short_size (8 + zlen desc) ltac:(unfold zlen in *; lia)) as (x & y & Hxy).
  assert (encode_box (ascii "esds", desc) ++ [] = [0; 0; x; y] ++ ascii "esds" ++ desc) as Heq.
  { unfold encode_box, make_box, u32. cbn [fst snd]. rewrite (Z.mod_small (zlen desc)), Z.mod_small by (unfold zlen in *; lia).
    by rewrite Hxy, app_nil_r. }
  change (ascii_bytes "esds") with (ascii "esds"). rewrite Heq in *. change (ascii "esds") with [101; 115; 100; 115] in *.
  change (to_be 4 0) with [0; 0; 0; 0]. change (to_be 2 0) with [0; 0]. change (to_be 2 1) with [0; 1].
  change (to_be 2 2) with [0; 2]. change (to_be 2 16) with [0; 16]. cbn [app] in *.
  do 28 skip_byte. exact Hhere.
Qed.

(** The scan skips a descriptor with tag 3 as a whole. *)
Lemma esds_skip n body :
  length body = n -> (21 <= n < 128)%nat -> parse_esds_asc (0 :: 0 :: 0 :: 0 :: 3 :: Z.of_nat n :: body) = Ok None.
Proof.
  intros Hb Hn. set (esds := 0 :: 0 :: 0 :: 0 :: 3 :: Z.of_nat n :: body).
  assert (zlen esds = 6 + Z.of_nat n) as Hz by (unfold zlen, esds; cbn [length]; lia).
  assert (nth (Z.to_nat 4) esds 0 = 3) as H4 by reflexivity.
  assert (drop (Z.to_nat 4 + 1) esds = Z.of_nat n :: body) as H5 by reflexivity.
  assert (Z.of_nat n .& 0x80 = 0) as Hbit.
  { transitivity (((Z.of_nat n / 2 ^ 7) mod 2 ^ 1) * 2 ^ 7); [by apply (land_mask (Z.of_nat n) 7 1)|].
    by rewrite Z.div_small by lia. }
  assert (S (length esds) = S (S (length esds - 1))) as Hfuel by (unfold zlen in Hz; lia).
  unfold parse_esds_asc. rewrite Hfuel. clearbody esds. rewrite (proj2 (Z.leb_gt _ 4)) by lia. cbn [esds_scan].
  rewrite Hz, H4, H5. rewrite (proj2 (Z.ltb_lt _ _)) by lia. cbn [Z.eqb Pos.eqb orb]. unfold read_ber_len. rewrite Hbit. cbn [Z.eqb].
  rewrite (proj2 (Z.leb_gt (2 ^ 64) _)) by lia. rewrite (proj2 (Z.ltb_ge _ (6 + Z.of_nat n))) by lia. done.
Qed.

Lemma ber_small n : (n < 128)%nat -> put_ber_length n = [Z.of_nat n].
Proof. intros Hn. unfold put_ber_length. cbv zeta. by rewrite (proj2 (Z.ltb_lt _ 128)) by lia. Qed.

(** The reader never finds the decoder's part in what the writer wrote. *)
Lemma esds_lost asc :
  (length asc <= 100)%nat -> parse_esds_asc (to_be 4 0 ++ build_esds_descriptors asc) = Ok None.
Proof.
  intros Hl. unfold build_esds_descriptors. cbv zeta. set (dc_data := [64; 21; 0; 0; 3; 0; 0; 3; 0; 0]).
  set (dec_specific := [5; u8 (zlen asc)] ++ asc).
  set (decoder_config := [4] ++ put_ber_length _ ++ dc_data ++ dec_specific).
  assert (length decoder_config = (14 + length asc)%nat) as Hdc.
  { unfold decoder_config, dec_specific. rewrite ber_small by (rewrite !length_app; cbn [length dc_data]; change (length dc_data) with 10%nat; lia).
    rewrite !length_app. change (length dc_data) with 10%nat. cbn [length]. lia. }
  clearbody decoder_config. set (n := (length _ + length decoder_config + length _)%nat).
  assert (n = (21 + length asc)%nat) as Hn by (unfold n; cbn [length]; lia). rewrite ber_small by lia.
  apply esds_skip; [|lia]. rewrite !length_app. unfold n. cbn [length]. lia.
Qed.

(** What is recorded of a track's codec, and read back. *)
Definition video_config_ok (c : CodecId) (config : bytes) : Prop :=
  head config = Some 1 /\ zlen config < 2 ^ 15 /\
  ((c = H264 /\ (8 <= length config)%nat) \/ (c = H265 /\ (23 <= length config)%nat)).

Lemma first_box_single name body : first_box [(name, body)] = Some (name, body).
Proof. unfold first_box, get_box. cbn. by rewrite bool_decide_eq_true_2. Qed.

Lemma entry_fits k fields b :
  length (ascii_bytes k) = 4%nat -> named_box (ascii_bytes k, []) = true -> length b.1 = 4%nat -> zlen fields < 2 ^ 10 -> zlen b.2 < 2 ^ 16 ->
  box_fits (ascii_bytes k, fields ++ encode_box b).
Proof.
  intros Hk Hn Hb Hf Hz. split; [exact Hn|]. cbn [snd]. unfold zlen in *. rewrite length_app, length_encode_box by done. lia.
Qed.

Lemma parse_stsd_entry e (k : TrackKind) :
  box_fits e ->
  parse_stsd (to_be 4 0 ++ to_be 4 1 ++ encode [e]) k =
  let named (s : string) := bool_decide (e.1 = ascii s) in
  match k with
  | KindVideo =>
      if named "avc1" || named "avc3" then Ok (H264, extract_avcc e.2)
      else if named "hvc1" || named "hev1" then Ok (H265, extract_hvcc e.2)
      else bail
  | KindAudio => if named "mp4a" then config ← extract_aac_config e.2; Ok (AAC, config) else bail
  | KindOther => bail
  end.
Proof.
  intros He. unfold parse_stsd. rewrite (proj2 (Nat.ltb_ge _ 8)) by (rewrite !length_app, !length_to_be; lia).
  assert (drop 8 (to_be 4 0 ++ to_be 4 1 ++ encode [e]) = encode [e]) as -> by done.
  assert (be_at (to_be 4 0 ++ to_be 4 1 ++ encode [e]) 4 = 1) as -> by done. cbn [Z.eqb].
  rewrite walk_encode; [|by constructor|].
  - cbn [mbind outcome_bind]. destruct e as [name body]. rewrite first_box_single. cbn [need mbind outcome_bind fst snd].
    pose proof (proj2 (named_lossy _ (proj1 He))) as Hk. cbn [fst] in Hk. by rewrite Hk.
  - unfold encode, zlen. cbn [fmap list_fmap concat]. rewrite app_nil_r.
    rewrite length_encode_box by apply (named_lossy _ (proj1 He)). destruct He as [_ Hz]. unfold zlen in Hz. lia.
Qed.

Lemma stsd_video c config width height :
  video_config_ok c config -> dims_ok width height ->
  exists stsd, write_stsd c config width height = Ok (ascii_bytes "stsd", stsd) /\
    parse_stsd stsd KindVideo = Ok (c, config) /\ zlen stsd < 2 ^ 17.
Proof.
  intros (Hh & Hz & Hc) Hd. unfold write_stsd, mp4_sample_entry, parse_avcc_config, parse_hvcc_config.
  assert (zlen (mp4_visual_fields width height) < 2 ^ 10) as Hf
    by (unfold mp4_visual_fields, zlen; rewrite !length_app, !length_to_be, length_replicate; lia).
  destruct Hc as [[-> Hl]|[-> Hl]]; rewrite bool_decide_eq_true_2, (proj2 (Nat.leb_le _ _)) by (done || lia);
    cbn [andb mbind outcome_bind]; eexists; (split; [reflexivity|]); (split; [|]).
  - rewrite parse_stsd_entry by (apply entry_fits; (done || (cbn [snd]; lia))). cbn [fst snd].
    unfold extract_avcc. change (ascii_bytes "avcC") with (ascii "avcC"). rewrite find_visual by auto. done.
  - unfold zlen in *. rewrite !length_app, !length_to_be. cbn [encode fmap list_fmap concat]. rewrite app_nil_r.
    rewrite length_encode_box by done. cbn [snd]. rewrite length_app, length_encode_box by done. cbn [snd]. lia.
  - rewrite parse_stsd_entry by (apply entry_fits; (done || (cbn [snd]; lia))). cbn [fst snd].
    unfold extract_hvcc. change (ascii_bytes "hvcC") with (ascii "hvcC"). rewrite find_visual by auto. done.
  - unfold zlen in *. rewrite !length_app, !length_to_be. cbn [encode fmap list_fmap concat]. rewrite app_nil_r.
    rewrite length_encode_box by done. cbn [snd]. rewrite length_app, length_encode_box by done. cbn [snd]. lia.
Qed.

(** The decoder configuration of AAC is not read back: the default is. *)
Lemma stsd_audio config :
  (length config <= 100)%nat ->
  exists stsd, write_stsd AAC config 0 0 = Ok (ascii_bytes "stsd", stsd) /\
    parse_stsd stsd KindAudio = Ok (AAC, [0x12; 0x10]) /\ zlen stsd < 2 ^ 17.
Proof.
  intros Hl. unfold write_stsd, mp4_sample_entry. cbv zeta. cbn [mbind outcome_bind]. eexists. split; [reflexivity|].
  set (asc := match config with [] => _ | _ => _ end). assert (length asc <= 100)%nat as Ha by (unfold asc; destruct config; cbn in *; lia).
  assert (zlen (to_be 4 0 ++ build_esds_descriptors asc) < 2 ^ 10) as Hd.
  { assert (forall n, (length (put_ber_length n) <= 3)%nat) as Hber by (intros n; unfold put_ber_length; cbv zeta; repeat case_match; cbn; lia).
    unfold build_esds_descriptors, zlen. cbv zeta. rewrite !length_app, length_to_be.
    repeat match goal with |- context [length (put_ber_length ?n)] => pose proof (Hber n); generalize dependent (length (put_ber_length n)); intros end.
    cbn [length] in *. lia. }
  assert (zlen (mp4_audio_fields (config_to_sample_rate config)) < 2 ^ 10) as Hf
    by (unfold mp4_audio_fields, zlen; rewrite !length_app, !length_to_be; lia).
  split.
  - rewrite parse_stsd_entry by (apply entry_fits; (done || (cbn [snd]; lia))). cbn [fst snd].
    unfold extract_aac_config. rewrite find_esds by lia. rewrite esds_lost by done. done.
  - unfold zlen in *. rewrite !length_app, !length_to_be in *. cbn [encode fmap list_fmap concat]. rewrite app_nil_r.
    rewrite length_encode_box by done. cbn [snd]. rewrite length_app, length_encode_box by done. cbn [snd].
    rewrite length_app, length_to_be. lia.
Qed.

(** ** Tables *)

Lemma table_S width n data : table width (S n) data = from_be (take width data) :: table width n (drop width data).
Proof.
  unfold table. cbn [seq fmap list_fmap]. f_equal. rewrite <-seq_shift. rewrite <-list_fmap_compose.
  apply list_fmap_ext. intros i x _. cbn. do 2 f_equal. by rewrite drop_drop.
Qed.

Definition fits (width : nat) (x : Z) : Prop := 0 <= x < 256 ^ Z.of_nat width.

Lemma table_written width l : Forall (fits width) l -> table width (length l) (concat (to_be width <$> l)) = l.
Proof.
  induction 1 as [|x l Hx _ IH]; [done|]. cbn [length fmap list_fmap concat]. rewrite table_S.
  rewrite take_app_length', drop_app_length' by (by rewrite length_to_be). by rewrite from_be_to_be_small, IH.
Qed.

Lemma length_table_bytes width (l : list Z) : length (concat (to_be width <$> l)) = (width * length l)%nat.
Proof. induction l as [|x l IH]; cbn [fmap list_fmap concat length]; [lia|]. rewrite length_app, length_to_be, IH. lia. Qed.

Lemma counted_written width per count l :
  Forall (fits width) l -> length l = (count * per)%nat -> (width * per <= 16)%nat -> Z.of_nat count < 2 ^ 32 ->
  counted_table width per (to_be 4 0 ++ to_be 4 (Z.of_nat count) ++ concat (to_be width <$> l)) = Ok l.
Proof.
  intros Hl Hlen Hper Hc. unfold counted_table. rewrite (proj2 (Nat.ltb_ge _ 8)) by (rewrite !length_app, !length_to_be; lia).
  assert (be_at (to_be 4 0 ++ to_be 4 (Z.of_nat count) ++ concat (to_be width <$> l)) 4 = Z.of_nat count) as ->.
  { unfold be_at. rewrite drop_app_length', take_app_length' by (by rewrite length_to_be). apply from_be_to_be_small. lia. }
  cbv zeta. unfold ensure_table_entries. rewrite !length_app, !length_to_be, length_table_bytes, Hlen.
  assert (0 <= Z.of_nat (width * per) <= 16) as Hw by lia. set (wp := Z.of_nat (width * per)) in *.
  assert (Z.of_nat (width * (count * per)) = Z.of_nat count * wp) as Heq by (unfold wp; nia).
  rewrite (proj2 (Z.leb_gt _ (Z.of_nat count * wp))), (proj2 (Z.leb_gt _ (Z.of_nat 8 + _))) by nia.
  rewrite (proj2 (Z.ltb_ge _ _)) by nia. cbn [mbind outcome_bind]. rewrite Nat2Z.id. f_equal.
  rewrite <-Hlen. assert (forall r, drop 8 (to_be 4 0 ++ to_be 4 (Z.of_nat count) ++ r) = r) as ->; [|by apply table_written].
  intros r. rewrite app_assoc. apply drop_app_length'. by rewrite length_app, !length_to_be.
Qed.

(** *** Durations *)

Definition expand (runs : list (Z * Z)) : list Z := concat ((fun e => replicate (Z.to_nat e.1) e.2) <$> runs).

Lemma expand_runs ds :
  expand (duration_runs ds) = ds /\ Forall (fun e => 0 < e.1 <= zlen ds /\ e.2 ∈ ds) (duration_runs ds) /\
  (length (duration_runs ds) <= length ds)%nat.
Proof.
  induction ds as [|d ds (IH1 & IH2 & IH3)]; [split_and!; [done|constructor|done]|].
  cbn [duration_runs]. destruct (duration_runs ds) as [|[c dur] runs].
  { unfold expand in IH1. cbn in IH1. subst ds. split_and!; [done| |done]. constructor; [|constructor]. cbn. split; [unfold zlen; cbn; lia|left]. }
  apply Forall_cons in IH2 as [[Hc Hin] IH2]. cbn [fst snd] in *.
  assert (zlen (d :: ds) = 1 + zlen ds) as Hz by (unfold zlen; cbn [length]; lia).
  assert (Forall (fun e : Z * Z => 0 < e.1 <= zlen (d :: ds) /\ e.2 ∈ d :: ds) runs) as Hruns.
  { eapply Forall_impl; [exact IH2|]. intros e [? ?]. split; [lia|by right]. }
  destruct (Z.eqb_spec d dur) as [->|Hne].
  - split_and!; [|constructor; [cbn; split; [lia|by right]|exact Hruns]|cbn [length] in *; lia].
    unfold expand in *. cbn [fmap list_fmap concat fst snd] in *. 
    replace (Z.to_nat (c + 1)) with (S (Z.to_nat c)) by lia. cbn [replicate List.app]. by rewrite IH1.
  - split_and!; [|constructor; [cbn; split; [unfold zlen in *; lia|left]|constructor; [cbn; split; [lia|by right]|exact Hruns]]|cbn [length] in *; lia].
    unfold expand in *. cbn [fmap list_fmap concat fst snd] in *. cbn [Z.to_nat Pos.to_nat Pos.iter_op replicate List.app]. by rewrite IH1.
Qed.

Lemma stts_runs_expand expected runs : forall out,
  Forall (fun e => 0 <= e.1) runs -> (length out + length (expand runs) <= expected)%nat ->
  stts_runs expected (concat ((fun e => [e.1; e.2]) <$> runs)) out = Ok (out ++ expand runs).
Proof.
  induction runs as [|[c d] runs IH]; intros out Hc Hlen; cbn [fmap list_fmap concat List.app fst snd stts_runs].
  { unfold expand. cbn. by rewrite app_nil_r. }
  apply Forall_cons in Hc as [Hc0 Hc]. cbn [fst snd] in *.
  unfold expand in *. cbn [fmap list_fmap concat fst snd] in *. rewrite length_app, length_replicate in Hlen.
  rewrite (proj2 (Z.ltb_ge _ _)) by (unfold zlen; lia).
  rewrite IH; [by rewrite <-app_assoc|done|rewrite length_app, length_replicate; lia].
Qed.

Lemma pairs_bytes (runs : list (Z * Z)) :
  concat ((fun e => to_be 4 e.1 ++ to_be 4 e.2) <$> runs) = concat (to_be 4 <$> concat ((fun e => [e.1; e.2]) <$> runs)).
Proof. induction runs as [|[c d] runs IH]; [done|]. cbn [fmap list_fmap concat List.app fst snd]. by rewrite <-app_assoc, IH. Qed.

Lemma length_pairs (runs : list (Z * Z)) : length (concat ((fun e => [e.1; e.2]) <$> runs)) = (length runs * 2)%nat.
Proof. induction runs as [|r runs IH]; [done|]. cbn [fmap list_fmap concat List.app length]. rewrite IH. lia. Qed.

Definition durations (samples : list SampleEntry) : list Z := (fun s => Z.max 1 (entry_duration s)) <$> samples.

Lemma stts_written samples :
  samples <> [] -> zlen samples < 2 ^ 31 -> Forall (fun s => entry_duration s < 2 ^ 32) samples ->
  exists stts, write_stts samples = (ascii_bytes "stts", stts) /\ parse_stts stts (length samples) = Ok (durations samples) /\
    zlen stts <= 8 + 8 * zlen samples.
Proof.
  intros Hne Hz Hd. destruct samples as [|s0 samples0] eqn:Hs; [done|]. rewrite <-Hs in *. clear Hne.
  assert (write_stts samples = (ascii_bytes "stts", to_be 4 0 ++ to_be 4 (u32 (zlen (duration_runs (durations samples)))) ++
    concat ((fun e => to_be 4 e.1 ++ to_be 4 e.2) <$> duration_runs (durations samples)))) as -> by by rewrite Hs.
  eexists. split; [reflexivity|]. destruct (expand_runs (durations samples)) as (Hexp & Hall & Hlen).
  set (runs := duration_runs (durations samples)) in *. assert (length (durations samples) = length samples) as Hld by apply length_fmap.
  rewrite pairs_bytes. unfold u32. rewrite Z.mod_small by (unfold zlen in *; lia). unfold zlen at 1 in Hz. split.
  - unfold parse_stts. rewrite (counted_written 4 2 (length runs)); [| |apply length_pairs|lia|lia].
    + cbn [mbind outcome_bind]. rewrite stts_runs_expand.
      * cbn [mbind outcome_bind List.app]. by rewrite Hexp, Hld, Nat.eqb_refl.
      * eapply Forall_impl; [exact Hall|]. intros e [? _]. lia.
      * rewrite Hexp, Hld. done.
    + apply Forall_concat, Forall_fmap. eapply Forall_impl; [exact Hall|]. intros e [He Hin]. unfold durations in Hin.
      apply list_elem_of_fmap in Hin as (s & Hse & Hin). rewrite Forall_forall in Hd. specialize (Hd s Hin).
      repeat constructor; cbn; unfold zlen in *; lia.
  - unfold zlen. rewrite !length_app, !length_to_be, length_table_bytes, length_pairs. lia.
Qed.

(** *** Chunks, sizes, offsets *)

Lemma stsc_written n :
  (0 < n)%nat -> Z.of_nat n < 2 ^ 32 -> parse_stsc (write_stsc n).2 = Ok [(1, Z.of_nat n, 1)].
Proof.
  intros Hn Hz. unfold write_stsc. destruct n as [|n]; [lia|]. cbn [snd]. unfold u32. rewrite Z.mod_small by lia.
  unfold parse_stsc. pose proof (counted_written 4 3 1 [1; Z.of_nat (S n); 1]) as H. cbn [fmap list_fmap concat] in H.
  rewrite app_nil_r in H. change (Z.of_nat 1) with 1 in H. rewrite H; [done| |done|lia|done].
  repeat constructor; cbn; lia.
Qed.

Lemma stco_written offset : 0 <= offset < 2 ^ 32 -> parse_stco (write_stco offset).2 = Ok [offset].
Proof.
  intros Ho. unfold write_stco, parse_stco. cbn [snd]. pose proof (counted_written 4 1 1 [offset]) as H.
  cbn [fmap list_fmap concat] in H. rewrite app_nil_r in H. change (Z.of_nat 1) with 1 in H.
  apply H; [|done|lia|done]. repeat constructor; cbn; lia.
Qed.

Definition sum (l : list Z) : Z := foldr Z.add 0 l.

Lemma sum_replicate n x : sum (replicate n x) = Z.of_nat n * x.
Proof. induction n as [|n IH]; [done|]. cbn [replicate sum foldr]. unfold sum in IH. rewrite IH. lia. Qed.

Lemma all_equal (first : Z) l : forallb (fun s => s =? first) l = true -> l = replicate (length l) first.
Proof. induction l as [|x l IH]; [done|]. cbn. rewrite andb_true_iff, Z.eqb_eq. intros [-> H]. by rewrite <-IH. Qed.

Lemma stsz_written sizes file_len :
  Forall (fits 4) sizes -> zlen sizes < 2 ^ 31 -> sum sizes <= Z.of_nat file_len ->
  parse_stsz (write_stsz sizes).2 file_len = Ok sizes.
Proof.
  intros Hs Hz Hsum. unfold write_stsz. cbv zeta. set (same := match sizes with [] => 0 | _ => _ end). cbn [snd].
  set (tail := if same =? 0 then _ else _). unfold u32. rewrite Z.mod_small by (unfold zlen in *; lia).
  assert (fits 4 same) as Hsame.
  { unfold same. destruct Hs as [|x l Hx _]; [done|]. destruct (forallb _ _); done. }
  unfold parse_stsz. rewrite (proj2 (Nat.ltb_ge _ 12)) by (rewrite !length_app, !length_to_be; lia).
  assert (be_at (to_be 4 0 ++ to_be 4 same ++ to_be 4 (zlen sizes) ++ tail) 4 = same) as ->.
  { unfold be_at. rewrite drop_app_length', take_app_length' by (by rewrite length_to_be). by apply from_be_to_be_small. }
  assert (be_at (to_be 4 0 ++ to_be 4 same ++ to_be 4 (zlen sizes) ++ tail) 8 = zlen sizes) as ->.
  { unfold be_at. rewrite app_assoc. rewrite drop_app_length', take_app_length' by (rewrite ?length_app, ?length_to_be; done).
    apply from_be_to_be_small. unfold zlen in *. lia. }
  cbv zeta. unfold tail. destruct (Z.eqb_spec same 0) as [H0|Hne]; cbn [negb].
  - unfold ensure_table_entries, zlen in *. rewrite !length_app, !length_to_be, length_table_bytes.
    rewrite (proj2 (Z.leb_gt _ _)), (proj2 (Z.leb_gt _ (Z.of_nat 12 + _))), (proj2 (Z.ltb_ge _ _)) by lia.
    cbn [mbind outcome_bind]. rewrite Nat2Z.id. f_equal. rewrite !app_assoc, drop_app_length' by (rewrite !length_app, !length_to_be; done).
    by apply table_written.
  - assert (sizes = replicate (length sizes) same) as Heq.
    { unfold same in *. destruct sizes as [|x l]; [done|]. destruct (forallb _ _) eqn:Hall; [|done]. by apply all_equal. }
    rewrite (proj2 (Z.ltb_ge _ _)).
    + f_equal. unfold zlen. rewrite Nat2Z.id. by symmetry.
    + rewrite Heq, sum_replicate in Hsum. unfold fits in Hsame. apply Z.div_le_lower_bound; [lia|]. unfold zlen. lia.
Qed.

(** *** Samples *)

(** A sample as it is read back, from its number and data. *)
Definition sample_of (t : SampleTables) (i : nat) (d : bytes) : DemuxedSample :=
  let pts := u32 (nth i (timestamps_from 0 (tb_durations t)) 0 * 1000 / tb_timescale t) in
  {| dx_track_id := tb_track t; dx_codec := tb_codec t; dx_data := d; pts_ms := pts; dts_ms := pts;
     dx_duration_ms := u32 (nth i (tb_durations t) 0 * 1000 / tb_timescale t); dx_sync := true; dx_config := false |}.

Lemma sum_nonneg ds : Forall (fun d => 0 <= d) ds -> 0 <= sum ds.
Proof. induction 1 as [|d ds Hd _ IH]; [done|]. cbn [sum foldr]. unfold sum in IH. lia. Qed.

Lemma timestamps_bound ds : forall t, 0 <= t -> Forall (fun d => 0 <= d) ds ->
  Forall (fun x => 0 <= x <= t + sum ds) (timestamps_from t ds).
Proof.
  induction ds as [|d ds IH]; intros t Ht Hd; cbn [timestamps_from]; [constructor|]. apply Forall_cons in Hd as [Hd Hds].
  pose proof (sum_nonneg ds Hds).
  constructor; [cbn [sum foldr]; unfold sum in *; lia|]. eapply Forall_impl; [apply (IH (Z.min (2 ^ 64 - 1) (t + d)) ltac:(lia) Hds)|].
  intros x Hx. cbn beta in Hx. cbn [sum foldr]. unfold sum in *. lia.
Qed.

Lemma nth_bound i ds : Forall (fun d => 0 <= d) ds -> 0 <= nth i (timestamps_from 0 ds) 0 <= sum ds.
Proof.
  intros Hd. destruct (nth_in_or_default i (timestamps_from 0 ds) 0) as [Hin| ->].
  - pose proof (timestamps_bound ds 0 ltac:(lia) Hd) as H. rewrite Forall_forall in H.
    apply list_elem_of_In, H in Hin. lia.
  - pose proof (sum_nonneg ds Hd). lia.
Qed.

Lemma chunk_read t file offset datas : forall i running pre post,
  file = pre ++ concat datas ++ post -> zlen pre = offset + running -> 0 <= offset -> 0 <= running -> zlen file < 2 ^ 62 ->
  drop i (tb_sizes t) = zlen <$> datas -> tb_sync t = [] -> Forall (fun d => 0 <= d) (tb_durations t) ->
  sum (tb_durations t) * 1000 < 2 ^ 64 ->
  read_chunk t file offset running (seq i (length datas)) = Ok (imap (fun k d => sample_of t (i + k) d) datas).
Proof.
  induction datas as [|d datas IH]; intros i running pre post Hfile Hpre Ho Hr Hsmall Hsizes Hsync Hdur Hsum; [done|].
  cbn [length seq read_chunk]. cbv zeta.
  assert (nth i (tb_sizes t) 0 = zlen d) as Hsize.
  { apply (f_equal head) in Hsizes. cbn [fmap list_fmap head] in Hsizes.
    assert (tb_sizes t !! i = Some (zlen d)) as Hl by (rewrite <-Hsizes, head_lookup, lookup_drop, Nat.add_0_r; done).
    by apply nth_lookup_Some. }
  rewrite Hsize. cbn [concat] in Hfile. assert (zlen file = zlen pre + zlen d + zlen (concat datas ++ post)) as Hz.
  { rewrite Hfile. unfold zlen. rewrite !length_app. lia. }
  assert (0 <= zlen d /\ 0 <= zlen (concat datas ++ post)) as [Hd0 Hp0] by (unfold zlen; lia).
  rewrite !(proj2 (Z.leb_gt (2 ^ 64) _)) by lia.
  unfold read_sample. cbv zeta. rewrite Hsize, Hsync. rewrite (proj2 (Z.leb_le (offset + running + zlen d) (zlen file))) by lia.
  pose proof (nth_bound i (tb_durations t) Hdur) as Hn. rewrite (proj2 (Z.leb_gt _ _)) by lia. cbn [mbind outcome_bind].
  assert (take (Z.to_nat (zlen d)) (drop (Z.to_nat (offset + running)) file) = d) as ->.
  { rewrite <-Hpre, Hfile. unfold zlen. rewrite !Nat2Z.id, drop_app_length, <-app_assoc, take_app_length. done. }
  rewrite (IH (S i) (running + zlen d) (pre ++ d) post).
  - cbn [mbind outcome_bind]. f_equal. cbn [imap]. rewrite Nat.add_0_r. f_equal.
    apply imap_ext. intros k x _. cbn. by rewrite Nat.add_succ_r.
  - rewrite Hfile. by rewrite <-!app_assoc.
  - unfold zlen in *. rewrite length_app. lia.
  - done.
  - lia.
  - done.
  - rewrite <-Nat.add_1_r. rewrite <-drop_drop, Hsizes. done.
  - done.
  - done.
  - done.
Qed.

(** ** Tracks *)

Lemma zlen_encode_cons b bs : named_box b = true -> zlen (encode (b :: bs)) = 8 + zlen b.2 + zlen (encode bs).
Proof.
  intros Hn. change (encode (b :: bs)) with (encode_box b ++ encode bs). unfold zlen.
  rewrite length_app, length_encode_box by apply (named_lossy b Hn). lia.
Qed.

Ltac encode_sizes := rewrite ?zlen_encode_cons by done; cbn [snd]; change (zlen (encode [])) with 0.

(** Boxes of constant size. *)
Lemma fixed_sizes id dur w h ts video :
  zlen (mp4_tkhd id dur w h).2 = 84 /\ zlen (mp4_mdhd ts dur).2 = 24 /\ zlen (mp4_hdlr video).2 = 38 /\
  zlen (mp4_media_header video).2 <= 12 /\ zlen mp4_dinf.2 = 28.
Proof. split_and!; [done|done|by destruct video|by destruct video|done]. Qed.

Lemma tkhd_id id dur w h : is_u32 id -> read_tkhd_track_id (mp4_tkhd id dur w h).2 = id.
Proof.
  intros Hid. unfold read_tkhd_track_id. rewrite (proj2 (Nat.leb_le 16 _)) by (cbn; lia).
  change (be_at (mp4_tkhd id dur w h).2 12) with (from_be (to_be 4 id)). by apply from_be_to_be_small.
Qed.

Lemma mdhd_times ts dur : is_u32 ts -> is_u32 dur ->
  read_mdhd_timescale (mp4_mdhd ts dur).2 = ts /\ read_mdhd_duration (mp4_mdhd ts dur).2 = dur.
Proof.
  intros Hts Hd. unfold read_mdhd_timescale, read_mdhd_duration.
  rewrite (proj2 (Nat.leb_le 16 _)), (proj2 (Nat.leb_le 20 _)) by (cbn; lia).
  change (be_at (mp4_mdhd ts dur).2 12) with (from_be (to_be 4 ts)). change (be_at (mp4_mdhd ts dur).2 16) with (from_be (to_be 4 dur)).
  split; by apply from_be_to_be_small.
Qed.

Definition kind_of (video : bool) : TrackKind := if video then KindVideo else KindAudio.

(** The sample tables of a recorded track. *)
Definition recorded_tables (id ts : Z) (c : CodecId) (samples : list SampleEntry) : SampleTables :=
  {| tb_track := id; tb_codec := c; tb_timescale := ts; tb_sizes := (fun s => zlen (entry_data s)) <$> samples;
     tb_durations := durations samples; tb_sync := [] |}.

Definition recorded_samples (id ts : Z) (c : CodecId) (samples : list SampleEntry) : list DemuxedSample :=
  imap (sample_of (recorded_tables id ts c samples)) (entry_data <$> samples).

(** A track's samples, as far as the tables can express them. *)
Record samples_ok (samples : list SampleEntry) : Prop := {
  so_ne : samples <> [];
  so_count : zlen samples < 2 ^ 21;
  so_durations : Forall (fun s => entry_duration s < 2 ^ 32) samples;
  so_total : sum (durations samples) * 1000 < 2 ^ 64
}.

Lemma place_single n offset :
  place_chunks [(1, Z.of_nat n, 1)] 1 [offset] 0 n = [(offset, seq 0 n)].
Proof.
  unfold place_chunks, samples_in_chunk. cbn [reverse List.find rev_append fst snd]. change (1 <=? 1) with true. cbv iota.
  do 3 f_equal. lia.
Qed.

Lemma samples_data_sum samples : sum ((fun s => zlen (entry_data s)) <$> samples) = zlen (samples_data samples).
Proof.
  unfold samples_data. induction samples as [|s samples IH]; [done|]. cbn [fmap list_fmap concat]. unfold zlen in *.
  rewrite length_app. cbn [sum foldr]. unfold sum in IH. rewrite IH. lia.
Qed.

Lemma sizes_exact samples : zlen (samples_data samples) < 2 ^ 31 ->
  sample_sizes samples = (fun s => zlen (entry_data s)) <$> samples /\
  Forall (fits 4) ((fun s => zlen (entry_data s)) <$> samples).
Proof.
  unfold samples_data. induction samples as [|s samples IH]; intros Hz; [split; constructor|].
  cbn [fmap list_fmap concat] in *. unfold zlen in Hz. rewrite length_app in Hz.
  destruct IH as [IH1 IH2]; [unfold zlen; lia|]. unfold sample_sizes in *. cbn [fmap list_fmap]. split.
  - rewrite IH1. f_equal. unfold u32. apply Z.mod_small. unfold zlen. lia.
  - constructor; [|done]. unfold fits, zlen. cbn. lia.
Qed.

(** The boxes of a recorded track's minf. *)
Definition recorded_minf (video : bool) (stsd : bytes) (samples : list SampleEntry) (offset : Z) : list abox :=
  [mp4_media_header video; mp4_dinf; (ascii "stsd", stsd); write_stts samples; write_stsc (length samples);
   write_stsz (sample_sizes samples); write_stco offset].

Lemma table_names samples :
  write_stts samples = (ascii "stts", (write_stts samples).2) /\
  write_stsc (length samples) = (ascii "stsc", (write_stsc (length samples)).2).
Proof. unfold write_stts, write_stsc. by destruct samples. Qed.

Lemma get_recorded video stsd samples offset :
  let m := recorded_minf video stsd samples offset in
  get_box (ascii "stsd") m = Some stsd /\ get_box (ascii "stsz") m = Some (write_stsz (sample_sizes samples)).2 /\
  get_box (ascii "stts") m = Some (write_stts samples).2 /\ get_box (ascii "stsc") m = Some (write_stsc (length samples)).2 /\
  get_box (ascii "co64") m = None /\ get_box (ascii "stco") m = Some (write_stco offset).2 /\
  get_box (ascii "stss") m = None /\ get_box (ascii "stbl") m = None.
Proof.
  cbv zeta. unfold recorded_minf. destruct (table_names samples) as [-> ->]. unfold write_stsz, write_stco. cbv zeta. cbn [snd].
  destruct video; split_and!; reflexivity.
Qed.

Lemma read_track_recorded video id ts dur k c config stsd samples offset file pre post :
  parse_stsd stsd k = Ok (c, config) -> (exists params, derive_track_params k c config = Ok params) ->
  samples_ok samples -> file = pre ++ samples_data samples ++ post -> zlen pre = offset -> zlen file < 2 ^ 31 ->
  exists track,
    read_track file id ts dur k (recorded_minf video stsd samples offset) =
    Ok (Some (track, recorded_samples id ts c samples)) /\
    dt_track_id track = id /\ handler track = k /\ dt_codec track = c /\ dt_config track = config /\ dt_timescale track = ts /\
    dt_duration track = dur.
Proof.
  intros Hstsd ([[[w h] fps] rate] & Hpar) [Hne Hcount Hdur Htotal] Hfile Hpre Hsmall.
  assert (zlen file = zlen pre + zlen (samples_data samples) + zlen post) as Hz
    by (rewrite Hfile; unfold zlen; rewrite !length_app; lia).
  assert (0 <= zlen pre /\ 0 <= zlen (samples_data samples) /\ 0 <= zlen post) as (? & ? & ?) by (unfold zlen; lia).
  destruct (sizes_exact samples ltac:(lia)) as [Hsizes Hfits].
  destruct (get_recorded video stsd samples offset) as (G1 & G2 & G3 & G4 & G5 & G6 & G7 & _).
  unfold read_track, chunk_offsets. rewrite G1, G2, G3, G4, G5, G6, G7. cbn [need mbind outcome_bind]. rewrite Hstsd.
  cbn [mbind outcome_bind]. rewrite Hsizes, stsz_written;
    [|done|unfold zlen in *; rewrite length_fmap; lia|rewrite samples_data_sum; unfold zlen in *; lia].
  cbn [mbind outcome_bind]. rewrite length_fmap. rewrite (proj2 (Nat.eqb_neq _ 0)) by (by destruct samples).
  destruct (stts_written samples Hne ltac:(lia) Hdur) as (stts & -> & Hstts & _). cbn [snd need mbind outcome_bind]. rewrite Hstts.
  cbn [mbind outcome_bind]. rewrite stsc_written by (destruct samples; unfold zlen in *; cbn [length] in *; (done || lia)).
  cbn [mbind outcome_bind]. rewrite stco_written by lia. cbn [mbind outcome_bind].
  rewrite place_single. cbn [read_chunks].
  fold (recorded_tables id ts c samples).
  replace (seq 0 (length samples)) with (seq 0 (length (entry_data <$> samples))) by (by rewrite length_fmap).
  rewrite (chunk_read _ file offset (entry_data <$> samples) 0 0 pre post); cbn [tb_sizes tb_sync tb_durations recorded_tables];
    [|exact Hfile|lia|lia|lia|lia|by rewrite drop_0, <-list_fmap_compose|done|
     unfold durations; rewrite Forall_fmap; apply Forall_true; intros s; cbn; lia|exact Htotal].
  cbn [mbind outcome_bind]. rewrite Hpar. cbn [mbind outcome_bind]. rewrite app_nil_r. eexists.
  split; [reflexivity|]. by split_and!.
Qed.

Ltac box_list := repeat (apply Forall_cons_2; [split; [done|cbn [snd] in *; lia]|]); by apply Forall_nil_2.

Lemma minf_fits video stsd samples offset :
  zlen stsd < 2 ^ 17 -> samples_ok samples ->
  Forall box_fits (recorded_minf video stsd samples offset) /\ zlen (encode (recorded_minf video stsd samples offset)) < 2 ^ 25.
Proof.
  intros Hstsd [Hne Hcount Hdur _].
  destruct (stts_written samples Hne ltac:(lia) Hdur) as (stts & Hstts & _ & Hz).
  assert (zlen (write_stsz (sample_sizes samples)).2 <= 12 + 4 * zlen samples) as Hsz.
  { unfold write_stsz. cbv zeta. cbn [snd]. unfold zlen. rewrite !length_app, !length_to_be.
    case_match; rewrite ?length_table_bytes; unfold sample_sizes; rewrite ?length_fmap; cbn [length]; lia. }
  assert (zlen (write_stsc (length samples)).2 <= 20) as Hsc by (unfold write_stsc; destruct (length samples) as [|n]; [change (8 <= 20); lia|change (20 <= 20); lia]).
  destruct (table_names samples) as [_ Hscn]. unfold recorded_minf. rewrite Hstts, Hscn.
  set (stsc := (write_stsc (length samples)).2) in *. clearbody stsc.
  change (write_stsz (sample_sizes samples)) with (ascii "stsz", (write_stsz (sample_sizes samples)).2).
  set (stsz := (write_stsz (sample_sizes samples)).2) in *. clearbody stsz.
  destruct (fixed_sizes 0 0 0 0 0 video) as (_ & _ & _ & Hhead & Hdinf).
  assert (named_box (mp4_media_header video) = true) as Hn by by destruct video.
  assert (zlen (write_stco offset).2 = 12) as Hco by reflexivity.
  split.
  - box_list.
  - rewrite !zlen_encode_cons by done. cbn [snd] in *. change (zlen (encode [])) with 0. lia.
Qed.

(** A track is written, and read back from the file that holds its samples. *)
Lemma trak_read video id c config config' width height ts dur samples mdat_offset before_mdat stsd :
  write_stsd c config width height = Ok (ascii_bytes "stsd", stsd) -> zlen stsd < 2 ^ 17 ->
  parse_stsd stsd (kind_of video) = Ok (c, config') -> (exists params, derive_track_params (kind_of video) c config' = Ok params) ->
  is_u32 id -> is_u32 dur -> 0 < ts < 2 ^ 32 -> samples_ok samples -> 0 <= before_mdat + 8 + mdat_offset < 2 ^ 31 ->
  exists trak,
    write_trak id video c config width height ts dur samples mdat_offset before_mdat = Ok (ascii "trak", trak) /\
    zlen trak < 2 ^ 25 + 300 /\
    forall file pre post,
    file = pre ++ samples_data samples ++ post -> zlen pre = before_mdat + 8 + mdat_offset -> zlen file < 2 ^ 31 ->
    exists track, parse_trak trak file = Ok (Some (track, recorded_samples id ts c samples)) /\
      dt_track_id track = id /\ handler track = kind_of video /\ dt_codec track = c /\ dt_config track = config' /\
      dt_timescale track = ts /\ dt_duration track = dur.
Proof.
  intros Hw Hstsd Hparse Hpar Hid Hdur Hts Hs Hoff. set (offset := before_mdat + 8 + mdat_offset) in *.
  destruct (minf_fits video stsd samples offset Hstsd Hs) as [Hfit Hminf].
  destruct (get_recorded video stsd samples offset) as (_ & _ & _ & _ & _ & _ & _ & Hstbl).
  destruct (fixed_sizes id (u32 (dur * 1000 / Z.max 1 ts)) width height ts video) as (Htk & _ & Hhd & _).
  destruct (fixed_sizes id dur width height ts video) as (_ & Hmd & _).
  unfold write_trak, write_stbl. rewrite Hw. cbn [mbind outcome_bind]. fold offset.
  replace (u32 offset) with offset by (unfold u32; rewrite Z.mod_small; lia).
  change (_ :: mp4_dinf :: _) with (recorded_minf video stsd samples offset).
  set (minf := recorded_minf video stsd samples offset) in *.
  set (tkhd := mp4_tkhd id _ width height) in *.
  assert (Forall box_fits [mp4_mdhd ts dur; mp4_hdlr video; (ascii "minf", encode minf)]) as Hmdia by box_list.
  assert (zlen (encode [mp4_mdhd ts dur; mp4_hdlr video; (ascii "minf", encode minf)]) < 2 ^ 25 + 100) as Hmz.
  { rewrite !zlen_encode_cons by done. cbn [snd] in *. change (zlen (encode [])) with 0. lia. }
  set (mdia := encode [mp4_mdhd ts dur; mp4_hdlr video; (ascii "minf", encode minf)]) in *.
  assert (Forall box_fits [tkhd; (ascii "mdia", mdia)]) as Htrak by box_list.
  assert (zlen (encode [tkhd; (ascii "mdia", mdia)]) < 2 ^ 25 + 300) as Htz.
  { rewrite !zlen_encode_cons by done. cbn [snd] in *. change (zlen (encode [])) with 0. lia. }
  exists (encode [tkhd; (ascii "mdia", mdia)]). split; [reflexivity|]. split; [lia|]. intros file pre post Hfile Hpre Hsmall.
  destruct (read_track_recorded video id ts dur (kind_of video) c config' stsd samples offset file pre post
              Hparse Hpar Hs Hfile Hpre Hsmall) as (track & Hread & Htrack).
  exists track. split; [|exact Htrack].
  unfold parse_trak. rewrite walk_encode by (done || lia). cbn [mbind outcome_bind].
  assert (get_box (ascii "tkhd") [tkhd; (ascii "mdia", mdia)] = Some tkhd.2) as -> by reflexivity.
  assert (get_box (ascii "mdia") [tkhd; (ascii "mdia", mdia)] = Some mdia) as -> by reflexivity.
  cbn [need mbind outcome_bind]. unfold mdia. rewrite (walk_encode _ Hmdia) by (fold mdia; lia). cbn [mbind outcome_bind].
  set (boxes := [mp4_mdhd ts dur; mp4_hdlr video; (ascii "minf", encode minf)]).
  assert (get_box (ascii "mdhd") boxes = Some (mp4_mdhd ts dur).2) as -> by reflexivity.
  assert (get_box (ascii "hdlr") boxes = Some (mp4_hdlr video).2) as -> by reflexivity.
  assert (get_box (ascii "minf") boxes = Some (encode minf)) as -> by reflexivity. clear boxes.
  cbn [need mbind outcome_bind]. cbv zeta.
  destruct (mdhd_times ts dur ltac:(unfold is_u32; lia) Hdur) as [-> ->].
  rewrite (proj2 (Z.eqb_neq ts 0)) by lia.
  assert (read_hdlr_type (mp4_hdlr video).2 = kind_of video) as -> by (by destruct video).
  rewrite bool_decide_eq_false_2 by (by destruct video). rewrite walk_encode by (done || lia). cbn [mbind outcome_bind].
  unfold find_tables. rewrite Hstbl. cbn [mbind outcome_bind].
  assert (read_tkhd_track_id tkhd.2 = id) as -> by by apply tkhd_id. exact Hread.
Qed.

(** ** Durations and times *)

Definition times_of (samples : list SampleEntry) : list Z := entry_timestamp <$> samples.

Lemma length_track_durations ts def l : forall prev, length (track_durations ts def prev l) = length l.
Proof. induction l as [|t l IH]; intros prev; [done|]. cbn [track_durations length]. by rewrite IH. Qed.

Lemma track_durations_bounds ts def l : forall prev,
  0 <= ts -> def < 2 ^ 32 -> Forall (fun d => 1 <= d < 2 ^ 32) (track_durations ts def prev l).
Proof.
  induction l as [|t l IH]; intros prev Hts Hdef; [constructor|]. cbn [track_durations]. constructor; [|by apply IH].
  assert (forall d, ticks ts d < 2 ^ 32) as Ht by (intros d; unfold ticks; lia).
  destruct l as [|n l]; [destruct prev as [p|]; cbn [fmap option_fmap option_map]|]; try (pose proof (Ht (Z.max 0 (t - p))); lia); [lia|].
  pose proof (Ht (Z.max 0 (n - t))). lia.
Qed.

Lemma assign_same k l : forall ds, length ds = length (track_samples k l) ->
  track_samples k (assign_durations k ds l) = zip_with set_duration (track_samples k l) ds.
Proof.
  induction l as [|s l IH]; intros ds Hl; [by destruct ds|]. cbn [assign_durations]. unfold track_samples in *. cbn [List.filter] in *.
  destruct (on_track k s) eqn:Hs.
  - destruct ds as [|d ds]; [done|]. cbn [List.filter]. change (on_track k (set_duration s d)) with (on_track k s). rewrite Hs.
    cbn [zip_with]. f_equal. apply IH. cbn [length] in Hl. lia.
  - cbn [List.filter]. rewrite Hs. by apply IH.
Qed.

Lemma assign_other j k l : forall ds, j <> k -> track_samples j (assign_durations k ds l) = track_samples j l.
Proof.
  induction l as [|s l IH]; intros ds Hjk; [done|]. cbn [assign_durations]. unfold track_samples in *.
  destruct (on_track k s) eqn:Hs.
  - assert (on_track j s = false) as Hj by (unfold on_track in *; lia).
    destruct ds as [|d ds]; cbn [List.filter]; [|change (on_track j (set_duration s d)) with (on_track j s)]; rewrite Hj; by apply IH.
  - cbn [List.filter]. by rewrite IH.
Qed.

(** The samples of a track with their durations. *)
Definition timed (ts def : Z) (samples : list SampleEntry) : list SampleEntry :=
  zip_with set_duration samples (track_durations ts def None (times_of samples)).

Lemma timed_fields ts def samples :
  0 <= ts -> def < 2 ^ 32 ->
  entry_data <$> timed ts def samples = entry_data <$> samples /\
  durations (timed ts def samples) = track_durations ts def None (times_of samples) /\
  length (timed ts def samples) = length samples.
Proof.
  intros Hts Hdef. unfold timed. pose proof (length_track_durations ts def (times_of samples) None) as Hl.
  pose proof (track_durations_bounds ts def (times_of samples) None Hts Hdef) as Hb.
  unfold times_of in *. rewrite length_fmap in Hl. generalize dependent (track_durations ts def None (entry_timestamp <$> samples)).
  induction samples as [|s samples IH]; intros [|d ds] Hl Hb; try done. unfold durations in *. apply Forall_cons in Hb as [Hd Hb].
  destruct (IH ds ltac:(cbn in Hl; lia) Hb) as (H1 & H2 & H3). cbn [zip_with fmap list_fmap length].
  rewrite H1, H2, H3. split_and!; [done| |done]. f_equal. cbn. lia.
Qed.

Lemma set_track_same k ts def l : track_samples k (set_track_durations k ts def l) = timed ts def (track_samples k l).
Proof. unfold set_track_durations, timed, times_of. apply assign_same. by rewrite length_track_durations, length_fmap. Qed.

Lemma set_track_other j k ts def l : j <> k -> track_samples j (set_track_durations k ts def l) = track_samples j l.
Proof. apply assign_other. Qed.

Fixpoint increasing (l : list Z) : Prop :=
  match l with
  | x :: (y :: _) as rest => x < y /\ increasing rest
  | _ => True
  end.

(** The ticks before a sample follow its timestamp: each duration loses at
    most [e] thousandths of a tick. *)
Lemma ticks_follow ts def e t0 l : forall prev t acc k i x tick,
  0 <= e -> 1000 <= ts <= 96000 -> (forall d, ts * d - e <= 1000 * (d * ts / 1000)) ->
  increasing (t :: l) -> Forall (fun x => t0 <= x < t0 + 2 ^ 25) (t :: l) -> 0 <= acc -> 0 <= k ->
  ts * (t - t0) - e * k <= 1000 * acc <= ts * (t - t0) ->
  (t :: l) !! i = Some x -> timestamps_from acc (track_durations ts def prev (t :: l)) !! i = Some tick ->
  ts * (x - t0) - e * (k + Z.of_nat i) <= 1000 * tick <= ts * (x - t0).
Proof.
  induction l as [|n l IH]; intros prev t acc k i x tick He Hts Hloss Hinc Hall Hacc Hk Hinv Hx Htick.
  { destruct i as [|i]; [|done]. cbn in Hx, Htick. injection Hx as <-. injection Htick as <-. rewrite Z.add_0_r. exact Hinv. }
  destruct i as [|i]. { cbn in Hx. injection Hx as <-. cbn [track_durations timestamps_from lookup list_lookup] in Htick. injection Htick as <-.
    rewrite Z.add_0_r. exact Hinv. }
  destruct Hinc as [Hlt Hinc]. apply Forall_cons in Hall as [Ht Hall]. pose proof (Forall_inv Hall) as Hn. cbn beta in Ht, Hn.
  change (n :: l) with ([n] ++ l) in Htick. cbn [track_durations app] in Htick. fold (track_durations ts def (Some t) (n :: l)) in Htick.
  cbn [timestamps_from] in Htick. change ((n :: l) !! i = Some x) in Hx.
  set (d := Z.max 1 (ticks ts (Z.max 0 (n - t)))) in *.
  assert (d = (n - t) * ts / 1000) as Hd.
  { unfold d, ticks. rewrite (Z.max_r 0), (Z.max_r 1 (n - t)) by lia.
    assert (1 <= (n - t) * ts / 1000) by (apply Z.div_le_lower_bound; nia).
    assert ((n - t) * ts / 1000 < 2 ^ 32) by (apply Z.div_lt_upper_bound; nia). lia. }
  pose proof (Hloss (n - t)) as H1. rewrite <-Hd in H1.
  assert (1000 * d <= ts * (n - t)) as H2 by (rewrite Hd; pose proof (Z.mul_div_le ((n - t) * ts) 1000); lia).
  assert (1 <= d) by (unfold d; lia).
  assert (Z.min (2 ^ 64 - 1) (acc + d) = acc + d) as Hmin by nia. rewrite Hmin in Htick.
  specialize (IH (Some t) n (acc + d) (k + 1) i x tick He Hts Hloss Hinc Hall).
  replace (k + 1 + Z.of_nat i) with (k + Z.of_nat (S i)) in IH by lia. apply IH; [lia|lia| |exact Hx|exact Htick]. nia.
Qed.

(** ** Recorded samples *)

Lemma imap_data {A} (f : nat -> bytes -> A) (g : A -> bytes) (l : list bytes) :
  (forall i d, g (f i d) = d) -> g <$> imap f l = l.
Proof.
  intros Hf. apply list_eq. intros i. rewrite list_lookup_fmap, list_lookup_imap. destruct (l !! i); [|done]. cbn. by rewrite Hf.
Qed.

Lemma recorded_facts id ts c samples :
  dx_data <$> recorded_samples id ts c samples = entry_data <$> samples /\
  Forall (fun s => dx_sync s = true /\ dx_codec s = c /\ dx_track_id s = id) (recorded_samples id ts c samples).
Proof.
  unfold recorded_samples. split; [by apply imap_data|]. apply Forall_lookup. intros i s.
  rewrite list_lookup_imap. destruct ((entry_data <$> samples) !! i); [|done]. intros [= <-]. done.
Qed.

Lemma length_timestamps_from ds : forall t, length (timestamps_from t ds) = length ds.
Proof. induction ds as [|d ds IH]; intros t; [done|]. cbn [timestamps_from length]. by rewrite IH. Qed.

(** The time of a sample read back, from its timestamp: behind by at most
    [loss] milliseconds for every sample before it. *)
Definition times_kept (loss : Z) (samples : list SampleEntry) (l : list DemuxedSample) : Prop :=
  forall i x s, times_of samples !! i = Some x -> l !! i = Some s ->
    x - default 0 (head (times_of samples)) - loss * Z.of_nat i <= pts_ms s <= x - default 0 (head (times_of samples)) /\
    dts_ms s = pts_ms s.

Lemma recorded_times id ts def c loss samples :
  0 <= loss -> 1000 <= ts <= 96000 -> def < 2 ^ 32 -> (forall d, ts * d - 1000 * loss <= 1000 * (d * ts / 1000)) ->
  increasing (times_of samples) -> Forall (fun x => 0 <= x < 2 ^ 25) (times_of samples) ->
  times_kept loss samples (recorded_samples id ts c (timed ts def samples)).
Proof.
  intros Hl Hts Hdef Hloss Hinc Hall i x s Hx Hs. destruct (timed_fields ts def samples ltac:(lia) Hdef) as (_ & Hdur & _).
  unfold recorded_samples in Hs. rewrite list_lookup_imap in Hs.
  destruct ((entry_data <$> timed ts def samples) !! i) as [d|]; [|done]. injection Hs as <-.
  unfold sample_of. cbn [pts_ms dts_ms recorded_tables tb_durations tb_timescale]. rewrite Hdur. split; [|done].
  remember (times_of samples) as ts_ eqn:Heq. clear Heq Hdur samples. destruct ts_ as [|t0 l]; [done|]. cbn [head from_option]. unfold Datatypes.id.
  destruct (timestamps_from 0 (track_durations ts def None (t0 :: l)) !! i) as [tick|] eqn:Htick.
  2: { apply lookup_ge_None in Htick. rewrite length_timestamps_from, length_track_durations in Htick.
       apply lookup_lt_Some in Hx. lia. }
  pose proof (nth_lookup_Some _ _ 0 _ Htick) as Hnth. rewrite Hnth.
  assert (Forall (fun x => t0 <= x < t0 + 2 ^ 25) (t0 :: l)) as Hrange.
  { pose proof (Forall_inv Hall) as H0. cbn beta in H0. clear -Hinc Hall H0.
    assert (forall l a, increasing (a :: l) -> t0 <= a -> Forall (fun x => 0 <= x < 2 ^ 25) (a :: l) ->
      Forall (fun x => t0 <= x < t0 + 2 ^ 25) (a :: l)) as H; [|by apply H; [exact Hinc|lia|exact Hall]].
    clear -H0. intros l. induction l as [|b l IH]; intros a Hi Ha Hall; apply Forall_cons in Hall as [Hb Hall]; constructor; [lia|constructor|lia|].
    destruct Hi as [Hab Hi]. apply IH; [exact Hi|lia|exact Hall]. }
  pose proof (ticks_follow ts def (1000 * loss) t0 l None t0 0 0 i x tick ltac:(lia) Hts Hloss Hinc Hrange ltac:(lia) ltac:(lia)
                ltac:(lia) Hx Htick) as [Hlo Hhi].
  rewrite Forall_lookup in Hrange. specialize (Hrange i x Hx). cbn beta in Hrange.
  assert (0 <= tick) as Htick0.
  { pose proof (nth_bound i (track_durations ts def None (t0 :: l))) as Hb. rewrite Hnth in Hb. apply Hb.
    eapply Forall_impl; [apply track_durations_bounds; lia|]. intros y Hy. cbn beta in Hy. lia. }
  assert (x - t0 - loss * Z.of_nat i <= tick * 1000 / ts) by (apply Z.div_le_lower_bound; nia).
  assert (tick * 1000 / ts <= x - t0) by (apply Z.div_le_upper_bound; nia).
  assert (0 <= tick * 1000 / ts) by (apply Z.div_pos; lia).
  unfold u32. rewrite Z.mod_small by lia. lia.
Qed.

Lemma sum_le_count n ds : Forall (fun d => 1 <= d < n) ds -> sum ds <= n * zlen ds.
Proof.
  induction 1 as [|d ds Hd _ IH]; [unfold zlen; cbn; lia|]. unfold zlen in *. cbn [sum foldr length]. unfold sum in IH. lia.
Qed.

Lemma timed_ok ts def samples :
  samples <> [] -> 0 <= ts -> def < 2 ^ 32 -> zlen samples < 2 ^ 21 -> samples_ok (timed ts def samples).
Proof.
  intros Hne Hts Hdef Hcount. destruct (timed_fields ts def samples Hts Hdef) as (_ & Hdur & Hlen).
  pose proof (track_durations_bounds ts def (times_of samples) None Hts Hdef) as Hb. constructor.
  - intros H. rewrite H in Hlen. by destruct samples.
  - unfold zlen in *. by rewrite Hlen.
  - rewrite <-Hdur in Hb. unfold durations in Hb. rewrite Forall_fmap in Hb. eapply Forall_impl; [exact Hb|]. intros s Hs. cbn in Hs. lia.
  - rewrite Hdur. pose proof (sum_le_count _ _ Hb) as Hs. unfold zlen in *. rewrite length_track_durations in Hs.
    unfold times_of in *. rewrite length_fmap in Hs. lia.
Qed.

Lemma timed_data ts def samples : 0 <= ts -> def < 2 ^ 32 -> samples_data (timed ts def samples) = samples_data samples.
Proof. intros Hts Hdef. unfold samples_data. by rewrite (proj1 (timed_fields ts def samples Hts Hdef)). Qed.

(** ** The file *)

Definition video_samples (m : Mp4Muxer) : list SampleEntry := track_samples 0 (m4_samples m).
Definition audio_samples (m : Mp4Muxer) : list SampleEntry := track_samples 1 (m4_samples m).
Definition audio_id (m : Mp4Muxer) : Z := match video_samples m with [] => 1 | _ => 2 end.

(** What the recorder may be given for the file to be readable. *)
Record recordable (m : Mp4Muxer) : Prop := {
  rc_samples : video_samples m <> [] \/ audio_samples m <> [];
  rc_video : video_samples m <> [] ->
    video_config_ok (default H264 (m4_video_codec m)) (default [] (m4_video_config m)) /\ dims_ok (m4_width m) (m4_height m);
  rc_audio : audio_samples m <> [] ->
    default AAC (m4_audio_codec m) = AAC /\ (length (default [] (m4_audio_config m)) <= 100)%nat;
  rc_rate : m4_sample_rate m = 0 \/ 1000 <= m4_sample_rate m <= 96000;
  rc_video_count : zlen (video_samples m) < 2 ^ 21;
  rc_audio_count : zlen (audio_samples m) < 2 ^ 21;
  rc_video_size : zlen (samples_data (video_samples m)) < 2 ^ 29;
  rc_audio_size : zlen (samples_data (audio_samples m)) < 2 ^ 29
}.

Lemma idx_in (l : bytes) i : (i < length l)%nat -> exists b, idx l i = Ok b :> result Z.
Proof. intros H. destruct (lookup_lt_is_Some_2 l i H) as [b Hb]. exists b. by apply idx_lookup. Qed.

Lemma sps_read data : exists info, parse_sps data = Ok info.
Proof.
  unfold parse_sps. destruct data as [|d0 data]; [by eexists|]. cbn [length Nat.eqb]. rewrite idx_0. cbn [mbind outcome_bind].
  case_match; [by eexists|]. destruct (7 <=? _)%nat eqn:Hl; [|by eexists]. apply Nat.leb_le in Hl.
  destruct (idx_in (d0 :: data) 3) as [d3 ->]; [cbn [length]; lia|]. destruct (idx_in (d0 :: data) 4) as [d4 ->]; [cbn [length]; lia|].
  destruct (idx_in (d0 :: data) 5) as [d5 ->]; [cbn [length]; lia|]. destruct (idx_in (d0 :: data) 6) as [d6 ->]; [cbn [length]; lia|].
  cbn [mbind outcome_bind]. by eexists.
Qed.

Lemma derive_video c config : video_config_ok c config -> exists params, derive_track_params KindVideo c config = Ok params.
Proof.
  intros (_ & _ & [[-> Hl]|[-> _]]); unfold derive_track_params; [|eexists; reflexivity]. cbv iota.
  rewrite bool_decide_eq_true_2 by done. cbn [orb]. unfold extract_video_dimensions. rewrite bool_decide_eq_true_2 by done. cbn [negb].
  rewrite (proj2 (Nat.ltb_ge _ 6)) by lia. destruct (idx_in config 5) as [c5 ->]; [lia|]. cbn [mbind outcome_bind]. cbv zeta.
  rewrite (proj2 (Nat.ltb_ge _ 7)) by lia. case_match; [cbn [mbind outcome_bind]; by eexists|].
  destruct (idx_in config 6) as [c6 ->]; [lia|]. destruct (idx_in config 7) as [c7 ->]; [lia|]. cbn [mbind outcome_bind].
  case_match eqn:Hlen; [cbn [mbind outcome_bind]; by eexists|]. apply Nat.ltb_ge in Hlen.
  rewrite slice_ok by lia. cbn [mbind outcome_bind]. destruct (sps_read (take (8 + Z.to_nat (from_be [c6; c7]) - 8) (drop 8 config))) as [info ->].
  cbn [mbind outcome_bind]. case_match; eexists; reflexivity.
Qed.

Lemma video_default_small m : Z.max 1 (f64_to_u32 m) < 2 ^ 32.
Proof. unfold f64_to_u32. lia. Qed.

(** The durations the tracks get. *)
Definition video_default (m : Mp4Muxer) : Z :=
  Z.max 1 (f64_to_u32 (f64_div (f64_of_uint 90000) (if f64_positive (m4_fps m) then m4_fps m else FPS_30))).
Definition audio_default (m : Mp4Muxer) : Z := Z.max 1 (audio_timescale m / 44).

Lemma computed_tracks m :
  track_samples 0 (m4_samples (compute_durations m)) = timed 90000 (video_default m) (video_samples m) /\
  track_samples 1 (m4_samples (compute_durations m)) = timed (audio_timescale m) (audio_default m) (audio_samples m).
Proof.
  unfold compute_durations. cbv zeta. cbn [m4_samples m4_set_samples]. unfold video_samples, audio_samples. split.
  - by rewrite set_track_other, set_track_same.
  - by rewrite set_track_same, set_track_other.
Qed.

Lemma timescale_ok m : recordable m -> 1000 <= audio_timescale m <= 96000 /\ audio_default m < 2 ^ 32.
Proof.
  intros [_ _ _ Hr _ _ _ _]. assert (1000 <= audio_timescale m <= 96000) as H by (unfold audio_timescale; case_match; lia).
  split; [done|]. unfold audio_default. assert (audio_timescale m / 44 < 2 ^ 32) by (apply Z.div_lt_upper_bound; lia). lia.
Qed.

Lemma timed_nil ts def samples : 0 <= ts -> def < 2 ^ 32 -> timed ts def samples = [] <-> samples = [].
Proof.
  intros Hts Hdef. destruct (timed_fields ts def samples Hts Hdef) as (_ & _ & Hl).
  split; intros H; [rewrite H in Hl; by destruct samples|by rewrite H].
Qed.

(** A track of the file is the recorded one. *)
Definition track_written (file : bytes) (trak : abox) (id : Z) (video : bool) (c : CodecId) (config : bytes) (ts : Z)
    (samples : list SampleEntry) : Prop :=
  exists body track, trak = (ascii "trak", body) /\ parse_trak body file = Ok (Some (track, recorded_samples id ts c samples)) /\
    dt_track_id track = id /\ handler track = kind_of video /\ dt_codec track = c /\ dt_config track = config /\
    dt_timescale track = ts.

Lemma track_part video id c config config' width height ts def samples offset before stsd :
  samples <> [] -> zlen samples < 2 ^ 21 -> 0 < ts < 2 ^ 32 -> def < 2 ^ 32 -> is_u32 id -> 0 <= before + 8 + offset < 2 ^ 31 ->
  write_stsd c config width height = Ok (ascii_bytes "stsd", stsd) -> parse_stsd stsd (kind_of video) = Ok (c, config') ->
  zlen stsd < 2 ^ 17 -> (exists params, derive_track_params (kind_of video) c config' = Ok params) ->
  exists trak,
    write_trak id video c config width height ts (u32 (total_ticks (timed ts def samples))) (timed ts def samples) offset before = Ok trak /\
    box_fits trak /\ zlen (encode [trak]) < 2 ^ 25 + 400 /\ trak.1 = ascii "trak" /\
    forall file pre post,
      file = pre ++ samples_data samples ++ post -> zlen pre = before + 8 + offset -> zlen file < 2 ^ 31 ->
      track_written file trak id video c config' ts (timed ts def samples).
Proof.
  intros Hne Hcount Hts Hdef Hid Hoff Hw Hp Hz Hpar.
  pose proof (timed_ok ts def samples Hne ltac:(lia) Hdef Hcount) as Hok.
  destruct (trak_read video id c config config' width height ts (u32 (total_ticks (timed ts def samples))) (timed ts def samples)
              offset before stsd Hw Hz Hp Hpar Hid ltac:(apply Z.mod_pos_bound; lia) Hts Hok Hoff) as (trak & Hwrite & Htz & Hread).
  exists (ascii "trak", trak). split; [exact Hwrite|]. split; [split; [done|cbn [snd]; lia]|].
  split; [rewrite zlen_encode_cons by done; cbn [snd]; change (zlen (encode [])) with 0; lia|]. split; [done|].
  intros file pre post Hfile Hpre Hsmall. destruct (Hread file pre post) as (track & Hparse & ? & ? & ? & ? & ? & _); [|lia|done|].
  - by rewrite timed_data by (lia || done).
  - exists trak, track. by split_and!.
Qed.

(** The boxes of a kind of track: none without samples. *)
Definition part_written (traks : list abox) (samples : list SampleEntry) (P : abox -> Prop) : Prop :=
  zlen (encode traks) < 2 ^ 25 + 400 /\ Forall box_fits traks /\
  match samples with [] => traks = [] | _ => exists trak, traks = [trak] /\ trak.1 = ascii "trak" /\ P trak end.

Lemma video_part m before :
  recordable m -> 0 <= before < 100 ->
  exists traks, video_trak (compute_durations m) before = Ok traks /\
    part_written traks (video_samples m) (fun trak => forall file pre post,
      file = pre ++ samples_data (video_samples m) ++ post -> zlen pre = before + 8 + 0 -> zlen file < 2 ^ 31 ->
      track_written file trak 1 true (default H264 (m4_video_codec m)) (default [] (m4_video_config m)) 90000
        (timed 90000 (video_default m) (video_samples m))).
Proof.
  intros Hrc Hb. destruct (computed_tracks m) as [Hv _]. unfold video_trak. rewrite Hv. unfold part_written.
  pose proof (video_default_small (f64_div (f64_of_uint 90000) (if f64_positive (m4_fps m) then m4_fps m else FPS_30))) as Hdef.
  fold (video_default m) in Hdef. pose proof (timed_nil 90000 (video_default m) (video_samples m) ltac:(lia) Hdef) as Hnil.
  destruct (timed 90000 (video_default m) (video_samples m)) as [|s0 ss] eqn:Hs.
  { exists []. by rewrite (proj1 Hnil eq_refl). }
  rewrite <-Hs in *. assert (video_samples m <> []) as Hne by (intros H; apply Hnil in H; rewrite H in Hs; done).
  destruct (rc_video m Hrc Hne) as [Hc Hd]. destruct (stsd_video _ _ _ _ Hc Hd) as (stsd & Hw & Hp & Hz).
  destruct (track_part true 1 _ _ _ (m4_width m) (m4_height m) 90000 (video_default m) (video_samples m) 0 before stsd Hne
              (rc_video_count m Hrc) ltac:(lia) Hdef ltac:(unfold is_u32; lia) ltac:(lia) Hw Hp Hz (derive_video _ _ Hc))
    as (trak & Hwrite & Hfit & Hz' & Hname & Hread).
  exists [trak]. change (m4_video_codec (compute_durations m)) with (m4_video_codec m).
  change (m4_video_config (compute_durations m)) with (m4_video_config m). change (m4_width (compute_durations m)) with (m4_width m).
  change (m4_height (compute_durations m)) with (m4_height m). rewrite Hwrite. cbn [mbind outcome_bind]. split; [done|].
  split; [done|]. split; [by constructor|]. destruct (video_samples m) eqn:Hvs; [done|]. rewrite <-Hvs in *. by exists trak.
Qed.

Lemma audio_part m before :
  recordable m -> 0 <= before < 100 ->
  exists traks, audio_trak (compute_durations m) before = Ok traks /\
    part_written traks (audio_samples m) (fun trak => forall file pre post,
      file = pre ++ samples_data (audio_samples m) ++ post -> zlen pre = before + 8 + zlen (samples_data (video_samples m)) ->
      zlen file < 2 ^ 31 ->
      track_written file trak (audio_id m) false AAC [0x12; 0x10] (audio_timescale m)
        (timed (audio_timescale m) (audio_default m) (audio_samples m))).
Proof.
  intros Hrc Hb. destruct (computed_tracks m) as [Hv Ha]. unfold audio_trak. rewrite Ha, Hv. unfold part_written.
  destruct (timescale_ok m Hrc) as [Hts Hdef].
  pose proof (timed_nil (audio_timescale m) (audio_default m) (audio_samples m) ltac:(lia) Hdef) as Hnil.
  destruct (timed (audio_timescale m) (audio_default m) (audio_samples m)) as [|s0 ss] eqn:Hs.
  { exists []. by rewrite (proj1 Hnil eq_refl). }
  rewrite <-Hs in *. assert (audio_samples m <> []) as Hne by (intros H; apply Hnil in H; rewrite H in Hs; done).
  destruct (rc_audio m Hrc Hne) as [Hc Hl]. destruct (stsd_audio _ Hl) as (stsd & Hw & Hp & Hz).
  pose proof (video_default_small (f64_div (f64_of_uint 90000) (if f64_positive (m4_fps m) then m4_fps m else FPS_30))) as Hvd.
  fold (video_default m) in Hvd. rewrite timed_data by (lia || done).
  pose proof (rc_video_size m Hrc) as Hvz. assert (0 <= zlen (samples_data (video_samples m))) as Hv0 by (unfold zlen; lia).
  replace (u32 (zlen (samples_data (video_samples m)))) with (zlen (samples_data (video_samples m))) by (unfold u32; rewrite Z.mod_small; lia).
  assert (match timed 90000 (video_default m) (video_samples m) with [] => 1 | _ => 2 end = audio_id m) as Hid.
  { unfold audio_id. pose proof (timed_nil 90000 (video_default m) (video_samples m) ltac:(lia) Hvd) as Hvn.
    destruct (timed 90000 _ _), (video_samples m); try done; exfalso; [by discriminate (proj1 Hvn)|by discriminate (proj2 Hvn)]. }
  rewrite Hid. assert (is_u32 (audio_id m)) as Hid32 by (clear; unfold audio_id, is_u32; destruct (video_samples m); lia).
  destruct (track_part false (audio_id m) _ _ _ 0 0 (audio_timescale m) (audio_default m) (audio_samples m)
              (zlen (samples_data (video_samples m))) before stsd Hne (rc_audio_count m Hrc) ltac:(lia) Hdef Hid32 ltac:(lia) Hw Hp Hz
              ltac:(eexists; reflexivity)) as (trak & Hwrite & Hfit & Hz' & Hname & Hread).
  exists [trak]. change (m4_audio_codec (compute_durations m)) with (m4_audio_codec m).
  change (m4_audio_config (compute_durations m)) with (m4_audio_config m).
  change (audio_timescale (compute_durations m)) with (audio_timescale m). rewrite Hc, Hwrite. cbn [mbind outcome_bind]. split; [done|].
  split; [done|]. split; [by constructor|]. destruct (audio_samples m) eqn:Has; [done|]. rewrite <-Has in *. by exists trak.
Qed.

Lemma read_trak_step file trak id video c config ts samples rest d :
  track_written file trak id video c config ts samples ->
  exists track, read_traks file (trak :: rest) d = read_traks file rest (add_track d track (recorded_samples id ts c samples)) /\
    dt_track_id track = id /\ handler track = kind_of video /\ dt_codec track = c /\ dt_config track = config.
Proof.
  intros (body & track & -> & Hparse & Hid & Hk & Hc & Hcfg & _). exists track. split; [|by split_and!].
  cbn [read_traks]. rewrite bool_decide_eq_true_2 by done. cbn [negb]. by rewrite Hparse.
Qed.

(** What is read back of a track: its data in order and its times; every
    sample counts as a sync sample. *)
Definition read_back (d : Mp4Demuxer) (id : Z) (video : bool) (c : CodecId) (config : bytes) (loss : Z)
    (samples : list SampleEntry) : Prop :=
  exists track l, find_track d id = Some track /\ samples_for d id = Some l /\
    handler track = kind_of video /\ dt_codec track = c /\ dt_config track = config /\
    dx_data <$> l = entry_data <$> samples /\ Forall (fun s => dx_sync s = true) l /\
    (increasing (times_of samples) -> Forall (fun x => 0 <= x < 2 ^ 25) (times_of samples) -> times_kept loss samples l).

Lemma read_back_recorded d track id video c config ts def loss samples :
  0 <= loss -> 1000 <= ts <= 96000 -> def < 2 ^ 32 -> (forall x, ts * x - 1000 * loss <= 1000 * (x * ts / 1000)) ->
  find_track d id = Some track -> samples_for d id = Some (recorded_samples id ts c (timed ts def samples)) ->
  handler track = kind_of video -> dt_codec track = c -> dt_config track = config ->
  read_back d id video c config loss samples.
Proof.
  intros Hl Hts Hdef Hloss Ht Hs Hk Hc Hcfg. exists track, (recorded_samples id ts c (timed ts def samples)).
  destruct (recorded_facts id ts c (timed ts def samples)) as [Hdata Hfacts]. split_and!; try done.
  - rewrite Hdata. apply (timed_fields ts def samples); lia.
  - eapply Forall_impl; [exact Hfacts|]. by intros s (? & _).
  - intros Hinc Hall. by apply recorded_times.
Qed.

Lemma video_loss x : 90000 * x - 1000 * 0 <= 1000 * (x * 90000 / 1000).
Proof. replace (x * 90000) with (x * 90 * 1000) by lia. rewrite Z.div_mul by lia. lia. Qed.

Lemma audio_loss ts x : ts * x - 1000 * 1 <= 1000 * (x * ts / 1000).
Proof. pose proof (Z.mod_pos_bound (x * ts) 1000). pose proof (Z.div_mod (x * ts) 1000). lia. Qed.

(** What [finalize] writes. *)
Lemma finalize_file m vt at_ :
  video_samples m <> [] \/ audio_samples m <> [] ->
  video_trak (compute_durations m) 32 = Ok vt -> audio_trak (compute_durations m) 32 = Ok at_ ->
  exists m' mvhd, finalize m = Ok (m', encode [mp4_ftyp; (ascii "mdat", samples_data (track_samples 0 (m4_samples (compute_durations m))) ++
      samples_data (track_samples 1 (m4_samples (compute_durations m)))); (ascii "moov", encode ([mvhd] ++ vt ++ at_))]) /\
    mvhd.1 = ascii "mvhd" /\ zlen mvhd.2 = 100.
Proof.
  intros Hne Hv Ha. unfold finalize.
  destruct (m4_samples m) as [|s l] eqn:Hs.
  { exfalso. destruct Hne as [Hne|Hne]; apply Hne; unfold video_samples, audio_samples; by rewrite Hs. }
  cbv zeta. change (u32 (zlen (encode_box mp4_ftyp))) with 32. rewrite Hv. cbn [mbind outcome_bind]. rewrite Ha. cbn [mbind outcome_bind].
  eexists _, (mp4_mvhd _ _). split; [reflexivity|]. split; reflexivity.
Qed.

Lemma find_mvhd mvhd rest : mvhd.1 = ascii "mvhd" ->
  List.find (fun nb : bytes * bytes => bool_decide (nb.1 = ascii "mvhd")) (mvhd :: rest) = Some mvhd.
Proof. intros H. cbn [List.find]. by rewrite bool_decide_eq_true_2. Qed.

Lemma skip_mvhd file mvhd rest d : mvhd.1 = ascii "mvhd" -> read_traks file (mvhd :: rest) d = read_traks file rest d.
Proof. destruct mvhd as [n b]. cbn [fst]. intros ->. reflexivity. Qed.

(** The walk of the file down to its tracks, and where the media data is. *)
Lemma from_bytes_written mdat (mvhd : abox) (traks : list abox) :
  mvhd.1 = ascii "mvhd" -> zlen mvhd.2 = 100 -> zlen mdat < 2 ^ 30 -> Forall box_fits traks -> zlen (encode traks) < 2 ^ 26 + 800 ->
  let file := encode [mp4_ftyp; (ascii "mdat", mdat); (ascii "moov", encode (mvhd :: traks))] in
  zlen file < 2 ^ 31 /\
  (exists pre post, file = pre ++ mdat ++ post /\ zlen pre = 40) /\
  from_bytes file = (d ← read_traks file traks {| dm_tracks := []; dm_samples := [] |};
                     match dm_tracks d with [] => bail | _ => Ok d end).
Proof.
  intros Hn Hz Hm Hfit Ht file. assert (named_box mvhd = true) as Hnm by (unfold named_box; by rewrite Hn).
  assert (Forall box_fits (mvhd :: traks)) as Hmoov by (constructor; [split; [done|lia]|done]).
  assert (zlen (encode (mvhd :: traks)) < 2 ^ 26 + 1000) as Hmz by (rewrite zlen_encode_cons by done; lia).
  assert (zlen mp4_ftyp.2 = 24) as Hft by reflexivity.
  assert (Forall box_fits [mp4_ftyp; (ascii "mdat", mdat); (ascii "moov", encode (mvhd :: traks))]) as Htop by box_list.
  assert (zlen file < 2 ^ 31) as Hfz.
  { unfold file. rewrite !zlen_encode_cons by done. cbn [snd]. change (zlen (encode [])) with 0. lia. }
  split; [done|]. split.
  - exists (encode_box mp4_ftyp ++ to_be 4 (u32 (8 + u32 (zlen mdat))) ++ ascii "mdat"),
      (encode [(ascii "moov", encode (mvhd :: traks))]). split; [|reflexivity].
    unfold file. change (encode (mp4_ftyp :: ?l)) with (encode_box mp4_ftyp ++ encode l).
    change (encode ((ascii "mdat", mdat) :: ?l)) with (encode_box (ascii "mdat", mdat) ++ encode l).
    unfold encode_box at 2, make_box. cbn [fst snd]. by rewrite <-!app_assoc.
  - pose proof (walk_encode _ Htop ltac:(fold file; lia)) as Hwalk. fold file in Hwalk.
    unfold from_bytes. rewrite Hwalk. cbn [mbind outcome_bind].
    set (moov := encode (mvhd :: traks)) in *.
    assert (get_box (ascii "moov") [mp4_ftyp; (ascii "mdat", mdat); (ascii "moov", moov)] = Some moov) as -> by reflexivity.
    assert (get_box (ascii "mdat") [mp4_ftyp; (ascii "mdat", mdat); (ascii "moov", moov)] = Some mdat) as -> by reflexivity.
    cbn [need mbind outcome_bind]. unfold moov. rewrite (walk_encode _ Hmoov) by (fold moov; lia). cbn [mbind outcome_bind].
    rewrite find_mvhd by done. cbn [need mbind outcome_bind]. by rewrite skip_mvhd.
Qed.

(** One or two tracks in the reader's maps. *)
Lemma single_track d track samples id : dt_track_id track = id ->
  d = add_track {| dm_tracks := []; dm_samples := [] |} track samples ->
  find_track d id = Some track /\ samples_for d id = Some samples /\ length (dm_tracks d) = 1%nat.
Proof.
  intros Hid ->. unfold find_track, samples_for, add_track. cbn [dm_tracks dm_samples put List.find fst snd].
  by rewrite Hid, Z.eqb_refl.
Qed.

Lemma two_tracks d tv sv ta sa : dt_track_id tv = 1 -> dt_track_id ta = 2 ->
  d = add_track (add_track {| dm_tracks := []; dm_samples := [] |} tv sv) ta sa ->
  find_track d 1 = Some tv /\ samples_for d 1 = Some sv /\ find_track d 2 = Some ta /\ samples_for d 2 = Some sa /\
  length (dm_tracks d) = 2%nat.
Proof.
  intros Hv Ha ->. unfold find_track, samples_for, add_track. cbn [dm_tracks dm_samples put List.find fst snd].
  rewrite Hv, Ha. cbn [Z.eqb Pos.eqb Z.ltb Z.compare Pos.compare Pos.compare_cont put List.find fst snd dt_track_id].
  rewrite Hv, Ha. done.
Qed.

Lemma read_traks_nonempty file traks d : dm_tracks d <> [] -> read_traks file traks {| dm_tracks := []; dm_samples := [] |} = Ok d ->
  (d ← read_traks file traks {| dm_tracks := []; dm_samples := [] |}; match dm_tracks d with [] => bail | _ => Ok d end) = Ok d.
Proof. intros Hne ->. cbn [mbind outcome_bind]. by destruct (dm_tracks d). Qed.

(** C10: A recording is read back.  The file [finalize] writes is parsed by the
    reader; each kind of media that has samples is a track with the recorded
    codec, the samples' data in order and, for timestamps that increase, their
    times from the track's first sample: exactly for video, for audio at most
    one millisecond early per preceding sample.  Lost are the sync flags (every
    sample counts as one), the audio decoder configuration (the default is
    read) and the offset between the tracks. *)
Theorem recording_read_back m :
  recordable m ->
  exists m' file d,
    finalize m = Ok (m', file) /\ from_bytes file = Ok d /\
    length (dm_tracks d) = (length (option_list (head (video_samples m))) + length (option_list (head (audio_samples m))))%nat /\
    (video_samples m <> [] ->
      read_back d 1 true (default H264 (m4_video_codec m)) (default [] (m4_video_config m)) 0 (video_samples m)) /\
    (audio_samples m <> [] -> read_back d (audio_id m) false AAC [0x12; 0x10] 1 (audio_samples m)).
Proof.
  intros Hrc. destruct (video_part m 32 Hrc ltac:(lia)) as (vt & Hvt & Hvz & Hvf & Hv).
  destruct (audio_part m 32 Hrc ltac:(lia)) as (at_ & Hat & Haz & Haf & Ha).
  destruct (finalize_file m vt at_ (rc_samples m Hrc) Hvt Hat) as (m' & mvhd & Hfin & Hmn & Hmz).
  destruct (computed_tracks m) as [Hcv Hca]. destruct (timescale_ok m Hrc) as [Hts Hdef].
  assert (video_default m < 2 ^ 32) as Hvd by apply video_default_small.
  rewrite Hcv, Hca, !timed_data in Hfin by (lia || done).
  pose proof (rc_video_size m Hrc). pose proof (rc_audio_size m Hrc).
  set (vd := samples_data (video_samples m)) in *. set (ad := samples_data (audio_samples m)) in *.
  destruct (from_bytes_written (vd ++ ad) mvhd (vt ++ at_)) as (Hfz & (pre & post & Hsplit & Hpre) & Hfrom);
    [done|done|unfold zlen in *; rewrite length_app; lia|by apply Forall_app|
     unfold encode, zlen in *; rewrite fmap_app, concat_app, length_app; lia|].
  cbn [List.app] in Hfin. set (file := encode [mp4_ftyp; (ascii "mdat", vd ++ ad); (ascii "moov", encode (mvhd :: vt ++ at_))]) in *.
  exists m', file. rewrite Hfrom. clear Hfrom. unfold part_written in Hv, Ha.
  assert (video_samples m <> [] -> exists tv, vt = [tv] /\ track_written file tv 1 true (default H264 (m4_video_codec m))
      (default [] (m4_video_config m)) 90000 (timed 90000 (video_default m) (video_samples m))) as Hvt_.
  { intros Hne. destruct (video_samples m) eqn:Hvs; [done|]. rewrite <-Hvs in *. destruct Hv as (tv & -> & _ & Hv). exists tv. split; [done|].
    apply (Hv file pre (ad ++ post)); [by rewrite Hsplit, <-app_assoc|lia|lia]. }
  assert (audio_samples m <> [] -> exists ta, at_ = [ta] /\ track_written file ta (audio_id m) false AAC [0x12; 0x10]
      (audio_timescale m) (timed (audio_timescale m) (audio_default m) (audio_samples m))) as Hat_.
  { intros Hne. destruct (audio_samples m) eqn:Has; [done|]. rewrite <-Has in *. destruct Ha as (ta & -> & _ & Ha). exists ta. split; [done|].
    apply (Ha file (pre ++ vd) post); [by rewrite Hsplit, <-!app_assoc|unfold zlen in *; rewrite length_app; lia|lia]. }
  pose proof (rc_samples m Hrc) as Hsome. pose proof video_loss as Hvl. pose proof (audio_loss (audio_timescale m)) as Hal.
  destruct (decide (video_samples m = [])) as [Hv0|Hv0], (decide (audio_samples m = [])) as [Ha0|Ha0].
  - destruct Hsome; done.
  - rewrite Hv0 in Hv |- *. subst vt. destruct (Hat_ Ha0) as (ta & -> & Hta).
    assert (audio_id m = 1) as Hid by (unfold audio_id; by rewrite Hv0). rewrite Hid in *.
    destruct (read_trak_step _ _ _ _ _ _ _ _ [] {| dm_tracks := []; dm_samples := [] |} Hta) as (tra & Hstep & Hi & Hk & Hc & Hcfg).
    destruct (single_track _ tra (recorded_samples 1 (audio_timescale m) AAC (timed (audio_timescale m) (audio_default m) (audio_samples m))) 1 Hi eq_refl) as (Hf & Hs & Hl). eexists.
    split; [exact Hfin|]. split; [apply read_traks_nonempty; [|exact Hstep]; by destruct (dm_tracks _)|].
    split; [rewrite Hl; by destruct (audio_samples m)|]. split; [done|]. intros _.
    eapply read_back_recorded; [lia|exact Hts|exact Hdef|exact Hal|exact Hf|exact Hs|done..].
  - rewrite Ha0 in Ha |- *. subst at_. destruct (Hvt_ Hv0) as (tv & -> & Htv).
    destruct (read_trak_step _ _ _ _ _ _ _ _ [] {| dm_tracks := []; dm_samples := [] |} Htv) as (trv & Hstep & Hi & Hk & Hc & Hcfg).
    destruct (single_track _ trv (recorded_samples 1 90000 (default H264 (m4_video_codec m)) (timed 90000 (video_default m) (video_samples m))) 1 Hi eq_refl) as (Hf & Hs & Hl). eexists.
    split; [exact Hfin|]. split; [apply read_traks_nonempty; [|exact Hstep]; by destruct (dm_tracks _)|].
    split; [rewrite Hl; by destruct (video_samples m)|]. split; [|done]. intros _.
    eapply (read_back_recorded _ _ _ _ _ _ 90000); [lia|lia|exact Hvd|exact Hvl|exact Hf|exact Hs|done..].
  - destruct (Hvt_ Hv0) as (tv & -> & Htv). destruct (Hat_ Ha0) as (ta & -> & Hta).
    assert (audio_id m = 2) as Hid by (unfold audio_id; by destruct (video_samples m)). rewrite Hid in *.
    set (sv := recorded_samples 1 90000 (default H264 (m4_video_codec m)) (timed 90000 (video_default m) (video_samples m))) in *.
    set (sa := recorded_samples 2 (audio_timescale m) AAC (timed (audio_timescale m) (audio_default m) (audio_samples m))) in *.
    destruct (read_trak_step _ _ _ _ _ _ _ _ [ta] {| dm_tracks := []; dm_samples := [] |} Htv) as (trv & Hstepv & Hiv & Hkv & Hcv_ & Hcfgv).
    destruct (read_trak_step _ _ _ _ _ _ _ _ []
                (add_track {| dm_tracks := []; dm_samples := [] |} trv sv) Hta) as (tra & Hstepa & Hia & Hka & Hca_ & Hcfga).
    destruct (two_tracks _ trv sv tra sa Hiv Hia eq_refl) as (Hfv & Hsv & Hfa & Hsa & Hl).
    exists (add_track (add_track {| dm_tracks := []; dm_samples := [] |} trv sv) tra sa).
    split; [exact Hfin|]. cbn [List.app] in *. split; [apply read_traks_nonempty; [|rewrite Hstepv; exact Hstepa]; by destruct (dm_tracks _)|].
    split; [rewrite Hl; by destruct (video_samples m), (audio_samples m)|]. split; intros _.
    + eapply (read_back_recorded _ _ _ _ _ _ 90000); [lia|lia|exact Hvd|exact Hvl|exact Hfv|exact Hsv|done..].
    + eapply read_back_recorded; [lia|exact Hts|exact Hdef|exact Hal|exact Hfa|exact Hsa|done..].
Qed.

(** Two pictures and three blocks of audio. *)
Definition sample_frames : list MediaFrame :=
  [set_config_frame (with_payload_format (new_video 0 H264 0 0 0 ([0x17; 0; 0; 0; 0] ++ [1; 0x42; 0; 0x1e; 0xff; 0xe1; 0; 4; 0x67; 0x42; 0; 0x1e; 1; 0; 1; 0x68]) true) PfFlv) true;
   set_config_frame (with_payload_format (new_audio 1 AAC 0 0 0 [0xAF; 0; 0x11; 0x90]) PfFlv) true;
   with_payload_format (new_video 0 H264 1000 1000 1000 [0x17; 1; 0; 0; 0; 0; 0; 0; 2; 0x65; 7] true) PfFlv;
   with_payload_format (new_audio 1 AAC 1000 1000 1000 [0xAF; 1; 9; 9]) PfFlv;
   with_payload_format (new_audio 1 AAC 1021 1021 1021 [0xAF; 1; 8]) PfFlv;
   with_payload_format (new_video 0 H264 1040 1040 1040 [0x27; 1; 0; 0; 0; 0; 0; 0; 2; 0x41; 5] false) PfFlv;
   with_payload_format (new_audio 1 AAC 1043 1043 1043 [0xAF; 1; 7; 7; 7]) PfFlv].

Definition sample_muxer : Mp4Muxer :=
  match foldl (fun r f => m ← r; mp4_push_frame m f) (Ok mp4_new) sample_frames with Ok m => m | _ => mp4_new end.

Lemma recording_read_back_witness :
  times_of (video_samples sample_muxer) = [1000; 1040] /\ times_of (audio_samples sample_muxer) = [1000; 1021; 1043] /\
  exists m' file d,
    finalize sample_muxer = Ok (m', file) /\ from_bytes file = Ok d /\
    length (dm_tracks d) = (length (option_list (head (video_samples sample_muxer))) +
                            length (option_list (head (audio_samples sample_muxer))))%nat /\
    (video_samples sample_muxer <> [] ->
      read_back d 1 true (default H264 (m4_video_codec sample_muxer)) (default [] (m4_video_config sample_muxer)) 0
        (video_samples sample_muxer)) /\
    (audio_samples sample_muxer <> [] -> read_back d (audio_id sample_muxer) false AAC [0x12; 0x10] 1 (audio_samples sample_muxer)).
Proof.
  split; [vm_compute; reflexivity|]. split; [vm_compute; reflexivity|].
  refine (recording_read_back sample_muxer _). constructor.
  - left. vm_compute. discriminate.
  - intros _. split; [split_and!; [vm_compute; reflexivity|vm_compute; reflexivity|left; split; [vm_compute; reflexivity|vm_compute; lia]]|].
    split; vm_compute; discriminate.
  - intros _. split; vm_compute; [reflexivity|lia].
  - vm_compute. right. split; discriminate.
  - vm_compute. reflexivity.
  - vm_compute. reflexivity.
  - vm_compute. reflexivity.
  - vm_compute. reflexivity.
Defined.
