(* ===== verification/Vod.v ===== *)
(** * Vod: recordings on demand

    [mp4/src/vod.rs]: the frames of a recording as an asset, playback from the
    nearest preceding key frame, and the path a stream name stands for.  A
    path is its bytes; its components are those of a Unix path. *)

From stdpp Require Import sorting.
From S2P Require Import Prelude Frame F64 Utf8 Text Gop Bmff Mp4Mux Mp4Demux Mp4Trip.
#[local] Open Scope Z_scope.
#[local] Set Warnings "-clear-no-such-hyp".

Record VodAsset : Type := {
  va_tracks : list DemuxedTrack;
  va_frames : list MediaFrame;
  va_duration : Z
}.

Record VodPlayback : Type := {
  vp_frames : list MediaFrame;
  vp_start : Z;
  vp_duration : Z
}.

Definition max_of (l : list Z) : option Z :=
  match l with [] => None | x :: l => Some (foldl Z.max x l) end.

Definition not_config (f : MediaFrame) : bool := negb (config_frame f).

Definition from_demuxer (d : Mp4Demuxer) : result VodAsset :=
  let tracks := dm_tracks d in
  let frames := interleaved_media_frames d in
  if bool_decide (tracks = []) || forallb config_frame frames then bail else
  let track_ms t := Z.min (2 ^ 64 - 1) (dt_duration t * 1000) / dt_timescale t in
  Ok {| va_tracks := tracks; va_frames := frames;
        va_duration :=
          match max_of (track_ms <$> List.filter (fun t => negb (dt_timescale t =? 0)) tracks) with
          | Some d => d
          | None => default 0 (max_of ((fun f => Z.max (pts f) (dts f)) <$> List.filter not_config frames))
          end |}.

Definition vod_track_info (t : DemuxedTrack) : option TrackInfo :=
  match handler t with
  | KindVideo => Some (TrackVideo {| video_codec := dt_codec t; video_width := dt_width t; video_height := dt_height t;
                                     video_fps := dt_fps t; video_key_frame := true |})
  | KindAudio => Some (TrackAudio {| audio_codec := dt_codec t; audio_sample_rate := Z.max 1 (dt_sample_rate t);
                                     audio_channels := 2; audio_bits_per_sample := 16 |})
  | KindOther => None
  end.

Definition vod_media_info (a : VodAsset) : MediaInfo :=
  {| Frame.tracks := omap vod_track_info (va_tracks a);
     Frame.duration := Some (f64_div (f64_of_uint (va_duration a)) F_1000);
     Frame.metadata := Some "mp4-vod"%string |}.

(** ** Playback *)

Definition frame_time_ms (f : MediaFrame) : Z := Z.min (Z.min (dts f) (pts f)) (timestamp f).

Definition video_key (f : MediaFrame) : bool := not_config f && bool_decide (frame_type f = Video) && key_frame f.

Definition start_of (frames : list MediaFrame) (requested : Z) : Z :=
  let first_media := default 0 (frame_time_ms <$> List.find not_config frames) in
  let first_video_key := frame_time_ms <$> List.find video_key frames in
  let selected_key :=
    max_of (frame_time_ms <$> List.filter (fun f => video_key f && (frame_time_ms f <=? requested)) frames) in
  match selected_key with
  | Some t => t
  | None =>
      match first_video_key with
      | Some t => t
      | None => default first_media
                  (max_of (frame_time_ms <$> List.filter (fun f => not_config f && (frame_time_ms f <=? requested)) frames))
      end
  end.

(** [saturating_sub] on the three times. *)
Definition rebase (start : Z) (f : MediaFrame) : MediaFrame :=
  {| track_id := track_id f; frame_type := frame_type f; codec := codec f;
     timestamp := Z.min (2 ^ 32 - 1) (Z.max 0 (timestamp f - start)); pts := Z.max 0 (pts f - start);
     dts := Z.max 0 (dts f - start); data := data f; payload_format := payload_format f; key_frame := key_frame f;
     config_frame := config_frame f |}.

Definition playback (a : VodAsset) (requested : Z) : VodPlayback :=
  let start := start_of (va_frames a) requested in
  {| vp_frames := List.filter config_frame (va_frames a) ++
       (rebase start <$> List.filter (fun f => not_config f && (start <=? frame_time_ms f)) (va_frames a));
     vp_start := start; vp_duration := Z.max 0 (va_duration a - start) |}.

(** ** Stream names *)

Definition hex (b : Z) : option Z :=
  if (48 <=? b) && (b <=? 57) then Some (b - 48)
  else if (97 <=? b) && (b <=? 102) then Some (b - 97 + 10)
  else if (65 <=? b) && (b <=? 70) then Some (b - 65 + 10)
  else None.

Fixpoint percent_bytes (s : bytes) : option bytes :=
  match s with
  | [] => Some []
  | b :: s' =>
      if b =? 37 then
        match s' with
        | h :: l :: s' =>
            high ← hex h; low ← hex l; rest ← percent_bytes s'; Some ((high .<< 4) .| low :: rest)
        | _ => None
        end
      else rest ← percent_bytes s'; Some (b :: rest)
  end.

Definition percent_decode (s : bytes) : option bytes :=
  out ← percent_bytes s; if utf8_valid out then Some out else None.

Inductive Component : Type := RootDir | CurDir | ParentDir | Normal (name : bytes).

#[global] Instance Component_eq_dec : EqDecision Component.
Proof. solve_decision. Defined.

(** [Path::components]: empty pieces and, except at the start of a relative
    path, single dots do not count. *)
Definition piece (first : bool) (p : bytes) : option Component :=
  if bool_decide (p = []) then None
  else if bool_decide (p = str ".") then if first then Some CurDir else None
  else if bool_decide (p = str "..") then Some ParentDir
  else Some (Normal p).

Definition components (path : bytes) : list Component :=
  match split 47 path with
  | [] => []
  | [] :: ps => match path with [] => [] | _ => RootDir :: omap (piece false) ps end
  | p :: ps => option_list (piece true p) ++ omap (piece false) ps
  end.

Definition is_normal (c : Component) : bool := match c with Normal _ => true | _ => false end.

(** [Path::join] with a relative path. *)
Definition join (root path : bytes) : bytes :=
  match path with
  | 47 :: _ => path
  | _ => match last root with
         | None => path
         | Some b => if b =? 47 then root ++ path else root ++ [47] ++ path
         end
  end.

Definition ends_with (p s : bytes) : bool := starts_with (reverse p) (reverse s).

Definition VOD_APP : bytes := str "record".

Definition resolve (root app stream : bytes) : option bytes :=
  if negb (bool_decide (app = VOD_APP)) then None else
  decoded ← percent_decode stream;
  if bool_decide (decoded = []) || contains [92] decoded || contains (str ":") decoded ||
     negb (ends_with (str ".mp4") (to_ascii_lowercase decoded)) then None else
  let relative := trim_start_char 47 decoded in
  if negb (forallb is_normal (components relative)) then None else Some (join root relative).

(** ** Frames of an asset *)

Definition samples_of (d : Mp4Demuxer) : list MediaFrame := List.filter not_config (interleaved_media_frames d).
Definition configs_of (d : Mp4Demuxer) : list MediaFrame := List.filter config_frame (interleaved_media_frames d).

Definition earlier (f g : MediaFrame) : Prop := timestamp f <= timestamp g.

Lemma filter_none {A} (p : A -> bool) l : Forall (fun x => p x = false) l -> List.filter p l = [].
Proof. induction 1 as [|x l Hx _ IH]; [done|]. cbn [List.filter]. by rewrite Hx. Qed.

Lemma filter_all {A} (p : A -> bool) l : Forall (fun x => p x = true) l -> List.filter p l = l.
Proof. induction 1 as [|x l Hx _ IH]; [done|]. cbn [List.filter]. by rewrite Hx, IH. Qed.

Lemma omap_sorted {A B} (R : A -> A -> Prop) (S : B -> B -> Prop) (P : A -> Prop) (f : A -> option B) l :
  (forall x y x' y', P x -> P y -> R x y -> f x = Some x' -> f y = Some y' -> S x' y') ->
  Forall P l -> StronglySorted R l -> StronglySorted S (omap f l).
Proof.
  intros HRS HP Hs. induction Hs as [|x l Hs IH Hx]; [constructor|]. apply Forall_cons in HP as [Hpx HP]. cbn [omap list_omap].
  destruct (f x) as [x'|] eqn:Hfx; [|by apply IH]. constructor; [by apply IH|]. apply Forall_forall. intros y' Hin.
  apply list_elem_of_omap in Hin as (y & Hy & Hfy). rewrite Forall_forall in Hx, HP. by apply (HRS x y); auto.
Qed.

Lemma sample_le_sorted l : StronglySorted (fun a b => sample_le a b = true) (stable_sort sample_le l).
Proof.
  apply Sorted_StronglySorted; [|apply stable_sort_sorted]; unfold sample_le.
  - intros x y z Hxy Hyz. lia.
  - intros x y H. lia.
Qed.

Definition one_time (f : MediaFrame) : Prop := is_u32 (timestamp f) /\ pts f = timestamp f /\ dts f = timestamp f.

Lemma samples_sorted d : demuxer_wf d ->
  StronglySorted earlier (samples_of d) /\ Forall (fun f => config_frame f = false /\ one_time f) (samples_of d).
Proof.
  intros Hwf. unfold samples_of, interleaved_media_frames. fold (all_samples d). fold sample_le.
  set (sorted := stable_sort sample_le (all_samples d)). pose proof (sorted_samples_wf d Hwf) as Hsw. fold sorted in Hsw.
  set (f := fun ts : Z * DemuxedSample => t ← find_track d ts.1; make_data_frame t ts.2).
  assert (Hf : forall x x', sample_wf x.2 -> f x = Some x' -> config_frame x' = false /\ one_time x' /\ timestamp x' = pts_ms x.2).
  { intros [id s] x' Hs Hx. unfold f in Hx. cbn [fst snd] in *. destruct (find_track d id) as [t|] eqn:Ht; [|done]. cbn in Hx.
    destruct (data_frame_wf t s x' (find_track_wf d id t Hwf Ht) Hs Hx) as (Hok & Hc & H1 & H2 & H3).
    destruct Hok as (_ & Hts & _). unfold one_time. rewrite H2, H3, H1 in *. done. }
  rewrite List.filter_app, (filter_none _ (omap make_config_frame _)).
  - cbn [List.app]. assert (Forall (fun f => config_frame f = false /\ one_time f) (omap f sorted)) as Hall.
    { apply Forall_forall. intros x' Hin. apply list_elem_of_omap in Hin as (x & Hx & Hfx). rewrite Forall_forall in Hsw.
      destruct (Hf x x' (Hsw x Hx) Hfx) as (? & ? & _). done. }
    rewrite filter_all; [|eapply Forall_impl; [exact Hall|]; intros g [Hg _]; unfold not_config; by rewrite Hg].
    split; [|exact Hall]. eapply omap_sorted; [|exact Hsw|apply sample_le_sorted].
    intros x y x' y' Hx Hy Hxy Hfx Hfy. destruct (Hf x x' Hx Hfx) as (_ & _ & Htx), (Hf y y' Hy Hfy) as (_ & _ & Hty).
    unfold earlier, sample_le in *. lia.
  - apply Forall_forall. intros x Hin. apply list_elem_of_omap in Hin as (t & _ & Hm). unfold not_config.
    unfold make_config_frame in Hm. repeat case_match; try done; by injection Hm as <-.
Qed.

(** ** Where playback starts *)

Lemma max_of_spec l t : max_of l = Some t -> t ∈ l /\ Forall (fun x => x <= t) l.
Proof.
  unfold max_of. destruct l as [|x l]; [done|]. intros [= <-].
  enough (forall l x, foldl Z.max x l ∈ x :: l /\ Forall (fun y => y <= foldl Z.max x l) (x :: l)) as H by apply H. clear x l.
  induction l as [|y l IH]; intros x; cbn [foldl]; [split; [left|by repeat constructor]|].
  destruct (IH (Z.max x y)) as [Hin Hall]. apply Forall_cons in Hall as [Hm Hall]. split.
  - apply elem_of_cons in Hin as [Heq|Hin]; [|by right; right]. rewrite Heq. destruct (Z.max_spec x y) as [[_ ->]|[_ ->]]; [right; left|left].
  - constructor; [lia|]. constructor; [lia|done].
Qed.

Lemma max_of_none l : max_of l = None -> l = [].
Proof. by destruct l. Qed.

(** The start is the time of a frame; of a key frame when there is one. *)
Definition starts_well (frames : list MediaFrame) (requested start : Z) : Prop :=
  (exists f, f ∈ frames /\ not_config f = true /\ frame_time_ms f = start) /\
  (forall k, k ∈ frames -> video_key k = true ->
     (exists k', k' ∈ frames /\ video_key k' = true /\ frame_time_ms k' = start) /\
     (frame_time_ms k <= requested -> frame_time_ms k <= start <= requested)).

Lemma filter_elem {A} (p : A -> bool) x l : x ∈ List.filter p l <-> x ∈ l /\ p x = true.
Proof. rewrite !list_elem_of_In. apply filter_In. Qed.

Lemma key_not_config f : video_key f = true -> not_config f = true.
Proof. unfold video_key. by destruct (not_config f). Qed.

Lemma start_spec frames requested :
  existsb not_config frames = true -> starts_well frames requested (start_of frames requested).
Proof.
  intros Hex. unfold start_of. cbv zeta.
  destruct (max_of (frame_time_ms <$> List.filter (fun f => video_key f && _) frames)) as [t|] eqn:Hsel.
  { apply max_of_spec in Hsel as [Hin Hmax]. apply list_elem_of_fmap in Hin as (k' & -> & Hk').
    apply filter_elem in Hk' as [Hk' [Hkey Hle]%andb_true_iff]. split.
    - exists k'. split_and!; [done|by apply key_not_config|done].
    - intros k Hk Hkk. split; [by exists k'|]. intros Hreq. split; [|lia]. rewrite Forall_fmap, Forall_forall in Hmax.
      apply (Hmax k), filter_elem. split; [done|]. by rewrite Hkk, (proj2 (Z.leb_le _ _) Hreq). }
  apply max_of_none, fmap_nil_inv in Hsel.
  assert (forall k, k ∈ frames -> video_key k = true -> requested < frame_time_ms k) as Hlate.
  { intros k Hk Hkk. destruct (Z.leb_spec (frame_time_ms k) requested) as [Hle|]; [|done]. exfalso.
    assert (k ∈ List.filter (fun f => video_key f && (frame_time_ms f <=? requested)) frames) as Hin
      by (apply filter_elem; split; [done|]; by rewrite Hkk, (proj2 (Z.leb_le _ _) Hle)).
    rewrite Hsel in Hin. by apply not_elem_of_nil in Hin. }
  destruct (List.find video_key frames) as [k0|] eqn:Hfirst; cbn [fmap option_fmap option_map].
  { apply find_some in Hfirst as [Hin Hk0]. apply list_elem_of_In in Hin. split.
    - exists k0. split_and!; [done|by apply key_not_config|done].
    - intros k Hk Hkk. split; [by exists k0|]. specialize (Hlate k Hk Hkk). lia. }
  split.
  - destruct (max_of _) as [t|] eqn:Hmax.
    + apply max_of_spec in Hmax as [Hin _]. apply list_elem_of_fmap in Hin as (f & -> & Hf).
      apply filter_elem in Hf as [Hf [Hc _]%andb_true_iff]. by exists f.
    + destruct (List.find not_config frames) as [f|] eqn:Hf; [apply find_some in Hf as [Hin Hc]; exists f; split_and!; [by apply list_elem_of_In|done|done]|].
      apply existsb_exists in Hex as (f & Hin & Hc). by rewrite (find_none _ _ Hf f Hin) in Hc.
  - intros k Hk Hkk. exfalso. apply list_elem_of_In in Hk. by rewrite (find_none _ _ Hfirst k Hk) in Hkk.
Qed.

(** A threshold splits a sorted list. *)
Lemma filter_suffix start l :
  StronglySorted earlier l ->
  exists before, l = before ++ List.filter (fun f => start <=? timestamp f) l /\ Forall (fun f => timestamp f < start) before.
Proof.
  induction 1 as [|f l Hs (before & IH & Hb) Hf]; [by exists []|]. cbn [List.filter]. destruct (Z.leb_spec start (timestamp f)) as [Hle|Hlt].
  - exists []. split; [|constructor]. cbn [List.app]. f_equal. symmetry. apply filter_all. eapply Forall_impl; [exact Hf|].
    intros g Hg. unfold earlier in Hg. lia.
  - exists (f :: before). split; [cbn [List.app]; by f_equal|by constructor].
Qed.

Lemma filter_and {A} (p q : A -> bool) l : List.filter (fun x => p x && q x) l = List.filter q (List.filter p l).
Proof. induction l as [|x l IH]; [done|]. cbn [List.filter]. destruct (p x); cbn [andb List.filter]; [by destruct (q x); rewrite IH|done]. Qed.

Lemma filter_ext_in {A} (p q : A -> bool) l : Forall (fun x => p x = q x) l -> List.filter p l = List.filter q l.
Proof. induction 1 as [|x l Hx _ IH]; [done|]. cbn [List.filter]. by rewrite Hx, IH. Qed.

Lemma one_time_frame f : one_time f -> frame_time_ms f = timestamp f.
Proof. intros (_ & Hp & Hd). unfold frame_time_ms. lia. Qed.

(** A frame played back: the same frame, [start] milliseconds earlier. *)
Definition played (start : Z) (f r : MediaFrame) : Prop :=
  timestamp r = timestamp f - start /\ pts r = pts f - start /\ dts r = dts f - start /\ data r = data f /\
  track_id r = track_id f /\ frame_type r = frame_type f /\ codec r = codec f /\ payload_format r = payload_format f /\
  key_frame r = key_frame f /\ config_frame r = config_frame f.

Lemma rebase_played start f : one_time f -> start <= timestamp f -> 0 <= start -> played start f (rebase start f).
Proof. intros (Ht & Hp & Hd) Hs H0. unfold is_u32 in Ht. unfold played, rebase. cbn. rewrite Hp, Hd. split_and!; (done || lia). Qed.

(** What is played of a recording's samples: all from a time on that is the
    time of one of them. *)
Record playback_of (d : Mp4Demuxer) (requested : Z) (p : VodPlayback) : Prop := {
  pb_from : exists before after rest,
    samples_of d = before ++ after /\ Forall (fun f => timestamp f < vp_start p) before /\
    vp_frames p = configs_of d ++ rest /\ Forall2 (played (vp_start p)) after rest /\
    timestamp <$> head rest = Some 0;
  pb_key : forall k, k ∈ samples_of d -> is_key k = true ->
    (exists k', k' ∈ samples_of d /\ is_key k' = true /\ timestamp k' = vp_start p) /\
    (timestamp k <= requested -> timestamp k <= vp_start p <= requested)
}.

Lemma video_key_samples d k : k ∈ interleaved_media_frames d -> video_key k = true <-> k ∈ samples_of d /\ is_key k = true.
Proof.
  intros Hin. unfold samples_of. rewrite filter_elem. unfold video_key, is_key, is_type. rewrite !andb_true_iff. tauto.
Qed.

Lemma playback_spec d a requested :
  demuxer_wf d -> from_demuxer d = Ok a -> playback_of d requested (playback a requested).
Proof.
  intros Hwf Ha. unfold from_demuxer in Ha. destruct (bool_decide _ || _) eqn:Hplay; [done|]. apply orb_false_iff in Hplay as [_ Hplay].
  injection Ha as <-. set (frames := interleaved_media_frames d) in *.
  assert (existsb not_config frames = true) as Hex.
  { clear -Hplay. induction frames as [|f frames IH]; [done|]. cbn [forallb existsb] in *. unfold not_config at 1.
    destruct (config_frame f); [by apply IH|done]. }
  destruct (samples_sorted d Hwf) as [Hsorted Hone]. rewrite Forall_forall in Hone.
  destruct (start_spec frames requested Hex) as [(f0 & Hf0 & Hc0 & Ht0) Hkeys]. unfold playback. cbn [va_frames va_duration].
  set (start := start_of frames requested) in *.
  assert (f0 ∈ samples_of d) as Hs0 by (apply filter_elem; done). destruct (Hone f0 Hs0) as [_ Hone0].
  rewrite one_time_frame in Ht0 by done.
  assert (List.filter (fun f => not_config f && (start <=? frame_time_ms f)) frames = List.filter (fun f => start <=? timestamp f) (samples_of d)) as Hafter.
  { rewrite filter_and. apply filter_ext_in, Forall_forall. intros f Hf. by rewrite one_time_frame by apply (Hone f Hf). }
  destruct (filter_suffix start (samples_of d) Hsorted) as (before & Hsplit & Hbefore).
  set (after := List.filter _ (samples_of d)) in *.
  assert (Forall (fun f => one_time f /\ start <= timestamp f) after) as Hall.
  { apply Forall_forall. intros f Hf. apply filter_elem in Hf as [Hf Hle]. split; [by apply (Hone f Hf)|by apply Z.leb_le]. }
  assert (0 <= start) as Hpos by (rewrite <-Ht0; apply Hone0). constructor; cbn [vp_frames vp_start].
  - exists before, after, (rebase start <$> after). rewrite Hafter. split_and!; [done|done|done| |].
    + apply Forall2_fmap_r, Forall_Forall2_diag. eapply Forall_impl; [exact Hall|]. intros f [? ?]. by apply rebase_played.
    + assert (f0 ∈ after) as Hin0 by (apply filter_elem; split; [done|lia]).
      destruct after as [|g after]; [by apply not_elem_of_nil in Hin0|]. cbn [fmap list_fmap head option_fmap option_map].
      apply Forall_cons in Hall as [[Hg1 Hg2] _]. f_equal. destruct (rebase_played start g Hg1 Hg2 Hpos) as [-> _].
      rewrite Hsplit in Hsorted. apply StronglySorted_app_1_r in Hsorted. inversion_clear Hsorted as [|? ? _ Hmin].
      apply elem_of_cons in Hin0 as [->|Hin0]; [lia|]. rewrite Forall_forall in Hmin. specialize (Hmin f0 Hin0). unfold earlier in Hmin. lia.
  - intros k Hk Hkey. assert (k ∈ frames) as Hkf by (unfold samples_of in Hk; apply filter_elem in Hk; tauto).
    destruct (Hkeys k Hkf (proj2 (video_key_samples d k Hkf) (conj Hk Hkey))) as [(k' & Hk' & Hvk & Ht) Hreq].
    apply (video_key_samples d k' Hk') in Hvk as [Hks Hkk]. rewrite one_time_frame in Ht, Hreq by (apply Hone; done).
    split; [by exists k'|done].
Qed.

(** C22: Playback of a recording.  For a file that is read, an asset is made of
    it and played from a requested time: first the configuration frames, then
    the samples from the start on, none left out, in order and moved so that
    the first is at zero; when the recording has key frames the start is a key
    frame's time, and the latest one that is not after the requested time. *)
Theorem vod_playback file d a requested :
  bytes_ok file -> from_bytes file = Ok d -> from_demuxer d = Ok a -> playback_of d requested (playback a requested).
Proof. intros Hf Hd Ha. apply playback_spec; [by apply (from_bytes_wf file)|done]. Qed.

(** ** Paths *)

Definition names_of (path : bytes) : list Component := omap (piece false) (split 47 path).

Lemma split_slash a b : split 47 (a ++ 47 :: b) = split 47 a ++ split 47 b.
Proof.
  induction a as [|x a IH]; [done|]. cbn [List.app split]. rewrite IH. destruct (x =? 47); [done|].
  pose proof (split_ne 47 a) as Hne. by destruct (split 47 a).
Qed.

Lemma components_slash root rel : root <> [] -> components (root ++ 47 :: rel) = components root ++ names_of rel.
Proof.
  intros Hr. unfold components, names_of. rewrite split_slash. pose proof (split_ne 47 root) as Hne.
  destruct (split 47 root) as [|p ps]; [done|]. cbn [List.app]. rewrite omap_app.
  destruct p as [|b p]; [|by rewrite <-List.app_assoc]. destruct root as [|x root]; [done|]. reflexivity.
Qed.

Lemma components_ends root : root <> [] -> components (root ++ [47]) = components root.
Proof. intros Hr. rewrite components_slash by done. unfold names_of. cbn. apply app_nil_r. Qed.

Lemma components_relative rel : head rel <> Some 47 -> forallb is_normal (components rel) = true -> components rel = names_of rel.
Proof.
  intros Hh Hn. unfold components, names_of in *. pose proof (split_ne 47 rel) as Hne.
  destruct rel as [|x rel]; [done|]. cbn [split] in *. destruct (Z.eqb_spec x 47) as [->|_]; [by cbn in Hh|].
  destruct (split 47 rel) as [|w ws]; cbn [omap list_omap] in *; unfold piece in *; cbn [option_list] in *;
    repeat case_match; try done; by cbn in Hn.
Qed.

(** Joined below a root, names stay below it. *)
Lemma components_join root rel :
  head rel <> Some 47 -> forallb is_normal (components rel) = true ->
  components (join root rel) = components root ++ components rel.
Proof.
  intros Hh Hn. rewrite (components_relative rel Hh Hn) at 1. unfold join.
  assert (forall A (x y : A), match rel with 47 :: _ => x | _ => y end = y) as Hrel.
  { intros A x y. destruct rel as [|b rel]; [done|]. destruct (decide (b = 47)) as [->|Hb]; [done|]. destruct b as [|p|p]; try done. do 6 (destruct p as [p|p|]; try done). }
  rewrite Hrel. destruct root as [|x0 root0] eqn:Hroot; [by rewrite <-components_relative|]. rewrite <-Hroot.
  assert (root <> []) as Hne by by rewrite Hroot. clear Hroot x0 root0 Hrel.
  destruct (last root) as [b|] eqn:Hl; [|by apply last_None in Hl]. apply last_Some in Hl as (r & ->).
  destruct (Z.eqb_spec b 47) as [->|_].
  - destruct r as [|x r]; [|rewrite <-app_assoc; cbn [List.app]; change (x :: r ++ 47 :: rel) with ((x :: r) ++ 47 :: rel)].
    + cbn [List.app]. unfold names_of. destruct rel as [|y rel]; done.
    + rewrite components_slash by done. change (x :: r ++ [47]) with ((x :: r) ++ [47]). by rewrite components_ends.
  - by apply components_slash.
Qed.

Lemma trim_start_head c s : head (trim_start_char c s) <> Some c.
Proof. induction s as [|x s IH]; [done|]. cbn [trim_start_char]. destruct (Z.eqb_spec x c) as [|Hx]; [done|]. cbn. congruence. Qed.

Lemma piece_name first p name : piece first p = Some (Normal name) -> name = p /\ p <> [] /\ p <> str "." /\ p <> str "..".
Proof. unfold piece. repeat case_bool_decide; try done; destruct first; try done; by intros [= <-]. Qed.

(** A file name that goes nowhere. *)
Definition plain_name (name : bytes) : Prop :=
  name <> [] /\ name <> str "." /\ name <> str ".." /\ lacks 47 name /\ lacks 92 name /\ lacks 58 name.

Lemma normal_names rel cs :
  (forall b, b ∈ rel -> b <> 92 /\ b <> 58) -> names_of rel = cs -> forallb is_normal cs = true ->
  exists names, cs = Normal <$> names /\ Forall plain_name names.
Proof.
  intros Hb <- Hn. unfold names_of in *.
  assert (Forall (fun p => lacks 47 p /\ forall b, b ∈ p -> b <> 92 /\ b <> 58) (split 47 rel)) as Hall.
  { apply Forall_forall. intros p Hp. pose proof (split_pieces_lack 47 rel) as Hl. rewrite Forall_forall in Hl. split; [by apply Hl|].
    intros b Hin. apply Hb. by eapply split_incl. }
  induction Hall as [|p ps [Hp Hbs] _ IH]; [by exists []|]. cbn [omap list_omap] in *.
  destruct (piece false p) as [c|] eqn:Hpiece; [|by apply IH]. cbn [forallb] in Hn. apply andb_true_iff in Hn as [Hc Hn].
  destruct (IH Hn) as (names & Heq & Hnames). destruct c as [| | |name]; try done.
  apply piece_name in Hpiece as (-> & H1 & H2 & H3). exists (p :: names). split; [cbn; by rewrite <-Heq|]. constructor; [|done].
  split_and!; try done; intros Hin; by destruct (Hbs _ Hin).
Qed.

(** C23: Stream names stay below the recording root.  A path is only given for
    the application of recordings, and it is the root followed by plain file
    names: no empty name, no dot, no parent directory, no backslash or
    colon, whatever the percent-encoding of the stream name. *)
Theorem resolve_below_root root app stream path :
  resolve root app stream = Some path ->
  app = VOD_APP /\
  exists names, components path = components root ++ (Normal <$> names) /\ Forall plain_name names.
Proof.
  unfold resolve. destruct (bool_decide (app = VOD_APP)) eqn:Happ; [|done]. apply bool_decide_eq_true in Happ as ->. cbn [negb].
  destruct (percent_decode stream) as [decoded|]; [|done]. cbn [mbind option_bind].
  destruct (_ || negb _) eqn:Hbad; [done|]. apply orb_false_iff in Hbad as [[[_ H92]%orb_false_iff H58]%orb_false_iff _].
  set (relative := trim_start_char 47 decoded). destruct (forallb is_normal (components relative)) eqn:Hn; [|done]. cbn [negb].
  intros [= <-]. split; [done|]. pose proof (trim_start_head 47 decoded) as Hh. fold relative in Hh.
  rewrite components_join by done. destruct (normal_names relative (components relative)) as (names & -> & Hnames).
  - intros b Hin. apply trim_start_char_incl in Hin. apply contains_in in H92, H58. split; intros ->; [by apply H92|by apply H58].
  - symmetry. by apply components_relative.
  - done.
  - by exists names.
Qed.

Lemma resolve_below_root_witness :
  resolve (str "record") (str "record") (str "live/%63am/file.MP4") = Some (str "record/live/cam/file.MP4") /\
  resolve (str "record") (str "record") (str "%2e%2e/secret.mp4") = None /\
  str "record" = VOD_APP /\
  exists names, components (str "record/live/cam/file.MP4") = components (str "record") ++ (Normal <$> names) /\ Forall plain_name names.
Proof.
  split; [vm_compute; reflexivity|]. split; [vm_compute; reflexivity|].
  apply (resolve_below_root (str "record") (str "record") (str "live/%63am/file.MP4")). vm_compute. reflexivity.
Defined.

(** ** A recording on demand *)

Definition sample_file : bytes := match finalize sample_muxer with Ok (_, file) => file | _ => [] end.
Definition sample_demuxer : Mp4Demuxer := match from_bytes sample_file with Ok d => d | _ => {| dm_tracks := []; dm_samples := [] |} end.
Definition sample_asset : VodAsset :=
  match from_demuxer sample_demuxer with Ok a => a | _ => {| va_tracks := []; va_frames := []; va_duration := 0 |} end.

Lemma vod_playback_witness :
  vp_start (playback sample_asset 45) = 40 /\ (length (vp_frames (playback sample_asset 45)) = 4)%nat /\
  playback_of sample_demuxer 45 (playback sample_asset 45).
Proof.
  split; [vm_compute; reflexivity|]. split; [vm_compute; reflexivity|].
  apply (vod_playback sample_file sample_demuxer); [|vm_compute; reflexivity|vm_compute; reflexivity].
  apply (bool_decide_unpack _). vm_compute. exact I.
Defined.
