(* ===== verification/RtmpSession.v ===== *)
(** * RtmpSession: the server's side of an RTMP connection

    [rtmp/src/session.rs]: the session's state, one definition per message and
    command handler, the read loop, the cleanup, the packet classifiers and the
    tasks that play a source or a recording.  What a session does to the rest
    of the server is a list of actions; what it asks of the rest of the server
    (hooks, source manager, recordings, the socket) is a record of answers that
    may differ from message to message.  A source is named by its application
    and stream, under the default virtual host. *)

From S2P Require Import Prelude Frame F64 AnnexB Payload Gop Stream Flv Utf8 Text Amf Rtmp Auth.
#[local] Open Scope Z_scope.

Definition StreamId : Type := bytes * bytes.

#[global] Instance StreamId_eq_dec : EqDecision StreamId.
Proof. unfold StreamId. solve_decision. Defined.

(** Answers to a session: the hooks ([Some] is a denial with its reason), the
    sources, the recordings (a recording is its playback function from the
    requested start) and whether a write succeeds. *)
Record World : Type := {
  on_publish : StreamId -> bytes -> option bytes;
  on_play : StreamId -> bytes -> option bytes;
  get_or_pull : StreamId -> bool;
  source_tracks : StreamId -> list TrackInfo;
  latest_gop : StreamId -> list MediaFrame;
  open_vod : StreamId -> option (Z -> list MediaFrame);
  write_ok : RtmpMessage -> bool
}.

Inductive Action : Type :=
| Send (m : RtmpMessage) (written : bytes)
| CreateSource (id : StreamId)
| ClearTracks (id : StreamId)
| PushTrack (id : StreamId) (track : TrackInfo)
| PublishFrame (id : StreamId) (frame : MediaFrame)
| Subscribe (id : StreamId)
| Unsubscribe (id : StreamId)
| PlayTask (id : StreamId) (encoder : RtmpMessageEncoder) (stream_id : Z) (cached : list MediaFrame)
| VodTask (id : StreamId) (encoder : RtmpMessageEncoder) (stream_id : Z) (frames : list MediaFrame) (limit : option Z)
| StreamPublish (id : StreamId)
| StreamUnPublish (id : StreamId)
| CloseStream (id : StreamId)
| OnStreamNotFound (id : StreamId).

(** How a handler ends: normally, with an error, or with a panic of its task. *)
Inductive Status : Type := Go | Failed (e : Error) | Crashed.

Record RtmpSession : Type := {
  connected : bool;                    (* stream.is_some() *)
  msg_parser : RtmpMessageParser;
  msg_encoder : RtmpMessageEncoder;
  auth : StreamAuth;
  source : option StreamId;
  app : bytes;
  stream_name : bytes;
  is_publisher : bool;
  stream_id : Z;
  total_read : Z;
  client_win_size : Z;
  last_ack_seq : Z
}.

Definition session_new (a : StreamAuth) : RtmpSession :=
  {| connected := true; msg_parser := parser_new; msg_encoder := encoder_new; auth := a; source := None; app := [];
     stream_name := []; is_publisher := false; stream_id := 0; total_read := 0; client_win_size := 2500000; last_ack_seq := 0 |}.

(** Assignments to the fields. *)
Definition set_connected (s : RtmpSession) (b : bool) : RtmpSession :=
  {| connected := b; msg_parser := msg_parser s; msg_encoder := msg_encoder s; auth := auth s; source := source s;
     app := app s; stream_name := stream_name s; is_publisher := is_publisher s; stream_id := stream_id s;
     total_read := total_read s; client_win_size := client_win_size s; last_ack_seq := last_ack_seq s |}.
Definition set_parser (s : RtmpSession) (p : RtmpMessageParser) : RtmpSession :=
  {| connected := connected s; msg_parser := p; msg_encoder := msg_encoder s; auth := auth s; source := source s;
     app := app s; stream_name := stream_name s; is_publisher := is_publisher s; stream_id := stream_id s;
     total_read := total_read s; client_win_size := client_win_size s; last_ack_seq := last_ack_seq s |}.
Definition set_encoder (s : RtmpSession) (e : RtmpMessageEncoder) : RtmpSession :=
  {| connected := connected s; msg_parser := msg_parser s; msg_encoder := e; auth := auth s; source := source s;
     app := app s; stream_name := stream_name s; is_publisher := is_publisher s; stream_id := stream_id s;
     total_read := total_read s; client_win_size := client_win_size s; last_ack_seq := last_ack_seq s |}.
Definition set_source (s : RtmpSession) (o : option StreamId) : RtmpSession :=
  {| connected := connected s; msg_parser := msg_parser s; msg_encoder := msg_encoder s; auth := auth s; source := o;
     app := app s; stream_name := stream_name s; is_publisher := is_publisher s; stream_id := stream_id s;
     total_read := total_read s; client_win_size := client_win_size s; last_ack_seq := last_ack_seq s |}.
Definition set_names (s : RtmpSession) (a n : bytes) (publisher : bool) : RtmpSession :=
  {| connected := connected s; msg_parser := msg_parser s; msg_encoder := msg_encoder s; auth := auth s; source := source s;
     app := a; stream_name := n; is_publisher := publisher; stream_id := stream_id s;
     total_read := total_read s; client_win_size := client_win_size s; last_ack_seq := last_ack_seq s |}.
Definition set_stream_id (s : RtmpSession) (n : Z) : RtmpSession :=
  {| connected := connected s; msg_parser := msg_parser s; msg_encoder := msg_encoder s; auth := auth s; source := source s;
     app := app s; stream_name := stream_name s; is_publisher := is_publisher s; stream_id := n;
     total_read := total_read s; client_win_size := client_win_size s; last_ack_seq := last_ack_seq s |}.
Definition set_window (s : RtmpSession) (total win ack : Z) : RtmpSession :=
  {| connected := connected s; msg_parser := msg_parser s; msg_encoder := msg_encoder s; auth := auth s; source := source s;
     app := app s; stream_name := stream_name s; is_publisher := is_publisher s; stream_id := stream_id s;
     total_read := total; client_win_size := win; last_ack_seq := ack |}.

Definition StepResult : Type := RtmpSession * list Action * Status.

(** The operator [?] and sequencing. *)
Definition after (r : StepResult) (k : RtmpSession -> StepResult) : StepResult :=
  let '(s, acts, st) := r in
  match st with
  | Go => let '(s', acts', st') := k s in (s', acts ++ acts', st')
  | _ => (s, acts, st)
  end.

Definition lift {A} (s : RtmpSession) (r : result A) (k : A -> StepResult) : StepResult :=
  match r with
  | Ok a => k a
  | Err e => (s, [], Failed e)
  | Panic | NoFuel => (s, [], Crashed)
  end.

Definition emit (s : RtmpSession) (acts : list Action) : StepResult := (s, acts, Go).

Definition names (s : RtmpSession) : StreamId := (app s, stream_name s).

(** ** Packets *)

Definition normalize_enhanced_video (data : bytes) : result (option bytes) :=
  if (length data <? 5)%nat then Ok (Some data) else
  d0 ← idx data 0;
  if d0 .& 0x80 =? 0 then Ok (Some data) else
  let frame_type := (d0 .>> 4) .& 0x07 in
  let packet_type := d0 .& 0x0F in
  fourcc ← slice data 1 5;
  if negb (bool_decide (fourcc = str "hvc1")) && negb (bool_decide (fourcc = str "hev1")) then Ok None else
  let first := (frame_type .<< 4) .| 12 in
  if packet_type =? 0 then
    rest ← slice data 5 (length data); Ok (Some ([first; 0; 0; 0; 0] ++ rest))
  else if packet_type =? 1 then
    if (length data <? 8)%nat then Ok None else
    ct ← slice data 5 8;
    rest ← slice data 8 (length data); Ok (Some ([first; 1] ++ ct ++ rest))
  else if packet_type =? 3 then
    rest ← slice data 5 (length data); Ok (Some ([first; 1; 0; 0; 0] ++ rest))
  else Ok None.

Definition parse_enhanced_video_codec (fourcc : bytes) : CodecId :=
  if bool_decide (fourcc = str "av01") then AV1
  else if bool_decide (fourcc = str "vp09") then VP9
  else if bool_decide (fourcc = str "vp08") then VP8
  else if bool_decide (fourcc = str "hvc1") || bool_decide (fourcc = str "hev1") then H265
  else if bool_decide (fourcc = str "avc1") then H264
  else UnknownCodec 0.

(** Codec, key frame, configuration. *)
Definition parse_video_rtmp_packet (data : bytes) : result (CodecId * bool * bool) :=
  if (length data <? 2)%nat then Ok (H264, false, false) else
  first_byte ← idx data 0;
  let frame_type := (first_byte .>> 4) .& 0x0F in
  let codec_id := first_byte .& 0x0F in
  let is_keyframe := frame_type =? 1 in
  if negb (first_byte .& 0x80 =? 0) && (5 <=? length data)%nat then
    fourcc ← slice data 1 5;
    let packet_type := first_byte .& 0x0F in
    let is_config := packet_type =? 0 in
    Ok (parse_enhanced_video_codec fourcc, is_keyframe && negb is_config, is_config)
  else
    d1 ← idx data 1;
    let is_config := ((codec_id =? 7) || (codec_id =? 12)) && (d1 .& 0x0F =? 0) in
    Ok (if codec_id =? 7 then (H264, is_keyframe && negb is_config, is_config)
        else if codec_id =? 12 then (H265, is_keyframe && negb is_config, is_config)
        else (H264, is_keyframe, false)).

Definition parse_audio_rtmp_packet (data : bytes) : CodecId :=
  match data with
  | [] => AAC
  | d0 :: _ =>
      let sound_format := (d0 .>> 4) .& 0x0F in
      if sound_format =? 10 then AAC
      else if sound_format =? 2 then Mp3
      else if sound_format =? 7 then G711A
      else if sound_format =? 8 then G711U
      else if sound_format =? 13 then Opus
      else if sound_format =? 14 then L16
      else AAC
  end.

Definition audio_is_config (data : bytes) : bool :=
  match data with
  | d0 :: d1 :: _ => ((d0 .>> 4) .& 0x0F =? 10) && (d1 =? 0)
  | _ => false
  end.

(** The frames the session publishes. *)
Definition video_frame (timestamp : Z) (data : bytes) (c : CodecId) (key config : bool) : MediaFrame :=
  set_config_frame (with_payload_format (new_video 0 c timestamp timestamp timestamp data key) PfFlv) config.

Definition audio_frame (timestamp : Z) (data : bytes) : MediaFrame :=
  set_config_frame (with_payload_format
    (new_audio 1 (parse_audio_rtmp_packet data) timestamp timestamp timestamp data) PfFlv) (audio_is_config data).

(** [fps: 25.0] *)
Definition FPS_25 : f64 := u32_to_f64 25.

Definition default_video (c : CodecId) : TrackInfo :=
  TrackVideo {| video_codec := c; video_width := 640; video_height := 480; video_fps := FPS_25; video_key_frame := false |}.
Definition default_audio (c : CodecId) : TrackInfo :=
  TrackAudio {| audio_codec := c; audio_sample_rate := 44100; audio_channels := 2; audio_bits_per_sample := 16 |}.

Definition is_audio_track (t : TrackInfo) : bool := match t with TrackAudio _ => true | _ => false end.

(** The frame of an [onMetaData] message. *)
Definition metadata_frame (data : bytes) : MediaFrame :=
  {| track_id := 0; frame_type := Metadata; codec := H264; timestamp := 0; pts := 0; dts := 0; data := data;
     payload_format := PfAmf0; key_frame := false; config_frame := false |}.

(** What is sent of a frame; a frame that cannot be put in an FLV payload is
    skipped. *)
Definition media_frame_to_rtmp_message (frame : MediaFrame) (stream_id : Z) : result (option RtmpMessage) :=
  match frame_type frame with
  | Metadata => Ok (Some (Amf0Data stream_id (timestamp frame) (data frame)))
  | ft =>
      let frame := if is_config_frame frame then set_config_frame frame true else frame in
      match flv_payload frame with
      | Ok d => Ok (Some (match ft with
                          | Video => VideoMessage stream_id (timestamp frame) d
                          | _ => AudioMessage stream_id (timestamp frame) d
                          end))
      | Err _ => Ok None
      | Panic => Panic
      | NoFuel => NoFuel
      end
  end.

(** ** Sending *)

Definition send_msg (w : World) (s : RtmpSession) (m : RtmpMessage) : StepResult :=
  if connected s then
    lift s (encode (msg_encoder s) m) (fun encoded =>
      if write_ok w m then (s, [Send m encoded], Go) else (s, [], Failed Io))
  else (s, [], Go).

(** [self.send_msg(..).await?] for several messages. *)
Fixpoint send_msgs (w : World) (s : RtmpSession) (ms : list RtmpMessage) : StepResult :=
  match ms with
  | [] => (s, [], Go)
  | m :: ms => after (send_msg w s m) (fun s => send_msgs w s ms)
  end.

(** A failed write is logged; the position counts as acknowledged all the same. *)
Definition send_window_ack (w : World) (s : RtmpSession) : StepResult :=
  let unacked := Z.max 0 (total_read s - last_ack_seq s) in
  if client_win_size s <=? unacked then
    if connected s then
      let ack := Ack (u32 (total_read s)) in
      lift s (encode (msg_encoder s) ack) (fun encoded =>
        (set_window s (total_read s) (client_win_size s) (total_read s),
         if write_ok w ack then [Send ack encoded] else [], Go))
    else (s, [], Go)
  else (s, [], Go).

(** A command message on [stream_id]. *)
Definition command (stream_id : Z) (values : list AmfValue) : RtmpMessage :=
  Amf0Command stream_id 0 (amf_encode values).

Definition text (s : string) : AmfValue := AmfString (str s).
Definition field (k : string) (v : AmfValue) : bytes * AmfValue := (str k, v).
Definition number (n : Z) : AmfValue := AmfNumber (u32_to_f64 n).

Definition status_info (level code : string) (description : bytes) : list (bytes * AmfValue) :=
  [field "level" (text level); field "code" (text code); field "description" (AmfString description)].

Definition on_status (stream_id : Z) (info : list (bytes * AmfValue)) : RtmpMessage :=
  command stream_id [text "onStatus"; number 0; AmfNull; AmfObject info].

(** ** Commands *)

(** [trim_start_matches] of a string: the prefix is removed as often as it occurs. *)
Definition trim_start_matches (p : string) (s : bytes) : bytes := trim_fuel [str p] (length s) s.

Definition parse_tc_url (s : RtmpSession) (tc_url : bytes) : RtmpSession :=
  let url := trim_start_matches "rtmps://" (trim_start_matches "rtmp://" tc_url) in
  match splitn 2 47 url with
  | _ :: path :: _ =>
      let app_parts := splitn 2 47 path in
      set_names s (default (str "live") (app_parts !! 0%nat)) (default [] (app_parts !! 1%nat)) (is_publisher s)
  | _ => s
  end.

Definition connect_property (s : RtmpSession) (kv : bytes * AmfValue) : RtmpSession :=
  if bool_decide (kv.1 = str "tcUrl") then
    match kv.2 with AmfString tc_url => parse_tc_url s tc_url | _ => s end
  else s.

Definition connect_result : RtmpMessage :=
  command 0 [text "_result"; number 1;
    AmfObject [field "fmsVer" (text "FMS/3,0,1,123"); field "capabilities" (number 31)];
    AmfObject (status_info "status" "NetConnection.Connect.Success" (str "Connection succeeded.") ++
      [field "objectEncoding" (number 0);
       field "data" (AmfObject [field "version" (text "FMS/3,0,1,123"); field "capabilities" (number 31)])])].

Definition connect_status : RtmpMessage :=
  on_status 0 (status_info "status" "NetConnection.Connect.Success" (str "Connection succeeded.") ++
    [field "objectEncoding" (number 0)]).

Definition handle_connect (w : World) (s : RtmpSession) (values : list AmfValue) : StepResult :=
  let props_obj := match values !! 2%nat with Some v => Some v | None => values !! 1%nat end in
  let s := match props_obj with
           | Some (AmfObject props) => foldl connect_property s props
           | _ => s
           end in
  after (send_msgs w s [WindowAckSize 2500000; SetPeerBandwidth 2500000 2; SetChunkSize 4096]) (fun s =>
    send_msgs w (set_encoder s (encoder_set_chunk_size (msg_encoder s) 4096)) [connect_result; connect_status]).

Definition handle_create_stream (w : World) (s : RtmpSession) (values : list AmfValue) : StepResult :=
  let txn_id := match values !! 1%nat with Some (AmfNumber n) => n | _ => u32_to_f64 1 end in
  let s := set_stream_id s 1 in
  send_msg w s (command 0 [text "_result"; AmfNumber txn_id; AmfNull; number (stream_id s)]).

(** The bare stream name and the value of [sign] in its query. *)
Definition split_stream_sign (name : bytes) : bytes * bytes :=
  match split_once 63 name with
  | Some (base, query) =>
      (base, match List.find (fun kv : bytes * bytes => bool_decide (kv.1 = str "sign"))
                     (omap (split_once 61) (split 38 query)) with
             | Some (_, v) => v
             | None => []
             end)
  | None => (name, [])
  end.

Definition named (values : list AmfValue) (i : nat) (old : bytes) : bytes :=
  match values !! i with
  | Some (AmfString []) => old
  | Some (AmfString name) => name
  | _ => old
  end.

Definition send_publish_not_allowed (w : World) (s : RtmpSession) (reason : bytes) : StepResult :=
  send_msg w s (on_status (stream_id s) (status_info "error" "NetStream.Publish.NotAllowed" reason)).

Definition send_play_not_allowed (w : World) (s : RtmpSession) (reason : bytes) : StepResult :=
  send_msg w s (on_status (stream_id s) (status_info "error" "NetStream.Play.NotAllowed" reason)).

(** [format!("{}/{}", self.app, self.stream_name)] *)
Definition target (s : RtmpSession) : bytes := app s ++ [47] ++ stream_name s.

Definition send_play_started (w : World) (s : RtmpSession) (vod : bool) : StepResult :=
  send_msgs w s
    [on_status 0 (status_info "status" "NetStream.Play.Reset" (str "Playing reset of " ++ target s));
     on_status 0 (status_info "status" "NetStream.Play.Start"
       ((if vod then str "Playing MP4 archive " else str "Playing ") ++ target s))].

(** ** Handlers that depend on the credentials *)

Definition DEFAULT_VHOST : bytes := str "__defaultVhost__".

Definition cleanup (s : RtmpSession) : RtmpSession * list Action :=
  (set_source s None, if is_publisher s then [StreamUnPublish (names s); CloseStream (names s)] else []).

Definition start_vod_playback (w : World) (s : RtmpSession) (playback : Z -> list MediaFrame) (start : Z) (limit : option Z) :
    StepResult :=
  let frames := playback start in
  after (send_play_started w s true) (fun s =>
    if connected s then emit (set_connected s false) [VodTask (names s) (msg_encoder s) (stream_id s) frames limit]
    else emit s []).

Section Handlers.
Context `{AuthPrimitives}.
Implicit Types (w : World) (s : RtmpSession).

Definition handle_publish w s (values : list AmfValue) : StepResult :=
  let s := set_names s (app s) (stream_name s) true in
  let s := set_names s (app s) (named values 3 (stream_name s)) true in
  let '(stream_base, sign) := split_stream_sign (stream_name s) in
  let s := set_names s (app s) stream_base true in
  match on_publish w (names s) sign with
  | Some msg => send_publish_not_allowed w s msg
  | None =>
      if negb (check (auth s) DEFAULT_VHOST (app s) (stream_name s) (str "pub") sign)
      then send_publish_not_allowed w s (str "auth failed") else
      after (emit (set_source s (Some (names s))) [CreateSource (names s); ClearTracks (names s); StreamPublish (names s)])
        (fun s => send_msg w s (on_status (stream_id s)
           (status_info "status" "NetStream.Publish.Start" (str "Publishing on " ++ target s))))
  end.

Definition handle_play w s (values : list AmfValue) : StepResult :=
  let name := match values !! 3%nat with
              | Some (AmfString _) => named values 3 (stream_name s)
              | _ => named values 1 (stream_name s)
              end in
  let '(stream_base, sign) := split_stream_sign name in
  let s := set_names s (app s) stream_base false in
  let requested_start_ms := match values !! 4%nat with
                            | Some (AmfNumber v) => if f64_nonnegative v then f64_to_u64 v else 0
                            | _ => 0
                            end in
  let requested_duration_ms := match values !! 5%nat with
                               | Some (AmfNumber v) => if f64_positive v then Some (f64_to_u64 v) else None
                               | _ => None
                               end in
  match on_play w (names s) sign with
  | Some msg => send_play_not_allowed w s msg
  | None =>
      if negb (check (auth s) DEFAULT_VHOST (app s) (stream_name s) (str "play") sign)
      then send_play_not_allowed w s (str "auth failed") else
      after (send_msg w s (UserControl 0 (to_be 4 (stream_id s)))) (fun s =>
      if get_or_pull w (names s) then
        after (send_play_started w (set_source s (Some (names s))) false) (fun s =>
          let cached := latest_gop w (names s) in
          if connected s
          then emit (set_connected s false) [Subscribe (names s); PlayTask (names s) (msg_encoder s) (stream_id s) cached]
          else emit s [Subscribe (names s); Unsubscribe (names s)])
      else match open_vod w (names s) with
           | Some playback => start_vod_playback w s playback requested_start_ms requested_duration_ms
           | None =>
               after (emit s [OnStreamNotFound (names s)]) (fun s =>
                 send_msg w s (on_status 0 (status_info "error" "NetStream.Play.StreamNotFound" (str "Stream not found."))))
           end)
  end.

Definition finish s : StepResult := let '(s, acts) := cleanup s in emit s acts.

Definition handle_command w s (values : list AmfValue) : StepResult :=
  match values with
  | AmfString cmd :: _ =>
      if bool_decide (cmd = str "connect") then handle_connect w s values
      else if bool_decide (cmd = str "releaseStream") then
        match values !! 1%nat with
        | Some (AmfString key) => emit (set_names s (app s) key (is_publisher s)) []
        | _ => emit s []
        end
      else if bool_decide (cmd = str "createStream") then handle_create_stream w s values
      else if bool_decide (cmd = str "publish") then handle_publish w s values
      else if bool_decide (cmd = str "play") then handle_play w s values
      else if bool_decide (cmd = str "deleteStream") || bool_decide (cmd = str "closeStream") then finish s
      else if bool_decide (cmd = str "getStreamLength") then
        send_msg w s (command 0 [text "_result"; default (number 0) (values !! 1%nat); AmfNull; number 0])
      else emit s []
  | _ => emit s []
  end.

Definition handle_data s (data : bytes) (values : list AmfValue) : StepResult :=
  match values, source s with
  | AmfString cmd :: _, Some id =>
      emit s (if bool_decide (cmd = str "onMetaData") && is_publisher s then [PublishFrame id (metadata_frame data)] else [])
  | _, _ => emit s []
  end.

Definition handle_video w s (timestamp : Z) (data : bytes) : StepResult :=
  if negb (is_publisher s) then emit s [] else
  lift s (normalize_enhanced_video data) (fun normalized =>
    match source s, normalized with
    | Some id, Some data =>
        lift s (parse_video_rtmp_packet data) (fun '(codec, key_frame, is_config) =>
          emit s ((if is_config && bool_decide (length (source_tracks w id) = 0%nat) then [PushTrack id (default_video codec)] else []) ++
                  [PublishFrame id (video_frame timestamp data codec key_frame is_config)]))
    | _, _ => emit s []
    end).

Definition handle_audio w s (timestamp : Z) (data : bytes) : StepResult :=
  match source s with
  | Some id =>
      if negb (is_publisher s) then emit s [] else
      emit s ((if audio_is_config data && negb (existsb is_audio_track (source_tracks w id))
               then [PushTrack id (default_audio (parse_audio_rtmp_packet data))] else []) ++
              [PublishFrame id (audio_frame timestamp data)])
  | None => emit s []
  end.

Definition handle_message w s (msg : RtmpMessage) : StepResult :=
  match msg with
  | SetChunkSize size => emit (set_parser s (set_chunk_size (msg_parser s) size)) []
  | WindowAckSize size =>
      after (send_msg w (set_window s (total_read s) size (last_ack_seq s)) (SetPeerBandwidth size 2)) (send_window_ack w)
  | Amf0Command _ _ data => lift s (amf_decode data) (handle_command w s)
  | Amf0Data _ _ data => lift s (amf_decode data) (handle_data s data)
  | UserControl event_type data =>
      match data with
      | d0 :: d1 :: d2 :: d3 :: _ => if event_type =? 6 then send_msg w s (Ack (from_be [d0; d1; d2; d3])) else emit s []
      | _ => emit s []
      end
  | VideoMessage _ timestamp data => handle_video w s timestamp data
  | AudioMessage _ timestamp data => handle_audio w s timestamp data
  | Ack _ | SetPeerBandwidth _ _ | AbortMessage _ => emit s []
  end.

(** The messages of one read; an error skips the rest of them. *)
Fixpoint handle_messages (env : nat -> World) s (ms : list RtmpMessage) : StepResult :=
  match ms with
  | [] => emit s []
  | m :: ms =>
      let '(s, acts, st) := handle_message (env 0%nat) s m in
      match st with
      | Go => let '(s, acts', st) := handle_messages (fun i => env (S i)) s ms in (s, acts ++ acts', st)
      | Failed _ => emit s acts
      | Crashed => (s, acts, Crashed)
      end
  end.

(** One turn of the read loop; [u64] overflow panics. *)
Definition on_read (env : nat -> World) s (data : bytes) : StepResult :=
  let total := total_read s + zlen data in
  if 2 ^ 64 <=? total then (s, [], Crashed) else
  let s := set_window s total (client_win_size s) (last_ack_seq s) in
  lift s (feed (msg_parser s) data) (fun '(p, messages) =>
    after (handle_messages env (set_parser s p) messages) (send_window_ack (env (length messages)))).

(** The loop ends when the peer closes, a read fails or the connection was
    handed to a playing task. *)
Fixpoint run s (reads : list ((nat -> World) * bytes)) : StepResult :=
  match reads with
  | [] => finish s
  | (env, data) :: reads =>
      if connected s then after (on_read env s data) (fun s => run s reads) else finish s
  end.

End Handlers.

(** ** The playing tasks *)

(** The messages of a list of frames, in order. *)
Fixpoint play_messages (stream_id : Z) (frames : list MediaFrame) : result (list RtmpMessage) :=
  match frames with
  | [] => Ok []
  | f :: frames =>
      m ← media_frame_to_rtmp_message f stream_id;
      ms ← play_messages stream_id frames;
      Ok (option_list m ++ ms)
  end.

(** The bytes a task writes: the cached frames, then those received after. *)
Fixpoint encode_all (e : RtmpMessageEncoder) (ms : list RtmpMessage) : result bytes :=
  match ms with
  | [] => Ok []
  | m :: ms => b ← encode e m; bs ← encode_all e ms; Ok (b ++ bs)
  end.

Definition play_task (e : RtmpMessageEncoder) (stream_id : Z) (cached live : list MediaFrame) : result bytes :=
  ms ← play_messages stream_id (cached ++ live);
  encode_all e ms.

(** The frames of a recording up to the requested duration. *)
Fixpoint vod_frames (limit : option Z) (frames : list MediaFrame) : list MediaFrame :=
  match frames with
  | [] => []
  | f :: frames =>
      if negb (config_frame f) && match limit with Some l => l <? timestamp f | None => false end then []
      else f :: vod_frames limit frames
  end.

Definition play_stop_message : RtmpMessage :=
  on_status 0 (status_info "status" "NetStream.Play.Stop" (str "MP4 archive playback complete")).

Definition vod_task (e : RtmpMessageEncoder) (stream_id : Z) (frames : list MediaFrame) (limit : option Z) : result bytes :=
  ms ← play_messages stream_id (vod_frames limit frames);
  encode_all e (ms ++ [play_stop_message; UserControl 1 (to_be 4 stream_id)]).

(** ** What every handler keeps

    One relation between the state before, the actions and the state after,
    closed under sequencing; each handler satisfies it. *)

Definition is_task (a : Action) : bool :=
  match a with PlayTask _ _ _ _ | VodTask _ _ _ _ _ => true | _ => false end.
Definition is_send (a : Action) : bool := match a with Send _ _ => true | _ => false end.

(** The connection as a token: a session writes while it holds it, and handing
    it to a playing task gives it up for good. *)
Inductive hands_over : bool -> list Action -> bool -> Prop :=
| ho_nil b : hands_over b [] b
| ho_quiet b a acts b' :
    is_send a = false -> is_task a = false -> hands_over b acts b' -> hands_over b (a :: acts) b'
| ho_send m bs acts b' : hands_over true acts b' -> hands_over true (Send m bs :: acts) b'
| ho_task a acts b' : is_task a = true -> hands_over false acts b' -> hands_over true (a :: acts) b'.

#[local] Hint Constructors hands_over : core.

Lemma hands_over_app b acts b' acts' b'' :
  hands_over b acts b' -> hands_over b' acts' b'' -> hands_over b (acts ++ acts') b''.
Proof. induction 1; intros; cbn; eauto. Qed.

(** Without the token nothing is written and no task starts. *)
Lemma hands_over_false acts b' :
  hands_over false acts b' -> b' = false /\ Forall (fun a => is_send a = false /\ is_task a = false) acts.
Proof.
  intros H. remember false as b eqn:Hb. induction H; subst; try done.
  destruct IHhands_over as [-> ?]; [done|]. eauto.
Qed.

Lemma hands_over_task b pre a post b' :
  hands_over b (pre ++ a :: post) b' -> is_task a = true ->
  b' = false /\ Forall (fun a => is_send a = false /\ is_task a = false) post.
Proof.
  intros H Ha. remember (pre ++ a :: post) as acts eqn:Hacts. revert pre Hacts.
  induction H as [|? a' ? ? Hs Ht ? IH|? ? ? ? ? IH|a' ? ? Ht H _]; intros [|c pre] Heq; simplify_eq/=; try congruence; eauto.
  - by apply hands_over_false.
  - apply hands_over_false in H as [-> H]. rewrite Forall_app, Forall_cons in H. destruct H as (_ & [_ H] & _). congruence.
Qed.

Section Invariants.
Context `{AuthPrimitives}.
(** The answers the session may get. *)
Variable W : World -> Prop.
Implicit Types (w : World) (s : RtmpSession).

(** An operation on [id] that the hook let pass and whose signature is right. *)
Definition granted (a : StreamAuth) (hook : World -> StreamId -> bytes -> option bytes) (action : string) (id : StreamId) : Prop :=
  exists w sign, W w /\ hook w id sign = None /\ check a DEFAULT_VHOST id.1 id.2 (str action) sign = true.

Definition may_publish (a : StreamAuth) (id : StreamId) : Prop := granted a on_publish "pub" id.
Definition may_play (a : StreamAuth) (id : StreamId) : Prop := granted a on_play "play" id.

Definition action_granted (a : StreamAuth) (act : Action) : Prop :=
  match act with
  | CreateSource id | ClearTracks id | StreamPublish id => may_publish a id
  | Subscribe id | PlayTask id _ _ _ | VodTask id _ _ _ _ => may_play a id
  | PushTrack id _ | PublishFrame id _ => may_publish a id \/ may_play a id
  | _ => True
  end.

Definition source_granted s : Prop := forall id, source s = Some id -> may_publish (auth s) id \/ may_play (auth s) id.

Record good s (acts : list Action) s' : Prop := {
  g_auth : auth s' = auth s;
  g_total : total_read s' = total_read s;
  g_ack : last_ack_seq s' = last_ack_seq s \/ last_ack_seq s' = total_read s;
  g_encoder : (0 < enc_chunk_size (msg_encoder s'))%nat;
  g_writer : hands_over (connected s) acts (connected s');
  g_source : source_granted s -> source_granted s' /\ Forall (action_granted (auth s)) acts
}.

Definition step_ok s (r : StepResult) : Prop :=
  (0 < enc_chunk_size (msg_encoder s))%nat ->
  let '(s', acts, st) := r in st <> Crashed /\ good s acts s'.

Lemma good_trans s acts s' acts' s'' : good s acts s' -> good s' acts' s'' -> good s (acts ++ acts') s''.
Proof.
  intros [A1 T1 K1 E1 W1 G1] [A2 T2 K2 E2 W2 G2]. split; try congruence; [|by eapply hands_over_app|].
  - rewrite T1 in K2. destruct K2 as [-> | ->]; [done|by right].
  - intros Hs. destruct (G1 Hs) as [Hs' F1]. destruct (G2 Hs') as [? F2]. split; [done|].
    rewrite A1 in F2. by apply Forall_app.
Qed.

Lemma step_ok_after s r k :
  step_ok s r -> (forall s' acts, r = (s', acts, Go) -> step_ok s' (k s')) -> step_ok s (after r k).
Proof.
  intros Hr Hk He. destruct r as [[s' acts] st]. destruct (Hr He) as [Hst Hg]. cbn. destruct st; try done.
  specialize (Hk s' acts eq_refl (g_encoder _ _ _ Hg)). destruct (k s') as [[s'' acts'] st']. destruct Hk as [? Hg'].
  split; [done|]. by eapply good_trans.
Qed.

(** A handler that only assigns fields the relation does not mention. *)
Lemma step_ok_assign s s' r :
  auth s' = auth s -> total_read s' = total_read s -> last_ack_seq s' = last_ack_seq s ->
  enc_chunk_size (msg_encoder s') = enc_chunk_size (msg_encoder s) -> connected s' = connected s -> source s' = source s ->
  step_ok s' r -> step_ok s r.
Proof.
  intros Ha Ht Hk He Hc Hs Hr Hp. rewrite <-He in Hp. specialize (Hr Hp). destruct r as [[s'' acts] st].
  destruct Hr as [? [A T K E Wr G]]. split; [done|]. unfold source_granted in *. rewrite Hs, Ha in G.
  split; [congruence|congruence|rewrite Ht, Hk in K; done|done|by rewrite <-Hc|done].
Qed.

Lemma step_ok_emit s acts :
  Forall (fun a => is_send a = false /\ is_task a = false) acts ->
  (source_granted s -> Forall (action_granted (auth s)) acts) -> step_ok s (emit s acts).
Proof.
  intros Hq Hg He. split; [done|]. split; eauto.
  clear Hg. induction Hq as [|a acts [? ?] ? IH]; eauto.
Qed.

Lemma step_ok_send w s m : step_ok s (send_msg w s m).
Proof.
  intros He. unfold send_msg. destruct (connected s) eqn:Hc; [|by apply step_ok_emit].
  rewrite encode_chunks by done. cbn [lift]. destruct (write_ok w m).
  - split; [done|]. split; eauto; [rewrite Hc; eauto|]. intros. split; [done|by repeat constructor].
  - split; [done|]. split; eauto.
Qed.

Lemma step_ok_sends w s ms : step_ok s (send_msgs w s ms).
Proof.
  revert s. induction ms as [|m ms IH]; intros s; [by apply step_ok_emit|]. apply step_ok_after; [apply step_ok_send|eauto].
Qed.

Lemma step_ok_ack w s : step_ok s (send_window_ack w s).
Proof.
  intros He. unfold send_window_ack. destruct (_ <=? _); [|by apply step_ok_emit].
  destruct (connected s) eqn:Hc; [|by apply step_ok_emit].
  rewrite encode_chunks by done. cbn [lift]. split; [done|].
  split; eauto; [cbn [connected set_window]; rewrite Hc; destruct (write_ok _ _); eauto|].
  intros. split; [done|]. destruct (write_ok _ _); by repeat constructor.
Qed.

Lemma step_ok_encoder s e r :
  (0 < enc_chunk_size e)%nat -> step_ok (set_encoder s e) r -> step_ok s r.
Proof.
  intros He Hr _. specialize (Hr He). destruct r as [[s' acts] st]. destruct Hr as [? [A T K E Wr G]]. by split.
Qed.

(** Handing the connection to a task. *)
Lemma step_ok_task s acts task :
  connected s = true -> is_task task = true -> Forall (fun a => is_send a = false /\ is_task a = false) acts ->
  (source_granted s -> Forall (action_granted (auth s)) (acts ++ [task])) ->
  step_ok s (emit (set_connected s false) (acts ++ [task])).
Proof.
  intros Hc Ht Hq Hg He. split; [done|]. split; eauto.
  rewrite Hc. cbn. clear Hg. induction Hq as [|a acts [? ?] ? IH]; cbn; eauto.
Qed.

(** [step_ok] modulo assignments to the fields the relation does not mention. *)
Ltac assigned x := eapply (step_ok_assign _ x); [reflexivity..|].

Lemma step_ok_connect w s values : step_ok s (handle_connect w s values).
Proof.
  unfold handle_connect. set (s0 := match _ with Some (AmfObject props) => _ | _ => _ end).
  assert (auth s0 = auth s /\ total_read s0 = total_read s /\ last_ack_seq s0 = last_ack_seq s /\
    msg_encoder s0 = msg_encoder s /\ connected s0 = connected s /\ source s0 = source s) as (Ha & Ht & Hk & He & Hc & Hs).
  { subst s0. destruct (match values !! 2%nat with Some v => _ | None => _ end) as [[]|]; try done.
    assert (forall kv s, let s' := connect_property s kv in
      auth s' = auth s /\ total_read s' = total_read s /\ last_ack_seq s' = last_ack_seq s /\
      msg_encoder s' = msg_encoder s /\ connected s' = connected s /\ source s' = source s) as Hstep.
    { intros kv s1. unfold connect_property, parse_tc_url. destruct (bool_decide _); [|done]. destruct (kv.2); try done.
      destruct (splitn _ _ _) as [|? [|? ?]]; done. }
    clear -Hstep. revert s. induction pairs as [|kv l IH]; intros s; [done|]. cbn [foldl].
    destruct (IH (connect_property s kv)) as (-> & -> & -> & -> & -> & ->). apply Hstep. }
  apply (step_ok_assign _ s0); try done; [by rewrite He|].
  apply step_ok_after; [apply step_ok_sends|]. intros s' acts _.
  eapply step_ok_encoder; [|apply step_ok_sends]. cbn. lia.
Qed.

Lemma step_ok_create w s values : step_ok s (handle_create_stream w s values).
Proof. unfold handle_create_stream. assigned (set_stream_id s 1). apply step_ok_send. Qed.

Lemma step_ok_publish w s values : W w -> step_ok s (handle_publish w s values).
Proof.
  intros Hw. unfold handle_publish. cbn [app stream_name set_names].
  destruct (split_stream_sign _) as [base sign]. set (s1 := set_names s (app s) base true).
  assert (forall r, step_ok s1 r -> step_ok s r) as Hs1.
  { intros r Hr. by assigned s1. }
  change (set_names _ (app s) base true) with s1. apply Hs1. change (app s) with (app s1).
  destruct (on_publish w (names s1) sign) eqn:Hhook; [apply step_ok_send|].
  destruct (check (auth s1) _ _ _ _ sign) eqn:Hcheck; [|apply step_ok_send].
  cbn [negb]. apply step_ok_after; [|intros; apply step_ok_send].
  assert (may_publish (auth s1) (names s1)) as Hm by (by exists w, sign).
  intros He. split; [done|]. split; eauto 6.
  intros Hg. split; [|by repeat constructor]. intros id. cbn. intros [= <-]. by left.
Qed.

(** Only the source of a playing session is not yet granted when it is set. *)
Lemma step_ok_set_source s id r :
  may_play (auth s) id -> step_ok (set_source s (Some id)) r -> step_ok s r.
Proof.
  intros Hm Hr He. specialize (Hr He). destruct r as [[s' acts] st]. destruct Hr as [? [A T K E Wr G]].
  split; [done|]. split; try done. intros Hs. apply G. intros id'. cbn. intros [= <-]. by right.
Qed.

Lemma names_after w s ms s' acts : send_msgs w s ms = (s', acts, Go) -> s' = s.
Proof.
  revert acts. induction ms as [|m ms IH]; intros acts; cbn; [by intros [= <-]|].
  unfold send_msg. destruct (connected s).
  - destruct (encode (msg_encoder s) m); cbn; try done. destruct (write_ok w m); cbn; [|done].
    destruct (send_msgs w s ms) as [[s1 a1] st] eqn:Hm. intros [= -> _ ->]. by eapply IH.
  - cbn. destruct (send_msgs w s ms) as [[s1 a1] st] eqn:Hm. intros [= -> _ ->]. by eapply IH.
Qed.

Lemma step_ok_vod w s playback start limit :
  may_play (auth s) (names s) -> step_ok s (start_vod_playback w s playback start limit).
Proof.
  intros Hm. apply step_ok_after; [apply step_ok_sends|]. intros s' acts ->%names_after.
  destruct (connected s) eqn:Hc; [|by apply step_ok_emit].
  apply (step_ok_task s [] (VodTask (names s) (msg_encoder s) (stream_id s) (playback start) limit)); try done.
  intros _. by repeat constructor.
Qed.

Lemma step_ok_play w s values : W w -> step_ok s (handle_play w s values).
Proof.
  intros Hw. unfold handle_play. destruct (split_stream_sign _) as [base sign].
  set (s1 := set_names s (app s) base false). assigned s1.
  destruct (on_play w (names s1) sign) eqn:Hhook; [apply step_ok_send|].
  destruct (check (auth s1) DEFAULT_VHOST (app s1) (stream_name s1) (str "play") sign) eqn:Hcheck; [|apply step_ok_send].
  cbn [negb]. assert (may_play (auth s1) (names s1)) as Hm by (by exists w, sign).
  clearbody s1. clear Hhook Hcheck.
  set (start := match values !! 4%nat with Some (AmfNumber v) => _ | _ => _ end).
  set (limit := match values !! 5%nat with Some (AmfNumber v) => _ | _ => _ end).
  change (send_msg w s1 ?m) with (send_msg w s1 m).
  apply step_ok_after; [apply step_ok_send|]. intros s2 acts Hs2.
  assert (s2 = s1) as ->.
  { unfold send_msg in Hs2. destruct (connected s1); [|by inv Hs2].
    destruct (encode _ _); cbn in Hs2; try done. destruct (write_ok w _); by inv Hs2. }
  destruct (get_or_pull w (names s1)).
  - apply (step_ok_set_source _ (names s1) _ Hm). apply step_ok_after; [apply step_ok_sends|].
    intros s3 acts3 ->%names_after. change (connected (set_source s1 _)) with (connected s1).
    destruct (connected s1) eqn:Hc.
    + apply (step_ok_task (set_source s1 (Some (names s1))) [Subscribe (names s1)]
        (PlayTask (names s1) (msg_encoder s1) (stream_id s1) (latest_gop w (names s1)))); try done.
      * by repeat constructor.
      * intros _. by repeat constructor.
    + apply step_ok_emit; [by repeat constructor|]. intros _. by repeat constructor.
  - destruct (open_vod w (names s1)); [by apply step_ok_vod|].
    apply step_ok_after; [|intros; apply step_ok_send]. apply step_ok_emit; by repeat constructor.
Qed.

Lemma step_ok_finish s : step_ok s (finish s).
Proof.
  intros He. unfold finish, cleanup. cbn. split; [done|]. split; eauto; [|intros; split; [done|]].
  - destruct (is_publisher s); cbn; eauto.
  - destruct (is_publisher s); by repeat constructor.
Qed.

Lemma step_ok_command w s values : W w -> step_ok s (handle_command w s values).
Proof.
  intros Hw. unfold handle_command. destruct values as [|v values]; [by apply step_ok_emit|].
  destruct v; try (by apply step_ok_emit).
  repeat match goal with |- context [if ?b then _ else _] => destruct b end;
    auto using step_ok_connect, step_ok_create, step_ok_publish, step_ok_play, step_ok_finish, step_ok_send;
    try (by apply step_ok_emit).
  all: destruct (_ !! 1%nat) as [[]|]; try (by apply step_ok_emit).
  all: eapply (step_ok_assign _ (set_names s (app s) _ (is_publisher s))); [reflexivity..|by apply step_ok_emit].
Qed.

Lemma normalize_safe d : exists o, normalize_enhanced_video d = Ok o.
Proof.
  assert (wp (normalize_enhanced_video d) (fun _ => True) (fun _ => False)) as Hw.
  { unfold normalize_enhanced_video. wp_auto; wp_side. }
  destruct (normalize_enhanced_video d); try done. eauto.
Qed.

Lemma parse_video_safe d : exists c key config, parse_video_rtmp_packet d = Ok (c, key, config).
Proof.
  assert (wp (parse_video_rtmp_packet d) (fun _ => True) (fun _ => False)) as Hw.
  { unfold parse_video_rtmp_packet. wp_auto; wp_side. }
  destruct (parse_video_rtmp_packet d) as [[[c k] g]| | |]; try done. eauto.
Qed.

(** Frames and tracks for the current source. *)
Lemma step_ok_media s id acts :
  source s = Some id -> Forall (fun a => match a with PublishFrame i _ | PushTrack i _ => i = id | _ => False end) acts ->
  step_ok s (emit s acts).
Proof.
  intros Hs Hf. apply step_ok_emit.
  - eapply Forall_impl; [done|]. by intros [].
  - intros Hg. eapply Forall_impl; [done|]. intros []; try done; intros <-; by apply Hg.
Qed.

Lemma step_ok_video w s ts d : step_ok s (handle_video w s ts d).
Proof.
  unfold handle_video. destruct (is_publisher s); [cbn [negb]|by apply step_ok_emit].
  destruct (normalize_safe d) as [o ->]. cbn [lift]. destruct (source s) as [id|] eqn:Hs; [|by apply step_ok_emit].
  destruct o as [d'|]; [|by apply step_ok_emit].
  destruct (parse_video_safe d') as (c & k & g & ->). cbn [lift].
  apply (step_ok_media _ id); [done|]. destruct (_ && _); by repeat constructor.
Qed.

Lemma step_ok_audio w s ts d : step_ok s (handle_audio w s ts d).
Proof.
  unfold handle_audio. destruct (source s) as [id|] eqn:Hs; [|by apply step_ok_emit].
  destruct (is_publisher s); [cbn [negb]|by apply step_ok_emit].
  apply (step_ok_media _ id); [done|]. destruct (_ && _); by repeat constructor.
Qed.

Lemma step_ok_data s d values : step_ok s (handle_data s d values).
Proof.
  unfold handle_data. destruct values as [|[] ?]; try by apply step_ok_emit.
  destruct (source s) as [id|] eqn:Hs; [|by apply step_ok_emit].
  apply (step_ok_media _ id); [done|]. destruct (_ && _); by repeat constructor.
Qed.

Lemma step_ok_lift {A} s (r : result A) k : safe r -> (forall a, r = Ok a -> step_ok s (k a)) -> step_ok s (lift s r k).
Proof.
  intros Hr Hk. destruct r as [a|e| |]; cbn; try done; [by apply Hk|].
  intros He. split; [done|]. split; eauto.
Qed.

Lemma step_ok_message w s m : W w -> step_ok s (handle_message w s m).
Proof.
  intros Hw. destruct m as [n|n|n|ev d|n|n l|sid t d|sid t d|sid t d|sid t d]; cbn [handle_message];
    try (by apply step_ok_emit).
  - assigned (set_parser s (set_chunk_size (msg_parser s) n)). by apply step_ok_emit.
  - destruct d as [|d0 [|d1 [|d2 [|d3 d]]]]; try (by apply step_ok_emit).
    destruct (ev =? 6); [apply step_ok_send|by apply step_ok_emit].
  - assigned (set_window s (total_read s) n (last_ack_seq s)).
    apply step_ok_after; [apply step_ok_send|]. intros. apply step_ok_ack.
  - apply step_ok_audio.
  - apply step_ok_video.
  - apply step_ok_lift; [apply amf_decode_total|]. intros. apply step_ok_data.
  - apply step_ok_lift; [apply amf_decode_total|]. intros. by apply step_ok_command.
Qed.

Lemma step_ok_messages env s ms : (forall i, W (env i)) -> step_ok s (handle_messages env s ms).
Proof.
  revert env s. induction ms as [|m ms IH]; intros env s Hw; [by apply step_ok_emit|]. cbn [handle_messages]. intros He.
  pose proof (step_ok_message (env 0%nat) s m (Hw 0%nat) He) as H1.
  destruct (handle_message (env 0%nat) s m) as [[s1 acts1] st1]. destruct H1 as [Hst Hg]. destruct st1; try done.
  pose proof (IH (fun i => env (S i)) s1 (fun i => Hw (S i)) (g_encoder _ _ _ Hg)) as H2.
  destruct (handle_messages _ s1 ms) as [[s2 acts2] st2]. destruct H2 as [? Hg2]. split; [done|]. by eapply good_trans.
Qed.

(** The same for a read and a whole connection, where bytes are counted. *)
Definition acked s : Prop := 0 <= last_ack_seq s <= total_read s.

Record good_run s (acts : list Action) s' : Prop := {
  r_auth : auth s' = auth s;
  r_encoder : (0 < enc_chunk_size (msg_encoder s'))%nat;
  r_acked : acked s -> acked s';
  r_writer : hands_over (connected s) acts (connected s');
  r_source : source_granted s -> source_granted s' /\ Forall (action_granted (auth s)) acts
}.

Lemma good_run_trans s acts s' acts' s'' : good_run s acts s' -> good_run s' acts' s'' -> good_run s (acts ++ acts') s''.
Proof.
  intros [A1 E1 K1 W1 G1] [A2 E2 K2 W2 G2]. split; try congruence; [by auto|by eapply hands_over_app|].
  intros Hs. destruct (G1 Hs) as [Hs' F1]. destruct (G2 Hs') as [? F2]. split; [done|].
  rewrite A1 in F2. by apply Forall_app.
Qed.

Lemma good_is_run s acts s' : good s acts s' -> good_run s acts s'.
Proof. intros [A T K E Wr G]. split; try done. unfold acked. rewrite T. lia. Qed.

(** The bytes of the read are counted before the messages are handled. *)
Definition counted s (data : bytes) (p : RtmpMessageParser) : RtmpSession :=
  set_parser (set_window s (total_read s + zlen data) (client_win_size s) (last_ack_seq s)) p.

Lemma good_counted s data p acts s' : good (counted s data p) acts s' -> good_run s acts s'.
Proof.
  intros [A T K E Wr G]. split; try done. unfold acked. rewrite T. cbn in *. unfold zlen in *. lia.
Qed.

Lemma on_read_ok env s data p ms :
  (forall i, W (env i)) -> (0 < enc_chunk_size (msg_encoder s))%nat -> total_read s + zlen data < 2 ^ 64 ->
  feed (msg_parser s) data = Ok (p, ms) ->
  exists s1 acts1 s2 acts2, handle_messages env (counted s data p) ms = (s1, acts1, Go) /\
    send_window_ack (env (length ms)) s1 = (s2, acts2, Go) /\ on_read env s data = (s2, acts1 ++ acts2, Go) /\
    good_run s (acts1 ++ acts2) s2.
Proof.
  intros Hw He Ht Hf. unfold on_read. rewrite (proj2 (Z.leb_gt _ _)) by done. cbn [msg_parser set_window]. rewrite Hf.
  cbn [lift]. fold (counted s data p).
  assert (forall env s, match (handle_messages env s ms).2 with Failed _ => False | _ => True end) as Hnf.
  { clear. induction ms as [|m ms IH]; intros env s; [done|]. cbn [handle_messages].
    destruct (handle_message _ s m) as [[s1 a1] [| |]]; try done. specialize (IH (fun i => env (S i)) s1).
    by destruct (handle_messages _ s1 ms) as [[? ?] ?]. }
  specialize (Hnf env (counted s data p)).
  pose proof (step_ok_messages env (counted s data p) ms Hw He) as H1.
  destruct (handle_messages env _ ms) as [[s1 acts1] st1]. destruct H1 as [Hst Hg]. cbn in Hnf. destruct st1; try done.
  pose proof (step_ok_ack (env (length ms)) s1 (g_encoder _ _ _ Hg)) as H2. cbn [after].
  assert (exists s2 acts2, send_window_ack (env (length ms)) s1 = (s2, acts2, Go)) as (s2 & acts2 & Ha).
  { unfold send_window_ack in *. destruct (_ <=? _); [|by eauto]. destruct (connected s1); [|by eauto].
    rewrite encode_chunks by apply (g_encoder _ _ _ Hg). cbn. eauto. }
  rewrite Ha in *. destruct H2 as [_ Hg2]. exists s1, acts1, s2, acts2. split_and!; try done.
  eapply good_counted. by eapply good_trans.
Qed.

Lemma run_ok s reads :
  (forall env data i, (env, data) ∈ reads -> W (env i)) -> (0 < enc_chunk_size (msg_encoder s))%nat ->
  let '(s', acts, _) := run s reads in good_run s acts s'.
Proof.
  revert s. induction reads as [|[env data] reads IH]; intros s Hw He; cbn [run].
  { pose proof (step_ok_finish s He) as Hf. destruct (finish s) as [[? ?] ?]. apply good_is_run, Hf. }
  destruct (connected s) eqn:Hc.
  2: { pose proof (step_ok_finish s He) as Hf. destruct (finish s) as [[? ?] ?]. apply good_is_run, Hf. }
  assert (good_run s [] s) as Hrefl by (split; eauto).
  destruct (Z.leb_spec (2 ^ 64) (total_read s + zlen data)) as [Ho|Ho].
  { unfold on_read. rewrite (proj2 (Z.leb_le _ _) Ho). done. }
  assert (good_run s [] (set_window s (total_read s + zlen data) (client_win_size s) (last_ack_seq s))) as Hcount.
  { split; eauto. unfold acked. cbn. unfold zlen. lia. }
  destruct (feed (msg_parser s) data) as [[p ms]|e| |] eqn:Hf;
    [|by (unfold on_read; rewrite (proj2 (Z.leb_gt _ _)) by done; cbn [msg_parser set_window]; rewrite Hf)..].
  destruct (on_read_ok env s data p ms) as (s1 & a1 & s2 & a2 & _ & _ & Hr & Hg); try done.
  { intros i. eapply Hw, list_elem_of_here. }
  rewrite Hr. cbn [after]. assert (forall env' data' i, (env', data') ∈ reads -> W (env' i)) as Hw'.
  { intros. eapply Hw. by apply list_elem_of_further. }
  specialize (IH s2 Hw' (r_encoder _ _ _ Hg)). destruct (run s2 reads) as [[s3 a3] st3]. by eapply good_run_trans.
Qed.

End Invariants.

(** ** Theorems about whole connections *)

Section Connections.
Context `{AuthPrimitives}.
Implicit Types (w : World) (s : RtmpSession).

(** The answers given during a connection. *)
Definition answers (reads : list ((nat -> World) * bytes)) (w : World) : Prop :=
  exists env data i, (env, data) ∈ reads /\ w = env i.

Lemma run_new_ok a reads :
  let '(s', acts, _) := run (session_new a) reads in good_run (answers reads) (session_new a) acts s'.
Proof.
  apply run_ok; [|cbn; lia]. intros env data i Hin. by exists env, data, i.
Qed.

(** C14: what a connection does to sources is authorized.  Whatever the peer
    sends, in whatever pieces, a source is created, reset or announced only
    under a name for which the publish hook and the signature check for
    publishing passed during this connection; it is read, live or from a
    recording, only if they passed for playing; and frames and tracks reach
    only a source one of the two passed for.  A grant is an answer the hook
    gave during the connection for the name and a signature that also passes
    the check; which request presented that signature is left open. *)
Theorem rtmp_sources_authorized a reads s' acts st :
  run (session_new a) reads = (s', acts, st) -> Forall (action_granted (answers reads) a) acts.
Proof.
  intros Hr. pose proof (run_new_ok a reads) as Hg. rewrite Hr in Hg. apply (r_source _ _ _ _ Hg). by intros id.
Qed.

(** One writer per connection.  Once the session has handed its connection
    to the task that plays a source or a recording, it writes nothing more and
    starts no second task, however many messages the same read still holds. *)
Theorem rtmp_play_hands_over a reads s' acts st pre task post :
  run (session_new a) reads = (s', acts, st) -> acts = pre ++ task :: post -> is_task task = true ->
  connected s' = false /\ Forall (fun act => is_send act = false /\ is_task act = false) post.
Proof.
  intros Hr Ha Ht. pose proof (run_new_ok a reads) as Hg. rewrite Hr, Ha in Hg.
  by eapply hands_over_task; [apply (r_writer _ _ _ _ Hg)|].
Qed.

(** The peer is never left with a full window. *)
Definition windowed s : Prop :=
  connected s = true -> 0 < client_win_size s -> total_read s - last_ack_seq s < client_win_size s.

Lemma windowed_ack w s s' acts : acked s -> send_window_ack w s = (s', acts, Go) -> windowed s'.
Proof.
  unfold acked, send_window_ack. intros Hk. destruct (Z.leb_spec (client_win_size s) (Z.max 0 (total_read s - last_ack_seq s))).
  - destruct (connected s) eqn:Hc.
    + destruct (encode _ _); cbn; try done. intros [= <- _]. intros _. cbn. lia.
    + intros [= <- _]. unfold windowed. by rewrite Hc.
  - intros [= <- _] _ _. lia.
Qed.

Lemma total_after_messages env s ms s' acts st :
  (0 < enc_chunk_size (msg_encoder s))%nat -> handle_messages env s ms = (s', acts, st) -> total_read s' = total_read s.
Proof.
  intros He Hm. pose proof (step_ok_messages (fun _ => True) env s ms (fun _ => I) He) as Hg. rewrite Hm in Hg.
  apply Hg.
Qed.

Lemma run_windowed s reads s' acts :
  (0 < enc_chunk_size (msg_encoder s))%nat -> acked s -> windowed s -> run s reads = (s', acts, Go) -> connected s' = true ->
  acked s' /\ windowed s' /\ total_read s' = total_read s + zlen (concat (snd <$> reads)).
Proof.
  revert s acts. induction reads as [|[env data] reads IH]; intros s acts He Hk Hw Hr Hc; cbn [run] in Hr.
  { unfold finish, cleanup in Hr. inv Hr. split_and!; [done|done|]. cbn. unfold zlen. cbn. lia. }
  destruct (connected s) eqn:Hcs.
  2: { unfold finish, cleanup in Hr. inv Hr. cbn in Hc. congruence. }
  destruct (Z.leb_spec (2 ^ 64) (total_read s + zlen data)) as [Ho|Ho].
  { unfold on_read in Hr. by rewrite (proj2 (Z.leb_le _ _) Ho) in Hr. }
  destruct (feed (msg_parser s) data) as [[p ms]|e| |] eqn:Hf;
    [|by (unfold on_read in Hr; rewrite (proj2 (Z.leb_gt _ _)) in Hr by done; cbn [msg_parser set_window] in Hr; rewrite Hf in Hr)..].
  destruct (on_read_ok (fun _ => True) env s data p ms) as (s1 & a1 & s2 & a2 & Hm & Ha & Hrd & Hg); try done.
  rewrite Hrd in Hr. cbn [after] in Hr. destruct (run s2 reads) as [[s3 a3] st3] eqn:H3. inv Hr.
  assert (acked (counted s data p)) as Hkc by (unfold acked in *; cbn; unfold zlen in *; lia).
  pose proof (step_ok_messages (fun _ => True) env (counted s data p) ms (fun _ => I) He) as Hgm. rewrite Hm in Hgm.
  destruct Hgm as [_ Hgm]. pose proof (r_acked _ _ _ _ (good_is_run _ _ _ _ Hgm) Hkc) as Hk1.
  pose proof (step_ok_ack (fun _ => True) (env (length ms)) s1 (g_encoder _ _ _ _ Hgm)) as Hga. rewrite Ha in Hga.
  destruct Hga as [_ Hga].
  destruct (IH s2 a3) as (Hk3 & Hw3 & Ht3); try done.
  - apply (r_encoder _ _ _ _ Hg).
  - by apply (r_acked _ _ _ _ (good_is_run _ _ _ _ Hga)).
  - by eapply windowed_ack.
  - split_and!; [done|done|]. rewrite Ht3, (g_total _ _ _ _ Hga), (g_total _ _ _ _ Hgm). cbn.
    unfold zlen. rewrite length_app. lia.
Qed.

(** Flow control.  While a session holds its connection it has counted
    every byte it read, and it has acknowledged all but fewer than the peer's
    window of them: a peer that waits for an acknowledgement when its window is
    full gets it. *)
Theorem rtmp_flow_control a reads s' acts :
  run (session_new a) reads = (s', acts, Go) -> connected s' = true -> 0 < client_win_size s' ->
  total_read s' = zlen (concat (snd <$> reads)) /\
  0 <= last_ack_seq s' <= total_read s' /\ total_read s' - last_ack_seq s' < client_win_size s'.
Proof.
  intros Hr Hc Hp. destruct (run_windowed (session_new a) reads s' acts) as (Hk & Hw & Ht); try done.
  { cbn. lia. }
  specialize (Hw Hc Hp). unfold acked in Hk. cbn in Ht. lia.
Qed.

End Connections.

(** ** From a publisher to a player *)

(** An FLV payload without the enhanced header, which is passed on as it is. *)
Definition legacy (d : bytes) : bool :=
  match d with d0 :: _ => (length d <? 5)%nat || (d0 .& 0x80 =? 0) | [] => true end.

Definition media_message (m : RtmpMessage) : Prop :=
  match m with
  | AudioMessage _ _ _ => True
  | VideoMessage _ _ d => legacy d = true
  | _ => False
  end.

(** The message on another message stream. *)
Definition retarget (sid : Z) (m : RtmpMessage) : RtmpMessage :=
  match m with
  | AudioMessage _ t d => AudioMessage sid t d
  | VideoMessage _ t d => VideoMessage sid t d
  | Amf0Data _ t d => Amf0Data sid t d
  | Amf0Command _ t d => Amf0Command sid t d
  | m => m
  end.

(** The frames published to [id] among the actions. *)
Definition published_to (id : StreamId) (a : Action) : option MediaFrame :=
  match a with PublishFrame i f => if bool_decide (i = id) then Some f else None | _ => None end.
Definition published (id : StreamId) (acts : list Action) : list MediaFrame := omap (published_to id) acts.

Lemma published_app id l l' : published id (l ++ l') = published id l ++ published id l'.
Proof. apply omap_app. Qed.

Lemma published_here id f : published id [PublishFrame id f] = [f].
Proof. unfold published. cbn. by rewrite bool_decide_true. Qed.

Lemma legacy_normalize d : legacy d = true -> normalize_enhanced_video d = Ok (Some d).
Proof.
  unfold legacy, normalize_enhanced_video. destruct d as [|d0 d]; [done|].
  destruct (_ <? 5)%nat; [done|]. cbn [idx lookup list_lookup mbind outcome_bind orb]. by intros ->.
Qed.

(** The state of a session that publishes [id]. *)
Record publishing (s : RtmpSession) (id : StreamId) : Prop := {
  pub_connected : connected s = true;
  pub_flag : is_publisher s = true;
  pub_source : source s = Some id;
  pub_encoder : (0 < enc_chunk_size (msg_encoder s))%nat
}.

(** A frame in FLV layout is sent as it is. *)
Lemma flv_frame_message f sid :
  payload_format f = PfFlv -> frame_type f <> Metadata ->
  media_frame_to_rtmp_message f sid = Ok (Some (match frame_type f with
    | Video => VideoMessage sid (timestamp f) (data f)
    | _ => AudioMessage sid (timestamp f) (data f)
    end)).
Proof.
  intros Hp Ht. unfold media_frame_to_rtmp_message, flv_payload.
  destruct (is_config_frame f); cbn; rewrite Hp, orb_true_r; by destruct (frame_type f).
Qed.

Section Relay.
Context `{AuthPrimitives}.
Implicit Types (w : World) (s : RtmpSession).

Lemma handle_media w s id m sid :
  publishing s id -> media_message m ->
  exists acts f, handle_message w s m = (s, acts, Go) /\ published id acts = [f] /\
    media_frame_to_rtmp_message f sid = Ok (Some (retarget sid m)).
Proof.
  intros [Hc Hp Hs He] Hm. destruct m as [| | | | | |ms t d|ms t d| |]; try done; cbn [handle_message media_message] in *.
  - unfold handle_audio. rewrite Hs, Hp. cbn [negb]. eexists _, _. split; [done|].
    rewrite published_app, published_here. split; [by destruct (_ && _)|]. by rewrite flv_frame_message.
  - unfold handle_video. rewrite Hp, Hs. cbn [negb]. rewrite legacy_normalize by done. cbn [lift].
    destruct (parse_video_safe d) as (c & k & g & ->). cbn [lift]. eexists _, _. split; [done|].
    rewrite published_app, published_here. split; [by destruct (_ && _)|]. by rewrite flv_frame_message.
Qed.

Lemma handle_medias env s id ms sid :
  publishing s id -> Forall media_message ms ->
  exists acts, handle_messages env s ms = (s, acts, Go) /\
    play_messages sid (published id acts) = Ok (retarget sid <$> ms).
Proof.
  intros Hp Hf. revert env. induction Hf as [|m ms Hm Hf IH]; intros env; [by exists []|].
  destruct (handle_media (env 0%nat) s id m sid Hp Hm) as (acts & f & Hh & Hpub & Hmsg).
  destruct (IH (fun i => env (S i))) as (acts' & Hh' & Hpl). cbn [handle_messages]. rewrite Hh, Hh'.
  eexists. split; [done|]. rewrite published_app, Hpub. cbn [List.app play_messages]. rewrite Hmsg, Hpl. done.
Qed.

Lemma publishing_ack w s id :
  publishing s id -> exists s' acts, send_window_ack w s = (s', acts, Go) /\ publishing s' id /\
    msg_parser s' = msg_parser s /\ total_read s' = total_read s /\ names s' = names s /\ published id acts = [].
Proof.
  intros [Hc Hp Hs He]. unfold send_window_ack. destruct (_ <=? _); [rewrite Hc|eexists _, _; split; [done|by split]].
  rewrite encode_chunks by done. cbn [lift]. eexists _, _. split; [done|]. split_and!; try done.
  by destruct (write_ok w _).
Qed.

(** A read given by its chunks. *)
Definition read_bytes (r : (nat -> World) * list bytes) : (nat -> World) * bytes := (r.1, concat r.2).

(** One read of whole chunks by a publishing session. *)
Lemma publishing_read env s id cs p' ms sid :
  publishing s id -> rp_buffer (msg_parser s) = [] -> runs (msg_parser s) cs p' ms -> Forall media_message ms ->
  total_read s + zlen (concat cs) < 2 ^ 64 ->
  exists s' acts, on_read env s (concat cs) = (s', acts, Go) /\ publishing s' id /\
    msg_parser s' = Rtmp.set_buffer p' [] /\ total_read s' = total_read s + zlen (concat cs) /\ names s' = names s /\
    play_messages sid (published id acts) = Ok (retarget sid <$> ms).
Proof.
  intros Hp Hb Hr Hm Ht. unfold on_read. rewrite (proj2 (Z.leb_gt _ _)) by done. cbn [msg_parser set_window].
  rewrite (runs_feed _ _ _ _ Hr Hb). cbn [lift].
  match goal with |- context [handle_messages env ?x ms] => set (s1 := x) end.
  assert (publishing s1 id) as Hp1 by (by destruct Hp).
  destruct (handle_medias env s1 id ms sid Hp1 Hm) as (acts & Hh & Hpl). rewrite Hh. cbn [after].
  destruct (publishing_ack (env (length ms)) s1 id Hp1) as (s2 & acts2 & Ha & Hp2 & Hpar & Htot & Hn & Hnone).
  rewrite Ha. eexists _, _. split; [done|]. rewrite Hpar, Htot, Hn. split_and!; try done.
  by rewrite published_app, Hnone, app_nil_r.
Qed.

Lemma play_messages_app sid l l' ms ms' :
  play_messages sid l = Ok ms -> play_messages sid l' = Ok ms' -> play_messages sid (l ++ l') = Ok (ms ++ ms').
Proof.
  revert ms. induction l as [|f l IH]; intros ms; [by intros [= <-]|]. cbn [play_messages List.app].
  destruct (media_frame_to_rtmp_message f sid) as [o| | |]; try done. cbn [mbind outcome_bind].
  destruct (play_messages sid l) as [l1| | |]; try done. cbn. intros [= <-] Hl'. rewrite (IH l1) by done. cbn.
  by rewrite app_assoc.
Qed.

Lemma publishing_run reads s id p' ms sid :
  publishing s id -> rp_buffer (msg_parser s) = [] -> runs (msg_parser s) (concat (snd <$> reads)) p' ms ->
  Forall media_message ms -> total_read s + zlen (concat (concat (snd <$> reads))) < 2 ^ 64 ->
  exists s' acts, run s (read_bytes <$> reads) = (s', acts ++ [StreamUnPublish (names s); CloseStream (names s)], Go) /\
    play_messages sid (published id acts) = Ok (retarget sid <$> ms).
Proof.
  revert s p' ms. induction reads as [|[env cs] reads IH]; intros s p' ms Hp Hb Hr Hm Ht.
  { inv Hr. exists (set_source s None), []. cbn. unfold finish, cleanup. by rewrite (pub_flag _ _ Hp). }
  rewrite fmap_cons in Hr, Ht. cbn [snd concat] in Hr, Ht.
  apply runs_split in Hr as (q & ms1 & ms2 & H1 & H2 & ->). apply Forall_app in Hm as [Hm1 Hm2].
  rewrite concat_app in Ht. unfold zlen in Ht. rewrite length_app in Ht.
  destruct (publishing_read env s id cs q ms1 sid Hp Hb H1 Hm1) as (s1 & acts1 & Ho & Hp1 & Hpar & Htot & Hn & Hpl1).
  { unfold zlen. lia. }
  destruct (runs_set_buffer _ _ _ _ [] H2) as (q' & H2' & _). rewrite <-Hpar in H2'.
  destruct (IH s1 q' ms2 Hp1) as (s2 & acts2 & Hrun & Hpl2); try done.
  { by rewrite Hpar. }
  { rewrite Htot. unfold zlen in *. lia. }
  rewrite fmap_cons. unfold read_bytes at 1. cbn [run fst snd]. rewrite (pub_connected _ _ Hp), Ho. cbn [after].
  rewrite Hrun, Hn. eexists _, (acts1 ++ acts2). rewrite app_assoc. split; [done|].
  rewrite published_app, fmap_app. by apply play_messages_app.
Qed.

End Relay.

Lemma retarget_wf sid m : 0 <= sid < 2 ^ 24 -> message_wf m -> message_wf (retarget sid m).
Proof. intros Hs [Hp Hl Ht Hi Hf]. destruct m; by split. Qed.

(** Without chunk-size changes a stream of messages is the messages' encodings. *)
Lemma encode_all_chunks e ms :
  Forall message_wf ms -> Forall media_message ms -> (0 < enc_chunk_size e)%nat ->
  encode_all e ms = Ok (concat (stream_chunks (enc_chunk_size e) ms)).
Proof.
  intros Hw Hm He. induction Hm as [|m ms Hm Hms IH]; [done|]. apply Forall_cons in Hw as [Hw Hws].
  cbn [encode_all stream_chunks]. rewrite encode_chunks, IH by done. cbn [mbind outcome_bind].
  rewrite concat_app. by destruct m.
Qed.

Lemma retarget_media sid m : media_message m -> media_message (retarget sid m).
Proof. by destruct m. Qed.

Section RelayTheorem.
Context `{AuthPrimitives}.

(** C12: from a publisher to a player.  A session that publishes [id] reads the
    chunks of a list of audio and video messages, in reads that end at chunk
    boundaries, until its peer closes.  A task that plays the frames published
    to [id] writes messages that a client's parser, reading again at chunk
    boundaries, turns into the messages of the publisher: same kinds, order,
    timestamps and payloads, on the player's message stream.  When the peer
    has gone the session announces the end of the stream and closes it.  Both
    connections meet the condition [on_time] under which the parser reports
    timestamps correctly.  The video messages are those without the enhanced
    header ([media_message]): [normalize_enhanced_video] rewrites or drops an
    enhanced one before it is published, so it does not arrive as it was
    sent. *)
Theorem rtmp_relay s id reads ms e sid p gs :
  publishing s id -> rp_buffer (msg_parser s) = [] -> (0 < chunk_size (msg_parser s))%nat ->
  Forall message_wf ms -> Forall media_message ms ->
  concat (snd <$> reads) = stream_chunks (chunk_size (msg_parser s)) ms ->
  on_time (chunk_size (msg_parser s)) (last_timestamp (msg_parser s)) ms ->
  total_read s + zlen (concat (concat (snd <$> reads))) < 2 ^ 64 ->
  0 <= sid < 2 ^ 24 -> (0 < enc_chunk_size e)%nat -> chunk_size p = enc_chunk_size e -> rp_buffer p = [] ->
  concat gs = stream_chunks (enc_chunk_size e) (retarget sid <$> ms) ->
  on_time (chunk_size p) (last_timestamp p) (retarget sid <$> ms) ->
  exists s' acts written q,
    run s (read_bytes <$> reads) = (s', acts ++ [StreamUnPublish (names s); CloseStream (names s)], Go) /\
    play_task e sid [] (published id acts) = Ok written /\ written = concat (@concat Z <$> gs) /\
    feed_reads p (@concat Z <$> gs) = Ok (q, retarget sid <$> ms).
Proof.
  intros Hp Hb Hn Hw Hm Hreads Ht Htot Hsid He Hsz Hbp Hgs Htp.
  pose proof (stream_runs ms (msg_parser s) Hw Hn) as Hr. rewrite received_on_time in Hr by done. rewrite <-Hreads in Hr.
  destruct (publishing_run reads s id _ ms sid Hp Hb Hr Hm Htot) as (s' & acts & Hrun & Hpl).
  assert (Forall message_wf (retarget sid <$> ms)) as Hw'.
  { apply Forall_fmap. eapply Forall_impl; [exact Hw|]. intros m Hwf. exact (retarget_wf sid m Hsid Hwf). }
  assert (Forall media_message (retarget sid <$> ms)) as Hm'.
  { apply Forall_fmap. eapply Forall_impl; [exact Hm|]. intros m. exact (retarget_media sid m). }
  pose proof (stream_runs _ p Hw' ltac:(lia)) as Hr'. rewrite received_on_time in Hr' by done. rewrite Hsz, <-Hgs in Hr'.
  destruct (feed_groups _ _ _ _ Hr' Hbp) as (q & Hq & _).
  eexists s', acts, _, q. split; [done|]. split; [|split; [reflexivity|done]].
  unfold play_task. cbn [List.app]. rewrite Hpl. cbn [mbind outcome_bind]. rewrite encode_all_chunks, <-Hgs by done.
  apply (f_equal (@Ok Error bytes)). clear. induction gs as [|g gs IH]; [done|]. cbn. by rewrite concat_app, IH.
Qed.

End RelayTheorem.

(** ** Enhanced RTMP *)

(** Enhanced HEVC packets.  [normalize_enhanced_video] leaves every packet
    without the enhanced header alone; of an enhanced packet it keeps the frame
    type, the kind of packet, the composition time and the payload, in the
    layout the packet classifier reads: the result is H.265, a configuration
    exactly for a sequence start, and a key frame exactly for coded frames of
    frame type 1.  Packets of another codec or kind are dropped. *)
Theorem enhanced_video_normalized ft pt cc body :
  0 <= ft < 8 -> 0 <= pt < 16 -> length cc = 4%nat ->
  let d := (128 + ft * 16 + pt) :: cc ++ body in
  let hevc := bool_decide (cc = str "hvc1") || bool_decide (cc = str "hev1") in
  match normalize_enhanced_video d with
  | Ok (Some out) =>
      hevc = true /\
      (exists ct payload, length ct = 3%nat /\ out = (ft * 16 + 12) :: (if pt =? 0 then 0 else 1) :: ct ++ payload /\
         (if pt =? 1 then ct ++ payload = body else ct = [0; 0; 0] /\ payload = body)) /\
      parse_video_rtmp_packet out = Ok (H265, (ft =? 1) && negb (pt =? 0), pt =? 0)
  | Ok None => hevc = false \/ (pt = 1 /\ (length body < 3)%nat) \/ pt = 2 \/ 3 < pt
  | _ => False
  end.
Proof.
  intros Hft Hpt Hcc. cbv zeta.
  assert (Hbits : ((128 + ft * 16 + pt) .& 0x80 =? 0) = false /\ ((128 + ft * 16 + pt) .>> 4) .& 7 = ft /\
    (128 + ft * 16 + pt) .& 15 = pt /\ (ft .<< 4) .| 12 = ft * 16 + 12 /\ ((ft * 16 + 12) .& 0x80 =? 0) = true /\
    ((ft * 16 + 12) .>> 4) .& 15 = ft /\ (ft * 16 + 12) .& 15 = 12).
  { assert (forallb (fun f => forallb (fun t => bool_decide
      ((((128 + f * 16 + t) .& 0x80 =? 0) = false /\ ((128 + f * 16 + t) .>> 4) .& 7 = f /\
      (128 + f * 16 + t) .& 15 = t /\ (f .<< 4) .| 12 = f * 16 + 12 /\ ((f * 16 + 12) .& 0x80 =? 0) = true /\
      ((f * 16 + 12) .>> 4) .& 15 = f /\ (f * 16 + 12) .& 15 = 12))) (seqZ 0 16)) (seqZ 0 8) = true) as Hall
      by (vm_compute; reflexivity).
    rewrite forallb_forall in Hall. specialize (Hall ft). rewrite forallb_forall in Hall.
    apply (bool_decide_eq_true_1 _ (Hall (proj1 (list_elem_of_In _ _) (proj2 (elem_of_seqZ 0 8 ft) ltac:(lia))) pt
      (proj1 (list_elem_of_In _ _) (proj2 (elem_of_seqZ 0 16 pt) ltac:(lia))))). }
  destruct Hbits as (B1 & B2 & B3 & B4 & B5 & B6 & B7).
  set (hd := 128 + ft * 16 + pt) in *. clearbody hd.
  destruct cc as [|c1 [|c2 [|c3 [|c4 [|]]]]]; try done. clear Hcc. cbn [List.app].
  assert (forall k rest, k = 0 \/ k = 1 -> parse_video_rtmp_packet ((ft * 16 + 12) :: k :: rest) =
    Ok (H265, (ft =? 1) && negb (k =? 0), k =? 0)) as Hparse.
  { intros k rest Hk. unfold parse_video_rtmp_packet. cbn [length Nat.ltb Nat.leb idx lookup list_lookup mbind outcome_bind].
    rewrite B5, B6, B7. cbn [negb andb]. by destruct Hk as [-> | ->]. }
  unfold normalize_enhanced_video. cbn [length Nat.ltb Nat.leb idx lookup list_lookup mbind outcome_bind].
  rewrite B1, B2, B3, B4. rewrite (slice_ok _ 1 5) by (cbn [length]; lia). cbn [mbind outcome_bind drop take Nat.sub].
  set (h1 := bool_decide (_ = str "hvc1")). set (h2 := bool_decide (_ = str "hev1")).
  destruct (negb h1 && negb h2) eqn:Hh; cbv beta iota zeta; [left; by destruct h1, h2|].
  assert (h1 || h2 = true) as -> by (by destruct h1, h2).
  destruct (Z.eqb_spec pt 0) as [->|H0]; cbv iota.
  { rewrite (slice_ok _ 5) by (cbn [length]; lia). cbn [mbind outcome_bind length drop List.app]. rewrite (take_ge body) by lia.
    split_and!; [done| |by apply (Hparse 0); left]. exists [0; 0; 0], body. done. }
  destruct (Z.eqb_spec pt 1) as [->|H1]; cbv iota.
  { destruct body as [|e0 [|e1 [|e2 body]]]; try (right; left; cbn; lia).
    cbn [length Nat.ltb Nat.leb]. rewrite (slice_ok _ 5 8) by (cbn [length]; lia). change (8 - 5)%nat with 3%nat. cbn [mbind outcome_bind].
    rewrite (slice_ok _ 8) by (cbn [length]; lia). cbn [mbind outcome_bind drop length List.app].
    rewrite (take_ge body) by lia. cbn [take].
    split_and!; [done| |by apply (Hparse 1); right]. exists [e0; e1; e2], body. done. }
  destruct (Z.eqb_spec pt 3) as [->|H3]; cbv iota.
  { rewrite (slice_ok _ 5) by (cbn [length]; lia). cbn [mbind outcome_bind length drop List.app]. rewrite (take_ge body) by lia.
    split_and!; [done| |by apply (Hparse 1); right]. exists [0; 0; 0], body. done. }
  right; right. lia.
Qed.

Lemma enhanced_video_normalized_witness :
  normalize_enhanced_video (0x91 :: str "hvc1" ++ [0; 1; 2; 0xAA]) = Ok (Some [0x1C; 1; 0; 1; 2; 0xAA]) /\
  parse_video_rtmp_packet [0x1C; 1; 0; 1; 2; 0xAA] = Ok (H265, true, false).
Proof.
  pose proof (enhanced_video_normalized 1 1 (str "hvc1") [0; 1; 2; 0xAA] ltac:(lia) ltac:(lia) eq_refl) as Hn.
  cbv zeta in Hn. split; [vm_compute; reflexivity|].
  change (128 + 1 * 16 + 1) with 0x91 in Hn.
  replace (normalize_enhanced_video (0x91 :: str "hvc1" ++ [0; 1; 2; 0xAA])) with (Ok (E := Error) (Some [0x1C; 1; 0; 1; 2; 0xAA])) in Hn
    by (vm_compute; reflexivity).
  destruct Hn as (_ & _ & Hp). exact Hp.
Defined.

(** ** Publishing without permission *)

Section Denied.
Context `{AuthPrimitives}.

(** A denied [publish] still makes the session a publisher.  The flag is set
    before the hook and the signature are asked and is not taken back: the peer
    is told that it may not publish, and yet (1) when it leaves, the stream it
    named is announced as ended and closed, whoever publishes it; and (2) if
    the session already has a source, for instance one it was allowed to play,
    the audio it sends from now on is published there. *)
Theorem rtmp_denied_publish_acts w s values base sign :
  split_stream_sign (named values 3 (stream_name s)) = (base, sign) ->
  on_publish w (app s, base) sign <> None \/ check (auth s) DEFAULT_VHOST (app s) base (str "pub") sign = false ->
  connected s = true -> (0 < enc_chunk_size (msg_encoder s))%nat -> (forall m, write_ok w m = true) ->
  exists s' reason bs,
    handle_publish w s values =
      (s', [Send (on_status (stream_id s) (status_info "error" "NetStream.Publish.NotAllowed" reason)) bs], Go) /\
    (finish s').1.2 = [StreamUnPublish (app s, base); CloseStream (app s, base)] /\
    forall w' id ts d, source s = Some id ->
      exists tracks, handle_audio w' s' ts d = (s', tracks ++ [PublishFrame id (audio_frame ts d)], Go).
Proof.
  intros Hsplit Hdeny Hc He Hw. unfold handle_publish. cbn [app stream_name set_names]. rewrite Hsplit.
  set (s1 := set_names _ (app s) base true).
  assert (forall reason, exists bs, send_publish_not_allowed w s1 reason =
    (s1, [Send (on_status (stream_id s) (status_info "error" "NetStream.Publish.NotAllowed" reason)) bs], Go)) as Hsend.
  { intros reason. unfold send_publish_not_allowed, send_msg. change (connected s1) with (connected s). rewrite Hc.
    rewrite encode_chunks by done. cbn [lift]. rewrite Hw. by eexists. }
  assert (exists reason, (match on_publish w (names s1) sign with
    | Some msg => send_publish_not_allowed w s1 msg
    | None => if negb (check (auth s1) DEFAULT_VHOST (app s1) (stream_name s1) (str "pub") sign)
        then send_publish_not_allowed w s1 (str "auth failed") else
        after (emit (set_source s1 (Some (names s1))) [CreateSource (names s1); ClearTracks (names s1); StreamPublish (names s1)])
        (fun s => send_msg w s (on_status (stream_id s)
           (status_info "status" "NetStream.Publish.Start" (str "Publishing on " ++ target s)))) end) =
    send_publish_not_allowed w s1 reason) as [reason Hreason].
  { change (names s1) with (app s, base). destruct (on_publish w (app s, base) sign) as [msg|]; [by exists msg|].
    destruct Hdeny as [?|Hdeny]; [done|]. exists (str "auth failed").
    change (check (auth s1) _ (app s1) (stream_name s1) _ _) with (check (auth s) DEFAULT_VHOST (app s) base (str "pub") sign).
    by rewrite Hdeny. }
  destruct (Hsend reason) as [bs Hbs]. exists s1, reason, bs. rewrite <-Hbs, <-Hreason.
  split; [done|]. split; [done|]. intros w' id ts d Hs. unfold handle_audio. change (source s1) with (source s). rewrite Hs.
  by eexists.
Qed.

End Denied.

(** ** Examples *)

(** Everything is allowed except publishing, and every stream is live. *)
Definition demo_world (deny_publish : bool) : World :=
  {| on_publish := fun _ _ => if deny_publish then Some (str "no") else None; on_play := fun _ _ => None;
     get_or_pull := fun _ => true; source_tracks := fun _ => []; latest_gop := fun _ => []; open_vod := fun _ => None;
     write_ok := fun _ => true |}.

Definition demo_env (deny_publish : bool) : nat -> World := fun _ => demo_world deny_publish.

Definition demo_auth : StreamAuth := auth_new false [].

Definition demo_commands : list RtmpMessage :=
  [command 0 [text "connect"; number 1; AmfObject [field "tcUrl" (text "rtmp://host/live")]];
   command 0 [text "createStream"; number 2; AmfNull];
   command 1 [text "publish"; number 3; AmfNull; text "cam"; text "live"]].

Definition demo_media : list RtmpMessage :=
  [VideoMessage 1 40 [0x17; 1; 0; 0; 0; 9]; AudioMessage 1 41 [0xAF; 1; 2]].

Definition sent (ms : list RtmpMessage) : bytes := match send_all encoder_new ms with Ok b => b | _ => [] end.

Definition demo_reads : list ((nat -> World) * bytes) :=
  [(demo_env false, sent demo_commands); (demo_env false, sent demo_media)].

Definition demo_run : StepResult := run (H := sample_primitives) (session_new demo_auth) demo_reads.

Lemma rtmp_sources_authorized_witness :
  Forall (action_granted (H := sample_primitives) (answers demo_reads) demo_auth) demo_run.1.2 /\
  published (str "live", str "cam") demo_run.1.2 =
    [video_frame 40 [0x17; 1; 0; 0; 0; 9] H264 true false; audio_frame 41 [0xAF; 1; 2]].
Proof.
  split; [|vm_compute; reflexivity].
  apply (rtmp_sources_authorized (H := sample_primitives) demo_auth demo_reads demo_run.1.1 demo_run.1.2 demo_run.2).
  change (run _ demo_reads) with demo_run. by destruct demo_run as [[? ?] ?].
Defined.

Lemma rtmp_flow_control_witness :
  let s := demo_run.1.1 in
  total_read s = zlen (concat (snd <$> demo_reads)) /\
  0 <= last_ack_seq s <= total_read s /\ total_read s - last_ack_seq s < client_win_size s.
Proof.
  apply (rtmp_flow_control (H := sample_primitives) demo_auth demo_reads demo_run.1.1 demo_run.1.2);
    vm_compute; reflexivity.
Defined.

(** A player that goes on sending commands in the read that contains [play]. *)
Definition demo_play_reads (deny_publish : bool) : list ((nat -> World) * bytes) :=
  [(demo_env deny_publish, sent (take 2 demo_commands ++
     [command 1 [text "play"; number 3; AmfNull; text "cam"]; command 1 [text "publish"; number 4; AmfNull; text "other"];
      AudioMessage 1 41 [0xAF; 1; 2]]))].

Definition demo_play_run (deny_publish : bool) : StepResult :=
  run (H := sample_primitives) (session_new demo_auth) (demo_play_reads deny_publish).

Lemma rtmp_play_hands_over_witness :
  let acts := (demo_play_run false).1.2 in
  exists task, acts !! 10%nat = Some task /\ is_task task = true /\
    Forall (fun act => is_send act = false /\ is_task act = false) (drop 11 acts).
Proof.
  pose proof (rtmp_play_hands_over (H := sample_primitives) demo_auth (demo_play_reads false)
    (demo_play_run false).1.1 (demo_play_run false).1.2 (demo_play_run false).2
    (take 10 (demo_play_run false).1.2)
    (PlayTask (str "live", str "cam") {| enc_chunk_size := 4096 |} 1 []) (drop 11 (demo_play_run false).1.2)) as Ht.
  exists (PlayTask (str "live", str "cam") {| enc_chunk_size := 4096 |} 1 []).
  split; [vm_compute; reflexivity|]. split; [reflexivity|]. apply Ht; vm_compute; reflexivity.
Defined.

(** The denied publisher of [other] publishes into [cam], which it plays. *)
Lemma rtmp_denied_publish_acts_witness :
  (exists s' reason bs,
    handle_publish (H := sample_primitives) (demo_world true) (set_source (session_new demo_auth) (Some (str "live", str "cam")))
      [text "publish"; number 4; AmfNull; text "other"] =
      (s', [Send (on_status 0 (status_info "error" "NetStream.Publish.NotAllowed" reason)) bs], Go) /\
    (finish s').1.2 = [StreamUnPublish ([], str "other"); CloseStream ([], str "other")]) /\
  published (str "live", str "cam") (demo_play_run true).1.2 = [audio_frame 41 [0xAF; 1; 2]].
Proof.
  split; [|vm_compute; reflexivity].
  destruct (rtmp_denied_publish_acts (H := sample_primitives) (demo_world true)
    (set_source (session_new demo_auth) (Some (str "live", str "cam"))) [text "publish"; number 4; AmfNull; text "other"]
    (str "other") []) as (s' & reason & bs & Hp & Hf & _).
  - reflexivity.
  - left. discriminate.
  - reflexivity.
  - cbn. lia.
  - reflexivity.
  - exists s', reason, bs. split; [exact Hp|exact Hf].
Defined.

(** A session that publishes [cam], after the commands above. *)
Definition demo_publisher : RtmpSession :=
  (on_read (H := sample_primitives) (demo_env false) (session_new demo_auth) (sent demo_commands)).1.1.

Lemma rtmp_relay_witness :
  exists s' acts written q,
    run (H := sample_primitives) demo_publisher [(demo_env false, concat (stream_chunks 128 demo_media))] =
      (s', acts ++ [StreamUnPublish (str "live", str "cam"); CloseStream (str "live", str "cam")], Go) /\
    play_task {| enc_chunk_size := 4096 |} 5 [] (published (str "live", str "cam") acts) = Ok written /\
    written = concat (stream_chunks 4096 (retarget 5 <$> demo_media)) /\
    feed_reads (set_chunk_size parser_new 4096) [written] = Ok (q, retarget 5 <$> demo_media).
Proof.
  destruct (rtmp_relay (H := sample_primitives) demo_publisher (str "live", str "cam")
    [(demo_env false, stream_chunks 128 demo_media)] demo_media {| enc_chunk_size := 4096 |} 5
    (set_chunk_size parser_new 4096) [stream_chunks 4096 (retarget 5 <$> demo_media)])
    as (s' & acts & written & q & Hr & Hp & Hwr & Hq).
  - split; vm_compute; try reflexivity. lia.
  - vm_compute. reflexivity.
  - vm_compute. lia.
  - repeat constructor; vm_compute; (reflexivity || discriminate).
  - repeat constructor.
  - vm_compute. reflexivity.
  - vm_compute. repeat split; first [left; lia | right; reflexivity].
  - vm_compute. reflexivity.
  - lia.
  - cbn. lia.
  - vm_compute. reflexivity.
  - reflexivity.
  - rewrite <-app_nil_r. reflexivity.
  - vm_compute. repeat split; left; lia.
  - exists s', acts, written, q. split; [exact Hr|]. split; [exact Hp|].
    assert (written = concat (stream_chunks 4096 (retarget 5 <$> demo_media))) as Hw.
    { rewrite Hwr. cbn [fmap list_fmap concat]. apply app_nil_r. }
    split; [exact Hw|]. rewrite Hw. exact Hq.
Defined.
