(* ===== verification/RtmpClient.v ===== *)
(** * RtmpClient: handshake, addresses and the RTMP clients

    [rtmp/src/handshake.rs], [rtmp/src/client_url.rs], and the dialogue and
    media loops of [rtmp/src/push_client.rs] and [rtmp/src/pull_client.rs].  A
    connection's input is the list of the reads it returns; its end is the end
    of the list.  Connecting and TLS are not modelled. *)

From S2P Require Import Prelude Frame F64 AnnexB Payload Gop Stream Flv Utf8 Text Amf Rtmp Auth RtmpSession.
#[local] Open Scope Z_scope.
#[local] Set Warnings "-clear-no-such-hyp".

(** ** Handshake

    A side's random bytes are an argument; [read_exact] fails when the input
    ends. *)

Definition C0C1_SIZE : nat := 1536.
Definition C2_SIZE : nat := 1536.

Definition read_exact (n : nat) (inp : bytes) : result (bytes * bytes) :=
  if (length inp <? n)%nat then Err Io else Ok (take n inp, drop n inp).

(** What the server writes, and the input after the handshake. *)
Definition server_handshake (random inp : bytes) : result (bytes * bytes) :=
  '(c0c1, inp) ← read_exact (1 + C0C1_SIZE) inp;
  version ← idx c0c1 0;
  if negb (version =? 3) then Err (Anyhow "Invalid RTMP version: ") else
  let s0s1 := [3] ++ to_be 4 0 ++ to_be 4 0x00090000 ++ random in
  s2 ← slice c0c1 1 (length c0c1);
  '(_, inp) ← read_exact C2_SIZE inp;
  Ok (s0s1 ++ s2, inp).

(** C0 and C1, written before anything is read. *)
Definition client_hello (random : bytes) : bytes := [3] ++ to_be 4 0 ++ [0; 0; 0; 0] ++ random.

(** C2 and the input after the handshake. *)
Definition client_handshake (inp : bytes) : result (bytes * bytes) :=
  '(s0s1, inp) ← read_exact (1 + C0C1_SIZE) inp;
  version ← idx s0s1 0;
  if negb (version =? 3) then Err (Anyhow "Invalid server RTMP version: ") else
  '(_, inp) ← read_exact C2_SIZE inp;
  c2 ← slice s0s1 1 (length s0s1);
  Ok (c2, inp).

(** ** Addresses *)

Record RtmpUrl : Type := { host : bytes; port : Z; url_app : bytes; url_stream : bytes; use_tls : bool }.

Definition parse_rtmp_url (url : bytes) : result RtmpUrl :=
  '(rest, use_tls) ← (match strip_prefix (str "rtmps://") url with
    | Some rest => Ok (rest, true)
    | None => match strip_prefix (str "rtmp://") url with
              | Some rest => Ok (rest, false)
              | None => Err (Anyhow "not an RTMP(S) URL: ")
              end
    end);
  let default_port := if (use_tls : bool) then 443 else 1935 in
  let '(authority, path) := match split_once 47 rest with Some (a, p) => (a, p) | None => (rest, []) end in
  if (length authority =? 0)%nat then Err (Anyhow "RTMP URL is missing a host") else
  '(host, port) ← (match strip_prefix [91] authority with
    | Some bracketed =>
        match split_once 93 bracketed with
        | None => Err (Anyhow "invalid bracketed IPv6 RTMP host")
        | Some (host, suffix) =>
            match strip_prefix [58] suffix with
            | Some p => match parse_u16 p with Some n => Ok (host, n) | None => Err (Anyhow "invalid port") end
            | None => Ok (host, default_port)
            end
        end
    | None =>
        if (length (List.filter (fun b => (b =? 58)%Z) authority) =? 1)%nat then
          match rsplit_once 58 authority with
          | Some (host, p) => match parse_u16 p with Some n => Ok (host, n) | None => Err (Anyhow "invalid port") end
          | None => Panic
          end
        else Ok (authority, default_port)
    end);
  let '(app, stream) := match split_once 47 path with Some (a, n) => (a, n) | None => (path, []) end in
  Ok {| host := host; port := port; url_app := app; url_stream := stream; use_tls := use_tls |}.

(** ** The dialogue of the clients *)

(** The exact value of a finite [f64], in units of 2^-1074. *)
Definition f64_units (x : f64) : Z :=
  let m := if f64_exponent x =? 0 then f64_mantissa x else f64_mantissa x + 2 ^ 52 in
  (if x <? 2 ^ 63 then 1 else -1) * (m .<< (Z.max 1 (f64_exponent x) - 1)).

(** [(got - txn_id).abs() < 0.001] for a finite [txn_id].  The subtraction is exact when
    the difference is that small, and rounding is monotonic, so comparing the
    exact difference with the double nearest 0.001 gives the same answer. *)
Definition f64_near (got txn_id : f64) : bool :=
  negb (f64_exponent got =? 0x7FF) &&
  (Z.abs (f64_units got - f64_units txn_id) <? 0x10624DD2F1A9FC .<< 1012).

Definition starts_command (name : string) (vals : list AmfValue) : bool :=
  match vals with AmfString s :: _ => bool_decide (s = str name) | _ => false end.

(** A command that answers transaction [txn_id]; undecodable ones are skipped. *)
Definition is_result (txn_id : f64) (m : RtmpMessage) : result bool :=
  match m with
  | Amf0Command _ _ data =>
      match amf_decode data with
      | Ok vals =>
          let got := match vals !! 1%nat with Some (AmfNumber n) => n | _ => 0 end in
          Ok (starts_command "_result" vals && f64_near got txn_id)
      | Err _ => Ok false
      | Panic => Panic
      | NoFuel => NoFuel
      end
  | _ => Ok false
  end.

Definition is_status (m : RtmpMessage) : result bool :=
  match m with
  | Amf0Command _ _ data =>
      match amf_decode data with
      | Ok vals => Ok (starts_command "onStatus" vals)
      | Err _ => Ok false
      | Panic => Panic
      | NoFuel => NoFuel
      end
  | _ => Ok false
  end.

(** The messages up to the first that answers; the rest of the read is lost. *)
Fixpoint until (answer : RtmpMessage -> result bool) (all ms : list RtmpMessage) : result (list RtmpMessage * bool) :=
  match ms with
  | [] => Ok (all, false)
  | m :: ms =>
      b ← answer m;
      if (b : bool) then Ok (all ++ [m], true) else until answer (all ++ [m]) ms
  end.

(** [read_until_result] and [read_until_status]: messages, parser, remaining reads. *)
Fixpoint read_until (answer : RtmpMessage -> result bool) (p : RtmpMessageParser) (all : list RtmpMessage) (reads : list bytes) :
    result (list RtmpMessage * RtmpMessageParser * list bytes) :=
  match reads with
  | [] => Err (Anyhow "RTMP push: connection closed")
  | data :: reads =>
      '(p, msgs) ← feed p data;
      '(all, found) ← until answer all msgs;
      if (found : bool) then Ok (all, p, reads) else read_until answer p all reads
  end.

Definition apply_control_message (e : RtmpMessageEncoder) (m : RtmpMessage) : RtmpMessageEncoder :=
  match m with SetChunkSize size => encoder_set_chunk_size e (Z.to_nat size) | _ => e end.
Definition apply_control_messages (e : RtmpMessageEncoder) (msgs : list RtmpMessage) : RtmpMessageEncoder :=
  foldl apply_control_message e msgs.

(** The stream id of the first [_result] command that has one. *)
Fixpoint created_stream (msgs : list RtmpMessage) : option Z :=
  match msgs with
  | [] => None
  | Amf0Command _ _ data :: msgs =>
      match amf_decode data with
      | Ok vals =>
          match (if starts_command "_result" vals then vals !! 3%nat else None) with
          | Some (AmfNumber n) => Some (f64_to_u32 n)
          | _ => created_stream msgs
          end
      | _ => created_stream msgs
      end
  | _ :: msgs => created_stream msgs
  end.

Definition connect_message (remote_app url : bytes) : RtmpMessage :=
  command 0 [text "connect"; number 1; AmfObject [field "app" (AmfString remote_app); field "tcUrl" (AmfString url)]].
Definition create_stream_message : RtmpMessage := command 0 [text "createStream"; number 2; AmfNull].
Definition publish_message (sid : Z) (remote_stream : bytes) : RtmpMessage :=
  command sid [text "publish"; number 3; AmfNull; AmfString remote_stream; text "live"].
Definition play_message (sid : Z) (remote_stream : bytes) : RtmpMessage :=
  command sid [text "play"; number 3; AmfNull; AmfString remote_stream].

(** A client after its dialogue: message stream, encoder, parser, what it wrote
    at each step, and the reads that are left. *)
Record Dialogue : Type := {
  dl_stream_id : Z;
  dl_encoder : RtmpMessageEncoder;
  dl_parser : RtmpMessageParser;
  dl_written : list bytes;
  dl_reads : list bytes
}.

(** [connect] and [createStream], the same in both clients. *)
Definition open_stream (url remote_app : bytes) (reads : list bytes) : result Dialogue :=
  let encoder := encoder_new in
  w1 ← encode encoder (connect_message remote_app url);
  '(msgs, parser, reads) ← read_until (is_result (u32_to_f64 1)) parser_new [] reads;
  let encoder := apply_control_messages encoder msgs in
  w2 ← encode encoder create_stream_message;
  '(msgs, parser, reads) ← read_until (is_result (u32_to_f64 2)) parser [] reads;
  let encoder := apply_control_messages encoder msgs in
  match created_stream msgs with
  | None => Err (Anyhow "no stream id from createStream")
  | Some sid => Ok {| dl_stream_id := sid; dl_encoder := encoder; dl_parser := parser; dl_written := [w1; w2]; dl_reads := reads |}
  end.

Definition push_dialogue (url remote_app remote_stream : bytes) (reads : list bytes) : result Dialogue :=
  d ← open_stream url remote_app reads;
  w3 ← encode (dl_encoder d) (publish_message (dl_stream_id d) remote_stream);
  '(msgs, parser, reads) ← read_until is_status (dl_parser d) [] (dl_reads d);
  Ok {| dl_stream_id := dl_stream_id d; dl_encoder := apply_control_messages (dl_encoder d) msgs; dl_parser := parser;
        dl_written := dl_written d ++ [w3]; dl_reads := reads |}.

Definition pull_dialogue (url remote_app remote_stream : bytes) (reads : list bytes) : result Dialogue :=
  d ← open_stream url remote_app reads;
  w3 ← encode (dl_encoder d) (play_message (dl_stream_id d) remote_stream);
  Ok {| dl_stream_id := dl_stream_id d; dl_encoder := dl_encoder d; dl_parser := dl_parser d;
        dl_written := dl_written d ++ [w3]; dl_reads := dl_reads d |}.

(** ** Media *)

(** The pushing client sends a frame's bytes whatever their layout. *)
Definition push_frame_message (sid : Z) (frame : MediaFrame) : RtmpMessage :=
  match frame_type frame with
  | Video => VideoMessage sid (timestamp frame) (data frame)
  | Audio => AudioMessage sid (timestamp frame) (data frame)
  | Metadata => Amf0Data sid (timestamp frame) (data frame)
  end.

(** What the pulling client does to its local source. *)
Record PullState : Type := {
  pl_parser : RtmpMessageParser;
  has_video : bool;
  has_audio : bool;
  pl_tracks : list TrackInfo;
  pl_frames : list MediaFrame
}.

Definition pull_video (st : PullState) (ts : Z) (raw : bytes) : result PullState :=
  o ← normalize_enhanced_video raw;
  let d := default raw o in
  '(c, key, is_config) ← parse_video_rtmp_packet d;
  let add := is_config && negb (has_video st) in
  Ok {| pl_parser := pl_parser st; has_video := has_video st || is_config; has_audio := has_audio st;
        pl_tracks := if add then pl_tracks st ++ [default_video c] else pl_tracks st;
        pl_frames := pl_frames st ++ [video_frame ts d c key is_config] |}.

Definition pull_audio (st : PullState) (ts : Z) (d : bytes) : PullState :=
  let add := audio_is_config d && negb (has_audio st) in
  {| pl_parser := pl_parser st; has_video := has_video st; has_audio := has_audio st || audio_is_config d;
     pl_tracks := if add then pl_tracks st ++ [default_audio (parse_audio_rtmp_packet d)] else pl_tracks st;
     pl_frames := pl_frames st ++ [audio_frame ts d] |}.

(** A command is only logged; decoding one does not fail. *)
Definition pull_message (st : PullState) (m : RtmpMessage) : result PullState :=
  match m with
  | SetChunkSize size =>
      Ok {| pl_parser := set_chunk_size (pl_parser st) size; has_video := has_video st; has_audio := has_audio st;
            pl_tracks := pl_tracks st; pl_frames := pl_frames st |}
  | VideoMessage _ ts d => pull_video st ts d
  | AudioMessage _ ts d => Ok (pull_audio st ts d)
  | _ => Ok st
  end.

Fixpoint pull_messages (st : PullState) (ms : list RtmpMessage) : result PullState :=
  match ms with
  | [] => Ok st
  | m :: ms => st ← pull_message st m; pull_messages st ms
  end.

Fixpoint pull_loop (st : PullState) (reads : list bytes) : result PullState :=
  match reads with
  | [] => Ok st
  | data :: reads =>
      '(p, ms) ← feed (pl_parser st) data;
      st ← pull_messages {| pl_parser := p; has_video := has_video st; has_audio := has_audio st;
                             pl_tracks := pl_tracks st; pl_frames := pl_frames st |} ms;
      pull_loop st reads
  end.

Definition pull_start (d : Dialogue) : PullState :=
  {| pl_parser := dl_parser d; has_video := false; has_audio := false; pl_tracks := []; pl_frames := [] |}.

(** ** Handshake: both sides complete *)

Lemma read_exact_app n l rest : length l = n -> read_exact n (l ++ rest) = Ok (l, rest).
Proof.
  intros Hn. unfold read_exact. rewrite (proj2 (Nat.ltb_ge _ _)) by (rewrite length_app; lia).
  by rewrite take_app_length', drop_app_length'.
Qed.

Lemma slice_tail b (l : bytes) : slice (E := Error) (b :: l) 1 (length (b :: l)) = Ok l.
Proof.
  rewrite slice_ok by (cbn [length]; lia). cbn [drop length]. rewrite (take_ge l) by lia. done.
Qed.

(** The handshake.  A client and the server complete it with each other,
    whatever their random bytes and whatever follows on the connection: each
    reads exactly the handshake, the server's S2 is the client's C1 and the
    client's C2 is the server's S1. *)
Theorem rtmp_handshake_completes rc rs more_c more_s :
  length rc = 1528%nat -> length rs = 1528%nat ->
  exists s1 c1 : bytes, length s1 = 1536%nat /\ client_hello rc = 3 :: c1 /\
    server_handshake rs (client_hello rc ++ s1 ++ more_c) = Ok ((3 :: s1) ++ c1, more_c) /\
    client_handshake (((3 :: s1) ++ c1) ++ more_s) = Ok (s1, more_s).
Proof.
  intros Hc Hs. set (c1 := to_be 4 0 ++ [0; 0; 0; 0] ++ rc). set (s1 := to_be 4 0 ++ to_be 4 0x00090000 ++ rs).
  assert (length c1 = 1536%nat) as Lc by (subst c1; rewrite !length_app, length_to_be, Hc; reflexivity).
  assert (length s1 = 1536%nat) as Ls by (subst s1; rewrite !length_app, !length_to_be, Hs; reflexivity).
  exists s1, c1. split; [done|]. split; [done|]. split.
  - unfold server_handshake. change (client_hello rc) with (3 :: c1).
    rewrite read_exact_app by (cbn [length]; rewrite Lc; reflexivity). cbn [mbind outcome_bind].
    change (idx (3 :: c1) 0) with (Ok (E := Error) 3). cbn [mbind outcome_bind]. change (negb (3 =? 3)) with false. cbv iota.
    rewrite slice_tail. cbn [mbind outcome_bind]. rewrite read_exact_app by done. done.
  - unfold client_handshake. rewrite <-app_assoc.
    rewrite read_exact_app by (cbn [length]; rewrite Ls; reflexivity). cbn [mbind outcome_bind].
    change (idx (3 :: s1) 0) with (Ok (E := Error) 3). cbn [mbind outcome_bind]. change (negb (3 =? 3)) with false. cbv iota.
    rewrite read_exact_app by done. cbn [mbind outcome_bind]. rewrite slice_tail. done.
Qed.

(** ** Addresses: round trip *)

(** The text of an address with an explicit port. *)
Definition url_text (u : RtmpUrl) (v6 : bool) : bytes :=
  (if use_tls u then str "rtmps://" else str "rtmp://") ++
  (if v6 then 91 :: host u ++ [93] else host u) ++ 58 :: dec (port u) ++ 47 :: url_app u ++ 47 :: url_stream u.

Record url_wf (u : RtmpUrl) (v6 : bool) : Prop := {
  url_host : lacks 47 (host u);
  url_host_chars : if v6 then lacks 93 (host u) else host u <> [] /\ lacks 58 (host u) /\ lacks 91 (host u);
  url_port : is_u16 (port u);
  url_app_chars : lacks 47 (url_app u)
}.

Lemma filter_lacks c s : lacks c s -> List.filter (fun b => b =? c) s = [].
Proof.
  intros Hl. induction s as [|b s IH]; [done|]. cbn. destruct (Z.eqb_spec b c) as [->|].
  - destruct Hl. apply list_elem_of_here.
  - apply IH. intros ?. apply Hl. by apply list_elem_of_further.
Qed.

Lemma lacks_app c s t : lacks c s -> lacks c t -> lacks c (s ++ t).
Proof. unfold lacks. rewrite elem_of_app. tauto. Qed.

Lemma lacks_cons c b s : b <> c -> lacks c s -> lacks c (b :: s).
Proof. unfold lacks. rewrite elem_of_cons. intuition congruence. Qed.

(** Addresses.  [parse_rtmp_url] reads back every address written with its
    port, also with a bracketed IPv6 host: host, port, application, stream and
    whether TLS is used. *)
Theorem rtmp_url_round_trip u v6 : url_wf u v6 -> parse_rtmp_url (url_text u v6) = Ok u.
Proof.
  intros [Hh Hc Hp Ha]. set (path := url_app u ++ 47 :: url_stream u).
  set (authority := (if v6 then 91 :: host u ++ [93] else host u) ++ 58 :: dec (port u)).
  set (rest := authority ++ 47 :: path).
  assert (url_text u v6 = (if use_tls u then str "rtmps://" else str "rtmp://") ++ rest) as Ht.
  { unfold url_text, rest, authority, path. by rewrite <-!app_assoc. }
  assert (Hdec : forall c, ~ 48 <= c <= 57 -> lacks c (dec (port u))).
  { intros c Hn. apply dec_lacks; [|done]. unfold is_u16 in Hp. lia. }
  assert (lacks 47 authority) as Hla.
  { unfold authority. apply lacks_app; [|by apply lacks_cons; [lia|]; apply Hdec; lia].
    destruct v6; [|done]. apply lacks_cons; [lia|]. apply lacks_app; [done|]. apply lacks_cons; [lia|]. unfold lacks. by intros ?%elem_of_nil. }
  assert (authority <> []) as Hne.
  { unfold authority. destruct v6; [done|]. by destruct (host u). }
  assert (Hport : parse_u16 (dec (port u)) = Some (port u)).
  { apply parse_uint_dec; [unfold is_u16 in Hp; lia|lia]. }
  unfold parse_rtmp_url. rewrite Ht. clear Ht.
  set (scheme := match strip_prefix (str "rtmps://") _ with Some rest => _ | None => _ end).
  assert (scheme = Ok (rest, use_tls u)) as ->.
  { subst scheme. destruct (use_tls u); [by rewrite strip_prefix_app|]. by cbn. }
  cbn [mbind outcome_bind]. unfold rest at 1. rewrite split_once_app by done.
  rewrite (proj2 (Nat.eqb_neq _ _)) by (by destruct authority).
  set (hp := match strip_prefix [91] authority with Some b => _ | None => _ end).
  assert (hp = Ok (host u, port u)) as ->.
  { subst hp. unfold authority. destruct v6.
    - change ((91 :: host u ++ [93]) ++ ?t) with ([91] ++ (host u ++ [93]) ++ t). rewrite strip_prefix_app, <-app_assoc.
      cbn [List.app]. rewrite split_once_app by done. change (58 :: dec (port u)) with ([58] ++ dec (port u)).
      rewrite strip_prefix_app, Hport. done.
    - destruct Hc as (Hne' & H58 & H91). destruct (host u) as [|h0 h] eqn:Hhost; [done|].
      assert (strip_prefix [91] ((h0 :: h) ++ 58 :: dec (port u)) = None) as ->.
      { cbn [strip_prefix List.app]. destruct (Z.eqb_spec 91 h0) as [<-|]; [|done]. destruct H91. apply list_elem_of_here. }
      rewrite List.filter_app, filter_lacks by done. cbn [List.app List.filter Z.eqb Pos.eqb].
      rewrite filter_lacks by (apply Hdec; lia). cbn [length Nat.eqb].
      assert (rsplit_once 58 (h0 :: h ++ 58 :: dec (port u)) = Some (h0 :: h, dec (port u))) as ->.
      { change (h0 :: h ++ 58 :: dec (port u)) with ((h0 :: h) ++ 58 :: dec (port u)). unfold rsplit_once. rewrite reverse_app, reverse_cons, <-app_assoc. cbn [List.app].
        rewrite split_once_app; [by rewrite !reverse_involutive|]. unfold lacks. rewrite elem_of_reverse. apply Hdec. lia. }
      by rewrite Hport. }
  cbn [mbind outcome_bind]. unfold path. rewrite split_once_app by done. by destruct u.
Qed.

(** ** A pushing client and the server *)

(** A parser between messages, all of which had timestamp 0. *)
Record quiet (p : RtmpMessageParser) (n : nat) : Prop := {
  quiet_size : chunk_size p = n;
  quiet_buffer : rp_buffer p = [];
  quiet_last : forall c, last_timestamp p c = 0
}.

Definition untimed (m : RtmpMessage) : Prop := message_wf m /\ message_timestamp m = 0.

Lemma on_time_zero n last ms : Forall untimed ms -> (forall c, last c = 0) -> on_time n last ms.
Proof.
  intros Hf. revert n last. induction Hf as [|m ms [_ Hm] Hf IH]; intros n last Hl; [done|]. cbn [on_time].
  split; [by right|]. apply IH. intros c. rewrite Hm. by destruct (_ =? _).
Qed.

Lemma quiet_after p n m : quiet p n -> untimed m -> (0 < n)%nat -> quiet (set_buffer (after_message p m) []) (next_chunk_size n m).
Proof.
  intros [Hs Hb Hl] [Hw Hm] Hn. split; [by rewrite <-Hs; apply after_message_size|done|]. intros c.
  change (last_timestamp (set_buffer ?q []) c) with (last_timestamp q c). rewrite after_message_last.
  destruct (_ =? _); [|done]. unfold reported_timestamp. rewrite Hl, Hm. by destruct (_ <=? _)%nat.
Qed.

Lemma next_chunk_size_pos n m : untimed m -> (0 < n)%nat -> (0 < next_chunk_size n m)%nat.
Proof. intros [Hw _] Hn. pose proof (wf_fields m Hw). destruct m; cbn in *; (done || lia). Qed.

(** A quiet parser reads the chunks of untimed messages. *)
Lemma quiet_feed p n ms :
  quiet p n -> Forall untimed ms -> (0 < n)%nat ->
  exists q, feed p (concat (stream_chunks n ms)) = Ok (q, ms) /\ quiet q (foldl next_chunk_size n ms).
Proof.
  intros Hq Hf Hn. assert (Forall message_wf ms) as Hw by (eapply Forall_impl; [done|]; by intros m []).
  pose proof Hq as [Hs Hb Hl]. pose proof (stream_runs ms p Hw ltac:(lia)) as Hr.
  rewrite received_on_time in Hr by (done || by apply on_time_zero). rewrite Hs in Hr.
  exists (set_buffer (foldl after_message p ms) []). split; [by apply runs_feed|].
  clear Hw Hr Hb Hl Hs.
  assert (forall p n, quiet (set_buffer p []) n -> (0 < n)%nat ->
    quiet (set_buffer (foldl after_message p ms) []) (foldl next_chunk_size n ms)) as Hgen; [|apply Hgen; [|done]; by destruct Hq].
  clear p n Hq Hn. induction Hf as [|m ms Hm Hf IH]; intros p n Hq Hn; [done|]. cbn [foldl]. apply IH.
  - assert (set_buffer (after_message p m) [] = set_buffer (after_message (set_buffer p []) m) []) as -> by (by destruct m).
    by apply quiet_after.
  - by apply next_chunk_size_pos.
Qed.

(** What a list of actions writes. *)
Definition wrote (acts : list Action) : bytes :=
  concat (omap (fun a => match a with Send _ b => Some b | _ => None end) acts).

Definition sends (e : RtmpMessageEncoder) (ms : list RtmpMessage) : list Action :=
  (fun m => Send m (concat (message_chunks (enc_chunk_size e) m))) <$> ms.

Lemma send_msg_ok w s m :
  connected s = true -> (0 < enc_chunk_size (msg_encoder s))%nat -> (forall m, write_ok w m = true) ->
  send_msg w s m = (s, sends (msg_encoder s) [m], Go).
Proof. intros Hc He Hw. unfold send_msg. rewrite Hc, encode_chunks by done. cbn. by rewrite Hw. Qed.

Lemma send_msgs_ok w s ms :
  connected s = true -> (0 < enc_chunk_size (msg_encoder s))%nat -> (forall m, write_ok w m = true) ->
  send_msgs w s ms = (s, sends (msg_encoder s) ms, Go).
Proof.
  intros Hc He Hw. induction ms as [|m ms IH]; [done|]. cbn [send_msgs]. rewrite send_msg_ok by done. cbn [after].
  by rewrite IH.
Qed.

Lemma wrote_sends e ms : wrote (sends e ms) = concat ((fun m => concat (message_chunks (enc_chunk_size e) m)) <$> ms).
Proof. unfold wrote, sends. f_equal. induction ms; cbn; [done|]. by f_equal. Qed.

Lemma wrote_app l l' : wrote (l ++ l') = wrote l ++ wrote l'.
Proof. unfold wrote. by rewrite omap_app, concat_app. Qed.

(** Chunks of a stream without chunk-size changes. *)
Lemma stream_chunks_flat n ms :
  Forall (fun m => next_chunk_size n m = n) ms -> concat (stream_chunks n ms) = concat ((fun m => concat (message_chunks n m)) <$> ms).
Proof.
  induction 1 as [|m ms Hm Hms IH]; [done|]. cbn [stream_chunks]. by rewrite Hm, concat_app, IH.
Qed.

(** The encoding of a message is not much longer than its payload. *)
Lemma message_chunks_length n m :
  (0 < n)%nat -> 0 <= message_timestamp m < 0xFFFFFF -> (length (concat (message_chunks n m)) <= 12 + 2 * length (payload m))%nat.
Proof.
  intros Hn Ht. unfold message_chunks.
  assert (length (first_header m) = 12%nat) as Hh.
  { unfold first_header, message_header. rewrite !length_app. rewrite (proj2 (Z.leb_gt _ _)) by lia.
    assert (length (encode_basic_header 0 (message_csid (type_id m))) = 1%nat) as -> by (by destruct m). done. }
  assert (forall csid l, (2 <= csid < 9) -> (length (concat (next_chunk csid <$> chunks n l)) <= 2 * length l)%nat) as Hnext.
  { intros csid l Hcs. apply (chunks_ind (fun l => (length (concat (next_chunk csid <$> chunks n l)) <= 2 * length l)%nat) n Hn);
      [by rewrite chunks_nil; cbn; lia|]. clear l. intros l Hl IH. rewrite chunks_cons by done. rewrite fmap_cons. cbn [concat].
    rewrite length_app. unfold next_chunk at 1. rewrite length_app.
    assert (length (encode_basic_header 3 csid) = 1%nat) as ->.
    { unfold encode_basic_header. rewrite !(proj2 (Z.leb_gt _ _)) by lia. done. }
    rewrite length_drop in IH. rewrite length_take.
    assert (0 < length l)%nat by (destruct l; [done|cbn; lia]). lia. }
  destruct (decide (payload m = [])) as [Hp|Hp].
  { rewrite Hp, chunks_nil. cbn [concat]. rewrite app_nil_r, Hh. lia. }
  rewrite chunks_cons by done. cbn [concat]. rewrite !length_app, Hh.
  specialize (Hnext (message_csid (type_id m)) (drop n (payload m)) (message_csid_small _)).
  rewrite length_drop in Hnext. rewrite length_take. lia.
Qed.

(** A message that fits one chunk is encoded the same with every larger chunk size. *)
Lemma message_chunks_single n n' m :
  payload m <> [] -> (length (payload m) <= n)%nat -> (length (payload m) <= n')%nat -> message_chunks n m = message_chunks n' m.
Proof.
  intros Hp Hn Hn'. unfold message_chunks. assert (0 < length (payload m))%nat by (destruct (payload m); [done|cbn; lia]).
  rewrite (chunks_cons n), (chunks_cons n') by (done || lia).
  rewrite !take_ge, !drop_ge, !chunks_nil by lia. done.
Qed.

(** Names the dialogue is about. *)
Definition plain_name (s : bytes) : Prop := Forall (fun b => b < 0x80) s /\ zlen s <= 1000.

Lemma plain_short s : plain_name s -> short_string s.
Proof. intros [Ha Hl]. split; [lia|by apply ascii_valid]. Qed.

Lemma amf_text s : plain_name s -> amf_wf (AmfString s).
Proof. intros. by apply wf_string, plain_short. Qed.

Lemma amf_encode_ne s vs : amf_encode (AmfString s :: vs) <> [].
Proof.
  unfold amf_encode. rewrite fmap_cons. cbn [concat encode_value]. by destruct (_ <? _).
Qed.

Lemma length_amf_string s : plain_name s -> length (encode_value (AmfString s)) = (3 + length s)%nat.
Proof.
  intros [_ Hl]. cbn [encode_value]. rewrite (proj2 (Z.ltb_ge _ _)) by lia. cbn [List.app length]. rewrite !length_app, length_to_be. lia.
Qed.

Lemma length_amf_field k v :
  zlen (str k) <= 0xFFFF -> length (encode_property (field k v)) = (2 + length (str k) + length (encode_value v))%nat.
Proof.
  intros Hk. unfold encode_property. cbn [field fst snd]. rewrite encode_key_short by done. rewrite !length_app, length_to_be. lia.
Qed.

Lemma connect_payload_length ap url :
  plain_name ap -> plain_name url -> length (payload (connect_message ap url)) = (41 + length ap + length url)%nat.
Proof.
  intros Ha Hu. cbn [connect_message command payload]. unfold amf_encode.
  change (encode_value <$> ?l) with (map encode_value l). cbn [map concat]. rewrite encode_object. unfold properties.
  change (encode_property <$> ?l) with (map encode_property l). cbn [map concat]. rewrite !app_nil_r.
  rewrite !length_app. cbn [length]. rewrite !length_app.
  rewrite !length_amf_field by (vm_compute; discriminate). rewrite !length_amf_string by done.
  change (length (encode_value (text "connect"))) with 10%nat. change (length (encode_value (number 1))) with 9%nat.
  change (length (str "app")) with 3%nat. change (length (str "tcUrl")) with 5%nat. cbn [length]. lia.
Qed.

Lemma publish_payload_length sid n :
  plain_name n -> length (payload (publish_message sid n)) = (30 + length n)%nat.
Proof.
  intros Hn. cbn [publish_message command payload]. unfold amf_encode.
  change (encode_value <$> ?l) with (map encode_value l). cbn [map concat]. rewrite !length_app.
  rewrite length_amf_string by done.
  change (length (encode_value (text "publish"))) with 10%nat. change (length (encode_value (number 3))) with 9%nat.
  change (length (encode_value AmfNull)) with 1%nat. change (length (encode_value (text "live"))) with 7%nat. cbn [length]. lia.
Qed.

Definition publish_status (ap n : bytes) : RtmpMessage :=
  on_status 1 (status_info "status" "NetStream.Publish.Start" (str "Publishing on " ++ ap ++ [47] ++ n)).

Lemma plain_description ap n :
  plain_name ap -> plain_name n -> Forall (fun b => b < 0x80) (str "Publishing on " ++ ap ++ [47] ++ n) /\
  zlen (str "Publishing on " ++ ap ++ [47] ++ n) <= 2015.
Proof.
  intros [A1 L1] [A2 L2]. split.
  - repeat apply Forall_app_2; try done; repeat constructor.
  - unfold zlen in *. rewrite !length_app. change (length (str "Publishing on ")) with 14%nat. cbn [length]. lia.
Qed.

Lemma publish_status_ok ap n :
  plain_name ap -> plain_name n ->
  Forall amf_wf [text "onStatus"; number 0; AmfNull;
    AmfObject (status_info "status" "NetStream.Publish.Start" (str "Publishing on " ++ ap ++ [47] ++ n))] /\
  untimed (publish_status ap n).
Proof.
  intros Ha Hn. destruct (plain_description ap n Ha Hn) as [HA HL]. set (d := str "Publishing on " ++ _) in *.
  assert (short_string d) as Hd by (split; [lia|by apply ascii_valid]).
  assert (amf_wf (AmfObject (status_info "status" "NetStream.Publish.Start" d))) as Ho.
  { apply wf_object. unfold status_info. repeat apply Forall_cons_2; try apply Forall_nil_2; cbn [field fst snd].
    - repeat split; try (vm_compute; (reflexivity || discriminate)). apply wf_string. split; vm_compute; (reflexivity || discriminate).
    - repeat split; try (vm_compute; (reflexivity || discriminate)). apply wf_string. split; vm_compute; (reflexivity || discriminate).
    - repeat split; try (vm_compute; (reflexivity || discriminate)). by apply wf_string. }
  split.
  { repeat apply Forall_cons_2; try apply Forall_nil_2; try done; [apply wf_string; split| |by constructor];
      [vm_compute; (reflexivity || discriminate)..|constructor; vm_compute; split; (reflexivity || discriminate)]. }
  split; [|done]. unfold publish_status, on_status. fold d. split; [apply amf_encode_ne| |done..].
  - cbn [command payload]. unfold zlen. unfold amf_encode. change (encode_value <$> ?l) with (map encode_value l).
    cbn [map concat]. rewrite encode_object. unfold properties, status_info.
    change (encode_property <$> ?l) with (map encode_property l). cbn [map concat]. rewrite !length_app. cbn [length].
    rewrite !length_app. rewrite !length_amf_field by (vm_compute; discriminate).
    assert (length (encode_value (AmfString d)) <= 2100)%nat as Hd'.
    { cbn [encode_value]. rewrite (proj2 (Z.ltb_ge _ _)) by lia. cbn [List.app length]. rewrite length_app, length_to_be.
      unfold zlen in HL. lia. }
    assert (length (encode_value (text "NetStream.Publish.Start")) = 26%nat) as -> by reflexivity.
    assert (length (encode_value (text "onStatus")) = 11%nat) as -> by reflexivity.
    assert (length (encode_value (text "status")) = 9%nat) as -> by reflexivity.
    assert (length (encode_value (number 0)) = 9%nat) as -> by reflexivity.
    assert (length (encode_value AmfNull) = 1%nat) as -> by reflexivity.
    assert (length (str "level") = 5%nat) as -> by reflexivity. assert (length (str "code") = 4%nat) as -> by reflexivity.
    assert (length (str "description") = 11%nat) as -> by reflexivity. cbn [length]. lia.
Qed.

Lemma plain_base n base sign : plain_name n -> split_stream_sign n = (base, sign) -> plain_name base.
Proof.
  unfold split_stream_sign. intros [Ha Hl]. destruct (split_once 63 n) as [[l r]|] eqn:Hs.
  - apply split_once_prefix in Hs as ->. intros [= <- _]. apply Forall_app in Ha as [Ha _]. split; [done|].
    unfold zlen in *. rewrite length_app in Hl. lia.
  - by intros [= <- _].
Qed.

Section Dialogues.
Context `{AuthPrimitives}.
Variable env : nat -> World.
Hypothesis writable : forall i m, write_ok (env i) m = true.
Implicit Types (s : RtmpSession).

(** A session before any acknowledgement is due. *)
Record calm s : Prop := {
  calm_connected : connected s = true;
  calm_parser : quiet (msg_parser s) 128;
  calm_window : client_win_size s = 2500000 /\ last_ack_seq s = 0
}.

(** One command of the client, in one read. *)
Lemma server_step s m :
  calm s -> untimed m -> next_chunk_size 128 m = 128%nat ->
  0 <= total_read s -> total_read s + 12 + 2 * zlen (payload m) < 2500000 ->
  exists q data, quiet q 128 /\ data = concat (message_chunks 128 m) /\
    total_read (counted s data q) <= total_read s + 12 + 2 * zlen (payload m) /\ 0 <= total_read (counted s data q) /\
    forall s' acts, handle_message (env 0%nat) (counted s data q) m = (s', acts, Go) ->
      total_read s' = total_read (counted s data q) -> client_win_size s' = 2500000 -> last_ack_seq s' = 0 ->
      on_read env s data = (s', acts, Go).
Proof.
  intros [Hc Hq [Hw Hk]] Hm Hn Ht Hb. destruct (quiet_feed (msg_parser s) 128 [m] Hq) as (q & Hf & Hq'); [by constructor|lia|].
  cbn [stream_chunks foldl] in Hf, Hq'. rewrite app_nil_r in Hf. rewrite Hn in Hq'.
  pose proof (message_chunks_length 128 m ltac:(lia)) as Hlen.
  destruct Hm as [Hm Hts]. rewrite Hts in Hlen. specialize (Hlen ltac:(lia)).
  exists q, (concat (message_chunks 128 m)). split; [done|]. split; [done|].
  assert (total_read (counted s (concat (message_chunks 128 m)) q) = total_read s + zlen (concat (message_chunks 128 m))) as Htot by done.
  split; [unfold zlen in *; lia|]. split; [unfold zlen in *; lia|].
  intros s' acts Hh Ht' Hw' Hk'. unfold on_read.
  rewrite (proj2 (Z.leb_gt _ _)) by (unfold zlen in *; lia). cbn [msg_parser set_window]. rewrite Hf. cbn [lift].
  fold (counted s (concat (message_chunks 128 m)) q). cbn [handle_messages]. rewrite Hh. cbn [emit after].
  unfold send_window_ack. rewrite Hw', Hk', Ht'. rewrite (proj2 (Z.leb_gt _ _)) by (unfold zlen in *; lia).
  by rewrite !app_nil_r.
Qed.

(** What follows the scheme of an address does not begin with a scheme. *)
Lemma no_scheme t h r :
  lacks 47 h -> lacks 58 h -> lacks 47 t -> strip_any [t ++ [58; 47; 47]] (h ++ 47 :: r) = None.
Proof.
  intros H1 H2 Hlt. cbn [strip_any].
  destruct (strip_prefix (t ++ [58; 47; 47]) (h ++ 47 :: r)) as [x|] eqn:Hs; [|done]. apply strip_prefix_spec in Hs.
  pose proof (split_once_app 47 h r H1) as Hl. rewrite Hs in Hl.
  replace ((t ++ [58; 47; 47]) ++ x) with ((t ++ [58]) ++ 47 :: 47 :: x) in Hl by (by rewrite <-!app_assoc).
  rewrite split_once_app in Hl.
  - injection Hl as <- _. destruct H2. apply elem_of_app. right. apply list_elem_of_here.
  - apply lacks_app; [done|]. apply lacks_cons; [lia|]. unfold lacks. by intros ?%elem_of_nil.
Qed.

Lemma tc_url_names s h ap n :
  lacks 47 h -> lacks 58 h -> lacks 47 ap ->
  parse_tc_url s (str "rtmp://" ++ h ++ 47 :: ap ++ 47 :: n) = set_names s ap n (is_publisher s).
Proof.
  intros H1 H2 H3. unfold parse_tc_url, trim_start_matches. set (rest := h ++ 47 :: ap ++ 47 :: n).
  assert (strip_any [str "rtmp://"] rest = None) as N1 by (apply (no_scheme (str "rtmp")); [done|done|vm_compute; set_solver]).
  assert (strip_any [str "rtmps://"] rest = None) as N2 by (apply (no_scheme (str "rtmps")); [done|done|vm_compute; set_solver]).
  rewrite length_app. change (length (str "rtmp://")) with 7%nat.
  replace (7 + length rest)%nat with (S (6 + length rest))%nat by lia.
  cbn [trim_fuel strip_any]. rewrite strip_prefix_app, (trim_fuel_none _ _ _ N1), (trim_fuel_none _ _ _ N2).
  unfold rest. cbn [splitn]. rewrite split_once_app by done. rewrite split_once_app by done. done.
Qed.

Definition connect_answers : list RtmpMessage :=
  [WindowAckSize 2500000; SetPeerBandwidth 2500000 2; SetChunkSize 4096; connect_result; connect_status].

Lemma connect_answers_ok : Forall untimed connect_answers.
Proof. repeat constructor; vm_compute; (reflexivity || discriminate). Qed.

Lemma connect_message_ok ap url : plain_name ap -> plain_name url ->
  untimed (connect_message ap url) /\
  amf_decode (amf_encode [text "connect"; number 1; AmfObject [field "app" (AmfString ap); field "tcUrl" (AmfString url)]]) =
    Ok [text "connect"; number 1; AmfObject [field "app" (AmfString ap); field "tcUrl" (AmfString url)]].
Proof.
  intros Ha Hu. pose proof (connect_payload_length ap url Ha Hu) as Hl. split.
  - split; [|done]. split; [apply amf_encode_ne| |done..]. unfold zlen. rewrite Hl.
    destruct Ha as [_ Ha], Hu as [_ Hu]. unfold zlen in *. lia.
  - apply amf_decode_encode. apply Forall_cons_2; [apply wf_string; split; vm_compute; (reflexivity || discriminate)|].
    apply Forall_cons_2; [constructor; vm_compute; split; (reflexivity || discriminate)|]. apply Forall_singleton, wf_object.
    apply Forall_cons_2; [|apply Forall_singleton]; cbn [field fst snd];
      (split; [split; [done|split; vm_compute; (reflexivity || discriminate)]|by apply amf_text]).
Qed.

(** The answer to [connect]; from then on the server writes 4096-byte chunks. *)
Lemma server_connect a h ap n :
  let url := str "rtmp://" ++ h ++ 47 :: ap ++ 47 :: n in
  lacks 47 h -> lacks 58 h -> lacks 47 ap -> plain_name ap -> plain_name url ->
  exists s acts, on_read env (session_new a) (concat (message_chunks 128 (connect_message ap url))) = (s, acts, Go) /\
    wrote acts = concat (stream_chunks 128 connect_answers) /\ calm s /\ msg_encoder s = {| enc_chunk_size := 4096 |} /\
    auth s = a /\ app s = ap /\ source s = None /\ 0 <= total_read s <= 10000.
Proof.
  intros url H1 H2 H3 Ha Hu. destruct (connect_message_ok ap url Ha Hu) as [Hm Hd].
  pose proof (connect_payload_length ap url Ha Hu) as Hl. destruct Ha as [_ La], Hu as [_ Lu].
  destruct (server_step (session_new a) (connect_message ap url)) as (q & data & Hq & -> & Ht1 & Ht0 & Hstep); try done.
  { unfold zlen in *. cbn [total_read session_new]. lia. }
  set (s1 := set_names (counted (session_new a) (concat (message_chunks 128 (connect_message ap url))) q) ap n false).
  exists (set_encoder s1 {| enc_chunk_size := 4096 |}).
  exists (sends encoder_new [WindowAckSize 2500000; SetPeerBandwidth 2500000 2; SetChunkSize 4096] ++
          sends {| enc_chunk_size := 4096 |} [connect_result; connect_status]).
  split.
  - apply Hstep; [|done..]. unfold connect_message, command at 2. cbn [handle_message]. rewrite Hd. cbn [lift].
    change (handle_command ?w ?s _) with (handle_connect w s
      [text "connect"; number 1; AmfObject [field "app" (AmfString ap); field "tcUrl" (AmfString url)]]).
    unfold handle_connect. cbn [lookup list_lookup foldl].
    change (connect_property ?s (field "app" (AmfString ap))) with s.
    match goal with |- context [connect_property ?s _] => change (connect_property s (field "tcUrl" (AmfString url))) with (parse_tc_url s url) end.
    unfold url at 2. rewrite tc_url_names by done. rewrite send_msgs_ok by (done || (cbn; lia) || apply writable). cbn [after].
    rewrite send_msgs_ok by (done || (cbn; lia) || apply writable). done.
  - split; [|split; [split; [done|done|done]|split_and!; try done]].
    + rewrite wrote_app, !wrote_sends. unfold connect_answers.
      change [WindowAckSize 2500000; SetPeerBandwidth 2500000 2; SetChunkSize 4096; connect_result; connect_status]
        with ([WindowAckSize 2500000; SetPeerBandwidth 2500000 2; SetChunkSize 4096] ++ [connect_result; connect_status]).
      vm_compute. reflexivity.
    + unfold zlen in *. cbn [total_read session_new set_encoder s1] in *. unfold s1. cbn [total_read set_names set_encoder] in *. lia.
Qed.

Definition created_answer : RtmpMessage := command 0 [text "_result"; number 2; AmfNull; number 1].

Lemma server_create s :
  calm s -> msg_encoder s = {| enc_chunk_size := 4096 |} -> 0 <= total_read s <= 10000 ->
  exists s' acts, on_read env s (concat (message_chunks 128 create_stream_message)) = (s', acts, Go) /\
    wrote acts = concat (stream_chunks 4096 [created_answer]) /\ calm s' /\ msg_encoder s' = {| enc_chunk_size := 4096 |} /\
    auth s' = auth s /\ app s' = app s /\ source s' = source s /\ stream_id s' = 1 /\ 0 <= total_read s' <= 20000.
Proof.
  intros Hc He Ht. assert (untimed create_stream_message) as Hm by (repeat constructor; vm_compute; (reflexivity || discriminate)).
  assert (zlen (payload create_stream_message) = 25) as Hl by reflexivity.
  destruct (server_step s create_stream_message) as (q & data & Hq & -> & Ht1 & Ht0 & Hstep); try done; [lia|lia|].
  set (s1 := set_stream_id (counted s (concat (message_chunks 128 create_stream_message)) q) 1).
  exists s1, (sends {| enc_chunk_size := 4096 |} [created_answer]). destruct Hc as [Hcc Hcp [Hcw Hck]]. split.
  - apply Hstep; [|done..]. unfold create_stream_message, command at 2. cbn [handle_message].
    replace (amf_decode (amf_encode [text "createStream"; number 2; AmfNull])) with
      (Ok (E := Error) [text "createStream"; number 2; AmfNull]) by (vm_compute; reflexivity). cbn [lift].
    change (handle_command ?w ?x _) with (handle_create_stream w x [text "createStream"; number 2; AmfNull]).
    unfold handle_create_stream. cbn [lookup list_lookup]. change (set_stream_id _ 1) with s1.
    rewrite send_msg_ok; [by (unfold s1; cbn [msg_encoder set_stream_id counted set_parser set_window]; rewrite He)|done| |apply writable].
    unfold s1. cbn [msg_encoder set_stream_id counted set_parser set_window]. rewrite He. cbn. lia.
  - split; [by vm_compute|]. split; [by split|]. split_and!; try done.
    unfold s1. cbn [total_read set_stream_id] in *. unfold s1, zlen in *. lia.
Qed.

(** The answer to [publish] when hook and signature agree. *)
Lemma server_publish s n base sign :
  calm s -> msg_encoder s = {| enc_chunk_size := 4096 |} -> stream_id s = 1 -> 0 <= total_read s <= 20000 ->
  plain_name (app s) -> plain_name n -> n <> [] -> split_stream_sign n = (base, sign) ->
  on_publish (env 0%nat) (app s, base) sign = None -> check (auth s) DEFAULT_VHOST (app s) base (str "pub") sign = true ->
  exists s' acts, on_read env s (concat (message_chunks 128 (publish_message 1 n))) = (s', acts, Go) /\
    wrote acts = concat (stream_chunks 4096 [publish_status (app s) base]) /\
    publishing s' (app s, base) /\ quiet (msg_parser s') 128.
Proof.
  intros Hc He Hi Ht Hap Hn Hne Hsplit Hhook Hcheck.
  pose proof (publish_payload_length 1 n Hn) as Hl. pose proof (plain_base n base sign Hn Hsplit) as Hb.
  assert (Forall amf_wf [text "publish"; number 3; AmfNull; AmfString n; text "live"]) as Hwf.
  { apply Forall_cons_2; [apply wf_string; split; vm_compute; (reflexivity || discriminate)|].
    apply Forall_cons_2; [constructor; vm_compute; split; (reflexivity || discriminate)|].
    apply Forall_cons_2; [constructor|]. apply Forall_cons_2; [by apply amf_text|].
    apply Forall_singleton, wf_string. split; vm_compute; (reflexivity || discriminate). }
  assert (untimed (publish_message 1 n)) as Hm.
  { split; [|done]. split; [apply amf_encode_ne| |done..]. unfold zlen. rewrite Hl. destruct Hn as [_ Hn]. unfold zlen in Hn. lia. }
  destruct (server_step s (publish_message 1 n)) as (q & data & Hq & -> & Ht1 & Ht0 & Hstep); try done; [lia| |].
  { unfold zlen. rewrite Hl. destruct Hn as [_ Hn]. unfold zlen in Hn. lia. }
  destruct Hc as [Hcc Hcp [Hcw Hck]].
  set (s1 := set_names (counted s (concat (message_chunks 128 (publish_message 1 n))) q) (app s) base true).
  exists (set_source s1 (Some (app s, base))).
  exists ([CreateSource (app s, base); ClearTracks (app s, base); StreamPublish (app s, base)] ++
          sends {| enc_chunk_size := 4096 |} [publish_status (app s) base]). split.
  - apply Hstep; [|done..]. unfold publish_message, command at 2. cbn [handle_message]. rewrite amf_decode_encode by done. cbn [lift].
    change (handle_command ?w ?x _) with (handle_publish w x [text "publish"; number 3; AmfNull; AmfString n; text "live"]).
    unfold handle_publish. cbn [app stream_name set_names counted set_parser set_window].
    assert (forall old, named [text "publish"; number 3; AmfNull; AmfString n; text "live"] 3 old = n) as Hnamed
      by (intros; by destruct n).
    rewrite Hnamed, Hsplit. change (set_names _ (app s) base true) with s1. change (names s1) with (app s, base). rewrite Hhook.
    change (auth s1) with (auth s). rewrite Hcheck. cbn [negb emit after].
    rewrite send_msg_ok; [|done| |apply writable].
    + change (stream_id (set_source s1 _)) with (stream_id s). rewrite Hi.
      change (msg_encoder (set_source s1 _)) with (msg_encoder s). rewrite He. done.
    + change (msg_encoder (set_source s1 _)) with (msg_encoder s). rewrite He. cbn. lia.
  - split.
    + rewrite wrote_app, wrote_sends. cbn [fmap list_fmap concat stream_chunks]. by rewrite !app_nil_r.
    + split; [|done]. split; try done. change (msg_encoder (set_source s1 _)) with (msg_encoder s). rewrite He. cbn. lia.
Qed.

End Dialogues.

(** One read that contains the answer. *)
Lemma read_until_found answer p n ms pre rest :
  quiet p n -> Forall untimed ms -> (0 < n)%nat -> until answer [] ms = Ok (pre, true) ->
  exists q, quiet q (foldl next_chunk_size n ms) /\
    read_until answer p [] (concat (stream_chunks n ms) :: rest) = Ok (pre, q, rest).
Proof.
  intros Hq Hms Hn Hu. destruct (quiet_feed p n ms Hq Hms Hn) as (q & Hf & Hq'). exists q. split; [done|].
  cbn [read_until]. rewrite Hf. cbn [mbind outcome_bind]. by rewrite Hu.
Qed.

Lemma quiet_new : quiet parser_new 128.
Proof. by split. Qed.

Section PushDialogue.
Context `{AuthPrimitives}.

(** C16: a pushing client and the server.  The client's commands [connect],
    [createStream] and [publish] and the server's answers fit together: reading
    the answers the server's session gives to what it wrote, the client goes
    through to the end with message stream 1, and the session then publishes
    the stream of the client's address.  Yet the two disagree on the chunk size:
    the client has taken the size the server announced for its own chunks, 4096,
    for the size of the chunks the client sends, while the server still expects
    chunks of 128 bytes. *)
Theorem rtmp_push_dialogue env a h ap n base sign :
  let url := str "rtmp://" ++ h ++ 47 :: ap ++ 47 :: n in
  (forall i m, write_ok (env i) m = true) ->
  lacks 47 h -> lacks 58 h -> lacks 47 ap -> plain_name url -> plain_name ap -> plain_name n ->
  n <> [] -> (length n <= 98)%nat -> split_stream_sign n = (base, sign) ->
  on_publish (env 0%nat) (ap, base) sign = None -> check a DEFAULT_VHOST ap base (str "pub") sign = true ->
  exists s1 s2 s3 acts1 acts2 acts3 w1 w2 w3 d,
    on_read env (session_new a) w1 = (s1, acts1, Go) /\ on_read env s1 w2 = (s2, acts2, Go) /\ on_read env s2 w3 = (s3, acts3, Go) /\
    push_dialogue url ap n [wrote acts1; wrote acts2; wrote acts3] = Ok d /\
    dl_written d = [w1; w2; w3] /\ dl_reads d = [] /\ dl_stream_id d = 1 /\
    publishing s3 (ap, base) /\ rp_buffer (msg_parser s3) = [] /\
    enc_chunk_size (dl_encoder d) = 4096%nat /\ chunk_size (msg_parser s3) = 128%nat.
Proof.
  intros url Hw H1 H2 H3 Hu Ha Hn Hne Hlen Hsplit Hhook Hcheck.
  destruct (server_connect env Hw a h ap n H1 H2 H3 Ha Hu) as (s1 & acts1 & R1 & W1 & C1 & E1 & A1 & N1 & _ & T1).
  destruct (server_create env Hw s1 C1 E1 T1) as (s2 & acts2 & R2 & W2 & C2 & E2 & A2 & N2 & _ & I2 & T2).
  rewrite <-N1, <-N2 in Ha, Hhook, Hcheck. rewrite <-A1, <-A2 in Hcheck.
  destruct (server_publish env Hw s2 n base sign C2 E2 I2 T2 Ha Hn Hne Hsplit Hhook Hcheck) as (s3 & acts3 & R3 & W3 & P3 & Q3).
  rewrite N2, N1 in W3, P3, Ha. fold url in R1.
  destruct (read_until_found (is_result (u32_to_f64 1)) parser_new 128 connect_answers (take 4 connect_answers)
    [wrote acts2; wrote acts3] quiet_new connect_answers_ok ltac:(lia)) as (q1 & Q1 & F1); [vm_compute; reflexivity|].
  change (foldl next_chunk_size 128%nat connect_answers) with (Z.to_nat 4096) in Q1.
  change (Z.to_nat 4096) with 4096%nat in Q1.
  destruct (read_until_found (is_result (u32_to_f64 2)) q1 4096 [created_answer] [created_answer] [wrote acts3] Q1)
    as (q2 & Q2 & F2); [repeat constructor; vm_compute; (reflexivity || discriminate)|lia|vm_compute; reflexivity|].
  destruct (publish_status_ok ap base Ha (plain_base n base sign Hn Hsplit)) as [Hwf Hst].
  destruct (read_until_found is_status q2 4096 [publish_status ap base] [publish_status ap base] [] Q2) as (q3 & Q3' & F3);
    [by apply Forall_singleton|lia| |].
  { cbn [until]. unfold is_status, publish_status, on_status, command. rewrite amf_decode_encode by done. done. }
  exists s1, s2, s3, acts1, acts2, acts3. do 3 eexists.
  exists {| dl_stream_id := 1; dl_encoder := {| enc_chunk_size := 4096 |}; dl_parser := q3;
            dl_written := [concat (message_chunks 128 (connect_message ap url)); concat (message_chunks 128 create_stream_message);
                           concat (message_chunks 128 (publish_message 1 n))]; dl_reads := [] |}.
  split; [exact R1|]. split; [exact R2|]. split; [exact R3|].
  split.
  2: { do 3 (split; [reflexivity|]). split; [exact P3|]. split; [exact (quiet_buffer _ _ Q3)|].
       split; [reflexivity|exact (quiet_size _ _ Q3)]. }
  unfold push_dialogue, open_stream. rewrite encode_chunks by (cbn; lia). cbn [mbind outcome_bind].
  rewrite W1, F1. cbn [mbind outcome_bind].
  change (apply_control_messages encoder_new (take 4 connect_answers)) with {| enc_chunk_size := 4096 |}.
  rewrite encode_chunks by (cbn; lia). cbn [mbind outcome_bind]. rewrite W2, F2. cbn [mbind outcome_bind].
  change (created_stream [created_answer]) with (Some 1). cbn [mbind outcome_bind dl_encoder dl_stream_id dl_parser dl_reads dl_written].
  change (apply_control_messages {| enc_chunk_size := 4096 |} [created_answer]) with {| enc_chunk_size := 4096 |}.
  rewrite encode_chunks by (cbn; lia). cbn [mbind outcome_bind]. rewrite W3, F3. cbn [mbind outcome_bind enc_chunk_size List.app].
  rewrite (message_chunks_single 4096 128 (publish_message 1 n)); [done|apply amf_encode_ne|..];
    rewrite publish_payload_length by done; lia.
Qed.

End PushDialogue.

(** ** The pulling client *)

(** At most one track of each kind, and only once the flag is set. *)
Definition tracks_ok (st : PullState) : Prop :=
  length (List.filter is_audio_track (pl_tracks st)) = (if has_audio st then 1 else 0)%nat /\
  length (List.filter (fun t => negb (is_audio_track t)) (pl_tracks st)) = (if has_video st then 1 else 0)%nat.

Lemma pull_media st m sid :
  media_message m -> tracks_ok st ->
  exists st' f, pull_message st m = Ok st' /\ pl_parser st' = pl_parser st /\ tracks_ok st' /\
    pl_frames st' = pl_frames st ++ [f] /\ media_frame_to_rtmp_message f sid = Ok (Some (retarget sid m)).
Proof.
  intros Hm [Ta Tv]. destruct m as [| | | | | |ms t d|ms t d| |]; try done; cbn [pull_message media_message] in *.
  - eexists _, _. split; [done|]. split; [done|]. split; [|split; [done|by rewrite flv_frame_message]].
    unfold tracks_ok. cbn. destruct (audio_is_config d), (has_audio st); cbn [andb negb orb]; try done.
    rewrite !List.filter_app, !length_app, Ta, Tv. by destruct (has_video st).
  - unfold pull_video. rewrite legacy_normalize by done. cbn [mbind outcome_bind]. change (default d (Some d)) with d.
    destruct (parse_video_safe d) as (c & k & g & ->). cbn [mbind outcome_bind].
    eexists _, _. split; [done|]. split; [done|]. split; [|split; [done|by rewrite flv_frame_message]].
    unfold tracks_ok. cbn. destruct g, (has_video st); cbn [andb negb orb]; try done.
    rewrite !List.filter_app, !length_app, Ta, Tv. by destruct (has_audio st).
Qed.

Lemma pull_medias st ms sid :
  Forall media_message ms -> tracks_ok st ->
  exists st' fs, pull_messages st ms = Ok st' /\ pl_parser st' = pl_parser st /\ tracks_ok st' /\
    pl_frames st' = pl_frames st ++ fs /\ length fs = length ms /\ play_messages sid fs = Ok (retarget sid <$> ms).
Proof.
  intros Hm. revert st. induction Hm as [|m ms Hm Hms IH]; intros st Ht.
  { exists st, []. split_and!; try done. by rewrite app_nil_r. }
  destruct (pull_media st m sid Hm Ht) as (st1 & f & H1 & P1 & T1 & F1 & M1).
  destruct (IH st1 T1) as (st2 & fs & H2 & P2 & T2 & F2 & L2 & M2). exists st2, (f :: fs). cbn [pull_messages]. rewrite H1.
  cbn [mbind outcome_bind]. split_and!; try done; [congruence|by rewrite F2, F1, <-app_assoc|by cbn; rewrite L2|].
  cbn [play_messages]. rewrite M1, M2. done.
Qed.

Lemma pull_run gs st p' ms sid :
  runs (pl_parser st) (concat gs) p' ms -> rp_buffer (pl_parser st) = [] -> Forall media_message ms -> tracks_ok st ->
  exists st' fs, pull_loop st (@concat Z <$> gs) = Ok st' /\ tracks_ok st' /\
    pl_frames st' = pl_frames st ++ fs /\ length fs = length ms /\ play_messages sid fs = Ok (retarget sid <$> ms).
Proof.
  revert st p' ms. induction gs as [|g gs IH]; intros st p' ms Hr Hb Hm Ht.
  { inv Hr. exists st, []. split_and!; try done. by rewrite app_nil_r. }
  cbn [concat] in Hr. apply runs_split in Hr as (q & ms1 & ms2 & H1 & H2 & ->). apply Forall_app in Hm as [Hm1 Hm2].
  rewrite fmap_cons. cbn [pull_loop]. rewrite (runs_feed _ _ _ _ H1 Hb). cbn [mbind outcome_bind].
  match goal with |- context [pull_messages ?x ms1] => set (st0 := x) end.
  destruct (pull_medias st0 ms1 sid Hm1) as (st1 & fs1 & P1 & Pp & T1 & F1 & L1 & M1); [done|].
  rewrite P1. cbn [mbind outcome_bind]. destruct (runs_set_buffer _ _ _ _ [] H2) as (q' & H2' & _).
  destruct (IH st1 q' ms2) as (st2 & fs2 & P2 & T2 & F2 & L2 & M2); try done; [by rewrite Pp|by rewrite Pp|].
  exists st2, (fs1 ++ fs2). split_and!; try done; [by rewrite F2, F1, <-app_assoc|by rewrite !length_app, L1, L2|].
  rewrite fmap_app. by apply play_messages_app.
Qed.

(** C37: a pulled stream.  When a task of the server plays a list of frames, in
    any layout it can put into an FLV payload, the client that pulls them and
    reads at chunk boundaries publishes one frame per message, and playing
    those again gives the same messages: kinds, order, timestamps and payloads
    survive the hop.  The client announces at most one track of each kind.
    The frames are such that their messages are well-formed, not enhanced and
    meet the condition [on_time]. *)
Theorem rtmp_pull_relay e sid frames ms st gs :
  play_messages sid frames = Ok ms -> Forall message_wf ms -> Forall media_message ms ->
  (0 < enc_chunk_size e)%nat -> chunk_size (pl_parser st) = enc_chunk_size e -> rp_buffer (pl_parser st) = [] ->
  on_time (enc_chunk_size e) (last_timestamp (pl_parser st)) ms ->
  concat gs = stream_chunks (enc_chunk_size e) ms -> tracks_ok st ->
  play_task e sid [] frames = Ok (concat (@concat Z <$> gs)) /\
  exists st' pulled, pull_loop st (@concat Z <$> gs) = Ok st' /\ tracks_ok st' /\
    pl_frames st' = pl_frames st ++ pulled /\ length pulled = length ms /\ play_messages sid pulled = Ok (retarget sid <$> ms).
Proof.
  intros Hpl Hw Hm He Hsz Hb Ht Hgs Hst. split.
  - unfold play_task. cbn [List.app]. rewrite Hpl. cbn [mbind outcome_bind]. rewrite encode_all_chunks, <-Hgs by done.
    apply (f_equal (@Ok Error bytes)). clear. induction gs as [|g gs IH]; [done|]. cbn. by rewrite concat_app, IH.
  - pose proof (stream_runs ms (pl_parser st) Hw ltac:(lia)) as Hr. rewrite Hsz in Hr. rewrite received_on_time in Hr by done.
    rewrite <-Hgs in Hr. destruct (pull_run gs st _ ms sid Hr Hb Hm Hst) as (st' & fs & H1 & H2 & H3 & H4 & H5).
    by exists st', fs.
Qed.

(** ** Examples *)

Lemma rtmp_handshake_completes_witness :
  exists s1 c1 : bytes, length s1 = 1536%nat /\ client_hello (replicate 1528 7) = 3 :: c1 /\
    server_handshake (replicate 1528 8) (client_hello (replicate 1528 7) ++ s1 ++ [1; 2]) = Ok ((3 :: s1) ++ c1, [1; 2]) /\
    client_handshake (((3 :: s1) ++ c1) ++ [5]) = Ok (s1, [5]).
Proof.
  exact (rtmp_handshake_completes (replicate 1528 7) (replicate 1528 8) [1; 2] [5] (length_replicate _ _) (length_replicate _ _)).
Defined.

Definition demo_url : RtmpUrl :=
  {| host := str "::1"; port := 1936; url_app := str "live"; url_stream := str "camera"; use_tls := false |}.

Lemma rtmp_url_round_trip_witness :
  url_text demo_url true = str "rtmp://[::1]:1936/live/camera" /\ parse_rtmp_url (url_text demo_url true) = Ok demo_url.
Proof.
  split; [vm_compute; reflexivity|]. apply (rtmp_url_round_trip demo_url true).
  split; vm_compute; first [set_solver | split; (reflexivity || discriminate)].
Defined.

(** A client that pushes to [rtmp://host/live/cam]. *)
Definition push_url : bytes := str "rtmp://" ++ str "host" ++ 47 :: str "live" ++ 47 :: str "cam".

Lemma rtmp_push_dialogue_witness :
  exists s1 s2 s3 acts1 acts2 acts3 w1 w2 w3 d,
    on_read (H := sample_primitives) (demo_env false) (session_new demo_auth) w1 = (s1, acts1, Go) /\
    on_read (H := sample_primitives) (demo_env false) s1 w2 = (s2, acts2, Go) /\
    on_read (H := sample_primitives) (demo_env false) s2 w3 = (s3, acts3, Go) /\
    push_dialogue push_url (str "live") (str "cam") [wrote acts1; wrote acts2; wrote acts3] = Ok d /\
    dl_written d = [w1; w2; w3] /\ dl_reads d = [] /\ dl_stream_id d = 1 /\
    publishing s3 (str "live", str "cam") /\ rp_buffer (msg_parser s3) = [] /\
    enc_chunk_size (dl_encoder d) = 4096%nat /\ chunk_size (msg_parser s3) = 128%nat.
Proof.
  apply (rtmp_push_dialogue (H := sample_primitives) (demo_env false) demo_auth (str "host") (str "live") (str "cam") (str "cam") []).
  - reflexivity.
  - vm_compute. set_solver.
  - vm_compute. set_solver.
  - vm_compute. set_solver.
  - split; [repeat constructor|vm_compute; discriminate].
  - split; [repeat constructor|vm_compute; discriminate].
  - split; [repeat constructor|vm_compute; discriminate].
  - discriminate.
  - vm_compute. lia.
  - reflexivity.
  - reflexivity.
  - vm_compute. reflexivity.
Defined.

(** The video messages of [n] payload bytes that the server publishes when the
    client encodes them with the chunk size its dialogue ended with. *)
Definition pushed (n : nat) : list MediaFrame :=
  match encode {| enc_chunk_size := 4096 |} (VideoMessage 1 40 (replicate n 0x17)) with
  | Ok b => published (str "live", str "cam") (on_read (H := sample_primitives) (demo_env false) demo_publisher b).1.2
  | _ => []
  end.

(** The consequence of the different chunk sizes at the end of the push
    dialogue, on a session that publishes: video messages of up to 128 bytes
    reach the source, longer ones do not. *)
Theorem rtmp_push_chunk_mismatch :
  chunk_size (msg_parser demo_publisher) = 128%nat /\
  Forall (fun n => length (pushed n) = if (n <=? 128)%nat then 1%nat else 0%nat) (seq 1 300).
Proof.
  split; [vm_compute; reflexivity|]. apply Forall_forall. intros n Hn.
  assert (forallb (fun n => length (pushed n) =? (if n <=? 128 then 1 else 0))%nat (seq 1 300) = true) as Hall
    by (vm_compute; reflexivity).
  rewrite forallb_forall in Hall. apply Nat.eqb_eq, Hall. by apply list_elem_of_In.
Qed.

Definition demo_frames : list MediaFrame :=
  [with_payload_format (new_video 0 H264 40 40 40 [0; 0; 0; 1; 0x65; 0x88] true) PfAnnexB;
   with_payload_format (new_audio 0 AAC 41 41 41 [0xff; 0xf1; 0x50; 0x80; 0; 0; 0; 0x11; 0x22]) PfAdts].

Definition demo_played : list RtmpMessage :=
  [VideoMessage 1 40 [0x17; 1; 0; 0; 0; 0; 0; 0; 2; 0x65; 0x88]; AudioMessage 1 41 [0xaf; 1; 0x11; 0x22]].

Lemma rtmp_pull_relay_witness :
  let st := {| pl_parser := parser_new; has_video := false; has_audio := false; pl_tracks := []; pl_frames := [] |} in
  exists st' pulled, pull_loop st (@concat Z <$> [stream_chunks 128 demo_played]) = Ok st' /\ tracks_ok st' /\
    pl_frames st' = [] ++ pulled /\ length pulled = 2%nat /\ play_messages 1 pulled = Ok demo_played.
Proof.
  intros st.
  destruct (rtmp_pull_relay encoder_new 1 demo_frames demo_played st [stream_chunks 128 demo_played]) as [_ Hp].
  - vm_compute. reflexivity.
  - repeat constructor; vm_compute; (reflexivity || discriminate).
  - repeat constructor.
  - vm_compute. lia.
  - reflexivity.
  - reflexivity.
  - vm_compute. repeat split; left; lia.
  - reflexivity.
  - split; reflexivity.
  - exact Hp.
Defined.
