(* ===== verification/RtspRtp.v ===== *)
(** * RtspRtp: RTP media of an RTSP session

    The media half of [rtsp/src/session.rs]: the packets a playing session
    sends, the interleaved framing, and [RtpDepacketizer], which both the
    publishing side of the server and [rtsp/src/pull_client.rs] feed; the media
    loop of that client and [send_frame] of [rtsp/src/push_client.rs].  A frame
    handed to [MediaSource::publish_and_cache] is an output. *)

From S2P Require Import Prelude Frame AnnexB Payload Rtp Utf8 Text RtspMsg.
#[local] Open Scope nat_scope.

(** ** Sending *)

Definition make_rtp_header (seq timestamp ssrc pt : Z) (marker : bool) : bytes :=
  [0x80; if marker then 0x80 .| pt else pt]%Z ++ to_be 2 seq ++ to_be 4 timestamp ++ to_be 4 ssrc.

(** [timestamp * 90] on [u32]. *)
Definition rtp_clock (timestamp : Z) : result Z :=
  if (2 ^ 32 <=? timestamp * 90)%Z then Panic else Ok (timestamp * 90)%Z.

Definition rtp_packet (seq ts ssrc pt : Z) (marker : bool) (payload : bytes) : bytes :=
  make_rtp_header seq ts ssrc pt marker ++ payload.

(** The loops over the parameter sets of a decoder configuration record:
    position, sequence number and packets after at most [n] units. *)
Fixpoint param_packets (n : nat) (data : bytes) (timestamp ssrc : Z) (pos : nat) (seq : Z) (packets : list bytes) :
    result (nat * Z * list bytes) :=
  match n with
  | O => Ok (pos, seq, packets)
  | S n =>
      if length data <? pos + 2 then Ok (pos, seq, packets) else
      b0 ← idx data pos; b1 ← idx data (pos + 1);
      let nalu_len := Z.to_nat (from_be [b0; b1]) in
      let pos := pos + 2 in
      if length data <? pos + nalu_len then Ok (pos, seq, packets) else
      nalu ← slice data pos (pos + nalu_len);
      rtp_ts ← rtp_clock timestamp;
      param_packets n data timestamp ssrc (pos + nalu_len) (u16 (seq + 1))
        (packets ++ [rtp_packet seq rtp_ts ssrc 96 true nalu])
  end.

(** One turn of a fragment loop; [k] bytes of fragment header, [pre first stop]. *)
Definition play_fu_step (k mtu : nat) (pre : bool -> bool -> bytes) (nalu : bytes) (rtp_ts ssrc : Z)
    (st : nat * bool * Z * list bytes) : result (nat * bool * Z * list bytes + Z * list bytes) :=
  let '(pos2, first, seq, packets) := st in
  if pos2 <? length nalu then
    let chunk := Nat.min (mtu - k) (length nalu - pos2) in
    let stop := length nalu <=? pos2 + chunk in
    body ← slice nalu pos2 (pos2 + chunk);
    Ok (inl (pos2 + chunk, false, u16 (seq + 1),
             packets ++ [rtp_packet seq rtp_ts ssrc 96 stop (pre first stop ++ body)]))
  else Ok (inr (seq, packets)).

(** The fragment headers of the two codecs. *)
Definition play_h264_pre (hdr : Z) (first stop : bool) : bytes :=
  let nal_type := (hdr .& 0x1F)%Z in
  [(hdr .& 0x60) .| 28; if first then 0x80 .| nal_type else if stop then 0x40 .| nal_type else nal_type]%Z.

Definition play_hevc_pre (hdr0 hdr1 : Z) (first stop : bool) : bytes :=
  let nal_type := ((hdr0 .>> 1) .& 0x3F)%Z in
  let fu_header := if first then (nal_type .| 0x80)%Z else nal_type in
  let fu_header := if stop then (fu_header .| 0x40)%Z else fu_header in
  [(hdr0 .& 0x81) .| (49 .<< 1); hdr1; fu_header]%Z.

Definition PLAY_MTU : nat := 1400.

(** One NAL unit of an access unit. *)
Definition play_nalu (c : CodecId) (nalu : bytes) (rtp_ts ssrc : Z) (seq : Z) (packets : list bytes) : result (Z * list bytes) :=
  match c with
  | H265 =>
      if length nalu <? 2 then Ok (seq, packets) else
      if length nalu <=? PLAY_MTU then Ok (u16 (seq + 1), packets ++ [rtp_packet seq rtp_ts ssrc 96 true nalu]) else
      hdr0 ← idx nalu 0; hdr1 ← idx nalu 1;
      loop (S (length nalu)) (play_fu_step 3 PLAY_MTU (play_hevc_pre hdr0 hdr1) nalu rtp_ts ssrc) (2, true, seq, packets)
  | _ =>
      if length nalu <=? PLAY_MTU then Ok (u16 (seq + 1), packets ++ [rtp_packet seq rtp_ts ssrc 96 true nalu]) else
      hdr ← idx nalu 0;
      loop (S (length nalu)) (play_fu_step 2 PLAY_MTU (play_h264_pre hdr) nalu rtp_ts ssrc) (1, true, seq, packets)
  end.

(** One turn of the loop over the length-prefixed units. *)
Definition play_units_step (c : CodecId) (data : bytes) (rtp_ts ssrc : Z) (st : nat * Z * list bytes) :
    result (nat * Z * list bytes + Z * list bytes) :=
  let '(pos, seq, packets) := st in
  if pos + 4 <=? length data then
    b0 ← idx data pos; b1 ← idx data (pos + 1); b2 ← idx data (pos + 2); b3 ← idx data (pos + 3);
    let nalu_len := Z.to_nat (from_be [b0; b1; b2; b3]) in
    let pos := pos + 4 in
    if length data <? pos + nalu_len then Ok (inr (seq, packets)) else
    nalu ← slice data pos (pos + nalu_len);
    '(seq, packets) ← play_nalu c nalu rtp_ts ssrc seq packets;
    Ok (inl (pos + nalu_len, seq, packets))
  else Ok (inr (seq, packets)).

Definition play_units (c : CodecId) (data : bytes) (rtp_ts ssrc seq : Z) : result (Z * list bytes) :=
  loop (S (length data)) (play_units_step c data rtp_ts ssrc) (5, seq, []).

Definition play_h264 (data : bytes) (timestamp ssrc seq : Z) : result (Z * list bytes) :=
  if length data <? 5 then Ok (seq, []) else
  d1 ← idx data 1;
  let avc_packet_type := (d1 .& 0x0F)%Z in
  if (avc_packet_type =? 0)%Z then
    if length data <? 11 then Ok (seq, []) else
    d10 ← idx data 10;
    '(pos, seq, packets) ← param_packets (Z.to_nat (d10 .& 0x1F)%Z) data timestamp ssrc 11 seq [];
    if pos <? length data then
      num_pps ← idx data pos;
      '(_, seq, packets) ← param_packets (Z.to_nat num_pps) data timestamp ssrc (pos + 1) seq packets;
      Ok (seq, packets)
    else Ok (seq, packets)
  else if (avc_packet_type =? 1)%Z then
    rtp_ts ← rtp_clock timestamp;
    play_units H264 data rtp_ts ssrc seq
  else Ok (seq, []).

(** [extract_hevc_nalus]: the VPS, SPS and PPS of an FLV configuration record. *)
Definition HevcNalus : Type := option bytes * option bytes * option bytes.

Definition keep_nalu (nal_type : Z) (nalu : bytes) (ps : HevcNalus) : HevcNalus :=
  let '(vps, sps, pps) := ps in
  if (nal_type =? 32)%Z then (Some nalu, sps, pps)
  else if (nal_type =? 33)%Z then (vps, Some nalu, pps)
  else if (nal_type =? 34)%Z then (vps, sps, Some nalu) else ps.

Fixpoint hevc_array (n : nat) (data : bytes) (nal_type : Z) (pos : nat) (ps : HevcNalus) : result (nat * HevcNalus) :=
  match n with
  | O => Ok (pos, ps)
  | S n =>
      if length data <? pos + 2 then Ok (pos, ps) else
      b0 ← idx data pos; b1 ← idx data (pos + 1);
      let nalu_len := Z.to_nat (from_be [b0; b1]) in
      let pos := pos + 2 in
      if length data <? pos + nalu_len then Ok (pos, ps) else
      nalu ← slice data pos (pos + nalu_len);
      hevc_array n data nal_type (pos + nalu_len) (keep_nalu nal_type nalu ps)
  end.

Fixpoint hevc_arrays (n : nat) (data : bytes) (pos : nat) (ps : HevcNalus) : result HevcNalus :=
  match n with
  | O => Ok ps
  | S n =>
      if length data <? pos + 3 then Ok ps else
      t ← idx data pos; b0 ← idx data (pos + 1); b1 ← idx data (pos + 2);
      '(pos, ps) ← hevc_array (Z.to_nat (from_be [b0; b1])) data (t .& 0x3F)%Z (pos + 3) ps;
      hevc_arrays n data pos ps
  end.

Definition extract_hevc_nalus (data : bytes) : result HevcNalus :=
  if length data <? 28 then Ok (None, None, None) else
  num_arrays ← idx data 27;
  hevc_arrays (Z.to_nat num_arrays) data 28 (None, None, None).

(** [for nalu in [vps, sps, pps].iter().flatten()] *)
Fixpoint param_set_packets (l : list (option bytes)) (rtp_ts ssrc seq : Z) : Z * list bytes :=
  match l with
  | [] => (seq, [])
  | None :: l => param_set_packets l rtp_ts ssrc seq
  | Some nalu :: l =>
      let '(seq', packets) := param_set_packets l rtp_ts ssrc (u16 (seq + 1)) in
      (seq', rtp_packet seq rtp_ts ssrc 96 true nalu :: packets)
  end.

Definition play_hevc (data : bytes) (timestamp ssrc seq : Z) : result (Z * list bytes) :=
  if length data <? 5 then Ok (seq, []) else
  d1 ← idx data 1;
  let packet_type := (d1 .& 0x0F)%Z in
  rtp_ts ← rtp_clock timestamp;
  if (packet_type =? 0)%Z then
    '(vps, sps, pps) ← extract_hevc_nalus data;
    Ok (param_set_packets [vps; sps; pps] rtp_ts ssrc seq)
  else if (packet_type =? 1)%Z then play_units H265 data rtp_ts ssrc seq
  else Ok (seq, []).

Definition play_video (frame : MediaFrame) (timestamp ssrc seq : Z) : result (Z * list bytes) :=
  match flv_payload frame with
  | Ok data =>
      match codec frame with
      | H265 => play_hevc data timestamp ssrc seq
      | H264 => play_h264 data timestamp ssrc seq
      | _ => Ok (seq, [])
      end
  | Err _ => Ok (seq, [])
  | Panic => Panic
  | NoFuel => NoFuel
  end.

(** [session.rs] has a third copy of the function of [ps.rs] and [rtp.rs]. *)
Definition play_raw_audio (frame : MediaFrame) : result bytes := rtp_raw_audio_payload frame.

Definition play_audio (frame : MediaFrame) (timestamp ssrc seq clock_rate : Z) : result (Z * list bytes) :=
  if config_frame frame then Ok (seq, []) else
  choice ←
    match codec frame with
    | AAC => match aac_raw_payload frame with
             | Ok d => Ok (Some (97, d, true, false)%Z)
             | Err _ => Ok None
             | Panic => Panic
             | NoFuel => NoFuel
             end
    | Opus => Ok (Some (97, data frame, false, false)%Z)
    | G711U => d ← play_raw_audio frame; Ok (Some (0, d, false, false)%Z)
    | G711A => d ← play_raw_audio frame; Ok (Some (8, d, false, false)%Z)
    | Mp3 | MP2A => d ← play_raw_audio frame; Ok (Some (14, d, false, true)%Z)
    | L16 => d ← play_raw_audio frame; Ok (Some (97, d, false, false)%Z)
    | _ => Ok None
    end;
  match choice with
  | None => Ok (seq, [])
  | Some (pt, audio_data, aac, mpa) =>
      if length audio_data =? 0 then Ok (seq, []) else
      let rtp_ts := u32 (timestamp * Z.max clock_rate 1 / 1000) in
      let au_header := (u16 (u16 (zlen audio_data) .<< 3) .& 0xFFF8)%Z in
      let extra := if aac : bool then to_be 2 16 ++ to_be 2 au_header
                   else if mpa : bool then [0; 0; 0; 0]%Z else [] in
      Ok (u16 (seq + 1), [rtp_packet seq rtp_ts ssrc pt true (extra ++ audio_data)])
  end.

Definition play_frame (frame : MediaFrame) (ssrc seq audio_clock_rate : Z) : result (Z * list bytes) :=
  match frame_type frame with
  | Video => play_video frame (timestamp frame) ssrc seq
  | Audio => play_audio frame (timestamp frame) ssrc seq audio_clock_rate
  | Metadata => Ok (seq, [])
  end.

(** [send_interleaved_rtp]: what is written for one packet. *)
Definition interleave (channel : Z) (pkt : bytes) : bytes := [36; channel]%Z ++ to_be 2 (u16 (zlen pkt)) ++ pkt.

(** [send_interleaved_frame] *)
Definition send_interleaved_frame (frame : MediaFrame) (ssrc seq audio_clock_rate : Z) : result (Z * bytes) :=
  '(seq, packets) ← play_frame frame ssrc seq audio_clock_rate;
  let channel := if bool_decide (frame_type frame = Video) then 0%Z else 2%Z in
  Ok (seq, concat (interleave channel <$> packets)).

(** ** Receiving: RtpDepacketizer *)

(** The fields [handle_rtp] does not change. *)
Record DepakConfig : Type := {
  dk_video_pt : Z;
  dk_audio_pt : Z;
  dk_video_chan : Z;
  dk_audio_chan : Z;
  dk_audio_sample_rate : Z;
  force_media : option FrameType;
  dk_video_codec : CodecId;
  dk_audio_config : option bytes
}.

Record ParamSets : Type := { sps : option bytes; pps : option bytes; vps : option bytes }.

Record RtpDepacketizer : Type := {
  param_sets : ParamSets;
  config_sent : bool;
  audio_config_sent : bool;
  pending_nalus : list bytes;
  fu_buf : bytes;
  dk_fu_active : bool;
  pending_video_ts : Z;
  video_key : bool
}.

Definition rtp_depacketizer_new (ps : ParamSets) : RtpDepacketizer :=
  {| param_sets := ps; config_sent := false; audio_config_sent := false; pending_nalus := [];
     fu_buf := []; dk_fu_active := false; pending_video_ts := 0; video_key := false |}.

(** Assignments to the fields. *)
Definition set_params (d : RtpDepacketizer) (ps : ParamSets) (key : bool) : RtpDepacketizer :=
  {| param_sets := ps; config_sent := config_sent d; audio_config_sent := audio_config_sent d; pending_nalus := pending_nalus d;
     fu_buf := fu_buf d; dk_fu_active := dk_fu_active d; pending_video_ts := pending_video_ts d; video_key := key |}.

Definition set_fu (d : RtpDepacketizer) (buf : bytes) (active : bool) : RtpDepacketizer :=
  {| param_sets := param_sets d; config_sent := config_sent d; audio_config_sent := audio_config_sent d; pending_nalus := pending_nalus d;
     fu_buf := buf; dk_fu_active := active; pending_video_ts := pending_video_ts d; video_key := video_key d |}.

Definition push_nalu (d : RtpDepacketizer) (nalu : bytes) : RtpDepacketizer :=
  {| param_sets := param_sets d; config_sent := config_sent d; audio_config_sent := audio_config_sent d;
     pending_nalus := pending_nalus d ++ [nalu];
     fu_buf := fu_buf d; dk_fu_active := dk_fu_active d; pending_video_ts := pending_video_ts d; video_key := video_key d |}.

Definition set_video_ts (d : RtpDepacketizer) (ts : Z) : RtpDepacketizer :=
  {| param_sets := param_sets d; config_sent := config_sent d; audio_config_sent := audio_config_sent d; pending_nalus := pending_nalus d;
     fu_buf := fu_buf d; dk_fu_active := dk_fu_active d; pending_video_ts := ts; video_key := video_key d |}.

(** After a frame: nothing pending, the key flag reset. *)
Definition frame_done (d : RtpDepacketizer) (sent : bool) : RtpDepacketizer :=
  {| param_sets := param_sets d; config_sent := sent; audio_config_sent := audio_config_sent d; pending_nalus := [];
     fu_buf := fu_buf d; dk_fu_active := dk_fu_active d; pending_video_ts := pending_video_ts d; video_key := false |}.

Definition audio_configured (d : RtpDepacketizer) : RtpDepacketizer :=
  {| param_sets := param_sets d; config_sent := config_sent d; audio_config_sent := true; pending_nalus := pending_nalus d;
     fu_buf := fu_buf d; dk_fu_active := dk_fu_active d; pending_video_ts := pending_video_ts d; video_key := video_key d |}.

Definition observe_nalu (d : RtpDepacketizer) (nalu : bytes) : RtpDepacketizer :=
  match nalu with
  | [] => d
  | h :: _ =>
      let t := (h .& 0x1F)%Z in
      let ps := param_sets d in
      if (t =? 5)%Z then set_params d ps true
      else if (t =? 7)%Z then set_params d {| sps := Some nalu; pps := pps ps; vps := vps ps |} (video_key d)
      else if (t =? 8)%Z then set_params d {| sps := sps ps; pps := Some nalu; vps := vps ps |} (video_key d)
      else d
  end.

Definition observe_hevc_nalu (d : RtpDepacketizer) (nalu : bytes) : RtpDepacketizer :=
  match nalu with
  | h :: _ :: _ =>
      let t := ((h .>> 1) .& 0x3F)%Z in
      let ps := param_sets d in
      if (t =? 32)%Z then set_params d {| sps := sps ps; pps := pps ps; vps := Some nalu |} (video_key d)
      else if (t =? 33)%Z then set_params d {| sps := Some nalu; pps := pps ps; vps := vps ps |} (video_key d)
      else if (t =? 34)%Z then set_params d {| sps := sps ps; pps := Some nalu; vps := vps ps |} (video_key d)
      else if ((19 <=? t) && (t <=? 21))%Z then set_params d ps true
      else d
  | _ => d
  end.

(** One turn of the loops over an aggregation packet (STAP-A, AP). *)
Definition aggregate_step (observe : RtpDepacketizer -> bytes -> RtpDepacketizer) (data : bytes)
    (st : nat * RtpDepacketizer) : result (nat * RtpDepacketizer + RtpDepacketizer) :=
  let '(pos, d) := st in
  if pos + 2 <=? length data then
    b0 ← idx data pos; b1 ← idx data (pos + 1);
    let len := Z.to_nat (from_be [b0; b1]) in
    let pos := pos + 2 in
    if length data <? pos + len then Ok (inr d) else
    nalu ← slice data pos (pos + len);
    Ok (inl (pos + len, push_nalu (observe d nalu) nalu))
  else Ok (inr d).

Definition aggregate observe (data : bytes) (pos : nat) (d : RtpDepacketizer) : result RtpDepacketizer :=
  loop (S (length data)) (aggregate_step observe data) (pos, d).

Definition build_avcc_config (sps pps : bytes) : bytes :=
  [0x17; 0x00; 0; 0; 0; 0x01; default 0x42 (sps !! 1%nat); default 0x00 (sps !! 2%nat); default 0x1E (sps !! 3%nat); 0xFF; 0xE1]%Z ++
  to_be 2 (u16 (zlen sps)) ++ sps ++ [0x01]%Z ++ to_be 2 (u16 (zlen pps)) ++ pps.

Definition build_avcc_frame (nalus : list bytes) (key : bool) : bytes :=
  [if key then 0x17 else 0x27; 0x01; 0; 0; 0]%Z ++ concat ((fun n => to_be 4 (u32 (zlen n)) ++ n) <$> nalus).

Definition build_hevc_config_record (vps sps pps : bytes) : result bytes :=
  head ← (if 8 <=? length sps then
            s2 ← idx sps 2; flags ← slice sps 3 7; s7 ← idx sps 7;
            Ok ([s2] ++ flags ++ replicate 6 0%Z ++ [s7])
          else Ok ([0x20]%Z ++ replicate 4 0%Z ++ replicate 6 0%Z ++ [0x5D]%Z));
  Ok ([0x01]%Z ++ head ++ [0; 0; 0; 1; 0; 0; 0; 0; 0x0F; 0x03]%Z ++
      concat ((fun '(t, n) => [t; 0; 1]%Z ++ to_be 2 (u16 (zlen n)) ++ n) <$> [(32%Z, vps); (33%Z, sps); (34%Z, pps)])).

(** A frame of the stream, as [emit_video_frame] builds it. *)
Definition flv_video_frame (c : CodecId) (ms : Z) (d : bytes) (key config : bool) : MediaFrame :=
  set_config_frame (with_payload_format (new_video 0 c ms ms ms d key) PfFlv) config.

(** The units that are not parameter sets; [n[0]] panics on an empty unit. *)
Fixpoint frame_nalus (c : CodecId) (l : list bytes) : result (list bytes) :=
  match l with
  | [] => Ok []
  | n :: l =>
      h ← idx n 0;
      r ← frame_nalus c l;
      let skip := match c with
                  | H265 => let t := ((h .>> 1) .& 0x3F)%Z in ((t =? 32) || (t =? 33) || (t =? 34))%Z
                  | _ => let t := (h .& 0x1F)%Z in ((t =? 7) || (t =? 8))%Z
                  end in
      Ok (if skip then r else n :: r)
  end.

(** The configuration frame, once all parameter sets are known. *)
Definition config_output (c : CodecId) (d : RtpDepacketizer) (ms : Z) : result (list MediaFrame) :=
  if config_sent d then Ok [] else
  match c with
  | H265 =>
      match vps (param_sets d), sps (param_sets d), pps (param_sets d) with
      | Some v, Some s, Some p =>
          rec ← build_hevc_config_record v s p;
          Ok [flv_video_frame H265 ms ([0x1C; 0x00; 0; 0; 0]%Z ++ rec) false true]
      | _, _, _ => Ok []
      end
  | _ =>
      match sps (param_sets d), pps (param_sets d) with
      | Some s, Some p => Ok [flv_video_frame H264 ms (build_avcc_config s p) false true]
      | _, _ => Ok []
      end
  end.

Definition hevc_frame_data (nalus : list bytes) (key : bool) : bytes :=
  [if key then 0x1C else 0x2C; 0x01; 0; 0; 0]%Z ++ concat ((fun n => to_be 4 (u32 (zlen n)) ++ n) <$> nalus).

(** The codec of the frames: H.265 if announced, H.264 otherwise. *)
Definition stream_codec (c : CodecId) : CodecId := match c with H265 => H265 | _ => H264 end.

Definition emit_video_frame (cfg : DepakConfig) (d : RtpDepacketizer) : result (RtpDepacketizer * list MediaFrame) :=
  match pending_nalus d with
  | [] => Ok (d, [])
  | nalus =>
      let c := stream_codec (dk_video_codec cfg) in
      let ms := (pending_video_ts d / 90)%Z in
      config ← config_output c d ms;
      nalus ← frame_nalus c nalus;
      let d' := frame_done d (config_sent d || negb (length config =? 0)) in
      match nalus with
      | [] => Ok (d', config)
      | _ =>
          let bytes := match c with H265 => hevc_frame_data nalus (video_key d) | _ => build_avcc_frame nalus (video_key d) end in
          Ok (d', config ++ [flv_video_frame c ms bytes (video_key d) false])
      end
  end.

Definition handle_hevc_video_rtp (d : RtpDepacketizer) (data : bytes) : result RtpDepacketizer :=
  if length data <? 2 then Ok d else
  d0 ← idx data 0; d1 ← idx data 1;
  let nal_type := ((d0 .>> 1) .& 0x3F)%Z in
  if (nal_type =? 48)%Z then aggregate observe_hevc_nalu data 2 d
  else if (nal_type =? 49)%Z then
    if length data <? 3 then Ok d else
    fu_header ← idx data 2;
    let start := negb (fu_header .& 0x80 =? 0)%Z in
    let stop := negb (fu_header .& 0x40 =? 0)%Z in
    let fu_type := (fu_header .& 0x3F)%Z in
    let reconstructed0 := ((d0 .& 0x81) .| u8 (fu_type .<< 1))%Z in
    let d := if start then set_fu d [reconstructed0; d1] true else d in
    if negb (dk_fu_active d) then Ok d else
    body ← slice data 3 (length data);
    let d := set_fu d (fu_buf d ++ body) true in
    if stop then
      let nalu := fu_buf d in
      Ok (push_nalu (observe_hevc_nalu (set_fu d [] false) nalu) nalu)
    else Ok d
  else Ok (push_nalu (observe_hevc_nalu d data) data).

Definition handle_video_rtp (cfg : DepakConfig) (d : RtpDepacketizer) (data : bytes) (marker : bool) (ts : Z) :
    result (RtpDepacketizer * list MediaFrame) :=
  if length data =? 0 then Ok (d, []) else
  let d := set_video_ts d ts in
  if bool_decide (dk_video_codec cfg = H265) then
    d ← handle_hevc_video_rtp d data;
    if marker then emit_video_frame cfg d else Ok (d, [])
  else
    d0 ← idx data 0;
    let nalu_type := (d0 .& 0x1F)%Z in
    r ← (if ((1 <=? nalu_type) && (nalu_type <=? 23))%Z then Ok (inl (push_nalu (observe_nalu d data) data))
         else if (nalu_type =? 24)%Z then d ← aggregate observe_nalu data 1 d; Ok (inl d)
         else if (nalu_type =? 28)%Z then
           if length data <? 2 then Ok (inr d) else
           fu_header ← idx data 1;
           let start := negb (fu_header .& 0x80 =? 0)%Z in
           let stop := negb (fu_header .& 0x40 =? 0)%Z in
           let nal_type := (fu_header .& 0x1F)%Z in
           let reconstructed := ((d0 .& 0xE0) .| nal_type)%Z in
           let d := if start then set_fu d [reconstructed] true else d in
           if negb (dk_fu_active d) then Ok (inr d) else
           body ← slice data 2 (length data);
           let d := set_fu d (fu_buf d ++ body) true in
           if stop then
             let nalu := fu_buf d in
             let d := set_fu d [] false in
             let d := if (nal_type =? 5)%Z then set_params d (param_sets d) true else d in
             Ok (inl (push_nalu d nalu))
           else Ok (inl d)
         else Ok (inl d));
    match r with
    | inr d => Ok (d, [])
    | inl d => if marker then emit_video_frame cfg d else Ok (d, [])
    end.

(** The AU headers: sizes and the position after them. *)
Fixpoint au_sizes (n : nat) (data : bytes) (pos : nat) : result (list nat * nat) :=
  match n with
  | O => Ok ([], pos)
  | S n =>
      if length data <? pos + 2 then Ok ([], pos) else
      b0 ← idx data pos; b1 ← idx data (pos + 1);
      '(sizes, stop) ← au_sizes n data (pos + 2);
      Ok (Z.to_nat ((from_be [b0; b1] .>> 3) .& 0x1FFF)%Z :: sizes, stop)
  end.

Definition aac_frame (ms : Z) (d : bytes) (config : bool) : MediaFrame :=
  set_config_frame (with_payload_format (new_audio 1 AAC ms ms ms d) PfFlv) config.

(** [u32::saturating_add] *)
Definition sat_add32 (a b : Z) : Z := Z.min (a + b) (2 ^ 32 - 1).

Fixpoint audio_units (data : bytes) (pos : nat) (sizes : list nat) (ms frame_ms : Z) : result (list MediaFrame) :=
  match sizes with
  | [] => Ok []
  | size :: sizes =>
      if length data <? pos + size then Ok [] else
      raw ← slice data pos (pos + size);
      rest ← audio_units data (pos + size) sizes (sat_add32 ms (u32 frame_ms)) frame_ms;
      Ok (aac_frame ms ([0xAF; 0x01]%Z ++ raw) false :: rest)
  end.

Definition handle_audio_rtp (cfg : DepakConfig) (d : RtpDepacketizer) (data : bytes) (ts : Z) :
    result (RtpDepacketizer * list MediaFrame) :=
  if length data <? 2 then Ok (d, []) else
  b0 ← idx data 0; b1 ← idx data 1;
  '(sizes, pos) ← au_sizes (Z.to_nat (from_be [b0; b1] / 16)%Z) data 2;
  let '(d, config) :=
    match audio_config_sent d, dk_audio_config cfg with
    | false, Some c => (audio_configured d, [aac_frame 0 ([0xAF; 0x00]%Z ++ c) true])
    | _, _ => (d, [])
    end in
  let rate := dk_audio_sample_rate cfg in
  if (rate =? 0)%Z then Panic else
  let frame_ms := ((1024 * 1000 + rate - 1) / rate)%Z in
  frames ← audio_units data pos sizes (u32 (ts * 1000 / rate)) frame_ms;
  Ok (d, config ++ frames).

Definition handle_rtp (cfg : DepakConfig) (d : RtpDepacketizer) (channel : Z) (payload : bytes) :
    result (RtpDepacketizer * list MediaFrame) :=
  if length payload <? 12 then Ok (d, []) else
  p0 ← idx payload 0; p1 ← idx payload 1;
  let pt := (p1 .& 0x7F)%Z in
  let media :=
    match force_media cfg with
    | Some m => Some m
    | None =>
        if ((pt =? dk_video_pt cfg) || (channel =? dk_video_chan cfg))%Z then Some Video
        else if ((pt =? dk_audio_pt cfg) || (channel =? dk_audio_chan cfg))%Z then Some Audio
        else None
    end in
  match media with
  | None => Ok (d, [])
  | Some media =>
      let header_len := 12 + 4 * Z.to_nat (p0 .& 0x0F)%Z in
      if length payload <? header_len + 1 then Ok (d, []) else
      let marker := negb (p1 .& 0x80 =? 0)%Z in
      t ← slice payload 4 8;
      let ts := from_be t in
      data ← slice payload header_len (length payload);
      match media with
      | Video => handle_video_rtp cfg d data marker ts
      | Audio => handle_audio_rtp cfg d data ts
      | Metadata => Ok (d, [])
      end
  end.

(** ** Interleaved input *)

(** A complete packet at the head of the buffer: channel, packet, rest. *)
Definition next_interleaved (buffer : bytes) : option (Z * bytes * bytes) :=
  match buffer with
  | x :: channel :: l0 :: l1 :: rest =>
      if (x =? 36)%Z then
        let len := Z.to_nat (from_be [l0; l1]) in
        if length rest <? len then None else Some (channel, take len rest, drop len rest)
      else None
  | _ => None
  end.

(** One turn of the media loop of the pulling client: interleaved packets are
    demultiplexed, stray responses dropped. *)
Definition pull_step (cfg : DepakConfig) (st : bytes * RtpDepacketizer * list MediaFrame) :
    result (bytes * RtpDepacketizer * list MediaFrame + bytes * RtpDepacketizer * list MediaFrame) :=
  let '(buffer, d, out) := st in
  match buffer with
  | 36%Z :: _ =>
      match next_interleaved buffer with
      | None => Ok (inr (buffer, d, out))
      | Some (channel, payload, rest) =>
          '(d, frames) ← handle_rtp cfg d channel payload;
          Ok (inl (rest, d, out ++ frames))
      end
  | _ =>
      r ← parse_response buffer;
      match r with
      | Some (_, consumed) => Ok (inl (drop consumed buffer, d, out))
      | None => Ok (inr (buffer, d, out))
      end
  end.

Definition pull_drain (cfg : DepakConfig) (buffer : bytes) (d : RtpDepacketizer) : result (bytes * RtpDepacketizer * list MediaFrame) :=
  loop (S (length buffer)) (pull_step cfg) (buffer, d, []).

(** [read_response] of the pulling client (the pushing one differs in its
    message): the response, the rest of the buffer and
    the reads that are left; [reads] ends when the peer closes. *)
Fixpoint read_response (buffer : bytes) (reads : list bytes) : result (RtspResponse * bytes * list bytes) :=
  r ← parse_response buffer;
  match r with
  | Some (response, consumed) => Ok (response, drop consumed buffer, reads)
  | None =>
      match reads with
      | [] | [] :: _ => Err (Anyhow "connection closed before a full RTSP response")
      | chunk :: reads => read_response (buffer ++ chunk) reads
      end
  end.

(** ** The pushing client *)

Record PushTrack : Type := { track_type : FrameType; channel : Z; packetizer : RtpPacketizer }.

(** [u16::try_from(packet.len())] and the interleaved write of each packet. *)
Fixpoint push_packets (channel : Z) (packets : list bytes) : result bytes :=
  match packets with
  | [] => Ok []
  | pkt :: packets =>
      if (65535 <? zlen pkt)%Z then Err (Anyhow "RTSP RTP packet is too large") else
      rest ← push_packets channel packets;
      Ok ([36; channel; u8 (zlen pkt .>> 8); u8 (zlen pkt)]%Z ++ pkt ++ rest)
  end.

(** The first track of the frame's type sends it. *)
Fixpoint push_send_frame (tracks : list PushTrack) (frame : MediaFrame) : result (list PushTrack * bytes) :=
  match tracks with
  | [] => Ok ([], [])
  | t :: tracks =>
      if bool_decide (track_type t = frame_type frame) then
        '(p, packets) ← packetize (packetizer t) frame;
        out ← push_packets (channel t) packets;
        Ok ({| track_type := track_type t; channel := channel t; packetizer := p |} :: tracks, out)
      else
        '(tracks, out) ← push_send_frame tracks frame;
        Ok (t :: tracks, out)
  end.
