(* ===== verification/RtspMedia.v ===== *)
(** * RtspMedia: what arrives at the other end of an RTSP connection

    The frames an [RtpDepacketizer] publishes, specified on access units, and
    the two pipelines that end in it: a client that pushes to the server, and a
    client that pulls a stream the server plays. *)

From S2P Require Import Prelude Frame AnnexB Payload Rtp Utf8 Text RtspMsg RtspRtp.
#[local] Open Scope nat_scope.

(** ** Specification *)

Inductive NalKind : Type := KindVps | KindSps | KindPps | KindIdr | KindOther.

#[global] Instance NalKind_eq_dec : EqDecision NalKind.
Proof. solve_decision. Defined.

(** What a NAL unit is, by its header. *)
Definition nal_kind (c : CodecId) (n : bytes) : NalKind :=
  match n with
  | [] => KindOther
  | h :: _ =>
      match c with
      | H265 =>
          let t := ((h .>> 1) .& 0x3F)%Z in
          if (t =? 32)%Z then KindVps else if (t =? 33)%Z then KindSps else if (t =? 34)%Z then KindPps
          else if ((19 <=? t) && (t <=? 21))%Z then KindIdr else KindOther
      | _ =>
          let t := (h .& 0x1F)%Z in
          if (t =? 5)%Z then KindIdr else if (t =? 7)%Z then KindSps else if (t =? 8)%Z then KindPps else KindOther
      end
  end.

Definition is_param (c : CodecId) (n : bytes) : bool :=
  match nal_kind c n with KindVps | KindSps | KindPps => true | _ => false end.

Definition is_idr (c : CodecId) (n : bytes) : bool := bool_decide (nal_kind c n = KindIdr).

(** The parameter sets known after a unit; fragmented ones ([m] bytes and
    more) are not noticed for H.264. *)
Definition learn (c : CodecId) (m : nat) (ps : ParamSets) (n : bytes) : ParamSets :=
  if bool_decide (c = H265) || (length n <=? m) then
    match nal_kind c n with
    | KindVps => {| sps := sps ps; pps := pps ps; vps := Some n |}
    | KindSps => {| sps := Some n; pps := pps ps; vps := vps ps |}
    | KindPps => {| sps := sps ps; pps := Some n; vps := vps ps |}
    | _ => ps
    end
  else ps.

(** What a receiver remembers between access units. *)
Record MediaState : Type := { known : ParamSets; announced : bool }.

(** The configuration frame for complete parameter sets. *)
Definition config_of (c : CodecId) (ps : ParamSets) (ms : Z) : list MediaFrame :=
  match c, vps ps, sps ps, pps ps with
  | H265, Some v, Some s, Some p =>
      match build_hevc_config_record v s p with
      | Ok record => [flv_video_frame H265 ms ([0x1C; 0x00; 0; 0; 0]%Z ++ record) false true]
      | _ => []
      end
  | H265, _, _, _ => []
  | _, _, Some s, Some p => [flv_video_frame H264 ms (build_avcc_config s p) false true]
  | _, _, _, _ => []
  end.

(** The FLV tag of an access unit. *)
Definition access_unit_tag (c : CodecId) (key : bool) (nals : list bytes) : bytes :=
  [match c, key with
   | H265, true => 0x1C | H265, false => 0x2C
   | _, true => 0x17 | _, false => 0x27
   end; 0x01; 0; 0; 0]%Z ++ lp_enc nals.

(** One access unit: the configuration if it is complete for the first time,
    and one frame with the units that are not parameter sets. *)
Definition receive_unit (c : CodecId) (m : nat) (st : MediaState) (nals : list bytes) (ms : Z) : MediaState * list MediaFrame :=
  let ps := foldl (learn c m) (known st) nals in
  let config := if announced st then [] else config_of c ps ms in
  let key := existsb (is_idr c) nals in
  let body := List.filter (fun n => negb (is_param c n)) nals in
  ({| known := ps; announced := announced st || negb (length config =? 0) |},
   config ++ match body with [] => [] | _ => [flv_video_frame c ms (access_unit_tag c key body) key false] end).

(** Access units one after the other. *)
Fixpoint receive_stream (c : CodecId) (m : nat) (st : MediaState) (aus : list (list bytes * Z)) : MediaState * list MediaFrame :=
  match aus with
  | [] => (st, [])
  | (nals, ms) :: aus =>
      let '(st, out) := receive_unit c m st nals ms in
      let '(st, rest) := receive_stream c m st aus in
      (st, out ++ rest)
  end.

(** The depacketizer between access units. *)
Definition between (st : MediaState) (d : RtpDepacketizer) : Prop :=
  param_sets d = known st /\ config_sent d = announced st /\ pending_nalus d = [] /\ video_key d = false.

(** NAL units that can be sent in packets of their own or in fragments. *)
Definition sendable (c : CodecId) (n : bytes) : Prop :=
  bytes_ok n /\ is_u32 (zlen n) /\
  match c, n with
  | H265, h0 :: _ :: _ => (h0 .>> 1) .& 0x3F <> 48 /\ (h0 .>> 1) .& 0x3F <> 49
  | H264, h :: _ => 1 <= h .& 0x1F <= 23
  | _, _ => False
  end%Z.

(** ** One NAL unit *)

(** The packets of an access unit, by marker and payload. *)
Fixpoint feed_units (cfg : DepakConfig) (d : RtpDepacketizer) (ts : Z) (l : list (bool * bytes)) : result (RtpDepacketizer * list MediaFrame) :=
  match l with
  | [] => Ok (d, [])
  | (marker, payload) :: l =>
      '(d, out) ← handle_video_rtp cfg d payload marker ts;
      '(d, rest) ← feed_units cfg d ts l;
      Ok (d, out ++ rest)
  end.

(** What the depacketizer notes about a unit. *)
Definition note (c : CodecId) (m : nat) (d : RtpDepacketizer) (n : bytes) : RtpDepacketizer :=
  set_params d (learn c m (param_sets d) n) (video_key d || is_idr c n).

(** After the unit is complete. *)
Definition taken (c : CodecId) (m : nat) (d : RtpDepacketizer) (ts : Z) (n : bytes) (buf : bytes) (active : bool) : RtpDepacketizer :=
  push_nalu (note c m (set_fu (set_video_ts d ts) buf active) n) n.

Lemma depak_eq d d' :
  param_sets d = param_sets d' -> config_sent d = config_sent d' -> audio_config_sent d = audio_config_sent d' ->
  pending_nalus d = pending_nalus d' -> fu_buf d = fu_buf d' -> dk_fu_active d = dk_fu_active d' ->
  pending_video_ts d = pending_video_ts d' -> video_key d = video_key d' -> d = d'.
Proof. destruct d, d'; cbn; congruence. Qed.

Lemma observe_note m d n : length n <= m -> observe_nalu d n = note H264 m d n.
Proof.
  intros Hl. unfold note, learn, is_idr. rewrite bool_decide_false by done. rewrite (proj2 (Nat.leb_le _ _) Hl). cbn [orb].
  destruct n as [|h n]; cbn [observe_nalu nal_kind].
  { rewrite bool_decide_false by done. rewrite orb_false_r. by destruct d. }
  destruct (h .& 31 =? 5)%Z; [rewrite bool_decide_true, orb_true_r by done; reflexivity|].
  destruct (h .& 31 =? 7)%Z; [rewrite bool_decide_false, orb_false_r by done; reflexivity|].
  destruct (h .& 31 =? 8)%Z; [rewrite bool_decide_false, orb_false_r by done; reflexivity|].
  rewrite bool_decide_false, orb_false_r by done. by destruct d.
Qed.

Lemma observe_hevc_note m d n : 2 <= length n -> observe_hevc_nalu d n = note H265 m d n.
Proof.
  intros Hl. unfold note, learn, is_idr. rewrite bool_decide_true by done. cbn [orb].
  destruct n as [|h [|h1 n]]; [simpl in Hl; lia..|]. cbn [observe_hevc_nalu nal_kind].
  destruct ((h .>> 1) .& 63 =? 32)%Z; [rewrite bool_decide_false, orb_false_r by done; reflexivity|].
  destruct ((h .>> 1) .& 63 =? 33)%Z; [rewrite bool_decide_false, orb_false_r by done; reflexivity|].
  destruct ((h .>> 1) .& 63 =? 34)%Z; [rewrite bool_decide_false, orb_false_r by done; reflexivity|].
  destruct ((19 <=? (h .>> 1) .& 63) && ((h .>> 1) .& 63 <=? 21))%Z; [rewrite bool_decide_true, orb_true_r by done; reflexivity|].
  rewrite bool_decide_false, orb_false_r by done. by destruct d.
Qed.

Definition finish (cfg : DepakConfig) (marker : bool) (d : RtpDepacketizer) : result (RtpDepacketizer * list MediaFrame) :=
  if marker then emit_video_frame cfg d else Ok (d, []).

(** A unit in a packet of its own. *)
Lemma video_single cfg d ts n marker m :
  sendable (dk_video_codec cfg) n -> length n <= m ->
  handle_video_rtp cfg d n marker ts =
  finish cfg marker (taken (dk_video_codec cfg) m d ts n (fu_buf d) (dk_fu_active d)).
Proof.
  intros (_ & _ & Hs) Hm. unfold handle_video_rtp, taken.
  change (set_fu (set_video_ts d ts) (fu_buf d) (dk_fu_active d)) with (set_video_ts d ts).
  set (d1 := set_video_ts d ts). destruct (dk_video_codec cfg) eqn:Hc; try (destruct n; done).
  - destruct n as [|h n]; [done|]. rewrite (proj2 (Nat.eqb_neq _ _)) by done. rewrite bool_decide_false by done.
    rewrite idx_0. cbn [mbind outcome_bind]. rewrite (proj2 (Z.leb_le 1 _)), (proj2 (Z.leb_le _ 23)) by lia. cbn [andb mbind outcome_bind].
    by rewrite (observe_note m).
  - destruct n as [|h0 [|h1 n]]; [done..|]. rewrite (proj2 (Nat.eqb_neq _ _)) by done. rewrite bool_decide_true by done.
    unfold handle_hevc_video_rtp. rewrite (proj2 (Nat.ltb_ge _ _)) by (cbn; lia). rewrite idx_0. cbn [mbind outcome_bind]. rewrite (idx_S h0 (h1 :: n) 0), idx_0. cbn [mbind outcome_bind].
    rewrite !(proj2 (Z.eqb_neq _ _)) by tauto. cbn [mbind outcome_bind]. rewrite (observe_hevc_note m) by (cbn; lia). done.
Qed.

(** The fragments of an H.264 unit. *)
Lemma h264_fragment cfg d ts hdr first stop body marker m :
  dk_video_codec cfg = H264 -> is_u8 hdr ->
  (first = true \/ (dk_fu_active d = true /\ head (fu_buf d) = Some hdr)) ->
  let acc := (if first then [hdr] else fu_buf d) ++ body in
  (stop = true -> m < length acc) -> (stop = false -> marker = false) ->
  handle_video_rtp cfg d (h264_pre hdr first stop ++ body) marker ts =
  if stop then finish cfg marker (taken H264 m d ts acc [] false)
  else Ok (set_fu (set_video_ts d ts) acc true, []).
Proof.
  intros Hc Hh Hd acc Hl Hmk. unfold handle_video_rtp, h264_pre.
  destruct (fu_header_read hdr first stop Hh) as (H1 & H2 & H3).
  cbn [app]. set (fu := _ .| (if stop then _ else _)) in *. set (fi := (hdr .& 0xe0) .| 28) in *.
  rewrite (proj2 (Nat.eqb_neq _ _)) by done. rewrite Hc, bool_decide_false by done. rewrite idx_0. cbn [mbind outcome_bind].
  assert (Hfi : fi .& 31 = 28%Z) by (unfold fi; by apply fu_indicator_type). rewrite Hfi.
  rewrite (proj2 (Nat.ltb_ge _ _)) by (cbn [length]; lia). rewrite idx_S, idx_0. cbn -[Z.land Z.lor slice set_fu set_params push_nalu].
  rewrite H1, H2, H3. cbn [andb Z.leb Z.compare Pos.compare Pos.compare_cont]. cbn -[Z.land Z.lor slice set_fu set_params push_nalu].
  set (d1 := if first then set_fu (set_video_ts d ts) [hdr] true else set_video_ts d ts).
  assert (Ha : dk_fu_active d1 = true) by (unfold d1; destruct Hd as [->|[Ha _]]; [done|]; by destruct first). rewrite Ha. cbn [negb].
  rewrite slice_ok by (cbn [length]; lia). cbn [mbind outcome_bind length].
  rewrite firstn_all2 by (cbn [drop]; rewrite length_drop; cbn [length]; lia). change (drop 2 (fi :: fu :: body)) with body.
  assert (Hacc : fu_buf d1 ++ body = acc) by (unfold d1, acc; by destruct first). rewrite Hacc.
  assert (Hset : set_fu d1 acc true = set_fu (set_video_ts d ts) acc true) by (unfold d1; by destruct first). rewrite Hset.
  destruct stop; [|by rewrite (Hmk eq_refl)].
  cbn [mbind outcome_bind]. unfold finish, taken, note. change (fu_buf (set_fu ?x ?b ?a)) with b.
  assert (Hk : (fu .& 31 =? 5)%Z = is_idr H264 acc).
  { assert (Hfu : fu .& 31 = (hdr .& 31)%Z).
    { unfold fu. rewrite !Z.land_lor_distr_l, <-Z.land_assoc. change (31 .& 31)%Z with 31%Z. change (64 .& 31)%Z with 0%Z.
      destruct first; [change (128 .& 31)%Z with 0%Z|change (0 .& 31)%Z with 0%Z]; by rewrite !Z.lor_0_r. }
    rewrite Hfu. assert (Hhd : exists r, acc = hdr :: r).
    { unfold acc. destruct first; [by eexists|]. destruct Hd as [?|[_ Hd]]; [done|]. destruct (fu_buf d) as [|x r]; [done|]. injection Hd as ->. by eexists. }
    destruct Hhd as [r ->]. unfold is_idr. cbn [nal_kind]. destruct (hdr .& 31 =? 5)%Z; [done|]. by repeat case_match. }
  rewrite Hk. unfold learn. rewrite bool_decide_false by done. rewrite (proj2 (Nat.leb_gt _ _)) by auto. cbn [orb].
  destruct (is_idr H264 acc); [rewrite orb_true_r|rewrite orb_false_r]; reflexivity.
Qed.

Lemma h265_fu_bits : forall h0, is_u8 h0 ->
  forallb (fun '(first, stop) =>
    let fi := ((h0 .& 0x81) .| (49 .<< 1))%Z in
    let fu := (((h0 .>> 1) .& 0x3f) .| (if first : bool then 0x80 else 0) .| (if stop : bool then 0x40 else 0))%Z in
    Bool.eqb (negb (fu .& 0x80 =? 0)%Z) first && Bool.eqb (negb (fu .& 0x40 =? 0)%Z) stop &&
    ((fi .>> 1) .& 0x3F =? 49)%Z && ((fi .& 0x81) .| u8 ((fu .& 0x3F) .<< 1) =? h0)%Z)
    [(true, true); (true, false); (false, true); (false, false)] = true.
Proof. by_bytes. Qed.

Lemma h265_fu_read h0 first stop :
  is_u8 h0 ->
  let fi := ((h0 .& 0x81) .| (49 .<< 1))%Z in
  let fu := (((h0 .>> 1) .& 0x3f) .| (if first : bool then 0x80 else 0) .| (if stop : bool then 0x40 else 0))%Z in
  negb (fu .& 0x80 =? 0)%Z = first /\ negb (fu .& 0x40 =? 0)%Z = stop /\ ((fi .>> 1) .& 0x3F = 49)%Z /\
  ((fi .& 0x81) .| u8 ((fu .& 0x3F) .<< 1) = h0)%Z.
Proof.
  intros Hh fi fu. pose proof (h265_fu_bits h0 Hh) as H. rewrite forallb_forall in H.
  assert (In (first, stop) [(true, true); (true, false); (false, true); (false, false)]) as Hin
    by (destruct first, stop; simpl; auto 10).
  specialize (H _ Hin). cbv beta iota zeta in H. fold fi fu in H.
  rewrite !andb_true_iff, !Bool.eqb_true_iff, !Z.eqb_eq in H. destruct H as [[[? ?] ?] ?]. by split_and!.
Qed.

(** The fragments of an H.265 unit. *)
Lemma h265_fragment cfg d ts h0 h1 first stop body marker m :
  dk_video_codec cfg = H265 -> is_u8 h0 ->
  (first = true \/ dk_fu_active d = true) ->
  let acc := (if first then [h0; h1] else fu_buf d) ++ body in
  (stop = true -> 2 <= length acc) -> (stop = false -> marker = false) ->
  handle_video_rtp cfg d (h265_pre h0 h1 first stop ++ body) marker ts =
  if stop then finish cfg marker (taken H265 m d ts acc [] false)
  else Ok (set_fu (set_video_ts d ts) acc true, []).
Proof.
  intros Hc Hh Hd acc Hl Hmk. unfold handle_video_rtp, h265_pre.
  destruct (h265_fu_read h0 first stop Hh) as (H1 & H2 & H3 & H4).
  cbn [app]. set (fu := _ .| (if stop then _ else _)) in *. set (fi := (h0 .& 0x81) .| (49 .<< 1)) in *.
  rewrite (proj2 (Nat.eqb_neq _ _)) by done. rewrite Hc, bool_decide_true by done. unfold handle_hevc_video_rtp.
  rewrite (proj2 (Nat.ltb_ge _ 2)) by (cbn [length]; lia). rewrite idx_0. cbn [mbind outcome_bind].
  rewrite (idx_S fi (h1 :: fu :: body) 0), idx_0. cbn [mbind outcome_bind]. rewrite H3. cbn [Z.eqb Pos.eqb].
  rewrite (proj2 (Nat.ltb_ge _ 3)) by (cbn [length]; lia). rewrite !idx_S, idx_0. cbn [mbind outcome_bind].
  rewrite H1, H2, H4.
  set (d1 := if first then set_fu (set_video_ts d ts) [h0; h1] true else set_video_ts d ts).
  assert (Ha : dk_fu_active d1 = true) by (unfold d1; destruct Hd as [->|Ha]; [done|]; by destruct first). rewrite Ha. cbn [negb].
  rewrite slice_ok by (cbn [length]; lia). cbn [mbind outcome_bind length].
  rewrite firstn_all2 by (cbn [drop]; rewrite length_drop; cbn [length]; lia). change (drop 3 (fi :: h1 :: fu :: body)) with body.
  assert (Hacc : fu_buf d1 ++ body = acc) by (unfold d1, acc; by destruct first). rewrite Hacc.
  assert (Hset : set_fu d1 acc true = set_fu (set_video_ts d ts) acc true) by (unfold d1; by destruct first). rewrite Hset.
  destruct stop; [|by rewrite (Hmk eq_refl)].
  cbn [mbind outcome_bind]. unfold finish, taken. change (fu_buf (set_fu ?x ?b ?a)) with b.
  rewrite (observe_hevc_note m) by auto. reflexivity.
Qed.

(** ** Whole units *)

Lemma feed_units_app cfg d ts l k :
  feed_units cfg d ts (l ++ k) =
  ('(d, out) ← feed_units cfg d ts l; '(d, rest) ← feed_units cfg d ts k; Ok (d, out ++ rest)).
Proof.
  revert d. induction l as [|[mk x] l IH]; intros d; cbn [app feed_units].
  { cbn [mbind outcome_bind]. by destruct (feed_units cfg d ts k) as [[? ?]| | |]. }
  destruct (handle_video_rtp cfg d x mk ts) as [[d1 r]| | |]; cbn [mbind outcome_bind]; [|done..].
  rewrite IH. destruct (feed_units cfg d1 ts l) as [[d2 rs]| | |]; cbn [mbind outcome_bind]; [|done..].
  destruct (feed_units cfg d2 ts k) as [[d3 ss]| | |]; cbn [mbind outcome_bind]; [|done..].
  by rewrite app_assoc.
Qed.

(** The result of a last packet as the result of a sequence. *)
Lemma finish_sequence cfg marker d :
  ('(d, out) ← finish cfg marker d; Ok (d, out ++ [])) = finish cfg marker d.
Proof. destruct (finish cfg marker d) as [[? ?]| | |]; cbn; by rewrite ?app_nil_r. Qed.

(** Continuation fragments, for any codec whose fragments behave as above. *)
Lemma feed_fragments cfg c m d ts pre hd last cs acc :
  (forall d stop body marker,
     dk_fu_active d = true -> (exists r, fu_buf d = hd ++ r) -> (stop = true -> m < length (fu_buf d ++ body)) -> (stop = false -> marker = false) ->
     handle_video_rtp cfg d (pre false stop ++ body) marker ts =
     if stop then finish cfg marker (taken c m d ts (fu_buf d ++ body) [] false)
     else Ok (set_fu (set_video_ts d ts) (fu_buf d ++ body) true, [])) ->
  (exists r, acc = hd ++ r) -> m < length (acc ++ concat cs) -> cs <> [] ->
  feed_units cfg (set_fu d acc true) ts (fu_units pre last false cs) =
  finish cfg last (taken c m d ts (acc ++ concat cs) [] false).
Proof.
  intros Hstep. revert acc d. induction cs as [|x [|y cs] IH]; intros acc d Hr Hm Hne; [done| |].
  - cbn [fu_units feed_units concat] in *. rewrite app_nil_r in *. rewrite Hstep; [|done|done|done|done].
    change (taken c m (set_fu d acc true)) with (taken c m d). change (fu_buf (set_fu d acc true)) with acc. apply finish_sequence.
  - change (fu_units pre last false (x :: y :: cs)) with ((false, pre false false ++ x) :: fu_units pre last false (y :: cs)).
    cbn [feed_units]. rewrite Hstep; [|done|done|done|done]. change (fu_buf (set_fu d acc true)) with acc.
    change (set_fu (set_video_ts (set_fu d acc true) ts) (acc ++ x) true) with (set_fu (set_video_ts d ts) (acc ++ x) true).
    cbn [mbind outcome_bind]. assert (Hcat : acc ++ concat (x :: y :: cs) = (acc ++ x) ++ concat (y :: cs)) by (by rewrite <-app_assoc).
    rewrite Hcat in *.
    rewrite (IH (acc ++ x) (set_video_ts d ts)); [|destruct Hr as [r ->]; exists (r ++ x); by rewrite app_assoc|done|done].
    change (taken c m (set_video_ts d ts)) with (taken c m d). destruct (finish cfg last _) as [[? ?]| | |]; reflexivity.
Qed.

(** A fragmented unit has at least two fragments. *)
Lemma chunks_two k (l : bytes) : 0 < k -> k < length l -> exists x y cs, chunks k l = x :: y :: cs /\ x = take k l /\ concat (y :: cs) = drop k l.
Proof.
  intros Hk Hl. assert (Hne : l <> []) by (intros ->; simpl in Hl; lia). rewrite chunks_cons by done.
  assert (Hd : drop k l <> []) by (intros Hd%(f_equal length); rewrite length_drop in Hd; simpl in Hd; lia).
  destruct (chunks k (drop k l)) as [|y cs] eqn:E; [rewrite chunks_cons in E by done; done|].
  exists (take k l), y, cs. split_and!; [done|done|]. by rewrite <-E, concat_chunks.
Qed.

Lemma unit_received cfg m d ts n last :
  mtu_ok (dk_video_codec cfg) m -> sendable (dk_video_codec cfg) n ->
  exists buf active, feed_units cfg d ts (codec_units (dk_video_codec cfg) m n last) =
    finish cfg last (taken (dk_video_codec cfg) m d ts n buf active).
Proof.
  intros Hm Hs. destruct (Nat.leb_spec (length n) m) as [Hle|Hgt].
  - exists (fu_buf d), (dk_fu_active d).
    assert (codec_units (dk_video_codec cfg) m n last = [(last, n)]) as ->.
    { destruct Hs as (_ & _ & Hs). destruct (dk_video_codec cfg); try (destruct n; done); cbn [codec_units]; unfold h264_units, h265_units.
      - destruct n; [done|]. by rewrite (proj2 (Nat.leb_le _ _) Hle).
      - destruct n as [|? [|? ?]]; [done..|]. by rewrite (proj2 (Nat.leb_le _ _) Hle). }
    cbn [feed_units]. rewrite (video_single cfg d ts n last m) by done. apply finish_sequence.
  - exists [], false. pose proof Hs as (Hb & _ & Hs'). destruct (dk_video_codec cfg) eqn:Hc; try (destruct n; done); cbn [codec_units mtu_ok] in *.
    + destruct n as [|h n]; [done|]. apply Forall_cons in Hb as [Hh Hb]. unfold h264_units. rewrite (proj2 (Nat.leb_gt _ _) Hgt).
      cbn [length] in Hgt. destruct (chunks_two (m - 2) n) as (x & y & cs & -> & -> & Hcat); [lia|lia|].
      change (fu_units (h264_pre h) last true (?x :: y :: cs)) with ((false, h264_pre h true false ++ x) :: fu_units (h264_pre h) last false (y :: cs)).
      cbn [feed_units]. rewrite (h264_fragment cfg d ts h true false _ false m) by first [done|by left]. cbn [mbind outcome_bind app].
      rewrite (feed_fragments cfg H264 m (set_video_ts d ts) ts (h264_pre h) [h]).
      * change ((h :: ?x) ++ ?y) with (h :: x ++ y). rewrite Hcat, take_drop.
        change (taken H264 m (set_video_ts d ts)) with (taken H264 m d). destruct (finish cfg last _) as [[? ?]| | |]; reflexivity.
      * intros d' stop body marker Ha [r Hr] Hst Hmk. apply (h264_fragment cfg d' ts h false stop body marker m); [done|done| |done|done].
        right. by rewrite Hr.
      * by eexists.
      * change ((h :: ?x) ++ ?y) with (h :: x ++ y). rewrite Hcat, take_drop. cbn [length]. lia.
      * done.
    + destruct n as [|h0 [|h1 n]]; [done..|]. apply Forall_cons in Hb as [Hh Hb]. unfold h265_units. rewrite (proj2 (Nat.leb_gt _ _) Hgt).
      cbn [length] in Hgt. destruct (chunks_two (m - 3) n) as (x & y & cs & -> & -> & Hcat); [lia|lia|].
      change (fu_units (h265_pre h0 h1) last true (?x :: y :: cs)) with ((false, h265_pre h0 h1 true false ++ x) :: fu_units (h265_pre h0 h1) last false (y :: cs)).
      cbn [feed_units]. rewrite (h265_fragment cfg d ts h0 h1 true false _ false m) by first [done|by left]. cbn [mbind outcome_bind app].
      rewrite (feed_fragments cfg H265 m (set_video_ts d ts) ts (h265_pre h0 h1) [h0; h1]).
      * change ((h0 :: h1 :: ?x) ++ ?y) with (h0 :: h1 :: x ++ y). rewrite Hcat, take_drop.
        change (taken H265 m (set_video_ts d ts)) with (taken H265 m d). destruct (finish cfg last _) as [[? ?]| | |]; reflexivity.
      * intros d' stop body marker Ha [r Hr] Hst Hmk. apply (h265_fragment cfg d' ts h0 h1 false stop body marker m); [done|done|auto| |done].
        intros ->. specialize (Hst eq_refl). lia.
      * by eexists.
      * change ((h0 :: h1 :: ?x) ++ ?y) with (h0 :: h1 :: x ++ y). rewrite Hcat, take_drop. cbn [length]. lia.
      * done.
Qed.

(** ** Whole access units *)

Lemma frame_received cfg m d ts nals :
  mtu_ok (dk_video_codec cfg) m -> Forall (sendable (dk_video_codec cfg)) nals -> nals <> [] ->
  exists d', feed_units cfg d ts (frame_units (codec_units (dk_video_codec cfg) m) nals) = emit_video_frame cfg d' /\
    pending_nalus d' = pending_nalus d ++ nals /\ param_sets d' = foldl (learn (dk_video_codec cfg) m) (param_sets d) nals /\
    video_key d' = video_key d || existsb (is_idr (dk_video_codec cfg)) nals /\
    config_sent d' = config_sent d /\ audio_config_sent d' = audio_config_sent d /\ pending_video_ts d' = ts.
Proof.
  intros Hm Hs. revert d. induction Hs as [|n [|n' nals] Hn Hns IH]; intros d Hne; [done| |].
  - destruct (unit_received cfg m d ts n true Hm Hn) as (b & a & Hu). exists (taken (dk_video_codec cfg) m d ts n b a).
    cbn [frame_units]. rewrite Hu. split_and!; try done. cbn. by rewrite orb_false_r.
  - change (frame_units ?u (n :: n' :: nals)) with (u n false ++ frame_units u (n' :: nals)).
    destruct (unit_received cfg m d ts n false Hm Hn) as (b & a & Hu).
    destruct (IH (taken (dk_video_codec cfg) m d ts n b a) ltac:(done)) as (d' & Hf & Hp & Hps & Hk & Hc & Hac & Ht).
    exists d'. rewrite feed_units_app, Hu. unfold finish. cbn [mbind outcome_bind]. rewrite Hf. split_and!.
    + destruct (emit_video_frame cfg d') as [[? ?]| | |]; reflexivity.
    + rewrite Hp. cbn. by rewrite <-app_assoc.
    + rewrite Hps. done.
    + rewrite Hk. cbn [existsb]. cbn [video_key taken push_nalu note set_params]. rewrite <-orb_assoc. reflexivity.
    + by rewrite Hc.
    + by rewrite Hac.
    + done.
Qed.

Lemma frame_nalus_sendable c nals :
  Forall (sendable c) nals -> frame_nalus c nals = Ok (List.filter (fun n => negb (is_param c n)) nals).
Proof.
  induction 1 as [|n nals (_ & _ & Hn) Hns IH]; [done|]. cbn [frame_nalus List.filter].
  destruct n as [|h n]; [destruct c; done|]. rewrite idx_0. cbn [mbind outcome_bind]. rewrite IH. cbn [mbind outcome_bind].
  unfold is_param. cbn [nal_kind].
  destruct c; try done.
  - destruct (Z.eqb_spec (h .& 31) 5) as [->|]; [done|]. by destruct (h .& 31 =? 7)%Z, (h .& 31 =? 8)%Z.
  - destruct ((h .>> 1) .& 63 =? 32)%Z, ((h .>> 1) .& 63 =? 33)%Z, ((h .>> 1) .& 63 =? 34)%Z; try done.
    by destruct ((19 <=? (h .>> 1) .& 63) && ((h .>> 1) .& 63 <=? 21))%Z.
Qed.

Lemma units_lp c nals : Forall (sendable c) nals -> concat ((fun n => to_be 4 (u32 (zlen n)) ++ n) <$> nals) = lp_enc nals.
Proof.
  induction 1 as [|n nals (_ & Hn & _) Hns IH]; [done|]. rewrite fmap_cons, lp_enc_cons. cbn [concat]. rewrite IH, <-app_assoc.
  unfold u32. by rewrite Z.mod_small.
Qed.

Lemma hevc_record_total v s p : exists r, build_hevc_config_record v s p = Ok r.
Proof.
  unfold build_hevc_config_record. destruct (Nat.leb_spec 8 (length s)) as [Hl|]; [|by eexists].
  destruct (lookup_lt_is_Some_2 s 2 ltac:(lia)) as [x Hx]. destruct (lookup_lt_is_Some_2 s 7 ltac:(lia)) as [y Hy].
  rewrite (idx_lookup _ _ _ Hx), (idx_lookup _ _ _ Hy), slice_ok by lia. cbn [mbind outcome_bind]. by eexists.
Qed.

Lemma config_output_spec c d ms :
  c = H264 \/ c = H265 -> config_output c d ms = Ok (if config_sent d then [] else config_of c (param_sets d) ms).
Proof.
  intros Hc. unfold config_output, config_of. destruct (config_sent d); [done|].
  destruct Hc as [->| ->]; destruct (vps (param_sets d)) as [v|], (sps (param_sets d)) as [s|], (pps (param_sets d)) as [p|]; try done.
  destruct (hevc_record_total v s p) as [r Hr]. by rewrite Hr.
Qed.

Lemma mtu_codec c m : mtu_ok c m -> c = H264 \/ c = H265.
Proof. destruct c; [auto|auto|done..]. Qed.

(** The packets of an access unit are published as the specification says. *)
Lemma access_unit_received cfg m st d ts nals :
  mtu_ok (dk_video_codec cfg) m -> Forall (sendable (dk_video_codec cfg)) nals -> nals <> [] -> between st d ->
  let '(st', out) := receive_unit (dk_video_codec cfg) m st nals (ts / 90) in
  exists d', feed_units cfg d ts (frame_units (codec_units (dk_video_codec cfg) m) nals) = Ok (d', out) /\ between st' d'.
Proof.
  intros Hm Hs Hne (B1 & B2 & B3 & B4). unfold receive_unit.
  destruct (frame_received cfg m d ts nals Hm Hs Hne) as (d' & Hf & Hp & Hps & Hk & Hc & Hac & Ht).
  rewrite B1 in Hps. rewrite B2 in Hc. rewrite B3 in Hp. rewrite B4 in Hk. cbn [app orb] in Hp, Hk.
  set (ps := foldl _ _ _) in *. set (key := existsb _ _) in *. set (config := if announced st then [] else _).
  assert (Hcodec := mtu_codec _ _ Hm).
  assert (Hsc : stream_codec (dk_video_codec cfg) = dk_video_codec cfg) by (by destruct Hcodec as [->| ->]).
  exists (frame_done d' (announced st || negb (length config =? 0))). rewrite Hf. unfold emit_video_frame. rewrite Hp.
  destruct nals as [|n0 nals]; [done|]. rewrite Hsc, config_output_spec by done. cbn [mbind outcome_bind].
  rewrite frame_nalus_sendable by done. cbn [mbind outcome_bind]. rewrite Hc, Hps, Ht. fold config. rewrite Hk.
  assert (Hbody : Forall (sendable (dk_video_codec cfg)) (List.filter (fun n => negb (is_param (dk_video_codec cfg) n)) (n0 :: nals))).
  { rewrite Forall_forall in *. intros x Hx. apply Hs. apply list_elem_of_In in Hx. apply filter_In in Hx as [Hx _]. by apply list_elem_of_In. }
  split; [|by split_and!]. apply units_lp in Hbody. destruct (List.filter _ _) as [|b body]; [by rewrite app_nil_r|]. do 5 f_equal.
  unfold access_unit_tag. rewrite <-Hbody. unfold hevc_frame_data, build_avcc_frame. clear Hf.
  destruct Hcodec as [->| ->]; destruct key; reflexivity.
Qed.

(** ** Packets *)

Fixpoint receive_packets (cfg : DepakConfig) (d : RtpDepacketizer) (channel : Z) (packets : list bytes) : result (RtpDepacketizer * list MediaFrame) :=
  match packets with
  | [] => Ok (d, [])
  | p :: packets =>
      '(d, out) ← handle_rtp cfg d channel p;
      '(d, rest) ← receive_packets cfg d channel packets;
      Ok (d, out ++ rest)
  end.

(** Packets of this type on this channel are video. *)
Definition video_route (cfg : DepakConfig) (channel pt : Z) : Prop :=
  force_media cfg = Some Video \/ (force_media cfg = None /\ (pt = dk_video_pt cfg \/ channel = dk_video_chan cfg)).

Lemma handle_rtp_video cfg d channel p ts marker payload :
  packetizer_ok p -> is_u32 ts -> video_route cfg channel (payload_type p) ->
  handle_rtp cfg d channel ((header p ts marker).2 ++ payload) = handle_video_rtp cfg d payload marker ts.
Proof.
  intros Hp Hts Hr. pose proof (packet_fields_header p ts marker payload Hp Hts) as Hf. pose proof (length_header p ts marker) as Hl.
  unfold header in *. cbn [snd] in *. set (b1 := (payload_type p .| (if marker then 0x80 else 0))%Z) in *.
  rewrite (to_be_2 (sequence p)), (to_be_4 ts), (to_be_4 (ssrc p)) in *. cbn [app] in *. unfold packet_fields in Hf.
  injection Hf as Hpt Hmk Hseq Ht Hss. unfold handle_rtp. rewrite (proj2 (Nat.ltb_ge _ _)) by (cbn [length]; lia).
  rewrite idx_0. cbn [mbind outcome_bind]. rewrite idx_S, idx_0. cbn [mbind outcome_bind]. rewrite Hpt.
  match goal with |- context [match ?m with Some _ => _ | None => _ end] => assert (m = Some Video) as -> end.
  { destruct Hr as [->|[-> [->| ->]]]; [done|by rewrite Z.eqb_refl|by rewrite Z.eqb_refl, orb_true_r]. }
  change (12 + 4 * Z.to_nat (128 .& 15)) with 12. cbn [length].
  destruct (Nat.ltb_spec (S (S (S (S (S (S (S (S (S (S (S (S (length payload))))))))))))) (12 + 1)) as [Hsh|Hsh].
  { destruct payload; [done|cbn [length] in Hsh; lia]. }
  rewrite (slice_ok _ 4 8) by (cbn [length]; lia). cbn [mbind outcome_bind drop take firstn skipn Nat.sub]. rewrite Ht.
  rewrite (slice_ok _ 12) by (cbn [length]; lia). cbn [mbind outcome_bind drop skipn Nat.sub]. rewrite ?drop_0, Nat.sub_0_r, firstn_all.
  by rewrite Hmk.
Qed.

Lemma receive_emit cfg channel ts l : forall p d,
  packetizer_ok p -> is_u32 ts -> video_route cfg channel (payload_type p) ->
  receive_packets cfg d channel (emit p ts l) = feed_units cfg d ts l.
Proof.
  induction l as [|[mk pl] l IH]; intros p d Hp Hts Hr; [done|]. cbn [emit feed_units].
  pose proof (header_seq_ok p ts mk) as Hok. pose proof (handle_rtp_video cfg d channel p ts mk pl Hp Hts Hr) as Hh.
  pose proof (header_seq p ts mk) as Hs. destruct (header p ts mk) as [p' h]. cbn [fst snd] in *. cbn [receive_packets]. rewrite Hh.
  destruct (handle_video_rtp cfg d pl mk ts) as [[d1 o1]| | |]; [|done..]. cbn [mbind outcome_bind]. rewrite IH; [done| |done|].
  - destruct Hp as (_ & H2 & H3). subst p'. exact (conj Hok (conj H2 H3)).
  - by subst p'.
Qed.

Lemma receive_packets_app cfg d channel l k :
  receive_packets cfg d channel (l ++ k) =
  ('(d, out) ← receive_packets cfg d channel l; '(d, rest) ← receive_packets cfg d channel k; Ok (d, out ++ rest)).
Proof.
  revert d. induction l as [|x l IH]; intros d; cbn [app receive_packets].
  { cbn [mbind outcome_bind]. by destruct (receive_packets cfg d channel k) as [[? ?]| | |]. }
  destruct (handle_rtp cfg d channel x) as [[d1 r]| | |]; cbn [mbind outcome_bind]; [|done..].
  rewrite IH. destruct (receive_packets cfg d1 channel l) as [[d2 rs]| | |]; cbn [mbind outcome_bind]; [|done..].
  destruct (receive_packets cfg d2 channel k) as [[d3 ss]| | |]; cbn [mbind outcome_bind]; [|done..].
  by rewrite app_assoc.
Qed.

(** ** Interleaved framing *)

Lemma next_interleaved_written channel pkt rest :
  (zlen pkt < 65536)%Z -> next_interleaved (interleave channel pkt ++ rest) = Some (channel, pkt, rest).
Proof.
  intros Hl. unfold interleave, next_interleaved. assert (Hz : (0 <= zlen pkt)%Z) by (unfold zlen; lia).
  assert (Hu : u16 (zlen pkt) = zlen pkt) by (unfold u16; by rewrite Z.mod_small). rewrite Hu.
  pose proof (from_be_to_be_small 2 (zlen pkt) ltac:(change (256 ^ Z.of_nat 2)%Z with 65536%Z; lia)) as Hb.
  rewrite to_be_2 in *. cbn [app Z.eqb Pos.eqb]. rewrite Hb. unfold zlen. rewrite Nat2Z.id.
  rewrite (proj2 (Nat.ltb_ge _ _)) by (rewrite length_app; lia). by rewrite take_app_length, drop_app_length.
Qed.

Lemma length_interleave channel pkt : length (interleave channel pkt) = 4 + length pkt.
Proof. unfold interleave. rewrite !length_app, length_to_be. done. Qed.

Lemma push_packets_written channel packets :
  Forall (fun p => zlen p < 65536)%Z packets -> push_packets channel packets = Ok (concat (interleave channel <$> packets)).
Proof.
  induction 1 as [|p packets Hp Hps IH]; [done|]. cbn [push_packets fmap list_fmap concat].
  rewrite (proj2 (Z.ltb_ge _ _)) by lia. rewrite IH. cbn [mbind outcome_bind]. unfold interleave at 2.
  assert (Hz : (0 <= zlen p)%Z) by (unfold zlen; lia). unfold u16, u8. rewrite (Z.mod_small (zlen p) (2 ^ 16)) by lia. rewrite to_be_2.
  rewrite Z.shiftr_div_pow2 by lia. change (2 ^ 8)%Z with 256%Z. reflexivity.
Qed.

(** The pulling client hands interleaved packets to its depacketizer. *)
Lemma pull_drain_packets cfg channel packets d d' out :
  Forall (fun p => zlen p < 65536)%Z packets -> receive_packets cfg d channel packets = Ok (d', out) ->
  pull_drain cfg (concat (interleave channel <$> packets)) d = Ok ([], d', out).
Proof.
  intros Hl Hr. unfold pull_drain.
  assert (Hg : forall fuel acc, length packets < fuel ->
    loop fuel (pull_step cfg) (concat (interleave channel <$> packets), d, acc) = Ok ([], d', acc ++ out)).
  { revert d d' out Hr. induction Hl as [|p packets Hp Hps IH]; intros d d' out Hr fuel acc Hf; (destruct fuel as [|fuel]; [lia|]); rewrite loop_unfold.
    - injection Hr as <- <-. cbn. by rewrite app_nil_r.
    - cbn [receive_packets] in Hr. cbn [fmap list_fmap concat].
      destruct (handle_rtp cfg d channel p) as [[d1 o1]| | |] eqn:Eh; cbn [mbind outcome_bind] in Hr; [|done..].
      destruct (receive_packets cfg d1 channel packets) as [[d2 o2]| | |] eqn:Er; cbn [mbind outcome_bind] in Hr; [|done..].
      injection Hr as <- <-. unfold pull_step at 1. rewrite next_interleaved_written by done.
      change (interleave channel p ++ ?r) with (36%Z :: (channel :: to_be 2 (u16 (zlen p)) ++ p) ++ r) at 1. cbv iota beta.
      rewrite Eh. cbn [mbind outcome_bind]. rewrite (IH d1 d2 o2 Er) by (cbn [length] in Hf; lia). by rewrite app_assoc. }
  rewrite Hg; [done|]. clear. induction packets as [|p ps IH]; [cbn; lia|]. cbn [fmap list_fmap concat]. rewrite length_app, length_interleave.
  cbn [length] in *. lia.
Qed.

(** ** The packets a playing session sends *)

(** The packetizer of [Rtp] that numbers packets like the session. *)
Definition play_packetizer (ssrc seq : Z) : RtpPacketizer :=
  {| Rtp.ssrc := ssrc; payload_type := 96; sequence := seq; clock_rate := 90000; mtu := PLAY_MTU |}.

Lemma rtp_packet_header seq ts ssrc marker payload :
  rtp_packet seq ts ssrc 96 marker payload = (header (play_packetizer ssrc seq) ts marker).2 ++ payload.
Proof. by destruct marker. Qed.

Lemma play_packetizer_next ssrc seq n : advance_seq (play_packetizer ssrc seq) n = play_packetizer ssrc (u16 (seq + Z.of_nat n)).
Proof. done. Qed.

Lemma play_fu_sim k pre nalu ts ssrc fuel : forall pos first seq packets,
  k <= PLAY_MTU ->
  loop fuel (play_fu_step k PLAY_MTU pre nalu ts ssrc) (pos, first, seq, packets) =
  ('(p, packets) ← loop fuel (fu_step k pre nalu ts true) (play_packetizer ssrc seq, pos, first, packets); Ok (sequence p, packets)).
Proof.
  induction fuel as [|fuel IH]; intros pos first seq packets Hk; [done|]. rewrite !loop_unfold. unfold play_fu_step at 1, fu_step at 1.
  destruct (Nat.ltb_spec pos (length nalu)) as [Hlt|]; [|done].
  unfold usub. cbn [mtu play_packetizer]. rewrite (proj2 (Nat.leb_le _ _) Hk). cbn [mbind outcome_bind].
  set (c := Nat.min _ _). rewrite slice_ok by lia. cbn [mbind outcome_bind].
  assert (Hstop : (length nalu <=? pos + c) = (pos + c =? length nalu)).
  { destruct (Nat.leb_spec (length nalu) (pos + c)), (Nat.eqb_spec (pos + c) (length nalu)); [done|lia|lia|done]. }
  rewrite Hstop, rtp_packet_header, andb_true_l. pose proof (header_seq (play_packetizer ssrc seq) ts (pos + c =? length nalu)) as Hs.
  destruct (header (play_packetizer ssrc seq) ts (pos + c =? length nalu)) as [p' h]. cbn [fst snd] in *. subst p'.
  cbn [mbind outcome_bind]. rewrite play_packetizer_next. apply IH. done.
Qed.

Lemma fu_units_pre pre pre' last cs :
  (forall stop, pre false stop = pre' false stop) -> fu_units pre last false cs = fu_units pre' last false cs.
Proof.
  intros Hp. induction cs as [|x [|y cs] IH]; [done|cbn [fu_units]; by rewrite Hp|].
  change (fu_units ?p last false (x :: y :: cs)) with ((false, p false false ++ x) :: fu_units p last false (y :: cs)). by rewrite Hp, IH.
Qed.

Lemma fu_units_pre_first pre pre' last x y cs :
  (forall stop, pre false stop = pre' false stop) -> pre true false = pre' true false ->
  fu_units pre last true (x :: y :: cs) = fu_units pre' last true (x :: y :: cs).
Proof.
  intros Hp Hf. change (fu_units ?p last true (x :: y :: cs)) with ((false, p true false ++ x) :: fu_units p last false (y :: cs)).
  by rewrite Hf, (fu_units_pre pre pre').
Qed.

Lemma play_h264_bits : forall h, is_u8 h ->
  (h < 128)%Z -> play_h264_pre h true false = h264_pre h true false /\ play_h264_pre h false true = h264_pre h false true /\
  play_h264_pre h false false = h264_pre h false false.
Proof. by_bytes. Qed.

Lemma play_hevc_bits h0 h1 first stop : play_hevc_pre h0 h1 first stop = h265_pre h0 h1 first stop.
Proof. unfold play_hevc_pre, h265_pre. destruct first, stop; by rewrite ?Z.lor_0_r. Qed.

(** H.264 units must have the forbidden bit clear: fragmentation drops it. *)
Definition playable (c : CodecId) (n : bytes) : Prop :=
  sendable c n /\ match c, n with H264, h :: _ => (h < 128)%Z | _, _ => True end.

Lemma play_nalu_units c n ts ssrc seq packets :
  c = H264 \/ c = H265 -> is_u16 seq -> playable c n ->
  play_nalu c n ts ssrc seq packets =
  let l := codec_units c PLAY_MTU n true in
  Ok (u16 (seq + Z.of_nat (length l)), packets ++ emit (play_packetizer ssrc seq) ts l).
Proof.
  intros Hc Hq ((Hb & _ & Hs) & Hf). cbv zeta.
  assert (Hone : forall x, Ok (u16 (seq + 1), packets ++ [rtp_packet seq ts ssrc 96 true x]) =
    Ok (E := Error) (u16 (seq + Z.of_nat (length [(true, x)])), packets ++ emit (play_packetizer ssrc seq) ts [(true, x)])).
  { intros x. cbn [emit length]. rewrite rtp_packet_header. by destruct (header _ _ _). }
  destruct Hc as [->| ->]; cbn [play_nalu codec_units].
  - destruct n as [|h n]; [done|]. unfold h264_units. destruct (Nat.leb_spec (length (h :: n)) PLAY_MTU) as [Hle|Hgt]; [apply Hone|].
    apply Forall_cons in Hb as [Hh _]. rewrite idx_0. cbn [mbind outcome_bind]. rewrite play_fu_sim by (unfold PLAY_MTU; lia).
    rewrite fu_loop by (cbn; unfold PLAY_MTU in *; lia || done). cbv zeta. cbn [mbind outcome_bind mtu play_packetizer drop skipn]. rewrite ?drop_0.
    cbn [length] in Hgt. destruct (chunks_two (PLAY_MTU - 2) n) as (x & y & cs & -> & _); [unfold PLAY_MTU in *; lia|unfold PLAY_MTU in *; lia|].
    destruct (play_h264_bits h Hh Hf) as (H1 & H2 & H3).
    rewrite (fu_units_pre_first (play_h264_pre h) (h264_pre h)) by (done || by intros []). done.
  - destruct n as [|h0 [|h1 n]]; [done..|]. rewrite (proj2 (Nat.ltb_ge _ _)) by (cbn [length]; lia).
    unfold h265_units. destruct (Nat.leb_spec (length (h0 :: h1 :: n)) PLAY_MTU) as [Hle|Hgt]; [apply Hone|].
    rewrite idx_0. cbn [mbind outcome_bind]. rewrite (idx_S h0 (h1 :: n) 0), idx_0. cbn [mbind outcome_bind]. rewrite play_fu_sim by (unfold PLAY_MTU; lia).
    rewrite fu_loop by (cbn; unfold PLAY_MTU in *; lia || done). cbv zeta. cbn [mbind outcome_bind mtu play_packetizer drop skipn]. rewrite ?drop_0.
    cbn [length] in Hgt. destruct (chunks_two (PLAY_MTU - 3) n) as (x & y & cs & -> & _); [unfold PLAY_MTU in *; lia|unfold PLAY_MTU in *; lia|].
    rewrite (fu_units_pre_first (play_hevc_pre h0 h1) (h265_pre h0 h1)) by (intros; apply play_hevc_bits). done.
Qed.

(** Every unit is sent with the marker on its last packet. *)
Definition play_stream_units (c : CodecId) (nals : list bytes) : list (bool * bytes) :=
  concat ((fun n => codec_units c PLAY_MTU n true) <$> nals).

Lemma play_units_loop c data ts ssrc fuel : forall pos seq packets nals,
  c = H264 \/ c = H265 -> drop pos data = lp_enc nals -> pos <= length data -> Forall (playable c) nals -> length nals < fuel -> is_u16 seq ->
  loop fuel (play_units_step c data ts ssrc) (pos, seq, packets) =
  let l := play_stream_units c nals in Ok (u16 (seq + Z.of_nat (length l)), packets ++ emit (play_packetizer ssrc seq) ts l).
Proof.
  induction fuel as [|fuel IH]; intros pos seq packets nals Hc Hd Hp Hs Hf Hq; [lia|]. cbv zeta.
  pose proof (f_equal length Hd) as Hlen. rewrite length_drop in Hlen.
  rewrite loop_unfold. unfold play_units_step at 1. destruct Hs as [|n nals Hn Hs].
  { simpl in Hlen. rewrite (proj2 (Nat.leb_gt _ _)) by lia. cbn. rewrite app_nil_r, Z.add_0_r. unfold u16. by rewrite Z.mod_small. }
  rewrite lp_enc_cons, !length_app, length_to_be in Hlen. rewrite (proj2 (Nat.leb_le _ _)) by lia.
  destruct (idx_be4 data pos) as (b0 & b1 & b2 & b3 & Htake & Hk); [lia|]. rewrite Hk. clear Hk.
  rewrite Hd, lp_enc_cons, (take_app_length' (to_be 4 _)) in Htake by by rewrite length_to_be.
  rewrite <-Htake, from_be_to_be_small by apply Hn. unfold zlen. rewrite Nat2Z.id.
  rewrite (proj2 (Nat.ltb_ge _ _)), slice_ok by lia. cbn [mbind outcome_bind].
  assert (drop (pos + 4) data = n ++ lp_enc nals) as Hd4.
  { rewrite <-drop_drop, Hd, lp_enc_cons. done. }
  rewrite Hd4. replace (_ - _) with (length n) by lia. rewrite take_app_length.
  rewrite play_nalu_units by done. cbn [mbind outcome_bind]. set (l := codec_units c PLAY_MTU n true).
  rewrite (IH _ _ _ nals Hc); [| |lia|done|simpl in Hf; lia|unfold is_u16, u16; apply Z.mod_pos_bound; lia].
  - cbv zeta. unfold play_stream_units. rewrite fmap_cons. cbn [concat]. fold l. fold (play_stream_units c nals).
    rewrite emit_app by exact Hq. rewrite play_packetizer_next, <-app_assoc, length_app. do 2 f_equal.
    unfold u16. rewrite Zplus_mod_idemp_l. f_equal. lia.
  - rewrite <-drop_drop, Hd4. apply drop_app_length.
Qed.

(** A frame whose FLV payload holds these NAL units. *)
Definition holds_nals (c : CodecId) (f : MediaFrame) (nals : list bytes) : Prop :=
  frame_type f = Video /\ codec f = c /\ Forall (playable c) nals /\ (0 <= timestamp f * 90 < 2 ^ 32)%Z /\
  exists b0 b1 tail, flv_payload f = Ok (b0 :: b1 :: tail ++ lp_enc nals) /\ length tail = 3 /\ (b1 .& 0x0F = 1)%Z.

Lemma play_frame_units c f nals ssrc seq rate :
  c = H264 \/ c = H265 -> holds_nals c f nals -> is_u16 seq ->
  let l := play_stream_units c nals in
  play_frame f ssrc seq rate = Ok (u16 (seq + Z.of_nat (length l)), emit (play_packetizer ssrc seq) (timestamp f * 90) l).
Proof.
  intros Hc (Hv & Hcod & Hs & Hts & b0 & b1 & tail & Hflv & Htail & Hb1) Hq. cbv zeta.
  set (data := b0 :: b1 :: tail ++ lp_enc nals) in *.
  assert (Hlen : 5 <= length data) by (unfold data; cbn [length]; rewrite length_app; lia).
  assert (Hd : drop 5 data = lp_enc nals).
  { unfold data. change (drop 5 (b0 :: b1 :: ?t)) with (drop 3 t). rewrite <-Htail. apply drop_app_length. }
  assert (Hclock : rtp_clock (timestamp f) = Ok (timestamp f * 90)%Z) by (unfold rtp_clock; by rewrite (proj2 (Z.leb_gt _ _)) by lia).
  assert (Hi1 : idx data 1 = Ok (E := Error) b1) by done.
  unfold play_frame. rewrite Hv. unfold play_video. rewrite Hflv, Hcod.
  assert (Hmain : play_units c data (timestamp f * 90) ssrc seq =
    Ok (u16 (seq + Z.of_nat (length (play_stream_units c nals))), emit (play_packetizer ssrc seq) (timestamp f * 90) (play_stream_units c nals))).
  { unfold play_units. apply (play_units_loop c data _ _ _ 5 seq [] nals); [done|done|done|done| |done].
    pose proof (lp_enc_length nals) as Hl. rewrite <-Hd, length_drop in Hl. lia. }
  destruct Hc as [-> | ->].
  - unfold play_h264. rewrite (proj2 (Nat.ltb_ge _ _)) by lia. rewrite Hi1. cbn [mbind outcome_bind].
    rewrite Hb1. cbn [Z.eqb Pos.eqb]. rewrite Hclock. exact Hmain.
  - unfold play_hevc. rewrite (proj2 (Nat.ltb_ge _ _)) by lia. rewrite Hi1. cbn [mbind outcome_bind].
    rewrite Hclock. cbn [mbind outcome_bind]. rewrite Hb1. cbn [Z.eqb Pos.eqb]. exact Hmain.
Qed.

(** Units sent that way are received one by one. *)
Lemma play_units_received cfg st d ts nals :
  mtu_ok (dk_video_codec cfg) PLAY_MTU -> Forall (sendable (dk_video_codec cfg)) nals -> between st d ->
  let '(st', out) := receive_stream (dk_video_codec cfg) PLAY_MTU st ((fun n => ([n], (ts / 90)%Z)) <$> nals) in
  exists d', feed_units cfg d ts (play_stream_units (dk_video_codec cfg) nals) = Ok (d', out) /\ between st' d'.
Proof.
  intros Hm Hs. revert st d. induction Hs as [|n nals Hn Hs IH]; intros st d Hb; [exists d; done|].
  rewrite fmap_cons. cbn [receive_stream].
  pose proof (access_unit_received cfg PLAY_MTU st d ts [n] Hm ltac:(by apply Forall_singleton) ltac:(done) Hb) as Hu.
  destruct (receive_unit _ _ st [n] _) as [st1 o1]. destruct Hu as (d1 & Hf1 & Hb1). specialize (IH st1 d1 Hb1).
  destruct (receive_stream _ _ st1 _) as [st2 o2]. destruct IH as (d2 & Hf2 & Hb2). exists d2. split; [|done].
  unfold play_stream_units. rewrite fmap_cons. cbn [concat]. rewrite feed_units_app.
  change (codec_units (dk_video_codec cfg) PLAY_MTU n true) with (frame_units (codec_units (dk_video_codec cfg) PLAY_MTU) [n]).
  rewrite Hf1. cbn [mbind outcome_bind]. unfold play_stream_units in Hf2. rewrite Hf2. done.
Qed.

Lemma emit_small p ts l k : Forall (fun u => length u.2 <= k) l -> Forall (fun x => length x <= 12 + k) (emit p ts l).
Proof.
  intros Hl. revert p. induction Hl as [|[mk pl] l Hu Hl IH]; intros p; [constructor|]. cbn [emit].
  pose proof (length_header p ts mk) as Hh. destruct (header p ts mk) as [p' h]. cbn [snd] in *. constructor; [|apply IH].
  rewrite length_app. lia.
Qed.

Lemma play_units_small c nals :
  mtu_ok c PLAY_MTU -> Forall (sendable c) nals -> Forall (fun u => length u.2 <= PLAY_MTU) (play_stream_units c nals).
Proof.
  intros Hm. induction 1 as [|n nals Hn Hs IH]; [constructor|]. unfold play_stream_units. rewrite fmap_cons. cbn [concat].
  apply Forall_app. split; [|exact IH]. apply codec_units_shape; [done|]. destruct Hn as (_ & _ & Hn).
  destruct c; try (destruct n; done); destruct n as [|? [|? ?]]; cbn in *; try done; lia.
Qed.

Lemma packets_16 k (packets : list bytes) : Forall (fun x => length x <= 12 + k) packets -> k <= 2000 -> Forall (fun p => zlen p < 65536)%Z packets.
Proof. intros Hp Hk. eapply Forall_impl; [exact Hp|]. cbn. unfold zlen. lia. Qed.

(** Once the configuration is announced, a stream of single units gives one
    frame per unit that is not a parameter set. *)
Lemma receive_singles_count c m st nals ms :
  announced st = true ->
  length (receive_stream c m st ((fun n => ([n], ms)) <$> nals)).2 = length (List.filter (fun n => negb (is_param c n)) nals).
Proof.
  revert st. induction nals as [|n nals IH]; intros st Ha; [done|]. rewrite fmap_cons. cbn [receive_stream List.filter].
  assert (Ha' : announced (receive_unit c m st [n] ms).1 = true) by (unfold receive_unit; cbn [fst announced]; by rewrite Ha).
  assert (Hl : length (receive_unit c m st [n] ms).2 = if negb (is_param c n) then 1 else 0).
  { unfold receive_unit. cbn [snd List.filter]. rewrite Ha. by destruct (negb (is_param c n)). }
  destruct (receive_unit c m st [n] ms) as [st1 o1]. cbn [fst snd] in *. specialize (IH st1 Ha').
  destruct (receive_stream c m st1 _) as [st2 o2]. cbn [snd] in *. rewrite length_app, Hl, IH. by destruct (negb (is_param c n)).
Qed.

(** C29: playing to a pulling client.  A video frame the server plays over the
    interleaved connection reaches the client's depacketizer complete: the
    published frames are those of the specification, with the frame's
    timestamp.  But every NAL unit is sent as an access unit of its own, since
    the last packet of each carries the marker: a picture of several slices
    arrives as several frames. *)
Theorem rtsp_play_to_pull cfg st d f nals ssrc seq rate :
  mtu_ok (dk_video_codec cfg) PLAY_MTU -> holds_nals (dk_video_codec cfg) f nals -> is_u16 seq -> is_u32 ssrc ->
  video_route cfg 0 96 -> between st d ->
  let '(st', frames) := receive_stream (dk_video_codec cfg) PLAY_MTU st ((fun n => ([n], timestamp f)) <$> nals) in
  exists seq' out d', send_interleaved_frame f ssrc seq rate = Ok (seq', out) /\
    pull_drain cfg out d = Ok ([], d', frames) /\ between st' d' /\
    (announced st = true -> length frames = length (List.filter (fun n => negb (is_param (dk_video_codec cfg) n)) nals)).
Proof.
  intros Hm Hh Hq Hss Hr Hb. pose proof (mtu_codec _ _ Hm) as Hc. pose proof Hh as (Hv & _ & Hs & Hts & _).
  assert (Hsend : Forall (sendable (dk_video_codec cfg)) nals) by (eapply Forall_impl; [exact Hs|by intros n []]).
  pose proof (play_frame_units _ f nals ssrc seq rate Hc Hh Hq) as Hp. cbv zeta in Hp.
  pose proof (play_units_received cfg st d (timestamp f * 90) nals Hm Hsend Hb) as Hrec. rewrite Z.div_mul in Hrec by done.
  pose proof (receive_singles_count (dk_video_codec cfg) PLAY_MTU st nals (timestamp f)) as Hcount.
  destruct (receive_stream _ _ _ _) as [st' frames]. destruct Hrec as (d' & Hf & Hb').
  eexists _, _, d'. split; [unfold send_interleaved_frame; rewrite Hp; cbn [mbind outcome_bind]; rewrite bool_decide_true by done; reflexivity|].
  split; [|done]. apply pull_drain_packets.
  - apply (packets_16 PLAY_MTU); [|unfold PLAY_MTU; lia]. apply emit_small. by apply play_units_small.
  - rewrite receive_emit; [done| |unfold is_u32; lia|done]. split; [exact Hq|split; [cbn; lia|exact Hss]].
Qed.

(** ** The packets of the pushing client *)

(** The NAL units the packetizer finds in a frame. *)
Definition carries_units (c : CodecId) (f : MediaFrame) (nals : list bytes) : Prop :=
  frame_type f = Video /\ codec f = c /\ nals <> [] /\ Forall (sendable c) nals /\
  exists annex, (if config_frame f then video_config_annex_b f else video_sample_annex_b f) = Ok annex /\
    nals = List.filter nonempty (nal_units annex).

(** The video track [start] sets up: channel 0, 90 kHz, default MTU. *)
Definition video_track (t : PushTrack) : Prop :=
  track_type t = Video /\ packetizer_ok (packetizer t) /\ clock_rate (packetizer t) = 90000%Z /\ mtu (packetizer t) = DEFAULT_MTU.

(** The clock wraps at 2^32 / 90 milliseconds. *)
Definition wrapped_ms (ms : Z) : Z := ((ms * 90) mod 2 ^ 32 / 90)%Z.

Lemma push_frame_received cfg t f nals st d :
  (dk_video_codec cfg = H264 \/ dk_video_codec cfg = H265) -> video_track t -> carries_units (dk_video_codec cfg) f nals ->
  video_route cfg (channel t) (payload_type (packetizer t)) -> between st d ->
  let '(st', frames) := receive_unit (dk_video_codec cfg) DEFAULT_MTU st nals (wrapped_ms (timestamp f)) in
  exists t' packets d', push_send_frame [t] f = Ok ([t'], concat (interleave (channel t) <$> packets)) /\
    Forall (fun p => zlen p < 65536)%Z packets /\
    receive_packets cfg d (channel t) packets = Ok (d', frames) /\ between st' d' /\
    video_track t' /\ channel t' = channel t /\ payload_type (packetizer t') = payload_type (packetizer t).
Proof.
  intros Hc (Ht & Hp & Hclk & Hmtu) (Hv & Hcod & Hne & Hs & annex & Hann & Hnals) Hr Hb.
  assert (Hm : mtu_ok (dk_video_codec cfg) DEFAULT_MTU) by (unfold DEFAULT_MTU; destruct Hc as [->| ->]; cbn; lia).
  pose proof (packetize_video_units (packetizer t) f annex) as Hpk. rewrite Hcod, Hmtu, <-Hnals in Hpk. cbv zeta in Hpk.
  set (l := frame_units (codec_units (dk_video_codec cfg) DEFAULT_MTU) nals) in *. set (ts := rtp_timestamp (packetizer t) (timestamp f)) in *.
  assert (Hts : is_u32 ts) by apply rtp_timestamp_u32.
  assert (Hms : (ts / 90)%Z = wrapped_ms (timestamp f)).
  { unfold ts, rtp_timestamp, wrapped_ms, u32. rewrite Hclk. replace (timestamp f * 90000)%Z with (timestamp f * 90 * 1000)%Z by lia. by rewrite Z.div_mul. }
  pose proof (access_unit_received cfg DEFAULT_MTU st d ts nals Hm Hs Hne Hb) as Hrec. rewrite Hms in Hrec.
  destruct (receive_unit _ _ _ _ _) as [st' frames]. destruct Hrec as (d' & Hf & Hb').
  assert (Hsmall : Forall (fun p => zlen p < 65536)%Z (emit (packetizer t) ts l)).
  { apply (packets_16 DEFAULT_MTU); [|unfold DEFAULT_MTU; lia]. apply emit_small. unfold l. apply frame_units_shape; [done| |done].
    eapply Forall_impl; [exact Hs|]. intros n (_ & _ & Hn). destruct Hc as [Hc|Hc]; rewrite Hc in *; destruct n as [|? [|? ?]]; cbn in *; try done; lia. }
  eexists _, (emit (packetizer t) ts l), d'. split; [|split; [done|]].
  - cbn [push_send_frame]. rewrite Ht, Hv, bool_decide_true by done. unfold packetize. rewrite Hv, Hpk; [|unfold is_h26x; rewrite Hcod; tauto|done|apply Hp|done].
    cbn [mbind outcome_bind]. rewrite push_packets_written by done. reflexivity.
  - split; [by rewrite receive_emit|]. split; [done|]. split; [|done]. split; [done|]. split; [|done].
    destruct Hp as (_ & H2 & H3). split; [|exact (conj H2 H3)]. unfold seq_ok, advance_seq. cbn. apply Z.mod_pos_bound. lia.
Qed.

(** ** Arbitrary packets *)

(** No pending unit is empty, and an open fragment has its header. *)
Definition depak_inv (d : RtpDepacketizer) : Prop :=
  Forall (fun n => n <> []) (pending_nalus d) /\ (dk_fu_active d = true -> fu_buf d <> []).

(** The payload of a packet is not an aggregation packet of the codec. *)
Definition no_aggregate (c : CodecId) (payload : bytes) : Prop :=
  forall h, payload !! (12 + 4 * Z.to_nat (default 0 (payload !! 0%nat) .& 0x0F)%Z) = Some h ->
    match c with H265 => (h .>> 1) .& 0x3F <> 48 | _ => h .& 0x1F <> 24 end%Z.

Definition steps_safely (m : result (RtpDepacketizer * list MediaFrame)) : Prop :=
  wp m (fun '(d, _) => depak_inv d) (fun _ => False).

Lemma frame_nalus_safe c l : Forall (fun n => n <> []) l -> exists r, frame_nalus c l = Ok r.
Proof.
  induction 1 as [|[|h n] l Hn Hl [r IH]]; [by eexists|done|]. cbn [frame_nalus]. rewrite idx_0. cbn [mbind outcome_bind]. rewrite IH. by eexists.
Qed.

Lemma emit_safe cfg d : depak_inv d -> steps_safely (emit_video_frame cfg d).
Proof.
  intros [Hp Hf]. unfold steps_safely, emit_video_frame. destruct (pending_nalus d) as [|n l] eqn:E; [by split; rewrite ?E|].
  assert (Hc : stream_codec (dk_video_codec cfg) = H264 \/ stream_codec (dk_video_codec cfg) = H265) by (destruct (dk_video_codec cfg); auto).
  rewrite config_output_spec by done. cbn [mbind outcome_bind]. destruct (frame_nalus_safe (stream_codec (dk_video_codec cfg)) (n :: l) Hp) as [r ->].
  cbn [mbind outcome_bind]. destruct r; (split; [constructor|exact Hf]).
Qed.

Lemma finish_safe cfg marker d : depak_inv d -> steps_safely (finish cfg marker d).
Proof. intros Hd. unfold finish. destruct marker; [by apply emit_safe|exact Hd]. Qed.

Lemma depak_push_inv d n : depak_inv d -> n <> [] -> depak_inv (push_nalu d n).
Proof. intros [Hp Hf] Hn. split; [|exact Hf]. apply Forall_app. split; [exact Hp|by apply Forall_singleton]. Qed.

Lemma observe_inv d n : depak_inv d -> depak_inv (observe_nalu d n) /\ depak_inv (observe_hevc_nalu d n).
Proof. intros Hd. unfold observe_nalu, observe_hevc_nalu. split; repeat case_match; exact Hd. Qed.

Lemma set_fu_inv d buf active : depak_inv d -> (active = true -> buf <> []) -> depak_inv (set_fu d buf active).
Proof. intros [Hp _] Hb. split; [exact Hp|exact Hb]. Qed.

Lemma handle_hevc_safe d data :
  depak_inv d -> (forall h, data !! 0%nat = Some h -> (h .>> 1) .& 0x3F <> 48)%Z ->
  wp (handle_hevc_video_rtp d data) depak_inv (fun _ => False).
Proof.
  intros Hd Hagg. unfold handle_hevc_video_rtp. destruct data as [|d0 [|d1 data]]; [exact Hd..|].
  change (length (d0 :: d1 :: data) <? 2) with false. rewrite idx_0. cbn [mbind outcome_bind]. rewrite (idx_S d0 (d1 :: data) 0), idx_0. cbn [mbind outcome_bind].
  rewrite (proj2 (Z.eqb_neq _ 48)) by (by apply Hagg).
  destruct ((d0 .>> 1) .& 63 =? 49)%Z; [|apply depak_push_inv; [apply observe_inv, Hd|done]].
  destruct (Nat.ltb_spec (length (d0 :: d1 :: data)) 3) as [|Hl]; [exact Hd|]. destruct data as [|fu data]; [cbn in Hl; lia|].
  rewrite !idx_S, idx_0. cbn [mbind outcome_bind].
  match goal with |- context [dk_fu_active ?x] => set (d2 := x) end.
  assert (Hd2 : depak_inv d2) by (unfold d2; destruct (negb (fu .& 128 =? 0)%Z); [by apply set_fu_inv|exact Hd]).
  destruct (dk_fu_active d2) eqn:Ha; cbn [negb]; [|exact Hd2]. rewrite slice_ok by (cbn [length]; lia). cbn [mbind outcome_bind].
  set (body := take _ _). assert (Hb : fu_buf d2 ++ body <> []) by (intros [H _]%app_eq_nil; exact (proj2 Hd2 Ha H)).
  destruct (negb (fu .& 64 =? 0)%Z); [|by apply set_fu_inv]. apply depak_push_inv; [|exact Hb]. apply observe_inv. apply set_fu_inv; [by apply set_fu_inv|done].
Qed.

Lemma handle_video_safe cfg d data marker ts :
  depak_inv d ->
  (forall h, data !! 0%nat = Some h -> match dk_video_codec cfg with H265 => (h .>> 1) .& 0x3F <> 48 | _ => h .& 0x1F <> 24 end)%Z ->
  steps_safely (handle_video_rtp cfg d data marker ts).
Proof.
  intros Hd Hagg. unfold handle_video_rtp. destruct data as [|d0 data]; [exact Hd|]. cbn [length Nat.eqb].
  set (d1 := set_video_ts d ts). assert (Hd1 : depak_inv d1) by exact Hd. clearbody d1. clear Hd.
  destruct (decide (dk_video_codec cfg = H265)) as [Hc|Hc].
  - rewrite bool_decide_true by done. rewrite Hc in Hagg. apply wp_bind. eapply wp_mono; [by apply handle_hevc_safe| |done].
    intros d2 Hd2. by apply (finish_safe cfg marker).
  - rewrite bool_decide_false by done.
    assert (H24 : (d0 .& 31 <> 24)%Z) by (specialize (Hagg d0 eq_refl); by destruct (dk_video_codec cfg)).
    rewrite idx_0. cbn [mbind outcome_bind]. apply wp_bind.
    eapply (wp_mono _ (fun r => match r with inl d | inr d => depak_inv d end) _ (fun _ => False)); [| |done].
    2: { intros [d2|d2] Hd2; [by apply (finish_safe cfg marker)|exact Hd2]. }
    destruct ((1 <=? d0 .& 31) && (d0 .& 31 <=? 23))%Z; [apply depak_push_inv; [apply observe_inv, Hd1|done]|].
    rewrite (proj2 (Z.eqb_neq _ 24)) by done. destruct (d0 .& 31 =? 28)%Z; [|exact Hd1].
    destruct (Nat.ltb_spec (S (length data)) 2) as [|Hl]; [exact Hd1|]. destruct data as [|fu data]; [cbn in Hl; lia|].
    rewrite idx_S, idx_0. cbn [mbind outcome_bind].
    match goal with |- context [dk_fu_active ?x] => set (d2 := x) end.
    assert (Hd2 : depak_inv d2) by (unfold d2; destruct (negb (fu .& 128 =? 0)%Z); [apply set_fu_inv; [exact Hd1|discriminate]|exact Hd1]).
    destruct (dk_fu_active d2) eqn:Ha; cbn [negb]; [|exact Hd2]. rewrite slice_ok by (cbn [length]; lia). cbn [mbind outcome_bind].
    set (body := take _ _). assert (Hb : fu_buf d2 ++ body <> []) by (intros [H _]%app_eq_nil; exact (proj2 Hd2 Ha H)).
    destruct (negb (fu .& 64 =? 0)%Z); [|by apply set_fu_inv]. apply depak_push_inv; [|exact Hb].
    destruct (fu .& 31 =? 5)%Z; (apply (set_fu_inv (set_fu d2 (fu_buf d2 ++ body) true)); [by apply set_fu_inv|done]).
Qed.

Lemma au_sizes_total n data : forall pos, exists sizes stop, au_sizes n data pos = Ok (sizes, stop).
Proof.
  induction n as [|n IH]; intros pos; cbn [au_sizes]; [by eexists _, _|].
  destruct (Nat.ltb_spec (length data) (pos + 2)) as [|Hl]; [by eexists _, _|].
  destruct (idx_be2 data pos Hl) as (b0 & b1 & _ & Hk). rewrite Hk. destruct (IH (pos + 2)) as (s & t & ->). by eexists _, _.
Qed.

Lemma audio_units_total data sizes : forall pos ms frame_ms, exists fs, audio_units data pos sizes ms frame_ms = Ok fs.
Proof.
  induction sizes as [|size sizes IH]; intros pos ms frame_ms; cbn [audio_units]; [by eexists|].
  destruct (Nat.ltb_spec (length data) (pos + size)) as [|Hl]; [by eexists|]. rewrite slice_ok by lia. cbn [mbind outcome_bind].
  destruct (IH (pos + size) (sat_add32 ms (u32 frame_ms)) frame_ms) as [fs ->]. by eexists.
Qed.

Lemma handle_audio_safe cfg d data ts :
  depak_inv d -> dk_audio_sample_rate cfg <> 0%Z -> steps_safely (handle_audio_rtp cfg d data ts).
Proof.
  intros Hd Hr. unfold handle_audio_rtp. destruct data as [|b0 [|b1 data]]; [exact Hd..|]. change (length (b0 :: b1 :: data) <? 2) with false.
  rewrite idx_0. cbn [mbind outcome_bind]. rewrite (idx_S b0 (b1 :: data) 0), idx_0. cbn [mbind outcome_bind].
  destruct (au_sizes_total (Z.to_nat (from_be [b0; b1] / 16)) (b0 :: b1 :: data) 2) as (sizes & pos & ->). cbn [mbind outcome_bind].
  match goal with |- steps_safely (let '(_, _) := ?m in _) => assert (Hm : depak_inv m.1); [|destruct m as [d2 config]; cbn [fst] in Hm] end.
  { destruct (audio_config_sent d), (dk_audio_config cfg); exact Hd. }
  rewrite (proj2 (Z.eqb_neq _ _) Hr).
  match goal with |- context [audio_units ?a ?b ?c ?e ?f] => destruct (audio_units_total a c b e f) as [fs ->] end. exact Hm.
Qed.

(** The depacketizer on arbitrary packets.  As long as the announced
    sample rate is not zero and no aggregation packet arrives, it neither
    panics nor fails, and keeps its invariant.  Each of the two can stop the
    session: an aggregation packet with an empty unit and the marker set makes
    it index an empty unit, and a sample rate of zero (from the peer's SDP)
    makes it divide by zero on the first audio packet. *)
Theorem depacketizer_robust cfg d channel payload :
  (depak_inv d -> dk_audio_sample_rate cfg <> 0%Z -> no_aggregate (dk_video_codec cfg) payload ->
   steps_safely (handle_rtp cfg d channel payload)) /\
  (forall ts, dk_video_codec cfg <> H265 -> handle_video_rtp cfg d [24; 0; 0]%Z true ts = Panic) /\
  (forall ts, dk_video_codec cfg = H265 -> handle_video_rtp cfg d [96; 1; 0; 0]%Z true ts = Panic) /\
  (forall ts data, dk_audio_sample_rate cfg = 0%Z -> 2 <= length data -> handle_audio_rtp cfg d data ts = Panic).
Proof.
  assert (Hempty : forall c l, frame_nalus c (l ++ [[]]) = Panic).
  { intros c. induction l as [|[|h n] l IH]; [done|done|]. cbn [app frame_nalus]. rewrite idx_0. cbn [mbind outcome_bind]. by rewrite IH. }
  assert (Hemit : forall d, emit_video_frame cfg (push_nalu d []) = Panic).
  { intros d'. unfold emit_video_frame. change (pending_nalus (push_nalu d' [])) with (pending_nalus d' ++ [[]]).
    assert (Hc : stream_codec (dk_video_codec cfg) = H264 \/ stream_codec (dk_video_codec cfg) = H265) by (destruct (dk_video_codec cfg); auto).
    destruct (pending_nalus d' ++ [[]]) as [|n l] eqn:E; [by destruct (pending_nalus d')|]. rewrite config_output_spec by done. cbn [mbind outcome_bind].
    by rewrite <-E, Hempty. }
  split_and!.
  - intros Hd Hr Hagg. unfold handle_rtp. destruct (Nat.ltb_spec (length payload) 12) as [|Hl]; [exact Hd|].
    destruct (lookup_lt_is_Some_2 payload 0 ltac:(lia)) as [p0 H0]. destruct (lookup_lt_is_Some_2 payload 1 ltac:(lia)) as [p1 H1].
    rewrite (idx_lookup _ _ _ H0), (idx_lookup _ _ _ H1). cbn [mbind outcome_bind].
    match goal with |- context [match ?m with Some _ => _ | None => _ end] => destruct m as [media|] end; [|exact Hd].
    set (hl := 12 + 4 * Z.to_nat (p0 .& 15)). destruct (Nat.ltb_spec (length payload) (hl + 1)) as [|Hl2]; [exact Hd|].
    rewrite slice_ok by lia. cbn [mbind outcome_bind]. rewrite slice_ok by lia. cbn [mbind outcome_bind].
    destruct media; [|by apply handle_audio_safe|exact Hd]. apply handle_video_safe; [exact Hd|]. intros h Hh. apply (Hagg h).
    rewrite H0. cbn [default from_option id]. fold hl. rewrite firstn_all2 in Hh by (rewrite length_drop; lia). rewrite lookup_drop, Nat.add_0_r in Hh. exact Hh.
  - intros ts Hc. unfold handle_video_rtp. cbn [length Nat.eqb]. rewrite bool_decide_false by done.
    change (aggregate observe_nalu [24; 0; 0]%Z 1 ?x) with (Ok (E := Error) (push_nalu x [])). cbn. apply Hemit.
  - intros ts Hc. unfold handle_video_rtp. cbn [length Nat.eqb]. rewrite bool_decide_true by done.
    change (handle_hevc_video_rtp ?x [96; 1; 0; 0]%Z) with (Ok (E := Error) (push_nalu x [])). cbn. apply Hemit.
  - intros ts data Hr Hl. unfold handle_audio_rtp. rewrite (proj2 (Nat.ltb_ge _ _) Hl). destruct data as [|b0 [|b1 data]]; [cbn in Hl; lia..|].
    rewrite idx_0. cbn [mbind outcome_bind]. rewrite (idx_S b0 (b1 :: data) 0), idx_0. cbn [mbind outcome_bind].
    destruct (au_sizes_total (Z.to_nat (from_be [b0; b1] / 16)) (b0 :: b1 :: data) 2) as (sizes & pos & ->). cbn [mbind outcome_bind].
    destruct (audio_config_sent d), (dk_audio_config cfg); cbv beta iota zeta; by rewrite Hr.
Qed.

(** ** A response followed by media *)

(** A byte below 128 is never inside a character. *)
Lemma utf8_valid_tail l c t : (0 <= c < 128)%Z -> utf8_valid (l ++ c :: t) = true -> utf8_valid t = true.
Proof.
  intros Hc. unfold utf8_valid.
  assert (Hfuel : forall f g s, length s <= f -> length s <= g -> valid_aux f s = valid_aux g s).
  { induction f as [|f IH]; intros g s Hf Hg; [destruct s; [by destruct g|cbn in Hf; lia]|]. destruct s as [|b s]; [by destruct g|].
    destruct g as [|g]; [cbn in Hg; lia|]. cbn [valid_aux]. pose proof (utf8_head_pos b s) as Hn. destruct (utf8_head b s) as [ok n]. cbn [snd] in Hn.
    destruct ok; [|done]. cbn [andb]. destruct n as [|n]; [lia|]. cbn [drop skipn]. apply IH; rewrite length_drop; cbn in Hf, Hg; lia. }
  assert (Hcont : is_cont c = false) by (unfold is_cont, in_range; destruct (Z.leb_spec 128 c); [lia|done]).
  assert (H3 : forall b, second3 b c = false). { intros b. unfold second3, is_cont, in_range. repeat case_match; try done; destruct (Z.leb_spec 160 c), (Z.leb_spec 128 c); (done || lia). }
  assert (H4 : forall b, second4 b c = false). { intros b. unfold second4, is_cont, in_range. repeat case_match; try done; destruct (Z.leb_spec 144 c), (Z.leb_spec 128 c); (done || lia). }
  remember (length l) as k eqn:Hk. revert l Hk. induction (lt_wf k) as [k _ IH]; intros l Hk. destruct l as [|b l].
  - cbn [app length valid_aux]. unfold utf8_head. rewrite (proj2 (Z.ltb_lt c 128)) by lia. cbn [andb drop skipn]. done.
  - cbn [app length valid_aux]. pose proof (utf8_head_pos b (l ++ c :: t)) as Hn. destruct (utf8_head b (l ++ c :: t)) as [ok n] eqn:Eh. cbn [snd] in Hn.
    destruct ok; [|done]. cbn [andb].
    assert (Hle : n <= S (length l)).
    { unfold utf8_head in Eh. destruct (b <? 128)%Z; [injection Eh as <-; lia|].
      destruct l as [|x [|y [|z l]]]; cbn [app nth length] in *; repeat case_match; simplify_eq; try lia; try congruence. }
    destruct n as [|n]; [lia|]. cbn [drop skipn]. rewrite drop_app_le by lia. intros Hv.
    apply (IH (length (drop n l)) ltac:(rewrite length_drop; cbn in Hk; lia) (drop n l) eq_refl).
    rewrite (Hfuel _ (length (l ++ c :: t))); [exact Hv|lia|]. rewrite !length_app, length_drop. lia.
Qed.

Lemma response_before_media r pkt tail rest :
  pkt = 0x80%Z :: tail -> (zlen pkt mod 256 < 128)%Z -> (zlen pkt < 32768)%Z ->
  parse_response (serialize r ++ interleave 0 pkt ++ rest) = Ok None.
Proof.
  intros -> Hlo Hhi. unfold parse_response. destruct (utf8_valid _) eqn:Hv; [|done]. exfalso.
  assert (Hz : (0 <= zlen (0x80%Z :: tail))%Z) by (unfold zlen; lia). set (n := zlen (0x80%Z :: tail)) in *.
  unfold interleave in Hv. fold n in Hv. unfold u16 in Hv. rewrite (Z.mod_small n) in Hv by lia. rewrite to_be_2 in Hv.
  assert (Hd : (0 <= (n / 256) mod 256 < 128)%Z) by div_lia. assert (Hm : (0 <= n mod 256 < 128)%Z) by div_lia.
  cbn [app] in Hv. apply (utf8_valid_tail (serialize r)) in Hv; [|lia].
  do 3 (apply (utf8_valid_tail []) in Hv; [|lia]). done.
Qed.

(** The pulling client loses the answer to PLAY.  The whole buffer has to
    be valid UTF-8 before a response is found in it, but the server starts
    sending media right after its answer.  When the answer and the first bytes
    of a packet (whose length has a low byte below 128) arrive together, the
    client waits for an answer until the connection closes. *)
Theorem pull_misses_play_answer r pkt tail more reads :
  pkt = 0x80%Z :: tail -> (zlen pkt mod 256 < 128)%Z -> (zlen pkt < 32768)%Z ->
  read_response (serialize r ++ interleave 0 pkt ++ more) reads = Err (Anyhow "connection closed before a full RTSP response").
Proof.
  intros Hp Hlo Hhi. revert more. induction reads as [|chunk reads IH]; intros more; cbn [read_response];
    rewrite (response_before_media r pkt tail more Hp Hlo Hhi); cbn [mbind outcome_bind]; [done|].
  destruct chunk as [|b chunk]; [done|]. rewrite <-!app_assoc. apply IH.
Qed.

Lemma pull_misses_play_answer_witness :
  read_response (serialize (response_new 200 (str "OK")) ++ interleave 0 (rtp_packet 1 3600 7 96 true [0x65; 1; 2]%Z) ++ []) [[1; 2]; [3]]%Z =
  Err (Anyhow "connection closed before a full RTSP response").
Proof. eapply pull_misses_play_answer; vm_compute; reflexivity. Defined.

(** A picture of two slices on a connection set up by the pulling client. *)
Definition demo_config : DepakConfig :=
  {| dk_video_pt := 96; dk_audio_pt := 97; dk_video_chan := 0; dk_audio_chan := 2; dk_audio_sample_rate := 44100;
     force_media := None; dk_video_codec := H264; dk_audio_config := None |}.

Definition demo_params : ParamSets := {| sps := Some [0x67; 0x42; 0; 0x1E]%Z; pps := Some [0x68; 1]%Z; vps := None |}.

Definition demo_picture : MediaFrame :=
  with_payload_format (new_video 0 H264 40 40 40 ([0x17; 1; 0; 0; 0]%Z ++ lp_enc [[0x65; 1; 2]; [0x65; 3]]%Z) true) PfFlv.

Lemma rtsp_play_to_pull_witness :
  exists seq' out d' frames, send_interleaved_frame demo_picture 7 1 44100 = Ok (seq', out) /\
    pull_drain demo_config out (rtp_depacketizer_new demo_params) = Ok ([], d', frames) /\ length frames = 3.
Proof.
  pose proof (rtsp_play_to_pull demo_config {| known := demo_params; announced := false |} (rtp_depacketizer_new demo_params)
    demo_picture [[0x65; 1; 2]; [0x65; 3]]%Z 7 1 44100) as H.
  destruct (receive_stream _ _ _ _) as [st' frames] eqn:E. destruct H as (seq' & out & d' & H1 & H2 & _).
  - vm_compute. lia.
  - split_and!; [reflexivity|reflexivity| |vm_compute; discriminate|vm_compute; reflexivity|].
    + unfold playable, sendable, bytes_ok, is_u8, is_u32. repeat constructor; vm_compute; try discriminate; reflexivity.
    + exists 0x17%Z, 1%Z, [0; 0; 0]%Z. split_and!; reflexivity.
  - vm_compute. split; [discriminate|reflexivity].
  - vm_compute. split; [discriminate|reflexivity].
  - right. split; [reflexivity|]. left. reflexivity.
  - split_and!; reflexivity.
  - exists seq', out, d', frames. split; [exact H1|]. split; [exact H2|]. vm_compute in E. injection E as _ <-. reflexivity.
Defined.
