(* ===== verification/RtspSdp.v ===== *)
(** * RtspSdp: session descriptions

    [parse_sdp] and its helpers in [rtsp/src/session.rs] (read by the server on
    ANNOUNCE and by the pulling client on DESCRIBE), [generate_sdp] of the same
    file, and [make_sdp] of [rtsp/src/push_client.rs]. *)

From S2P Require Import Prelude Frame AnnexB Payload Rtp Utf8 Text Auth RtspRtp.
#[local] Open Scope Z_scope.

Record SdpInfo : Type := {
  sdp_video_pt : Z;
  sdp_audio_pt : Z;
  sdp_video_codec : CodecId;
  sdp_params : ParamSets;
  sdp_audio_config : option bytes;
  sdp_audio_sample_rate : Z
}.

Definition sdp_defaults : SdpInfo :=
  {| sdp_video_pt := 96; sdp_audio_pt := 97; sdp_video_codec := H264;
     sdp_params := {| sps := None; pps := None; vps := None |};
     sdp_audio_config := None; sdp_audio_sample_rate := 44100 |}.

(** Assignments to the fields. *)
Definition with_pts (i : SdpInfo) (v a : Z) : SdpInfo :=
  {| sdp_video_pt := v; sdp_audio_pt := a; sdp_video_codec := sdp_video_codec i; sdp_params := sdp_params i;
     sdp_audio_config := sdp_audio_config i; sdp_audio_sample_rate := sdp_audio_sample_rate i |}.
Definition with_codec (i : SdpInfo) (c : CodecId) : SdpInfo :=
  {| sdp_video_pt := sdp_video_pt i; sdp_audio_pt := sdp_audio_pt i; sdp_video_codec := c; sdp_params := sdp_params i;
     sdp_audio_config := sdp_audio_config i; sdp_audio_sample_rate := sdp_audio_sample_rate i |}.
Definition with_params (i : SdpInfo) (ps : ParamSets) : SdpInfo :=
  {| sdp_video_pt := sdp_video_pt i; sdp_audio_pt := sdp_audio_pt i; sdp_video_codec := sdp_video_codec i; sdp_params := ps;
     sdp_audio_config := sdp_audio_config i; sdp_audio_sample_rate := sdp_audio_sample_rate i |}.
Definition with_audio (i : SdpInfo) (config : option bytes) (rate : Z) : SdpInfo :=
  {| sdp_video_pt := sdp_video_pt i; sdp_audio_pt := sdp_audio_pt i; sdp_video_codec := sdp_video_codec i; sdp_params := sdp_params i;
     sdp_audio_config := config; sdp_audio_sample_rate := rate |}.

(** ** Helpers *)

Fixpoint find_param (key : bytes) (kvs : list bytes) : option bytes :=
  match kvs with
  | [] => None
  | kv :: kvs =>
      match strip_prefix (key ++ [61]) (trim kv) with
      | Some rest => Some (trim rest)
      | None => find_param key kvs
      end
  end.

Definition extract_param (params : bytes) (key : string) : option bytes := find_param (str key) (split 59 params).

(** [u8::from_str_radix(s, 16)] on two bytes: a sign and a digit count too. *)
Definition hex_pair (a b : Z) : option Z :=
  match (if a =? 43 then Some 0 else hex_value a), hex_value b with
  | Some x, Some y => Some (16 * x + y)
  | _, _ => None
  end.

(** [s.is_char_boundary] at the start of the rest: it does not begin with a
    continuation byte. *)
Definition at_boundary (rest : bytes) : bool := match rest with b :: _ => negb (is_cont b) | [] => true end.

(** The loop of [hex_decode]; slicing inside a character panics. *)
Fixpoint hex_pairs (s : bytes) : result (option bytes) :=
  match s with
  | [] => Ok (Some [])
  | a :: b :: rest =>
      if negb (at_boundary rest) then Panic else
      match hex_pair a b with
      | None => Ok None
      | Some x => r ← hex_pairs rest; Ok (option_map (cons x) r)
      end
  | [_] => Ok (Some [])
  end.

Definition hex_decode (s : bytes) : result (option bytes) :=
  let s := trim s in
  if Nat.odd (length s) then Ok None else hex_pairs s.

Section Sdp.
Context `{AuthPrimitives}.

Definition sdp_base64 (s : bytes) : option bytes := base64_decode (trim s).

(** [info.x = base64_decode(v)] when the parameter is present. *)
Definition param_or (old : option bytes) (v : option bytes) : option bytes :=
  match v with Some v => sdp_base64 v | None => old end.

Definition sdp_media (i : SdpInfo) (rest : bytes) : SdpInfo :=
  match split_whitespace rest with
  | kind :: _ :: _ :: pt :: _ =>
      match parse_u8 pt with
      | Some pt =>
          if bool_decide (kind = str "video") then with_pts i pt (sdp_audio_pt i)
          else if bool_decide (kind = str "audio") then with_pts i (sdp_video_pt i) pt else i
      | None => i
      end
  | _ => i
  end.

(** [to_lowercase] is only searched for ASCII words and split at slashes. *)
Definition sdp_rtpmap (i : SdpInfo) (rest : bytes) : SdpInfo :=
  match split_whitespace rest with
  | pt :: name :: _ =>
      match parse_u8 pt with
      | Some pt =>
          let codec := to_ascii_lowercase name in
          if contains (str "h265") codec || contains (str "hevc") codec then
            if pt =? sdp_video_pt i then with_codec i H265 else i
          else if (contains (str "mpeg4-generic") codec || contains (str "aac") codec) && (pt =? sdp_audio_pt i) then
            match split 47 codec !! 1%nat with
            | Some r => match parse_u32 r with Some rate => with_audio i (sdp_audio_config i) rate | None => i end
            | None => i
            end
          else i
      | None => i
      end
  | _ => i
  end.

Definition sdp_fmtp (i : SdpInfo) (rest : bytes) : result SdpInfo :=
  match splitn 2 32 rest with
  | [pt; params] =>
      match parse_u8 pt with
      | Some pt =>
          let ps := sdp_params i in
          if pt =? sdp_video_pt i then
            if bool_decide (sdp_video_codec i = H265) then
              Ok (with_params i {| vps := param_or (vps ps) (extract_param params "sprop-vps");
                                   sps := param_or (sps ps) (extract_param params "sprop-sps");
                                   pps := param_or (pps ps) (extract_param params "sprop-pps") |})
            else match extract_param params "sprop-parameter-sets" with
                 | Some sp =>
                     let sets := split 44 sp in
                     Ok (with_params i {| sps := match sets !! 0%nat with Some s => sdp_base64 s | None => None end;
                                          pps := match sets !! 1%nat with Some s => sdp_base64 s | None => None end;
                                          vps := vps ps |})
                 | None => Ok i
                 end
          else if pt =? sdp_audio_pt i then
            match extract_param params "config" with
            | Some cfg => c ← hex_decode cfg; Ok (with_audio i c (sdp_audio_sample_rate i))
            | None => Ok i
            end
          else Ok i
      | None => Ok i
      end
  | _ => Ok i
  end.

Definition sdp_line (i : SdpInfo) (line : bytes) : result SdpInfo :=
  let line := trim line in
  match strip_prefix (str "m=") line with
  | Some rest => Ok (sdp_media i rest)
  | None =>
      match strip_prefix (str "a=rtpmap:") line with
      | Some rest => Ok (sdp_rtpmap i rest)
      | None =>
          match strip_prefix (str "a=fmtp:") line with
          | Some rest => sdp_fmtp i rest
          | None => Ok i
          end
      end
  end.

Fixpoint sdp_lines (i : SdpInfo) (ls : list bytes) : result SdpInfo :=
  match ls with
  | [] => Ok i
  | l :: ls => i ← sdp_line i l; sdp_lines i ls
  end.

Definition parse_session_sdp (body : bytes) : result SdpInfo := sdp_lines sdp_defaults (lines (from_utf8_lossy body)).

(** ** Writing *)

(** A line of the description. *)
Definition sdp_text (ls : list bytes) : bytes := concat ((fun l => l ++ CRLF) <$> ls).

Definition generate_audio_sdp (audio : AudioInfo) : bytes :=
  let channels := dec (Z.max (audio_channels audio) 1) in
  let rate := dec (audio_sample_rate audio) in
  match audio_codec audio with
  | AAC => sdp_text [str "m=audio 0 RTP/AVP 97"; str "a=rtpmap:97 MPEG4-GENERIC/" ++ rate ++ str "/" ++ channels;
             str "a=fmtp:97 streamtype=5;profile-level-id=1;mode=AAC-hbr;sizelength=13;indexlength=3;indexdeltalength=3";
             str "a=control:track2"]
  | Opus => sdp_text [str "m=audio 0 RTP/AVP 97"; str "a=rtpmap:97 opus/48000/" ++ channels;
              str "a=fmtp:97 minptime=10;useinbandfec=1"; str "a=control:track2"]
  | G711A => sdp_text [str "m=audio 0 RTP/AVP 8"; str "a=rtpmap:8 PCMA/8000/1"; str "a=control:track2"]
  | G711U => sdp_text [str "m=audio 0 RTP/AVP 0"; str "a=rtpmap:0 PCMU/8000/1"; str "a=control:track2"]
  | Mp3 | MP2A => sdp_text [str "m=audio 0 RTP/AVP 14"; str "a=rtpmap:14 MPA/90000"; str "a=control:track2"]
  | L16 => sdp_text [str "m=audio 0 RTP/AVP 97"; str "a=rtpmap:97 L16/" ++ rate ++ str "/" ++ channels; str "a=control:track2"]
  | _ => []
  end.

Definition generate_sdp (video_codec : CodecId) (hevc_sprop : option (bytes * bytes * bytes)) (audio : option AudioInfo) : bytes :=
  let '(rtpmap, fmtp) :=
    match video_codec with
    | H265 =>
        match hevc_sprop with
        | Some (v, s, p) =>
            (str "H265/90000", sdp_text [str "a=fmtp:96 sprop-vps=" ++ v ++ str ";sprop-sps=" ++ s ++ str ";sprop-pps=" ++ p])
        | None => (str "H265/90000", [])
        end
    | _ => (str "H264/90000", sdp_text [str "a=fmtp:96 packetization-mode=1;profile-level-id=42C01E"])
    end in
  sdp_text [str "v=0"; str "o=- 0 0 IN IP4 127.0.0.1"; str "s=zlmediakit-rs"; str "c=IN IP4 0.0.0.0"; str "t=0 0";
            str "m=video 0 RTP/AVP 96"; str "a=rtpmap:96 " ++ rtpmap] ++
  fmtp ++ sdp_text [str "a=control:track1"] ++
  match audio with Some a => generate_audio_sdp a | None => [] end.

(** The parameters of the audio format line. *)
Definition aac_params (config : bytes) : bytes :=
  str "streamtype=5; profile-level-id=1; mode=AAC-hbr; config=" ++ hex config ++ str "; SizeLength=13; IndexLength=3; IndexDeltaLength=3".

(** One track of [make_sdp]. *)
Definition make_track_sdp (index : Z) (track : TrackInfo) (audio_config : option bytes) : result bytes :=
  match track with
  | TrackVideo v =>
      if bool_decide (video_codec v = H264 \/ video_codec v = H265) then
        Ok (sdp_text [str "m=video 0 RTP/AVP 96";
                      str "a=rtpmap:96 " ++ (if bool_decide (video_codec v = H265) then str "H265" else str "H264") ++ str "/90000";
                      str "a=control:trackID=" ++ dec index])
      else Err (Anyhow "RTSP push does not support track codec ")
  | TrackAudio a =>
      if bool_decide (audio_codec a = AAC) then
        match audio_config with
        | None => Err (Anyhow "AAC config frame is required")
        | Some config =>
            Ok (sdp_text [str "m=audio 0 RTP/AVP 97";
                          str "a=rtpmap:97 MPEG4-GENERIC/" ++ dec (Z.max (audio_sample_rate a) 1) ++ str "/" ++ dec (Z.max (audio_channels a) 1);
                          str "a=fmtp:97 " ++ aac_params config;
                          str "a=control:trackID=" ++ dec index])
        end
      else Err (Anyhow "RTSP push does not support track codec ")
  end.

Fixpoint make_tracks_sdp (index : Z) (tracks : list TrackInfo) (audio_config : option bytes) : result bytes :=
  match tracks with
  | [] => Ok []
  | t :: tracks =>
      s ← make_track_sdp index t audio_config;
      rest ← make_tracks_sdp (index + 1) tracks audio_config;
      Ok (s ++ rest)
  end.

Definition make_sdp (tracks : list TrackInfo) (audio_config : option bytes) : result bytes :=
  rest ← make_tracks_sdp 0 tracks audio_config;
  Ok (sdp_text [str "v=0"; str "o=- 0 0 IN IP4 127.0.0.1"; str "s=zlmediakit-rs"; str "t=0 0"; str "a=sendonly"] ++ rest).

End Sdp.

(** ** Reading what was written *)

Lemma hex_printable s : bytes_ok s -> Forall printable (hex s).
Proof. intros Hs. eapply Forall_impl; [by apply hex_range|]. unfold printable. cbn. lia. Qed.

Lemma lower_digits s : Forall (fun b => 48 <= b <= 57) s -> to_ascii_lowercase s = s.
Proof. intros Hs. apply lower_id. eapply Forall_impl; [exact Hs|]. cbn. lia. Qed.

Lemma hex_pairs_hex s : bytes_ok s -> hex_pairs (hex s) = Ok (Some s).
Proof.
  assert (Hv : forall d, 0 <= d < 16 -> hex_value (hex_digit d) = Some d).
  { intros d Hd. unfold hex_value, hex_digit. destruct (Z.ltb_spec d 10).
    - rewrite (proj2 (Z.leb_le 48 _)), (proj2 (Z.leb_le _ 57)) by lia. cbn [andb]. f_equal. lia.
    - rewrite (proj2 (Z.leb_gt _ 57)), andb_false_r by lia. rewrite (proj2 (Z.leb_le 97 _)), (proj2 (Z.leb_le _ 102)) by lia. cbn [andb]. f_equal. lia. }
  induction 1 as [|b s Hb Hs IH]; [done|]. unfold hex in *. cbn [fmap list_fmap concat]. unfold hex_byte at 1. cbn [app hex_pairs].
  assert (Hbd : at_boundary (concat (hex_byte <$> s)) = true).
  { destruct s as [|c s]; [done|]. apply Forall_cons in Hs as [Hc _]. cbn [fmap list_fmap concat hex_byte app at_boundary].
    unfold is_cont, in_range. unfold is_u8 in Hc. destruct (hex_digit_range (c / 16) ltac:(div_lia)); rewrite (proj2 (Z.leb_gt 128 _)) by lia; done. }
  rewrite Hbd. cbn [negb]. unfold is_u8 in Hb. unfold hex_pair.
  assert (H43 : (hex_digit (b / 16) =? 43) = false) by (destruct (hex_digit_range (b / 16) ltac:(div_lia)); apply Z.eqb_neq; lia).
  rewrite H43, !Hv by div_lia. rewrite IH. cbn [mbind outcome_bind option_map]. do 3 f_equal. div_lia.
Qed.

Lemma hex_nonempty s : s <> [] -> hex s <> [].
Proof. destruct s; [done|]. intros _. unfold hex. cbn. done. Qed.

Lemma hex_decode_hex s : bytes_ok s -> s <> [] -> hex_decode (hex s) = Ok (Some s).
Proof.
  intros Hs Hne. unfold hex_decode. rewrite trim_trimmed by (apply printable_all_trimmed; [by apply hex_printable|by apply hex_nonempty]).
  assert (Hodd : Nat.odd (length (hex s)) = false).
  { clear. unfold hex. induction s as [|b s IH]; [done|]. cbn [fmap list_fmap concat]. rewrite length_app. exact IH. }
  rewrite Hodd. by apply hex_pairs_hex.
Qed.

Section Negotiation.
Context `{AuthPrimitives}.

Lemma rtpmap_aac_line i rate ch :
  0 <= rate < 2 ^ 32 -> 0 <= ch -> sdp_audio_pt i = 97 ->
  sdp_line i (str "a=rtpmap:97 MPEG4-GENERIC/" ++ dec rate ++ str "/" ++ dec ch) = Ok (with_audio i (sdp_audio_config i) rate).
Proof.
  intros Hr Hc Hpt. pose proof (dec_nonempty ch) as Hne. pose proof (dec_printable ch Hc) as Hp. rewrite Forall_forall in Hp.
  set (s := str "a=rtpmap:97 MPEG4-GENERIC/" ++ _).
  assert (Ht : trim s = s).
  { apply trim_trimmed. destruct (last (dec ch)) as [y|] eqn:El; [|by apply last_None in El].
    apply (printable_ends _ 97 y); [done| |unfold printable; lia|apply Hp; by apply last_Some_elem_of in El].
    unfold s. by rewrite !last_app, El. }
  unfold sdp_line. rewrite Ht. replace (strip_prefix (str "m=") s) with (@None bytes) by done.
  replace (strip_prefix (str "a=rtpmap:") s) with (Some (str "97" ++ 32 :: (str "MPEG4-GENERIC/" ++ dec rate ++ str "/" ++ dec ch))) by done.
  unfold sdp_rtpmap. rewrite split_whitespace_two; [| | |done|done].
  2: { unfold printable. repeat constructor; vm_compute; discriminate. }
  2: { apply Forall_app. split; [unfold printable; repeat constructor; vm_compute; discriminate|]. apply Forall_app. split; [apply dec_printable; lia|].
       apply Forall_app. split; [unfold printable; repeat constructor; vm_compute; discriminate|apply dec_printable; lia]. }
  replace (parse_u8 (str "97")) with (Some 97) by done.
  rewrite !to_ascii_lowercase_app, !(lower_digits (dec _)) by (apply dec_range; lia).
  change (to_ascii_lowercase (str "MPEG4-GENERIC/")) with (str "mpeg4-generic/"). change (to_ascii_lowercase (str "/")) with [47].
  set (name := str "mpeg4-generic/" ++ dec rate ++ [47] ++ dec ch).
  assert (Hlack : lacks 104 name).
  { unfold name, lacks. rewrite !elem_of_app. intros [Hin|[Hin|[Hin|Hin]]]; [revert Hin; not_in| |revert Hin; not_in|];
      revert Hin; apply dec_lacks; lia. }
  unfold contains. change (str "h265") with (104 :: str "265"). change (str "hevc") with (104 :: str "evc"). rewrite !find_sub_lacks by done.
  assert (Hstart : find_sub (str "mpeg4-generic") name = Some 0%nat) by done. rewrite Hstart. cbn [orb andb]. rewrite Hpt, Z.eqb_refl.
  assert (Hsplit : split 47 name !! 1%nat = Some (dec rate)).
  { unfold name. change (str "mpeg4-generic/" ++ ?x) with (str "mpeg4-generic" ++ 47 :: x). rewrite split_app by not_in.
    change ([47] ++ dec ch) with (47 :: dec ch). rewrite split_app by (apply dec_lacks; lia). done. }
  rewrite Hsplit. unfold parse_u32. rewrite parse_uint_dec by lia. done.
Qed.

Lemma aac_params_split config :
  bytes_ok config ->
  exists tail, split 59 (aac_params config) =
    str "streamtype=5" :: str " profile-level-id=1" :: str " mode=AAC-hbr" :: (32 :: str "config=" ++ hex config) :: tail.
Proof.
  intros Hc. unfold aac_params.
  replace (str "streamtype=5; profile-level-id=1; mode=AAC-hbr; config=") with
    (str "streamtype=5" ++ 59 :: (str " profile-level-id=1" ++ 59 :: (str " mode=AAC-hbr" ++ 59 :: (32 :: str "config=")))) by reflexivity.
  rewrite <-!app_assoc, <-!app_comm_cons, <-!app_assoc, <-!app_comm_cons, <-!app_assoc, <-!app_comm_cons.
  rewrite !split_app by not_in.
  replace (str "; SizeLength=13; IndexLength=3; IndexDeltaLength=3") with (59 :: str " SizeLength=13; IndexLength=3; IndexDeltaLength=3") by reflexivity.
  rewrite app_assoc, app_comm_cons, split_app; [by eexists|].
  intros [Hin|[Hin|Hin]%elem_of_app]%elem_of_cons; [discriminate|revert Hin; not_in|].
  pose proof (hex_range config Hc) as Hr. rewrite Forall_forall in Hr. specialize (Hr _ Hin). lia.
Qed.

Lemma find_param_miss k s rest : strip_prefix (k ++ [61]) (trim s) = None -> find_param k (s :: rest) = find_param k rest.
Proof. intros Hs. cbn [find_param]. by rewrite Hs. Qed.

Lemma find_param_hit k v rest :
  trimmed (k ++ [61] ++ v) -> trimmed v -> k <> [] -> find_param k ((32 :: k ++ [61] ++ v) :: rest) = Some v.
Proof.
  intros Ht Hv Hk. cbn [find_param]. rewrite (trim_space _ Ht) by (by destruct k). rewrite app_assoc, strip_prefix_app. by rewrite trim_trimmed.
Qed.

Lemma aac_params_config config : bytes_ok config -> config <> [] -> extract_param (aac_params config) "config" = Some (hex config).
Proof.
  intros Hc Hne. unfold extract_param. destruct (aac_params_split config Hc) as [tail ->].
  rewrite !find_param_miss by (vm_compute; reflexivity).
  replace (str "config=") with (str "config" ++ [61]) by reflexivity. rewrite <-app_assoc.
  apply find_param_hit; [| |discriminate].
  - apply printable_all_trimmed; [|done]. apply Forall_app. split; [unfold printable; repeat constructor; vm_compute; discriminate|].
    apply Forall_cons_2; [unfold printable; lia|by apply hex_printable].
  - apply printable_all_trimmed; [by apply hex_printable|by apply hex_nonempty].
Qed.

Lemma fmtp_aac_line i config :
  bytes_ok config -> config <> [] -> sdp_audio_pt i = 97 -> sdp_video_pt i = 96 ->
  sdp_line i (str "a=fmtp:97 " ++ aac_params config) = Ok (with_audio i (Some config) (sdp_audio_sample_rate i)).
Proof.
  intros Hc Hne Ha Hv. set (s := str "a=fmtp:97 " ++ aac_params config).
  assert (Ht : trim s = s).
  { apply trim_trimmed. apply (printable_ends _ 97 51); [done| |unfold printable; lia..]. unfold s, aac_params.
    replace (str "; SizeLength=13; IndexLength=3; IndexDeltaLength=3") with (str "; SizeLength=13; IndexLength=3; IndexDeltaLength=" ++ [51]) by reflexivity.
    rewrite !app_assoc. apply last_snoc. }
  unfold sdp_line. rewrite Ht. replace (strip_prefix (str "m=") s) with (@None bytes) by done.
  replace (strip_prefix (str "a=rtpmap:") s) with (@None bytes) by done.
  replace (strip_prefix (str "a=fmtp:") s) with (Some (str "97" ++ 32 :: aac_params config)) by done.
  unfold sdp_fmtp. replace (splitn 2 32 (str "97" ++ 32 :: aac_params config)) with [str "97"; aac_params config] by done.
  replace (parse_u8 (str "97")) with (Some 97) by done. rewrite Hv, Ha. cbn [Z.eqb Pos.eqb].
  rewrite (aac_params_config config Hc Hne), hex_decode_hex by done. done.
Qed.

(** Lines of printable ASCII text. *)
Definition text_line (l : bytes) : Prop := Forall (fun b => 32 <= b < 127) l.

Lemma sdp_lines_written ls : Forall text_line ls -> lines (from_utf8_lossy (sdp_text ls)) = ls.
Proof.
  intros Hl. rewrite from_utf8_lossy_valid.
  - apply lines_crlf. eapply Forall_impl; [exact Hl|]. intros l Ht Hin. unfold text_line in Ht. rewrite Forall_forall in Ht. specialize (Ht _ Hin). lia.
  - apply ascii_valid. unfold sdp_text. induction Hl as [|l ls Ht Hl IH]; [constructor|]. cbn [fmap list_fmap concat].
    rewrite !Forall_app. split_and!; [eapply Forall_impl; [exact Ht|cbn; lia]|repeat constructor|exact IH].
Qed.

Lemma sdp_text_app ls ks : sdp_text (ls ++ ks) = sdp_text ls ++ sdp_text ks.
Proof. unfold sdp_text. by rewrite fmap_app, concat_app. Qed.

Lemma text_line_app l k : text_line l -> text_line k -> text_line (l ++ k).
Proof. intros. by apply Forall_app. Qed.

Lemma text_dec n : 0 <= n -> text_line (dec n).
Proof. intros Hn. eapply Forall_impl; [by apply dec_range|]. cbn. lia. Qed.

Lemma text_hex s : bytes_ok s -> text_line (hex s).
Proof. intros Hs. eapply Forall_impl; [by apply hex_range|]. cbn. lia. Qed.

Ltac text_line :=
  repeat first [apply text_line_app | apply text_dec; lia | by apply text_hex
               | unfold text_line; repeat (apply Forall_cons_2; [split; [discriminate|reflexivity]|]); apply Forall_nil_2].

Lemma sdp_line_literal i l : (forall j, sdp_line j l = Ok j) -> sdp_line i l = Ok i.
Proof. auto. Qed.

(** C30: what the pushing client describes, the server understands.  The
    description of an H.264 or H.265 track and an AAC track gives back the
    codec, the payload types, the sample rate and the decoder configuration. *)
Theorem sdp_push_round_trip v a config :
  video_codec v = H264 \/ video_codec v = H265 -> audio_codec a = AAC -> 1 <= audio_sample_rate a < 2 ^ 32 ->
  bytes_ok config -> config <> [] ->
  exists sdp, make_sdp [TrackVideo v; TrackAudio a] (Some config) = Ok sdp /\
    parse_session_sdp sdp = Ok {| sdp_video_pt := 96; sdp_audio_pt := 97; sdp_video_codec := video_codec v;
      sdp_params := {| sps := None; pps := None; vps := None |}; sdp_audio_config := Some config;
      sdp_audio_sample_rate := audio_sample_rate a |}.
Proof.
  intros Hv Ha Hr Hc Hne. eexists. split.
  { unfold make_sdp, make_tracks_sdp, make_track_sdp. rewrite (bool_decide_true (video_codec v = H264 \/ _)) by done.
    rewrite (bool_decide_true (audio_codec a = AAC)) by done.
    cbn [mbind outcome_bind]. rewrite app_nil_r, <-!sdp_text_app. reflexivity. }
  rewrite Z.max_l by lia. set (ch := Z.max (audio_channels a) 1). assert (Hch : 0 <= ch) by (unfold ch; lia). clearbody ch.
  unfold parse_session_sdp. cbn [app]. rewrite sdp_lines_written.
  - cbn [sdp_lines].
    assert (Hcl : sdp_line sdp_defaults (str "a=rtpmap:96 " ++ (if bool_decide (video_codec v = H265) then str "H265" else str "H264") ++ str "/90000") =
      Ok (with_codec sdp_defaults (video_codec v))).
    { destruct Hv as [-> | ->]; vm_compute; reflexivity. }
    assert (Hml : sdp_line sdp_defaults (str "m=video 0 RTP/AVP 96") = Ok sdp_defaults) by (vm_compute; reflexivity).
    assert (Hal : forall c, sdp_line (with_codec sdp_defaults c) (str "m=audio 0 RTP/AVP 97") = Ok (with_codec sdp_defaults c)) by (intros c; vm_compute; reflexivity).
    repeat first [rewrite Hml | rewrite Hcl | rewrite Hal | rewrite rtpmap_aac_line by (lia || done) | rewrite fmtp_aac_line by done
                 | rewrite sdp_line_literal by (intros []; vm_compute; reflexivity) | progress cbn [mbind outcome_bind]].
    done.
  - assert (Hcodec : text_line (if bool_decide (video_codec v = H265) then str "H265" else str "H264")) by (destruct (bool_decide _); text_line).
    repeat (apply Forall_cons_2; [unfold aac_params; text_line; exact Hcodec|]).
    apply Forall_nil_2.
Qed.

(** What the server describes to a player.  The description of an AAC
    track names the sample rate but not the decoder configuration, so a client
    that pulls the stream never learns it (and publishes no configuration).
    And the reader panics on a configuration whose bytes are not at character
    boundaries two by two. *)
Theorem sdp_describe_limits a :
  audio_codec a = AAC -> 1 <= audio_sample_rate a < 2 ^ 32 ->
  parse_session_sdp (generate_sdp H264 None (Some a)) =
    Ok {| sdp_video_pt := 96; sdp_audio_pt := 97; sdp_video_codec := H264;
      sdp_params := {| sps := None; pps := None; vps := None |}; sdp_audio_config := None;
      sdp_audio_sample_rate := audio_sample_rate a |} /\
  parse_session_sdp (str "a=fmtp:97 config=" ++ [0x61; 0xC3; 0xA9; 0x62]) = Panic.
Proof.
  intros Ha Hr. split; [|vm_compute; reflexivity].
  unfold generate_sdp, generate_audio_sdp. rewrite Ha. set (ch := Z.max (audio_channels a) 1). assert (Hch : 0 <= ch) by (unfold ch; lia). clearbody ch.
  rewrite <-!sdp_text_app. unfold parse_session_sdp. cbn [app]. rewrite sdp_lines_written.
  - cbn [sdp_lines].
    assert (Hl : forall l, In l [str "m=video 0 RTP/AVP 96"; str "a=rtpmap:96 " ++ str "H264/90000"; str "a=fmtp:96 packetization-mode=1;profile-level-id=42C01E"; str "m=audio 0 RTP/AVP 97"] ->
      sdp_line sdp_defaults l = Ok sdp_defaults).
    { intros l [<-|[<-|[<-|[<-|[]]]]]; vm_compute; reflexivity. }
    repeat first [rewrite Hl by (cbn; auto) | rewrite rtpmap_aac_line by (lia || done)
                 | rewrite sdp_line_literal by (intros []; vm_compute; reflexivity) | progress cbn [mbind outcome_bind]].
    vm_compute. reflexivity.
  - repeat (apply Forall_cons_2; [text_line|]). apply Forall_nil_2.
Qed.

End Negotiation.

Definition demo_video : VideoInfo :=
  {| video_codec := H265; video_width := 1280; video_height := 720; video_fps := 0; video_key_frame := false |}.
Definition demo_audio : AudioInfo :=
  {| audio_codec := AAC; audio_sample_rate := 48000; audio_channels := 2; audio_bits_per_sample := 16 |}.

Lemma sdp_push_round_trip_witness :
  exists sdp, make_sdp [TrackVideo demo_video; TrackAudio demo_audio] (Some [0x11; 0x90]) = Ok sdp /\
    (i ← parse_session_sdp (H := sample_primitives) sdp; Ok (sdp_audio_config i)) = Ok (Some [0x11; 0x90]).
Proof.
  destruct (sdp_push_round_trip (H := sample_primitives) demo_video demo_audio [0x11; 0x90]) as (sdp & H1 & H2).
  - right. reflexivity.
  - reflexivity.
  - vm_compute. split; [discriminate|reflexivity].
  - unfold bytes_ok, is_u8. repeat constructor; vm_compute; try discriminate; reflexivity.
  - discriminate.
  - exists sdp. split; [exact H1|]. rewrite H2. reflexivity.
Defined.

Lemma sdp_describe_limits_witness :
  parse_session_sdp (H := sample_primitives) (generate_sdp H264 None (Some demo_audio)) =
  Ok (with_audio sdp_defaults None 48000).
Proof.
  destruct (sdp_describe_limits (H := sample_primitives) demo_audio) as [H1 _].
  - reflexivity.
  - vm_compute. split; [discriminate|reflexivity].
  - exact H1.
Defined.
