(* ===== verification/RtspSession.v ===== *)
(** * RtspSession: the server's side of an RTSP connection

    The control half of [rtsp/src/session.rs]: the session's state, one
    definition per request handler, the read loop and the cleanup.  What a
    session does to the rest of the server (responses, sources, events, media
    tasks) is a list of actions; what it asks of the rest of the server (the
    source manager, the recordings, the realm hook, the sockets) is a record
    of answers that may differ from request to request.  A media source is
    named by its application and stream, under the default virtual host. *)

From S2P Require Import Prelude Frame AnnexB Payload Rtp Utf8 Text RtspMsg Auth RtspRtp RtspMedia RtspSdp.
#[local] Open Scope Z_scope.

Definition StreamId : Type := bytes * bytes.

#[global] Instance StreamId_eq_dec : EqDecision StreamId.
Proof. unfold StreamId. solve_decision. Defined.

(** A live source or a recording as DESCRIBE and PLAY see it. *)
Record SourceView : Type := { view_tracks : list TrackInfo; config_frames : list MediaFrame }.

Record World : Type := {
  get_or_pull : StreamId -> option SourceView;
  source_tracks : StreamId -> list TrackInfo;
  open_vod : StreamId -> option SourceView;
  on_rtsp_realm : option (StreamId -> bytes -> option bytes);
  bind_udp : option (Z * Z);
  socket_addr_ok : bytes -> bool;
  vod_range : RtspRequest -> bytes;
  write_ok : bool
}.

Inductive Action : Type :=
| Respond (r : RtspResponse)
| CreateSource (id : StreamId)
| Subscribe (id : StreamId)
| PlayTcp (id : StreamId) (audio_clock_rate : Z)
| PlayUdp (id : StreamId) (audio_clock_rate : Z)
| VodPlay (id : StreamId) (tcp : bool) (audio_clock_rate : Z)
| SetTracks (id : StreamId) (tracks : list TrackInfo)
| RecordUdp (id : StreamId) (media : FrameType)
| PublishFrames (id : StreamId) (frames : list MediaFrame)
| StreamPublish (id : StreamId)
| StreamUnPublish (id : StreamId)
| CloseStream (id : StreamId)
| StopPlay.

(** How a handler ends: the session goes on, ends with an error, or its task
    panics. *)
Inductive Status : Type := Go | Failed (e : Error) | Crashed.

Record RtspSession : Type := {
  connected : bool;                    (* stream.is_some() *)
  client_ip : bytes;
  auth : StreamAuth;
  realm : option bytes;
  nonce : bytes;
  source : option StreamId;
  vod_asset : option (StreamId * SourceView);
  cseq : Z;
  session_id : bytes;
  app : bytes;
  stream_name : bytes;
  stream_sign : bytes;
  is_publisher : bool;
  tcp_interleaved : bool;
  setup_count : Z;
  udp_video : bool;
  udp_audio : bool;
  play_stop : bool;
  buffer : bytes;
  sdp : SdpInfo;                       (* the fields [parse_sdp] fills *)
  video_chan : Z;
  audio_chan : Z;
  depak : option (StreamId * DepakConfig * RtpDepacketizer)
}.

Definition session_new (ip : bytes) (a : StreamAuth) (session_id nonce : bytes) : RtspSession :=
  {| connected := true; client_ip := match split 58 ip with h :: _ => h | [] => str "127.0.0.1" end; auth := a;
     realm := None; nonce := nonce; source := None; vod_asset := None;
     cseq := 0; session_id := session_id; app := []; stream_name := []; stream_sign := []; is_publisher := false;
     tcp_interleaved := false; setup_count := 0; udp_video := false; udp_audio := false; play_stop := false; buffer := [];
     sdp := sdp_defaults; video_chan := 0; audio_chan := 2; depak := None |}.

(** Assignments to the fields. *)
Definition set_realm (s : RtspSession) (r : option bytes) : RtspSession :=
  {| connected := connected s; client_ip := client_ip s; auth := auth s; realm := r; nonce := nonce s; source := source s;
     vod_asset := vod_asset s; cseq := cseq s; session_id := session_id s; app := app s; stream_name := stream_name s;
     stream_sign := stream_sign s; is_publisher := is_publisher s; tcp_interleaved := tcp_interleaved s; setup_count := setup_count s;
     udp_video := udp_video s; udp_audio := udp_audio s; play_stop := play_stop s; buffer := buffer s; sdp := sdp s;
     video_chan := video_chan s; audio_chan := audio_chan s; depak := depak s |}.

Definition set_source (s : RtspSession) (src : option StreamId) (vod : option (StreamId * SourceView)) : RtspSession :=
  {| connected := connected s; client_ip := client_ip s; auth := auth s; realm := realm s; nonce := nonce s; source := src;
     vod_asset := vod; cseq := cseq s; session_id := session_id s; app := app s; stream_name := stream_name s;
     stream_sign := stream_sign s; is_publisher := is_publisher s; tcp_interleaved := tcp_interleaved s; setup_count := setup_count s;
     udp_video := udp_video s; udp_audio := udp_audio s; play_stop := play_stop s; buffer := buffer s; sdp := sdp s;
     video_chan := video_chan s; audio_chan := audio_chan s; depak := depak s |}.

Definition set_cseq (s : RtspSession) (n : Z) : RtspSession :=
  {| connected := connected s; client_ip := client_ip s; auth := auth s; realm := realm s; nonce := nonce s; source := source s;
     vod_asset := vod_asset s; cseq := n; session_id := session_id s; app := app s; stream_name := stream_name s;
     stream_sign := stream_sign s; is_publisher := is_publisher s; tcp_interleaved := tcp_interleaved s; setup_count := setup_count s;
     udp_video := udp_video s; udp_audio := udp_audio s; play_stop := play_stop s; buffer := buffer s; sdp := sdp s;
     video_chan := video_chan s; audio_chan := audio_chan s; depak := depak s |}.

Definition set_uri (s : RtspSession) (a n sign : bytes) : RtspSession :=
  {| connected := connected s; client_ip := client_ip s; auth := auth s; realm := realm s; nonce := nonce s; source := source s;
     vod_asset := vod_asset s; cseq := cseq s; session_id := session_id s; app := a; stream_name := n;
     stream_sign := sign; is_publisher := is_publisher s; tcp_interleaved := tcp_interleaved s; setup_count := setup_count s;
     udp_video := udp_video s; udp_audio := udp_audio s; play_stop := play_stop s; buffer := buffer s; sdp := sdp s;
     video_chan := video_chan s; audio_chan := audio_chan s; depak := depak s |}.

Definition set_publisher (s : RtspSession) (b : bool) : RtspSession :=
  {| connected := connected s; client_ip := client_ip s; auth := auth s; realm := realm s; nonce := nonce s; source := source s;
     vod_asset := vod_asset s; cseq := cseq s; session_id := session_id s; app := app s; stream_name := stream_name s;
     stream_sign := stream_sign s; is_publisher := b; tcp_interleaved := tcp_interleaved s; setup_count := setup_count s;
     udp_video := udp_video s; udp_audio := udp_audio s; play_stop := play_stop s; buffer := buffer s; sdp := sdp s;
     video_chan := video_chan s; audio_chan := audio_chan s; depak := depak s |}.

Definition set_transport (s : RtspSession) (tcp : bool) (count : Z) (uv ua : bool) (vc ac : Z) : RtspSession :=
  {| connected := connected s; client_ip := client_ip s; auth := auth s; realm := realm s; nonce := nonce s; source := source s;
     vod_asset := vod_asset s; cseq := cseq s; session_id := session_id s; app := app s; stream_name := stream_name s;
     stream_sign := stream_sign s; is_publisher := is_publisher s; tcp_interleaved := tcp; setup_count := count;
     udp_video := uv; udp_audio := ua; play_stop := play_stop s; buffer := buffer s; sdp := sdp s;
     video_chan := vc; audio_chan := ac; depak := depak s |}.

Definition set_playing (s : RtspSession) (conn stop uv ua : bool) : RtspSession :=
  {| connected := conn; client_ip := client_ip s; auth := auth s; realm := realm s; nonce := nonce s; source := source s;
     vod_asset := vod_asset s; cseq := cseq s; session_id := session_id s; app := app s; stream_name := stream_name s;
     stream_sign := stream_sign s; is_publisher := is_publisher s; tcp_interleaved := tcp_interleaved s; setup_count := setup_count s;
     udp_video := uv; udp_audio := ua; play_stop := stop; buffer := buffer s; sdp := sdp s;
     video_chan := video_chan s; audio_chan := audio_chan s; depak := depak s |}.

Definition set_buffer (s : RtspSession) (b : bytes) : RtspSession :=
  {| connected := connected s; client_ip := client_ip s; auth := auth s; realm := realm s; nonce := nonce s; source := source s;
     vod_asset := vod_asset s; cseq := cseq s; session_id := session_id s; app := app s; stream_name := stream_name s;
     stream_sign := stream_sign s; is_publisher := is_publisher s; tcp_interleaved := tcp_interleaved s; setup_count := setup_count s;
     udp_video := udp_video s; udp_audio := udp_audio s; play_stop := play_stop s; buffer := b; sdp := sdp s;
     video_chan := video_chan s; audio_chan := audio_chan s; depak := depak s |}.

Definition set_media (s : RtspSession) (i : SdpInfo) (d : option (StreamId * DepakConfig * RtpDepacketizer)) : RtspSession :=
  {| connected := connected s; client_ip := client_ip s; auth := auth s; realm := realm s; nonce := nonce s; source := source s;
     vod_asset := vod_asset s; cseq := cseq s; session_id := session_id s; app := app s; stream_name := stream_name s;
     stream_sign := stream_sign s; is_publisher := is_publisher s; tcp_interleaved := tcp_interleaved s; setup_count := setup_count s;
     udp_video := udp_video s; udp_audio := udp_audio s; play_stop := play_stop s; buffer := buffer s; sdp := i;
     video_chan := video_chan s; audio_chan := audio_chan s; depak := d |}.

Definition StepResult : Type := RtspSession * list Action * Status.

(** Sequencing: the rest runs only when the first part did not end the session. *)
Definition after (r : StepResult) (k : RtspSession -> StepResult) : StepResult :=
  let '(s, acts, st) := r in
  match st with
  | Go => let '(s', acts', st') := k s in (s', acts ++ acts', st')
  | _ => (s, acts, st)
  end.

Definition send_response (w : World) (s : RtspSession) (r : RtspResponse) : StepResult :=
  if connected s then (if write_ok w then (s, [Respond r], Go) else (s, [], Failed Io)) else (s, [], Go).

(** [RtspResponse::new(code, reason).with_header("CSeq", ...)] *)
Definition reply (s : RtspSession) (code : Z) (why : string) : RtspResponse :=
  with_header (response_new code (str why)) (str "CSeq") (dec (cseq s)).

Definition ok_session (s : RtspSession) : RtspResponse := with_header (reply s 200 "OK") (str "Session") (session_id s).

Definition stream_id (s : RtspSession) : StreamId := (app s, stream_name s).

(** ** URIs and transports *)

(** [path.trim_start_matches('/')] *)
Definition trim_slashes (p : bytes) : bytes := trim_start_char 47 p.

Definition query_sign (q : bytes) : bytes :=
  match List.find (fun kv : bytes * bytes => bool_decide (kv.1 = str "sign")) (omap (split_once 61) (split 38 q)) with
  | Some (_, v) => v
  | None => []
  end.

Definition parse_uri (s : RtspSession) (uri : bytes) : RtspSession :=
  let stripped := match strip_prefix (str "rtsp://") uri with
                  | Some r => r
                  | None => default uri (strip_prefix (str "rtsps://") uri)
                  end in
  let '(path, query) := match split_once 63 stripped with
                        | Some (p, q) => (p, Some q)
                        | None => (stripped, None)
                        end in
  let path := if starts_with [47] path then trim_slashes path
              else match split_once 47 path with Some (_, r) => r | None => [] end in
  let parts := splitn 2 47 path in
  set_uri s (default (str "live") (parts !! 0%nat)) (default (str "stream") (parts !! 1%nat))
    (match query with Some q => query_sign q | None => [] end).

Definition parse_udp_transport (transport : bytes) : option (Z * Z) :=
  match List.find (contains (str "client_port")) (split 59 transport) with
  | None => None
  | Some port_str =>
      match split 61 port_str !! 1%nat with
      | None => None
      | Some ports =>
          match split 45 ports with
          | a :: b :: _ =>
              match parse_u16 a, parse_u16 b with
              | Some rtp, Some rtcp => Some (rtp, rtcp)
              | _, _ => None
              end
          | _ => None
          end
      end
  end.

Section Handlers.
Context `{AuthPrimitives}.
Implicit Types (w : World) (s : RtspSession).

(** ** Authentication *)

Definition authorization (request : RtspRequest) : option bytes :=
  snd <$> List.find (fun kv : bytes * bytes => eq_ignore_ascii_case kv.1 (str "Authorization")) (map_to_list (req_headers request)).

Definition is_authenticated s (request : RtspRequest) (action : string) : bool :=
  if check (auth s) (str "__defaultVhost__") (app s) (stream_name s) (str action) (stream_sign s) then true else
  match authorization request with
  | Some header =>
      if starts_with (str "basic ") (to_ascii_lowercase header) then check_basic (auth s) header
      else match realm s with
           | Some r => check_digest (auth s) r (req_method request) (req_uri request) header
           | None => false
           end
  | None => false
  end.

Definition nonempty_realm (r : option bytes) : option bytes := match r with Some [] => None | _ => r end.

Definition auth_reject w s : RtspSession * RtspResponse :=
  let s := match realm s with
           | Some _ => s
           | None =>
               let from_hook := match on_rtsp_realm w with
                                | Some hook => nonempty_realm (hook (stream_id s) (client_ip s))
                                | None => None
                                end in
               set_realm s (match from_hook with
                            | Some r => Some r
                            | None => nonempty_realm (default_realm (auth s))
                            end)
           end in
  let response := reply s 401 "Unauthorized" in
  (s, match realm s with
      | Some r => with_header response (str "WWW-Authenticate") (www_authenticate r (nonce s))
      | None => response
      end).

(** The answer to a request that is not authorized. *)
Definition reject w s : StepResult := let '(s, r) := auth_reject w s in send_response w s r.

(** ** DESCRIBE *)

Definition first_video (tracks : list TrackInfo) : CodecId :=
  match List.find (fun t => match t with TrackVideo _ => true | _ => false end) tracks with
  | Some (TrackVideo v) => video_codec v
  | _ => H264
  end.

Definition first_audio (tracks : list TrackInfo) : option AudioInfo :=
  match List.find (fun t => match t with TrackAudio _ => true | _ => false end) tracks with
  | Some (TrackAudio a) => Some a
  | _ => None
  end.

Fixpoint hevc_sprop (frames : list MediaFrame) : result (option (bytes * bytes * bytes)) :=
  match frames with
  | [] => Ok None
  | f :: frames =>
      if bool_decide (codec f = H265) then
        r ← extract_hevc_nalus (data f);
        match r with
        | (Some v, Some s, Some p) => Ok (Some (base64_encode v, base64_encode s, base64_encode p))
        | _ => hevc_sprop frames
        end
      else hevc_sprop frames
  end.

Definition describe_sdp (v : SourceView) : result bytes :=
  let c := first_video (view_tracks v) in
  sprop ← (if bool_decide (c = H265) then hevc_sprop (config_frames v) else Ok None);
  Ok (generate_sdp c sprop (first_audio (view_tracks v))).

Definition send_sdp w s (v : SourceView) : StepResult :=
  match describe_sdp v with
  | Ok body => send_response w s (with_body (with_header (reply s 200 "OK") (str "Content-Type") (str "application/sdp")) body)
  | Err e => (s, [], Failed e)
  | _ => (s, [], Crashed)
  end.

Definition handle_describe w s (request : RtspRequest) : StepResult :=
  let s := parse_uri s (req_uri request) in
  if negb (is_authenticated s request "play") then reject w s else
  match get_or_pull w (stream_id s) with
  | Some v => send_sdp w (set_source s (Some (stream_id s)) (vod_asset s)) v
  | None =>
      match open_vod w (stream_id s) with
      | Some v => send_sdp w (set_source s (source s) (Some (stream_id s, v))) v
      | None => send_response w s (reply s 404 "Not Found")
      end
  end.

(** ** OPTIONS and SETUP *)

Definition handle_options w s : StepResult :=
  send_response w s (with_header (reply s 200 "OK") (str "Public") (str "OPTIONS, DESCRIBE, SETUP, PLAY, ANNOUNCE, RECORD, TEARDOWN")).

Definition handle_setup w s (request : RtspRequest) : StepResult :=
  match req_headers request !! str "Transport" with
  | None => send_response w s (reply s 461 "Unsupported Transport")
  | Some transport =>
      let track_idx := setup_count s in
      let rtp_channel := u8 (track_idx * 2) in
      let s := set_transport s (tcp_interleaved s) (u32 (track_idx + 1)) (udp_video s) (udp_audio s) (video_chan s) (audio_chan s) in
      if contains (str "TCP") transport || contains (str "interleaved") transport then
        let s := if track_idx =? 0 then set_transport s true (setup_count s) (udp_video s) (udp_audio s) rtp_channel (audio_chan s)
                 else set_transport s true (setup_count s) (udp_video s) (udp_audio s) (video_chan s) rtp_channel in
        send_response w s (with_header (ok_session s) (str "Transport")
          (str "RTP/AVP/TCP;unicast;interleaved=" ++ dec rtp_channel ++ str "-" ++ dec (rtp_channel + 1)))
      else
        match parse_udp_transport transport with
        | None => (s, [], Go)
        | Some (rtp_port, rtcp_port) =>
            match bind_udp w with
            | None => (s, [], Failed Io)
            | Some (rtp_local, rtcp_local) =>
                if negb (socket_addr_ok w (client_ip s ++ [58] ++ dec rtp_port)) then (s, [], Failed (Anyhow "Invalid client addr: ")) else
                if negb (socket_addr_ok w (client_ip s ++ [58] ++ dec rtcp_port)) then (s, [], Failed (Anyhow "Invalid client RTCP addr: ")) else
                let s := if track_idx =? 0 then set_transport s (tcp_interleaved s) (setup_count s) true (udp_audio s) (video_chan s) (audio_chan s)
                         else set_transport s (tcp_interleaved s) (setup_count s) (udp_video s) true (video_chan s) (audio_chan s) in
                send_response w s (with_header (ok_session s) (str "Transport")
                  (str "RTP/AVP/UDP;unicast;client_port=" ++ dec rtp_port ++ str "-" ++ dec rtcp_port ++
                   str ";server_port=" ++ dec rtp_local ++ str "-" ++ dec rtcp_local))
            end
        end
  end.

(** ** PLAY *)

Definition play_clock_rate (tracks : list TrackInfo) : Z :=
  match first_audio tracks with
  | Some a => match audio_codec a with
              | Opus => 48000
              | G711A | G711U => 8000
              | Mp3 | MP2A => 90000
              | _ => Z.max (audio_sample_rate a) 1
              end
  | None => 44100
  end.

Definition handle_vod_play w s (request : RtspRequest) (id : StreamId) (v : SourceView) : StepResult :=
  let rate := play_clock_rate (view_tracks v) in
  after (send_response w s (with_header (ok_session s) (str "Range") (vod_range w request))) (fun s =>
  if tcp_interleaved s then
    if connected s then (set_playing s false (play_stop s) (udp_video s) (udp_audio s), [VodPlay id true rate], Go) else (s, [], Go)
  else if udp_video s then (set_playing s (connected s) (play_stop s) false false, [VodPlay id false rate], Go)
  else (s, [], Go)).

(** A TCP player's task takes over the connection, and the session waits for
    it; a UDP player's task runs beside the session. *)
Definition start_play w s (id : StreamId) (tracks : list TrackInfo) : StepResult :=
  let rate := play_clock_rate tracks in
  let stop_previous := if play_stop s then [StopPlay] else [] in
  let s := set_playing s (connected s) true (udp_video s) (udp_audio s) in
  if tcp_interleaved s then
    if connected s then (set_playing s false true (udp_video s) (udp_audio s), [Subscribe id] ++ stop_previous ++ [PlayTcp id rate], Go)
    else (s, [Subscribe id] ++ stop_previous, Go)
  else if udp_video s then (set_playing s (connected s) true false false, [Subscribe id] ++ stop_previous ++ [PlayUdp id rate], Go)
  else (s, [Subscribe id] ++ stop_previous, Go).

Definition handle_play w s (request : RtspRequest) : StepResult :=
  let s := set_publisher s false in
  let s := match app s with [] => parse_uri s (req_uri request) | _ => s end in
  if negb (is_authenticated s request "play") then reject w s else
  let s := match source s with
           | Some _ => s
           | None => set_source s (match get_or_pull w (stream_id s) with Some _ => Some (stream_id s) | None => None end) (vod_asset s)
           end in
  let s := match source s, vod_asset s with
           | None, None => set_source s None (match open_vod w (stream_id s) with Some v => Some (stream_id s, v) | None => None end)
           | _, _ => s
           end in
  match vod_asset s with
  | Some (id, v) => handle_vod_play w (set_source s (source s) None) request id v
  | None =>
      match source s with
      | None => send_response w s (reply s 404 "Not Found")
      | Some id => after (send_response w s (ok_session s)) (fun s => start_play w s id (source_tracks w id))
      end
  end.

(** ** ANNOUNCE and RECORD *)

Definition handle_announce w s (request : RtspRequest) : StepResult :=
  let s := set_publisher s true in
  let s := parse_uri s (req_uri request) in
  if negb (is_authenticated s request "pub") then reject w s else
  match parse_session_sdp (req_body request) with
  | Ok i =>
      let s := set_source (set_media s i (depak s)) (Some (stream_id s)) (vod_asset s) in
      let '(s, acts, st) := send_response w s (ok_session s) in
      (s, CreateSource (stream_id s) :: acts, st)
  | Err e => (s, [], Failed e)
  | _ => (s, [], Crashed)
  end.

(** The tracks RECORD announces, and the depacketizer it starts. *)
Definition record_tracks s : list TrackInfo :=
  TrackVideo {| video_codec := sdp_video_codec (sdp s); video_width := 1280; video_height := 720;
                video_fps := 4627730092099895296; video_key_frame := false |} ::
  match sdp_audio_config (sdp s) with
  | Some _ => [TrackAudio {| audio_codec := AAC; audio_sample_rate := sdp_audio_sample_rate (sdp s); audio_channels := 1; audio_bits_per_sample := 16 |}]
  | None => []
  end.

Definition depak_config s (force : option FrameType) : DepakConfig :=
  {| dk_video_pt := sdp_video_pt (sdp s); dk_audio_pt := sdp_audio_pt (sdp s); dk_video_chan := video_chan s; dk_audio_chan := audio_chan s;
     dk_audio_sample_rate := sdp_audio_sample_rate (sdp s); force_media := force; dk_video_codec := sdp_video_codec (sdp s);
     dk_audio_config := sdp_audio_config (sdp s) |}.

Definition handle_record w s : StepResult :=
  after (send_response w s (ok_session s)) (fun s =>
  if negb (is_publisher s) then (s, [], Go) else
  match source s with
  | None => (s, [], Go)
  | Some id =>
      let '(s', media) :=
        if tcp_interleaved s then (set_media s (sdp s) (Some (id, depak_config s None, rtp_depacketizer_new (sdp_params (sdp s)))), [])
        else (set_playing s (connected s) (play_stop s) false false,
              (if udp_video s then [RecordUdp id Video] else []) ++ (if udp_audio s then [RecordUdp id Audio] else [])) in
      (s', [SetTracks id (record_tracks s)] ++ media ++ [StreamPublish (stream_id s)], Go)
  end).

(** ** TEARDOWN and the end of the session *)

Definition cleanup s : RtspSession * list Action :=
  (set_media (set_playing (set_source s None (vod_asset s)) (connected s) false false false) (sdp s) None,
   (if is_publisher s then [StreamUnPublish (stream_id s); CloseStream (stream_id s)] else []) ++
   (if play_stop s then [StopPlay] else [])).

Definition handle_teardown w s : StepResult :=
  let '(s, acts) := cleanup s in
  let '(s, acts', st) := send_response w s (ok_session s) in
  (s, acts ++ acts', st).

(** ** Requests and the receive buffer *)

Definition request_cseq (request : RtspRequest) : Z :=
  match req_headers request !! str "CSeq" with
  | Some v => default 0 (parse_u32 v)
  | None => 0
  end.

Definition handle_request w s (request : RtspRequest) : StepResult :=
  let s := set_cseq s (request_cseq request) in
  let m := req_method request in
  if bool_decide (m = str "OPTIONS") then handle_options w s
  else if bool_decide (m = str "DESCRIBE") then handle_describe w s request
  else if bool_decide (m = str "SETUP") then handle_setup w s request
  else if bool_decide (m = str "PLAY") then handle_play w s request
  else if bool_decide (m = str "ANNOUNCE") then handle_announce w s request
  else if bool_decide (m = str "RECORD") then handle_record w s
  else if bool_decide (m = str "TEARDOWN") then handle_teardown w s
  else send_response w s (response_new 405 (str "Method Not Allowed")).

(** One turn of the loop of [process_buffer]; [None] when it leaves the loop. *)
Definition process_step w s : option StepResult :=
  if is_publisher s && tcp_interleaved s && starts_with [36] (buffer s) then
    match next_interleaved (buffer s) with
    | None => None
    | Some (channel, payload, rest) =>
        let s := set_buffer s rest in
        match depak s with
        | None => Some (s, [], Go)
        | Some (id, cfg, d) =>
            match handle_rtp cfg d channel payload with
            | Ok (d, frames) => Some (set_media s (sdp s) (Some (id, cfg, d)), match frames with [] => [] | _ => [PublishFrames id frames] end, Go)
            | Err e => Some (s, [], Failed e)
            | _ => Some (s, [], Crashed)
            end
        end
    end
  else
    match parse_request (buffer s) with
    | Ok (Some (request, consumed)) => Some (handle_request w (set_buffer s (drop consumed (buffer s))) request)
    | Ok None => None
    | Err e => Some (s, [], Failed e)
    | _ => Some (s, [], Crashed)
    end.

(** Each turn that goes on takes bytes from the buffer, so its length plus one
    is enough fuel. *)
Fixpoint process_fuel (fuel : nat) w s : StepResult :=
  match fuel with
  | O => (s, [], Crashed)
  | S fuel =>
      match process_step w s with
      | None => (s, [], Go)
      | Some r => after r (process_fuel fuel w)
      end
  end.

Definition process_buffer w s : StepResult := process_fuel (S (length (buffer s))) w s.

(** The read loop: each read comes with the answers of the world at that time.
    When a read is handled with an error the session returns at once. *)
Fixpoint run s (reads : list (World * bytes)) : StepResult :=
  match reads with
  | [] => let '(s, acts) := cleanup s in (s, acts, Go)
  | (w, chunk) :: reads =>
      if negb (connected s) then let '(s, acts) := cleanup s in (s, acts, Go) else
      after (process_buffer w (set_buffer s (buffer s ++ chunk))) (fun s => run s reads)
  end.

End Handlers.

(** ** Handlers leave the receive buffer alone *)

Section Facts.
Context `{AuthPrimitives}.
Implicit Types (w : World) (s : RtspSession).

Lemma send_response_state w s r : (send_response w s r).1.1 = s.
Proof. unfold send_response. by destruct (connected s), (write_ok w). Qed.

Lemma parse_uri_set s uri : exists a n g, parse_uri s uri = set_uri s a n g.
Proof. unfold parse_uri. destruct (split_once _ _) as [[p q]|]; by eexists _, _, _. Qed.

Lemma reject_set w s : exists r resp, reject w s = send_response w (set_realm s r) resp /\ status_code resp = 401.
Proof.
  unfold reject, auth_reject. destruct (realm s) as [x|] eqn:E.
  - exists (Some x). replace (set_realm s (Some x)) with s by (destruct s; cbn in *; by subst). eexists. split; [rewrite E; reflexivity|done].
  - eexists. eexists. split; [reflexivity|].
    match goal with |- status_code (match ?m with _ => _ end) = _ => by destruct m end.
Qed.

(** The sessions a handler can return: the one it got, up to the fields it
    sets. *)
Definition keeps_buffer (s : RtspSession) (r : StepResult) : Prop := buffer r.1.1 = buffer s.

Lemma send_keeps w s s' r : buffer s' = buffer s -> keeps_buffer s (send_response w s' r).
Proof. intros Hb. unfold keeps_buffer. by rewrite send_response_state. Qed.

Lemma after_keeps s r k : keeps_buffer s r -> (forall s', buffer s' = buffer s -> keeps_buffer s (k s')) -> keeps_buffer s (after r k).
Proof.
  destruct r as [[s1 a1] st]. unfold keeps_buffer, after. cbn [fst]. intros H1 Hk. destruct st; [|done..].
  specialize (Hk s1 H1). destruct (k s1) as [[s2 a2] st2]. exact Hk.
Qed.

Lemma reject_keeps w s s' : buffer s' = buffer s -> keeps_buffer s (reject w s').
Proof. intros Hb. destruct (reject_set w s') as (r & resp & -> & _). by apply send_keeps. Qed.

Lemma handle_describe_keeps w s r : keeps_buffer s (handle_describe w s r).
Proof.
  unfold handle_describe. destruct (parse_uri_set s (req_uri r)) as (a & n & g & ->).
  destruct (negb _); [by apply reject_keeps|]. unfold send_sdp.
  destruct (get_or_pull w _) as [v|]; [destruct (describe_sdp v); try done; by apply send_keeps|].
  destruct (open_vod w _) as [v|]; [destruct (describe_sdp v); try done; by apply send_keeps|by apply send_keeps].
Qed.

Lemma handle_setup_keeps w s r : keeps_buffer s (handle_setup w s r).
Proof.
  unfold handle_setup. destruct (req_headers r !! str "Transport") as [t|]; [|by apply send_keeps].
  destruct (contains (str "TCP") t || contains (str "interleaved") t); [destruct (setup_count s =? 0); by apply send_keeps|].
  destruct (parse_udp_transport t) as [[p q]|]; [|done]. destruct (bind_udp w) as [[x y]|]; [|done].
  destruct (negb _); [done|]. destruct (negb _); [done|]. destruct (setup_count s =? 0); by apply send_keeps.
Qed.

Lemma handle_play_keeps w s r : keeps_buffer s (handle_play w s r).
Proof.
  unfold handle_play. set (s1 := match app _ with [] => _ | _ => _ end).
  assert (H1 : buffer s1 = buffer s).
  { unfold s1. destruct (app _); [|done]. by destruct (parse_uri_set (set_publisher s false) (req_uri r)) as (a & n & g & ->). }
  clearbody s1. destruct (negb _); [by apply reject_keeps|].
  set (s2 := match source s1 with Some _ => s1 | None => _ end). assert (H2 : buffer s2 = buffer s) by (unfold s2; by destruct (source s1)). clearbody s2.
  set (s3 := match source s2 with Some _ => s2 | None => _ end). assert (H3 : buffer s3 = buffer s) by (unfold s3; by destruct (source s2), (vod_asset s2)). clearbody s3.
  destruct (vod_asset s3) as [[id v]|].
  - unfold handle_vod_play. apply after_keeps; [by apply send_keeps|]. intros s' Hs'. by destruct (tcp_interleaved s'), (connected s'), (udp_video s').
  - destruct (source s3) as [id|]; [|by apply send_keeps]. apply after_keeps; [by apply send_keeps|]. intros s' Hs'. unfold start_play. cbn.
    by destruct (tcp_interleaved s'), (connected s'), (udp_video s').
Qed.

Lemma handle_announce_keeps w s r : keeps_buffer s (handle_announce w s r).
Proof.
  unfold handle_announce. destruct (parse_uri_set (set_publisher s true) (req_uri r)) as (a & n & g & ->).
  destruct (negb _); [by apply reject_keeps|]. destruct (parse_session_sdp _) as [i| | |]; try done.
  match goal with |- context [send_response w ?x ?y] => pose proof (send_response_state w x y) as Hx; destruct (send_response w x y) as [[s2 a2] st2] end.
  cbn [fst] in Hx. subst s2. done.
Qed.

Lemma handle_record_keeps w s : keeps_buffer s (handle_record w s).
Proof.
  unfold handle_record. apply after_keeps; [by apply send_keeps|]. intros s' Hs'. destruct (negb _); [done|]. destruct (source s'); [|done].
  by destruct (tcp_interleaved s').
Qed.

Lemma handle_request_keeps w s r : keeps_buffer s (handle_request w s r).
Proof.
  unfold handle_request. repeat case_bool_decide.
  - by apply send_keeps.
  - exact (handle_describe_keeps w (set_cseq s (request_cseq r)) r).
  - exact (handle_setup_keeps w (set_cseq s (request_cseq r)) r).
  - exact (handle_play_keeps w (set_cseq s (request_cseq r)) r).
  - exact (handle_announce_keeps w (set_cseq s (request_cseq r)) r).
  - exact (handle_record_keeps w (set_cseq s (request_cseq r))).
  - unfold handle_teardown. cbn [cleanup].
    match goal with |- context [send_response w ?x ?y] => pose proof (send_response_state w x y) as Hx; destruct (send_response w x y) as [[s2 a2] st2] end.
    cbn [fst] in Hx. by subst s2.
  - by apply send_keeps.
Qed.

(** ** The loop of [process_buffer] ends *)

Lemma parse_request_consumed data r n : parse_request data = Ok (Some (r, n)) -> (0 < n <= length data)%nat.
Proof.
  unfold parse_request. destruct (negb _); [done|]. destruct (find_sub _ data) as [h|]; [|done]. destruct (lines _) as [|l ls]; [done|].
  destruct (splitn 3 32 l) as [|m [|u [|v [|? ?]]]]; try done. unfold message_body.
  set (len := content_length _). destruct (2 ^ 64 <=? _); [done|]. destruct (Z.ltb_spec (zlen data) (Z.of_nat (h + 4) + len)) as [|Hl]; [done|].
  unfold slice. destruct ((h + 4 <=? h + 4 + Z.to_nat len)%nat && (h + 4 + Z.to_nat len <=? length data)%nat) eqn:E; [|done].
  cbn [mbind outcome_bind]. intros [= _ <-]. apply andb_true_iff in E as [_ E%Nat.leb_le]. lia.
Qed.

Lemma next_interleaved_shrinks b c p r : next_interleaved b = Some (c, p, r) -> (length r < length b)%nat.
Proof.
  unfold next_interleaved. destruct b as [|x [|ch [|l0 [|l1 rest]]]]; [done..|]. destruct (x =? 36); [|done].
  destruct (_ <? _)%nat; [done|]. intros [= _ _ <-]. rewrite length_drop. cbn [length]. lia.
Qed.

Lemma process_step_shrinks w s s' acts : process_step w s = Some (s', acts, Go) -> (length (buffer s') < length (buffer s))%nat.
Proof.
  unfold process_step. destruct (is_publisher s && _ && _).
  - destruct (next_interleaved _) as [[[c p] r]|] eqn:E; [|done]. apply next_interleaved_shrinks in E.
    cbn [depak set_buffer]. destruct (depak s) as [[[id cfg] d]|]; [|intros [= <- _]; done].
    destruct (handle_rtp cfg d c p) as [[d' fs]| | |]; [|done..]. intros [= <- _]. done.
  - destruct (parse_request (buffer s)) as [[[r n]|]| | |] eqn:E; [|done..]. apply parse_request_consumed in E.
    pose proof (handle_request_keeps w (set_buffer s (drop n (buffer s))) r) as Hk. unfold keeps_buffer in Hk. intros [= Hh]. rewrite Hh in Hk.
    cbn [fst buffer set_buffer] in Hk. rewrite Hk, length_drop. lia.
Qed.

(** Any amount of fuel above the length of the buffer gives the same result. *)
Lemma process_fuel_enough w fuel : forall fuel' s,
  (length (buffer s) < fuel)%nat -> (length (buffer s) < fuel')%nat -> process_fuel fuel w s = process_fuel fuel' w s.
Proof.
  induction fuel as [|fuel IH]; intros fuel' s Hf Hf'; [lia|]. destruct fuel' as [|fuel']; [lia|]. cbn [process_fuel].
  destruct (process_step w s) as [[[s' acts] st]|] eqn:E; [|done]. unfold after. destruct st; [|done..].
  apply process_step_shrinks in E. by rewrite (IH fuel') by lia.
Qed.

(** ** Publishing over the interleaved connection *)

(** The frames that reach a source. *)
Definition frames_for (id : StreamId) (a : Action) : list MediaFrame :=
  match a with PublishFrames i fs => if bool_decide (i = id) then fs else [] | _ => [] end.
Definition published (id : StreamId) (acts : list Action) : list MediaFrame := concat (frames_for id <$> acts).

Lemma rtsp_published_app id l k : published id (l ++ k) = published id l ++ published id k.
Proof. unfold published. by rewrite fmap_app, concat_app. Qed.

Lemma process_media w id cfg channel packets : forall fuel s d d' out,
  (length packets < fuel)%nat -> is_publisher s = true -> tcp_interleaved s = true -> depak s = Some (id, cfg, d) ->
  Forall (fun p => zlen p < 65536) packets -> buffer s = concat (interleave channel <$> packets) ->
  receive_packets cfg d channel packets = Ok (d', out) ->
  exists acts, process_fuel fuel w s = (set_media (set_buffer s []) (sdp s) (Some (id, cfg, d')), acts, Go) /\ published id acts = out.
Proof.
  induction packets as [|p packets IH]; intros fuel s d d' out Hf Hp Ht Hd Hl Hb Hr; (destruct fuel as [|fuel]; [lia|]); cbn [process_fuel].
  - injection Hr as <- <-. cbn in Hb. exists []. split; [|done]. unfold process_step. rewrite Hb, andb_false_r. change (parse_request []) with (Ok (E := Error) (@None (RtspRequest * nat))).
    cbv iota beta. destruct s; cbn in *; by subst.
  - apply Forall_cons in Hl as [Hlp Hl]. cbn [receive_packets] in Hr. cbn [fmap list_fmap concat] in Hb.
    destruct (handle_rtp cfg d channel p) as [[d1 o1]| | |] eqn:Eh; cbn [mbind outcome_bind] in Hr; [|done..].
    destruct (receive_packets cfg d1 channel packets) as [[d2 o2]| | |] eqn:Er; cbn [mbind outcome_bind] in Hr; [|done..].
    injection Hr as <- <-. unfold process_step. rewrite Hp, Ht, Hb. change (starts_with [36] (interleave channel p ++ ?r)) with true. cbn [andb].
    rewrite next_interleaved_written by done. cbn [depak set_buffer]. rewrite Hd, Eh. unfold after.
    set (s1 := set_media _ _ _).
    destruct (IH fuel s1 d1 d2 o2) as (acts & Hfu & Hpub); [cbn [length] in Hf; lia|done|done|done|done|done|done|]. rewrite Hfu.
    eexists. split; [reflexivity|]. rewrite rtsp_published_app, Hpub. f_equal. destruct o1 as [|f o1]; [done|]. unfold published.
    cbn [fmap list_fmap concat frames_for]. rewrite bool_decide_true by done. by rewrite app_nil_r.
Qed.

(** [send_frame] for one frame after the other. *)
Fixpoint push_frames (tracks : list PushTrack) (frames : list MediaFrame) : result (list PushTrack * bytes) :=
  match frames with
  | [] => Ok (tracks, [])
  | f :: frames =>
      '(tracks, out) ← push_send_frame tracks f;
      '(tracks, rest) ← push_frames tracks frames;
      Ok (tracks, out ++ rest)
  end.

Lemma push_frames_received cfg frames nalss : forall t st d,
  (dk_video_codec cfg = H264 \/ dk_video_codec cfg = H265) -> video_track t ->
  Forall2 (carries_units (dk_video_codec cfg)) frames nalss ->
  video_route cfg (channel t) (payload_type (packetizer t)) -> between st d ->
  let '(st', out) := receive_stream (dk_video_codec cfg) DEFAULT_MTU st (zip nalss ((fun f => wrapped_ms (timestamp f)) <$> frames)) in
  exists t' packets d', push_frames [t] frames = Ok ([t'], concat (interleave (channel t) <$> packets)) /\
    Forall (fun p => zlen p < 65536) packets /\ receive_packets cfg d (channel t) packets = Ok (d', out) /\ between st' d'.
Proof.
  intros t st d Hc Ht Hf. revert t st d Ht. induction Hf as [|f nals frames nalss Hfn Hf IH]; intros t st d Ht Hr Hb.
  { exists t, [], d. done. }
  rewrite fmap_cons. cbn [zip zip_with receive_stream].
  pose proof (push_frame_received cfg t f nals st d Hc Ht Hfn Hr Hb) as H1. destruct (receive_unit _ _ _ _ _) as [st1 o1].
  destruct H1 as (t1 & p1 & d1 & Hs1 & Hl1 & Hr1 & Hb1 & Ht1 & Hch & Hpt).
  specialize (IH t1 st1 d1 Ht1). rewrite Hch, Hpt in IH. specialize (IH Hr Hb1). destruct (receive_stream _ _ st1 _) as [st2 o2].
  destruct IH as (t2 & p2 & d2 & Hs2 & Hl2 & Hr2 & Hb2). exists t2, (p1 ++ p2), d2. split_and!; [|by apply Forall_app| |done].
  - cbn [push_frames]. rewrite Hs1. cbn [mbind outcome_bind]. rewrite Hs2. cbn [mbind outcome_bind]. by rewrite fmap_app, concat_app.
  - by rewrite receive_packets_app, Hr1; cbn [mbind outcome_bind]; rewrite Hr2.
Qed.

Lemma interleave_count channel (packets : list bytes) : (length packets <= length (concat (interleave channel <$> packets)))%nat.
Proof.
  induction packets as [|p ps IH]; [done|]. rewrite fmap_cons. cbn [concat length]. rewrite length_app, length_interleave. lia.
Qed.

(** C11: pushing a stream to the server.  The video frames a client pushes on
    an interleaved connection, written by [send_frame] one after the other, are
    read by the publishing session without loss: the frames that reach the
    source are one per access unit, with the units that are not parameter sets,
    the key flag and the client's timestamp (until the 90 kHz clock wraps,
    after 13 hours), preceded by the configuration once it is complete. *)
Theorem rtsp_push_end_to_end w s id cfg d st t frames nalss :
  (dk_video_codec cfg = H264 \/ dk_video_codec cfg = H265) -> video_track t ->
  Forall2 (carries_units (dk_video_codec cfg)) frames nalss ->
  video_route cfg (channel t) (payload_type (packetizer t)) -> between st d ->
  is_publisher s = true -> tcp_interleaved s = true -> depak s = Some (id, cfg, d) ->
  let '(st', out) := receive_stream (dk_video_codec cfg) DEFAULT_MTU st (zip nalss ((fun f => wrapped_ms (timestamp f)) <$> frames)) in
  exists t' sent d' s' acts, push_frames [t] frames = Ok ([t'], sent) /\
    process_buffer w (set_buffer s sent) = (s', acts, Go) /\ published id acts = out /\
    depak s' = Some (id, cfg, d') /\ buffer s' = [] /\ between st' d'.
Proof.
  intros Hc Ht Hf Hr Hb Hp Htcp Hd. pose proof (push_frames_received cfg frames nalss t st d Hc Ht Hf Hr Hb) as H1.
  destruct (receive_stream _ _ _ _) as [st' out]. destruct H1 as (t' & packets & d' & Hs & Hl & Hrec & Hb').
  set (sent := concat (interleave (channel t) <$> packets)) in *.
  destruct (process_media w id cfg (channel t) packets (S (length sent)) (set_buffer s sent) d d' out) as (acts & Hfu & Hpub);
    [pose proof (interleave_count (channel t) packets); fold sent in H0; lia|done|done|done|done|done|done|].
  exists t', sent, d'. eexists _, acts. split; [done|]. split; [exact Hfu|]. done.
Qed.

(** ** What a session may touch *)

(** The stream a request gets access to, if it is authorized. *)
Definition grants s (r : RtspRequest) : list StreamId :=
  let m := req_method r in
  if bool_decide (m = str "DESCRIBE") then
    let s := parse_uri s (req_uri r) in if is_authenticated s r "play" then [stream_id s] else []
  else if bool_decide (m = str "PLAY") then
    let s := match app s with [] => parse_uri s (req_uri r) | _ => s end in if is_authenticated s r "play" then [stream_id s] else []
  else if bool_decide (m = str "ANNOUNCE") then
    let s := parse_uri s (req_uri r) in if is_authenticated s r "pub" then [stream_id s] else []
  else [].

(** The streams a session holds. *)
Definition holds (G : list StreamId) s : Prop :=
  (forall id, source s = Some id -> id ∈ G) /\ (forall id v, vod_asset s = Some (id, v) -> id ∈ G) /\
  (forall id c d, depak s = Some (id, c, d) -> id ∈ G).

(** Actions that read from a stream or write to it. *)
Definition touches (G : list StreamId) (a : Action) : Prop :=
  match a with
  | CreateSource id | Subscribe id | PlayTcp id _ | PlayUdp id _ | VodPlay id _ _ | SetTracks id _ | RecordUdp id _ | PublishFrames id _ => id ∈ G
  | _ => True
  end.

Definition within (G : list StreamId) (r : StepResult) : Prop := holds G r.1.1 /\ Forall (touches G) r.1.2.

Lemma send_within G w s r : holds G s -> within G (send_response w s r).
Proof. intros Hh. unfold within, send_response. destruct (connected s), (write_ok w); (split; [exact Hh|repeat constructor]). Qed.

Lemma reject_within G w s : holds G s -> within G (reject w s).
Proof. intros Hh. destruct (reject_set w s) as (r & resp & -> & _). apply send_within. exact Hh. Qed.

Lemma after_within G r k : within G r -> (forall s, holds G s -> within G (k s)) -> within G (after r k).
Proof.
  destruct r as [[s1 a1] st]. unfold within, after. cbn [fst snd]. intros [H1 H2] Hk. destruct st; [|done..].
  specialize (Hk s1 H1). destruct (k s1) as [[s2 a2] st2]. cbn [fst snd] in *. split; [apply Hk|]. apply Forall_app. split; [done|apply Hk].
Qed.

Lemma holds_mono G G' s : (forall id, id ∈ G -> id ∈ G') -> holds G s -> holds G' s.
Proof. intros Hm (H1 & H2 & H3). split_and!; intros; apply Hm; eauto. Qed.

Lemma describe_within G w s r :
  holds G s -> within ((let s := parse_uri s (req_uri r) in if is_authenticated s r "play" then [stream_id s] else []) ++ G) (handle_describe w s r).
Proof.
  intros Hh. unfold handle_describe. assert (Hp : holds G (parse_uri s (req_uri r))).
  { by destruct (parse_uri_set s (req_uri r)) as (a & n & g & ->). }
  set (s1 := parse_uri s (req_uri r)) in *. clearbody s1. cbv zeta. destruct (is_authenticated s1 r "play"); cbn [negb]; [|by apply reject_within].
  assert (Hg : holds ([stream_id s1] ++ G) s1) by (eapply holds_mono; [|exact Hp]; intros; by apply list_elem_of_further).
  assert (Hid : stream_id s1 ∈ [stream_id s1] ++ G) by apply list_elem_of_here.
  set (G' := [stream_id s1] ++ G) in *. clearbody G'. destruct Hg as (H1 & H2 & H3).
  unfold send_sdp. destruct (get_or_pull w _) as [v|].
  { assert (Hs : holds G' (set_source s1 (Some (stream_id s1)) (vod_asset s1))) by (split_and!; cbn; [by intros ? [= <-]|done|done]).
    destruct (describe_sdp v); [by apply send_within|by split..]. }
  destruct (open_vod w _) as [v|]; [|by apply send_within].
  assert (Hs : holds G' (set_source s1 (source s1) (Some (stream_id s1, v)))) by (split_and!; cbn; [done|by intros ? ? [= <- <-]|done]).
  destruct (describe_sdp v); [by apply send_within|by split..].
Qed.

Lemma setup_within G w s r : holds G s -> within G (handle_setup w s r).
Proof.
  intros Hh. unfold handle_setup. destruct (req_headers r !! str "Transport") as [t|]; [|by apply send_within].
  destruct (contains (str "TCP") t || contains (str "interleaved") t); [destruct (setup_count s =? 0); by apply send_within|].
  destruct (parse_udp_transport t) as [[p q]|]; [|by split]. destruct (bind_udp w) as [[x y]|]; [|by split].
  destruct (negb _); [by split|]. destruct (negb _); [by split|]. destruct (setup_count s =? 0); by apply send_within.
Qed.

Lemma play_within G w s r :
  holds G s ->
  within ((let s := match app s with [] => parse_uri s (req_uri r) | _ => s end in if is_authenticated s r "play" then [stream_id s] else []) ++ G) (handle_play w s r).
Proof.
  intros Hh. unfold handle_play.
  assert (Heq : (match app (set_publisher s false) with [] => parse_uri (set_publisher s false) (req_uri r) | _ => set_publisher s false end) =
    set_publisher (match app s with [] => parse_uri s (req_uri r) | _ => s end) false).
  { cbn [app set_publisher]. destruct (app s); [|done]. unfold parse_uri. by destruct (split_once _ _) as [[? ?]|]. }
  rewrite Heq. clear Heq. set (s0 := match app s with [] => _ | _ => _ end).
  assert (Hp : holds G s0). { unfold s0. destruct (app s); [|done]. by destruct (parse_uri_set s (req_uri r)) as (a & n & g & ->). }
  clearbody s0. cbv zeta. change (is_authenticated (set_publisher s0 false) r "play") with (is_authenticated s0 r "play").
  set (s1 := set_publisher s0 false). change (stream_id s0) with (stream_id s1). assert (Hp1 : holds G s1) by exact Hp. clearbody s1. clear Hp Hh.
  destruct (is_authenticated s0 r "play"); cbn [negb]; [|by apply reject_within].
  assert (Hg : holds ([stream_id s1] ++ G) s1) by (eapply holds_mono; [|exact Hp1]; intros; by apply list_elem_of_further).
  assert (Hid : stream_id s1 ∈ [stream_id s1] ++ G) by apply list_elem_of_here. set (G' := [stream_id s1] ++ G) in *. clearbody G'. clear Hp1.
  set (s2 := match source s1 with Some _ => s1 | None => _ end).
  assert (H2 : holds G' s2 /\ stream_id s2 = stream_id s1).
  { unfold s2. destruct (source s1); [done|]. split; [|done]. destruct Hg as (H1 & H2 & H3). split_and!; cbn; [|done|done]. destruct (get_or_pull w _); [by intros ? [= <-]|done]. }
  clearbody s2. destruct H2 as [H2 He]. set (s3 := match source s2 with Some _ => s2 | None => _ end).
  assert (H3 : holds G' s3).
  { unfold s3. destruct (source s2); [done|]. destruct (vod_asset s2); [done|]. destruct H2 as (Ha & Hb & Hc). split_and!; cbn; [done| |done].
    destruct (open_vod w _); [|done]. intros ? ? [= <- _]. by rewrite He. }
  clearbody s3. destruct H3 as (Ha & Hb & Hc). destruct (vod_asset s3) as [[id v]|] eqn:Ev.
  - assert (Hv : id ∈ G') by (by eapply Hb). unfold handle_vod_play.
    apply after_within; [apply send_within; split_and!; cbn; [done|done|done]|]. intros s' Hs'.
    destruct (tcp_interleaved s'), (connected s'), (udp_video s'); (split; [exact Hs'|repeat constructor; exact Hv]).
  - destruct (source s3) as [id|] eqn:Es; [|apply send_within; split_and!; [rewrite Es|rewrite Ev|]; done].
    assert (Hv : id ∈ G') by (by apply Ha). apply after_within; [apply send_within; split_and!; [rewrite Es|rewrite Ev|]; done|]. intros s' Hs'. unfold start_play. cbn.
    destruct (tcp_interleaved s'), (connected s'), (udp_video s'), (play_stop s'); (split; [exact Hs'|repeat constructor; exact Hv]).
Qed.

Lemma announce_within G w s r :
  holds G s -> within ((let s := parse_uri s (req_uri r) in if is_authenticated s r "pub" then [stream_id s] else []) ++ G) (handle_announce w s r).
Proof.
  intros Hh. unfold handle_announce.
  assert (Heq : parse_uri (set_publisher s true) (req_uri r) = set_publisher (parse_uri s (req_uri r)) true).
  { unfold parse_uri. by destruct (split_once _ _) as [[? ?]|]. }
  rewrite Heq. assert (Hp : holds G (parse_uri s (req_uri r))) by (by destruct (parse_uri_set s (req_uri r)) as (a & n & g & ->)).
  set (s0 := parse_uri s (req_uri r)) in *. clearbody s0. cbv zeta.
  change (is_authenticated (set_publisher s0 true) r "pub") with (is_authenticated s0 r "pub").
  destruct (is_authenticated s0 r "pub"); cbn [negb]; [|by apply reject_within].
  assert (Hg : holds ([stream_id s0] ++ G) s0) by (eapply holds_mono; [|exact Hp]; intros; by apply list_elem_of_further).
  assert (Hid : stream_id s0 ∈ [stream_id s0] ++ G) by apply list_elem_of_here. set (G' := [stream_id s0] ++ G) in *. clearbody G'.
  destruct Hg as (H1 & H2 & H3). destruct (parse_session_sdp _) as [i| | |]; [|by split..].
  match goal with |- context [send_response w ?x ?y] => assert (Hx : holds G' x) by (split_and!; cbn; [by intros ? [= <-]|done|done]); pose proof (send_within G' w x y Hx) as Hs;
    pose proof (send_response_state w x y) as He; destruct (send_response w x y) as [[s2 a2] st2] end.
  cbn [fst] in He. subst s2. destruct Hs as [Hs1 Hs2]. split; [exact Hs1|]. constructor; [exact Hid|exact Hs2].
Qed.

Lemma record_within G w s : holds G s -> within G (handle_record w s).
Proof.
  intros Hh. unfold handle_record. apply after_within; [by apply send_within|]. intros s' Hs'. pose proof Hs' as (H1 & H2 & H3). destruct (negb _); [by split|].
  destruct (source s') as [id|] eqn:Es; [|split; [exact Hs'|constructor]].
  assert (Hv : id ∈ G) by (by apply H1).
  destruct (tcp_interleaved s'), (udp_video s'), (udp_audio s'); (split; [split_and!; cbn; [rewrite ?Es; by intros ? [= <-]|done|try done; by intros ? ? ? [= <- _ _]]|repeat constructor; exact Hv]).
Qed.

Lemma cleanup_within G s : holds G s -> holds G (cleanup s).1 /\ Forall (touches G) (cleanup s).2.
Proof.
  intros (H1 & H2 & H3). split; [split_and!; done|]. unfold cleanup. cbn [snd]. destruct (is_publisher s), (play_stop s); repeat constructor.
Qed.

Lemma request_within G w s r : holds G s -> within (grants s r ++ G) (handle_request w s r).
Proof.
  intros Hh. unfold handle_request, grants. assert (Hc : holds G (set_cseq s (request_cseq r))) by exact Hh.
  assert (Hu : forall a, (let s := parse_uri s (req_uri r) in if is_authenticated s r a then [stream_id s] else []) =
    (let s := parse_uri (set_cseq s (request_cseq r)) (req_uri r) in if is_authenticated s r a then [stream_id s] else [])).
  { intros a. unfold parse_uri. by destruct (split_once _ _) as [[? ?]|]. }
  destruct (bool_decide (req_method r = str "OPTIONS")) eqn:Eo.
  { apply bool_decide_eq_true in Eo. rewrite Eo. apply send_within. exact Hh. }
  destruct (bool_decide (req_method r = str "DESCRIBE")); [rewrite Hu; by apply describe_within|].
  destruct (bool_decide (req_method r = str "SETUP")) eqn:Es.
  { apply bool_decide_eq_true in Es. rewrite Es. by apply setup_within. }
  destruct (bool_decide (req_method r = str "PLAY")).
  { pose proof (play_within G w (set_cseq s (request_cseq r)) r Hc) as Hp. cbv zeta in Hp |- *. cbn [app set_cseq] in Hp. destruct (app s) as [|x y]; [|exact Hp].
    pose proof (Hu "play"%string) as Hu'. cbv zeta in Hu'. rewrite Hu'. exact Hp. }
  destruct (bool_decide (req_method r = str "ANNOUNCE")); [rewrite Hu; by apply announce_within|].
  cbn [app]. destruct (bool_decide (req_method r = str "RECORD")); [by apply record_within|].
  destruct (bool_decide (req_method r = str "TEARDOWN")); [|by apply send_within].
  unfold handle_teardown. destruct (cleanup_within G _ Hc) as [H1 H2]. destruct (cleanup _) as [s1 a1]. cbn [fst snd] in *.
  pose proof (send_within G w s1 (ok_session s1) H1) as [Hs1 Hs2]. destruct (send_response w s1 _) as [[s2 a2] st2]. cbn [fst snd] in *.
  split; [exact Hs1|]. by apply Forall_app.
Qed.

(** What the next turn of the buffer loop gets access to. *)
Definition granted s : list StreamId :=
  if is_publisher s && tcp_interleaved s && starts_with [36] (buffer s) then [] else
  match parse_request (buffer s) with
  | Ok (Some (r, n)) => grants (set_buffer s (drop n (buffer s))) r
  | _ => []
  end.

(** The steps of a session: bytes arrive, the buffer loop makes a turn, the
    session ends. *)
Inductive session_step : RtspSession -> list StreamId -> list Action -> RtspSession -> Prop :=
| on_read s chunk : session_step s [] [] (set_buffer s (buffer s ++ chunk))
| on_process w s s' acts st : process_step w s = Some (s', acts, st) -> session_step s (granted s) acts s'
| on_end s : session_step s [] (cleanup s).2 (cleanup s).1.

(** A run from a fresh session, with the streams its requests were authorized
    for and everything it did. *)
Inductive session_trace (s0 : RtspSession) : RtspSession -> list StreamId -> list Action -> Prop :=
| trace_start : session_trace s0 s0 [] []
| trace_step s G acts g acts' s' :
    session_trace s0 s G acts -> session_step s g acts' s' -> session_trace s0 s' (g ++ G) (acts ++ acts').

Lemma process_step_within G w s r : holds G s -> process_step w s = Some r -> within (granted s ++ G) r.
Proof.
  intros Hh. unfold process_step, granted. destruct (is_publisher s && tcp_interleaved s && starts_with [36] (buffer s)).
  - destruct (next_interleaved _) as [[[c p] rest]|]; [|done]. cbn [depak set_buffer app]. destruct (depak s) as [[[id cfg] d]|] eqn:Ed.
    + assert (Hid : id ∈ G) by (destruct Hh as (_ & _ & H3); by eapply H3).
      destruct (handle_rtp cfg d c p) as [[d' fs]| | |]; intros [= <-]; [|split; [exact Hh|constructor]..].
      destruct Hh as (H1 & H2 & H3). split; [split_and!; cbn; [done|done|by intros ? ? ? [= <- _ _]]|]. destruct fs; repeat constructor. exact Hid.
    + intros [= <-]. split; [exact Hh|constructor].
  - destruct (parse_request (buffer s)) as [[[req n]|]| | |] eqn:E; [|done|intros [= <-]; split; [exact Hh|constructor]..].
    intros [= <-]. apply request_within. exact Hh.
Qed.

(** C13: a session only touches streams it was authorized for.  Along every run
    of a session, whatever the peer sends and the rest of the server answers,
    the source, recording and depacketizer it holds, and every stream it
    plays, records or publishes into, is one that an earlier request of the
    same session named and was authorized for. *)
Theorem rtsp_sources_authorized ip a sid nonce s G acts :
  session_trace (session_new ip a sid nonce) s G acts -> holds G s /\ Forall (touches G) acts.
Proof.
  induction 1 as [|s G acts g acts' s' Htr [Hh Ha] Hst]; [split; [done|constructor]|].
  assert (Hmono : forall id, id ∈ G -> id ∈ g ++ G) by (intros id Hid; apply elem_of_app; by right).
  assert (Hold : Forall (touches (g ++ G)) acts).
  { eapply Forall_impl; [exact Ha|]. intros [] Ht; cbn in *; auto. }
  destruct Hst as [s chunk|w s s' acts' st Hp|s].
  - split; [exact Hh|]. by rewrite app_nil_r.
  - destruct (process_step_within G w s _ Hh Hp) as [H1 H2]. split; [exact H1|]. by apply Forall_app.
  - destruct (cleanup_within G s Hh) as [H1 H2]. split; [exact H1|]. by apply Forall_app.
Qed.

(** ** Responses *)

Definition replies (acts : list Action) : list RtspResponse := omap (fun a => match a with Respond r => Some r | _ => None end) acts.

(** A handler that goes on has answered once, with the request's CSeq. *)
Definition answered s (r : StepResult) : Prop :=
  r.2 = Go -> exists resp, replies r.1.2 = [resp] /\ resp_headers resp !! str "CSeq" = Some (dec (cseq s)).

Definition echoes s (resp : RtspResponse) : Prop := resp_headers resp !! str "CSeq" = Some (dec (cseq s)).

Lemma echoes_reply s code why : echoes s (reply s code why).
Proof. unfold echoes, reply. cbn [resp_headers with_header]. by rewrite lookup_insert_eq. Qed.

Lemma echoes_header s r k v : k <> str "CSeq" -> echoes s r -> echoes s (with_header r k v).
Proof. intros Hk Hr. unfold echoes in *. cbn [resp_headers with_header]. by rewrite lookup_insert_ne. Qed.

Lemma echoes_ok s : echoes s (ok_session s).
Proof. apply echoes_header; [done|apply echoes_reply]. Qed.

Lemma send_answered w s s' r : connected s' = true -> write_ok w = true -> echoes s r -> answered s (send_response w s' r).
Proof. intros Hc Hw Hr _. unfold send_response. rewrite Hc, Hw. by exists r. Qed.

Lemma reject_answered w s s' : connected s' = true -> write_ok w = true -> cseq s' = cseq s -> answered s (reject w s').
Proof.
  intros Hc Hw Hq. unfold reject, auth_reject.
  set (s1 := match realm s' with Some _ => s' | None => _ end).
  assert (H1 : connected s1 = true /\ cseq s1 = cseq s) by (unfold s1; by destruct (realm s')). destruct H1 as [H1 H2]. clearbody s1.
  apply send_answered; [done|done|]. unfold echoes. rewrite <-H2. destruct (realm s1); [apply echoes_header; [done|]|]; apply echoes_reply.
Qed.

Lemma after_answered s r k :
  answered s r -> (forall s', replies (k s').1.2 = []) -> answered s (after r k).
Proof.
  destruct r as [[s1 a1] st]. intros Hr Hk. unfold answered, after in *. destruct st; [|done..]. cbn [fst snd] in *.
  specialize (Hk s1). destruct (k s1) as [[s2 a2] st2]. cbn [fst snd] in *. intros _. destruct (Hr eq_refl) as (resp & H1 & H2). exists resp. split; [|done].
  unfold replies in *. by rewrite omap_app, H1, Hk.
Qed.

Lemma send_sdp_answered w s s' v : connected s' = true -> write_ok w = true -> cseq s' = cseq s -> answered s (send_sdp w s' v).
Proof.
  intros Hc Hw Hq. unfold send_sdp. destruct (describe_sdp v); [|done..]. apply send_answered; [done|done|].
  unfold echoes. cbn [resp_headers with_body]. rewrite <-Hq. apply (echoes_header s'); [done|apply echoes_reply].
Qed.

Lemma describe_answered w s r : connected s = true -> write_ok w = true -> answered s (handle_describe w s r).
Proof.
  intros Hc Hw. unfold handle_describe. destruct (parse_uri_set s (req_uri r)) as (a & n & g & ->).
  destruct (negb _); [by apply reject_answered|]. destruct (get_or_pull w _) as [v|]; [by apply send_sdp_answered|].
  destruct (open_vod w _) as [v|]; [by apply send_sdp_answered|]. apply send_answered; [done|done|apply (echoes_reply (set_uri s a n g))].
Qed.

(** A SETUP whose transport is neither TCP nor readable. *)
Definition silent_setup (r : RtspRequest) : Prop :=
  exists t, req_headers r !! str "Transport" = Some t /\ contains (str "TCP") t || contains (str "interleaved") t = false /\ parse_udp_transport t = None.

Lemma setup_answered w s r :
  connected s = true -> write_ok w = true -> answered s (handle_setup w s r) \/ (silent_setup r /\ (handle_setup w s r).1.2 = []).
Proof.
  intros Hc Hw. unfold handle_setup. destruct (req_headers r !! str "Transport") as [t|] eqn:Et; [|left; apply send_answered; [done|done|apply echoes_reply]].
  destruct (contains (str "TCP") t || contains (str "interleaved") t) eqn:Ec.
  { left. destruct (setup_count s =? 0); (apply send_answered; [done|done|]); apply (echoes_header (set_transport s true 0 true true 0 0)); (done || apply echoes_ok). }
  destruct (parse_udp_transport t) as [[p q]|] eqn:Ep; [|right; split; [by exists t|done]].
  left. destruct (bind_udp w) as [[x y]|]; [|done]. destruct (negb _); [done|]. destruct (negb _); [done|].
  destruct (setup_count s =? 0); (apply send_answered; [done|done|]); apply (echoes_header (set_transport s true 0 true true 0 0)); (done || apply echoes_ok).
Qed.

Lemma play_answered w s r : connected s = true -> write_ok w = true -> answered s (handle_play w s r).
Proof.
  intros Hc Hw. unfold handle_play. set (s1 := match app _ with [] => _ | _ => _ end).
  assert (H1 : connected s1 = true /\ cseq s1 = cseq s).
  { unfold s1. destruct (app _); [|done]. by destruct (parse_uri_set (set_publisher s false) (req_uri r)) as (a & n & g & ->). }
  clearbody s1. destruct H1 as [H1 Q1]. destruct (negb _); [by apply reject_answered|].
  set (s2 := match source s1 with Some _ => s1 | None => _ end). assert (H2 : connected s2 = true /\ cseq s2 = cseq s) by (unfold s2; by destruct (source s1)).
  clearbody s2. destruct H2 as [H2 Q2].
  set (s3 := match source s2 with Some _ => s2 | None => _ end). assert (H3 : connected s3 = true /\ cseq s3 = cseq s) by (unfold s3; by destruct (source s2), (vod_asset s2)).
  clearbody s3. destruct H3 as [H3 Q3].
  assert (Hok : echoes s (ok_session s3)) by (unfold echoes; rewrite <-Q3; apply echoes_ok).
  destruct (vod_asset s3) as [[id v]|].
  - unfold handle_vod_play. apply after_answered; [apply send_answered; [done|done|by apply echoes_header]|].
    intros s'. by destruct (tcp_interleaved s'), (connected s'), (udp_video s').
  - destruct (source s3) as [id|]; [|apply send_answered; [done|done|unfold echoes; rewrite <-Q3; apply echoes_reply]].
    apply after_answered; [by apply send_answered|]. intros s'. unfold start_play. cbn.
    by destruct (tcp_interleaved s'), (connected s'), (udp_video s'), (play_stop s').
Qed.

Lemma announce_answered w s r : connected s = true -> write_ok w = true -> answered s (handle_announce w s r).
Proof.
  intros Hc Hw. unfold handle_announce. destruct (parse_uri_set (set_publisher s true) (req_uri r)) as (a & n & g & ->).
  destruct (negb _); [by apply reject_answered|]. destruct (parse_session_sdp _) as [i| | |]; [|done..].
  match goal with |- context [send_response w ?x ?y] => pose proof (send_answered w s x y ltac:(exact Hc) Hw ltac:(apply (echoes_ok x))) as Hs;
    destruct (send_response w x y) as [[s2 a2] st2] end.
  intros Hg. destruct (Hs Hg) as (resp & H1 & H2). by exists resp.
Qed.

Lemma record_answered w s : connected s = true -> write_ok w = true -> answered s (handle_record w s).
Proof.
  intros Hc Hw. unfold handle_record. apply after_answered; [apply send_answered; [done|done|apply echoes_ok]|].
  intros s'. destruct (negb _); [done|]. destruct (source s'); [|done]. by destruct (tcp_interleaved s'), (udp_video s'), (udp_audio s').
Qed.

Lemma teardown_answered w s : connected s = true -> write_ok w = true -> answered s (handle_teardown w s).
Proof.
  intros Hc Hw. unfold handle_teardown. cbn [cleanup].
  match goal with |- context [send_response w ?x ?y] => pose proof (send_answered w s x y ltac:(exact Hc) Hw ltac:(apply (echoes_ok x))) as Hs;
    destruct (send_response w x y) as [[s2 a2] st2] end.
  intros Hg. destruct (Hs Hg) as (resp & H1 & H2). exists resp. split; [|done]. cbn [fst snd] in *. unfold replies in *. rewrite omap_app, H1.
  by destruct (is_publisher s), (play_stop s).
Qed.

(** C28: responses.  On a working connection every request that does not end
    the session is answered exactly once, with the CSeq of the request; two
    exceptions: an unknown method is answered with CSeq 0 whatever the request
    said, and a SETUP whose Transport the server cannot read gets no answer. *)
Theorem rtsp_one_response w s r s' acts :
  connected s = true -> write_ok w = true -> handle_request w s r = (s', acts, Go) ->
  (exists resp, replies acts = [resp] /\
     (resp_headers resp !! str "CSeq" = Some (dec (request_cseq r)) \/ (status_code resp = 405 /\ resp_headers resp !! str "CSeq" = Some (str "0")))) \/
  (req_method r = str "SETUP" /\ silent_setup r /\ acts = []).
Proof.
  intros Hc Hw. unfold handle_request. set (s0 := set_cseq s (request_cseq r)). assert (Hc0 : connected s0 = true) by exact Hc.
  assert (Hans : forall h, answered s0 h -> h = (s', acts, Go) -> exists resp, replies acts = [resp] /\
    (resp_headers resp !! str "CSeq" = Some (dec (request_cseq r)) \/ (status_code resp = 405 /\ resp_headers resp !! str "CSeq" = Some (str "0")))).
  { intros h Ha ->. destruct (Ha eq_refl) as (resp & H1 & H2). exists resp. auto. }
  case_bool_decide; [intros Hh; left; refine (Hans _ _ Hh); apply send_answered; [done|done|apply echoes_header; [done|apply echoes_reply]]|].
  case_bool_decide; [intros Hh; left; refine (Hans _ _ Hh); by apply describe_answered|].
  case_bool_decide as Hm.
  { intros Hh. destruct (setup_answered w s0 r Hc0 Hw) as [Ha|[Hq Hn]]; [left; exact (Hans _ Ha Hh)|]. right. rewrite Hh in Hn. done. }
  case_bool_decide; [intros Hh; left; refine (Hans _ _ Hh); by apply play_answered|].
  case_bool_decide; [intros Hh; left; refine (Hans _ _ Hh); by apply announce_answered|].
  case_bool_decide; [intros Hh; left; refine (Hans _ _ Hh); by apply record_answered|].
  case_bool_decide; [intros Hh; left; refine (Hans _ _ Hh); by apply teardown_answered|].
  unfold send_response. rewrite Hc0, Hw. intros [= _ <-]. left. eexists. split; [reflexivity|]. right. split; [done|].
  cbn [resp_headers response_new]. by rewrite lookup_singleton_eq.
Qed.

(** ** A rejected ANNOUNCE *)

Definition is_method (r : RtspRequest) (m : string) : Prop := req_method r = str m.

Lemma rejected_announce w s r :
  connected s = true -> write_ok w = true -> is_method r "ANNOUNCE" -> is_authenticated (parse_uri s (req_uri r)) r "pub" = false ->
  exists s1 resp, handle_request w s r = (s1, [Respond resp], Go) /\ status_code resp = 401 /\
    is_publisher s1 = true /\ stream_id s1 = stream_id (parse_uri s (req_uri r)) /\ source s1 = source s /\ connected s1 = true /\
    setup_count s1 = setup_count s.
Proof.
  intros Hc Hw Hm Ha. unfold handle_request. rewrite Hm.
  rewrite !(bool_decide_false (str "ANNOUNCE" = _)) by (vm_compute; discriminate). rewrite bool_decide_true by done. unfold handle_announce.
  assert (Heq : parse_uri (set_publisher (set_cseq s (request_cseq r)) true) (req_uri r) = set_publisher (set_cseq (parse_uri s (req_uri r)) (request_cseq r)) true).
  { unfold parse_uri. by destruct (split_once _ _) as [[? ?]|]. }
  rewrite Heq. change (is_authenticated (set_publisher (set_cseq ?x ?n) true) r "pub") with (is_authenticated x r "pub"). rewrite Ha. cbn [negb].
  destruct (parse_uri_set s (req_uri r)) as (a & n & g & ->).
  match goal with |- context [reject w ?x] => destruct (reject_set w x) as (rl & resp & -> & Hst) end.
  unfold send_response. cbn [connected set_realm set_publisher set_cseq set_uri]. rewrite Hc, Hw. eexists _, resp. split; [reflexivity|]. done.
Qed.

(** C36: ANNOUNCE counts before it is authorized.  A peer whose ANNOUNCE is
    rejected has still made the session a publisher of the stream it named.
    So without any credentials it can close a stream that someone else
    publishes (ANNOUNCE, then TEARDOWN); and a peer that may only watch a
    stream can publish into it (after a DESCRIBE: ANNOUNCE, SETUP, RECORD). *)
Theorem rtsp_announce_before_auth w s r :
  connected s = true -> write_ok w = true -> is_method r "ANNOUNCE" -> is_authenticated (parse_uri s (req_uri r)) r "pub" = false ->
  exists s1 resp, handle_request w s r = (s1, [Respond resp], Go) /\ status_code resp = 401 /\
    (forall rt, is_method rt "TEARDOWN" -> exists s2 acts, handle_request w s1 rt = (s2, acts, Go) /\
       CloseStream (stream_id (parse_uri s (req_uri r))) ∈ acts /\ StreamUnPublish (stream_id (parse_uri s (req_uri r))) ∈ acts) /\
    (forall id rs rr t, source s = Some id -> is_method rs "SETUP" -> req_headers rs !! str "Transport" = Some t -> contains (str "TCP") t = true ->
       is_method rr "RECORD" ->
       exists s2 s3 acts acts' cfg d, handle_request w s1 rs = (s2, acts, Go) /\ handle_request w s2 rr = (s3, acts', Go) /\
         is_publisher s3 = true /\ tcp_interleaved s3 = true /\ depak s3 = Some (id, cfg, d)).
Proof.
  intros Hc Hw Hm Ha. destruct (rejected_announce w s r Hc Hw Hm Ha) as (s1 & resp & Hh & Hst & Hp & Hid & Hsrc & Hc1 & Hn).
  exists s1, resp. split; [done|]. split; [done|]. split.
  - intros rt Ht. unfold handle_request. rewrite Ht.
    rewrite !(bool_decide_false (str "TEARDOWN" = _)) by (vm_compute; discriminate). rewrite bool_decide_true by done.
    unfold handle_teardown, send_response. cbn [cleanup connected set_media set_playing set_source set_cseq is_publisher].
    rewrite Hc1, Hw, Hp. eexists _, _. split; [reflexivity|]. change (stream_id (set_cseq s1 _)) with (stream_id s1). rewrite Hid. split.
    + apply elem_of_app. left. apply elem_of_app. left. apply list_elem_of_further, list_elem_of_here.
    + apply elem_of_app. left. apply elem_of_app. left. apply list_elem_of_here.
  - intros id rs rr t Hs Hms Ht Htcp Hmr.
    assert (Hset : exists s2 acts, handle_request w s1 rs = (s2, acts, Go) /\ is_publisher s2 = true /\ tcp_interleaved s2 = true /\ source s2 = Some id /\ connected s2 = true).
    { unfold handle_request. rewrite Hms. rewrite !(bool_decide_false (str "SETUP" = _)) by (vm_compute; discriminate). rewrite bool_decide_true by done.
      unfold handle_setup. rewrite Ht, Htcp. cbn [orb]. unfold send_response. cbn [setup_count set_cseq set_transport].
      destruct (setup_count s1 =? 0); cbn [connected set_transport set_cseq]; rewrite Hc1, Hw; eexists _, _; (split; [reflexivity|]); cbn; rewrite Hsrc; done. }
    destruct Hset as (s2 & acts & H2 & Hp2 & Ht2 & Hs2 & Hc2). exists s2.
    unfold handle_request at 2. rewrite Hmr. rewrite !(bool_decide_false (str "RECORD" = _)) by (vm_compute; discriminate). rewrite bool_decide_true by done.
    unfold handle_record, send_response, after. cbn [connected set_cseq]. rewrite Hc2, Hw. cbn [is_publisher source tcp_interleaved set_cseq]. rewrite Hp2, Hs2, Ht2. cbn [negb].
    eexists _, acts, _, _, _. split; [exact H2|]. split; [reflexivity|]. done.
Qed.

End Facts.

(** ** Witnesses *)

Definition demo_world : World :=
  {| get_or_pull := fun _ => None; source_tracks := fun _ => []; open_vod := fun _ => None; on_rtsp_realm := None; bind_udp := None;
     socket_addr_ok := fun _ => true; vod_range := fun _ => []; write_ok := true |}.

Definition demo_request (m : string) (headers : list (bytes * bytes)) : RtspRequest :=
  {| req_method := str m; req_uri := str "rtsp://h/live/cam"; req_version := str "RTSP/1.0"; req_headers := list_to_map headers; req_body := [] |}.

Definition demo_session (a : StreamAuth) : RtspSession := session_new (str "10.0.0.1:5000") a (str "00c0ffee") (str "0123").

Lemma rtsp_announce_before_auth_witness :
  exists s1 resp s2 acts, handle_request (H := sample_primitives) demo_world (demo_session sample_auth) (demo_request "ANNOUNCE" []) = (s1, [Respond resp], Go) /\
    status_code resp = 401 /\ handle_request (H := sample_primitives) demo_world s1 (demo_request "TEARDOWN" []) = (s2, acts, Go) /\
    CloseStream (str "live", str "cam") ∈ acts.
Proof.
  destruct (rtsp_announce_before_auth (H := sample_primitives) demo_world (demo_session sample_auth) (demo_request "ANNOUNCE" [])) as (s1 & resp & H1 & H2 & H3 & _).
  - reflexivity.
  - reflexivity.
  - reflexivity.
  - vm_compute. reflexivity.
  - destruct (H3 (demo_request "TEARDOWN" []) eq_refl) as (s2 & acts & H4 & H5 & _). exists s1, resp, s2, acts.
    split; [exact H1|]. split; [exact H2|]. split; [exact H4|exact H5].
Defined.

Lemma rtsp_one_response_witness :
  exists resp s' acts, handle_request (H := sample_primitives) demo_world (demo_session sample_auth) (demo_request "OPTIONS" [(str "CSeq", str "7")]) = (s', acts, Go) /\
    replies acts = [resp] /\ resp_headers resp !! str "CSeq" = Some (dec 7).
Proof.
  destruct (handle_request (H := sample_primitives) demo_world (demo_session sample_auth) (demo_request "OPTIONS" [(str "CSeq", str "7")])) as [[s' acts] st] eqn:E.
  assert (Hst : st = Go) by (vm_compute in E; injection E as _ _ <-; reflexivity). subst st.
  destruct (rtsp_one_response (H := sample_primitives) demo_world (demo_session sample_auth) (demo_request "OPTIONS" [(str "CSeq", str "7")]) s' acts eq_refl eq_refl E)
    as [(resp & H1 & H2)|(H1 & _)]; [|discriminate].
  exists resp, s', acts. split; [reflexivity|]. split; [exact H1|]. destruct H2 as [H2|[H2 _]]; [exact H2|].
  exfalso. vm_compute in E. injection E as _ <-. vm_compute in H1. injection H1 as <-. discriminate.
Defined.

Lemma rtsp_sources_authorized_witness :
  exists s acts, session_trace (H := sample_primitives) (demo_session (auth_new false [])) s [(str "live", str "cam")] acts /\
    source s = Some (str "live", str "cam") /\ holds [(str "live", str "cam")] s.
Proof.
  set (chunk := str "ANNOUNCE rtsp://h/live/cam RTSP/1.0" ++ CRLF ++ str "CSeq: 1" ++ CRLF ++ CRLF).
  set (s1 := set_buffer (demo_session (auth_new false [])) chunk).
  destruct (process_step (H := sample_primitives) demo_world s1) as [[[s2 acts] st]|] eqn:E; [|vm_compute in E; discriminate].
  assert (Hsrc : source s2 = Some (str "live", str "cam")) by (vm_compute in E; injection E as <- _ _; reflexivity).
  assert (Ht : session_trace (H := sample_primitives) (demo_session (auth_new false [])) s2 [(str "live", str "cam")] acts).
  { assert (Hg : granted (H := sample_primitives) s1 = [(str "live", str "cam")]) by (vm_compute; reflexivity).
    pose proof (trace_step (H := sample_primitives) _ _ _ _ _ _ _ (trace_start (H := sample_primitives) _) (on_read (H := sample_primitives) (demo_session (auth_new false [])) chunk)) as T1.
    pose proof (trace_step (H := sample_primitives) _ _ _ _ _ _ _ T1 (on_process (H := sample_primitives) demo_world s1 s2 acts st E)) as T2.
    rewrite Hg in T2. exact T2. }
  exists s2, acts. split; [exact Ht|]. split; [exact Hsrc|].
  exact (proj1 (rtsp_sources_authorized (H := sample_primitives) (str "10.0.0.1:5000") (auth_new false []) (str "00c0ffee") (str "0123") s2 _ acts Ht)).
Defined.

Definition demo_track : PushTrack :=
  {| track_type := Video; channel := 0; packetizer := packetizer_new 0x52545301 96 90000 |}.

Definition demo_frame : MediaFrame := with_payload_format (new_video 0 H264 40 40 40 (annexb_enc [[0x65; 1; 2]]) true) PfAnnexB.

Lemma rtsp_push_end_to_end_witness :
  exists t' sent s' acts,
    push_frames [demo_track] [demo_frame] = Ok ([t'], sent) /\
    process_buffer (H := sample_primitives) demo_world
      (set_buffer (set_media (set_transport (set_publisher (demo_session sample_auth) true) true 1 false false 0 2) sdp_defaults
        (Some ((str "live", str "cam"), demo_config, rtp_depacketizer_new demo_params))) sent) = (s', acts, Go) /\
    length (published (str "live", str "cam") acts) = 2%nat.
Proof.
  pose proof (rtsp_push_end_to_end (H := sample_primitives) demo_world
    (set_media (set_transport (set_publisher (demo_session sample_auth) true) true 1 false false 0 2) sdp_defaults
        (Some ((str "live", str "cam"), demo_config, rtp_depacketizer_new demo_params)))
    (str "live", str "cam") demo_config (rtp_depacketizer_new demo_params) {| known := demo_params; announced := false |} demo_track [demo_frame] [[[0x65; 1; 2]]]) as H0.
  destruct (receive_stream _ _ _ _) as [st' out] eqn:E.
  destruct H0 as (t' & sent & d' & s' & acts & H1 & H2 & H3 & _).
  - left. reflexivity.
  - split; [reflexivity|]. split; [|split; reflexivity]. split; [|split]; vm_compute; (split; [discriminate|reflexivity]).
  - constructor; [|constructor]. split; [reflexivity|]. split; [reflexivity|]. split; [discriminate|]. split.
    + unfold sendable, bytes_ok, is_u8, is_u32. repeat constructor; vm_compute; try discriminate; reflexivity.
    + exists (annexb_enc [[0x65; 1; 2]]). split; vm_compute; reflexivity.
  - right. split; [reflexivity|]. left. reflexivity.
  - split_and!; reflexivity.
  - reflexivity.
  - reflexivity.
  - reflexivity.
  - exists t', sent, s', acts. split; [exact H1|]. split; [exact H2|]. rewrite H3. vm_compute in E. injection E as _ <-. reflexivity.
Defined.
