(* ===== verification/GbReorder.v ===== *)
(** * GbReorder: the reordering buffer of the RTP receiver

    [RtpReorderBuffer] of [srt/src/gb28181/rtp_server.rs] with the counters of
    [RtpStats].  The buffer works on 16-bit sequence numbers; [Window] is the
    same discipline on the positions of the packets in the stream, and the
    theorems relate the two: no wrap-around is ever confused, and packets that
    are displaced a little come out in the order they were sent. *)

From S2P Require Import Prelude Frame.
From stdpp Require Import sorting.
#[local] Open Scope Z_scope.

(** The counters wrap at 64 bits. *)
Record RtpStats : Type := {
  st_bytes : Z;
  st_packets : Z;
  lost_packets : Z;
  duplicate_packets : Z;
  reordered_packets : Z;
  st_ssrc : Z;
  last_recv : option Z
}.

Definition stats_new : RtpStats :=
  {| st_bytes := 0; st_packets := 0; lost_packets := 0; duplicate_packets := 0; reordered_packets := 0; st_ssrc := 0; last_recv := None |}.

Definition count_received (s : RtpStats) (n now : Z) : RtpStats :=
  {| st_bytes := u64 (st_bytes s + n); st_packets := u64 (st_packets s + 1); lost_packets := lost_packets s;
     duplicate_packets := duplicate_packets s; reordered_packets := reordered_packets s; st_ssrc := st_ssrc s; last_recv := Some now |}.
Definition count_lost (s : RtpStats) (n : Z) : RtpStats :=
  {| st_bytes := st_bytes s; st_packets := st_packets s; lost_packets := u64 (lost_packets s + n);
     duplicate_packets := duplicate_packets s; reordered_packets := reordered_packets s; st_ssrc := st_ssrc s; last_recv := last_recv s |}.
Definition count_duplicate (s : RtpStats) : RtpStats :=
  {| st_bytes := st_bytes s; st_packets := st_packets s; lost_packets := lost_packets s;
     duplicate_packets := u64 (duplicate_packets s + 1); reordered_packets := reordered_packets s; st_ssrc := st_ssrc s; last_recv := last_recv s |}.
Definition count_reordered (s : RtpStats) : RtpStats :=
  {| st_bytes := st_bytes s; st_packets := st_packets s; lost_packets := lost_packets s;
     duplicate_packets := duplicate_packets s; reordered_packets := u64 (reordered_packets s + 1); st_ssrc := st_ssrc s; last_recv := last_recv s |}.
Definition set_ssrc (s : RtpStats) (ssrc : Z) : RtpStats :=
  {| st_bytes := st_bytes s; st_packets := st_packets s; lost_packets := lost_packets s;
     duplicate_packets := duplicate_packets s; reordered_packets := reordered_packets s; st_ssrc := ssrc; last_recv := last_recv s |}.

(** ** The reordering buffer *)

Record RtpReorderBuffer : Type := {
  expected : option Z;
  pending : gmap Z (bytes * Z);                    (* packet and arrival time *)
  window : Z;
  max_delay : Z
}.

Definition reorder_new : RtpReorderBuffer := {| expected := None; pending := ∅; window := 64; max_delay := 50 |}.

Definition set_expected (b : RtpReorderBuffer) (e : Z) : RtpReorderBuffer :=
  {| expected := Some e; pending := pending b; window := window b; max_delay := max_delay b |}.
Definition set_pending (b : RtpReorderBuffer) (p : gmap Z (bytes * Z)) : RtpReorderBuffer :=
  {| expected := expected b; pending := p; window := window b; max_delay := max_delay b |}.

(** [wrapping_sub] *)
Definition distance (sequence from : Z) : Z := u16 (sequence - from).

(** Each turn removes a pending packet. *)
Fixpoint drain_fuel (fuel : nat) (b : RtpReorderBuffer) (ready : list bytes) : RtpReorderBuffer * list bytes :=
  match fuel with
  | O => (b, ready)
  | S fuel =>
      match expected b with
      | None => (b, ready)
      | Some e =>
          match pending b !! e with
          | None => (b, ready)
          | Some (packet, _) => drain_fuel fuel (set_expected (set_pending b (delete e (pending b))) (u16 (e + 1))) (ready ++ [packet])
          end
      end
  end.

Definition drain_ready (b : RtpReorderBuffer) (ready : list bytes) : RtpReorderBuffer * list bytes :=
  drain_fuel (S (size (pending b))) b ready.

(** The pending packet that is next after [e]. *)
Definition nearest (e : Z) (keys : list Z) : option Z :=
  foldr (fun s best =>
           match best with
           | Some t => if distance s e <=? distance t e then Some s else Some t
           | None => Some s
           end) None (List.filter (fun s => distance s e <? 0x8000) keys).

Definition skip_gap (b : RtpReorderBuffer) (stats : RtpStats) : result (RtpReorderBuffer * RtpStats * list bytes) :=
  match expected b with
  | None => Panic
  | Some e =>
      match nearest e (map_to_list (pending b)).*1 with
      | None => Ok (b, stats, [])
      | Some n =>
          let '(b, ready) := drain_ready (set_expected b n) [] in
          Ok (b, count_lost stats (distance n e), ready)
      end
  end.

(** [push] behind the length test. *)
Definition push_sequenced (b : RtpReorderBuffer) (stats : RtpStats) (packet : bytes) (now sequence : Z) :
    result (RtpReorderBuffer * RtpStats * list bytes) :=
  match expected b with
  | None => Ok (set_expected b (u16 (sequence + 1)), stats, [packet])
  | Some e =>
      let d := distance sequence e in
      if d =? 0 then
        let '(b, ready) := drain_ready (set_expected b (u16 (e + 1))) [packet] in Ok (b, stats, ready)
      else if (0x8000 <=? d) || bool_decide (is_Some (pending b !! sequence)) then Ok (b, count_duplicate stats, [])
      else
        let stats := count_reordered stats in
        let b := set_pending b (<[sequence := (packet, now)]> (pending b)) in
        let timed_out := existsb (fun p : Z * (bytes * Z) => max_delay b <=? now - p.2.2) (map_to_list (pending b)) in
        if (window b <=? d) || timed_out || (window b <=? Z.of_nat (size (pending b)))
        then skip_gap b stats
        else Ok (b, stats, [])
  end.

Definition reorder_push (b : RtpReorderBuffer) (stats : RtpStats) (packet : bytes) (now : Z) :
    result (RtpReorderBuffer * RtpStats * list bytes) :=
  if (length packet <? 4)%nat then Ok (b, stats, []) else
  s2 ← idx packet 2;
  s3 ← idx packet 3;
  push_sequenced b stats packet now (from_be [s2; s3]).

(** Packets with their arrival times, one after the other. *)
Fixpoint push_all (b : RtpReorderBuffer) (stats : RtpStats) (l : list (bytes * Z)) :
    result (RtpReorderBuffer * RtpStats * list bytes) :=
  match l with
  | [] => Ok (b, stats, [])
  | (packet, now) :: l =>
      '(b, stats, out) ← reorder_push b stats packet now;
      '(b, stats, outs) ← push_all b stats l;
      Ok (b, stats, out ++ outs)
  end.

(** ** The specification

    Positions instead of sequence numbers: [next] is the position expected,
    [held] the positions waiting with their arrival times. *)

Record Window : Type := { next : nat; held : gmap nat Z; lost : nat; dups : nat }.

Definition window_new : Window := {| next := 1; held := ∅; lost := 0; dups := 0 |}.

Fixpoint release_fuel (fuel : nat) (k : nat) (p : gmap nat Z) : nat * gmap nat Z * list nat :=
  match fuel with
  | O => (k, p, [])
  | S fuel =>
      match p !! k with
      | None => (k, p, [])
      | Some _ => let '(k', p', out) := release_fuel fuel (S k) (delete k p) in (k', p', k :: out)
      end
  end.

Definition release (k : nat) (p : gmap nat Z) : nat * gmap nat Z * list nat := release_fuel (S (size p)) k p.

Definition first_held (keys : list nat) : option nat :=
  foldr (fun j best => match best with Some k => Some (j `min` k)%nat | None => Some j end) None keys.

Definition late (now : Z) (p : gmap nat Z) : bool := existsb (fun q : nat * Z => 50 <=? now - q.2) (map_to_list p).

Definition place (w : Window) (i : nat) (t : Z) : Window * list nat :=
  if (i =? next w)%nat then
    let '(k, p, out) := release (S i) (held w) in
    ({| next := k; held := p; lost := lost w; dups := dups w |}, i :: out)
  else if (i <? next w)%nat || bool_decide (is_Some (held w !! i)) then
    ({| next := next w; held := held w; lost := lost w; dups := S (dups w) |}, [])
  else
    let p := <[i := t]> (held w) in
    if (64 <=? i - next w)%nat || late t p || (64 <=? size p)%nat then
      let n := default i (first_held (map_to_list p).*1) in
      let '(k, p', out) := release n p in
      ({| next := k; held := p'; lost := lost w + (n - next w); dups := dups w |}, out)
    else ({| next := next w; held := p; lost := lost w; dups := dups w |}, []).

Fixpoint place_all (w : Window) (l : list (nat * Z)) : Window * list nat :=
  match l with
  | [] => (w, [])
  | (i, t) :: l =>
      let '(w, out) := place w i t in
      let '(w, outs) := place_all w l in
      (w, out ++ outs)
  end.

(** Every packet arrives within half the sequence space of the one expected. *)
Definition near (w : Window) (i : nat) : bool := bool_decide (Z.of_nat (next w) - 32768 <= Z.of_nat i < Z.of_nat (next w) + 32768).

Fixpoint all_near (w : Window) (l : list (nat * Z)) : bool :=
  match l with
  | [] => true
  | (i, t) :: l => near w i && all_near (place w i t).1 l
  end.

(** ** Releasing *)

Lemma release_fuel_spec fuel k p :
  (size p < fuel)%nat -> (forall j, is_Some (p !! j) -> k <= j)%nat ->
  exists k' p', release_fuel fuel k p = (k', p', seq k (k' - k)) /\ (k <= k')%nat /\ (size p' + (k' - k) = size p)%nat /\
    (forall j, p' !! j = if (j <? k')%nat then None else p !! j) /\ p' !! k' = None /\ (forall j, k <= j < k' -> is_Some (p !! j))%nat.
Proof.
  revert k p. induction fuel as [|fuel IH]; intros k p Hf Hk; [lia|]. cbn [release_fuel].
  destruct (p !! k) as [t|] eqn:Hp.
  - pose proof (map_size_delete k p) as Hs. rewrite Hp in Hs. cbn in Hs.
    assert (size p <> 0)%nat as H0 by (intros H0%map_size_empty_inv; subst; done).
    destruct (IH (S k) (delete k p)) as (k' & p' & -> & H1 & H2 & H3 & H4 & H5); [lia| |].
    { intros j Hj. assert (j <> k) by (intros ->; rewrite lookup_delete_eq in Hj; by destruct Hj).
      rewrite lookup_delete_ne in Hj by done. specialize (Hk j Hj). lia. }
    exists k', p'. split_and!; [|lia|lia| |done|].
    + replace (k' - k)%nat with (S (k' - S k)) by lia. done.
    + intros j. rewrite H3. destruct (Nat.ltb_spec j k'); [done|]. by rewrite lookup_delete_ne by lia.
    + intros j Hj. destruct (decide (j = k)) as [->|]; [by eexists|]. specialize (H5 j ltac:(lia)).
      by rewrite lookup_delete_ne in H5 by done.
  - exists k, p. rewrite Nat.sub_diag. split_and!; [done|lia|lia| |done|lia].
    intros j. destruct (Nat.ltb_spec j k); [|done]. apply eq_None_not_Some. intros Hj%Hk. lia.
Qed.

Lemma release_spec k p :
  (forall j, is_Some (p !! j) -> k <= j)%nat ->
  exists k' p', release k p = (k', p', seq k (k' - k)) /\ (k <= k')%nat /\ (size p' + (k' - k) = size p)%nat /\
    (forall j, p' !! j = if (j <? k')%nat then None else p !! j) /\ p' !! k' = None /\ (forall j, k <= j < k' -> is_Some (p !! j))%nat.
Proof. intros. apply release_fuel_spec; [lia|done]. Qed.

Lemma first_held_spec keys :
  match first_held keys with
  | Some n => n ∈ keys /\ forall j, j ∈ keys -> (n <= j)%nat
  | None => keys = []
  end.
Proof.
  induction keys as [|a keys IH]; [done|]. cbn [first_held foldr]. fold (first_held keys).
  destruct (first_held keys) as [k|].
  - destruct IH as [H1 H2]. split.
    + destruct (Nat.min_spec a k) as [[_ ->]|[_ ->]]; [by left|by right].
    + intros j [->|Hj]%elem_of_cons; [lia|]. specialize (H2 j Hj). lia.
  - subst. split; [by left|]. intros j [->|Hj]%elem_of_cons; [lia|]. by apply not_elem_of_nil in Hj.
Qed.

(** ** The specification delivers in order and loses nothing silently *)

Definition window_inv (w : Window) : Prop :=
  (forall j, is_Some (held w !! j) -> (next w < j)%nat) /\ (size (held w) < 64)%nat.

(** What one arrival does: it releases a run of consecutive positions, those
    skipped are counted, and every packet is released, held or counted. *)
Definition placed (w : Window) (i : nat) (w' : Window) (out : list nat) : Prop :=
  exists a, out = seq a (next w' - a) /\ (next w <= a <= next w')%nat /\ lost w' = (lost w + (a - next w))%nat /\
    (size (held w') + length out + dups w' = size (held w) + dups w + 1)%nat /\
    (forall j, j ∈ out \/ is_Some (held w' !! j) -> j = i \/ is_Some (held w !! j)).

Lemma place_spec w i t w' out :
  window_inv w -> place w i t = (w', out) -> window_inv w' /\ placed w i w' out.
Proof.
  intros [Hi Hs]. unfold place. destruct (Nat.eqb_spec i (next w)) as [->|Hne].
  { destruct (release_spec (S (next w)) (held w) Hi) as (k & p & -> & H1 & H2 & H3 & H4 & H5). intros [= <- <-].
    split; [split; cbn [held next]; [|lia]|].
    - intros j. rewrite H3. destruct (Nat.ltb_spec j k); [by intros []|]. intros Hj.
      assert (j <> k) by (intros ->; rewrite H3, (proj2 (Nat.ltb_ge k k)) in H4 by lia; rewrite H4 in Hj; by destruct Hj). lia.
    - exists (next w). cbn [next held lost dups]. replace (k - next w)%nat with (S (k - S (next w))) by lia.
      split_and!; [done|lia|lia|lia| |].
      + cbn [length]. rewrite length_seq. lia.
      + intros j [[->|Hj%elem_of_seq]%elem_of_cons|Hj]; [by left|right; apply H5; lia|].
        rewrite H3 in Hj. destruct (Nat.ltb_spec j k); [by destruct Hj|by right]. }
  case_bool_decide as Hheld; rewrite ?orb_true_r, ?orb_false_r.
  { intros [= <- <-]. split; [done|]. exists (next w). cbn. rewrite Nat.sub_diag. split_and!; [done|lia..|].
    intros j [Hj%not_elem_of_nil|Hj]; [done|by right]. }
  destruct (Nat.ltb_spec i (next w)) as [Hlt|Hge].
  { intros [= <- <-]. split; [done|]. exists (next w). cbn. rewrite Nat.sub_diag. split_and!; [done|lia..|].
    intros j [Hj%not_elem_of_nil|Hj]; [done|by right]. }
  set (p := <[i := t]> (held w)).
  assert (forall j, is_Some (p !! j) -> j = i \/ is_Some (held w !! j)) as Hp.
  { intros j Hj. destruct (decide (j = i)); [by left|right]. unfold p in Hj. by rewrite lookup_insert_ne in Hj. }
  assert (forall j, is_Some (p !! j) -> (next w < j)%nat) as Hpn by (intros j [->|Hj]%Hp; [lia|by apply Hi]).
  assert (size p = S (size (held w))) as Hps by (apply map_size_insert_None; by apply eq_None_not_Some).
  destruct (_ || _ || _) eqn:Hskip.
  - pose proof (first_held_spec (map_to_list p).*1) as Hf.
    assert (forall j, j ∈ (map_to_list p).*1 <-> is_Some (p !! j)) as Hk.
    { intros j. rewrite list_elem_of_fmap. split; [intros ([j' x] & -> & Hx%elem_of_map_to_list); by exists x|].
      intros [x Hx]. exists (j, x). split; [done|]. by apply elem_of_map_to_list. }
    assert (is_Some (p !! i)) as Hpi by (unfold p; rewrite lookup_insert_eq; by eexists).
    destruct (first_held _) as [n|]; cbn [default from_option];
      [|apply Hk in Hpi; rewrite Hf in Hpi; by apply not_elem_of_nil in Hpi].
    destruct Hf as [Hn Hmin]. unfold Datatypes.id. apply Hk in Hn. setoid_rewrite Hk in Hmin.
    destruct (release_spec n p Hmin) as (k & p' & -> & H1 & H2 & H3 & H4 & H5). intros [= <- <-].
    assert (n < k)%nat as Hnk.
    { destruct (decide (k = n)) as [->|]; [|lia]. rewrite H3, (proj2 (Nat.ltb_ge n n)) in H4 by lia. rewrite H4 in Hn. by destruct Hn. }
    pose proof (Hpn n Hn). split; [split; cbn [held next]; [|lia]|].
    + intros j Hj. assert (j <> k) by (intros ->; rewrite H4 in Hj; by destruct Hj). rewrite H3 in Hj.
      destruct (Nat.ltb_spec j k); [by destruct Hj|lia].
    + exists n. cbn [next held lost dups]. split_and!; [done|lia|lia|lia| |].
      * rewrite length_seq. lia.
      * intros j [Hj%elem_of_seq|Hj]; [apply Hp, H5; lia|]. rewrite H3 in Hj. destruct (j <? k)%nat; [by destruct Hj|by apply Hp].
  - apply orb_false_iff in Hskip as [_ Hsz%Nat.leb_gt]. intros [= <- <-].
    split; [split; cbn [held next]; [done|fold p; lia]|]. exists (next w). cbn [next held lost dups length]. rewrite Nat.sub_diag.
    split_and!; [done|lia|lia|lia|fold p; lia|]. intros j [Hj%not_elem_of_nil|Hj]; [done|by apply Hp].
Qed.

Lemma sorted_seq a n : StronglySorted lt (seq a n).
Proof.
  revert a. induction n as [|n IH]; intros a; [constructor|]. cbn [seq]. constructor; [apply IH|].
  apply Forall_forall. intros j Hj%elem_of_seq. lia.
Qed.

Lemma sorted_app (l l' : list nat) :
  StronglySorted lt l -> StronglySorted lt l' -> (forall x y, x ∈ l -> y ∈ l' -> x < y)%nat -> StronglySorted lt (l ++ l').
Proof.
  induction 1 as [|x l Hl IH Hx]; intros Hl' H; [done|]. cbn [app]. constructor.
  - apply IH; [done|]. intros y z ??. apply H; [by right|done].
  - apply Forall_app. split; [done|]. apply Forall_forall. intros y Hy. apply H; [by left|done].
Qed.

Lemma place_all_spec w l w' out :
  window_inv w -> place_all w l = (w', out) ->
  window_inv w' /\ StronglySorted lt out /\ (next w <= next w')%nat /\ (forall j, j ∈ out -> next w <= j < next w')%nat /\
  (next w + length out + (lost w' - lost w) = next w')%nat /\ (lost w <= lost w')%nat /\
  (size (held w') + length out + dups w' = size (held w) + dups w + length l)%nat /\
  (forall j, j ∈ out \/ is_Some (held w' !! j) -> j ∈ l.*1 \/ is_Some (held w !! j)).
Proof.
  revert w w' out. induction l as [|[i t] l IH]; intros w w' out Hw.
  { intros [= <- <-]. cbn. split_and!; [done|constructor|lia|by intros ? ?%not_elem_of_nil|lia..|].
    intros j [Hj%not_elem_of_nil|Hj]; [done|by right]. }
  cbn [place_all]. destruct (place w i t) as [w1 o1] eqn:E1. destruct (place_all w1 l) as [w2 o2] eqn:E2. intros [= <- <-].
  destruct (place_spec _ _ _ _ _ Hw E1) as [Hw1 (a & -> & Ha & Hl & Hs & Hm)].
  destruct (IH _ _ _ Hw1 E2) as (Hw2 & Ho & Hn & Hr & Hc & Hll & Hs2 & Hm2).
  rewrite length_app, length_seq in *. split_and!; [done| |lia| |lia|lia|cbn [length]; lia|].
  - apply sorted_app; [apply sorted_seq|done|]. intros x y Hx%elem_of_seq Hy%Hr. lia.
  - intros j [Hj%elem_of_seq|Hj%Hr]%elem_of_app; lia.
  - intros j Hj. cbn [fmap list_fmap fst]. rewrite elem_of_cons.
    assert (j ∈ seq a (next w1 - a) \/ is_Some (held w1 !! j) -> (j = i \/ j ∈ l.*1) \/ is_Some (held w !! j)) as H1.
    { intros [->|H]%Hm; [by left; left|by right]. }
    destruct Hj as [[Hj|Hj]%elem_of_app|Hj].
    + apply H1. by left.
    + destruct (Hm2 j (or_introl Hj)); [by left; right|apply H1; by right].
    + destruct (Hm2 j (or_intror Hj)); [by left; right|apply H1; by right].
Qed.

(** ** Sequence numbers *)

Definition sequence_of (packet : bytes) : option Z :=
  match packet with _ :: _ :: s2 :: s3 :: _ => Some (from_be [s2; s3]) | _ => None end.

Lemma push_sequence b stats packet now s :
  sequence_of packet = Some s -> reorder_push b stats packet now = push_sequenced b stats packet now s.
Proof. destruct packet as [|x0 [|x1 [|s2 [|s3 packet]]]]; try done. by intros [= <-]. Qed.

Lemma existsb_perm {A} (f : A -> bool) l l' : l ≡ₚ l' -> existsb f l = existsb f l'.
Proof. induction 1; cbn; [done|congruence|by rewrite !orb_assoc, (orb_comm (f y))|congruence]. Qed.

Lemma existsb_fmap {A B} (f : B -> bool) (g : A -> B) l : existsb f (g <$> l) = existsb (fun x => f (g x)) l.
Proof. induction l as [|x l IH]; cbn; [done|by rewrite <-IH]. Qed.

Lemma nearest_spec e keys :
  match nearest e keys with
  | Some n => n ∈ keys /\ distance n e < 0x8000 /\ forall s, s ∈ keys -> distance s e < 0x8000 -> distance n e <= distance s e
  | None => forall s, s ∈ keys -> ~ distance s e < 0x8000
  end.
Proof.
  unfold nearest. induction keys as [|a keys IH]; [by intros ? ?%not_elem_of_nil|]. cbn [List.filter].
  destruct (Z.ltb_spec (distance a e) 0x8000) as [Ha|Ha]; cbn [foldr].
  - destruct (foldr _ None _) as [n|].
    + destruct IH as (H1 & H2 & H3). destruct (Z.leb_spec (distance a e) (distance n e)).
      * split; [by left|]. split; [done|]. intros s [->|Hs]%elem_of_cons Hd; [lia|]. specialize (H3 s Hs Hd). lia.
      * split; [by right|]. split; [done|]. intros s [->|Hs]%elem_of_cons Hd; [lia|]. by apply H3.
    + split; [by left|]. split; [done|]. intros s [->|Hs]%elem_of_cons Hd; [lia|]. by destruct (IH s Hs).
  - destruct (foldr _ None _) as [n|].
    + destruct IH as (H1 & H2 & H3). split; [by right|]. split; [done|]. intros s [->|Hs]%elem_of_cons Hd; [lia|]. by apply H3.
    + intros s [->|Hs]%elem_of_cons; [lia|]. by apply IH.
Qed.

(** ** Refinement *)

Section stream.
(** The packets of a stream, numbered from [s0] on. *)
Context (s0 : Z) (pk : nat -> bytes).

Definition sq (i : nat) : Z := u16 (s0 + Z.of_nat i).

Definition numbered (i : nat) : Prop := sequence_of (pk i) = Some (sq i).

Lemma sq_S i : u16 (sq i + 1) = sq (S i).
Proof. unfold sq, u16. rewrite Z.add_mod_idemp_l by done. f_equal. lia. Qed.

Lemma distance_sq i k : distance (sq i) (sq k) = (Z.of_nat i - Z.of_nat k) mod 2 ^ 16.
Proof. unfold distance, sq, u16. rewrite <-Zminus_mod. f_equal. lia. Qed.

Lemma distance_ahead i k : (k <= i)%nat -> Z.of_nat i < Z.of_nat k + 65536 -> distance (sq i) (sq k) = Z.of_nat i - Z.of_nat k.
Proof. intros. rewrite distance_sq. change (2 ^ 16) with 65536. apply Z.mod_small. lia. Qed.

Lemma distance_behind i k : (i < k)%nat -> Z.of_nat k <= Z.of_nat i + 65536 -> distance (sq i) (sq k) = Z.of_nat i - Z.of_nat k + 65536.
Proof.
  intros. rewrite distance_sq. change (2 ^ 16) with 65536.
  symmetry. apply (Z.mod_unique _ _ (-1)); lia.
Qed.

(** The positions held are within half the sequence space. *)
Definition in_range (k : nat) (p : gmap nat Z) : Prop :=
  forall j, is_Some (p !! j) -> (k <= j)%nat /\ Z.of_nat j < Z.of_nat k + 32768.

Lemma sq_inj k i j :
  (k <= i)%nat /\ Z.of_nat i < Z.of_nat k + 32768 -> (k <= j)%nat /\ Z.of_nat j < Z.of_nat k + 32768 -> sq i = sq j -> i = j.
Proof.
  intros Hi Hj H. assert (distance (sq i) (sq k) = distance (sq j) (sq k)) as Hd by (by rewrite H).
  rewrite !distance_ahead in Hd by lia. lia.
Qed.

(** The buffer's map of the packets held. *)
Definition entry (q : nat * Z) : Z * (bytes * Z) := (sq q.1, (pk q.1, q.2)).

Definition conc (p : gmap nat Z) : gmap Z (bytes * Z) := list_to_map (entry <$> map_to_list p).

Lemma conc_nodup k p : in_range k p -> NoDup (entry <$> map_to_list p).*1.
Proof.
  intros Hr. assert ((entry <$> map_to_list p).*1 = sq <$> (map_to_list p).*1) as -> by (by rewrite <-!list_fmap_compose).
  apply NoDup_fmap_2_strong; [|apply NoDup_fst_map_to_list]. intros i j Hi Hj.
  assert (forall x, x ∈ (map_to_list p).*1 -> is_Some (p !! x)) as H.
  { intros x ([x' t] & -> & Hx%elem_of_map_to_list)%list_elem_of_fmap. by exists t. }
  apply (sq_inj k); by apply Hr, H.
Qed.

Lemma conc_perm k p : in_range k p -> map_to_list (conc p) ≡ₚ entry <$> map_to_list p.
Proof. intros Hr. by apply map_to_list_to_map, (conc_nodup k). Qed.

Lemma conc_size k p : in_range k p -> size (conc p) = size p.
Proof.
  intros Hr. rewrite <-(length_map_to_list (conc p)), (conc_perm k p Hr), length_fmap. apply length_map_to_list.
Qed.

Lemma conc_lookup k p i :
  in_range k p -> (k <= i)%nat /\ Z.of_nat i < Z.of_nat k + 32768 -> conc p !! sq i = (fun t => (pk i, t)) <$> p !! i.
Proof.
  intros Hr Hi. apply option_eq. intros v. rewrite <-elem_of_map_to_list, (conc_perm k p Hr), list_elem_of_fmap. split.
  - intros ([j t] & He & Hj%elem_of_map_to_list). injection He as Hsq ->. cbn [fst snd] in *.
    assert (j = i) as -> by (apply (sq_inj k); [by apply Hr|done..]). rewrite Hj. done.
  - intros (t & Ht & ->)%fmap_Some. exists (i, t). split; [done|]. by apply elem_of_map_to_list.
Qed.

Lemma conc_insert k p i t :
  in_range k (<[i := t]> p) -> p !! i = None -> conc (<[i := t]> p) = <[sq i := (pk i, t)]> (conc p).
Proof.
  intros Hr Hi. unfold conc. change (<[sq i := (pk i, t)]> (list_to_map (entry <$> map_to_list p)))
    with (list_to_map (M := gmap Z (bytes * Z)) (entry <$> ((i, t) :: map_to_list p))).
  apply list_to_map_proper; [by apply (conc_nodup k)|]. by rewrite map_to_list_insert.
Qed.

Lemma in_range_delete k p i : in_range k p -> in_range k (delete i p).
Proof.
  intros Hr j Hj. apply Hr. destruct (decide (j = i)) as [->|]; [|by rewrite lookup_delete_ne in Hj].
  rewrite lookup_delete_eq in Hj. by destruct Hj.
Qed.

Lemma conc_delete k p i t : in_range k p -> p !! i = Some t -> conc (delete i p) = delete (sq i) (conc p).
Proof.
  intros Hr Hi. rewrite <-(insert_id p i t) at 2 by done. rewrite <-insert_delete_eq.
  assert (in_range k (<[i := t]> (delete i p))) by (by rewrite insert_delete_eq, insert_id).
  rewrite (conc_insert k) by (done || apply lookup_delete_eq). rewrite delete_insert_id; [done|].
  rewrite (conc_lookup k), lookup_delete_eq; [done|by apply in_range_delete|by apply Hr].
Qed.

Definition buffer_of (w : Window) : RtpReorderBuffer :=
  {| expected := Some (sq (next w)); pending := conc (held w); window := 64; max_delay := 50 |}.

Lemma drain_release fuel k p (l d : nat) ready :
  in_range k p ->
  drain_fuel fuel (buffer_of {| next := k; held := p; lost := l; dups := d |}) ready =
  (buffer_of {| next := (release_fuel fuel k p).1.1; held := (release_fuel fuel k p).1.2; lost := l; dups := d |},
   ready ++ (pk <$> (release_fuel fuel k p).2)).
Proof.
  revert k p ready. induction fuel as [|fuel IH]; intros k p ready Hr; [cbn; by rewrite app_nil_r|].
  cbn [drain_fuel release_fuel buffer_of expected pending next held].
  rewrite (conc_lookup k) by (done || lia). destruct (p !! k) as [t|] eqn:Hk; cbn [fmap option_fmap option_map];
    [|cbn; by rewrite app_nil_r].
  rewrite <-(conc_delete k p k t) by done. rewrite sq_S.
  assert (in_range (S k) (delete k p)) as Hr'.
  { intros j Hj. assert (j <> k) by (intros ->; rewrite lookup_delete_eq in Hj; by destruct Hj).
    destruct (in_range_delete k p k Hr j Hj). lia. }
  etrans; [apply (IH (S k) (delete k p) _ Hr')|].
  destruct (release_fuel fuel (S k) (delete k p)) as [[k' p'] out]. cbn [fst snd]. by rewrite <-app_assoc.
Qed.

Lemma drain_ready_release k p (l d : nat) ready k' p' out :
  in_range k p -> release k p = (k', p', out) ->
  drain_ready (buffer_of {| next := k; held := p; lost := l; dups := d |}) ready =
  (buffer_of {| next := k'; held := p'; lost := l; dups := d |}, ready ++ (pk <$> out)).
Proof.
  intros Hr He. unfold drain_ready. rewrite drain_release by done. cbn [buffer_of pending held].
  rewrite (conc_size k p Hr). fold (release k p). by rewrite He.
Qed.

Lemma nearest_first k p :
  in_range k p -> nearest (sq k) (map_to_list (conc p)).*1 = sq <$> first_held (map_to_list p).*1.
Proof.
  intros Hr.
  assert (forall s, s ∈ (map_to_list (conc p)).*1 <-> exists j, s = sq j /\ j ∈ (map_to_list p).*1) as Hs.
  { intros s. rewrite (conc_perm k p Hr), <-list_fmap_compose, list_elem_of_fmap. split.
    - intros (q & -> & Hq). exists q.1. split; [done|]. apply list_elem_of_fmap. by exists q.
    - intros (j & -> & (q & -> & Hq)%list_elem_of_fmap). by exists q. }
  assert (forall j, j ∈ (map_to_list p).*1 -> (k <= j)%nat /\ Z.of_nat j < Z.of_nat k + 32768) as Hj.
  { intros j ([j' t] & -> & Ht%elem_of_map_to_list)%list_elem_of_fmap. apply Hr. by exists t. }
  pose proof (nearest_spec (sq k) (map_to_list (conc p)).*1) as Hn.
  pose proof (first_held_spec (map_to_list p).*1) as Hf.
  destruct (first_held _) as [m|]; cbn [fmap option_fmap option_map].
  - destruct Hf as [Hm Hmin]. pose proof (Hj m Hm). destruct (nearest _ _) as [n|].
    + destruct Hn as ((j & -> & Hjn)%Hs & Hd & Hbest). pose proof (Hj j Hjn). pose proof (Hmin j Hjn).
      specialize (Hbest (sq m) ltac:(apply Hs; by exists m)). rewrite !distance_ahead in Hbest by lia.
      assert (j = m) by lia. by subst.
    + destruct (Hn (sq m)); [apply Hs; by exists m|]. rewrite distance_ahead by lia. lia.
  - destruct (nearest _ _) as [n|]; [|done]. destruct Hn as ((j & _ & Hjn)%Hs & _). rewrite Hf in Hjn. by apply not_elem_of_nil in Hjn.
Qed.

Lemma late_conc k p now :
  in_range k p -> existsb (fun q : Z * (bytes * Z) => 50 <=? now - q.2.2) (map_to_list (conc p)) = late now p.
Proof. intros Hr. rewrite (existsb_perm _ _ _ (conc_perm k p Hr)), existsb_fmap. done. Qed.

(** The counters after the arrivals that led to a window. *)
Definition counts (w : Window) (stats : RtpStats) : Prop :=
  lost_packets stats = u64 (Z.of_nat (lost w)) /\ duplicate_packets stats = u64 (Z.of_nat (dups w)).

Lemma u64_add (a b : Z) : u64 (u64 a + b) = u64 (a + b).
Proof. unfold u64. by rewrite Z.add_mod_idemp_l. Qed.

Lemma push_place w i t stats :
  numbered i -> window_inv w -> in_range (next w) (held w) -> near w i = true -> counts w stats ->
  exists stats', counts (place w i t).1 stats' /\
    reorder_push (buffer_of w) stats (pk i) t = Ok (buffer_of (place w i t).1, stats', pk <$> (place w i t).2).
Proof.
  intros Hpk [Hinv Hsz] Hr Hn%bool_decide_eq_true [Hl Hd].
  rewrite (push_sequence _ _ _ _ (sq i)) by done. unfold push_sequenced, place. cbn [buffer_of expected].
  destruct w as [k p l d]. cbn [next held lost dups] in *.
  destruct (Nat.eqb_spec i k) as [->|Hne].
  { rewrite distance_ahead, Z.sub_diag by lia. cbn [Z.eqb]. rewrite sq_S.
    destruct (release (S k) p) as [[k' p'] out] eqn:Hrel. exists stats. split; [done|].
    assert (in_range (S k) p) as Hr' by (intros j Hj; specialize (Hinv j Hj); destruct (Hr j Hj); lia).
    change (set_expected (buffer_of _) (sq (S k))) with (buffer_of {| next := S k; held := p; lost := l; dups := d |}).
    by rewrite (drain_ready_release _ _ _ _ _ _ _ _ Hr' Hrel). }
  destruct (Nat.ltb_spec i k) as [Hlt|Hge]; cbn [orb].
  { rewrite distance_behind by lia. destruct (Z.eqb_spec (Z.of_nat i - Z.of_nat k + 65536) 0); [lia|].
    destruct (Z.leb_spec 32768 (Z.of_nat i - Z.of_nat k + 65536)); [|lia]. cbn [orb].
    exists (count_duplicate stats). split; [|done]. split; [done|]. cbn. rewrite Hd, u64_add. f_equal. lia. }
  rewrite distance_ahead by lia. destruct (Z.eqb_spec (Z.of_nat i - Z.of_nat k) 0); [lia|].
  destruct (Z.leb_spec 32768 (Z.of_nat i - Z.of_nat k)); [lia|]. cbn [orb pending buffer_of held next].
  rewrite (conc_lookup k) by (done || lia).
  destruct (p !! i) as [t'|] eqn:Hpi; cbn [fmap option_fmap option_map].
  { rewrite !bool_decide_true by done. exists (count_duplicate stats). split; [|done]. split; [done|]. cbn.
    rewrite Hd, u64_add. f_equal. lia. }
  rewrite !bool_decide_false by (by intros [? ?]). cbn [set_pending buffer_of pending expected window max_delay].
  assert (in_range k (<[i := t]> p)) as Hri.
  { intros j Hj. destruct (decide (j = i)) as [->|]; [lia|]. rewrite lookup_insert_ne in Hj by done. by apply Hr. }
  rewrite <-(conc_insert k p i t) by done. rewrite (late_conc k), (conc_size k) by done.
  replace (64 <=? Z.of_nat i - Z.of_nat k) with (64 <=? i - k)%nat
    by (destruct (Nat.leb_spec 64 (i - k)), (Z.leb_spec 64 (Z.of_nat i - Z.of_nat k)); lia).
  replace (64 <=? Z.of_nat (size (<[i:=t]> p))) with (64 <=? size (<[i:=t]> p))%nat
    by (destruct (Nat.leb_spec 64 (size (<[i:=t]> p))), (Z.leb_spec 64 (Z.of_nat (size (<[i:=t]> p)))); lia).
  destruct (_ || _ || _).
  2: { exists (count_reordered stats). done. }
  pose proof (first_held_spec (map_to_list (<[i:=t]> p)).*1) as Hf.
  unfold skip_gap. cbn [set_pending buffer_of expected pending next held window max_delay]. rewrite (nearest_first k) by done.
  destruct (first_held _) as [m|]; cbn [fmap option_fmap option_map default from_option].
  2: { apply (f_equal length) in Hf. rewrite length_fmap, length_map_to_list, map_size_insert_None in Hf by done. done. }
  destruct Hf as [([n' tn] & -> & Hn'%elem_of_map_to_list)%list_elem_of_fmap Hmin]. cbn [fst] in *. unfold Datatypes.id.
  assert ((k <= n')%nat /\ Z.of_nat n' < Z.of_nat k + 32768) as [Hkn Hnk] by (apply Hri; by exists tn).
  assert (in_range n' (<[i:=t]> p)) as Hr'.
  { intros j Hj. split; [|destruct (Hri j Hj); lia]. apply Hmin. destruct Hj as [x Hx]. apply list_elem_of_fmap.
    exists (j, x). split; [done|]. by apply elem_of_map_to_list. }
  destruct (release n' (<[i:=t]> p)) as [[k' p'] out] eqn:Hrel.
  change (set_expected _ (sq n')) with (buffer_of {| next := n'; held := <[i:=t]> p; lost := l; dups := d |}).
  rewrite (drain_ready_release _ _ _ _ _ _ _ _ Hr' Hrel). eexists. split; [|done]. split; [|done].
  cbn. rewrite Hl, u64_add, distance_ahead by lia. f_equal. lia.
Qed.

Definition arrival (q : nat * Z) : bytes * Z := (pk q.1, q.2).

Lemma push_all_place w l stats :
  Forall numbered l.*1 -> window_inv w -> in_range (next w) (held w) -> all_near w l = true -> counts w stats ->
  exists stats', counts (place_all w l).1 stats' /\
    push_all (buffer_of w) stats (arrival <$> l) = Ok (buffer_of (place_all w l).1, stats', pk <$> (place_all w l).2).
Proof.
  revert w stats. induction l as [|[i t] l IH]; intros w stats Hpk Hw Hr Hn Hc; [by exists stats|].
  apply Forall_cons in Hpk as [Hpi Hpk]. cbn [all_near] in Hn. apply andb_true_iff in Hn as [Hi Hn].
  destruct (push_place w i t stats Hpi Hw Hr Hi Hc) as (stats1 & Hc1 & Hpush).
  destruct (place w i t) as [w1 o1] eqn:E1. cbn [fst snd] in *.
  destruct (place_spec _ _ _ _ _ Hw E1) as [Hw1 (a & Ho & Ha & _ & _ & Hm)].
  assert (in_range (next w1) (held w1)) as Hr1.
  { intros j Hj. apply bool_decide_eq_true in Hi. destruct (Hm j (or_intror Hj)) as [->|Hj'].
    - pose proof (proj1 Hw1 i Hj). lia.
    - pose proof (proj1 Hw1 j Hj). destruct (Hr j Hj'). lia. }
  destruct (IH w1 stats1 Hpk Hw1 Hr1 Hn Hc1) as (stats2 & Hc2 & Hall). exists stats2.
  cbn [fmap list_fmap push_all arrival fst snd place_all]. rewrite E1. destruct (place_all w1 l) as [w2 o2]. cbn [fst snd] in *.
  split; [done|]. change (list_fmap _ _ arrival l) with (arrival <$> l). rewrite Hpush. cbn [mbind outcome_bind]. rewrite Hall. cbn [mbind outcome_bind].
  change (list_fmap _ _ pk (o1 ++ o2)) with (pk <$> (o1 ++ o2)). by rewrite fmap_app.
Qed.

Lemma window_new_inv : window_inv window_new.
Proof. split; [|cbn [window_new held]; rewrite map_size_empty; lia]. intros j Hj. cbn in Hj. rewrite lookup_empty in Hj. by destruct Hj. Qed.

Lemma push_first t l stats :
  numbered 0 -> push_all reorder_new stats ((pk 0, t) :: l) =
  ('(b, stats, outs) ← push_all (buffer_of window_new) stats l; Ok (b, stats, pk 0 :: outs)).
Proof.
  intros H0. cbn [push_all]. rewrite (push_sequence _ _ _ _ _ H0). unfold push_sequenced. cbn [reorder_new expected].
  rewrite sq_S. unfold set_expected. cbn [reorder_new pending window max_delay mbind outcome_bind].
  unfold buffer_of. cbn [window_new next held]. replace (conc ∅) with (∅ : gmap Z (bytes * Z)) by (unfold conc; by rewrite map_to_list_empty).
  by destruct (push_all _ stats l) as [[[b st] outs]| | |].
Qed.

(** The whole run, from an empty buffer. *)
Lemma push_all_refines t0 l :
  Forall numbered (0%nat :: l.*1) -> all_near window_new l = true ->
  exists stats, counts (place_all window_new l).1 stats /\
    push_all reorder_new stats_new (arrival <$> (0%nat, t0) :: l) =
    Ok (buffer_of (place_all window_new l).1, stats, pk <$> 0%nat :: (place_all window_new l).2).
Proof.
  intros [H0 Hl]%Forall_cons Hn.
  destruct (push_all_place window_new l stats_new Hl window_new_inv) as (stats & Hc & Hp); [|done|done|].
  { intros j Hj. cbn in Hj. rewrite lookup_empty in Hj. by destruct Hj. }
  exists stats. split; [done|]. change (arrival <$> (0%nat, t0) :: l) with ((pk 0, t0) :: (arrival <$> l)).
  rewrite push_first, Hp by done. done.
Qed.

(** C5: the reordering buffer, on 16-bit sequence numbers that wrap, does what
    the same discipline does on positions of the stream.  When every packet
    arrives within half the sequence space of the one expected, the packets
    released are packets that arrived, in strictly increasing order of
    position and so without duplicates; the counter of lost packets is the
    number of positions passed over; every packet that arrived was released,
    waits or was counted as a duplicate; and fewer than 64 wait. *)
Theorem reorder_refines t0 l :
  Forall numbered (0%nat :: l.*1) -> all_near window_new l = true ->
  exists (w : Window) (stats : RtpStats) (out : list nat),
    place_all window_new l = (w, out) /\
    push_all reorder_new stats_new (arrival <$> (0%nat, t0) :: l) = Ok (buffer_of w, stats, pk <$> 0%nat :: out) /\
    StronglySorted lt (0%nat :: out) /\ 0%nat :: out ⊆ 0%nat :: l.*1 /\
    (length (0%nat :: out) + lost w = next w)%nat /\ lost_packets stats = u64 (Z.of_nat (lost w)) /\
    (length (0%nat :: out) + size (held w) + dups w = length ((0%nat, t0) :: l))%nat /\
    duplicate_packets stats = u64 (Z.of_nat (dups w)) /\ (size (held w) < 64)%nat.
Proof.
  intros Hpk Hn. destruct (push_all_refines t0 l Hpk Hn) as (stats & [Hl Hd] & Hp).
  destruct (place_all window_new l) as [w out] eqn:E. exists w, stats, out. cbn [fst snd] in *.
  destruct (place_all_spec _ _ _ _ window_new_inv E) as ([_ Hsz] & Hs & _ & Hr & Hc & _ & Hcons & Hm). cbn [window_new next held lost dups] in Hc, Hcons. rewrite map_size_empty in Hcons.
  split_and!; [done|done| | |cbn [length]; lia|done|cbn [length]; lia|done|done].
  - constructor; [done|]. apply Forall_forall. intros j Hj%Hr. cbn in Hj. lia.
  - intros j [->|Hj]%elem_of_cons; [by left|]. destruct (Hm j (or_introl Hj)) as [|H]; [by right|].
    cbn in H. rewrite lookup_empty in H. by destruct H.
Qed.
End stream.

(** ** Packets displaced a little come out in order *)

(** An arrival that neither repeats a packet nor makes the buffer give up. *)
Lemma place_clean w i t :
  window_inv w -> (next w <= i)%nat -> held w !! i = None ->
  ((i - next w < 64)%nat /\ late t (<[i := t]> (held w)) = false /\ (size (held w) < 63)%nat) ->
  let w' := (place w i t).1 in
  lost w' = lost w /\ dups w' = dups w /\
  (forall j, (j < next w')%nat \/ is_Some (held w' !! j) <-> (j < next w)%nat \/ is_Some (held w !! j) \/ j = i) /\
  (forall j x, held w' !! j = Some x -> held w !! j = Some x \/ (j, x) = (i, t)).
Proof.
  intros [Hi Hs] Hni Hh (Hd & Hlate & Hsz). unfold place. destruct (Nat.eqb_spec i (next w)) as [->|Hne].
  { destruct (release_spec (S (next w)) (held w) Hi) as (k & p & -> & H1 & H2 & H3 & H4 & H5). cbn [fst next held lost dups].
    split_and!; [done|done| |].
    - intros j. rewrite H3. destruct (Nat.ltb_spec j k).
      + split; [|by left]. intros _. destruct (Nat.lt_trichotomy j (next w)) as [|[|]]; [by left|by right; right|].
        right; left. apply H5. lia.
      + split; [intros [|]; [lia|by right; left]|intros [|[|]]; [lia|by right|lia]].
    - intros j x. rewrite H3. destruct (j <? k)%nat; [done|by left]. }
  destruct (Nat.ltb_spec i (next w)); [lia|]. rewrite bool_decide_false by (rewrite Hh; by intros []). cbn [orb].
  rewrite Hlate. destruct (Nat.leb_spec 64 (i - next w)); [lia|].
  destruct (Nat.leb_spec 64 (size (<[i:=t]> (held w)))) as [Hle|_]; [rewrite map_size_insert_None in Hle by done; lia|].
  cbn [orb fst next held lost dups]. split_and!; [done|done| |].
  - intros j. destruct (decide (j = i)) as [->|].
    + rewrite lookup_insert_eq. split; [by right; right|]. right. by eexists.
    + rewrite lookup_insert_ne by done. split; [intros [|]; [by left|by right; left]|intros [|[|]]; [by left|by right|done]].
  - intros j x. destruct (decide (j = i)) as [->|]; [rewrite lookup_insert_eq; intros [= ->]; by right|].
    rewrite lookup_insert_ne by done. by left.
Qed.

Lemma place_all_lossless w l w' out :
  window_inv w -> place_all w l = (w', out) -> lost w' = lost w -> out = seq (next w) (next w' - next w).
Proof.
  revert w w' out. induction l as [|[i t] l IH]; intros w w' out Hw; [intros [= <- <-] _; by rewrite Nat.sub_diag|].
  cbn [place_all]. destruct (place w i t) as [w1 o1] eqn:E1. destruct (place_all w1 l) as [w2 o2] eqn:E2. intros [= <- <-] Hlost.
  destruct (place_spec _ _ _ _ _ Hw E1) as [Hw1 (a & -> & Ha & Hl & _)].
  destruct (place_all_spec _ _ _ _ Hw1 E2) as (_ & _ & Hn & _ & _ & Hll & _).
  rewrite (IH _ _ _ Hw1 E2) by lia. replace a with (next w) in * by lia.
  replace (next w2 - next w)%nat with ((next w1 - next w) + (next w2 - next w1))%nat by lia.
  rewrite seq_app. do 2 f_equal. lia.
Qed.

(** The packets of a list by position. *)
Definition nth_packet (packets : list bytes) (i : nat) : bytes := nth i packets [].

Lemma nth_packet_lookup packets i p : packets !! i = Some p -> nth_packet packets i = p.
Proof. intros H. unfold nth_packet. rewrite nth_lookup, H. done. Qed.

Lemma nth_packets packets : nth_packet packets <$> seq 0 (length packets) = packets.
Proof.
  apply list_eq. intros i. rewrite list_lookup_fmap. destruct (decide (i < length packets)%nat) as [Hi|Hi].
  - rewrite lookup_seq_lt by done. cbn [fmap option_fmap option_map]. apply lookup_lt_is_Some in Hi as [p Hi].
    cbn [Nat.add]. by rewrite (nth_packet_lookup _ _ _ Hi), Hi.
  - rewrite lookup_seq_ge, lookup_ge_None_2 by lia. done.
Qed.

Section order.
(** The arrivals of the packets at positions [0] to [n - 1], each once, at most
    31 places away from its own, and 64 in a row within 50 ms. *)
Context (arrivals : list (nat * Z)) (n : nat).

Definition complete : Prop := arrivals.*1 ≡ₚ seq 0 n.
Definition displaced_little : Prop := forall p i t, arrivals !! p = Some (i, t) -> (p < i + 32 /\ i < p + 32)%nat.
Definition prompt : Prop :=
  forall q p i j t t', arrivals !! q = Some (j, t') -> arrivals !! p = Some (i, t) -> (q <= p < q + 64)%nat -> t - t' < 50.

Definition clean (pre : list (nat * Z)) (w : Window) : Prop :=
  window_inv w /\ lost w = 0%nat /\ dups w = 0%nat /\
  (forall j, (j < next w)%nat \/ is_Some (held w !! j) <-> j ∈ pre.*1) /\
  (forall j x, held w !! j = Some x -> (j, x) ∈ pre).

Hypothesis Hcomplete : arrivals.*1 ≡ₚ seq 0 n.
Hypothesis Hlittle : displaced_little.
Hypothesis Hprompt : prompt.

Lemma arrivals_position i j x y (p q : nat) :
  arrivals !! p = Some (i, x) -> arrivals !! q = Some (j, y) -> i = j -> p = q.
Proof.
  intros Hp Hq ->. assert (NoDup arrivals.*1) as Hnd by (rewrite Hcomplete; apply NoDup_seq).
  apply (NoDup_lookup _ _ _ j Hnd); rewrite list_lookup_fmap; [by rewrite Hp|by rewrite Hq].
Qed.

Lemma clean_step pre i t l w :
  arrivals = pre ++ (i, t) :: l -> clean pre w -> near w i = true /\ clean (pre ++ [(i, t)]) (place w i t).1.
Proof.
  intros Ha (Hw & Hl & Hd & Hseen & Hheld).
  assert (arrivals !! length pre = Some (i, t)) as Hp by (rewrite Ha; by apply list_lookup_middle).
  assert (forall j x, (j, x) ∈ pre -> exists q, (q < length pre)%nat /\ arrivals !! q = Some (j, x)) as Hpre.
  { intros j x (q & Hq)%list_elem_of_lookup_1. pose proof (lookup_lt_Some _ _ _ Hq). exists q. split; [done|].
    by rewrite Ha, lookup_app_l. }
  assert (i ∉ pre.*1) as Hnew.
  { intros ([i' x] & -> & Hx)%list_elem_of_fmap. destruct (Hpre _ _ Hx) as (q & Hq & Hq').
    pose proof (arrivals_position _ _ _ _ _ _ Hp Hq' eq_refl). lia. }
  assert (next w <= i)%nat as Hni by (apply Nat.nlt_ge; intros H; apply Hnew, Hseen; by left).
  assert (held w !! i = None) as Hhi by (apply eq_None_not_Some; intros H; apply Hnew, Hseen; by right).
  destruct (Hlittle _ _ _ Hp) as [Hp1 Hp2].
  (* the position expected has not arrived yet *)
  assert (length pre < next w + 32)%nat as Hk.
  { destruct (decide (next w = i)) as [->|]; [lia|].
    assert (next w < n)%nat as Hkn.
    { assert (i ∈ arrivals.*1) as Hin by (rewrite Ha, fmap_app; apply elem_of_app; right; by left).
      rewrite Hcomplete in Hin. apply elem_of_seq in Hin. lia. }
    assert (next w ∈ arrivals.*1) as Hin by (rewrite Hcomplete; apply elem_of_seq; lia).
    apply list_elem_of_fmap in Hin as ([k x] & Heq & (q & Hq)%list_elem_of_lookup_1). cbn in Heq. subst k.
    destruct (Hlittle _ _ _ Hq). destruct (decide (q < length pre)%nat) as [Hlt|]; [|lia].
    assert (next w ∈ pre.*1) as [H'|H']%Hseen; [|lia|pose proof (proj1 Hw _ H'); lia].
    apply list_elem_of_fmap. exists (next w, x). split; [done|]. apply (list_elem_of_lookup_2 _ q).
    by rewrite Ha, lookup_app_l in Hq. }
  assert (forall j x, held w !! j = Some x -> (next w < j < next w + 62)%nat /\ t - x < 50) as Hh.
  { intros j x Hj. assert (next w < j)%nat by (apply Hw; by eexists).
    destruct (Hpre _ _ (Hheld _ _ Hj)) as (q & Hq & Hq'). destruct (Hlittle _ _ _ Hq'). split; [lia|].
    apply (Hprompt q (length pre) i j); [done|done|lia]. }
  assert (size (held w) < 63)%nat as Hsz.
  { rewrite <-(size_dom (D := gset nat)). eapply Nat.le_lt_trans; [apply (subseteq_size _ (set_seq (S (next w)) 61))|].
    - intros j [x Hx]%elem_of_dom. destruct (Hh j x Hx). apply elem_of_set_seq. lia.
    - rewrite size_set_seq. lia. }
  destruct (place_clean w i t Hw Hni Hhi) as (H1 & H2 & H3 & H4).
  { split_and!; [lia| |done]. apply not_true_iff_false. intros ([j x] & Hx & Hle)%existsb_exists.
    apply list_elem_of_In, elem_of_map_to_list in Hx. cbn [snd] in Hle. apply Z.leb_le in Hle.
    destruct (decide (j = i)) as [->|]; [rewrite lookup_insert_eq in Hx; simplify_eq; lia|].
    rewrite lookup_insert_ne in Hx by done. destruct (Hh j x Hx). lia. }
  split; [apply bool_decide_eq_true; lia|].
  destruct (place w i t) as [w' out] eqn:E. cbn [fst] in *. split_and!; [by eapply place_spec|congruence|congruence| |].
  - intros j. rewrite H3, fmap_app, elem_of_app, <-Hseen. change ([(i, t)].*1) with [i]. rewrite list_elem_of_singleton. tauto.
  - intros j x [Hj|[= -> ->]]%H4; apply elem_of_app; [left; by apply Hheld|right; by left].
Qed.

Lemma clean_run l pre w :
  arrivals = pre ++ l -> clean pre w -> all_near w l = true /\ clean arrivals (place_all w l).1.
Proof.
  revert pre w. induction l as [|[i t] l IH]; intros pre w Ha Hw; [rewrite app_nil_r in Ha; by subst pre|].
  destruct (clean_step _ _ _ _ _ Ha Hw) as [Hn Hc]. cbn [all_near place_all].
  destruct (IH (pre ++ [(i, t)]) (place w i t).1) as [Hn' Hc']; [by rewrite <-app_assoc|done|].
  destruct (place w i t) as [w1 o1]. cbn [fst] in *. destruct (place_all w1 l) as [w2 o2]. by rewrite Hn, Hn'.
Qed.

Lemma clean_all w : clean arrivals w -> next w = n /\ held w = ∅.
Proof.
  intros (Hw & _ & _ & Hseen & _).
  assert (forall j, (j < next w)%nat \/ is_Some (held w !! j) <-> (j < n)%nat) as H.
  { intros j. rewrite Hseen, Hcomplete, elem_of_seq. lia. }
  assert (next w = n) as Hn.
  { destruct (Nat.lt_trichotomy (next w) n) as [Hlt|[|Hgt]]; [|done|].
    - destruct (proj2 (H (next w)) Hlt) as [|H']; [lia|]. pose proof (proj1 Hw _ H'). lia.
    - assert (n < n)%nat; [|lia]. apply H. by left. }
  split; [done|]. apply map_empty. intros j. apply eq_None_not_Some. intros Hj. pose proof (proj1 Hw j Hj).
  assert (j < n)%nat by (apply H; by right). lia.
Qed.
End order.

Lemma clean_first t : clean [(0%nat, t)] window_new.
Proof.
  split_and!; [apply window_new_inv|done|done| |].
  - intros j. cbn [window_new next held fmap list_fmap fst]. rewrite list_elem_of_singleton, lookup_empty.
    split; [intros [|[]]; [lia|done]|by left; lia].
  - intros j x. cbn [window_new held]. by rewrite lookup_empty.
Qed.

Lemma restored s0 pk t0 l n :
  ((0%nat, t0) :: l).*1 ≡ₚ seq 0 n -> displaced_little ((0%nat, t0) :: l) -> prompt ((0%nat, t0) :: l) ->
  (forall i, (i < n)%nat -> numbered s0 pk i) ->
  exists b stats, push_all reorder_new stats_new (arrival pk <$> (0%nat, t0) :: l) = Ok (b, stats, pk <$> seq 0 n) /\
    lost_packets stats = 0 /\ duplicate_packets stats = 0 /\ pending b = ∅.
Proof.
  intros Hperm Hd Hp Hpk.
  destruct (clean_run ((0%nat, t0) :: l) n Hperm Hd Hp l [(0%nat, t0)] window_new eq_refl (clean_first t0)) as [Hn Hc].
  destruct (push_all_refines s0 pk t0 l) as (stats & [Hl Hdup] & Hpush); [|done|].
  { apply Forall_forall. intros i Hi. apply Hpk. change (0%nat :: l.*1) with ((0%nat, t0) :: l).*1 in Hi.
    rewrite Hperm in Hi. apply elem_of_seq in Hi. lia. }
  destruct (clean_all _ n Hperm _ Hc) as [Hnext Hheld]. destruct Hc as (_ & Hlost & Hdups & _).
  destruct (place_all window_new l) as [w out] eqn:E. cbn [fst snd] in *.
  assert (out = seq 1 (n - 1)) as ->.
  { rewrite (place_all_lossless _ _ _ _ window_new_inv E Hlost), Hnext. done. }
  exists (buffer_of s0 pk w), stats. split_and!; [|by rewrite Hl, Hlost|by rewrite Hdup, Hdups|].
  - rewrite Hpush. do 2 f_equal. destruct n as [|m]; [by apply Permutation_length in Hperm|]. cbn [seq]. by rewrite Nat.sub_succ, Nat.sub_0_r.
  - cbn [buffer_of pending]. rewrite Hheld. unfold conc. by rewrite map_to_list_empty.
Qed.

(** C24: what the buffer is for.  When the packets of a stream arrive each once,
    the first one first, none more than 31 places away from its own, and any
    64 in a row within 50 milliseconds, they come out all, in the order they
    were sent, however long the stream is and however often its sequence
    numbers wrap; nothing is counted as lost or repeated and nothing is left
    in the buffer. *)
Theorem reorder_restores_order s0 (packets : list bytes) t0 l :
  ((0%nat, t0) :: l).*1 ≡ₚ seq 0 (length packets) -> displaced_little ((0%nat, t0) :: l) -> prompt ((0%nat, t0) :: l) ->
  (forall i p, packets !! i = Some p -> sequence_of p = Some (sq s0 i)) ->
  exists b stats, push_all reorder_new stats_new (arrival (nth_packet packets) <$> (0%nat, t0) :: l) = Ok (b, stats, packets) /\
    lost_packets stats = 0 /\ duplicate_packets stats = 0 /\ pending b = ∅.
Proof.
  intros Hperm Hd Hp Hpk. destruct (restored s0 (nth_packet packets) t0 l (length packets)) as (b & stats & H & Hr); [done..| |].
  - intros i Hi. apply lookup_lt_is_Some in Hi as [p Hi]. unfold numbered. rewrite (nth_packet_lookup _ _ _ Hi). by apply Hpk.
  - exists b, stats. split; [|done]. by rewrite H, nth_packets.
Qed.

(** ** Every input is handled

    Whatever the packets are, the buffer answers, holds fewer than 64 packets,
    and they are less than half the sequence space ahead. *)

Definition ahead (b : RtpReorderBuffer) (e lo : Z) : Prop :=
  expected b = Some e /\ is_u16 e /\ window b = 64 /\
  (forall s, is_Some (pending b !! s) -> is_u16 s /\ lo <= distance s e < 0x8000).

Definition buffer_inv (b : RtpReorderBuffer) : Prop :=
  match expected b with
  | None => pending b = ∅ /\ window b = 64
  | Some e => ahead b e 1 /\ (size (pending b) < 64)%nat
  end.

Lemma u16_range z : is_u16 (u16 z).
Proof. unfold is_u16, u16. apply Z.mod_pos_bound. lia. Qed.

Lemma distance_next s e : is_u16 s -> is_u16 e -> 1 <= distance s e -> distance s (u16 (e + 1)) = distance s e - 1.
Proof.
  unfold is_u16, distance, u16. intros Hs He H. rewrite Zminus_mod_idemp_r.
  change (2 ^ 16) with 65536 in *. Z.div_mod_to_equations. lia.
Qed.

Lemma ahead_next b e : ahead b e 1 -> ahead (set_expected b (u16 (e + 1))) (u16 (e + 1)) 0.
Proof.
  intros (He & Hu & Hw & Hk). split_and!; [done|apply u16_range|done|]. intros s Hs. destruct (Hk s Hs) as [H1 H2].
  split; [done|]. rewrite distance_next by (done || lia). lia.
Qed.

Lemma distance_zero s e : is_u16 s -> is_u16 e -> distance s e = 0 -> s = e.
Proof. unfold is_u16, distance, u16. intros Hs He H. change (2 ^ 16) with 65536 in *. Z.div_mod_to_equations. lia. Qed.

Lemma drain_inv fuel b e ready :
  ahead b e 0 -> (size (pending b) < fuel)%nat ->
  exists b' out e', drain_fuel fuel b ready = (b', ready ++ out) /\ ahead b' e' 1 /\
    (size (pending b') + length out = size (pending b))%nat /\
    (is_Some (pending b !! e) -> out <> []).
Proof.
  revert b e ready. induction fuel as [|fuel IH]; intros b e ready Ha Hf; [lia|]. pose proof Ha as (He & Hu & Hw & Hk).
  cbn [drain_fuel]. rewrite He. destruct (pending b !! e) as [[packet t]|] eqn:Hp.
  - pose proof (map_size_delete e (pending b)) as Hsz. rewrite Hp in Hsz. cbn in Hsz.
    assert (size (pending b) <> 0)%nat as H0 by (intros H0%map_size_empty_inv; rewrite H0, lookup_empty in Hp; done).
    destruct (IH (set_expected (set_pending b (delete e (pending b))) (u16 (e + 1))) (u16 (e + 1)) (ready ++ [packet]))
      as (b' & out & e' & -> & Ha' & Hs' & _).
    + change (ahead (set_expected (set_pending b (delete e (pending b))) (u16 (e + 1))) (u16 (e + 1)) 0).
      apply ahead_next. split_and!; [done|done|done|]. cbn [set_pending pending]. intros s Hs.
      destruct (decide (s = e)) as [->|]; [rewrite lookup_delete_eq in Hs; by destruct Hs|].
      rewrite lookup_delete_ne in Hs by done. destruct (Hk s Hs) as [Hs1 Hs2]. split; [done|].
      assert (distance s e <> 0) by (intros ?%distance_zero; done). lia.
    + cbn [set_expected set_pending pending]. lia.
    + exists b', (packet :: out), e'. rewrite <-app_assoc. split_and!; [done|done| |done]. cbn [set_expected set_pending pending length] in *. lia.
  - exists b, [], e. rewrite app_nil_r. split_and!; [done| |cbn; lia|by intros []].
    split_and!; [done..|]. intros s Hs. destruct (Hk s Hs) as [Hs1 Hs2]. split; [done|].
    assert (distance s e <> 0); [|lia]. intros ->%distance_zero; [|done..]. rewrite Hp in Hs. by destruct Hs.
Qed.

Lemma reorder_push_inv b stats packet now :
  buffer_inv b -> bytes_ok packet ->
  exists b' stats' out, reorder_push b stats packet now = Ok (b', stats', out) /\ buffer_inv b' /\
    (length out + size (pending b') <= 1 + size (pending b))%nat.
Proof.
  intros Hb Hpk. destruct packet as [|x0 [|x1 [|s2 [|s3 packet]]]]; [exists b, stats, []; split_and!; (done || cbn; lia)..|].
  rewrite (push_sequence b stats (x0 :: x1 :: s2 :: s3 :: packet) now (from_be [s2; s3]) eq_refl).
  assert (is_u16 (from_be [s2; s3])) as Hseq.
  { rewrite from_be_2. repeat (apply Forall_cons in Hpk as [? Hpk]). unfold is_u8, is_u16 in *. lia. }
  set (s := from_be [s2; s3]) in *. set (pkt := x0 :: x1 :: s2 :: s3 :: packet) in *.
  unfold push_sequenced. unfold buffer_inv in Hb. destruct (expected b) as [e|] eqn:He.
  2: { destruct Hb as [Hp Hw]. exists (set_expected b (u16 (s + 1))), stats, [pkt]. split_and!; [done| |cbn; lia].
       unfold buffer_inv. cbn [set_expected expected pending]. rewrite Hp, map_size_empty. split; [|lia].
       split_and!; [done|apply u16_range|done|]. cbn [set_expected pending]. rewrite Hp. intros k Hk. rewrite lookup_empty in Hk. by destruct Hk. }
  destruct Hb as [Ha Hsz]. pose proof Ha as (_ & Hu & Hw & Hk).
  destruct (Z.eqb_spec (distance s e) 0) as [_|Hd0].
  { destruct (drain_inv (S (size (pending b))) (set_expected b (u16 (e + 1))) (u16 (e + 1)) [pkt]) as (b' & out & e' & Hdr & Ha' & Hs' & _);
      [by apply ahead_next|cbn [set_expected pending]; lia|].
    unfold drain_ready. cbn [set_expected pending] in *. rewrite Hdr. exists b', stats, ([pkt] ++ out). split_and!; [done| |cbn [length app]; lia].
    unfold buffer_inv. pose proof Ha' as (-> & _). split; [done|lia]. }
  case_bool_decide as Hheld; [rewrite orb_true_r|rewrite orb_false_r].
  { exists b, (count_duplicate stats), []. split_and!; [done| |cbn; lia]. unfold buffer_inv. by rewrite He. }
  destruct (Z.leb_spec 0x8000 (distance s e)) as [Hfar|Hnear].
  { exists b, (count_duplicate stats), []. split_and!; [done| |cbn; lia]. unfold buffer_inv. by rewrite He. }
  set (b1 := set_pending b (<[s:=(pkt, now)]> (pending b))).
  assert (ahead b1 e 1) as Ha1.
  { split_and!; [done..|]. cbn [b1 set_pending pending]. intros k. destruct (decide (k = s)) as [->|].
    - intros _. split; [done|]. unfold distance, u16 in *. change (2 ^ 16) with 65536 in *. Z.div_mod_to_equations. lia.
    - rewrite lookup_insert_ne by done. apply Hk. }
  assert (size (pending b1) = S (size (pending b))) as Hs1 by (apply map_size_insert_None; by apply eq_None_not_Some).
  replace (window b1) with 64 by done.
  destruct (_ || _ || _) eqn:Hskip.
  - unfold skip_gap. replace (expected b1) with (Some e) by done.
    pose proof (nearest_spec e (map_to_list (pending b1)).*1) as Hn.
    assert (forall k, k ∈ (map_to_list (pending b1)).*1 <-> is_Some (pending b1 !! k)) as Hkeys.
    { intros k. rewrite list_elem_of_fmap. split; [intros ([k' x] & -> & Hx%elem_of_map_to_list); by exists x|].
      intros [x Hx]. exists (k, x). split; [done|]. by apply elem_of_map_to_list. }
    destruct (nearest _ _) as [m|].
    + destruct Hn as (Hm%Hkeys & Hmd & Hbest). setoid_rewrite Hkeys in Hbest. pose proof Ha1 as (_ & _ & _ & Hk1).
      destruct (Hk1 m Hm) as [Hmu Hm1].
      destruct (drain_inv (S (size (pending b1))) (set_expected b1 m) m []) as (b' & out & e' & Hdr & Ha' & Hs' & Hne);
        [|cbn [set_expected pending]; lia|].
      { split_and!; [done..|]. cbn [set_expected pending]. intros k Hk'. destruct (Hk1 k Hk') as [Hku Hkd].
        split; [done|]. pose proof (Hbest k Hk' ltac:(lia)). clear -Hku Hkd Hmu Hm1 Hu H.
        unfold distance, u16, is_u16 in *. change (2 ^ 16) with 65536 in *. Z.div_mod_to_equations. lia. }
      unfold drain_ready. cbn [set_expected pending] in *. rewrite Hdr. eexists b', _, ([] ++ out). split_and!; [done| |cbn [app]; lia].
      unfold buffer_inv. pose proof Ha' as (-> & _). split; [done|]. specialize (Hne Hm). destruct out; [done|cbn [length] in Hs'; lia].
    + destruct (Hn s).
      * apply Hkeys. cbn [b1 set_pending pending]. rewrite lookup_insert_eq. by eexists.
      * lia.
  - exists b1, (count_reordered stats), []. split_and!; [done| |cbn [length]; lia]. unfold buffer_inv. replace (expected b1) with (Some e) by done.
    split; [done|]. apply orb_false_iff in Hskip as [_ Hlt%Z.leb_gt]. lia.
Qed.

(** What is true of the packets handed in is true of those held and released. *)
Section packets.
Context (P : bytes -> Prop).

Definition held_ok (b : RtpReorderBuffer) : Prop := forall s v, pending b !! s = Some v -> P v.1.

Lemma drain_packets fuel b ready :
  held_ok b -> Forall P ready -> held_ok (drain_fuel fuel b ready).1 /\ Forall P (drain_fuel fuel b ready).2.
Proof.
  revert b ready. induction fuel as [|fuel IH]; intros b ready Hb Hr; [done|]. cbn [drain_fuel].
  destruct (expected b) as [e|]; [|done]. destruct (pending b !! e) as [[packet t]|] eqn:Hp; [|done]. apply IH.
  - intros s v Hv. cbn [set_expected set_pending pending] in Hv. apply lookup_delete_Some in Hv as [_ Hv]. by apply (Hb s).
  - apply Forall_app. split; [done|]. constructor; [exact (Hb _ _ Hp)|done].
Qed.

Lemma reorder_push_packets b stats packet now :
  held_ok b -> P packet -> gives (reorder_push b stats packet now) (fun o => held_ok o.1.1 /\ Forall P o.2).
Proof.
  intros Hb Hp. unfold reorder_push. destruct (_ <? _)%nat; [apply gives_ok; by split|].
  apply gives_bind. intros s2 _. apply gives_bind. intros s3 _. unfold push_sequenced.
  destruct (expected b) as [e|]; [|apply gives_ok; split; [done|by constructor]]. cbv zeta.
  destruct (_ =? 0).
  { pose proof (drain_packets (S (size (pending b))) (set_expected b (u16 (e + 1))) [packet] Hb ltac:(by constructor)) as Hd.
    unfold drain_ready. cbn [set_expected pending] in *. destruct (drain_fuel _ _ _) as [b' out]. by apply gives_ok. }
  destruct (_ || _); [apply gives_ok; by split|].
  set (b1 := set_pending b _).
  assert (held_ok b1) as Hb1.
  { intros s v Hv. cbn [b1 set_pending pending] in Hv. apply lookup_insert_Some in Hv as [[_ <-]|[_ Hv]]; [done|by apply (Hb s)]. }
  destruct (_ || _); [|apply gives_ok; by split].
  unfold skip_gap. destruct (expected b1) as [e1|]; [|apply gives_panic]. destruct (nearest _ _) as [n|]; [|apply gives_ok; by split].
  pose proof (drain_packets (S (size (pending b1))) (set_expected b1 n) [] Hb1 ltac:(done)) as Hd.
  unfold drain_ready. cbn [set_expected pending] in *. destruct (drain_fuel _ _ _) as [b' out]. by apply gives_ok.
Qed.
End packets.

(** ** Examples *)

Definition demo_packet (i : nat) : bytes := [0x80; 96] ++ to_be 2 (sq 65534 i).

(** Positions 1 and 3 swapped, 2 repeated, 4 never sent; the packet 70 places
    ahead makes the buffer give position 4 up. *)
Lemma reorder_refines_witness :
  exists w stats out,
    push_all reorder_new stats_new (arrival demo_packet <$> [(0%nat, 0); (3%nat, 1); (2%nat, 2); (2%nat, 3); (1%nat, 4); (70%nat, 9)]) =
      Ok (buffer_of 65534 demo_packet w, stats, demo_packet <$> out) /\
    out = [0; 1; 2; 3; 70]%nat /\ lost w = 66%nat /\ dups w = 1%nat.
Proof.
  destruct (reorder_refines 65534 demo_packet 0 [(3%nat, 1); (2%nat, 2); (2%nat, 3); (1%nat, 4); (70%nat, 9)])
    as (w & stats & out & Hrun & Hpush & _).
  - unfold numbered. repeat constructor; vm_compute; reflexivity.
  - vm_compute. reflexivity.
  - exists w, stats, (0%nat :: out). split; [exact Hpush|]. vm_compute in Hrun. injection Hrun as <- <-. split_and!; reflexivity.
Defined.

Lemma reorder_restores_order_witness :
  exists b stats, push_all reorder_new stats_new
      (arrival (nth_packet (demo_packet <$> seq 0 4)) <$> [(0%nat, 0); (3%nat, 1); (1%nat, 2); (2%nat, 2)]) =
    Ok (b, stats, demo_packet <$> seq 0 4).
Proof.
  destruct (reorder_restores_order 65534 (demo_packet <$> seq 0 4) 0 [(3%nat, 1); (1%nat, 2); (2%nat, 2)]) as (b & stats & H & _).
  - apply (bool_decide_unpack _). vm_compute. exact I.
  - intros [|[|[|[|p]]]] i t H; cbn in H; simplify_eq; lia.
  - intros [|[|[|[|q]]]] [|[|[|[|p]]]] i j t t' H1 H2; cbn in H1, H2; simplify_eq; lia.
  - intros [|[|[|[|i]]]] p H; cbn in H; simplify_eq; vm_compute; reflexivity.
  - exists b, stats. exact H.
Defined.
