(* ===== verification/GbRtp.v ===== *)
(** * GbRtp: the receiver of RTP streams

    [srt/src/gb28181/rtp_server.rs]: the payload formats with their detection,
    the receiver that turns packets into frames of a source, RFC 4571 framing,
    and the ports of the manager.  Times are milliseconds; the frames published
    are the output of an operation.  The tasks that read sockets are the
    sequences of packets they hand in. *)

From S2P Require Import Prelude Frame AnnexB PsDemux Text GbReorder.
From S2P Require TsDemux.
#[local] Open Scope Z_scope.

Inductive RtpPayloadType : Type :=
| PtAuto | PtPs | PtTs | PtH264 | PtH265 | PtAac | PtG711A | PtG711U | PtRaw.

#[global] Instance RtpPayloadType_eq_dec : EqDecision RtpPayloadType.
Proof. solve_decision. Defined.

Definition payload_type_str (p : RtpPayloadType) : string :=
  match p with
  | PtAuto => "auto" | PtPs => "ps" | PtTs => "ts" | PtH264 => "h264" | PtH265 => "h265" | PtAac => "aac"
  | PtG711A => "g711a" | PtG711U => "g711u" | PtRaw => "raw"
  end.

Definition parse_payload_type (s : bytes) : RtpPayloadType :=
  let s := to_ascii_lowercase s in
  let one_of (names : list string) := existsb (fun n => bool_decide (s = str n)) names in
  if one_of ["auto"; ""] then PtAuto
  else if one_of ["ps"] then PtPs
  else if one_of ["ts"] then PtTs
  else if one_of ["h264"; "h26x"] then PtH264
  else if one_of ["h265"; "hevc"] then PtH265
  else if one_of ["aac"] then PtAac
  else if one_of ["g711a"; "pcma"] then PtG711A
  else if one_of ["g711u"; "pcmu"] then PtG711U
  else if one_of ["raw"] then PtRaw
  else PtAuto.

Definition payload_clock_rate (p : RtpPayloadType) : Z :=
  match p with
  | PtAuto | PtPs | PtTs | PtH264 | PtH265 => 90000
  | PtAac => 48000
  | PtG711A | PtG711U => 8000
  | PtRaw => 90000
  end.

Inductive RtpTcpMode : Type := ModeUdp | ModeTcpPassive | ModeTcpActive.

Definition tcp_mode_try_from (value : Z) : result RtpTcpMode :=
  if value =? 0 then Ok ModeUdp
  else if value =? 1 then Ok ModeTcpPassive
  else if value =? 2 then Ok ModeTcpActive
  else Err (Anyhow "tcp_mode").

(** ** The receiver *)

Record Receiver : Type := {
  rv_vhost : string;
  rv_app : string;
  rv_stream : string;
  rv_payload : RtpPayloadType;
  rv_audio_codec : CodecId;
  expected_ssrc : option Z
}.

Definition receiver_new (vhost app stream : string) (payload : RtpPayloadType) (ssrc : option Z) : Receiver :=
  {| rv_vhost := vhost; rv_app := app; rv_stream := stream; rv_payload := payload;
     rv_audio_codec := match payload with PtG711U => G711U | _ => G711A end; expected_ssrc := ssrc |}.

Record RtpIngestState : Type := {
  ig_ps : PsDemuxer;
  ig_ts : TsDemux.TsContext;
  ig_ts_timestamp : Z;
  detected_payload : option RtpPayloadType;
  fu_buf : bytes;
  ig_video_codec : CodecId;
  ig_reorder : RtpReorderBuffer
}.

Definition ingest_new : RtpIngestState :=
  {| ig_ps := PsDemux.new; ig_ts := TsDemux.context_new; ig_ts_timestamp := 0; detected_payload := None; fu_buf := [];
     ig_video_codec := H264; ig_reorder := reorder_new |}.

Definition set_ps (s : RtpIngestState) (d : PsDemuxer) (c : CodecId) : RtpIngestState :=
  {| ig_ps := d; ig_ts := ig_ts s; ig_ts_timestamp := ig_ts_timestamp s; detected_payload := detected_payload s; fu_buf := fu_buf s;
     ig_video_codec := c; ig_reorder := ig_reorder s |}.
Definition set_ts (s : RtpIngestState) (c : TsDemux.TsContext) (t : Z) : RtpIngestState :=
  {| ig_ps := ig_ps s; ig_ts := c; ig_ts_timestamp := t; detected_payload := detected_payload s; fu_buf := fu_buf s;
     ig_video_codec := ig_video_codec s; ig_reorder := ig_reorder s |}.
Definition set_detected (s : RtpIngestState) (p : RtpPayloadType) : RtpIngestState :=
  {| ig_ps := ig_ps s; ig_ts := ig_ts s; ig_ts_timestamp := ig_ts_timestamp s; detected_payload := Some p; fu_buf := fu_buf s;
     ig_video_codec := ig_video_codec s; ig_reorder := ig_reorder s |}.
Definition set_h26x (s : RtpIngestState) (b : bytes) (c : CodecId) : RtpIngestState :=
  {| ig_ps := ig_ps s; ig_ts := ig_ts s; ig_ts_timestamp := ig_ts_timestamp s; detected_payload := detected_payload s; fu_buf := b;
     ig_video_codec := c; ig_reorder := ig_reorder s |}.
Definition set_reorder (s : RtpIngestState) (b : RtpReorderBuffer) : RtpIngestState :=
  {| ig_ps := ig_ps s; ig_ts := ig_ts s; ig_ts_timestamp := ig_ts_timestamp s; detected_payload := detected_payload s; fu_buf := fu_buf s;
     ig_video_codec := ig_video_codec s; ig_reorder := b |}.

(** *** Frames *)

(** A unit behind its start code; the codec is guessed from the unit's type. *)
Definition publish_video (nalu : bytes) (pts_ms : Z) (c : CodecId) : CodecId * list MediaFrame :=
  if (length nalu <? 5)%nat then (c, []) else
  let b := nth 4 nalu 0 in
  let h264_type := b .& 0x1F in
  let h265_type := (b .>> 1) .& 0x3F in
  let c :=
    if (h264_type =? 7) || (h264_type =? 8) || ((1 <=? h264_type) && (h264_type <=? 5)) then H264
    else if (h265_type =? 32) || (h265_type =? 33) || (h265_type =? 34) then H265
    else c in
  let key := (h264_type =? 5) || ((19 <=? h265_type) && (h265_type <=? 21)) in
  (c, [with_payload_format (new_video 0 c (u32 pts_ms) pts_ms pts_ms nalu key) PfAnnexB]).

Definition publish_audio (d : bytes) (pts_ms : Z) (c : CodecId) : MediaFrame :=
  let format :=
    if bool_decide (c = AAC) then
      match d with
      | b0 :: b1 :: _ => if (b0 =? 0xFF) && (b1 .& 0xF0 =? 0xF0) then PfAdts else PfAacRaw
      | _ => PfAacRaw
      end
    else PfRaw in
  with_payload_format (new_audio 1 c (u32 pts_ms) pts_ms pts_ms d) format.

Definition rtp_ts_to_ms (payload : RtpPayloadType) (rtp_ts : Z) : Z := rtp_ts * 1000 / payload_clock_rate payload.

Definition detect_payload_type (payload : bytes) (payload_type : Z) : RtpPayloadType :=
  if payload_type =? 0 then PtG711U
  else if payload_type =? 8 then PtG711A
  else if bool_decide (take 3 payload = [0; 0; 1]) &&
          match payload !! 3%nat with Some id => (0xBA <=? id) && (id <=? 0xBF) | None => false end then PtPs
  else if (188 <=? length payload)%nat && bool_decide (head payload = Some 0x47) &&
          ((length payload <? 376)%nat || bool_decide (payload !! 188%nat = Some 0x47)) then PtTs
  else match payload with
       | b0 :: _ :: _ =>
           let h265_type := (b0 .>> 1) .& 0x3F in
           if ((32 <=? h265_type) && (h265_type <=? 34)) || (h265_type =? 48) || (h265_type =? 49) then PtH265 else PtH264
       | _ => PtH264
       end.

(** *** H.264 and H.265 *)

(** The units of an aggregation packet; an incomplete one ends it. *)
Fixpoint aggregate_fuel (fuel : nat) (payload : bytes) (pts_ms : Z) (c : CodecId) : CodecId * list MediaFrame :=
  match fuel, payload with
  | S fuel, a :: b :: rest =>
      let len := Z.to_nat (from_be [a; b]) in
      if (length rest <? len)%nat then (c, []) else
      let '(c, fs) := publish_video ([0; 0; 0; 1] ++ take len rest) pts_ms c in
      let '(c, gs) := aggregate_fuel fuel (drop len rest) pts_ms c in
      (c, fs ++ gs)
  | _, _ => (c, [])
  end.

Definition aggregate (payload : bytes) (pts_ms : Z) (c : CodecId) : CodecId * list MediaFrame :=
  aggregate_fuel (length payload) payload pts_ms c.

Definition handle_h265 (payload : bytes) (pts_ms : Z) (fu : bytes) (c : CodecId) : bytes * CodecId * list MediaFrame :=
  match payload with
  | h0 :: h1 :: body =>
      let nal_type := (h0 .>> 1) .& 0x3F in
      if nal_type =? 49 then
        match body with
        | [] => (fu, c, [])
        | fu_header :: body =>
            let original_type := fu_header .& 0x3F in
            let fu := if negb (fu_header .& 0x80 =? 0)
                      then [0; 0; 0; 1] ++ [(h0 .& 0x81) .| u8 (original_type .<< 1); h1] else fu in
            let fu := match fu with [] => [] | _ => fu ++ body end in
            if negb (fu_header .& 0x40 =? 0) && negb (bool_decide (fu = []))
            then let '(c, fs) := publish_video fu pts_ms c in ([], c, fs)
            else (fu, c, [])
        end
      else if nal_type =? 48 then let '(c, fs) := aggregate body pts_ms c in (fu, c, fs)
      else let '(c, fs) := publish_video ([0; 0; 0; 1] ++ payload) pts_ms c in (fu, c, fs)
  | _ => (fu, c, [])
  end.

Definition handle_h26x (payload : bytes) (pts_ms : Z) (pt : RtpPayloadType) (fu : bytes) (c : CodecId) :
    bytes * CodecId * list MediaFrame :=
  match payload with
  | [] => (fu, c, [])
  | nal_header :: rest =>
      if bool_decide (pt = PtH265) then handle_h265 payload pts_ms fu H265 else
      let nal_type := nal_header .& 0x1F in
      if nal_type =? 28 then
        match rest with
        | [] => (fu, c, [])
        | fu_hdr :: body =>
            let real_type := fu_hdr .& 0x1F in
            let fu := if negb (fu_hdr .& 0x80 =? 0) then [0; 0; 0; 1] ++ [(nal_header .& 0xE0) .| real_type] else fu in
            let fu := fu ++ body in
            if negb (fu_hdr .& 0x40 =? 0) then let '(c, fs) := publish_video fu pts_ms c in ([], c, fs) else (fu, c, [])
        end
      else if nal_type =? 24 then let '(c, fs) := aggregate rest pts_ms c in (fu, c, fs)
      else let '(c, fs) := publish_video ([0; 0; 0; 1] ++ payload) pts_ms c in (fu, c, fs)
  end.

(** *** AAC *)

(** The access units whose headers are listed; [data] is what follows. *)
Fixpoint access_units (headers data : bytes) (pts_ms : Z) : list MediaFrame :=
  match headers with
  | a :: b :: headers =>
      let au_size := Z.to_nat (from_be [a; b] .>> 3) in
      if (au_size =? 0)%nat || (length data <? au_size)%nat then []
      else publish_audio (take au_size data) pts_ms AAC :: access_units headers (drop au_size data) pts_ms
  | _ => []
  end.

Definition publish_aac_rtp (payload : bytes) (pts_ms : Z) : list MediaFrame :=
  let whole := [publish_audio payload pts_ms AAC] in
  match payload with
  | a :: b :: rest =>
      let header_bits := from_be [a; b] in
      let header_bytes := Z.to_nat ((header_bits + 7) / 8) in
      if (4 <=? length payload)%nat && (16 <=? header_bits) && (header_bits mod 16 =? 0) && (2 + header_bytes <=? length payload)%nat
      then access_units (take header_bytes rest) (drop header_bytes rest) pts_ms
      else whole
  | _ => whole
  end.

(** *** Program streams *)

Definition ps_audio_codec (t : option Z) : option CodecId :=
  match t with
  | None => None
  | Some t =>
      if (t =? 0x0F) || (t =? 0x11) then Some AAC
      else if t =? 0x90 then Some G711A
      else if t =? 0x91 then Some G711U
      else if t =? 0x04 then Some MP2A
      else if t =? 0x03 then Some Mp3
      else None
  end.

Fixpoint publish_units (nalus : list bytes) (pts_ms : Z) (c : CodecId) : CodecId * list MediaFrame :=
  match nalus with
  | [] => (c, [])
  | n :: nalus =>
      let '(c, fs) := publish_video n pts_ms c in
      let '(c, gs) := publish_units nalus pts_ms c in
      (c, fs ++ gs)
  end.

Definition process_pes (r : Receiver) (pes : PesPacket) (t : option Z) (rtp_ts : Z) (c : CodecId) : result (CodecId * list MediaFrame) :=
  let pts_ms := match pes_pts pes with Some p => p * 1000 / 90000 | None => rtp_ts_to_ms (rv_payload r) rtp_ts end in
  let id := pes_stream_id pes in
  if (id =? 0xE0) || (id .& 0xF0 =? 0xE0) then
    let c := if bool_decide (t = Some 0x24) then H265 else if bool_decide (t = Some 0x1B) then H264 else c in
    nalus ← extract_nalus_from_pes (pes_data pes);
    Ok (publish_units nalus pts_ms c)
  else if (id =? 0xC0) || (id .& 0xF0 =? 0xC0) || (id =? 0xBD) then
    Ok (c, [publish_audio (pes_data pes) pts_ms (default (rv_audio_codec r) (ps_audio_codec t))])
  else Ok (c, []).

(** The demuxer has no errors to pass on. *)
Definition ps_result {A} (m : outcome PsError A) : result A :=
  match m with Ok a => Ok a | Err _ => Err (Anyhow "ps") | Panic => Panic | NoFuel => NoFuel end.

Definition ps_step (r : Receiver) (rtp_ts : Z) (st : PsDemuxer * CodecId * list MediaFrame) :
    result (PsDemuxer * CodecId * list MediaFrame + PsDemuxer * CodecId * list MediaFrame) :=
  let '(d, c, frames) := st in
  '(d, pes) ← ps_result (next_pes d);
  match pes with
  | None => Ok (inr (d, c, frames))
  | Some pes =>
      '(c, fs) ← process_pes r pes (stream_type d (pes_stream_id pes)) rtp_ts c;
      Ok (inl (d, c, frames ++ fs))
  end.

Definition handle_ps (r : Receiver) (payload : bytes) (rtp_ts : Z) (d : PsDemuxer) (c : CodecId) :
    result (PsDemuxer * CodecId * list MediaFrame) :=
  d ← ps_result (push d payload);
  loop (S (length (buf d))) (ps_step r rtp_ts) (d, c, []).

(** *** One packet *)

(** Behind the contributing sources, the extension and the padding. *)
Definition rtp_payload (pkt : bytes) (b0 : Z) : result (option bytes) :=
  let off := (12 + Z.to_nat (b0 .& 0x0F) * 4)%nat in
  off ← (if ((b0 .>> 4) .& 1 =? 1) && (off + 4 <=? length pkt)%nat
         then e2 ← idx pkt (off + 2)%nat; e3 ← idx pkt (off + 3)%nat; Ok (off + 4 + Z.to_nat (from_be [e2; e3]) * 4)%nat
         else Ok off);
  if (length pkt <=? off)%nat then Ok None else
  payload ← slice pkt off (length pkt);
  let payload :=
    match last payload with
    | Some pad =>
        if ((b0 .>> 5) .& 1 =? 1) && (Z.to_nat pad <=? length payload)%nat
        then take (length payload - Z.to_nat pad) payload else payload
    | None => payload
    end in
  Ok (match payload with [] => None | _ => Some payload end).

Definition handle_payload (r : Receiver) (s : RtpIngestState) (pt : RtpPayloadType) (payload : bytes) (rtp_ts : Z) :
    result (RtpIngestState * list MediaFrame) :=
  match pt with
  | PtAuto => Panic
  | PtPs =>
      '(d, c, fs) ← handle_ps r payload rtp_ts (ig_ps s) (ig_video_codec s);
      Ok (set_ps s d c, fs)
  | PtTs =>
      '(c, fs, t) ← TsDemux.demux_ts_packets payload (ig_ts s) (ig_ts_timestamp s);
      Ok (set_ts s c t, fs)
  | PtH264 | PtH265 | PtRaw =>
      let '(fu, c, fs) := handle_h26x payload (rtp_ts_to_ms (rv_payload r) rtp_ts) pt (fu_buf s) (ig_video_codec s) in
      Ok (set_h26x s fu c, fs)
  | PtAac => Ok (s, publish_aac_rtp payload (rtp_ts_to_ms pt rtp_ts))
  | PtG711A | PtG711U =>
      Ok (s, [publish_audio payload (rtp_ts_to_ms pt rtp_ts) (if bool_decide (pt = PtG711U) then G711U else G711A)])
  end.

(** The format of a receiver that detects it, from its first payload on. *)
Definition effective_payload (r : Receiver) (s : RtpIngestState) (payload : bytes) (payload_type : Z) : RtpIngestState * RtpPayloadType :=
  match rv_payload r with
  | PtAuto =>
      let pt := match detected_payload s with Some pt => pt | None => detect_payload_type payload payload_type end in
      (set_detected s pt, pt)
  | pt => (s, pt)
  end.

Definition handle_rtp (r : Receiver) (s : RtpIngestState) (stats : RtpStats) (pkt : bytes) :
    result (RtpIngestState * RtpStats * list MediaFrame) :=
  match pkt with
  | b0 :: b1 :: _ :: _ :: t0 :: t1 :: t2 :: t3 :: r0 :: r1 :: r2 :: r3 :: _ =>
      if negb (b0 .>> 6 =? 2) then Ok (s, stats, []) else
      let payload_type := b1 .& 0x7F in
      let rtp_ts := from_be [t0; t1; t2; t3] in
      let ssrc := from_be [r0; r1; r2; r3] in
      let stats := set_ssrc stats ssrc in
      if match expected_ssrc r with Some e => negb (e =? ssrc) | None => false end then Ok (s, stats, []) else
      payload ← rtp_payload pkt b0;
      match payload with
      | None => Ok (s, stats, [])
      | Some payload =>
          let '(s, pt) := effective_payload r s payload payload_type in
          '(s, fs) ← handle_payload r s pt payload rtp_ts;
          Ok (s, stats, fs)
      end
  | _ => Ok (s, stats, [])
  end.

Fixpoint handle_all (r : Receiver) (s : RtpIngestState) (stats : RtpStats) (pkts : list bytes) :
    result (RtpIngestState * RtpStats * list MediaFrame) :=
  match pkts with
  | [] => Ok (s, stats, [])
  | p :: pkts =>
      '(s, stats, fs) ← handle_rtp r s stats p;
      '(s, stats, gs) ← handle_all r s stats pkts;
      Ok (s, stats, fs ++ gs)
  end.

Definition ingest_packet (r : Receiver) (s : RtpIngestState) (stats : RtpStats) (packet : bytes) (now : Z) :
    result (RtpIngestState * RtpStats * list MediaFrame) :=
  let stats := count_received stats (zlen packet) now in
  '(b, stats, ready) ← reorder_push (ig_reorder s) stats packet now;
  handle_all r (set_reorder s b) stats ready.

(** ** Transports *)

(** Packets with their arrival times. *)
Fixpoint ingest_each (r : Receiver) (s : RtpIngestState) (stats : RtpStats) (l : list (bytes * Z)) :
    result (RtpIngestState * RtpStats * list MediaFrame) :=
  match l with
  | [] => Ok (s, stats, [])
  | (p, now) :: l =>
      '(s, stats, fs) ← ingest_packet r s stats p now;
      '(s, stats, gs) ← ingest_each r s stats l;
      Ok (s, stats, fs ++ gs)
  end.

(** Datagrams, each cut at the buffer's 2048 bytes. *)
Definition run_udp (r : Receiver) (stats : RtpStats) (datagrams : list (bytes * Z)) :
    result (RtpIngestState * RtpStats * list MediaFrame) :=
  ingest_each r ingest_new stats ((fun d => (take 2048 d.1, d.2)) <$> datagrams).

(** The packets in the bytes of a connection; a length below twelve or an
    incomplete packet ends it. *)
Fixpoint tcp_packets_fuel (fuel : nat) (stream : bytes) : list bytes :=
  match fuel, stream with
  | S fuel, a :: b :: rest =>
      let len := Z.to_nat (from_be [a; b]) in
      if (len <? 12)%nat || (length rest <? len)%nat then [] else take len rest :: tcp_packets_fuel fuel (drop len rest)
  | _, _ => []
  end.

Definition tcp_packets (stream : bytes) : list bytes := tcp_packets_fuel (length stream) stream.

(** A connection; each packet arrives at the time [clock] gives. *)
Definition read_tcp_stream (r : Receiver) (stats : RtpStats) (clock : nat -> Z) (stream : bytes) :
    result (RtpIngestState * RtpStats * list MediaFrame) :=
  ingest_each r ingest_new stats (imap (fun i p => (p, clock i)) (tcp_packets stream)).

(** ** The manager of the ports *)

(** An open port; what the ports' tasks share with the manager. *)
Record Opened : Type := {
  op_receiver : Receiver;
  op_mode : RtpTcpMode;
  op_stats : RtpStats;
  op_target : option Z;                            (* of active mode *)
  op_shutdown : bool
}.

Record RtpServerManager : Type := { inner : gmap Z Opened; next_port : Z }.

Definition manager_new (media_port_base : Z) : RtpServerManager := {| inner := ∅; next_port := Z.max media_port_base 1 |}.

Definition set_inner (m : RtpServerManager) (i : gmap Z Opened) : RtpServerManager := {| inner := i; next_port := next_port m |}.

(** The loop has no bound of its own. *)
Fixpoint alloc_port (fuel : nat) (m : RtpServerManager) : result (Z * RtpServerManager) :=
  match fuel with
  | O => NoFuel
  | S fuel =>
      let p := next_port m in
      let m := {| inner := inner m; next_port := u16 (p + 1) |} in
      if p =? 0 then alloc_port fuel m
      else if bool_decide (is_Some (inner m !! p)) then alloc_port fuel m
      else Ok (p, m)
  end.

Record RtpServerInfo : Type := {
  info_port : Z;
  info_ssrc : option Z;
  info_vhost : string;
  info_app : string;
  info_stream : string;
  info_payload_type : string;
  info_bytes : Z;
  info_packets : Z;
  info_lost : Z;
  info_duplicate : Z;
  info_reordered : Z;
  last_recv_ms : Z;
  alive : bool;
  stream_exists : bool;
  info_tcp_mode : Z
}.

Definition tcp_mode_u8 (m : RtpTcpMode) : Z := match m with ModeUdp => 0 | ModeTcpPassive => 1 | ModeTcpActive => 2 end.

(** [locked]: the time of the last packet is being written by a task. *)
Definition info (exists_source : string -> string -> string -> bool) (now : Z) (locked : bool) (port : Z) (o : Opened) : RtpServerInfo :=
  let r := op_receiver o in
  let s := op_stats o in
  let last := if locked then 2 ^ 64 - 1 else match last_recv s with Some t => now - t | None => 2 ^ 64 - 1 end in
  {| info_port := port;
     info_ssrc := match expected_ssrc r with Some e => Some e | None => if st_ssrc s =? 0 then None else Some (st_ssrc s) end;
     info_vhost := rv_vhost r; info_app := rv_app r; info_stream := rv_stream r; info_payload_type := payload_type_str (rv_payload r);
     info_bytes := st_bytes s; info_packets := st_packets s; info_lost := lost_packets s; info_duplicate := duplicate_packets s;
     info_reordered := reordered_packets s; last_recv_ms := last; alive := last <? 5000;
     stream_exists := exists_source (rv_vhost r) (rv_app r) (rv_stream r); info_tcp_mode := tcp_mode_u8 (op_mode o) |}.

(** [open_with_mode] up to the call of the operating system, and behind it. *)
Definition open_begin (fuel : nat) (m : RtpServerManager) (port : Z) : result (Z * RtpServerManager) :=
  '(port, m) ← (if port =? 0 then alloc_port fuel m else Ok (port, m));
  if bool_decide (is_Some (inner m !! port)) then Err (Anyhow "rtp server already exists") else Ok (port, m).

Definition open_finish (m : RtpServerManager) (port : Z) (r : Receiver) (mode : RtpTcpMode) : RtpServerManager :=
  set_inner m (<[port := {| op_receiver := r; op_mode := mode; op_stats := stats_new; op_target := None; op_shutdown := false |}]> (inner m)).

(** The port is taken from [next_port] even when the call then fails. *)
Definition open_with_mode (bind : RtpTcpMode -> Z -> bool) (fuel : nat) (m : RtpServerManager) (port : Z)
    (vhost app stream : string) (payload : RtpPayloadType) (ssrc : option Z) (mode : RtpTcpMode) : RtpServerManager * result Z :=
  match open_begin fuel m port with
  | Ok (port, m) =>
      if bind mode port then (open_finish m port (receiver_new vhost app stream payload ssrc) mode, Ok port)
      else (m, Err (Anyhow "bind"))
  | Err e => (m, Err e)
  | Panic => (m, Panic)
  | NoFuel => (m, NoFuel)
  end.

(** The port's entry, with its receiver told to stop. *)
Definition close (m : RtpServerManager) (port : Z) : RtpServerManager * option Opened :=
  match inner m !! port with
  | Some o => (set_inner m (delete port (inner m)),
      Some {| op_receiver := op_receiver o; op_mode := op_mode o; op_stats := op_stats o; op_target := op_target o; op_shutdown := true |})
  | None => (m, None)
  end.

Section queries.
(** What is asked of sources, clock and locks, and the order in which the map
    is walked. *)
Context (exists_source : string -> string -> string -> bool) (now : Z) (locked : Z -> bool)
  (order : gmap Z Opened -> list (Z * Opened)).

Definition info_of (e : Z * Opened) : RtpServerInfo := info exists_source now (locked e.1) e.1 e.2.

Definition list_infos (m : RtpServerManager) : list RtpServerInfo := info_of <$> order (inner m).

Definition get_info (m : RtpServerManager) (port : Z) : option RtpServerInfo :=
  (fun o => info_of (port, o)) <$> inner m !! port.

Definition find_by_stream (m : RtpServerManager) (app stream : string) : option RtpServerInfo :=
  head (List.filter (fun i => bool_decide (info_app i = app) && bool_decide (info_stream i = stream)) (list_infos m)).

(** [resolve]: the first address [lookup_host] answers with. *)
Definition connect_stream (m : RtpServerManager) (app : option string) (stream : string) (resolve : result (option Z)) :
    RtpServerManager * result Z :=
  let selected := head (List.filter (fun e : Z * Opened =>
    bool_decide (rv_stream (op_receiver e.2) = stream) &&
    match app with Some a => bool_decide (rv_app (op_receiver e.2) = a) | None => true end) (order (inner m))) in
  match selected with
  | None => (m, Err (Anyhow "RTP server for stream was not found"))
  | Some (port, o) =>
      match resolve with
      | Ok (Some target) =>
          match op_mode o with
          | ModeTcpActive =>
              (set_inner m (<[port := {| op_receiver := op_receiver o; op_mode := op_mode o; op_stats := op_stats o;
                                         op_target := Some target; op_shutdown := op_shutdown o |}]> (inner m)), Ok port)
          | _ => (m, Err (Anyhow "RTP server is not in TCP active mode"))
          end
      | Ok None => (m, Err (Anyhow "unable to resolve RTP destination"))
      | Err e => (m, Err e)
      | Panic => (m, Panic)
      | NoFuel => (m, NoFuel)
      end
  end.
End queries.

(** ** Whatever arrives, the receiver answers *)

Lemma detect_not_auto payload pt : detect_payload_type payload pt <> PtAuto.
Proof. unfold detect_payload_type. repeat case_match; done. Qed.

Definition ingest_inv (s : RtpIngestState) : Prop :=
  (length (buf (ig_ps s)) <= max_buf (ig_ps s))%nat /\ detected_payload s <> Some PtAuto /\ buffer_inv (ig_reorder s).

Lemma ingest_new_inv : ingest_inv ingest_new.
Proof. split_and!; [cbn; lia|done|done]. Qed.

Lemma process_pes_always r pes t ts c : always (process_pes r pes t ts c).
Proof.
  unfold process_pes. wp_auto; try exact I. eapply wp_mono; [apply extract_nalus_always|intros nalus _; apply wp_ok|]; done.
Qed.

Lemma handle_ps_always r payload ts d c :
  (length (buf d) <= max_buf d)%nat -> (length payload <= max_buf d)%nat ->
  wp (handle_ps r payload ts d c) (fun o => max_buf o.1.1 = max_buf d /\ (length (buf o.1.1) <= max_buf d)%nat) (fun _ => False).
Proof.
  intros Hd Hp. unfold handle_ps. apply wp_bind. pose proof (push_wp d payload Hd) as Hpush.
  destruct (push d payload) as [d1| | |]; try done. destruct Hpush as [Hm1 Hl1]. apply wp_ok.
  apply (wp_loop _ (fun st : PsDemuxer * CodecId * list MediaFrame => max_buf st.1.1 = max_buf d /\ (length (buf st.1.1) <= max_buf d)%nat)
    (fun st => length (buf st.1.1))); [|cbn [fst]; split; [done|lia]|cbn [fst]; lia].
  intros [[d2 c2] fs] [Hm2 Hl2]. cbn [fst] in *. unfold ps_step. apply wp_bind.
  pose proof (next_pes_wp d2) as Hn. destruct (next_pes d2) as [[d3 pes]| | |]; try done. destruct Hn as [[Hm3 (k & Hk & Hb)] Hn].
  cbn [fst snd] in *. apply wp_ok. assert (length (buf d3) <= length (buf d2))%nat by (rewrite Hb, length_drop; lia).
  destruct pes as [pes|]; [|apply wp_ok; cbn [fst]; split; [congruence|lia]].
  apply wp_bind. eapply wp_mono; [apply process_pes_always|intros [c3 fs3] _; apply wp_ok; cbn [fst]|done].
  split; [split; [congruence|lia]|done].
Qed.

Lemma rtp_payload_always pkt b0 :
  wp (rtp_payload pkt b0) (fun o => match o with Some p => (length p <= length pkt)%nat | None => True end) (fun _ => False).
Proof.
  unfold rtp_payload. apply wp_bind. eapply (wp_mono _ (fun _ => True) _ (fun _ => False)); [|intros off _|done].
  - wp_auto; wp_side.
  - destruct (Nat.leb_spec (length pkt) off); [exact I|]. apply wp_bind, wp_slice; [lia..|]. apply wp_ok.
    set (p := take _ (drop off pkt)).
    assert (length p <= length pkt)%nat as Hp by (subst p; rewrite length_take, length_drop; lia).
    destruct (last p) as [pad|]; [|by destruct p].
    destruct (_ && _); [|by destruct p]. pose proof (length_take p (length p - Z.to_nat pad)) as Hl.
    destruct (take _ p); [done|lia].
Qed.

Lemma effective_inv r s payload payload_type :
  ingest_inv s ->
  let sp := effective_payload r s payload payload_type in
  ingest_inv sp.1 /\ sp.2 <> PtAuto /\ ig_ps sp.1 = ig_ps s /\ ig_reorder sp.1 = ig_reorder s.
Proof.
  intros Hs. pose proof Hs as (Hbuf & Hdet & Hre). unfold effective_payload.
  assert (match detected_payload s with Some pt => pt | None => detect_payload_type payload payload_type end <> PtAuto) as Hd.
  { destruct (detected_payload s); [naive_solver|apply detect_not_auto]. }
  destruct (rv_payload r); cbn [fst snd]; try done. split_and!; try done. split_and!; [done| |done]. cbn. naive_solver.
Qed.

(** A packet of 65535 bytes at most, the longest a datagram or an RFC 4571
    frame brings. *)
Lemma handle_rtp_always r s stats pkt :
  ingest_inv s -> (length pkt <= max_buf (ig_ps s))%nat ->
  wp (handle_rtp r s stats pkt)
     (fun o => ingest_inv o.1.1 /\ max_buf (ig_ps o.1.1) = max_buf (ig_ps s) /\ ig_reorder o.1.1 = ig_reorder s) (fun _ => False).
Proof.
  intros Hs Hl. pose proof Hs as (Hbuf & Hdet & Hre). unfold handle_rtp.
  do 12 (destruct pkt as [|? pkt]; [apply wp_ok; done|]).
  destruct (negb _); [apply wp_ok; done|]. cbv zeta. destruct (match expected_ssrc r with Some _ => _ | None => _ end); [apply wp_ok; done|].
  apply wp_bind. eapply wp_mono; [apply rtp_payload_always|intros [payload|] Hp; [|apply wp_ok; done]|done]. cbv beta in Hp.
  pose proof (effective_inv r s payload (z0 .& 127) Hs) as He.
  destruct (effective_payload r s payload (z0 .& 127)) as [s1 pt]. cbn [fst snd] in He. destruct He as ((Hb1 & Hd1 & Hr1) & Hpt & Hps & Hro).
  unfold handle_payload. destruct pt; [done|..].
  - apply wp_bind, wp_bind. eapply wp_mono; [apply handle_ps_always|intros [[d c] fs] [Hm Hlen]; cbn [fst] in *|done]; [done|rewrite Hps; lia|].
    apply wp_ok, wp_ok. cbn [fst]. split_and!; [split_and!|..]; try done; cbn [ig_ps set_ps]; congruence.
  - apply wp_bind, wp_bind. eapply wp_mono; [apply TsDemux.demux_ts_always|intros [[c fs] t] _|done].
    apply wp_ok, wp_ok. cbn [fst]. split_and!; [split_and!|..]; try done; cbn [ig_ps set_ts]; congruence.
  - destruct (handle_h26x _ _ _ _ _) as [[fu c] fs]. apply wp_ok. cbn [fst]. split_and!; [split_and!|..]; try done; cbn [ig_ps set_h26x]; congruence.
  - destruct (handle_h26x _ _ _ _ _) as [[fu c] fs]. apply wp_ok. cbn [fst]. split_and!; [split_and!|..]; try done; cbn [ig_ps set_h26x]; congruence.
  - apply wp_ok. cbn [fst]. split_and!; [split_and!|..]; try done; congruence.
  - apply wp_ok. cbn [fst]. split_and!; [split_and!|..]; try done; congruence.
  - apply wp_ok. cbn [fst]. split_and!; [split_and!|..]; try done; congruence.
  - destruct (handle_h26x _ _ _ _ _) as [[fu c] fs]. apply wp_ok. cbn [fst]. split_and!; [split_and!|..]; try done; cbn [ig_ps set_h26x]; congruence.
Qed.

Definition short (pkt : bytes) : Prop := (length pkt <= Z.to_nat 65535)%nat.

Definition receiver_inv (s : RtpIngestState) : Prop :=
  ingest_inv s /\ (Z.to_nat 65535 <= max_buf (ig_ps s))%nat /\ held_ok short (ig_reorder s).

Lemma receiver_new_inv : receiver_inv ingest_new.
Proof.
  split; [apply ingest_new_inv|]. split; [change (max_buf (ig_ps ingest_new)) with MAX_BUF; unfold MAX_BUF; lia|].
  intros k v Hv. cbn in Hv. by rewrite lookup_empty in Hv.
Qed.

Lemma handle_all_always r s stats pkts :
  receiver_inv s -> Forall short pkts -> wp (handle_all r s stats pkts) (fun o => receiver_inv o.1.1) (fun _ => False).
Proof.
  intros Hs Hl. revert s stats Hs. induction Hl as [|p pkts Hp Hl IH]; intros s stats Hs; [by apply wp_ok|].
  cbn [handle_all]. pose proof Hs as (Hi & Hm & Hh). apply wp_bind.
  eapply wp_mono; [apply handle_rtp_always; [done|unfold short in Hp; lia]|intros [[s1 st1] fs] (Hi1 & Hm1 & Hr1)|done].
  cbn [fst] in *. apply wp_bind. eapply wp_mono; [apply IH|intros [[s2 st2] gs] Hs2; by apply wp_ok|done].
  split; [done|]. rewrite Hm1, Hr1. by split.
Qed.

Lemma ingest_packet_always r s stats pkt now :
  receiver_inv s -> bytes_ok pkt -> short pkt -> wp (ingest_packet r s stats pkt now) (fun o => receiver_inv o.1.1) (fun _ => False).
Proof.
  intros (Hi & Hm & Hh) Hpk Hsh. unfold ingest_packet. cbv zeta. pose proof Hi as (Hb & Hd & Hr).
  pose proof (reorder_push_packets short (ig_reorder s) (count_received stats (zlen pkt) now) pkt now Hh Hsh) as Hout.
  destruct (reorder_push_inv (ig_reorder s) (count_received stats (zlen pkt) now) pkt now Hr Hpk) as (b & st & out & He & Hb' & _).
  rewrite He in *. specialize (Hout _ eq_refl). cbn [fst snd] in Hout. destruct Hout as [Hh' Hout].
  cbn [mbind outcome_bind]. apply handle_all_always; [|done]. split; [|by split]. by split_and!.
Qed.

Lemma ingest_each_always r s stats l :
  receiver_inv s -> Forall (fun d => bytes_ok d.1 /\ short d.1) l ->
  wp (ingest_each r s stats l) (fun o => receiver_inv o.1.1) (fun _ => False).
Proof.
  intros Hs Hl. revert s stats Hs. induction Hl as [|[d now] l [Hd Hsh] Hl IH]; intros s stats Hs; [by apply wp_ok|].
  cbn [ingest_each]. apply wp_bind. eapply wp_mono; [by apply ingest_packet_always|intros [[s1 st1] fs] Hs1|done].
  cbn [fst] in *. apply wp_bind. eapply wp_mono; [by apply IH|intros [[s2 st2] gs] Hs2; by apply wp_ok|done].
Qed.

Lemma tcp_packets_short fuel stream :
  bytes_ok stream -> Forall (fun p => bytes_ok p /\ short p) (tcp_packets_fuel fuel stream).
Proof.
  revert stream. induction fuel as [|fuel IH]; intros stream Hs; [constructor|].
  destruct stream as [|a [|b rest]]; [constructor..|]. cbn [tcp_packets_fuel]. destruct (_ || _); [constructor|].
  apply Forall_cons in Hs as [Ha Hs]. apply Forall_cons in Hs as [Hb Hs]. constructor.
  - split; [by apply bytes_ok_take|]. unfold short. rewrite length_take, from_be_2. unfold is_u8 in *. lia.
  - apply IH. by apply bytes_ok_drop.
Qed.

(** ** Ports *)

Lemma alloc_port_free fuel m p :
  0 < p < 65536 -> inner m !! p = None -> is_u16 (next_port m) -> distance p (next_port m) < Z.of_nat fuel ->
  exists q, alloc_port fuel m = Ok (q, {| inner := inner m; next_port := u16 (q + 1) |}) /\ 0 < q < 65536 /\ inner m !! q = None.
Proof.
  intros Hp Hfree. destruct m as [i n]. cbn [inner next_port] in *. revert n.
  induction fuel as [|fuel IH]; intros n Hn Hd; [pose proof (u16_range (p - n)) as H0; unfold is_u16, distance in *; lia|].
  cbn [alloc_port inner next_port].
  assert (n <> p -> distance p (u16 (n + 1)) < Z.of_nat fuel /\ is_u16 (u16 (n + 1))) as Hnext.
  { intros Hne. assert (is_u16 p) by (unfold is_u16; lia). split; [|apply u16_range].
    assert (distance p n <> 0) by (intros H0%distance_zero; [by subst|done..]).
    rewrite distance_next; [lia|done|done|]. unfold distance, u16 in *. change (2 ^ 16) with 65536 in *. div_lia. }
  destruct (Z.eqb_spec n 0) as [->|Hn0]; [apply IH; apply Hnext; lia|].
  case_bool_decide as Hin.
  - apply IH; apply Hnext; intros ->; rewrite Hfree in Hin; by destruct Hin.
  - exists n. split; [done|]. split; [unfold is_u16 in Hn; lia|]. by apply eq_None_not_Some.
Qed.

(** A free port is found when there is one, and only then.  With one of
    the ports 1 to 65535 unused, [alloc_port] answers after at most 65536
    turns with a port in this range that is unused, the counter standing
    behind it; when all of them are in use its loop never ends. *)
Theorem alloc_port_total m :
  is_u16 (next_port m) ->
  ((exists p, 0 < p < 65536 /\ inner m !! p = None) ->
   exists q, alloc_port (Z.to_nat 65536) m = Ok (q, {| inner := inner m; next_port := u16 (q + 1) |}) /\
     0 < q < 65536 /\ inner m !! q = None) /\
  ((forall p, 0 < p < 65536 -> is_Some (inner m !! p)) -> forall fuel, alloc_port fuel m = NoFuel).
Proof.
  intros Hn. split.
  - intros (p & Hp & Hfree). apply (alloc_port_free _ m p Hp Hfree Hn). unfold distance, u16.
    change (2 ^ 16) with 65536. div_lia.
  - intros Hall fuel. revert m Hn Hall. induction fuel as [|fuel IH]; intros m Hn Hall; [done|]. cbn [alloc_port inner next_port].
    destruct (Z.eqb_spec (next_port m) 0) as [H0|H0]; [apply IH; [apply u16_range|done]|].
    rewrite bool_decide_true by (apply Hall; unfold is_u16 in Hn; lia). apply IH; [apply u16_range|done].
Qed.

Lemma alloc_port_total_witness :
  exists q, alloc_port (Z.to_nat 65536) (manager_new 0) = Ok (q, {| inner := ∅; next_port := u16 (q + 1) |}) /\ 0 < q < 65536.
Proof.
  destruct (proj1 (alloc_port_total (manager_new 0) ltac:(vm_compute; done))) as (q & H & Hq & _).
  - exists 1. split; [lia|]. apply lookup_empty.
  - exists q. split; [exact H|exact Hq].
Defined.

(** ** H.265 units *)

(** Of the H.265 units that come whole in a packet, those whose type is 1,
    2 or 4 modulo 16 (among them the trailing pictures, the sequence and
    picture parameter sets and the IDR pictures without leading ones) are
    published as H.264: the type is read as an H.264 type first, although the
    receiver was told or has found that the stream is H.265. *)
Lemma h265_unit_relabelled t h1 body pts fu c :
  0 <= t < 48 ->
  let unit := [t * 2; h1] ++ body in
  let c' := if bool_decide (t mod 16 ∈ [1; 2; 4]) then H264 else H265 in
  exists f, handle_h26x unit pts PtH265 fu c = (fu, c', [f]) /\ codec f = c' /\ data f = [0; 0; 0; 1] ++ unit /\
    frame_type f = Video.
Proof.
  intros Ht. cbv zeta. unfold handle_h26x. cbn [app]. rewrite bool_decide_true by done. unfold handle_h265.
  assert (((t * 2) .>> 1) .& 0x3F = t) as Htype by (bits_arith; div_lia). rewrite Htype.
  destruct (Z.eqb_spec t 49); [lia|]. destruct (Z.eqb_spec t 48); [lia|].
  unfold publish_video. cbn [app length Nat.ltb Nat.leb nth]. rewrite Htype.
  match goal with |- context [if ?x then H264 else ?y] => set (c1 := if x then H264 else y) end.
  assert (c1 = if bool_decide (t mod 16 ∈ [1; 2; 4]) then H264 else H265) as Hc1.
  { subst c1. clear -Ht. assert (t ∈ Z.of_nat <$> seq 0 48) as Hin.
    { apply list_elem_of_fmap. exists (Z.to_nat t). split; [lia|]. apply elem_of_seq. lia. }
    revert Hin. generalize t. apply Forall_forall. apply (bool_decide_unpack _). vm_compute. exact I. }
  rewrite Hc1. eexists. split; [reflexivity|]. by destruct (bool_decide _).
Qed.

(** H.264 and H.265 are confused both ways.  An H.265 unit that comes whole
    in a packet and whose type is 1, 2 or 4 modulo 16 (among them the trailing
    pictures, the sequence and picture parameter sets, and the IDR pictures
    without leading ones) is published as H.264, although the receiver was
    told or has found that the stream is H.265; and a receiver that detects
    the format takes an H.264 stream for H.265 when the first packet it sees is
    a slice of a reference picture other than an IDR (header 0x41 or 0x61). *)
Theorem h26x_confusions :
  (forall t h1 body pts fu c, 0 <= t < 48 ->
    let unit := [t * 2; h1] ++ body in
    let c' := if bool_decide (t mod 16 ∈ [1; 2; 4]) then H264 else H265 in
    exists f, handle_h26x unit pts PtH265 fu c = (fu, c', [f]) /\ codec f = c' /\ data f = [0; 0; 0; 1] ++ unit /\
      frame_type f = Video) /\
  (forall b rest pt, b ∈ [0x41; 0x61] -> rest <> [] -> pt <> 0 -> pt <> 8 -> detect_payload_type (b :: rest) pt = PtH265).
Proof.
  split; [exact h265_unit_relabelled|]. intros b rest pt Hb Hr H0 H8. destruct rest as [|x rest]; [done|].
  unfold detect_payload_type. destruct (Z.eqb_spec pt 0); [done|]. destruct (Z.eqb_spec pt 8); [done|].
  apply elem_of_cons in Hb as [->|Hb%list_elem_of_singleton]; [|subst b];
    (rewrite (bool_decide_false (take 3 _ = _)) by done; rewrite (bool_decide_false (head _ = _)) by done;
     rewrite !andb_false_r; reflexivity).
Qed.

Lemma h26x_confusions_witness :
  exists f, handle_h26x [0x42; 1; 0x60] 40 PtH265 [] H265 = ([], H264, [f]) /\ codec f = H264.
Proof.
  destruct (proj1 h26x_confusions 33 1 [0x60] 40 [] H265 ltac:(lia)) as (f & H & Hc & _).
  exists f. split; [exact H|exact Hc].
Defined.
