(* ===== verification/GbRelay.v ===== *)
(** * GbRelay: an RTP sender and an RTP port, end to end

    The packets of the sender of [core/src/rtp.rs] in program stream mode cross
    a network that displaces them a little and reach a port of
    [srt/src/gb28181/rtp_server.rs]: reordering buffer, program stream demuxer
    and publication together; then what a port does with any input at all. *)

From S2P Require Import Prelude Frame AnnexB Payload PsDemux PsMux.
From S2P Require Import Rtp RtpSend.
From S2P Require Import GbReorder GbRtp.
#[local] Open Scope Z_scope.

(** ** Statistics do not change what is published *)

Definition same_counts (a b : RtpStats) : Prop :=
  lost_packets a = lost_packets b /\ duplicate_packets a = duplicate_packets b.

Lemma reorder_push_counts b stats stats2 packet now b' st' out :
  same_counts stats2 stats -> reorder_push b stats packet now = Ok (b', st', out) ->
  exists st2, reorder_push b stats2 packet now = Ok (b', st2, out) /\ same_counts st2 st'.
Proof.
  intros [Hl Hd] He. unfold reorder_push in *. destruct (_ <? _)%nat; [simplify_eq; by exists stats2|].
  destruct (idx packet 2) as [s2| | |]; try done. destruct (idx packet 3) as [s3| | |]; try done.
  cbn [mbind outcome_bind] in *. unfold push_sequenced in *.
  destruct (expected b) as [e|]; [|simplify_eq; by exists stats2]. cbv zeta in *.
  destruct (_ =? 0).
  { destruct (drain_ready _ _) as [b1 out1]. simplify_eq. by exists stats2. }
  destruct (_ || bool_decide _).
  { simplify_eq. exists (count_duplicate stats2). split; [done|]. split; [done|]. cbn. by rewrite Hd. }
  destruct (_ || _).
  - unfold skip_gap in *. destruct (expected _) as [e1|]; [|done]. destruct (nearest _ _) as [n|].
    + destruct (drain_ready _ _) as [b1 out1]. simplify_eq. eexists. split; [reflexivity|]. split; [|done]. cbn. by rewrite Hl.
    + simplify_eq. exists (count_reordered stats2). split; [reflexivity|by split].
  - simplify_eq. exists (count_reordered stats2). split; [reflexivity|by split].
Qed.

Lemma handle_payload_reorder r s b pt payload ts s1 fs :
  handle_payload r s pt payload ts = Ok (s1, fs) ->
  handle_payload r (set_reorder s b) pt payload ts = Ok (set_reorder s1 b, fs).
Proof.
  unfold handle_payload. intros He.
  destruct pt; cbn [set_reorder ig_ps ig_ts ig_ts_timestamp fu_buf ig_video_codec mbind outcome_bind] in *; [done|..].
  - destruct (handle_ps _ _ _ _ _) as [[[d c] fs1]| | |]; by simplify_eq/=.
  - destruct (TsDemux.demux_ts_packets _ _ _) as [[[c fs1] t]| | |]; by simplify_eq/=.
  - destruct (handle_h26x _ _ _ _ _) as [[fu c] fs1]. by simplify_eq/=.
  - destruct (handle_h26x _ _ _ _ _) as [[fu c] fs1]. by simplify_eq/=.
  - by simplify_eq/=.
  - by simplify_eq/=.
  - by simplify_eq/=.
  - destruct (handle_h26x _ _ _ _ _) as [[fu c] fs1]. by simplify_eq/=.
Qed.

Lemma handle_rtp_reorder r s b stats stats2 pkt s1 st1 fs :
  handle_rtp r s stats pkt = Ok (s1, st1, fs) ->
  exists st2, handle_rtp r (set_reorder s b) stats2 pkt = Ok (set_reorder s1 b, st2, fs) /\ same_counts st2 stats2.
Proof.
  unfold handle_rtp. intros He. do 12 (destruct pkt as [|? pkt]; [simplify_eq; by exists stats2|]).
  destruct (negb _); [simplify_eq; by exists stats2|]. cbv zeta in *.
  destruct (match expected_ssrc r with Some _ => _ | None => _ end); [simplify_eq; eexists; split; [reflexivity|done]|].
  destruct (rtp_payload _ _) as [[payload|]| | |]; try done; cbn [mbind outcome_bind] in *;
    [|simplify_eq; eexists; split; [reflexivity|done]].
  assert (effective_payload r (set_reorder s b) payload (z0 .& 127) =
    (set_reorder (effective_payload r s payload (z0 .& 127)).1 b, (effective_payload r s payload (z0 .& 127)).2)) as ->
    by (unfold effective_payload; by destruct (rv_payload r)).
  destruct (effective_payload r s payload _) as [s0 pt]. cbn [fst snd].
  destruct (handle_payload r s0 pt payload _) as [[s2 fs2]| | |] eqn:Hp; simplify_eq/=.
  rewrite (handle_payload_reorder _ _ _ _ _ _ _ _ Hp). eexists. split; [reflexivity|done].
Qed.

Lemma handle_all_reorder r s b stats stats2 pkts s1 st1 fs :
  handle_all r s stats pkts = Ok (s1, st1, fs) ->
  exists st2, handle_all r (set_reorder s b) stats2 pkts = Ok (set_reorder s1 b, st2, fs) /\ same_counts st2 stats2.
Proof.
  revert s stats stats2 fs. induction pkts as [|p pkts IH]; intros s stats stats2 fs He; [simplify_eq/=; by exists stats2|].
  cbn [handle_all] in *. destruct (handle_rtp r s stats p) as [[[s2 st2] fs2]| | |] eqn:Hp; try done. cbn [mbind outcome_bind] in *.
  destruct (handle_rtp_reorder r s b stats stats2 p _ _ _ Hp) as (st3 & -> & Hc). cbn [mbind outcome_bind].
  destruct (handle_all r s2 st2 pkts) as [[[s4 st4] fs4]| | |] eqn:Ha; simplify_eq/=.
  destruct (IH _ _ st3 _ Ha) as (st5 & -> & Hc'). eexists. split; [reflexivity|].
  destruct Hc, Hc'. split; congruence.
Qed.

Lemma handle_all_app r s stats p1 p2 s2 st2 fs :
  handle_all r s stats (p1 ++ p2) = Ok (s2, st2, fs) ->
  exists s1 st1 f1 f2, handle_all r s stats p1 = Ok (s1, st1, f1) /\ handle_all r s1 st1 p2 = Ok (s2, st2, f2) /\ fs = f1 ++ f2.
Proof.
  revert s stats fs. induction p1 as [|p p1 IH]; intros s stats fs He; [by exists s, stats, [], fs|].
  rewrite <-app_comm_cons in He. cbn [handle_all] in *. destruct (handle_rtp r s stats p) as [[[s0 st0] f0]| | |]; try done. cbn [mbind outcome_bind] in *.
  destruct (handle_all r s0 st0 (p1 ++ p2)) as [[[s3 st3] f3]| | |] eqn:Ha; simplify_eq/=.
  destruct (IH _ _ _ Ha) as (s1 & st1 & f1 & f2 & -> & H2 & ->). exists s1, st1, (f0 ++ f1), f2.
  split_and!; [done|done|]. by rewrite app_assoc.
Qed.

(** The receiver is the buffer followed by the handler. *)
Lemma ingest_each_reordered r s stats st l b' st' pkts st0 s' st0' fs :
  push_all (ig_reorder s) st l = Ok (b', st', pkts) -> same_counts stats st ->
  handle_all r s st0 pkts = Ok (s', st0', fs) ->
  exists stats', ingest_each r s stats l = Ok (set_reorder s' b', stats', fs) /\ same_counts stats' st'.
Proof.
  revert s stats st st0 pkts s' st0' fs. induction l as [|[p now] l IH]; intros s stats st st0 pkts s' st0' fs Hpush Hc Hall.
  { cbn in Hpush. simplify_eq/=. exists stats. split; [by destruct s'|done]. }
  cbn [push_all ingest_each] in *.
  destruct (reorder_push (ig_reorder s) st p now) as [[[b1 st1] out]| | |] eqn:H1; try done. cbn [mbind outcome_bind] in Hpush.
  destruct (push_all b1 st1 l) as [[[b2 st2] outs]| | |] eqn:H2; simplify_eq/=.
  destruct (handle_all_app _ _ _ _ _ _ _ _ Hall) as (s1 & sta & f1 & f2 & Hf1 & Hf2 & ->).
  unfold ingest_packet. cbv zeta.
  destruct (reorder_push_counts (ig_reorder s) st (count_received stats (zlen p) now) p now b1 st1 out Hc H1) as (st3 & -> & Hc3).
  cbn [mbind outcome_bind].
  destruct (handle_all_reorder r s b1 st0 st3 out _ _ _ Hf1) as (st4 & -> & Hc4). cbn [mbind outcome_bind].
  destruct (handle_all_reorder r s1 b1 sta st4 outs _ _ _ Hf2) as (st5 & Hf2' & _).
  destruct (IH (set_reorder s1 b1) st4 st1 st4 outs (set_reorder s' b1) st5 f2 H2) as (stats' & -> & Hc'); [|exact Hf2'|].
  { destruct Hc3, Hc4. split; congruence. }
  eexists. split; [reflexivity|done].
Qed.

(** ** The packets of the sender *)

(** A header without padding, extension or contributing sources. *)
Definition plain (ssrc : Z) (pkt : bytes) : Prop :=
  exists b1 q ts payload, payload <> [] /\ pkt = ([0x80; b1] ++ to_be 2 q ++ to_be 4 ts ++ to_be 4 ssrc) ++ payload.

Lemma emit_plain p ts l :
  Forall (fun u : bool * bytes => u.2 <> []) l -> Forall (plain (ssrc p)) (emit p ts l).
Proof.
  intros Hl. revert p. induction Hl as [|[m pl] l Hpl Hl IH]; intros p; [constructor|]. cbn [emit header]. constructor.
  - eexists _, (sequence p), ts, pl. split; [exact Hpl|]. reflexivity.
  - exact (IH (with_sequence p (u16 (sequence p + 1)))).
Qed.

Lemma length_emit p ts l : length (emit p ts l) = length l.
Proof.
  revert p. induction l as [|[m pl] l IH]; intros p; [done|]. cbn [emit header length]. f_equal.
  exact (IH (with_sequence p (u16 (sequence p + 1)))).
Qed.

Lemma emit_sequences p ts l i pkt :
  seq_ok p -> emit p ts l !! i = Some pkt -> sequence_of pkt = Some (sq (sequence p) i).
Proof.
  intros Hp Hi. assert (is_Some (l !! i)) as [[m pl] Hli].
  { apply lookup_lt_is_Some. apply lookup_lt_Some in Hi. by rewrite <-(length_emit p ts). }
  rewrite (emit_lookup p ts l i m pl Hli Hp) in Hi. injection Hi as <-. cbn [header snd].
  change (sequence_of _) with (Some (from_be (to_be 2 (sequence (advance_seq p i))))).
  rewrite from_be_to_be. f_equal. cbn [advance_seq with_sequence sequence]. unfold sq, u16.
  change (256 ^ Z.of_nat 2) with (2 ^ 16). by rewrite Z.mod_mod.
Qed.

Lemma payload_units_nonempty m payload : (0 < m)%nat -> Forall (fun u : bool * bytes => u.2 <> []) (payload_units m payload).
Proof.
  intros Hm. unfold payload_units. destruct payload as [|b payload]; [constructor|]. apply Forall_forall.
  intros [x c] Hx%elem_of_zip_r. cbn [snd]. apply chunks_length in Hx; [|done]. by destruct c; [cbn in Hx; lia|].
Qed.

Section sender.
Context {X : Type} (ext_mux : X -> MediaFrame -> X * result bytes).

Lemma ps_stream_packets r frames s m p packets :
  external_muxer s = None -> ps_muxer s = Some m -> packetizer s = Some p -> seq_ok p -> (0 < mtu p)%nat ->
  send_stream ext_mux r s frames = Ok packets ->
  Forall (plain (ssrc p)) packets /\ forall i pkt, packets !! i = Some pkt -> sequence_of pkt = Some (sq (sequence p) i).
Proof.
  revert s m p packets. induction frames as [|f fs IH]; intros s m p packets He Hm Hp Hs Hmtu Hsend.
  { simplify_eq/=. split; [constructor|done]. }
  cbn [send_stream] in Hsend. unfold frame_to_packets in Hsend. rewrite He, Hm in Hsend.
  destruct (negb _ || _).
  { cbn [mbind outcome_bind] in *. destruct (send_stream ext_mux r s fs) as [rest| | |] eqn:Hrest; simplify_eq/=. by eapply IH. }
  destruct (mux_frame m f) as [m' res]. unfold send_muxed in Hsend.
  destruct res as [payload| | |]; cbn [mbind outcome_bind] in Hsend; try done.
  cbn [set_muxers packetizer] in Hsend. rewrite Hp in Hsend. rewrite packetize_payload_emit in Hsend by done. cbv zeta in Hsend.
  set (l := payload_units (mtu p) payload) in *. cbn [mbind outcome_bind] in Hsend.
  destruct (send_stream ext_mux _ _ fs) as [rest| | |] eqn:Hrest; simplify_eq/=.
  apply (IH _ m' (advance_seq p (length l))) in Hrest as [HI1 HI2];
    [|done|done|done|apply Z.mod_pos_bound; lia|done].
  split.
  - apply Forall_app. split; [apply emit_plain, payload_units_nonempty; done|done].
  - intros i pkt [Hi|[Hle Hi]]%lookup_app_Some; [by eapply emit_sequences|].
    rewrite length_emit in *. rewrite (HI2 _ _ Hi). cbn [advance_seq with_sequence sequence]. unfold sq, u16.
    rewrite Z.add_mod_idemp_l by done. do 2 f_equal. lia.
Qed.
End sender.

(** ** A port in program stream mode *)

Section relay.
Context (r : Receiver) (ssrc : Z).
Hypothesis Hps : rv_payload r = PtPs.
Hypothesis Hssrc : match expected_ssrc r with Some e => e = ssrc | None => True end.
Hypothesis Hu32 : is_u32 ssrc.

Definition stamp (pkt : bytes) : Z := from_be (take 4 (drop 4 pkt)).

Lemma rtp_payload_plain pkt : (12 < length pkt)%nat -> rtp_payload pkt 0x80 = Ok (Some (drop 12 pkt)).
Proof.
  intros Hl. unfold rtp_payload. change (Z.to_nat (0x80 .& 0x0F) * 4)%nat with 0%nat. change ((0x80 .>> 4) .& 1 =? 1) with false.
  change ((0x80 .>> 5) .& 1 =? 1) with false. cbn [andb mbind outcome_bind].
  rewrite (proj2 (Nat.leb_gt (length pkt) (12 + 0))) by lia. change (12 + 0)%nat with 12%nat.
  rewrite slice_ok by lia. cbn [mbind outcome_bind]. rewrite take_ge by (rewrite length_drop; lia).
  assert (drop 12 pkt <> []) as Hne by (intros H%(f_equal length); rewrite length_drop in H; cbn in H; lia).
  destruct (last (drop 12 pkt)); by destruct (drop 12 pkt).
Qed.

Lemma handle_rtp_plain s stats pkt :
  plain ssrc pkt ->
  handle_rtp r s stats pkt =
  ('(d, c, fs) ← handle_ps r (drop 12 pkt) (stamp pkt) (ig_ps s) (ig_video_codec s); Ok (set_ps s d c, set_ssrc stats ssrc, fs)).
Proof.
  intros (b1 & q & ts & payload & Hne & ->). unfold stamp. rewrite to_be_2, (to_be_4 ts), (to_be_4 ssrc). cbn [Datatypes.app].
  unfold handle_rtp. change (negb (0x80 .>> 6 =? 2)) with false. cbv iota zeta.
  rewrite <-(to_be_4 ssrc), from_be_to_be_small by exact Hu32.
  assert ((match expected_ssrc r with Some e => negb (e =? ssrc) | None => false end) = false) as ->.
  { destruct (expected_ssrc r); [|done]. rewrite Hssrc, Z.eqb_refl. done. }
  rewrite rtp_payload_plain by (cbn [length]; destruct payload; [done|cbn [length]; lia]).
  cbn [mbind outcome_bind]. unfold effective_payload, handle_payload. rewrite Hps. cbn [drop take].
  by destruct (handle_ps _ _ _ _ _) as [[[d c] fs]| | |].
Qed.

(** What is published for one PES packet of type [t]. *)
Definition relay (t : option Z) (pkt : PesPacket) (a : CodecId * list MediaFrame) : result (CodecId * list MediaFrame) :=
  '(c, fs) ← process_pes r pkt t 0 a.1; Ok (c, a.2 ++ fs).

Definition take_ps (d : PsDemuxer) (item : bytes * Z) (a : CodecId * list MediaFrame) : result (PsDemuxer * (CodecId * list MediaFrame)) :=
  '(d, c, fs) ← handle_ps r item.1 item.2 d a.1; Ok (d, (c, a.2 ++ fs)).

Lemma takes_ps : takes_in (looked_up relay) fst (fun pkt => is_Some (pes_pts pkt)) take_ps.
Proof.
  intros [p ts].
  exists (fun types pkt a => '(c, fs) ← process_pes r pkt (types !! pes_stream_id pkt) ts a.1; Ok (c, a.2 ++ fs)).
  exists (fun st => o ← ps_step r ts (st.1, st.2.1, st.2.2);
                    Ok (match o with inl (d, c, fs) => inl (d, (c, fs)) | inr (d, c, fs) => inr (d, (c, fs)) end)).
  split_and!.
  - intros types pkt [c fs] [x Hx]. unfold looked_up, relay, process_pes. by rewrite Hx.
  - split.
    + intros d [c fs] d' Hn. cbn [fst snd]. unfold ps_step. by rewrite Hn.
    + intros d [c fs] d' pes Hn. cbn [fst snd]. unfold ps_step, stream_type. rewrite Hn. cbn [ps_result mbind outcome_bind].
      by destruct (process_pes _ _ _ _ _) as [[c' fs']| | |].
  - intros d d1 [c fs] Hpush. unfold take_ps, handle_ps. cbn [fst snd] in *. rewrite Hpush. cbn [ps_result mbind outcome_bind].
    match goal with |- _ = loop ?n ?step _ =>
      pose proof (loop_map (ps_step r ts) step (fun st => (st.1.1, (st.1.2, fs ++ st.2))) (fun st => (st.1.1, (st.1.2, fs ++ st.2))) n (d1, c, [])) as Hl
    end.
    cbn [fst snd] in Hl. rewrite app_nil_r in Hl. rewrite Hl; clear Hl.
    + by destruct (loop _ _ _) as [[[d' c'] fs']| | |].
    + intros [[d0 c0] fs0]. cbn [fst snd]. unfold ps_step. destruct (ps_result (next_pes d0)) as [[d2 [pes|]]| | |]; cbn [mbind outcome_bind]; try done.
      destruct (process_pes _ _ _ _ _) as [[c' fs']| | |]; cbn [mbind outcome_bind fst snd]; try done. by rewrite app_assoc.
Qed.

(** The packets' payloads, each with its timestamp. *)
Definition items (pkts : list bytes) : list (bytes * Z) := (fun p => (drop 12 p, stamp p)) <$> pkts.

Lemma handle_all_feed s stats pkts fs0 d' c' fs' :
  Forall (plain ssrc) pkts ->
  feed take_ps (ig_ps s) (ig_video_codec s, fs0) (items pkts) = Ok (d', (c', fs')) ->
  exists stats' new, fs' = fs0 ++ new /\ handle_all r s stats pkts = Ok (set_ps s d' c', stats', new).
Proof.
  intros Hp. revert s stats fs0. induction Hp as [|p pkts Hp Hl IH]; intros s stats fs0 Hf.
  { cbn in Hf. simplify_eq. exists stats, []. rewrite app_nil_r. split; [done|]. by destruct s. }
  change (items (p :: pkts)) with ((drop 12 p, stamp p) :: items pkts) in Hf. cbn [feed handle_all] in *.
  change (take_ps (ig_ps s) (drop 12 p, stamp p) (ig_video_codec s, fs0)) with
    ('(d, c, fs) ← handle_ps r (drop 12 p) (stamp p) (ig_ps s) (ig_video_codec s); Ok (d, (c, fs0 ++ fs))) in Hf.
  rewrite handle_rtp_plain by done.
  destruct (handle_ps r (drop 12 p) (stamp p) (ig_ps s) (ig_video_codec s)) as [[[d c] fs]| | |]; try done.
  cbn [mbind outcome_bind] in *.
  destruct (IH (set_ps s d c) (set_ssrc stats ssrc) (fs0 ++ fs) Hf) as (stats' & new & -> & ->).
  exists stats', (fs ++ new). cbn [mbind outcome_bind]. split; [by rewrite app_assoc|]. by destruct s.
Qed.

Lemma relay_always t pkt a : always (relay t pkt a).
Proof.
  unfold relay. apply wp_bind. eapply wp_mono; [apply process_pes_always|intros [c fs] _; by apply wp_ok|done].
Qed.

Lemma each_always t pkts a : always (each relay t pkts a).
Proof.
  revert a. induction pkts as [|p pkts IH]; intros a; [done|]. cbn [each]. apply wp_bind.
  eapply wp_mono; [apply relay_always|intros a1 _; apply IH|done].
Qed.

Lemma each_frame_always m frames a : always (each_frame relay m frames a).
Proof.
  revert m a. induction frames as [|f fs IH]; intros m a; [done|]. cbn [each_frame]. apply wp_bind.
  eapply (wp_mono _ (fun _ => True) _ (fun _ => False)); [|intros a1 _; apply IH|done].
  destruct (ps_track (codec f)); [apply each_always|exact I..].
Qed.
End relay.

(** ** End to end *)

Lemma muxer_new_pending tracks : map_pending (muxer_new tracks) = true.
Proof.
  unfold muxer_new. assert (map_pending {| ps_tracks := []; aac_config := None; map_pending := true |} = true) as H0 by done.
  revert H0. generalize {| ps_tracks := []; aac_config := None; map_pending := true |}.
  induction tracks as [|t ts IH]; intros m Hm; [done|]. cbn [foldl]. apply IH.
  assert (forall c, map_pending (add_codec m c) = true) as Hc.
  { intros c. unfold add_codec. destruct (ps_track c); [|done..]. by case_bool_decide. }
  destruct t as [v|a]; cbn [muxer_new_track]; [apply Hc|]. case_bool_decide; [cbn [map_pending]; apply Hc|apply Hc].
Qed.

Lemma mux_frames_pts m frames : Forall (fun pkt => is_Some (pes_pts pkt)) (mux_frames m frames).2.
Proof.
  revert m. induction frames as [|f fs IH]; intros m; [constructor|]. cbn [mux_frames].
  specialize (IH (mux_frame m f).1). destruct (mux_frame m f) as [m' res]. cbn [fst] in IH.
  destruct (mux_frames m' fs) as [outs pkts]. cbn [snd] in IH. destruct res; [|exact IH..]. cbn [snd].
  apply Forall_app. split; [|exact IH]. unfold frame_packets. destruct (mux_frame m f).2 as [[|]| | |]; [constructor| |constructor..].
  destruct (ps_track (codec f)); [|constructor..]. destruct (elementary_payload m f); [|constructor..].
  apply Forall_fmap, Forall_true. intros c. by eexists.
Qed.

Lemma ps_frames_ok frames :
  Forall (fun f => frame_type f <> Metadata /\ is_Some (track_of f)) (List.filter ps_frame frames).
Proof.
  apply Forall_forall. intros f Hf%list_elem_of_In. apply filter_In in Hf as [_ Hf]. unfold ps_frame in Hf.
  apply andb_true_iff in Hf as [Hs Hm]. apply negb_true_iff, bool_decide_eq_false in Hm. split; [done|].
  unfold track_of. destruct (codec f); try done; cbn; by eexists.
Qed.

Lemma omap_filter frames : omap track_of (List.filter ps_frame frames) ⊆ omap track_of frames.
Proof.
  intros t (f & Hf%list_elem_of_In & Ht)%list_elem_of_omap. apply filter_In in Hf as [Hf _].
  apply list_elem_of_omap. exists f. split; [by apply list_elem_of_In|done].
Qed.

Section end_to_end.
Context {X : Type} (ext_mux : X -> MediaFrame -> X * result bytes).

(** What a sender sends, as the port's receiver publishes it when the packets
    come one by one. *)
Lemma ps_stream_handled q tracks frames packets r :
  data_type q = Ps -> is_u32 (req_ssrc q) ->
  send_stream ext_mux q (initial_state q tracks None) frames = Ok packets ->
  single (ps_tracks (muxer_new tracks) ++ omap track_of frames) ->
  rv_payload r = PtPs -> match expected_ssrc r with Some e => e = req_ssrc q | None => True end ->
  exists c out s stats,
    each_frame (relay r) (muxer_new tracks) (List.filter ps_frame frames) (H264, []) = Ok (c, out) /\
    handle_all r ingest_new stats_new packets = Ok (s, stats, out) /\
    Forall (fun p => length p <= 2048)%nat packets /\
    (forall i p, packets !! i = Some p -> sequence_of p = Some (sq 0 i)) /\
    Forall (fun p => 12 <= length p)%nat packets.
Proof.
  intros Hd Hu Hsend Hsingle Hr Hssrc. destruct (initial_ps (X := X) q tracks Hd) as (p & Hp & Hm & Hs & Hmtu).
  assert (0 < mtu p)%nat as Hpos by (rewrite Hmtu; unfold DEFAULT_MTU; lia).
  destruct (ps_stream_bytes ext_mux q frames (initial_state q tracks None) (muxer_new tracks) p packets eq_refl Hm Hp Hs Hpos Hsend) as [H1 H2].
  destruct (ps_stream_packets ext_mux q frames (initial_state q tracks None) (muxer_new tracks) p packets eq_refl Hm Hp Hs Hpos Hsend) as [H3 H4].
  assert (p = packetizer_new (req_ssrc q) (req_payload_type q) 90000) as ->.
  { unfold initial_state in Hp. rewrite Hd in Hp. cbn in Hp. by simplify_eq. }
  change (ssrc (packetizer_new _ _ _)) with (req_ssrc q) in H3. change (sequence (packetizer_new _ _ _)) with 0 in H4.
  set (fs := List.filter ps_frame frames) in *. destruct (mux_frames (muxer_new tracks) fs) as [outs pkts] eqn:Hmux.
  destruct (stream_entities_ok _ _ _ _ (muxer_new_inv tracks) Hmux) as (E1 & E2 & E3 & E4). cbn [fst] in H1.
  pose proof (mux_frames_pts (muxer_new tracks) fs) as Hpts. rewrite Hmux in Hpts. cbn [snd] in Hpts.
  pose proof (each_frame_always r (muxer_new tracks) fs (H264, [])) as Hall.
  destruct (each_frame (relay r) (muxer_new tracks) fs (H264, [])) as [[c out]| | |] eqn:Heach; try done. clear Hall.
  assert (feed (take_ps r) (demuxer_with MAX_BUF) (H264, []) (items packets) =
    Ok ({| buf := []; stream_types := foldl ent_types ∅ (stream_entities (muxer_new tracks) fs); max_buf := MAX_BUF |}, (c, out))) as Hfeed.
  { rewrite (feed_stream (looked_up (relay r)) fst (fun pkt => is_Some (pes_pts pkt)) (take_ps r) MAX_BUF MAX_ENTITY
      (stream_entities (muxer_new tracks) fs)).
    - rewrite (stream_walk (relay r) ∅ (ps_tracks (muxer_new tracks) ++ omap track_of frames) (muxer_new tracks) fs (H264, [])).
      + by rewrite Heach.
      + done.
      + intros t Ht. apply elem_of_app. by left.
      + intros t Ht. apply elem_of_app. right. by apply omap_filter.
      + apply ps_frames_ok.
      + intros Hpend. by rewrite muxer_new_pending in Hpend.
    - by apply takes_ps.
    - done.
    - done.
    - by rewrite E4.
    - unfold items. apply Forall_fmap, Forall_forall. intros pkt Hpkt. cbn. rewrite Forall_forall in H2.
      specialize (H2 (drop 12 pkt) ltac:(apply list_elem_of_fmap; by exists pkt)). rewrite Hmtu in H2.
      unfold DEFAULT_MTU, MAX_BUF, MAX_ENTITY, MAX_PES_PAYLOAD in *. lia.
    - unfold items. rewrite <-list_fmap_compose. change (fst ∘ _) with (drop (A := Z) 12). by rewrite H1. }
  destruct (handle_all_feed r (req_ssrc q) Hr Hssrc Hu ingest_new stats_new packets [] _ c out H3 Hfeed) as (stats & new & -> & Hall).
  exists c, new. eexists _, stats. split; [done|]. split; [exact Hall|]. split; [|split; [exact H4|]].
  2: { eapply Forall_impl; [exact H3|]. intros pkt (b1 & sn & ts & pl & _ & ->). rewrite !length_app, !length_to_be. cbn [length]. lia. }
  apply Forall_forall. intros pkt Hpkt. rewrite Forall_forall in H2.
  specialize (H2 (drop 12 pkt) ltac:(apply list_elem_of_fmap; by exists pkt)). rewrite length_drop, Hmtu in H2. unfold DEFAULT_MTU in H2. lia.
Qed.

Lemma relayed_in_order q tracks frames packets r t0 l :
  data_type q = Ps -> is_u32 (req_ssrc q) ->
  send_stream ext_mux q (initial_state q tracks None) frames = Ok packets ->
  single (ps_tracks (muxer_new tracks) ++ omap track_of frames) ->
  rv_payload r = PtPs -> match expected_ssrc r with Some e => e = req_ssrc q | None => True end ->
  ((0%nat, t0) :: l).*1 ≡ₚ seq 0 (length packets) -> displaced_little ((0%nat, t0) :: l) -> prompt ((0%nat, t0) :: l) ->
  exists c out s stats,
    each_frame (relay r) (muxer_new tracks) (List.filter ps_frame frames) (H264, []) = Ok (c, out) /\
    run_udp r stats_new (arrival (nth_packet packets) <$> (0%nat, t0) :: l) = Ok (s, stats, out) /\
    lost_packets stats = 0 /\ duplicate_packets stats = 0.
Proof.
  intros Hd Hu Hsend Hsingle Hr Hssrc Hperm Hlittle Hprompt.
  destruct (ps_stream_handled q tracks frames packets r Hd Hu Hsend Hsingle Hr Hssrc) as (c & out & s & st & Heach & Hall & Hlen & Hseq & _).
  assert (forall i, (i < length packets)%nat -> is_Some (packets !! i)) as Hin by (intros i Hi; by apply lookup_lt_is_Some).
  destruct (restored 0 (nth_packet packets) t0 l (length packets) Hperm Hlittle Hprompt) as (b & st2 & Hpush & Hl & Hdup & _).
  { intros i [p Hi]%Hin. unfold numbered. rewrite (nth_packet_lookup _ _ _ Hi). by apply Hseq. }
  rewrite nth_packets in Hpush.
  destruct (ingest_each_reordered r ingest_new stats_new stats_new (arrival (nth_packet packets) <$> (0%nat, t0) :: l) b st2 packets
    stats_new s st out Hpush) as (stats & Hrun & [Hl' Hdup']); [done|done|].
  assert ((fun d : bytes * Z => (take 2048 d.1, d.2)) <$> (arrival (nth_packet packets) <$> (0%nat, t0) :: l) =
    arrival (nth_packet packets) <$> (0%nat, t0) :: l) as Hshort.
  { rewrite <-list_fmap_compose. apply list_fmap_ext. intros k [i t] Hk%list_elem_of_lookup_2. cbn.
    assert (i ∈ ((0%nat, t0) :: l).*1) as Hi by (apply list_elem_of_fmap; by exists (i, t)).
    rewrite Hperm in Hi. apply elem_of_seq in Hi as [_ Hi]. destruct (Hin i Hi) as [p Hp].
    unfold arrival. cbn. rewrite (nth_packet_lookup _ _ _ Hp), take_ge; [done|]. rewrite Forall_lookup in Hlen. by apply (Hlen i). }
  rewrite <-Hshort in Hrun.
  exists c, out. eexists _, stats. split; [done|]. split; [exact Hrun|]. split; congruence.
Qed.

(** C3: MPEG-PS over RTP survives a network that reorders.  A sender in program
    stream mode sends frames without error, no two codecs of the stream
    sharing a stream id; its packets arrive each once, none more than 31
    places from its own and 64 in a row within 50 ms, at a UDP port in program
    stream mode that expects this SSRC or none.  Then the port publishes
    exactly what publishing the packets of each frame in turn gives
    ([frame_packets]: the frame's elementary payload in pieces with the
    frame's PTS), under the codec of the frame, and counts nothing as lost or
    repeated. *)
Theorem ps_relay_in_order q tracks frames packets r t0 l :
  data_type q = Ps -> is_u32 (req_ssrc q) ->
  send_stream ext_mux q (initial_state q tracks None) frames = Ok packets ->
  single (ps_tracks (muxer_new tracks) ++ omap track_of frames) ->
  rv_payload r = PtPs -> match expected_ssrc r with Some e => e = req_ssrc q | None => True end ->
  ((0%nat, t0) :: l).*1 ≡ₚ seq 0 (length packets) -> displaced_little ((0%nat, t0) :: l) -> prompt ((0%nat, t0) :: l) ->
  exists c out s stats,
    each_frame (relay r) (muxer_new tracks) (List.filter ps_frame frames) (H264, []) = Ok (c, out) /\
    run_udp r stats_new (arrival (nth_packet packets) <$> (0%nat, t0) :: l) = Ok (s, stats, out) /\
    lost_packets stats = 0 /\ duplicate_packets stats = 0.
Proof. exact (relayed_in_order q tracks frames packets r t0 l). Qed.

(** *** Over a connection *)

Lemma tcp_packets_fuel_enough n m stream :
  (length stream <= n)%nat -> (n <= m)%nat -> tcp_packets_fuel m stream = tcp_packets_fuel n stream.
Proof.
  revert stream m. induction n as [|n IH]; intros s m Hs Hm.
  { apply Nat.le_0_r, length_zero_iff_nil in Hs. subst. by destruct m. }
  destruct m as [|m]; [lia|]. destruct s as [|a [|b rest]]; [done..|]. cbn [tcp_packets_fuel length] in *.
  destruct (_ || _); [done|]. f_equal. apply IH; [rewrite length_drop; lia|lia].
Qed.

Lemma tcp_packets_cons a b rest :
  tcp_packets (a :: b :: rest) =
  let len := Z.to_nat (from_be [a; b]) in
  if (len <? 12)%nat || (length rest <? len)%nat then [] else take len rest :: tcp_packets (drop len rest).
Proof.
  unfold tcp_packets at 1. cbn [length].
  change (tcp_packets_fuel (S (S (length rest))) (a :: b :: rest)) with
    (let len := Z.to_nat (from_be [a; b]) in
     if (len <? 12)%nat || (length rest <? len)%nat then [] else take len rest :: tcp_packets_fuel (S (length rest)) (drop len rest)).
  cbv zeta. destruct (_ || _); [done|]. f_equal. apply tcp_packets_fuel_enough; [done|rewrite length_drop; lia].
Qed.

(** What the sender writes to a connection. *)
Fixpoint tcp_stream (packets : list bytes) : result bytes :=
  match packets with
  | [] => Ok []
  | p :: packets => f ← tcp_frame p; rest ← tcp_stream packets; Ok (f ++ rest)
  end.

Lemma tcp_stream_read packets stream :
  Forall (fun p => 12 <= length p)%nat packets -> tcp_stream packets = Ok stream -> tcp_packets stream = packets.
Proof.
  intros Hl. revert stream. induction Hl as [|p packets Hp Hl IH]; intros stream Hf; [by simplify_eq/=|].
  cbn [tcp_stream] in Hf. unfold tcp_frame in Hf. destruct (Z.ltb_spec (zlen p) 65536) as [Hlt|]; [|done].
  cbn [mbind outcome_bind] in Hf. destruct (tcp_stream packets) as [rest| | |] eqn:Hrest; try done. injection Hf as <-.
  specialize (IH rest eq_refl). change ((zlen p / 256 ^ Z.of_nat 1) mod 256 :: (zlen p / 256 ^ Z.of_nat 0) mod 256 :: p ++ rest) with
    (to_be 2 (zlen p) ++ p ++ rest).
  pose proof (from_be_to_be_small 2 (zlen p)) as Hn. rewrite to_be_2 in *. cbn [Datatypes.app]. rewrite tcp_packets_cons. cbv zeta.
  rewrite Hn by (unfold zlen in *; change (256 ^ Z.of_nat 2) with 65536; lia).
  unfold zlen. rewrite Nat2Z.id, (proj2 (Nat.ltb_ge (length p) 12)), length_app, (proj2 (Nat.ltb_ge _ _)) by lia. cbn [orb].
  by rewrite take_app_length, drop_app_length, IH.
Qed.

(** Packets that come in order pass the buffer at once, whatever the time. *)
Lemma push_in_order s0 i stats (pkts : list bytes) (clock : nat -> Z) j :
  (forall k p, pkts !! k = Some p -> sequence_of p = Some (sq s0 (i + k))) ->
  exists b, push_all {| expected := Some (sq s0 i); pending := ∅; window := 64; max_delay := 50 |} stats
    (imap (fun k p => (p, clock (j + k)%nat)) pkts) = Ok (b, stats, pkts).
Proof.
  revert i j. induction pkts as [|p pkts IH]; intros i j Hseq; [by eexists|].
  cbn [imap push_all]. rewrite (push_sequence _ _ _ _ (sq s0 i)) by (rewrite <-(Nat.add_0_r i) at 1; by apply Hseq).
  unfold push_sequenced. cbn [expected]. rewrite distance_ahead, Z.sub_diag by lia. cbn [Z.eqb].
  unfold drain_ready. cbn [set_expected pending]. rewrite map_size_empty. cbn [drain_fuel set_expected expected pending]. rewrite lookup_empty.
  cbn [mbind outcome_bind]. rewrite sq_S.
  destruct (IH (S i) (S j)) as (b & Hb).
  { intros k q Hk. rewrite Nat.add_succ_l, <-Nat.add_succ_r. by apply (Hseq (S k)). }
  exists b. unfold set_expected. cbn [pending window max_delay].
  replace (imap ((fun k q => (q, clock (j + k)%nat)) ∘ S) pkts) with (imap (fun k q => (q, clock (S j + k)%nat)) pkts).
  - rewrite Hb. done.
  - apply imap_ext. intros k q _. cbn. do 2 f_equal. lia.
Qed.

Lemma push_all_in_order s0 stats (pkts : list bytes) (clock : nat -> Z) :
  (forall k p, pkts !! k = Some p -> sequence_of p = Some (sq s0 k)) ->
  exists b, push_all reorder_new stats (imap (fun k p => (p, clock k)) pkts) = Ok (b, stats, pkts).
Proof.
  destruct pkts as [|p pkts]; intros Hseq; [by eexists|]. cbn [imap push_all].
  rewrite (push_sequence _ _ _ _ (sq s0 0)) by (by apply Hseq). unfold push_sequenced. cbn [reorder_new expected].
  cbn [mbind outcome_bind]. rewrite sq_S.
  destruct (push_in_order s0 1 stats pkts clock 1) as (b & Hb); [intros k q Hk; by apply (Hseq (S k))|].
  exists b. unfold set_expected. cbn [reorder_new pending window max_delay].
  replace (imap ((fun k q => (q, clock k)) ∘ S) pkts) with (imap (fun k q => (q, clock (1 + k)%nat)) pkts) by done.
  rewrite Hb. done.
Qed.

(** MPEG-PS over an RTP connection (RFC 4571) is lossless.  The packets of
    a sender in program stream mode, framed and written to a connection, are
    read back whole by the port at the other end, whenever they are read; it
    publishes exactly what publishing the packets of each frame in turn gives
    and counts nothing as lost or repeated. *)
Theorem ps_relay_over_tcp q tracks frames packets stream r clock :
  data_type q = Ps -> is_u32 (req_ssrc q) ->
  send_stream ext_mux q (initial_state q tracks None) frames = Ok packets -> tcp_stream packets = Ok stream ->
  single (ps_tracks (muxer_new tracks) ++ omap track_of frames) ->
  rv_payload r = PtPs -> match expected_ssrc r with Some e => e = req_ssrc q | None => True end ->
  exists c out s stats,
    each_frame (relay r) (muxer_new tracks) (List.filter ps_frame frames) (H264, []) = Ok (c, out) /\
    read_tcp_stream r stats_new clock stream = Ok (s, stats, out) /\
    lost_packets stats = 0 /\ duplicate_packets stats = 0.
Proof.
  intros Hd Hu Hsend Hstream Hsingle Hr Hssrc.
  destruct (ps_stream_handled q tracks frames packets r Hd Hu Hsend Hsingle Hr Hssrc) as (c & out & s & st & Heach & Hall & Hlen & Hseq & Hlong).
  destruct (push_all_in_order 0 stats_new packets clock Hseq) as (b & Hpush).
  destruct (ingest_each_reordered r ingest_new stats_new stats_new _ b stats_new packets stats_new s st out Hpush) as (stats & Hrun & [Hl Hdup]);
    [done|done|].
  exists c, out. eexists _, stats. split; [done|]. split; [|by split].
  unfold read_tcp_stream. rewrite (tcp_stream_read _ _ Hlong Hstream). exact Hrun.
Qed.
End end_to_end.

(** ** G.711 over MPEG-PS over RTP *)

Definition g711_frame (f : MediaFrame) : Prop :=
  codec f = G711A /\ frame_type f = Audio /\ payload_format f = PfRaw /\ data f <> [] /\
  (length (data f) <= MAX_PES_PAYLOAD)%nat /\ 0 <= pts f < 95443717.

#[local] Opaque chunks MAX_PES_PAYLOAD.

Lemma g711_packets m f :
  g711_frame f -> frame_packets m f = [{| pes_stream_id := 0xC0; pes_data := data f; pes_pts := Some (pts f * 90) |}].
Proof.
  intros (Hc & Ht & Hf & Hd & Hl & Hp). unfold frame_packets.
  assert (elementary_payload m f = Ok (data f)) as Hel.
  { unfold elementary_payload. rewrite Hc. unfold raw_audio_payload. rewrite Hf. cbn [bool_decide decide_rel]. done. }
  assert (exists b out, (mux_frame m f).2 = Ok (b :: out)) as (b & out & ->).
  { unfold mux_frame. rewrite bool_decide_false by (by rewrite Ht). rewrite Hc. cbn [ps_track]. cbv zeta.
    fold (with_track m {| ps_stream_type := 0x90; ps_stream_id := AUDIO_STREAM_ID |}).
    rewrite (bool_decide_false (G711A = AAC)) by done. cbn [andb].
    rewrite elementary_payload_track, Hel. destruct (data f); [done|].
    destruct (pack_header_shape (timestamp_90k (dts f))) as (hd & -> & _). cbn [Datatypes.app snd]. by eexists _, _. }
  assert (0 < length (data f))%nat as Hpos by (destruct (data f); [done|cbn [length]; lia]).
  rewrite Hc, Hel. cbn [ps_track ps_stream_id]. rewrite chunks_cons by (done || lia).
  rewrite take_ge, drop_ge, chunks_nil by done. cbn [fmap list_fmap]. do 2 f_equal. rewrite Z.mod_small by lia. done.
Qed.

Lemma g711_relay r d p c fs :
  0 <= p < 95443717 ->
  relay r (Some 0x90) {| pes_stream_id := 0xC0; pes_data := d; pes_pts := Some (p * 90) |} (c, fs) =
  Ok (c, fs ++ [GbRtp.publish_audio d p G711A]).
Proof.
  intros Hp. unfold relay, process_pes. cbn [pes_pts pes_stream_id pes_data fst snd].
  replace (p * 90 * 1000) with (p * 90000) by lia. rewrite Z.div_mul by done. reflexivity.
Qed.

Lemma g711_each r m frames c fs :
  Forall g711_frame frames ->
  each_frame (relay r) m frames (c, fs) = Ok (c, fs ++ ((fun f => GbRtp.publish_audio (data f) (pts f) G711A) <$> frames)).
Proof.
  intros Hf. revert m fs. induction Hf as [|f frames Hg Hf IH]; intros m fs; [cbn; by rewrite app_nil_r|].
  cbn [each_frame]. rewrite g711_packets by done. pose proof Hg as (Hc & _ & _ & _ & _ & Hp). rewrite Hc. cbn [ps_track each ps_stream_type].
  rewrite g711_relay by done. cbn [mbind outcome_bind]. rewrite IH. by rewrite <-app_assoc.
Qed.

Lemma g711_filter frames : Forall g711_frame frames -> List.filter ps_frame frames = frames.
Proof.
  induction 1 as [|f frames (Hc & Ht & _) Hf IH]; [done|]. cbn [List.filter]. unfold ps_frame at 1. rewrite Hc, Ht, IH. done.
Qed.

Lemma g711_tracks frames t : Forall g711_frame frames -> t ∈ omap track_of frames -> t = {| ps_stream_type := 0x90; ps_stream_id := AUDIO_STREAM_ID |}.
Proof.
  intros Hf (f & Hin & Ht)%list_elem_of_omap. rewrite Forall_forall in Hf. destruct (Hf f Hin) as (Hc & _).
  unfold track_of in Ht. rewrite Hc in Ht. by simplify_eq/=.
Qed.

(** A G.711 stream comes out of the port as it went into the sender: the
    same samples with the same timestamps, frame by frame, when the packets
    are reordered on the way as [reorder_restores_order] allows. *)
Theorem g711_relayed {X} (ext_mux : X -> MediaFrame -> X * result bytes) q frames packets r t0 l :
  data_type q = Ps -> is_u32 (req_ssrc q) -> Forall g711_frame frames ->
  send_stream ext_mux q (initial_state q [] None) frames = Ok packets ->
  rv_payload r = PtPs -> match expected_ssrc r with Some e => e = req_ssrc q | None => True end ->
  ((0%nat, t0) :: l).*1 ≡ₚ seq 0 (length packets) -> displaced_little ((0%nat, t0) :: l) -> prompt ((0%nat, t0) :: l) ->
  exists s stats out,
    run_udp r stats_new (arrival (nth_packet packets) <$> (0%nat, t0) :: l) = Ok (s, stats, out) /\
    data <$> out = data <$> frames /\ pts <$> out = pts <$> frames /\
    Forall (fun f => codec f = G711A /\ frame_type f = Audio) out.
Proof.
  intros Hd Hu Hf Hsend Hr Hssrc Hperm Hlittle Hprompt.
  assert (single (ps_tracks (muxer_new []) ++ omap track_of frames)) as Hsingle.
  { intros t t' Ht Ht' _. cbn in Ht, Ht'. by rewrite (g711_tracks _ _ Hf Ht), (g711_tracks _ _ Hf Ht'). }
  destruct (relayed_in_order ext_mux q [] frames packets r t0 l Hd Hu Hsend Hsingle Hr Hssrc Hperm Hlittle Hprompt)
    as (c & out & s & stats & Heach & Hrun & _).
  rewrite (g711_filter _ Hf), (g711_each r _ _ _ _ Hf) in Heach. injection Heach as <- <-. cbn [Datatypes.app] in Hrun.
  eexists s, stats, _. split; [exact Hrun|]. rewrite <-!list_fmap_compose. split_and!.
  - apply list_fmap_ext. intros i f _. reflexivity.
  - apply list_fmap_ext. intros i f _. reflexivity.
  - apply Forall_fmap, Forall_true. intros f. by split.
Qed.

(** ** Examples *)

#[local] Transparent chunks MAX_PES_PAYLOAD.

Definition demo_frames : list MediaFrame :=
  (fun k => with_payload_format (new_audio 1 G711A k (Z.of_nat 20 * k) (Z.of_nat 20 * k) [k; 1; 2]) PfRaw) <$> [0; 1; 2; 3].

Definition demo_packets : list bytes :=
  match send_stream no_mux demo_request (initial_state demo_request [] None) demo_frames with Ok p => p | _ => [] end.

Definition demo_port : Receiver := receiver_new "v" "a" "s" PtPs (Some 1).

Lemma demo_ssrc : is_u32 (req_ssrc demo_request).
Proof. unfold is_u32. cbn [demo_request req_ssrc]. lia. Qed.

Lemma demo_sent : send_stream no_mux demo_request (initial_state demo_request [] None) demo_frames = Ok demo_packets.
Proof. vm_compute. reflexivity. Qed.

Lemma demo_single : single (ps_tracks (muxer_new []) ++ omap track_of demo_frames).
Proof. intros t t' Ht Ht' _. assert (forall x, x ∈ omap track_of demo_frames -> x = {| ps_stream_type := 0x90; ps_stream_id := AUDIO_STREAM_ID |}) as H.
  { apply Forall_forall. vm_compute. repeat constructor. }
  by rewrite (H t Ht), (H t' Ht').
Qed.

Lemma demo_displaced : displaced_little [(0%nat, 0); (3%nat, 1); (1%nat, 2); (2%nat, 2)].
Proof. intros [|[|[|[|p]]]] i t H; cbn in H; simplify_eq; lia. Qed.

Lemma demo_prompt : prompt [(0%nat, 0); (3%nat, 1); (1%nat, 2); (2%nat, 2)].
Proof. intros [|[|[|[|q]]]] [|[|[|[|p]]]] i j t t' H1 H2; cbn in H1, H2; simplify_eq; lia. Qed.

Lemma demo_g711 : Forall g711_frame demo_frames.
Proof.
  unfold demo_frames. apply Forall_fmap, Forall_forall. intros k Hk. unfold g711_frame. cbn [compose].
  split_and!; try reflexivity; try done.
  - change (data _) with [k; 1; 2]. cbn [length]. unfold MAX_PES_PAYLOAD. lia.
  - change (pts _) with (Z.of_nat 20 * k). apply list_elem_of_In in Hk. cbn in Hk. lia.
  - change (pts _) with (Z.of_nat 20 * k). apply list_elem_of_In in Hk. cbn in Hk. lia.
Qed.

Lemma demo_arrived : ((0%nat, 0) :: [(3%nat, 1); (1%nat, 2); (2%nat, 2)]).*1 ≡ₚ seq 0 (length demo_packets).
Proof. apply (bool_decide_unpack _). vm_compute. exact I. Qed.

Lemma ps_relay_in_order_witness :
  exists s stats out,
    run_udp demo_port stats_new (arrival (nth_packet demo_packets) <$> [(0%nat, 0); (3%nat, 1); (1%nat, 2); (2%nat, 2)]) = Ok (s, stats, out) /\
    lost_packets stats = 0.
Proof.
  pose proof (ps_relay_in_order no_mux demo_request [] demo_frames demo_packets demo_port 0 [(3%nat, 1); (1%nat, 2); (2%nat, 2)]
    eq_refl demo_ssrc demo_sent demo_single eq_refl eq_refl demo_arrived demo_displaced demo_prompt)
    as (c & out & s & stats & _ & Hrun & Hl & _).
  exists s, stats, out. split; [exact Hrun|exact Hl].
Defined.

Lemma ps_relay_over_tcp_witness :
  exists stream s stats out, tcp_stream demo_packets = Ok stream /\
    read_tcp_stream demo_port stats_new (fun i => Z.of_nat i * 1000) stream = Ok (s, stats, out) /\ lost_packets stats = 0.
Proof.
  assert (exists stream, tcp_stream demo_packets = Ok stream) as (stream & Hs) by (eexists; vm_compute; reflexivity).
  pose proof (ps_relay_over_tcp no_mux demo_request [] demo_frames demo_packets stream demo_port (fun i => Z.of_nat i * 1000)
    eq_refl demo_ssrc demo_sent Hs demo_single eq_refl eq_refl) as (c & out & s & stats & _ & Hrun & Hl & _).
  exists stream, s, stats, out. split; [exact Hs|]. split; [exact Hrun|exact Hl].
Defined.

Lemma g711_relayed_witness :
  exists s stats out,
    run_udp demo_port stats_new (arrival (nth_packet demo_packets) <$> [(0%nat, 0); (3%nat, 1); (1%nat, 2); (2%nat, 2)]) = Ok (s, stats, out) /\
    data <$> out = [[0; 1; 2]; [1; 1; 2]; [2; 1; 2]; [3; 1; 2]] /\ pts <$> out = [0; 20; 40; 60].
Proof.
  pose proof (g711_relayed no_mux demo_request demo_frames demo_packets demo_port 0 [(3%nat, 1); (1%nat, 2); (2%nat, 2)]
    eq_refl demo_ssrc demo_g711 demo_sent eq_refl eq_refl demo_arrived demo_displaced demo_prompt)
    as (s & stats & out & Hrun & Hd & Hp & _).
  exists s, stats, out. split; [exact Hrun|]. split; [exact Hd|exact Hp].
Defined.

(** ** Whatever arrives *)

(** Middles of an H.264 unit that never ends, numbered from zero. *)
Definition fragment (i : nat) : bytes := [0x80; 96] ++ to_be 2 (sq 0 i) ++ [0; 0; 0; 0; 0; 0; 0; 1] ++ [0x7C; 5; 7].
Definition fragments (n : nat) : list bytes := fragment <$> seq 0 n.

Lemma fragment_shape n i p : fragments n !! i = Some p -> p = fragment i.
Proof. unfold fragments. rewrite list_lookup_fmap. intros (k & Hk & ->)%fmap_Some. by apply lookup_seq in Hk as [-> _]. Qed.

Lemma fragment_bytes n i p : fragments n !! i = Some p -> bytes_ok p.
Proof.
  intros ->%fragment_shape. unfold fragment. apply bytes_ok_app. split; [apply (bool_decide_unpack _); vm_compute; exact I|].
  apply bytes_ok_app. split; [apply to_be_ok|]. apply (bool_decide_unpack _). vm_compute. exact I.
Qed.

Lemma fragment_sequence n i p : fragments n !! i = Some p -> sequence_of p = Some (sq 0 i).
Proof.
  intros ->%fragment_shape. unfold fragment, sequence_of. rewrite to_be_2. cbn [Datatypes.app].
  rewrite <-to_be_2, from_be_to_be_small; [done|]. unfold sq. apply u16_range.
Qed.

Lemma handle_fragment r s stats i : rv_payload r = PtH264 -> match expected_ssrc r with Some e => e = 1 | None => True end ->
  handle_rtp r s stats (fragment i) = Ok (set_h26x s (fu_buf s ++ [7]) (ig_video_codec s), set_ssrc stats 1, []).
Proof.
  intros Hr He. unfold fragment. rewrite to_be_2. cbn [Datatypes.app]. unfold handle_rtp. change (negb (0x80 .>> 6 =? 2)) with false. cbv iota zeta.
  change (from_be [0; 0; 0; 1]) with 1. assert ((match expected_ssrc r with Some e => negb (e =? 1) | None => false end) = false) as ->.
  { destruct (expected_ssrc r); [|done]. by rewrite He. }
  rewrite rtp_payload_plain by (cbn [length]; lia). cbn [mbind outcome_bind drop]. unfold effective_payload. rewrite Hr. reflexivity.
Qed.

Lemma handle_fragments r n s stats : rv_payload r = PtH264 -> match expected_ssrc r with Some e => e = 1 | None => True end -> forall k,
  exists st, handle_all r s stats (fragment <$> seq k n) = Ok (set_h26x s (fu_buf s ++ replicate n 7) (ig_video_codec s), st, []).
Proof.
  intros Hr He. revert s stats. induction n as [|n IH]; intros s stats k.
  - exists stats. cbn. rewrite app_nil_r. by destruct s.
  - cbn [seq]. rewrite fmap_cons. cbn [handle_all]. rewrite handle_fragment by done. cbn [mbind outcome_bind].
    destruct (IH (set_h26x s (fu_buf s ++ [7]) (ig_video_codec s)) (set_ssrc stats 1) (S k)) as (st & ->). exists st.
    cbn [mbind outcome_bind set_h26x fu_buf ig_video_codec]. by rewrite <-app_assoc.
Qed.

(** C25: an RTP port answers whatever is sent to it.  For every receiver, every
    sequence of datagrams with their arrival times and every stream of bytes
    on a connection, the ingest ends without a panic.  The reordering buffer
    then holds fewer than 64 packets and the program stream demuxer no more
    than its 4 MB; the buffer of an H.264 unit's fragments has no such bound:
    datagrams of fifteen bytes, none of which ends the unit, make it longer than
    any given number. *)
Theorem rtp_receiver_total r stats :
  (forall datagrams, Forall (fun d => bytes_ok d.1) datagrams ->
     exists s stats' frames, run_udp r stats datagrams = Ok (s, stats', frames) /\
       (size (pending (ig_reorder s)) < 64)%nat /\ (length (buf (ig_ps s)) <= max_buf (ig_ps s))%nat) /\
  (forall clock stream, bytes_ok stream ->
     exists s stats' frames, read_tcp_stream r stats clock stream = Ok (s, stats', frames) /\
       (size (pending (ig_reorder s)) < 64)%nat /\ (length (buf (ig_ps s)) <= max_buf (ig_ps s))%nat) /\
  (rv_payload r = PtH264 -> match expected_ssrc r with Some e => e = 1 | None => True end -> forall n,
     exists datagrams, Forall (fun d => bytes_ok d.1) datagrams /\
       exists s stats', run_udp r stats datagrams = Ok (s, stats', []) /\ length (fu_buf s) = n).
Proof.
  assert (forall s, receiver_inv s -> (size (pending (ig_reorder s)) < 64)%nat /\ (length (buf (ig_ps s)) <= max_buf (ig_ps s))%nat) as Hinv.
  { intros s ((Hb & _ & Hr) & _). split; [|done]. unfold buffer_inv in Hr.
    destruct (expected _); [apply Hr|]. destruct Hr as [-> _]. rewrite map_size_empty. lia. }
  split; [|split].
  - intros datagrams Hd. unfold run_udp.
    pose proof (ingest_each_always r ingest_new stats ((fun d => (take 2048 d.1, d.2)) <$> datagrams) receiver_new_inv) as H.
    destruct (ingest_each _ _ _ _) as [[[s st] fs]| | |]; [exists s, st, fs; split; [done|]; apply Hinv, H|exfalso; apply H..];
      (apply Forall_fmap; eapply Forall_impl; [exact Hd|]; intros d Hb; cbn; split; [by apply bytes_ok_take|];
       unfold short; rewrite length_take; lia).
  - intros clock stream Hb. unfold read_tcp_stream.
    pose proof (ingest_each_always r ingest_new stats (imap (fun i p => (p, clock i)) (tcp_packets stream)) receiver_new_inv) as H.
    destruct (ingest_each _ _ _ _) as [[[s st] fs]| | |]; [exists s, st, fs; split; [done|]; apply Hinv, H|exfalso; apply H..];
      (apply Forall_lookup; intros i d Hi; rewrite list_lookup_imap in Hi; apply fmap_Some in Hi as (p & Hp & ->);
       pose proof (tcp_packets_short (length stream) stream Hb) as Hshort; rewrite Forall_lookup in Hshort; exact (Hshort i p Hp)).
  - intros Hr He n. exists ((fun p => (p, 0)) <$> fragments n). split.
    { rewrite Forall_fmap. apply Forall_forall. intros q Hq. apply list_elem_of_lookup in Hq as (i & Hi). by apply fragment_bytes in Hi. }
    destruct (push_all_in_order 0 stats (fragments n) (fun _ => 0)) as (b & Hb); [by intros k q Hk; apply fragment_sequence in Hk|].
    destruct (handle_fragments r n ingest_new stats Hr He 0) as (st & Hall).
    destruct (ingest_each_reordered r ingest_new stats stats _ b stats (fragments n) stats
      (set_h26x ingest_new (replicate n 7) H264) st [] Hb) as (stats' & Hrun & _); [done|exact Hall|].
    eexists _, stats'. split.
    + unfold run_udp. replace ((fun d : bytes * Z => (take 2048 d.1, d.2)) <$> ((fun p => (p, 0)) <$> fragments n)) with
        (imap (fun _ p => (p, 0)) (fragments n)); [exact Hrun|]. apply list_eq. intros i.
      rewrite list_lookup_imap, !list_lookup_fmap. destruct (fragments n !! i) as [q|] eqn:Hq; [|done]. apply fragment_shape in Hq as ->. done.
    + cbn. by rewrite length_replicate.
Qed.

Lemma rtp_receiver_total_witness :
  exists s stats frames,
    run_udp (receiver_new "v" "a" "s" PtAuto None) stats_new [([0x90; 8; 0; 7; 0; 0; 0; 0; 0; 0; 0; 1; 0; 0; 0xff; 0xff; 5], 0); ([1; 2], 3)] =
    Ok (s, stats, frames).
Proof.
  destruct (proj1 (rtp_receiver_total (receiver_new "v" "a" "s" PtAuto None) stats_new)
    [([0x90; 8; 0; 7; 0; 0; 0; 0; 0; 0; 0; 1; 0; 0; 0xff; 0xff; 5], 0); ([1; 2], 3)]) as (s & st & fs & H & _).
  - apply (bool_decide_unpack _). vm_compute. exact I.
  - exists s, st, fs. exact H.
Defined.
