(* ===== verification/HttpBody.v ===== *)
(** * HttpBody: the HTTP side of the pull client

    [http/src/pull_client.rs], first half: addresses and the resolution of
    references, response heads, and bodies read incrementally (chunked, of a
    given length, or until the connection closes).  What a connection delivers
    is the list of what its reads return; a read that returns nothing is the
    end of the stream. *)

From S2P Require Import Prelude Frame Utf8 Text.
#[local] Open Scope Z_scope.

(** ** Addresses *)

Record HttpUrl : Type := {
  url_scheme : bytes;
  url_host : bytes;
  url_authority : bytes;
  url_port : Z;
  url_path : bytes
}.

Definition parse_port (s : bytes) : result Z :=
  match parse_u16 s with Some p => Ok p | None => Err (Anyhow "invalid HTTP URL port") end.

(** [(host, port)] of an authority. *)
Definition parse_authority (authority : bytes) (default_port : Z) : result (bytes * Z) :=
  match strip_prefix (str "[") authority with
  | Some bracketed =>
      match split_once 93 bracketed with
      | None => Err (Anyhow "invalid bracketed IPv6 HTTP host")
      | Some (host, suffix) =>
          port ← match strip_prefix (str ":") suffix with Some p => parse_port p | None => Ok default_port end;
          Ok (host, port)
      end
  | None =>
      if (length (List.filter (Z.eqb 58) authority) =? 1)%nat then
        match rsplit_once 58 authority with
        | Some (host, p) => port ← parse_port p; Ok (host, port)
        | None => Panic
        end
      else Ok (authority, default_port)
  end.

Definition parse_scheme (url : bytes) : result (bytes * bytes * Z) :=
  match strip_prefix (str "http://") url with
  | Some rest => Ok (str "http", rest, 80)
  | None =>
      match strip_prefix (str "https://") url with
      | Some rest => Ok (str "https", rest, 443)
      | None => Err (Anyhow "native HTTP pull requires an http:// or https:// URL")
      end
  end.

(** [HttpUrl::parse] *)
Definition parse_url (url : bytes) : result HttpUrl :=
  '(scheme, rest, default_port) ← parse_scheme url;
  let '(authority, path) := match split_once 47 rest with Some (a, p) => (a, 47 :: p) | None => (rest, str "/") end in
  if bool_decide (authority = []) then Err (Anyhow "HTTP URL is missing a host") else
  '(host, port) ← parse_authority authority default_port;
  Ok {| url_scheme := scheme; url_host := host; url_authority := authority; url_port := port; url_path := path |}.

Definition as_url (u : HttpUrl) : bytes := url_scheme u ++ str "://" ++ url_authority u ++ url_path u.

(** [s.split(c).next()] *)
Definition before (c : Z) (s : bytes) : bytes := match split_once c s with Some (l, _) => l | None => s end.

Fixpoint join (sep : bytes) (l : list bytes) : bytes :=
  match l with
  | [] => []
  | [w] => w
  | w :: ws => w ++ sep ++ join sep ws
  end.

(** One turn of the loop over the components. *)
Definition normalize_step (normalized : list bytes) (component : bytes) : list bytes :=
  if bool_decide (component = []) || bool_decide (component = str ".") then normalized
  else if bool_decide (component = str "..") then removelast normalized
  else normalized ++ [component].

Definition is_absolute (reference : bytes) : bool :=
  starts_with (str "http://") reference || starts_with (str "https://") reference.

(** [HttpUrl::resolve], which never fails. *)
Definition resolve (u : HttpUrl) (reference : bytes) : bytes :=
  if is_absolute reference then reference else
  let reference := before 35 reference in
  let raw_path :=
    if starts_with (str "/") reference then reference else
    let base := before 63 (url_path u) in
    let directory := match rsplit_once 47 base with Some (dir, _) => dir | None => [] end in
    directory ++ str "/" ++ reference in
  let '(path, query) := match split_once 63 raw_path with Some (p, q) => (p, Some q) | None => (raw_path, None) end in
  let normalized := foldl normalize_step [] (split 47 path) in
  url_scheme u ++ str "://" ++ url_authority u ++ str "/" ++ join (str "/") normalized ++
  match query with Some q => 63 :: q | None => [] end.

(** ** Connections and bodies *)

(** What the reads return; after them the end of the stream, or a failure. *)
Record AsyncStream : Type := { incoming : list bytes; broken : bool }.

Record HttpBody : Type := {
  body_stream : AsyncStream;
  body_buffer : bytes;
  body_chunked : bool;
  content_remaining : option Z;
  body_finished : bool
}.

(** [stream.read(..).await?]; nothing: the end of the stream. *)
Definition stream_read (s : AsyncStream) : result (AsyncStream * bytes) :=
  match incoming s with
  | [] => if broken s then Err Io else Ok (s, [])
  | chunk :: rest => Ok ({| incoming := rest; broken := broken s |}, chunk)
  end.

Definition with_buffer (b : HttpBody) (buffer : bytes) : HttpBody :=
  {| body_stream := body_stream b; body_buffer := buffer; body_chunked := body_chunked b;
     content_remaining := content_remaining b; body_finished := body_finished b |}.
Definition with_finished (b : HttpBody) : HttpBody :=
  {| body_stream := body_stream b; body_buffer := body_buffer b; body_chunked := body_chunked b;
     content_remaining := content_remaining b; body_finished := true |}.
Definition with_remaining (b : HttpBody) (r : option Z) : HttpBody :=
  {| body_stream := body_stream b; body_buffer := body_buffer b; body_chunked := body_chunked b;
     content_remaining := r; body_finished := body_finished b |}.

Definition fill (b : HttpBody) : result (HttpBody * bool) :=
  '(s, chunk) ← stream_read (body_stream b);
  if bool_decide (chunk = []) then
    Ok ({| body_stream := s; body_buffer := body_buffer b; body_chunked := body_chunked b;
           content_remaining := content_remaining b; body_finished := body_finished b |}, false)
  else
    Ok ({| body_stream := s; body_buffer := body_buffer b ++ chunk; body_chunked := body_chunked b;
           content_remaining := content_remaining b; body_finished := body_finished b |}, true).

(** Filling the buffer until a test on it succeeds. *)
Definition fill_until {A} (test : bytes -> option A) (truncated : string) (b : HttpBody) : result (HttpBody * A) :=
  loop (S (length (incoming (body_stream b)))) (fun b =>
    match test (body_buffer b) with
    | Some a => Ok (inr (b, a))
    | None =>
        '(b, more) ← fill b;
        if (more : bool) then Ok (inl b) else Err (Anyhow truncated)
    end) b.

(** [usize::from_str_radix(s, 16)] *)
Fixpoint parse_hex_digits (acc : Z) (s : bytes) : option Z :=
  match s with
  | [] => Some acc
  | b :: s =>
      match hex_value b with
      | Some d => if 2 ^ 64 <=? acc * 16 + d then None else parse_hex_digits (acc * 16 + d) s
      | None => None
      end
  end.

Definition parse_hex (s : bytes) : option Z :=
  let s := match s with 43 :: ((_ :: _) as r) => r | _ => s end in
  match s with [] => None | _ :: _ => parse_hex_digits 0 s end.

Definition chunk_size (size_line : bytes) : result Z :=
  if negb (utf8_valid size_line) then Err (Anyhow "invalid utf-8 sequence") else
  match parse_hex (trim (before 59 size_line)) with
  | Some n => Ok n
  | None => Err (Anyhow "invalid HTTP chunk size")
  end.

(** [self.buffer.len() < size + 2] *)
Definition holds_chunk (size : Z) (buffer : bytes) : option unit :=
  if zlen buffer <? size + 2 then None else Some tt.

Definition read_chunked (b : HttpBody) : result (HttpBody * option bytes) :=
  '(b, line_end) ← fill_until (find_sub CRLF) "truncated HTTP chunk header" b;
  size_line ← slice (body_buffer b) 0 line_end;
  size ← chunk_size size_line;
  rest ← slice (body_buffer b) (line_end + 2) (length (body_buffer b));
  let b := with_buffer b rest in
  if size =? 0 then Ok (with_finished b, None) else
  if 2 ^ 64 <=? size + 2 then Panic else
  '(b, _) ← fill_until (holds_chunk size) "truncated HTTP chunk body" b;
  data ← slice (body_buffer b) 0 (Z.to_nat size);
  let b := with_buffer b (drop (Z.to_nat size) (body_buffer b)) in
  terminator ← slice (body_buffer b) 0 2;
  if negb (bool_decide (terminator = CRLF)) then Err (Anyhow "invalid HTTP chunk terminator") else
  Ok (with_buffer b (drop 2 (body_buffer b)), Some data).

(** What is in the buffer, up to the announced length. *)
Definition take_plain (b : HttpBody) : HttpBody * option bytes :=
  match content_remaining b with
  | Some 0 => (with_finished b, None)
  | Some remaining =>
      let count := Z.min remaining (zlen (body_buffer b)) in
      (with_remaining (with_buffer b (drop (Z.to_nat count) (body_buffer b))) (Some (remaining - count)),
       Some (take (Z.to_nat count) (body_buffer b)))
  | None => (with_buffer b [], Some (body_buffer b))
  end.

Definition read_plain (b : HttpBody) : result (HttpBody * option bytes) :=
  '(b, more) ← (if bool_decide (body_buffer b = []) then fill b else Ok (b, true));
  if negb more then Ok (with_finished b, None) else Ok (take_plain b).

Definition read_chunk (b : HttpBody) : result (HttpBody * option bytes) :=
  if body_finished b then Ok (b, None)
  else if body_chunked b then read_chunked b
  else read_plain b.

(** What has arrived or will arrive. *)
Definition body_pending (b : HttpBody) : bytes := body_buffer b ++ concat (incoming (body_stream b)).

Definition read_to_end_step (limit : Z) (st : HttpBody * bytes) : result (HttpBody * bytes + bytes) :=
  let '(b, output) := st in
  '(b, chunk) ← read_chunk b;
  match chunk with
  | None => Ok (inr output)
  | Some chunk =>
      if limit <? zlen output + zlen chunk then Err (Anyhow "HTTP response body exceeds limit")
      else Ok (inl (b, output ++ chunk))
  end.

Definition read_to_end (limit : Z) (b : HttpBody) : result bytes :=
  loop (S (length (body_pending b))) (read_to_end_step limit) (b, []).

(** ** Response heads *)

Definition MAX_HEADER_SIZE : Z := 64 * 1024.

Record HttpResponse : Type := {
  res_url : HttpUrl;
  res_status : Z;
  res_headers : gmap bytes bytes;
  res_body : HttpBody
}.

(** The request sent to [u]. *)
Definition http_request (u : HttpUrl) (range : option (Z * Z)) : bytes :=
  str "GET " ++ url_path u ++ str " HTTP/1.1" ++ CRLF ++ str "Host: " ++ url_authority u ++ CRLF ++
  str "User-Agent: zlmediakit-rs/0.1" ++ CRLF ++ str "Accept: */*" ++ CRLF ++ str "Connection: close" ++ CRLF ++
  match range with
  | Some (first, last) => str "Range: bytes=" ++ dec first ++ str "-" ++ dec last ++ CRLF
  | None => []
  end ++ CRLF.

Definition HEADER_END : bytes := CRLF ++ CRLF.

Definition read_head_step (st : AsyncStream * bytes) : result (AsyncStream * bytes + AsyncStream * bytes * nat) :=
  let '(s, buffer) := st in
  match find_sub HEADER_END buffer with
  | Some position => Ok (inr (s, buffer, position))
  | None =>
      if MAX_HEADER_SIZE <=? zlen buffer then Err (Anyhow "HTTP response header exceeds limit") else
      '(s, chunk) ← stream_read s;
      if bool_decide (chunk = []) then Err (Anyhow "connection closed before HTTP response headers")
      else Ok (inl (s, buffer ++ chunk))
  end.

Definition read_head (s : AsyncStream) : result (AsyncStream * bytes * nat) :=
  loop (S (length (incoming s))) read_head_step (s, []).

Definition status_of (line : bytes) : option Z := split_whitespace line !! 1%nat ≫= parse_u16.

Definition add_header (headers : gmap bytes bytes) (line : bytes) : gmap bytes bytes :=
  match split_once 58 line with
  | Some (name, value) => <[to_ascii_lowercase (trim name) := trim value]> headers
  | None => headers
  end.

Definition parse_head (header_text : bytes) : result (Z * gmap bytes bytes) :=
  if negb (utf8_valid header_text) then Err (Anyhow "invalid utf-8 sequence") else
  let lines := split_crlf header_text in
  match head lines ≫= status_of with
  | None => Err (Anyhow "invalid HTTP status line")
  | Some status => Ok (status, foldl add_header ∅ (tail lines))
  end.

Definition is_redirect (status : Z) : bool :=
  (status =? 301) || (status =? 302) || (status =? 303) || (status =? 307) || (status =? 308).

(** What the connection answers: a redirection, or a response whose body is
    still to be read. *)
Definition receive_response (u : HttpUrl) (s : AsyncStream) : result (bytes + HttpResponse) :=
  '(s, buffer, header_end) ← read_head s;
  header_text ← slice buffer 0 header_end;
  rest ← slice buffer (header_end + 4) (length buffer);
  '(status, headers) ← parse_head header_text;
  if is_redirect status then
    match headers !! str "location" with
    | None => Err (Anyhow "HTTP redirect is missing Location")
    | Some location => Ok (inl (resolve u location))
    end
  else if negb ((200 <=? status) && (status <? 300)) then Err (Anyhow "HTTP upstream returned status") else
  let chunked := match headers !! str "transfer-encoding" with
                 | Some value => contains (str "chunked") (to_ascii_lowercase value)
                 | None => false
                 end in
  content_remaining ← match headers !! str "content-length" with
                      | None => Ok None
                      | Some value =>
                          match parse_usize value with
                          | Some n => Ok (Some n)
                          | None => Err (Anyhow "invalid HTTP Content-Length")
                          end
                      end;
  Ok (inr {| res_url := u; res_status := status; res_headers := headers;
             res_body := {| body_stream := s; body_buffer := rest; body_chunked := chunked;
                            content_remaining := content_remaining; body_finished := false |} |}).

(** ** Reading bodies *)

(** Buffering moves bytes from the connection to the buffer. *)
Record advances (b b' : HttpBody) : Prop := {
  adv_pending : body_pending b' = body_pending b;
  adv_chunked : body_chunked b' = body_chunked b;
  adv_remaining : content_remaining b' = content_remaining b;
  adv_finished : body_finished b' = body_finished b;
  adv_broken : broken (body_stream b') = broken (body_stream b);
  adv_incoming : (length (incoming (body_stream b')) <= length (incoming (body_stream b)))%nat
}.

#[global] Instance advances_preorder : PreOrder advances.
Proof.
  split; [by intros b; constructor|]. intros b1 b2 b3 [] []. constructor; [congruence..|lia].
Qed.

(** The peer sends everything and closes; reads return at least one byte. *)
Definition sound (b : HttpBody) : Prop :=
  broken (body_stream b) = false /\ Forall (fun c => c <> []) (incoming (body_stream b)).

Lemma fill_cases b :
  (incoming (body_stream b) = [] /\ fill b = (if broken (body_stream b) then Err Io else Ok (b, false))) \/
  exists chunk rest b', incoming (body_stream b) = chunk :: rest /\ advances b b' /\ incoming (body_stream b') = rest /\
    fill b = Ok (b', negb (bool_decide (chunk = []))) /\ body_buffer b' = body_buffer b ++ chunk.
Proof.
  destruct b as [[[|chunk rest] br] buffer ch cr fin]; cbn [incoming body_stream broken].
  - left. split; [done|]. unfold fill, stream_read. cbn. by destruct br.
  - right. exists chunk, rest. unfold fill, stream_read. cbn. case_bool_decide as Hc.
    + subst chunk. eexists. split_and!; [done| | |reflexivity|by rewrite app_nil_r]; [|done]. constructor; cbn; try done. lia.
    + eexists. split_and!; [done| | |reflexivity|done]; [|done].
      constructor; cbn; try done; [|lia]. unfold body_pending. cbn. by rewrite <-app_assoc.
Qed.

Lemma advances_sound b b' rest :
  sound b -> advances b b' -> incoming (body_stream b') = rest -> rest `suffix_of` incoming (body_stream b) -> sound b'.
Proof.
  intros [Hb Hf] Ha <- [l Hl]. split; [by rewrite (adv_broken _ _ Ha)|]. rewrite Hl in Hf. by apply Forall_app in Hf as [_ Hf].
Qed.

(** On any connection, the buffer is filled until the test holds. *)
Lemma fill_until_wp {A} (test : bytes -> option A) truncated b :
  wp (fill_until test truncated b) (fun r => advances b r.1 /\ test (body_buffer r.1) = Some r.2) (fun _ => True).
Proof.
  unfold fill_until. apply wp_loop with (Inv := advances b) (mu := fun b' => length (incoming (body_stream b'))); [|done|lia].
  intros b1 Hadv. destruct (test (body_buffer b1)) eqn:Ht; [by split|].
  destruct (fill_cases b1) as [[Hi ->]|(chunk & rest & b2 & Hi & Ha & Hr & -> & _)].
  - by destruct (broken _).
  - cbn [mbind outcome_bind]. case_bool_decide; [done|]. cbn [negb]. split; [by transitivity b1|]. rewrite Hr, Hi. cbn. lia.
Qed.

(** When all that will arrive passes a test that more bytes cannot undo. *)
Definition stable {A} (test : bytes -> option A) : Prop := forall x y a, test x = Some a -> test (x ++ y) = Some a.

Lemma fill_until_ok {A} (test : bytes -> option A) truncated b a :
  stable test -> sound b -> test (body_pending b) = Some a ->
  exists b', fill_until test truncated b = Ok (b', a) /\ advances b b' /\ sound b' /\ test (body_buffer b') = Some a.
Proof.
  intros Hst Hs Ha.
  assert (wp (fill_until test truncated b)
    (fun r => r.2 = a /\ (advances b r.1 /\ sound r.1) /\ test (body_buffer r.1) = Some a) (fun _ => False)) as Hwp.
  { unfold fill_until. apply wp_loop with (Inv := fun b' => advances b b' /\ sound b')
      (mu := fun b' => length (incoming (body_stream b'))); [|by split|lia].
    intros b1 [Hadv Hs1]. rewrite <-(adv_pending _ _ Hadv) in Ha. destruct (test (body_buffer b1)) as [a1|] eqn:Ht.
    { pose proof (Hst _ (concat (incoming (body_stream b1))) _ Ht) as Ht'. fold (body_pending b1) in Ht'.
      assert (a1 = a) as -> by congruence. by split. }
    destruct (fill_cases b1) as [[Hi Hf]|(chunk & rest & b2 & Hi & Ha2 & Hr & Hf & _)].
    - unfold body_pending in Ha. rewrite Hi, app_nil_r in Ha. congruence.
    - assert (chunk <> []) as Hc by (destruct Hs1 as [_ Hne]; rewrite Hi in Hne; by apply Forall_cons in Hne as [? _]).
      rewrite Hf, bool_decide_eq_false_2 by done. cbn [mbind outcome_bind negb]. split; [split|].
      + by transitivity b1.
      + eapply advances_sound; [done..|]. exists [chunk]. by rewrite Hi.
      + rewrite Hr, Hi. cbn. lia. }
  destruct (fill_until test truncated b) as [[b' a']| | |]; [|done..]. destruct Hwp as (Ha' & (? & ?) & ?). cbn in Ha'. subst a'. eauto 6.
Qed.

Lemma find_crlf line r : lacks 10 line -> find_sub CRLF (line ++ CRLF ++ r) = Some (length line).
Proof.
  unfold lacks. induction line as [|x line IH]; intros Hl; [done|]. apply not_elem_of_cons in Hl as [Hx Hl].
  cbn [app find_sub length]. rewrite (IH Hl). unfold starts_with.
  destruct (strip_prefix CRLF (x :: line ++ CRLF ++ r)) as [t|] eqn:E; [|done]. exfalso.
  apply strip_prefix_spec in E. unfold CRLF in E. destruct line as [|y line]; cbn in E; [congruence|].
  injection E as _ Ey _. apply not_elem_of_cons in Hl as [Hy _]. congruence.
Qed.

Lemma holds_chunk_stable size : stable (holds_chunk size).
Proof.
  intros x y []. unfold holds_chunk, zlen. rewrite length_app. destruct (Z.ltb_spec (Z.of_nat (length x)) (size + 2)); [done|].
  destruct (Z.ltb_spec (Z.of_nat (length x + length y)) (size + 2)); [lia|done].
Qed.

(** ** What a body delivers *)

(** The chunks read until the end. *)
Inductive body_reads : HttpBody -> list bytes -> Prop :=
| ReadsEnd b b' : read_chunk b = Ok (b', None) -> body_reads b []
| ReadsMore b b' c cs : read_chunk b = Ok (b', Some c) -> body_reads b' cs -> body_reads b (c :: cs).

Definition chunk_ok (c : bytes * bytes) : Prop :=
  lacks 10 c.1 /\ chunk_size c.1 = Ok (zlen c.2) /\ c.2 <> [] /\ zlen c.2 + 2 < 2 ^ 64.

Definition chunk_bytes (c : bytes * bytes) : bytes := c.1 ++ CRLF ++ c.2 ++ CRLF.

(** How a body is put on the wire; [after] is what the peer sends beyond it.
    A peer that closes before the announced length has sent a shorter body. *)
Inductive framed : bytes -> bool -> option Z -> bytes -> Prop :=
| ByChunks l zero after r :
    Forall chunk_ok l -> lacks 10 zero -> chunk_size zero = Ok 0 ->
    framed (concat (snd <$> l)) true r (concat (chunk_bytes <$> l) ++ zero ++ CRLF ++ after)
| ByLength n wire : 0 <= n -> framed (take (Z.to_nat n) wire) false (Some n) wire
| ByClose wire : framed wire false None wire.

Lemma slice_prefix {A} (x y : list A) : slice (x ++ y) 0 (length x) = (Ok x : result (list A)).
Proof.
  rewrite slice_ok by (rewrite ?length_app; lia). by rewrite drop_0, Nat.sub_0_r, take_app_length.
Qed.

Lemma slice_suffix {A} (x y : list A) n : n = length x -> slice (x ++ y) n (length (x ++ y)) = (Ok y : result (list A)).
Proof.
  intros ->. rewrite slice_ok by (rewrite ?length_app; lia). rewrite drop_app_length, take_ge; [done|]. rewrite length_app. lia.
Qed.

Lemma prefix_of_pending b p r : body_pending b = p ++ r -> (length p <= length (body_buffer b))%nat ->
  exists q, body_buffer b = p ++ q /\ q ++ concat (incoming (body_stream b)) = r.
Proof.
  unfold body_pending. intros Hp Hl. exists (drop (length p) (body_buffer b)).
  assert (body_buffer b = p ++ drop (length p) (body_buffer b)) as Heq.
  { rewrite <-(take_drop (length p) (body_buffer b)) at 1. f_equal.
    apply (f_equal (take (length p))) in Hp. by rewrite take_app_le, take_app_length in Hp by done. }
  split; [done|]. rewrite Heq, <-app_assoc in Hp. by apply app_inv_head in Hp.
Qed.

(** The size line. *)
Lemma read_line b line r :
  sound b -> lacks 10 line -> body_pending b = line ++ CRLF ++ r ->
  exists b' q, fill_until (find_sub CRLF) "truncated HTTP chunk header" b = Ok (b', length line) /\ advances b b' /\ sound b' /\
    body_buffer b' = line ++ CRLF ++ q /\ q ++ concat (incoming (body_stream b')) = r.
Proof.
  intros Hs Hl Hp. destruct (fill_until_ok (find_sub CRLF) "truncated HTTP chunk header" b (length line)) as (b1 & Hf & Ha1 & Hs1 & Ht1).
  - intros x y a. apply find_sub_stable.
  - done.
  - rewrite Hp. by apply find_crlf.
  - pose proof (adv_pending _ _ Ha1) as Hp1. rewrite Hp, app_assoc in Hp1.
    apply find_sub_bound in Ht1. destruct (prefix_of_pending b1 (line ++ CRLF) r) as (q & Hq & Hqr).
    + done.
    + by rewrite length_app.
    + exists b1, q. rewrite <-app_assoc in Hq. by split_and!.
Qed.

Lemma read_chunked_chunk b c r :
  sound b -> body_chunked b = true -> body_finished b = false -> chunk_ok c -> body_pending b = chunk_bytes c ++ r ->
  exists b', read_chunk b = Ok (b', Some c.2) /\ sound b' /\ body_chunked b' = true /\ body_finished b' = false /\ body_pending b' = r.
Proof.
  intros Hs Hc Hfin (Hl & Hsz & Hne & Hmax) Hp. destruct c as [line d]. unfold chunk_bytes in Hp. cbn [fst snd] in *.
  rewrite <-!app_assoc in Hp. destruct (read_line b line (d ++ CRLF ++ r) Hs Hl Hp) as (b1 & q & Hf & Ha1 & Hs1 & Hb1 & Hq).
  unfold read_chunk, read_chunked. rewrite Hfin, Hc, Hf. cbn [mbind outcome_bind].
  rewrite Hb1, slice_prefix. cbn [mbind outcome_bind]. rewrite Hsz. cbn [mbind outcome_bind].
  rewrite (app_assoc line), slice_suffix by (rewrite length_app; done). cbn [mbind outcome_bind].
  assert (0 < zlen d) as Hd by (unfold zlen; destruct d; [done|cbn; lia]).
  rewrite (proj2 (Z.eqb_neq _ _)), (proj2 (Z.leb_gt _ _)) by lia.
  destruct (fill_until_ok (holds_chunk (zlen d)) "truncated HTTP chunk body" (with_buffer b1 q) tt) as (b2 & Hf2 & Ha2 & Hs2 & Ht2).
  - apply holds_chunk_stable.
  - exact Hs1.
  - unfold body_pending, holds_chunk. cbn [with_buffer body_buffer body_stream]. rewrite Hq.
    rewrite (proj2 (Z.ltb_ge _ _)); [done|]. unfold zlen. rewrite length_app. cbn. lia.
  - rewrite Hf2. cbn [mbind outcome_bind]. unfold holds_chunk in Ht2.
    destruct (Z.ltb_spec (zlen (body_buffer b2)) (zlen d + 2)); [done|].
    destruct (prefix_of_pending b2 (d ++ CRLF) r) as (q2 & Hq2 & Hr2).
    { rewrite (adv_pending _ _ Ha2). unfold body_pending. cbn [with_buffer body_buffer body_stream]. by rewrite Hq, <-app_assoc. }
    { unfold zlen in *. rewrite length_app. cbn. lia. }
    unfold zlen. rewrite Nat2Z.id, Hq2, <-app_assoc, slice_prefix. cbn [mbind outcome_bind with_buffer body_buffer].
    rewrite drop_app_length, (slice_prefix CRLF). cbn [mbind outcome_bind]. rewrite bool_decide_eq_true_2 by done. cbn [negb].
    eexists. split; [reflexivity|]. split; [exact Hs2|]. rewrite <-Hr2, <-Hc, <-Hfin.
    pose proof (adv_chunked _ _ Ha2). pose proof (adv_finished _ _ Ha2). cbn [with_buffer body_chunked body_finished] in *.
    pose proof (adv_chunked _ _ Ha1). pose proof (adv_finished _ _ Ha1). split_and!; [congruence..|].
    done.
Qed.

Lemma read_chunked_end b zero r :
  sound b -> body_chunked b = true -> body_finished b = false -> lacks 10 zero -> chunk_size zero = Ok 0 ->
  body_pending b = zero ++ CRLF ++ r -> exists b', read_chunk b = Ok (b', None).
Proof.
  intros Hs Hc Hfin Hl Hsz Hp. destruct (read_line b zero r Hs Hl Hp) as (b1 & q & Hf & Ha1 & Hs1 & Hb1 & Hq).
  unfold read_chunk, read_chunked. rewrite Hfin, Hc, Hf. cbn [mbind outcome_bind].
  rewrite Hb1, slice_prefix. cbn [mbind outcome_bind]. rewrite Hsz. cbn [mbind outcome_bind].
  rewrite (app_assoc zero), slice_suffix by (rewrite length_app; done). cbn [mbind outcome_bind]. by eexists.
Qed.

Lemma chunked_reads l zero after b :
  Forall chunk_ok l -> lacks 10 zero -> chunk_size zero = Ok 0 ->
  sound b -> body_chunked b = true -> body_finished b = false ->
  body_pending b = concat (chunk_bytes <$> l) ++ zero ++ CRLF ++ after -> body_reads b (snd <$> l).
Proof.
  intros Hl Hz Hz0. revert b. induction Hl as [|c l Hc _ IH]; intros b Hs Hch Hfin Hp.
  - destruct (read_chunked_end b zero after) as [b' Hb']; [done..|]. by eapply ReadsEnd.
  - cbn [fmap list_fmap concat] in Hp. rewrite <-app_assoc in Hp.
    destruct (read_chunked_chunk b c _ Hs Hch Hfin Hc Hp) as (b' & Hr & Hs' & Hc' & Hf' & Hp').
    eapply ReadsMore; [exact Hr|]. by apply IH.
Qed.

(** A body that is not chunked is what arrives, up to the announced length. *)
Definition plain_body (r : option Z) (wire : bytes) : bytes :=
  match r with Some n => take (Z.to_nat n) wire | None => wire end.

(** A body that can still be read without chunking. *)
Record plain (b : HttpBody) : Prop := {
  plain_sound : sound b;
  plain_chunked : body_chunked b = false;
  plain_finished : body_finished b = false;
  plain_remaining : forall n, content_remaining b = Some n -> 0 <= n
}.

Lemma plain_advances b b' : plain b -> advances b b' -> sound b' -> plain b'.
Proof.
  intros [] [] ?. constructor; [done|congruence..|]. intros n Hn. apply plain_remaining0. congruence.
Qed.

Definition rest_of (b : HttpBody) : bytes := plain_body (content_remaining b) (body_pending b).

Lemma take_plain_cases b : plain b -> body_buffer b <> [] ->
  ((take_plain b).2 = None /\ rest_of b = []) \/
  exists c, (take_plain b).2 = Some c /\ c <> [] /\ plain (take_plain b).1 /\ rest_of b = c ++ rest_of (take_plain b).1.
Proof.
  intros [Hs Hc Hf Hr] Hne. unfold take_plain, rest_of. destruct (content_remaining b) as [n|] eqn:Hn.
  - specialize (Hr n eq_refl). destruct (decide (n = 0)) as [->|Hn0]; [by left|]. right.
    set (k := Z.min n (zlen (body_buffer b))). assert (0 < k <= n /\ k <= zlen (body_buffer b)) as [Hk1 Hk2].
    { unfold k, zlen. destruct (body_buffer b); [done|cbn [length]]. lia. }
    replace (match n with 0 => _ | _ => _ end) with
      (with_remaining (with_buffer b (drop (Z.to_nat k) (body_buffer b))) (Some (n - k)), Some (take (Z.to_nat k) (body_buffer b)))
      by (by destruct n). cbn [fst snd].
    eexists. split; [done|]. split.
    { intros Ht%(f_equal length). rewrite length_take in Ht. unfold zlen in Hk2. cbn in Ht. lia. }
    split; [constructor; [done..|]; cbn; intros ? [= <-]; lia|].
    cbn [plain_body with_remaining content_remaining]. unfold body_pending. cbn [with_remaining with_buffer body_buffer body_stream].
    rewrite Z2Nat.inj_sub by lia. unfold zlen in *.
    rewrite <-(take_drop (Z.to_nat k) (body_buffer b)) at 1. rewrite <-app_assoc.
    rewrite take_app_ge by (rewrite length_take; lia). do 2 f_equal. rewrite length_take. lia.
  - right. eexists. cbn [fst snd]. split_and!; [done|done| |cbn; by rewrite Hn].
    constructor; [done..|]. cbn. by rewrite Hn.
Qed.

Lemma read_plain_cases b : plain b ->
  (exists b', read_chunk b = Ok (b', None) /\ rest_of b = []) \/
  exists b' c, read_chunk b = Ok (b', Some c) /\ c <> [] /\ plain b' /\ rest_of b = c ++ rest_of b'.
Proof.
  intros Hp. pose proof Hp as [Hs Hc Hf _]. unfold read_chunk, read_plain. rewrite Hf, Hc.
  assert (forall b1, plain b1 -> body_buffer b1 <> [] -> rest_of b1 = rest_of b ->
    (exists b', Ok (take_plain b1) = (Ok (b', None) : result _) /\ rest_of b = []) \/
    exists b' c, Ok (take_plain b1) = (Ok (b', Some c) : result _) /\ c <> [] /\ plain b' /\ rest_of b = c ++ rest_of b') as Hmain.
  { intros b1 Hp1 Hne <-. destruct (take_plain_cases b1 Hp1 Hne) as [[Ht Hn]|(c & Ht & Hcne & Hp' & Hrest)];
      destruct (take_plain b1) as [b2 o]; cbn [fst snd] in *; subst o; [left|right]; eauto 8. }
  case_bool_decide as Hb; [|by apply (Hmain b)].
  destruct (fill_cases b) as [[Hi Hfill]|(chunk & rest & b2 & Hi & Ha & Hrest & Hfill & Hbuf)].
  - left. rewrite Hfill, (proj1 Hs). cbn. eexists. split; [done|]. unfold rest_of, body_pending. rewrite Hb, Hi. cbn.
    destruct (content_remaining b); cbn; [by rewrite take_nil|done].
  - assert (chunk <> []) as Hch by (destruct Hs as [_ Hne]; rewrite Hi in Hne; by apply Forall_cons in Hne as [? _]).
    rewrite Hfill, bool_decide_eq_false_2 by done. cbn [mbind outcome_bind negb]. apply Hmain.
    + eapply plain_advances; [done..|]. eapply advances_sound; [done..|]. exists [chunk]. by rewrite Hi.
    + rewrite Hbuf. by intros [_ ?]%app_eq_nil.
    + unfold rest_of. by rewrite (adv_pending _ _ Ha), (adv_remaining _ _ Ha).
Qed.

Lemma plain_reads b : plain b -> exists cs, body_reads b cs /\ Forall (fun c => c <> []) cs /\ concat cs = rest_of b.
Proof.
  remember (length (rest_of b)) as k eqn:Hk. revert b Hk. induction (lt_wf k) as [k _ IH]. intros b Hk Hp.
  destruct (read_plain_cases b Hp) as [(b' & Hb' & Hnil)|(b' & c & Hb' & Hne & Hp' & Heq)].
  - exists []. split_and!; [by eapply ReadsEnd|done|by rewrite Hnil].
  - destruct (IH (length (rest_of b'))) with (b := b') as (cs & Hcs & Hall & Hcat); [|done..|].
    { rewrite Hk, Heq, length_app. destruct c; [done|cbn; lia]. }
    exists (c :: cs). split_and!; [by eapply ReadsMore|by constructor|]. cbn. by rewrite Hcat, Heq.
Qed.

(** A framed body, however it is delivered. *)
Lemma framed_reads body b :
  framed body (body_chunked b) (content_remaining b) (body_pending b) -> sound b -> body_finished b = false ->
  exists cs, body_reads b cs /\ Forall (fun c => c <> []) cs /\ concat cs = body.
Proof.
  intros Hfr Hs Hfin. inversion Hfr as [l zero after r Hl Hz Hz0 Hb Hch Hr Hp|n wire Hn Hb Hch Hr Hp|wire Hb Hch Hr Hp].
  - exists (snd <$> l). split_and!; [|rewrite Forall_fmap; eapply Forall_impl; [exact Hl|by intros c (_ & _ & ? & _)]|done].
    eapply (chunked_reads l zero after); done.
  - destruct (plain_reads b) as (cs & H1 & H2 & H3).
    { constructor; [done..|]. intros m Hm. congruence. }
    exists cs. split_and!; [done..|]. rewrite H3. unfold rest_of. by rewrite <-Hr.
  - destruct (plain_reads b) as (cs & H1 & H2 & H3).
    { constructor; [done..|]. intros m Hm. congruence. }
    exists cs. split_and!; [done..|]. rewrite H3. unfold rest_of. by rewrite <-Hr.
Qed.

Lemma framed_length body ch r wire : framed body ch r wire -> (length body <= length wire)%nat.
Proof.
  intros [l zero after r' _ _ _|n wire' _|wire']; [|rewrite length_take; lia|done]. rewrite length_app.
  induction l as [|c l IH]; [cbn; lia|]. rewrite !fmap_cons. cbn [concat]. unfold chunk_bytes at 1.
  rewrite !length_app in *. lia.
Qed.

Lemma read_chunks limit fuel b cs output :
  body_reads b cs -> (length cs < fuel)%nat ->
  loop fuel (read_to_end_step limit) (b, output) =
  if bool_decide (cs = []) || (zlen output + zlen (concat cs) <=? limit) then Ok (output ++ concat cs)
  else Err (Anyhow "HTTP response body exceeds limit").
Proof.
  intros Hr. revert fuel output. induction Hr as [b b' Hb|b b' c cs Hb _ IH]; intros fuel output Hf;
    (destruct fuel as [|fuel]; [cbn in Hf; lia|]); cbn [loop]; unfold read_to_end_step at 1; rewrite Hb; cbn [mbind outcome_bind].
  - by rewrite app_nil_r.
  - rewrite bool_decide_eq_false_2 by done. cbn [concat length orb] in *. unfold zlen in *. rewrite length_app.
    destruct (Z.ltb_spec limit (Z.of_nat (length output) + Z.of_nat (length c))).
    { by rewrite (proj2 (Z.leb_gt _ _)) by lia. }
    rewrite IH by lia. rewrite length_app, !Nat2Z.inj_add, Z.add_assoc, app_assoc.
    destruct (Z.leb_spec (Z.of_nat (length output) + Z.of_nat (length c) + Z.of_nat (length (concat cs))) limit); [by rewrite orb_true_r|].
    case_bool_decide; [subst cs; cbn in *; lia|done].
Qed.

Lemma nonempty_count (cs : list bytes) : Forall (fun c => c <> []) cs -> (length cs <= length (concat cs))%nat.
Proof.
  induction 1 as [|c cs Hc _ IH]; [done|]. cbn [concat length]. rewrite length_app. destruct c; [done|cbn; lia].
Qed.

Lemma read_sized (limit : Z) (body : bytes) (b : HttpBody) :
  0 <= limit ->
  framed body (body_chunked b) (content_remaining b) (body_pending b) -> sound b -> body_finished b = false ->
  read_to_end limit b =
    if zlen body <=? limit then Ok body else Err (Anyhow "HTTP response body exceeds limit").
Proof.
  intros Hlim Hfr Hs Hfin. destruct (framed_reads body b Hfr Hs Hfin) as (cs & Hr & Hne & Hcat). unfold read_to_end.
  apply framed_length in Hfr as Hl. apply nonempty_count in Hne. rewrite Hcat in Hne.
  rewrite (read_chunks limit _ b cs []) by (done || lia). cbn [app length]. rewrite Hcat. cbn [zlen length].
  case_bool_decide as Hc; [|done]. subst cs. cbn in Hcat. subst body. unfold zlen. cbn. by rewrite (proj2 (Z.leb_le 0 _)).
Qed.

(** A response body is what the peer meant, however the bytes are cut: for
    every list of chunks with size lines of any form [chunk_size] reads (upper
    or lower case, extensions), ended by a zero chunk; for a length announced
    (a connection closed earlier gives, silently, the shorter body); and for a
    connection that closes at the end.  [read_to_end] gives the whole body if it
    is within the limit and an error otherwise. *)
Theorem http_body_delivered (limit : Z) (body : bytes) (b : HttpBody) :
  0 <= limit ->
  framed body (body_chunked b) (content_remaining b) (body_pending b) -> sound b -> body_finished b = false ->
  read_to_end limit b =
    if zlen body <=? limit then Ok body else Err (Anyhow "HTTP response body exceeds limit").
Proof. apply read_sized. Qed.

Lemma parse_hex_digits_nonneg acc s n : 0 <= acc -> parse_hex_digits acc s = Some n -> 0 <= n.
Proof.
  revert acc. induction s as [|x s IH]; intros acc Ha; cbn [parse_hex_digits]; [by intros [= <-]|].
  destruct (hex_value x) as [d|] eqn:Hd; [|done]. destruct (_ <=? _); [done|]. apply IH.
  assert (0 <= d); [|lia]. unfold hex_value in Hd. repeat (case_match; wp_bounds; [injection Hd as <-; lia|]). done.
Qed.

Lemma chunk_size_nonneg line n : chunk_size line = Ok n -> 0 <= n.
Proof.
  unfold chunk_size. destruct (negb _); [done|]. destruct (parse_hex _) as [k|] eqn:Hk; [|done]. intros [= <-].
  unfold parse_hex in Hk. case_match; [done|]. by eapply parse_hex_digits_nonneg.
Qed.

(** A chunk header that announces almost 2^64 bytes. *)
Definition huge_chunk : Prop := exists line size, chunk_size line = Ok size /\ 2 ^ 64 <= size + 2.

Definition ends_well {A} (m : result A) (Q : A -> Prop) : Prop :=
  match m with Ok a => Q a | Err _ => True | Panic => huge_chunk | NoFuel => False end.

Lemma ends_bind {A B} (m : result A) (f : A -> result B) Q R : wp m Q (fun _ => True) -> (forall a, Q a -> ends_well (f a) R) -> ends_well (m ≫= f) R.
Proof. destruct m; cbn; auto; done. Qed.

Lemma chunk_size_safe line : wp (chunk_size line) (fun n => chunk_size line = Ok n) (fun _ => True).
Proof. unfold chunk_size. destruct (negb _); [done|]. by destruct (parse_hex _). Qed.

Definition remaining_ok (b : HttpBody) : Prop := forall n, content_remaining b = Some n -> 0 <= n.

Lemma read_chunked_ends b : remaining_ok b ->
  ends_well (read_chunked b) (fun '(b', o) => match o with
    | Some c => remaining_ok b' /\ (length (body_pending b') < length (body_pending b))%nat
    | None => True end).
Proof.
  intros Hrem. unfold read_chunked. eapply ends_bind; [apply fill_until_wp|]. intros [b1 n] [Ha Hn]. cbn [fst snd] in *.
  apply find_sub_bound in Hn. cbn [CRLF length] in Hn.
  eapply ends_bind; [apply (wp_slice _ _ _ (fun _ => True)); [lia|lia|exact I]|]. intros line _. eapply ends_bind; [apply chunk_size_safe|]. intros size Hsz.
  eapply ends_bind; [apply (wp_slice _ _ _ (fun r => length r = (length (body_buffer b1) - (n + 2))%nat)); [lia|lia|rewrite length_take, length_drop; lia]|]. intros rest Hrest. cbv zeta.
  destruct (size =? 0) eqn:H0; [done|]. destruct (2 ^ 64 <=? size + 2) eqn:Hbig.
  { exists line, size. split; [done|]. by apply Z.leb_le. }
  apply Z.eqb_neq in H0. pose proof (chunk_size_nonneg _ _ Hsz) as Hpos.
  eapply ends_bind; [apply fill_until_wp|]. intros [b2 []] [Ha2 Ht]. cbn [fst snd] in *.
  unfold holds_chunk, zlen in Ht. destruct (Z.ltb_spec (Z.of_nat (length (body_buffer b2))) (size + 2)); [done|].
  eapply ends_bind; [apply (wp_slice _ _ _ (fun _ => True)); [lia|lia|exact I]|]. intros data _.
  eapply ends_bind; [apply (wp_slice _ _ _ (fun _ => True)); [lia|cbn; rewrite length_drop; lia|exact I]|]. intros term _.
  destruct (negb _); [done|]. cbn [ends_well]. split.
  - intros m Hm. apply Hrem. cbn in Hm. rewrite (adv_remaining _ _ Ha2) in Hm. cbn in Hm. by rewrite (adv_remaining _ _ Ha) in Hm.
  - rewrite <-(adv_pending _ _ Ha). pose proof (adv_pending _ _ Ha2) as Hp2. apply (f_equal length) in Hp2.
    unfold body_pending in *. cbn [with_buffer body_buffer body_stream] in *.
    rewrite !length_app in *. rewrite !length_drop. lia.
Qed.

Lemma read_plain_ends b : remaining_ok b ->
  ends_well (read_plain b) (fun '(b', o) => match o with
    | Some c => remaining_ok b' /\ (length (body_pending b') < length (body_pending b))%nat
    | None => True end).
Proof.
  intros Hrem. unfold read_plain.
  apply (ends_bind _ _ (fun '(b1, more) => advances b b1 /\ (more = true -> body_buffer b1 <> []))).
  - case_bool_decide as Hb; [|by split]. destruct (fill_cases b) as [[_ ->]|(chunk & rest & b2 & _ & Ha & _ & -> & Hbuf)].
    + destruct (broken _); by cbn.
    + split; [done|]. case_bool_decide as Hc; [done|]. intros _. rewrite Hbuf. by intros [_ ?]%app_eq_nil.
  - intros [b1 more] [Ha Hm]. destruct more; [|done]. specialize (Hm eq_refl). cbn [negb ends_well].
    rewrite <-(adv_pending _ _ Ha). pose proof (adv_remaining _ _ Ha) as Hr. assert (0 < length (body_buffer b1))%nat by (destruct (body_buffer b1); [done|cbn; lia]).
    unfold take_plain. destruct (content_remaining b1) as [n|] eqn:Hn.
    + assert (0 <= n) by (by apply Hrem). destruct (decide (n = 0)) as [->|Hn0]; [done|].
      set (k := Z.min n (zlen (body_buffer b1))). replace (match n with 0 => _ | _ => _ end) with
        (with_remaining (with_buffer b1 (drop (Z.to_nat k) (body_buffer b1))) (Some (n - k)), Some (take (Z.to_nat k) (body_buffer b1))) by (by destruct n).
      unfold k, zlen. split; [intros m Hm2; cbn in Hm2; injection Hm2 as <-; lia|]. unfold body_pending. cbn [with_remaining with_buffer body_buffer body_stream].
      rewrite !length_app, length_drop. lia.
    + split; [intros m Hm'; cbn in Hm'; congruence|]. unfold body_pending. cbn [with_buffer body_buffer body_stream]. rewrite !length_app. cbn [length]. lia.
Qed.

(** Whatever a peer sends, and however the connection ends, reading a body
    ends with the body or an error; it panics only on a chunk header that
    announces 2^64 - 2 or 2^64 - 1 bytes ([size + 2] overflows). *)
Theorem http_body_total (limit : Z) (b : HttpBody) :
  (forall n, content_remaining b = Some n -> 0 <= n) ->
  read_to_end limit b <> NoFuel /\
  (read_to_end limit b = Panic -> exists line size, chunk_size line = Ok size /\ 2 ^ 64 - 2 <= size).
Proof.
  intros Hrem. assert (ends_well (read_to_end limit b) (fun _ => True)) as H.
  { unfold read_to_end. generalize (@nil Z). remember (S (length (body_pending b))) as fuel eqn:Hf.
    assert (length (body_pending b) < fuel)%nat as Hlt by lia. clear Hf. revert b Hrem Hlt. induction fuel as [|fuel IH]; intros b Hrem Hlt output; [lia|].
    cbn [loop]. unfold read_to_end_step at 1. unfold read_chunk.
    assert (ends_well (if body_finished b then Ok (b, None) else if body_chunked b then read_chunked b else read_plain b)
      (fun '(b', o) => match o with Some c => remaining_ok b' /\ (length (body_pending b') < length (body_pending b))%nat | None => True end)) as He.
    { destruct (body_finished b); [done|]. destruct (body_chunked b); [by apply read_chunked_ends|by apply read_plain_ends]. }
    destruct (if body_finished b then _ else _) as [[b' [c|]]| | |]; [|done..]. cbn [ends_well mbind outcome_bind] in *. destruct He as [Hr' Hl'].
    destruct (_ <? _); [done|]. apply IH; [done|lia]. }
  split; [by intros Hn; rewrite Hn in H|]. intros Hp. rewrite Hp in H. destruct H as (line & size & ? & ?). exists line, size. split; [done|lia].
Qed.

(** ** References stay where they are *)

(** What [parse_url] accepts. *)
Definition url_valid (u : HttpUrl) : Prop :=
  exists default_port p,
    (url_scheme u = str "http" /\ default_port = 80 \/ url_scheme u = str "https" /\ default_port = 443) /\
    url_authority u <> [] /\ lacks 47 (url_authority u) /\
    parse_authority (url_authority u) default_port = Ok (url_host u, url_port u) /\ url_path u = 47 :: p.

Lemma parse_url_valid url u : parse_url url = Ok u -> url_valid u.
Proof.
  unfold parse_url, parse_scheme. intros H.
  assert (exists scheme dp rest, (scheme = str "http" /\ dp = 80 \/ scheme = str "https" /\ dp = 443) /\
    (let '(authority, path) := match split_once 47 rest with Some (a, p) => (a, 47 :: p) | None => (rest, str "/") end in
     if bool_decide (authority = []) then Err (Anyhow "HTTP URL is missing a host") else
     '(host, port) ← parse_authority authority dp;
     Ok {| url_scheme := scheme; url_host := host; url_authority := authority; url_port := port; url_path := path |}) = Ok u)
    as (scheme & dp & rest & Hs & Hu).
  { destruct (strip_prefix (str "http://") url) as [rest|]; [by exists (str "http"), 80, rest; split; [left|]|].
    destruct (strip_prefix (str "https://") url) as [rest|]; [by exists (str "https"), 443, rest; split; [right|]|done]. }
  clear H. assert (exists authority p, lacks 47 authority /\
    match split_once 47 rest with Some (a, p) => (a, 47 :: p) | None => (rest, str "/") end = (authority, 47 :: p)) as (authority & p & Hl & Hap).
  { destruct (split_once 47 rest) as [[a p]|] eqn:E; [exists a, p|exists rest, []]; split; [by eapply split_once_lacks|done|by apply split_once_none_lacks|done]. }
  rewrite Hap in Hu. case_bool_decide; [done|]. destruct (parse_authority authority dp) as [[host port]| | |] eqn:Ha; [|done..].
  injection Hu as <-. exists dp, p. by split_and!.
Qed.

(** Such an address, with another path. *)
Lemma parse_url_of u p : url_valid u ->
  parse_url (url_scheme u ++ str "://" ++ url_authority u ++ 47 :: p) =
  Ok {| url_scheme := url_scheme u; url_host := url_host u; url_authority := url_authority u; url_port := url_port u; url_path := 47 :: p |}.
Proof.
  intros (dp & p0 & Hs & Hne & Hl & Ha & _). unfold parse_url.
  assert (parse_scheme (url_scheme u ++ str "://" ++ url_authority u ++ 47 :: p) = Ok (url_scheme u, url_authority u ++ 47 :: p, dp)) as ->.
  { unfold parse_scheme. destruct Hs as [[-> ->]|[-> ->]].
    - rewrite app_assoc. change (str "http" ++ str "://") with (str "http://"). by rewrite strip_prefix_app.
    - assert (forall x, strip_prefix (str "http://") (str "https" ++ str "://" ++ x) = None) as -> by done.
      rewrite app_assoc. change (str "https" ++ str "://") with (str "https://"). by rewrite strip_prefix_app. }
  cbn [mbind outcome_bind]. rewrite split_once_app by done. rewrite bool_decide_eq_false_2 by done. by rewrite Ha.
Qed.

(** A component that stays where it is. *)
Definition ordinary (s : bytes) : Prop := s <> [] /\ s <> str "." /\ s <> str ".." /\ lacks 47 s /\ lacks 63 s.

Lemma normalize_ordinary components acc :
  Forall ordinary acc -> Forall (fun c => lacks 47 c /\ lacks 63 c) components ->
  Forall ordinary (foldl normalize_step acc components).
Proof.
  intros Hacc Hc. revert acc Hacc. induction Hc as [|c cs [H1 H2] _ IH]; intros acc Hacc; [done|]. cbn [foldl]. apply IH.
  unfold normalize_step. repeat (case_bool_decide; cbn [orb]; [done || idtac|]); try done.
  - destruct acc as [|x acc _] using rev_ind; [done|]. rewrite removelast_last. by apply Forall_app in Hacc as [? _].
  - apply Forall_app. split; [done|]. by repeat constructor.
Qed.

Lemma lacks_join c l : Forall (lacks c) l -> c <> 47 -> lacks c (join (str "/") l).
Proof.
  intros Hl Hc. induction Hl as [|w ws Hw _ IH]; [apply not_elem_of_nil|]. cbn [join]. destruct ws as [|v ws]; [done|].
  unfold lacks in *. rewrite !elem_of_app. intros [?|[Hin|?]]; [done| |done]. apply list_elem_of_singleton in Hin. done.
Qed.

Lemma resolve_normalized u reference :
  is_absolute reference = false ->
  exists segs query, Forall ordinary segs /\ (query = [] \/ exists q, query = 63 :: q) /\
    resolve u reference = url_scheme u ++ str "://" ++ url_authority u ++ 47 :: join (str "/") segs ++ query.
Proof.
  intros Hr. unfold resolve. rewrite Hr. set (raw := if starts_with _ _ then _ else _). clearbody raw.
  set (pq := match split_once 63 raw with Some (p, q) => (p, Some q) | None => (raw, None) end).
  assert (lacks 63 pq.1) as Hl.
  { subst pq. destruct (split_once 63 raw) as [[p q]|] eqn:E; cbn; [by eapply split_once_lacks|by apply split_once_none_lacks]. }
  destruct pq as [path query]. cbn [fst] in Hl. exists (foldl normalize_step [] (split 47 path)), (match query with Some q => 63 :: q | None => [] end).
  split; [|split; [destruct query; eauto|done]]. apply normalize_ordinary; [constructor|].
  rewrite Forall_forall. intros c Hc. split; [by apply (proj1 (Forall_forall _ _) (split_pieces_lack 47 path))|].
  intros Hin. by apply Hl, (split_incl 47 path c).
Qed.

(** C39: a relative reference never leads to another server: resolving it
    against the address of the response gives an address that parses, with
    the scheme, host and port of that response, and whose path has only
    ordinary components (no empty one, no [.], no [..]).  An address is read back
    from its own text. *)
Theorem resolve_stays (url : bytes) (u : HttpUrl) (reference : bytes) :
  parse_url url = Ok u ->
  parse_url (as_url u) = Ok u /\
  (is_absolute reference = false ->
   exists u' segs, parse_url (resolve u reference) = Ok u' /\
     url_scheme u' = url_scheme u /\ url_host u' = url_host u /\ url_authority u' = url_authority u /\ url_port u' = url_port u /\
     before 63 (url_path u') = 47 :: join (str "/") segs /\ Forall ordinary segs).
Proof.
  intros Hu. apply parse_url_valid in Hu as Hv. split.
  - pose proof Hv as (dp & p & _ & _ & _ & _ & Hp). unfold as_url. rewrite Hp, parse_url_of by done. rewrite <-Hp. by destruct u.
  - intros Hr. destruct (resolve_normalized u reference Hr) as (segs & query & Hs & Hq & ->).
    eexists _, segs. split; [by apply parse_url_of|]. cbn [url_scheme url_host url_authority url_port url_path]. split_and!; try done. unfold before.
    assert (lacks 63 (47 :: join (str "/") segs)) as Hl.
    { unfold lacks. rewrite not_elem_of_cons. split; [done|]. apply lacks_join; [|done]. eapply Forall_impl; [exact Hs|]. by intros s (_ & _ & _ & _ & ?). }
    destruct Hq as [->|[q ->]].
    + by rewrite app_nil_r, split_once_none.
    + by rewrite app_comm_cons, split_once_app.
Qed.

(** ** Concrete bodies and addresses *)

Definition demo_body (ch : bool) (r : option Z) (buffer : bytes) (reads : list bytes) : HttpBody :=
  {| body_stream := {| incoming := reads; broken := false |}; body_buffer := buffer; body_chunked := ch;
     content_remaining := r; body_finished := false |}.

(** Two chunks, the first with an extension, cut inside a size line and inside
    a terminator. *)
Definition demo_chunks : list (bytes * bytes) := [(str "a;x=1", str "0123456789"); (str " 03", [1; 2; 3])].
Definition demo_chunked : HttpBody :=
  demo_body true None (str "a;x") [str "=1" ++ [13]; [10] ++ str "0123456789" ++ CRLF ++ str " 03" ++ CRLF ++ [1; 2; 3; 13]; [10; 48; 13; 10; 13; 10]].

Lemma http_body_delivered_witness :
  read_to_end 13 demo_chunked = Ok (str "0123456789" ++ [1; 2; 3]) /\
  read_to_end 12 demo_chunked = Err (Anyhow "HTTP response body exceeds limit") /\
  read_to_end 100 (demo_body false (Some 5) [1; 2] [[3]]) = Ok [1; 2; 3].
Proof.
  assert (framed (str "0123456789" ++ [1; 2; 3]) true None (body_pending demo_chunked)) as Hf.
  { apply (ByChunks demo_chunks (str "0") CRLF None); [|not_in|done]. repeat constructor; try not_in; done. }
  assert (sound demo_chunked) as Hs by by split; repeat constructor.
  split_and!.
  - by apply (http_body_delivered 13 _ demo_chunked ltac:(done) Hf Hs).
  - by apply (http_body_delivered 12 _ demo_chunked ltac:(done) Hf Hs).
  - apply (http_body_delivered 100 [1; 2; 3] (demo_body false (Some 5) [1; 2] [[3]])); [done| |split; [done|repeat constructor; done]|done].
    by apply (ByLength 5 [1; 2; 3]).
Defined.

Lemma http_body_total_witness :
  read_to_end 10 (demo_body true None [] [str "FFFFFFFFFFFFFFFE" ++ CRLF]) = Panic /\
  exists line size, chunk_size line = Ok size /\ 2 ^ 64 - 2 <= size.
Proof.
  assert (read_to_end 10 (demo_body true None [] [str "FFFFFFFFFFFFFFFE" ++ CRLF]) = Panic) as H by (vm_compute; reflexivity).
  split; [exact H|]. by apply (http_body_total 10 (demo_body true None [] [str "FFFFFFFFFFFFFFFE" ++ CRLF])).
Defined.

Lemma resolve_stays_witness :
  exists u u' segs, parse_url (str "http://[::1]:8080/live/a/index.m3u8?k=1") = Ok u /\ url_port u = 8080 /\
    resolve u (str "../b/./seg.ts?n=2") = str "http://[::1]:8080/live/b/seg.ts?n=2" /\
    parse_url (resolve u (str "../b/./seg.ts?n=2")) = Ok u' /\ url_host u' = str "::1" /\
    before 63 (url_path u') = 47 :: join (str "/") segs.
Proof.
  eexists. pose proof (resolve_stays (str "http://[::1]:8080/live/a/index.m3u8?k=1") _ (str "../b/./seg.ts?n=2") eq_refl) as [_ H].
  destruct (H eq_refl) as (u' & segs & Hp & _ & Hh & _ & _ & Hs & _). exists u', segs.
  split; [reflexivity|]. split; [reflexivity|]. split; [vm_compute; reflexivity|]. split; [exact Hp|]. split; [exact Hh|exact Hs].
Defined.
