(* ===== verification/HttpPull.v ===== *)
(** * HttpPull: republishing streams fetched over HTTP

    [http/src/pull_client.rs], second half: following redirections, choosing the
    format, and the loops that republish HTTP-FLV, HTTP-TS and HLS (MPEG-TS or
    fragmented MP4 segments, byte ranges, AES-128).  A pull is a program in a
    monad that opens connections, keeps the tracks of the source it feeds and
    publishes frames.  What a connection delivers may depend on how many were
    opened before and on the request. *)

From S2P Require Import Prelude Frame Stream Flv TsMux TsDemux Bmff Fmp4Mux Fmp4Demux Utf8 Text Auth Ws Playback HttpBody.
#[local] Open Scope Z_scope.
#[local] Set Warnings "-clear-no-such-hyp".

(** ** Effects *)

Inductive PullEffect : Type :=
| Connected (u : HttpUrl) (request : bytes)
| Opened (vhost app stream : bytes)      (* source_manager.get_or_create *)
| Published (f : MediaFrame).            (* source.publish_and_cache *)

(** The connections opened so far; [source.info.tracks], written by no one else
    while the source is fed by this pull. *)
Record PullState : Type := { connections : nat; source_tracks : list TrackInfo }.

Definition P (A : Type) : Type := PullState -> list PullEffect * PullState * result A.

#[global] Instance p_ret : MRet P := fun A a s => ([], s, Ok a).
#[global] Instance p_bind : MBind P := fun A B k m s =>
  let '(es, s, r) := m s in
  match r with
  | Ok a => let '(es', s, r) := k a s in (es ++ es', s, r)
  | Err e => (es, s, Err e)
  | Panic => (es, s, Panic)
  | NoFuel => (es, s, NoFuel)
  end.

Definition lift {A} (r : result A) : P A := fun s => ([], s, r).

(** [source.info.write().await.tracks = f(tracks)] *)
Definition on_tracks (f : list TrackInfo -> list TrackInfo) : P unit := fun s =>
  ([], {| connections := connections s; source_tracks := f (source_tracks s) |}, Ok tt).

Definition publish (f : MediaFrame) : P unit := fun s => ([Published f], s, Ok tt).
Definition open_source (vhost app stream : bytes) : P unit := fun s => ([Opened vhost app stream], s, Ok tt).

Fixpoint each {A} (act : A -> P unit) (l : list A) : P unit :=
  match l with
  | [] => mret tt
  | x :: l => _ ← act x; each act l
  end.

(** [register_track]: a track per kind and codec. *)
Definition track_exists (frame : MediaFrame) (track : TrackInfo) : bool :=
  match track with
  | TrackVideo v => bool_decide (frame_type frame = Video) && bool_decide (video_codec v = codec frame)
  | TrackAudio a => bool_decide (frame_type frame = Audio) && bool_decide (audio_codec a = codec frame)
  end.

Definition new_track (frame : MediaFrame) : list TrackInfo :=
  match frame_type frame with
  | Video => [TrackVideo {| video_codec := codec frame; video_width := 0; video_height := 0; video_fps := 0; video_key_frame := key_frame frame |}]
  | Audio => [TrackAudio {| audio_codec := codec frame; audio_sample_rate := 44100; audio_channels := 2; audio_bits_per_sample := 16 |}]
  | Metadata => []
  end.

Definition add_track (frame : MediaFrame) (tracks : list TrackInfo) : list TrackInfo :=
  if existsb (track_exists frame) tracks then tracks else tracks ++ new_track frame.

Definition register_track (frame : MediaFrame) : P unit := on_tracks (add_track frame).

(** What happens at one turn of a loop: a stop is notified, the flag is set. *)
Record Turn : Type := { notified : bool; is_stopped : bool }.

(** ** HLS playlists *)

Record KeyInfo : Type := { key_uri : bytes; key_iv : option bytes }.

Record SegmentEntry : Type := {
  seg_uri : bytes;
  seg_byterange : option (Z * option Z);
  seg_key : option KeyInfo;
  seg_sequence : Z
}.

Record PlaylistEntries : Type := {
  segments : list SegmentEntry;
  variant : option bytes;
  end_list : bool;
  init_map : option (bytes * option KeyInfo)
}.

Definition upper (b : Z) : Z := if (97 <=? b) && (b <=? 122) then b - 32 else b.
Definition to_ascii_uppercase (s : bytes) : bytes := upper <$> s.

Definition attribute (pair : bytes) : option (bytes * bytes) :=
  match split_once 61 pair with
  | Some (name, value) => Some (to_ascii_uppercase (trim name), trim_matches 34 (trim value))
  | None => None
  end.

Definition hls_attributes (tag : bytes) : list (bytes * bytes) := omap attribute (split 44 tag).

(** [s.trim_start_matches(p)], [p] not empty. *)
Fixpoint trim_start_matches (fuel : nat) (p s : bytes) : bytes :=
  match fuel with
  | O => s
  | S fuel => match strip_prefix p s with Some r => trim_start_matches fuel p r | None => s end
  end.

(** [s.parse::<u64>()] *)
Definition parse_u64 : bytes -> option Z := parse_uint (2 ^ 64 - 1).

Definition parse_byterange (value : bytes) : result (Z * option Z) :=
  let '(length, offset) := match split_once 64 value with Some (l, o) => (l, Some o) | None => (value, None) end in
  length ← match parse_u64 (trim length) with Some n => Ok n | None => Err (Anyhow "invalid EXT-X-BYTERANGE length") end;
  offset ← match offset with
           | None => Ok None
           | Some o => match parse_u64 (trim o) with Some n => Ok (Some n) | None => Err (Anyhow "invalid EXT-X-BYTERANGE offset") end
           end;
  Ok (length, offset).

(** The [hex], [aes] and [cbc] crates: hexadecimal decoding; AES-128-CBC
    decryption with PKCS#7 padding under a key and an initial vector of 16
    bytes each. *)
Class PullPrimitives : Type := {
  hex_decode_bytes : bytes -> option bytes;
  aes128_cbc_decrypt : bytes -> bytes -> bytes -> option bytes
}.

Section Pull.
Context `{PullPrimitives}.

Definition parse_key_tag (attributes : bytes) : result (option KeyInfo) :=
  let attrs := hls_attributes attributes in
  let method := default (str "NONE") (find_key (str "METHOD") attrs) in
  if bool_decide (method = str "NONE") then Ok None
  else if bool_decide (method = str "AES-128") then
    uri ← match find_key (str "URI") attrs with Some v => Ok v | None => Err (Anyhow "AES-128 EXT-X-KEY is missing URI") end;
    iv ← match find_key (str "IV") attrs with
         | None => Ok None
         | Some hex_value =>
             match hex_decode_bytes (trim_start_matches (length hex_value) (str "0x") hex_value) with
             | None => Err (Anyhow "invalid IV")
             | Some decoded =>
                 if negb (length decoded =? 16)%nat then Err (Anyhow "AES-128 IV must be exactly 16 bytes") else Ok (Some decoded)
             end
         end;
    Ok (Some {| key_uri := uri; key_iv := iv |})
  else Err (Anyhow "unsupported HLS encryption method").

(** The variables of the loop over the lines. *)
Record PlaylistState : Type := {
  ps_segments : list SegmentEntry;
  ps_variant : option bytes;
  ps_expect_variant : bool;
  ps_init_map : option (bytes * option KeyInfo);
  ps_sequence : Z;
  ps_key : option KeyInfo;
  ps_byterange : option (Z * option Z)
}.

Definition playlist_new : PlaylistState :=
  {| ps_segments := []; ps_variant := None; ps_expect_variant := false; ps_init_map := None; ps_sequence := 0;
     ps_key := None; ps_byterange := None |}.

Definition playlist_line (st : PlaylistState) (line : bytes) : result PlaylistState :=
  if starts_with (str "#EXT-X-STREAM-INF:") line then
    Ok {| ps_segments := ps_segments st; ps_variant := ps_variant st; ps_expect_variant := true; ps_init_map := ps_init_map st;
          ps_sequence := ps_sequence st; ps_key := ps_key st; ps_byterange := ps_byterange st |}
  else match strip_prefix (str "#EXT-X-MAP:") line with
  | Some attributes =>
      match find_key (str "URI") (hls_attributes attributes) with
      | None => Err (Anyhow "EXT-X-MAP is missing URI")
      | Some uri =>
          Ok {| ps_segments := ps_segments st; ps_variant := ps_variant st; ps_expect_variant := ps_expect_variant st;
                ps_init_map := Some (uri, ps_key st); ps_sequence := ps_sequence st; ps_key := ps_key st; ps_byterange := ps_byterange st |}
      end
  | None => match strip_prefix (str "#EXT-X-KEY:") line with
  | Some attributes =>
      key ← parse_key_tag attributes;
      Ok {| ps_segments := ps_segments st; ps_variant := ps_variant st; ps_expect_variant := ps_expect_variant st;
            ps_init_map := ps_init_map st; ps_sequence := ps_sequence st; ps_key := key; ps_byterange := ps_byterange st |}
  | None => match strip_prefix (str "#EXT-X-BYTERANGE:") line with
  | Some value =>
      range ← parse_byterange value;
      Ok {| ps_segments := ps_segments st; ps_variant := ps_variant st; ps_expect_variant := ps_expect_variant st;
            ps_init_map := ps_init_map st; ps_sequence := ps_sequence st; ps_key := ps_key st; ps_byterange := Some range |}
  | None => match strip_prefix (str "#EXT-X-MEDIA-SEQUENCE:") line with
  | Some value =>
      match parse_u64 (trim value) with
      | None => Err (Anyhow "invalid EXT-X-MEDIA-SEQUENCE")
      | Some n =>
          Ok {| ps_segments := ps_segments st; ps_variant := ps_variant st; ps_expect_variant := ps_expect_variant st;
                ps_init_map := ps_init_map st; ps_sequence := n; ps_key := ps_key st; ps_byterange := ps_byterange st |}
      end
  | None =>
      if bool_decide (line = []) || starts_with (str "#") line then Ok st
      else match ps_expect_variant st, ps_variant st with
      | true, None =>
          Ok {| ps_segments := ps_segments st; ps_variant := Some line; ps_expect_variant := false; ps_init_map := ps_init_map st;
                ps_sequence := ps_sequence st; ps_key := ps_key st; ps_byterange := ps_byterange st |}
      | _, _ =>
          if 2 ^ 64 <=? ps_sequence st + 1 then Panic else
          Ok {| ps_segments := ps_segments st ++ [{| seg_uri := line; seg_byterange := ps_byterange st; seg_key := ps_key st; seg_sequence := ps_sequence st |}];
                ps_variant := ps_variant st; ps_expect_variant := ps_expect_variant st; ps_init_map := ps_init_map st;
                ps_sequence := ps_sequence st + 1; ps_key := ps_key st; ps_byterange := None |}
      end
  end end end end.

Fixpoint playlist_lines (st : PlaylistState) (ls : list bytes) : result PlaylistState :=
  match ls with
  | [] => Ok st
  | l :: ls => st ← playlist_line st l; playlist_lines st ls
  end.

Definition playlist_entries (data : bytes) : result PlaylistEntries :=
  if negb (utf8_valid data) then Err (Anyhow "HLS playlist is not UTF-8") else
  st ← playlist_lines playlist_new (trim <$> lines data);
  Ok {| segments := ps_segments st; variant := ps_variant st;
        end_list := existsb (fun line => bool_decide (trim line = str "#EXT-X-ENDLIST")) (lines data);
        init_map := ps_init_map st |}.

(** ** Opening a response *)

(** The answer to the [n]-th connection; [None]: it cannot be established. *)
Variable connect : nat -> HttpUrl -> bytes -> option AsyncStream.

Definition connect_to (u : HttpUrl) (request : bytes) : P AsyncStream := fun s =>
  ([Connected u request], {| connections := S (connections s); source_tracks := source_tracks s |},
   match connect (connections s) u request with Some stream => Ok stream | None => Err (Anyhow "failed to connect") end).

Fixpoint follow (attempts : nat) (current : bytes) (range : option (Z * Z)) : P HttpResponse :=
  match attempts with
  | O => lift (Err (Anyhow "too many HTTP redirects"))
  | S attempts =>
      u ← lift (parse_url current);
      stream ← connect_to u (http_request u range);
      answer ← lift (receive_response u stream);
      match answer with
      | inl location => follow attempts location range
      | inr response => mret response
      end
  end.

Definition open_response (url : bytes) (range : option (Z * Z)) : P HttpResponse := follow 6 url range.

(** ** HTTP-FLV and HTTP-TS: [true] when the pull is over *)

Definition flv_end (header_parsed : bool) : P bool :=
  if header_parsed then mret true else lift (Err (Anyhow "HTTP-FLV upstream ended before a valid FLV header")).

Definition relay (frame : MediaFrame) : P unit := _ ← register_track frame; publish frame.

Fixpoint pull_flv (turns : list Turn) (body : HttpBody) (buffer : bytes) (header_parsed : bool) : P bool :=
  match turns with
  | [] => mret false
  | t :: turns =>
      if notified t then flv_end header_parsed else
      r ← lift (read_chunk body);
      let '(body, chunk) := r in
      match chunk with
      | None => flv_end header_parsed
      | Some chunk =>
          if is_stopped t then flv_end header_parsed else
          let buffer := flv_feed buffer chunk in
          h ← lift (if header_parsed then Ok (buffer, Some true) else parse_header buffer);
          match h with
          | (buffer, None) => pull_flv turns body buffer false
          | (buffer, Some _) =>
              d ← lift (drain_parser parse_tag buffer);
              _ ← each relay d.2;
              pull_flv turns body d.1 true
          end
      end
  end.

Definition ts_end (demuxer : TsStreamDemuxer) : P bool :=
  _ ← each publish (ts_flush demuxer).2; mret true.

Fixpoint pull_ts (turns : list Turn) (body : HttpBody) (demuxer : TsStreamDemuxer) : P bool :=
  match turns with
  | [] => mret false
  | t :: turns =>
      if notified t then ts_end demuxer else
      r ← lift (read_chunk body);
      let '(body, chunk) := r in
      match chunk with
      | None => ts_end demuxer
      | Some chunk =>
          if is_stopped t then ts_end demuxer else
          d ← lift (ts_feed demuxer chunk);
          _ ← each publish d.2;
          pull_ts turns body d.1
      end
  end.

(** ** HLS *)

Definition MAX_PLAYLIST_SIZE : Z := 2 * 1024 * 1024.
Definition MAX_SEGMENT_SIZE : Z := 64 * 1024 * 1024.

(** The variables of [pull_hls]; [seen] as a list. *)
Record HlsState : Type := {
  playlist_url : bytes;
  seen : list (bytes * option (Z * Z));
  hls_demuxer : TsStreamDemuxer;
  fmp4_demuxer : option Fmp4Demuxer;
  current_map_url : option bytes;
  next_response : option HttpResponse;
  key_cache : gmap bytes bytes
}.

Definition hls_new (url : bytes) (initial : HttpResponse) : HlsState :=
  {| playlist_url := url; seen := []; hls_demuxer := demuxer_new; fmp4_demuxer := None; current_map_url := None;
     next_response := Some initial; key_cache := ∅ |}.

Definition at_playlist (st : HlsState) (url : bytes) (next : option HttpResponse) : HlsState :=
  {| playlist_url := url; seen := seen st; hls_demuxer := hls_demuxer st; fmp4_demuxer := fmp4_demuxer st;
     current_map_url := current_map_url st; next_response := next; key_cache := key_cache st |}.
Definition with_seen (st : HlsState) (l : list (bytes * option (Z * Z))) : HlsState :=
  {| playlist_url := playlist_url st; seen := l; hls_demuxer := hls_demuxer st; fmp4_demuxer := fmp4_demuxer st;
     current_map_url := current_map_url st; next_response := next_response st; key_cache := key_cache st |}.
Definition with_ts (st : HlsState) (d : TsStreamDemuxer) : HlsState :=
  {| playlist_url := playlist_url st; seen := seen st; hls_demuxer := d; fmp4_demuxer := fmp4_demuxer st;
     current_map_url := current_map_url st; next_response := next_response st; key_cache := key_cache st |}.
Definition with_map (st : HlsState) (d : Fmp4Demuxer) (url : bytes) : HlsState :=
  {| playlist_url := playlist_url st; seen := seen st; hls_demuxer := hls_demuxer st; fmp4_demuxer := Some d;
     current_map_url := Some url; next_response := next_response st; key_cache := key_cache st |}.
Definition with_keys (st : HlsState) (k : gmap bytes bytes) : HlsState :=
  {| playlist_url := playlist_url st; seen := seen st; hls_demuxer := hls_demuxer st; fmp4_demuxer := fmp4_demuxer st;
     current_map_url := current_map_url st; next_response := next_response st; key_cache := k |}.

(** [open_response(url).await?.body.read_to_end(MAX_SEGMENT_SIZE).await?] *)
Definition fetch (url : bytes) (range : option (Z * Z)) : P bytes :=
  response ← open_response url range;
  lift (read_to_end MAX_SEGMENT_SIZE (res_body response)).

Definition segment_key (st : HlsState) (key_url : bytes) : P (HlsState * bytes) :=
  match key_cache st !! key_url with
  | Some key => mret (st, key)
  | None =>
      data ← fetch key_url None;
      if negb (length data =? 16)%nat then lift (Err (Anyhow "HLS AES-128 key is not exactly 16 bytes"))
      else mret (with_keys st (<[key_url := data]> (key_cache st)), data)
  end.

Definition decrypt_segment (st : HlsState) (base : HttpUrl) (key : KeyInfo) (data : bytes) (sequence : Z) : P (HlsState * bytes) :=
  r ← segment_key st (resolve base (key_uri key));
  let iv := match key_iv key with Some iv => iv | None => replicate 8 0 ++ to_be 8 sequence end in
  match aes128_cbc_decrypt r.2 iv data with
  | Some clear => mret (r.1, clear)
  | None => lift (Err (Anyhow "HLS segment AES-128-CBC decryption failed"))
  end.

Definition decrypt (st : HlsState) (base : HttpUrl) (key : option KeyInfo) (data : bytes) (sequence : Z) : P (HlsState * bytes) :=
  match key with
  | Some key => decrypt_segment st base key data sequence
  | None => mret (st, data)
  end.

(** The init segment, when the playlist names another one. *)
Definition load_map (st : HlsState) (base : HttpUrl) (m : option (bytes * option KeyInfo)) : P HlsState :=
  match m with
  | None => mret st
  | Some (uri, key) =>
      let map_url := resolve base uri in
      if bool_decide (current_map_url st = Some map_url) then mret st else
      data ← fetch map_url None;
      r ← decrypt st base key data 0;
      parsed ← lift (from_init_segment r.2);
      _ ← on_tracks (fun _ => track_info parsed);
      _ ← each publish (config_frames parsed);
      mret (with_map r.1 parsed map_url)
  end.

(** The byte range of a segment, with [range_ends]; [start + length] is checked. *)
Definition segment_range (ends : gmap bytes Z) (url : bytes) (s : SegmentEntry) : result (gmap bytes Z * option (Z * Z)) :=
  match seg_byterange s with
  | None => Ok (delete url ends, None)
  | Some (len, offset) =>
      first ← match offset with
              | Some o => Ok o
              | None => match ends !! url with
                        | Some e => Ok e
                        | None => Err (Anyhow "EXT-X-BYTERANGE without offset has no preceding range")
                        end
              end;
      if 2 ^ 64 <=? first + len then Panic else
      Ok (<[url := first + len]> ends, Some (first, len))
  end.

Definition fetch_segment (url : bytes) (range : option (Z * Z)) : P bytes :=
  match range with
  | Some (first, len) =>
      if first + len - 1 <? 0 then lift Panic else
      data ← fetch url (Some (first, first + len - 1));
      if negb (zlen data =? len) then lift (Err (Anyhow "EXT-X-BYTERANGE requested bytes but got others")) else mret data
  | None => fetch url None
  end.

Definition play_segment (st : HlsState) (data : bytes) : P HlsState :=
  match fmp4_demuxer st with
  | Some fmp4 =>
      frames ← lift (demux_fragment fmp4 data);
      _ ← each publish frames;
      mret st
  | None =>
      d ← lift (ts_feed (hls_demuxer st) data);
      _ ← each publish d.2;
      mret (with_ts st d.1)
  end.

Fixpoint pull_segments (st : HlsState) (base : HttpUrl) (ends : gmap bytes Z) (l : list SegmentEntry) : P HlsState :=
  match l with
  | [] => mret st
  | s :: l =>
      let url := resolve base (seg_uri s) in
      r ← lift (segment_range ends url s);
      let '(ends, range) := r in
      if bool_decide ((url, range) ∈ seen st) then pull_segments st base ends l else
      let st := with_seen st (seen st ++ [(url, range)]) in
      data ← fetch_segment url range;
      r ← decrypt st base (seg_key s) data (seg_sequence s);
      st ← play_segment r.1 r.2;
      pull_segments st base ends l
  end.

Fixpoint pull_hls (turns : list Turn) (st : HlsState) : P bool :=
  match turns with
  | [] => mret false
  | t :: turns =>
      if is_stopped t then ts_end (hls_demuxer st) else
      response ← match next_response st with
                 | Some response => mret response
                 | None => open_response (playlist_url st) None
                 end;
      let base := res_url response in
      let st := at_playlist st (as_url base) None in
      playlist ← lift (read_to_end MAX_PLAYLIST_SIZE (res_body response));
      entries ← lift (playlist_entries playlist);
      match variant entries with
      | Some v => pull_hls turns (at_playlist st (resolve base v) None)
      | None =>
          st ← load_map st base (init_map entries);
          st ← pull_segments st base ∅ (segments entries);
          if end_list entries then ts_end (hls_demuxer st) else
          let st := if (4096 <? length (seen st))%nat then with_seen st [] else st in
          if notified t then ts_end (hls_demuxer st) else pull_hls turns st
      end
  end.

(** ** Choosing the format *)

Definition content_type_of (r : HttpResponse) : bytes := to_ascii_lowercase (default [] (res_headers r !! str "content-type")).

Definition path_ends (r : HttpResponse) (suffix : string) : bool :=
  ends_with (str suffix) (before 63 (to_ascii_lowercase (url_path (res_url r)))).

Definition says (r : HttpResponse) (word : string) : bool := contains (str word) (content_type_of r).

(** [start] *)
Definition start_pull (turns : list Turn) (url vhost app stream : bytes) : P bool :=
  response ← open_response url None;
  if path_ends response ".m3u8" || says response "mpegurl" then
    _ ← open_source vhost app stream;
    pull_hls turns (hls_new url response)
  else
    _ ← open_source vhost app stream;
    if path_ends response ".flv" || says response "flv" then
      pull_flv turns (res_body response) [] false
    else if path_ends response ".ts" || says response "mp2t" || says response "mpeg-ts" || says response "octet-stream" then
      pull_ts turns (res_body response) demuxer_new
    else lift (Err (Anyhow "unsupported HTTP media content type")).
End Pull.

(** ** Running a pull *)

Lemma p_step {A B} (m : P A) (k : A -> P B) s es s1 a : m s = (es, s1, Ok a) ->
  (m ≫= k) s = ((es ++ (k a s1).1.1), (k a s1).1.2, (k a s1).2).
Proof. intros Hm. unfold mbind, p_bind. rewrite Hm. by destruct (k a s1) as [[? ?] ?]. Qed.

Lemma p_lift {A B} (a : A) (k : A -> P B) s : (lift (Ok a) ≫= k) s = k a s.
Proof. unfold mbind, p_bind, lift. by destruct (k a s) as [[? ?] ?]. Qed.

Lemma p_bind_ok {A B} (m : P A) (k : A -> P B) s es s' b :
  (m ≫= k) s = (es, s', Ok b) -> exists e1 s1 a e2, m s = (e1, s1, Ok a) /\ k a s1 = (e2, s', Ok b) /\ es = e1 ++ e2.
Proof.
  unfold mbind, p_bind. destruct (m s) as [[e1 s1] [a| | |]] eqn:Hm; [|done..]. destruct (k a s1) as [[e2 s2] r] eqn:Hk.
  intros [= <- <- ->]. by exists e1, s1, a, e2.
Qed.

Lemma lift_ok {A} (r : result A) s es s' a : lift r s = (es, s', Ok a) -> r = Ok a /\ es = [] /\ s' = s.
Proof. by intros [= <- <- ->]. Qed.

Definition with_tracks (s : PullState) (ts : list TrackInfo) : PullState := {| connections := connections s; source_tracks := ts |}.

Definition tracks_after (frames : list MediaFrame) (ts : list TrackInfo) : list TrackInfo := foldl (fun ts f => add_track f ts) ts frames.

Lemma each_relay frames s :
  each relay frames s = (Published <$> frames, with_tracks s (tracks_after frames (source_tracks s)), Ok tt).
Proof.
  revert s. induction frames as [|f frames IH]; intros s; [by destruct s|]. cbn [each].
  erewrite p_step by reflexivity. cbn [app]. rewrite IH. done.
Qed.

Lemma each_publish frames s : each publish frames s = (Published <$> frames, s, Ok tt).
Proof. induction frames as [|f frames IH]; [done|]. cbn [each]. erewrite p_step by reflexivity. by rewrite IH. Qed.

Lemma add_track_incl f ts t : t ∈ ts -> t ∈ add_track f ts.
Proof. unfold add_track. destruct (existsb _ _); [done|]. rewrite elem_of_app. by left. Qed.

Lemma tracks_after_incl frames ts t : t ∈ ts -> t ∈ tracks_after frames ts.
Proof.
  revert ts. unfold tracks_after. induction frames as [|f frames IH]; intros ts Ht; [done|]. cbn [foldl]. by apply IH, add_track_incl.
Qed.

Definition registered (ts : list TrackInfo) (f : MediaFrame) : Prop :=
  frame_type f = Metadata \/ exists t, t ∈ ts /\ track_exists f t = true.

Lemma tracks_after_registered frames ts : Forall (registered (tracks_after frames ts)) frames.
Proof.
  revert ts. induction frames as [|f frames IH]; intros ts; [constructor|].
  change (tracks_after (f :: frames) ts) with (tracks_after frames (add_track f ts)). constructor; [|apply IH].
  unfold registered. destruct (decide (frame_type f = Metadata)) as [|Hm]; [by left|]. right.
  assert (exists t, t ∈ add_track f ts /\ track_exists f t = true) as (t & Ht & Hex).
  { unfold add_track. destruct (existsb (track_exists f) ts) eqn:He.
    - apply existsb_exists in He as (t & Ht & Hex). exists t. split; [by apply list_elem_of_In|done].
    - unfold new_track. destruct (frame_type f) eqn:Hty; [| |done].
      + eexists. rewrite elem_of_app, list_elem_of_singleton. split; [by right|]. cbn. by rewrite Hty, !bool_decide_eq_true_2.
      + eexists. rewrite elem_of_app, list_elem_of_singleton. split; [by right|]. cbn. by rewrite Hty, !bool_decide_eq_true_2. }
  exists t. split; [by apply tracks_after_incl|done].
Qed.

(** ** HTTP-FLV *)

(** Nothing stops the pull. *)
Definition idle (turns : list Turn) : Prop := Forall (fun t => notified t = false /\ is_stopped t = false) turns.

Lemma pull_flv_feed turns : forall body cs buffer gs b s,
  body_reads body cs -> idle turns -> (length cs < length turns)%nat -> feed_all parse_tag buffer cs = Ok (b, gs) ->
  pull_flv turns body buffer true s = (Published <$> gs, with_tracks s (tracks_after gs (source_tracks s)), Ok true).
Proof.
  induction turns as [|t turns IH]; intros body cs buffer gs b s Hr Hi Hl Hf; [cbn in Hl; lia|].
  apply Forall_cons in Hi as [[Hn Hst] Hi]. cbn [pull_flv]. rewrite Hn. destruct Hr as [body body' Hread|body body' c cs Hread Hr].
  - rewrite Hread, p_lift. cbn in Hf. injection Hf as <- <-. by destruct s.
  - rewrite Hread, p_lift, Hst, p_lift. cbn [feed_all] in Hf. unfold flv_feed.
    destruct (drain_parser parse_tag (buffer ++ c)) as [[b1 l]| | |] eqn:Hd; [|done..]. cbn [mbind outcome_bind] in Hf.
    destruct (feed_all parse_tag b1 cs) as [[b2 l']| | |] eqn:Hf'; [|done..]. cbn [mbind outcome_bind] in Hf. injection Hf as <- <-.
    rewrite p_lift. cbn [fst snd]. erewrite p_step by apply each_relay.
    erewrite (IH body' cs b1 l' b2) by (done || (cbn in Hl; lia)). cbn [fst snd]. rewrite fmap_app. do 2 f_equal.
    unfold with_tracks, tracks_after. cbn. by rewrite foldl_app.
Qed.

Lemma parse_header_short b : (length b < 13)%nat -> parse_header b = Ok (b, None).
Proof. intros Hb. unfold parse_header. by rewrite (proj2 (Nat.ltb_lt _ _)). Qed.

Definition FLV_HEADER : bytes := (write_header flv_muxer_new).2.

(** From the first byte: the header, then what the tags give in any cut. *)
Lemma pull_flv_stream turns : forall body cs buffer rest gs s,
  body_reads body cs -> idle turns -> (length cs < length turns)%nat -> (length buffer < 13)%nat ->
  buffer ++ concat cs = FLV_HEADER ++ rest ->
  (forall chunks, concat chunks = to_be 4 0 ++ rest -> exists b, feed_all parse_tag [] chunks = Ok (b, gs)) ->
  pull_flv turns body buffer false s = (Published <$> gs, with_tracks s (tracks_after gs (source_tracks s)), Ok true).
Proof.
  induction turns as [|t turns IH]; intros body cs buffer rest gs s Hr Hi Hl Hb Hcat Hgs; [cbn in Hl; lia|].
  apply Forall_cons in Hi as [[Hn Hst] Hi]. cbn [pull_flv]. rewrite Hn. destruct Hr as [body body' Hread|body body' c cs Hread Hr].
  { exfalso. cbn in Hcat. apply (f_equal length) in Hcat. rewrite !length_app in Hcat. cbn in Hcat. lia. }
  rewrite Hread, p_lift, Hst. unfold flv_feed. cbn [concat] in Hcat. rewrite app_assoc in Hcat.
  destruct (decide (length (buffer ++ c) < 13)%nat) as [Hs|Hge].
  { rewrite parse_header_short, p_lift by done. eapply IH; try done. cbn in Hl. lia. }
  assert (exists x, buffer ++ c = FLV_HEADER ++ x) as [x Hx].
  { exists (drop 13 (buffer ++ c)). rewrite <-(take_drop 13 (buffer ++ c)) at 1. f_equal.
    apply (f_equal (take 13)) in Hcat. rewrite take_app_le in Hcat by lia. rewrite Hcat. done. }
  rewrite Hx in Hcat |- *. rewrite <-app_assoc in Hcat. apply app_inv_head in Hcat. subst rest.
  unfold FLV_HEADER at 1. rewrite parse_written_header, p_lift.
  destruct (Hgs ((to_be 4 0 ++ x) :: cs)) as [b Hf]; [cbn [concat]; by rewrite <-app_assoc|]. cbn [feed_all] in Hf. rewrite app_nil_l in Hf.
  destruct (drain_parser parse_tag (to_be 4 0 ++ x)) as [[b1 l]| | |] eqn:Hd; [|done..]. cbn [mbind outcome_bind] in Hf.
  destruct (feed_all parse_tag b1 cs) as [[b2 l']| | |] eqn:Hf'; [|done..]. cbn [mbind outcome_bind] in Hf. injection Hf as <- <-.
  rewrite p_lift. cbn [fst snd]. erewrite p_step by apply each_relay.
  erewrite (pull_flv_feed turns body' cs b1 l' b2) by (done || (cbn in Hl; lia)). cbn [fst snd]. rewrite fmap_app. do 2 f_equal.
  unfold with_tracks, tracks_after. cbn. by rewrite foldl_app.
Qed.

(** ** Responses *)

(** The connection delivers these bytes and is closed. *)
Definition delivers (s : AsyncStream) (wire : bytes) : Prop :=
  broken s = false /\ Forall (fun c => c <> []) (incoming s) /\ concat (incoming s) = wire.

(** The text before the empty line, recognised as such whatever follows. *)
Definition head_text (text : bytes) : Prop :=
  (forall r, find_sub HEADER_END (text ++ HEADER_END ++ r) = Some (length text)) /\ zlen text + 4 < MAX_HEADER_SIZE.

Lemma read_head_ok text rest s :
  head_text text -> delivers s (text ++ HEADER_END ++ rest) ->
  exists s' q, read_head s = Ok (s', text ++ HEADER_END ++ q, length text) /\ delivers s' (drop (length q) rest) /\ q ++ drop (length q) rest = rest.
Proof.
  intros [Hfind Hlen] (Hb & Hne & Hcat).
  assert (wp (read_head s) (fun '(s', buffer, n) => n = length text /\ broken s' = false /\ Forall (fun c => c <> []) (incoming s') /\
     buffer ++ concat (incoming s') = text ++ HEADER_END ++ rest /\ (length text + 4 <= length buffer)%nat) (fun _ => False)) as Hwp.
  { unfold read_head. apply wp_loop with (Inv := fun '(s', buffer) => broken s' = false /\ Forall (fun c => c <> []) (incoming s') /\
      buffer ++ concat (incoming s') = text ++ HEADER_END ++ rest) (mu := fun '(s', _) => length (incoming s')); [|by split_and!|lia].
    intros [s1 buffer] (Hb1 & Hne1 & Hc1). unfold read_head_step. destruct (find_sub HEADER_END buffer) as [n|] eqn:Hf.
    - pose proof (find_sub_stable _ _ (concat (incoming s1)) _ Hf) as Hf'. rewrite Hc1, Hfind in Hf'. injection Hf' as <-.
      apply find_sub_bound in Hf. by split_and!.
    - assert (zlen buffer < MAX_HEADER_SIZE) as Hsm.
      { unfold zlen in *. destruct (decide (length text + 4 <= length buffer)%nat) as [Hge|]; [exfalso|lia].
        assert (exists q, buffer = text ++ HEADER_END ++ q) as [q Hq].
        { exists (drop (length (text ++ HEADER_END)) buffer). rewrite app_assoc. rewrite <-(take_drop (length (text ++ HEADER_END)) buffer) at 1. f_equal.
          apply (f_equal (take (length (text ++ HEADER_END)))) in Hc1. rewrite app_assoc, take_app_length, take_app_le in Hc1; [done|]. by rewrite length_app. }
        rewrite Hq, Hfind in Hf. done. }
      rewrite (proj2 (Z.leb_gt _ _)) by done. unfold stream_read. destruct (incoming s1) as [|c cs] eqn:Hin.
      + exfalso. rewrite app_nil_r in Hc1. by rewrite Hc1, Hfind in Hf.
      + apply Forall_cons in Hne1 as [Hc Hne1]. cbn [mbind outcome_bind]. rewrite bool_decide_eq_false_2 by done. cbn [wp incoming broken].
        split_and!; [done..| |cbn; lia]. cbn in Hc1. by rewrite <-app_assoc. }
  destruct (read_head s) as [[[s' buffer] n]| | |]; [|done..]. destruct Hwp as (-> & Hb' & Hne' & Hc' & Hl).
  assert (exists q, buffer = text ++ HEADER_END ++ q) as [q ->].
  { exists (drop (length (text ++ HEADER_END)) buffer). rewrite app_assoc. rewrite <-(take_drop (length (text ++ HEADER_END)) buffer) at 1. f_equal.
    apply (f_equal (take (length (text ++ HEADER_END)))) in Hc'. rewrite app_assoc, take_app_length, take_app_le in Hc'; [done|]. by rewrite length_app. }
  rewrite <-!app_assoc in Hc'. apply app_inv_head, app_inv_head in Hc'. exists s', q. rewrite <-Hc', drop_app_length. by split_and!.
Qed.

Lemma slice_after {A} (x y z : list A) n : n = length (x ++ y) -> slice (x ++ y ++ z) n (length (x ++ y ++ z)) = (Ok z : result (list A)).
Proof. intros ->. rewrite (app_assoc x). by apply slice_suffix. Qed.

Definition announced (headers : gmap bytes bytes) (n : option Z) : Prop :=
  match headers !! str "content-length" with Some v => parse_usize v = n /\ n <> None | None => n = None end.

Definition is_chunked (headers : gmap bytes bytes) : bool :=
  match headers !! str "transfer-encoding" with Some value => contains (str "chunked") (to_ascii_lowercase value) | None => false end.

(** A successful answer with its body still to be read. *)
Lemma receive_ok text status headers n u s rest :
  head_text text -> parse_head text = Ok (status, headers) -> 200 <= status < 300 -> announced headers n ->
  delivers s (text ++ HEADER_END ++ rest) ->
  exists resp, receive_response u s = Ok (inr resp) /\ res_url resp = u /\ res_headers resp = headers /\
    sound (res_body resp) /\ body_finished (res_body resp) = false /\ body_pending (res_body resp) = rest /\
    body_chunked (res_body resp) = is_chunked headers /\ content_remaining (res_body resp) = n.
Proof.
  intros Ht Hp Hst Hn Hd. destruct (read_head_ok text rest s Ht Hd) as (s' & q & Hr & Hd' & Hq).
  unfold receive_response. rewrite Hr. cbn [mbind outcome_bind]. rewrite slice_prefix. cbn [mbind outcome_bind].
  rewrite slice_after by (rewrite length_app; done). cbn [mbind outcome_bind]. rewrite Hp. cbn [mbind outcome_bind].
  assert (is_redirect status = false) as -> by (unfold is_redirect; repeat (rewrite (proj2 (Z.eqb_neq status _)) by lia); done).
  rewrite (proj2 (Z.leb_le 200 _)), (proj2 (Z.ltb_lt status _)) by lia. cbn [andb negb].
  destruct Hd' as (Hb & Hne & Hcat).
  unfold announced in Hn. destruct (headers !! str "content-length") as [v|]; [destruct Hn as [Hv Hnn]; rewrite Hv; destruct n as [n|]; [|done]|subst n];
    cbn [mbind outcome_bind]; eexists; (split; [reflexivity|]); (split; [done|]); (split; [done|]); cbn [res_body];
    (split; [by split|]); (split; [done|]); (split; [|done]); unfold body_pending; cbn [body_buffer body_stream]; by rewrite Hcat.
Qed.

(** A body that ends with the connection. *)
Lemma plain_response_reads resp rest :
  sound (res_body resp) -> body_finished (res_body resp) = false -> body_pending (res_body resp) = rest ->
  body_chunked (res_body resp) = false -> content_remaining (res_body resp) = None ->
  exists cs, body_reads (res_body resp) cs /\ concat cs = rest /\ (length cs <= length rest)%nat.
Proof.
  intros Hs Hf Hp Hc Hn. destruct (framed_reads rest (res_body resp)) as (cs & Hr & Hne & Hcat); [|done..|].
  - rewrite Hc, Hn, Hp. constructor.
  - exists cs. split_and!; [done..|]. rewrite <-Hcat. by apply nonempty_count.
Qed.

Lemma reread_unique fs gs gs' : Forall2 reread fs gs -> Forall2 reread fs gs' -> gs = gs'.
Proof.
  intros H. revert gs'. induction H as [|f g fs gs Hf _ IH]; intros gs' H'; [by inv H'|].
  apply Forall2_cons_inv_l in H' as (g2 & gs2 & Hg2 & Hgs2 & ->). f_equal; [|by apply IH].
  destruct Hf as (p1 & (_ & _ & Hp1 & _) & Hf), Hg2 as (p2 & (_ & _ & Hp2 & _) & Hg2). congruence.
Qed.

(** The frames of a written stream do not depend on the cuts. *)
Lemma flv_tags_any tracks fs payloads tags :
  Forall2 flv_writable fs payloads -> fs <> [] -> Forall2 tag_of fs tags ->
  exists gs, Forall2 reread fs gs /\ forall chunks,
    concat chunks = to_be 4 0 ++ concat (option_list (flv_metadata tracks)) ++ concat tags -> exists b, feed_all parse_tag [] chunks = Ok (b, gs).
Proof.
  intros Hw Hne Ht. set (skip := to_be 4 0 ++ concat (option_list (flv_metadata tracks))).
  assert (skippable skip) as Hskip by (apply skippable_app; [apply skippable_zeros|apply flv_metadata_skippable]).
  destruct (flv_tags_read skip fs payloads tags [skip ++ concat tags]) as (gs & b & Hgs & _); try done; [apply app_nil_r|].
  exists gs. split; [done|]. intros chunks Hc. rewrite app_assoc in Hc.
  destruct (flv_tags_read skip fs payloads tags chunks) as (gs' & b' & Hgs' & Hf & _); try done.
  exists b'. by rewrite (reread_unique _ _ _ Hgs Hgs').
Qed.

Section FlvPull.
Context `{PullPrimitives}.
Variable connect : nat -> HttpUrl -> bytes -> option AsyncStream.

Lemma open_ok url u stream resp s range :
  parse_url url = Ok u -> connect (connections s) u (http_request u range) = Some stream ->
  receive_response u stream = Ok (inr resp) ->
  open_response connect url range s =
    ([Connected u (http_request u range)], {| connections := S (connections s); source_tracks := source_tracks s |}, Ok resp).
Proof.
  intros Hu Hc Hr. unfold open_response. cbn [follow]. rewrite Hu, p_lift.
  erewrite p_step by (unfold connect_to; rewrite Hc; reflexivity). by rewrite Hr, p_lift.
Qed.

Definition stream_text : bytes :=
  str "HTTP/1.1 200 OK" ++ CRLF ++ str "Content-Type: video/x-flv" ++ CRLF ++ str "Connection: close" ++ CRLF ++ str "Cache-Control: no-cache".

Lemma stream_text_head : head_text stream_text.
Proof. split; [|done]. intros r. vm_compute. reflexivity. Qed.

Lemma response_stream_text : response_stream "video/x-flv" = stream_text ++ HEADER_END.
Proof. done. Qed.

(** C6: a server pulling a live stream of another one over HTTP-FLV republishes
    it.  What the serving session has written so far (response head, FLV
    header, metadata, the cached GOP, the live frames until it ended) reaches
    the pulling side cut in any way; the pull connects once, opens its source,
    and publishes exactly the frames of the cached GOP and the live frames that
    are not configuration frames, in order, each as a reader of its tag sees it;
    every published kind and codec has its track in the source. *)
Theorem http_flv_pulled (peer_addr : bytes) (sid : StreamId) (v : SourceView) (events : list Event) (n n' : nat) (es : list Effect) (b : bool)
    (payloads : list bytes) (url vhost app stream : bytes) (u : HttpUrl) (answer : AsyncStream) (turns : list Turn) (s : PullState) :
  http_stream peer_addr flv_format sid v events n = (es, n', Ok b) ->
  Forall2 flv_writable (view_latest v ++ served_frames events) payloads -> view_latest v ++ served_frames events <> [] ->
  parse_url url = Ok u -> ends_with (str ".m3u8") (before 63 (to_ascii_lowercase (url_path u))) = false ->
  connect (connections s) u (http_request u None) = Some answer -> delivers answer (written es) ->
  idle turns -> (length (written es) < length turns)%nat ->
  exists gs tracks, Forall2 reread (view_latest v ++ served_frames events) gs /\
    start_pull connect turns url vhost app stream s =
      (Connected u (http_request u None) :: Opened vhost app stream :: (Published <$> gs),
       {| connections := S (connections s); source_tracks := tracks |}, Ok true) /\
    Forall (registered tracks) gs.
Proof.
  intros Hs Hw Hne Hu Hpath Hconn Hdel Hidle Hturns.
  apply http_flv_written in Hs as (tags & Htags & Hwr).
  destruct (flv_tags_any (view_tracks v) _ payloads tags Hw Hne Htags) as (gs & Hgs & Hany).
  set (rest := concat (option_list (flv_metadata (view_tracks v))) ++ concat tags) in *.
  assert (written es = stream_text ++ HEADER_END ++ FLV_HEADER ++ rest) as Hwire by by rewrite Hwr, response_stream_text, <-app_assoc.
  rewrite Hwire in Hdel, Hturns.
  destruct (receive_ok stream_text 200 (foldl add_header ∅ (tail (split_crlf stream_text))) None u answer (FLV_HEADER ++ rest) stream_text_head)
    as (resp & Hr & Hru & Hrh & Hsnd & Hfin & Hpend & Hch & Hrem); [vm_compute; reflexivity|lia|vm_compute; reflexivity|exact Hdel|].
  assert (body_chunked (res_body resp) = false) as Hch' by (rewrite Hch; vm_compute; reflexivity).
  destruct (plain_response_reads resp _ Hsnd Hfin Hpend Hch' Hrem) as (cs & Hcs & Hcat & Hlen).
  exists gs, (tracks_after gs (source_tracks s)). split; [done|]. split; [|apply tracks_after_registered].
  unfold start_pull. erewrite p_step by (eapply open_ok; done).
  assert (path_ends resp ".m3u8" || says resp "mpegurl" = false) as ->.
  { unfold path_ends. rewrite Hru, Hpath. cbn [orb]. unfold says, content_type_of. rewrite Hrh. vm_compute. reflexivity. }
  assert (path_ends resp ".flv" || says resp "flv" = true) as Hflv.
  { apply orb_true_iff. right. unfold says, content_type_of. rewrite Hrh. vm_compute. reflexivity. }
  erewrite p_step by reflexivity. rewrite Hflv.
  rewrite (pull_flv_stream turns (res_body resp) cs [] rest gs); [done|done|done| |cbn; lia|exact Hcat|exact Hany].
  rewrite !length_app in *. lia.
Qed.
End FlvPull.

(** ** A short pull *)

(** Primitives for a stream that is not encrypted. *)
Definition no_keys : PullPrimitives := {| hex_decode_bytes := fun _ => None; aes128_cbc_decrypt := fun _ _ _ => None |}.

(** A server that sends these bytes in two pieces. *)
Definition in_pieces (b : bytes) : AsyncStream :=
  {| incoming := List.filter (fun c => negb (bool_decide (c = []))) [take 100 b; drop 100 b]; broken := false |}.

Lemma in_pieces_delivers b : delivers (in_pieces b) b.
Proof.
  split; [done|]. split.
  - rewrite Forall_forall. intros c Hc. apply list_elem_of_In, filter_In in Hc as [_ Hc]. by apply negb_true_iff, bool_decide_eq_false in Hc.
  - rewrite <-(take_drop 100 b) at 2. unfold in_pieces. cbn [incoming List.filter].
    destruct (take 100 b), (drop 100 b); cbn; by rewrite ?app_nil_r.
Qed.

Definition flv_demo_events : list Event := [Recv flv_demo_video; Recv flv_demo_audio].

Definition flv_demo_run : list Effect * nat * outcome Exit bool :=
  http_stream (str "10.0.0.1:5") flv_format (str "live", str "s") demo_view flv_demo_events 100%nat.

Definition idle_turn : Turn := {| notified := false; is_stopped := false |}.

Lemma http_flv_pulled_witness :
  exists gs tracks s', Forall2 reread [flv_demo_video; flv_demo_video; flv_demo_audio] gs /\
    start_pull (H := no_keys) (fun _ _ _ => Some (in_pieces (written flv_demo_run.1.1))) (replicate 2000 idle_turn)
      (str "http://h/live/s.flv") [] (str "live") (str "t") {| connections := 0; source_tracks := [] |} =
      (s', {| connections := 1; source_tracks := tracks |}, Ok true) /\ Forall (registered tracks) gs.
Proof.
  set (u := {| url_scheme := str "http"; url_host := str "h"; url_authority := str "h"; url_port := 80; url_path := str "/live/s.flv" |}).
  destruct (http_flv_pulled (H := no_keys) (fun _ _ _ => Some (in_pieces (written flv_demo_run.1.1))) (str "10.0.0.1:5") (str "live", str "s") demo_view
    flv_demo_events 100%nat flv_demo_run.1.2 flv_demo_run.1.1 false
    [[0x17; 1; 0; 0; 40; 0; 0; 0; 1; 0x65]; [0x17; 1; 0; 0; 40; 0; 0; 0; 1; 0x65]; [0x72; 1; 2]]
    (str "http://h/live/s.flv") [] (str "live") (str "t") u (in_pieces (written flv_demo_run.1.1)) (replicate 2000 idle_turn) {| connections := 0; source_tracks := [] |})
    as (gs & tracks & Hgs & Hrun & Hreg).
  - vm_compute. reflexivity.
  - change (view_latest demo_view ++ served_frames flv_demo_events) with [flv_demo_video; flv_demo_video; flv_demo_audio].
    repeat (apply Forall2_cons; split); [..|apply Forall2_nil_2]; repeat constructor; vm_compute; (reflexivity || discriminate || (intros; discriminate)).
  - discriminate.
  - vm_compute. reflexivity.
  - vm_compute. reflexivity.
  - reflexivity.
  - apply in_pieces_delivers.
  - unfold idle. apply Forall_replicate. by split.
  - rewrite length_replicate. apply Nat.ltb_lt. vm_compute. reflexivity.
  - eexists gs, tracks, _. split; [exact Hgs|]. split; [exact Hrun|exact Hreg].
Defined.
