(* ===== verification/Hls.v ===== *)
(** * Hls: cutting a live stream into transport stream segments

    [hls/src/muxer.rs]: [HlsMuxer] collects frames and writes a segment when a
    key frame arrives after the target duration; the task of [start_hls_task]
    keeps the latest segments.  [hls/src/recorder.rs] and [hls/src/cmaf.rs]: the
    playlist of a recording and the one of fragmented MP4 segments.  Then what a
    reader of any of the segments gets. *)

From Stdlib Require Import SpecFloat.
From S2P Require Import Prelude Frame F64 Payload Text Gop TsMux TsDemux TsStream Bmff Fmp4Mux.
#[local] Open Scope Z_scope.

(** ** The muxer *)

Record HlsMuxer : Type := {
  target_duration : f64;
  max_segments : nat;
  current_frames : list MediaFrame;
  segment_start_pts : option Z;
  segment_index : Z;
  hls_writer : TsWriter;
  hls_video_config_sent : bool;
  hls_audio_config_sent : bool;
  hls_video_config : option bytes;
  hls_audio_config : option bytes;
  hls_video_codec : option CodecId
}.

Definition hls_new (target : f64) : HlsMuxer :=
  {| target_duration := target; max_segments := 6; current_frames := []; segment_start_pts := None; segment_index := 0;
     hls_writer := writer_new; hls_video_config_sent := false; hls_audio_config_sent := false; hls_video_config := None;
     hls_audio_config := None; hls_video_codec := None |}.

Definition with_max_segments (m : HlsMuxer) (n : nat) : HlsMuxer :=
  {| target_duration := target_duration m; max_segments := n; current_frames := current_frames m;
     segment_start_pts := segment_start_pts m; segment_index := segment_index m; hls_writer := hls_writer m;
     hls_video_config_sent := hls_video_config_sent m; hls_audio_config_sent := hls_audio_config_sent m;
     hls_video_config := hls_video_config m; hls_audio_config := hls_audio_config m; hls_video_codec := hls_video_codec m |}.

(** The frames collected and when they began. *)
Definition with_frames (m : HlsMuxer) (frames : list MediaFrame) (start : option Z) : HlsMuxer :=
  {| target_duration := target_duration m; max_segments := max_segments m; current_frames := frames;
     segment_start_pts := start; segment_index := segment_index m; hls_writer := hls_writer m;
     hls_video_config_sent := hls_video_config_sent m; hls_audio_config_sent := hls_audio_config_sent m;
     hls_video_config := hls_video_config m; hls_audio_config := hls_audio_config m; hls_video_codec := hls_video_codec m |}.

Definition with_hls_writer (m : HlsMuxer) (w : TsWriter) : HlsMuxer :=
  {| target_duration := target_duration m; max_segments := max_segments m; current_frames := current_frames m;
     segment_start_pts := segment_start_pts m; segment_index := segment_index m; hls_writer := w;
     hls_video_config_sent := hls_video_config_sent m; hls_audio_config_sent := hls_audio_config_sent m;
     hls_video_config := hls_video_config m; hls_audio_config := hls_audio_config m; hls_video_codec := hls_video_codec m |}.

Definition with_video_config (m : HlsMuxer) (codec : option CodecId) (config : option bytes) (sent : bool) : HlsMuxer :=
  {| target_duration := target_duration m; max_segments := max_segments m; current_frames := current_frames m;
     segment_start_pts := segment_start_pts m; segment_index := segment_index m; hls_writer := hls_writer m;
     hls_video_config_sent := sent; hls_audio_config_sent := hls_audio_config_sent m;
     hls_video_config := config; hls_audio_config := hls_audio_config m; hls_video_codec := codec |}.

Definition with_audio_config (m : HlsMuxer) (config : option bytes) (sent : bool) : HlsMuxer :=
  {| target_duration := target_duration m; max_segments := max_segments m; current_frames := current_frames m;
     segment_start_pts := segment_start_pts m; segment_index := segment_index m; hls_writer := hls_writer m;
     hls_video_config_sent := hls_video_config_sent m; hls_audio_config_sent := sent;
     hls_video_config := hls_video_config m; hls_audio_config := config; hls_video_codec := hls_video_codec m |}.

(** After a segment: the next index ([+= 1] in [u32]), nothing sent. *)
Definition next_segment (m : HlsMuxer) (frames : list MediaFrame) (start : option Z) : result HlsMuxer :=
  if 2 ^ 32 <=? segment_index m + 1 then Panic else
  Ok {| target_duration := target_duration m; max_segments := max_segments m; current_frames := frames;
        segment_start_pts := start; segment_index := segment_index m + 1; hls_writer := hls_writer m;
        hls_video_config_sent := false; hls_audio_config_sent := false;
        hls_video_config := hls_video_config m; hls_audio_config := hls_audio_config m; hls_video_codec := hls_video_codec m |}.

(** The first loop of [mux_segment]: configuration frames are remembered. *)
Definition capture_hls (m : HlsMuxer) (frame : MediaFrame) : result HlsMuxer :=
  match frame_type frame with
  | Video =>
      if is_video_config frame then
        cfg ← extract_video_config frame; Ok (with_video_config m (Some (codec frame)) (Some cfg) false)
      else Ok m
  | Audio =>
      if is_aac_config frame then
        cfg ← extract_aac_config frame; Ok (with_audio_config m (Some cfg) false)
      else Ok m
  | Metadata => Ok m
  end.

Fixpoint capture_all (m : HlsMuxer) (frames : list MediaFrame) : result HlsMuxer :=
  match frames with
  | [] => Ok m
  | f :: frames => m ← capture_hls m f; capture_all m frames
  end.

(** The configurations, stamped with [pcr / 90] of the writer. *)
Definition write_video_config (m : HlsMuxer) : result (HlsMuxer * bytes) :=
  match hls_video_config_sent m, hls_video_config m with
  | false, Some config =>
      '(w, out) ← write_pes (hls_writer m) VIDEO_PID (build_config_pes 0xE0 config) true (pcr (hls_writer m) / 90);
      Ok (with_video_config (with_hls_writer m w) (hls_video_codec m) (Some config) true, out)
  | _, _ => Ok (m, [])
  end.

Definition write_audio_config (m : HlsMuxer) : result (HlsMuxer * bytes) :=
  match hls_audio_config_sent m, hls_audio_config m with
  | false, Some config =>
      '(w, out) ← write_pes (hls_writer m) AUDIO_PID (build_config_pes 0xC0 config) true (pcr (hls_writer m) / 90);
      Ok (with_audio_config (with_hls_writer m w) (Some config) true, out)
  | _, _ => Ok (m, [])
  end.

(** The last loop: the elementary packets of the media frames. *)
Definition media_units (audio_config : option bytes) (frame : MediaFrame) : result (list PesUnit) :=
  match frame_type frame with
  | Video =>
      if is_video_config frame then Ok [] else
      annex_b ← unwrap_or_default (video_sample_annex_b frame);
      Ok match annex_b with
         | [] => []
         | _ :: _ => [{| unit_pid := VIDEO_PID; unit_pes := build_data_pes_raw 0xE0 annex_b (timestamp frame);
                         unit_random := true; unit_dts := timestamp frame |}]
         end
  | Audio =>
      if is_aac_config frame then Ok [] else
      audio ← aac_frame_to_adts frame audio_config;
      Ok match audio with
         | [] => []
         | _ :: _ => [{| unit_pid := AUDIO_PID; unit_pes := build_data_pes_raw 0xC0 audio (timestamp frame);
                         unit_random := false; unit_dts := timestamp frame |}]
         end
  | Metadata => Ok []
  end.

Fixpoint write_media (audio_config : option bytes) (w : TsWriter) (frames : list MediaFrame) : result (TsWriter * bytes) :=
  match frames with
  | [] => Ok (w, [])
  | f :: frames =>
      us ← media_units audio_config f;
      '(w, out) ← write_units w us;
      '(w, rest) ← write_media audio_config w frames;
      Ok (w, out ++ rest)
  end.

Definition mux_segment (m : HlsMuxer) : result (HlsMuxer * bytes) :=
  m ← capture_all m (current_frames m);
  let '(w, tables) := write_pat_pmt (hls_writer m) (video_stream_type (hls_video_codec m)) in
  '(m, video_config) ← write_video_config (with_hls_writer m w);
  '(m, audio_config) ← write_audio_config m;
  '(w, media) ← write_media (hls_audio_config m) (hls_writer m) (current_frames m);
  Ok (with_hls_writer m w, tables ++ video_config ++ audio_config ++ media).

(** [x >= y] *)
Definition f64_ge (x y : f64) : bool :=
  match SFcompare (f64_decode x) (f64_decode y) with Some Gt | Some Eq => true | _ => false end.

(** The bit pattern of [1000.0]. *)
Definition F_THOUSAND : f64 := 0x408F400000000000.

Definition elapsed_enough (m : HlsMuxer) (frame : MediaFrame) (start : Z) : bool :=
  f64_ge (f64_div (f64_of_uint (Z.max 0 (dts frame - start))) F_THOUSAND) (target_duration m).

(** [HlsMuxer::push_frame]: the index and bytes of a finished segment. *)
Definition hls_push (m : HlsMuxer) (frame : MediaFrame) : result (HlsMuxer * option (Z * bytes)) :=
  let start := default (dts frame) (segment_start_pts m) in
  let m := with_frames m (current_frames m) (Some start) in
  if bool_decide (frame_type frame = Video) && key_frame frame && elapsed_enough m frame start &&
     negb (bool_decide (current_frames m = [])) then
    '(m, segment) ← mux_segment m;
    let idx := segment_index m in
    m ← next_segment m [frame] (Some (dts frame));
    Ok (m, Some (idx, segment))
  else Ok (with_frames m (current_frames m ++ [frame]) (Some start), None).

Definition hls_flush (m : HlsMuxer) : result (HlsMuxer * option (Z * bytes)) :=
  match current_frames m with
  | [] => Ok (m, None)
  | _ :: _ =>
      '(m, segment) ← mux_segment m;
      let idx := segment_index m in
      m ← next_segment m [] None;
      Ok (m, Some (idx, segment))
  end.

(** ** The live task *)

Record HlsSegment : Type := { index : Z; seg_duration : f64; segment_data : bytes }.

(** [push_back], then [pop_front] while there are too many. *)
Definition store_segment (max : nat) (segs : list HlsSegment) (s : HlsSegment) : list HlsSegment :=
  let segs := segs ++ [s] in drop (length segs - max) segs.

(** The configuration frames are pushed first; what they complete is dropped. *)
Fixpoint push_cached (m : HlsMuxer) (frames : list MediaFrame) : result HlsMuxer :=
  match frames with
  | [] => Ok m
  | f :: frames => '(m, _) ← hls_push m f; push_cached m frames
  end.

Inductive Received : Type := GotFrame (f : MediaFrame) | GotLagged | GotClosed.

(** [start_hls_task] after the cached frames: the segments shared with the
    sessions, and whether the task still runs. *)
Fixpoint hls_task (m : HlsMuxer) (segs : list HlsSegment) (events : list Received) : result (HlsMuxer * list HlsSegment * bool) :=
  match events with
  | [] => Ok (m, segs, true)
  | GotFrame f :: events =>
      '(m, done) ← hls_push m f;
      hls_task m (match done with
                  | Some (i, b) => store_segment (max_segments m) segs {| index := i; seg_duration := target_duration m; segment_data := b |}
                  | None => segs
                  end) events
  | GotLagged :: events => hls_task m segs events
  | GotClosed :: _ =>
      '(m, done) ← hls_flush m;
      Ok (m, match done with
             | Some (i, b) => segs ++ [{| index := i; seg_duration := target_duration m; segment_data := b |}]
             | None => segs
             end, false)
  end.

(** ** Playlists *)

(** [format!("{:.3}", x)] for a number that is not negative: thousandths, ties
    to even. *)
Definition thousandths (x : f64) : Z :=
  match f64_decode x with
  | S754_finite _ p e =>
      if 0 <=? e then Zpos p * 2 ^ e * 1000 else
      let d := 2 ^ (- e) in
      let q := Zpos p * 1000 / d in
      let r := Zpos p * 1000 mod d in
      if (d <? 2 * r) || ((2 * r =? d) && Z.odd q) then q + 1 else q
  | _ => 0
  end.

Definition fixed3 (x : f64) : bytes :=
  let n := thousandths x in
  let r := n mod 1000 in
  dec (n / 1000) ++ str "." ++ [48 + r / 100; 48 + r / 10 mod 10; 48 + r mod 10].

Definition LF : bytes := [10].

Definition extinf (d : f64) : bytes := str "#EXTINF:" ++ fixed3 d ++ str "," ++ LF.

(** [HlsRecorder::write_playlist]; every segment is listed with two seconds. *)
Definition F_TWO : f64 := 0x4000000000000000.

Definition record_playlist (playlist : list (Z * f64)) : bytes :=
  str "#EXTM3U" ++ LF ++ str "#EXT-X-VERSION:3" ++ LF ++ str "#EXT-X-TARGETDURATION:2" ++ LF ++ str "#EXT-X-MEDIA-SEQUENCE:0" ++ LF ++
  concat ((fun s : Z * f64 => extinf s.2 ++ dec s.1 ++ str ".ts" ++ LF) <$> playlist) ++
  str "#EXT-X-ENDLIST" ++ LF.

(** [build_cmaf_playlist] *)
Definition build_cmaf_playlist (segs : list HlsSegment) (target : Z) (app stream : bytes) : bytes :=
  str "#EXTM3U" ++ LF ++ str "#EXT-X-VERSION:7" ++ LF ++ str "#EXT-X-TARGETDURATION:" ++ dec (Z.max target 1) ++ LF ++
  str "#EXT-X-PLAYLIST-TYPE:EVENT" ++ LF ++
  match segs with
  | [] => str "#EXT-X-MEDIA-SEQUENCE:0" ++ LF
  | first :: _ =>
      str "#EXT-X-MEDIA-SEQUENCE:" ++ dec (index first) ++ LF ++
      str "#EXT-X-MAP:URI=" ++ [34] ++ str "/" ++ app ++ str "/" ++ stream ++ str "/init.mp4" ++ [34] ++ LF ++
      concat ((fun s => extinf (seg_duration s) ++ str "/" ++ app ++ str "/" ++ stream ++ str "/seg-" ++ dec (index s) ++ str ".m4s" ++ LF) <$> segs)
  end.

(** The recorder's loop over the frames it receives: what it writes to disk. *)
Inductive FileWrite : Type := WroteSegment (idx : Z) (b : bytes) | WrotePlaylist (b : bytes).

(** [ok idx]: writing the segment's file succeeds. *)
Fixpoint record_loop (ok : Z -> bool) (m : HlsMuxer) (playlist : list (Z * f64)) (events : list Received) :
    result (HlsMuxer * list (Z * f64) * list FileWrite) :=
  match events with
  | [] => Ok (m, playlist, [])
  | GotFrame f :: events =>
      '(m, done) ← hls_push m f;
      match done with
      | Some (i, b) =>
          if ok i then
            let playlist := playlist ++ [(i, F_TWO)] in
            '(m, playlist', ws) ← record_loop ok m playlist events;
            Ok (m, playlist', WroteSegment i b :: WrotePlaylist (record_playlist playlist) :: ws)
          else record_loop ok m playlist events
      | None => record_loop ok m playlist events
      end
  | GotLagged :: events => record_loop ok m playlist events
  | GotClosed :: _ => Ok (m, playlist, [])
  end.

(** [HlsRecorder::record] once the directory exists; a stop ends the events. *)
Definition record (ok : Z -> bool) (configs : list MediaFrame) (events : list Received) : result (list FileWrite) :=
  m ← push_cached (hls_new F_TWO) configs;
  '(m, playlist, ws) ← record_loop ok m [] events;
  '(_, done) ← hls_flush m;
  let '(playlist, last) := match done with
    | Some (i, b) => if ok i then (playlist ++ [(i, F_TWO)], [WroteSegment i b]) else (playlist, [])
    | None => (playlist, [])
    end in
  Ok (ws ++ last ++ [WrotePlaylist (record_playlist playlist)]).

(** The CMAF task: frames in between, a flush every four seconds ([Some d]: the
    time since the last segment, at least one second when listed). *)
Inductive CmafEvent : Type := CmafFrame (f : MediaFrame) | CmafLagged | CmafTick (d : f64).

Definition F_ONE : f64 := 0x3FF0000000000000.

Definition f64_max (x y : f64) : f64 := if f64_ge x y then x else y.

Fixpoint push_media (m : Fmp4Muxer) (frames : list MediaFrame) : result Fmp4Muxer :=
  match frames with
  | [] => Ok m
  | f :: frames => if is_config_frame f then push_media m frames else m ← fmp4_push_frame m f; push_media m frames
  end.

Definition cmaf_start (configs gop : list MediaFrame) : result (Fmp4Muxer * bytes) :=
  m ← foldl (fun r f => m ← r; fmp4_push_frame m f) (Ok (fmp4_new 90000)) configs;
  m' ← push_media m gop;
  Ok (m', seg_data (init_segment m)).

Fixpoint cmaf_loop (m : Fmp4Muxer) (segs : list HlsSegment) (seg_index : Z) (events : list CmafEvent) :
    result (Fmp4Muxer * list HlsSegment * Z) :=
  match events with
  | [] => Ok (m, segs, seg_index)
  | CmafFrame f :: events =>
      m ← (if is_config_frame f then Ok m else fmp4_push_frame m f);
      cmaf_loop m segs seg_index events
  | CmafLagged :: events => cmaf_loop m segs seg_index events
  | CmafTick d :: events =>
      match flush_segment m with
      | (Some seg, m) =>
          if 2 ^ 32 <=? seg_index + 1 then Panic else
          cmaf_loop m (store_segment 10 segs {| index := seg_index; seg_duration := f64_max d F_ONE; segment_data := seg_data seg |})
            (seg_index + 1) events
      | (None, m) => cmaf_loop m segs seg_index events
      end
  end.

(** ** A segment is read on its own and after any other *)

(** A frame as a segment carries it: every video packet is a random access
    point, and the clock is the timestamp. *)
Definition as_unit (f : MediaFrame) : MediaFrame :=
  {| track_id := track_id f; codec := codec f; frame_type := frame_type f; timestamp := timestamp f; pts := pts f;
     dts := timestamp f; data := data f; payload_format := payload_format f; key_frame := true; config_frame := config_frame f |}.

Definition hls_sample (f : MediaFrame) : Prop := ts_sample (as_unit f).

(** What a reader of the segment publishes: without configuration frames the
    tables always announce H.264. *)
Definition hls_published (f : MediaFrame) : MediaFrame := ts_published H264 (as_unit f).

(** No configuration frame was seen. *)
Definition unconfigured (m : HlsMuxer) : Prop :=
  hls_video_config m = None /\ hls_audio_config m = None /\ hls_video_codec m = None.

Lemma capture_sample m f : hls_sample f -> unconfigured m -> capture_hls m f = Ok m.
Proof.
  intros [_ _ Hm] _. unfold capture_hls. cbn [frame_type as_unit] in Hm. destruct (frame_type f); [| |done].
  - destruct Hm as (Hc & _). change (is_video_config (as_unit f)) with (is_video_config f) in Hc. by rewrite Hc.
  - destruct Hm as (_ & Hp & Hn & _). assert (is_aac_config f = false) as ->; [|done].
    unfold is_aac_config, is_flv_or_unknown. cbn in Hp, Hn. by rewrite Hn, Hp.
Qed.

Lemma capture_samples m fs : Forall hls_sample fs -> unconfigured m -> capture_all m fs = Ok m.
Proof.
  intros Hfs Hm. induction Hfs as [|f fs Hf _ IH]; [done|]. cbn [capture_all]. by rewrite capture_sample.
Qed.

Lemma sample_media_units f : hls_sample f -> media_units None f = Ok [sample_unit (as_unit f)].
Proof.
  intros [_ _ Hm]. unfold media_units, sample_unit. cbn [frame_type as_unit timestamp key_frame dts] in *. destruct (frame_type f) eqn:Hf; [| |done].
  - destruct Hm as (Hc & Hb & Hl). change (is_video_config (as_unit f)) with (is_video_config f) in Hc. rewrite Hc.
    change (video_sample_annex_b (as_unit f)) with (video_sample_annex_b f) in Hb. rewrite Hb. cbn [unwrap_or_default mbind outcome_bind].
    destruct (ts_payload (as_unit f)); [cbn in Hl; lia|done].
  - destruct Hm as (Hc & Hp & Hn & Hl & Hs). cbn in Hc, Hp, Hn, Hl.
    assert (is_aac_config f = false) as -> by (unfold is_aac_config, is_flv_or_unknown; by rewrite Hn, Hp).
    unfold aac_frame_to_adts, ts_payload. cbn [frame_type as_unit data]. rewrite Hn, (bool_decide_eq_true_2 _ Hc), (bool_decide_eq_true_2 _ Hp), Hf.
    cbn [negb orb mbind outcome_bind]. destruct (data f); [cbn in Hl; lia|done].
Qed.

Lemma write_units_app w us us' w1 o1 w2 o2 :
  write_units w us = Ok (w1, o1) -> write_units w1 us' = Ok (w2, o2) -> write_units w (us ++ us') = Ok (w2, o1 ++ o2).
Proof.
  revert w o1. induction us as [|u us IH]; intros w o1 H1 H2; cbn [write_units app] in *; [by injection H1 as <- <-|].
  destruct (write_pes w _ _ _ _) as [[w' o]| | |]; [|done..]. cbn [mbind outcome_bind] in *.
  destruct (write_units w' us) as [[w'' o']| | |] eqn:Hu; [|done..]. injection H1 as <- <-. rewrite (IH w' o' Hu H2). cbn. by rewrite app_assoc.
Qed.

(** The demuxer between two segments: past some tables, or before the first. *)
Definition between (c : TsContext) (pv pa : list MediaFrame) : Prop :=
  holding H264 c pv pa \/ c = context_new /\ pv = [] /\ pa = [].

Lemma table_packet pid l cont : (length l <= 184)%nat ->
  (write_ts_packet pid l true cont).1 = ts_packet pid true cont [] (l ++ replicate (184 - length l) 0xFF).
Proof.
  intros Hl. unfold write_ts_packet, ts_packet. cbn [fst length Nat.ltb Nat.leb app]. f_equal. unfold fill_packet, TS_PACKET_SIZE.
  rewrite take_app_ge by lia. f_equal. rewrite take_replicate. f_equal. lia.
Qed.

Lemma pat_routed c fb :
  route_payload c PAT_PID true ((0x00 :: with_crc pat_section) ++ replicate (184 - length (0x00 :: with_crc pat_section)) 0xFF) fb =
  (let c1 := set_pids c (or_else (video_pid c) (Some 0x0100)) (ctx_video_codec c) (or_else (audio_pid c) (Some PID_DEFAULT_AUDIO)) (Some PMT_PID) in
   if PAT_PID =? default 0x0100 (video_pid c1) then video_payload c1 ((0x00 :: with_crc pat_section) ++ replicate (184 - length (0x00 :: with_crc pat_section)) 0xFF) true fb
   else if PAT_PID =? default PID_DEFAULT_AUDIO (audio_pid c1) then audio_payload c1 ((0x00 :: with_crc pat_section) ++ replicate (184 - length (0x00 :: with_crc pat_section)) 0xFF) true fb
   else Ok (c1, [], fb)).
Proof.
  set (payload := (_ :: _) ++ _).
  assert (parse_pat payload c = Ok (set_pids c (or_else (video_pid c) (Some 0x0100)) (ctx_video_codec c) (or_else (audio_pid c) (Some PID_DEFAULT_AUDIO)) (Some PMT_PID))) as Hp
    by (destruct c; vm_compute; reflexivity).
  unfold route_payload. change ((PAT_PID =? PID_PAT) && true) with true. cbv iota. rewrite Hp. cbn [mbind outcome_bind pmt_pid set_pids].
  change (PAT_PID =? PMT_PID) with false. cbv iota. cbn [mbind outcome_bind]. assert ((0 <? length payload)%nat = true) as -> by (vm_compute; reflexivity).
  by rewrite !andb_true_r.
Qed.

Lemma pmt_routed c fb vp ap :
  pmt_pid c = Some PMT_PID -> video_pid c = Some vp -> audio_pid c = Some ap ->
  route_payload c PMT_PID true ((0x00 :: with_crc (pmt_section 0x1B)) ++ replicate (184 - length (0x00 :: with_crc (pmt_section 0x1B))) 0xFF) fb =
  Ok (set_pids c (Some VIDEO_PID) (Some H264) (Some AUDIO_PID) (Some PMT_PID), [], fb).
Proof.
  intros Hpmt Hv Ha. set (payload := (_ :: _) ++ _).
  assert (parse_pmt payload c = Ok (set_pids c (Some VIDEO_PID) (Some H264) (Some AUDIO_PID) (Some PMT_PID))) as Hp.
  { destruct c. cbn in Hpmt, Hv, Ha. subst. vm_compute. reflexivity. }
  unfold route_payload. change ((PMT_PID =? PID_PAT) && true) with false. cbv iota. cbn [mbind outcome_bind]. rewrite Hpmt.
  change (PMT_PID =? PMT_PID) with true. cbn [mbind outcome_bind]. rewrite Hp. cbn [mbind outcome_bind set_pids video_pid audio_pid].
  change (PMT_PID =? default 0x0100 (Some VIDEO_PID)) with false. change (PMT_PID =? default PID_DEFAULT_AUDIO (Some AUDIO_PID)) with false. done.
Qed.

(** The tables of a segment change nothing once the stream is known. *)
Lemma tables_again w c pv pa fb :
  between c pv pa ->
  exists w' pkts c', write_pat_pmt w 0x1B = (w', concat pkts) /\ Forall aligned pkts /\
    demux_all pkts c fb = Ok (c', [], fb) /\ holding H264 c' pv pa.
Proof.
  intros Hb. set (pat := 0x00 :: with_crc pat_section). set (pmt := 0x00 :: with_crc (pmt_section 0x1B)).
  assert (length pat <= 184)%nat as Hl1 by (apply Nat.leb_le; vm_compute; reflexivity).
  assert (length pmt <= 184)%nat as Hl2 by (apply Nat.leb_le; vm_compute; reflexivity).
  exists (write_pat_pmt w 0x1B).1, [(write_ts_packet PAT_PID pat true (continuity_pat w)).1; (write_ts_packet PMT_PID pmt true (continuity_pmt w)).1].
  assert (forall l, (length l <= 184)%nat -> adapted [] (l ++ replicate (184 - length l) 0xFF)) as Had.
  { intros l Hl. split; [|done]. rewrite length_app, length_replicate. cbn [length]. lia. }
  assert (forall l, (length l <= 184)%nat -> (length (l ++ replicate (184 - length l) 0xFF%Z) <? 4)%nat = false) as H4.
  { intros l Hl. apply Nat.ltb_ge. rewrite length_app, length_replicate. lia. }
  assert (exists vp ap, or_else (video_pid c) (Some 0x0100) = Some vp /\ or_else (audio_pid c) (Some PID_DEFAULT_AUDIO) = Some ap /\ vp <> PAT_PID /\ ap <> PAT_PID) as (vp & ap & Hvp & Hap & Hn1 & Hn2).
  { destruct Hb as [[[Hrv Hra _ _] _ _]|(-> & _ & _)]; [rewrite Hrv, Hra|]; eexists _, _; by split_and!. }
  eexists. split; [|split; [|split]].
  - unfold write_pat_pmt, write_ts_packet. cbn [fst concat]. by rewrite app_nil_r.
  - rewrite !table_packet by done. repeat apply Forall_cons_2; [..|apply Forall_nil_2];
      (split; [|done]; unfold ts_packet; rewrite !length_app, length_replicate; cbn [length]; unfold TS_PACKET_SIZE, ts_header; cbn [length]; lia).
  - cbn [demux_all]. rewrite !table_packet by done. rewrite demux_packet by (done || by apply Had). rewrite H4 by done.
    unfold pat. rewrite pat_routed. fold pat. cbv zeta.
    cbn [video_pid audio_pid set_pids]. rewrite Hvp, Hap. cbn [default from_option id].
    rewrite (proj2 (Z.eqb_neq PAT_PID vp)), (proj2 (Z.eqb_neq PAT_PID ap)) by congruence. cbn [mbind outcome_bind].
    rewrite demux_packet by (done || by apply Had). rewrite H4 by done. unfold pmt. erewrite pmt_routed by reflexivity. reflexivity.
  - destruct Hb as [[Hr Hv Ha]|(-> & -> & ->)]; split; try done. destruct c, Hr. cbn in *. subst. done.
Qed.

(** The media of a segment. *)
Lemma media_demuxed fs : forall w c pv pa fb,
  Forall hls_sample fs -> holding H264 c pv pa -> kinds_ok pv pa ->
  exists w' pkts c' l fb' pv' pa',
    write_media None w fs = Ok (w', concat pkts) /\ Forall aligned pkts /\ demux_all pkts c fb = Ok (c', l, fb') /\
    holding H264 c' pv' pa' /\ kinds_ok pv' pa' /\
    videos l ++ pv' = pv ++ videos (hls_published <$> fs) /\ audios l ++ pa' = pa ++ audios (hls_published <$> fs).
Proof.
  induction fs as [|f fs IH]; intros w c pv pa fb Hfs Hh Hk.
  { exists w, [], c, [], fb, pv, pa. cbn. rewrite !app_nil_r. done. }
  apply Forall_cons in Hfs as [Hf Hfs].
  destruct (sample_demuxed H264 (as_unit f) w c pv pa fb Hf Hh Hk) as (w1 & pk1 & c1 & l1 & fb1 & pv1 & pa1 & Hw & Ha1 & Hd1 & Hh1 & Hk1 & Hv1 & Hau1).
  destruct (IH w1 c1 pv1 pa1 fb1 Hfs Hh1 Hk1) as (w2 & pk2 & c2 & l2 & fb2 & pv2 & pa2 & Hp2 & Ha2 & Hd2 & Hh2 & Hk2 & Hv2 & Hau2).
  exists w2, (pk1 ++ pk2), c2, (l1 ++ l2), fb2, pv2, pa2.
  cbn [write_media]. rewrite sample_media_units by done. cbn [mbind outcome_bind]. rewrite Hw. cbn [mbind outcome_bind]. rewrite Hp2, concat_app.
  split_and!; [done|by apply Forall_app|by eapply demux_all_app|done|done| |].
  - rewrite videos_app, <-app_assoc, Hv2, fmap_cons. change (hls_published f :: ?x) with ([ts_published H264 (as_unit f)] ++ x).
    by rewrite videos_app, !app_assoc, Hv1.
  - rewrite audios_app, <-app_assoc, Hau2, fmap_cons. change (hls_published f :: ?x) with ([ts_published H264 (as_unit f)] ++ x).
    by rewrite audios_app, !app_assoc, Hau1.
Qed.

(** These bytes are a segment of these frames: a reader that is between two
    segments gets the frames, the last of each kind being held. *)
Definition carries_frames (b : bytes) (fs : list MediaFrame) : Prop :=
  exists pkts, b = concat pkts /\ Forall aligned pkts /\
    forall c pv pa fb, between c pv pa -> kinds_ok pv pa ->
    exists c' l fb' pv' pa', demux_all pkts c fb = Ok (c', l, fb') /\ holding H264 c' pv' pa' /\ kinds_ok pv' pa' /\
      videos l ++ pv' = pv ++ videos (hls_published <$> fs) /\ audios l ++ pa' = pa ++ audios (hls_published <$> fs).

Lemma aligned_concat_inj pk1 : forall pk2, Forall aligned pk1 -> Forall aligned pk2 -> concat pk1 = concat pk2 -> pk1 = pk2.
Proof.
  induction pk1 as [|p pk1 IH]; intros pk2 H1 H2 Hc.
  - destruct pk2 as [|q pk2]; [done|]. apply Forall_cons in H2 as [[Hq _] _]. cbn in Hc. symmetry in Hc. apply app_eq_nil in Hc as [-> _]. done.
  - apply Forall_cons in H1 as [[Hp Hhp] H1]. destruct pk2 as [|q pk2]; [cbn in Hc; apply app_eq_nil in Hc as [-> _]; done|].
    apply Forall_cons in H2 as [[Hq _] H2]. cbn [concat] in Hc. apply app_inj_1 in Hc as [-> Hc]; [|congruence]. f_equal. by apply IH.
Qed.

Lemma next_segment_unconfigured m frames start m' : unconfigured m -> next_segment m frames start = Ok m' ->
  unconfigured m' /\ segment_index m' = segment_index m + 1 /\ current_frames m' = frames /\ max_segments m' = max_segments m /\ target_duration m' = target_duration m.
Proof. intros Hm. unfold next_segment. destruct (_ <=? _); [done|]. by intros [= <-]. Qed.

(** A segment of samples. *)
Lemma mux_segment_carries m : unconfigured m -> Forall hls_sample (current_frames m) ->
  exists m' b, mux_segment m = Ok (m', b) /\ carries_frames b (current_frames m) /\ unconfigured m' /\
    segment_index m' = segment_index m /\ max_segments m' = max_segments m /\ target_duration m' = target_duration m.
Proof.
  intros Hm Hfs. pose proof Hm as (Hv & Ha & Hc).
  assert (forall c pv pa fb, between c pv pa -> kinds_ok pv pa -> exists w' pkts c' l fb' pv' pa',
    (let '(w, tables) := write_pat_pmt (hls_writer m) 0x1B in '(w, media) ← write_media None w (current_frames m); Ok (w, tables ++ media)) = (Ok (w', concat pkts) : result _) /\
    Forall aligned pkts /\ demux_all pkts c fb = Ok (c', l, fb') /\ holding H264 c' pv' pa' /\ kinds_ok pv' pa' /\
    videos l ++ pv' = pv ++ videos (hls_published <$> current_frames m) /\ audios l ++ pa' = pa ++ audios (hls_published <$> current_frames m)) as Hrun.
  { intros c pv pa fb Hb Hk. destruct (tables_again (hls_writer m) c pv pa fb Hb) as (w1 & pk1 & c1 & -> & Hal1 & Hd1 & Hh1).
    destruct (media_demuxed (current_frames m) w1 c1 pv pa fb Hfs Hh1 Hk) as (w2 & pk2 & c2 & l & fb2 & pv2 & pa2 & -> & Hal2 & Hd2 & Hh2 & Hk2 & Hv2 & Ha2).
    exists w2, (pk1 ++ pk2), c2, l, fb2, pv2, pa2. rewrite concat_app. split_and!; try done; [by apply Forall_app|].
    by apply (demux_all_app _ _ _ _ _ _ _ _ _ _ Hd1 Hd2). }
  destruct (Hrun context_new [] [] 0) as (w' & pkts & _ & _ & _ & _ & _ & Hw & Hal & _); [by right|done|].
  exists (with_hls_writer m w'), (concat pkts). split; [|split; [|by split_and!]].
  - unfold mux_segment. rewrite capture_samples by done. cbn [mbind outcome_bind]. rewrite Hc. cbn [video_stream_type].
    destruct (write_pat_pmt (hls_writer m) 0x1B) as [w tables]. unfold write_video_config, write_audio_config. cbn [hls_video_config_sent hls_video_config with_hls_writer].
    rewrite Hv. replace (if hls_video_config_sent m then Ok (with_hls_writer m w, []) else Ok (with_hls_writer m w, [])) with (Ok (with_hls_writer m w, []) : result (HlsMuxer * bytes)) by (by destruct (hls_video_config_sent m)).
    cbn [mbind outcome_bind hls_audio_config_sent hls_audio_config with_hls_writer]. rewrite Ha.
    replace (if hls_audio_config_sent m then Ok (with_hls_writer m w, []) else Ok (with_hls_writer m w, [])) with (Ok (with_hls_writer m w, []) : result (HlsMuxer * bytes)) by (by destruct (hls_audio_config_sent m)).
    cbn [mbind outcome_bind hls_audio_config with_hls_writer hls_writer current_frames]. rewrite Ha.
    destruct (write_media None w (current_frames m)) as [[w2 media]| | |]; [|done..]. cbn [mbind outcome_bind] in *. injection Hw as -> Hb. rewrite <-Hb. done.
  - exists pkts. split; [done|]. split; [done|]. intros c pv pa fb Hb Hk.
    destruct (Hrun c pv pa fb Hb Hk) as (w2 & pk2 & c' & l & fb' & pv' & pa' & Hw2 & Hal2 & Hrest).
    rewrite Hw in Hw2. injection Hw2 as _ Hcat. apply aligned_concat_inj in Hcat as ->; [|done..]. by exists c', l, fb', pv', pa'.
Qed.

(** ** What the task keeps *)

(** The segments finished so far, with the frames of each. *)
Record produced (frames : list MediaFrame) (m : HlsMuxer) (all : list HlsSegment) (groups : list (list MediaFrame)) : Prop := {
  produced_unconfigured : unconfigured m;
  produced_index : segment_index m = Z.of_nat (length all);
  produced_numbered : Forall2 (fun i s => index s = Z.of_nat i) (seq 0 (length all)) all;
  produced_carries : Forall2 (fun s g => carries_frames (segment_data s) g) all groups;
  produced_frames : concat groups ++ current_frames m = frames
}.

Lemma produced_new target max : produced [] (with_max_segments (hls_new target) max) [] [].
Proof. by constructor. Qed.

Lemma push_produced frames m all groups f :
  produced frames m all groups -> Forall hls_sample frames -> hls_sample f -> Z.of_nat (length all) + 1 < 2 ^ 32 ->
  exists m' done, hls_push m f = Ok (m', done) /\ max_segments m' = max_segments m /\ target_duration m' = target_duration m /\
    match done with
    | None => produced (frames ++ [f]) m' all groups
    | Some (i, b) => exists g, produced (frames ++ [f]) m' (all ++ [{| index := i; seg_duration := target_duration m; segment_data := b |}]) (groups ++ [g])
    end.
Proof.
  intros [Hu Hi Hnum Hc Hf] Hfs Hs Hmax. unfold hls_push. set (start := default _ _). set (m0 := with_frames m (current_frames m) (Some start)).
  assert (Forall hls_sample (current_frames m0)) as Hcur by (rewrite <-Hf in Hfs; by apply Forall_app in Hfs as [_ ?]).
  destruct (_ && _) eqn:Hcut.
  - destruct (mux_segment_carries m0) as (m1 & b & -> & Hcar & Hu1 & Hi1 & Hm1 & Ht1); [done|done|]. cbn [mbind outcome_bind].
    unfold next_segment. rewrite Hi1. change (segment_index m0) with (segment_index m). rewrite Hi, (proj2 (Z.leb_gt _ _)) by lia.
    cbn [mbind outcome_bind]. eexists _, _. split; [reflexivity|]. split; [exact Hm1|]. split; [exact Ht1|]. exists (current_frames m).
    constructor; cbn [segment_index current_frames].
    + exact Hu1.
    + rewrite length_app. cbn. lia.
    + rewrite length_app, Nat.add_1_r, seq_S. apply Forall2_app; [done|]. by repeat constructor.
    + apply Forall2_app; [done|]. by repeat constructor.
    + rewrite concat_app. cbn [concat]. by rewrite app_nil_r, Hf.
  - eexists _, _. split; [reflexivity|]. split; [done|]. split; [done|]. constructor; cbn [segment_index current_frames with_frames]; try done.
    change (current_frames m0) with (current_frames m). by rewrite app_assoc, Hf.
Qed.

(** All the segments a list of frames produces. *)
Fixpoint all_segments (m : HlsMuxer) (frames : list MediaFrame) : result (HlsMuxer * list HlsSegment) :=
  match frames with
  | [] => Ok (m, [])
  | f :: frames =>
      '(m', done) ← hls_push m f;
      '(m'', rest) ← all_segments m' frames;
      Ok (m'', match done with Some (i, b) => {| index := i; seg_duration := target_duration m; segment_data := b |} :: rest | None => rest end)
  end.

Lemma all_segments_app m l k : all_segments m (l ++ k) =
  ('(m', a) ← all_segments m l; '(m'', b) ← all_segments m' k; Ok (m'', a ++ b)).
Proof.
  revert m. induction l as [|f l IH]; intros m; cbn [all_segments app].
  { cbn [mbind outcome_bind]. by destruct (all_segments m k) as [[? ?]| | |]. }
  destruct (hls_push m f) as [[m1 fin]| | |]; [|done..]. cbn [mbind outcome_bind]. rewrite IH.
  destruct (all_segments m1 l) as [[m2 a]| | |]; [|done..]. cbn [mbind outcome_bind].
  destruct (all_segments m2 k) as [[m3 b]| | |]; [|done..]. cbn [mbind outcome_bind]. by destruct fin as [[? ?]|].
Qed.

Lemma segments_produced more : forall frames m all groups,
  produced frames m all groups -> Forall hls_sample (frames ++ more) -> Z.of_nat (length all + length more) < 2 ^ 32 ->
  exists m' new groups', all_segments m more = Ok (m', new) /\ produced (frames ++ more) m' (all ++ new) (groups ++ groups') /\
    max_segments m' = max_segments m /\ target_duration m' = target_duration m /\ (length new <= length more)%nat.
Proof.
  induction more as [|f more IH]; intros frames m all groups Hp Hfs Hmax.
  { exists m, [], []. rewrite !app_nil_r. by split_and!. }
  pose proof Hfs as Hfs0. apply Forall_app in Hfs as [Hf1 Hf2]. apply Forall_cons in Hf2 as [Hf Hf2]. cbn [length] in Hmax.
  destruct (push_produced frames m all groups f Hp Hf1 Hf) as (m1 & fin & Hpush & Hm1 & Ht1 & Hdone); [lia|].
  cbn [all_segments]. rewrite Hpush. cbn [mbind outcome_bind]. rewrite (app_assoc frames [f] more : frames ++ f :: more = (frames ++ [f]) ++ more) in Hfs0 |- *.
  destruct fin as [[i b]|].
  - destruct Hdone as (g & Hp1). destruct (IH _ m1 _ _ Hp1 Hfs0) as (m2 & new & gs & -> & Hp2 & Hm2 & Ht2 & Hl); [rewrite length_app; cbn; lia|].
    eexists m2, _, ([g] ++ gs). split; [reflexivity|]. rewrite <-(app_assoc all), <-(app_assoc groups) in Hp2. split_and!; [exact Hp2|congruence..|cbn; lia].
  - destruct (IH _ m1 _ _ Hdone Hfs0) as (m2 & new & gs & -> & Hp2 & Hm2 & Ht2 & Hl); [lia|].
    exists m2, new, gs. split_and!; [done|done|congruence..|cbn; lia].
Qed.

(** The latest [n]. *)
Definition latest (n : nat) (l : list HlsSegment) : list HlsSegment := drop (length l - n) l.

Lemma store_latest n l s : store_segment n (latest n l) s = latest n (l ++ [s]).
Proof.
  unfold store_segment, latest. cbv zeta. rewrite !length_app, length_drop. cbn [length].
  destruct (decide (length l < n)%nat) as [Hlt|Hge].
  - replace (length l - n)%nat with 0%nat by lia. rewrite drop_0. f_equal. lia.
  - rewrite <-(drop_app_le l [s]) by lia. rewrite drop_drop. f_equal. lia.
Qed.

Definition frames_received (events : list Received) : list MediaFrame :=
  omap (fun e => match e with GotFrame f => Some f | _ => None end) events.

(** The muxer keeps its settings. *)
Definition settings (m : HlsMuxer) : f64 * nat := (target_duration m, max_segments m).

Lemma capture_settings frames m : gives (capture_all m frames) (fun m' => settings m' = settings m).
Proof.
  revert m. induction frames as [|f frames IH]; intros m; cbn [capture_all]; [by apply gives_ok|]. apply gives_bind.
  eapply gives_mono with (P := fun m' => settings m' = settings m); [|intros m' <-; apply IH].
  unfold capture_hls. destruct (frame_type f); [destruct (is_video_config f)|destruct (is_aac_config f)|]; try (by apply gives_ok);
    apply gives_bind; intros cfg _; by apply gives_ok.
Qed.

Lemma mux_settings m : gives (mux_segment m) (fun r => settings r.1 = settings m).
Proof.
  unfold mux_segment. apply gives_bind. eapply gives_mono; [apply capture_settings|]. intros m1 H1. cbv beta.
  destruct (write_pat_pmt _ _) as [w tables]. apply gives_bind.
  apply gives_mono with (P := fun r => settings r.1 = settings m).
  { unfold write_video_config. destruct (hls_video_config_sent _); [by apply gives_ok|]. destruct (hls_video_config _); [|by apply gives_ok].
    apply gives_bind. intros [? ?] _. by apply gives_ok. }
  intros [m2 vc] H2. apply gives_bind. apply gives_mono with (P := fun r => settings r.1 = settings m).
  { unfold write_audio_config. destruct (hls_audio_config_sent _); [by apply gives_ok|]. destruct (hls_audio_config _); [|by apply gives_ok].
    apply gives_bind. intros [? ?] _. by apply gives_ok. }
  intros [m3 ac] H3. apply gives_bind. intros [? ?] _. by apply gives_ok.
Qed.

Lemma push_settings m f : gives (hls_push m f) (fun r => settings r.1 = settings m).
Proof.
  unfold hls_push. destruct (_ && _); [|by apply gives_ok]. apply gives_bind. eapply gives_mono; [apply mux_settings|].
  intros [m1 b] H1. apply gives_bind. unfold next_segment. destruct (_ <=? _); [apply gives_panic|]. apply gives_ok. apply gives_ok. exact H1.
Qed.

(** The task is the list of all segments, cut to the latest. *)
Lemma hls_task_latest events : forall m old m' new,
  GotClosed ∉ events -> all_segments m (frames_received events) = Ok (m', new) ->
  hls_task m (latest (max_segments m) old) events = Ok (m', latest (max_segments m) (old ++ new), true).
Proof.
  induction events as [|e events IH]; intros m old m' new Hc Ha.
  { cbn in Ha. injection Ha as <- <-. by rewrite app_nil_r. }
  apply not_elem_of_cons in Hc as [He Hc]. destruct e as [f| |]; [|by apply (IH m)|done].
  change (frames_received (GotFrame f :: events)) with (f :: frames_received events) in Ha. cbn [all_segments hls_task] in *.
  pose proof (push_settings m f) as Hset. destruct (hls_push m f) as [[m1 fin]| | |]; [|done..]. specialize (Hset _ eq_refl). cbn [fst] in Hset.
  cbn [mbind outcome_bind] in *. unfold settings in Hset. injection Hset as Ht Hm.
  destruct (all_segments m1 (frames_received events)) as [[m2 rest]| | |] eqn:Hr; [|done..]. cbn [mbind outcome_bind] in Ha. injection Ha as <- <-.
  destruct fin as [[i b]|].
  - rewrite Hm, store_latest, <-Hm, Ht. rewrite (IH m1 _ m2 rest Hc Hr). by rewrite <-app_assoc.
  - rewrite <-Hm. by rewrite (IH m1 _ m2 rest Hc Hr).
Qed.

(** C7: what HLS sessions can be served while the source is live.  Fed with
    samples (and told of lost ones), the task never fails; it keeps the latest
    [max] of the segments it has finished; segments are numbered from zero;
    their frames and those still collected are the received ones, none lost,
    doubled or moved; and each segment is a transport stream of its own from
    which a reader, whatever segments it read before, gets exactly the frames
    of the segment (see [carries_frames]; a frame loses up to three bytes, see
    [ts_lost]). *)
Theorem hls_task_segments (target : f64) (max : nat) (events : list Received) :
  GotClosed ∉ events -> Forall hls_sample (frames_received events) -> Z.of_nat (length events) < 2 ^ 32 ->
  exists m all groups,
    hls_task (with_max_segments (hls_new target) max) [] events = Ok (m, latest max all, true) /\
    all_segments (with_max_segments (hls_new target) max) (frames_received events) = Ok (m, all) /\
    Forall2 (fun i s => index s = Z.of_nat i) (seq 0 (length all)) all /\
    Forall2 (fun s g => carries_frames (segment_data s) g) all groups /\
    concat groups ++ current_frames m = frames_received events.
Proof.
  intros Hc Hfs Hl. set (m0 := with_max_segments (hls_new target) max).
  assert (length (frames_received events) <= length events)%nat as Hle.
  { clear. unfold frames_received. induction events as [|[f| |] events IH]; cbn [omap list_omap length] in *; lia. }
  destruct (segments_produced (frames_received events) [] m0 [] [] (produced_new target max) Hfs) as (m & all & groups & Hall & [Hu Hi Hn Hca Hf] & _); [cbn [length]; lia|].
  exists m, all, groups. split_and!; try done.
  exact (hls_task_latest events m0 [] m all Hc Hall).
Qed.

(** ** A short stream *)

Definition hls_key (ts : Z) : MediaFrame :=
  with_payload_format (new_video 0 H264 ts ts ts ([0; 0; 0; 1; 0x65] ++ replicate 300 7) true) PfAnnexB.

(** Two segments are cut, the third key frame opens another. *)
Definition hls_demo_events : list Received :=
  [GotFrame (hls_key 40); GotFrame sample_adts; GotLagged; GotFrame (hls_key 4040); GotFrame (hls_key 8040)].

Lemma hls_demo_samples : Forall hls_sample (frames_received hls_demo_events).
Proof.
  change (frames_received hls_demo_events) with [hls_key 40; sample_adts; hls_key 4040; hls_key 8040].
  repeat (apply Forall_cons_2; [split; vm_compute; repeat split; first [reflexivity | discriminate | lia]|]). apply Forall_nil_2.
Qed.

Lemma hls_demo_open : GotClosed ∉ hls_demo_events.
Proof. unfold hls_demo_events. rewrite !not_elem_of_cons. split_and!; try discriminate. apply not_elem_of_nil. Qed.

Lemma hls_task_segments_witness :
  exists m all, hls_task (with_max_segments (hls_new 0x4010000000000000) 1) [] hls_demo_events = Ok (m, latest 1 all, true) /\ length all = 2%nat.
Proof.
  destruct (hls_task_segments 0x4010000000000000 1 hls_demo_events hls_demo_open hls_demo_samples) as (m & all & groups & Ht & Ha & _); [by vm_compute|].
  exists m, all. split; [exact Ht|]. apply (f_equal (fun r : result (HlsMuxer * list HlsSegment) => match r with Ok (_, l) => length l | _ => 0%nat end)) in Ha.
  cbv beta iota in Ha. rewrite <-Ha. vm_compute. reflexivity.
Defined.
