(* ===== verification/HlsRelay.v ===== *)
(** * HlsRelay: a live stream pulled by another server over HLS

    [http/src/session.rs] (the HLS handlers) and the client of [HttpPull]: the
    playlist a session answers with is read back as the segments it lists, and
    a pull of a live playlist feeds every segment it sees to the demuxer once
    and in order, so that the frames of [Hls]'s segments are republished. *)

From S2P Require Import Prelude Frame F64 Stream Payload Gop Flv TsMux TsDemux TsStream Bmff Fmp4Mux Fmp4Demux Utf8 Text Auth Ws Playback HttpBody HttpPull Hls.
#[local] Open Scope Z_scope.
#[local] Set Warnings "-clear-no-such-hyp".

(** ** The sessions *)

(** [resource.strip_suffix("/hls.m3u8")], or [".m3u8"], or the whole. *)
Definition hls_stream_name (resource : bytes) : bytes :=
  match strip_suffix (str "/hls.m3u8") resource with
  | Some s => s
  | None => default resource (strip_suffix (str ".m3u8") resource)
  end.

(** The URI of a segment in the playlist. *)
Definition segment_uri (app stream : bytes) (i : Z) : bytes :=
  str "/" ++ app ++ str "/" ++ stream ++ str "/" ++ dec i ++ str ".ts".

(** The playlist; the queue of segments is locked twice, so that the first index
    and the listing may come from different states. *)
Definition live_playlist (counted listed : list HlsSegment) (app stream : bytes) : bytes :=
  str "#EXTM3U" ++ LF ++ str "#EXT-X-VERSION:3" ++ LF ++ str "#EXT-X-TARGETDURATION:4" ++ LF ++
  match counted with
  | [] => str "#EXT-X-MEDIA-SEQUENCE:0" ++ LF
  | first :: _ =>
      str "#EXT-X-MEDIA-SEQUENCE:" ++ dec (index first) ++ LF ++
      concat ((fun s => extinf (seg_duration s) ++ segment_uri app stream (index s) ++ LF) <$> listed)
  end.

(** The lines of a response head. *)
Definition sized_head (content_type cache : string) (n : Z) : list bytes :=
  [str "HTTP/1.1 200 OK"; str "Content-Type: " ++ str content_type; str "Content-Length: " ++ dec n;
   str "Cache-Control: " ++ str cache; str "Connection: close"].
Definition playlist_head : Z -> list bytes := sized_head "application/vnd.apple.mpegurl" "no-cache".
Definition segment_head : Z -> list bytes := sized_head "video/mp2t" "max-age=3600".

Definition with_head (head : list bytes) (body : bytes) : bytes := join CRLF head ++ HEADER_END ++ body.

Section Session.
Context `{AuthPrimitives}.
Variables (w : World) (a : StreamAuth).

Definition handle_hls_playlist (counted listed : list HlsSegment) (path : bytes) : M bool :=
  let '(app, resource, sign) := parse_path_sign path in
  let stream_name := hls_stream_name resource in
  match on_play w app stream_name sign with
  | Some _ => _ ← write response_401; mret true
  | None =>
      if negb (check a DEFAULT_VHOST app stream_name (str "play") sign) then _ ← write response_401; mret true else
      match get_or_pull w app stream_name with
      | Some _ =>
          let body := live_playlist counted listed app stream_name in
          _ ← write (with_head (playlist_head (zlen body)) body); mret true
      | None => _ ← write response_404; mret true
      end
  end.

(** [get_source]: the source exists; [registered]: the segments kept for it. *)
Variable get_source : bytes -> bytes -> bool.
Variable registered_segments : bytes -> bytes -> option (list HlsSegment).

Definition segment_number (file_name : bytes) : Z :=
  match strip_suffix (str ".ts") file_name with
  | Some name => default (2 ^ 32 - 1) (parse_u32 name)
  | None => 2 ^ 32 - 1
  end.

Definition handle_hls_segment (path : bytes) : M bool :=
  let '(app, resource, sign) := parse_path_sign path in
  match split 47 resource with
  | stream_name :: file_name :: _ =>
      match on_play w app stream_name sign with
      | Some _ => _ ← write response_401; mret true
      | None =>
          if negb (check a DEFAULT_VHOST app stream_name (str "play") sign) then _ ← write response_401; mret true else
          let idx := segment_number file_name in
          if idx =? 2 ^ 32 - 1 then _ ← write response_404; mret true else
          match (if get_source app stream_name then registered_segments app stream_name else None) with
          | Some segs =>
              match List.find (fun s => index s =? idx) segs with
              | Some seg =>
                  _ ← write (with_head (segment_head (zlen (segment_data seg))) []);
                  _ ← write (segment_data seg);
                  mret true
              | None => _ ← write response_404; mret true
              end
          | None => _ ← write response_404; mret true
          end
      end
  | _ => _ ← write response_404; mret true
  end.
End Session.

(** ** Lines *)

(** Text of lines each ended by a line feed. *)
Lemma lines_lf ls : Forall (fun l => lacks 10 l /\ lacks 13 l) ls -> lines (concat ((fun l => l ++ LF) <$> ls)) = ls.
Proof.
  intros H. unfold lines. assert (split 10 (concat ((fun l => l ++ LF) <$> ls)) = ls ++ [[]]) as ->.
  { induction H as [|l ls [Hl _] _ IH]; [done|]. rewrite fmap_cons. cbn [concat]. unfold LF at 1. rewrite <-app_assoc. cbn [app]. by rewrite split_app, IH. }
  induction H as [|l ls [_ Hl] _ IH]; [done|]. cbn [app lines_of]. destruct (ls ++ [[]]) as [|x y] eqn:E; [by destruct ls|].
  assert (strip_cr l = l) as ->; [|by f_equal]. unfold strip_cr. destruct (last l) as [b|] eqn:Hlast; [|done].
  destruct (decide (b = 13)) as [->|Hb].
  - exfalso. apply Hl. apply last_Some in Hlast as (k & ->). apply elem_of_app. right. by apply list_elem_of_singleton.
  - destruct b as [|p|p]; try done. do 4 (destruct p as [p|p|]; try done).
Qed.

(** ** Heads *)

Definition head_line (l : bytes) : Prop := l <> [] /\ Forall (fun b => 32 <= b < 127) l.

Lemma find_sub_eq p x s : find_sub p (x :: s) = if starts_with p (x :: s) then Some 0%nat else S <$> find_sub p s.
Proof. done. Qed.

Lemma find_head_skip x s : x <> 13 -> find_sub HEADER_END (x :: s) = S <$> find_sub HEADER_END s.
Proof. intros Hx. cbn [find_sub]. unfold starts_with, HEADER_END, CRLF. cbn [app strip_prefix]. by rewrite (proj2 (Z.eqb_neq 13 x)) by congruence. Qed.

Lemma find_head_line l s : Forall (fun b => 32 <= b < 127) l -> find_sub HEADER_END (l ++ s) = (fun k => length l + k)%nat <$> find_sub HEADER_END s.
Proof.
  induction 1 as [|x l Hx _ IH]; cbn [app length].
  - rewrite <-(option_fmap_id (find_sub HEADER_END s)) at 1. done.
  - rewrite find_head_skip by lia. rewrite IH. by destruct (find_sub HEADER_END s).
Qed.

Lemma find_head ls r : ls <> [] -> Forall head_line ls ->
  find_sub HEADER_END (join CRLF ls ++ HEADER_END ++ r) = Some (length (join CRLF ls)).
Proof.
  intros Hne Hls. induction Hls as [|l ls [Hl Hr] Hls IH]; [done|]. cbn [join]. destruct ls as [|l2 ls].
  - rewrite find_head_line by done. cbn. by rewrite Nat.add_0_r.
  - rewrite <-!app_assoc. rewrite find_head_line by done. rewrite length_app.
    assert (forall s, head s <> Some 13 -> find_sub HEADER_END (CRLF ++ s) = (fun k => 2 + k)%nat <$> find_sub HEADER_END s) as Hcr.
    { intros s Hs. destruct s as [|y s]; [done|]. cbn [app]. unfold CRLF at 1. cbn [app].
      assert (find_sub HEADER_END (13 :: 10 :: y :: s) = S <$> find_sub HEADER_END (10 :: y :: s)) as ->.
      { rewrite find_sub_eq. assert (starts_with HEADER_END (13 :: 10 :: y :: s) = false) as ->; [|done].
        change (starts_with HEADER_END (13 :: 10 :: y :: s)) with (match (if 13 =? y then strip_prefix [10] s else None) with Some _ => true | None => false end).
        by rewrite (proj2 (Z.eqb_neq 13 y)) by (cbn in Hs; congruence). }
      rewrite find_head_skip by done. by destruct (find_sub HEADER_END (y :: s)). }
    rewrite Hcr.
    + rewrite IH by done. cbn [fmap option_fmap option_map]. f_equal; rewrite ?length_app; cbn; lia.
    + apply Forall_cons in Hls as [[Hl2 Hr2] _]. destruct l2 as [|y l2]; [done|]. apply Forall_cons in Hr2 as [Hy _].
      destruct ls; cbn; (intros [= Hy13]; lia).
Qed.

Lemma split_head ls : ls <> [] -> Forall head_line ls -> split_crlf (join CRLF ls) = ls.
Proof.
  intros Hne Hls. induction Hls as [|l ls [Hl Hr] Hls IH]; [done|]. cbn [join]. assert (lacks 13 l) as Hl13 by (intros Hin; rewrite Forall_forall in Hr; specialize (Hr _ Hin); lia).
  destruct ls as [|l2 ls]; [by apply split_crlf_last|]. rewrite split_crlf_line by done. by rewrite IH.
Qed.

Lemma head_ascii ls : Forall head_line ls -> Forall (fun b => b < 0x80) (join CRLF ls).
Proof.
  induction 1 as [|l ls [_ Hr] Hls IH]; [constructor|]. cbn [join].
  assert (Forall (fun b => b < 0x80) l) by (eapply Forall_impl; [exact Hr|cbn; lia]).
  destruct ls; [done|]. rewrite !Forall_app. split_and!; [done|by repeat constructor|done].
Qed.

Lemma parse_head_lines l ls status :
  Forall head_line (l :: ls) -> status_of l = Some status -> parse_head (join CRLF (l :: ls)) = Ok (status, foldl add_header ∅ ls).
Proof.
  intros Hls Hst. unfold parse_head. rewrite ascii_valid by by apply head_ascii. cbn [negb]. cbv zeta.
  rewrite split_head by done. cbn [head tail]. cbn [mbind option_bind]. by rewrite Hst.
Qed.

Lemma dec_text n : 0 <= n -> Forall (fun b => 32 <= b < 127) (dec n).
Proof. intros Hn. eapply Forall_impl; [apply dec_range; done|cbn; lia]. Qed.

(** ** Playlists are read back *)

(** A name usable as a component of a path and of an address. *)
Definition name_ok (s : bytes) : Prop :=
  s <> [] /\ s <> str "." /\ s <> str ".." /\ Forall (fun b => 32 < b < 127 /\ b <> 35 /\ b <> 47 /\ b <> 63) s.

Definition segment_ok (s : HlsSegment) : Prop := 0 <= index s < 2 ^ 32 /\ 0 <= thousandths (seg_duration s).

Lemma name_lacks c s : name_ok s -> (c <= 32 \/ 127 <= c \/ c = 35 \/ c = 47 \/ c = 63) -> lacks c s.
Proof. intros (_ & _ & _ & Hs) Hc Hin. rewrite Forall_forall in Hs. specialize (Hs _ Hin). lia. Qed.

Lemma name_printable s : name_ok s -> Forall (fun b => 32 <= b < 127) s.
Proof. intros (_ & _ & _ & Hs). eapply Forall_impl; [exact Hs|cbn; lia]. Qed.

Definition plain_text (l : bytes) : Prop := Forall (fun b => 32 <= b < 127) l.

Lemma printable_lacks l c : plain_text l -> c < 32 \/ 127 <= c -> lacks c l.
Proof. intros Hl Hc Hin. unfold plain_text in Hl. rewrite Forall_forall in Hl. specialize (Hl _ Hin). lia. Qed.

Ltac plain_text :=
  unfold plain_text in *; repeat (apply Forall_app; split);
  repeat match goal with
  | |- Forall _ (str _) => vm_compute; repeat constructor; discriminate
  | |- Forall _ (dec _) => apply dec_text
  | H : name_ok ?s |- Forall _ ?s => by apply name_printable
  end; try done.

Lemma uri_printable app stream i : name_ok app -> name_ok stream -> 0 <= i -> plain_text (segment_uri app stream i).
Proof. intros Ha Hs Hi. unfold segment_uri. plain_text. Qed.

Definition extinf_line (d : f64) : bytes := str "#EXTINF:" ++ fixed3 d ++ str ",".

Lemma extinf_printable d : 0 <= thousandths d -> plain_text (extinf_line d).
Proof.
  intros Hd. unfold extinf_line, fixed3. plain_text; [by apply Z.div_pos|].
  pose proof (Z.mod_pos_bound (thousandths d) 1000 ltac:(lia)). set (r := thousandths d mod 1000) in *.
  assert (0 <= r / 100 < 10) by (split; [apply Z.div_pos; lia|apply Z.div_lt_upper_bound; lia]).
  pose proof (Z.mod_pos_bound (r / 10) 10 ltac:(lia)). pose proof (Z.mod_pos_bound r 10 ltac:(lia)).
  unfold plain_text. repeat (apply Forall_cons; split; [lia|]). constructor.
Qed.

(** What the playlist lists, numbered from [n]. *)
Fixpoint entries_from (n : Z) (uris : list bytes) : list SegmentEntry :=
  match uris with
  | [] => []
  | u :: uris => {| seg_uri := u; seg_byterange := None; seg_key := None; seg_sequence := n |} :: entries_from (n + 1) uris
  end.

Definition bare_state (st : PlaylistState) : Prop := ps_variant st = None /\ ps_expect_variant st = false /\ ps_key st = None /\ ps_byterange st = None.

Section Playlist.
Context `{PullPrimitives}.

Lemma comment_line st l : starts_with (str "#EXT-X-") (str "#" ++ l) = false -> playlist_line st (str "#" ++ l) = Ok st.
Proof.
  intros Hl. unfold playlist_line.
  assert (forall p, strip_prefix (str "#EXT-X-" ++ p) (str "#" ++ l) = None) as Hno.
  { intros p. destruct (strip_prefix _ _) eqn:E; [|done]. apply strip_prefix_spec in E. unfold starts_with in Hl.
    rewrite E, <-app_assoc, strip_prefix_app in Hl. done. }
  unfold starts_with at 1.
  rewrite (Hno (str "STREAM-INF:") : strip_prefix (str "#EXT-X-STREAM-INF:") _ = None).
  rewrite (Hno (str "MAP:") : strip_prefix (str "#EXT-X-MAP:") _ = None), (Hno (str "KEY:") : strip_prefix (str "#EXT-X-KEY:") _ = None).
  rewrite (Hno (str "BYTERANGE:") : strip_prefix (str "#EXT-X-BYTERANGE:") _ = None).
  rewrite (Hno (str "MEDIA-SEQUENCE:") : strip_prefix (str "#EXT-X-MEDIA-SEQUENCE:") _ = None). done.
Qed.

Lemma uri_line st x u : bare_state st -> x <> 35 -> ps_sequence st + 1 < 2 ^ 64 ->
  playlist_line st (x :: u) =
  Ok {| ps_segments := ps_segments st ++ [{| seg_uri := x :: u; seg_byterange := None; seg_key := None; seg_sequence := ps_sequence st |}];
        ps_variant := None; ps_expect_variant := false; ps_init_map := ps_init_map st; ps_sequence := ps_sequence st + 1; ps_key := None; ps_byterange := None |}.
Proof.
  intros (Hv & He & Hk & Hb) Hx Hq. unfold playlist_line.
  assert (forall p, strip_prefix (35 :: p) (x :: u) = None) as Hno by (intros p; cbn [strip_prefix]; by rewrite (proj2 (Z.eqb_neq 35 x)) by congruence).
  unfold starts_with. rewrite (Hno _ : strip_prefix (str "#EXT-X-STREAM-INF:") _ = None), (Hno _ : strip_prefix (str "#EXT-X-MAP:") _ = None),
    (Hno _ : strip_prefix (str "#EXT-X-KEY:") _ = None), (Hno _ : strip_prefix (str "#EXT-X-BYTERANGE:") _ = None),
    (Hno _ : strip_prefix (str "#EXT-X-MEDIA-SEQUENCE:") _ = None), (Hno _ : strip_prefix (str "#") _ = None).
  rewrite bool_decide_eq_false_2 by done. cbn [orb]. by rewrite He, Hv, Hk, Hb, (proj2 (Z.leb_gt _ _)).
Qed.

(** Pairs of a duration line and an address line. *)
Lemma listing_read pairs : forall st,
  bare_state st -> ps_sequence st + Z.of_nat (length pairs) < 2 ^ 64 ->
  Forall (fun p : bytes * bytes => (exists l, p.1 = str "#EXTINF:" ++ l) /\ exists x u, p.2 = x :: u /\ x <> 35) pairs ->
  exists st', playlist_lines st (concat ((fun p : bytes * bytes => [p.1; p.2]) <$> pairs)) = Ok st' /\ bare_state st' /\
    ps_segments st' = ps_segments st ++ entries_from (ps_sequence st) (snd <$> pairs) /\ ps_init_map st' = ps_init_map st /\
    ps_sequence st' = ps_sequence st + Z.of_nat (length pairs).
Proof.
  induction pairs as [|[d u] pairs IH]; intros st Hst Hq Hp.
  { exists st. rewrite app_nil_r. split_and!; [done..|]. cbn. lia. }
  apply Forall_cons in Hp as [[[l Hd] (x & v & Hu & Hx)] Hp]. cbn [fst snd length] in *. rewrite fmap_cons. cbn [concat fst snd app playlist_lines].
  rewrite Hd. change (str "#EXTINF:" ++ l) with (str "#" ++ (str "EXTINF:" ++ l)). rewrite comment_line by done. cbn [mbind outcome_bind].
  rewrite Hu, uri_line by (done || lia). cbn [mbind outcome_bind]. edestruct IH as (st' & -> & Hb' & Hs' & Hm' & Hq'); [| |exact Hp|].
  - by split_and!.
  - cbn [ps_sequence]. lia.
  - exists st'. split; [done|]. split; [done|]. cbn [ps_segments ps_sequence ps_init_map] in *. split_and!; [|done|lia].
    rewrite Hs', <-app_assoc. done.
Qed.

Lemma pairs_lines pairs : concat ((fun p : bytes * bytes => p.1 ++ LF ++ p.2 ++ LF) <$> pairs) =
  concat ((fun l => l ++ LF) <$> concat ((fun p : bytes * bytes => [p.1; p.2]) <$> pairs)).
Proof.
  induction pairs as [|p pairs IH]; [done|]. rewrite !fmap_cons. cbn [concat app]. rewrite !fmap_cons. cbn [concat]. by rewrite IH, <-!app_assoc.
Qed.

(** A playlist given by its lines. *)
Lemma playlist_of_lines (ls : list bytes) st :
  Forall plain_text ls -> Forall (fun l => trim l = l) ls -> playlist_lines playlist_new ls = Ok st ->
  playlist_entries (concat ((fun l => l ++ LF) <$> ls)) =
  Ok {| segments := ps_segments st; variant := ps_variant st; end_list := existsb (fun l => bool_decide (l = str "#EXT-X-ENDLIST")) ls; init_map := ps_init_map st |}.
Proof.
  intros Hp Ht Hl. unfold playlist_entries. rewrite ascii_valid.
  - cbn [negb]. rewrite lines_lf.
    + assert (trim <$> ls = ls) as -> by (clear -Ht; induction Ht as [|l ls Hl _ IH]; [done|]; rewrite fmap_cons, Hl, IH; done).
      rewrite Hl. cbn [mbind outcome_bind]. do 2 f_equal. clear -Ht. induction Ht as [|l ls Hl _ IH]; [done|]. cbn [existsb]. by rewrite Hl, IH.
    + eapply Forall_impl; [exact Hp|]. intros l Hpl. split; apply (printable_lacks l _ Hpl); lia.
  - clear -Hp. induction Hp as [|l ls Hl _ IH]; [constructor|]. rewrite fmap_cons. cbn [concat]. rewrite !Forall_app. split_and!; [|by repeat constructor|done].
    eapply Forall_impl; [exact Hl|cbn; lia].
Qed.

Lemma sequence_line st n : 0 <= n < 2 ^ 64 ->
  playlist_line st (str "#EXT-X-MEDIA-SEQUENCE:" ++ dec n) =
  Ok {| ps_segments := ps_segments st; ps_variant := ps_variant st; ps_expect_variant := ps_expect_variant st;
        ps_init_map := ps_init_map st; ps_sequence := n; ps_key := ps_key st; ps_byterange := ps_byterange st |}.
Proof.
  intros Hn. unfold playlist_line. change (starts_with (str "#EXT-X-STREAM-INF:") (str "#EXT-X-MEDIA-SEQUENCE:" ++ dec n)) with false. cbv iota.
  change (strip_prefix (str "#EXT-X-MAP:") (str "#EXT-X-MEDIA-SEQUENCE:" ++ dec n)) with (@None bytes).
  change (strip_prefix (str "#EXT-X-KEY:") (str "#EXT-X-MEDIA-SEQUENCE:" ++ dec n)) with (@None bytes).
  change (strip_prefix (str "#EXT-X-BYTERANGE:") (str "#EXT-X-MEDIA-SEQUENCE:" ++ dec n)) with (@None bytes). cbv iota.
  rewrite strip_prefix_app, trim_dec by lia. unfold parse_u64. by rewrite parse_uint_dec by lia.
Qed.

Lemma map_line st uri : lacks 44 uri -> lacks 34 uri -> plain_text uri ->
  playlist_line st (str "#EXT-X-MAP:URI=" ++ [34] ++ uri ++ [34]) =
  Ok {| ps_segments := ps_segments st; ps_variant := ps_variant st; ps_expect_variant := ps_expect_variant st;
        ps_init_map := Some (uri, ps_key st); ps_sequence := ps_sequence st; ps_key := ps_key st; ps_byterange := ps_byterange st |}.
Proof.
  intros H44 H34 Hp. unfold playlist_line. change (str "#EXT-X-MAP:URI=" ++ [34] ++ uri ++ [34]) with (str "#EXT-X-MAP:" ++ (str "URI=" ++ 34 :: uri ++ [34])).
  change (starts_with (str "#EXT-X-STREAM-INF:") (str "#EXT-X-MAP:" ++ (str "URI=" ++ 34 :: uri ++ [34]))) with false. cbv iota.
  rewrite strip_prefix_app. unfold hls_attributes. rewrite split_lacks.
  - cbn [omap list_omap]. unfold attribute. change (str "URI=" ++ 34 :: uri ++ [34]) with (str "URI" ++ 61 :: 34 :: uri ++ [34]).
    rewrite split_once_app by not_in. rewrite trim_printable by (unfold printable; lia). rewrite trim_matches_quoted by done.
    change (to_ascii_uppercase (trim (str "URI"))) with (to_ascii_uppercase (trim (85 :: [82] ++ [73]))). rewrite trim_printable by (unfold printable; lia). done.
  - unfold lacks in *. rewrite !elem_of_app, !elem_of_cons, elem_of_app, list_elem_of_singleton. intros [Hin|[?|[?|?]]]; [|lia|done|lia].
    revert Hin. not_in.
Qed.

(** Lines the readers skip. *)
Definition preamble (version duration : bytes) : list bytes :=
  [str "#EXTM3U"; str "#EXT-X-VERSION:" ++ version; str "#EXT-X-TARGETDURATION:" ++ duration].

Lemma preamble_read st version duration ls :
  playlist_lines st (preamble version duration ++ ls) = playlist_lines st ls.
Proof.
  cbn [preamble app playlist_lines]. assert (playlist_line st (str "#EXTM3U") = Ok st) as -> by done. cbn [mbind outcome_bind].
  assert (forall tag l, tag = str "#EXT-X-VERSION:" \/ tag = str "#EXT-X-TARGETDURATION:" -> playlist_line st (tag ++ l) = Ok st) as Htag by (intros tag l [->| ->]; done).
  by rewrite !Htag by auto.
Qed.

Definition pair_lines (pairs : list (bytes * bytes)) : list bytes := concat ((fun p : bytes * bytes => [p.1; p.2]) <$> pairs).

(** A duration line and an address line, as they are printed. *)
Definition pair_ok (p : bytes * bytes) : Prop :=
  (plain_text p.1 /\ trim p.1 = p.1 /\ exists l, p.1 = str "#EXTINF:" ++ l) /\
  (plain_text p.2 /\ trim p.2 = p.2 /\ exists x u, p.2 = x :: u /\ x <> 35).

Definition line_ok (l : bytes) : Prop := plain_text l /\ trim l = l.

Lemma pair_lines_ok pairs : Forall pair_ok pairs -> Forall line_ok (pair_lines pairs) /\
  existsb (fun l => bool_decide (l = str "#EXT-X-ENDLIST")) (pair_lines pairs) = false.
Proof.
  induction 1 as [|p pairs [(Hp1 & Ht1 & l & Hl) (Hp2 & Ht2 & x & u & Hu & Hx)] _ [IH1 IH2]]; [by split; [apply Forall_nil_2|]|].
  unfold pair_lines in *. rewrite fmap_cons. cbn [concat List.app]. split; [by rewrite !Forall_cons|]. cbn [existsb]. rewrite IH2.
  rewrite (bool_decide_eq_false_2 (p.1 = _)), (bool_decide_eq_false_2 (p.2 = _)); [done|rewrite Hu; by intros [= ->]|by rewrite Hl].
Qed.

(** Lines, a listing, lines. *)
Lemma listing_playlist (before after : list bytes) (pairs : list (bytes * bytes)) st :
  Forall line_ok before -> Forall pair_ok pairs -> Forall line_ok after ->
  existsb (fun l => bool_decide (l = str "#EXT-X-ENDLIST")) before = false ->
  playlist_lines playlist_new before = Ok st -> bare_state st -> ps_segments st = [] -> ps_sequence st + Z.of_nat (length pairs) < 2 ^ 64 ->
  (forall st, playlist_lines st after = Ok st) ->
  playlist_entries (concat ((fun l => l ++ LF) <$> before ++ pair_lines pairs ++ after)) =
  Ok {| segments := entries_from (ps_sequence st) (snd <$> pairs); variant := None;
        end_list := existsb (fun l => bool_decide (l = str "#EXT-X-ENDLIST")) after; init_map := ps_init_map st |}.
Proof.
  intros Hb Hp Ha Hend Hst Hbare Hseg Hq Hafter. destruct (pair_lines_ok pairs Hp) as [Hl Hl2].
  assert (Forall line_ok (before ++ pair_lines pairs ++ after)) as Hall by (rewrite !Forall_app; done).
  destruct (listing_read pairs st Hbare Hq) as (st' & Hst' & (Hv & _) & Hseg' & Hmap & _).
  { eapply Forall_impl; [exact Hp|]. by intros p [(_ & _ & ?) (_ & _ & ?)]. }
  assert (playlist_lines playlist_new (before ++ pair_lines pairs ++ after) = Ok st') as Hlines.
  { assert (forall l k s, playlist_lines s (l ++ k) = (s ← playlist_lines s l; playlist_lines s k)) as Happ.
    { induction l as [|x l IH]; intros k s0; [done|]. cbn [playlist_lines List.app]. destruct (playlist_line s0 x); [|done..]. apply IH. }
    rewrite Happ, Hst. cbn [mbind outcome_bind]. rewrite Happ. unfold pair_lines. rewrite Hst'. apply Hafter. }
  erewrite playlist_of_lines; [|by eapply Forall_impl; [exact Hall|intros l [? _]]|by eapply Forall_impl; [exact Hall|intros l [_ ?]]|exact Hlines].
  rewrite !existsb_app, Hend, Hl2, Hv, Hmap, Hseg', Hseg. done.
Qed.

Lemma listing_text {A} (d uri : A -> bytes) (l : list A) :
  concat ((fun s => d s ++ LF ++ uri s ++ LF) <$> l) = concat ((fun l => l ++ LF) <$> pair_lines ((fun s => (d s, uri s)) <$> l)).
Proof. unfold pair_lines. rewrite <-pairs_lines, <-list_fmap_compose. f_equal. Qed.

Lemma uri_cons app stream i : exists u, segment_uri app stream i = 47 :: u.
Proof. by eexists. Qed.

(** Printed between printable characters. *)
Lemma line_between x y s l : l = x :: s ++ [y] -> plain_text l -> printable x -> printable y -> line_ok l.
Proof. intros -> Hp Hx Hy. split; [done|]. by apply trim_printable. Qed.

Lemma uri_ok app stream i : name_ok app -> name_ok stream -> 0 <= i -> line_ok (segment_uri app stream i).
Proof.
  intros Ha Hs Hi. apply (line_between 47 115 (app ++ str "/" ++ stream ++ str "/" ++ dec i ++ str ".t")).
  - unfold segment_uri. by rewrite <-!app_assoc.
  - by apply uri_printable.
  - unfold printable; lia.
  - unfold printable; lia.
Qed.

Lemma extinf_ok d : 0 <= thousandths d -> line_ok (extinf_line d).
Proof.
  intros Hd. apply (line_between 35 44 (str "EXTINF:" ++ fixed3 d)).
  - unfold extinf_line. by rewrite <-!app_assoc.
  - by apply extinf_printable.
  - unfold printable; lia.
  - unfold printable; lia.
Qed.

Lemma tagged_ok x tag n : plain_text (x :: tag) -> printable x -> 0 <= n -> line_ok ((x :: tag) ++ dec n).
Proof.
  intros Hp Hx Hn. split; [unfold plain_text; apply Forall_app; split; [done|by apply dec_text]|].
  pose proof (dec_range n Hn) as Hr. pose proof (dec_nonempty n). destruct (dec n) as [|y s _] using rev_ind; [done|].
  apply Forall_app in Hr as [_ Hy]. apply Forall_cons in Hy as [Hy _]. rewrite app_assoc. cbn [List.app]. apply trim_printable; [done|by apply digit_printable].
Qed.

Lemma sequence_ok n : 0 <= n -> line_ok (str "#EXT-X-MEDIA-SEQUENCE:" ++ dec n).
Proof.
  intros Hn. apply (tagged_ok 35 (str "EXT-X-MEDIA-SEQUENCE:")); [vm_compute; repeat constructor; discriminate|unfold printable; lia|done].
Qed.

Ltac constant_lines := repeat (apply Forall_cons; split; [split; [vm_compute; repeat constructor; discriminate|vm_compute; reflexivity]|]); try apply Forall_nil_2.

Lemma segment_pairs_ok segs (uri : HlsSegment -> bytes) :
  Forall segment_ok segs -> (forall s, segment_ok s -> line_ok (uri s)) -> (forall s, exists u, uri s = 47 :: u) ->
  Forall pair_ok ((fun s => (extinf_line (seg_duration s), uri s)) <$> segs).
Proof.
  intros Hs Hok Hu. rewrite Forall_fmap. eapply Forall_impl; [exact Hs|]. intros s Hso. pose proof Hso as [Hi Hd].
  destruct (extinf_ok _ Hd), (Hok s Hso). destruct (Hu s) as [u Heq]. split; (split; [done|split; [done|]]); [by eexists|]. exists 47, u. by split.
Qed.

(** The live playlist. *)
Lemma live_playlist_read counted listed app stream :
  name_ok app -> name_ok stream -> Forall segment_ok counted -> Forall segment_ok listed -> Z.of_nat (length listed) < 2 ^ 63 ->
  playlist_entries (live_playlist counted listed app stream) =
  Ok {| segments := match counted with [] => [] | first :: _ => entries_from (index first) ((fun s => segment_uri app stream (index s)) <$> listed) end;
        variant := None; end_list := false; init_map := None |}.
Proof.
  intros Ha Hs Hc Hl Hlen. destruct counted as [|first counted].
  - pose proof (listing_playlist (preamble (str "3") (str "4") ++ [str "#EXT-X-MEDIA-SEQUENCE:" ++ dec 0]) [] [] playlist_new) as H1.
    rewrite <-app_assoc in H1. apply H1; clear H1.
    + apply Forall_app. split; [constant_lines|]. apply Forall_singleton. by apply sequence_ok.
    + apply Forall_nil_2.
    + apply Forall_nil_2.
    + vm_compute. reflexivity.
    + vm_compute. reflexivity.
    + by split_and!.
    + reflexivity.
    + apply Z.ltb_lt. vm_compute. reflexivity.
    + reflexivity.
  - apply Forall_cons in Hc as [[Hf _] _].
    set (pairs := (fun s => (extinf_line (seg_duration s), segment_uri app stream (index s))) <$> listed).
    assert (live_playlist (first :: counted) listed app stream =
      concat ((fun l => l ++ LF) <$> (preamble (str "3") (str "4") ++ [str "#EXT-X-MEDIA-SEQUENCE:" ++ dec (index first)]) ++ pair_lines pairs ++ [])) as ->.
    { rewrite app_nil_r, fmap_app, concat_app. unfold pairs. rewrite <-listing_text. unfold live_playlist.
      assert (((fun s => extinf (seg_duration s) ++ segment_uri app stream (index s) ++ LF) <$> listed) =
        ((fun s => extinf_line (seg_duration s) ++ LF ++ segment_uri app stream (index s) ++ LF) <$> listed)) as ->.
      { apply list_fmap_ext. intros i s _. unfold extinf, extinf_line. by rewrite <-!app_assoc. }
      rewrite fmap_app, concat_app. cbn [fmap list_fmap concat]. by rewrite app_nil_r, <-!app_assoc. }
    rewrite (listing_playlist _ [] pairs {| ps_segments := []; ps_variant := None; ps_expect_variant := false; ps_init_map := None;
      ps_sequence := index first; ps_key := None; ps_byterange := None |}); try done.
    + unfold pairs. rewrite <-list_fmap_compose. done.
    + apply Forall_app. split; [constant_lines|]. apply Forall_singleton. apply sequence_ok. lia.
    + apply segment_pairs_ok; [done| |intros s; apply uri_cons]. intros s [Hi _]. apply uri_ok; (done || lia).
    + rewrite preamble_read. cbn [playlist_lines]. by rewrite sequence_line by lia.
    + cbn [ps_sequence]. unfold pairs. rewrite length_fmap. lia.
Qed.

Lemma number_uri_ok n : 0 <= n -> line_ok (dec n ++ str ".ts") /\ exists x u, dec n ++ str ".ts" = x :: u /\ x <> 35.
Proof.
  intros Hn. pose proof (dec_range n Hn) as Hr. pose proof (dec_nonempty n). pose proof (dec_text n Hn) as Hp. destruct (dec n) as [|y s]; [done|].
  apply Forall_cons in Hr as [Hy _]. split; [|exists y, (s ++ str ".ts"); split; [done|lia]].
  apply (line_between y 115 (s ++ str ".t")); [by rewrite <-app_comm_cons, <-app_assoc| |by apply digit_printable|unfold printable; lia].
  unfold plain_text. apply Forall_app. split; [done|]. vm_compute. repeat constructor; discriminate.
Qed.

Definition cmaf_uri (app stream : bytes) (i : Z) : bytes := str "/" ++ app ++ str "/" ++ stream ++ str "/seg-" ++ dec i ++ str ".m4s".

Lemma cmaf_uri_ok app stream i : name_ok app -> name_ok stream -> 0 <= i -> line_ok (cmaf_uri app stream i).
Proof.
  intros Ha Hs Hi. apply (line_between 47 115 (app ++ str "/" ++ stream ++ str "/seg-" ++ dec i ++ str ".m4")).
  - unfold cmaf_uri. by rewrite <-!app_assoc.
  - unfold cmaf_uri. plain_text.
  - unfold printable; lia.
  - unfold printable; lia.
Qed.

Definition map_uri (app stream : bytes) : bytes := str "/" ++ app ++ str "/" ++ stream ++ str "/init.mp4".

Lemma map_uri_printable app stream : name_ok app -> name_ok stream -> plain_text (map_uri app stream).
Proof. intros Ha Hs. unfold map_uri. plain_text. Qed.

(** The name holds no comma and no quote. *)
Definition attribute_name (s : bytes) : Prop := lacks 44 s /\ lacks 34 s.

Lemma map_uri_lacks app stream : attribute_name app -> attribute_name stream -> lacks 44 (map_uri app stream) /\ lacks 34 (map_uri app stream).
Proof.
  intros [] []. unfold map_uri, lacks in *. rewrite !not_elem_of_app. split_and!; try done; not_in.
Qed.

(** The playlists the server writes are read back by its pull client: the
    live playlist, the one of a recording and the one of fragmented MP4
    segments are read as exactly the listed addresses, in order, with
    consecutive media sequence numbers; only the recording is marked as
    complete, and only the fragmented MP4 one names an init segment.  (Names
    with a comma or a quote are excluded for the latter: attributes are split
    at every comma.) *)
Theorem hls_playlists_read (app stream : bytes) (counted listed : list HlsSegment) (playlist : list (Z * f64)) (first : HlsSegment) (target : Z) :
  name_ok app -> name_ok stream -> Forall segment_ok (first :: counted) -> Forall segment_ok listed -> Z.of_nat (length listed) < 2 ^ 63 ->
  Forall (fun s => 0 <= s.1 /\ 0 <= thousandths s.2) playlist -> Z.of_nat (length playlist) < 2 ^ 63 ->
  playlist_entries (live_playlist (first :: counted) listed app stream) =
    Ok {| segments := entries_from (index first) ((fun s => segment_uri app stream (index s)) <$> listed);
          variant := None; end_list := false; init_map := None |} /\
  playlist_entries (record_playlist playlist) =
    Ok {| segments := entries_from 0 ((fun s : Z * f64 => dec s.1 ++ str ".ts") <$> playlist); variant := None; end_list := true; init_map := None |} /\
  (attribute_name app -> attribute_name stream -> segment_ok first ->
   playlist_entries (build_cmaf_playlist (first :: listed) target app stream) =
     Ok {| segments := entries_from (index first) ((fun s => cmaf_uri app stream (index s)) <$> first :: listed);
           variant := None; end_list := false; init_map := Some (map_uri app stream, None) |}).
Proof.
  intros Ha Hs Hc Hl Hll Hp Hlp. split; [by apply live_playlist_read|]. split.
  - set (pairs := (fun s : Z * f64 => (extinf_line s.2, dec s.1 ++ str ".ts")) <$> playlist).
    assert (record_playlist playlist = concat ((fun l => l ++ LF) <$> (preamble (str "3") (str "2") ++ [str "#EXT-X-MEDIA-SEQUENCE:" ++ dec 0]) ++
      pair_lines pairs ++ [str "#EXT-X-ENDLIST"])) as ->.
    { rewrite !fmap_app, !concat_app. unfold pairs. rewrite <-listing_text. unfold record_playlist.
      assert (((fun s : Z * f64 => extinf s.2 ++ dec s.1 ++ str ".ts" ++ LF) <$> playlist) =
        ((fun s : Z * f64 => extinf_line s.2 ++ LF ++ (dec s.1 ++ str ".ts") ++ LF) <$> playlist)) as ->; [|done].
      apply list_fmap_ext. intros i s _. unfold extinf, extinf_line. by rewrite <-!app_assoc. }
    rewrite (listing_playlist _ _ pairs playlist_new); try done.
    + unfold pairs. rewrite <-list_fmap_compose. done.
    + apply Forall_app. split; [constant_lines|]. apply Forall_singleton. by apply sequence_ok.
    + unfold pairs. rewrite Forall_fmap. eapply Forall_impl; [exact Hp|]. intros s [Hi Hd]. destruct (extinf_ok _ Hd), (number_uri_ok _ Hi) as [[] ?].
      split; (split; [done|split; [done|]]); [by eexists|done].
    + constant_lines.
    + cbn [ps_sequence playlist_new]. unfold pairs. rewrite length_fmap. lia.
  - intros Hna Hns Hf. destruct (map_uri_lacks app stream Hna Hns) as [H44 H34]. pose proof Hf as [Hf1 _].
    set (pairs := (fun s => (extinf_line (seg_duration s), cmaf_uri app stream (index s))) <$> first :: listed).
    set (before := [str "#EXTM3U"; str "#EXT-X-VERSION:" ++ str "7"; str "#EXT-X-TARGETDURATION:" ++ dec (Z.max target 1)] ++
      [str "#EXT-X-PLAYLIST-TYPE:EVENT"; str "#EXT-X-MEDIA-SEQUENCE:" ++ dec (index first); str "#EXT-X-MAP:URI=" ++ [34] ++ map_uri app stream ++ [34]]).
    assert (build_cmaf_playlist (first :: listed) target app stream = concat ((fun l => l ++ LF) <$> before ++ pair_lines pairs ++ [])) as ->.
    { rewrite app_nil_r, fmap_app, concat_app. unfold pairs. rewrite <-listing_text. unfold build_cmaf_playlist.
      assert (((fun s => extinf (seg_duration s) ++ str "/" ++ app ++ str "/" ++ stream ++ str "/seg-" ++ dec (index s) ++ str ".m4s" ++ LF) <$> first :: listed) =
        ((fun s => extinf_line (seg_duration s) ++ LF ++ cmaf_uri app stream (index s) ++ LF) <$> first :: listed)) as ->.
      { apply list_fmap_ext. intros i s _. unfold extinf, extinf_line, cmaf_uri. by rewrite <-!app_assoc. }
      unfold before, map_uri. rewrite fmap_app, concat_app. cbn [fmap list_fmap concat]. by rewrite app_nil_r, <-!app_assoc. }
    rewrite (listing_playlist before [] pairs {| ps_segments := []; ps_variant := None; ps_expect_variant := false; ps_init_map := Some (map_uri app stream, None);
      ps_sequence := index first; ps_key := None; ps_byterange := None |}); try done.
    + unfold pairs. rewrite <-list_fmap_compose. done.
    + unfold before. apply Forall_app. split; [repeat (apply Forall_cons; split)|].
      * split; [vm_compute; repeat constructor; discriminate|vm_compute; reflexivity].
      * split; [vm_compute; repeat constructor; discriminate|vm_compute; reflexivity].
      * apply (tagged_ok 35 (str "EXT-X-TARGETDURATION:")); [vm_compute; repeat constructor; discriminate|unfold printable; lia|lia].
      * apply Forall_nil_2.
      * apply Forall_cons. split; [split; [vm_compute; repeat constructor; discriminate|vm_compute; reflexivity]|].
        apply Forall_cons. split; [apply sequence_ok; lia|]. apply Forall_singleton.
        apply (line_between 35 34 (str "EXT-X-MAP:URI=" ++ [34] ++ map_uri app stream)); [by rewrite <-!app_assoc| |unfold printable; lia..].
        unfold plain_text. rewrite !Forall_app. split_and!; [vm_compute; repeat constructor; discriminate|by repeat constructor|by apply map_uri_printable|by repeat constructor].
    + apply segment_pairs_ok; [by apply Forall_cons| |intros s; by eexists]. intros s [Hi _]. apply cmaf_uri_ok; (done || lia).
    + unfold before. rewrite (preamble_read playlist_new (str "7") (dec (Z.max target 1))). cbn [playlist_lines].
      assert (playlist_line playlist_new (str "#EXT-X-PLAYLIST-TYPE:EVENT") = Ok playlist_new) as -> by done. cbn [mbind outcome_bind].
      rewrite sequence_line by lia. cbn [mbind outcome_bind]. rewrite map_line by (done || by apply map_uri_printable). done.
    + cbn [ps_sequence]. unfold pairs. rewrite length_fmap. cbn [length]. lia.
Qed.
End Playlist.

(** ** What the client makes of the answers *)

Lemma add_length m n : 0 <= n -> add_header m (str "Content-Length: " ++ dec n) = <[str "content-length" := dec n]> m.
Proof.
  intros Hn. unfold add_header. change (str "Content-Length: " ++ dec n) with (str "Content-Length" ++ 58 :: 32 :: dec n).
  rewrite split_once_app by not_in. rewrite trim_space by (by apply dec_trimmed || apply dec_nonempty).
  assert (to_ascii_lowercase (trim (str "Content-Length")) = str "content-length") as -> by (vm_compute; reflexivity). done.
Qed.

(** The headers of both kinds of answer. *)
Definition sized_headers (content_type cache : string) (n : Z) : gmap bytes bytes :=
  <[str "connection" := str "close"]> (<[str "cache-control" := str cache]>
    (<[str "content-length" := dec n]> (<[str "content-type" := str content_type]> ∅))).

Inductive answer_kind : string -> string -> Prop :=
| PlaylistKind : answer_kind "application/vnd.apple.mpegurl" "no-cache"
| SegmentKind : answer_kind "video/mp2t" "max-age=3600".

Lemma sized_head_headers ct cache n : answer_kind ct cache -> 0 <= n ->
  foldl add_header ∅ (tail (sized_head ct cache n)) = sized_headers ct cache n.
Proof.
  intros Hk Hn. unfold sized_head. cbn [tail foldl]. rewrite (add_length _ n Hn).
  assert (add_header ∅ (str "Content-Type: " ++ str ct) = <[str "content-type" := str ct]> ∅) as -> by (destruct Hk; vm_compute; reflexivity).
  assert (forall m, add_header m (str "Cache-Control: " ++ str cache) = <[str "cache-control" := str cache]> m) as ->.
  { intros m. unfold add_header. replace (split_once 58 (str "Cache-Control: " ++ str cache)) with (Some (str "Cache-Control", str " " ++ str cache)) by (destruct Hk; done).
    f_equal; destruct Hk; vm_compute; reflexivity. }
  unfold add_header. replace (split_once 58 (str "Connection: close")) with (Some (str "Connection", str " close")) by done.
  f_equal; vm_compute; reflexivity.
Qed.

Lemma sized_head_text ct cache n : answer_kind ct cache -> 0 <= n -> head_text (join CRLF (sized_head ct cache n)) /\
  parse_head (join CRLF (sized_head ct cache n)) = Ok (200, sized_headers ct cache n).
Proof.
  intros Hk Hn. assert (Forall head_line (sized_head ct cache n)) as Hl.
  { unfold sized_head. repeat apply Forall_cons_2; try apply Forall_nil_2.
    - split; [done|]. vm_compute. repeat constructor; discriminate.
    - split; [done|]. destruct Hk; vm_compute; repeat constructor; discriminate.
    - split; [done|]. apply Forall_app. split; [vm_compute; repeat constructor; discriminate|by apply dec_text].
    - split; [done|]. destruct Hk; vm_compute; repeat constructor; discriminate.
    - split; [done|]. vm_compute. repeat constructor; discriminate. }
  split; [split|].
  - intros r. by apply find_head.
  - unfold sized_head, zlen. cbn [join]. rewrite !length_app. pose proof (dec_length n).
    assert (length (str "HTTP/1.1 200 OK") + length (str ct) + length (str cache) + length (str "Content-Type: ") + length (str "Content-Length: ") +
      length (str "Cache-Control: ") + length (str "Connection: close") <= 200)%nat by (destruct Hk; vm_compute; lia).
    unfold CRLF. cbn [length]. unfold MAX_HEADER_SIZE. lia.
  - unfold sized_head at 1. rewrite (parse_head_lines _ _ 200); [|exact Hl|vm_compute; reflexivity]. f_equal. f_equal. by apply sized_head_headers.
Qed.

Lemma sized_lookups ct cache n : 0 <= n < 2 ^ 64 ->
  announced (sized_headers ct cache n) (Some n) /\ is_chunked (sized_headers ct cache n) = false /\
  sized_headers ct cache n !! str "content-type" = Some (str ct).
Proof.
  intros Hn. unfold sized_headers, announced, is_chunked.
  assert (forall (m : gmap bytes bytes) k k' v, bool_decide (k = k') = false -> <[k := v]> m !! k' = m !! k') as Hne.
  { intros m k k' v Hk%bool_decide_eq_false. by apply lookup_insert_ne. }
  split; [|split].
  - rewrite !Hne by (vm_compute; reflexivity). rewrite lookup_insert_eq. split; [|done]. unfold parse_usize. by apply parse_uint_dec; lia.
  - rewrite !Hne by (vm_compute; reflexivity). done.
  - rewrite !Hne by (vm_compute; reflexivity). by rewrite lookup_insert_eq.
Qed.

(** An answer with a length is read whole. *)
Lemma sized_answer ct cache u s body limit :
  answer_kind ct cache -> delivers s (with_head (sized_head ct cache (zlen body)) body) -> zlen body <= limit -> zlen body < 2 ^ 64 ->
  exists resp, receive_response u s = Ok (inr resp) /\ res_url resp = u /\ res_headers resp !! str "content-type" = Some (str ct) /\
    read_to_end limit (res_body resp) = Ok body.
Proof.
  intros Hk Hd Hl Hmax. assert (0 <= zlen body) as H0 by (unfold zlen; lia).
  destruct (sized_head_text ct cache (zlen body) Hk H0) as [Ht Hp]. destruct (sized_lookups ct cache (zlen body)) as (Ha & Hc & Hct); [lia|].
  destruct (receive_ok _ 200 _ (Some (zlen body)) u s body Ht Hp ltac:(lia) Ha Hd) as (resp & Hr & Hu & Hh & Hs & Hf & Hpend & Hch & Hrem).
  exists resp. split_and!; [done|done|by rewrite Hh|].
  rewrite (read_sized limit body); [by rewrite (proj2 (Z.leb_le _ _))|lia| |done|done].
  rewrite Hch, Hc, Hrem, Hpend. assert (body = take (Z.to_nat (zlen body)) body) as Hb by (unfold zlen; by rewrite Nat2Z.id, firstn_all).
  rewrite Hb at 1. by constructor.
Qed.

Lemma receive_failed text status headers u s rest :
  head_text text -> parse_head text = Ok (status, headers) -> is_redirect status = false -> (200 <=? status) && (status <? 300) = false ->
  delivers s (text ++ HEADER_END ++ rest) -> receive_response u s = Err (Anyhow "HTTP upstream returned status").
Proof.
  intros Ht Hp Hre Hst Hd. destruct (read_head_ok text rest s Ht Hd) as (s' & q & Hh & _). unfold receive_response. rewrite Hh. cbn [mbind outcome_bind].
  rewrite slice_prefix. cbn [mbind outcome_bind]. rewrite slice_after by (rewrite length_app; done). cbn [mbind outcome_bind].
  rewrite Hp. cbn [mbind outcome_bind]. by rewrite Hre, Hst.
Qed.

Definition missing_head : list bytes := [str "HTTP/1.1 404 Not Found"; str "Content-Length: 9"; str "Connection: close"].

Lemma missing_head_lines : Forall head_line missing_head.
Proof. repeat apply Forall_cons_2; try apply Forall_nil_2; (split; [done|vm_compute; repeat constructor; discriminate]). Qed.

Lemma receive_404 u s : delivers s response_404 -> receive_response u s = Err (Anyhow "HTTP upstream returned status").
Proof.
  intros Hd. apply (receive_failed (join CRLF missing_head) 404 (foldl add_header ∅ (tail missing_head)) u s (str "Not Found")).
  - split; [|vm_compute; reflexivity]. intros r. apply find_head; [done|apply missing_head_lines].
  - apply parse_head_lines; [apply missing_head_lines|vm_compute; reflexivity].
  - done.
  - done.
  - replace (join CRLF missing_head ++ HEADER_END ++ str "Not Found") with response_404 by (vm_compute; reflexivity). exact Hd.
Qed.

(** ** What the sessions answer *)

Lemma name_ordinary s : name_ok s -> ordinary s.
Proof.
  intros Hs. pose proof Hs as (? & ? & ? & _). split_and!; [done..| |]; apply (name_lacks _ s Hs); lia.
Qed.

Lemma file_ordinary i : 0 <= i -> ordinary (dec i ++ str ".ts").
Proof.
  intros Hi. pose proof (dec_range i Hi) as Hr. pose proof (dec_nonempty i) as Hne.
  assert (forall c, c <> 46 -> c <> 116 -> c <> 115 -> ~ 48 <= c <= 57 -> lacks c (dec i ++ str ".ts")) as Hl.
  { intros c H1 H2 H3 H4 Hin. apply elem_of_app in Hin as [Hin|Hin]; [by apply (dec_lacks c i Hi)|].
    change (str ".ts") with [46; 116; 115] in Hin. rewrite !elem_of_cons in Hin. destruct Hin as [?|[?|[?|Hin]]]; [lia..|by apply not_elem_of_nil in Hin]. }
  destruct (dec i) as [|x s]; [done|]. apply Forall_cons in Hr as [Hx _].
  split_and!; [done|intros [= -> _]; lia|intros [= -> _]; lia|apply Hl; lia|apply Hl; lia].
Qed.

Lemma uri_split app stream i : name_ok app -> name_ok stream -> 0 <= i ->
  split 47 (segment_uri app stream i) = [[]; app; stream; dec i ++ str ".ts"] /\ lacks 35 (segment_uri app stream i) /\ lacks 63 (segment_uri app stream i).
Proof.
  intros Ha Hs Hi. split; [|split].
  - unfold segment_uri. change (str "/" ++ app ++ str "/" ++ stream ++ str "/" ++ dec i ++ str ".ts") with ([] ++ 47 :: app ++ 47 :: stream ++ 47 :: dec i ++ str ".ts").
    rewrite split_app by apply not_elem_of_nil. rewrite split_app by by apply name_lacks; [|lia]. rewrite split_app by by apply name_lacks; [|lia].
    rewrite split_lacks; [done|]. by apply file_ordinary.
  - unfold segment_uri, lacks. rewrite !not_elem_of_app. split_and!; try not_in; [apply name_lacks; [done|lia]..|apply dec_lacks; lia].
  - unfold segment_uri, lacks. rewrite !not_elem_of_app. split_and!; try not_in; [apply name_lacks; [done|lia]..|apply dec_lacks; lia].
Qed.

(** The address the client fetches a segment from. *)
Definition at_path (u : HttpUrl) (p : bytes) : HttpUrl :=
  {| url_scheme := url_scheme u; url_host := url_host u; url_authority := url_authority u; url_port := url_port u; url_path := p |}.

Definition seg_url (u : HttpUrl) (app stream : bytes) (i : nat) : bytes :=
  url_scheme u ++ str "://" ++ url_authority u ++ segment_uri app stream (Z.of_nat i).

Lemma resolve_uri u app stream i : name_ok app -> name_ok stream ->
  resolve u (segment_uri app stream (Z.of_nat i)) = seg_url u app stream i.
Proof.
  intros Ha Hs. destruct (uri_split app stream (Z.of_nat i) Ha Hs ltac:(lia)) as (Hsp & H35 & H63). unfold resolve, seg_url.
  change (is_absolute (segment_uri app stream (Z.of_nat i))) with false. cbv iota.
  assert (before 35 (segment_uri app stream (Z.of_nat i)) = segment_uri app stream (Z.of_nat i)) as -> by (unfold before; by rewrite split_once_none).
  cbv zeta. change (starts_with (str "/") (segment_uri app stream (Z.of_nat i))) with true. cbv iota. rewrite (split_once_none 63) by done. cbv iota beta.
  rewrite Hsp. cbn [foldl]. assert (forall acc c, ordinary c -> normalize_step acc c = acc ++ [c]) as Hn.
  { intros acc c (H1 & H2 & H3 & _). unfold normalize_step. by rewrite !bool_decide_eq_false_2. }
  change (normalize_step [] []) with (@nil bytes). rewrite !Hn by first [by apply name_ordinary | apply file_ordinary; lia].
  cbn [List.app join]. unfold segment_uri. by rewrite app_nil_r.
Qed.

Lemma parse_seg_url u app stream i : url_valid u -> parse_url (seg_url u app stream i) = Ok (at_path u (segment_uri app stream (Z.of_nat i))).
Proof. intros Hu. unfold seg_url. destruct (uri_cons app stream (Z.of_nat i)) as [p ->]. by apply parse_url_of. Qed.

Lemma seg_url_inj u app stream i j : Z.of_nat i < 2 ^ 32 -> Z.of_nat j < 2 ^ 32 -> seg_url u app stream i = seg_url u app stream j -> i = j.
Proof.
  intros Hi Hj H. unfold seg_url, segment_uri in H. repeat (apply app_inv_head in H). apply app_inv_tail in H.
  assert (Some (Z.of_nat i) = Some (Z.of_nat j)) as He; [|injection He; lia].
  rewrite <-(parse_uint_dec (2 ^ 32 - 1) (Z.of_nat i)), <-(parse_uint_dec (2 ^ 32 - 1) (Z.of_nat j)) by lia. by rewrite H.
Qed.

Section Server.
Context `{AuthPrimitives}.
Variables (w : World) (a : StreamAuth) (get_source : bytes -> bytes -> bool) (app stream : bytes).
Hypothesis (Happ : name_ok app) (Hstream : name_ok stream).
Hypothesis (Hplay : on_play w app stream [] = None) (Hauth : check a DEFAULT_VHOST app stream (str "play") [] = true) (Hget : get_source app stream = true).

Lemma parse_uri i : 0 <= i -> parse_path_sign (segment_uri app stream i) = (app, stream ++ str "/" ++ dec i ++ str ".ts", []).
Proof.
  intros Hi. destruct (uri_split app stream i Happ Hstream Hi) as (_ & _ & H63). unfold parse_path_sign.
  assert (trim_start_char 47 (segment_uri app stream i) = app ++ str "/" ++ stream ++ str "/" ++ dec i ++ str ".ts") as Ht.
  { unfold segment_uri. change (str "/" ++ app ++ ?x) with (47 :: app ++ x). cbn [trim_start_char Z.eqb Pos.eqb].
    pose proof (name_lacks 47 app Happ ltac:(lia)) as Hl. destruct Happ as [Hne _]. destruct app as [|x s]; [done|].
    cbn [List.app trim_start_char]. rewrite (proj2 (Z.eqb_neq x 47)); [done|]. intros ->. apply Hl, elem_of_cons. by left. }
  rewrite Ht. rewrite split_once_none.
  2: { intros Hin. apply H63. unfold segment_uri. apply elem_of_app. by right. }
  change (app ++ str "/" ++ stream ++ str "/" ++ dec i ++ str ".ts") with (app ++ 47 :: stream ++ str "/" ++ dec i ++ str ".ts").
  cbn [splitn]. rewrite split_once_app by (apply name_lacks; [done|lia]). done.
Qed.

Lemma segment_number_dec i : 0 <= i < 2 ^ 32 - 1 -> segment_number (dec i ++ str ".ts") = i.
Proof.
  intros Hi. unfold segment_number, strip_suffix. rewrite reverse_app, strip_prefix_app. cbn [fmap option_fmap option_map].
  rewrite reverse_involutive. unfold parse_u32. rewrite parse_uint_dec by lia. done.
Qed.

(** A segment request: the segment if it is kept, a 404 otherwise. *)
Lemma segment_answer segs i : 0 <= i < 2 ^ 32 - 1 ->
  written (handle_hls_segment w a get_source (fun _ _ => Some segs) (segment_uri app stream i) 2%nat).1.1 =
  match List.find (fun s => index s =? i) segs with
  | Some seg => with_head (segment_head (zlen (segment_data seg))) (segment_data seg)
  | None => response_404
  end.
Proof.
  intros Hi. unfold handle_hls_segment. rewrite parse_uri by lia.
  assert (split 47 (stream ++ str "/" ++ dec i ++ str ".ts") = [stream; dec i ++ str ".ts"]) as ->.
  { change (stream ++ str "/" ++ dec i ++ str ".ts") with (stream ++ 47 :: dec i ++ str ".ts").
    rewrite split_app by (apply name_lacks; [done|lia]). rewrite split_lacks; [done|]. apply file_ordinary. lia. }
  rewrite Hplay, Hauth. cbn [negb]. rewrite segment_number_dec by lia. rewrite (proj2 (Z.eqb_neq i _)) by lia. rewrite Hget.
  destruct (List.find _ segs) as [seg|]; [|vm_compute; reflexivity].
  change (with_head (segment_head (zlen (segment_data seg))) [] ++ segment_data seg ++ [] = with_head (segment_head (zlen (segment_data seg))) (segment_data seg)).
  unfold with_head. by rewrite !app_nil_r, <-!app_assoc.
Qed.

(** A playlist request. *)
Lemma playlist_answer counted listed path resource sign v :
  parse_path_sign path = (app, resource, sign) -> hls_stream_name resource = stream ->
  on_play w app stream sign = None -> check a DEFAULT_VHOST app stream (str "play") sign = true -> get_or_pull w app stream = Some v ->
  written (handle_hls_playlist w a counted listed path 2%nat).1.1 =
  with_head (playlist_head (zlen (live_playlist counted listed app stream))) (live_playlist counted listed app stream).
Proof.
  intros Hp Hn Ho Hc Hg. unfold handle_hls_playlist. rewrite Hp, Hn, Ho, Hc. cbn [negb]. rewrite Hg. apply app_nil_r.
Qed.
End Server.

(** ** Numbered segments *)

Definition numbered (l : list HlsSegment) (k : nat) : Prop := forall j s, l !! j = Some s -> index s = Z.of_nat (k + j).

Lemma find_numbered l : forall k i, numbered l k ->
  List.find (fun s => index s =? Z.of_nat i) l = (if (k <=? i)%nat then l !! (i - k)%nat else None).
Proof.
  induction l as [|x l IH]; intros k i Hn; [by destruct (k <=? i)%nat|]. cbn [List.find].
  rewrite (Hn 0%nat x) by done. rewrite Nat.add_0_r.
  assert (numbered l (S k)) as Hn' by (intros j s Hj; rewrite (Hn (S j) s Hj); lia).
  destruct (Z.eqb_spec (Z.of_nat k) (Z.of_nat i)) as [He|He].
  - assert (k = i) as <- by lia. by rewrite Nat.leb_refl, Nat.sub_diag.
  - rewrite (IH (S k) i Hn'). destruct (Nat.leb_spec (S k) i), (Nat.leb_spec k i); try lia; [|done].
    replace (i - k)%nat with (S (i - S k)) by lia. done.
Qed.

Lemma numbered_latest all g : numbered all 0 -> (g <= length all)%nat -> numbered (latest 10 (take g all)) (g - 10).
Proof.
  intros Hn Hg j s. unfold latest. rewrite length_take, Nat.min_l by done. rewrite lookup_drop. intros Hj.
  apply lookup_take_Some in Hj as [Hj _]. rewrite (Hn _ _ Hj). lia.
Qed.

Lemma find_latest all g i : numbered all 0 -> (g <= length all)%nat ->
  List.find (fun s => index s =? Z.of_nat i) (latest 10 (take g all)) = (if (g - 10 <=? i)%nat && (i <? g)%nat then all !! i else None).
Proof.
  intros Hn Hg. rewrite (find_numbered _ (g - 10) i) by by apply numbered_latest. destruct (Nat.leb_spec (g - 10) i); [|done]. cbn [andb].
  unfold latest. rewrite length_take, Nat.min_l, lookup_drop by done. replace (g - 10 + (i - (g - 10)))%nat with i by lia.
  destruct (Nat.ltb_spec i g); [by rewrite lookup_take_lt|]. rewrite lookup_take_ge by done. done.
Qed.

(** The indices listed when [n] segments exist. *)
Definition window (n : nat) : list nat := seq (n - 10) (n - (n - 10)).

Lemma latest_uris all n (f : Z -> bytes) : numbered all 0 -> (n <= length all)%nat ->
  (fun s => f (index s)) <$> latest 10 (take n all) = (fun i => f (Z.of_nat i)) <$> window n.
Proof.
  intros Hn Hl. pose proof (numbered_latest all n Hn Hl) as Hn'. apply list_eq. intros j. rewrite !list_lookup_fmap. unfold window.
  destruct (decide (j < n - (n - 10))%nat) as [Hj|Hj].
  - rewrite lookup_seq_lt by done. destruct (latest 10 (take n all) !! j) as [s|] eqn:Hs; [by cbn; rewrite (Hn' _ _ Hs)|].
    exfalso. unfold latest in Hs. rewrite length_take, Nat.min_l, lookup_drop in Hs by done. apply lookup_ge_None in Hs. rewrite length_take in Hs. lia.
  - rewrite lookup_seq_ge by lia. unfold latest. rewrite length_take, Nat.min_l, lookup_drop by done. rewrite lookup_take_ge by lia. done.
Qed.

(** ** Frames relayed *)

Section Feeding.
Variables (all : list HlsSegment) (groups : list (list MediaFrame)).
Hypothesis (Hcarry : Forall2 (fun s g => carries_frames (segment_data s) g) all groups).

Definition frames_of (fed : list nat) : list MediaFrame := concat ((fun i => default [] (groups !! i)) <$> fed).

(** Having been fed these segments the demuxer has published [got] and holds at
    most the last frame of each kind. *)
Definition relayed (fed : list nat) (got : list MediaFrame) (d : TsStreamDemuxer) : Prop :=
  exists pv pa, pending d = [] /\ between (context d) pv pa /\ kinds_ok pv pa /\
    videos got ++ pv = videos (hls_published <$> frames_of fed) /\ audios got ++ pa = audios (hls_published <$> frames_of fed).

Lemma relayed_new : relayed [] [] demuxer_new.
Proof. exists [], []. by split_and!; [|right| | |]. Qed.

Lemma relayed_step fed got d i s :
  relayed fed got d -> all !! i = Some s -> exists d' l, ts_feed d (segment_data s) = Ok (d', l) /\ relayed (fed ++ [i]) (got ++ l) d'.
Proof.
  intros (pv & pa & Hp & Hb & Hk & Hv & Ha) Hs. destruct (Forall2_lookup_l _ _ _ _ _ Hcarry Hs) as (g & Hg & pkts & Hcat & Hal & Hread).
  destruct (Hread (context d) pv pa (clock d) Hb Hk) as (c' & l & fb' & pv' & pa' & Hd & Hh & Hk' & Hv' & Ha').
  exists {| pending := []; context := c'; clock := fb' |}, l. split.
  - unfold ts_feed. rewrite Hcat.
    set (d0 := {| pending := pending d ++ concat pkts; context := context d; clock := clock d |}).
    rewrite (feed_loop pkts [] _ d0 [] c' l fb' Hal); [done| | |exact Hd|lia].
    + unfold d0. cbn [pending]. by rewrite Hp, app_nil_r.
    + unfold TS_PACKET_SIZE. cbn. lia.
  - exists pv', pa'. cbn [pending context]. split; [done|]. split; [by left|]. split; [done|]. unfold frames_of in *. rewrite fmap_app, concat_app.
    cbn [fmap list_fmap concat]. rewrite Hg. cbn [default from_option id]. rewrite app_nil_r, !fmap_app, !videos_app, !audios_app, <-!app_assoc.
    rewrite Hv', Ha', !app_assoc, Hv, Ha. done.
Qed.

Lemma relayed_flush fed got d : relayed fed got d ->
  videos (got ++ (ts_flush d).2) = videos (hls_published <$> frames_of fed) /\ audios (got ++ (ts_flush d).2) = audios (hls_published <$> frames_of fed).
Proof.
  intros (pv & pa & Hp & Hb & (K1 & K2 & K3 & K4) & Hv & Ha). rewrite videos_app, audios_app. destruct Hb as [Hh|(Hc & -> & ->)].
  - rewrite (flush_holding H264 (context d) pv pa d Hh eq_refl), videos_app, audios_app, K1, K2, K3, K4, app_nil_r. cbn [List.app]. by rewrite Hv, Ha.
  - unfold ts_flush. rewrite Hc. cbn. by rewrite Hv, Ha.
Qed.

(** At most one frame of each kind is held. *)
Lemma between_few c pv pa : between c pv pa -> (length pv <= 1)%nat /\ (length pa <= 1)%nat.
Proof.
  intros [[_ Hv Ha]|(_ & -> & ->)]; [|cbn; lia]. rewrite <-(Hv 0), <-(Ha 0). unfold held_video, held_audio, publish_video, publish_audio. split.
  - destruct (video_accum c); [cbn; lia|]. repeat case_match; cbn; lia.
  - destruct (audio_accum c); [cbn; lia|]. repeat case_match; cbn; lia.
Qed.

(** All is published but the last frame of each kind. *)
Definition all_but_held (got want : list MediaFrame) : Prop :=
  exists pv pa, (length pv <= 1)%nat /\ (length pa <= 1)%nat /\ videos got ++ pv = videos want /\ audios got ++ pa = audios want.

Lemma relayed_prefix fed got d : relayed fed got d -> all_but_held got (hls_published <$> frames_of fed).
Proof. intros (pv & pa & _ & Hb & _ & ? & ?). apply between_few in Hb as []. by exists pv, pa. Qed.
End Feeding.

Definition published (es : list PullEffect) : list MediaFrame := omap (fun e => match e with Published f => Some f | _ => None end) es.

Lemma pull_published_app l k : published (l ++ k) = published l ++ published k.
Proof. apply omap_app. Qed.

Lemma published_frames l : published (Published <$> l) = l.
Proof. induction l as [|f l IH]; [done|]. unfold published in *. cbn. by rewrite IH. Qed.

(** The addresses connected to, in order. *)
Definition connects (es : list PullEffect) : list HttpUrl := omap (fun e => match e with Connected v _ => Some v | _ => None end) es.

Lemma connects_app l k : connects (l ++ k) = connects l ++ connects k.
Proof. apply omap_app. Qed.

Lemma connects_published l : connects (Published <$> l) = [].
Proof. by induction l. Qed.

(** What a client asks for: [None] is the playlist, [Some i] the segment [i].
    In a round it asks for the playlist and then for some of its segments. *)
Definition script (rounds : list (list nat)) : list (option nat) := concat ((fun l => None :: (Some <$> l)) <$> rounds).

Lemma script_cons l rounds : script (l :: rounds) = None :: (Some <$> l) ++ script rounds.
Proof. done. Qed.

Lemma script_length rounds k : (k <= length rounds)%nat -> (k <= length (script rounds))%nat.
Proof.
  revert k. induction rounds as [|l rounds IH]; intros k Hk; [done|]. rewrite script_cons. cbn [length] in *. rewrite length_app.
  destruct k as [|k]; [lia|]. specialize (IH k ltac:(lia)). lia.
Qed.

Lemma script_split l rounds : script [l] ++ script rounds = script (l :: rounds).
Proof. rewrite !script_cons. cbn [List.app]. by rewrite app_nil_r. Qed.

Definition target (u : HttpUrl) (app stream : bytes) (asked : option nat) : HttpUrl :=
  match asked with None => u | Some i => at_path u (segment_uri app stream (Z.of_nat i)) end.

(** The segments fetched, each once. *)
Definition take_new (fed : list nat) (l : list nat) : list nat := foldl (fun fed i => if bool_decide (i ∈ fed) then fed else fed ++ [i]) fed l.

Section Pull.
Context `{PullPrimitives}.
Variables (connect : nat -> HttpUrl -> bytes -> option AsyncStream) (app stream : bytes) (u : HttpUrl).
Variables (all : list HlsSegment) (groups : list (list MediaFrame)) (counted listed : nat -> nat).

(** The server as the client sees it: at its [n]-th connection [counted n]
    segments have been produced when the first is looked up, [listed n] when
    they are listed. *)
Record live_server : Prop := {
  server_url : url_valid u;
  server_names : name_ok app /\ name_ok stream;
  server_numbered : numbered all 0;
  server_segments : Forall segment_ok all;
  server_carries : Forall2 (fun s g => carries_frames (segment_data s) g) all groups;
  server_sizes : Forall (fun s => zlen (segment_data s) <= MAX_SEGMENT_SIZE) all;
  server_few : (length all <= 4096)%nat;
  server_order : forall n, (counted n <= listed n <= counted (S n))%nat /\ (counted (S n) <= length all)%nat;
  server_playlist : forall n, let text := live_playlist (latest 10 (take (counted n) all)) (latest 10 (take (listed n) all)) app stream in
    zlen text <= MAX_PLAYLIST_SIZE /\
    exists st, connect n u (http_request u None) = Some st /\ delivers st (with_head (playlist_head (zlen text)) text);
  server_segment : forall n i, (i < length all)%nat -> let v := at_path u (segment_uri app stream (Z.of_nat i)) in
    exists st, connect n v (http_request v None) = Some st /\
      delivers st (match List.find (fun s => index s =? Z.of_nat i) (latest 10 (take (counted n) all)) with
                   | Some s => with_head (segment_head (zlen (segment_data s))) (segment_data s)
                   | None => response_404
                   end)
}.
Context (Hserver : live_server).

Lemma counted_mono n k : (counted n <= counted (n + k))%nat.
Proof. induction k as [|k IH]; [by rewrite Nat.add_0_r|]. pose proof (server_order Hserver (n + k)). rewrite Nat.add_succ_r. lia. Qed.

Lemma counted_bound n : (counted n <= length all)%nat.
Proof. destruct (server_order Hserver n). lia. Qed.

Definition status_error : Error := Anyhow "HTTP upstream returned status".

(** Fetching a segment: its bytes, or an error when it is no longer kept. *)
Lemma fetch_live i s : (i < length all)%nat ->
  exists e s', connections s' = S (connections s) /\ published [e] = [] /\ connects [e] = [target u app stream (Some i)] /\
    fetch connect (seg_url u app stream i) None s =
      ([e], s', match (if (counted (connections s) - 10 <=? i)%nat && (i <? counted (connections s))%nat then all !! i else None) with
                | Some seg => Ok (segment_data seg) | None => Err status_error end).
Proof.
  intros Hi. destruct (server_names Hserver) as [Ha Hs]. pose proof (server_segment Hserver (connections s) i Hi) as Hseg. cbv zeta in Hseg.
  rewrite (find_latest all _ i (server_numbered Hserver) (counted_bound _)) in Hseg.
  destruct Hseg as (st & Hc & Hd). set (v := at_path u (segment_uri app stream (Z.of_nat i))) in *.
  exists (Connected v (http_request v None)), {| connections := S (connections s); source_tracks := source_tracks s |}. do 3 (split; [done|]).
  unfold fetch, open_response. cbn [follow]. unfold mbind at 1, p_bind at 1.
  rewrite (parse_seg_url u app stream i (server_url Hserver)). fold v. rewrite p_lift.
  destruct (if (counted (connections s) - 10 <=? i)%nat && (i <? counted (connections s))%nat then all !! i else None) as [seg|] eqn:Hseg.
  - assert (all !! i = Some seg) as Hl by (by destruct (_ && _)). pose proof (server_sizes Hserver) as Hsz. rewrite Forall_lookup in Hsz. specialize (Hsz _ _ Hl).
    destruct (sized_answer "video/mp2t" "max-age=3600" v st (segment_data seg) MAX_SEGMENT_SIZE SegmentKind Hd Hsz) as (resp & Hr & _ & _ & Hread);
      [unfold MAX_SEGMENT_SIZE in Hsz; lia|].
    unfold mbind at 1, p_bind at 1. unfold connect_to. rewrite Hc. rewrite Hr, p_lift. unfold mret, p_ret, lift. rewrite Hread. done.
  - unfold mbind at 1, p_bind at 1. unfold connect_to. rewrite Hc. rewrite (receive_404 v st Hd). done.
Qed.

Definition seen_of (fed : list nat) : list (bytes * option (Z * Z)) := (fun i => (seg_url u app stream i, None)) <$> fed.

(** The client's state between two segments. *)
Definition live_state (st : HlsState) (fed : list nat) (got : list MediaFrame) : Prop :=
  seen st = seen_of fed /\ fmp4_demuxer st = None /\ relayed groups fed got (hls_demuxer st).

Lemma seen_in i fed : (i < length all)%nat -> Forall (fun j => (j < length all)%nat) fed ->
  bool_decide ((seg_url u app stream i, None) ∈ seen_of fed) = bool_decide (i ∈ fed).
Proof.
  intros Hi Hf. apply bool_decide_ext. unfold seen_of. rewrite list_elem_of_fmap. pose proof (server_few Hserver). split.
  - intros (j & Heq & Hj). rewrite Forall_forall in Hf. pose proof (Hf _ Hj). injection Heq as Heq. apply seg_url_inj in Heq as ->; [done|lia|lia].
  - intros Hin. by exists i.
Qed.

Lemma play_live st l d' fs data s : fmp4_demuxer st = None -> ts_feed (hls_demuxer st) data = Ok (d', fs) ->
  play_segment (with_seen st l) data s = (Published <$> fs, s, Ok (with_ts (with_seen st l) d')).
Proof.
  intros Hf Hd. unfold play_segment. cbn [fmp4_demuxer with_seen hls_demuxer]. rewrite Hf, Hd, p_lift. cbn [fst snd].
  erewrite p_step by apply each_publish. cbn [fst snd mret p_ret]. by rewrite app_nil_r.
Qed.

(** The segments of one playlist.  A segment listed at connection [n] may have
    been dropped when it is asked for. *)
Lemma pull_segments_live l : forall st s q fed got n,
  Forall (fun i => (i < listed n)%nat) l -> (n < connections s)%nat -> Forall (fun j => (j < length all)%nat) fed -> live_state st fed got ->
  exists l1 l2 new es s' r, l = l1 ++ l2 /\ pull_segments connect st u ∅ (entries_from q ((fun i => segment_uri app stream (Z.of_nat i)) <$> l)) s = (es, s', r) /\
    take_new fed l1 = fed ++ new /\ Forall (fun i => i ∈ l1) new /\ connections s' = (connections s + length (connects es))%nat /\
    ((l2 = [] /\ connects es = target u app stream <$> (Some <$> new) /\
      exists st', r = Ok st' /\ live_state st' (fed ++ new) (got ++ published es) /\ playlist_url st' = playlist_url st /\ next_response st' = next_response st) \/
     (exists i l3, l2 = i :: l3 /\ connects es = target u app stream <$> (Some <$> (new ++ [i])) /\ (i + 10 < counted (connections s + length new))%nat /\
      r = Err status_error /\ exists d, relayed groups (fed ++ new) (got ++ published es) d)).
Proof.
  induction l as [|i l IH]; intros st s q fed got n Hl Hn Hf Hst.
  { exists [], [], [], [], s, (Ok st). cbn [connects omap list_omap length take_new foldl]. rewrite !app_nil_r, Nat.add_0_r. split_and!; try done.
    left. split; [done|]. split; [done|]. by exists st. }
  apply Forall_cons in Hl as [Hi Hl]. destruct (server_names Hserver) as [Ha Hs]. destruct Hst as (Hseen & Hfmp4 & Hrel).
  assert (i < length all)%nat as Hia by (pose proof (server_order Hserver n); lia).
  rewrite fmap_cons. cbn [entries_from pull_segments seg_uri seg_byterange seg_key]. rewrite resolve_uri by done.
  unfold segment_range. cbn [seg_byterange]. rewrite p_lift, delete_empty. rewrite Hseen, seen_in by done. case_bool_decide as Hin.
  { destruct (IH st s (q + 1) fed got n) as (l1 & l2 & new & es & s' & r & -> & Hr & Hnew & Hsub & Hc & Hcase); [done..|].
    exists (i :: l1), l2, new, es, s', r. split_and!; [done|done| | |done|done].
    - unfold take_new in *. cbn [foldl]. by rewrite bool_decide_eq_true_2.
    - eapply Forall_impl; [exact Hsub|]. cbn. intros j Hj. by right. }
  destruct (fetch_live i s Hia) as (e & s1 & Hc1 & He & Hce & Hfetch). cbn [fetch_segment].
  destruct (if (counted (connections s) - 10 <=? i)%nat && (i <? counted (connections s))%nat then all !! i else None) as [seg|] eqn:Hseg.
  - assert (all !! i = Some seg) as Hlk by (by destruct (_ && _)).
    destruct (relayed_step all groups (server_carries Hserver) fed got (hls_demuxer st) i seg Hrel Hlk) as (d' & fs & Hfeed & Hrel').
    destruct (IH (with_ts (with_seen st (seen st ++ [(seg_url u app stream i, None)])) d') s1 (q + 1) (fed ++ [i]) (got ++ fs) n)
      as (l1 & l2 & new & es & s' & r & -> & Hr & Hnew & Hsub & Hc & Hcase); [done|lia|apply Forall_app; by repeat constructor| |].
    { split; [|done]. cbn [seen with_ts with_seen]. rewrite Hseen. unfold seen_of. by rewrite fmap_app. }
    exists (i :: l1), l2, (i :: new), ([e] ++ (Published <$> fs) ++ es), s', r. split; [done|]. split; [|split; [|split; [|split]]].
    + erewrite p_step by exact Hfetch. cbn [decrypt fst snd]. erewrite (p_step (mret _)) by reflexivity. cbn [fst snd List.app].
      erewrite p_step by (apply play_live; [exact Hfmp4|exact Hfeed]). cbn [fst snd].
      rewrite Hseen in Hr. rewrite Hr. by rewrite ?app_nil_r.
    + unfold take_new in *. cbn [foldl]. rewrite bool_decide_eq_false_2 by done. rewrite Hnew. by rewrite <-app_assoc.
    + constructor; [by left|]. eapply Forall_impl; [exact Hsub|]. cbn. intros j Hj. by right.
    + rewrite !connects_app, Hce, connects_published. cbn [List.app length]. lia.
    + rewrite !pull_published_app, !connects_app, He, Hce, published_frames, connects_published. cbn [List.app]. rewrite app_assoc.
      rewrite <-app_assoc in Hcase. rewrite Hc1 in Hcase. cbn [List.app length fmap list_fmap] in *. rewrite Nat.add_succ_r.
      destruct Hcase as [(-> & -> & Hok)|(x & l3 & -> & -> & Hx & -> & Hd)]; [by left|right]. exists x, l3. by split_and!.
  - exists [], (i :: l), [], [e], s1, (Err status_error). split; [done|]. split; [|split; [|split; [|split]]].
    + unfold mbind at 1, p_bind at 1. rewrite Hfetch. done.
    + by rewrite app_nil_r.
    + done.
    + rewrite Hce. cbn [length]. lia.
    + right. exists i, l. split; [done|]. split; [by rewrite Hce|]. cbn [length]. rewrite Nat.add_0_r, app_nil_r. split; [|split; [done|]].
      * destruct ((counted (connections s) - 10 <=? i)%nat && (i <? counted (connections s))%nat) eqn:Hw.
        { exfalso. apply lookup_ge_None in Hseg. lia. }
        pose proof (counted_mono (S n) (connections s - S n)) as Hm. replace (S n + (connections s - S n))%nat with (connections s) in Hm by lia.
        pose proof (server_order Hserver n). apply andb_false_iff in Hw. pose proof (counted_bound (connections s)).
        rewrite Nat.leb_gt, Nat.ltb_ge in Hw. lia.
      * exists (hls_demuxer st). rewrite He, app_nil_r. done.
Qed.

(** ** Order *)

(** The segments fed so far: in order, below [hi], complete from [lo] on. *)
Record ordered (fed : list nat) (hi lo : nat) : Prop := {
  ordered_sorted : StronglySorted lt fed;
  ordered_below : Forall (fun i => (i < hi)%nat) fed;
  ordered_complete : forall i, (lo <= i < hi)%nat -> i ∈ fed
}.

Lemma sorted_snoc l i : StronglySorted lt l -> Forall (fun j => (j < i)%nat) l -> StronglySorted lt (l ++ [i]).
Proof.
  induction 1 as [|x l Hs IH Hx]; intros Hl; [by repeat constructor|]. apply Forall_cons in Hl as [Hxi Hl]. cbn [List.app]. constructor; [by apply IH|].
  apply Forall_app. split; [done|]. by apply Forall_singleton.
Qed.

Lemma sorted_length l n k : StronglySorted lt l -> Forall (fun j => (k <= j < n)%nat) l -> (length l <= n - k)%nat.
Proof.
  intros Hs. revert k. induction Hs as [|x l Hs IH Hx]; intros k Hl; [cbn; lia|]. apply Forall_cons in Hl as [Hxk Hl]. cbn [length].
  specialize (IH (S x)). rewrite Forall_forall in Hx, Hl. assert (length l <= n - S x)%nat; [|lia].
  apply IH. rewrite Forall_forall. intros j Hj. specialize (Hx j Hj). specialize (Hl j Hj). lia.
Qed.

Lemma ordered_gap fed hi lo i : ordered fed hi lo -> (i < hi)%nat -> i ∈ fed \/ (i < lo)%nat.
Proof. intros Ho Hi. destruct (decide (i < lo)%nat); [by right|left]. apply (ordered_complete _ _ _ Ho). lia. Qed.

Lemma ordered_take fed hi lo i : ordered fed hi lo -> (lo <= i)%nat ->
  ordered (if bool_decide (i ∈ fed) then fed else fed ++ [i]) (Nat.max hi (S i)) i.
Proof.
  intros [H1 H2 H3] Hi. case_bool_decide as Hin.
  - assert (i < hi)%nat by (rewrite Forall_forall in H2; by apply H2). constructor; [done| |].
    + eapply Forall_impl; [exact H2|]. cbn. lia.
    + intros j Hj. apply H3. lia.
  - assert (hi <= i)%nat as Hhb by (destruct (decide (hi <= i)%nat); [done|]; exfalso; apply Hin, H3; lia). constructor.
    + apply sorted_snoc; [done|]. eapply Forall_impl; [exact H2|]. cbn. lia.
    + apply Forall_app. split; [eapply Forall_impl; [exact H2|cbn; lia]|]. apply Forall_singleton. lia.
    + intros j Hj. apply elem_of_app. right. apply list_elem_of_singleton. lia.
Qed.

Lemma take_new_window fed hi lo b k :
  ordered fed hi lo -> (lo <= b)%nat ->
  ordered (take_new fed (seq b k)) (Nat.max hi (b + k)) b \/ k = 0%nat /\ take_new fed (seq b k) = fed.
Proof.
  intros Ho Hlo. destruct k as [|k]; [by right|]. left. induction k as [|k IH].
  - unfold take_new. cbn [seq foldl]. rewrite Nat.add_1_r. by eapply ordered_take.
  - rewrite seq_S. unfold take_new in *. rewrite foldl_app. cbn [foldl]. set (fed' := foldl _ fed (seq b (S k))) in *. clearbody fed'.
    assert (b <= b + S k)%nat as Hb by lia. pose proof (ordered_take _ _ _ _ IH Hb) as Hs. destruct Hs as [H1 H2 _]. constructor; [done| |].
    + eapply Forall_impl; [exact H2|]. cbn. lia.
    + intros i Hi. destruct (decide (i = b + S k)%nat) as [->|].
      * case_bool_decide; [done|]. apply elem_of_app. right. by apply list_elem_of_singleton.
      * assert (i ∈ fed') by (apply (ordered_complete _ _ _ IH); lia). case_bool_decide; [done|]. apply elem_of_app. by left.
Qed.

(** ** The loop *)

(** The answer holds the playlist of connection [n], unread. *)
Definition playlist_at (resp : HttpResponse) (n : nat) : Prop :=
  res_url resp = u /\ res_headers resp !! str "content-type" = Some (str "application/vnd.apple.mpegurl") /\
  read_to_end MAX_PLAYLIST_SIZE (res_body resp) =
    Ok (live_playlist (latest 10 (take (counted n) all)) (latest 10 (take (listed n) all)) app stream).

Lemma get_playlist url s : parse_url url = Ok u ->
  exists resp, playlist_at resp (connections s) /\ open_response connect url None s =
    ([Connected u (http_request u None)], {| connections := S (connections s); source_tracks := source_tracks s |}, Ok resp).
Proof.
  intros Hu. destruct (server_playlist Hserver (connections s)) as (Hlen & st & Hc & Hd). cbv zeta in *.
  set (text := live_playlist _ _ _ _) in *.
  destruct (sized_answer "application/vnd.apple.mpegurl" "no-cache" u st text MAX_PLAYLIST_SIZE PlaylistKind Hd Hlen) as (resp & Hr & Hru & Hct & Hread).
  { unfold MAX_PLAYLIST_SIZE in Hlen. lia. }
  exists resp. split; [by split_and!|]. by apply (open_ok connect url u st resp s None Hu Hc).
Qed.

Lemma playlist_lists resp n : playlist_at resp n ->
  exists text ps q, read_to_end MAX_PLAYLIST_SIZE (res_body resp) = Ok text /\ playlist_entries text = Ok ps /\
    variant ps = None /\ end_list ps = false /\ init_map ps = None /\
    segments ps = entries_from q ((fun i => segment_uri app stream (Z.of_nat i)) <$> (if (counted n =? 0)%nat then [] else window (listed n))).
Proof.
  intros (_ & _ & Hread). destruct (server_names Hserver) as [Ha Hs]. pose proof (server_segments Hserver) as Hok. pose proof (server_numbered Hserver) as Hnum.
  pose proof (server_order Hserver n). pose proof (server_few Hserver) as Hfew.
  assert (forall k, Forall segment_ok (latest 10 (take k all))) as Hsub by (intros k; by apply Forall_drop, Forall_take).
  eexists _, _, (match latest 10 (take (counted n) all) with [] => 0 | first :: _ => index first end). split; [exact Hread|]. split.
  - apply live_playlist_read; [done..|]. unfold latest. rewrite length_drop, length_take. lia.
  - split_and!; [done..|]. cbn [segments]. destruct (Nat.eqb_spec (counted n) 0) as [Hz|Hz].
    + by rewrite Hz.
    + destruct (latest 10 (take (counted n) all)) as [|first rest] eqn:Hl.
      * apply (f_equal length) in Hl. unfold latest in Hl. rewrite length_drop, length_take in Hl. cbn [length] in Hl. lia.
      * f_equal. apply latest_uris; [done|lia].
Qed.

(** The turns of the loop that are taken, and whether it is left. *)
Fixpoint turns_taken (turns : list Turn) : nat :=
  match turns with
  | [] => 0
  | t :: turns => if is_stopped t then 0 else if notified t then 1 else S (turns_taken turns)
  end.

Definition leaves (turns : list Turn) : bool := existsb (fun t => is_stopped t || notified t) turns.

(** Where the next playlist comes from: read on connection [n]. *)
Definition next_playlist (st : HlsState) (s : PullState) (n : nat) : Prop :=
  match next_response st with
  | None => parse_url (playlist_url st) = Ok u /\ n = connections s
  | Some resp => playlist_at resp n /\ S n = connections s
  end.

(** The playlist that was asked for before. *)
Definition asked_before (st : HlsState) : list HttpUrl := match next_response st with None => [] | Some _ => [u] end.

(** A round whose playlist was answered on connection [n], the segments
    [before] having been fetched in earlier rounds: what it asks for is listed,
    and is missed only when it is not listed any more.  [whole] when the round
    was not cut by an error. *)
Record round_ok (n : nat) (before l : list nat) (whole : Prop) : Prop := {
  round_listed : Forall (fun i => i ∈ window (listed n)) l;
  round_ordered : forall i j, j ∈ l -> (i < j)%nat -> i ∈ before ++ l \/ (i + 10 < listed n)%nat;
  round_whole : whole -> forall i, (i < counted n)%nat -> i ∈ before ++ l \/ (i + 10 < listed n)%nat
}.

(** The pull failed: the last segment asked for was not kept any more when it
    was asked for. *)
Definition dropped (n : nat) (rounds : list (list nat)) (fed : list nat) : Prop :=
  exists rs l i, rounds = rs ++ [l ++ [i]] /\ fed = concat rs ++ l /\ (i + 10 < counted (n + length (script rs) + S (length l)))%nat.

(** The rounds from connection [n] on, what has been published in the end. *)
Record relay_result (n : nat) (fed : list nat) (rounds : list (list nat)) (new : list nat) (got : list MediaFrame) (turns : list Turn) (r : result bool) : Prop := {
  relay_order : exists hi lo, ordered (fed ++ new) hi lo /\ (hi <= length all)%nat;
  relay_rounds : forall p l, rounds !! p = Some l ->
    round_ok (n + length (script (take p rounds))) (fed ++ concat (take p rounds)) l
      ((p < turns_taken turns)%nat /\ ((S p < length rounds)%nat \/ exists b, r = Ok b));
  relay_outcome :
    r = Ok (leaves turns) /\ new = concat rounds /\
    (if leaves turns then videos got = videos (hls_published <$> frames_of groups (fed ++ new)) /\ audios got = audios (hls_published <$> frames_of groups (fed ++ new))
     else exists d, relayed groups (fed ++ new) got d) \/
    r = Err status_error /\ dropped n rounds new /\ exists d, relayed groups (fed ++ new) got d
}.

Lemma get_response st s n : next_playlist st s n ->
  exists resp es s', playlist_at resp n /\ connections s' = S n /\ published es = [] /\ asked_before st ++ connects es = [u] /\
    (match next_response st with Some response => mret response | None => open_response connect (playlist_url st) None end) s = (es, s', Ok resp).
Proof.
  unfold next_playlist, asked_before. destruct (next_response st) as [resp|].
  - intros [Hp Hn]. by exists resp, [], s.
  - intros [Hu ->]. destruct (get_playlist _ s Hu) as (resp & Hp & Ho).
    eexists resp, _, _. split; [exact Hp|]. split; [|split; [|split; [|exact Ho]]]; done.
Qed.

Lemma prefix_seq l1 : forall b k l2, seq b k = l1 ++ l2 -> l1 = seq b (length l1) /\ (length l1 <= k)%nat /\ (l2 = [] -> length l1 = k).
Proof.
  induction l1 as [|x l1 IH]; intros b k l2 Heq.
  { split_and!; [done|cbn; lia|]. intros ->. by destruct k. }
  destruct k as [|k]; [done|]. cbn [seq List.app] in Heq. injection Heq as <- Heq. destruct (IH _ _ _ Heq) as (Hl & Hk & He). split_and!.
  - cbn [length seq]. by f_equal.
  - cbn. lia.
  - intros Hl2. cbn. by rewrite He.
Qed.

Lemma ordered_window fed hi lo n l1 l2 :
  ordered fed hi lo -> (lo <= listed n - 10)%nat -> (hi <= length all)%nat ->
  (if (counted n =? 0)%nat then [] else window (listed n)) = l1 ++ l2 ->
  exists hi' lo', ordered (take_new fed l1) hi' lo' /\ (lo' <= listed n - 10)%nat /\ (hi' <= length all)%nat /\ (l2 = [] -> (counted n <= hi')%nat) /\
    Forall (fun i => i ∈ window (listed n)) (l1 ++ l2) /\ (forall x l3, l2 = x :: l3 -> (x <= Nat.max hi' (listed n - 10))%nat).
Proof.
  intros Ho Hlo Hhi Hw. pose proof (server_order Hserver n). destruct (Nat.eqb_spec (counted n) 0) as [Hz|Hz].
  { symmetry in Hw. apply app_nil in Hw as [-> ->]. exists hi, lo. split_and!; try done; lia. }
  rewrite <-Hw. assert (Forall (fun i => i ∈ window (listed n)) (window (listed n))) as Hin by by apply Forall_forall.
  destruct (prefix_seq _ _ _ _ Hw) as (Hl1 & Hk & Hfull).
  assert (forall x l3, l2 = x :: l3 -> x = listed n - 10 + length l1)%nat as Hx.
  { intros x l3 ->. assert (window (listed n) !! length l1 = Some x) as Hlk by by rewrite Hw, list_lookup_middle.
    unfold window in Hlk. apply lookup_seq in Hlk as [? _]. lia. }
  rewrite Hl1. destruct (take_new_window fed hi lo (listed n - 10) (length l1) Ho Hlo) as [Ho'|[Hk0 ->]].
  - eexists _, _. split; [exact Ho'|]. split_and!; try lia; try done; try (intros Hn; specialize (Hfull Hn); lia). intros x l3 Hl2. specialize (Hx x l3 Hl2). lia.
  - exists hi, lo. split_and!; try done; try lia; try (intros Hn; specialize (Hfull Hn); lia). intros x l3 Hl2. specialize (Hx x l3 Hl2). lia.
Qed.

(** What a window leaves out. *)
Lemma round_window n fed l1 l2 new tail hi lo (whole : Prop) :
  Forall (fun i => i ∈ window (listed n)) (l1 ++ l2) -> Forall (fun i => i ∈ l1) new -> ordered (fed ++ new) hi lo -> (lo <= listed n - 10)%nat ->
  (forall x l3, l2 = x :: l3 -> (x <= Nat.max hi (listed n - 10))%nat) ->
  (tail = [] \/ exists x l3, l2 = x :: l3 /\ tail = [x]) -> (whole -> (counted n <= hi)%nat) ->
  round_ok n fed (new ++ tail) whole.
Proof.
  intros Hw Hnew Ho Hlo Hx Htail Hwhole. apply Forall_app in Hw as [Hw1 Hw2]. rewrite Forall_forall in Hw1, Hnew.
  assert (forall i, (i < hi)%nat -> i ∈ fed ++ new ++ tail \/ (i + 10 < listed n)%nat) as Hgap.
  { intros i Hi. destruct (ordered_gap _ _ _ i Ho Hi); [left|right; lia]. rewrite app_assoc. apply elem_of_app. by left. }
  constructor.
  - apply Forall_app. split; [apply Forall_forall; intros i Hi; apply Hw1; by apply Hnew|].
    destruct Htail as [->|(x & l3 & -> & ->)]; [by apply Forall_nil_2|]. apply Forall_cons in Hw2 as [Hw2 _]. by apply Forall_singleton.
  - intros i j [Hj|Hj]%elem_of_app Hij.
    + apply Hgap. pose proof (ordered_below _ _ _ Ho) as Hb. rewrite Forall_forall in Hb. assert (j < hi)%nat; [|lia]. apply Hb, elem_of_app. by right.
    + destruct Htail as [->|(x & l3 & Hl2 & ->)]; [by apply not_elem_of_nil in Hj|]. apply list_elem_of_singleton in Hj as ->. specialize (Hx x l3 Hl2).
      destruct (decide (i < hi)%nat) as [|]; [by apply Hgap|right; lia].
  - intros Hwh i Hi. apply Hgap. specialize (Hwhole Hwh). lia.
Qed.

(** One turn of the loop.  After it the client waits for the next playlist. *)
Lemma turn_live t turns st s n fed got hi lo :
  next_playlist st s n -> live_state st fed got -> ordered fed hi lo -> (lo <= listed n - 10)%nat -> (hi <= length all)%nat ->
  is_stopped t = false ->
  exists new hi' lo' es s', ordered (fed ++ new) hi' lo' /\ (lo' <= listed n - 10)%nat /\ (hi' <= length all)%nat /\
    ((exists st', live_state st' (fed ++ new) (got ++ published es) /\ next_playlist st' s' (connections s') /\ next_response st' = None /\
        connections s' = (n + S (length new))%nat /\ asked_before st ++ connects es = target u app stream <$> script [new] /\
        (forall whole, round_ok n fed new whole) /\
        forall r, (if notified t then ts_end (hls_demuxer st') else pull_hls connect turns st') s' = r ->
          pull_hls connect (t :: turns) st s = (es ++ r.1.1, r.1.2, r.2)) \/
     (exists i, (i + 10 < counted (n + S (length new)))%nat /\ asked_before st ++ connects es = target u app stream <$> script [new ++ [i]] /\
       (forall whole : Prop, ~ whole -> round_ok n fed (new ++ [i]) whole) /\
       (exists d, relayed groups (fed ++ new) (got ++ published es) d) /\ pull_hls connect (t :: turns) st s = (es, s', Err status_error))).
Proof.
  intros Hnext Hst Ho Hlo Hhi Ht. destruct (get_response st s n Hnext) as (resp & es0 & s0 & Hresp & Hn0 & Hes0 & Hce0 & Hget).
  destruct (playlist_lists resp n Hresp) as (text & ps & q & Hread & Hps & Hvar & Hend & Hmap & Hseg).
  pose proof (server_order Hserver n) as Hord. destruct Hst as (Hseen & Hfmp4 & Hrel).
  destruct (pull_segments_live (if (counted n =? 0)%nat then [] else window (listed n)) (at_playlist st (as_url u) None) s0 q fed got n)
    as (l1 & l2 & new & es1 & s1 & r & Hl & Hpull & Hnew & Hsub & Hc1 & Hcase).
  - destruct (counted n =? 0)%nat; [apply Forall_nil_2|]. rewrite Forall_forall. unfold window. intros i [? ?]%elem_of_seq. lia.
  - lia.
  - eapply Forall_impl; [exact (ordered_below _ _ _ Ho)|]. cbn. intros i Hi. lia.
  - by split_and!.
  - destruct (ordered_window fed hi lo n l1 l2 Ho Hlo Hhi Hl) as (hi' & lo' & Ho' & Hlo' & Hhi' & Hfull & Hwin & Hx). rewrite Hnew in Ho'.
    exists new, hi', lo', (es0 ++ es1), s1. split; [done|]. split; [done|]. split; [done|].
    rewrite pull_published_app, connects_app, Hes0, (app_assoc (asked_before st)), Hce0. cbn [List.app]. pose proof Hresp as (Hru & _ & _).
    assert (forall (k : HlsState -> P bool) s, (load_map connect (at_playlist st (as_url u) None) u None ≫= k) s = k (at_playlist st (as_url u) None) s) as Hload by (intros k s2; cbn [load_map]; unfold mbind, p_bind, mret, p_ret; by destruct (k _ s2) as [[? ?] ?]).
    destruct Hcase as [(-> & Hce & st' & -> & Hst' & Hurl & Hnr)|(i & l3 & -> & Hce & Hi & -> & d & Hd)].
    + left. exists st'. split; [done|]. split; [unfold next_playlist; rewrite Hnr, Hurl; cbn [next_response playlist_url at_playlist]|].
      { split; [|done]. destruct (server_url Hserver) as (dp & p & Hv). pose proof Hv as (_ & _ & _ & _ & Hp). unfold as_url. rewrite Hp.
        rewrite parse_url_of by by exists dp, p. rewrite <-Hp. by destruct u. }
      split; [by rewrite Hnr|]. split; [rewrite Hc1, Hn0, Hce, !length_fmap; lia|].
      split; [rewrite Hce; unfold script; cbn [fmap list_fmap concat List.app]; by rewrite app_nil_r|].
      split; [intros whole; rewrite <-(app_nil_r new); apply (round_window n fed l1 [] new [] hi' lo'); try done; [by left|auto]|].
      intros r <-. cbn [pull_hls]. rewrite Ht.
      erewrite p_step by exact Hget. cbv zeta. rewrite Hru, Hread, p_lift, Hps, p_lift, Hvar, Hmap, Hload, Hseg.
      erewrite p_step by exact Hpull. rewrite Hend. cbn [fst snd].
      destruct Hst' as (Hseen' & _). rewrite (proj2 (Nat.ltb_ge 4096 (length (seen st')))).
      * rewrite <-app_assoc. by destruct (notified t).
      * rewrite Hseen'. unfold seen_of. rewrite length_fmap. pose proof (server_few Hserver).
        pose proof (sorted_length (fed ++ new) hi' 0 (ordered_sorted _ _ _ Ho')) as Hsl.
        assert (length (fed ++ new) <= hi' - 0)%nat; [|lia]. apply Hsl. eapply Forall_impl; [exact (ordered_below _ _ _ Ho')|]. cbn. lia.
    + right. exists i. split; [by replace (n + S (length new))%nat with (connections s0 + length new)%nat by lia|].
      split; [rewrite Hce; unfold script; cbn [fmap list_fmap concat List.app]; by rewrite app_nil_r|].
      split; [intros whole Hno; apply (round_window n fed l1 (i :: l3) new [i] hi' lo'); try done; right; by exists i, l3|].
      split; [by exists d|]. cbn [pull_hls]. rewrite Ht.
      erewrite p_step by exact Hget. cbv zeta. rewrite Hru, Hread, p_lift, Hps, p_lift, Hvar, Hmap, Hload, Hseg.
      unfold mbind at 1 2 3, p_bind. rewrite Hpull. done.
Qed.

(** Leaving publishes what is held. *)
Lemma leave_live st fed got s : live_state st fed got ->
  exists es, ts_end (hls_demuxer st) s = (es, s, Ok true) /\ connects es = [] /\
    videos (got ++ published es) = videos (hls_published <$> frames_of groups fed) /\
    audios (got ++ published es) = audios (hls_published <$> frames_of groups fed).
Proof.
  intros (_ & _ & Hrel). exists (Published <$> (ts_flush (hls_demuxer st)).2). rewrite published_frames. split; [|split; [apply connects_published|]].
  - unfold ts_end. erewrite p_step by apply each_publish. by rewrite app_nil_r.
  - by apply relayed_flush.
Qed.

(** No playlist was read. *)
Lemma relay_idle st n fed got turns hi lo :
  ordered fed hi lo -> (hi <= length all)%nat ->
  (if leaves turns then videos got = videos (hls_published <$> frames_of groups fed) /\ audios got = audios (hls_published <$> frames_of groups fed)
   else exists d, relayed groups fed got d) -> turns_taken turns = 0%nat ->
  exists rounds, asked_before st = target u app stream <$> script rounds /\ length rounds = length (asked_before st) /\
    relay_result n fed rounds [] got turns (Ok (leaves turns)).
Proof.
  intros Ho Hhi Hp Ht. exists (match next_response st with None => [] | Some _ => [[]] end). unfold asked_before. rewrite <-(app_nil_r fed) in Ho, Hp.
  split; [by destruct (next_response st)|]. split; [by destruct (next_response st)|]. constructor; [by exists hi, lo| |].
  - intros p l. destruct (next_response st); [|done]. destruct p as [|p]; [|done]. intros [= <-]. rewrite Ht. constructor; [done| |].
    + intros i j Hj. by apply not_elem_of_nil in Hj.
    + intros [Hno _]. lia.
  - left. split; [done|]. split; [by destruct (next_response st)|done].
Qed.

(** One round more. *)
Lemma relay_cons n fed new0 rounds new got t turns r :
  is_stopped t = false -> notified t = false -> (forall whole, round_ok n fed new0 whole) ->
  relay_result (n + S (length new0)) (fed ++ new0) rounds new got turns r ->
  relay_result n fed (new0 :: rounds) (new0 ++ new) got (t :: turns) r.
Proof.
  intros Hs Hn Hround [Ho Hrs Hout]. assert (leaves (t :: turns) = leaves turns) as Hl by (unfold leaves; cbn [existsb]; by rewrite Hs, Hn).
  rewrite <-app_assoc in Ho, Hout. constructor; [done| |].
  - intros [|p] l Hp.
    + cbn [lookup list_lookup] in Hp. injection Hp as <-. unfold script. cbn [take fmap list_fmap concat length]. rewrite Nat.add_0_r, app_nil_r. apply Hround.
    + change (rounds !! p = Some l) in Hp. specialize (Hrs p l Hp). cbn [take concat]. rewrite script_cons. cbn [length]. rewrite length_app, length_fmap.
      rewrite <-app_assoc in Hrs. replace (n + S (length new0 + length (script (take p rounds))))%nat with (n + S (length new0) + length (script (take p rounds)))%nat by lia.
      cbn [turns_taken length]. rewrite Hs, Hn. destruct Hrs as [H1 H2 H3]. constructor; [done..|]. intros [Ht Hw]. apply H3. split; [lia|]. destruct Hw; [left; lia|by right].
  - rewrite Hl. destruct Hout as [(-> & -> & Hp)|(-> & (rs & l & i & -> & -> & Hi) & Hd)]; [by left|right]. split; [done|]. split; [|done].
    exists (new0 :: rs), l, i. split; [done|]. cbn [concat]. split; [by rewrite <-app_assoc|]. rewrite script_cons. cbn [length]. rewrite length_app, length_fmap.
    replace (n + S (length new0 + length (script rs)) + S (length l))%nat with (n + S (length new0) + length (script rs) + S (length l))%nat by lia. done.
Qed.

Lemma pull_hls_live turns : forall st s n fed got hi lo,
  next_playlist st s n -> live_state st fed got -> ordered fed hi lo -> (lo <= listed n - 10)%nat -> (hi <= length all)%nat ->
  exists rounds new es s' r, pull_hls connect turns st s = (es, s', r) /\ asked_before st ++ connects es = target u app stream <$> script rounds /\
    relay_result n fed rounds new (got ++ published es) turns r /\
    (length rounds <= Nat.max (length (asked_before st)) (turns_taken turns))%nat /\
    (forall b, r = Ok b -> length rounds = Nat.max (length (asked_before st)) (turns_taken turns)).
Proof.
  induction turns as [|t turns IH]; intros st s n fed got hi lo Hnext Hst Ho Hlo Hhi.
  { destruct (relay_idle st n fed got [] hi lo Ho Hhi) as (rounds & Hask & Hlen & Hres); [destruct Hst as (_ & _ & Hrel); by exists (hls_demuxer st)|done|].
    exists rounds, [], [], s, (Ok false). rewrite !app_nil_r. cbn [turns_taken]. split_and!; [done..|lia|intros; lia]. }
  assert (length (asked_before st) <= 1)%nat as Hone by (unfold asked_before; destruct (next_response st); cbn; lia).
  destruct (is_stopped t) eqn:Ht.
  { destruct (leave_live st fed got s Hst) as (es & He & Hce & Hva).
    assert (leaves (t :: turns) = true) as Hl by (unfold leaves; cbn [existsb]; by rewrite Ht).
    destruct (relay_idle st n fed (got ++ published es) (t :: turns) hi lo Ho Hhi) as (rounds & Hask & Hlen & Hres); [by rewrite Hl|cbn [turns_taken]; by rewrite Ht|].
    rewrite Hl in Hres. exists rounds, [], es, s, (Ok true). cbn [pull_hls turns_taken]. rewrite Ht, Hce, app_nil_r. split_and!; [done..|lia|intros; lia]. }
  destruct (turn_live t turns st s n fed got hi lo Hnext Hst Ho Hlo Hhi Ht)
    as (new0 & hi1 & lo1 & es & s1 & Ho1 & Hlo1 & Hhi1 & [(st1 & Hst1 & Hnext1 & Hnr1 & Hn1 & Hask & Hround & Hrun)|(i & Hi & Hask & Hround & Hrel & Hrun)]).
  - destruct (notified t) eqn:Hnt.
    + destruct (leave_live st1 (fed ++ new0) (got ++ published es) s1 Hst1) as (es1 & He & Hce & Hva).
      exists [new0], new0, (es ++ es1), s1, (Ok true). rewrite (Hrun _ He). split; [done|]. rewrite connects_app, Hce, app_nil_r. split; [done|].
      cbn [turns_taken length]. rewrite Ht, Hnt. split; [|split; [lia|intros; lia]]. constructor; [by exists hi1, lo1| |].
      * intros [|p] l; [|done]. intros [= <-]. unfold script. cbn [take fmap list_fmap concat length]. rewrite Nat.add_0_r, app_nil_r. apply Hround.
      * left. unfold leaves. cbn [existsb concat]. rewrite Ht, Hnt, app_nil_r. cbn [orb]. rewrite pull_published_app, app_assoc. done.
    + assert (lo1 <= listed (connections s1) - 10)%nat as Hlo2.
      { pose proof (server_order Hserver n). pose proof (server_order Hserver (connections s1)). pose proof (counted_mono (S n) (connections s1 - S n)) as Hm.
        replace (S n + (connections s1 - S n))%nat with (connections s1) in Hm by lia. lia. }
      destruct (IH st1 s1 (connections s1) (fed ++ new0) (got ++ published es) hi1 lo1 Hnext1 Hst1 Ho1 Hlo2 Hhi1) as (rounds & new & es2 & s2 & r & Hr & Hask2 & Hres & Hle & Hlen).
      exists (new0 :: rounds), (new0 ++ new), (es ++ es2), s2, r. rewrite (Hrun _ Hr). split; [done|].
      unfold asked_before in Hask2, Hle, Hlen. rewrite Hnr1 in Hask2, Hle, Hlen. cbn [List.app length turns_taken] in *. rewrite Ht, Hnt.
      split; [rewrite connects_app, app_assoc, Hask, Hask2, <-fmap_app, script_split; done|].
      split; [|split; [lia|intros b Hb; specialize (Hlen b Hb); lia]].
      rewrite pull_published_app, app_assoc. rewrite Hn1 in Hres. by apply relay_cons.
  - exists [new0 ++ [i]], new0, es, s1, (Err status_error). split; [done|]. split; [done|]. cbn [turns_taken length]. split; [|split; [destruct (is_stopped t), (notified t); lia || done|done]].
    constructor; [by exists hi1, lo1| |].
    + intros [|p] l; [|done]. intros [= <-]. unfold script. cbn [take fmap list_fmap concat length]. rewrite Nat.add_0_r, app_nil_r. apply Hround.
      intros [_ [Hno|[b Hno]]]; [lia|done].
    + right. split; [done|]. split; [|done]. exists [], new0, i. split; [done|]. split; [done|]. unfold script. cbn [fmap list_fmap concat length]. by rewrite Nat.add_0_r.
Qed.

(** From the address of the playlist. *)
Lemma start_live turns url vhost a name s : parse_url url = Ok u ->
  exists rounds fed es s' r, start_pull connect turns url vhost a name s = (es, s', r) /\ connects es = target u app stream <$> script rounds /\
    relay_result (connections s) [] rounds fed (published es) turns r /\
    (length rounds <= Nat.max 1 (turns_taken turns))%nat /\ (forall b, r = Ok b -> length rounds = Nat.max 1 (turns_taken turns)).
Proof.
  intros Hu. destruct (get_playlist url s Hu) as (resp & Hp & Ho).
  destruct (pull_hls_live turns (HttpPull.hls_new url resp) {| connections := S (connections s); source_tracks := source_tracks s |} (connections s) [] [] 0 0)
    as (rounds & fed & es & s' & r & Hr & Hask & Hres & Hle & Hlen).
  - split; [done|]. done.
  - split; [done|]. split; [done|]. apply relayed_new.
  - constructor; [constructor|constructor|lia].
  - lia.
  - lia.
  - exists rounds, fed, ([Connected u (http_request u None)] ++ [Opened vhost a name] ++ es), s', r. split; [|split; [|split; [|split]]].
    + unfold start_pull. erewrite p_step by exact Ho.
      assert (path_ends resp ".m3u8" || says resp "mpegurl" = true) as ->.
      { apply orb_true_iff. right. destruct Hp as (_ & Hct & _). unfold says, content_type_of. rewrite Hct. vm_compute. reflexivity. }
      erewrite p_step by reflexivity. by rewrite Hr.
    + exact Hask.
    + rewrite !pull_published_app. exact Hres.
    + exact Hle.
    + exact Hlen.
Qed.
End Pull.

(** ** From the source to the pulling server *)

(** [start_hls_task] as the sessions call it. *)
Definition session_muxer : HlsMuxer := with_max_segments (Hls.hls_new 0x4010000000000000) 10.

(** The segments kept once the task has seen [k] events, and how many it had
    finished. *)
Definition kept (events : list Received) (k : nat) : list HlsSegment :=
  match hls_task session_muxer [] (take k events) with Ok (_, segs, _) => segs | _ => [] end.
Definition finished (events : list Received) (k : nat) : nat :=
  match all_segments session_muxer (frames_received (take k events)) with Ok (_, l) => length l | _ => 0%nat end.

Lemma frames_received_app l k : frames_received (l ++ k) = frames_received l ++ frames_received k.
Proof. apply omap_app. Qed.

Lemma finished_prefix events m all k : all_segments session_muxer (frames_received events) = Ok (m, all) ->
  exists m', all_segments session_muxer (frames_received (take k events)) = Ok (m', take (finished events k) all) /\
    (finished events k <= length all)%nat.
Proof.
  intros Ha. unfold finished. rewrite <-(take_drop k events), frames_received_app, all_segments_app in Ha.
  destruct (all_segments session_muxer (frames_received (take k events))) as [[m1 l]| | |]; [|done..]. cbn [mbind outcome_bind] in Ha.
  destruct (all_segments m1 _) as [[m2 l2]| | |]; [|done..]. cbn [mbind outcome_bind] in Ha. injection Ha as <- <-.
  exists m1. rewrite take_app_length, length_app. split; [done|lia].
Qed.

Lemma finished_mono events m all k k' : all_segments session_muxer (frames_received events) = Ok (m, all) -> (k <= k')%nat ->
  (finished events k <= finished events k')%nat.
Proof.
  intros Ha Hk. destruct (finished_prefix events m all k' Ha) as (m' & Ha' & _).
  destruct (finished_prefix (take k' events) m' _ k Ha') as (m2 & Ha2 & Hl). rewrite length_take in Hl. unfold finished at 1 in Hl.
  rewrite take_take, Nat.min_l in Hl by done. fold (finished events k) in Hl. lia.
Qed.

Lemma kept_latest events m all k : GotClosed ∉ events -> all_segments session_muxer (frames_received events) = Ok (m, all) ->
  kept events k = latest 10 (take (finished events k) all).
Proof.
  intros Hc Ha. destruct (finished_prefix events m all k Ha) as (m' & Ha' & _). unfold kept.
  assert (GotClosed ∉ take k events) as Hk.
  { intros Hin. apply Hc. apply elem_of_take in Hin as (i & Hi & _). by apply list_elem_of_lookup_2 in Hi. }
  pose proof (hls_task_latest (take k events) session_muxer [] m' _ Hk Ha') as Ht.
  change (latest (max_segments session_muxer) []) with (@nil HlsSegment) in Ht. by rewrite Ht.
Qed.

(** Every segment is announced with the target duration. *)
Lemma all_segments_duration frames : forall m m' l, all_segments m frames = Ok (m', l) -> Forall (fun s => seg_duration s = target_duration m) l.
Proof.
  induction frames as [|f frames IH]; intros m m' l Ha; cbn [all_segments] in Ha; [by injection Ha as <- <-|].
  pose proof (push_settings m f) as Hset. destruct (hls_push m f) as [[m1 fin]| | |]; [|done..]. specialize (Hset _ eq_refl).
  cbn [mbind outcome_bind fst] in *. destruct (all_segments m1 frames) as [[m2 rest]| | |] eqn:Hr; [|done..]. cbn [mbind outcome_bind] in Ha.
  apply IH in Hr. injection Hset as Ht _. rewrite Ht in Hr. destruct fin as [[i b]|]; injection Ha as <- <-; [by constructor|done].
Qed.

Lemma numbered_seq all : Forall2 (fun i s => index s = Z.of_nat i) (seq 0 (length all)) all -> numbered all 0.
Proof.
  intros Hn j s Hj. destruct (Forall2_lookup_r _ _ _ _ _ Hn Hj) as (i & Hi & ->). by apply lookup_seq in Hi as [-> _].
Qed.

(** The playlists are small. *)
Lemma extinf_length d : 0 <= thousandths d -> (length (extinf d) <= 40)%nat.
Proof.
  intros Hd. unfold extinf, fixed3. rewrite !length_app. pose proof (dec_length (thousandths d / 1000)). cbn. lia.
Qed.

Lemma uri_length app stream i : (length (segment_uri app stream i) <= 30 + length app + length stream)%nat.
Proof. unfold segment_uri. rewrite !length_app. pose proof (dec_length i). cbn [length str]. cbn -[dec]. lia. Qed.

Lemma live_playlist_length counted listed app stream :
  Forall segment_ok counted -> Forall segment_ok listed -> (length listed <= 10)%nat -> zlen app + zlen stream <= 65536 ->
  zlen (live_playlist counted listed app stream) <= MAX_PLAYLIST_SIZE.
Proof.
  intros Hc Hl Hn Hlen. unfold zlen in *. set (bound := (80 + length app + length stream)%nat).
  assert (length (concat ((fun s => extinf (seg_duration s) ++ segment_uri app stream (index s) ++ LF) <$> listed)) <= length listed * bound)%nat as Hcat.
  { clear Hn. induction Hl as [|s l [_ Hd] _ IH]; [done|]. rewrite fmap_cons. cbn [concat]. rewrite !length_app. cbn [length Nat.mul].
    pose proof (extinf_length (seg_duration s) Hd). pose proof (uri_length app stream (index s)). change (length LF) with 1%nat.
    unfold bound in *. lia. }
  assert (length listed * bound <= 10 * bound)%nat by nia. unfold MAX_PLAYLIST_SIZE, live_playlist.
  destruct counted as [|first counted]; rewrite !length_app; [cbn; lia|]. pose proof (dec_length (index first)).
  assert (length (str "#EXTM3U") + length LF + (length (str "#EXT-X-VERSION:3") + length LF) + (length (str "#EXT-X-TARGETDURATION:4") + length LF) +
    (length (str "#EXT-X-MEDIA-SEQUENCE:") + length LF) <= 100)%nat by (vm_compute; lia). unfold bound in *. lia.
Qed.

Section Relay.
Context `{AuthPrimitives}.
Variables (w : World) (a : StreamAuth) (get_source : bytes -> bytes -> bool).
Variables (app stream : bytes) (u : HttpUrl) (events : list Received) (all : list HlsSegment).

(** A serving session per connection, in front of one HLS task: at its [n]-th
    connection the client meets a session that finds the queue of segments as
    the task left it after [at_count n] events, and, when it lists them, after
    [at_list n] events. *)
Record served_by_sessions (connect : nat -> HttpUrl -> bytes -> option AsyncStream) (at_count at_list : nat -> nat) : Prop := {
  sessions_order : forall n, (at_count n <= at_list n <= at_count (S n))%nat;
  sessions_playlist : forall n, exists st, connect n u (http_request u None) = Some st /\
    delivers st (written (handle_hls_playlist w a (kept events (at_count n)) (kept events (at_list n)) (url_path u) 2%nat).1.1);
  sessions_segment : forall n i, (i < length all)%nat -> let v := at_path u (segment_uri app stream (Z.of_nat i)) in
    exists st, connect n v (http_request v None) = Some st /\
      delivers st (written (handle_hls_segment w a get_source (fun _ _ => Some (kept events (at_count n))) (url_path v) 2%nat).1.1)
}.

(** The stream is public, its address is the one of its playlist, and it is
    short enough for the client's bounds. *)
Record public_stream (url : bytes) : Prop := {
  public_url : parse_url url = Ok u;
  public_path : exists resource, parse_path_sign (url_path u) = (app, resource, []) /\ hls_stream_name resource = stream;
  public_names : name_ok app /\ name_ok stream /\ zlen app + zlen stream <= 65536;
  public_hook : on_play w app stream [] = None;
  public_auth : check a DEFAULT_VHOST app stream (str "play") [] = true;
  public_view : exists v, get_or_pull w app stream = Some v;
  public_source : get_source app stream = true;
  public_sizes : Forall (fun s => zlen (segment_data s) <= MAX_SEGMENT_SIZE) all;
  public_few : (length all <= 4096)%nat
}.

Lemma served_live connect at_count at_list url m groups :
  served_by_sessions connect at_count at_list -> public_stream url -> GotClosed ∉ events ->
  all_segments session_muxer (frames_received events) = Ok (m, all) -> numbered all 0 ->
  Forall2 (fun s g => carries_frames (segment_data s) g) all groups ->
  live_server connect app stream u all groups (fun n => finished events (at_count n)) (fun n => finished events (at_list n)).
Proof.
  intros [Hord Hpl Hsg] [Hurl (resource & Hpath & Hname) (Hna & Hns & Hlen) Hhook Hauth (v & Hview) Hsrc Hsz Hfew] Hc Hall Hnum Hcar.
  assert (forall k, (finished events k <= length all)%nat) as Hle by (intros k; by destruct (finished_prefix events m all k Hall) as (? & _ & ?)).
  assert (Forall segment_ok all) as Hok.
  { pose proof (all_segments_duration _ _ _ _ Hall) as Hd. rewrite Forall_lookup in Hd |- *. intros j s Hj. split.
    - rewrite (Hnum j s Hj). apply lookup_lt_Some in Hj. lia.
    - rewrite (Hd j s Hj). by vm_compute. }
  assert (forall k, Forall segment_ok (latest 10 (take k all))) as Hsub by (intros k; by apply Forall_drop, Forall_take).
  constructor; try done.
  - by apply (parse_url_valid url).
  - intros n. destruct (Hord n). split; [split; by eapply finished_mono|apply Hle].
  - intros n. cbv zeta. destruct (Hpl n) as (st & Hst & Hd). rewrite !(kept_latest events m all) in Hd by done.
    rewrite (playlist_answer w a app stream _ _ (url_path u) resource [] v) in Hd by done. split; [|by exists st].
    apply live_playlist_length; [done..| |done]. unfold latest. rewrite length_drop. lia.
  - intros n i Hi. cbv zeta. destruct (Hsg n i Hi) as (st & Hst & Hd). exists st. split; [exact Hst|].
    rewrite (kept_latest events m all) in Hd by done. cbn [url_path at_path] in Hd.
    rewrite (segment_answer w a get_source app stream) in Hd by (done || lia). exact Hd.
Qed.
End Relay.

(** C4: a live stream pulled by another server over HLS.  The source's frames
    are cut into segments by the HLS task, each of which carries its group of
    frames; each connection of the client is answered by a session that sees
    the ten latest segments of its moment (the queue being read twice for a
    playlist); the answers reach the client cut in any way.  Whatever the
    interleaving, the connections the client opens are those of its [rounds]:
    one for the playlist, then one for each segment it asks for, all of them
    listed in that playlist, each segment once and in order.  A round is read
    for every turn of the loop and asks for all that was finished when its
    playlist was looked up, but for what it already has and what is no longer
    listed.  What the client publishes is, kind by kind, exactly the frames of
    the segments it asked for, but for the last one of each kind, which is held
    until the pull is left.  The pull fails only when the segment it asked for
    last, listed in the playlist of that round, was no longer kept at the
    connection that asked for it; all those before have been published as
    above. *)
Theorem hls_live_relayed `{AuthPrimitives, PullPrimitives} (w : World) (a : StreamAuth) (get_source : bytes -> bytes -> bool) (app stream : bytes) (u : HttpUrl)
    (events : list Received) (m : HlsMuxer) (all : list HlsSegment) (connect : nat -> HttpUrl -> bytes -> option AsyncStream)
    (at_count at_list : nat -> nat) (url vhost to_app to_stream : bytes) (turns : list Turn) (s : PullState) :
  GotClosed ∉ events -> Forall hls_sample (frames_received events) ->
  all_segments session_muxer (frames_received events) = Ok (m, all) ->
  served_by_sessions w a get_source app stream u events all connect at_count at_list ->
  public_stream w a get_source app stream u all url ->
  Z.of_nat (length events) < 2 ^ 32 ->
  exists groups rounds fed es s' r,
    Forall2 (fun s g => carries_frames (segment_data s) g) all groups /\ concat groups ++ current_frames m = frames_received events /\
    start_pull connect turns url vhost to_app to_stream s = (es, s', r) /\
    connects es = target u app stream <$> script rounds /\
    (r = Ok (leaves turns) /\ fed = concat rounds /\ length rounds = Nat.max 1 (turns_taken turns) \/
     r = Err status_error /\ dropped (fun n => finished events (at_count n)) (connections s) rounds fed /\ (length rounds <= Nat.max 1 (turns_taken turns))%nat) /\
    StronglySorted lt fed /\ Forall (fun i => (i < length all)%nat) fed /\
    (forall p l, rounds !! p = Some l ->
       round_ok (fun n => finished events (at_count n)) (fun n => finished events (at_list n))
         (connections s + length (script (take p rounds))) (concat (take p rounds)) l
         ((p < turns_taken turns)%nat /\ ((S p < length rounds)%nat \/ exists b, r = Ok b))) /\
    all_but_held (published es) (hls_published <$> frames_of groups fed) /\
    (r = Ok true -> videos (published es) = videos (hls_published <$> frames_of groups fed) /\
                    audios (published es) = audios (hls_published <$> frames_of groups fed)).
Proof.
  intros Hc Hfs Hall Hserved Hpub Hlen.
  assert (length (frames_received events) <= length events)%nat as Hle.
  { clear. unfold frames_received. induction events as [|[f| |] l IH]; cbn [omap list_omap length] in *; lia. }
  destruct (segments_produced (frames_received events) [] session_muxer [] [] (produced_new _ 10) Hfs) as (m' & l & groups & Hall' & [_ _ Hn Hca Hf] & _); [cbn [length]; lia|].
  rewrite Hall in Hall'. injection Hall' as <- <-. cbn [List.app] in *. apply numbered_seq in Hn as Hnum.
  pose proof (served_live w a get_source app stream u events all connect at_count at_list url m groups Hserved Hpub Hc Hall Hnum Hca) as Hlive.
  destruct (start_live connect app stream u all groups _ _ Hlive turns url vhost to_app to_stream s (public_url _ _ _ _ _ _ _ _ Hpub))
    as (rounds & fed & es & s' & r & Hrun & Hask & [(hi & lo & Ho & Hhi) Hrounds Hres] & Hup & Hlen').
  cbn [List.app] in *. exists groups, rounds, fed, es, s', r. do 4 (split; [done|]). split; [|split; [exact (ordered_sorted _ _ _ Ho)|split; [|split; [exact Hrounds|split]]]].
  - destruct Hres as [(-> & -> & _)|(-> & Hd & _)]; [left; split_and!; [done..|by eapply Hlen']|by right].
  - eapply Forall_impl; [exact (ordered_below _ _ _ Ho)|]. cbn. intros. lia.
  - destruct Hres as [(_ & _ & Hv)|(_ & _ & d & Hd)]; [|by eapply relayed_prefix].
    destruct (leaves turns); [|destruct Hv as [d Hd]; by eapply relayed_prefix]. destruct Hv as [Hv Ha].
    exists [], []. rewrite !app_nil_r. split_and!; [cbn; lia..|done|done].
  - intros ->. destruct Hres as [([= Hl] & _ & Hv)|[? _]]; [|done]. rewrite <-Hl in Hv. exact Hv.
Qed.

(** ** A short relay *)

Definition demo_segment (i : Z) : HlsSegment := {| index := i; seg_duration := 0x4010000000000000; segment_data := [] |}.

Lemma demo_name (b : bool) : name_ok (if b then str "live" else str "s").
Proof. destruct b; (split_and!; [done..|]); repeat apply Forall_cons_2; try apply Forall_nil_2; cbn; lia. Qed.

Lemma demo_attribute (b : bool) : attribute_name (if b then str "live" else str "s").
Proof. destruct b; split; not_in. Qed.

Lemma hls_playlists_read_witness :
  playlist_entries (H := no_keys) (live_playlist [demo_segment 7] [demo_segment 7; demo_segment 8] (str "live") (str "s")) =
    Ok {| segments := entries_from 7 [str "/live/s/7.ts"; str "/live/s/8.ts"]; variant := None; end_list := false; init_map := None |} /\
  playlist_entries (H := no_keys) (build_cmaf_playlist [demo_segment 7; demo_segment 8] 4 (str "live") (str "s")) =
    Ok {| segments := entries_from 7 [str "/live/s/seg-7.m4s"; str "/live/s/seg-8.m4s"]; variant := None; end_list := false;
          init_map := Some (str "/live/s/init.mp4", None) |}.
Proof.
  assert (forall i, 0 <= i < 2 ^ 32 -> segment_ok (demo_segment i)) as Hok by (intros i Hi; split; [exact Hi|by vm_compute]).
  assert (Forall segment_ok [demo_segment 7; demo_segment 8]) as H78 by (repeat apply Forall_cons_2; try apply Forall_nil_2; apply Hok; lia).
  assert (Forall segment_ok [demo_segment 7]) as H7 by by apply Forall_cons in H78 as [? _]; apply Forall_singleton.
  assert (Forall segment_ok [demo_segment 8]) as H8 by by apply Forall_cons in H78 as [_ ?].
  split.
  - apply (hls_playlists_read (H := no_keys) (str "live") (str "s") [] [demo_segment 7; demo_segment 8] [(0, F_TWO)] (demo_segment 7) 4
      (demo_name true) (demo_name false)); [done|done|by vm_compute|apply Forall_singleton; split; by vm_compute|by vm_compute].
  - apply (hls_playlists_read (H := no_keys) (str "live") (str "s") [] [demo_segment 8] [(0, F_TWO)] (demo_segment 7) 4
      (demo_name true) (demo_name false)); [done|done|by vm_compute|apply Forall_singleton; split; by vm_compute|by vm_compute|
      exact (demo_attribute true)|exact (demo_attribute false)|apply Hok; lia].
Defined.

Definition relay_url : HttpUrl :=
  {| url_scheme := str "http"; url_host := str "h"; url_authority := str "h"; url_port := 80; url_path := str "/live/s.m3u8" |}.

(** One event more at every connection. *)
Definition relay_connect (n : nat) (v : HttpUrl) (request : bytes) : option AsyncStream :=
  Some (in_pieces (written (
    if bool_decide (url_path v = url_path relay_url)
    then handle_hls_playlist (H := sample_primitives) demo_world (auth_new false []) (kept hls_demo_events n) (kept hls_demo_events n) (url_path v) 2%nat
    else handle_hls_segment (H := sample_primitives) demo_world (auth_new false []) (fun _ _ => true) (fun _ _ => Some (kept hls_demo_events n)) (url_path v) 2%nat).1.1)).

Definition relay_segments : list HlsSegment :=
  match all_segments session_muxer (frames_received hls_demo_events) with Ok (_, l) => l | _ => [] end.

Lemma relay_public : public_stream (H := sample_primitives) demo_world (auth_new false []) (fun _ _ => true) (str "live") (str "s") relay_url relay_segments (str "http://h/live/s.m3u8").
Proof.
  constructor.
  - vm_compute. reflexivity.
  - exists (str "s.m3u8"). split; vm_compute; reflexivity.
  - split; [exact (demo_name true)|]. split; [exact (demo_name false)|]. apply Z.leb_le. vm_compute. reflexivity.
  - reflexivity.
  - reflexivity.
  - exists demo_view. reflexivity.
  - reflexivity.
  - assert (forallb (fun s => zlen (segment_data s) <=? MAX_SEGMENT_SIZE) relay_segments = true) as Hf by (vm_compute; reflexivity).
    revert Hf. generalize relay_segments. intros l Hf. rewrite Forall_forall. intros s Hs. rewrite forallb_forall in Hf. apply Z.leb_le, Hf, list_elem_of_In, Hs.
  - assert (length relay_segments = 2%nat) as -> by (vm_compute; reflexivity). lia.
Qed.

Lemma relay_sessions : served_by_sessions (H := sample_primitives) demo_world (auth_new false []) (fun _ _ => true) (str "live") (str "s") relay_url hls_demo_events
  relay_segments relay_connect (fun n => n) (fun n => n).
Proof.
  constructor.
  - intros n. lia.
  - intros n. eexists. split; [reflexivity|]. cbn [bool_decide]. rewrite bool_decide_eq_true_2 by done. apply in_pieces_delivers.
  - intros n i Hi. cbv zeta. eexists. split; [reflexivity|]. rewrite bool_decide_eq_false_2; [apply in_pieces_delivers|].
    assert (length relay_segments = 2%nat) as Hl by (vm_compute; reflexivity). rewrite Hl in Hi. clear Hl. destruct i as [|[|i]]; [by vm_compute..|lia].
Qed.

Lemma hls_live_relayed_witness :
  exists groups rounds fed es s',
    start_pull (H := no_keys) relay_connect (replicate 8 idle_turn ++ [{| notified := true; is_stopped := false |}])
      (str "http://h/live/s.m3u8") [] (str "live") (str "t") {| connections := 0; source_tracks := [] |} = (es, s', Ok true) /\
    connects es = target relay_url (str "live") (str "s") <$> script rounds /\ length rounds = 9%nat /\
    Forall2 (fun s g => carries_frames (segment_data s) g) relay_segments groups /\
    0%nat ∈ fed /\ 1%nat ∈ fed /\ videos (published es) = videos (hls_published <$> frames_of groups fed).
Proof.
  destruct (all_segments session_muxer (frames_received hls_demo_events)) as [[m all]| | |] eqn:Hall; [|vm_compute in Hall; discriminate..].
  assert (all = relay_segments) as -> by (unfold relay_segments; by rewrite Hall).
  destruct (hls_live_relayed (H := sample_primitives) (H0 := no_keys) demo_world (auth_new false []) (fun _ _ => true) (str "live") (str "s") relay_url hls_demo_events m
    relay_segments relay_connect (fun n => n) (fun n => n) (str "http://h/live/s.m3u8") [] (str "live") (str "t")
    (replicate 8 idle_turn ++ [{| notified := true; is_stopped := false |}]) {| connections := 0; source_tracks := [] |})
    as (groups & rounds & fed & es & s' & r & Hca & _ & Hrun & Hask & Hr & _ & _ & Hrounds & _ & Hdone).
  - exact hls_demo_open.
  - exact hls_demo_samples.
  - exact Hall.
  - exact relay_sessions.
  - exact relay_public.
  - by vm_compute.
  - assert (length relay_segments = 2%nat) as Hl by (vm_compute; reflexivity).
    assert (forall k, (finished hls_demo_events k <= 2)%nat) as H2 by (intros k; rewrite <-Hl; by destruct (finished_prefix hls_demo_events m relay_segments k Hall) as (_ & _ & ?)).
    destruct Hr as [(-> & -> & Hlen)|(_ & (rs & l0 & i & _ & _ & Hi) & _)]; [|specialize (H2 (connections {| connections := 0; source_tracks := [] |} + length (script rs) + S (length l0))%nat); lia].
    change (leaves _) with true in *. change (Nat.max 1 _) with 9%nat in Hlen.
    assert (forall i, (i < 2)%nat -> i ∈ concat rounds) as Hin.
    { intros i Hi. destruct (lookup_lt_is_Some_2 rounds 8) as [l Hl8]; [lia|]. pose proof (Hrounds 8%nat l Hl8) as [_ _ Hw].
      assert (8 <= length (script (take 8 rounds)))%nat as H8 by (apply script_length; rewrite length_take; lia).
      assert (finished hls_demo_events 8 = 2%nat) as Hf8 by (vm_compute; reflexivity).
      destruct (Hw ltac:(split; [cbn; lia|right; by exists true]) i) as [Hc|Hc].
      - cbn [connections]. pose proof (finished_mono hls_demo_events m relay_segments 8 (0 + length (script (take 8 rounds))) Hall ltac:(lia)). lia.
      - rewrite <-(take_drop_middle rounds 8 l Hl8), concat_app. cbn [concat]. rewrite app_assoc. apply elem_of_app. by left.
      - specialize (H2 (connections {| connections := 0; source_tracks := [] |} + length (script (take 8 rounds)))%nat). lia. }
    exists groups, rounds, (concat rounds), es, s'. split; [exact Hrun|]. split; [exact Hask|]. split; [exact Hlen|]. split; [exact Hca|].
    split; [apply Hin; lia|]. split; [apply Hin; lia|]. by apply Hdone.
Defined.
