(* ===== verification/Xml.v ===== *)
(** * Xml: the XML bodies of GB28181 messages

    [srt/src/gb28181/xml.rs]: the parser and the queries on a parsed tree.  A
    position of the source is the rest of the input from there on.  The
    parser's recursion carries fuel; [Err tt] is the source's [None].  Then a
    grammar of documents that are read back as the tree they stand for. *)

From S2P Require Import Prelude Utf8 Text.
#[local] Open Scope Z_scope.
#[local] Set Warnings "-clear-no-such-hyp,-register-all".

Inductive XmlNode : Type :=
| Node (name text : bytes) (attrs : gmap bytes bytes) (children : list XmlNode).

Definition node_name (n : XmlNode) : bytes := let '(Node name _ _ _) := n in name.
Definition node_text (n : XmlNode) : bytes := let '(Node _ text _ _) := n in text.
Definition node_attrs (n : XmlNode) : gmap bytes bytes := let '(Node _ _ attrs _) := n in attrs.
Definition node_children (n : XmlNode) : list XmlNode := let '(Node _ _ _ children) := n in children.

(** ** Queries *)

Definition named (name : bytes) (n : XmlNode) : bool := bool_decide (node_name n = name).

Definition child (n : XmlNode) (name : bytes) : option XmlNode := List.find (named name) (node_children n).
Definition children_named (n : XmlNode) (name : bytes) : list XmlNode := List.filter (named name) (node_children n).
Definition attr (n : XmlNode) (name : bytes) : option bytes := node_attrs n !! name.
Definition text_of (n : XmlNode) (name : bytes) : option bytes := node_text <$> child n name.

Fixpoint collect_descendants (name : bytes) (n : XmlNode) : list XmlNode :=
  let '(Node _ _ _ children) := n in
  concat ((fun c => (if named name c then [c] else []) ++ collect_descendants name c) <$> children).

Definition descendants_named (n : XmlNode) (name : bytes) : list XmlNode := collect_descendants name n.
Definition descendant_text (n : XmlNode) (name : bytes) : option bytes := node_text <$> head (descendants_named n name).

(** ** Scanning *)

Definition is_ws (b : Z) : bool := (b =? 32) || (b =? 9) || (b =? 13) || (b =? 10).

Fixpoint skip_ws (s : bytes) : bytes :=
  match s with
  | b :: s' => if is_ws b then skip_ws s' else s
  | [] => []
  end.

(** The bytes before the first one that stops, and the rest. *)
Fixpoint scan (stop : Z -> bool) (s : bytes) : bytes * bytes :=
  match s with
  | b :: s' => if stop b then ([], s) else let '(l, r) := scan stop s' in (b :: l, r)
  | [] => ([], [])
  end.

(** What follows the pattern. *)
Definition skip_until (pat s : bytes) : option bytes :=
  (fun i => drop (i + length pat) s) <$> find_sub pat s.

(** [s.replace(from, to)] *)
Fixpoint replace_fuel (fuel : nat) (from to s : bytes) : bytes :=
  match fuel with
  | O => s
  | S fuel =>
      match strip_prefix from s, s with
      | Some r, _ => to ++ replace_fuel fuel from to r
      | None, b :: s => b :: replace_fuel fuel from to s
      | None, [] => []
      end
  end.
Definition replace (from to s : bytes) : bytes := replace_fuel (length s) from to s.

Definition unescape (s : bytes) : bytes :=
  replace (str "&amp;") [38] (replace (str "&apos;") [39] (replace (str "&quot;") [34]
    (replace (str "&gt;") [62] (replace (str "&lt;") [60] s)))).

(** ** The parser *)

Definition ends_name (b : Z) : bool := (b =? 62) || (b =? 47) || is_ws b.
Definition ends_attribute (b : Z) : bool := (b =? 61) || ends_name b.

(** [name = "value"]: the name, the value and what follows. *)
Definition attribute (s : bytes) : outcome unit (bytes * bytes * bytes) :=
  let '(a_name, r) := scan ends_attribute s in
  let a_name := from_utf8_lossy a_name in
  if bool_decide (a_name = []) then Err tt else
  match skip_ws r with
  | [] => Err tt
  | b :: r =>
      if negb (b =? 61) then Err tt else
      match skip_ws r with
      | [] => Err tt
      | quote :: r =>
          if negb ((quote =? 34) || (quote =? 39)) then Err tt else
          match split_once quote r with
          | Some (a_val, r) => Ok (a_name, from_utf8_lossy a_val, r)
          | None => Err tt
          end
      end
  end.

(** One turn of the loop over the attributes: the end of the tag, closed or
    not, or one more attribute. *)
Definition attribute_step (st : bytes * gmap bytes bytes) : outcome unit (bytes * gmap bytes bytes + bytes * gmap bytes bytes * bool) :=
  let '(s, attrs) := st in
  match skip_ws s with
  | [] => Err tt
  | b :: r =>
      if b =? 62 then Ok (inr (r, attrs, false))
      else if (b =? 47) && bool_decide (head r = Some 62) then Ok (inr (tail r, attrs, true))
      else '(a_name, a_val, r) ← attribute (b :: r); Ok (inl (r, <[a_name := a_val]> attrs))
  end.

Definition attributes (s : bytes) : outcome unit (bytes * gmap bytes bytes * bool) :=
  loop (S (length s)) attribute_step (s, ∅).

(** [parse_element] on what follows the opening bracket, and its loop over the
    contents. *)
Fixpoint parse_element (fuel : nat) (s : bytes) : outcome unit (XmlNode * bytes) :=
  match fuel with
  | O => NoFuel
  | S fuel =>
      if bool_decide (head s = Some 63) || bool_decide (head s = Some 33) then Err tt else
      let '(name, r) := scan ends_name s in
      if bool_decide (r = []) then Err tt else
      let name := from_utf8_lossy name in
      if bool_decide (name = []) then Err tt else
      '(r, attrs, self_closing) ← attributes r;
      if (self_closing : bool) then Ok (Node name [] attrs [], r) else
      parse_contents fuel name attrs [] [] r
  end
with parse_contents (fuel : nat) (name : bytes) (attrs : gmap bytes bytes) (text : bytes) (children : list XmlNode) (s : bytes) :
    outcome unit (XmlNode * bytes) :=
  match fuel with
  | O => NoFuel
  | S fuel =>
      match split_once 60 s with
      | None => Err tt
      | Some (chunk, r) =>
          let text := text ++ (if bool_decide (chunk = []) then [] else unescape (from_utf8_lossy chunk)) in
          match r with
          | [] => Err tt
          | b :: r' =>
              if b =? 47 then
                match split_once 62 r' with
                | None => Err tt
                | Some (close, r) =>
                    if negb (bool_decide (trim (from_utf8_lossy close) = name)) then Err tt
                    else Ok (Node name text attrs children, r)
                end
              else if b =? 63 then
                match skip_until (str "?>") r with
                | Some r => parse_contents fuel name attrs text children r
                | None => Err tt
                end
              else if b =? 33 then
                match skip_until (str "-->") r with
                | Some r => parse_contents fuel name attrs text children r
                | None => Err tt
                end
              else
                '(c, r) ← parse_element fuel r;
                parse_contents fuel name attrs text (children ++ [c]) r
          end
      end
  end.

(** Processing instructions and comments before the root element. *)
Definition prolog_step (s : bytes) : outcome unit (bytes + bytes) :=
  let s := skip_ws s in
  if starts_with (str "<?") s then
    match skip_until (str "?>") s with Some r => Ok (inl r) | None => Err tt end
  else if starts_with (str "<!--") s then
    match skip_until (str "-->") s with Some r => Ok (inl r) | None => Err tt end
  else Ok (inr s).

Definition parse_xml (input : bytes) : outcome unit XmlNode :=
  s ← loop (S (length input)) prolog_step input;
  match s with
  | [] => Err tt
  | b :: r => if negb (b =? 60) then Err tt else '(node, _) ← parse_element (S (length r)) r; Ok node
  end.

(** ** Every input is answered *)

Lemma skip_ws_length s : (length (skip_ws s) <= length s)%nat.
Proof. induction s as [|b s IH]; [done|]. cbn [skip_ws]. destruct (is_ws b); cbn [length]; lia. Qed.

Lemma scan_spec stop s : (scan stop s).1 ++ (scan stop s).2 = s.
Proof. induction s as [|b s IH]; [done|]. cbn [scan]. destruct (stop b); [done|]. destruct (scan stop s) as [l r]. cbn in *. by rewrite IH. Qed.

Lemma scan_length stop s l r : scan stop s = (l, r) -> length s = (length l + length r)%nat.
Proof. intros Hs. pose proof (scan_spec stop s) as H. rewrite Hs in H. cbn in H. by rewrite <-H, length_app. Qed.

Lemma split_once_length c s l r : split_once c s = Some (l, r) -> (length r < length s)%nat.
Proof. intros H%split_once_prefix. rewrite H, length_app. cbn. lia. Qed.

Lemma skip_until_length pat s r : skip_until pat s = Some r -> (length r <= length s)%nat.
Proof. unfold skip_until. destruct (find_sub pat s); [|done]. intros [= <-]. rewrite length_drop. lia. Qed.

Lemma skip_until_shorter pat s r : pat <> [] -> s <> [] -> skip_until pat s = Some r -> (length r < length s)%nat.
Proof.
  unfold skip_until. destruct (find_sub pat s); [|done]. intros Hp Hs [= <-]. rewrite length_drop. destruct pat; [done|]. destruct s; [done|]. cbn. lia.
Qed.

Lemma attribute_wp s : wp (attribute s) (fun o => (length o.2 < length s)%nat) (fun _ => True).
Proof.
  unfold attribute. destruct (scan ends_attribute s) as [a r] eqn:Hsc. apply scan_length in Hsc. cbv zeta. case_bool_decide; [done|].
  pose proof (skip_ws_length r) as Hr. destruct (skip_ws r) as [|x r2]; [done|]. destruct (negb _); [done|].
  pose proof (skip_ws_length r2) as Hr2. destruct (skip_ws r2) as [|q r3]; [done|]. destruct (negb _); [done|].
  destruct (split_once q r3) as [[v r4]|] eqn:Hq; [|done]. apply split_once_length in Hq. cbn [wp snd length] in *. lia.
Qed.

Lemma attribute_step_wp s attrs :
  wp (attribute_step (s, attrs)) (fun o => match o with inl (r, _) => (length r < length s)%nat | inr (r, _, _) => (length r < length s)%nat end) (fun _ => True).
Proof.
  unfold attribute_step. pose proof (skip_ws_length s) as Hs. destruct (skip_ws s) as [|b t]; [done|]. cbn [length] in Hs.
  destruct (b =? 62); [cbn; lia|]. destruct (_ && _); [destruct t; cbn in *; lia|].
  apply wp_bind. eapply wp_mono; [apply attribute_wp| |done]. intros [[n v] r] Hr. cbn [snd length wp] in *. lia.
Qed.

Lemma attributes_wp s : wp (attributes s) (fun o => (length o.1.1 < length s)%nat) (fun _ => True).
Proof.
  unfold attributes. apply wp_loop with (Inv := fun '(r, _) => (length r <= length s)%nat) (mu := fun '(r, _) => length r); [|done|lia].
  intros [r attrs] Hr. eapply wp_mono; [apply attribute_step_wp| |done]. intros [[r' a']|[[r' a'] b]]; cbn; lia.
Qed.

Lemma parse_wp fuel :
  (forall s, (length s < fuel)%nat -> wp (parse_element fuel s) (fun o => (length o.2 < length s)%nat) (fun _ => True)) /\
  (forall name attrs text children s, (length s < fuel)%nat ->
     wp (parse_contents fuel name attrs text children s) (fun o => (length o.2 < length s)%nat) (fun _ => True)).
Proof.
  induction fuel as [|fuel [IHe IHc]]; [split; intros; lia|]. split.
  - intros s Hs. cbn [parse_element]. destruct (_ || _); [done|]. destruct (scan ends_name s) as [name r] eqn:Hsc.
    apply scan_length in Hsc. case_bool_decide; [done|]. cbv zeta. case_bool_decide as Hn; [done|].
    assert (0 < length name)%nat by (destruct name; [by destruct Hn|cbn; lia]).
    apply wp_bind. eapply wp_mono; [apply attributes_wp| |done]. intros [[r' a'] closed] Hr. cbn [fst] in Hr. destruct closed; [cbn; lia|].
    eapply wp_mono; [apply IHc; lia| |done]. cbn. intros. lia.
  - intros name attrs text children s Hs. cbn [parse_contents]. destruct (split_once 60 s) as [[chunk r]|] eqn:Hsp; [|done].
    apply split_once_length in Hsp. cbv zeta. set (t := text ++ _). clearbody t.
    assert (wp ('(c, r) ← parse_element fuel r; parse_contents fuel name attrs t (children ++ [c]) r) (fun o => (length o.2 < length s)%nat) (fun _ => True)) as Helem.
    { apply wp_bind. eapply wp_mono; [apply IHe; lia| |done]. intros [c r'] Hr. cbn [snd] in Hr.
      eapply wp_mono; [apply IHc; lia| |done]. cbn. intros. lia. }
    assert (forall pat, wp (match skip_until pat r with Some r => parse_contents fuel name attrs t children r | None => Err tt end)
      (fun o => (length o.2 < length s)%nat) (fun _ => True)) as Hskip.
    { intros pat. destruct (skip_until pat r) as [r'|] eqn:Hp; [|done]. apply skip_until_length in Hp.
      eapply wp_mono; [apply IHc; lia| |done]. cbn. intros. lia. }
    destruct r as [|b r]; [done|]. destruct (b =? 47); [|by destruct (b =? 63); [|destruct (b =? 33)]].
    destruct (split_once 62 r) as [[close r']|] eqn:H62; [|done]. apply split_once_length in H62. destruct (negb _); [done|]. cbn [wp snd length] in *. lia.
Qed.

(** The parser answers every text, whatever its nesting: with a tree or
    with nothing; the fuel of its recursion is never used up. *)
Lemma parse_xml_safe (input : bytes) : safe (parse_xml input).
Proof.
  unfold parse_xml. apply wp_bind. apply wp_mono with (Q := fun _ => True) (R := fun _ => True); [| |done].
  - apply wp_loop with (Inv := fun r => (length r <= length input)%nat) (mu := fun r => length r); [|lia|lia].
    intros s Hs. unfold prolog_step. pose proof (skip_ws_length s) as Hw.
    assert (forall pat x, starts_with x (skip_ws s) = true -> x <> [] -> pat <> [] ->
      wp (match skip_until pat (skip_ws s) with Some r => Ok (inl r) | None => Err tt end)
      (fun o : bytes + bytes => match o with inl s' => (length s' <= length input)%nat /\ (length s' < length s)%nat | inr _ => True end) (fun _ : unit => True)) as Hskip.
    { intros pat x Hx Hne Hp. destruct (skip_until pat (skip_ws s)) as [r|] eqn:Hu; [|done].
      apply skip_until_shorter in Hu; [cbn; lia|done|]. intros Hnil. rewrite Hnil in Hx. by destruct x. }
    destruct (starts_with (str "<?") (skip_ws s)) eqn:H1; [by eapply Hskip|]. destruct (starts_with (str "<!--") (skip_ws s)) eqn:H2; [by eapply Hskip|]. done.
  - intros s _. destruct s as [|b r]; [done|]. destruct (negb _); [done|]. apply wp_bind.
    eapply wp_mono; [apply parse_wp; lia| |done]. by intros [node r'] _.
Qed.

(** ** Documents *)

(** An element as it is written: its attributes, every child after some text,
    and the text before the closing tag. *)
Inductive Doc : Type :=
| Elem (name : bytes) (attrs : list (bytes * bytes)) (content : list (bytes * Doc)) (tail : bytes).

Definition escape_byte (b : Z) : bytes :=
  if b =? 38 then str "&amp;" else if b =? 60 then str "&lt;" else [b].
Definition escape (s : bytes) : bytes := concat (escape_byte <$> s).

Definition render_attrs (attrs : list (bytes * bytes)) : bytes :=
  concat ((fun a : bytes * bytes => [32] ++ a.1 ++ [61; 34] ++ a.2 ++ [34]) <$> attrs).

(** What follows the opening bracket. *)
Fixpoint body (d : Doc) : bytes :=
  let '(Elem name attrs content tail) := d in
  name ++ render_attrs attrs ++ [62] ++ concat ((fun p => escape p.1 ++ [60] ++ body p.2) <$> content) ++ escape tail ++ str "</" ++ name ++ [62].
Definition render (d : Doc) : bytes := 60 :: body d.

Definition attrs_of (attrs : list (bytes * bytes)) : gmap bytes bytes := foldl (fun m a => <[a.1 := a.2]> m) ∅ attrs.

Fixpoint tree (d : Doc) : XmlNode :=
  let '(Elem name attrs content tail) := d in
  Node name (concat (fst <$> content) ++ tail) (attrs_of attrs) ((fun p => tree p.2) <$> content).

Definition xml_name (s : bytes) : Prop :=
  s <> [] /\ head s <> Some 63 /\ head s <> Some 33 /\ Forall (fun b => printable b /\ b <> 47 /\ b <> 62 /\ b <> 61) s.

Definition xml_attr (a : bytes * bytes) : Prop := xml_name a.1 /\ lacks 34 a.2 /\ utf8_valid a.2 = true.
Definition xml_text (s : bytes) : Prop := utf8_valid (escape s) = true.

Inductive doc_ok : Doc -> Prop :=
| elem_ok name attrs content tail :
    xml_name name -> Forall xml_attr attrs -> Forall (fun p => xml_text p.1 /\ doc_ok p.2) content -> xml_text tail ->
    doc_ok (Elem name attrs content tail).

Definition doc_ind_nested (P : Doc -> Prop)
    (H : forall name attrs content tail, Forall (fun p => P p.2) content -> P (Elem name attrs content tail)) : forall d, P d :=
  fix rec d :=
    let '(Elem name attrs content tail) := d in
    H name attrs content tail
      ((fix all (l : list (bytes * Doc)) : Forall (fun p => P p.2) l :=
          match l with
          | [] => Forall_nil_2 _
          | p :: l => Forall_cons_2 _ p l (rec p.2) (all l)
          end) content).

(** *** Escaping *)

Lemma replace_fuel_enough from to : from <> [] -> forall n s, (length s <= n)%nat -> replace_fuel n from to s = replace from to s.
Proof.
  intros Hf. unfold replace. intros n. induction n as [n IH] using lt_wf_ind. intros s Hs. destruct n as [|n].
  { by destruct s; [|cbn in Hs; lia]. }
  destruct s as [|b s]; [cbn; by destruct from|]. cbn [length replace_fuel]. destruct (strip_prefix from (b :: s)) as [r|] eqn:Hp.
  - apply strip_prefix_spec in Hp. assert (length r <= length s)%nat as Hr.
    { apply (f_equal length) in Hp. rewrite length_app in Hp. destruct from; [done|]. cbn in Hp. lia. }
    cbn [length] in Hs. rewrite (IH n) by lia. destruct n as [|n]; [cbn in *; destruct s; [|cbn in Hs; lia]; destruct r; [done|cbn in Hr; lia]|].
    f_equal. destruct (decide (length s = S n)) as [->|]; [by rewrite (IH (S n)) by lia|]. by rewrite (IH (length s)) by lia.
  - cbn [length] in Hs. f_equal. destruct (decide (length s = n)) as [->|]; [done|]. by rewrite (IH n) by lia.
Qed.

Lemma replace_here from to s : from <> [] -> replace from to (from ++ s) = to ++ replace from to s.
Proof.
  intros Hf. unfold replace at 1. destruct (length (from ++ s)) as [|n] eqn:Hl; [rewrite length_app in Hl; destruct from; [done|cbn in Hl; lia]|].
  cbn [replace_fuel]. rewrite strip_prefix_app. f_equal. apply replace_fuel_enough; [done|]. rewrite length_app in Hl. destruct from; [done|]. cbn in Hl. lia.
Qed.

Lemma replace_skip from to b s : starts_with from (b :: s) = false -> replace from to (b :: s) = b :: replace from to s.
Proof.
  intros Hs. unfold starts_with in Hs. unfold replace at 1. cbn [length replace_fuel]. destruct (strip_prefix from (b :: s)); [done|]. done.
Qed.

(** Text in which only ampersands are written as entities. *)
Definition amp_byte (b : Z) : bytes := if b =? 38 then str "&amp;" else [b].

Lemma replace_other from to (f : Z -> bytes) :
  (forall b s, replace from to (f b ++ s) = f b ++ replace from to s) -> forall s, replace from to (concat (f <$> s)) = concat (f <$> s).
Proof. intros Hf. induction s as [|b s IH]; [by destruct from|]. rewrite fmap_cons. cbn [concat]. by rewrite Hf, IH. Qed.

Lemma starts_head x p b s : b <> x -> starts_with (x :: p) (b :: s) = false.
Proof. intros Hb. unfold starts_with. cbn [strip_prefix]. by rewrite (proj2 (Z.eqb_neq x b)) by congruence. Qed.

Lemma amp_skip x y to b s : x <> 97 ->
  replace (38 :: x :: y) to (amp_byte b ++ s) = amp_byte b ++ replace (38 :: x :: y) to s.
Proof.
  intros Hx. unfold amp_byte. destruct (Z.eqb_spec b 38) as [->|Hb].
  - change (str "&amp;" ++ s) with (38 :: 97 :: 109 :: 112 :: 59 :: s).
    rewrite replace_skip by (unfold starts_with; cbn [strip_prefix]; by rewrite (proj2 (Z.eqb_neq x 97))).
    rewrite !replace_skip by (by apply starts_head). done.
  - cbn [app]. by rewrite replace_skip by (by apply starts_head).
Qed.

Lemma unescape_escape s : unescape (escape s) = s.
Proof.
  unfold unescape. assert (replace (str "&lt;") [60] (escape s) = concat (amp_byte <$> s)) as ->.
  { unfold escape. induction s as [|b s IH]; [done|]. rewrite !fmap_cons. cbn [concat]. rewrite <-IH. unfold escape_byte at 1.
    destruct (Z.eqb_spec b 38) as [->|Hb]; [exact (amp_skip 108 (str "t;") [60] 38 _ ltac:(done))|].
    assert (amp_byte b = [b]) as -> by (unfold amp_byte; by rewrite (proj2 (Z.eqb_neq b 38))).
    destruct (Z.eqb_spec b 60) as [->|]; [by apply replace_here|]. cbn [app]. by rewrite replace_skip by (by apply starts_head). }
  rewrite (replace_other (str "&gt;")) by (intros; by apply (amp_skip 103 (str "t;"))).
  rewrite (replace_other (str "&quot;")) by (intros; by apply (amp_skip 113 (str "uot;"))).
  rewrite (replace_other (str "&apos;")).
  2: { intros b r. unfold amp_byte. destruct (Z.eqb_spec b 38) as [->|Hb].
       - change (str "&amp;" ++ r) with (38 :: 97 :: 109 :: 112 :: 59 :: r). rewrite replace_skip by done. rewrite !replace_skip by (by apply starts_head). done.
       - cbn [app]. by rewrite replace_skip by (by apply starts_head). }
  induction s as [|b s IH]; [done|]. rewrite fmap_cons. cbn [concat]. unfold amp_byte at 1. destruct (Z.eqb_spec b 38) as [->|Hb].
  - rewrite replace_here by done. by rewrite IH.
  - cbn [app]. rewrite replace_skip by (by apply starts_head). by rewrite IH.
Qed.

Lemma escape_lacks s : lacks 60 (escape s).
Proof.
  unfold escape, lacks. induction s as [|b s IH]; [apply not_elem_of_nil|]. rewrite fmap_cons. cbn [concat]. rewrite not_elem_of_app. split; [|done].
  unfold escape_byte. destruct (Z.eqb_spec b 38); [vm_compute; set_solver|]. destruct (Z.eqb_spec b 60); [vm_compute; set_solver|].
  rewrite list_elem_of_singleton. congruence.
Qed.

(** *** Reading a document back *)

Lemma scan_stops stop l b r : Forall (fun x => stop x = false) l -> stop b = true -> scan stop (l ++ b :: r) = (l, b :: r).
Proof. intros Hl Hb. induction Hl as [|x l Hx _ IH]; cbn [app scan]; [by rewrite Hb|]. by rewrite Hx, IH. Qed.

Lemma skip_ws_word b s : printable b -> skip_ws (b :: s) = b :: s.
Proof.
  intros Hb. cbn [skip_ws]. assert (is_ws b = false) as ->; [|done]. unfold is_ws, printable in *.
  by rewrite !(proj2 (Z.eqb_neq _ _)) by lia.
Qed.

Lemma word_lossy s : Forall printable s -> from_utf8_lossy s = s.
Proof.
  intros Hs. apply from_utf8_lossy_valid, ascii_valid. eapply Forall_impl; [exact Hs|]. unfold printable. cbn. lia.
Qed.

Lemma xml_name_printable s : xml_name s -> Forall printable s.
Proof. intros (_ & _ & _ & Hs). eapply Forall_impl; [exact Hs|]. by intros b [? _]. Qed.

Lemma xml_name_goes_on s : xml_name s -> Forall (fun x => ends_attribute x = false) s /\ Forall (fun x => ends_name x = false) s.
Proof.
  intros (_ & _ & _ & Hs). split; (eapply Forall_impl; [exact Hs|]); intros b (Hb & H47 & H62 & H61); unfold ends_attribute, ends_name, is_ws, printable in *;
    by rewrite !(proj2 (Z.eqb_neq _ _)) by lia.
Qed.

Lemma attribute_read a r : xml_attr a -> attribute (a.1 ++ [61; 34] ++ a.2 ++ [34] ++ r) = Ok (a.1, a.2, r).
Proof.
  intros (Hn & Hq & Hu). unfold attribute. cbn [app]. rewrite scan_stops by (done || by apply xml_name_goes_on). cbv zeta.
  rewrite word_lossy by by apply xml_name_printable. rewrite bool_decide_eq_false_2 by apply Hn.
  rewrite skip_ws_word by (unfold printable; lia). change (negb (61 =? 61)) with false. cbv iota.
  rewrite skip_ws_word by (unfold printable; lia). change (negb ((34 =? 34) || (34 =? 39))) with false. cbv iota.
  rewrite split_once_app by done. by rewrite from_utf8_lossy_valid.
Qed.

Lemma attribute_step_read a r m : xml_attr a ->
  attribute_step ([32] ++ a.1 ++ [61; 34] ++ a.2 ++ [34] ++ r, m) = Ok (inl (r, <[a.1 := a.2]> m)).
Proof.
  intros Ha. pose proof Ha as (Hn & _). unfold attribute_step. cbn [app]. change (skip_ws (32 :: ?s)) with (skip_ws s).
  assert (exists b s, a.1 ++ 61 :: 34 :: a.2 ++ 34 :: r = b :: s /\ printable b /\ b <> 47 /\ b <> 62) as (b & s & Heq & Hb & H47 & H62).
  { destruct Hn as (Hne & _ & _ & Hn). destruct a.1 as [|b s]; [done|]. apply Forall_cons in Hn as [(? & ? & ? & _) _]. by eexists _, _. }
  rewrite Heq, skip_ws_word by done. rewrite (proj2 (Z.eqb_neq b 62)), (proj2 (Z.eqb_neq b 47)) by done. cbn [andb].
  rewrite <-Heq. by rewrite (attribute_read a r Ha : attribute (a.1 ++ 61 :: 34 :: a.2 ++ 34 :: r) = _).
Qed.

Lemma attributes_read attrs r : forall fuel m, Forall xml_attr attrs -> (length attrs < fuel)%nat ->
  loop fuel attribute_step (render_attrs attrs ++ [62] ++ r, m) = Ok (r, foldl (fun m a => <[a.1 := a.2]> m) m attrs, false).
Proof.
  induction attrs as [|a attrs IH]; intros fuel m Ha Hf; (destruct fuel as [|fuel]; [cbn in Hf; lia|]); cbn [loop].
  { unfold attribute_step, render_attrs. cbn [fmap list_fmap concat app]. by rewrite skip_ws_word by (unfold printable; lia). }
  apply Forall_cons in Ha as [Ha1 Ha]. unfold render_attrs. rewrite fmap_cons. cbn [concat]. rewrite <-!app_assoc.
  rewrite attribute_step_read by done. apply IH; [done|]. cbn in Hf. lia.
Qed.

Lemma render_attrs_length attrs : (length attrs <= length (render_attrs attrs))%nat.
Proof.
  unfold render_attrs. induction attrs as [|a attrs IH]; [done|]. rewrite fmap_cons. cbn [concat length]. rewrite !length_app. cbn [length]. lia.
Qed.

Lemma tag_read name attrs r fuel : xml_name name -> Forall xml_attr attrs ->
  parse_element (S fuel) (name ++ render_attrs attrs ++ [62] ++ r) = parse_contents fuel name (attrs_of attrs) [] [] r.
Proof.
  intros Hn Ha. cbn [parse_element]. pose proof Hn as (Hne & H63 & H33 & _). destruct name as [|b name']; [done|]. set (name := b :: name') in *.
  change (head (name ++ render_attrs attrs ++ [62] ++ r)) with (head name). rewrite !bool_decide_eq_false_2 by done. cbn [orb].
  assert (exists x t, render_attrs attrs ++ [62] ++ r = x :: t /\ ends_name x = true) as (x & t & Heq & Hx).
  { destruct attrs as [|a attrs]; [by eexists _, _|]. unfold render_attrs. rewrite fmap_cons. by eexists _, _. }
  rewrite Heq, scan_stops by (done || by apply xml_name_goes_on). rewrite bool_decide_eq_false_2 by done. cbv zeta.
  rewrite word_lossy by by apply xml_name_printable. rewrite bool_decide_eq_false_2 by done. rewrite <-Heq. unfold attributes.
  rewrite attributes_read; [done|done|]. rewrite length_app. pose proof (render_attrs_length attrs). lia.
Qed.

Lemma text_read s : xml_text s -> (if bool_decide (escape s = []) then [] else unescape (from_utf8_lossy (escape s))) = s.
Proof.
  intros Hs. rewrite from_utf8_lossy_valid, unescape_escape by done. case_bool_decide as He; [|done]. rewrite <-(unescape_escape s), He. done.
Qed.

Lemma close_read name attrs text children tail r fuel : xml_name name -> xml_text tail ->
  parse_contents (S fuel) name attrs text children (escape tail ++ str "</" ++ name ++ [62] ++ r) = Ok (Node name (text ++ tail) attrs children, r).
Proof.
  intros Hn Ht. cbn [parse_contents]. change (str "</" ++ name ++ [62] ++ r) with (60 :: 47 :: name ++ 62 :: r).
  rewrite split_once_app by apply escape_lacks. rewrite text_read by done. cbv zeta. change (47 =? 47) with true. cbv iota.
  assert (lacks 62 name) as Hl.
  { intros Hin. destruct Hn as (_ & _ & _ & Hn). rewrite Forall_forall in Hn. by destruct (Hn _ Hin) as (_ & _ & ? & _). }
  rewrite split_once_app by done. rewrite word_lossy by by apply xml_name_printable.
  rewrite trim_trimmed by (apply trimmed_word; [by apply xml_name_printable|apply Hn]). by rewrite bool_decide_eq_true_2.
Qed.

Definition content_bytes (content : list (bytes * Doc)) : bytes := concat ((fun p => escape p.1 ++ [60] ++ body p.2) <$> content).

Lemma body_head d : doc_ok d -> exists b s, body d = b :: s /\ b <> 47 /\ b <> 63 /\ b <> 33.
Proof.
  intros Hd. inversion Hd as [name attrs content tail (Hne & H63 & H33 & Hn)]. destruct name as [|b s]; [done|].
  apply Forall_cons in Hn as [(_ & H47 & _) _]. eexists b, _. split; [reflexivity|]. cbn in H63, H33. split_and!; congruence.
Qed.

Lemma contents_read content : forall name attrs text children tail r fuel,
  xml_name name -> xml_text tail -> Forall (fun p => xml_text p.1 /\ doc_ok p.2) content ->
  Forall (fun p => forall fuel r, (length (body p.2) <= fuel)%nat -> parse_element fuel (body p.2 ++ r) = Ok (tree p.2, r)) content ->
  (length (content_bytes content) < fuel)%nat ->
  parse_contents fuel name attrs text children (content_bytes content ++ escape tail ++ str "</" ++ name ++ [62] ++ r) =
  Ok (Node name (text ++ concat (fst <$> content) ++ tail) attrs (children ++ ((fun p => tree p.2) <$> content)), r).
Proof.
  induction content as [|[chunk d] content IH]; intros name attrs text children tail r fuel Hn Ht Hok Hread Hf; (destruct fuel as [|fuel]; [lia|]).
  { change (content_bytes []) with (@nil Z). rewrite app_nil_l, close_read by done. by rewrite app_nil_r. }
  apply Forall_cons in Hok as [[Hc Hd] Hok]. apply Forall_cons in Hread as [Hd1 Hread]. cbn [fst snd] in *.
  unfold content_bytes in *. rewrite !fmap_cons in *. cbn [concat fst snd] in *. rewrite <-!app_assoc. cbn [parse_contents].
  change ([60] ++ body d ++ ?x) with (60 :: (body d ++ x)). rewrite split_once_app by apply escape_lacks. rewrite text_read by done. cbv zeta.
  rewrite !length_app in Hf. cbn [length] in Hf. destruct (body_head d Hd) as (b & s & Hb & H47 & H63 & H33).
  set (rest := concat _ ++ escape tail ++ _). assert (body d ++ rest = b :: s ++ rest) as Heq by by rewrite Hb.
  rewrite Heq. rewrite (proj2 (Z.eqb_neq b 47)), (proj2 (Z.eqb_neq b 63)), (proj2 (Z.eqb_neq b 33)) by done. rewrite <-Heq.
  rewrite Hd1 by lia. cbn [mbind outcome_bind]. subst rest. rewrite IH by (done || lia). rewrite <-!app_assoc. done.
Qed.

Lemma element_read d : doc_ok d -> forall fuel r, (length (body d) <= fuel)%nat -> parse_element fuel (body d ++ r) = Ok (tree d, r).
Proof.
  induction d as [name attrs content tail IH] using doc_ind_nested. intros Hd fuel r Hf. inversion Hd as [? ? ? ? Hn Ha Hc Ht]; subst.
  assert (0 < length name)%nat by (destruct Hn as [Hne _]; destruct name; [done|cbn; lia]).
  cbn [body] in *. fold (content_bytes content) in *. rewrite !length_app in Hf. cbn [length] in Hf. destruct fuel as [|fuel]; [lia|].
  rewrite <-!app_assoc. rewrite tag_read by done. rewrite contents_read; [done|done|done|done| |lia].
  rewrite Forall_forall in IH, Hc |- *. intros p Hp. apply IH; [done|]. by apply Hc.
Qed.

(** A document, written with its text escaped, after an XML declaration and
    white space or without, is read back as the tree it stands for: names,
    attributes, children in order and the text of every element. *)
Lemma document_read (d : Doc) (before trailing : bytes) :
  doc_ok d -> Forall (fun b => is_ws b = true) before ->
  parse_xml (before ++ render d ++ trailing) = Ok (tree d) /\
  (forall declaration, find_sub (str "?>") (str "<?" ++ declaration ++ str "?>") = Some (2 + length declaration)%nat ->
     parse_xml (str "<?" ++ declaration ++ str "?>" ++ before ++ render d ++ trailing) = Ok (tree d)).
Proof.
  intros Hd Hb. assert (forall fuel, loop (S fuel) prolog_step (before ++ render d ++ trailing) = Ok (render d ++ trailing)) as Hlast.
  { intros fuel. cbn [loop]. unfold prolog_step at 1. assert (skip_ws (before ++ render d ++ trailing) = render d ++ trailing) as ->.
    { induction Hb as [|x l Hx _ IH]; [done|]. cbn [app skip_ws]. by rewrite Hx. }
    destruct (body_head d Hd) as (b & s & Hbd & H47 & H63 & H33). unfold render. rewrite Hbd. unfold starts_with.
    change ((60 :: b :: s) ++ trailing) with (60 :: b :: s ++ trailing). cbn [strip_prefix str].
    change (strip_prefix (str "<?") (60 :: b :: s ++ trailing)) with (if 63 =? b then Some (s ++ trailing) else None).
    change (strip_prefix (str "<!--") (60 :: b :: s ++ trailing)) with (if 33 =? b then strip_prefix (str "--") (s ++ trailing) else None).
    by rewrite (proj2 (Z.eqb_neq 63 b)), (proj2 (Z.eqb_neq 33 b)) by congruence. }
  assert (match render d ++ trailing with
    | [] => Err tt
    | b :: r => if negb (b =? 60) then Err tt else '(node, _) ← parse_element (S (length r)) r; Ok node
    end = Ok (tree d)) as Hroot.
  { unfold render. cbn [app]. change (negb (60 =? 60)) with false. cbv iota. rewrite element_read; [done|done|]. rewrite length_app. lia. }
  unfold parse_xml. split.
  - rewrite Hlast. exact Hroot.
  - intros decl Hdecl. set (rest := before ++ render d ++ trailing) in *.
    assert (loop (S (length (str "<?" ++ decl ++ str "?>" ++ rest))) prolog_step (str "<?" ++ decl ++ str "?>" ++ rest) = Ok (render d ++ trailing)) as ->; [|exact Hroot].
    cbn [loop]. unfold prolog_step at 1. change (skip_ws (str "<?" ++ decl ++ str "?>" ++ rest)) with (str "<?" ++ decl ++ str "?>" ++ rest).
    unfold starts_with. rewrite strip_prefix_app. unfold skip_until.
    assert (find_sub (str "?>") (str "<?" ++ decl ++ str "?>" ++ rest) = Some (2 + length decl)%nat) as ->.
    { pose proof (find_sub_stable (str "?>") _ rest _ Hdecl) as H. by rewrite <-!app_assoc in H. }
    cbn [fmap option_fmap option_map]. assert (drop (2 + length decl + length (str "?>")) (str "<?" ++ decl ++ str "?>" ++ rest) = rest) as ->.
    { rewrite !app_assoc. apply drop_app_length'. rewrite !length_app. done. }
    rewrite length_app. cbn [Nat.add length str]. apply Hlast.
Qed.
