(* ===== verification/SipMsg.v ===== *)
(** * SipMsg: the texts of GB28181 signalling

    [srt/src/gb28181/sip.rs]: SIP messages as they are written and parsed, the
    fields of session descriptions, Digest credentials, and the items of
    [Catalog] and [DeviceInfo] answers.  A string is the list of its UTF-8
    bytes.  Addresses are known by their text: [parse_ip] is the standard
    library's parser of addresses followed by its printer. *)

From Stdlib Require Import SpecFloat.
From S2P Require Import Prelude Frame F64 Utf8 Text Auth Xml.
#[local] Open Scope Z_scope.
#[local] Set Warnings "-clear-no-such-hyp".

(** The name under which a text reaches the registries of other components. *)
Definition string_of (s : bytes) : string := String.string_of_list_ascii ((fun b => Ascii.ascii_of_N (Z.to_N b)) <$> s).

(** ** Numbers *)

Definition parse_u64 : bytes -> option Z := parse_uint (2 ^ 64 - 1).

(** [format!("{:x}", n)] for an unsigned number below 2^128. *)
Fixpoint hex_digits (fuel : nat) (n : Z) : bytes :=
  match fuel with
  | O => []
  | S fuel => if n <? 16 then [hex_digit n] else hex_digits fuel (n / 16) ++ [hex_digit (n mod 16)]
  end.
Definition lower_hex (n : Z) : bytes := hex_digits 32 n.

(** Zeros on the left. *)
Definition pad (width : nat) (s : bytes) : bytes := replicate (width - length s) 48 ++ s.

Definition digits_value (s : bytes) : Z := foldl (fun acc b => acc * 10 + (b - 48)) 0 s.

(** [s.parse::<f64>()], with the nearest number as value. *)
Definition parse_exponent (s : bytes) : option Z :=
  let '(negative, s) := match s with b :: r => if b =? 45 then (true, r) else (false, if b =? 43 then r else s) | [] => (false, s) end in
  if bool_decide (s = []) || negb (forallb is_digit s) then None
  else Some (if (negative : bool) then - digits_value s else digits_value s).

Definition decimal_value (negative : bool) (m e : Z) : f64 :=
  f64_encode
    (match m with
     | Zpos p =>
         if 0 <=? e then binary_normalize 53 1024 ((if negative then -1 else 1) * m * 10 ^ e) 0 negative
         else SFdiv 53 1024 (S754_finite negative p 0) (S754_finite false (Z.to_pos (10 ^ (- e))) 0)
     | _ => S754_zero negative
     end).

Definition parse_f64 (s : bytes) : option f64 :=
  let '(negative, s) := match s with b :: r => if b =? 45 then (true, r) else (false, if b =? 43 then r else s) | [] => (false, s) end in
  let sign := if (negative : bool) then 2 ^ 63 else 0 in
  let word := to_ascii_lowercase s in
  if bool_decide (word = str "inf") || bool_decide (word = str "infinity") then Some (sign + (0x7FF .<< 52))
  else if bool_decide (word = str "nan") then Some (sign + (0x7FF8 .<< 48))
  else
    let '(whole, r) := scan (fun b => negb (is_digit b)) s in
    let '(fraction, r) := match r with b :: r' => if b =? 46 then scan (fun b => negb (is_digit b)) r' else ([], r) | [] => ([], r) end in
    if bool_decide (whole ++ fraction = []) then None else
    match (match r with
           | [] => Some 0
           | b :: r => if (b =? 101) || (b =? 69) then parse_exponent r else None
           end) with
    | None => None
    | Some e => Some (decimal_value negative (digits_value (whole ++ fraction)) (e - zlen fraction))
    end.

(** ** Messages *)

Record SipMessage : Type := {
  method : option bytes;
  status : option Z;
  uri : bytes;
  headers : gmap bytes bytes;
  sip_body : bytes
}.

(** [get], for a name in lower case, and its value or the empty string. *)
Definition get (m : SipMessage) (name : string) : option bytes := headers m !! str name.
Definition header (m : SipMessage) (name : string) : bytes := default [] (get m name).

(** The lines up to the first empty one; the others are the body. *)
Fixpoint header_lines (ls : list bytes) (hs : gmap bytes bytes) (content_length : Z) : gmap bytes bytes * Z * list bytes :=
  match ls with
  | [] => (hs, content_length, [])
  | line :: ls =>
      if bool_decide (line = []) then (hs, content_length, ls) else
      match split_once 58 line with
      | Some (k, v) =>
          let key := to_ascii_lowercase (trim k) in
          let val := trim v in
          header_lines ls (<[key := val]> hs)
            (if bool_decide (key = str "content-length") then default 0 (parse_usize val) else content_length)
      | None => header_lines ls hs content_length
      end
  end.

Definition rejoin (ls : list bytes) : bytes := concat ((fun l => l ++ [10]) <$> ls).

(** [s.is_char_boundary(n)] and [s.truncate(n)]. *)
Definition is_char_boundary (s : bytes) (n : nat) : bool :=
  match s !! n with
  | Some b => (n =? 0)%nat || negb (is_cont b)
  | None => (n =? length s)%nat
  end.
Definition truncate (s : bytes) (n : nat) : result bytes :=
  if (length s <? n)%nat then Ok s else if is_char_boundary s n then Ok (take n s) else Panic.

(** The source's [Option] is never [None]: there is always a first line. *)
Definition parse_sip (input : bytes) : result SipMessage :=
  match split_crlf (from_utf8_lossy input) with
  | [] => Err (Anyhow "no line")
  | first :: ls =>
      let '(hs, content_length, rest) := header_lines ls ∅ 0 in
      let body := rejoin rest in
      body ← (if (0 <? content_length) && (content_length <? zlen body) then truncate body (Z.to_nat content_length) else Ok body);
      let parts := split_whitespace first in
      let a := default [] (parts !! 0%nat) in
      let b := default [] (parts !! 1%nat) in
      let c := default [] (parts !! 2%nat) in
      Ok (if starts_with (str "SIP/2.0") a
          then {| method := None; status := parse_u16 b; uri := c; headers := hs; sip_body := body |}
          else {| method := Some a; status := None; uri := b; headers := hs; sip_body := body |})
  end.

(** A message as both sides write it. *)
Definition header_line (h : string * bytes) : bytes := str h.1 ++ str ": " ++ h.2.
Definition sip_text (first : bytes) (hs : list (string * bytes)) (body : bytes) : bytes :=
  first ++ CRLF ++ concat ((fun h => header_line h ++ CRLF) <$> hs) ++ CRLF ++ body.

Definition with_length (hs : list (string * bytes)) (body : bytes) : list (string * bytes) := hs ++ [("Content-Length"%string, dec (zlen body))].

(** ** Fields *)

Definition uri_user (hdr : bytes) : option bytes :=
  let s := trim_start_char 60 (trim hdr) in
  let s := match find_sub (str "sip:") s with Some p => drop (p + 4) s | None => s end in
  match split_once 64 s with
  | Some (user, _) => Some user
  | None =>
      match split_once 58 s with
      | Some (user, _) => Some user
      | None =>
          match split_once 59 s with
          | Some (user, _) => Some user
          | None => if bool_decide (s = []) then None else Some s
          end
      end
  end.

(** [gen_tag] and [gen_nonce], at a time in nanoseconds. *)
Definition gen_tag (nanos : Z) : bytes := pad 16 (lower_hex (nanos mod 0xFFFFFFFFFFFFFFFF)).
Definition gen_nonce (nanos : Z) : bytes := lower_hex nanos.

(** The first line with the prefix. *)
Definition sdp_value (body : bytes) (prefix : string) : option bytes :=
  trim <$> head (omap (strip_prefix (str prefix)) (lines body)).

Record SocketAddr : Type := { ip : bytes; port : Z }.

#[global] Instance SocketAddr_eq_dec : EqDecision SocketAddr.
Proof. solve_decision. Defined.

Section Answer.
Context (parse_ip : bytes -> option bytes).

Definition talk_destination (body : bytes) (fallback : SocketAddr) (expected_payload_type : Z) : result SocketAddr :=
  let connection_ip := default (ip fallback) (sdp_value body "c=" ≫= fun line => last (split_whitespace line) ≫= parse_ip) in
  match sdp_value body "m=audio " with
  | None => Err (Anyhow "talk SDP answer has no audio media line")
  | Some media =>
      let fields := split_whitespace media in
      if (length fields <? 3)%nat then Err (Anyhow "invalid talk SDP audio media line") else
      match fields !! 0%nat ≫= parse_u16 with
      | None => Err (Anyhow "port")
      | Some p =>
          if p =? 0 then Err (Anyhow "device rejected the talk audio media") else
          if negb (existsb (fun v => bool_decide (parse_u8 v = Some expected_payload_type)) (drop 2 fields))
          then Err (Anyhow "device did not accept RTP payload type")
          else Ok {| ip := connection_ip; port := p |}
      end
  end.
End Answer.

Definition gen_ssrc (channel_id : bytes) : Z :=
  foldl (fun h b => u32 (u32 (h * 31) + b)) 0x12345678 channel_id mod 1000000000.

(** ** Credentials *)

Section Digest.
Context `{AuthPrimitives}.

Definition check_digest (auth user password uri method realm : bytes) : bool :=
  let fields := digest_fields (default auth (strip_prefix (str "Digest") auth)) in
  match fields !! str "response", fields !! str "nonce" with
  | Some response, Some nonce =>
      let realm := default realm (fields !! str "realm") in
      let uri := default uri (fields !! str "uri") in
      let a1 := colons [user; realm; password] in
      let a2 := colons [method; uri] in
      let expected := md5_hex (colons [md5_hex a1; nonce; md5_hex a2]) in
      bool_decide (expected = to_ascii_lowercase response)
  | _, _ => false
  end.
End Digest.

(** ** Items *)

Record ChannelInfo : Type := {
  channel_id : bytes;
  ch_name : bytes;
  manufacturer : option bytes;
  model : option bytes;
  owner : option bytes;
  civil_code : option bytes;
  block : option bytes;
  address : option bytes;
  parental : option Z;
  parent_id : option bytes;
  safety_way : option Z;
  register_way : option Z;
  cert_num : option bytes;
  certifiable : option Z;
  err_code : option Z;
  end_time : option bytes;
  secrecy : option Z;
  ip_address : option bytes;
  ch_port : option Z;
  ch_password : option bytes;
  ptz_type : option Z;
  ch_status : bytes;
  longitude : option f64;
  latitude : option f64
}.

Definition trimmed_text (n : XmlNode) (name : string) : option bytes := trim <$> text_of n (str name).
Definition num (n : XmlNode) (name : string) : option Z := trimmed_text n name ≫= parse_u32.
Definition flt (n : XmlNode) (name : string) : option f64 := trimmed_text n name ≫= parse_f64.

Definition channel_from_xml (item : XmlNode) : option ChannelInfo :=
  match trimmed_text item "DeviceID" with
  | None => None
  | Some channel_id =>
      let text := trimmed_text item in
      Some {| channel_id := channel_id; ch_name := trim (default [] (text_of item (str "Name"))); manufacturer := text "Manufacturer";
              model := text "Model"; owner := text "Owner"; civil_code := text "CivilCode"; block := text "Block"; address := text "Address";
              parental := num item "Parental"; parent_id := text "ParentID"; safety_way := num item "SafetyWay";
              register_way := num item "RegisterWay"; cert_num := text "CertNum"; certifiable := num item "Certifiable";
              err_code := num item "ErrCode"; end_time := text "EndTime"; secrecy := num item "Secrecy"; ip_address := text "IPAddress";
              ch_port := num item "Port"; ch_password := text "Password"; ptz_type := num item "PTZType";
              ch_status := trim (default (str "OFF") (text_of item (str "Status")));
              longitude := flt item "Longitude"; latitude := flt item "Latitude" |}
  end.

Record DeviceInfo : Type := {
  device_id : bytes;
  di_name : option bytes;
  di_manufacturer : option bytes;
  di_model : option bytes;
  firmware : option bytes;
  di_address : option bytes;
  di_civil_code : option bytes;
  channel_num : option Z;
  di_result : option bytes
}.

Definition device_from_xml (root : XmlNode) : DeviceInfo :=
  let text := trimmed_text root in
  {| device_id := trim (default [] (text_of root (str "DeviceID"))); di_name := text "DeviceName"; di_manufacturer := text "Manufacturer";
     di_model := text "Model"; firmware := text "Firmware"; di_address := text "Address"; di_civil_code := text "CivilCode";
     channel_num := num root "Channel"; di_result := text "Result" |}.

Definition parse_catalog (root : XmlNode) : list ChannelInfo := omap channel_from_xml (descendants_named root (str "Item")).

(** ** Messages are read back *)

(** A header as it can be written: its name as it is compared, its value
    without line ends or white space around it. *)
Definition name_plain (n : string) : Prop := lacks 58 (str n) /\ lacks 13 (str n) /\ trimmed (str n) /\ str n <> [].
Definition header_ok (h : string * bytes) : Prop := name_plain h.1 /\ lacks 13 h.2 /\ (h.2 = [] \/ trimmed h.2).

Definition headers_of (hs : list (string * bytes)) : gmap bytes bytes :=
  foldl (fun m h => <[to_ascii_lowercase (str h.1) := h.2]> m) ∅ hs.

Lemma trim_value v : v = [] \/ trimmed v -> trim (32 :: v) = v.
Proof.
  intros [->|Ht]; [apply trim_all_space|]. destruct v as [|x v]; [apply trim_all_space|]. apply trim_space; [done|discriminate].
Qed.

Lemma header_split h : header_ok h -> split_once 58 (header_line h) = Some (str h.1, 32 :: h.2).
Proof. intros ((Hc & _) & _). unfold header_line. change (str ": " ++ h.2) with (58 :: 32 :: h.2). by apply split_once_app. Qed.

Lemma header_line_ne h : header_ok h -> header_line h <> [].
Proof. intros ((_ & _ & _ & Hn) & _). unfold header_line. by destruct (str h.1). Qed.

Lemma header_line_lacks h : header_ok h -> lacks 13 (header_line h).
Proof.
  intros ((_ & Hn & _) & Hv & _). unfold header_line, lacks in *. rewrite !elem_of_app. intros [?|[Hin|?]]; [done| |done]. revert Hin. not_in.
Qed.

(** The number that counts: the last one of that name. *)
Definition length_header (hs : list (string * bytes)) (cl : Z) : Z :=
  foldl (fun cl h => if bool_decide (to_ascii_lowercase (str h.1) = str "content-length") then default 0 (parse_usize h.2) else cl) cl hs.

Lemma header_lines_written hs rest : Forall header_ok hs -> forall m cl,
  header_lines ((header_line <$> hs) ++ [] :: rest) m cl =
  (foldl (fun m h => <[to_ascii_lowercase (str h.1) := h.2]> m) m hs, length_header hs cl, rest).
Proof.
  induction 1 as [|h hs Hh Hhs IH]; intros m cl; [done|]. cbn [fmap list_fmap app header_lines].
  rewrite bool_decide_false by by apply header_line_ne. rewrite header_split by done. cbn [app]. rewrite (trim_trimmed (str h.1)) by apply Hh.
  rewrite trim_value by apply Hh. apply IH.
Qed.

Lemma split_crlf_lines ls s : Forall (lacks 13) ls -> split_crlf (concat ((fun l => l ++ CRLF) <$> ls) ++ s) = ls ++ split_crlf s.
Proof.
  induction 1 as [|l ls Hl Hls IH]; [done|]. cbn [fmap list_fmap concat]. rewrite <-!app_assoc, split_crlf_line by done. cbn [app]. by rewrite IH.
Qed.

Lemma sip_text_split first hs body : lacks 13 first -> Forall header_ok hs ->
  split_crlf (sip_text first hs body) = first :: (header_line <$> hs) ++ [] :: split_crlf body.
Proof.
  intros Hf Hh. unfold sip_text. rewrite split_crlf_line by done. f_equal.
  replace ((fun h => header_line h ++ CRLF) <$> hs) with ((fun l => l ++ CRLF) <$> (header_line <$> hs)) by by rewrite <-list_fmap_compose.
  rewrite split_crlf_lines; [|rewrite Forall_fmap; eapply Forall_impl; [exact Hh|]; intros h Hx; by apply header_line_lacks].
  done.
Qed.

(** The body as the parser puts it together. *)
Definition received_body (body : bytes) (content_length : Z) : result bytes :=
  let b := rejoin (split_crlf body) in
  if (0 <? content_length) && (content_length <? zlen b) then truncate b (Z.to_nat content_length) else Ok b.

Definition message_of (first : bytes) (hs : gmap bytes bytes) (body : bytes) : SipMessage :=
  let parts := split_whitespace first in
  let a := default [] (parts !! 0%nat) in
  let b := default [] (parts !! 1%nat) in
  let c := default [] (parts !! 2%nat) in
  if starts_with (str "SIP/2.0") a
  then {| method := None; status := parse_u16 b; uri := c; headers := hs; sip_body := body |}
  else {| method := Some a; status := None; uri := b; headers := hs; sip_body := body |}.

Lemma parse_written first hs body :
  utf8_valid (sip_text first hs body) = true -> lacks 13 first -> Forall header_ok hs ->
  parse_sip (sip_text first hs body) =
  (b ← received_body body (length_header hs 0); Ok (message_of first (headers_of hs) b)).
Proof.
  intros Hu Hf Hh. unfold parse_sip. rewrite from_utf8_lossy_valid by done. rewrite sip_text_split by done.
  rewrite header_lines_written by done. done.
Qed.

Lemma headers_of_snoc hs h : headers_of (hs ++ [h]) = <[to_ascii_lowercase (str h.1) := h.2]> (headers_of hs).
Proof. unfold headers_of. by rewrite foldl_app. Qed.

Lemma length_header_written hs body : length_header (with_length hs body) 0 = default 0 (parse_usize (dec (zlen body))).
Proof. unfold length_header, with_length. rewrite foldl_app. done. Qed.

Lemma zlen_parsed (body : bytes) : zlen body < 2 ^ 64 -> default 0 (parse_usize (dec (zlen body))) = zlen body.
Proof. intros Hl. unfold parse_usize. rewrite parse_uint_dec; [done| |lia]. unfold zlen in *. lia. Qed.

(** A body of one line comes back; one of whole lines with other line ends. *)
Lemma received_line body : lacks 13 body -> body <> [] -> received_body body (zlen body) = Ok body.
Proof.
  intros Hl Hne. unfold received_body. rewrite split_crlf_last by done. unfold rejoin. cbn [fmap list_fmap concat]. rewrite app_nil_r.
  rewrite zlen_app. change (@zlen Z [10]) with 1. assert (0 < zlen body) by (unfold zlen; destruct body; [done|cbn; lia]).
  rewrite (proj2 (Z.ltb_lt 0 _)) by done. rewrite (proj2 (Z.ltb_lt (zlen body) _)) by lia. cbn [andb].
  unfold zlen. rewrite Nat2Z.id. unfold truncate. rewrite length_app. cbn [length]. rewrite (proj2 (Nat.ltb_ge _ _)) by lia.
  unfold is_char_boundary. rewrite lookup_app_r, Nat.sub_diag by lia. cbn [lookup list_lookup]. rewrite orb_true_r.
  by rewrite take_app_length.
Qed.

Lemma received_lines ls : Forall (lacks 13) ls -> ls <> [] ->
  received_body (concat ((fun l => l ++ CRLF) <$> ls)) (zlen (concat ((fun l => l ++ CRLF) <$> ls))) = Ok (rejoin ls ++ [10]).
Proof.
  intros Hl Hne. pose proof (split_crlf_lines ls [] Hl) as Hs. rewrite app_nil_r in Hs. change (split_crlf []) with ([[]] : list bytes) in Hs.
  unfold received_body. rewrite Hs. unfold rejoin. rewrite fmap_app, concat_app. cbn [fmap list_fmap concat app].
  assert (zlen (concat ((fun l => l ++ [10]) <$> ls)) + zlen ls = zlen (concat ((fun l => l ++ CRLF) <$> ls))) as Hz.
  { clear. induction ls as [|l ls IH]; [done|]. cbn [fmap list_fmap concat]. rewrite !zlen_app, (zlen_cons l ls). change (@zlen Z CRLF) with 2. change (@zlen Z [10]) with 1. lia. }
  rewrite zlen_app. change (@zlen Z [10]) with 1. assert (0 < zlen ls) by (unfold zlen; destruct ls; [done|cbn; lia]).
  rewrite <-Hz. rewrite (proj2 (Z.ltb_ge (_ + zlen ls) _)) by lia. by rewrite andb_false_r.
Qed.

(** *** The parser answers *)

(** The length that a message gives for its body lies inside a character. *)
Definition cut_inside (input : bytes) : Prop :=
  exists first ls hs cl rest,
    split_crlf (from_utf8_lossy input) = first :: ls /\ header_lines ls ∅ 0 = (hs, cl, rest) /\
    0 < cl < zlen (rejoin rest) /\ is_char_boundary (rejoin rest) (Z.to_nat cl) = false.

Lemma split_crlf_nonempty s : split_crlf s <> [].
Proof.
  destruct s as [|x s]; [done|]. cbn [split_crlf]. destruct (strip_prefix _ _); [by destruct s|]. by destruct (split_crlf s).
Qed.

Lemma parse_sip_outcome input : (parse_sip input = Panic /\ cut_inside input) \/ (~ cut_inside input /\ exists m, parse_sip input = Ok m).
Proof.
  unfold parse_sip, cut_inside. destruct (split_crlf _) as [|first ls] eqn:E; [by apply split_crlf_nonempty in E|].
  destruct (header_lines ls ∅ 0) as [[hs cl] rest] eqn:Eh.
  destruct (decide (0 < cl < zlen (rejoin rest))) as [[H0 H1]|Hn].
  - rewrite (proj2 (Z.ltb_lt 0 cl)), (proj2 (Z.ltb_lt cl _)) by done. cbn [andb]. unfold truncate.
    rewrite (proj2 (Nat.ltb_ge _ _)) by (unfold zlen in H1; lia). destruct (is_char_boundary _ _) eqn:Eb.
    + right. split; [|by eexists]. intros (f & l & h & c & r & [= <- <-] & Hl & _ & Hb). rewrite Eh in Hl. injection Hl as <- <- <-. congruence.
    + left. split; [done|]. by exists first, ls, hs, cl, rest.
  - right. split; [intros (f & l & h & c & r & [= <- <-] & Hl & Hc & _); rewrite Eh in Hl; injection Hl as <- <- <-; done|].
    assert ((0 <? cl) && (cl <? zlen (rejoin rest)) = false) as -> by (apply andb_false_iff; rewrite !Z.ltb_ge; lia). by eexists.
Qed.
