(* ===== verification/SipServer.v ===== *)
(** * SipServer: the GB28181 platform

    [srt/src/gb28181/sip.rs]: the server's tables (devices, dialogs that wait
    for an answer, dialogs that run, queries), the handlers of its datagrams
    and the operations the management interface calls.  It opens ports of
    [GbRtp] and starts senders of [RtpSend].  A handler's datagrams are a list
    of actions; what it asks of clock, sockets and media sources is a record of
    answers.  Instants are nanoseconds.  The static counter of media ports is
    a field of the server. *)

From S2P Require Import Prelude Frame F64 Utf8 Text Auth Xml SipMsg.
From S2P Require GbRtp RtpSend.
#[local] Open Scope Z_scope.
#[local] Set Warnings "-clear-no-such-hyp".

Record SipServerConfig : Type := {
  sip_port : Z;
  realm : bytes;
  password : option bytes;
  cfg_host : option bytes;
  media_port_base : Z;
  cfg_vhost : string
}.

Record DeviceContact : Type := {
  addr : SocketAddr;
  last_seen : Z;
  expires : Z;                         (* seconds *)
  dev_info : option DeviceInfo;
  channels : list ChannelInfo
}.

Record TalkCtx : Type := {
  talk_vhost : string;
  talk_app : string;
  talk_stream : string;
  talk_codec : CodecId;
  talk_payload_type : Z;
  talk_ssrc : Z
}.

Inductive InviteKind : Type :=
| Play
| Talk (t : TalkCtx).

Record InviteCtx : Type := {
  ctx_device : bytes;
  ctx_channel : bytes;
  media_port : Z;
  ctx_kind : InviteKind;
  dialog_from : bytes;
  dialog_to : bytes
}.

(** A query waits under its number with the caller that asked. *)
Record SipServer : Type := {
  config : SipServerConfig;
  rtp : GbRtp.RtpServerManager;
  rtp_sender : RtpSend.Manager;
  devices : gmap bytes DeviceContact;
  pending : gmap bytes InviteCtx;
  active : gmap bytes InviteCtx;
  pending_queries : gmap Z nat;
  sn_counter : Z;
  shutdown : bool;
  next_media : Z
}.

Definition server_new (c : SipServerConfig) (base : Z) : SipServer :=
  {| config := c; rtp := GbRtp.manager_new base; rtp_sender := RtpSend.manager_new; devices := ∅; pending := ∅; active := ∅;
     pending_queries := ∅; sn_counter := 0; shutdown := false; next_media := 0 |}.

Definition set_rtp (s : SipServer) (r : GbRtp.RtpServerManager) : SipServer :=
  {| config := config s; rtp := r; rtp_sender := rtp_sender s; devices := devices s; pending := pending s; active := active s;
     pending_queries := pending_queries s; sn_counter := sn_counter s; shutdown := shutdown s; next_media := next_media s |}.
Definition set_sender (s : SipServer) (m : RtpSend.Manager) : SipServer :=
  {| config := config s; rtp := rtp s; rtp_sender := m; devices := devices s; pending := pending s; active := active s;
     pending_queries := pending_queries s; sn_counter := sn_counter s; shutdown := shutdown s; next_media := next_media s |}.
Definition set_devices (s : SipServer) (d : gmap bytes DeviceContact) : SipServer :=
  {| config := config s; rtp := rtp s; rtp_sender := rtp_sender s; devices := d; pending := pending s; active := active s;
     pending_queries := pending_queries s; sn_counter := sn_counter s; shutdown := shutdown s; next_media := next_media s |}.
Definition set_pending (s : SipServer) (m : gmap bytes InviteCtx) : SipServer :=
  {| config := config s; rtp := rtp s; rtp_sender := rtp_sender s; devices := devices s; pending := m; active := active s;
     pending_queries := pending_queries s; sn_counter := sn_counter s; shutdown := shutdown s; next_media := next_media s |}.
Definition set_active (s : SipServer) (m : gmap bytes InviteCtx) : SipServer :=
  {| config := config s; rtp := rtp s; rtp_sender := rtp_sender s; devices := devices s; pending := pending s; active := m;
     pending_queries := pending_queries s; sn_counter := sn_counter s; shutdown := shutdown s; next_media := next_media s |}.
Definition set_queries (s : SipServer) (q : gmap Z nat) (sn : Z) : SipServer :=
  {| config := config s; rtp := rtp s; rtp_sender := rtp_sender s; devices := devices s; pending := pending s; active := active s;
     pending_queries := q; sn_counter := sn; shutdown := shutdown s; next_media := next_media s |}.
Definition set_shutdown (s : SipServer) : SipServer :=
  {| config := config s; rtp := rtp s; rtp_sender := rtp_sender s; devices := devices s; pending := pending s; active := active s;
     pending_queries := pending_queries s; sn_counter := sn_counter s; shutdown := true; next_media := next_media s |}.
Definition set_next_media (s : SipServer) (n : Z) : SipServer :=
  {| config := config s; rtp := rtp s; rtp_sender := rtp_sender s; devices := devices s; pending := pending s; active := active s;
     pending_queries := pending_queries s; sn_counter := sn_counter s; shutdown := shutdown s; next_media := n |}.

Definition contact (a : SocketAddr) (now secs : Z) : DeviceContact :=
  {| addr := a; last_seen := now; expires := secs; dev_info := None; channels := [] |}.
Definition seen (now : Z) (d : DeviceContact) : DeviceContact :=
  {| addr := addr d; last_seen := now; expires := expires d; dev_info := dev_info d; channels := channels d |}.
Definition set_expires (secs : Z) (d : DeviceContact) : DeviceContact :=
  {| addr := addr d; last_seen := last_seen d; expires := secs; dev_info := dev_info d; channels := channels d |}.
Definition set_channels (l : list ChannelInfo) (d : DeviceContact) : DeviceContact :=
  {| addr := addr d; last_seen := last_seen d; expires := expires d; dev_info := dev_info d; channels := l |}.
Definition set_info (i : DeviceInfo) (d : DeviceContact) : DeviceContact :=
  {| addr := addr d; last_seen := last_seen d; expires := expires d; dev_info := Some i; channels := channels d |}.

(** What an operation does outside the server: datagrams, and the answer of a
    query for its caller. *)
Inductive Action : Type :=
| Send (a : SocketAddr) (data : bytes)
| Deliver (waiter : nat) (root : XmlNode).

(** What it asks.  [tag_nanos] are the times of the successive tags;
    [probe_socket] is the answer of the bind in [local_ip], then of the
    socket's address. *)
Record World : Type := {
  now : Z;
  tag_nanos : nat -> Z;
  probe_socket : option (option bytes);
  can_bind : GbRtp.RtpTcpMode -> Z -> bool;
  can_send : bool;
  find_source : string -> string -> string -> option (list TrackInfo);
  sender_transport : bool
}.

Definition local_ip (w : World) : bytes :=
  match probe_socket w with
  | Some (Some a) => a
  | _ => str "127.0.0.1"
  end.

Section Server.
Context `{AuthPrimitives}.
(** The parser of addresses; the order in which a table is walked. *)
Context (parse_ip : bytes -> option bytes) (walk : forall A : Type, gmap bytes A -> list (bytes * A)).

Section Step.
Context (w : World).

Definition tag (i : nat) : bytes := gen_tag (tag_nanos w i).

Definition host (c : SipServerConfig) : bytes :=
  match cfg_host c with
  | Some h => if bool_decide (h = []) then local_ip w else h
  | None => local_ip w
  end.

(** [format!("{h}:{p}")] *)
Definition with_port (h : bytes) (p : Z) : bytes := h ++ [58] ++ dec p.
Definition tagged (s : bytes) (t : bytes) : bytes := s ++ str ";tag=" ++ t.

(** ** Media *)

Definition stop_media (s : SipServer) (ctx : InviteCtx) : SipServer :=
  match ctx_kind ctx with
  | Play => set_rtp s (GbRtp.close (rtp s) (media_port ctx)).1
  | Talk t => set_sender s (RtpSend.stop (rtp_sender s) (talk_vhost t) (talk_app t) (talk_stream t) (Some (talk_ssrc t))).1
  end.

(** Ends the running dialog. *)
Definition end_active (s : SipServer) (call_id : bytes) : SipServer :=
  match active s !! call_id with
  | Some ctx => stop_media (set_active s (delete call_id (active s))) ctx
  | None => s
  end.

Definition unregister_device (s : SipServer) (id : bytes) : SipServer :=
  match devices s !! id with
  | Some _ =>
      let s := set_devices s (delete id (devices s)) in
      let to_close := (List.filter (fun e => bool_decide (ctx_device e.2 = id)) (walk _ (active s))).*1 in
      foldl end_active s to_close
  | None => s
  end.

Definition lapsed (d : DeviceContact) : bool := expires d * 10 ^ 9 <? now w - last_seen d.

Definition expire_devices (s : SipServer) : SipServer :=
  foldl unregister_device s (List.filter (fun e => lapsed e.2) (walk _ (devices s))).*1.

Definition stop (s : SipServer) : SipServer :=
  if shutdown s then s else foldl unregister_device (set_shutdown s) (walk _ (devices s)).*1.

(** The next media port; the counter is taken even if nothing is opened. *)
Definition rtp_port_for_invite (s : SipServer) : Z * SipServer :=
  (Z.min 65535 (media_port_base (config s) + next_media s), set_next_media s (u16 (next_media s + 1))).

Definition open_port (s : SipServer) (p : Z) (app : string) (stream : bytes) : SipServer * result Z :=
  let '(m, r) := GbRtp.open_with_mode (can_bind w) (Z.to_nat 65536) (rtp s) p (cfg_vhost (config s)) app (string_of stream) GbRtp.PtPs None GbRtp.ModeUdp in
  (set_rtp s m, r).

(** ** Requests from devices *)

Definition respond (a : SocketAddr) (status_line : string) (hs : list (string * bytes)) (body : bytes) : Action :=
  Send a (sip_text (str "SIP/2.0 " ++ str status_line) (with_length hs body) body).

(** The headers every response repeats. *)
Definition echoed (msg : SipMessage) : list (string * bytes) :=
  [("Via"%string, header msg "via"); ("From"%string, header msg "from"); ("To"%string, tagged (header msg "to") (tag 0));
   ("Call-ID"%string, header msg "call-id"); ("CSeq"%string, header msg "cseq")].
Definition echoed_contact (msg : SipMessage) : list (string * bytes) := echoed msg ++ [("Contact"%string, header msg "contact")].

(** Is a request to register refused? *)
Definition refused (c : SipServerConfig) (device_id : bytes) (msg : SipMessage) : bool :=
  match password c with
  | Some p =>
      negb (bool_decide (p = [])) &&
      negb (check_digest (header msg "authorization") device_id p (uri msg) (str "REGISTER") (realm c))
  | None => false
  end.

Definition challenge (c : SipServerConfig) (nonce : bytes) : bytes :=
  str "Digest realm=" ++ [34] ++ realm c ++ [34] ++ str ", nonce=" ++ [34] ++ nonce ++ [34] ++ str ", algorithm=MD5".

Definition handle_register (s : SipServer) (a : SocketAddr) (msg : SipMessage) : SipServer * list Action :=
  match uri_user (header msg "from") with
  | None => (s, [])
  | Some device_id =>
      if refused (config s) device_id msg then
        (s, [respond a "401 Unauthorized" (echoed_contact msg ++ [("WWW-Authenticate"%string, challenge (config s) (gen_nonce (tag_nanos w 1)))]) []])
      else
        let expires_secs := default 3600 (get msg "expires" ≫= fun e => parse_u64 (trim e)) in
        let s := if expires_secs =? 0 then unregister_device s device_id
                 else set_devices s (<[device_id := contact a (now w) expires_secs]> (devices s)) in
        (s, [respond a "200 OK" (echoed_contact msg ++ [("Expires"%string, dec expires_secs)]) []])
  end.

Definition forward_query_response (s : SipServer) (root : XmlNode) : SipServer * list Action :=
  match trimmed_text root "SN" ≫= parse_u32 with
  | Some sn =>
      match pending_queries s !! sn with
      | Some waiter => (set_queries s (delete sn (pending_queries s)) (sn_counter s), [Deliver waiter root])
      | None => (s, [])
      end
  | None => (s, [])
  end.

Definition update_device (s : SipServer) (id : bytes) (f : DeviceContact -> DeviceContact) : SipServer :=
  set_devices s (alter f id (devices s)).

(** Three intervals, at least a minute; the product is checked. *)
Definition keepalive_expires (interval : Z) : result Z :=
  if interval * 3 <? 2 ^ 64 then Ok (Z.max (interval * 3) 60) else Panic.

Definition handle_command (s : SipServer) (device_id : bytes) (root : XmlNode) : result (SipServer * list Action) :=
  match text_of root (str "CmdType") with
  | Some cmd =>
      if bool_decide (cmd = str "Keepalive") then
        match trimmed_text root "Interval" ≫= parse_u64 with
        | Some interval => e ← keepalive_expires interval; Ok (update_device s device_id (set_expires e), [])
        | None => Ok (s, [])
        end
      else if bool_decide (cmd = str "Catalog") then
        Ok (forward_query_response (update_device s device_id (set_channels (parse_catalog root))) root)
      else if bool_decide (cmd = str "DeviceInfo") then
        Ok (forward_query_response (update_device s device_id (set_info (device_from_xml root))) root)
      else Ok (s, [])
  | None => Ok (s, [])
  end.

Definition handle_message (s : SipServer) (a : SocketAddr) (msg : SipMessage) : result (SipServer * list Action) :=
  let device_id := default [] (uri_user (header msg "from")) in
  let s := match devices s !! device_id with
           | Some d => set_devices s (<[device_id := seen (now w) d]> (devices s))
           | None => set_devices s (<[device_id := contact a (now w) 3600]> (devices s))
           end in
  '(s, acts) ← match parse_xml (sip_body msg) with
               | Ok root => handle_command s device_id root
               | Err _ => Ok (s, [])
               | Panic => Panic
               | NoFuel => NoFuel
               end;
  Ok (s, acts ++ [respond a "200 OK" (echoed_contact msg) []]).

(** A session description: the lines between the times and the source. *)
Definition sdp_of (c : SipServerConfig) (session : string) (media : list bytes) (y : bytes) : bytes :=
  concat ((fun l => l ++ CRLF) <$>
    [str "v=0"; str "o=" ++ realm c ++ str " 0 0 IN IP4 " ++ host c; str "s=" ++ str session; str "c=IN IP4 " ++ host c; str "t=0 0"] ++
    media ++ [str "y=" ++ y]).

Definition video_lines (p : Z) (direction : string) : list bytes :=
  [str "m=video " ++ dec p ++ str " RTP/AVP 96"; str "a=rtpmap:96 PS/90000"; str "a=" ++ str direction].

Definition handle_invite_received (s : SipServer) (a : SocketAddr) (msg : SipMessage) : SipServer * list Action :=
  let device_id := default [] (uri_user (header msg "from")) in
  let y := default (str "0") (sdp_value (sip_body msg) "y=") in
  let '(p, s) := rtp_port_for_invite s in
  let stream := str "rtp_" ++ y in
  let '(s, opened) := open_port s p "rtp" stream in
  let s := match opened with
           | Ok _ => set_active s (<[header msg "call-id" :=
               {| ctx_device := device_id; ctx_channel := stream; media_port := p; ctx_kind := Play;
                  dialog_from := tagged (header msg "to") (tag 0); dialog_to := header msg "from" |}]> (active s))
           | _ => s
           end in
  (s, [respond a "200 OK" (echoed_contact msg ++ [("Content-Type"%string, str "application/sdp")])
        (sdp_of (config s) "Play" (video_lines p "sendonly") y)]).

Definition handle_bye (s : SipServer) (a : SocketAddr) (msg : SipMessage) : SipServer * list Action :=
  let call_id := header msg "call-id" in
  let s := match active s !! call_id, pending s !! call_id with
           | Some ctx, _ => stop_media (set_active s (delete call_id (active s))) ctx
           | None, Some ctx => stop_media (set_pending s (delete call_id (pending s))) ctx
           | None, None => s
           end in
  (s, [respond a "200 OK" (echoed msg) []]).

(** ** Answers from devices *)

Definition sip_uri (user : bytes) (h : bytes) (p : Z) : bytes := str "sip:" ++ user ++ str "@" ++ with_port h p.
Definition request_line (name : string) (user : bytes) (a : SocketAddr) : bytes :=
  str name ++ str " " ++ sip_uri user (ip a) (port a) ++ str " SIP/2.0".
Definition via (h t : bytes) : bytes := str "SIP/2.0/UDP " ++ h ++ str ";branch=z9hG4bK" ++ t.
Definition bracketed (user h : bytes) : bytes := str "<sip:" ++ user ++ str "@" ++ h ++ str ">".

Definition ack (a : SocketAddr) (ctx : InviteCtx) (call_id : bytes) (msg : SipMessage) : Action :=
  let cseq_number := default (str "1") (head (split_whitespace (header msg "cseq"))) in
  Send a (sip_text (request_line "ACK" (ctx_channel ctx) a)
    [("Via"%string, header msg "via"); ("From"%string, header msg "from"); ("To"%string, header msg "to"); ("Call-ID"%string, call_id);
     ("CSeq"%string, cseq_number ++ str " ACK"); ("Max-Forwards"%string, str "70"); ("Content-Length"%string, str "0")] []).

Definition talk_request (t : TalkCtx) (p : Z) (d : SocketAddr) : RtpSend.RtpSendRequest :=
  {| RtpSend.vhost := talk_vhost t; RtpSend.app := talk_app t; RtpSend.stream := talk_stream t; RtpSend.req_ssrc := talk_ssrc t;
     RtpSend.dst_host := string_of (ip d); RtpSend.dst_port := port d; RtpSend.src_port := p; RtpSend.req_payload_type := talk_payload_type t;
     RtpSend.is_udp := true; RtpSend.data_type := RtpSend.Es; RtpSend.only_audio := true; RtpSend.passive := false;
     RtpSend.ssrc_multi_send := false |}.

(** [RtpSenderManager::start]; the server has no muxer for transport streams. *)
Definition start_sender (m : RtpSend.Manager) (r : RtpSend.RtpSendRequest) : RtpSend.Manager * bool :=
  match RtpSend.start_guards false (bool_decide (is_Some (find_source w (RtpSend.vhost r) (RtpSend.app r) (RtpSend.stream r)))) m r with
  | Ok _ => if sender_transport w then (RtpSend.start_commit (RtpSend.start_begin m r) (length (RtpSend.pending m)) r, true) else (m, false)
  | _ => (m, false)
  end.

Definition answered (ctx : InviteCtx) (msg : SipMessage) : InviteCtx :=
  {| ctx_device := ctx_device ctx; ctx_channel := ctx_channel ctx; media_port := media_port ctx; ctx_kind := ctx_kind ctx;
     dialog_from := header msg "from"; dialog_to := header msg "to" |}.

Definition handle_response (s : SipServer) (a : SocketAddr) (msg : SipMessage) : SipServer * list Action :=
  match get msg "call-id" with
  | None => (s, [])
  | Some call_id =>
      let code := default 0 (status msg) in
      if code <? 200 then (s, []) else
      match pending s !! call_id with
      | None => (s, [])
      | Some ctx =>
          let s := set_pending s (delete call_id (pending s)) in
          if negb (code =? 200) then (stop_media s ctx, []) else
          let acts := [ack a ctx call_id msg] in
          let ctx := answered ctx msg in
          match ctx_kind ctx with
          | Play => (set_active s (<[call_id := ctx]> (active s)), acts)
          | Talk t =>
              match talk_destination parse_ip (sip_body msg) a (talk_payload_type t) with
              | Ok destination =>
                  let '(m, started) := start_sender (rtp_sender s) (talk_request t (media_port ctx) destination) in
                  let s := set_sender s m in
                  (if started then set_active s (<[call_id := ctx]> (active s)) else s, acts)
              | _ => (s, acts)
              end
          end
      end
  end.

(** One datagram: the buffer holds 4096 bytes. *)
Definition receive (s : SipServer) (a : SocketAddr) (data : bytes) : result (SipServer * list Action) :=
  msg ← parse_sip (take 4096 data);
  match method msg with
  | Some m =>
      if bool_decide (m = str "REGISTER") then Ok (handle_register s a msg)
      else if bool_decide (m = str "MESSAGE") then handle_message s a msg
      else if bool_decide (m = str "INVITE") then Ok (handle_invite_received s a msg)
      else if bool_decide (m = str "BYE") then Ok (handle_bye s a msg)
      else Ok (s, [])
  | None => Ok (handle_response s a msg)
  end.

(** ** Operations *)

(** A dialog of our own: its call, the tag of our side, the request and what is
    kept of it. *)
Definition own_call_id (c : SipServerConfig) : bytes := tag 0 ++ [64] ++ host c.
Definition own_from (c : SipServerConfig) : bytes := bracketed (realm c) (host c).

Definition invite_request (c : SipServerConfig) (id : bytes) (d : SocketAddr) (channel body : bytes) : bytes :=
  sip_text (request_line "INVITE" channel d)
    (with_length
       [("Via"%string, via (host c) (tag 1)); ("From"%string, tagged (own_from c) (tag 2)); ("To"%string, bracketed id (ip d));
        ("Call-ID"%string, own_call_id c); ("CSeq"%string, str "1 INVITE");
        ("Contact"%string, str "<" ++ sip_uri (realm c) (host c) (sip_port c) ++ str ">"); ("Content-Type"%string, str "application/sdp");
        ("Max-Forwards"%string, str "70"); ("Subject"%string, channel)] body) body.

Definition own_ctx (c : SipServerConfig) (id : bytes) (d : SocketAddr) (channel : bytes) (p : Z) (k : InviteKind) : InviteCtx :=
  {| ctx_device := id; ctx_channel := channel; media_port := p; ctx_kind := k; dialog_from := tagged (own_from c) (tag 2);
     dialog_to := bracketed id (ip d) |}.

Definition play_sdp (c : SipServerConfig) (p : Z) (channel : bytes) : bytes :=
  sdp_of c "Play" (video_lines p "recvonly") (pad 9 (dec (gen_ssrc channel))).

(** [invite] up to the datagram, and behind it: the dialog is entered once the
    request is sent. *)
Definition invite_begin (s : SipServer) (id channel : bytes) : SipServer * result (Z * list Action * (bytes * InviteCtx)) :=
  match devices s !! id with
  | None => (s, Err (Anyhow "device not registered"))
  | Some device =>
      let d := addr device in
      let c := config s in
      let '(p, s) := rtp_port_for_invite s in
      let '(s, opened) := open_port s p "gb28181" channel in
      match opened with
      | Ok _ =>
          if can_send w
          then (s, Ok (p, [Send d (invite_request c id d channel (play_sdp c p channel))], (own_call_id c, own_ctx c id d channel p Play)))
          else (s, Err (Anyhow "send"))
      | Err e => (s, Err e)
      | Panic => (s, Panic)
      | NoFuel => (s, NoFuel)
      end
  end.

Definition invite_finish (s : SipServer) (entry : bytes * InviteCtx) : SipServer :=
  set_pending s (<[entry.1 := entry.2]> (pending s)).

Definition is_talk (k : InviteKind) : bool := match k with Talk _ => true | Play => false end.

Definition talks_on (channel : bytes) (m : gmap bytes InviteCtx) : bool :=
  existsb (fun e => bool_decide (ctx_channel e.2 = channel) && is_talk (ctx_kind e.2)) (walk _ m).

(** The first G.711 track. *)
Definition talk_track (t : TrackInfo) : option CodecId :=
  match t with
  | TrackAudio a => if bool_decide (audio_codec a = G711A) || bool_decide (audio_codec a = G711U) then Some (audio_codec a) else None
  | TrackVideo _ => None
  end.

Definition talk_lines (p pt : Z) (encoding : string) : list bytes :=
  [str "m=audio " ++ dec p ++ str " RTP/AVP " ++ dec pt; str "a=rtpmap:" ++ dec pt ++ str " " ++ str encoding ++ str "/8000"; str "a=sendonly"].

(** [start_talk] up to the datagram; [invite_finish] is the rest. *)
Definition talk_begin (s : SipServer) (id channel : bytes) (vhost app stream : string) :
    SipServer * result (Z * list Action * (bytes * InviteCtx)) :=
  match devices s !! id with
  | None => (s, Err (Anyhow "device not registered"))
  | Some device =>
      if talks_on channel (active s) || talks_on channel (pending s) then (s, Err (Anyhow "voice talk is already active or pending for channel"))
      else
      match find_source w vhost app stream with
      | None => (s, Err (Anyhow "talk audio source not found"))
      | Some tracks =>
          match head (omap talk_track tracks) with
          | None => (s, Err (Anyhow "talk source must contain a G.711A or G.711U audio track"))
          | Some codec =>
              let '(pt, encoding) := if bool_decide (codec = G711U) then (0, "PCMU"%string) else (8, "PCMA"%string) in
              let d := addr device in
              let c := config s in
              let '(p, s) := rtp_port_for_invite s in
              let ssrc := gen_ssrc (str "talk-" ++ channel) in
              let t := {| talk_vhost := vhost; talk_app := app; talk_stream := stream; talk_codec := codec; talk_payload_type := pt;
                          talk_ssrc := ssrc |} in
              if can_send w
              then (s, Ok (p, [Send d (invite_request c id d channel (sdp_of c "Talk" (talk_lines p pt encoding) (pad 9 (dec ssrc))))],
                           (own_call_id c, own_ctx c id d channel p (Talk t))))
              else (s, Err (Anyhow "send"))
          end
      end
  end.

(** *** Queries *)

Definition next_sn (s : SipServer) : SipServer * result Z :=
  let n := sn_counter s in
  (set_queries s (pending_queries s) (u32 (n + 1)), if n + 1 <? 2 ^ 32 then Ok (n + 1) else Panic).

Definition element (name : string) (text : bytes) : bytes := str "<" ++ str name ++ str ">" ++ text ++ str "</" ++ str name ++ str ">".

Definition query_xml (cmd : string) (sn : Z) (id : bytes) : bytes :=
  str "<?xml version=" ++ [34] ++ str "1.0" ++ [34] ++ str "?>" ++ [10] ++ str "<Query>" ++ [10] ++ element "CmdType" (str cmd) ++ [10] ++
  element "SN" (dec sn) ++ [10] ++ element "DeviceID" id ++ [10] ++ str "</Query>".

Definition query_text (c : SipServerConfig) (id : bytes) (d : SocketAddr) (body : bytes) : bytes :=
  sip_text (request_line "MESSAGE" id d)
    (with_length
       [("Via"%string, via (host c) (tag 1)); ("From"%string, tagged (own_from c) (tag 2)); ("To"%string, bracketed id (ip d));
        ("Call-ID"%string, own_call_id c); ("CSeq"%string, str "20 MESSAGE");
        ("Contact"%string, str "<" ++ sip_uri (realm c) (host c) (sip_port c) ++ str ">");
        ("Content-Type"%string, str "Application/MANSCDP+xml"); ("Max-Forwards"%string, str "70")] body) body.

(** [send_query] up to the wait. *)
Definition query_begin (s : SipServer) (cmd : string) (waiter : nat) (id : bytes) : SipServer * result (Z * list Action) :=
  match devices s !! id with
  | None => (s, Err (Anyhow "device not registered"))
  | Some device =>
      match next_sn s with
      | (s, Ok sn) =>
          if can_send w
          then (set_queries s (<[sn := waiter]> (pending_queries s)) (sn_counter s),
                Ok (sn, [Send (addr device) (query_text (config s) id (addr device) (query_xml cmd sn id))]))
          else (set_queries s (delete sn (pending_queries s)) (sn_counter s), Err (Anyhow "send"))
      | (s, Err e) => (s, Err e)
      | (s, Panic) => (s, Panic)
      | (s, NoFuel) => (s, NoFuel)
      end
  end.

(** Behind the wait: what was delivered, or nothing within five seconds. *)
Definition query_end (s : SipServer) (sn : Z) (answer : option XmlNode) : SipServer * result XmlNode :=
  (set_queries s (delete sn (pending_queries s)) (sn_counter s), match answer with Some root => Ok root | None => Err (Anyhow "query timed out") end).

Definition query_catalog_end (s : SipServer) (sn : Z) (id : bytes) (answer : option XmlNode) : SipServer * result (list ChannelInfo) :=
  match query_end s sn answer with
  | (s, Ok root) => (update_device s id (set_channels (parse_catalog root)), Ok (parse_catalog root))
  | (s, Err e) => (s, Err e)
  | (s, Panic) => (s, Panic)
  | (s, NoFuel) => (s, NoFuel)
  end.

Definition query_device_info_end (s : SipServer) (sn : Z) (id : bytes) (answer : option XmlNode) : SipServer * result DeviceInfo :=
  match query_end s sn answer with
  | (s, Ok root) => (update_device s id (set_info (device_from_xml root)), Ok (device_from_xml root))
  | (s, Err e) => (s, Err e)
  | (s, Panic) => (s, Panic)
  | (s, NoFuel) => (s, NoFuel)
  end.

(** *** The end of a dialog *)

Definition dialog_of (channel : bytes) (talk : bool) (e : bytes * InviteCtx) : bool :=
  bool_decide (ctx_channel e.2 = channel) && Bool.eqb (is_talk (ctx_kind e.2)) talk.

Definition bye_text (c : SipServerConfig) (d : SocketAddr) (call_id : bytes) (ctx : InviteCtx) : bytes :=
  sip_text (request_line "BYE" (ctx_channel ctx) d)
    [("Via"%string, via (host c) (tag 0)); ("From"%string, dialog_from ctx); ("To"%string, dialog_to ctx); ("Call-ID"%string, call_id);
     ("CSeq"%string, str "2 BYE"); ("Max-Forwards"%string, str "70"); ("Content-Length"%string, str "0")] [].

Definition bye_dialog (s : SipServer) (channel : bytes) (talk : bool) : SipServer * list Action * bool :=
  match List.find (dialog_of channel talk) (walk _ (active s)) with
  | None => (s, [], false)
  | Some (call_id, ctx) =>
      let acts := match devices s !! ctx_device ctx with
                  | Some d => [Send (addr d) (bye_text (config s) (addr d) call_id ctx)]
                  | None => []
                  end in
      (stop_media (set_active s (delete call_id (active s))) ctx, acts, true)
  end.

Definition bye_stream (s : SipServer) (channel : bytes) : SipServer * list Action * bool := bye_dialog s channel false.
Definition stop_talk (s : SipServer) (channel : bytes) : SipServer * list Action * bool := bye_dialog s channel true.

(** *** Snapshots *)

Record DeviceListItem : Type := {
  item_device : bytes;
  online : bool;
  item_ip : bytes;
  item_port : Z;
  last_seen_ms : Z;
  expires_ms : Z;
  item_name : option bytes;
  item_manufacturer : option bytes;
  item_model : option bytes;
  item_firmware : option bytes;
  item_channels : list ChannelInfo
}.

Definition device_item (id : bytes) (d : DeviceContact) : DeviceListItem :=
  let since := Z.max 0 (now w - last_seen d) in
  {| item_device := id; online := since <? expires d * 10 ^ 9; item_ip := ip (addr d); item_port := port (addr d);
     last_seen_ms := u64 (since / 10 ^ 6); expires_ms := u64 (expires d * 1000); item_name := dev_info d ≫= di_name;
     item_manufacturer := dev_info d ≫= di_manufacturer; item_model := dev_info d ≫= di_model; item_firmware := dev_info d ≫= firmware;
     item_channels := channels d |}.

Definition list_devices (s : SipServer) : list DeviceListItem := (fun e => device_item e.1 e.2) <$> walk _ (devices s).
Definition get_device (s : SipServer) (id : bytes) : option DeviceListItem := device_item id <$> devices s !! id.
Definition list_channels (s : SipServer) (id : bytes) : list ChannelInfo := from_option channels [] (devices s !! id).

Record TalkInfo : Type := {
  ti_device : bytes;
  ti_channel : bytes;
  ti_talk : TalkCtx;
  ti_port : Z
}.
Definition talk_info (ctx : InviteCtx) : option TalkInfo :=
  match ctx_kind ctx with
  | Talk t => Some {| ti_device := ctx_device ctx; ti_channel := ctx_channel ctx; ti_talk := t; ti_port := media_port ctx |}
  | Play => None
  end.
Definition list_talks (s : SipServer) : list TalkInfo := omap (fun e => talk_info e.2) (walk _ (active s)).

Record SipInfo : Type := { si_port : Z; si_realm : bytes; si_host : bytes; device_count : nat; active_streams : nat; stopped : bool }.
Definition sip_info (s : SipServer) (local_port : Z) : SipInfo :=
  {| si_port := local_port; si_realm := realm (config s); si_host := host (config s); device_count := size (devices s);
     active_streams := size (active s); stopped := shutdown s |}.

End Step.

(** ** The receive loop and the maintainer *)

Inductive Event : Type :=
| Datagram (w : World) (a : SocketAddr) (data : bytes)
| RecvError
| Idle.

Fixpoint run (s : SipServer) (events : list Event) : result (SipServer * list Action) :=
  match events with
  | [] => Ok (s, [])
  | e :: events =>
      if shutdown s then Ok (s, []) else
      match e with
      | Datagram w a data =>
          '(s, acts) ← receive w s a data;
          '(s, more) ← run s events;
          Ok (s, acts ++ more)
      | RecvError => Ok (s, [])
      | Idle => run s events
      end
  end.

End Server.
