(* ===== verification/SipPorts.v ===== *)
(** * SipPorts: who owns the ports of the GB28181 platform

    The server of [SipServer] as a step relation: datagrams, the maintainer, the
    operations of the management interface (an invitation in two steps, since
    it waits between opening its port and entering its dialog), other users of
    the ports, and the tasks of the senders.  Every dialog that receives media
    has a port of its own, open for its channel. *)

From S2P Require Import Prelude Frame F64 Utf8 Text Auth Xml SipMsg SipServer.
From S2P Require GbRtp RtpSend.
#[local] Open Scope Z_scope.
#[local] Set Warnings "-clear-no-such-hyp".

(** ** Dialogs and their ports *)

Definition values (m : gmap bytes InviteCtx) : list InviteCtx := (map_to_list m).*2.
Definition play_port (c : InviteCtx) : option Z := match ctx_kind c with Play => Some (media_port c) | Talk _ => None end.
Definition ports (l : list InviteCtx) : list Z := omap play_port l.

(** The dialog's port is open and publishes its channel. *)
Definition served (i : gmap Z GbRtp.Opened) (c : InviteCtx) : Prop :=
  ctx_kind c = Play ->
  exists o, i !! media_port c = Some o /\ GbRtp.rv_stream (GbRtp.op_receiver o) = string_of (ctx_channel c).

Definition owned (i : gmap Z GbRtp.Opened) (l : list InviteCtx) : Prop := NoDup (ports l) /\ Forall (served i) l.

Lemma values_insert k c m : values (<[k := c]> m) ⊆+ c :: values m.
Proof.
  unfold values. rewrite <-insert_delete_eq, map_to_list_insert by apply lookup_delete_eq. cbn [fmap list_fmap snd]. apply submseteq_skip.
  destruct (m !! k) as [d|] eqn:Hk; [|by rewrite delete_id].
  rewrite <-(map_to_list_delete m k d) by done. cbn. by apply submseteq_cons.
Qed.

Lemma values_delete k c m : m !! k = Some c -> values m ≡ₚ c :: values (delete k m).
Proof. intros Hk. unfold values. by rewrite <-(map_to_list_delete m k c). Qed.

#[global] Instance owned_perm i : Proper ((≡ₚ) ==> iff) (owned i).
Proof. intros l l' Hl. unfold owned, ports. by rewrite Hl. Qed.

Lemma owned_sub i l l' : l' ⊆+ l -> owned i l -> owned i l'.
Proof.
  intros (k & Hk)%submseteq_Permutation [Hn Hs]. unfold owned, ports in *. rewrite Hk in Hs.
  apply Forall_app in Hs as [Hs _]. split; [|done]. rewrite Hk, omap_app in Hn. by apply NoDup_app in Hn as [Hn _].
Qed.

Lemma owned_more i i' l : (forall p o, i !! p = Some o -> i' !! p = Some o) -> owned i l -> owned i' l.
Proof.
  intros Hi [Hn Hs]. split; [done|]. eapply Forall_impl; [exact Hs|]. intros c Hc Hk. destruct (Hc Hk) as (o & Ho & Hr). eauto.
Qed.

Lemma owned_talk i c l t : ctx_kind c = Talk t -> owned i l -> owned i (c :: l).
Proof.
  intros Hk [Hn Hs]. split; [unfold ports; cbn; unfold play_port at 1; by rewrite Hk|]. constructor; [|done]. intros ?. congruence.
Qed.

Lemma owned_open i c l o : i !! media_port c = None -> GbRtp.rv_stream (GbRtp.op_receiver o) = string_of (ctx_channel c) ->
  owned i l -> owned (<[media_port c := o]> i) (c :: l).
Proof.
  intros Hfree Hr Ho. destruct (owned_more i (<[media_port c := o]> i) l) as [Hn Hs]; [|done|].
  { intros p o' Hp. destruct (decide (p = media_port c)) as [->|Hne]; [congruence|by rewrite lookup_insert_ne]. }
  destruct Ho as [_ Hs0]. split.
  - unfold ports. cbn. unfold play_port at 1. destruct (ctx_kind c); [|done]. constructor; [|done].
    intros (c' & Hc' & Hp)%list_elem_of_omap. rewrite Forall_forall in Hs0. unfold play_port in Hp. specialize (Hs0 c' Hc').
    unfold served in Hs0. destruct (ctx_kind c'); [|done]. injection Hp as Hp. destruct (Hs0 eq_refl) as (o' & Ho' & _). congruence.
  - constructor; [|done]. intros _. exists o. by rewrite lookup_insert_eq.
Qed.

Lemma owned_close i c l : owned i (c :: l) -> owned (match ctx_kind c with Play => delete (media_port c) i | Talk _ => i end) l.
Proof.
  intros [Hn Hs]. apply Forall_cons in Hs as [Hc Hs]. unfold ports in *. cbn in Hn. unfold play_port at 1 in Hn.
  destruct (ctx_kind c) eqn:Hk; [|done]. apply NoDup_cons in Hn as [Hfresh Hn]. split; [done|].
  rewrite Forall_forall in Hs |- *. intros c' Hc' Hk'. destruct (Hs c' Hc' Hk') as (o & Ho & Hr). exists o. split; [|done].
  rewrite lookup_delete_ne; [done|]. intros He. apply Hfresh. apply list_elem_of_omap. exists c'. split; [done|]. unfold play_port. by rewrite Hk', He.
Qed.

Definition dialogs_of (s : SipServer) : list InviteCtx := values (active s) ++ values (pending s).

(** A server and the dialogs not yet entered. *)
Definition server_ok (s : SipServer) (extra : list InviteCtx) : Prop :=
  0 < media_port_base (config s) /\ is_u16 (next_media s) /\ owned (GbRtp.inner (rtp s)) (dialogs_of s ++ extra).

(** ** Ports *)

Lemma alloc_port_inner fuel m p m' : GbRtp.alloc_port fuel m = Ok (p, m') -> GbRtp.inner m' = GbRtp.inner m /\ GbRtp.inner m !! p = None.
Proof.
  revert m. induction fuel as [|fuel IH]; intros m; [done|]. cbn [GbRtp.alloc_port]. destruct (_ =? 0); [intros H%IH; exact H|].
  case_bool_decide as Hs; [intros H%IH; exact H|]. intros [= <- <-]. split; [done|]. by apply eq_None_not_Some.
Qed.

(** An attempt to open a port opens one that was free, or none. *)
Lemma open_cases bind fuel m p vhost app stream payload ssrc mode m' r :
  GbRtp.open_with_mode bind fuel m p vhost app stream payload ssrc mode = (m', r) ->
  (exists q, r = Ok q /\ (p <> 0 -> q = p) /\ GbRtp.inner m !! q = None /\
     exists o, GbRtp.inner m' = <[q := o]> (GbRtp.inner m) /\ GbRtp.rv_stream (GbRtp.op_receiver o) = stream) \/
  ((forall q, r <> Ok q) /\ GbRtp.inner m' = GbRtp.inner m).
Proof.
  unfold GbRtp.open_with_mode, GbRtp.open_begin. destruct (Z.eqb_spec p 0) as [->|Hp].
  - destruct (GbRtp.alloc_port fuel m) as [[q m1]| | |] eqn:Ha; cbn [mbind outcome_bind];
      [|intros [= <- <-]; right; split; [by intros|done]..].
    destruct (alloc_port_inner _ _ _ _ Ha) as [Hi Hq]. rewrite Hi, bool_decide_false by (rewrite Hq; by intros [? ?]).
    destruct (bind mode q); intros [= <- <-]; [left|right; split; [by intros|done]].
    exists q. split; [done|]. split; [done|]. split; [done|]. eexists. cbn. rewrite Hi. split; [reflexivity|done].
  - cbn [mbind outcome_bind]. case_bool_decide as Hs; [intros [= <- <-]; right; split; [by intros|done]|].
    destruct (bind mode p); intros [= <- <-]; [left|right; split; [by intros|done]].
    exists p. split; [done|]. split; [done|]. split; [by apply eq_None_not_Some|]. eexists. split; [reflexivity|done].
Qed.

(** ** Every operation *)

Section Operations.
Context `{AuthPrimitives} (parse_ip : bytes -> option bytes) (walk : forall A : Type, gmap bytes A -> list (bytes * A)).

Lemma server_ok_sub s extra extra' : extra' ⊆+ extra -> server_ok s extra -> server_ok s extra'.
Proof. intros He (Hb & Hn & Ho). split_and!; [done..|]. eapply owned_sub; [|exact Ho]. by apply submseteq_app. Qed.

Lemma stop_media_ok s c extra : server_ok s (c :: extra) -> server_ok (stop_media s c) extra.
Proof.
  intros (Hb & Hn & Ho). unfold stop_media. destruct (ctx_kind c) eqn:Hk.
  - split_and!; [done..|]. rewrite <-Permutation_middle in Ho. apply owned_close in Ho. rewrite Hk in Ho.
    cbn [rtp set_rtp]. unfold GbRtp.close. destruct (GbRtp.inner (rtp s) !! media_port c) eqn:Hm; cbn [fst GbRtp.set_inner GbRtp.inner]; [exact Ho|].
    by rewrite delete_id in Ho.
  - split_and!; [done..|]. rewrite <-Permutation_middle in Ho. apply owned_close in Ho. by rewrite Hk in Ho.
Qed.

Lemma take_active_ok s k c extra : active s !! k = Some c -> server_ok s extra -> server_ok (set_active s (delete k (active s))) (c :: extra).
Proof.
  intros Hk (Hb & Hn & Ho). split_and!; [done..|]. eapply owned_sub; [|exact Ho]. unfold dialogs_of. cbn.
  rewrite (values_delete _ _ _ Hk). solve_submseteq.
Qed.

Lemma take_pending_ok s k c extra : pending s !! k = Some c -> server_ok s extra -> server_ok (set_pending s (delete k (pending s))) (c :: extra).
Proof.
  intros Hk (Hb & Hn & Ho). split_and!; [done..|]. eapply owned_sub; [|exact Ho]. unfold dialogs_of. cbn.
  rewrite (values_delete _ _ _ Hk). solve_submseteq.
Qed.

Lemma enter_active_ok s k c extra : server_ok s (c :: extra) -> server_ok (set_active s (<[k := c]> (active s))) extra.
Proof.
  intros (Hb & Hn & Ho). split_and!; [done..|]. eapply owned_sub; [|exact Ho]. unfold dialogs_of. cbn.
  pose proof (values_insert k c (active s)) as Hv. rewrite <-!app_assoc. etransitivity; [apply submseteq_app; [exact Hv|reflexivity]|]. solve_submseteq.
Qed.

Lemma enter_pending_ok s k c extra : server_ok s (c :: extra) -> server_ok (set_pending s (<[k := c]> (pending s))) extra.
Proof.
  intros (Hb & Hn & Ho). split_and!; [done..|]. eapply owned_sub; [|exact Ho]. unfold dialogs_of. cbn.
  pose proof (values_insert k c (pending s)) as Hv. rewrite <-!app_assoc. apply submseteq_app; [reflexivity|].
  etransitivity; [apply submseteq_app; [exact Hv|reflexivity]|]. solve_submseteq.
Qed.

(** A context that differs only in the headers of its dialog. *)
Lemma answered_ok s c msg extra : server_ok s (c :: extra) -> server_ok s (answered c msg :: extra).
Proof.
  intros (Hb & Hn & Ho). split_and!; [done..|]. rewrite <-Permutation_middle in *. destruct Ho as [Hd Hs]. split; [exact Hd|].
  apply Forall_cons in Hs as [Hc Hs]. by constructor.
Qed.

Lemma end_active_ok s k extra : server_ok s extra -> server_ok (end_active s k) extra.
Proof. intros Hs. unfold end_active. destruct (active s !! k) as [c|] eqn:Hk; [|done]. apply stop_media_ok. by apply take_active_ok. Qed.

Lemma foldl_ok {A} (f : SipServer -> A -> SipServer) extra : (forall s a, server_ok s extra -> server_ok (f s a) extra) ->
  forall l s, server_ok s extra -> server_ok (foldl f s l) extra.
Proof. intros Hf l. induction l as [|a l IH]; intros s Hs; [done|]. cbn. apply IH, Hf, Hs. Qed.

Lemma unregister_ok s id extra : server_ok s extra -> server_ok (unregister_device walk s id) extra.
Proof.
  intros Hs. unfold unregister_device. destruct (devices s !! id); [|done]. apply foldl_ok; [|exact Hs]. intros s1 k. apply end_active_ok.
Qed.

Lemma invite_port_ok s p s' extra : rtp_port_for_invite s = (p, s') -> server_ok s extra -> server_ok s' extra /\ 0 < p.
Proof.
  unfold rtp_port_for_invite. intros [= <- <-] (Hb & Hn & Ho). unfold is_u16 in *. split; [|lia]. split_and!; [done| |exact Ho].
  unfold is_u16, u16. cbn. apply Z.mod_pos_bound. lia.
Qed.

(** The dialog that goes with an opened port. *)
Lemma open_port_ok w s p app stream s' r extra c :
  open_port w s p app stream = (s', r) -> 0 < p -> server_ok s extra ->
  media_port c = p -> ctx_channel c = stream ->
  match r with Ok _ => server_ok s' (c :: extra) | _ => server_ok s' extra end.
Proof.
  intros Ho Hp Hs <- <-. unfold open_port in Ho.
  destruct (GbRtp.open_with_mode _ _ _ _ _ _ _ _ _ _) as [m' r'] eqn:E. injection Ho as <- <-. destruct Hs as (Hb & Hn & Hown).
  apply open_cases in E as [(q & -> & Hq & Hfree & o & Hi & Hr)|[Hr Hi]].
  - rewrite (Hq ltac:(lia)) in *. split_and!; [done..|]. cbn [rtp set_rtp]. rewrite Hi, <-Permutation_middle. by apply owned_open.
  - destruct r' as [q| | |]; [by destruct (Hr q)|..]; (split_and!; [done..|]; cbn [rtp set_rtp]; by rewrite Hi).
Qed.

Lemma invite_received_ok w s a msg extra : server_ok s extra -> server_ok (handle_invite_received w s a msg).1 extra.
Proof.
  intros Hs. unfold handle_invite_received. destruct (rtp_port_for_invite s) as [p s1] eqn:Ep.
  destruct (invite_port_ok _ _ _ _ Ep Hs) as [Hs1 Hp]. destruct (open_port w s1 p _ _) as [s2 r] eqn:Eo.
  match goal with |- context [<[header msg "call-id" := ?ctx]> _] => pose proof (open_port_ok _ _ _ _ _ _ _ _ ctx Eo Hp Hs1 eq_refl eq_refl) as Hs2 end.
  destruct r; [|exact Hs2..]. cbn [fst]. by apply enter_active_ok.
Qed.

Lemma handle_bye_ok w s a msg extra : server_ok s extra -> server_ok (handle_bye w s a msg).1 extra.
Proof.
  intros Hs. unfold handle_bye. cbn [fst]. destruct (active s !! _) as [c|] eqn:Ha; [by apply stop_media_ok, take_active_ok|].
  destruct (pending s !! _) as [c|] eqn:Hp; [by apply stop_media_ok, take_pending_ok|done].
Qed.

Lemma handle_response_ok w s a msg extra : server_ok s extra -> server_ok (handle_response parse_ip w s a msg).1 extra.
Proof.
  intros Hs. unfold handle_response. destruct (get msg "call-id") as [k|]; [|done]. destruct (_ <? 200); [done|].
  destruct (pending s !! k) as [c|] eqn:Hp; [|done]. apply (take_pending_ok _ _ _ _ Hp) in Hs. destruct (negb _); [by apply stop_media_ok|].
  destruct (ctx_kind (answered c msg)) as [|t] eqn:Hk.
  - cbn [fst]. apply enter_active_ok. by apply answered_ok.
  - destruct (talk_destination _ _ _ _) as [d| | |]; try (eapply server_ok_sub; [|exact Hs]; by apply submseteq_cons).
    destruct (start_sender _ _ _) as [m started]. cbn [fst]. apply (answered_ok _ _ msg) in Hs. destruct started.
    + by apply enter_active_ok.
    + eapply (server_ok_sub _ (answered c msg :: extra)); [by apply submseteq_cons|exact Hs].
Qed.

Lemma handle_register_ok w s a msg extra : server_ok s extra -> server_ok (handle_register walk w s a msg).1 extra.
Proof.
  intros Hs. unfold handle_register. destruct (uri_user _) as [id|]; [|done]. destruct (refused _ _ _); [done|]. cbn [fst].
  destruct (_ =? 0); [by apply unregister_ok|exact Hs].
Qed.

Lemma forward_ok s root extra : server_ok s extra -> server_ok (forward_query_response s root).1 extra.
Proof. intros Hs. unfold forward_query_response. repeat case_match; exact Hs. Qed.

Lemma handle_command_ok s id root extra s' acts :
  handle_command s id root = Ok (s', acts) -> server_ok s extra -> server_ok s' extra.
Proof.
  intros Hc Hs. unfold handle_command in Hc. destruct (text_of root (str "CmdType")) as [cmd|]; [|by injection Hc as <- _].
  repeat case_bool_decide.
  - destruct (trimmed_text _ _ ≫= _) as [i|]; [|by injection Hc as <- _]. unfold keepalive_expires in Hc.
    destruct (_ <? _); [|done]. by injection Hc as <- _.
  - injection Hc as Hc. replace s' with (s', acts).1 by done. rewrite <-Hc. by apply forward_ok.
  - injection Hc as Hc. replace s' with (s', acts).1 by done. rewrite <-Hc. by apply forward_ok.
  - by injection Hc as <- _.
Qed.

Lemma handle_message_ok w s a msg extra s' acts : handle_message w s a msg = Ok (s', acts) -> server_ok s extra -> server_ok s' extra.
Proof.
  intros Hm Hs. unfold handle_message in Hm. match type of Hm with context [handle_command ?x _ _] => set (s1 := x) in * end.
  assert (server_ok s1 extra) as Hs1 by (subst s1; destruct (devices s !! _); exact Hs). clearbody s1.
  destruct (parse_xml (sip_body msg)) as [root| | |]; cbn [mbind outcome_bind] in Hm; [|by injection Hm as <- _|done..].
  destruct (handle_command s1 _ root) as [[s2 acts2]| | |] eqn:Hc; cbn [mbind outcome_bind] in Hm; [|done..].
  injection Hm as <- _. by eapply handle_command_ok.
Qed.

Lemma loop_receive_ok w s a data extra s' acts : receive parse_ip walk w s a data = Ok (s', acts) -> server_ok s extra -> server_ok s' extra.
Proof.
  intros Hr Hs. unfold receive in Hr. destruct (parse_sip _) as [msg| | |]; cbn [mbind outcome_bind] in Hr; [|done..].
  assert (forall x : SipServer * list Action, Ok (E := Error) x = Ok (s', acts) -> server_ok x.1 extra -> server_ok s' extra) as Hx
    by (intros x [= ->]; done).
  destruct (method msg) as [m|].
  - repeat case_bool_decide.
    + eapply Hx; [exact Hr|]. by apply handle_register_ok.
    + by eapply handle_message_ok.
    + eapply Hx; [exact Hr|]. by apply invite_received_ok.
    + eapply Hx; [exact Hr|]. by apply handle_bye_ok.
    + by injection Hr as <- _.
  - eapply Hx; [exact Hr|]. by apply handle_response_ok.
Qed.
End Operations.

(** ** The system *)

(** [inflight]: the invitations that are sent and not yet entered. *)
Record System : Type := { server : SipServer; inflight : list (bytes * InviteCtx) }.

Section Runs.
Context `{AuthPrimitives} (parse_ip : bytes -> option bytes) (walk : forall A : Type, gmap bytes A -> list (bytes * A)).

Definition all_dialogs (y : System) : list InviteCtx := dialogs_of (server y) ++ (inflight y).*2.

(** The server after an operation that may leave a dialog to be entered. *)
Definition begun (l : list (bytes * InviteCtx)) (o : SipServer * result (Z * list Action * (bytes * InviteCtx))) : System :=
  {| server := o.1; inflight := match o.2 with Ok (_, _, e) => e :: l | _ => l end |}.

Inductive step : System -> System -> Prop :=
| StepReceive w s l a data s' acts : receive parse_ip walk w s a data = Ok (s', acts) -> step (Build_System s l) (Build_System s' l)
| StepExpire w s l : step (Build_System s l) (Build_System (expire_devices walk w s) l)
| StepStop s l : step (Build_System s l) (Build_System (stop walk s) l)
| StepInvite w s l id channel : step (Build_System s l) (begun l (invite_begin w s id channel))
| StepTalk w s l id channel vh ap st : step (Build_System s l) (begun l (talk_begin walk w s id channel vh ap st))
| StepFinish s l1 e l2 : step (Build_System s (l1 ++ e :: l2)) (Build_System (invite_finish s e) (l1 ++ l2))
| StepBye w s l channel talk : step (Build_System s l) (Build_System (bye_dialog walk w s channel talk).1.1 l)
| StepQuery w s l cmd waiter id : step (Build_System s l) (Build_System (query_begin w s cmd waiter id).1 l)
| StepCatalog s l sn id answer : step (Build_System s l) (Build_System (query_catalog_end s sn id answer).1 l)
| StepDeviceInfo s l sn id answer : step (Build_System s l) (Build_System (query_device_info_end s sn id answer).1 l)
| StepSender s l m : RtpSend.manager_step (rtp_sender s) m -> step (Build_System s l) (Build_System (set_sender s m) l)
  (** other users of the ports *)
| StepOpens s l bind fuel p vh ap st payload ssrc mode :
    step (Build_System s l) (Build_System (set_rtp s (GbRtp.open_with_mode bind fuel (rtp s) p vh ap st payload ssrc mode).1) l)
| StepCloses s l p : p ∉ ports (all_dialogs (Build_System s l)) -> step (Build_System s l) (Build_System (set_rtp s (GbRtp.close (rtp s) p).1) l).

Inductive reachable (c : SipServerConfig) (base : Z) : System -> Prop :=
| ReachNew : reachable c base (Build_System (server_new c base) [])
| ReachStep y y' : reachable c base y -> step y y' -> reachable c base y'.

Lemma bye_ok w s channel talk extra :
  (forall A (m : gmap bytes A), walk A m ≡ₚ map_to_list m) -> server_ok s extra -> server_ok (bye_dialog walk w s channel talk).1.1 extra.
Proof.
  intros Hw Hs. unfold bye_dialog. destruct (List.find _ _) as [[k c]|] eqn:Hf; [|done]. cbn [fst].
  apply List.find_some in Hf as [Hin _]. apply list_elem_of_In in Hin. rewrite Hw in Hin. apply elem_of_map_to_list in Hin.
  by apply stop_media_ok, take_active_ok.
Qed.

Lemma begun_invite_ok w s l id channel : server_ok s (l.*2) ->
  server_ok (server (begun l (invite_begin w s id channel))) ((inflight (begun l (invite_begin w s id channel))).*2).
Proof.
  intros Hs. unfold invite_begin. destruct (devices s !! id) as [d|]; [|exact Hs].
  destruct (rtp_port_for_invite s) as [p s1] eqn:Ep. destruct (invite_port_ok _ _ _ _ Ep Hs) as [Hs1 Hp].
  destruct (open_port w s1 p _ _) as [s2 r] eqn:Eo.
  pose proof (open_port_ok _ _ _ _ _ _ _ _ (own_ctx w (config s) id (addr d) channel p Play) Eo Hp Hs1 eq_refl eq_refl) as Hs2.
  destruct r; [|exact Hs2..]. destruct (can_send w); [exact Hs2|]. cbn. eapply server_ok_sub; [|exact Hs2]. by apply submseteq_cons.
Qed.

Lemma begun_talk_ok w s l id channel vh ap st : server_ok s (l.*2) ->
  server_ok (server (begun l (talk_begin walk w s id channel vh ap st))) ((inflight (begun l (talk_begin walk w s id channel vh ap st))).*2).
Proof.
  intros Hs. unfold talk_begin. destruct (devices s !! id) as [d|]; [|exact Hs]. destruct (_ || _); [exact Hs|].
  destruct (find_source w vh ap st) as [ts|]; [|exact Hs]. destruct (head _) as [codec|]; [|exact Hs].
  destruct (if bool_decide (codec = G711U) then _ else _) as [pt enc]. destruct (rtp_port_for_invite s) as [p s1] eqn:Ep.
  destruct (invite_port_ok _ _ _ _ Ep Hs) as [Hs1 Hp]. destruct (can_send w); [|exact Hs1].
  destruct Hs1 as (Hb & Hn & Ho). split_and!; [done..|]. cbn [server inflight begun fst snd fmap list_fmap].
  rewrite <-Permutation_middle. eapply owned_talk; [reflexivity|exact Ho].
Qed.

Lemma step_ok y y' : (forall A (m : gmap bytes A), walk A m ≡ₚ map_to_list m) -> step y y' ->
  server_ok (server y) ((inflight y).*2) -> server_ok (server y') ((inflight y').*2).
Proof.
  intros Hw Hstep. destruct Hstep as [w s l a data s' acts Hr|w s l|s l|w s l id ch|w s l id ch vh ap st|s l1 e l2|w s l ch talk|w s l cmd wt id|s l sn id an|s l sn id an|s l m _|s l bind fuel p vh ap st pl ssrc mode|s l p Hp];
    cbn [server inflight]; intros Hs.
  - by eapply loop_receive_ok.
  - unfold expire_devices. apply foldl_ok; [|done]. intros s1 id. apply unregister_ok.
  - unfold stop. destruct (shutdown s); [done|]. apply foldl_ok; [|exact Hs]. intros s1 id. apply unregister_ok.
  - by apply begun_invite_ok.
  - by apply begun_talk_ok.
  - unfold invite_finish. apply enter_pending_ok. eapply server_ok_sub; [|exact Hs]. rewrite !fmap_app. cbn. solve_submseteq.
  - by apply bye_ok.
  - unfold query_begin. destruct (devices s !! id); [|exact Hs]. unfold next_sn. destruct (_ <? _); [|exact Hs]. destruct (can_send w); exact Hs.
  - unfold query_catalog_end, query_end. destruct an; exact Hs.
  - unfold query_device_info_end, query_end. destruct an; exact Hs.
  - exact Hs.
  - destruct (GbRtp.open_with_mode _ _ _ _ _ _ _ _ _ _) as [m' r] eqn:E. destruct Hs as (Hb & Hn & Ho). split_and!; [done..|].
    cbn [fst rtp set_rtp]. apply open_cases in E as [(q & _ & _ & Hfree & o & Hi & _)|[_ Hi]]; rewrite Hi; [|exact Ho].
    eapply owned_more; [|exact Ho]. intros p' o' Hp'. rewrite lookup_insert_ne; [done|congruence].
  - destruct Hs as (Hb & Hn & Ho). split_and!; [done..|]. cbn [rtp set_rtp]. unfold GbRtp.close.
    destruct (GbRtp.inner (rtp s) !! p); [|exact Ho]. cbn [fst GbRtp.set_inner GbRtp.inner]. destruct Ho as [Hd Hsv]. split; [done|].
    rewrite Forall_forall in Hsv |- *. intros c Hc Hk. destruct (Hsv c Hc Hk) as (o' & Ho' & Hr). exists o'. split; [|done].
    rewrite lookup_delete_ne; [done|]. intros ->. apply Hp. apply list_elem_of_omap. exists c. split; [exact Hc|]. unfold play_port. by rewrite Hk.
Qed.

Lemma reachable_ok c base y : (forall A (m : gmap bytes A), walk A m ≡ₚ map_to_list m) -> 0 < media_port_base c ->
  reachable c base y -> server_ok (server y) ((inflight y).*2).
Proof.
  intros Hw Hb Hr. induction Hr as [|y y' _ IH Hs]; [|by eapply step_ok].
  split_and!; [exact Hb|unfold is_u16; cbn; lia|]. split; [by apply NoDup_nil|constructor].
Qed.

Lemma played_in_ports y c : c ∈ all_dialogs y -> ctx_kind c = Play -> media_port c ∈ ports (all_dialogs y).
Proof. intros Hc Hk. apply list_elem_of_omap. exists c. split; [done|]. unfold play_port. by rewrite Hk. Qed.

(** Whatever datagrams arrive, devices expire, invitations, talks, queries
    and other users of the ports do, in every interleaving: a dialog that
    receives media, entered or not, has a port that is open for the stream of
    its channel, and no two dialogs share one; a BYE for a running dialog closes
    its port and no other. *)
Theorem sip_ports_owned c base y :
  (forall A (m : gmap bytes A), walk A m ≡ₚ map_to_list m) -> 0 < media_port_base c -> reachable c base y ->
  NoDup (ports (all_dialogs y)) /\
  (forall d, d ∈ all_dialogs y -> ctx_kind d = Play ->
     exists o, GbRtp.inner (rtp (server y)) !! media_port d = Some o /\ GbRtp.rv_stream (GbRtp.op_receiver o) = string_of (ctx_channel d)) /\
  (forall w a msg d, active (server y) !! header msg "call-id" = Some d -> ctx_kind d = Play ->
     let s' := (handle_bye w (server y) a msg).1 in
     GbRtp.inner (rtp s') = delete (media_port d) (GbRtp.inner (rtp (server y))) /\
     active s' = delete (header msg "call-id") (active (server y)) /\ media_port d ∉ ports (dialogs_of s' ++ (inflight y).*2)).
Proof.
  intros Hw Hb Hr. pose proof (reachable_ok c base y Hw Hb Hr) as Hok. pose proof Hok as (_ & _ & Hn & Hs). split; [exact Hn|]. split.
  - intros d Hd Hk. rewrite Forall_forall in Hs. by apply Hs.
  - intros w a msg d Hd Hk. unfold handle_bye. rewrite Hd. unfold stop_media. rewrite Hk. cbn [fst rtp set_rtp set_active active]. split_and!.
    + unfold GbRtp.close. destruct (GbRtp.inner (rtp (server y)) !! media_port d) eqn:Hm; [done|]. by rewrite delete_id.
    + done.
    + unfold ports in Hn. unfold dialogs_of in *. cbn [active pending]. rewrite (values_delete _ _ _ Hd) in Hn. cbn in Hn.
      unfold play_port at 1 in Hn. rewrite Hk in Hn. by apply NoDup_cons in Hn as [Hn _].
Qed.
End Runs.
