(* ===== verification/SipTrip.v ===== *)
(** * SipTrip: what arrives of a GB28181 message

    The texts the server of [SipServer] writes satisfy the conditions under
    which [SipMsg]'s parser reads them back; a body with a name outside UTF-8
    loses its end, and can stop the receive loop. *)

From S2P Require Import Prelude Frame F64 Utf8 Text Auth Xml SipMsg SipServer.
From S2P Require GbRtp RtpSend.
#[local] Open Scope Z_scope.
#[local] Set Warnings "-clear-no-such-hyp".

(** ** Texts of one line *)

Definition clean (s : bytes) : Prop := Forall (fun b => 32 <= b <= 126) s.
Definition starts (s : bytes) : Prop := exists x, head s = Some x /\ printable x.
Definition ends (s : bytes) : Prop := exists x, last s = Some x /\ printable x.

Lemma clean_app s t : clean s -> clean t -> clean (s ++ t).
Proof. intros. by apply Forall_app_2. Qed.

Lemma clean_printable s : Forall printable s -> clean s.
Proof. intros Hs. eapply Forall_impl; [exact Hs|]. unfold printable. cbn. lia. Qed.

Lemma clean_lacks c s : clean s -> ~ 32 <= c <= 126 -> lacks c s.
Proof. intros Hs Hc Hin. unfold clean in Hs. rewrite Forall_forall in Hs. specialize (Hs _ Hin). lia. Qed.

Lemma clean_ascii s : clean s -> Forall (fun b => b < 0x80) s.
Proof. intros Hs. eapply Forall_impl; [exact Hs|]. cbn. lia. Qed.

Lemma starts_app s t : starts s -> starts (s ++ t).
Proof. intros (x & Hx & Hp). exists x. split; [|done]. by destruct s. Qed.

Lemma ends_app s t : ends t -> ends (s ++ t).
Proof. intros (x & Hx & Hp). exists x. split; [|done]. by rewrite last_app, Hx. Qed.

Lemma starts_word s : Forall printable s -> s <> [] -> starts s.
Proof. intros Hs Hn. destruct s as [|x s]; [done|]. exists x. split; [done|]. by apply Forall_cons in Hs as [? _]. Qed.

Lemma ends_word s : Forall printable s -> s <> [] -> ends s.
Proof.
  intros Hs Hn. destruct (last s) as [x|] eqn:E; [|by apply last_None in E]. exists x. split; [done|].
  rewrite Forall_forall in Hs. apply Hs. by apply last_Some_elem_of.
Qed.

Lemma line_trimmed s : starts s -> ends s -> trimmed s.
Proof. intros (x & Hx & Hpx) (y & Hy & Hpy). by apply (printable_ends s x y). Qed.

(** A value a header carries. *)
Definition value_ok (v : bytes) : Prop := clean v /\ (v = [] \/ starts v /\ ends v).

Lemma value_line v : clean v -> starts v -> ends v -> value_ok v.
Proof. unfold value_ok. auto. Qed.

Lemma header_value_ok n v : name_plain n -> value_ok v -> header_ok (n, v).
Proof.
  intros Hn [Hc Hv]. split; [exact Hn|]. split; [apply clean_lacks; [exact Hc|lia]|]. destruct Hv as [->|[Hs He]]; [by left|right].
  by apply line_trimmed.
Qed.

Lemma value_word v : Forall printable v -> value_ok v.
Proof.
  intros Hv. split; [by apply clean_printable|]. destruct v as [|x v]; [by left|right].
  split; [by apply starts_word|by apply ends_word].
Qed.

(** Literals. *)
Lemma edge_printable (o : option Z) : (match o with Some x => (33 <=? x) && (x <=? 126) | None => false end) = true -> exists x, o = Some x /\ printable x.
Proof. destruct o as [x|]; [|done]. intros [H1%Z.leb_le H2%Z.leb_le]%andb_prop. by exists x. Qed.

Ltac clean_lit := unfold clean; apply (bool_decide_unpack _); vm_compute; exact I.
Ltac starts_lit := apply edge_printable; vm_compute; reflexivity.
Ltac ends_lit := apply edge_printable; vm_compute; reflexivity.
Ltac name_plain := unfold name_plain, lacks; split_and!; [not_in|not_in|apply trimmed_word; [unfold printable; apply (bool_decide_unpack _); vm_compute; exact I|discriminate]|discriminate].

Lemma hex_digits_printable fuel n : 0 <= n -> Forall printable (hex_digits fuel n).
Proof.
  revert n. induction fuel as [|fuel IH]; intros n Hn; [constructor|]. cbn [hex_digits].
  assert (forall d, 0 <= d < 16 -> printable (hex_digit d)) as Hd by (intros d Hd; pose proof (hex_digit_range d Hd); unfold printable; lia).
  destruct (Z.ltb_spec n 16).
  - apply Forall_singleton. apply Hd. lia.
  - apply Forall_app_2; [apply IH; div_lia|]. apply Forall_singleton. apply Hd. div_lia.
Qed.

Lemma pad_printable width s : Forall printable s -> Forall printable (pad width s).
Proof. intros Hs. unfold pad. apply Forall_app_2; [|exact Hs]. apply Forall_replicate. unfold printable. lia. Qed.

Lemma pad_nonempty width s : s <> [] -> pad width s <> [].
Proof. intros Hs. unfold pad. destruct s; [done|]. by destruct (replicate _ _). Qed.

Lemma gen_tag_word nanos : 0 <= nanos -> Forall printable (gen_tag nanos) /\ gen_tag nanos <> [].
Proof.
  intros Hn. unfold gen_tag, lower_hex. split; [apply pad_printable, hex_digits_printable, Z.mod_pos_bound; lia|].
  apply pad_nonempty. change 32%nat with (S 31). generalize 31%nat. intros k. cbn [hex_digits]. destruct (_ <? 16); [done|]. by destruct (hex_digits _ _).
Qed.

(** ** Messages that arrive whole *)

Definition lines_valid (hs : list (string * bytes)) : Prop := Forall (fun h => clean (str h.1) /\ clean h.2) hs.

Lemma sip_text_ascii first hs body : clean first -> lines_valid hs -> Forall (fun b => b < 0x80) body ->
  Forall (fun b => b < 0x80) (sip_text first hs body).
Proof.
  intros Hf Hh Hb. unfold sip_text, CRLF. repeat apply Forall_app_2; [by apply clean_ascii|by repeat constructor| |by repeat constructor|done].
  induction Hh as [|h hs [Hn Hv] _ IH]; [constructor|]. cbn [fmap list_fmap concat]. apply Forall_app_2; [|exact IH].
  unfold header_line. repeat apply Forall_app_2; [by apply clean_ascii|by repeat constructor|by apply clean_ascii|by repeat constructor].
Qed.

(** A header of the messages the server and its devices write. *)
Definition sent_ok (h : string * bytes) : Prop := name_plain h.1 /\ clean (str h.1) /\ value_ok h.2.

Lemma sent_header_ok hs : Forall sent_ok hs -> Forall header_ok hs /\ lines_valid hs.
Proof.
  intros Hs. split; (eapply Forall_impl; [exact Hs|]); intros [n v] (Hn & Hc & Hv); [by apply header_value_ok|].
  split; [exact Hc|apply Hv].
Qed.

Lemma parse_sent first hs body b :
  clean first -> Forall sent_ok hs -> Forall (fun x => x < 0x80) body -> zlen (sip_text first hs body) <= 4096 ->
  received_body body (length_header hs 0) = Ok b ->
  parse_sip (take 4096 (sip_text first hs body)) = Ok (message_of first (headers_of hs) b).
Proof.
  intros Hf Hh Hb Hl Hr. apply sent_header_ok in Hh as [Hh Hv]. rewrite take_ge by (unfold zlen in Hl; lia).
  rewrite parse_written; [by rewrite Hr|by apply ascii_valid, sip_text_ascii|apply clean_lacks; [done|lia]|done].
Qed.

Lemma received_empty : received_body [] 0 = Ok [10].
Proof. reflexivity. Qed.

(** The first line, read. *)
Lemma request_read name target hs b :
  Forall printable (str name) -> str name <> [] -> starts_with (str "SIP/2.0") (str name) = false -> Forall printable target -> target <> [] ->
  message_of (str name ++ 32 :: target ++ str " SIP/2.0") hs b =
  {| method := Some (str name); status := None; uri := target; headers := hs; sip_body := b |}.
Proof.
  generalize (str name). intros a Hn Hne Hs Ht Htn. unfold message_of. change (str " SIP/2.0") with (32 :: str "SIP/2.0").
  rewrite split_whitespace_cons, split_whitespace_cons by done. rewrite split_whitespace_word; [|apply (bool_decide_unpack _); vm_compute; exact I|discriminate].
  change (default [] ([a; target; str "SIP/2.0"] !! 0%nat)) with a. by rewrite Hs.
Qed.

Lemma response_read hs b :
  message_of (str "SIP/2.0 " ++ str "200 OK") hs b =
  {| method := None; status := Some 200; uri := str "OK"; headers := hs; sip_body := b |}.
Proof. reflexivity. Qed.

(** Looking up a header among those written. *)
Ltac get_field :=
  rewrite ?headers_of_snoc; unfold headers_of; cbn [foldl fst snd];
  repeat (first [rewrite lookup_insert_eq | rewrite lookup_insert_ne by (let E := fresh in intros E; vm_compute in E; discriminate E)]).

(** ** The address of a sender *)

Lemma uri_user_written user h t :
  lacks 64 user -> Forall printable user -> user <> [] -> ends t ->
  uri_user (str "<sip:" ++ user ++ str "@" ++ h ++ str ">;tag=" ++ t) = Some user.
Proof.
  intros Hl Hu Hn Ht. unfold uri_user. rewrite trim_trimmed.
  - set (r := user ++ 64 :: h ++ str ">;tag=" ++ t).
    assert (trim_start_char 60 (str "<sip:" ++ user ++ str "@" ++ h ++ str ">;tag=" ++ t) = str "sip:" ++ r) as -> by done.
    assert (find_sub (str "sip:") (str "sip:" ++ r) = Some 0%nat) as -> by done. cbv zeta. change (drop (0 + 4) (str "sip:" ++ r)) with r.
    subst r. by rewrite split_once_app.
  - apply line_trimmed; [apply starts_app; starts_lit|]. by repeat apply ends_app.
Qed.

(** ** Names outside UTF-8 *)

Definition replacements (n : nat) : bytes := concat (replicate n REPLACEMENT).

Lemma lossy_name name r : Forall (fun b => is_cont b = true) name -> from_utf8_lossy (name ++ r) = replacements (length name) ++ from_utf8_lossy r.
Proof. unfold replacements. induction 1 as [|b name Hb _ IH]; [done|]. cbn [app length replicate concat]. by rewrite lossy_stray, IH, app_assoc. Qed.

Lemma length_replacements n : length (replacements n) = (3 * n)%nat.
Proof. unfold replacements. induction n as [|n IH]; [done|]. cbn [replicate concat]. rewrite length_app, IH. cbn [length REPLACEMENT]. lia. Qed.

Lemma replacements_lookup n i : (i < 3 * n)%nat -> replacements n !! i = REPLACEMENT !! (i mod 3)%nat.
Proof.
  unfold replacements. revert i. induction n as [|n IH]; intros i Hi; [lia|]. cbn [replicate concat]. destruct (decide (i < 3)%nat) as [Hlt|Hge].
  - rewrite lookup_app_l by done. by rewrite Nat.mod_small.
  - rewrite lookup_app_r by (cbn [length REPLACEMENT]; lia). cbn [length REPLACEMENT]. rewrite IH by lia. f_equal.
    replace i with ((i - 3) + 1 * 3)%nat at 2 by lia. by rewrite Nat.Div0.mod_add.
Qed.

(** Inside a run of replacements every third position is between characters. *)
Lemma replacements_boundary p n s k : (0 < k < 3 * n)%nat ->
  is_char_boundary (p ++ replacements n ++ s) (length p + k) = (k mod 3 =? 0)%nat.
Proof.
  intros Hk. unfold is_char_boundary. rewrite lookup_app_r by lia. replace (length p + k - length p)%nat with k by lia.
  rewrite lookup_app_l by (rewrite length_replacements; lia). rewrite replacements_lookup by lia.
  pose proof (Nat.mod_upper_bound k 3 ltac:(lia)) as Hm. rewrite (proj2 (Nat.eqb_neq (length p + k) 0)) by lia.
  destruct (k mod 3)%nat as [|[|[|j]]]; [done|done|done|lia].
Qed.

Definition gb_body (prefix name suffix : bytes) : bytes := prefix ++ name ++ suffix.

Lemma gb_received first hs prefix name suffix :
  clean first -> Forall sent_ok hs -> clean prefix -> clean suffix -> Forall (fun b => is_cont b = true) name ->
  let body := gb_body prefix name suffix in
  let garbled := prefix ++ replacements (length name) ++ suffix ++ [10] in
  body <> [] -> zlen body < 2 ^ 64 ->
  parse_sip (sip_text first (with_length hs body) body) =
  (b ← truncate garbled (length body); Ok (message_of first (headers_of (with_length hs body)) b)).
Proof.
  intros Hf Hh Hp Hs Hn body garbled Hne Hlen. subst body garbled. set (body := gb_body prefix name suffix) in *.
  assert (Forall sent_ok (with_length hs body)) as Hwl.
  { apply Forall_app_2; [done|]. apply Forall_singleton. split; [name_plain|]. split; [clean_lit|]. apply value_word, dec_printable. unfold zlen. lia. }
  apply sent_header_ok in Hwl as [Hho Hlv].
  assert (from_utf8_lossy (sip_text first (with_length hs body) body) =
    sip_text first (with_length hs body) (prefix ++ replacements (length name) ++ suffix)) as Hlossy.
  { pose proof (sip_text_ascii first (with_length hs body) prefix Hf Hlv (clean_ascii _ Hp)) as Ha. subst body. unfold gb_body at 2.
    assert (forall t, sip_text first (with_length hs (gb_body prefix name suffix)) (prefix ++ t) =
      sip_text first (with_length hs (gb_body prefix name suffix)) prefix ++ t) as Happ by (intros t; unfold sip_text; by rewrite <-!app_assoc).
    rewrite !Happ, lossy_ascii by done. f_equal. rewrite lossy_name by done. f_equal.
    rewrite <-(app_nil_r suffix) at 1. rewrite lossy_ascii by by apply clean_ascii. by rewrite app_nil_r. }
  unfold parse_sip. rewrite Hlossy, sip_text_split by (done || (apply clean_lacks; [done|lia])).
  rewrite header_lines_written by done. rewrite length_header_written, zlen_parsed by done.
  rewrite split_crlf_last.
  2: { unfold lacks. rewrite !elem_of_app. intros [Hin|[Hin|Hin]]; [by revert Hin; apply (clean_lacks 13); [done|lia]| |by revert Hin; apply (clean_lacks 13); [done|lia]].
       apply list_elem_of_lookup in Hin as (i & Hi). pose proof (lookup_lt_Some _ _ _ Hi) as Hlt. rewrite length_replacements in Hlt.
       rewrite replacements_lookup in Hi by done. apply list_elem_of_lookup_2 in Hi. revert Hi. unfold REPLACEMENT. not_in. }
  unfold rejoin. cbn [fmap list_fmap concat]. rewrite app_nil_r, <-!app_assoc.
  assert (0 < zlen body) by (unfold zlen; destruct body; [done|cbn; lia]).
  assert (zlen body < zlen (prefix ++ replacements (length name) ++ suffix ++ [10])) as Hlt.
  { subst body. unfold gb_body, zlen. rewrite !length_app, length_replacements. cbn [length]. lia. }
  rewrite (proj2 (Z.ltb_lt 0 _)), (proj2 (Z.ltb_lt _ _) Hlt) by done. cbn [andb].
  unfold zlen at 1. rewrite Nat2Z.id. done.
Qed.

(** ** What stops the receive loop *)

(** A keep-alive whose interval, three times, has no 64 bits. *)
Definition long_interval (msg : SipMessage) : Prop :=
  exists root i, parse_xml (sip_body msg) = Ok root /\ text_of root (str "CmdType") = Some (str "Keepalive") /\
    (trimmed_text root "Interval" ≫= parse_u64) = Some i /\ 2 ^ 64 <= i * 3.

Section Loop.
Context `{AuthPrimitives} (parse_ip : bytes -> option bytes) (walk : forall A : Type, gmap bytes A -> list (bytes * A)).

Lemma handle_message_outcome w s a msg :
  (handle_message w s a msg = Panic /\ long_interval msg) \/ (~ long_interval msg /\ exists o, handle_message w s a msg = Ok o).
Proof.
  unfold handle_message, long_interval. match goal with |- context [handle_command ?x _ _] => generalize x end. intros s1.
  pose proof (safe_inv _ (parse_xml_safe (sip_body msg))) as [[root Hx]|[e Hx]]; rewrite Hx.
  2: { right. split; [intros (r & i & Hr & _); congruence|]. by eexists. }
  unfold handle_command. destruct (text_of root (str "CmdType")) as [cmd|] eqn:Ec.
  2: { right. split; [intros (r & i & [= <-] & Hc & _); congruence|]. by eexists. }
  case_bool_decide as Hk.
  - subst cmd. destruct (trimmed_text root "Interval" ≫= parse_u64) as [i|] eqn:Ei.
    + unfold keepalive_expires. destruct (Z.ltb_spec (i * 3) (2 ^ 64)).
      * right. split; [intros (r & j & [= <-] & _ & Hj & Hbig); rewrite Ei in Hj; injection Hj as <-; lia|]. by eexists.
      * left. split; [done|]. by exists root, i.
    + right. split; [intros (r & j & [= <-] & _ & Hj & _); congruence|]. by eexists.
  - right. split; [intros (r & j & [= <-] & Hc & _); congruence|].
    repeat case_bool_decide; cbn [mbind outcome_bind]; [destruct (forward_query_response _ _)| destruct (forward_query_response _ _)|]; by eexists.
Qed.

(** The receive loop answers every datagram except two kinds, on which its
    task panics: one whose Content-Length lies inside a character of its longer
    body, and a keep-alive with an interval of a third of 2^64 or more.  A
    message with its correct length is of the first kind when it carries enough
    text outside UTF-8: each such byte becomes the three of U+FFFD, and the
    cut lands between them; otherwise the end of its body is lost. *)
Theorem sip_datagram_panics :
  (forall w s a data,
     (receive parse_ip walk w s a data = Panic <->
        cut_inside (take 4096 data) \/
        exists m, parse_sip (take 4096 data) = Ok m /\ method m = Some (str "MESSAGE") /\ long_interval m) /\
     (receive parse_ip walk w s a data <> Panic -> exists o, receive parse_ip walk w s a data = Ok o)) /\
  (forall w s a first hs prefix name suffix,
     clean first -> Forall sent_ok hs -> clean prefix -> clean suffix -> Forall (fun b => is_cont b = true) name ->
     let body := gb_body prefix name suffix in
     let data := sip_text first (with_length hs body) body in
     zlen data <= 4096 -> zlen suffix < 2 * zlen name ->
     (receive parse_ip walk w s a data = Panic <-> (zlen suffix + zlen name) mod 3 <> 0 \/
        exists m, parse_sip (take 4096 data) = Ok m /\ method m = Some (str "MESSAGE") /\ long_interval m) /\
     (forall m, parse_sip data = Ok m -> sip_body m = take (length body) (prefix ++ replacements (length name)))).
Proof.
  assert (forall w s a data,
     (receive parse_ip walk w s a data = Panic <->
        cut_inside (take 4096 data) \/
        exists m, parse_sip (take 4096 data) = Ok m /\ method m = Some (str "MESSAGE") /\ long_interval m) /\
     (receive parse_ip walk w s a data <> Panic -> exists o, receive parse_ip walk w s a data = Ok o)) as Hloop.
  { intros w s a data. unfold receive. destruct (parse_sip_outcome (take 4096 data)) as [[Hp Hc]|[Hc [m Hm]]].
    - rewrite Hp. split; [|done]. split; [by left|done].
    - rewrite Hm. cbn [mbind outcome_bind]. destruct (method m) as [x|] eqn:Ex.
      + destruct (decide (x = str "MESSAGE")) as [->|Hne].
        * rewrite bool_decide_false by discriminate. rewrite bool_decide_true by done.
          destruct (handle_message_outcome w s a m) as [[-> Hl]|[Hl [o ->]]].
          -- split; [|done]. split; [intros _; right; by exists m|done].
          -- split; [|by eexists]. split; [done|]. intros [?|(m' & [= <-] & _ & ?)]; done.
        * match goal with |- (?r = Panic <-> _) /\ _ => assert (exists o, r = Ok o) as [o ->] end.
          { repeat case_bool_decide; (done || by eexists). }
          split; [|by eexists]. split; [done|]. intros [?|(m' & [= <-] & Hx & _)]; congruence.
      + split; [|by eexists]. split; [done|]. intros [?|(m' & [= <-] & Hx & _)]; congruence. }
  split; [exact Hloop|]. intros w s a first hs prefix name suffix Hf Hh Hp Hs Hn body data Hlen Hshort.
  assert (take 4096 data = data) as Htake by (apply take_ge; unfold zlen in Hlen; lia).
  assert (body <> []) as Hne.
  { intros Hb. apply app_eq_nil in Hb as [_ [-> _]%app_eq_nil]. unfold zlen in Hshort. cbn in Hshort. lia. }
  assert (zlen body < 2 ^ 64) as Hbig.
  { assert (zlen body <= zlen data); [|lia]. subst data. unfold sip_text, zlen. rewrite !length_app. lia. }
  pose proof (gb_received first hs prefix name suffix Hf Hh Hp Hs Hn Hne Hbig) as Hparse. fold body in Hparse. fold data in Hparse.
  set (k := (length name + length suffix)%nat). assert (length body = (length prefix + k)%nat) as Hk.
  { subst body k. unfold gb_body. rewrite !length_app. lia. }
  assert (0 < k < 3 * length name)%nat as Hkr by (unfold zlen in Hshort; subst k; lia).
  assert (truncate (prefix ++ replacements (length name) ++ suffix ++ [10]) (length body) =
    if (k mod 3 =? 0)%nat then Ok (take (length body) (prefix ++ replacements (length name))) else Panic) as Htr.
  { unfold truncate. rewrite (proj2 (Nat.ltb_ge _ _)) by (rewrite !length_app, length_replacements; lia).
    rewrite Hk, replacements_boundary by done. destruct (k mod 3 =? 0)%nat; [|done]. f_equal. rewrite app_assoc, take_app_le; [done|].
    rewrite length_app, length_replacements. lia. }
  assert (((zlen suffix + zlen name) mod 3 <> 0) <-> (k mod 3 =? 0)%nat = false) as Hmod.
  { rewrite Nat.eqb_neq. unfold zlen. subst k. rewrite <-Nat2Z.inj_add, (Nat.add_comm (length suffix)). change 3 with (Z.of_nat 3). rewrite <-Nat2Z.inj_mod. lia. }
  destruct (Hloop w s a data) as [Hl _]. rewrite Htake in *. split.
  - rewrite Hl, Hmod. destruct (parse_sip_outcome data) as [[Hpn Hc]|[Hc [m Hm]]].
    + rewrite Hparse, Htr in Hpn. destruct (k mod 3 =? 0)%nat; [done|]. split; [by left|by left].
    + pose proof Hm as Hm'. rewrite Hparse, Htr in Hm'. destruct (k mod 3 =? 0)%nat; [|done]. split; intros [?|?]; (done || by right).
  - intros m Hm. rewrite Hparse, Htr in Hm. destruct (k mod 3 =? 0)%nat; [|done]. cbn [mbind outcome_bind] in Hm. injection Hm as <-.
    unfold message_of. by destruct (starts_with _ _).
Qed.
End Loop.
