(* ===== verification/SipCatalog.v ===== *)
(** * SipCatalog: a query and its answer

    A [Catalog] query of the server of [SipServer] is read by its device; the
    answer the device writes, any list of channels, reaches the caller that
    asked and the table of devices. *)

From S2P Require Import Prelude Frame F64 Utf8 Text Auth Xml SipMsg SipServer SipTrip.
#[local] Open Scope Z_scope.
#[local] Set Warnings "-clear-no-such-hyp".

(** ** The texts of the server's own requests *)

















Lemma request_line_shape name user a : request_line name user a = str name ++ 32 :: sip_uri user (ip a) (port a) ++ str " SIP/2.0".
Proof. reflexivity. Qed.


(** ** Elements *)









(** ** Channels *)



















(** *** The documents are read back *)











(** ** The question *)








Section Query.
Context `{AuthPrimitives} (parse_ip : bytes -> option bytes) (walk : forall A : Type, gmap bytes A -> list (bytes * A)).


(** ** The answer *)




End Query.

(** ** A short query *)





